(* ===== verification/_CoqProject ===== *)
-Q . S2P
Prelude.v
Types.v
Fees.v
Validators.v
Stake.v
Thermostat.v
Storage.v
Tracker.v
Ingress.v
Domains.v
Staged.v
Coins.v
Ledger.v
Ops.v
Dag.v
Execution.v
Attest.v
SystemPod.v
Transfers.v
Vertices.v
Gaps.v
Anchor.v
Agreement.v
Forks.v
Persist.v
Resume.v
Smt.v
Merkle.v
Index.v
IndexFacts.v
Retention.v
Feed.v
Honest.v
Header.v
Commit.v
Supply.v
Once.v
Leaks.v
Epoch.v
Rewards.v
Admission.v
Cursor.v
Replica.v
Vetting.v
Relay.v
Clock.v
Scenarios.v
Restart.v
Wiring.v
Exposures.v
Runs.v
Wire.v
LightClient.v
Trust.v
Proved.v
Bundle.v
Serving.v
Joins.v
Snapshot.v
SnapshotFacts.v
Sync.v
Joined.v
Gate.v
Rejoin.v
Builders.v
Wallet.v
WalletFacts.v
Daemon.v
DaemonFacts.v
Endpoint.v
Submission.v
Journeys.v
Outages.v
Transport.v
TransportFacts.v
Genesis.v
Recovery.v
PodVM.v
Residue.v
Startup.v
