(* ===== verification/Prelude.v ===== *)
(** * BluePods: a verification development

    BluePods is a ledger of owned objects.  Validators exchange signed vertices that
    form a DAG; an anchor rule picks one vertex per round, its causal history is
    applied in one order by every validator, and a Merkle index over the result is
    anchored in the next vertices, so that light clients can check what a node tells
    them.  Objects are sharded over holders, and a transaction over them carries
    quorum proofs that a client daemon collects.  This library models the Go code under
    src/internal, src/cmd/node, src/pkg/client and src/pkg/daemon, one file per component.

    ** The parts and their files

    Shared: [Prelude] (Go integers, bytes, list, sum and map lemmas, tactics, hint
    databases), [Types] (the wire tables, the cryptographic parameters [Crypto]),
    [Storage] (storage/storage.go over the class [Pebble], the ordered key-value engine
    with its documented laws; [gmap] is an instance).

    The ledger and the commit path (internal/consensus, internal/state).
    - [Fees], [Thermostat], [Stake], [Validators]: fees.go, thermostat.go, stake.go with
      the certification predicates, validators.go.
    - [Tracker], [Domains], [Staged], [Ops]: object versions and parent edges, leases,
      the overlay of a list of declared operations, and its application.
    - [Ingress], [Coins], [Ledger], [Dag]: transaction shape and authenticity, coins and
      delegation with the supply counters, the state handlers share, membership and
      regime.
    - [Commit], [Epoch]: the transaction path of commit.go and the epoch boundary.
      [Supply], [Once], [Leaks] and [Rewards] hold the theorems about them.
    - [Execution], [SystemPod], [Wiring], [PodVM]: state.Execute with its output rules,
      the system pod, the callbacks a node is wired with, the module pool with its host
      functions and the instantiation of a module.  [Transfers], [Runs] and [Exposures] hold the theorems.

    The DAG (internal/consensus).
    - [Vertices], [Gaps], [Anchor], [Header], [Admission], [Cursor]: the vertex store and
      the causal batch, the walks of gap recovery, the anchor rule, headers and fault
      evidence, what is checked of a vertex, production, and the tick of the commit loop.
      [Agreement], [Forks], [Replica], [Vetting], [Relay], [Scenarios], [Clock] and
      [Honest] hold the theorems.
    - [Persist], [Resume], [Restart]: the metadata a node writes with its cursor, the blob
      a snapshot carries, and what a restart recovers.

    The index and its clients (internal/index, pkg/client).
    - [Smt], [Merkle], [Index], [IndexFacts], [Retention], [Feed]: the sparse
      Merkle tree and its oracle, the four trees, the manager and what feeds it.
    - [Wire], [LightClient], [Bundle]: every message codec, what a light client checks,
      the bundles and proved answers a node serves.  [Trust], [Proved], [Serving] and
      [Joins] hold the theorems.

    Joining and starting (internal/sync, cmd/node).
    - [Snapshot], [SnapshotFacts], [Sync], [Joined], [Gate], [Rejoin], [Residue]: the
      snapshot, the construction of a joiner, the gate, and what a join leaves behind.
    - [Genesis], [Startup]: the founding state, flags, run paths with what each start writes
      to its directory, and counters.

    Submitting (pkg/client, pkg/daemon, internal/genesis, internal/attest, internal/network).
    - [Attest], [Builders], [Wallet], [WalletFacts], [Recovery]: rendezvous, attestations
      and quorum proofs, the transaction builders, the wallet and its recovery.
    - [Daemon], [DaemonFacts], [Endpoint], [Submission], [Journeys], [Outages]: the
      collection of proofs, the node's client and gossip surface with the fetcher of
      missing vertices, the path from a wallet
      to the commit path, and requests that disable.
    - [Transport], [TransportFacts]: frames, the per-address gate, gossip deduplication, the
      peer map.

    State is passed explicitly.  [Ledger] is the tracker, the registry, the coin store, the
    live validators, the index feed and the outcomes; [DAG] adds regime, committees and
    reward buckets; [Admission.Node] adds the vertex store, the pending buffer, the cursor
    and the metadata.  What is injected into a node is a field of [Env].

    ** How code is represented

    A Go [uint64] is a [Z] with its wrap-around written out ([+w], [-w], [*w]); [safeAdd]
    and [safeMul] saturate as the code does.  A [[32]byte] is a list of bytes and the
    code's length tests are kept.  A result in [option] is [None] where the code panics, or
    where the file's comment says that it is an error; errors that callers tell apart are
    values of a sum.  A mutex-protected method is one step; where goroutines interleave
    (the client gate, gossip deduplication, attestation answers, vertex requests) the
    theorems quantify over the order of the steps.  [sort.Slice] is a merge sort.

    Outside the repository, and so parameters: BLAKE3 (collision-freedom is asked only of
    the inputs a statement names), Ed25519 and BLS, the FlatBuffers encoding, zstd,
    Pebble, the WebAssembly engine, QUIC, the clock.  The laws asked of them are classes or
    hypotheses, and a concrete instance witnesses each property that has one.  The token
    bucket's [float64] is idealised as integers of its unit.

    ** What the theorems show

    - Replicas ([Replica], [Agreement], [Cursor], [Once], [Vetting], [Relay]): nodes that
      decide alike compute the same state and the same durable batch; the anchor rule
      agrees across views that decide a round in compatible ways, as long as what a view
      takes for silence beyond the next round is silence, and [Forks] shows how the other
      combinations disagree; stored vertices are genuine, a validator's own pass every
      check of a peer ([Clock]), a transaction takes effect once, every tick terminates.
    - Conservation ([Supply], [Wiring], [Rewards], [Genesis], [Transfers]): coins + bonded +
      deposits + fees = supply over a transaction, created objects included, over an epoch
      boundary and at genesis, under the conditions [txPre], [podHonours] and [epochPre];
      [Leaks] shows what goes wrong without them.
    - Ownership ([Ops], [Runs], [Tracker]): declared operations are all or nothing and end in
      the staged state, others' objects are untouched, an execution reaches only what its
      header names, the parent forest is an invariant.
    - Proofs ([Merkle], [IndexFacts], [Retention], [Proved], [Trust], [Serving]): the
      incremental tree is the oracle, accepted answers are what the index stores, a client
      only trusts what two thirds of the stake of a committee without repeated leaves
      signed, what a node serves is accepted.
    - Joining and restarting ([Joined], [Gate], [SnapshotFacts], [Serving], [Resume],
      [Startup]): a joiner over a fresh directory holds its source's state, goes live only
      on an attested root, and a directory is resumed only when a start earned it, whatever
      snapshots and writes came in between.
    - Submitting ([WalletFacts], [DaemonFacts], [Submission], [Recovery], [Wire]): what a
      wallet signs asks for what the operation means and passes the gates, a quorum of
      answers leads to a transaction that is charged and run whatever their order, recovery
      finds all a key controls, codecs round trip.
    - Resources ([PodVM], [TransportFacts], [Fees], [Startup]): metered modules end, the gate
      counts exactly, gossip is delivered once per window, a fee is its formula capped.
    - Runs that depart from what a comment or a document promises are theorems beside the
      component they concern, in [Leaks], [Forks], [Exposures], [Scenarios], [Restart],
      [Rejoin], [Residue], [Outages], [Startup], [TransportFacts], [Recovery] and [Genesis].

    ** Fuel

    Where the code itself bounds a loop the bound is the fuel, and the model stops where
    the code stops: [walkDepthLimit], [ancestorWalkLimit] and [recoveryDepthLimit] are 256,
    the Merkle tree has 256 levels, the daemon makes [maxRetries + 1] attempts, the gate
    makes one poll per view.  Elsewhere a theorem shows the fuel to be enough:
    [collectCausal_total] and [rootsLoop_total] for the walks of the store,
    [commitRounds_total] and [checkCommits_terminates] for the commit loop, [passes_settle]
    for the pending buffer, [decodeLoop_fuel] for the decoders, [range_is_served] for vertex
    ranges, [metered_module_ends] for a guest, [formatDigits_spec] for the twenty digits of a
    64-bit number.  All other loops are folds over lists.

    ** Not modelled

    The WebAssembly engine, QUIC, TLS and dialling, and the generated FlatBuffers accessors
    (libraries and generated code); events and logging (no effect on state); flags beyond
    those that choose a run path; the command line, the console and the dashboard (they
    print what [Wallet] and [Endpoint] return); the test hooks, harness and scenarios; JSON
    text of the wallet file; the key encoding of the vertex store's four maps; the pods
    other than the system pod. *)

From stdpp Require Export base list gmap sorting strings.
From Stdlib Require Export ZArith Lia.

Declare Scope go_scope.
Delimit Scope go_scope with go.
#[global] Open Scope Z_scope.

(** ** Machine integers

    A Go [uint64], [uint32], [uint16] or [byte] is a [Z] kept in range by its
    operations: wrap-around is the reduction modulo the width. *)

Abbreviation two64 := 18446744073709551616.
Abbreviation max64 := 18446744073709551615.
Abbreviation two32 := 4294967296.

Definition is_u64 (z : Z) : Prop := 0 <= z < two64.

Definition u64 (z : Z) : Z := z mod two64.
Definition u32 (z : Z) : Z := z mod two32.

(** Go's [a + b], [a - b] and [a * b] on [uint64]. *)
Definition add64 (a b : Z) : Z := u64 (a + b).
Definition sub64 (a b : Z) : Z := u64 (a - b).
Definition mul64 (a b : Z) : Z := u64 (a * b).

Notation "a +w b" := (add64 a b) (at level 50, left associativity) : go_scope.
Notation "a -w b" := (sub64 a b) (at level 50, left associativity) : go_scope.
Notation "a *w b" := (mul64 a b) (at level 40, left associativity) : go_scope.
#[global] Open Scope go_scope.

Create HintDb go discriminated.
Create Rewrite HintDb go.
Create HintDb u64db discriminated.

(** Unfold the width predicates and let [lia] finish. *)
Ltac u64_lia :=
  unfold is_u64, add64, sub64, mul64, u64, u32 in *; lia.

(** Case analysis on every boolean comparison and [decide] in sight. *)
Ltac split_ifs :=
  repeat match goal with
  | |- context [if ?b then _ else _] =>
      lazymatch b with context [if _ then _ else _] => fail | _ => destruct b eqn:? end
  | H : context [if ?b then _ else _] |- _ =>
      lazymatch b with context [if _ then _ else _] => fail | _ => destruct b eqn:? end
  end.

(** Turn boolean facts on [Z] comparisons into propositions. *)
Ltac zb :=
  repeat match goal with
  | H : (_ <? _) = true |- _ => apply Z.ltb_lt in H
  | H : (_ <? _) = false |- _ => apply Z.ltb_ge in H
  | H : (_ <=? _) = true |- _ => apply Z.leb_le in H
  | H : (_ <=? _) = false |- _ => apply Z.leb_gt in H
  | H : (_ =? _) = true |- _ => apply Z.eqb_eq in H
  | H : (_ =? _) = false |- _ => apply Z.eqb_neq in H
  | H : (_ && _)%bool = true |- _ => apply andb_true_iff in H; destruct H
  | H : (_ || _)%bool = false |- _ => apply orb_false_iff in H; destruct H
  | H : negb _ = true |- _ => apply negb_true_iff in H
  | H : negb _ = false |- _ => apply negb_false_iff in H
  | H : bool_decide _ = true |- _ => apply bool_decide_eq_true in H
  | H : bool_decide _ = false |- _ => apply bool_decide_eq_false in H
  end.

Lemma u64_small z : is_u64 z -> u64 z = z.
Proof. intros H. apply Z.mod_small. exact H. Qed.

Lemma u64_range z : is_u64 (u64 z).
Proof. apply Z.mod_pos_bound. lia. Qed.

Lemma add64_exact a b : is_u64 a -> is_u64 b -> a + b < two64 -> a +w b = a + b.
Proof. intros. apply u64_small. u64_lia. Qed.

Lemma sub64_exact a b : is_u64 a -> 0 <= b <= a -> a -w b = a - b.
Proof. intros. apply u64_small. u64_lia. Qed.

#[export] Hint Resolve u64_range : u64db.

(** ** Byte strings

    A [[]byte] is a list of [Z] bytes; a [[32]byte] array ([Hash]) is one of
    length 32, which the codecs below state where they rely on it. *)

Abbreviation bytes := (list Z).
Abbreviation Hash := (list Z).

Definition is_byte (z : Z) : Prop := 0 <= z < 256.
Definition wf_bytes (l : bytes) : Prop := Forall is_byte l.

(** The zero value [Hash{}]. *)
Definition zeroHash : Hash := replicate 32 0.

(** [copy(h[:], b)] into a zeroed [[32]byte]. *)
Definition toHash (b : bytes) : Hash := take 32 (b ++ replicate 32 0).

(** [hash32]: a 32-byte slice as a [Hash], [None] on any other length. *)
Definition hash32 (b : bytes) : option Hash :=
  if decide (length b = 32%nat) then Some b else None.

(** [binary.LittleEndian]/[BigEndian] on [n] bytes. *)
Fixpoint le_enc (n : nat) (z : Z) : bytes :=
  match n with
  | O => []
  | S n => z mod 256 :: le_enc n (z / 256)
  end.

Fixpoint le_dec (l : bytes) : Z :=
  match l with
  | [] => 0
  | b :: l => b + 256 * le_dec l
  end.

Definition be_enc (n : nat) (z : Z) : bytes := rev (le_enc n z).
Definition be_dec (l : bytes) : Z := le_dec (rev l).

(** The slice [b[i:i+n]]. *)
Definition slice (i n : nat) (b : bytes) : bytes := take n (drop i b).

Lemma length_le_enc n z : length (le_enc n z) = n.
Proof. revert z; induction n; intros; simpl; auto. Qed.

Lemma length_be_enc n z : length (be_enc n z) = n.
Proof. unfold be_enc. by rewrite length_rev, length_le_enc. Qed.

#[export] Hint Rewrite length_le_enc length_be_enc : go.

Lemma le_dec_enc_mod n z : le_dec (le_enc n z) = z mod 256 ^ Z.of_nat n.
Proof.
  revert z; induction n as [|n IH]; intros z.
  - simpl. by rewrite Z.mod_1_r.
  - cbn [le_enc le_dec]. rewrite IH.
    rewrite Nat2Z.inj_succ, Z.pow_succ_r by lia.
    rewrite Z.rem_mul_r by (try apply Z.pow_nonzero; lia). lia.
Qed.

Lemma le_dec_enc n z : 0 <= z < 256 ^ Z.of_nat n -> le_dec (le_enc n z) = z.
Proof. intros. by rewrite le_dec_enc_mod, Z.mod_small. Qed.

Lemma be_dec_enc n z : 0 <= z < 256 ^ Z.of_nat n -> be_dec (be_enc n z) = z.
Proof. intros. unfold be_dec, be_enc. rewrite rev_involutive. by apply le_dec_enc. Qed.

Lemma le_dec_bound l : wf_bytes l -> 0 <= le_dec l < 256 ^ Z.of_nat (length l).
Proof.
  induction 1 as [|b l Hb Hl IH]; simpl le_dec; simpl length.
  - simpl. lia.
  - rewrite Nat2Z.inj_succ, Z.pow_succ_r by lia. unfold is_byte in Hb. nia.
Qed.

Lemma wf_le_enc n z : wf_bytes (le_enc n z).
Proof.
  revert z; induction n as [|n IH]; intros z; simpl; constructor; [|apply IH].
  apply Z.mod_pos_bound. lia.
Qed.

Lemma wf_be_enc n z : wf_bytes (be_enc n z).
Proof. apply Forall_rev, wf_le_enc. Qed.

#[export] Hint Resolve wf_le_enc wf_be_enc : go.

#[global] Arguments le_enc : simpl never.
#[global] Arguments le_dec : simpl never.
#[global] Arguments slice : simpl never.

(** Slicing a concatenation whose parts have known lengths. *)
Lemma slice_app_r i n (a b : bytes) :
  (length a <= i)%nat -> slice i n (a ++ b) = slice (i - length a) n b.
Proof. intros. unfold slice. by rewrite drop_app_ge. Qed.

Lemma slice_app_l n (a b : bytes) : length a = n -> slice 0 n (a ++ b) = a.
Proof. intros <-. unfold slice. by rewrite drop_0, take_app_length. Qed.

Lemma slice_whole n (a : bytes) : length a = n -> slice 0 n a = a.
Proof. intros <-. unfold slice. by rewrite drop_0, take_ge. Qed.

(** Read one field out of a fixed-layout record. *)
Ltac slice_simpl :=
  repeat first
    [ rewrite slice_app_l by (autorewrite with go; first [reflexivity | assumption])
    | rewrite slice_whole by (autorewrite with go; first [reflexivity | assumption])
    | rewrite slice_app_r by (autorewrite with go; simpl; lia);
      autorewrite with go; simpl Nat.sub ].

Lemma hash32_Some b h : hash32 b = Some h <-> b = h /\ length h = 32%nat.
Proof. unfold hash32. case_decide; split.
  - intros [= ->]. done.
  - intros [-> _]. done.
  - done.
  - intros [-> ?]. done. Qed.

Lemma toHash_id b : length b = 32%nat -> toHash b = b.
Proof. intros H. unfold toHash. by rewrite take_app_le, take_ge by lia. Qed.

(** ** Byte order

    [bytes.Compare(a, b) <= 0]: lexicographic, a prefix first. *)

Fixpoint bytes_leb (a b : bytes) : bool :=
  match a, b with
  | [], _ => true
  | _ :: _, [] => false
  | x :: a, y :: b => (x <? y) || ((x =? y) && bytes_leb a b)
  end.

Definition bytes_ltb (a b : bytes) : bool := negb (bytes_leb b a).

Definition bytes_le (a b : bytes) : Prop := bytes_leb a b = true.

#[export] Instance bytes_le_dec : RelDecision bytes_le.
Proof. intros a b. unfold bytes_le. apply _. Defined.

#[export] Instance bytes_le_trans : Transitive bytes_le.
Proof.
  unfold bytes_le. intros a. induction a as [|x a IH]; intros [|y b] [|z c]; simpl; try done.
  intros H1 H2. rewrite orb_true_iff, andb_true_iff in *.
  rewrite !Z.ltb_lt, !Z.eqb_eq in *.
  destruct H1 as [?|[-> ?]], H2 as [?|[-> ?]]; try (left; lia).
  right; split; [lia|]. by apply (IH b).
Qed.

#[export] Instance bytes_le_total : Total bytes_le.
Proof.
  unfold bytes_le. intros a. induction a as [|x a IH]; intros [|y b]; simpl; auto.
  destruct (Z.ltb_spec x y); [by left|].
  destruct (Z.ltb_spec y x); [by right|].
  assert (x = y) as -> by lia. rewrite !Z.eqb_refl; simpl. apply IH.
Qed.

#[export] Instance bytes_le_antisymm : AntiSymm eq bytes_le.
Proof.
  unfold bytes_le. intros a. induction a as [|x a IH]; intros [|y b]; simpl; try done.
  intros H1 H2. rewrite orb_true_iff, andb_true_iff in *.
  rewrite !Z.ltb_lt, !Z.eqb_eq in *.
  destruct H1 as [?|[-> ?]], H2 as [?|[? ?]]; try lia.
  f_equal. by apply IH.
Qed.

(** [sort.Slice] on hashes by [bytes.Compare]. The order is total and
    antisymmetric, so every sorting algorithm returns this list. *)
Definition sortHashes (l : list Hash) : list Hash := merge_sort bytes_le l.

Lemma sortHashes_sorted l : Sorted bytes_le (sortHashes l).
Proof. apply (Sorted_merge_sort bytes_le). Qed.

Lemma sortHashes_perm l : sortHashes l ≡ₚ l.
Proof. apply (merge_sort_Permutation bytes_le). Qed.

Lemma sortHashes_proper l1 l2 : l1 ≡ₚ l2 -> sortHashes l1 = sortHashes l2.
Proof.
  intros Hp. apply (Sorted_unique bytes_le).
  - apply sortHashes_sorted.
  - apply sortHashes_sorted.
  - by rewrite !sortHashes_perm.
Qed.

Lemma length_sortHashes l : length (sortHashes l) = length l.
Proof. by rewrite sortHashes_perm. Qed.

Lemma elem_of_sortHashes l x : x ∈ sortHashes l <-> x ∈ l.
Proof. by rewrite sortHashes_perm. Qed.

#[export] Hint Resolve sortHashes_sorted sortHashes_perm : go.

(** ** Sums *)

Definition sumZ (l : list Z) : Z := foldr Z.add 0 l.

Lemma sumZ_app l1 l2 : sumZ (l1 ++ l2) = sumZ l1 + sumZ l2.
Proof. induction l1; simpl; lia. Qed.

Lemma sumZ_perm l1 l2 : l1 ≡ₚ l2 -> sumZ l1 = sumZ l2.
Proof. induction 1; simpl; lia. Qed.

Lemma sumZ_nonneg l : Forall (fun z => 0 <= z) l -> 0 <= sumZ l.
Proof. induction 1; simpl; lia. Qed.

Lemma sumZ_map_le {A} (f g : A -> Z) l :
  (forall x, x ∈ l -> f x <= g x) -> sumZ (map f l) <= sumZ (map g l).
Proof.
  induction l as [|a l IH]; intros H; simpl; [lia|].
  pose proof (H a ltac:(left)). specialize (IH ltac:(intros; apply H; by right)). lia.
Qed.

Lemma sumZ_map_add {A} (f g : A -> Z) l :
  sumZ (map (fun x => f x + g x) l) = sumZ (map f l) + sumZ (map g l).
Proof. induction l; simpl; lia. Qed.

Lemma sumZ_map_nonneg {A} (f : A -> Z) l :
  (forall x, x ∈ l -> 0 <= f x) -> 0 <= sumZ (map f l).
Proof.
  intros H. apply sumZ_nonneg. rewrite Forall_map, Forall_forall. exact H.
Qed.

Lemma sumZ_elem_le {A} (f : A -> Z) l x :
  (forall y, y ∈ l -> 0 <= f y) -> x ∈ l -> f x <= sumZ (map f l).
Proof.
  induction l as [|a l IH]; intros Hn Hx; [by inversion Hx|].
  pose proof (Hn a ltac:(left)).
  pose proof (sumZ_map_nonneg f l ltac:(intros; apply Hn; by right)).
  apply elem_of_cons in Hx as [->|Hx]; simpl; [lia|].
  specialize (IH ltac:(intros; apply Hn; by right) Hx). lia.
Qed.

(** ** Lists updated in place *)

Lemma list_delete_insert_same {A} (i : nat) (x : A) (l : list A) : delete i (<[i := x]> l) = delete i l.
Proof. revert i; induction l; intros [|i]; simpl; f_equal; auto. Qed.

(** A sum over a list in which one position is rewritten. *)
Lemma sumZ_alter {A} (g : A -> Z) (f : A -> A) (l : list A) (i : nat) v :
  l !! i = Some v -> sumZ (map g (alter f i l)) = sumZ (map g l) - g v + g (f v).
Proof.
  revert i; induction l as [|a l IH]; intros [|i] H; simpl in *; try done.
  - simplify_eq. lia.
  - fold (alter f i l). rewrite (IH i H). lia.
Qed.

(** ** Sums over sets and maps *)

Definition setSum (f : Hash -> Z) (K : gset Hash) : Z := sumZ (map f (elements K)).

Lemma sumZ_map_ext {A} (f g : A -> Z) l : (forall x, x ∈ l -> f x = g x) -> sumZ (map f l) = sumZ (map g l).
Proof.
  induction l as [|a l IH]; intros H; simpl; [done|].
  rewrite (H a) by left. rewrite IH; [done|]. intros. apply H. by right.
Qed.

Lemma setSum_split f K id : id ∈ K -> setSum f K = f id + setSum f (K ∖ {[id]}).
Proof.
  intros Hid. unfold setSum.
  rewrite (union_difference_singleton_L id K) at 1 by done.
  assert (Hp : elements ({[id]} ∪ K ∖ {[id]}) ≡ₚ id :: elements (K ∖ {[id]}))
    by (apply elements_union_singleton; set_solver).
  rewrite (sumZ_perm _ _ (Permutation_map f Hp)). done.
Qed.

(** A sum in which one term changes. *)
Lemma setSum_update f g K id :
  id ∈ K -> (forall x, x <> id -> g x = f x) -> setSum g K = setSum f K - f id + g id.
Proof.
  intros Hid Hx. rewrite !(setSum_split _ K id) by done.
  assert (setSum g (K ∖ {[id]}) = setSum f (K ∖ {[id]})) as ->; [|lia].
  apply sumZ_map_ext. intros x Hin. apply Hx. set_solver.
Qed.

Lemma setSum_ext f g K : (forall x, x ∈ K -> g x = f x) -> setSum g K = setSum f K.
Proof. intros Hx. apply sumZ_map_ext. intros x Hin. apply Hx. set_solver. Qed.

Lemma setSum_ge f K id : (forall x, x ∈ K -> 0 <= f x) -> id ∈ K -> f id <= setSum f K.
Proof.
  intros Hn Hid. unfold setSum. apply sumZ_elem_le; [|set_solver].
  intros y Hy. apply Hn. set_solver.
Qed.

Lemma setSum_nonneg f K : (forall x, x ∈ K -> 0 <= f x) -> 0 <= setSum f K.
Proof. intros Hn. apply sumZ_map_nonneg. intros y Hy. apply Hn. set_solver. Qed.

Definition mapSum `{Countable K} {A} (f : A -> Z) (m : gmap K A) : Z := sumZ (map (fun kv => f (snd kv)) (map_to_list m)).

Lemma mapSum_insert_new `{Countable K} {A} (f : A -> Z) (m : gmap K A) k v :
  m !! k = None -> mapSum f (<[k := v]> m) = f v + mapSum f m.
Proof.
  intros Hn. unfold mapSum.
  rewrite (sumZ_perm _ _ (Permutation_map _ (map_to_list_insert m k v Hn))). done.
Qed.

Lemma mapSum_delete `{Countable K} {A} (f : A -> Z) (m : gmap K A) k v :
  m !! k = Some v -> mapSum f (delete k m) = mapSum f m - f v.
Proof.
  intros Hs. rewrite <- (insert_delete_id m k v Hs) at 2.
  rewrite mapSum_insert_new by apply lookup_delete_eq. lia.
Qed.

Lemma mapSum_insert `{Countable K} {A} (f : A -> Z) (m : gmap K A) k v :
  mapSum f (<[k := v]> m) = mapSum f m - default 0 (f <$> m !! k) + f v.
Proof.
  destruct (m !! k) as [w|] eqn:E; simpl.
  - rewrite <- insert_delete_eq, mapSum_insert_new by apply lookup_delete_eq.
    rewrite (mapSum_delete f m k w E). lia.
  - rewrite mapSum_insert_new by done. lia.
Qed.

Lemma mapSum_nonneg `{Countable K} {A} (f : A -> Z) (m : gmap K A) :
  map_Forall (fun _ v => 0 <= f v) m -> 0 <= mapSum f m.
Proof.
  intros Hf. apply sumZ_map_nonneg. intros [k v] Hin. apply elem_of_map_to_list in Hin.
  by apply (Hf k v).
Qed.

Lemma mapSum_ge `{Countable K} {A} (f : A -> Z) (m : gmap K A) k v :
  map_Forall (fun _ v => 0 <= f v) m -> m !! k = Some v -> f v <= mapSum f m.
Proof.
  intros Hf Hk. unfold mapSum. apply (sumZ_elem_le (fun kv => f (snd kv)) _ (k, v)).
  - intros [k' v'] Hin. apply elem_of_map_to_list in Hin. by apply (Hf k' v').
  - by apply elem_of_map_to_list.
Qed.
