(* ===== verification/Types.v ===== *)
(** * The wire types

    The FlatBuffers tables of [types/*.fbs] through the accessors the generated
    code under [src/internal/types] offers: a table is a record of its fields, a
    vector is a list, a [[ubyte]] field or a string is a byte list (empty when
    absent).  [tx.MutableRefs(&ref, i)] is the [i]-th element of the list. *)

From S2P Require Import Prelude.

(** A Go string constant as its bytes. *)
Definition str (s : string) : bytes :=
  map (fun a => Z.of_nat (Ascii.nat_of_ascii a)) (String.list_ascii_of_string s).

(** ** Object (internal/types/Object.go) *)
Record Object := mkObject {
  obj_id : bytes;
  obj_version : Z;
  obj_owner : bytes;
  obj_replication : Z;
  obj_content : bytes;
  obj_fees : Z;
  obj_parent_kind : Z;
}.

(** ** ObjectRef (internal/types/ObjectRef.go): an object reference of a
    transaction header, by ID and version or by domain name. *)
Record TxRef := mkTxRef {
  ref_id : bytes;
  ref_version : Z;
  ref_domain : bytes;
}.

(** ** DeclaredOp (internal/genesis/declared_op.go) *)
Record DeclaredOp := mkDeclaredOp {
  op_Kind : Z;
  op_ObjectID : bytes;
  op_TargetKind : Z;
  op_Target : bytes;
  op_Name : bytes;
  op_TermEpochs : Z;
}.

(** ** Transaction (internal/types/Transaction.go) *)
Record Transaction := mkTransaction {
  tx_Hash : bytes;
  tx_ReadRefs : list TxRef;
  tx_MutableRefs : list TxRef;
  tx_CreatedObjectsReplication : list Z;
  tx_Sender : bytes;
  tx_Signature : bytes;
  tx_Pod : bytes;
  tx_FunctionName : bytes;
  tx_Args : bytes;
  tx_MaxGas : Z;
  tx_GasCoin : bytes;
  tx_FeePayer : bytes;
  tx_SponsorSignature : bytes;
  tx_ValidUntil : Z;
  tx_DeletedObjects : bytes;
  tx_Operations : list DeclaredOp;
}.

(** ** AttestedTransaction (internal/types/AttestedTransaction.go): a
    transaction with the replicated objects it reads and its quorum proofs. *)
Record QuorumProof := mkQuorumProof {
  qp_object_id : bytes;
  qp_bls_signature : bytes;
  qp_signer_bitmap : bytes;
}.

(** The unsigned transaction the hash and the signatures cover (the arguments of
    [BuildUnsignedTxBytesSponsored], genesis/transaction.go). *)
Record UnsignedTx := mkUnsigned {
  u_sender : bytes;
  u_pod : Hash;
  u_funcName : bytes;
  u_args : bytes;
  u_created : list Z;
  u_maxGas : Z;
  u_gasCoin : bytes;
  u_mutableRefs : list TxRef;
  u_readRefs : list TxRef;
  u_feePayer : bytes;
  u_validUntil : Z;
  u_deleted : bytes;
  u_operations : list DeclaredOp;
}.

(** Third-party primitives: BLAKE3-256, the FlatBuffers encoding of a body,
    Ed25519 and BLS signature verification (key, message, signature[, tag]). *)
Record Crypto := mkCrypto {
  blake3 : bytes -> Hash;
  encodeBody : UnsignedTx -> bytes;
  ed25519Verify : bytes -> bytes -> bytes -> bool;
  blsVerify : bytes -> bytes -> bytes -> bytes -> bool;
}.

Record AttestedTransaction := mkAtx {
  atx_Transaction : option Transaction;
  atx_Objects : list Object;
  atx_Proofs : list QuorumProof;
  atx_AttestationEpoch : Z;
}.

(** ** Vertex, VertexLink and FeeSummary (internal/types/Vertex.go, VertexLink.go,
    FeeSummary.go) *)
Record VertexLink := mkLink {
  link_hash : bytes;
  link_producer : bytes;
}.

Record FeeSummary := mkFeeSummary {
  fs_TotalFees : Z;
  fs_TotalBurned : Z;
  fs_TotalEpoch : Z;
}.

Record Vertex := mkVertex {
  v_Hash : bytes;
  v_Round : Z;
  v_Producer : bytes;
  v_Parents : list VertexLink;
  v_Transactions : list AttestedTransaction;
  v_Epoch : Z;
  v_FeeSummary : option FeeSummary;
  v_Timestamp : Z;
  v_FrontierRound : Z;
  v_IndexRoot : bytes;
  v_BodyHash : bytes;
  v_Signature : bytes;
}.

#[export] Instance Object_eq_dec : EqDecision Object.
Proof. solve_decision. Defined.

#[export] Instance TxRef_eq_dec : EqDecision TxRef.
Proof. solve_decision. Defined.

#[export] Instance DeclaredOp_eq_dec : EqDecision DeclaredOp.
Proof. solve_decision. Defined.

#[export] Instance Transaction_eq_dec : EqDecision Transaction.
Proof. solve_decision. Defined.

#[export] Instance QuorumProof_eq_dec : EqDecision QuorumProof.
Proof. solve_decision. Defined.

#[export] Instance AttestedTransaction_eq_dec : EqDecision AttestedTransaction.
Proof. solve_decision. Defined.

#[export] Instance VertexLink_eq_dec : EqDecision VertexLink.
Proof. solve_decision. Defined.

#[export] Instance FeeSummary_eq_dec : EqDecision FeeSummary.
Proof. solve_decision. Defined.

#[export] Instance Vertex_eq_dec : EqDecision Vertex.
Proof. solve_decision. Defined.

(** [txHasPodCall]: a function name, or any nonzero pod byte. *)
Definition txHasPodCall (tx : Transaction) : bool :=
  negb (bool_decide (tx_FunctionName tx = [])) ||
  existsb (fun b => negb (b =? 0)) (tx_Pod tx).

(** [mutableRefID]: the 32-byte ID of a ref, [None] for a domain ref or a
    malformed ID. *)
Definition mutableRefID (r : TxRef) : option Hash := hash32 (ref_id r).

(** [txGasCoinID] and [declaredGasCoin]. *)
Definition txGasCoinID (tx : Transaction) : option Hash := hash32 (tx_GasCoin tx).

(** [txCommitHash]. *)
Definition txCommitHash (tx : Transaction) : option Hash := hash32 (tx_Hash tx).

(** [firstMutableRefID]. *)
Definition firstMutableRefID (tx : Transaction) : option Hash :=
  match tx_MutableRefs tx with
  | [] => None
  | r :: _ => hash32 (ref_id r)
  end.

(** [mutableRefIDSet]: the IDs a transaction references mutably. *)
Definition mutableRefIDSet (tx : Transaction) : gset Hash :=
  list_to_set (omap mutableRefID (tx_MutableRefs tx)).

(** [isSponsored]: a 32-byte fee payer is present. *)
Definition isSponsored (tx : Transaction) : bool :=
  bool_decide (length (tx_FeePayer tx) = 32%nat).

(** [extractProducer] and [extractLinkHash]: zero unless exactly 32 bytes. *)
Definition extractProducer (v : Vertex) : Hash := default zeroHash (hash32 (v_Producer v)).
Definition extractLinkHash (l : VertexLink) : Hash := default zeroHash (hash32 (link_hash l)).

(** [appendParentHashes]. *)
Definition appendParentHashes (queue : list Hash) (v : Vertex) : list Hash :=
  queue ++ map extractLinkHash (v_Parents v).
