(* ===== verification/Fees.v ===== *)
(** * Protocol fees (internal/consensus/fees.go)

    Saturating arithmetic, the header-derived fee of a transaction and its
    split, storage deposits and refunds. *)

From S2P Require Import Prelude Types.

(** ** Parameters *)

Record FeeParams := mkFeeParams {
  GasPrice : Z;
  MinGas : Z;
  TransitFee : Z;
  StorageFee : Z;
  RentalRatePerEpoch : Z;
  MaxTermEpochs : Z;
  GraceEpochs : Z;
  ReparentFee : Z;
  DeleteFee : Z;
  DomainUpdateFee : Z;
  DomainTransferFee : Z;
  DomainDeleteFee : Z;
  IndexEntryFee : Z;
  BurnBPS : Z;
  StorageRefundBPS : Z;
}.

Record FeeSplit := mkFeeSplit { fs_Total : Z; fs_Burned : Z; fs_Epoch : Z }.

Definition noFees : FeeSplit := mkFeeSplit 0 0 0.

Definition DefaultFeeParams : FeeParams :=
  mkFeeParams 1 100 10 1000 100 256 8 100 100 100 100 100 25 0 9500.

Definition bpsMax : Z := 10000.
Definition milleMax : Z := 1000.

(** ** Saturating arithmetic *)

(** [safeMul]: the high word of the 128-bit product decides the overflow. *)
Definition safeMul (a b : Z) : Z :=
  if (a =? 0) || (b =? 0) then 0
  else if 0 <? (a * b) / two64 then max64
  else a *w b.

Definition safeAdd (a b : Z) : Z :=
  let sum := a +w b in if sum <? a then max64 else sum.

(** ** The formulas *)

Definition effectiveRep (replication totalValidators : Z) : Z :=
  if replication =? 0 then totalValidators else replication.

(** A reference with its resolved replication. *)
Record ObjectRef := mkRef { or_ID : Hash; or_Replication : Z }.

Definition ReplicationRatio (mutableRefs : list ObjectRef) (createdObjectsCount : Z)
    (computeHolders : Hash -> Z -> list Hash) (totalValidators : Z) : Z * Z :=
  if totalValidators =? 0 then (0, 1)
  else if 0 <? createdObjectsCount then (1, 1)
  else match mutableRefs with
  | [] => (0, 1)
  | _ =>
      if existsb (fun r => or_Replication r =? 0) mutableRefs then (1, 1)
      else
        let seen := foldl (fun (acc : gset Hash) r =>
          acc ∪ list_to_set (computeHolders (or_ID r) (or_Replication r))) ∅ mutableRefs in
        (Z.of_nat (size seen), totalValidators)
  end.

(** Operation kinds (ops.go, domainops.go). *)
Definition reparentOp : Z := 0.
Definition deleteOp : Z := 1.
Definition domainRegisterOp : Z := 2.
Definition domainRenewOp : Z := 3.
Definition domainUpdateOp : Z := 4.
Definition domainTransferOp : Z := 5.
Definition domainDeleteOp : Z := 6.
Definition lastDeclaredOpKind : Z := domainDeleteOp.

Definition declaredOpFee (op : DeclaredOp) (p : FeeParams) : Z :=
  let k := op_Kind op in
  if k =? reparentOp then ReparentFee p
  else if k =? deleteOp then DeleteFee p
  else if (k =? domainRegisterOp) || (k =? domainRenewOp) then
    safeMul (RentalRatePerEpoch p) (op_TermEpochs op)
  else if k =? domainUpdateOp then DomainUpdateFee p
  else if k =? domainTransferOp then DomainTransferFee p
  else if k =? domainDeleteOp then DomainDeleteFee p
  else 0.

Definition declaredOpsFee (ops : list DeclaredOp) (p : FeeParams) : Z :=
  foldl (fun total op => safeAdd total (declaredOpFee op p)) 0 ops.

Definition StorageDeposit (replication totalValidators storageFee indexEntryFee : Z) : Z :=
  if totalValidators =? 0 then 0
  else
    let effRep := effectiveRep replication totalValidators in
    let storage := safeMul effRep storageFee / totalValidators in
    safeAdd storage indexEntryFee.

(** The storage loop of [CalculateFee] and of [calculateTxFeeSplit]. *)
Definition addDeposits (total : Z) (reps : list Z) (totalValidators : Z) (p : FeeParams) : Z :=
  foldl (fun t rep =>
    safeAdd t (StorageDeposit rep totalValidators (StorageFee p) (IndexEntryFee p))) total reps.

Definition CalculateFee (maxGas repNum repDenom standardObjectCount : Z)
    (createdObjectsReplication : list Z) (ops : list DeclaredOp) (opsOnly : bool)
    (totalValidators : Z) (p : FeeParams) : Z :=
  let total :=
    if opsOnly then safeAdd 0 (safeMul (MinGas p) (GasPrice p))
    else if (0 <? repDenom) && (0 <? repNum) then
      let compute := safeMul maxGas (GasPrice p) in
      let compute := safeMul compute repNum / repDenom in
      safeAdd 0 compute
    else 0 in
  let total := safeAdd total (safeMul standardObjectCount (TransitFee p)) in
  let total :=
    if 0 <? totalValidators
    then addDeposits total createdObjectsReplication totalValidators p
    else total in
  safeAdd total (declaredOpsFee ops p).

(** [SplitFee]: the burn share (zero by default), the rest to the epoch pool. *)
Definition SplitFee (total : Z) (p : FeeParams) : FeeSplit :=
  let burned := (total *w BurnBPS p) / bpsMax in
  mkFeeSplit total burned (total -w burned).

Definition StorageRefund (objectFees : Z) (p : FeeParams) : Z * Z :=
  let refund := (objectFees *w StorageRefundBPS p) / bpsMax in
  (refund, objectFees -w refund).

Definition CountStandardObjects (refs : list ObjectRef) : Z :=
  foldl (fun count r => if 0 <? or_Replication r then count + 1 else count) 0 refs.

(** ** Saturation lemmas *)

Lemma safeMul_min a b : is_u64 a -> is_u64 b -> safeMul a b = Z.min (a * b) max64.
Proof.
  intros Ha Hb. unfold safeMul.
  destruct (Z.eqb_spec a 0); [subst; simpl; lia|].
  destruct (Z.eqb_spec b 0); [subst; simpl; rewrite Z.mul_0_r; lia|]. simpl.
  assert (0 <= a * b) by u64_lia.
  destruct (Z.ltb_spec 0 (a * b / two64)) as [Hhi|Hlo].
  - assert (two64 <= a * b); [|lia].
    destruct (Z_lt_le_dec (a * b) two64); [|done].
    rewrite Z.div_small in Hhi by lia. lia.
  - assert (a * b < two64) as Hs.
    { pose proof (Z.div_pos (a * b) two64 ltac:(lia) ltac:(lia)).
      pose proof (Z.div_mod (a * b) two64). pose proof (Z.mod_pos_bound (a * b) two64). lia. }
    unfold mul64. rewrite u64_small by u64_lia. lia.
Qed.

Lemma safeAdd_min a b : is_u64 a -> is_u64 b -> safeAdd a b = Z.min (a + b) max64.
Proof.
  intros Ha Hb. unfold safeAdd, add64, u64. cbv zeta.
  destruct (Z_lt_le_dec (a + b) two64).
  - rewrite Z.mod_small by u64_lia. destruct (Z.ltb_spec (a + b) a); u64_lia.
  - replace ((a + b) mod two64) with (a + b - two64) by
      (apply (Z.mod_unique_pos _ _ 1); u64_lia).
    destruct (Z.ltb_spec (a + b - two64) a); u64_lia.
Qed.

Lemma safeMul_u64 a b : is_u64 a -> is_u64 b -> is_u64 (safeMul a b).
Proof. intros. rewrite safeMul_min by done. unfold is_u64 in *. nia. Qed.

Lemma safeAdd_u64 a b : is_u64 a -> is_u64 b -> is_u64 (safeAdd a b).
Proof. intros. rewrite safeAdd_min by done. u64_lia. Qed.

Lemma div_u64 a b : is_u64 a -> 0 <= b -> is_u64 (a / b).
Proof.
  intros Ha Hb. destruct (Z.eq_dec b 0) as [->|]; [rewrite Z.div_0_r; u64_lia|].
  unfold is_u64 in *. split; [apply Z.div_pos; lia|].
  assert (a / b <= a) by (apply Z.div_le_upper_bound; nia). lia.
Qed.

#[export] Hint Resolve safeMul_u64 safeAdd_u64 div_u64 : u64db.

Lemma safeAdd_mono a a' b b' :
  is_u64 a -> is_u64 a' -> is_u64 b -> is_u64 b' ->
  a <= a' -> b <= b' -> safeAdd a b <= safeAdd a' b'.
Proof. intros. rewrite !safeAdd_min by done. lia. Qed.

Lemma safeMul_mono a a' b b' :
  is_u64 a -> is_u64 a' -> is_u64 b -> is_u64 b' ->
  a <= a' -> b <= b' -> safeMul a b <= safeMul a' b'.
Proof.
  intros. rewrite !safeMul_min by done.
  assert (a * b <= a' * b') by (unfold is_u64 in *; nia). lia.
Qed.

Lemma safeAdd_ge_l a b : is_u64 a -> is_u64 b -> a <= safeAdd a b.
Proof. intros. rewrite safeAdd_min by done. u64_lia. Qed.

(** ** Widths of the parameters *)

Record wf_params (p : FeeParams) : Prop := {
  wf_GasPrice : is_u64 (GasPrice p);
  wf_MinGas : is_u64 (MinGas p);
  wf_TransitFee : is_u64 (TransitFee p);
  wf_StorageFee : is_u64 (StorageFee p);
  wf_Rental : is_u64 (RentalRatePerEpoch p);
  wf_MaxTerm : is_u64 (MaxTermEpochs p);
  wf_Grace : is_u64 (GraceEpochs p);
  wf_Reparent : is_u64 (ReparentFee p);
  wf_Delete : is_u64 (DeleteFee p);
  wf_DUpdate : is_u64 (DomainUpdateFee p);
  wf_DTransfer : is_u64 (DomainTransferFee p);
  wf_DDelete : is_u64 (DomainDeleteFee p);
  wf_IndexEntry : is_u64 (IndexEntryFee p);
  wf_Burn : is_u64 (BurnBPS p);
  wf_Refund : is_u64 (StorageRefundBPS p);
}.

#[export] Hint Resolve wf_GasPrice wf_MinGas wf_TransitFee wf_StorageFee wf_Rental wf_MaxTerm
  wf_Grace wf_Reparent wf_Delete wf_DUpdate wf_DTransfer wf_DDelete wf_IndexEntry
  wf_Burn wf_Refund : u64db.

Lemma wf_DefaultFeeParams : wf_params DefaultFeeParams.
Proof. split; unfold is_u64; simpl; lia. Qed.

(** A replication factor is a [uint16], a term a [uint32]: both fit a [uint64]. *)
Definition wf_op (op : DeclaredOp) : Prop := is_u64 (op_TermEpochs op).

Lemma declaredOpFee_u64 op p : wf_params p -> wf_op op -> is_u64 (declaredOpFee op p).
Proof.
  intros Hp Ho. unfold declaredOpFee, wf_op in *. cbv zeta.
  split_ifs; auto with u64db. u64_lia.
Qed.

Lemma is_u64_0 : is_u64 0.
Proof. u64_lia. Qed.

#[export] Hint Resolve declaredOpFee_u64 is_u64_0 : u64db.

(** Folding [safeAdd] over u64 terms stays in range and never drops below the
    start value. *)
Lemma safeAdd_fold {A} (f : A -> Z) (l : list A) t :
  is_u64 t -> (forall x, x ∈ l -> is_u64 (f x)) ->
  is_u64 (foldl (fun t x => safeAdd t (f x)) t l) /\
  foldl (fun t x => safeAdd t (f x)) t l = Z.min (t + sumZ (map f l)) max64.
Proof.
  revert t; induction l as [|x l IH]; intros t Ht Hf; simpl.
  - split; [done|u64_lia].
  - assert (Hx : is_u64 (f x)) by (apply Hf; left).
    assert (Hl : forall y, y ∈ l -> is_u64 (f y)) by (intros; apply Hf; by right).
    destruct (IH (safeAdd t (f x)) (safeAdd_u64 _ _ Ht Hx) Hl) as [H1 H2].
    split; [done|]. rewrite H2, safeAdd_min by done.
    pose proof (sumZ_map_nonneg f l ltac:(intros y Hy; destruct (Hl y Hy); lia)). u64_lia.
Qed.

Lemma declaredOpsFee_u64 ops p :
  wf_params p -> Forall wf_op ops -> is_u64 (declaredOpsFee ops p).
Proof.
  intros Hp Ho. apply (safeAdd_fold (fun op => declaredOpFee op p)); [auto with u64db|].
  intros x Hx. rewrite Forall_forall in Ho. auto with u64db.
Qed.

Lemma StorageDeposit_u64 rep n p :
  wf_params p -> is_u64 rep -> is_u64 n ->
  is_u64 (StorageDeposit rep n (StorageFee p) (IndexEntryFee p)).
Proof.
  intros Hp Hr Hn. unfold StorageDeposit, effectiveRep. cbv zeta.
  split_ifs; auto with u64db; apply safeAdd_u64; auto with u64db;
  apply div_u64; auto with u64db; u64_lia.
Qed.

#[export] Hint Resolve declaredOpsFee_u64 StorageDeposit_u64 : u64db.

Lemma addDeposits_min t reps n p :
  wf_params p -> is_u64 t -> Forall is_u64 reps -> is_u64 n ->
  is_u64 (addDeposits t reps n p) /\
  addDeposits t reps n p =
    Z.min (t + sumZ (map (fun r => StorageDeposit r n (StorageFee p) (IndexEntryFee p)) reps)) max64.
Proof.
  intros Hp Ht Hr Hn. apply safeAdd_fold; [done|].
  intros x Hx. rewrite Forall_forall in Hr. auto with u64db.
Qed.

(** ** Theorems *)

(** The compute term, as [CalculateFee] starts its total. *)
Definition computeTerm (maxGas repNum repDenom : Z) (opsOnly : bool) (p : FeeParams) : Z :=
  if opsOnly then safeMul (MinGas p) (GasPrice p)
  else if (0 <? repDenom) && (0 <? repNum) then
    safeMul (safeMul maxGas (GasPrice p)) repNum / repDenom
  else 0.

Lemma computeTerm_u64 maxGas repNum repDenom opsOnly p :
  wf_params p -> is_u64 maxGas -> is_u64 repNum ->
  is_u64 (computeTerm maxGas repNum repDenom opsOnly p).
Proof.
  intros. unfold computeTerm. split_ifs; auto with u64db.
  apply div_u64; auto with u64db. zb. lia.
Qed.

Lemma safeAdd_0_l a : is_u64 a -> safeAdd 0 a = a.
Proof. intros. rewrite safeAdd_min by (done || u64_lia). u64_lia. Qed.

(** [CalculateFee] is the saturated sum of its four terms. *)
Lemma CalculateFee_sum maxGas repNum repDenom std reps ops opsOnly n p :
  wf_params p -> is_u64 maxGas -> is_u64 repNum -> is_u64 std ->
  Forall is_u64 reps -> Forall wf_op ops -> 0 < n < two64 ->
  CalculateFee maxGas repNum repDenom std reps ops opsOnly n p =
    Z.min (computeTerm maxGas repNum repDenom opsOnly p
           + safeMul std (TransitFee p)
           + sumZ (map (fun r => StorageDeposit r n (StorageFee p) (IndexEntryFee p)) reps)
           + declaredOpsFee ops p) max64.
Proof.
  intros Hp Hg Hn Hs Hr Ho Hv.
  pose proof (computeTerm_u64 maxGas repNum repDenom opsOnly p Hp Hg Hn) as Hc.
  assert (Hm : is_u64 (safeMul std (TransitFee p))) by auto with u64db.
  unfold CalculateFee. cbv zeta.
  assert ((if opsOnly then safeAdd 0 (safeMul (MinGas p) (GasPrice p))
    else if (0 <? repDenom) && (0 <? repNum)
         then safeAdd 0 (safeMul (safeMul maxGas (GasPrice p)) repNum / repDenom) else 0)
    = computeTerm maxGas repNum repDenom opsOnly p) as ->.
  { revert Hc. unfold computeTerm. split_ifs; intros; try apply safeAdd_0_l; done. }
  destruct (Z.ltb_spec 0 n); [|lia].
  destruct (addDeposits_min (safeAdd (computeTerm maxGas repNum repDenom opsOnly p)
    (safeMul std (TransitFee p))) reps n p) as [H1 H2]; auto with u64db; [u64_lia|].
  pose proof (declaredOpsFee_u64 ops p Hp Ho) as Hd.
  rewrite safeAdd_min, H2, safeAdd_min by done.
  assert (0 <= sumZ (map (fun r => StorageDeposit r n (StorageFee p) (IndexEntryFee p)) reps)).
  { apply sumZ_map_nonneg. intros x Hx. rewrite Forall_forall in Hr.
    destruct (StorageDeposit_u64 x n p Hp (Hr x Hx)); [u64_lia|lia]. }
  u64_lia.
Qed.

(** The fee charged for a transaction always covers the storage deposits of the
    objects it creates, so the pooled remainder is never negative. *)
Theorem CalculateFee_covers_storage maxGas repNum repDenom std reps ops opsOnly n p :
  wf_params p -> is_u64 maxGas -> is_u64 repNum -> is_u64 std ->
  Forall is_u64 reps -> Forall wf_op ops -> 0 < n < two64 ->
  addDeposits 0 reps n p <= CalculateFee maxGas repNum repDenom std reps ops opsOnly n p.
Proof.
  intros Hp Hg Hn Hs Hr Ho Hv.
  rewrite CalculateFee_sum by done.
  destruct (addDeposits_min 0 reps n p) as [_ ->]; auto with u64db; [u64_lia|].
  pose proof (computeTerm_u64 maxGas repNum repDenom opsOnly p Hp Hg Hn).
  pose proof (safeMul_u64 std (TransitFee p)).
  pose proof (declaredOpsFee_u64 ops p Hp Ho).
  pose proof (wf_TransitFee p Hp). u64_lia.
Qed.

Theorem CalculateFee_covers_storage_witness :
  addDeposits 0 [3; 0] 10 DefaultFeeParams <=
    CalculateFee 500 1 1 2 [3; 0] [] false 10 DefaultFeeParams.
Proof.
  apply (CalculateFee_covers_storage 500 1 1 2 [3; 0] [] false 10 DefaultFeeParams);
    repeat constructor; unfold is_u64; simpl; lia.
Defined.

(** A larger declared gas limit never lowers the fee: saturation leaves no
    wrap-around discount. *)

(** A larger declared gas limit never lowers the fee: saturation leaves no
    wrap-around discount. *)
Theorem CalculateFee_mono_gas g1 g2 repNum repDenom std reps ops opsOnly n p :
  wf_params p -> is_u64 g1 -> is_u64 g2 -> g1 <= g2 -> is_u64 repNum -> is_u64 std ->
  Forall is_u64 reps -> Forall wf_op ops -> 0 < n < two64 ->
  CalculateFee g1 repNum repDenom std reps ops opsOnly n p <=
  CalculateFee g2 repNum repDenom std reps ops opsOnly n p.
Proof.
  intros Hp H1 H2 Hle Hn Hs Hr Ho Hv. rewrite !CalculateFee_sum by done.
  assert (computeTerm g1 repNum repDenom opsOnly p <= computeTerm g2 repNum repDenom opsOnly p);
    [|lia].
  unfold computeTerm. split_ifs; zb; try lia.
  apply Z.div_le_mono; [lia|].
  apply safeMul_mono; auto with u64db; [|lia].
  apply safeMul_mono; auto with u64db; lia.
Qed.

Theorem CalculateFee_mono_gas_witness :
  CalculateFee 100 1 1 0 [] [] false 4 DefaultFeeParams <=
  CalculateFee max64 1 1 0 [] [] false 4 DefaultFeeParams.
Proof.
  apply (CalculateFee_mono_gas 100 max64 1 1 0 [] [] false 4 DefaultFeeParams);
    repeat constructor; unfold is_u64; simpl; lia.
Defined.

(** ** The exact fee, over unbounded integers *)

Definition depositSpec (n : Z) (p : FeeParams) (rep : Z) : Z :=
  effectiveRep rep n * StorageFee p / n + IndexEntryFee p.

Definition opFeeSpec (p : FeeParams) (op : DeclaredOp) : Z :=
  let k := op_Kind op in
  if k =? reparentOp then ReparentFee p
  else if k =? deleteOp then DeleteFee p
  else if (k =? domainRegisterOp) || (k =? domainRenewOp) then RentalRatePerEpoch p * op_TermEpochs op
  else if k =? domainUpdateOp then DomainUpdateFee p
  else if k =? domainTransferOp then DomainTransferFee p
  else if k =? domainDeleteOp then DomainDeleteFee p
  else 0.

Definition computeSpec (maxGas repNum repDenom : Z) (opsOnly : bool) (p : FeeParams) : Z :=
  if opsOnly then MinGas p * GasPrice p
  else if (0 <? repDenom) && (0 <? repNum) then maxGas * GasPrice p * repNum / repDenom
  else 0.

Definition feeSpec (maxGas repNum repDenom std : Z) (reps : list Z) (ops : list DeclaredOp)
    (opsOnly : bool) (n : Z) (p : FeeParams) : Z :=
  computeSpec maxGas repNum repDenom opsOnly p + std * TransitFee p
  + sumZ (map (depositSpec n p) reps) + sumZ (map (opFeeSpec p) ops).

(** Saturation only ever lowers a term, and leaves it alone below 2^64. *)
Lemma safeMul_le a b : is_u64 a -> is_u64 b -> safeMul a b <= a * b.
Proof. intros. rewrite safeMul_min by done. lia. Qed.

Lemma safeMul_exact a b : is_u64 a -> is_u64 b -> a * b < two64 -> safeMul a b = a * b.
Proof. intros. rewrite safeMul_min by done. lia. Qed.

Lemma safeAdd_le a b : is_u64 a -> is_u64 b -> safeAdd a b <= a + b.
Proof. intros. rewrite safeAdd_min by done. lia. Qed.

Lemma computeTerm_le maxGas repNum repDenom opsOnly p :
  wf_params p -> is_u64 maxGas -> is_u64 repNum ->
  computeTerm maxGas repNum repDenom opsOnly p <= computeSpec maxGas repNum repDenom opsOnly p.
Proof.
  intros Hp Hg Hn. unfold computeTerm, computeSpec. split_ifs; zb; try lia.
  - apply safeMul_le; auto with u64db.
  - apply Z.div_le_mono; [lia|].
    etrans; [apply safeMul_le; auto with u64db|].
    apply Z.mul_le_mono_nonneg_r; [lia|]. apply safeMul_le; auto with u64db.
Qed.

Lemma computeTerm_exact maxGas repNum repDenom opsOnly p :
  wf_params p -> is_u64 maxGas -> is_u64 repNum ->
  MinGas p * GasPrice p < two64 -> maxGas * GasPrice p * repNum < two64 ->
  computeTerm maxGas repNum repDenom opsOnly p = computeSpec maxGas repNum repDenom opsOnly p.
Proof.
  intros Hp Hg Hn H1 H2. unfold computeTerm, computeSpec. split_ifs; zb; try lia.
  - apply safeMul_exact; auto with u64db.
  - pose proof (wf_GasPrice p Hp).
    assert (maxGas * GasPrice p < two64) by (unfold is_u64 in *; nia).
    rewrite (safeMul_exact maxGas) by auto with u64db.
    rewrite safeMul_exact; auto. unfold is_u64 in *; nia.
Qed.

Lemma StorageDeposit_le rep n p :
  wf_params p -> is_u64 rep -> 0 < n < two64 ->
  StorageDeposit rep n (StorageFee p) (IndexEntryFee p) <= depositSpec n p rep.
Proof.
  intros Hp Hr Hn. unfold StorageDeposit, depositSpec. cbv zeta.
  destruct (Z.eqb_spec n 0); [lia|].
  assert (is_u64 (effectiveRep rep n)) by (unfold effectiveRep; split_ifs; u64_lia).
  etrans; [apply safeAdd_le; auto with u64db; apply div_u64; auto with u64db; lia|].
  apply Z.add_le_mono_r, Z.div_le_mono; [lia|]. apply safeMul_le; auto with u64db.
Qed.

Lemma declaredOpFee_le op p : wf_params p -> wf_op op -> declaredOpFee op p <= opFeeSpec p op.
Proof.
  intros Hp Ho. unfold declaredOpFee, opFeeSpec. cbv zeta. split_ifs; try lia.
  apply safeMul_le; auto with u64db.
Qed.

(** A charged term is its exact value, or the exact value is out of range and the term
    is the largest number. *)
Definition capped (x y : Z) : Prop := 0 <= x <= y /\ (x = y \/ max64 <= x).

Lemma capped_add x y x' y' : capped x y -> capped x' y' -> capped (x + x') (y + y').
Proof. unfold capped. intros H1 H2. split; [lia|]. destruct H1 as [? [?|?]], H2 as [? [?|?]]; lia. Qed.

Lemma capped_sum {A} (f g : A -> Z) l : (forall x, x ∈ l -> capped (f x) (g x)) -> capped (sumZ (map f l)) (sumZ (map g l)).
Proof.
  induction l as [|x l IH]; intros Hl; [split; simpl; lia|]. cbn [map sumZ foldr]. apply capped_add; [apply Hl; left|]. apply IH. intros y Hy. apply Hl. by right.
Qed.

Lemma capped_min x y : capped x y -> Z.min x max64 = Z.min y max64.
Proof. unfold capped. lia. Qed.

Lemma capped_mul a b : is_u64 a -> is_u64 b -> capped (safeMul a b) (a * b).
Proof. intros Ha Hb. pose proof (safeMul_u64 a b Ha Hb). rewrite safeMul_min in * by done. unfold capped. u64_lia. Qed.

(** The products the code divides: they are not reconstructed from a saturated value. *)
Definition dividendsFit (maxGas repNum : Z) (opsOnly : bool) (reps : list Z) (n : Z) (p : FeeParams) : Prop :=
  (opsOnly = false -> maxGas * GasPrice p * repNum < two64) /\ Forall (fun r => effectiveRep r n * StorageFee p < two64) reps.

Lemma computeTerm_capped maxGas repNum repDenom opsOnly p :
  wf_params p -> is_u64 maxGas -> is_u64 repNum -> (opsOnly = false -> maxGas * GasPrice p * repNum < two64) ->
  capped (computeTerm maxGas repNum repDenom opsOnly p) (computeSpec maxGas repNum repDenom opsOnly p).
Proof.
  intros Hp Hg Hn Hf. pose proof (computeTerm_u64 maxGas repNum repDenom opsOnly p Hp Hg Hn) as Hu. unfold computeTerm, computeSpec in *.
  destruct opsOnly; [apply capped_mul; auto with u64db|]. specialize (Hf eq_refl). destruct (_ && _) eqn:E; [|split; lia]. zb.
  pose proof (wf_GasPrice p Hp). assert (maxGas * GasPrice p < two64) by (unfold is_u64 in *; nia).
  rewrite (safeMul_exact maxGas) in * by auto with u64db. rewrite safeMul_exact in * by (auto; unfold is_u64 in *; nia). split; [u64_lia|by left].
Qed.

Lemma StorageDeposit_capped rep n p :
  wf_params p -> is_u64 rep -> 0 < n < two64 -> effectiveRep rep n * StorageFee p < two64 ->
  capped (StorageDeposit rep n (StorageFee p) (IndexEntryFee p)) (depositSpec n p rep).
Proof.
  intros Hp Hr Hn Hf. unfold StorageDeposit, depositSpec. cbv zeta. destruct (Z.eqb_spec n 0); [lia|].
  assert (He : is_u64 (effectiveRep rep n)) by (unfold effectiveRep; split_ifs; u64_lia).
  rewrite safeMul_exact by auto with u64db. pose proof (wf_StorageFee p Hp) as Hs. pose proof (wf_IndexEntry p Hp).
  assert (Hd : is_u64 (effectiveRep rep n * StorageFee p / n)) by (apply div_u64; [unfold is_u64 in *; nia|lia]).
  rewrite safeAdd_min by done. unfold capped. u64_lia.
Qed.

Lemma declaredOpFee_capped op p : wf_params p -> wf_op op -> capped (declaredOpFee op p) (opFeeSpec p op).
Proof.
  intros Hp Ho. pose proof (declaredOpFee_u64 op p Hp Ho) as Hu. unfold declaredOpFee, opFeeSpec in *. cbv zeta in *.
  split_ifs; try (split; [u64_lia|by left]). apply capped_mul; auto with u64db.
Qed.

(** The charged fee is the exact formula, capped, as long as no division is made of a
    saturated product; it never exceeds the exact formula. *)

(** C40. For 64-bit parameters and inputs and a non-empty validator set, the fee never
    exceeds the exact formula over unbounded integers, and it is that formula capped at
    2^64 - 1 whenever the two products the code divides (gas by price by replication
    unless the transaction only declares operations, and replication by storage fee of
    each created object) fit in 64 bits. *)
Theorem CalculateFee_is_the_capped_formula maxGas repNum repDenom std reps ops opsOnly n p :
  wf_params p -> is_u64 maxGas -> is_u64 repNum -> is_u64 std ->
  Forall is_u64 reps -> Forall wf_op ops -> 0 < n < two64 ->
  CalculateFee maxGas repNum repDenom std reps ops opsOnly n p <= feeSpec maxGas repNum repDenom std reps ops opsOnly n p /\
  (dividendsFit maxGas repNum opsOnly reps n p ->
   CalculateFee maxGas repNum repDenom std reps ops opsOnly n p = Z.min (feeSpec maxGas repNum repDenom std reps ops opsOnly n p) max64).
Proof.
  intros Hp Hg Hn Hs Hr Ho Hv. rewrite CalculateFee_sum by done. rewrite Forall_forall in Ho. unfold feeSpec.
  assert (Hops : Z.min (sumZ (map (fun op => declaredOpFee op p) ops)) max64 = declaredOpsFee ops p).
  { unfold declaredOpsFee. destruct (safeAdd_fold (fun op => declaredOpFee op p) ops 0) as [_ ->]; [auto with u64db|auto with u64db|]. lia. }
  pose proof (capped_sum (fun op => declaredOpFee op p) (opFeeSpec p) ops ltac:(intros x Hx; apply declaredOpFee_capped; auto)) as Hc4.
  pose proof (capped_mul std (TransitFee p) Hs (wf_TransitFee p Hp)) as Hc2.
  pose proof (computeTerm_u64 maxGas repNum repDenom opsOnly p Hp Hg Hn). rewrite <- Hops. split.
  - pose proof (computeTerm_le maxGas repNum repDenom opsOnly p Hp Hg Hn).
    assert (sumZ (map (fun r => StorageDeposit r n (StorageFee p) (IndexEntryFee p)) reps) <= sumZ (map (depositSpec n p) reps)).
    { apply sumZ_map_le. intros x Hx. rewrite Forall_forall in Hr. apply StorageDeposit_le; auto. }
    unfold capped in *. lia.
  - intros [Hf1 Hf2]. pose proof (computeTerm_capped maxGas repNum repDenom opsOnly p Hp Hg Hn Hf1) as Hc1.
    assert (Hc3 : capped (sumZ (map (fun r => StorageDeposit r n (StorageFee p) (IndexEntryFee p)) reps)) (sumZ (map (depositSpec n p) reps))).
    { apply capped_sum. intros x Hx. rewrite Forall_forall in Hr, Hf2. apply StorageDeposit_capped; auto. }
    pose proof (capped_min _ _ (capped_add _ _ _ _ (capped_add _ _ _ _ (capped_add _ _ _ _ Hc1 Hc2) Hc3) Hc4)) as Hm. unfold capped in *. lia.
Qed.

(** Three objects created, a two-epoch lease and a fee out of range. *)
Lemma CalculateFee_is_the_capped_formula_witness :
  CalculateFee 500 7 10 40 [3; 0; 9] [mkDeclaredOp 2 [] 0 [] [] 2] false 10 DefaultFeeParams =
    Z.min (feeSpec 500 7 10 40 [3; 0; 9] [mkDeclaredOp 2 [] 0 [] [] 2] false 10 DefaultFeeParams) max64 /\
  CalculateFee 500 7 10 max64 [3] [mkDeclaredOp 2 [] 0 [] [] max64] false 10 DefaultFeeParams = max64.
Proof.
  split; [|vm_compute; reflexivity].
  apply (CalculateFee_is_the_capped_formula 500 7 10 40 [3; 0; 9] [mkDeclaredOp 2 [] 0 [] [] 2] false 10 DefaultFeeParams);
    repeat constructor; unfold is_u64; simpl; lia.
Defined.

(** ** Splits *)

Lemma bps_share_le total bps :
  is_u64 total -> 0 <= bps <= bpsMax -> 0 <= (total *w bps) / bpsMax <= total.
Proof.
  intros Ht Hb. unfold mul64, u64, bpsMax in *. split.
  - apply Z.div_pos; [apply Z.mod_pos_bound|]; lia.
  - apply Z.div_le_upper_bound; [lia|].
    unfold is_u64 in Ht. etrans; [apply Z.mod_le; nia|]. nia.
Qed.

(** The refund and the burn of a deleted object's deposit add up to the
    deposit, even where [deposit * bps] wraps. *)

(** The refunded and the burned part of a deleted object's deposit add up to the
    deposit for every deposit, also where the product wraps. *)
Theorem StorageRefund_conserves deposit p :
  is_u64 deposit -> 0 <= StorageRefundBPS p <= bpsMax ->
  let '(refund, burned) := StorageRefund deposit p in
  refund + burned = deposit /\ 0 <= refund /\ 0 <= burned.
Proof.
  intros Hd Hp. unfold StorageRefund.
  pose proof (bps_share_le deposit _ Hd Hp). rewrite sub64_exact by auto. lia.
Qed.

Theorem StorageRefund_conserves_witness :
  let '(refund, burned) := StorageRefund max64 DefaultFeeParams in
  refund + burned = max64 /\ 0 <= refund /\ 0 <= burned.
Proof. apply (StorageRefund_conserves max64 DefaultFeeParams); unfold is_u64, bpsMax; simpl; lia. Defined.

Lemma SplitFee_conserves total p :
  is_u64 total -> 0 <= BurnBPS p <= bpsMax ->
  fs_Burned (SplitFee total p) + fs_Epoch (SplitFee total p) = total /\
  0 <= fs_Burned (SplitFee total p) /\ 0 <= fs_Epoch (SplitFee total p).
Proof.
  intros Hd Hp. unfold SplitFee; simpl.
  pose proof (bps_share_le total _ Hd Hp). rewrite sub64_exact by auto. lia.
Qed.

(** With the default zero burn the whole consumed fee feeds the pool. *)
Lemma SplitFee_zero_burn total p :
  is_u64 total -> BurnBPS p = 0 -> SplitFee total p = mkFeeSplit total 0 total.
Proof.
  intros Hd Hp. unfold SplitFee. rewrite Hp.
  assert (mul64 total 0 / bpsMax = 0) as ->.
  { unfold mul64. rewrite Z.mul_0_r. reflexivity. }
  rewrite sub64_exact, Z.sub_0_r by u64_lia. reflexivity.
Qed.
