(* ===== verification/Validators.v ===== *)
(** * The validator set (internal/validators/validators.go)

    A slice of validators in order of addition with a pubkey index into it.
    The locks and the [onAdd] notification are left out: every method body runs
    under the set's mutex, so a method is one step.  The abstract specification
    is a finite map from pubkeys to validator records; every mutator is proved
    to keep the index coherent and to implement the map operation. *)

From S2P Require Import Prelude Types Fees.

(** ** Data *)

Record ValidatorInfo := mkInfo {
  Pubkey : Hash;
  QUICAddr : bytes;
  BLSPubkey : bytes;
  SelfStake : Z;
  DelegatedTotal : Z;
  Jailed : bool;
  RewardCoin : Hash;
}.

Record ValidatorSet := mkSet {
  validators : list ValidatorInfo;
  index : gmap Hash nat;
}.

(** The zero [[48]byte] BLS key. *)
Definition zeroBLS : bytes := replicate 48 0.

Definition newInfo (pk : Hash) (addr bls : bytes) : ValidatorInfo :=
  mkInfo pk addr bls 0 0 false zeroHash.

(** Field updates. *)
Definition set_QUICAddr (a : bytes) (v : ValidatorInfo) : ValidatorInfo :=
  mkInfo (Pubkey v) a (BLSPubkey v) (SelfStake v) (DelegatedTotal v) (Jailed v) (RewardCoin v).
Definition set_BLSPubkey (b : bytes) (v : ValidatorInfo) : ValidatorInfo :=
  mkInfo (Pubkey v) (QUICAddr v) b (SelfStake v) (DelegatedTotal v) (Jailed v) (RewardCoin v).
Definition set_SelfStake (s : Z) (v : ValidatorInfo) : ValidatorInfo :=
  mkInfo (Pubkey v) (QUICAddr v) (BLSPubkey v) s (DelegatedTotal v) (Jailed v) (RewardCoin v).
Definition set_DelegatedTotal (s : Z) (v : ValidatorInfo) : ValidatorInfo :=
  mkInfo (Pubkey v) (QUICAddr v) (BLSPubkey v) (SelfStake v) s (Jailed v) (RewardCoin v).
Definition set_Jailed (b : bool) (v : ValidatorInfo) : ValidatorInfo :=
  mkInfo (Pubkey v) (QUICAddr v) (BLSPubkey v) (SelfStake v) (DelegatedTotal v) b (RewardCoin v).
Definition set_RewardCoin (c : Hash) (v : ValidatorInfo) : ValidatorInfo :=
  mkInfo (Pubkey v) (QUICAddr v) (BLSPubkey v) (SelfStake v) (DelegatedTotal v) (Jailed v) c.

(** ** Operations *)

Definition NewValidatorSet (pubkeys : list Hash) : ValidatorSet :=
  mkSet (map (fun pk => newInfo pk [] zeroBLS) pubkeys)
        (foldl (fun m ip => <[snd ip := fst ip]> m) ∅ (imap pair pubkeys)).

(** [Add]: a known validator only has its unset address and key filled in. *)
Definition fillUnset (addr bls : bytes) (v : ValidatorInfo) : ValidatorInfo :=
  let v := if bool_decide (QUICAddr v = []) && negb (bool_decide (addr = []))
           then set_QUICAddr addr v else v in
  if bool_decide (BLSPubkey v = zeroBLS) && negb (bool_decide (bls = zeroBLS))
  then set_BLSPubkey bls v else v.

Definition Add (vs : ValidatorSet) (pk : Hash) (addr bls : bytes) : ValidatorSet * bool :=
  match index vs !! pk with
  | Some idx => (mkSet (alter (fillUnset addr bls) idx (validators vs)) (index vs), false)
  | None => (mkSet (validators vs ++ [newInfo pk addr bls])
                   (<[pk := length (validators vs)]> (index vs)), true)
  end.

(** [Remove]: swap the last validator into the hole, then truncate. *)
Definition Remove (vs : ValidatorSet) (pk : Hash) : ValidatorSet * bool :=
  match index vs !! pk with
  | None => (vs, false)
  | Some idx =>
      let last := pred (length (validators vs)) in
      let '(l, m) :=
        if decide (idx <> last) then
          match validators vs !! last with
          | Some v => (<[idx := v]> (validators vs), <[Pubkey v := idx]> (index vs))
          | None => (validators vs, index vs)
          end
        else (validators vs, index vs) in
      (mkSet (take last l) (delete pk m), true)
  end.

Definition Contains (vs : ValidatorSet) (pk : Hash) : bool :=
  bool_decide (is_Some (index vs !! pk)).

Definition Len (vs : ValidatorSet) : Z := Z.of_nat (length (validators vs)).

Definition QuorumSize (vs : ValidatorSet) : Z :=
  let n := Len vs in if n <? 1 then 1 else (2 * n) / 3 + 1.

Definition Validators (vs : ValidatorSet) : list Hash := map Pubkey (validators vs).

Definition Get (vs : ValidatorSet) (pk : Hash) : option ValidatorInfo :=
  match index vs !! pk with
  | Some idx => validators vs !! idx
  | None => None
  end.

(** The shape shared by the in-place field writes. *)
Definition updateAt (vs : ValidatorSet) (pk : Hash) (f : ValidatorInfo -> ValidatorInfo)
    : ValidatorSet * bool :=
  match index vs !! pk with
  | Some idx => (mkSet (alter f idx (validators vs)) (index vs), true)
  | None => (vs, false)
  end.

Definition SetSelfStake (vs : ValidatorSet) (pk : Hash) (stake : Z) : ValidatorSet :=
  fst (updateAt vs pk (set_SelfStake stake)).

Definition SetRewardCoin (vs : ValidatorSet) (pk coin : Hash) : ValidatorSet :=
  fst (updateAt vs pk (set_RewardCoin coin)).

Definition addDelegated (amount : Z) (v : ValidatorInfo) : ValidatorInfo :=
  set_DelegatedTotal (DelegatedTotal v +w amount) v.

Definition AddDelegated (vs : ValidatorSet) (pk : Hash) (amount : Z) : ValidatorSet * bool :=
  updateAt vs pk (addDelegated amount).

Definition subDelegated (amount : Z) (v : ValidatorInfo) : ValidatorInfo :=
  if DelegatedTotal v <? amount then set_DelegatedTotal 0 v
  else set_DelegatedTotal (DelegatedTotal v -w amount) v.

Definition SubDelegated (vs : ValidatorSet) (pk : Hash) (amount : Z) : ValidatorSet * bool :=
  updateAt vs pk (subDelegated amount).

Definition Jail (vs : ValidatorSet) (pk : Hash) : ValidatorSet * bool :=
  updateAt vs pk (set_Jailed true).

Definition Unjail (vs : ValidatorSet) (pk : Hash) : ValidatorSet * bool :=
  updateAt vs pk (set_Jailed false).

Definition setStakes (self delegated : Z) (jailed : bool) (v : ValidatorInfo) : ValidatorInfo :=
  set_Jailed jailed (set_DelegatedTotal delegated (set_SelfStake self v)).

Definition AddWithStake (vs : ValidatorSet) (pk : Hash) (addr bls : bytes)
    (self delegated : Z) (jailed : bool) : ValidatorSet :=
  match index vs !! pk with
  | Some idx => mkSet (alter (setStakes self delegated jailed) idx (validators vs)) (index vs)
  | None => mkSet (validators vs ++ [mkInfo pk addr bls self delegated jailed zeroHash])
                  (<[pk := length (validators vs)]> (index vs))
  end.

(** [All] returns copies in slice order. *)
Definition All (vs : ValidatorSet) : list ValidatorInfo := validators vs.

Definition SortedKeys (vs : ValidatorSet) : list Hash := sortHashes (map Pubkey (validators vs)).

(** [Index]: -1 when unknown. *)
Definition Index (vs : ValidatorSet) (pk : Hash) : Z :=
  match index vs !! pk with Some i => Z.of_nat i | None => -1 end.

(** ** The invariant: the index is exactly the inverse of the slice *)

Definition vs_ok (vs : ValidatorSet) : Prop :=
  forall pk i, index vs !! pk = Some i <->
    exists v, validators vs !! i = Some v /\ Pubkey v = pk.

(** The abstract value of a set. *)
Definition view (vs : ValidatorSet) : gmap Hash ValidatorInfo :=
  list_to_map (map (fun v => (Pubkey v, v)) (validators vs)).

Lemma vs_ok_lookup vs pk i :
  vs_ok vs -> index vs !! pk = Some i ->
  exists v, validators vs !! i = Some v /\ Pubkey v = pk.
Proof. intros Hok Hi. by apply Hok. Qed.

Lemma vs_ok_inj vs i j v w :
  vs_ok vs -> validators vs !! i = Some v -> validators vs !! j = Some w ->
  Pubkey v = Pubkey w -> i = j.
Proof.
  intros Hok Hv Hw Heq.
  assert (index vs !! Pubkey v = Some i) by (apply Hok; eauto).
  assert (index vs !! Pubkey v = Some j) by (apply Hok; eauto). congruence.
Qed.

Lemma vs_ok_NoDup vs : vs_ok vs -> NoDup (map Pubkey (validators vs)).
Proof.
  intros Hok. apply NoDup_alt. intros i j x Hi Hj.
  rewrite list_lookup_fmap in Hi, Hj.
  destruct (validators vs !! i) as [v|] eqn:Ev; [|done].
  destruct (validators vs !! j) as [w|] eqn:Ew; [|done].
  simplify_eq/=. by eapply vs_ok_inj.
Qed.

Lemma view_lookup vs pk : vs_ok vs -> view vs !! pk = Get vs pk.
Proof.
  intros Hok. unfold Get, view.
  destruct (index vs !! pk) as [i|] eqn:Ei.
  - destruct (vs_ok_lookup _ _ _ Hok Ei) as (v & Hv & <-). rewrite Hv.
    apply elem_of_list_to_map.
    + rewrite <- list_fmap_compose. apply (vs_ok_NoDup vs Hok).
    + apply list_elem_of_fmap. exists v. split; [done|]. by apply list_elem_of_lookup_2 with i.
  - apply not_elem_of_list_to_map. rewrite <- list_fmap_compose.
    intros (v & -> & Hin)%list_elem_of_fmap. apply list_elem_of_lookup in Hin as [j Hj].
    assert (index vs !! Pubkey v = Some j) by (apply Hok; eauto). simpl in Ei. congruence.
Qed.

Lemma Get_Some_Pubkey vs pk v : vs_ok vs -> Get vs pk = Some v -> Pubkey v = pk.
Proof.
  unfold Get. intros Hok. destruct (index vs !! pk) as [i|] eqn:Ei; [|done].
  destruct (vs_ok_lookup _ _ _ Hok Ei) as (w & Hw & Hp). congruence.
Qed.

(** ** In-place writes *)

Lemma updateAt_ok vs pk f :
  (forall v, Pubkey (f v) = Pubkey v) -> vs_ok vs -> vs_ok (fst (updateAt vs pk f)).
Proof.
  intros Hf Hok. unfold updateAt. destruct (index vs !! pk) as [idx|] eqn:Ei; [|done].
  intros q i. simpl. rewrite (Hok q i). rewrite list_lookup_alter.
  case_decide as Hd; [subst i|done].
  destruct (validators vs !! idx) as [v|]; simpl; split; intros (w & Hw & Hp);
    simplify_eq; eexists; split; [reflexivity|by rewrite Hf| reflexivity|by rewrite Hf].
Qed.

Lemma updateAt_Get vs pk f q :
  vs_ok vs -> Get (fst (updateAt vs pk f)) q =
    if decide (q = pk) then f <$> Get vs q else Get vs q.
Proof.
  intros Hok. unfold updateAt, Get. destruct (index vs !! pk) as [idx|] eqn:Ei; simpl.
  - case_decide as Hd.
    + subst q. rewrite Ei, list_lookup_alter. by rewrite decide_True.
    + destruct (index vs !! q) as [j|] eqn:Ej; [|done].
      rewrite list_lookup_alter, decide_False; [done|].
      intros ->. destruct (vs_ok_lookup _ _ _ Hok Ei) as (v & Hv & <-).
      destruct (vs_ok_lookup _ _ _ Hok Ej) as (w & Hw & <-). congruence.
  - case_decide; [subst q|]; by rewrite ?Ei.
Qed.

Lemma Add_known vs pk addr bls :
  is_Some (index vs !! pk) -> Add vs pk addr bls = (fst (updateAt vs pk (fillUnset addr bls)), false).
Proof. intros [i Hi]. unfold Add, updateAt. by rewrite Hi. Qed.

Lemma AddWithStake_known vs pk addr bls s d j :
  is_Some (index vs !! pk) ->
  AddWithStake vs pk addr bls s d j = fst (updateAt vs pk (setStakes s d j)).
Proof. intros [i Hi]. unfold AddWithStake, updateAt. by rewrite Hi. Qed.

Lemma fillUnset_Pubkey a b v : Pubkey (fillUnset a b v) = Pubkey v.
Proof. unfold fillUnset. split_ifs; done. Qed.

Lemma subDelegated_Pubkey a v : Pubkey (subDelegated a v) = Pubkey v.
Proof. unfold subDelegated. split_ifs; done. Qed.

(** ** Appending *)

Definition append (vs : ValidatorSet) (v : ValidatorInfo) : ValidatorSet :=
  mkSet (validators vs ++ [v]) (<[Pubkey v := length (validators vs)]> (index vs)).

Lemma append_ok vs v : vs_ok vs -> index vs !! Pubkey v = None -> vs_ok (append vs v).
Proof.
  intros Hok Hn pk i. simpl. split.
  - destruct (decide (pk = Pubkey v)) as [->|Hne].
    + rewrite lookup_insert_eq. intros [= <-]. exists v.
      rewrite lookup_app_r, Nat.sub_diag by lia. done.
    + rewrite lookup_insert_ne by done. intros (w & Hw & <-)%Hok.
      exists w. split; [|done]. by apply lookup_app_l_Some.
  - intros (w & Hw & <-). apply lookup_app_Some in Hw as [Hw|[Hge Hw]].
    + rewrite lookup_insert_ne; [apply Hok; eauto|].
      intros Heq. assert (index vs !! Pubkey w = Some i) by (apply Hok; eauto). congruence.
    + destruct (i - length (validators vs))%nat eqn:E; [|done].
      simpl in Hw. simplify_eq. rewrite lookup_insert_eq. f_equal. lia.
Qed.

Lemma append_Get vs v q :
  vs_ok vs -> index vs !! Pubkey v = None ->
  Get (append vs v) q = if decide (q = Pubkey v) then Some v else Get vs q.
Proof.
  intros Hok Hn. unfold Get, append; simpl. case_decide as Hd.
  - subst q. rewrite lookup_insert_eq, lookup_app_r, Nat.sub_diag by lia. done.
  - rewrite lookup_insert_ne by done. destruct (index vs !! q) as [i|] eqn:Ei; [|done].
    apply lookup_app_l. destruct (vs_ok_lookup _ _ _ Hok Ei) as (w & Hw & _).
    by apply lookup_lt_Some in Hw.
Qed.

(** ** Removal *)

Lemma Remove_lookup vs pk idx i :
  vs_ok vs -> index vs !! pk = Some idx ->
  validators (fst (Remove vs pk)) !! i =
    if decide (i < pred (length (validators vs)))%nat then
      if decide (i = idx) then validators vs !! pred (length (validators vs)) else validators vs !! i
    else None.
Proof.
  intros Hok Hi. unfold Remove. rewrite Hi.
  destruct (vs_ok_lookup _ _ _ Hok Hi) as (v & Hv & Hp). apply lookup_lt_Some in Hv as Hlt.
  destruct (lookup_lt_is_Some_2 (validators vs) (pred (length (validators vs)))) as [w Hw]; [lia|].
  rewrite Hw. case_decide as Hd; simpl; case_decide as Hi2.
  - rewrite lookup_take_lt by lia. case_decide as He.
    + subst i. by rewrite list_lookup_insert_eq.
    + by rewrite list_lookup_insert_ne by done.
  - by rewrite lookup_take_ge by lia.
  - rewrite lookup_take_lt by lia. rewrite decide_False by lia. done.
  - by rewrite lookup_take_ge by lia.
Qed.

Lemma Remove_index vs pk idx w :
  vs_ok vs -> index vs !! pk = Some idx ->
  validators vs !! pred (length (validators vs)) = Some w ->
  index (fst (Remove vs pk)) = delete pk (<[Pubkey w := idx]> (index vs)).
Proof.
  intros Hok Hi Hw. unfold Remove. rewrite Hi. rewrite Hw.
  case_decide as Hd; [done|]. simpl. f_equal. symmetry. apply insert_id.
  subst idx.
  destruct (vs_ok_lookup _ _ _ Hok Hi) as (v & Hv & <-). congruence.
Qed.

Lemma last_exists vs pk idx :
  vs_ok vs -> index vs !! pk = Some idx ->
  exists w, validators vs !! pred (length (validators vs)) = Some w /\
            (idx < length (validators vs))%nat.
Proof.
  intros Hok Hi. destruct (vs_ok_lookup _ _ _ Hok Hi) as (v & Hv & _).
  apply lookup_lt_Some in Hv.
  destruct (lookup_lt_is_Some_2 (validators vs) (pred (length (validators vs)))); [lia|eauto].
Qed.

Lemma Remove_Get vs pk q :
  vs_ok vs -> Get (fst (Remove vs pk)) q = if decide (q = pk) then None else Get vs q.
Proof.
  intros Hok. destruct (index vs !! pk) as [idx|] eqn:Hi.
  2:{ unfold Remove. rewrite Hi. simpl. case_decide; [subst|done]. unfold Get. by rewrite Hi. }
  destruct (last_exists _ _ _ Hok Hi) as (w & Hw & Hlt).
  unfold Get. rewrite (Remove_index _ _ _ _ Hok Hi Hw).
  case_decide as Hd; [subst q; by rewrite lookup_delete_eq|].
  rewrite lookup_delete_ne by done.
  destruct (decide (q = Pubkey w)) as [->|Hne].
  - rewrite lookup_insert_eq, (Remove_lookup _ _ _ _ Hok Hi).
    assert (index vs !! Pubkey w = Some (pred (length (validators vs)))) as -> by (apply Hok; eauto).
    rewrite decide_True; [by rewrite decide_True|].
    destruct (decide (idx = pred (length (validators vs)))) as [->|]; [|lia].
    destruct (vs_ok_lookup _ _ _ Hok Hi) as (v & Hv & <-). congruence.
  - rewrite lookup_insert_ne by done.
    destruct (index vs !! q) as [j|] eqn:Ej; [|done].
    destruct (vs_ok_lookup _ _ _ Hok Ej) as (u & Hu & <-). apply lookup_lt_Some in Hu as Hj.
    rewrite (Remove_lookup _ _ _ _ Hok Hi), Hu.
    rewrite decide_True; [rewrite decide_False; [done|]|].
    + intros ->. destruct (vs_ok_lookup _ _ _ Hok Hi) as (v & Hv & <-). congruence.
    + destruct (decide (j = pred (length (validators vs)))) as [->|]; [congruence|lia].
Qed.

Lemma Remove_ok vs pk : vs_ok vs -> vs_ok (fst (Remove vs pk)).
Proof.
  intros Hok. destruct (index vs !! pk) as [idx|] eqn:Hi.
  2:{ unfold Remove. by rewrite Hi. }
  destruct (last_exists _ _ _ Hok Hi) as (w & Hw & Hlt).
  intros q i. split.
  - intros Hq. pose proof (Remove_Get vs pk q Hok) as HG. unfold Get in HG at 1.
    rewrite Hq in HG. rewrite HG.
    rewrite (Remove_index _ _ _ _ Hok Hi Hw) in Hq.
    apply lookup_delete_Some in Hq as [Hne Hq]. rewrite decide_False by done.
    assert (is_Some (index vs !! q)) as [j Hj].
    { apply lookup_insert_Some in Hq as [[<- _]|[_ Hq]]; [|eauto]. exists (pred (length (validators vs))).
      apply Hok; eauto. }
    unfold Get. rewrite Hj. destruct (vs_ok_lookup _ _ _ Hok Hj) as (v & Hv & Hp). eauto.
  - intros (v & Hv & <-). rewrite (Remove_lookup _ _ _ _ Hok Hi) in Hv.
    rewrite (Remove_index _ _ _ _ Hok Hi Hw).
    destruct (vs_ok_lookup _ _ _ Hok Hi) as (u & Hu & Hpu).
    case_decide as Hlti; [|done]. case_decide as He; simplify_eq.
    + rewrite lookup_delete_ne; [by rewrite lookup_insert_eq|].
      intros Heq. assert (idx = pred (length (validators vs))); [|lia]. by eapply vs_ok_inj.
    + rewrite lookup_delete_ne by (intros Heq; apply He; by eapply vs_ok_inj).
      rewrite lookup_insert_ne; [apply Hok; eauto|].
      intros Heq. assert (i = pred (length (validators vs))); [|lia]. by eapply vs_ok_inj.
Qed.

(** The removed record, and nothing else, leaves the slice. *)
Lemma Remove_perm vs pk v :
  vs_ok vs -> Get vs pk = Some v -> validators vs ≡ₚ v :: validators (fst (Remove vs pk)).
Proof.
  intros Hok HG. unfold Get in HG. destruct (index vs !! pk) as [idx|] eqn:Hi; [|done].
  destruct (last_exists _ _ _ Hok Hi) as (w & Hw & Hlt).
  unfold Remove. rewrite Hi, Hw.
  assert (Hsplit : validators vs = take (pred (length (validators vs))) (validators vs) ++ [w]).
  { rewrite <- (take_drop (pred (length (validators vs))) (validators vs)) at 1. f_equal.
    rewrite (drop_S _ _ _ Hw), drop_ge by lia. done. }
  case_decide as Hd; simpl.
  - rewrite Hsplit at 1.
    rewrite take_insert_lt by lia.
    set (T := take (pred (length (validators vs))) (validators vs)) in *.
    assert (HT : T !! idx = Some v).
    { unfold T. rewrite lookup_take_lt by lia. done. }
    rewrite (delete_Permutation T idx v HT) at 1.
    rewrite (delete_Permutation (<[idx:=w]> T) idx w).
    + rewrite list_delete_insert_same. simpl. by rewrite <- Permutation_cons_append.
    + apply list_lookup_insert_eq. by apply lookup_lt_Some in HT.
  - subst idx. simplify_eq.
    rewrite Hsplit at 1. by rewrite <- Permutation_cons_append.
Qed.

(** ** Construction *)

Lemma NewValidatorSet_index (l : list Hash) (k : nat) (m : gmap Hash nat) (pk : Hash) (i : nat) :
  NoDup l -> (forall q j, m !! q = Some j -> (q ∉ l)) ->
  foldl (fun m ip => <[snd ip := fst ip]> m) m (imap (fun i (x : Hash) => ((k + i)%nat, x)) l) !! pk = Some i <->
  m !! pk = Some i \/ exists j, i = (k + j)%nat /\ l !! j = Some pk.
Proof.
  revert k m; induction l as [|a l IH]; intros k m Hnd Hm; simpl.
  - split; [by left|]. intros [?|(j & _ & Hj)]; [done|]. by rewrite lookup_nil in Hj.
  - apply NoDup_cons in Hnd as [Ha Hnd].
    rewrite (imap_ext _ (fun i (x : Hash) => ((S k + i)%nat, x))) by (intros; simpl; f_equal; lia).
    rewrite IH; [| done |].
    + rewrite lookup_insert. case_decide as Hd; [subst a|].
      * split.
        -- intros [[= <-]|(j & -> & Hj)].
           ++ right. exists 0%nat. split; [lia|done].
           ++ exfalso. by apply Ha, list_elem_of_lookup_2 with j.
        -- intros [Hmi|(j & -> & Hj)].
           ++ exfalso. apply (Hm _ _ Hmi). left.
           ++ destruct j as [|j]; [left; f_equal; lia|].
              exfalso. by apply Ha, list_elem_of_lookup_2 with j.
      * split.
        -- intros [?|(j & -> & Hj)]; [by left|]. right. exists (S j). split; [lia|done].
        -- intros [?|(j & -> & Hj)]; [by left|]. destruct j as [|j]; [by simplify_eq/=|].
           right. exists j. split; [lia|done].
    + intros q j. rewrite lookup_insert. case_decide as Hd; [by subst a|].
      intros Hq Hin. apply (Hm _ _ Hq). by right.
Qed.

Lemma NewValidatorSet_ok (l : list Hash) : NoDup l -> vs_ok (NewValidatorSet l).
Proof.
  intros Hnd pk i. simpl.
  rewrite (imap_ext _ (fun i (x : Hash) => ((0 + i)%nat, x))) by done.
  rewrite (NewValidatorSet_index l 0 ∅ pk i) by (done || intros; by simplify_map_eq).
  rewrite list_lookup_fmap. split.
  - intros [?|(j & -> & Hj)]; [by simplify_map_eq|]. simpl. rewrite Hj. simpl. eauto.
  - intros (v & Hv & <-). right. exists i. split; [done|].
    destruct (l !! i); simplify_eq/=. done.
Qed.

(** ** Refinement to a finite map *)

Inductive VSOp :=
| OpAdd (pk : Hash) (addr bls : bytes)
| OpRemove (pk : Hash)
| OpSetSelfStake (pk : Hash) (stake : Z)
| OpSetRewardCoin (pk coin : Hash)
| OpAddDelegated (pk : Hash) (amount : Z)
| OpSubDelegated (pk : Hash) (amount : Z)
| OpJail (pk : Hash)
| OpUnjail (pk : Hash)
| OpAddWithStake (pk : Hash) (addr bls : bytes) (self delegated : Z) (jailed : bool).

(** The code's mutators. *)
Definition runOp (o : VSOp) (vs : ValidatorSet) : ValidatorSet :=
  match o with
  | OpAdd pk a b => fst (Add vs pk a b)
  | OpRemove pk => fst (Remove vs pk)
  | OpSetSelfStake pk s => SetSelfStake vs pk s
  | OpSetRewardCoin pk c => SetRewardCoin vs pk c
  | OpAddDelegated pk a => fst (AddDelegated vs pk a)
  | OpSubDelegated pk a => fst (SubDelegated vs pk a)
  | OpJail pk => fst (Jail vs pk)
  | OpUnjail pk => fst (Unjail vs pk)
  | OpAddWithStake pk a b s d j => AddWithStake vs pk a b s d j
  end.

(** What each promises on the abstract map. *)
Definition upsert (pk : Hash) (v : ValidatorInfo) (f : ValidatorInfo -> ValidatorInfo)
    (m : gmap Hash ValidatorInfo) : gmap Hash ValidatorInfo :=
  match m !! pk with Some w => <[pk := f w]> m | None => <[pk := v]> m end.

Definition specOp (o : VSOp) (m : gmap Hash ValidatorInfo) : gmap Hash ValidatorInfo :=
  match o with
  | OpAdd pk a b => upsert pk (newInfo pk a b) (fillUnset a b) m
  | OpRemove pk => delete pk m
  | OpSetSelfStake pk s => alter (set_SelfStake s) pk m
  | OpSetRewardCoin pk c => alter (set_RewardCoin c) pk m
  | OpAddDelegated pk a => alter (addDelegated a) pk m
  | OpSubDelegated pk a => alter (subDelegated a) pk m
  | OpJail pk => alter (set_Jailed true) pk m
  | OpUnjail pk => alter (set_Jailed false) pk m
  | OpAddWithStake pk a b s d j =>
      upsert pk (mkInfo pk a b s d j zeroHash) (setStakes s d j) m
  end.

Lemma view_update vs pk f :
  (forall v, Pubkey (f v) = Pubkey v) -> vs_ok vs ->
  view (fst (updateAt vs pk f)) = alter f pk (view vs).
Proof.
  intros Hf Hok. apply map_eq. intros q.
  rewrite view_lookup, updateAt_Get by auto using updateAt_ok.
  rewrite lookup_alter, <- view_lookup by done.
  destruct (decide (q = pk)) as [->|]; [by rewrite decide_True|].
  by rewrite decide_False by congruence.
Qed.

Lemma view_append vs v :
  vs_ok vs -> index vs !! Pubkey v = None ->
  view (append vs v) = <[Pubkey v := v]> (view vs).
Proof.
  intros Hok Hn. apply map_eq. intros q.
  rewrite view_lookup, append_Get by auto using append_ok.
  rewrite lookup_insert, <- view_lookup by done.
  destruct (decide (q = Pubkey v)) as [->|]; [by rewrite decide_True|].
  by rewrite decide_False by congruence.
Qed.

Lemma view_None vs pk : vs_ok vs -> index vs !! pk = None -> view vs !! pk = None.
Proof. intros Hok Hn. rewrite view_lookup by done. unfold Get. by rewrite Hn. Qed.

Lemma view_Some vs pk i : vs_ok vs -> index vs !! pk = Some i -> is_Some (view vs !! pk).
Proof.
  intros Hok Hi. rewrite view_lookup by done. unfold Get. rewrite Hi.
  destruct (vs_ok_lookup _ _ _ Hok Hi) as (v & -> & _). eauto.
Qed.

Lemma upsert_alter pk v f m : is_Some (m !! pk) -> upsert pk v f m = alter f pk m.
Proof.
  intros [w Hw]. unfold upsert. rewrite Hw. apply map_eq. intros q.
  rewrite lookup_insert, lookup_alter. case_decide; [subst|done]. by rewrite Hw.
Qed.

Lemma runOp_refines o vs :
  vs_ok vs -> vs_ok (runOp o vs) /\ view (runOp o vs) = specOp o (view vs).
Proof.
  intros Hok. destruct o; simpl; unfold SetSelfStake, SetRewardCoin, AddDelegated, SubDelegated, Jail, Unjail;
    try (split; [apply updateAt_ok|apply view_update]; auto using subDelegated_Pubkey; done).
  - destruct (index vs !! pk) as [i|] eqn:Hi.
    + rewrite Add_known by eauto. simpl. rewrite upsert_alter by eauto using view_Some.
      split; [apply updateAt_ok|apply view_update]; auto using fillUnset_Pubkey.
    + unfold Add. rewrite Hi. simpl. unfold upsert. rewrite view_None by done.
      split; [apply (append_ok vs (newInfo pk addr bls))|apply (view_append vs (newInfo pk addr bls))];
        done.
  - split; [by apply Remove_ok|]. apply map_eq. intros q.
    rewrite view_lookup, Remove_Get by auto using Remove_ok.
    rewrite lookup_delete, <- view_lookup by done.
    destruct (decide (q = pk)) as [->|]; [by rewrite decide_True|].
    by rewrite decide_False by congruence.
  - destruct (index vs !! pk) as [i|] eqn:Hi.
    + rewrite AddWithStake_known by eauto. rewrite upsert_alter by eauto using view_Some.
      split; [apply updateAt_ok|apply view_update]; done.
    + unfold AddWithStake. rewrite Hi. simpl. unfold upsert. rewrite view_None by done.
      set (v := mkInfo pk addr bls self delegated jailed zeroHash).
      split; [apply (append_ok vs v)|apply (view_append vs v)]; done.
Qed.

(** A set built from distinct pubkeys and driven by any sequence of mutators
    keeps its index coherent and implements the same sequence on the map. *)

(** A validator set built from distinct keys and driven by any sequence of its
    mutators keeps its pubkey index the inverse of its slice and behaves as a finite map,
    the swap of Remove included. *)
Theorem ValidatorSet_refines_map pubkeys ops :
  NoDup pubkeys ->
  let vs := foldl (fun vs o => runOp o vs) (NewValidatorSet pubkeys) ops in
  vs_ok vs /\
  view vs = foldl (fun m o => specOp o m) (view (NewValidatorSet pubkeys)) ops /\
  forall pk, Get vs pk = view vs !! pk.
Proof.
  intros Hnd. cbv zeta.
  assert (Hgen : forall vs, vs_ok vs ->
    vs_ok (foldl (fun vs o => runOp o vs) vs ops) /\
    view (foldl (fun vs o => runOp o vs) vs ops) = foldl (fun m o => specOp o m) (view vs) ops).
  { induction ops as [|o ops IH]; intros vs Hok; simpl; [done|].
    destruct (runOp_refines o vs Hok) as [H1 <-]. by apply IH. }
  destruct (Hgen _ (NewValidatorSet_ok _ Hnd)) as [H1 H2].
  split; [done|]. split; [done|]. intros pk. by rewrite view_lookup.
Qed.

Theorem ValidatorSet_refines_map_witness :
  NoDup [[1]; [2]; [3]] /\
  forall pk, Get (runOp (OpRemove [1]) (NewValidatorSet [[1]; [2]; [3]])) pk =
             view (runOp (OpRemove [1]) (NewValidatorSet [[1]; [2]; [3]])) !! pk.
Proof.
  assert (H : NoDup [[1]; [2]; [3]]) by (apply (bool_decide_unpack _); vm_compute; exact I).
  split; [exact H|].
  exact (proj2 (proj2 (ValidatorSet_refines_map [[1]; [2]; [3]] [OpRemove [1]] H))).
Defined.

(** The swap of [Remove] on a concrete set: the last validator fills the hole. *)
Example Remove_swaps :
  Validators (fst (Remove (NewValidatorSet [[1]; [2]; [3]; [4]]) [2])) = [[1]; [4]; [3]].
Proof. vm_compute. reflexivity. Qed.
