(* ===== verification/Stake.v ===== *)
(** * Stake weight and quorums (internal/consensus/stake.go, and the quorum
    predicates of anchor_decision.go)

    Voting weight is effective stake capped per validator; a quorum is two
    thirds of the capped total.  The theorems are the facts the anchor rule
    rests on: quorums intersect, the full set is a quorum, and a round ruled
    out by a set of non-supporters cannot be certified by anybody else.  The
    [QuorumSystem] class states what the anchor rule may assume. *)

From S2P Require Import Prelude Types Fees Validators.

(** ** Definitions *)

(** [EffectiveStake]: self plus delegated stake, zero when jailed. *)
Definition EffectiveStake (v : ValidatorInfo) : Z :=
  if Jailed v then 0 else safeAdd (SelfStake v) (DelegatedTotal v).

(** [totalBonded] over a set. *)
Definition totalBonded (vs : ValidatorSet) : Z :=
  foldl (fun total v => safeAdd total (EffectiveStake v)) 0 (All vs).

Definition cappedWeight (effective total capMille setSize : Z) : Z :=
  if (setSize <=? 0) || (total =? 0) then effective
  else
    let ceiling := safeMul total capMille / 1000 in
    let equal := total / setSize in
    let ceiling := if ceiling <? equal then equal else ceiling in
    if ceiling <? effective then ceiling else effective.

Definition quorumReached (cappedSum total : Z) : bool :=
  if total =? 0 then false else safeMul 2 total <=? safeMul 3 cappedSum.

(** [cappedStakeOf]: the producers' capped weight and the set's capped total. *)
Definition cappedStakeOf (cap : Z) (vs : ValidatorSet) (producers : gset Hash) : Z * Z :=
  let all := All vs in
  let setSize := Z.of_nat (length all) in
  let rawTotal := foldl (fun t v => safeAdd t (EffectiveStake v)) 0 all in
  foldl (fun acc v =>
    let weight := cappedWeight (EffectiveStake v) rawTotal cap setSize in
    let cappedTotal := safeAdd (snd acc) weight in
    let cappedSum := if bool_decide (Pubkey v ∈ producers)
                     then safeAdd (fst acc) weight else fst acc in
    (cappedSum, cappedTotal)) (0, 0) all.

(** [reachesStrictQuorum]. *)
Definition reachesStrictQuorum (cap : Z) (vs : ValidatorSet) (producers : gset Hash) : bool :=
  let '(cappedSum, cappedTotal) := cappedStakeOf cap vs producers in
  quorumReached cappedSum cappedTotal.

(** [membersInSet]: how many of the set's validators are among the producers. *)
Definition membersInSet (vs : ValidatorSet) (producers : gset Hash) : Z :=
  foldl (fun count v => if bool_decide (Pubkey v ∈ producers) then count + 1 else count) 0 (All vs).

(** [certifies]: one member supporter in the relaxed regime, the strict
    quorum otherwise. *)
Definition certifies (cap : Z) (vs : ValidatorSet) (producers : gset Hash) (relaxed : bool) : bool :=
  if relaxed then 1 <=? membersInSet vs producers else reachesStrictQuorum cap vs producers.

(** [certificationRuledOut]: even every other holder together falls short. *)
Definition certificationRuledOut (cap : Z) (vs : ValidatorSet) (nonSupporters : gset Hash) : bool :=
  let '(nonSupportCapped, cappedTotal) := cappedStakeOf cap vs nonSupporters in
  if cappedTotal =? 0 then false
  else
    let maxSupport := cappedTotal -w nonSupportCapped in
    negb (quorumReached maxSupport cappedTotal).

(** ** Well-formed stakes *)

Definition wf_info (v : ValidatorInfo) : Prop := is_u64 (SelfStake v) /\ is_u64 (DelegatedTotal v).

(** The exact bonded total of a set. *)
Definition bondedSum (vs : ValidatorSet) : Z := sumZ (map EffectiveStake (validators vs)).

(** Every stake fits its width and the whole set stays under a third of the range,
    so no product of the quorum test saturates. *)
Record bounded (cap : Z) (vs : ValidatorSet) : Prop := {
  b_infos : Forall wf_info (validators vs);
  b_total : 3 * bondedSum vs < two64;
  b_cap : is_u64 cap;
  b_len : Z.of_nat (length (validators vs)) < two64;
}.

Lemma EffectiveStake_u64 v : wf_info v -> is_u64 (EffectiveStake v).
Proof. intros [H1 H2]. unfold EffectiveStake. split_ifs; auto with u64db. Qed.

#[export] Hint Resolve EffectiveStake_u64 : u64db.

Lemma bondedSum_nonneg vs : Forall wf_info (validators vs) -> 0 <= bondedSum vs.
Proof.
  intros H. apply sumZ_map_nonneg. intros x Hx. rewrite Forall_forall in H.
  destruct (EffectiveStake_u64 x (H x Hx)). lia.
Qed.

Lemma totalBonded_exact vs :
  Forall wf_info (validators vs) -> bondedSum vs < two64 -> totalBonded vs = bondedSum vs.
Proof.
  intros H Hb. unfold totalBonded, All.
  destruct (safeAdd_fold EffectiveStake (validators vs) 0) as [_ ->]; [auto with u64db| |].
  - intros x Hx. rewrite Forall_forall in H. auto with u64db.
  - fold (bondedSum vs). pose proof (bondedSum_nonneg vs H). lia.
Qed.

Lemma cappedWeight_range e total cap n :
  is_u64 e -> is_u64 total -> is_u64 cap -> 0 <= n -> 0 <= cappedWeight e total cap n <= e.
Proof.
  intros He Ht Hc Hn. unfold cappedWeight. cbv zeta.
  pose proof (safeMul_u64 total cap Ht Hc).
  assert (0 <= safeMul total cap / 1000) by (apply Z.div_pos; u64_lia).
  assert (0 <= total / n) by (destruct (Z.eq_dec n 0) as [->|];
    [rewrite Z.div_0_r; lia|apply Z.div_pos; u64_lia]).
  split_ifs; zb; u64_lia.
Qed.

(** A capped weight never exceeds the configured fraction of the total, or an
    equal share where that is larger. *)
Lemma cappedWeight_ceiling e total cap n :
  is_u64 e -> is_u64 total -> is_u64 cap -> 0 < n -> 0 < total ->
  cappedWeight e total cap n <= Z.max (total * cap / 1000) (total / n).
Proof.
  intros He Ht Hc Hn H0. unfold cappedWeight. cbv zeta.
  destruct (Z.leb_spec n 0); [lia|]. destruct (Z.eqb_spec total 0); [lia|]. simpl.
  assert (safeMul total cap / 1000 <= total * cap / 1000)
    by (apply Z.div_le_mono; [lia|by apply safeMul_le]).
  split_ifs; zb; lia.
Qed.

(** ** Exact form of the tally *)

Definition weight (cap : Z) (vs : ValidatorSet) (v : ValidatorInfo) : Z :=
  cappedWeight (EffectiveStake v) (bondedSum vs) cap (Z.of_nat (length (validators vs))).

Definition weightOf (cap : Z) (vs : ValidatorSet) (P : gset Hash) : Z :=
  sumZ (map (fun v => if bool_decide (Pubkey v ∈ P) then weight cap vs v else 0) (validators vs)).

Definition weightTotal (cap : Z) (vs : ValidatorSet) : Z :=
  sumZ (map (weight cap vs) (validators vs)).

Section Tally.
Context (cap : Z) (vs : ValidatorSet) (Hb : bounded cap vs).

Lemma info_in v : v ∈ validators vs -> wf_info v.
Proof using Hb. intros Hv. pose proof (b_infos _ _ Hb) as H. rewrite Forall_forall in H. auto. Qed.

Lemma bondedSum_u64 : is_u64 (bondedSum vs).
Proof using Hb.
  pose proof (bondedSum_nonneg vs (b_infos _ _ Hb)). pose proof (b_total _ _ Hb). u64_lia.
Qed.

Lemma weight_range v : v ∈ validators vs -> 0 <= weight cap vs v <= EffectiveStake v.
Proof using Hb.
  intros Hv. apply cappedWeight_range; [|apply bondedSum_u64|apply Hb|lia].
  apply EffectiveStake_u64, info_in, Hv.
Qed.

Lemma weightTotal_range : 0 <= weightTotal cap vs /\ 3 * weightTotal cap vs < two64.
Proof using Hb.
  assert (weightTotal cap vs <= bondedSum vs).
  { apply sumZ_map_le. intros x Hx. by apply weight_range. }
  assert (0 <= weightTotal cap vs).
  { apply sumZ_map_nonneg. intros x Hx. by apply weight_range. }
  pose proof (b_total _ _ Hb). lia.
Qed.

Lemma weightOf_range P : 0 <= weightOf cap vs P <= weightTotal cap vs.
Proof using Hb.
  split; [apply sumZ_map_nonneg|apply sumZ_map_le]; intros x Hx;
    pose proof (weight_range x Hx); case_bool_decide; lia.
Qed.

Lemma cappedStakeOf_exact P : cappedStakeOf cap vs P = (weightOf cap vs P, weightTotal cap vs).
Proof using Hb.
  unfold cappedStakeOf, All. cbv zeta.
  assert (foldl (fun t v => safeAdd t (EffectiveStake v)) 0 (validators vs) = bondedSum vs) as ->.
  { apply (totalBonded_exact vs); [apply Hb|]. pose proof bondedSum_u64. u64_lia. }
  fold (weight cap vs).
  assert (Hgen : forall l a b, l ⊆ validators vs -> 0 <= a -> 0 <= b ->
    a + sumZ (map (fun v => if bool_decide (Pubkey v ∈ P) then weight cap vs v else 0) l) < two64 ->
    b + sumZ (map (weight cap vs) l) < two64 ->
    foldl (fun acc v => (if bool_decide (Pubkey v ∈ P)
                         then safeAdd (fst acc) (weight cap vs v) else fst acc,
                         safeAdd (snd acc) (weight cap vs v))) (a, b) l =
    (a + sumZ (map (fun v => if bool_decide (Pubkey v ∈ P) then weight cap vs v else 0) l),
     b + sumZ (map (weight cap vs) l))).
  { induction l as [|v l IH]; intros a b Hin Ha Hbb H1 H2; simpl in *; [f_equal; lia|].
    assert (Hv : 0 <= weight cap vs v <= EffectiveStake v) by (apply weight_range, Hin; left).
    assert (Hl : l ⊆ validators vs) by (intros x Hx; apply Hin; by right).
    assert (0 <= sumZ (map (weight cap vs) l)).
    { apply sumZ_map_nonneg. intros x Hx. by apply weight_range, Hl. }
    assert (0 <= sumZ (map (fun v => if bool_decide (Pubkey v ∈ P) then weight cap vs v else 0) l)).
    { apply sumZ_map_nonneg. intros x Hx. pose proof (weight_range x (Hl x Hx)).
      simpl. destruct (bool_decide (Pubkey x ∈ P)); lia. }
    rewrite (safeAdd_min b) by u64_lia.
    case_bool_decide; rewrite ?(safeAdd_min a) by u64_lia; rewrite IH by (auto; u64_lia);
      f_equal; u64_lia. }
  rewrite <- (Z.add_0_l (weightOf cap vs P)), <- (Z.add_0_l (weightTotal cap vs)).
  apply Hgen; [done|lia|lia| |];
    pose proof (weightOf_range P); pose proof weightTotal_range;
    unfold weightOf, weightTotal in *; lia.
Qed.

(** In range, the quorum test is the exact two-thirds comparison. *)
Lemma quorumReached_exact s t :
  0 <= s <= t -> 3 * t < two64 -> quorumReached s t = (0 <? t) && (2 * t <=? 3 * s).
Proof using.
  intros Hs Ht. unfold quorumReached.
  destruct (Z.eqb_spec t 0); [subst; done|].
  rewrite !safeMul_exact by u64_lia. destruct (Z.ltb_spec 0 t); [done|lia].
Qed.

Lemma reachesStrictQuorum_exact P :
  reachesStrictQuorum cap vs P =
    (0 <? weightTotal cap vs) && (2 * weightTotal cap vs <=? 3 * weightOf cap vs P).
Proof using Hb.
  unfold reachesStrictQuorum. rewrite cappedStakeOf_exact.
  apply quorumReached_exact; [apply weightOf_range|apply weightTotal_range].
Qed.

Lemma weightOf_mono P Q : P ⊆ Q -> weightOf cap vs P <= weightOf cap vs Q.
Proof using Hb.
  intros HPQ. apply sumZ_map_le. intros x Hx. pose proof (weight_range x Hx).
  repeat case_bool_decide; try lia. exfalso. set_solver.
Qed.

Lemma weightOf_union_inter P Q :
  weightOf cap vs P + weightOf cap vs Q = weightOf cap vs (P ∪ Q) + weightOf cap vs (P ∩ Q).
Proof using.
  clear Hb. unfold weightOf. rewrite <- !sumZ_map_add. f_equal. apply map_ext. intros v.
  repeat case_bool_decide; try lia; exfalso; set_solver.
Qed.

Lemma certificationRuledOut_exact N :
  certificationRuledOut cap vs N =
    (0 <? weightTotal cap vs) &&
    negb (2 * weightTotal cap vs <=? 3 * (weightTotal cap vs - weightOf cap vs N)).
Proof using Hb.
  unfold certificationRuledOut. rewrite cappedStakeOf_exact. cbv zeta.
  pose proof (weightOf_range N). pose proof weightTotal_range.
  destruct (Z.eqb_spec (weightTotal cap vs) 0) as [->|]; [done|].
  rewrite sub64_exact by u64_lia. rewrite quorumReached_exact by lia.
  destruct (Z.ltb_spec 0 (weightTotal cap vs)); [done|lia].
Qed.

End Tally.

(** ** What the anchor rule assumes of quorums *)

Class QuorumSystem (quorum : gset Hash -> Prop) (ruledOut : gset Hash -> Prop) := {
  quorum_mono : forall P Q, P ⊆ Q -> quorum P -> quorum Q;
  quorum_meet : forall P Q, quorum P -> quorum Q -> P ∩ Q ≠ ∅;
  ruledOut_mono : forall N M, N ⊆ M -> ruledOut N -> ruledOut M;
  ruledOut_sound : forall N P, ruledOut N -> P ∩ N = ∅ -> ~ quorum P;
}.

Lemma weightOf_empty cap vs : weightOf cap vs ∅ = 0.
Proof.
  unfold weightOf. induction (validators vs) as [|v l IH]; simpl; [done|].
  rewrite IH. rewrite bool_decide_eq_false_2 by set_solver. lia.
Qed.

Lemma quorum_overlap cap vs P Q :
  bounded cap vs ->
  reachesStrictQuorum cap vs P = true -> reachesStrictQuorum cap vs Q = true ->
  0 < weightTotal cap vs /\ weightTotal cap vs <= 3 * weightOf cap vs (P ∩ Q).
Proof.
  intros Hb HP HQ. rewrite reachesStrictQuorum_exact in HP, HQ by done.
  pose proof (weightOf_union_inter cap vs P Q).
  pose proof (weightOf_range cap vs Hb (P ∪ Q)). zb. lia.
Qed.

Lemma ruledOut_no_quorum cap vs N P :
  bounded cap vs -> certificationRuledOut cap vs N = true -> P ∩ N = ∅ ->
  reachesStrictQuorum cap vs P = false.
Proof.
  intros Hb HN Hd. rewrite certificationRuledOut_exact in HN by done.
  rewrite reachesStrictQuorum_exact by done.
  pose proof (weightOf_union_inter cap vs P N) as HU. rewrite Hd, weightOf_empty in HU.
  pose proof (weightOf_range cap vs Hb (P ∪ N)).
  apply andb_false_iff. right. zb. apply Z.leb_gt. lia.
Qed.

Lemma ruledOut_superset cap vs N M :
  bounded cap vs -> N ⊆ M ->
  certificationRuledOut cap vs N = true -> certificationRuledOut cap vs M = true.
Proof.
  intros Hb Hs HN. rewrite certificationRuledOut_exact in * by done.
  pose proof (weightOf_mono cap vs Hb N M Hs). zb.
  apply andb_true_iff. split; [by apply Z.ltb_lt|].
  apply negb_true_iff, Z.leb_gt. lia.
Qed.

Lemma quorum_superset cap vs P Q :
  bounded cap vs -> P ⊆ Q ->
  reachesStrictQuorum cap vs P = true -> reachesStrictQuorum cap vs Q = true.
Proof.
  intros Hb Hs HP. rewrite reachesStrictQuorum_exact in * by done.
  pose proof (weightOf_mono cap vs Hb P Q Hs). zb.
  apply andb_true_iff. split; [by apply Z.ltb_lt|]. apply Z.leb_le. lia.
Qed.

(** The capped-stake quorums of a bounded set are such a system. *)
#[export] Instance stake_quorums cap vs (Hb : bounded cap vs) :
  QuorumSystem (fun P => reachesStrictQuorum cap vs P = true)
               (fun N => certificationRuledOut cap vs N = true).
Proof.
  split.
  - intros P Q. by apply quorum_superset.
  - intros P Q HP HQ HE. destruct (quorum_overlap cap vs P Q Hb HP HQ) as [H1 H2].
    rewrite HE, weightOf_empty in H2. lia.
  - intros N M. by apply ruledOut_superset.
  - intros N P HN HD HP. by rewrite (ruledOut_no_quorum cap vs N P) in HP.
Qed.

(** ** Theorems *)

Lemma quorum_honest_overlap cap vs P Q B :
  bounded cap vs ->
  reachesStrictQuorum cap vs P = true -> reachesStrictQuorum cap vs Q = true ->
  3 * weightOf cap vs B < weightTotal cap vs ->
  exists v, v ∈ All vs /\ Pubkey v ∈ P /\ Pubkey v ∈ Q /\ Pubkey v ∉ B.
Proof.
  intros Hb HP HQ HB. destruct (quorum_overlap cap vs P Q Hb HP HQ) as [_ Hlow].
  destruct (Exists_dec (fun v => Pubkey v ∈ P ∩ Q /\ Pubkey v ∉ B) (All vs)) as [He|Hne].
  { apply Exists_exists in He as (v & Hv & HPQ & HnB). exists v. set_solver. }
  exfalso. assert (weightOf cap vs (P ∩ Q) <= weightOf cap vs B); [|lia].
  apply sumZ_map_le. intros v Hv. pose proof (weight_range cap vs Hb v Hv).
  destruct (decide (Pubkey v ∈ P ∩ Q)); [rewrite (bool_decide_eq_true_2 _ e)|].
  - rewrite bool_decide_eq_true_2; [lia|].
    destruct (decide (Pubkey v ∈ B)); [done|]. exfalso. apply Hne, Exists_exists. eauto.
  - rewrite (bool_decide_eq_false_2 _ n). case_bool_decide; lia.
Qed.

(** Two strict quorums share at least a third of the capped weight, so they
    share a validator outside any coalition below a third. *)

(** Two strict quorums over one holder set share a validator outside any coalition
    holding less than a third of the capped weight. *)
Theorem quorum_intersection cap vs P Q B :
  bounded cap vs ->
  reachesStrictQuorum cap vs P = true -> reachesStrictQuorum cap vs Q = true ->
  3 * weightOf cap vs B < weightTotal cap vs ->
  exists v, v ∈ All vs /\ Pubkey v ∈ P /\ Pubkey v ∈ Q /\ Pubkey v ∉ B.
Proof. apply quorum_honest_overlap. Qed.

(** A literal set of keys. *)
Definition keys (l : list Hash) : gset Hash := list_to_set l.

(** Four equal validators: the smallest set that tolerates a fault. *)
Definition four : ValidatorSet :=
  foldl (fun vs pk => AddWithStake vs pk [] [] 100 0 false) (NewValidatorSet []) [[1]; [2]; [3]; [4]].

Lemma four_bounded cap : is_u64 cap -> bounded cap four.
Proof.
  intros Hc. split; [|vm_compute; reflexivity|done|vm_compute; reflexivity].
  repeat constructor; unfold is_u64; simpl; lia.
Qed.

Theorem quorum_intersection_witness :
  exists v, v ∈ All four /\ Pubkey v ∈ keys [[1]; [2]; [3]] /\
    Pubkey v ∈ keys [[2]; [3]; [4]] /\ Pubkey v ∉ keys [[2]].
Proof.
  apply (quorum_intersection 100 four); [|vm_compute; reflexivity..].
  apply four_bounded. unfold is_u64. lia.
Defined.

(** The whole set always reaches the strict quorum: the cap, applied to both
    terms of the test, cannot put it out of reach. *)

(** Whatever the stake concentration, the whole validator set reaches the strict
    quorum: capping both sides of the test keeps it attainable. *)
Theorem full_set_quorum cap vs :
  bounded cap vs -> 0 < weightTotal cap vs ->
  reachesStrictQuorum cap vs (list_to_set (Validators vs)) = true.
Proof.
  intros Hb Hpos. rewrite reachesStrictQuorum_exact by done.
  assert (weightOf cap vs (list_to_set (Validators vs)) = weightTotal cap vs) as ->.
  { unfold weightOf, weightTotal. f_equal. apply map_ext_in. intros v Hv.
    rewrite bool_decide_eq_true_2; [done|]. apply elem_of_list_to_set, list_elem_of_fmap.
    exists v. split; [done|]. by apply list_elem_of_In. }
  apply andb_true_iff. split; [by apply Z.ltb_lt|]. apply Z.leb_le. lia.
Qed.

(** A whale with 97 percent of the stake, capped: the set still has a quorum. *)
Theorem full_set_quorum_witness :
  let whale := AddWithStake four [9] [] [] 13000 0 false in
  reachesStrictQuorum 100 whale (list_to_set (Validators whale)) = true.
Proof.
  apply full_set_quorum; [|vm_compute; reflexivity].
  split; [|vm_compute; reflexivity|unfold is_u64; lia|vm_compute; reflexivity].
  repeat constructor; unfold is_u64; simpl; lia.
Defined.

(** Once the non-supporters rule a round out, no set of other holders can ever
    certify it, and more non-supporters never reopen it. *)

(** When the capped weight of the non-supporters rules a certification out, no set of
    other holders certifies it, and adding non-supporters keeps it ruled out. *)
Theorem ruled_out_is_final cap vs N M P :
  bounded cap vs -> certificationRuledOut cap vs N = true -> N ⊆ M -> P ∩ M = ∅ ->
  certificationRuledOut cap vs M = true /\ certifies cap vs P false = false.
Proof.
  intros Hb HN Hs Hd. pose proof (ruledOut_superset cap vs N M Hb Hs HN) as HM.
  split; [done|]. by apply (ruledOut_no_quorum cap vs M).
Qed.

Theorem ruled_out_is_final_witness :
  certificationRuledOut 100 four (keys [[1]; [2]; [3]]) = true /\
  certifies 100 four (keys [[4]]) false = false.
Proof.
  apply (ruled_out_is_final 100 four (keys [[1]; [2]]));
    [apply four_bounded; unfold is_u64; lia|vm_compute; reflexivity|unfold keys; set_solver
    |apply (bool_decide_unpack _); vm_compute; exact I].
Defined.

(** At totals of 2^63 and above both sides of the two-thirds test saturate, so
    a single third of the stake passes it: two disjoint "quorums". *)
Theorem quorum_saturates_above_2_63 :
  let huge := foldl (fun vs pk => AddWithStake vs pk [] [] 6200000000000000000 0 false)
                    (NewValidatorSet []) [[1]; [2]] in
  reachesStrictQuorum 100 huge (keys [[1]]) = true /\
  reachesStrictQuorum 100 huge (keys [[2]]) = true.
Proof. vm_compute. done. Qed.
