(* ===== verification/Thermostat.v ===== *)
(** * The issuance control loop (internal/consensus/thermostat.go)

    The pure functions of the loop; [runThermostat], which threads them through
    the node's state, is in the epoch component. *)

From S2P Require Import Prelude Types Fees.

Record thermostatParams := mkThermostat {
  TargetLowMille : Z;
  TargetHighMille : Z;
  FloorRateMicro : Z;
  CeilingRateMicro : Z;
  GenesisRateMicro : Z;
  StepCapMicro : Z;
  AutoRestakeMille : Z;
}.

Definition subFloor (a b : Z) : Z := if a <? b then 0 else a -w b.

Definition clampRate (rate : Z) (p : thermostatParams) : Z :=
  if rate <? FloorRateMicro p then FloorRateMicro p
  else if CeilingRateMicro p <? rate then CeilingRateMicro p
  else rate.

Definition stakingRatioMille (bonded supply : Z) : Z :=
  if supply =? 0 then 0 else safeMul bonded 1000 / supply.

Definition adjustRate (rate ratioMille : Z) (p : thermostatParams) : Z :=
  if (TargetLowMille p <=? ratioMille) && (ratioMille <=? TargetHighMille p) then clampRate rate p
  else
    let rate := if ratioMille <? TargetLowMille p then safeAdd rate (StepCapMicro p)
                else subFloor rate (StepCapMicro p) in
    clampRate rate p.

Definition issuanceFor (rateMicro supply : Z) : Z := safeMul rateMicro supply / 1000000.

(** ** Properties *)

Lemma subFloor_max a b : is_u64 a -> is_u64 b -> subFloor a b = Z.max (a - b) 0.
Proof.
  intros Ha Hb. unfold subFloor. destruct (Z.ltb_spec a b); [u64_lia|].
  rewrite sub64_exact by u64_lia. u64_lia.
Qed.

Lemma clampRate_id rate p :
  FloorRateMicro p <= rate <= CeilingRateMicro p -> clampRate rate p = rate.
Proof. intros. unfold clampRate. split_ifs; zb; lia. Qed.

(** One step of the loop stays within the bounds, moves by at most the step cap,
    holds inside the dead band and otherwise moves towards it. *)

(** One step of the issuance loop stays within its floor and ceiling, moves by at
    most the step cap, holds inside the dead band and otherwise moves towards it. *)
Theorem adjustRate_controlled rate ratio p :
  is_u64 rate -> is_u64 (StepCapMicro p) ->
  FloorRateMicro p <= rate <= CeilingRateMicro p ->
  let r := adjustRate rate ratio p in
  FloorRateMicro p <= r <= CeilingRateMicro p /\
  Z.abs (r - rate) <= StepCapMicro p /\
  (TargetLowMille p <= ratio <= TargetHighMille p -> r = rate) /\
  (ratio < TargetLowMille p -> rate <= r) /\
  (TargetLowMille p <= TargetHighMille p -> TargetHighMille p < ratio -> r <= rate).
Proof.
  intros Hr Hs Hb. cbv zeta. unfold adjustRate. cbv zeta.
  rewrite safeAdd_min, subFloor_max by done.
  destruct (Z.leb_spec (TargetLowMille p) ratio), (Z.leb_spec ratio (TargetHighMille p)); simpl;
    rewrite ?clampRate_id by done;
    destruct (Z.ltb_spec ratio (TargetLowMille p)); try lia;
    unfold clampRate; split_ifs; zb; u64_lia.
Qed.

(** From outside the bounds (a changed parameter) one step restores them. *)
Lemma adjustRate_bounds rate ratio p :
  FloorRateMicro p <= CeilingRateMicro p ->
  FloorRateMicro p <= adjustRate rate ratio p <= CeilingRateMicro p.
Proof. intros. unfold adjustRate, clampRate. cbv zeta. split_ifs; zb; lia. Qed.

Definition sampleThermostat : thermostatParams := mkThermostat 250 350 10 1000 500 50 500.

Theorem adjustRate_controlled_witness :
  let r := adjustRate 500 100 sampleThermostat in
  FloorRateMicro sampleThermostat <= r <= CeilingRateMicro sampleThermostat /\
  Z.abs (r - 500) <= StepCapMicro sampleThermostat /\
  (TargetLowMille sampleThermostat <= 100 <= TargetHighMille sampleThermostat -> r = 500) /\
  (100 < TargetLowMille sampleThermostat -> 500 <= r) /\
  (TargetLowMille sampleThermostat <= TargetHighMille sampleThermostat ->
   TargetHighMille sampleThermostat < 100 -> r <= 500).
Proof.
  apply (adjustRate_controlled 500 100 sampleThermostat); unfold is_u64; simpl; lia.
Defined.

(** Issuance never exceeds the rate's share of the pre-mint supply. *)
Lemma issuanceFor_le rate supply :
  is_u64 rate -> is_u64 supply ->
  0 <= issuanceFor rate supply <= rate * supply / 1000000.
Proof.
  intros Hr Hs. unfold issuanceFor. split.
  - apply Z.div_pos; [|lia]. destruct (safeMul_u64 rate supply Hr Hs). lia.
  - apply Z.div_le_mono; [lia|]. by apply safeMul_le.
Qed.
