(* ===== verification/Storage.v ===== *)
(** * The key-value store (internal/storage/storage.go)

    [Storage] is a thin wrapper of Pebble, which is not part of the repository:
    it is a parameter, the class [Pebble], whose laws are the documented
    behaviour of an ordered key-value store (point reads see the latest write,
    an iterator lists the keys of a half-open range in ascending order).  I/O
    errors are not modelled: every caller treats a failed read as an absent
    key.  [gmap_pebble] shows the laws can hold. *)

From S2P Require Import Prelude.

(** [k] lies in [lo, hi), [None] being unbounded. *)
Definition inRange (lo : bytes) (hi : option bytes) (k : bytes) : bool :=
  bytes_leb lo k && match hi with None => true | Some h => bytes_ltb k h end.

Class Pebble (M : Type) := {
  db_get : M -> bytes -> option bytes;
  db_set : M -> bytes -> bytes -> M;
  db_delete : M -> bytes -> M;
  db_iter : M -> bytes -> option bytes -> list (bytes * bytes);
  db_map : M -> gmap bytes bytes;
  db_get_spec : forall m k, db_get m k = db_map m !! k;
  db_set_spec : forall m k v, db_map (db_set m k v) = <[k := v]> (db_map m);
  db_delete_spec : forall m k, db_map (db_delete m k) = delete k (db_map m);
  db_iter_spec : forall m lo hi k v,
    (k, v) ∈ db_iter m lo hi <-> db_map m !! k = Some v /\ inRange lo hi k = true;
  db_iter_NoDup : forall m lo hi, NoDup (map fst (db_iter m lo hi));
  db_iter_sorted : forall m lo hi, Sorted bytes_le (map fst (db_iter m lo hi));
}.

#[export] Hint Rewrite @db_get_spec @db_set_spec @db_delete_spec : go.

Section Storage.
Context {M : Type} `{Pebble M}.

Definition Get (s : M) (key : bytes) : option bytes := db_get s key.
Definition Set_ (s : M) (key value : bytes) : M := db_set s key value.
Definition Delete (s : M) (key : bytes) : M := db_delete s key.

(** One atomic batch of writes, applied in order. *)
Definition SetBatch (s : M) (pairs : list (bytes * bytes)) : M :=
  foldl (fun s kv => db_set s (fst kv) (snd kv)) s pairs.

(** [prefixUpperBound]: the smallest key above every key with the prefix, by
    incrementing from the last byte and dropping carried-out bytes' ends. *)
Fixpoint prefixUpperBound_rev (r : bytes) : option bytes :=
  match r with
  | [] => None
  | b :: r' =>
      let b' := (b + 1) mod 256 in
      if negb (b' =? 0) then Some (b' :: r')
      else match prefixUpperBound_rev r' with
           | Some u => Some (b' :: u)
           | None => None
           end
  end.

Definition prefixUpperBound (prefix : bytes) : option bytes :=
  match prefixUpperBound_rev (rev prefix) with
  | Some u => Some (rev u)
  | None => None
  end.

(** The entries [IteratePrefix] hands to its callback, in order. *)
Definition IteratePrefix (s : M) (prefix : bytes) : list (bytes * bytes) :=
  db_iter s prefix (prefixUpperBound prefix).

Lemma SetBatch_map s pairs :
  db_map (SetBatch s pairs) = foldl (fun m kv => <[fst kv := snd kv]> m) (db_map s) pairs.
Proof.
  revert s; induction pairs as [|p l IH]; intros s; simpl; [done|].
  fold (SetBatch (db_set s p.1 p.2) l). by rewrite IH, db_set_spec.
Qed.

End Storage.

(** ** The upper bound of a prefix *)

Lemma prefixUpperBound_snoc q b :
  0 <= b < 255 -> prefixUpperBound (q ++ [b]) = Some (q ++ [b + 1]).
Proof.
  intros Hb. unfold prefixUpperBound. rewrite rev_app_distr. simpl.
  rewrite Z.mod_small by lia. destruct (Z.eqb_spec (b + 1) 0); [lia|]. simpl.
  by rewrite rev_involutive.
Qed.

Lemma snoc_range q b k :
  inRange (q ++ [b]) (Some (q ++ [b + 1])) k = true <-> (q ++ [b]) `prefix_of` k.
Proof.
  revert k; induction q as [|x q IH]; intros k; unfold inRange, bytes_ltb in *; simpl.
  - destruct k as [|c k]; simpl.
    + split; [done|]. intros Hp. by apply prefix_nil_inv in Hp.
    + assert (bytes_leb [] k = true) by (by destruct k).
      split.
      * intros H1. destruct (Z.eq_dec b c) as [->|Hne]; [by apply prefix_cons, prefix_nil|].
        destruct (Z.ltb_spec b c), (Z.eqb_spec b c), (Z.ltb_spec (b + 1) c), (Z.eqb_spec (b + 1) c);
          simpl in H1; try done; try lia; rewrite ?andb_false_r in H1; try done.
      * intros Hp. apply prefix_cons_inv_1 in Hp as ->.
        rewrite Z.ltb_irrefl, Z.eqb_refl. simpl.
        by destruct (Z.ltb_spec (c + 1) c), (Z.eqb_spec (c + 1) c); [lia..|destruct k].
  - destruct k as [|c k].
    + split; [done|]. intros Hp. by apply prefix_nil_inv in Hp.
    + specialize (IH k). destruct (Z.eq_dec x c) as [->|Hne].
      * rewrite Z.ltb_irrefl, Z.eqb_refl. simpl. rewrite IH.
        split; [apply prefix_cons|apply prefix_cons_inv_2].
      * split; [|intros Hp; by apply prefix_cons_inv_1 in Hp].
        destruct (Z.ltb_spec x c), (Z.eqb_spec x c), (Z.ltb_spec c x), (Z.eqb_spec c x);
          simpl; try done; lia.
Qed.

(** For a prefix not ending in 0xFF, [IteratePrefix] visits exactly the keys
    that extend it, each once and in ascending order. *)
Lemma IteratePrefix_snoc {M} `{Pebble M} (s : M) q b k v :
  0 <= b < 255 ->
  (k, v) ∈ IteratePrefix s (q ++ [b]) <-> Get s k = Some v /\ (q ++ [b]) `prefix_of` k.
Proof.
  intros Hb. unfold IteratePrefix, Get. rewrite prefixUpperBound_snoc by done.
  by rewrite db_iter_spec, db_get_spec, snoc_range.
Qed.

(** For a prefix that does not end in 0xFF, iterating it visits exactly the stored
    keys that extend it, once each and in ascending order. *)
Theorem IteratePrefix_exact {M} `{Pebble M} (s : M) q b :
  0 <= b < 255 ->
  (forall k v, (k, v) ∈ IteratePrefix s (q ++ [b]) <-> Get s k = Some v /\ (q ++ [b]) `prefix_of` k) /\
  NoDup (map fst (IteratePrefix s (q ++ [b]))) /\
  Sorted bytes_le (map fst (IteratePrefix s (q ++ [b]))).
Proof.
  intros Hb. split; [|split; [apply db_iter_NoDup|apply db_iter_sorted]].
  intros k v. by apply IteratePrefix_snoc.
Qed.

(** A carry leaves zero bytes behind the incremented one, so the bound of a
    prefix ending in 0xFF admits the shorter key just above it. *)
Theorem prefixUpperBound_carry_loose :
  prefixUpperBound [5; 255] = Some [6; 0] /\
  inRange [5; 255] (prefixUpperBound [5; 255]) [6] = true /\
  ~ [5; 255] `prefix_of` [6].
Proof.
  split; [done|]. split; [done|]. intros Hp. by apply prefix_cons_inv_1 in Hp.
Qed.

(** ** A model of the laws *)

Definition entry_le : relation (bytes * bytes) := fun a b => bytes_le (fst a) (fst b).

#[export] Instance entry_le_dec : RelDecision entry_le.
Proof. intros a b. unfold entry_le. apply _. Defined.

#[export] Instance entry_le_trans : Transitive entry_le.
Proof. intros a b c. unfold entry_le. apply bytes_le_trans. Qed.

#[export] Instance entry_le_total : Total entry_le.
Proof. intros a b. unfold entry_le. apply bytes_le_total. Qed.

Definition gmap_iter (m : gmap bytes bytes) (lo : bytes) (hi : option bytes) : list (bytes * bytes) :=
  merge_sort entry_le (filter (fun kv => inRange lo hi (fst kv) = true) (map_to_list m)).

Lemma sorted_fst (l : list (bytes * bytes)) : Sorted entry_le l -> Sorted bytes_le (map fst l).
Proof.
  induction 1 as [|a l Hs IH Hd]; simpl; constructor; auto.
  destruct Hd; simpl; constructor. done.
Qed.

#[export] Instance gmap_pebble : Pebble (gmap bytes bytes).
Proof.
  refine {| db_get := fun m k => m !! k;
            db_set := fun m k v => <[k := v]> m;
            db_delete := fun m k => delete k m;
            db_iter := gmap_iter;
            db_map := fun m => m |}; try done.
  - intros m lo hi k v. unfold gmap_iter.
    rewrite (merge_sort_Permutation entry_le), list_elem_of_filter, elem_of_map_to_list.
    simpl. tauto.
  - intros m lo hi. unfold gmap_iter.
    rewrite (merge_sort_Permutation entry_le).
    apply (sublist_NoDup _ ((map_to_list m).*1)); [apply NoDup_fst_map_to_list|].
    generalize (map_to_list m). intros l. induction l as [|x l IH]; simpl; [constructor|].
    rewrite filter_cons. case_decide; simpl; by constructor.
  - intros m lo hi. apply sorted_fst, (Sorted_merge_sort entry_le).
Defined.

Theorem IteratePrefix_exact_witness :
  let s : gmap bytes bytes := <[ [116; 58; 7] := [1] ]> (<[ [118; 58; 9] := [2] ]> ∅) in
  0 <= 58 < 255 /\
  (forall k v, (k, v) ∈ IteratePrefix s ([116] ++ [58]) <->
     Get s k = Some v /\ ([116] ++ [58]) `prefix_of` k).
Proof.
  cbv zeta. split; [lia|].
  exact (proj1 (IteratePrefix_exact (<[ [116; 58; 7] := [1] ]> (<[ [118; 58; 9] := [2] ]> ∅) : gmap bytes bytes)
    [116] 58 ltac:(lia))).
Defined.
