(* ===== verification/Tracker.v ===== *)
(** * The object tracker (internal/consensus/tracker.go, walk.go)

    Versions, replication, storage deposits and parent edges of every object,
    as 55-byte values under the ["t:"] prefix of the store, and the commit-once
    markers under ["c:"].  The abstract specification is a finite map of
    [Entry] records; every operation on the bytes is proved to implement the
    operation on the map. *)

From S2P Require Import Prelude Types Storage.

Definition trackerKeyPrefix : bytes := [116; 58].
Definition committedTxPrefix : bytes := [99; 58].
Definition keyRootKind : Z := 0.
Definition objectParentKind : Z := 1.

(** ** The byte layout *)

Definition encodeValue (version replication fees parentKind : Z) (parent : Hash) (childCount : Z) : bytes :=
  le_enc 8 version ++ le_enc 2 replication ++ le_enc 8 fees ++
  [parentKind] ++ parent ++ le_enc 4 childCount.

(** [makeKey] and [committedKey] on a 32-byte ID. *)
Definition makeKey (objectID : Hash) : bytes := trackerKeyPrefix ++ objectID.
Definition committedKey (txHash : Hash) : bytes := committedTxPrefix ++ txHash.

(** [ObjectTrackerEntry], the exported record. *)
Record ObjectTrackerEntry := mkTrackerEntry {
  te_ID : Hash;
  te_Version : Z;
  te_Replication : Z;
  te_Fees : Z;
  te_ParentKind : Z;
  te_Parent : Hash;
  te_ChildCount : Z;
}.

Section Tracker.
Context {M : Type} `{Pebble M}.
Implicit Type ot : M.

(** ** Reads *)

Definition getVersion ot (id : Hash) : Z :=
  match Get ot (makeKey id) with
  | Some value => if Nat.ltb (length value) 8 then 0 else le_dec (slice 0 8 value)
  | None => 0
  end.

Definition getReplication ot (id : Hash) : Z :=
  match Get ot (makeKey id) with
  | Some value => if Nat.ltb (length value) 10 then 0 else le_dec (slice 8 2 value)
  | None => 0
  end.

Definition getFees ot (id : Hash) : Z :=
  match Get ot (makeKey id) with
  | Some value => if Nat.ltb (length value) 18 then 0 else le_dec (slice 10 8 value)
  | None => 0
  end.

(** [getParent]: [None] when untracked, the zero key root for an entry written
    before the parent field existed. *)
Definition getParent ot (id : Hash) : option (Z * Hash) :=
  match Get ot (makeKey id) with
  | None => None
  | Some value =>
      if Nat.ltb (length value) 55 then Some (keyRootKind, zeroHash)
      else Some (default 0 (value !! 18%nat), slice 19 32 value)
  end.

Definition childCount ot (id : Hash) : Z :=
  match Get ot (makeKey id) with
  | Some value => if Nat.ltb (length value) 55 then 0 else le_dec (slice 51 4 value)
  | None => 0
  end.

(** ** Writes *)

(** [adjustChildCount]: patch the parent's own count in place. *)
Definition adjustChildCount ot (kind : Z) (parentID : Hash) (delta : Z) : M :=
  if negb (kind =? objectParentKind) then ot
  else match Get ot (makeKey parentID) with
  | None => ot
  | Some value =>
      if Nat.ltb (length value) 55 then ot
      else
        let count := u32 (le_dec (slice 51 4 value) + delta) in
        Set_ ot (makeKey parentID) (take 51 value ++ le_enc 4 count ++ drop 55 value)
  end.

(** [rebindChildCount]: [old] is the previous edge, [None] for a new object. *)
Definition rebindChildCount ot (old : option (Z * Hash)) (newKind : Z) (newParent : Hash) : M :=
  match old with
  | Some (oldKind, oldParent) =>
      if (oldKind =? newKind) && bool_decide (oldParent = newParent) then ot
      else adjustChildCount (adjustChildCount ot oldKind oldParent (-1)) newKind newParent 1
  | None => adjustChildCount ot newKind newParent 1
  end.

Definition trackObject ot (id : Hash) (version replication fees parentKind : Z) (parent : Hash) : M :=
  let old := getParent ot id in
  let selfChildren := childCount ot id in
  let ot := Set_ ot (makeKey id) (encodeValue version replication fees parentKind parent selfChildren) in
  rebindChildCount ot old parentKind parent.

Definition setParent ot (id : Hash) (kind : Z) (parent : Hash) : M :=
  let version := getVersion ot id in
  let replication := getReplication ot id in
  let fees := getFees ot id in
  let selfChildren := childCount ot id in
  let old := getParent ot id in
  let ot := Set_ ot (makeKey id) (encodeValue version replication fees kind parent selfChildren) in
  rebindChildCount ot old kind parent.

Definition deleteObject ot (id : Hash) : M :=
  let old := getParent ot id in
  let ot := Delete ot (makeKey id) in
  match old with
  | Some (kind, parent) => adjustChildCount ot kind parent (-1)
  | None => ot
  end.

(** ** Versions and the commit-once guard *)

(** [checkRefList] on one list of references. *)
Fixpoint checkRefList ot (refs : list TxRef) : bool :=
  match refs with
  | [] => true
  | r :: refs =>
      match hash32 (ref_id r) with
      | None => if bool_decide (ref_domain r = []) then false else checkRefList ot refs
      | Some id => if getVersion ot id =? ref_version r then checkRefList ot refs else false
      end
  end.

Definition checkVersions ot (tx : Transaction) : bool :=
  checkRefList ot (tx_ReadRefs tx) && checkRefList ot (tx_MutableRefs tx).

Definition bumpObject ot (id : Hash) : M :=
  let version := getVersion ot id in
  let replication := getReplication ot id in
  let fees := getFees ot id in
  let '(kind, parent) := default (keyRootKind, zeroHash) (getParent ot id) in
  trackObject ot id (version +w 1) replication fees kind parent.

Definition incrementMutableObjects ot (tx : Transaction) : M :=
  foldl (fun ot r => match hash32 (ref_id r) with Some id => bumpObject ot id | None => ot end)
        ot (tx_MutableRefs tx).

Definition checkAndUpdate ot (tx : Transaction) : M * bool :=
  if checkVersions ot tx then (incrementMutableObjects ot tx, true) else (ot, false).

Definition wasCommitted ot (txHash : Hash) : bool :=
  bool_decide (is_Some (Get ot (committedKey txHash))).

Definition markCommitted ot (txHash : Hash) : M := Set_ ot (committedKey txHash) [1].

(** ** Snapshot transfer *)

Definition exportEntry (kv : bytes * bytes) : option ObjectTrackerEntry :=
  let '(key, value) := kv in
  if negb (Nat.eqb (length key) 34) || Nat.ltb (length value) 10 then None
  else
    let fees := if Nat.ltb (length value) 18 then 0 else le_dec (slice 10 8 value) in
    let '(kind, parent, children) :=
      if Nat.ltb (length value) 55 then (0, zeroHash, 0)
      else (default 0 (value !! 18%nat), slice 19 32 value, le_dec (slice 51 4 value)) in
    Some (mkTrackerEntry (drop 2 key) (le_dec (slice 0 8 value)) (le_dec (slice 8 2 value))
            fees kind parent children).

Definition Export ot : list ObjectTrackerEntry :=
  omap exportEntry (IteratePrefix ot trackerKeyPrefix).

Definition importPair (e : ObjectTrackerEntry) : bytes * bytes :=
  (makeKey (te_ID e),
   encodeValue (te_Version e) (te_Replication e) (te_Fees e) (te_ParentKind e) (te_Parent e) (te_ChildCount e)).

Definition Import ot (entries : list ObjectTrackerEntry) : M := SetBatch ot (map importPair entries).

End Tracker.

(** ** Parent walks, over any view of the edges *)

Section Walk.
Context (edge : Hash -> option (Z * Hash)).

(** [walkDepthLimit]. *)
Definition walkDepthLimit : nat := 256%nat.

Fixpoint walkController (fuel : nat) (current : Hash) : option Hash :=
  match fuel with
  | O => None
  | S fuel =>
      match edge current with
      | None => None
      | Some (kind, parent) =>
          if kind =? keyRootKind then Some parent else walkController fuel parent
      end
  end.

Fixpoint walkCycle (fuel : nat) (id current : Hash) : bool :=
  match fuel with
  | O => true
  | S fuel =>
      if bool_decide (current = id) then true
      else match edge current with
      | None => true
      | Some (kind, parent) =>
          if kind =? keyRootKind then false else walkCycle fuel id parent
      end
  end.

Definition controllerOf (id : Hash) : option Hash := walkController walkDepthLimit id.

Definition controls (sender id : Hash) : bool :=
  match controllerOf id with Some c => bool_decide (c = sender) | None => false end.

Definition wouldCycle (id : Hash) (kind : Z) (parent : Hash) : bool :=
  if kind =? keyRootKind then false else walkCycle walkDepthLimit id parent.

(** The chain from an object to its key root, with its length. *)
Inductive Rooted : Hash -> nat -> Hash -> Prop :=
| Rooted_root id key : edge id = Some (keyRootKind, key) -> Rooted id 0 key
| Rooted_step id kind parent n key :
    edge id = Some (kind, parent) -> kind <> keyRootKind ->
    Rooted parent n key -> Rooted id (S n) key.

(** The walk finds the controller exactly when the chain is shorter than the
    fuel. *)
Lemma walkController_spec fuel id key :
  walkController fuel id = Some key <-> exists n, Rooted id n key /\ (n < fuel)%nat.
Proof.
  revert id; induction fuel as [|fuel IH]; intros id; simpl.
  - split; [done|]. intros (n & _ & Hn). lia.
  - destruct (edge id) as [[kind parent]|] eqn:E.
    2:{ split; [done|]. intros (n & Hr & _). inversion Hr; congruence. }
    destruct (Z.eqb_spec kind keyRootKind) as [->|Hk].
    + split.
      * intros [= <-]. exists 0%nat. split; [by constructor|lia].
      * intros (n & Hr & _). inversion Hr; congruence.
    + rewrite IH. split.
      * intros (n & Hr & Hn). exists (S n). split; [by econstructor|lia].
      * intros (n & Hr & Hn). inversion Hr as [|? ? ? m ? He Hkk Hrp]; simplify_eq.
        exists m. split; [done|lia].
Qed.

Lemma Rooted_det id n1 n2 k1 k2 : Rooted id n1 k1 -> Rooted id n2 k2 -> n1 = n2 /\ k1 = k2.
Proof.
  intros H1. revert n2. induction H1 as [id key He|id kind parent n key He Hk Hr IH];
    intros n2 H2; inversion H2; simplify_eq; try congruence; [done|].
  destruct (IH _ ltac:(eassumption)) as [-> ->]. done.
Qed.

(** Reachability along object-parent edges. *)
Inductive Above : Hash -> Hash -> Prop :=
| Above_refl id : Above id id
| Above_step id kind parent top :
    edge id = Some (kind, parent) -> kind <> keyRootKind -> Above parent top -> Above id top.

Lemma walkCycle_false fuel id current :
  walkCycle fuel id current = false ->
  (exists n key, Rooted current n key /\ (n < fuel)%nat) /\ ~ Above current id.
Proof.
  revert current; induction fuel as [|fuel IH]; intros current; simpl; [done|].
  case_bool_decide as Hne; [done|].
  destruct (edge current) as [[kind parent]|] eqn:E; [|done].
  destruct (Z.eqb_spec kind keyRootKind) as [->|Hk]; intros Hw.
  - split; [exists 0%nat, parent; split; [by constructor|lia]|].
    intros Ha. inversion Ha; simplify_eq.
  - destruct (IH _ Hw) as [(n & key & Hr & Hn) Hna]. split.
    + exists (S n), key. split; [by econstructor|lia].
    + intros Ha. inversion Ha; by simplify_eq.
Qed.

End Walk.

(** Rewriting one edge leaves the chains that avoid it alone. *)
Lemma Rooted_other edge edge' id x n key :
  (forall y, y <> id -> edge' y = edge y) ->
  Rooted edge x n key -> ~ Above edge x id -> Rooted edge' x n key.
Proof.
  intros Heq. induction 1 as [x key He|x kind parent n key He Hk Hr IH]; intros Hna.
  - constructor. rewrite Heq; [done|]. intros ->. apply Hna. constructor.
  - econstructor; [|done|].
    + rewrite Heq; [done|]. intros ->. apply Hna. constructor.
    + apply IH. intros Ha. apply Hna. by econstructor.
Qed.

Lemma Above_dec_rooted edge x n key id :
  Rooted edge x n key -> Above edge x id \/ ~ Above edge x id.
Proof.
  induction 1 as [x key He|x kind parent n key He Hk Hr IH].
  - destruct (decide (x = id)) as [->|Hne]; [left; constructor|].
    right. intros Ha. inversion Ha; simplify_eq; congruence.
  - destruct (decide (x = id)) as [->|Hne]; [left; constructor|].
    destruct IH as [Ha|Hna]; [left; by econstructor|].
    right. intros Ha. inversion Ha; by simplify_eq.
Qed.

(** Every object that had a controlling key still has one after a reparent the
    cycle check accepted: the parent graph stays a forest. *)
Lemma reparent_rooted edge edge' id kind parent :
  wouldCycle edge id kind parent = false ->
  edge' id = Some (kind, parent) -> (forall y, y <> id -> edge' y = edge y) ->
  forall x n key, Rooted edge x n key -> exists n' key', Rooted edge' x n' key'.
Proof.
  intros Hw Hid Heq.
  assert (Hroot : exists n key, Rooted edge' id n key).
  { unfold wouldCycle in Hw. destruct (Z.eqb_spec kind keyRootKind) as [->|Hk].
    - exists 0%nat, parent. by constructor.
    - apply walkCycle_false in Hw as [(n & key & Hr & _) Hna].
      exists (S n), key. econstructor; [done..|]. by eapply Rooted_other. }
  intros x n key Hr.
  destruct (Above_dec_rooted edge x n key id Hr) as [Ha|Hna].
  - clear Hr. induction Ha as [id|x k p id He Hk Ha IH]; [done|].
    destruct (decide (x = id)) as [->|Hne]; [done|].
    destruct (IH Hw Hid Heq Hroot) as (n' & key' & Hr').
    exists (S n'), key'. econstructor; [|done..]. by rewrite Heq.
  - exists n, key. by eapply Rooted_other.
Qed.

(** ** The abstract tracker *)

Record Entry := mkEntry {
  e_version : Z;
  e_replication : Z;
  e_fees : Z;
  e_kind : Z;
  e_parent : Hash;
  e_children : Z;
}.

#[export] Instance Entry_eq_dec : EqDecision Entry.
Proof. solve_decision. Defined.

Record wf_entry (e : Entry) : Prop := {
  we_version : is_u64 (e_version e);
  we_replication : 0 <= e_replication e < 65536;
  we_fees : is_u64 (e_fees e);
  we_kind : is_byte (e_kind e);
  we_parent : length (e_parent e) = 32%nat;
  we_children : 0 <= e_children e < two32;
}.

Definition encodeEntry (e : Entry) : bytes :=
  encodeValue (e_version e) (e_replication e) (e_fees e) (e_kind e) (e_parent e) (e_children e).

(** Abstract edge of an object. *)
Definition a_edge (T : gmap Hash Entry) (id : Hash) : option (Z * Hash) :=
  e ← T !! id; Some (e_kind e, e_parent e).

Definition set_children (f : Z -> Z) (e : Entry) : Entry :=
  mkEntry (e_version e) (e_replication e) (e_fees e) (e_kind e) (e_parent e) (u32 (f (e_children e))).

Definition a_adjust (T : gmap Hash Entry) (kind : Z) (p : Hash) (delta : Z) : gmap Hash Entry :=
  if kind =? objectParentKind then alter (set_children (fun c => c + delta)) p T else T.

Definition a_rebind (T : gmap Hash Entry) (old : option (Z * Hash)) (kind : Z) (p : Hash) : gmap Hash Entry :=
  match old with
  | Some (k, q) =>
      if (k =? kind) && bool_decide (q = p) then T
      else a_adjust (a_adjust T k q (-1)) kind p 1
  | None => a_adjust T kind p 1
  end.

Definition a_children (T : gmap Hash Entry) (id : Hash) : Z :=
  match T !! id with Some e => e_children e | None => 0 end.

Definition a_track (T : gmap Hash Entry) (id : Hash) (version replication fees kind : Z) (p : Hash)
    : gmap Hash Entry :=
  a_rebind (<[id := mkEntry version replication fees kind p (a_children T id)]> T) (a_edge T id) kind p.

Definition a_setParent (T : gmap Hash Entry) (id : Hash) (kind : Z) (p : Hash) : gmap Hash Entry :=
  let e := default (mkEntry 0 0 0 keyRootKind zeroHash 0) (T !! id) in
  a_track T id (e_version e) (e_replication e) (e_fees e) kind p.

Definition a_delete (T : gmap Hash Entry) (id : Hash) : gmap Hash Entry :=
  match a_edge T id with
  | Some (k, q) => a_adjust (delete id T) k q (-1)
  | None => T
  end.

Definition a_bump (T : gmap Hash Entry) (id : Hash) : gmap Hash Entry :=
  let e := default (mkEntry 0 0 0 keyRootKind zeroHash 0) (T !! id) in
  a_track T id (e_version e +w 1) (e_replication e) (e_fees e) (e_kind e) (e_parent e).

(** Widths of the abstract map. *)
Definition wf_tracker (T : gmap Hash Entry) : Prop := map_Forall (fun _ e => wf_entry e) T.

(** The store holds exactly the encodings of the entries. *)
Definition Rep {M} `{Pebble M} (ot : M) (T : gmap Hash Entry) : Prop :=
  wf_tracker T /\ forall id, db_map ot !! makeKey id = encodeEntry <$> T !! id.

Section Fields.
Context (e : Entry) (He : wf_entry e).

Lemma length_encodeEntry : length (encodeEntry e) = 55%nat.
Proof using He.
  unfold encodeEntry, encodeValue. rewrite !length_app, !length_le_enc. simpl.
  by rewrite (we_parent _ He).
Qed.

Lemma encodeEntry_fields :
  le_dec (slice 0 8 (encodeEntry e)) = e_version e /\
  le_dec (slice 8 2 (encodeEntry e)) = e_replication e /\
  le_dec (slice 10 8 (encodeEntry e)) = e_fees e /\
  default 0 (encodeEntry e !! 18%nat) = e_kind e /\
  slice 19 32 (encodeEntry e) = e_parent e /\
  le_dec (slice 51 4 (encodeEntry e)) = e_children e.
Proof using He.
  destruct He as [H1 H2 H3 H4 H5 H6]. unfold encodeEntry, encodeValue, is_u64 in *.
  repeat split.
  - slice_simpl. apply le_dec_enc. simpl. lia.
  - slice_simpl. apply le_dec_enc. simpl. lia.
  - slice_simpl. apply le_dec_enc. simpl. lia.
  - do 3 (rewrite slice_app_r by (autorewrite with go; simpl; lia); autorewrite with go; simpl Nat.sub).
    rewrite slice_app_r by (simpl; lia). simpl Nat.sub. by apply slice_app_l.
  - do 3 (rewrite slice_app_r by (autorewrite with go; simpl; lia); autorewrite with go; simpl Nat.sub).
    do 2 (rewrite slice_app_r by (simpl; lia); simpl Nat.sub).
    rewrite H5. simpl Nat.sub. slice_simpl. apply le_dec_enc. simpl. lia.
Qed.

(** Patching the last four bytes is re-encoding with the new count. *)
Lemma encodeEntry_patch c :
  take 51 (encodeEntry e) ++ le_enc 4 (u32 c) ++ drop 55 (encodeEntry e) =
  encodeEntry (set_children (fun _ => c) e).
Proof using He.
  unfold encodeEntry, encodeValue, set_children. simpl e_version. simpl e_replication.
  simpl e_fees. simpl e_kind. simpl e_parent. simpl e_children.
  set (A := le_enc 8 (e_version e)). set (B := le_enc 2 (e_replication e)).
  set (C := le_enc 8 (e_fees e)). set (D := [e_kind e]).
  assert (HA : length A = 8%nat) by apply length_le_enc.
  assert (HB : length B = 2%nat) by apply length_le_enc.
  assert (HC : length C = 8%nat) by apply length_le_enc.
  assert (HD : length D = 1%nat) by done.
  pose proof (we_parent _ He) as HE.
  rewrite (drop_ge _ 55) by (rewrite !length_app, length_le_enc; lia).
  rewrite app_nil_r. rewrite !app_assoc.
  rewrite take_app_le by (rewrite !length_app; lia).
  rewrite take_ge by (rewrite !length_app; lia). done.
Qed.

End Fields.

(** ** Simulation: the bytes implement the map *)

Section Simulation.
Context {M : Type} `{Pebble M}.
Implicit Types (ot : M) (T : gmap Hash Entry).

Lemma makeKey_inj a b : makeKey a = makeKey b -> a = b.
Proof. unfold makeKey. intros E. by apply app_inv_head in E. Qed.

Lemma key_prefixes_differ a b : committedKey a <> makeKey b.
Proof. unfold committedKey, makeKey, committedTxPrefix, trackerKeyPrefix. simpl. congruence. Qed.

Lemma Rep_wf ot T id e : Rep ot T -> T !! id = Some e -> wf_entry e.
Proof. intros [Hw _] Hi. by apply (Hw id e). Qed.

Lemma Rep_reads ot T id :
  Rep ot T ->
  getVersion ot id = default 0 (e_version <$> T !! id) /\
  getReplication ot id = default 0 (e_replication <$> T !! id) /\
  getFees ot id = default 0 (e_fees <$> T !! id) /\
  getParent ot id = a_edge T id /\
  childCount ot id = a_children T id.
Proof.
  intros HR. pose proof HR as [Hw Hk].
  unfold getVersion, getReplication, getFees, getParent, childCount, a_edge, a_children, Get.
  rewrite db_get_spec, Hk. destruct (T !! id) as [e|] eqn:E; [|done].
  pose proof (Rep_wf _ _ _ _ HR E) as He.
  change (encodeEntry <$> Some e) with (Some (encodeEntry e)). cbv iota.
  rewrite (length_encodeEntry e He). simpl Nat.ltb. cbv iota.
  destruct (encodeEntry_fields e He) as (-> & -> & -> & -> & -> & ->). done.
Qed.

Lemma Rep_set ot T id e :
  Rep ot T -> wf_entry e -> Rep (Set_ ot (makeKey id) (encodeEntry e)) (<[id := e]> T).
Proof.
  intros [Hw Hk] He. split; [by apply map_Forall_insert_2|].
  intros q. unfold Set_. rewrite db_set_spec, !lookup_insert, Hk.
  destruct (decide (id = q)) as [->|Hne]; [by rewrite decide_True|].
  rewrite decide_False; [done|]. by intros ?%makeKey_inj.
Qed.

Lemma wf_set_children f e : wf_entry e -> wf_entry (set_children f e).
Proof. intros []. split; simpl; auto. apply Z.mod_pos_bound. lia. Qed.

Lemma set_children_ext f c e : f (e_children e) = c -> set_children f e = set_children (fun _ => c) e.
Proof. intros <-. done. Qed.

Lemma Rep_adjust ot T kind p delta :
  Rep ot T -> Rep (adjustChildCount ot kind p delta) (a_adjust T kind p delta).
Proof.
  intros HR. pose proof HR as [Hw Hk]. unfold adjustChildCount, a_adjust.
  destruct (kind =? objectParentKind); cbn [negb]; [|done].
  unfold Get. rewrite db_get_spec, Hk. destruct (T !! p) as [e|] eqn:E.
  2:{ simpl. by rewrite alter_id by (intros x Hx; congruence). }
  pose proof (Rep_wf _ _ _ _ HR E) as He.
  change (encodeEntry <$> Some e) with (Some (encodeEntry e)). cbv iota.
  rewrite (length_encodeEntry e He). simpl Nat.ltb. cbv iota.
  destruct (encodeEntry_fields e He) as (_ & _ & _ & _ & _ & ->).
  change (55 <? 55)%nat with false. cbv iota zeta. rewrite encodeEntry_patch by done.
  assert (alter (set_children (fun c => c + delta)) p T =
          <[p := set_children (fun _ => e_children e + delta) e]> T) as ->.
  { apply map_eq. intros q. rewrite lookup_alter, lookup_insert.
    case_decide; [subst|done]. by rewrite E. }
  apply Rep_set; [done|]. by apply wf_set_children.
Qed.

Lemma Rep_rebind ot T old kind p :
  Rep ot T -> Rep (rebindChildCount ot old kind p) (a_rebind T old kind p).
Proof.
  intros HR. unfold rebindChildCount, a_rebind.
  destruct old as [[k q]|]; [|by apply Rep_adjust].
  destruct (_ && _); [done|]. by apply Rep_adjust, Rep_adjust.
Qed.

Lemma Rep_children ot T id : Rep ot T -> 0 <= a_children T id < two32.
Proof.
  intros HR. unfold a_children. destruct (T !! id) as [e|] eqn:E; [|lia].
  apply (Rep_wf _ _ _ _ HR E).
Qed.

Lemma Rep_track ot T id version replication fees kind p :
  Rep ot T -> is_u64 version -> 0 <= replication < 65536 -> is_u64 fees -> is_byte kind ->
  length p = 32%nat ->
  Rep (trackObject ot id version replication fees kind p)
      (a_track T id version replication fees kind p).
Proof.
  intros HR H1 H2 H3 H4 H5. unfold trackObject, a_track.
  destruct (Rep_reads ot T id HR) as (_ & _ & _ & -> & ->).
  apply Rep_rebind. apply (Rep_set ot T id (mkEntry version replication fees kind p (a_children T id))); [done|].
  split; simpl; auto. by eapply Rep_children.
Qed.

(** The fields of a stored object, with the zero values of an absent one. *)
Lemma Rep_defaults ot T id :
  Rep ot T ->
  let e := default (mkEntry 0 0 0 keyRootKind zeroHash 0) (T !! id) in
  wf_entry e /\ getVersion ot id = e_version e /\ getReplication ot id = e_replication e /\
  getFees ot id = e_fees e /\
  default (keyRootKind, zeroHash) (getParent ot id) = (e_kind e, e_parent e).
Proof.
  intros HR. destruct (Rep_reads ot T id HR) as (-> & -> & -> & -> & _). unfold a_edge.
  destruct (T !! id) as [e|] eqn:E; simpl.
  - split; [by eapply Rep_wf|done].
  - split; [|done]. split; simpl; unfold is_u64, is_byte, keyRootKind; by (try lia).
Qed.

Lemma Rep_setParent ot T id kind p :
  Rep ot T -> is_byte kind -> length p = 32%nat ->
  Rep (setParent ot id kind p) (a_setParent T id kind p).
Proof.
  intros HR Hk Hp. destruct (Rep_defaults ot T id HR) as (He & Hv & Hr & Hf & _).
  unfold setParent, a_setParent. cbv zeta. rewrite Hv, Hr, Hf.
  apply (Rep_track ot T id); auto; apply He.
Qed.

Lemma Rep_delete ot T id : Rep ot T -> Rep (deleteObject ot id) (a_delete T id).
Proof.
  intros HR. unfold deleteObject, a_delete.
  destruct (Rep_reads ot T id HR) as (_ & _ & _ & -> & _).
  assert (HD : Rep (Delete ot (makeKey id)) (delete id T)).
  { destruct HR as [Hw Hk]. split; [by apply map_Forall_delete|].
    intros q. unfold Delete. rewrite db_delete_spec, !lookup_delete, Hk.
    destruct (decide (id = q)) as [->|Hne]; [by rewrite decide_True|].
    rewrite decide_False; [done|]. by intros ?%makeKey_inj. }
  destruct (a_edge T id) as [[k q]|] eqn:E; [by apply Rep_adjust|].
  unfold a_edge in E. destruct (T !! id) eqn:E2; [done|]. by rewrite delete_id in HD.
Qed.

Lemma Rep_bump ot T id : Rep ot T -> Rep (bumpObject ot id) (a_bump T id).
Proof.
  intros HR. destruct (Rep_defaults ot T id HR) as (He & Hv & Hr & Hf & Hp).
  unfold bumpObject, a_bump. cbv zeta. rewrite Hv, Hr, Hf, Hp.
  apply Rep_track; auto; try apply He. apply u64_range.
Qed.

Lemma Rep_mark ot T h : Rep ot T -> Rep (markCommitted ot h) T.
Proof.
  intros [Hw Hk]. split; [done|]. intros q. unfold markCommitted, Set_.
  rewrite db_set_spec, lookup_insert_ne; [apply Hk|]. apply key_prefixes_differ.
Qed.

(** A commit mark changes no tracked version. *)
Lemma getVersion_mark (ot : M) txh id : getVersion (markCommitted ot txh) id = getVersion ot id.
Proof.
  unfold getVersion, markCommitted, Get, Set_. rewrite !db_get_spec, db_set_spec, lookup_insert_ne by apply key_prefixes_differ. done.
Qed.

Lemma checkVersions_mark (ot : M) txh tx : checkVersions (markCommitted ot txh) tx = checkVersions ot tx.
Proof.
  assert (Hl : forall refs, checkRefList (markCommitted ot txh) refs = checkRefList ot refs).
  { induction refs as [|r refs IH]; [done|]. cbn [checkRefList]. destruct (hash32 (ref_id r)); [|by rewrite IH]. by rewrite getVersion_mark, IH. }
  unfold checkVersions. by rewrite !Hl.
Qed.

End Simulation.

#[export] Hint Resolve Rep_track Rep_setParent Rep_delete Rep_bump Rep_mark : go.

(** ** Child counts *)

Definition isChildOf (p : Hash) (kv : Hash * Entry) : Prop :=
  e_kind (snd kv) = objectParentKind /\ e_parent (snd kv) = p.

#[export] Instance isChildOf_dec p kv : Decision (isChildOf p kv).
Proof. unfold isChildOf. apply _. Defined.

(** How many tracked objects have [p] as their object parent. *)
Definition cnt (T : gmap Hash Entry) (p : Hash) : Z := Z.of_nat (size (filter (isChildOf p) T)).

(** One edge's contribution to a parent. *)
Definition ind (k : Z) (q p : Hash) : Z := if (k =? objectParentKind) && bool_decide (q = p) then 1 else 0.

Definition ind_edge (o : option (Z * Hash)) (p : Hash) : Z :=
  match o with Some (k, q) => ind k q p | None => 0 end.

(** The invariant: every stored count is the real one (at its 32-bit width)
    and no object parent is missing. *)
Definition forest_ok (T : gmap Hash Entry) : Prop :=
  map_Forall (fun p e => e_children e = u32 (cnt T p) /\
    (e_kind e = objectParentKind -> is_Some (T !! e_parent e))) T.

Section Counting.
Implicit Types T : gmap Hash Entry.

Lemma a_edge_adjust T k q d x : a_edge (a_adjust T k q d) x = a_edge T x.
Proof.
  unfold a_edge, a_adjust. destruct (k =? _); [|done].
  rewrite lookup_alter. case_decide; [subst|done]. by destruct (T !! x).
Qed.

Lemma a_edge_rebind T old k q x : a_edge (a_rebind T old k q) x = a_edge T x.
Proof.
  unfold a_rebind. destruct old as [[k' q']|]; [|apply a_edge_adjust].
  destruct (_ && _); [done|]. by rewrite !a_edge_adjust.
Qed.

Lemma a_edge_insert T id e x :
  a_edge (<[id := e]> T) x = if decide (x = id) then Some (e_kind e, e_parent e) else a_edge T x.
Proof.
  unfold a_edge. rewrite lookup_insert.
  destruct (decide (x = id)) as [->|]; [by rewrite decide_True|by rewrite decide_False by congruence].
Qed.

Lemma a_edge_track T id v r f k q x :
  a_edge (a_track T id v r f k q) x = if decide (x = id) then Some (k, q) else a_edge T x.
Proof. unfold a_track. by rewrite a_edge_rebind, a_edge_insert. Qed.

Lemma a_edge_setParent T id k q x :
  a_edge (a_setParent T id k q) x = if decide (x = id) then Some (k, q) else a_edge T x.
Proof. apply a_edge_track. Qed.

Lemma a_edge_delete T id x :
  a_edge (a_delete T id) x = if decide (x = id) then None else a_edge T x.
Proof.
  unfold a_delete. destruct (a_edge T id) as [[k q]|] eqn:E.
  - rewrite a_edge_adjust. unfold a_edge. rewrite lookup_delete.
    destruct (decide (x = id)) as [->|]; [by rewrite decide_True|by rewrite decide_False by congruence].
  - case_decide; [by subst|done].
Qed.

Lemma a_edge_Some T x : is_Some (a_edge T x) <-> is_Some (T !! x).
Proof. unfold a_edge. destruct (T !! x); simpl; split; intros [? ?]; try done; eauto. Qed.

(** The count depends on the edges alone. *)
Lemma cnt_edges T1 T2 p : (forall x, a_edge T1 x = a_edge T2 x) -> cnt T1 p = cnt T2 p.
Proof.
  intros He. unfold cnt. f_equal. rewrite <- !(size_dom (D := gset Hash)). f_equal.
  apply set_eq. intros x. rewrite !elem_of_dom.
  specialize (He x). unfold a_edge in He.
  assert (Hf : forall T, is_Some (filter (isChildOf p) T !! x) <->
     exists e, T !! x = Some e /\ isChildOf p (x, e)).
  { intros T. split.
    - intros [e [H1 H2]%map_lookup_filter_Some]. eauto.
    - intros (e & H1 & H2). exists e. by apply map_lookup_filter_Some. }
  rewrite !Hf. unfold isChildOf. simpl.
  destruct (T1 !! x) as [e1|], (T2 !! x) as [e2|]; simpl in He; try done.
  - injection He as Hk Hp. split; intros (e & [= <-] & ?); eexists; (split; [done|]).
    + by rewrite <- Hk, <- Hp.
    + by rewrite Hk, Hp.
Qed.

Lemma cnt_insert_new T id e p :
  T !! id = None -> cnt (<[id := e]> T) p = cnt T p + ind (e_kind e) (e_parent e) p.
Proof.
  intros Hn. unfold cnt, ind. rewrite map_filter_insert. case_decide as Hd.
  - rewrite map_size_insert_None by (by apply map_lookup_filter_None_2; left).
    unfold isChildOf in Hd; simpl in Hd. destruct Hd as [-> ->]. rewrite Z.eqb_refl, bool_decide_eq_true_2 by done. simpl. lia.
  - rewrite delete_id by done. unfold isChildOf in Hd; simpl in Hd.
    destruct (Z.eqb_spec (e_kind e) objectParentKind); simpl; [|lia].
    rewrite bool_decide_eq_false_2 by tauto. lia.
Qed.

Lemma cnt_delete T id e p :
  T !! id = Some e -> cnt (delete id T) p = cnt T p - ind (e_kind e) (e_parent e) p.
Proof.
  intros Hi. rewrite <- (insert_delete_id T id e) at 2 by done.
  rewrite cnt_insert_new by apply lookup_delete_eq. lia.
Qed.

Lemma cnt_insert T id e p :
  cnt (<[id := e]> T) p = cnt T p - ind_edge (a_edge T id) p + ind (e_kind e) (e_parent e) p.
Proof.
  unfold a_edge. destruct (T !! id) as [o|] eqn:E; simpl.
  - rewrite <- insert_delete_eq, cnt_insert_new by apply lookup_delete_eq.
    rewrite (cnt_delete T id o) by done. lia.
  - rewrite cnt_insert_new by done. lia.
Qed.

Lemma u32_add a d : u32 (u32 a + d) = u32 (a + d).
Proof. unfold u32. apply Zplus_mod_idemp_l. Qed.

(** Adjusting the counts adjusts what they are equal to. *)
Lemma children_adjust T (f : Hash -> Z) k q d :
  (forall p e, T !! p = Some e -> e_children e = u32 (f p)) ->
  forall p e, a_adjust T k q d !! p = Some e -> e_children e = u32 (f p + d * ind k q p).
Proof.
  intros Hf p e. unfold a_adjust, ind. destruct (k =? objectParentKind); simpl.
  - rewrite lookup_alter. case_decide as Hd.
    + subst q. rewrite bool_decide_eq_true_2 by done.
      destruct (T !! p) as [o|] eqn:E; [|done]. intros [= <-]. simpl.
      rewrite (Hf p o E), u32_add. f_equal. lia.
    + rewrite bool_decide_eq_false_2 by done. rewrite Z.mul_0_r, Z.add_0_r. apply Hf.
  - rewrite Z.mul_0_r, Z.add_0_r. apply Hf.
Qed.

Lemma children_rebind T (f : Hash -> Z) old k q :
  (forall p e, T !! p = Some e -> e_children e = u32 (f p)) ->
  forall p e, a_rebind T old k q !! p = Some e ->
    e_children e = u32 (f p - ind_edge old p + ind k q p).
Proof.
  intros Hf p e. unfold a_rebind. destruct old as [[k' q']|]; simpl.
  - destruct (Z.eqb_spec k' k) as [->|Hk]; simpl.
    + destruct (bool_decide (q' = q)) eqn:Hq; zb.
      * subst. intros Hp. rewrite (Hf _ _ Hp). f_equal. lia.
      * intros Hp.
        rewrite (children_adjust _ _ _ _ _ (children_adjust T f k q' (-1) Hf) p e Hp). f_equal. lia.
    + intros Hp. rewrite (children_adjust _ _ _ _ _ (children_adjust T f k' q' (-1) Hf) p e Hp). f_equal. lia.
  - intros Hp. rewrite (children_adjust T f k q 1 Hf p e Hp). f_equal. lia.
Qed.

Lemma forest_no_orphan_count T id : forest_ok T -> T !! id = None -> cnt T id = 0.
Proof.
  intros Hok Hn. unfold cnt. rewrite (proj2 (map_size_empty_iff _)); [done|].
  apply map_empty. intros x. apply map_lookup_filter_None_2. right.
  intros e He [Hk Hp]. destruct (Hok x e He) as [_ Hs]. simpl in *.
  destruct (Hs Hk) as [? Hs']. congruence.
Qed.

Lemma a_children_cnt T id : forest_ok T -> a_children T id = u32 (cnt T id).
Proof.
  intros Hok. unfold a_children. destruct (T !! id) as [e|] eqn:E; [by apply (Hok id e)|].
  by rewrite forest_no_orphan_count.
Qed.

Lemma cnt_bound T p : 0 <= cnt T p <= Z.of_nat (size T).
Proof.
  unfold cnt. split; [lia|]. apply Nat2Z.inj_le. rewrite <- !(size_dom (D := gset Hash)).
  apply subseteq_size, subseteq_dom, map_filter_subseteq.
Qed.

(** Re-tracking under a present parent, and deleting a childless object, keep
    the invariant. *)
Lemma forest_track T id v r f k q :
  forest_ok T -> (k = objectParentKind -> is_Some (T !! q) \/ q = id) ->
  forest_ok (a_track T id v r f k q).
Proof.
  intros Hok Hq p e Hp.
  assert (He : a_edge (a_track T id v r f k q) p = Some (e_kind e, e_parent e)).
  { unfold a_edge. by rewrite Hp. }
  split.
  - rewrite (cnt_edges _ (<[id := mkEntry v r f k q (a_children T id)]> T)) by (intros; apply a_edge_rebind).
    rewrite cnt_insert. simpl. unfold a_track in Hp.
    apply (children_rebind _ (cnt T)) in Hp; [done|].
    intros x o. rewrite lookup_insert. case_decide as Hd.
    + subst x. intros [= <-]. simpl. by apply a_children_cnt.
    + intros Ho. by apply (Hok x o).
  - intros Hk. apply a_edge_Some. rewrite a_edge_track in *.
    destruct (decide (e_parent e = id)); [eauto|].
    destruct (decide (p = id)) as [->|Hne].
    + simplify_eq. destruct (Hq Hk) as [?|?]; [by apply a_edge_Some|done].
    + unfold a_edge in He. destruct (T !! p) as [o|] eqn:E; simplify_eq/=.
      apply a_edge_Some. destruct (Hok p o E) as [_ Hs].
      replace (e_parent e) with (e_parent o) by congruence. apply Hs. congruence.
Qed.

Lemma forest_delete T id :
  forest_ok T -> cnt T id = 0 -> forest_ok (a_delete T id).
Proof.
  intros Hok H0. unfold a_delete. destruct (a_edge T id) as [[k q]|] eqn:E; [|done].
  unfold a_edge in E. destruct (T !! id) as [o|] eqn:Eo; simplify_eq/=.
  intros p e Hp. split.
  - rewrite (cnt_edges _ (delete id T)) by (intros; apply a_edge_adjust).
    rewrite (cnt_delete T id o) by done.
    apply (children_adjust _ (cnt T)) in Hp; [rewrite Hp; f_equal; lia|].
    intros x e' Hx. apply lookup_delete_Some in Hx as [_ Hx]. by apply (Hok x e').
  - intros Hk. apply a_edge_Some. rewrite a_edge_adjust. apply a_edge_Some.
    assert (He : a_edge (delete id T) p = Some (e_kind e, e_parent e)).
    { rewrite <- (a_edge_adjust (delete id T) (e_kind o) (e_parent o) (-1)). unfold a_edge. by rewrite Hp. }
    unfold a_edge in He. destruct (delete id T !! p) as [w|] eqn:Ew; [|done].
    apply lookup_delete_Some in Ew as [Hne Ew].
    destruct (Hok p w Ew) as [_ Hs]. simplify_eq/=.
    destruct (Hs ltac:(congruence)) as [z Hz]. exists z.
    apply lookup_delete_Some. split; [|congruence]. intros Heq.
    assert (0 < cnt T id); [|lia]. unfold cnt.
    assert (filter (isChildOf id) T !! p = Some w) as Hw.
    { apply map_lookup_filter_Some. split; [done|]. split; simpl; congruence. }
    assert (size (filter (isChildOf id) T) <> 0%nat); [|lia].
    intros Hz0%map_size_empty_inv. rewrite Hz0 in Hw. by simplify_map_eq.
Qed.

End Counting.

(** ** Operations as a step relation *)

(** What the commit path does to the tracker: create an object under a present
    parent, bump or re-track one in place, move one under a parent the cycle
    check accepted, delete a childless one. *)
Inductive tstep (T : gmap Hash Entry) : gmap Hash Entry -> Prop :=
| step_create id v r f k q :
    T !! id = None -> (k = objectParentKind -> is_Some (T !! q)) ->
    tstep T (a_track T id v r f k q)
| step_bump id : tstep T (a_bump T id)
| step_reparent id k q :
    is_Some (T !! id) -> wouldCycle (a_edge T) id k q = false ->
    tstep T (a_setParent T id k q)
| step_delete id : a_children T id = 0 -> Z.of_nat (size T) < two32 -> tstep T (a_delete T id).

(** Every object's chain ends at a key. *)
Definition all_rooted (T : gmap Hash Entry) : Prop :=
  forall id, is_Some (T !! id) -> exists n key, Rooted (a_edge T) id n key.

Lemma wouldCycle_target T id k q :
  wouldCycle (a_edge T) id k q = false -> k = objectParentKind -> is_Some (T !! q).
Proof.
  intros Hw ->. unfold wouldCycle in Hw.
  change (objectParentKind =? keyRootKind) with false in Hw. cbv iota in Hw.
  apply walkCycle_false in Hw as [(n & key & Hr & _) _].
  apply a_edge_Some. inversion Hr; eauto.
Qed.

Lemma forest_bump T id : forest_ok T -> forest_ok (a_bump T id).
Proof.
  intros Hok. apply forest_track; [done|]. intros Hk.
  destruct (T !! id) as [e|] eqn:E; simpl in *; [|done]. left. by apply (Hok id e).
Qed.

Lemma children_zero_cnt T id :
  forest_ok T -> Z.of_nat (size T) < two32 -> a_children T id = 0 -> cnt T id = 0.
Proof.
  intros Hok Hs H0. rewrite a_children_cnt in H0 by done.
  pose proof (cnt_bound T id). unfold u32 in H0. rewrite Z.mod_small in H0; lia.
Qed.

Lemma Rooted_ext edge edge' x n key :
  (forall y, edge' y = edge y) -> Rooted edge x n key -> Rooted edge' x n key.
Proof.
  intros Heq. induction 1; [constructor|econstructor]; rewrite ?Heq; eauto.
Qed.

Lemma tstep_forest T T' : forest_ok T -> tstep T T' -> forest_ok T'.
Proof.
  intros Hok [id v r f k q Hn Hq|id|id k q Hs Hw|id H0 Hsz].
  - apply forest_track; auto.
  - by apply forest_bump.
  - apply forest_track; [done|]. intros Hk. left. by eapply wouldCycle_target.
  - apply forest_delete; [done|]. by apply children_zero_cnt.
Qed.

Lemma Above_last edge x id :
  Above edge x id -> x = id \/ exists y k, edge y = Some (k, id) /\ k <> keyRootKind.
Proof.
  induction 1 as [id|x k p id He Hk Ha IH]; [by left|]. right.
  destruct IH as [->|?]; eauto.
Qed.

Lemma Above_rooted edge x id n key :
  Rooted edge x n key -> Above edge x id -> exists m, Rooted edge id m key.
Proof.
  intros Hr Ha. revert n Hr. induction Ha as [id|x k p id He Hk Ha IH]; intros n Hr; [eauto|].
  inversion Hr; simplify_eq; eauto.
Qed.

Lemma Rooted_edge edge x n key : Rooted edge x n key -> is_Some (edge x).
Proof. intros Hr. inversion Hr; eauto. Qed.

Definition kinds_ok (T : gmap Hash Entry) : Prop :=
  forall id k p, a_edge T id = Some (k, p) -> k = keyRootKind \/ k = objectParentKind.

(** An untracked or childless object is on nobody's chain. *)
Lemma off_chain T id x n key :
  kinds_ok T -> cnt T id = 0 -> Rooted (a_edge T) x n key -> x <> id -> ~ Above (a_edge T) x id.
Proof.
  intros Hk H0 Hr Hne Ha. destruct (Above_last _ _ _ Ha) as [->|(y & k & He & Hk0)]; [done|].
  destruct (Hk _ _ _ He) as [->| ->]; [done|].
  unfold a_edge in He. destruct (T !! y) as [e|] eqn:E; simplify_eq/=.
  assert (filter (isChildOf (e_parent e)) T !! y = Some e) as Hf
    by (apply map_lookup_filter_Some; done).
  unfold cnt in H0. assert (size (filter (isChildOf (e_parent e)) T) = 0%nat) as Hz by lia.
  apply map_size_empty_inv in Hz. rewrite Hz in Hf. by simplify_map_eq.
Qed.

Lemma rooted_fresh T T' id k q :
  forest_ok T -> kinds_ok T -> all_rooted T -> T !! id = None ->
  (forall x, a_edge T' x = if decide (x = id) then Some (k, q) else a_edge T x) ->
  (k = keyRootKind \/ (k = objectParentKind /\ is_Some (T !! q))) -> all_rooted T'.
Proof.
  intros Hok Hk Hr Hn Hedge Hkq.
  assert (Hother : forall x n key, Rooted (a_edge T) x n key -> Rooted (a_edge T') x n key).
  { intros x n key Hx. eapply (Rooted_other _ _ id); [|done|].
    - intros y Hy. by rewrite Hedge, decide_False.
    - apply (off_chain T id x n key); auto using forest_no_orphan_count.
      intros ->. apply Rooted_edge in Hx. apply a_edge_Some in Hx as [? Hx]. congruence. }
  intros x Hx. apply a_edge_Some in Hx. rewrite Hedge in Hx.
  destruct (decide (x = id)) as [->|Hne].
  - destruct Hkq as [->|[-> Hq]].
    + exists 0%nat, q. constructor. by rewrite Hedge, decide_True.
    + destruct (Hr q Hq) as (n & key & Hrq). exists (S n), key.
      econstructor; [by rewrite Hedge, decide_True|done|auto].
  - apply a_edge_Some in Hx. destruct (Hr x Hx) as (n & key & ?). eauto.
Qed.

Lemma tstep_rooted T T' :
  forest_ok T -> kinds_ok T -> all_rooted T -> tstep T T' -> kinds_ok T' -> all_rooted T'.
Proof.
  intros Hok Hk Hr Hs Hk'. destruct Hs as [id v r f k q Hn Hq|id|id k q Hs Hw|id H0 Hsz].
  - apply (rooted_fresh T _ id k q); auto.
    + intros x. apply a_edge_track.
    + destruct (Hk' id k q) as [->| ->]; [by rewrite a_edge_track, decide_True|auto..].
  - unfold a_bump in *. destruct (T !! id) as [e|] eqn:E; simpl in *.
    + assert (Hsame : forall y, a_edge (a_track T id (e_version e +w 1) (e_replication e) (e_fees e)
        (e_kind e) (e_parent e)) y = a_edge T y).
      { intros y. rewrite a_edge_track. case_decide; [subst|done]. unfold a_edge. by rewrite E. }
      intros x Hx. apply a_edge_Some in Hx. rewrite Hsame in Hx. apply a_edge_Some in Hx.
      destruct (Hr x Hx) as (n & key & Hrx). exists n, key. by eapply Rooted_ext.
    + eapply (rooted_fresh T _ id); eauto. intros x. apply a_edge_track.
  - intros x Hx. apply a_edge_Some in Hx. rewrite a_edge_setParent in Hx.
    assert (Hxt : is_Some (T !! x)).
    { destruct (decide (x = id)) as [->|]; [done|by apply a_edge_Some]. }
    destruct (Hr x Hxt) as (n & key & Hrx).
    eapply (reparent_rooted (a_edge T) _ id k q Hw); [| |exact Hrx].
    + by rewrite a_edge_setParent, decide_True.
    + intros y Hy. by rewrite a_edge_setParent, decide_False.
  - intros x Hx. apply a_edge_Some in Hx. rewrite a_edge_delete in Hx.
    destruct (decide (x = id)) as [->|Hne]; [by destruct Hx|].
    apply a_edge_Some in Hx. destruct (Hr x Hx) as (n & key & Hrx). exists n, key.
    eapply (Rooted_other _ _ id); [|done|].
    + intros y Hy. by rewrite a_edge_delete, decide_False.
    + eapply off_chain; eauto using children_zero_cnt.
Qed.

(** ** Theorems *)

(** Every tracker reachable from the empty one by the commit path's operations
    (with the two parent kinds of the protocol) has exact child counts, no
    dangling parent and no cycle: every object has a controlling key. *)
Definition ostep (T T' : gmap Hash Entry) : Prop := tstep T T' /\ kinds_ok T'.

Lemma reachable_invariant T : rtc ostep ∅ T -> forest_ok T /\ kinds_ok T /\ all_rooted T.
Proof.
  apply (rtc_ind_r (fun T => forest_ok T /\ kinds_ok T /\ all_rooted T)).
  - split; [apply map_Forall_empty|]. split.
    + intros id k p. unfold a_edge. by rewrite lookup_empty.
    + intros id. rewrite lookup_empty. by intros [].
  - intros T1 T2 _ [H1 H2] (Ha & Hb & Hc).
    split; [by eapply tstep_forest|]. split; [done|]. by eapply tstep_rooted.
Qed.

(** In every tracker reachable from the empty one by the commit path's operations,
    the stored child count of each object is the number of objects tracked under it, no
    object parent dangles, and every parent chain ends at a controlling key. *)
Theorem tracker_reachable_forest T :
  rtc ostep ∅ T -> Z.of_nat (size T) < two32 ->
  (forall id e, T !! id = Some e -> e_children e = cnt T id) /\
  (forall id e, T !! id = Some e -> e_kind e = objectParentKind -> is_Some (T !! e_parent e)) /\
  all_rooted T.
Proof.
  intros Hs Hsz. destruct (reachable_invariant T Hs) as (Hok & _ & Hr).
  split; [|split; [|done]].
  - intros id e He. destruct (Hok id e He) as [-> _]. unfold u32.
    pose proof (cnt_bound T id). rewrite Z.mod_small; lia.
  - intros id e He Hk. by apply (Hok id e He).
Qed.

(** A parent with one child, built by two creations. *)
Definition family : gmap Hash Entry :=
  a_track (a_track ∅ [1] 0 0 0 keyRootKind [9]) [2] 0 0 0 objectParentKind [1].

Lemma kinds_ok_of_list T :
  forallb (fun kv => (e_kind (snd kv) =? 0) || (e_kind (snd kv) =? 1)) (map_to_list T) = true ->
  kinds_ok T.
Proof.
  intros Hf id k p He. unfold a_edge in He. destruct (T !! id) as [e|] eqn:E; simplify_eq/=.
  apply elem_of_map_to_list, list_elem_of_In in E.
  rewrite forallb_forall in Hf. specialize (Hf _ E). simpl in Hf.
  apply orb_true_iff in Hf as [?|?]; zb; auto.
Qed.

Theorem tracker_reachable_forest_witness :
  rtc ostep ∅ family /\ (forall id e, family !! id = Some e -> e_children e = cnt family id) /\
  all_rooted family.
Proof.
  assert (H : rtc ostep ∅ family).
  { eapply rtc_l with (y := a_track ∅ [1] 0 0 0 keyRootKind [9]).
    - split; [apply step_create; done|]. apply kinds_ok_of_list. vm_compute. reflexivity.
    - apply rtc_once. split; [apply step_create; [done|]|].
      + intros _. vm_compute. eauto.
      + apply kinds_ok_of_list. vm_compute. reflexivity. }
  split; [exact H|].
  destruct (tracker_reachable_forest family H ltac:(vm_compute; reflexivity)) as (H1 & _ & H2).
  split; [exact H1|exact H2].
Defined.

(** ** The byte store implements the map *)

Inductive TOp :=
| TTrack (id : Hash) (version replication fees kind : Z) (parent : Hash)
| TSetParent (id : Hash) (kind : Z) (parent : Hash)
| TDelete (id : Hash)
| TBump (id : Hash)
| TMark (txHash : Hash).

Definition wf_top (o : TOp) : Prop :=
  match o with
  | TTrack _ v r f k p =>
      is_u64 v /\ 0 <= r < 65536 /\ is_u64 f /\ is_byte k /\ length p = 32%nat
  | TSetParent _ k p => is_byte k /\ length p = 32%nat
  | _ => True
  end.

Definition runT {M} `{Pebble M} (ot : M) (o : TOp) : M :=
  match o with
  | TTrack id v r f k p => trackObject ot id v r f k p
  | TSetParent id k p => setParent ot id k p
  | TDelete id => deleteObject ot id
  | TBump id => bumpObject ot id
  | TMark h => markCommitted ot h
  end.

Definition specT (T : gmap Hash Entry) (o : TOp) : gmap Hash Entry :=
  match o with
  | TTrack id v r f k p => a_track T id v r f k p
  | TSetParent id k p => a_setParent T id k p
  | TDelete id => a_delete T id
  | TBump id => a_bump T id
  | TMark _ => T
  end.

Lemma runT_refines {M} `{Pebble M} (ot : M) T o : wf_top o -> Rep ot T -> Rep (runT ot o) (specT T o).
Proof. intros Hw HR. destruct o; simpl in *; destruct_and?; auto with go. Qed.

(** From any store that represents a map, every sequence of tracker operations
    on the bytes yields the same reads as on the map. *)

(** Every sequence of tracker operations on the 55-byte values of the store returns
    the same versions, replications, deposits, parents and child counts as the same
    sequence on a finite map of entries. *)
Theorem tracker_refines {M} `{Pebble M} (ot : M) T ops id :
  Rep ot T -> Forall wf_top ops ->
  let ot' := foldl runT ot ops in
  let T' := foldl specT T ops in
  Rep ot' T' /\
  getVersion ot' id = default 0 (e_version <$> T' !! id) /\
  getReplication ot' id = default 0 (e_replication <$> T' !! id) /\
  getFees ot' id = default 0 (e_fees <$> T' !! id) /\
  getParent ot' id = a_edge T' id /\
  childCount ot' id = a_children T' id.
Proof.
  intros HR Hw. cbv zeta.
  assert (HR' : Rep (foldl runT ot ops) (foldl specT T ops)).
  { revert ot T HR. induction Hw as [|o ops Ho Hops IH]; intros ot T HR; simpl; [done|].
    apply IH. by apply runT_refines. }
  split; [done|]. by apply Rep_reads.
Qed.

Lemma Rep_empty {M} `{Pebble M} (ot : M) :
  (forall id, db_map ot !! makeKey id = None) -> Rep ot ∅.
Proof. intros Hn. split; [apply map_Forall_empty|]. intros id. by rewrite Hn, lookup_empty. Qed.

Theorem tracker_refines_witness :
  let ops := [TTrack (replicate 32 1) 4 10 1025 0 (replicate 32 9); TBump (replicate 32 1)] in
  getVersion (foldl runT (∅ : gmap bytes bytes) ops) (replicate 32 1) =
    default 0 (e_version <$> foldl specT ∅ ops !! replicate 32 1) /\
  getVersion (foldl runT (∅ : gmap bytes bytes) ops) (replicate 32 1) = 5.
Proof.
  cbv zeta. split; [|vm_compute; reflexivity].
  apply (tracker_refines (∅ : gmap bytes bytes) ∅
    [TTrack (replicate 32 1) 4 10 1025 0 (replicate 32 9); TBump (replicate 32 1)] (replicate 32 1)).
  - apply Rep_empty. intros id. reflexivity.
  - repeat constructor; unfold is_u64, is_byte; simpl; lia.
Defined.

(** ** Versions *)

Definition a_version (T : gmap Hash Entry) (id : Hash) : Z := default 0 (e_version <$> T !! id).

Lemma a_version_adjust T k q d x : a_version (a_adjust T k q d) x = a_version T x.
Proof.
  unfold a_version, a_adjust. destruct (k =? _); [|done].
  rewrite lookup_alter. case_decide; [subst|done]. by destruct (T !! x).
Qed.

Lemma a_version_bump T id x :
  a_version (a_bump T id) x = if decide (x = id) then a_version T x +w 1 else a_version T x.
Proof.
  unfold a_bump, a_track, a_rebind.
  assert (Hi : forall e, a_version (<[id := e]> T) x = if decide (x = id) then e_version e else a_version T x).
  { intros e. unfold a_version. rewrite lookup_insert.
    destruct (decide (x = id)) as [->|]; [by rewrite decide_True|by rewrite decide_False by congruence]. }
  assert (Hd : e_version (default (mkEntry 0 0 0 keyRootKind zeroHash 0) (T !! id)) = a_version T id).
  { unfold a_version. by destruct (T !! id). }
  destruct (a_edge T id) as [[k q]|]; [destruct (_ && _)|];
    rewrite ?a_version_adjust, Hi; simpl; rewrite Hd; case_decide; by subst.
Qed.

(** The number of mutable references to an object. *)
Definition refCount (refs : list TxRef) (id : Hash) : Z :=
  Z.of_nat (length (filter (fun r => hash32 (ref_id r) = Some id) refs)).

Lemma refCount_cons r refs id :
  refCount (r :: refs) id =
    (if decide (hash32 (ref_id r) = Some id) then 1 else 0) + refCount refs id.
Proof. unfold refCount. rewrite filter_cons. case_decide; simpl; lia. Qed.

Lemma Rep_increment {M} `{Pebble M} (ot : M) T refs id :
  Rep ot T ->
  exists T', Rep (foldl (fun ot r => match hash32 (ref_id r) with
                           | Some id => bumpObject ot id | None => ot end) ot refs) T' /\
    a_version T' id = u64 (a_version T id + refCount refs id).
Proof.
  revert ot T. induction refs as [|r refs IH]; intros ot T HR.
  - exists T. split; [done|]. unfold refCount; simpl. rewrite Z.add_0_r.
    rewrite u64_small; [done|]. unfold a_version. destruct (T !! id) as [e|] eqn:E; simpl; [|u64_lia].
    apply (Rep_wf _ _ _ _ HR E).
  - simpl. rewrite refCount_cons. destruct (hash32 (ref_id r)) as [x|] eqn:Ex.
    + destruct (IH (bumpObject ot x) (a_bump T x)) as (T' & HR' & Hv); [by apply Rep_bump|].
      exists T'. split; [done|]. rewrite Hv, a_version_bump.
      destruct (decide (Some x = Some id)) as [[= ->]|Hne].
      * rewrite decide_True by done. unfold add64, u64. rewrite Zplus_mod_idemp_l. f_equal. lia.
      * rewrite decide_False by congruence. f_equal.
    + destruct (IH ot T HR) as (T' & HR' & Hv). exists T'. split; [done|]. rewrite Hv. f_equal.
Qed.

Lemma checkRefList_In {M} `{Pebble M} (ot : M) refs r id :
  checkRefList ot refs = true -> r ∈ refs -> hash32 (ref_id r) = Some id ->
  getVersion ot id = ref_version r.
Proof.
  induction refs as [|x refs IH]; intros Hc Hr Hid; [by inversion Hr|].
  simpl in Hc. apply elem_of_cons in Hr as [->|Hr].
  - rewrite Hid in Hc. destruct (Z.eqb_spec (getVersion ot id) (ref_version x)); done.
  - destruct (hash32 (ref_id x)); split_ifs; try done; auto.
Qed.

(** A transaction that mutates an object cannot pass the version check twice:
    the first success bumps every mutable reference. *)

(** A transaction with a mutable object reference that passed the version check
    cannot pass it again: the second check fails and leaves the tracker as it is. *)
Theorem checkAndUpdate_no_replay {M} `{Pebble M} (ot ot' : M) T tx r id :
  Rep ot T -> r ∈ tx_MutableRefs tx -> hash32 (ref_id r) = Some id ->
  Z.of_nat (length (tx_MutableRefs tx)) < two64 ->
  checkAndUpdate ot tx = (ot', true) ->
  checkAndUpdate ot' tx = (ot', false).
Proof.
  intros HR Hr Hid Hlen. unfold checkAndUpdate.
  destruct (checkVersions ot tx) eqn:Hc; [|done]. intros [= <-].
  apply andb_true_iff in Hc as [_ Hc].
  pose proof (checkRefList_In _ _ _ _ Hc Hr Hid) as Hv.
  destruct (Rep_increment ot T (tx_MutableRefs tx) id HR) as (T' & HR' & Hv').
  fold (incrementMutableObjects ot tx) in HR'.
  destruct (checkVersions (incrementMutableObjects ot tx) tx) eqn:Hc'; [|done]. exfalso.
  apply andb_true_iff in Hc' as [_ Hc'].
  pose proof (checkRefList_In _ _ _ _ Hc' Hr Hid) as Hv2.
  destruct (Rep_reads ot T id HR) as (Ha & _). destruct (Rep_reads _ T' id HR') as (Hb & _).
  fold (a_version T id) in Ha. fold (a_version T' id) in Hb.
  assert (Hpos : 1 <= refCount (tx_MutableRefs tx) id).
  { unfold refCount. apply list_elem_of_In, List.in_split in Hr as (l1 & l2 & ->).
    rewrite filter_app, filter_cons, decide_True by done. rewrite length_app. simpl. lia. }
  assert (Hle : refCount (tx_MutableRefs tx) id < two64).
  { unfold refCount. pose proof (length_filter (fun r => hash32 (ref_id r) = Some id) (tx_MutableRefs tx)). lia. }
  assert (Hr0 : is_u64 (a_version T id)).
  { unfold a_version. destruct (T !! id) as [e|] eqn:E; simpl; [apply (Rep_wf _ _ _ _ HR E)|u64_lia]. }
  rewrite Hb, Hv' in Hv2. rewrite Ha in Hv. rewrite <- Hv in Hv2. unfold u64 in Hv2.
  set (c := refCount (tx_MutableRefs tx) id) in *. set (v := a_version T id) in *. clearbody c v.
  unfold is_u64 in *. destruct (Z_lt_le_dec (v + c) two64).
  - rewrite Z.mod_small in Hv2 by lia. lia.
  - assert ((v + c) mod two64 = v + c - two64) by (symmetry; apply (Z.mod_unique_pos _ _ 1); lia). lia.
Qed.

Definition sampleRef : TxRef := mkTxRef (replicate 32 1) 0 [].
Definition sampleTx : Transaction :=
  mkTransaction (replicate 32 5) [] [sampleRef] [] (replicate 32 7) [] [] [] [] 0 [] [] [] 0 [] [].

Theorem checkAndUpdate_no_replay_witness :
  checkAndUpdate (∅ : gmap bytes bytes) sampleTx
    = (fst (checkAndUpdate (∅ : gmap bytes bytes) sampleTx), true) /\
  checkAndUpdate (fst (checkAndUpdate (∅ : gmap bytes bytes) sampleTx)) sampleTx
    = (fst (checkAndUpdate (∅ : gmap bytes bytes) sampleTx), false).
Proof.
  assert (H : checkAndUpdate (∅ : gmap bytes bytes) sampleTx
    = (fst (checkAndUpdate (∅ : gmap bytes bytes) sampleTx), true)) by (vm_compute; reflexivity).
  split; [exact H|].
  apply (checkAndUpdate_no_replay (∅ : gmap bytes bytes) _ ∅ sampleTx sampleRef (replicate 32 1)).
  - apply Rep_empty. intros id. reflexivity.
  - left.
  - reflexivity.
  - vm_compute. reflexivity.
  - exact H.
Defined.

(** ** Snapshot round trip *)

Definition entryOf (id : Hash) (e : Entry) : ObjectTrackerEntry :=
  mkTrackerEntry id (e_version e) (e_replication e) (e_fees e) (e_kind e) (e_parent e) (e_children e).

Lemma importPair_entryOf id e : importPair (entryOf id e) = (makeKey id, encodeEntry e).
Proof. done. Qed.

Lemma exportEntry_encode id e :
  length id = 32%nat -> wf_entry e -> exportEntry (makeKey id, encodeEntry e) = Some (entryOf id e).
Proof.
  intros Hid He. unfold exportEntry, makeKey. rewrite length_app, Hid.
  rewrite (length_encodeEntry e He).
  change (negb (length trackerKeyPrefix + 32 =? 34)%nat || (55 <? 10)%nat) with false.
  change (55 <? 18)%nat with false. change (55 <? 55)%nat with false. cbv iota zeta beta.
  destruct (encodeEntry_fields e He) as (-> & -> & -> & -> & -> & ->).
  done.
Qed.

Lemma Export_spec {M} `{Pebble M} (ot : M) T t :
  Rep ot T -> map_Forall (fun id _ => length id = 32%nat) T ->
  t ∈ Export ot <-> exists id e, T !! id = Some e /\ t = entryOf id e.
Proof.
  intros HR Hlen. pose proof HR as [Hw Hk]. unfold Export, trackerKeyPrefix.
  rewrite list_elem_of_omap. split.
  - intros ([k v] & Hin & Ht).
    apply (IteratePrefix_snoc ot [116] 58) in Hin as [Hg [id ->]]; [|lia].
    unfold Get in Hg. rewrite db_get_spec in Hg. change (([116] ++ [58]) ++ id) with (makeKey id) in *.
    rewrite Hk in Hg. destruct (T !! id) as [e|] eqn:E; simpl in Hg; [|done].
    injection Hg as <-.
    rewrite exportEntry_encode in Ht; [|by apply (Hlen id e)|by apply (Hw id e)].
    injection Ht as <-. eauto.
  - intros (id & e & He & ->). exists (makeKey id, encodeEntry e). split.
    + apply (IteratePrefix_snoc ot [116] 58); [lia|]. split.
      * unfold Get. by rewrite db_get_spec, Hk, He.
      * by exists id.
    + apply exportEntry_encode; [by apply (Hlen id e)|by apply (Hw id e)].
Qed.

Lemma foldl_insert_In (l : list (bytes * bytes)) (m : gmap bytes bytes) k :
  (exists v, (k, v) ∈ l /\ foldl (fun m kv => <[fst kv := snd kv]> m) m l !! k = Some v) \/
  ((forall v, (k, v) ∉ l) /\ foldl (fun m kv => <[fst kv := snd kv]> m) m l !! k = m !! k).
Proof.
  revert m; induction l as [|[k' v'] l IH]; intros m; simpl.
  - right. split; [intros v Hin; by inversion Hin|done].
  - destruct (IH (<[k' := v']> m)) as [(v & Hin & Hl)|[Hno Hl]].
    + left. exists v. split; [by right|done].
    + destruct (decide (k = k')) as [->|Hne].
      * left. exists v'. split; [left|]. by rewrite Hl, lookup_insert_eq.
      * right. split; [|by rewrite Hl, lookup_insert_ne].
        intros v [?|?]%elem_of_cons; [congruence|by apply (Hno v)].
Qed.

(** Importing an export into a store without tracker entries reproduces the
    tracker: every entry survives, nothing is added. *)

(** Importing an exported tracker into a store without tracker entries reproduces
    exactly the exported entries. *)
Theorem Export_Import_roundtrip {M} `{Pebble M} (ot fresh : M) T :
  Rep ot T -> map_Forall (fun id _ => length id = 32%nat) T ->
  (forall id, db_map fresh !! makeKey id = None) ->
  Rep (Import fresh (Export ot)) T.
Proof.
  intros HR Hlen Hf. pose proof HR as [Hw _]. split; [done|]. intros id.
  unfold Import. rewrite SetBatch_map.
  destruct (foldl_insert_In (map importPair (Export ot)) (db_map fresh) (makeKey id))
    as [(v & Hin & ->)|[Hno ->]].
  - apply list_elem_of_fmap in Hin as (t & Hkv & Ht).
    apply (Export_spec ot T t HR Hlen) in Ht as (id' & e & He & ->).
    rewrite importPair_entryOf in Hkv. injection Hkv as Hk ->.
    subst. by rewrite He.
  - rewrite Hf. destruct (T !! id) as [e|] eqn:E; [|done]. exfalso.
    apply (Hno (encodeEntry e)). apply list_elem_of_fmap. exists (entryOf id e).
    split; [done|]. apply (Export_spec ot T _ HR Hlen). eauto.
Qed.

Theorem Export_Import_roundtrip_witness :
  let ot := trackObject (∅ : gmap bytes bytes) (replicate 32 1) 3 10 1025 1 (replicate 32 2) in
  Rep (Import (∅ : gmap bytes bytes) (Export ot))
      (a_track ∅ (replicate 32 1) 3 10 1025 1 (replicate 32 2)).
Proof.
  cbv zeta. apply Export_Import_roundtrip.
  - apply Rep_track; unfold is_u64, is_byte; try lia; [|reflexivity].
    apply Rep_empty. intros id. reflexivity.
  - apply (bool_decide_unpack _). vm_compute. exact I.
  - intros id. reflexivity.
Defined.
