(* ===== verification/Ingress.v ===== *)
(** * Transaction shape and arguments (internal/validation/validate.go,
    internal/genesis/borsh.go)

    The structural gate client ingress and the commit path share, and the Borsh
    codec of the validator registration.  The decoder's offsets are [uint32]:
    [None] is the run-time panic of a slice whose bounds wrapped. *)

From S2P Require Import Prelude Types.

(** ** Shape (validate.go) *)

Definition maxObjectRefs : nat := 40%nat.
Definition maxDeclaredOps : nat := maxObjectRefs.

Definition validateFieldSizes (tx : Transaction) : bool :=
  Nat.eqb (length (tx_Hash tx)) 32 && Nat.eqb (length (tx_Sender tx)) 32 &&
  Nat.eqb (length (tx_Signature tx)) 64 && Nat.eqb (length (tx_Pod tx)) 32 &&
  (Nat.eqb (length (tx_GasCoin tx)) 0 || Nat.eqb (length (tx_GasCoin tx)) 32).

Definition ValidateShape (tx : Transaction) : bool :=
  if Nat.eqb (length (tx_Operations tx)) 0 then true
  else if txHasPodCall tx then false
  else if Nat.ltb 0 (length (tx_CreatedObjectsReplication tx)) then false
  else negb (Nat.ltb maxDeclaredOps (length (tx_Operations tx))).

Definition validateIntent (tx : Transaction) : bool :=
  negb (Nat.eqb (length (tx_FunctionName tx)) 0 && Nat.eqb (length (tx_Operations tx)) 0).

(** [checkRefDuplicates]: the IDs and domain names seen so far, [None] on a
    duplicate or a malformed ID. *)
Fixpoint checkRefDuplicates (refs : list TxRef) (seen : gset Hash) (seenDomains : gset bytes)
    : option (gset Hash * gset bytes) :=
  match refs with
  | [] => Some (seen, seenDomains)
  | r :: refs =>
      if Nat.ltb 0 (length (ref_domain r)) then
        if bool_decide (ref_domain r ∈ seenDomains) then None
        else checkRefDuplicates refs seen ({[ ref_domain r ]} ∪ seenDomains)
      else match hash32 (ref_id r) with
      | None => None
      | Some id =>
          if bool_decide (id ∈ seen) then None
          else checkRefDuplicates refs ({[ id ]} ∪ seen) seenDomains
      end
  end.

Definition validateNoDuplicateRefs (tx : Transaction) : bool :=
  match checkRefDuplicates (tx_MutableRefs tx) ∅ ∅ with
  | None => false
  | Some (seen, seenDomains) =>
      bool_decide (is_Some (checkRefDuplicates (tx_ReadRefs tx) seen seenDomains))
  end.

Definition validateObjectRefs (tx : Transaction) : bool :=
  if Nat.ltb maxObjectRefs (length (tx_ReadRefs tx) + length (tx_MutableRefs tx)) then false
  else validateNoDuplicateRefs tx.

(** ** The signed body (validate.go, consensus/txauth.go) *)

(** A 32-byte field copied into a zeroed array: any other length is left zero. *)
Definition fixed32 (b : bytes) : Hash := default zeroHash (hash32 b).

Definition extractPod (tx : Transaction) : Hash := fixed32 (tx_Pod tx).

Definition refData (r : TxRef) : TxRef := mkTxRef (fixed32 (ref_id r)) (ref_version r) (ref_domain r).

Definition extractRefData (tx : Transaction) (mutable : bool) : list TxRef :=
  map refData (if mutable then tx_MutableRefs tx else tx_ReadRefs tx).

(** [rebuildUnsignedTx], at ingress. *)
Definition rebuildUnsignedTx (tx : Transaction) : UnsignedTx :=
  mkUnsigned (tx_Sender tx) (extractPod tx) (tx_FunctionName tx) (tx_Args tx)
    (tx_CreatedObjectsReplication tx) (tx_MaxGas tx) (tx_GasCoin tx)
    (extractRefData tx true) (extractRefData tx false)
    (tx_FeePayer tx) (tx_ValidUntil tx) (tx_DeletedObjects tx) (tx_Operations tx).

Definition extractTxRefData (tx : Transaction) (mutable : bool) : list TxRef :=
  map (fun r => mkTxRef (match hash32 (ref_id r) with Some id => id | None => zeroHash end)
                  (ref_version r) (ref_domain r))
      (if mutable then tx_MutableRefs tx else tx_ReadRefs tx).

(** [rebuildUnsignedTxBody], at commit. *)
Definition rebuildUnsignedTxBody (tx : Transaction) : UnsignedTx :=
  mkUnsigned (tx_Sender tx) (match hash32 (tx_Pod tx) with Some pod => pod | None => zeroHash end)
    (tx_FunctionName tx) (tx_Args tx) (tx_CreatedObjectsReplication tx) (tx_MaxGas tx) (tx_GasCoin tx)
    (extractTxRefData tx true) (extractTxRefData tx false)
    (tx_FeePayer tx) (tx_ValidUntil tx) (tx_DeletedObjects tx) (tx_Operations tx).

Section ValidateTx.
Context (X : Crypto).

Definition validateHash (tx : Transaction) : bool :=
  bool_decide (tx_Hash tx = blake3 X (encodeBody X (rebuildUnsignedTx tx))).

Definition validateSignature (tx : Transaction) : bool :=
  ed25519Verify X (tx_Sender tx) (tx_Hash tx) (tx_Signature tx).

(** [ValidateTx] on a decoded transaction. *)
Definition ValidateTx (tx : Transaction) : bool :=
  validateFieldSizes tx && ValidateShape tx && validateIntent tx && validateObjectRefs tx &&
  validateHash tx && validateSignature tx.

(** [verifyTxAuthenticity] (consensus/txauth.go). *)
Definition verifyTxAuthenticity (tx : Transaction) : bool :=
  let hash := blake3 X (encodeBody X (rebuildUnsignedTxBody tx)) in
  if negb (bool_decide (hash = tx_Hash tx)) then false
  else if negb (Nat.eqb (length (tx_Sender tx)) 32) then false
  else if negb (ed25519Verify X (tx_Sender tx) hash (tx_Signature tx)) then false
  else if isSponsored tx then ed25519Verify X (tx_FeePayer tx) hash (tx_SponsorSignature tx)
  else true.

(** ** Proof of possession (attest/pop.go) *)

Definition blsPoPDST : bytes := str "BLS_POP_BLS12381G2_XMD:SHA-256_SSWU_RO_POP_".
Definition possessionMessage (identity : Hash) (blsPublicKey : bytes) : bytes := identity ++ blsPublicKey.

(** [VerifyKeyPossession]: a point that does not decompress fails [blsVerify]. *)
Definition VerifyKeyPossession (proof : bytes) (identity : Hash) (blsPublicKey : bytes) : bool :=
  if negb (Nat.eqb (length proof) 96) || negb (Nat.eqb (length blsPublicKey) 48) then false
  else blsVerify X blsPublicKey (possessionMessage identity blsPublicKey) proof blsPoPDST.

End ValidateTx.

(** ** Registration arguments (borsh.go) *)

(** [EncodeSplitArgs]. *)
Definition EncodeSplitArgs (amount : Z) (newOwner : Hash) : bytes := le_enc 8 amount ++ newOwner.

Definition borshVec (field : bytes) : bytes := le_enc 4 (u32 (Z.of_nat (length field))) ++ field.

Definition encodeRegisterValidatorArgs (quicAddr blsPubkey blsPoP : bytes) : bytes :=
  borshVec quicAddr ++ borshVec blsPubkey ++ borshVec blsPoP.

Definition EncodeRegisterValidatorArgs (quicAddr blsPubkey blsPoP : bytes) (rewardCoin : Hash) : bytes :=
  let buf := encodeRegisterValidatorArgs quicAddr blsPubkey blsPoP in
  if bool_decide (rewardCoin = zeroHash) then buf else buf ++ borshVec rewardCoin.

(** [data[lo:hi]]: a panic unless [lo <= hi <= len]. *)
Definition goSlice (data : bytes) (lo hi : Z) : option bytes :=
  if (lo <=? hi) && (hi <=? Z.of_nat (length data)) then
    Some (slice (Z.to_nat lo) (Z.to_nat (hi - lo)) data)
  else None.

(** [readBorshVec]: the value, the next offset and [ok]. *)
Definition readBorshVec (data : bytes) (offset : Z) : option (bytes * Z * bool) :=
  let len := u32 (Z.of_nat (length data)) in
  if len <? u32 (offset + 4) then Some ([], offset, false)
  else
    prefix ← goSlice data offset (u32 (offset + 4));
    let n := le_dec prefix in
    if len <? u32 (offset + 4 + n) then Some ([], offset, false)
    else
      value ← goSlice data (u32 (offset + 4)) (u32 (offset + 4 + n));
      Some (value, u32 (offset + 4 + n), true).

(** [decodeRegisterValidatorArgs]: address, key, proof of possession, reward coin. *)
Definition decodeRegisterValidatorArgs (data : bytes) : option (bytes * bytes * bytes * bytes) :=
  if Nat.ltb (length data) 4 then Some ([], [], [], [])
  else
    let quicLen := le_dec (slice 0 4 data) in
    if Z.of_nat (length data) <? u32 (4 + quicLen) then Some ([], [], [], [])
    else
      quicAddr ← goSlice data 4 (u32 (4 + quicLen));
      r1 ← readBorshVec data (u32 (4 + quicLen));
      let '(blsPubkey, offset, ok) := r1 in
      if negb ok then Some (quicAddr, [], [], [])
      else
        r2 ← readBorshVec data offset;
        let '(blsPoP, offset, ok) := r2 in
        if negb ok then Some (quicAddr, blsPubkey, [], [])
        else
          r3 ← readBorshVec data offset;
          Some (quicAddr, blsPubkey, blsPoP, fst (fst r3)).

Definition DecodeRegisterValidatorArgs (data : bytes) : option (bytes * bytes * bytes) :=
  '(q, k, p, _) ← decodeRegisterValidatorArgs data; Some (q, k, p).

(** The outer option is the panic, the inner one [ok]. *)
Definition DecodeRegisterValidatorRewardCoin (data : bytes) : option (option Hash) :=
  '(_, _, _, raw) ← decodeRegisterValidatorArgs data; Some (hash32 raw).

(** ** Round trip *)

Lemma u32_small z : 0 <= z < two32 -> u32 z = z.
Proof. intros. by apply Z.mod_small. Qed.

Lemma goSlice_mid (a b d : bytes) :
  goSlice (a ++ b ++ d) (Z.of_nat (length a)) (Z.of_nat (length a) + Z.of_nat (length b)) = Some b.
Proof.
  unfold goSlice. rewrite !length_app.
  destruct (Z.leb_spec (Z.of_nat (length a)) (Z.of_nat (length a) + Z.of_nat (length b))); [|lia].
  destruct (Z.leb_spec (Z.of_nat (length a) + Z.of_nat (length b))
    (Z.of_nat (length a + (length b + length d)))); [|lia]. cbn [andb].
  replace (Z.of_nat (length a) + Z.of_nat (length b) - Z.of_nat (length a)) with (Z.of_nat (length b)) by lia.
  rewrite !Nat2Z.id, slice_app_r by lia. rewrite Nat.sub_diag, slice_app_l by done. done.
Qed.

Lemma readBorshVec_mid (a v d : bytes) :
  Z.of_nat (length (a ++ borshVec v ++ d)) < two32 ->
  readBorshVec (a ++ borshVec v ++ d) (Z.of_nat (length a)) =
    Some (v, Z.of_nat (length (a ++ borshVec v)), true).
Proof.
  intros Hlen. unfold readBorshVec. cbv zeta.
  assert (Hbv : length (borshVec v) = (4 + length v)%nat)
    by (unfold borshVec; by rewrite length_app, length_le_enc).
  set (la := Z.of_nat (length a)). set (lv := Z.of_nat (length v)).
  assert (Hd : Z.of_nat (length (a ++ borshVec v ++ d)) = la + 4 + lv + Z.of_nat (length d))
    by (rewrite !length_app, Hbv; lia).
  rewrite Hd in *. rewrite (u32_small (la + 4 + lv + _)), (u32_small (la + 4)) by lia.
  destruct (Z.ltb_spec (la + 4 + lv + Z.of_nat (length d)) (la + 4)); [lia|].
  assert (Hp : goSlice (a ++ borshVec v ++ d) la (la + 4) = Some (le_enc 4 lv)).
  { unfold borshVec. rewrite u32_small by lia. rewrite <- app_assoc.
    pose proof (goSlice_mid a (le_enc 4 lv) (v ++ d)) as Hg. rewrite length_le_enc in Hg. exact Hg. }
  rewrite Hp. cbn [mbind option_bind]. rewrite (le_dec_enc 4 lv) by (simpl; lia).
  rewrite (u32_small (la + 4 + lv)) by lia.
  destruct (Z.ltb_spec (la + 4 + lv + Z.of_nat (length d)) (la + 4 + lv)); [lia|].
  assert (Hv : goSlice (a ++ borshVec v ++ d) (la + 4) (la + 4 + lv) = Some v).
  { pose proof (goSlice_mid (a ++ le_enc 4 (u32 lv)) v d) as Hg.
    rewrite length_app, length_le_enc in Hg. rewrite <- app_assoc in Hg.
    unfold borshVec. rewrite <- app_assoc. fold lv. replace (la + 4) with (Z.of_nat (length a + 4)) by lia.
    exact Hg. }
  rewrite Hv. cbn [mbind option_bind]. do 3 f_equal. rewrite length_app, Hbv. lia.
Qed.

(** Registration arguments below 4 GiB decode to the fields they were encoded from,
    the reward coin included when designated. *)
Theorem registerValidatorArgs_roundtrip quicAddr blsPubkey blsPoP rewardCoin :
  Z.of_nat (length (EncodeRegisterValidatorArgs quicAddr blsPubkey blsPoP rewardCoin)) + 4 < two32 ->
  length rewardCoin = 32%nat ->
  let args := EncodeRegisterValidatorArgs quicAddr blsPubkey blsPoP rewardCoin in
  DecodeRegisterValidatorArgs args = Some (quicAddr, blsPubkey, blsPoP) /\
  DecodeRegisterValidatorRewardCoin args =
    Some (if bool_decide (rewardCoin = zeroHash) then None else Some rewardCoin).
Proof.
  intros Hlen Hc. cbv zeta. set (args := EncodeRegisterValidatorArgs _ _ _ _) in *.
  set (tail := if bool_decide (rewardCoin = zeroHash) then [] else borshVec rewardCoin).
  assert (Ha : args = borshVec quicAddr ++ borshVec blsPubkey ++ borshVec blsPoP ++ tail).
  { unfold args, EncodeRegisterValidatorArgs, encodeRegisterValidatorArgs, tail. cbv zeta.
    case_bool_decide; rewrite ?app_nil_r, <- ?app_assoc; done. }
  assert (Hd : decodeRegisterValidatorArgs args =
    Some (quicAddr, blsPubkey, blsPoP, if bool_decide (rewardCoin = zeroHash) then [] else rewardCoin)).
  { rewrite Ha in *. clearbody args. clear Ha. unfold decodeRegisterValidatorArgs.
    assert (Hl4 : length (borshVec quicAddr) = (4 + length quicAddr)%nat)
      by (unfold borshVec; by rewrite length_app, length_le_enc).
    destruct (Nat.ltb_spec (length (borshVec quicAddr ++ borshVec blsPubkey ++ borshVec blsPoP ++ tail)) 4) as [H4|_];
      [rewrite length_app in H4; lia|]. cbv zeta.
    assert (Hq : le_dec (slice 0 4 (borshVec quicAddr ++ borshVec blsPubkey ++ borshVec blsPoP ++ tail)) =
      Z.of_nat (length quicAddr)).
    { unfold borshVec at 1. rewrite <- app_assoc, slice_app_l by apply length_le_enc.
      rewrite length_app, Hl4 in Hlen. rewrite u32_small by lia. apply le_dec_enc. simpl. lia. }
    rewrite Hq. rewrite (u32_small (4 + _)) by (rewrite length_app, Hl4 in Hlen; lia).
    replace (4 + Z.of_nat (length quicAddr)) with (Z.of_nat (length (borshVec quicAddr))) by lia.
    destruct (Z.ltb_spec (Z.of_nat (length (borshVec quicAddr ++ borshVec blsPubkey ++ borshVec blsPoP ++ tail)))
      (Z.of_nat (length (borshVec quicAddr)))) as [H5|_]; [rewrite length_app in H5; lia|].
    assert (Hs : goSlice (borshVec quicAddr ++ borshVec blsPubkey ++ borshVec blsPoP ++ tail) 4
      (Z.of_nat (length (borshVec quicAddr))) = Some quicAddr).
    { pose proof (goSlice_mid (le_enc 4 (u32 (Z.of_nat (length quicAddr)))) quicAddr
        (borshVec blsPubkey ++ borshVec blsPoP ++ tail)) as Hg.
      rewrite length_le_enc in Hg. unfold borshVec at 1. rewrite <- app_assoc. rewrite Hl4.
      replace (Z.of_nat (4 + length quicAddr)) with (Z.of_nat 4 + Z.of_nat (length quicAddr)) by lia. exact Hg. }
    rewrite Hs. cbn [mbind option_bind]. rewrite readBorshVec_mid by lia. cbn [mbind option_bind negb].
    rewrite (app_assoc (borshVec quicAddr)) in *. rewrite readBorshVec_mid by lia. cbn [mbind option_bind negb].
    rewrite (app_assoc (borshVec quicAddr ++ borshVec blsPubkey)) in *. unfold tail in *.
    case_bool_decide.
    - rewrite app_nil_r in *. unfold readBorshVec. cbv zeta.
      rewrite (u32_small (Z.of_nat (length _))) by lia.
      set (n := Z.of_nat (length ((borshVec quicAddr ++ borshVec blsPubkey) ++ borshVec blsPoP))) in *.
      rewrite (u32_small (n + 4)) by lia. destruct (Z.ltb_spec n (n + 4)); [done|lia].
    - rewrite <- (app_nil_r (borshVec rewardCoin)) in *. rewrite readBorshVec_mid by lia. done. }
  unfold DecodeRegisterValidatorArgs, DecodeRegisterValidatorRewardCoin. rewrite Hd. simpl. split; [done|].
  f_equal. case_bool_decide; [done|]. unfold hash32. by rewrite decide_True.
Qed.

Theorem registerValidatorArgs_roundtrip_witness :
  let args := EncodeRegisterValidatorArgs (str "10.0.0.1:9000") (replicate 48 3) (replicate 96 4) (replicate 32 5) in
  DecodeRegisterValidatorArgs args = Some (str "10.0.0.1:9000", replicate 48 3, replicate 96 4) /\
  DecodeRegisterValidatorRewardCoin args = Some (Some (replicate 32 5)).
Proof.
  cbv zeta.
  apply (registerValidatorArgs_roundtrip (str "10.0.0.1:9000") (replicate 48 3) (replicate 96 4) (replicate 32 5)).
  - vm_compute. reflexivity.
  - reflexivity.
Defined.

(** A length prefix of [0xFFFFFFFF] wraps the bound check of the address and of
    every later field, and the slice that follows panics. *)
Theorem registration_args_overflow_panics :
  decodeRegisterValidatorArgs [255; 255; 255; 255] = None /\
  decodeRegisterValidatorArgs (le_enc 4 0 ++ [255; 255; 255; 255]) = None.
Proof. split; vm_compute; reflexivity. Qed.

(** ** What the shape gate guarantees *)

Definition refDomains (refs : list TxRef) : list bytes :=
  omap (fun r => if Nat.ltb 0 (length (ref_domain r)) then Some (ref_domain r) else None) refs.
Definition refIDs (refs : list TxRef) : list Hash :=
  omap (fun r => if Nat.ltb 0 (length (ref_domain r)) then None else hash32 (ref_id r)) refs.

Lemma checkRefDuplicates_spec refs seen dseen seen' dseen' :
  checkRefDuplicates refs seen dseen = Some (seen', dseen') ->
  NoDup (refIDs refs) /\ NoDup (refDomains refs) /\
  (forall x, x ∈ refIDs refs -> x ∉ seen) /\ (forall x, x ∈ refDomains refs -> x ∉ dseen) /\
  (forall x, x ∈ seen' <-> x ∈ refIDs refs \/ x ∈ seen) /\
  (forall x, x ∈ dseen' <-> x ∈ refDomains refs \/ x ∈ dseen) /\
  Forall (fun r => (0 < length (ref_domain r))%nat \/ length (ref_id r) = 32%nat) refs.
Proof.
  revert seen dseen. induction refs as [|r refs IH]; intros seen dseen Hc; simpl in Hc.
  - injection Hc as <- <-. split_and!; try constructor; set_solver.
  - unfold refIDs, refDomains. simpl. destruct (Nat.ltb_spec 0 (length (ref_domain r))) as [Hl|Hl].
    + case_bool_decide as Hd; [done|]. apply IH in Hc as (H1 & H2 & H3 & H4 & H5 & H6 & H7).
      fold (refIDs refs). fold (refDomains refs). split_and!; auto.
      * constructor; [|done]. intros Hx. apply H4 in Hx. set_solver.
      * set_solver.
      * set_solver.
    + destruct (hash32 (ref_id r)) as [id|] eqn:Eid; [|done]. apply hash32_Some in Eid as [Hid Hl32].
      case_bool_decide as Hd; [done|]. apply IH in Hc as (H1 & H2 & H3 & H4 & H5 & H6 & H7).
      fold (refIDs refs). fold (refDomains refs). split_and!; auto.
      * constructor; [|done]. intros Hx. apply H3 in Hx. set_solver.
      * set_solver.
      * set_solver.
      * constructor; [right; congruence|done].
Qed.

Lemma rebuild_agree tx : rebuildUnsignedTxBody tx = rebuildUnsignedTx tx.
Proof. unfold rebuildUnsignedTxBody, rebuildUnsignedTx. f_equal. Qed.

(** A transaction that passes ingress passes the commit path's shape gate and, unless
    sponsored, its authenticity check; it has at most 40 references without repeated plain
    IDs or domains, and its operations exclude a pod call and created objects. *)
Theorem ValidateTx_sound X tx :
  ValidateTx X tx = true ->
  (isSponsored tx = false -> verifyTxAuthenticity X tx = true) /\ ValidateShape tx = true /\
  (length (tx_ReadRefs tx) + length (tx_MutableRefs tx) <= 40)%nat /\
  NoDup (refIDs (tx_MutableRefs tx) ++ refIDs (tx_ReadRefs tx)) /\
  NoDup (refDomains (tx_MutableRefs tx) ++ refDomains (tx_ReadRefs tx)) /\
  (tx_Operations tx <> [] -> (length (tx_Operations tx) <= 40)%nat /\ tx_FunctionName tx = [] /\
     Forall (fun b => b = 0) (tx_Pod tx) /\ tx_CreatedObjectsReplication tx = []).
Proof.
  unfold ValidateTx, validateFieldSizes, validateHash, validateSignature. intros Hv. zb.
  match goal with Hr : validateObjectRefs tx = true |- _ =>
    unfold validateObjectRefs, validateNoDuplicateRefs in Hr;
    destruct (Nat.ltb_spec maxObjectRefs (length (tx_ReadRefs tx) + length (tx_MutableRefs tx))) as [|Hle]; [done|];
    destruct (checkRefDuplicates (tx_MutableRefs tx) ∅ ∅) as [[sn dn]|] eqn:E1; [|done];
    apply bool_decide_eq_true in Hr as [[sn' dn'] E2] end.
  apply checkRefDuplicates_spec in E1 as (A1 & A2 & _ & _ & A5 & A6 & _).
  apply checkRefDuplicates_spec in E2 as (B1 & B2 & B3 & B4 & _).
  split.
  { intros Hsp. unfold verifyTxAuthenticity. cbv zeta. rewrite rebuild_agree, Hsp.
    repeat match goal with Hq : tx_Hash tx = _ |- _ => rewrite <- Hq end.
    rewrite bool_decide_eq_true_2 by done. simpl.
    repeat match goal with Hq : _ = true |- _ => rewrite Hq end. done. }
  split; [done|]. split; [unfold maxObjectRefs in Hle; lia|].
  split; [apply NoDup_app; split_and!; auto; intros x Hx Hx'; apply (B3 x Hx'), A5; by left|].
  split; [apply NoDup_app; split_and!; auto; intros x Hx Hx'; apply (B4 x Hx'), A6; by left|].
  intros Hops. match goal with Hs : ValidateShape tx = true |- _ => unfold ValidateShape in Hs;
    destruct (Nat.eqb_spec (length (tx_Operations tx)) 0) as [E|_]; [by apply nil_length_inv in E|];
    destruct (txHasPodCall tx) eqn:Ep; [done|];
    destruct (Nat.ltb_spec 0 (length (tx_CreatedObjectsReplication tx))) as [|Hcr]; [done|];
    apply negb_true_iff, Nat.ltb_ge in Hs end.
  unfold txHasPodCall in Ep. zb. split; [unfold maxDeclaredOps, maxObjectRefs in *; lia|].
  split; [done|]. split; [|apply nil_length_inv; lia].
  apply Forall_forall. intros b Hb. destruct (Z.eq_dec b 0); [done|].
  match goal with Hx : existsb _ _ = false |- _ => rewrite <- not_true_iff_false, existsb_exists in Hx; destruct Hx end.
  exists b. split; [by apply list_elem_of_In|]. apply negb_true_iff. by apply Z.eqb_neq.
Qed.

Definition shapeTx : Transaction :=
  mkTransaction (replicate 32 5) [mkTxRef (replicate 32 2) 0 []] [mkTxRef (replicate 32 1) 3 []] []
    (replicate 32 7) (replicate 64 1) (replicate 32 0) [] [] 100 (replicate 32 1) [] [] 0 []
    [mkDeclaredOp 0 (replicate 32 1) 0 (replicate 32 8) [] 0].

Definition shapeCrypto : Crypto :=
  mkCrypto (fun _ => replicate 32 5) (fun u => u_sender u ++ u_args u) (fun _ _ _ => true) (fun _ _ _ _ => true).

Theorem ValidateTx_sound_witness :
  ValidateTx shapeCrypto shapeTx = true /\
  NoDup (refIDs (tx_MutableRefs shapeTx) ++ refIDs (tx_ReadRefs shapeTx)).
Proof.
  assert (Hv : ValidateTx shapeCrypto shapeTx = true) by (vm_compute; reflexivity).
  split; [exact Hv|].
  exact (proj1 (proj2 (proj2 (proj2 (ValidateTx_sound shapeCrypto shapeTx Hv))))).
Defined.

(** A reference that carries both a domain and an ID is checked by its domain
    alone: the same object ID passes twice. *)
Theorem duplicate_id_behind_domains_passes :
  let a := mkTxRef (replicate 32 1) 0 (str "a") in
  let b := mkTxRef (replicate 32 1) 0 (str "b") in
  is_Some (checkRefDuplicates [a; b] ∅ ∅) /\ ref_id a = ref_id b.
Proof. split; [vm_compute; eauto|reflexivity]. Qed.
