(* ===== verification/Domains.v ===== *)
(** * The domain registry (internal/state/domain.go) and the naming and lease
    rules (internal/consensus/domainops.go)

    Leases are 72-byte values under the ["d:"] prefix of the store, a legacy
    32-byte value being a name without owner or lease.  The abstract registry
    is a finite map from names to leaves. *)

From S2P Require Import Prelude Types Fees Storage.

(** ** Data *)

(** [domainLeafView]: the leaf of a name. *)
Record domainLeafView := mkLeaf {
  objectID : Hash;
  owner : Hash;
  expiry : Z;
}.

#[export] Instance domainLeafView_eq_dec : EqDecision domainLeafView.
Proof. solve_decision. Defined.

(** [DomainEntry]: a leaf with its name. *)
Record DomainEntry := mkDomainEntry { de_Name : bytes; de_Leaf : domainLeafView }.

Definition domainKeyPrefix : bytes := [100; 58].
Definition legacyDomainValueSize : nat := 32%nat.
Definition domainValueSize : nat := 72%nat.

Definition domainKey (name : bytes) : bytes := domainKeyPrefix ++ name.

Definition encodeDomainValue (l : domainLeafView) : bytes :=
  objectID l ++ owner l ++ be_enc 8 (expiry l).

Definition decodeDomainValue (value : bytes) : option domainLeafView :=
  if negb (Nat.eqb (length value) domainValueSize) &&
     negb (Nat.eqb (length value) legacyDomainValueSize) then None
  else if Nat.eqb (length value) legacyDomainValueSize then
    Some (mkLeaf (slice 0 32 value) zeroHash 0)
  else Some (mkLeaf (slice 0 32 value) (slice 32 32 value) (be_dec (drop 64 value))).

Section Registry.
Context {M : Type} `{Pebble M}.
Implicit Type db : M.

(** [DomainLeaf], [SetDomainLeaf], [DeleteDomainLeaf]. *)
Definition DomainLeaf db (name : bytes) : option domainLeafView :=
  match Get db (domainKey name) with
  | Some value => decodeDomainValue value
  | None => None
  end.

Definition SetDomainLeaf db (name : bytes) (l : domainLeafView) : M :=
  Set_ db (domainKey name) (encodeDomainValue l).

Definition DeleteDomainLeaf db (name : bytes) : M := Delete db (domainKey name).

(** [exportDomainEntries]. *)
Definition ExportDomains db : list DomainEntry :=
  omap (fun kv => match decodeDomainValue (snd kv) with
                  | Some l => Some (mkDomainEntry (drop 2 (fst kv)) l)
                  | None => None
                  end) (IteratePrefix db domainKeyPrefix).

(** [importBatch]. *)
Definition ImportDomains db (entries : list DomainEntry) : M :=
  SetBatch db (map (fun e => (domainKey (de_Name e), encodeDomainValue (de_Leaf e))) entries).

End Registry.

(** ** Lease and naming rules *)

Definition maxDomainNameLen : nat := 253%nat.
Definition reservedDomainRoot : bytes := str "system".
Definition reservedDomainPrefix : bytes := reservedDomainRoot ++ [46].

(** [domainExpiry]: the new expiry of a lease, [None] when the term is zero or
    runs past the cap. *)
Definition domainExpiry (current epoch term maxTerm : Z) : option Z :=
  if term =? 0 then None
  else
    let base := if current <? epoch then epoch else current in
    let expiry := safeAdd base term in
    if safeAdd epoch maxTerm <? expiry then None else Some expiry.

(** [strings.Split(name, ".")]. *)
Fixpoint splitDots (cur name : bytes) : list bytes :=
  match name with
  | [] => [rev cur]
  | c :: name => if c =? 46 then rev cur :: splitDots [] name else splitDots (c :: cur) name
  end.

Definition validDomainChar (c : Z) : bool :=
  ((97 <=? c) && (c <=? 122)) || ((48 <=? c) && (c <=? 57)) || (c =? 45).

Definition validDomainLabel (label : bytes) : bool :=
  negb (bool_decide (label = [])) && forallb validDomainChar label.

Definition validDomainName (name : bytes) : bool :=
  if Nat.eqb (length name) 0 || Nat.ltb maxDomainNameLen (length name) then false
  else if bool_decide (name = reservedDomainRoot) ||
          bool_decide (reservedDomainPrefix `prefix_of` name) then false
  else forallb validDomainLabel (splitDots [] name).

(** [parentDomainName]: what follows the first dot. *)
Fixpoint parentDomainName (name : bytes) : option bytes :=
  match name with
  | [] => None
  | c :: name => if c =? 46 then Some name else parentDomainName name
  end.

(** ** Codec *)

Record wf_leaf (l : domainLeafView) : Prop := {
  wl_object : length (objectID l) = 32%nat;
  wl_owner : length (owner l) = 32%nat;
  wl_expiry : is_u64 (expiry l);
}.

Lemma decode_encodeDomainValue l : wf_leaf l -> decodeDomainValue (encodeDomainValue l) = Some l.
Proof.
  intros [H1 H2 H3]. unfold decodeDomainValue.
  assert (length (encodeDomainValue l) = 72%nat) as ->.
  { unfold encodeDomainValue. rewrite !length_app, H1, H2, length_be_enc. done. }
  simpl. unfold encodeDomainValue.
  rewrite slice_app_l by done. rewrite slice_app_r by lia. rewrite H1.
  simpl Nat.sub. rewrite slice_app_l by done.
  rewrite drop_app_ge by lia. rewrite H1. simpl Nat.sub.
  rewrite drop_app_ge by lia. rewrite H2. simpl Nat.sub. rewrite drop_0.
  rewrite be_dec_enc by (unfold is_u64 in H3; simpl; lia). by destruct l.
Qed.

(** The store holds exactly the encodings of the leaves. *)
Definition DRep {M} `{Pebble M} (db : M) (R : gmap bytes domainLeafView) : Prop :=
  map_Forall (fun _ l => wf_leaf l) R /\
  forall name, db_map db !! domainKey name = encodeDomainValue <$> R !! name.

Section DomainSimulation.
Context {M : Type} `{Pebble M}.
Implicit Types (db : M) (R : gmap bytes domainLeafView).

Lemma domainKey_inj a b : domainKey a = domainKey b -> a = b.
Proof. unfold domainKey. intros E. by apply app_inv_head in E. Qed.

Lemma DRep_leaf db R name : DRep db R -> DomainLeaf db name = R !! name.
Proof.
  intros [Hw Hk]. unfold DomainLeaf, Get. rewrite db_get_spec, Hk.
  destruct (R !! name) as [l|] eqn:E; [|done].
  change (encodeDomainValue <$> Some l) with (Some (encodeDomainValue l)). cbv iota.
  apply decode_encodeDomainValue. by apply (Hw name l).
Qed.

Lemma DRep_set db R name l :
  DRep db R -> wf_leaf l -> DRep (SetDomainLeaf db name l) (<[name := l]> R).
Proof.
  intros [Hw Hk] Hl. split; [by apply map_Forall_insert_2|].
  intros q. unfold SetDomainLeaf, Set_. rewrite db_set_spec, !lookup_insert, Hk.
  destruct (decide (name = q)) as [->|Hne]; [by rewrite decide_True|].
  rewrite decide_False; [done|]. by intros ?%domainKey_inj.
Qed.

Lemma DRep_delete db R name : DRep db R -> DRep (DeleteDomainLeaf db name) (delete name R).
Proof.
  intros [Hw Hk]. split; [by apply map_Forall_delete|].
  intros q. unfold DeleteDomainLeaf, Delete. rewrite db_delete_spec, !lookup_delete, Hk.
  destruct (decide (name = q)) as [->|Hne]; [by rewrite decide_True|].
  rewrite decide_False; [done|]. by intros ?%domainKey_inj.
Qed.

(** What the sweep and a snapshot enumerate. *)
Lemma ExportDomains_spec db R e :
  DRep db R -> e ∈ ExportDomains db <-> R !! de_Name e = Some (de_Leaf e).
Proof.
  intros HR. pose proof HR as [Hw Hk]. unfold ExportDomains, domainKeyPrefix.
  rewrite list_elem_of_omap. split.
  - intros ([k v] & Hin & He).
    apply (IteratePrefix_snoc db [100] 58) in Hin as [Hg [name ->]]; [|lia].
    unfold Get in Hg. rewrite db_get_spec in Hg.
    change (([100] ++ [58]) ++ name) with (domainKey name) in *. rewrite Hk in Hg.
    destruct (R !! name) as [l|] eqn:E; simpl in Hg; [|done]. injection Hg as <-.
    cbn [fst snd] in He. rewrite decode_encodeDomainValue in He by by apply (Hw name l).
    injection He as <-. done.
  - intros He. destruct e as [name l]. simpl in He.
    exists (domainKey name, encodeDomainValue l). split.
    + apply (IteratePrefix_snoc db [100] 58); [lia|]. split.
      * unfold Get. by rewrite db_get_spec, Hk, He.
      * by exists name.
    + cbn [fst snd]. rewrite decode_encodeDomainValue by by apply (Hw name l). done.
Qed.

End DomainSimulation.

(** ** Lease rules *)

Lemma domainExpiry_Some current epoch term maxTerm x :
  is_u64 current -> is_u64 epoch -> is_u64 term -> is_u64 maxTerm ->
  domainExpiry current epoch term maxTerm = Some x ->
  is_u64 x /\ x <= safeAdd epoch maxTerm /\ x = Z.min (Z.max current epoch + term) max64 /\ term <> 0.
Proof.
  intros H1 H2 H3 H4. unfold domainExpiry.
  destruct (Z.eqb_spec term 0); [done|]. cbv zeta.
  assert (Hb : (if current <? epoch then epoch else current) = Z.max current epoch)
    by (destruct (Z.ltb_spec current epoch); lia).
  rewrite Hb. assert (is_u64 (Z.max current epoch)) by u64_lia.
  destruct (Z.ltb_spec (safeAdd epoch maxTerm) (safeAdd (Z.max current epoch) term)); [done|].
  intros [= <-]. split; [by apply safeAdd_u64|]. split; [done|].
  split; [by apply safeAdd_min|done].
Qed.

(** A granted lease outlives the current epoch and the one it extends, and
    never runs past the governed cap. *)

(** A granted lease ends after both the current epoch and the old expiry, at most the
    maximum term ahead, and equals the later of the two plus the term. *)
Theorem domainExpiry_bounds current epoch term maxTerm x :
  is_u64 current -> is_u64 term -> is_u64 epoch -> is_u64 maxTerm -> epoch + maxTerm < max64 ->
  domainExpiry current epoch term maxTerm = Some x ->
  epoch < x <= epoch + maxTerm /\ current < x /\ x = Z.max current epoch + term.
Proof.
  intros H1 H2 H3 H4 H5 Hx.
  destruct (domainExpiry_Some _ _ _ _ _ H1 H3 H2 H4 Hx) as (Hu & Hle & He & Ht).
  rewrite safeAdd_min in Hle by done.
  destruct (Z_lt_le_dec (Z.max current epoch + term) two64).
  - u64_lia.
  - exfalso. unfold domainExpiry in Hx. destruct (Z.eqb_spec term 0); [done|]. cbv zeta in Hx.
    assert (x = max64) by lia. u64_lia.
Qed.

Theorem domainExpiry_bounds_witness :
  domainExpiry 12 10 20 256 = Some 32 /\ 10 < 32 <= 10 + 256 /\ 12 < 32 /\ 32 = Z.max 12 10 + 20.
Proof.
  split; [reflexivity|].
  apply (domainExpiry_bounds 12 10 20 256 32); unfold is_u64; try lia; reflexivity.
Defined.

(** ** Names *)

Lemma splitDots_chars cur name :
  forallb validDomainLabel (splitDots cur name) = true ->
  Forall (fun c => validDomainChar c = true \/ c = 46) (rev cur ++ name).
Proof.
  revert cur; induction name as [|c name IH]; intros cur; simpl.
  - rewrite andb_true_r, app_nil_r. unfold validDomainLabel. intros [_ Hf]%andb_true_iff.
    rewrite forallb_forall in Hf. apply Forall_forall. intros x Hx. left.
    by apply Hf, list_elem_of_In.
  - destruct (Z.eqb_spec c 46) as [->|Hc]; simpl.
    + intros [Hl Hr]%andb_true_iff. apply IH in Hr. simpl in Hr.
      unfold validDomainLabel in Hl. apply andb_true_iff in Hl as [_ Hf].
      rewrite forallb_forall in Hf. apply Forall_app. split.
      * apply Forall_forall. intros x Hx. left. by apply Hf, list_elem_of_In.
      * constructor; [by right|done].
    + intros Hf. apply IH in Hf. simpl in Hf. by rewrite <- app_assoc in Hf.
Qed.

(** An accepted name is short, lower-case, free of the reserved root and its
    whole namespace. *)

(** An accepted domain name is within the length bound, uses only the label alphabet
    and dots, and is neither the reserved root nor under it. *)
Theorem validDomainName_sound name :
  validDomainName name = true ->
  (1 <= length name <= maxDomainNameLen)%nat /\
  Forall (fun c => validDomainChar c = true \/ c = 46) name /\
  name <> reservedDomainRoot /\ ~ reservedDomainPrefix `prefix_of` name.
Proof.
  unfold validDomainName.
  destruct (Nat.eqb_spec (length name) 0) as [|H0]; [done|].
  destruct (Nat.ltb_spec maxDomainNameLen (length name)) as [|H1]; [done|]. simpl.
  destruct (bool_decide (name = reservedDomainRoot)) eqn:E1; [done|].
  destruct (bool_decide (reservedDomainPrefix `prefix_of` name)) eqn:E2; [done|]. simpl.
  intros Hf. apply splitDots_chars in Hf. simpl in Hf. zb. split; [lia|done].
Qed.

Theorem validDomainName_sound_witness :
  validDomainName (str "my-app.shop") = true /\ str "my-app.shop" <> reservedDomainRoot /\
  validDomainName (str "system.x") = false.
Proof.
  assert (H : validDomainName (str "my-app.shop") = true) by (vm_compute; reflexivity).
  split; [exact H|]. split; [|vm_compute; reflexivity].
  exact (proj1 (proj2 (proj2 (validDomainName_sound (str "my-app.shop") H)))).
Defined.
