(* ===== verification/Staged.v ===== *)
(** * The staged view (internal/consensus/staged.go, staged_domain.go)

    Declared operations are validated one after the other against an overlay of
    the committed tracker and domain registry, before any of them is applied.
    The overlay records the edges, deletions, child-count changes and leaves
    earlier operations of the same transaction would produce. *)

From S2P Require Import Prelude Types Fees Storage Tracker Domains.

Record stagedView (M : Type) := mkStaged {
  sv_ot : M;                                  (* committed tracker *)
  sv_parents : gmap Hash (Z * Hash);          (* staged parent edges *)
  sv_deleted : gset Hash;                     (* objects removed so far *)
  sv_childDelta : gmap Hash Z;                (* child-count changes per parent *)
  sv_ds : option M;                           (* committed registry, None = not wired *)
  sv_epoch : Z;
  sv_maxTerm : Z;
  sv_domains : gmap bytes domainLeafView;     (* staged leaves *)
  sv_domainRemoved : gset bytes;              (* names removed so far *)
}.

Arguments mkStaged {M}.
Arguments sv_ot {M}. Arguments sv_parents {M}. Arguments sv_deleted {M}.
Arguments sv_childDelta {M}. Arguments sv_ds {M}. Arguments sv_epoch {M}.
Arguments sv_maxTerm {M}. Arguments sv_domains {M}. Arguments sv_domainRemoved {M}.

Section Staged.
Context {M : Type} `{Pebble M}.
Implicit Types (s : stagedView M) (op : DeclaredOp) (refs : gset Hash).

Definition newStagedView (ot : M) (ds : option M) (epoch maxTerm : Z) : stagedView M :=
  mkStaged ot ∅ ∅ ∅ ds epoch maxTerm ∅ ∅.

(** ** Reads through the overlay *)

Definition s_getParent s (id : Hash) : option (Z * Hash) :=
  if bool_decide (id ∈ sv_deleted s) then None
  else match sv_parents s !! id with
       | Some e => Some e
       | None => getParent (sv_ot s) id
       end.

Definition s_controllerOf s (id : Hash) : option Hash := controllerOf (s_getParent s) id.
Definition s_controls s (sender id : Hash) : bool := controls (s_getParent s) sender id.
Definition s_wouldCycle s (id : Hash) (kind : Z) (parent : Hash) : bool :=
  wouldCycle (s_getParent s) id kind parent.

(** The map read [s.childDelta[id]], zero when absent. *)
Definition delta s (id : Hash) : Z := default 0 (sv_childDelta s !! id).

Definition s_childCount s (id : Hash) : Z :=
  let staged := childCount (sv_ot s) id + delta s id in
  if staged <? 0 then 0 else u32 staged.

Definition s_getDomain s (name : bytes) : option domainLeafView :=
  if bool_decide (name ∈ sv_domainRemoved s) then None
  else match sv_domains s !! name with
       | Some l => Some l
       | None => match sv_ds s with Some db => DomainLeaf db name | None => None end
       end.

(** ** Staging *)

Definition addDelta s (p : Hash) (n : Z) : stagedView M :=
  mkStaged (sv_ot s) (sv_parents s) (sv_deleted s) (<[p := delta s p + n]> (sv_childDelta s))
           (sv_ds s) (sv_epoch s) (sv_maxTerm s) (sv_domains s) (sv_domainRemoved s).

Definition putParent s (id : Hash) (kind : Z) (parent : Hash) : stagedView M :=
  mkStaged (sv_ot s) (<[id := (kind, parent)]> (sv_parents s)) (sv_deleted s) (sv_childDelta s)
           (sv_ds s) (sv_epoch s) (sv_maxTerm s) (sv_domains s) (sv_domainRemoved s).

Definition putDeleted s (id : Hash) : stagedView M :=
  mkStaged (sv_ot s) (sv_parents s) ({[ id ]} ∪ sv_deleted s) (sv_childDelta s)
           (sv_ds s) (sv_epoch s) (sv_maxTerm s) (sv_domains s) (sv_domainRemoved s).

(** The decrement of the old parent, shared by both stagings. *)
Definition dropOldEdge s (id : Hash) : stagedView M :=
  match s_getParent s id with
  | Some (oldKind, oldParent) =>
      if oldKind =? objectParentKind then addDelta s oldParent (-1) else s
  | None => s
  end.

Definition stageReparent s (id : Hash) (kind : Z) (parent : Hash) : stagedView M :=
  let s := dropOldEdge s id in
  let s := putParent s id kind parent in
  if kind =? objectParentKind then addDelta s parent 1 else s.

Definition stageDelete s (id : Hash) : stagedView M := putDeleted (dropOldEdge s id) id.

Definition stageDomain s (name : bytes) (l : domainLeafView) : stagedView M :=
  mkStaged (sv_ot s) (sv_parents s) (sv_deleted s) (sv_childDelta s)
           (sv_ds s) (sv_epoch s) (sv_maxTerm s)
           (<[name := l]> (sv_domains s)) (sv_domainRemoved s ∖ {[ name ]}).

Definition stageDomainDelete s (name : bytes) : stagedView M :=
  mkStaged (sv_ot s) (sv_parents s) (sv_deleted s) (sv_childDelta s)
           (sv_ds s) (sv_epoch s) (sv_maxTerm s)
           (<[name := mkLeaf zeroHash zeroHash 0]> (sv_domains s)) ({[ name ]} ∪ sv_domainRemoved s).

(** ** Validation: [None] rejects, [Some] is the view with the operation staged *)

Definition validateReparent s (sender : Hash) op refs : option (stagedView M) :=
  objID ← hash32 (op_ObjectID op);
  if negb (bool_decide (objID ∈ refs)) || negb (s_controls s sender objID) then None
  else
    target ← hash32 (op_Target op);
    if negb (op_TargetKind op =? keyRootKind) && negb (op_TargetKind op =? objectParentKind) then None
    else if (op_TargetKind op =? objectParentKind) && negb (s_controls s sender target) then None
    else if s_wouldCycle s objID (op_TargetKind op) target then None
    else Some (stageReparent s objID (op_TargetKind op) target).

Definition validateDelete s (sender : Hash) op refs : option (stagedView M) :=
  objID ← hash32 (op_ObjectID op);
  if negb (bool_decide (objID ∈ refs)) || negb (s_controls s sender objID) then None
  else if negb (s_childCount s objID =? 0) then None
  else Some (stageDelete s objID).

Definition ownedDomain s (sender : Hash) (name : bytes) : option domainLeafView :=
  leaf ← s_getDomain s name;
  if negb (bool_decide (owner leaf = sender)) || bool_decide (sender = zeroHash) then None
  else Some leaf.

Definition ownsDomainNamespace s (sender : Hash) (name : bytes) : bool :=
  match parentDomainName name with
  | None => true
  | Some parent =>
      match ownedDomain s sender parent with
      | Some leaf => sv_epoch s <=? expiry leaf
      | None => false
      end
  end.

Definition validateDomainRegister s (sender : Hash) op : option (stagedView M) :=
  if negb (validDomainName (op_Name op)) then None
  else match s_getDomain s (op_Name op) with
  | Some _ => None
  | None =>
      if negb (ownsDomainNamespace s sender (op_Name op)) then None
      else
        objID ← hash32 (op_ObjectID op);
        if negb (s_controls s sender objID) then None
        else
          exp ← domainExpiry 0 (sv_epoch s) (op_TermEpochs op) (sv_maxTerm s);
          Some (stageDomain s (op_Name op) (mkLeaf objID sender exp))
  end.

Definition validateDomainRenew s (sender : Hash) op : option (stagedView M) :=
  leaf ← ownedDomain s sender (op_Name op);
  exp ← domainExpiry (expiry leaf) (sv_epoch s) (op_TermEpochs op) (sv_maxTerm s);
  Some (stageDomain s (op_Name op) (mkLeaf (objectID leaf) (owner leaf) exp)).

Definition validateDomainUpdate s (sender : Hash) op : option (stagedView M) :=
  leaf ← ownedDomain s sender (op_Name op);
  objID ← hash32 (op_ObjectID op);
  if negb (s_controls s sender objID) then None
  else Some (stageDomain s (op_Name op) (mkLeaf objID (owner leaf) (expiry leaf))).

Definition validateDomainTransfer s (sender : Hash) op : option (stagedView M) :=
  leaf ← ownedDomain s sender (op_Name op);
  newOwner ← hash32 (op_Target op);
  if bool_decide (newOwner = zeroHash) then None
  else Some (stageDomain s (op_Name op) (mkLeaf (objectID leaf) newOwner (expiry leaf))).

Definition validateDomainDelete s (sender : Hash) op : option (stagedView M) :=
  _ ← ownedDomain s sender (op_Name op);
  Some (stageDomainDelete s (op_Name op)).

Definition validateDomainOp s (sender : Hash) op : option (stagedView M) :=
  match sv_ds s with
  | None => None
  | Some _ =>
      let k := op_Kind op in
      if k =? domainRegisterOp then validateDomainRegister s sender op
      else if k =? domainRenewOp then validateDomainRenew s sender op
      else if k =? domainUpdateOp then validateDomainUpdate s sender op
      else if k =? domainTransferOp then validateDomainTransfer s sender op
      else if k =? domainDeleteOp then validateDomainDelete s sender op
      else None
  end.

Definition validate s (sender : Hash) op refs : option (stagedView M) :=
  if lastDeclaredOpKind <? op_Kind op then None
  else if op_Kind op =? reparentOp then validateReparent s sender op refs
  else if op_Kind op =? deleteOp then validateDelete s sender op refs
  else validateDomainOp s sender op.

(** The loop of [handleDeclaredOps]. *)
Fixpoint validateAll s (sender : Hash) (ops : list DeclaredOp) refs : option (stagedView M) :=
  match ops with
  | [] => Some s
  | op :: ops => s' ← validate s sender op refs; validateAll s' sender ops refs
  end.

(** ** Effect of staging on the reads *)

Lemma s_getParent_dropOldEdge s id x : s_getParent (dropOldEdge s id) x = s_getParent s x.
Proof. unfold dropOldEdge. destruct (s_getParent s id) as [[k p]|]; [destruct (k =? _)|]; done. Qed.

Lemma delta_addDelta s p n x : delta (addDelta s p n) x = delta s x + (if decide (p = x) then n else 0).
Proof.
  unfold delta at 1, addDelta. simpl. rewrite lookup_insert. case_decide; [by subst|]. simpl.
  unfold delta. lia.
Qed.

Lemma delta_dropOldEdge s id x :
  delta (dropOldEdge s id) x = delta s x - ind_edge (s_getParent s id) x.
Proof.
  unfold dropOldEdge. destruct (s_getParent s id) as [[k p]|]; simpl; [|lia].
  unfold ind. destruct (k =? objectParentKind); simpl; [|lia].
  rewrite delta_addDelta. destruct (decide (p = x)) as [->|].
  - rewrite bool_decide_eq_true_2 by done. lia.
  - rewrite bool_decide_eq_false_2 by done. lia.
Qed.

Lemma stageReparent_getParent s id k p x :
  s_getParent (stageReparent s id k p) x =
    if bool_decide (x ∈ sv_deleted s) then None
    else if decide (x = id) then Some (k, p) else s_getParent s x.
Proof.
  assert (Hg : s_getParent (stageReparent s id k p) x = s_getParent (putParent (dropOldEdge s id) id k p) x).
  { unfold stageReparent. destruct (k =? _); done. }
  assert (Hd : sv_deleted (dropOldEdge s id) = sv_deleted s).
  { unfold dropOldEdge. destruct (s_getParent s id) as [[k' p']|]; [destruct (k' =? _)|]; done. }
  assert (Hp : sv_parents (dropOldEdge s id) = sv_parents s).
  { unfold dropOldEdge. destruct (s_getParent s id) as [[k' p']|]; [destruct (k' =? _)|]; done. }
  assert (Ho : sv_ot (dropOldEdge s id) = sv_ot s).
  { unfold dropOldEdge. destruct (s_getParent s id) as [[k' p']|]; [destruct (k' =? _)|]; done. }
  rewrite Hg. unfold s_getParent, putParent. simpl. rewrite Hd, Hp, Ho.
  case_bool_decide; [done|]. rewrite lookup_insert.
  destruct (decide (x = id)) as [->|]; [by rewrite decide_True|by rewrite decide_False by congruence].
Qed.

Lemma stageReparent_delta s id k p x :
  delta (stageReparent s id k p) x = delta s x - ind_edge (s_getParent s id) x + ind k p x.
Proof.
  assert (Hp : forall y, delta (putParent (dropOldEdge s id) id k p) y = delta (dropOldEdge s id) y) by done.
  unfold stageReparent, ind. destruct (k =? objectParentKind); simpl.
  - rewrite delta_addDelta, Hp, delta_dropOldEdge. destruct (decide (p = x)) as [->|].
    + rewrite bool_decide_eq_true_2 by done. lia.
    + rewrite bool_decide_eq_false_2 by done. lia.
  - rewrite Hp, delta_dropOldEdge. lia.
Qed.

Lemma stageDelete_getParent s id x :
  s_getParent (stageDelete s id) x = if decide (x = id) then None else s_getParent s x.
Proof.
  rewrite <- (s_getParent_dropOldEdge s id x). unfold stageDelete.
  set (s1 := dropOldEdge s id). unfold s_getParent, putDeleted. simpl.
  destruct (decide (x = id)) as [->|Hne].
  - rewrite bool_decide_eq_true_2 by set_solver. done.
  - destruct (decide (x ∈ sv_deleted s1)).
    + rewrite !bool_decide_eq_true_2 by set_solver. done.
    + rewrite !bool_decide_eq_false_2 by set_solver. done.
Qed.

Lemma stageDelete_delta s id x :
  delta (stageDelete s id) x = delta s x - ind_edge (s_getParent s id) x.
Proof. apply delta_dropOldEdge. Qed.

Lemma stageDomain_getDomain s name l q :
  s_getDomain (stageDomain s name l) q = if decide (q = name) then Some l else s_getDomain s q.
Proof.
  unfold s_getDomain, stageDomain. simpl. rewrite lookup_insert.
  destruct (decide (q = name)) as [->|Hne].
  - rewrite bool_decide_eq_false_2 by set_solver. by rewrite decide_True.
  - rewrite (decide_False (P := name = q)) by congruence.
    destruct (decide (q ∈ sv_domainRemoved s)).
    + rewrite !bool_decide_eq_true_2 by set_solver. done.
    + rewrite !bool_decide_eq_false_2 by set_solver. done.
Qed.

Lemma stageDomainDelete_getDomain s name q :
  s_getDomain (stageDomainDelete s name) q = if decide (q = name) then None else s_getDomain s q.
Proof.
  unfold s_getDomain, stageDomainDelete. simpl. rewrite lookup_insert.
  destruct (decide (q = name)) as [->|Hne].
  - rewrite bool_decide_eq_true_2 by set_solver. done.
  - rewrite (decide_False (P := name = q)) by congruence.
    destruct (decide (q ∈ sv_domainRemoved s)).
    + rewrite !bool_decide_eq_true_2 by set_solver. done.
    + rewrite !bool_decide_eq_false_2 by set_solver. done.
Qed.

(** Object staging leaves the names alone and name staging the objects. *)
Lemma getDomain_dropOldEdge s id q : s_getDomain (dropOldEdge s id) q = s_getDomain s q.
Proof. unfold dropOldEdge. destruct (s_getParent s id) as [[k p]|]; [destruct (k =? _)|]; done. Qed.

Lemma stageReparent_getDomain s id k p q : s_getDomain (stageReparent s id k p) q = s_getDomain s q.
Proof.
  rewrite <- (getDomain_dropOldEdge s id q). unfold stageReparent. destruct (k =? _); done.
Qed.

Lemma stageDelete_getDomain s id q : s_getDomain (stageDelete s id) q = s_getDomain s q.
Proof. rewrite <- (getDomain_dropOldEdge s id q). done. Qed.

End Staged.
