(* ===== verification/Coins.v ===== *)
(** * Coins, the supply counters and delegation positions

    internal/consensus/coins.go, internal/consensus/delegation.go,
    internal/state/supply.go, internal/state/delegation.go and the object half
    of the [CoinStore] that [state.State] implements.  An object is stored as
    its decoded table under its ID; the two counters are kept in memory and
    mirrored, eight bytes big-endian, under their metadata keys. *)

From S2P Require Import Prelude Types Fees.

Record CoinStore := mkCoinStore {
  cs_objects : gmap Hash Object;
  cs_supply : Z;                       (* totalSupply *)
  cs_coins : Z;                        (* coinsTotal *)
  cs_supplyKey : option bytes;         (* stored under "m:supply" *)
  cs_coinsKey : option bytes;          (* stored under "m:coins_total" *)
}.

(** ** The object store *)

(** [extractObjectID]: zero unless the ID is 32 bytes. *)
Definition extractObjectID (o : Object) : Hash := default zeroHash (hash32 (obj_id o)).

Definition GetObject (st : CoinStore) (id : Hash) : option Object := cs_objects st !! id.

Definition set_objects (st : CoinStore) (m : gmap Hash Object) : CoinStore :=
  mkCoinStore m (cs_supply st) (cs_coins st) (cs_supplyKey st) (cs_coinsKey st).

Definition SetObject (st : CoinStore) (o : Object) : CoinStore :=
  set_objects st (<[extractObjectID o := o]> (cs_objects st)).

Definition DeleteObject (st : CoinStore) (id : Hash) : CoinStore :=
  set_objects st (delete id (cs_objects st)).

(** ** The counters (state/supply.go) *)

Definition satAdd (a b : Z) : Z := if max64 -w b <? a then max64 else a +w b.
Definition floorSub (a b : Z) : Z := if a <? b then 0 else a -w b.

(** [SetTotalSupply]: memory first, then [persistSupplyLocked]. *)
Definition SetTotalSupply (st : CoinStore) (v : Z) : CoinStore :=
  mkCoinStore (cs_objects st) v (cs_coins st) (Some (be_enc 8 v)) (cs_coinsKey st).
Definition SetCoinsTotal (st : CoinStore) (v : Z) : CoinStore :=
  mkCoinStore (cs_objects st) (cs_supply st) v (cs_supplyKey st) (Some (be_enc 8 v)).

Definition AddSupply (st : CoinStore) (amount : Z) : CoinStore :=
  SetTotalSupply st (satAdd (cs_supply st) amount).
Definition SubSupply (st : CoinStore) (amount : Z) : CoinStore :=
  SetTotalSupply st (floorSub (cs_supply st) amount).
Definition AddCoins (st : CoinStore) (amount : Z) : CoinStore :=
  SetCoinsTotal st (satAdd (cs_coins st) amount).
Definition SubCoins (st : CoinStore) (amount : Z) : CoinStore :=
  SetCoinsTotal st (floorSub (cs_coins st) amount).

(** [loadSupply] and [loadCoinsTotal]: a missing or short value leaves the
    counter as it is. *)
Definition loadCounter (stored : option bytes) (current : Z) : Z :=
  match stored with
  | Some data => if Nat.ltb (length data) 8 then current else be_dec (take 8 data)
  | None => current
  end.

Definition loadSupply (st : CoinStore) : CoinStore :=
  mkCoinStore (cs_objects st) (loadCounter (cs_supplyKey st) (cs_supply st)) (cs_coins st)
              (cs_supplyKey st) (cs_coinsKey st).
Definition loadCoinsTotal (st : CoinStore) : CoinStore :=
  mkCoinStore (cs_objects st) (cs_supply st) (loadCounter (cs_coinsKey st) (cs_coins st))
              (cs_supplyKey st) (cs_coinsKey st).

(** ** Reading and rewriting a coin (consensus/coins.go) *)

Definition readCoinBalance (o : Object) : option Z :=
  if Nat.ltb (length (obj_content o)) 8 then None
  else Some (le_dec (slice 0 8 (obj_content o))).

Definition readCoinOwner (o : Object) : option Hash := hash32 (obj_owner o).

Definition readCoinReplication (o : Object) : Z := obj_replication o.

(** The table is rebuilt without its [parent_kind], which reads back as zero. *)
Definition writeCoinBalance (o : Object) (newBalance : Z) : Object :=
  mkObject (obj_id o) (obj_version o) (obj_owner o) (obj_replication o)
    (le_enc 8 newBalance ++ drop 8 (obj_content o)) (obj_fees o) 0.

Definition writeObjectOwner (o : Object) (newOwner : Hash) (newParentKind newVersion : Z) : Object :=
  mkObject (obj_id o) newVersion newOwner (obj_replication o) (obj_content o) (obj_fees o) newParentKind.

(** [deductCoinFee]: [None] is the error, otherwise what was taken and whether
    it covers the fee. *)
Definition deductCoinFee (st : CoinStore) (coinID : Hash) (fee : Z) : CoinStore * option (Z * bool) :=
  match GetObject st coinID with
  | None => (st, None)
  | Some data =>
      match readCoinBalance data with
      | None => (st, None)
      | Some balance =>
          if fee <=? balance then
            (SubCoins (SetObject st (writeCoinBalance data (balance -w fee))) fee, Some (fee, true))
          else
            (SubCoins (SetObject st (writeCoinBalance data 0)) balance, Some (balance, false))
      end
  end.

(** [creditCoin]: the boolean is [err == nil]. *)
Definition creditCoin (st : CoinStore) (coinID : Hash) (amount : Z) : CoinStore * bool :=
  if amount =? 0 then (st, true)
  else match GetObject st coinID with
  | None => (st, false)
  | Some data =>
      match readCoinBalance data with
      | None => (st, false)
      | Some balance =>
          let newBalance := balance +w amount in
          if newBalance <? balance then (st, false)
          else (AddCoins (SetObject st (writeCoinBalance data newBalance)) amount, true)
      end
  end.

(** [strictDebit] (consensus/commit.go). *)
Definition strictDebit (st : CoinStore) (coinID : Hash) (amount : Z) : CoinStore * bool :=
  match GetObject st coinID with
  | None => (st, false)
  | Some data =>
      if negb (readCoinReplication data =? 0) then (st, false)
      else match readCoinBalance data with
      | None => (st, false)
      | Some balance =>
          if balance <? amount then (st, false)
          else (SubCoins (SetObject st (writeCoinBalance data (balance -w amount))) amount, true)
      end
  end.

(** [State.ReparentObject]: the body is rewritten under the key it was found at. *)
Definition ReparentObject (st : CoinStore) (id : Hash) (newKind : Z) (newParent : Hash) (version : Z) : CoinStore :=
  match GetObject st id with
  | None => st
  | Some data => set_objects st (<[id := writeObjectOwner data newParent newKind version]> (cs_objects st))
  end.

(** ** Delegation positions *)

Definition delegationContentSize : nat := 40%nat.

Definition encodeDelegationContent (validator : Hash) (amount : Z) : bytes :=
  validator ++ le_enc 8 amount.

Definition decodeDelegationContent (content : bytes) : option (Hash * Z) :=
  if negb (Nat.eqb (length content) delegationContentSize) then None
  else Some (slice 0 32 content, le_dec (slice 32 8 content)).

Record delegatorShare := mkShare { ds_Delegator : Hash; ds_Amount : Z }.

Definition sumDelegations (dels : list delegatorShare) : Z :=
  foldl (fun total d => safeAdd total (ds_Amount d)) 0 dels.

(** [None] is the run-time panic of the division by a zero total. *)
Definition splitProRata (pool delegatedTotal : Z) (dels : list delegatorShare)
    : option (list delegatorShare) :=
  if (delegatedTotal =? 0) && negb (Nat.eqb (length dels) 0) then None
  else Some (map (fun d => mkShare (ds_Delegator d) (safeMul pool (ds_Amount d) / delegatedTotal)) dels).

Definition splitValidatorReward (reward selfStake commissionBPS : Z) (dels : list delegatorShare)
    : option (Z * list delegatorShare) :=
  let delegatedTotal := sumDelegations dels in
  let total := safeAdd selfStake delegatedTotal in
  if (total =? 0) || Nat.eqb (length dels) 0 then Some (reward, [])
  else
    let selfShare := safeMul reward selfStake / total in
    let delegatedPortion := reward -w selfShare in
    let commission := safeMul delegatedPortion commissionBPS / bpsMax in
    let toDelegators := delegatedPortion -w commission in
    delegatorAmounts ← splitProRata toDelegators delegatedTotal dels;
    Some (reward -w sumDelegations delegatorAmounts, delegatorAmounts).

(** [decodeDelegationPosition] and [DelegationsFor] (state/delegation.go): the
    store is iterated in ascending key order. *)
Definition decodeDelegationPosition (o : Object) (validator : Hash) : option delegatorShare :=
  if negb (Nat.eqb (length (obj_content o)) delegationContentSize) then None
  else if negb (bool_decide (slice 0 32 (obj_content o) = validator)) then None
  else if negb (Nat.eqb (length (obj_owner o)) 32) then None
  else Some (mkShare (obj_owner o) (le_dec (slice 32 8 (obj_content o)))).

Definition consensusKeyPrefixes : list bytes :=
  [str "v:"; str "r:"; str "m:"; str "t:"; str "d:"; str "objsig:"].

Definition isObjectKey (key : bytes) : bool :=
  Nat.eqb (length key) 32 &&
  negb (existsb (fun p => bool_decide (p `prefix_of` key)) consensusKeyPrefixes).

Definition keyOrder (a b : Hash * Object) : Prop := bytes_le (fst a) (fst b).

#[export] Instance keyOrder_dec : RelDecision keyOrder.
Proof. intros a b. unfold keyOrder. apply _. Defined.

Definition DelegationsFor (st : CoinStore) (validator : Hash) : list delegatorShare :=
  omap (fun kv => if isObjectKey (fst kv) then decodeDelegationPosition (snd kv) validator else None)
       (merge_sort keyOrder (map_to_list (cs_objects st))).

Section Positions.
Context (X : Crypto).

(** The position's ID: a domain-separated BLAKE3 hash of the pair. *)
Definition DelegationID (delegator validator : Hash) : Hash :=
  blake3 X (str "bluepods/delegation/v1" ++ delegator ++ validator).

Definition buildDelegationObject (delegator validator : Hash) (amount : Z) : Object :=
  mkObject (DelegationID delegator validator) 0 delegator 0
    (encodeDelegationContent validator amount) 0 0.

(** [readDelegationAmount] (consensus/commit.go). *)
Definition readDelegationAmount (st : CoinStore) (posID validator : Hash) : option Z :=
  match GetObject st posID with
  | None => None
  | Some data =>
      match decodeDelegationContent (obj_content data) with
      | Some (gotValidator, amount) =>
          if bool_decide (gotValidator = validator) then Some amount else None
      | None => None
      end
  end.

End Positions.

(** ** Counter lemmas *)

Lemma satAdd_min a b : is_u64 a -> is_u64 b -> satAdd a b = Z.min (a + b) max64.
Proof.
  intros Ha Hb. unfold satAdd. rewrite sub64_exact by u64_lia.
  destruct (Z.ltb_spec (max64 - b) a); [u64_lia|].
  rewrite add64_exact by u64_lia. u64_lia.
Qed.

Lemma floorSub_max a b : is_u64 a -> is_u64 b -> floorSub a b = Z.max (a - b) 0.
Proof.
  intros Ha Hb. unfold floorSub. destruct (Z.ltb_spec a b); [u64_lia|].
  rewrite sub64_exact by u64_lia. u64_lia.
Qed.

(** Restarting from the persisted counter recovers it. *)
Lemma loadCounter_stored v cur : is_u64 v -> loadCounter (Some (be_enc 8 v)) cur = v.
Proof.
  intros Hv. unfold loadCounter. rewrite length_be_enc.
  change (8 <? 8)%nat with false. cbv iota.
  rewrite take_ge by (rewrite length_be_enc; lia).
  apply be_dec_enc. unfold is_u64 in Hv. simpl. lia.
Qed.

(** ** Balances *)

Definition wf_object (id : Hash) (o : Object) : Prop :=
  obj_id o = id /\ length id = 32%nat /\ wf_bytes (obj_content o).

(** An object the protocol can use as a coin. *)
Definition is_coin (st : CoinStore) (id : Hash) : Prop :=
  exists o, GetObject st id = Some o /\ wf_object id o /\ (8 <= length (obj_content o))%nat.

Definition balanceOf (st : CoinStore) (id : Hash) : Z :=
  default 0 (o ← GetObject st id; readCoinBalance o).

Lemma readCoinBalance_u64 o b : wf_bytes (obj_content o) -> readCoinBalance o = Some b -> is_u64 b.
Proof.
  intros Hw. unfold readCoinBalance. destruct (Nat.ltb_spec (length (obj_content o)) 8); [done|].
  intros [= <-]. assert (Hs : wf_bytes (slice 0 8 (obj_content o)))
    by (apply Forall_take, Forall_drop; exact Hw).
  pose proof (le_dec_bound _ Hs) as Hb. unfold slice in Hb at 3.
  rewrite length_take, length_drop in Hb.
  replace (8 `min` (length (obj_content o) - 0))%nat with 8%nat in Hb by lia.
  unfold is_u64. simpl in Hb. lia.
Qed.

Lemma is_coin_balance st id :
  is_coin st id ->
  exists o, GetObject st id = Some o /\ wf_object id o /\ (8 <= length (obj_content o))%nat /\
    readCoinBalance o = Some (balanceOf st id) /\ is_u64 (balanceOf st id).
Proof.
  intros (o & Hg & Hw & Hl). exists o. split_and!; auto; unfold balanceOf; rewrite Hg; simpl;
    unfold readCoinBalance; destruct (Nat.ltb_spec (length (obj_content o)) 8); try lia; [done|].
  apply (readCoinBalance_u64 o); [apply Hw|]. unfold readCoinBalance.
  destruct (Nat.ltb_spec (length (obj_content o)) 8); [lia|done].
Qed.

Lemma balanceOf_u64 st id : is_coin st id -> is_u64 (balanceOf st id).
Proof. intros H. by destruct (is_coin_balance st id H) as (? & ? & ? & ? & ? & ?). Qed.

Lemma readCoinBalance_write o b : is_u64 b -> readCoinBalance (writeCoinBalance o b) = Some b.
Proof.
  intros Hb. unfold readCoinBalance, writeCoinBalance. cbn [obj_content].
  rewrite length_app, length_le_enc.
  destruct (Nat.ltb_spec (8 + length (drop 8 (obj_content o))) 8); [lia|].
  rewrite slice_app_l by apply length_le_enc.
  rewrite le_dec_enc; [done|]. unfold is_u64 in Hb. simpl. lia.
Qed.

Lemma extractObjectID_wf id o : wf_object id o -> extractObjectID o = id.
Proof.
  intros (Hi & Hl & _). unfold extractObjectID. rewrite Hi.
  destruct (hash32 id) as [h|] eqn:E; [by apply hash32_Some in E as [-> _]|].
  unfold hash32 in E. by rewrite decide_True in E.
Qed.

Lemma wf_writeCoinBalance id o b : wf_object id o -> wf_object id (writeCoinBalance o b).
Proof.
  intros (Hi & Hl & Hw). split_and!; auto. unfold writeCoinBalance, wf_bytes. cbn [obj_content].
  apply Forall_app. split; [apply wf_le_enc|].
  by apply Forall_drop.
Qed.

(** Rewriting one balance changes that balance only and keeps every coin a coin. *)
Lemma write_balance st id o b c :
  GetObject st id = Some o -> wf_object id o -> is_u64 b ->
  let st' := SetCoinsTotal (SetObject st (writeCoinBalance o b)) c in
  (forall x, balanceOf st' x = if decide (x = id) then b else balanceOf st x) /\
  (forall x, is_coin st x -> is_coin st' x).
Proof.
  intros Hg Hw Hb. cbv zeta.
  assert (Hid : extractObjectID (writeCoinBalance o b) = id)
    by (apply extractObjectID_wf; by apply wf_writeCoinBalance).
  assert (Hl : forall x, GetObject (SetCoinsTotal (SetObject st (writeCoinBalance o b)) c) x =
    if decide (x = id) then Some (writeCoinBalance o b) else GetObject st x).
  { intros x. unfold GetObject, SetObject, SetCoinsTotal, set_objects. simpl. rewrite Hid, lookup_insert.
    destruct (decide (x = id)) as [->|]; [by rewrite decide_True|by rewrite decide_False by congruence]. }
  split.
  - intros x. unfold balanceOf. rewrite Hl. case_decide; [|done].
    change (default 0 (readCoinBalance (writeCoinBalance o b)) = b). by rewrite readCoinBalance_write.
  - intros x (o' & Hg' & Hw' & Hl'). unfold is_coin. rewrite Hl.
    destruct (decide (x = id)) as [->|]; [|by exists o'].
    exists (writeCoinBalance o b). split; [done|]. split; [by apply wf_writeCoinBalance|].
    unfold writeCoinBalance. cbn [obj_content]. rewrite length_app, length_le_enc. lia.
Qed.

Lemma write_other st id o b c x :
  wf_object id o -> x <> id ->
  GetObject (SetCoinsTotal (SetObject st (writeCoinBalance o b)) c) x = GetObject st x.
Proof.
  intros Hw Hx. unfold GetObject, SetObject, SetCoinsTotal, set_objects. simpl.
  rewrite (extractObjectID_wf id) by by apply wf_writeCoinBalance. by rewrite lookup_insert_ne.
Qed.

(** ** The coin counter is the sum of the balances

    Coins carry no type tag, so [coins_total] cannot be recomputed by scanning
    the store; with [K] the coins in circulation, it is the sum over [K] after
    every flow through them. *)

Record coins_ok (K : gset Hash) (st : CoinStore) : Prop := {
  co_coin : forall id, id ∈ K -> is_coin st id;
  co_sum : cs_coins st = setSum (balanceOf st) K;
  co_bound : cs_coins st <= max64;
}.

Section Flows.
Context (K : gset Hash).
Implicit Types (st : CoinStore) (id : Hash).

Lemma coins_ok_bounds st id :
  coins_ok K st -> id ∈ K -> 0 <= balanceOf st id <= cs_coins st /\ is_u64 (cs_coins st).
Proof.
  intros [Hc Hs Hb] Hid.
  assert (Hn : forall x, x ∈ K -> 0 <= balanceOf st x) by (intros x Hx; apply (balanceOf_u64 st x (Hc x Hx))).
  pose proof (setSum_ge _ K id Hn Hid). pose proof (Hn id Hid). unfold is_u64. lia.
Qed.

(** One balance rewritten, the counter moved by the same amount. *)
Lemma coins_ok_write st id o b c :
  coins_ok K st -> id ∈ K -> GetObject st id = Some o -> wf_object id o -> is_u64 b ->
  c = cs_coins st - balanceOf st id + b -> c <= max64 ->
  coins_ok K (SetCoinsTotal (SetObject st (writeCoinBalance o b)) c).
Proof.
  intros [Hc Hs Hb] Hid Hg Hw Hbu -> Hle.
  destruct (write_balance st id o b (cs_coins st - balanceOf st id + b) Hg Hw Hbu) as [Hbal Hcoin].
  split; [auto| |exact Hle]. cbn [cs_coins SetCoinsTotal].
  rewrite (setSum_update (balanceOf st) _ K id Hid).
  - rewrite Hbal, decide_True by done. lia.
  - intros x Hx. by rewrite Hbal, decide_False.
Qed.

(** What each flow does to a coin of [K]; the other balances keep. *)
Lemma deductCoinFee_spec st id fee :
  coins_ok K st -> id ∈ K -> is_u64 fee ->
  exists st', deductCoinFee st id fee = (st', Some (Z.min fee (balanceOf st id), fee <=? balanceOf st id)) /\
    coins_ok K st' /\ cs_supply st' = cs_supply st /\
    cs_coins st' = cs_coins st - Z.min fee (balanceOf st id) /\
    (forall x, balanceOf st' x = if decide (x = id) then balanceOf st id - Z.min fee (balanceOf st id) else balanceOf st x) /\
    (forall x, is_coin st x -> is_coin st' x) /\
    (forall x, x <> id -> GetObject st' x = GetObject st x).
Proof.
  intros Hok Hid Hf. destruct (is_coin_balance st id (co_coin _ _ Hok id Hid)) as (o & Hg & Hw & _ & Hr & Hu).
  destruct (coins_ok_bounds st id Hok Hid) as [Hle Hcu]. pose proof (co_bound _ _ Hok) as Hmax.
  unfold deductCoinFee. rewrite Hg, Hr. destruct (Z.leb_spec fee (balanceOf st id)) as [H|H].
  - rewrite Z.min_l by done. eexists. split; [done|].
    rewrite sub64_exact by u64_lia. unfold SubCoins. cbn [cs_coins SetObject set_objects].
    rewrite floorSub_max, Z.max_l by u64_lia.
    assert (Hb : is_u64 (balanceOf st id - fee)) by u64_lia.
    split; [apply (coins_ok_write st id); auto; u64_lia|].
    destruct (write_balance st id o _ (cs_coins st - fee) Hg Hw Hb) as [Hbal Hcoin].
    split_and!; auto. intros x Hx. by apply write_other with id.
  - rewrite Z.min_r by lia. eexists. split; [done|].
    unfold SubCoins. cbn [cs_coins SetObject set_objects].
    rewrite floorSub_max, Z.max_l by u64_lia.
    assert (Hb : is_u64 0) by u64_lia.
    split; [apply (coins_ok_write st id); auto; u64_lia|].
    destruct (write_balance st id o _ (cs_coins st - balanceOf st id) Hg Hw Hb) as [Hbal Hcoin].
    split_and!; auto; [|intros x Hx; by apply write_other with id].
    intros x. rewrite Hbal. case_decide; [lia|done].
Qed.

Lemma creditCoin_spec st id amount :
  coins_ok K st -> id ∈ K -> is_u64 amount -> cs_coins st + amount <= max64 ->
  exists st', creditCoin st id amount = (st', true) /\
    coins_ok K st' /\ cs_supply st' = cs_supply st /\ cs_coins st' = cs_coins st + amount /\
    (forall x, balanceOf st' x = if decide (x = id) then balanceOf st id + amount else balanceOf st x) /\
    (forall x, is_coin st x -> is_coin st' x).
Proof.
  intros Hok Hid Ha Hsum. destruct (is_coin_balance st id (co_coin _ _ Hok id Hid)) as (o & Hg & Hw & _ & Hr & Hu).
  destruct (coins_ok_bounds st id Hok Hid) as [Hle Hcu].
  unfold creditCoin. destruct (Z.eqb_spec amount 0) as [->|Hne].
  - exists st. split_and!; auto; [lia|]. intros x. case_decide; [subst; lia|done].
  - rewrite Hg, Hr. cbv zeta. rewrite add64_exact by u64_lia.
    destruct (Z.ltb_spec (balanceOf st id + amount) (balanceOf st id)); [u64_lia|].
    eexists. split; [done|]. unfold AddCoins. cbn [cs_coins SetObject set_objects].
    rewrite satAdd_min, Z.min_l by u64_lia.
    assert (Hb : is_u64 (balanceOf st id + amount)) by u64_lia.
    split; [apply (coins_ok_write st id); auto; u64_lia|].
    destruct (write_balance st id o _ (cs_coins st + amount) Hg Hw Hb) as [Hbal Hcoin]. auto.
Qed.

Lemma strictDebit_spec st id amount :
  coins_ok K st -> id ∈ K -> is_u64 amount ->
  exists st' ok, strictDebit st id amount = (st', ok) /\ coins_ok K st' /\ cs_supply st' = cs_supply st /\
    (ok = false -> st' = st) /\
    (ok = true -> amount <= balanceOf st id /\ cs_coins st' = cs_coins st - amount /\
      (forall x, balanceOf st' x = if decide (x = id) then balanceOf st id - amount else balanceOf st x) /\
      (forall x, is_coin st x -> is_coin st' x)).
Proof.
  intros Hok Hid Hf. destruct (is_coin_balance st id (co_coin _ _ Hok id Hid)) as (o & Hg & Hw & _ & Hr & Hu).
  destruct (coins_ok_bounds st id Hok Hid) as [Hle Hcu]. pose proof (co_bound _ _ Hok) as Hmax.
  unfold strictDebit. rewrite Hg. destruct (readCoinReplication o =? 0); cbn [negb].
  2:{ exists st, false. by split_and!. }
  rewrite Hr. destruct (Z.ltb_spec (balanceOf st id) amount) as [H|H].
  - exists st, false. by split_and!.
  - eexists _, true. split; [done|].
    rewrite sub64_exact by u64_lia. unfold SubCoins. cbn [cs_coins SetObject set_objects].
    rewrite floorSub_max, Z.max_l by u64_lia.
    assert (Hb : is_u64 (balanceOf st id - amount)) by u64_lia.
    split; [apply (coins_ok_write st id); auto; u64_lia|].
    destruct (write_balance st id o _ (cs_coins st - amount) Hg Hw Hb) as [Hbal Hcoin].
    split_and!; auto. done.
Qed.

End Flows.

(** ** Sequences of flows *)

Inductive CoinFlow :=
| FDeduct (id : Hash) (fee : Z)
| FCredit (id : Hash) (amount : Z)
| FDebit (id : Hash) (amount : Z).

Definition flowCoin (f : CoinFlow) : Hash :=
  match f with FDeduct id _ | FCredit id _ | FDebit id _ => id end.
Definition flowAmount (f : CoinFlow) : Z :=
  match f with FDeduct _ a | FCredit _ a | FDebit _ a => a end.
Definition flowCredit (f : CoinFlow) : Z := match f with FCredit _ a => a | _ => 0 end.

Definition runFlow (st : CoinStore) (f : CoinFlow) : CoinStore :=
  match f with
  | FDeduct id fee => fst (deductCoinFee st id fee)
  | FCredit id amount => fst (creditCoin st id amount)
  | FDebit id amount => fst (strictDebit st id amount)
  end.

Lemma runFlow_ok K st f :
  coins_ok K st -> flowCoin f ∈ K -> is_u64 (flowAmount f) -> cs_coins st + flowCredit f <= max64 ->
  coins_ok K (runFlow st f) /\ cs_supply (runFlow st f) = cs_supply st /\
  cs_coins (runFlow st f) <= cs_coins st + flowCredit f.
Proof.
  intros Hok Hid Ha Hle. destruct f as [id a|id a|id a]; simpl in *.
  - destruct (deductCoinFee_spec K st id a Hok Hid Ha) as (st' & -> & Hok' & Hs & Hc & _). simpl.
    destruct (coins_ok_bounds K st id Hok Hid). split_and!; auto. rewrite Hc. u64_lia.
  - destruct (creditCoin_spec K st id a Hok Hid Ha Hle) as (st' & -> & Hok' & Hs & Hc & _). simpl.
    split_and!; auto. lia.
  - destruct (strictDebit_spec K st id a Hok Hid Ha) as (st' & ok & -> & Hok' & Hs & Hf & Ht). simpl.
    split_and!; auto. destruct ok; [destruct (Ht eq_refl) as (_ & -> & _); u64_lia|].
    rewrite Hf by done. lia.
Qed.

(** After any sequence of fee deductions, credits and debits on the circulating
    coins, the coin counter is the sum of their balances, no balance is negative and the
    supply is unchanged. *)
Theorem coin_flows_exact K st flows :
  coins_ok K st ->
  Forall (fun f => flowCoin f ∈ K /\ is_u64 (flowAmount f)) flows ->
  cs_coins st + sumZ (map flowCredit flows) <= max64 ->
  let st' := foldl runFlow st flows in
  cs_coins st' = setSum (balanceOf st') K /\ cs_supply st' = cs_supply st /\
  (forall id, id ∈ K -> 0 <= balanceOf st' id).
Proof.
  intros Hok Hf Hle. cbv zeta.
  assert (H : coins_ok K (foldl runFlow st flows) /\ cs_supply (foldl runFlow st flows) = cs_supply st).
  { revert st Hok Hle. induction Hf as [|f flows [Hid Ha] Hfs IH]; intros st Hok Hle; simpl; [done|].
    simpl in Hle. assert (0 <= sumZ (map flowCredit flows)).
    { apply sumZ_map_nonneg. intros x Hx. rewrite Forall_forall in Hfs.
      destruct (Hfs x Hx) as [_ Hu]. destruct x; simpl in *; u64_lia. }
    destruct (runFlow_ok K st f Hok Hid Ha) as (Hok' & Hs' & Hc'); [lia|].
    destruct (IH (runFlow st f) Hok') as [H1 H2]; [lia|]. split; [done|]. congruence. }
  destruct H as [[Hc Hs Hb] Hsup]. split_and!; auto.
  intros id Hid. apply (balanceOf_u64 _ _ (Hc id Hid)).
Qed.

(** Two coins: a fee, a credit and an under-funded debit. *)
Definition sampleCoin (id : Hash) (balance : Z) : Object := mkObject id 0 (replicate 32 7) 0 (le_enc 8 balance) 0 0.
Definition sampleStore : CoinStore :=
  mkCoinStore (<[replicate 32 1 := sampleCoin (replicate 32 1) 100]>
    (<[replicate 32 2 := sampleCoin (replicate 32 2) 5]> ∅)) 105 105 None None.
Definition sampleCoins : gset Hash := {[ replicate 32 1; replicate 32 2 ]}.

Lemma sampleStore_ok : coins_ok sampleCoins sampleStore.
Proof.
  split; [|vm_compute; reflexivity|vm_compute; discriminate].
  intros id Hid. unfold sampleCoins in Hid. apply elem_of_union in Hid.
  rewrite !elem_of_singleton in Hid. destruct Hid as [-> | ->].
  - exists (sampleCoin (replicate 32 1) 100). split; [vm_compute; reflexivity|].
    split; [|vm_compute; lia]. split_and!; [done..|]. apply wf_le_enc.
  - exists (sampleCoin (replicate 32 2) 5). split; [vm_compute; reflexivity|].
    split; [|vm_compute; lia]. split_and!; [done..|]. apply wf_le_enc.
Qed.

Theorem coin_flows_exact_witness :
  let flows := [FDeduct (replicate 32 1) 30; FCredit (replicate 32 2) 9; FDebit (replicate 32 2) 50] in
  let st' := foldl runFlow sampleStore flows in
  cs_coins st' = 84 /\ cs_coins st' = setSum (balanceOf st') sampleCoins.
Proof.
  cbv zeta. split; [vm_compute; reflexivity|].
  refine (proj1 (coin_flows_exact sampleCoins sampleStore
    [FDeduct (replicate 32 1) 30; FCredit (replicate 32 2) 9; FDebit (replicate 32 2) 50] _ _ _)).
  - exact sampleStore_ok.
  - repeat apply List.Forall_cons; try apply List.Forall_nil; split; unfold is_u64; simpl; try lia;
      apply (bool_decide_unpack _); vm_compute; exact I.
  - vm_compute. discriminate.
Defined.

(** ** The reward split *)

Lemma sumDelegations_exact dels :
  Forall (fun d => is_u64 (ds_Amount d)) dels -> sumZ (map ds_Amount dels) <= max64 ->
  sumDelegations dels = sumZ (map ds_Amount dels).
Proof.
  intros Hf Hs. rewrite Forall_forall in Hf.
  destruct (safeAdd_fold ds_Amount dels 0) as [_ E]; [u64_lia|auto|].
  unfold sumDelegations. rewrite E. lia.
Qed.

(** A saturating proportional share never exceeds the exact one. *)
Lemma share_le pool a total : is_u64 pool -> is_u64 a -> 0 < total -> a <= total ->
  0 <= safeMul pool a / total <= pool.
Proof.
  intros Hp Ha Ht Hle. pose proof (safeMul_le pool a Hp Ha).
  pose proof (safeMul_u64 pool a Hp Ha). unfold is_u64 in *. split.
  - apply Z.div_pos; lia.
  - apply Z.div_le_upper_bound; [lia|]. nia.
Qed.

Lemma proRata_sum pool total dels :
  is_u64 pool -> 0 < total -> Forall (fun d => is_u64 (ds_Amount d)) dels ->
  total * sumZ (map (fun d => safeMul pool (ds_Amount d) / total) dels) <= pool * sumZ (map ds_Amount dels).
Proof.
  intros Hp Ht. induction 1 as [|d dels Hd Hds IH]; simpl; [lia|].
  pose proof (safeMul_le pool _ Hp Hd).
  pose proof (Z.mul_div_le (safeMul pool (ds_Amount d)) total Ht). nia.
Qed.

Definition sumShares (l : list delegatorShare) : Z := sumZ (map ds_Amount l).

Lemma splitProRata_bound pool dels :
  is_u64 pool -> Forall (fun d => is_u64 (ds_Amount d)) dels ->
  0 < sumShares dels -> sumShares dels <= max64 ->
  exists out, splitProRata pool (sumDelegations dels) dels = Some out /\
    length out = length dels /\ Forall (fun d => is_u64 (ds_Amount d)) out /\
    sumDelegations out = sumShares out /\ 0 <= sumShares out <= pool.
Proof.
  intros Hp Hd Hpos Hmax. rewrite (sumDelegations_exact dels Hd Hmax). fold (sumShares dels).
  set (D := sumShares dels) in *. unfold splitProRata.
  destruct (Z.eqb_spec D 0); [lia|]. simpl. eexists. split; [done|].
  assert (Hin : forall d, d ∈ dels -> ds_Amount d <= D).
  { intros d Hdin. unfold D, sumShares. apply (sumZ_elem_le ds_Amount); [|done].
    intros y Hy. rewrite Forall_forall in Hd. apply (Hd y Hy). }
  set (out := map _ dels).
  assert (Hs : sumShares out = sumZ (map (fun d => safeMul pool (ds_Amount d) / D) dels)).
  { unfold sumShares, out. by rewrite map_map. }
  assert (Ho : Forall (fun d => is_u64 (ds_Amount d)) out).
  { unfold out. rewrite Forall_map, Forall_forall. intros d Hdin. simpl.
    rewrite Forall_forall in Hd. pose proof (share_le pool _ D Hp (Hd d Hdin) Hpos (Hin d Hdin)). u64_lia. }
  assert (Hle : 0 <= sumShares out <= pool).
  { split.
    - apply sumZ_map_nonneg. intros y Hy. rewrite Forall_forall in Ho. apply (Ho y Hy).
    - rewrite Hs. pose proof (proRata_sum pool D dels Hp Hpos Hd) as Hx. fold (sumShares dels) in Hx.
      fold D in Hx. nia. }
  split; [by unfold out; rewrite length_map|]. split; [done|].
  split; [|done]. apply sumDelegations_exact; [done|]. fold (sumShares out). u64_lia.
Qed.

Lemma splitValidatorReward_conserves reward selfStake commissionBPS dels :
  is_u64 reward -> is_u64 selfStake -> 0 <= commissionBPS <= bpsMax ->
  Forall (fun d => 0 < ds_Amount d /\ is_u64 (ds_Amount d)) dels -> selfStake + sumShares dels <= max64 ->
  exists validatorAmount payouts,
    splitValidatorReward reward selfStake commissionBPS dels = Some (validatorAmount, payouts) /\
    validatorAmount + sumShares payouts = reward /\
    safeMul reward selfStake / Z.max 1 (selfStake + sumShares dels) <= validatorAmount /\
    Forall (fun d => 0 <= ds_Amount d) payouts /\ length payouts ∈ [0%nat; length dels].
Proof.
  intros Hr Hs Hc Hd Hsum.
  assert (Hd' : Forall (fun d => is_u64 (ds_Amount d)) dels) by (eapply Forall_impl; [done|]; simpl; tauto).
  assert (H0 : 0 <= sumShares dels).
  { apply sumZ_map_nonneg. intros y Hy. rewrite Forall_forall in Hd'. apply (Hd' y Hy). }
  unfold splitValidatorReward. cbv zeta. rewrite (sumDelegations_exact dels Hd'), safeAdd_min;
    fold (sumShares dels); try u64_lia.
  rewrite Z.min_l by u64_lia. set (T := selfStake + sumShares dels) in *.
  destruct (decide (length dels = 0%nat)) as [El|El].
  { destruct dels; [|done]. rewrite orb_true_r. exists reward, []. split; [done|].
    split; [unfold sumShares; simpl; lia|].
    split; [apply share_le; unfold T in *; u64_lia|]. split; [constructor|left]. }
  assert (Hpos : 0 < sumShares dels).
  { destruct Hd as [|d0 dels0 [Hp0 _] Hrest]; [done|]. unfold sumShares. simpl.
    assert (0 <= sumZ (map ds_Amount dels0)); [|lia].
    apply sumZ_map_nonneg. intros y Hy. rewrite Forall_forall in Hrest. destruct (Hrest y Hy). lia. }
  assert (HT : 0 < T) by (unfold T; u64_lia). assert (HsT : selfStake <= T) by (unfold T; lia).
  destruct (Z.eqb_spec T 0) as [|_]; [lia|].
  destruct (Nat.eqb_spec (length dels) 0) as [E|_]; [done|].
  cbn [orb]. pose proof (share_le reward selfStake T Hr Hs HT HsT) as Hself.
  set (self := safeMul reward selfStake / T) in *. rewrite (sub64_exact reward self) by u64_lia.
  assert (Hp : is_u64 (reward - self)) by u64_lia.
  assert (Hcu : is_u64 commissionBPS) by (unfold bpsMax in Hc; u64_lia).
  pose proof (share_le (reward - self) commissionBPS bpsMax Hp Hcu ltac:(reflexivity) ltac:(lia)) as Hcom.
  set (com := safeMul (reward - self) commissionBPS / bpsMax) in *.
  rewrite (sub64_exact (reward - self) com) by u64_lia.
  destruct (splitProRata_bound (reward - self - com) dels) as (out & Hout & Hlen & Hoa & Hos & Hole);
    auto; [u64_lia|unfold T in Hsum; u64_lia|].
  rewrite (sumDelegations_exact dels Hd') in Hout by (fold (sumShares dels); unfold T in Hsum; u64_lia). fold (sumShares dels) in Hout. rewrite Hout.
  simpl. rewrite Hos. rewrite sub64_exact by u64_lia. exists (reward - sumShares out), out.
  split; [done|]. split; [lia|]. split; [rewrite Z.max_r by u64_lia; fold self; lia|].
  split; [eapply Forall_impl; [exact Hoa|]; simpl; u64_lia|rewrite Hlen; right; left].
Qed.

(** Any 40-byte object that starts with a validator's key is taken for a
    position; one with a zero amount, and no other, divides by zero. *)
Theorem zero_position_panics :
  let o := mkObject (replicate 32 5) 0 (replicate 32 7) 0 (replicate 32 9 ++ le_enc 8 0) 0 0 in
  decodeDelegationPosition o (replicate 32 9) = Some (mkShare (replicate 32 7) 0) /\
  splitValidatorReward 100 50 1000 [mkShare (replicate 32 7) 0] = None.
Proof. split; vm_compute; reflexivity. Qed.

Theorem writeCoinBalance_drops_parent_kind :
  obj_parent_kind (writeCoinBalance (mkObject (replicate 32 1) 4 (replicate 32 2) 0 (le_enc 8 10) 0 1) 9) = 0.
Proof. reflexivity. Qed.
