(* ===== verification/Ledger.v ===== *)
(** * The ledger the commit path mutates (internal/consensus/dag.go, commit.go)

    The part of [DAG] the transaction handlers read and write: the tracker, the
    domain registry, the coin store, the live validator set, the feed of the
    authenticated index and the output channel.  Parameters that are code
    outside the repository or functions injected at construction are the fields
    of [Env]; [None] as a result of an operation is a run-time panic (a nil
    store, nil fee parameters or a division by zero), never a rejection. *)

From S2P Require Import Prelude Types Fees Validators Stake Thermostat Storage Tracker Domains Coins.

(** Construction-time parameters of the DAG. *)
Record Config := mkConfig {
  systemPod : Hash;
  feeParams : option FeeParams;
  minStake : Z;
  minValidators : Z;
  commissionBPS : Z;
  votingCapMille : Z;
  graceRounds : Z;
  bufferRounds : Z;
  epochLength : Z;
  maxChurnPerEpoch : Z;
  thermostat : thermostatParams;
}.

(** [FailReason] and [CommittedTx] (types.go). *)
Inductive FailReason :=
| FailNone | FailVersion | FailFee | FailOwner | FailAuth | FailRevert | FailExpired | FailOps.

Record CommittedTx := mkCommitted {
  ct_Hash : Hash;
  ct_Success : bool;
  ct_Reason : FailReason;
  ct_Function : bytes;
  ct_Sender : Hash;
}.

(** One call of the [indexer] interface. *)
Inductive IndexFeed :=
| ApplyEdge (child : Hash) (kind : Z) (parent : Hash)
| RemoveObject (child : Hash)
| ApplyDomain (name : bytes) (leaf : domainLeafView)
| RemoveDomain (name : bytes)
| RebuildValidators (epoch : Z) (entries : list ValidatorInfo)
| SetFrontier (round : Z).

Record Ledger (M : Type) := mkLedger {
  l_tracker : M;
  l_domains : option M;                 (* None: no registry wired *)
  l_coins : option CoinStore;           (* None: no fee system wired *)
  l_validators : ValidatorSet;
  l_index : option (list IndexFeed);    (* None: no indexer wired *)
  l_committed : list CommittedTx;       (* what the output channel received *)
}.

Arguments mkLedger {M}. Arguments l_tracker {M}. Arguments l_domains {M}.
Arguments l_coins {M}. Arguments l_validators {M}. Arguments l_index {M}.
Arguments l_committed {M}.

Section Setters.
Context {M : Type}.
Implicit Type L : Ledger M.

Definition set_tracker L (t : M) : Ledger M :=
  mkLedger t (l_domains L) (l_coins L) (l_validators L) (l_index L) (l_committed L).
Definition set_domains L (d : option M) : Ledger M :=
  mkLedger (l_tracker L) d (l_coins L) (l_validators L) (l_index L) (l_committed L).
Definition set_coins L (c : option CoinStore) : Ledger M :=
  mkLedger (l_tracker L) (l_domains L) c (l_validators L) (l_index L) (l_committed L).
Definition set_validators L (v : ValidatorSet) : Ledger M :=
  mkLedger (l_tracker L) (l_domains L) (l_coins L) v (l_index L) (l_committed L).

(** [if d.indexer != nil { d.indexer.F(...) }]. *)
Definition feed L (f : IndexFeed) : Ledger M :=
  mkLedger (l_tracker L) (l_domains L) (l_coins L) (l_validators L)
           ((fun log => log ++ [f]) <$> l_index L) (l_committed L).

(** [emitTransaction]. *)
Definition emitTransaction L (tx : Transaction) (success : bool) (reason : FailReason) : Ledger M :=
  mkLedger (l_tracker L) (l_domains L) (l_coins L) (l_validators L) (l_index L)
    (l_committed L ++ [mkCommitted (default zeroHash (hash32 (tx_Hash tx))) success reason
                         (tx_FunctionName tx) (default zeroHash (hash32 (tx_Sender tx)))]).

End Setters.

(** ** Injected functions *)

Record Env (M : Type) := mkEnv {
  crypto : Crypto;
  verifyATXProofs : option (AttestedTransaction -> Z -> bool);
  verifyATXProofsBatch : option (list AttestedTransaction -> Z -> list bool);
  isHolder : option (Hash -> Z -> bool);            (* rendezvous sharding *)
  computeHolders : Hash -> Z -> list Hash;
  executor : option (Ledger M -> AttestedTransaction -> Ledger M * bool);
  onObjectDeleted : CoinStore -> Hash -> CoinStore;      (* nil: the identity *)
  onObjectReparented : CoinStore -> Hash -> Z -> Hash -> Z -> CoinStore;
}.

Arguments crypto {M}. Arguments verifyATXProofs {M}. Arguments verifyATXProofsBatch {M}.
Arguments isHolder {M}.
Arguments computeHolders {M}. Arguments executor {M}. Arguments onObjectDeleted {M}.
Arguments onObjectReparented {M}.

(** What the commit path assumes of the injected body hooks: they touch object
    bodies, never the counters.  The hooks cmd/node installs are instances. *)
Class BodyHooks {M} (E : Env M) : Prop := {
  hook_deleted : forall st id,
    cs_supply (onObjectDeleted E st id) = cs_supply st /\ cs_coins (onObjectDeleted E st id) = cs_coins st;
  hook_reparented : forall st id k p v,
    cs_supply (onObjectReparented E st id k p v) = cs_supply st /\
    cs_coins (onObjectReparented E st id k p v) = cs_coins st;
}.

Section LedgerOps.
Context {M : Type} `{Pebble M} (E : Env M) (c : Config).
Implicit Type L : Ledger M.

(** [mustFeeParams]: panics when unset. *)
Definition mustFeeParams : option FeeParams := feeParams c.

Definition maxTermEpochs : option Z := MaxTermEpochs <$> mustFeeParams.
Definition graceEpochs : option Z := GraceEpochs <$> mustFeeParams.

(** [settleDeletion]: the ledger after it and the refunded amount. *)
Definition settleDeletion L (objID gasCoinID : Hash) (hasGasCoin : bool) : option (Ledger M * Z) :=
  let deposit := getFees (l_tracker L) objID in
  let L := set_tracker L (deleteObject (l_tracker L) objID) in
  let L := feed L (RemoveObject objID) in
  if deposit =? 0 then Some (L, 0)
  else
    params ← mustFeeParams;
    st ← l_coins L;
    if negb hasGasCoin || (StorageRefundBPS params =? 0) then
      Some (set_coins L (Some (SubSupply st deposit)), 0)
    else
      let refund := (deposit *w StorageRefundBPS params) / bpsMax in
      let burned := deposit -w refund in
      match creditCoin st gasCoinID refund with
      | (_, false) => Some (set_coins L (Some (SubSupply st deposit)), 0)
      | (st, true) => Some (set_coins L (Some (SubSupply st burned)), refund)
      end.

(** ** Domain leaves *)

Definition writeDomainLeaf L (name : bytes) (leaf : domainLeafView) : option (Ledger M) :=
  db ← l_domains L;
  Some (feed (set_domains L (Some (SetDomainLeaf db name leaf))) (ApplyDomain name leaf)).

(** [sweepExpiredDomains]: names past their grace window, in sorted order. *)
Definition sweepName L (name : bytes) : Ledger M :=
  match l_domains L with
  | Some db => feed (set_domains L (Some (DeleteDomainLeaf db name))) (RemoveDomain name)
  | None => L
  end.

Definition expiredNames (db : M) (newEpoch grace : Z) : list bytes :=
  map de_Name (filter (fun e => safeAdd (expiry (de_Leaf e)) grace <? newEpoch = true) (ExportDomains db)).

Definition sweepExpiredDomains L (newEpoch : Z) : option (Ledger M) :=
  match l_domains L with
  | None => Some L
  | Some db =>
      grace ← graceEpochs;
      Some (foldl sweepName L (sortHashes (expiredNames db newEpoch grace)))
  end.

End LedgerOps.

(** ** The supply identity

    Every token is a coin, bonded stake, a locked storage deposit or a fee in
    flight.  [slack] is what the counters leave for the fees in flight; each
    handler is proved to move it by exactly the fee it pools. *)

Definition bonded (vs : ValidatorSet) : Z := bondedSum vs.
Definition deposits (T : gmap Hash Entry) : Z := mapSum e_fees T.

Definition slack (st : CoinStore) (vs : ValidatorSet) (T : gmap Hash Entry) : Z :=
  cs_supply st - cs_coins st - bonded vs - deposits T.

Lemma deposits_nonneg T : wf_tracker T -> 0 <= deposits T.
Proof. intros Hw. apply mapSum_nonneg. intros id e He. apply (Hw id e He). Qed.

Lemma deposits_adjust T k p d : deposits (a_adjust T k p d) = deposits T.
Proof.
  unfold a_adjust. destruct (k =? objectParentKind); [|done]. unfold deposits.
  destruct (T !! p) as [e|] eqn:Ep.
  - assert (alter (set_children (fun c => c + d)) p T = <[p := set_children (fun c => c + d) e]> T) as ->.
    { apply map_eq. intros x. rewrite lookup_alter, lookup_insert.
      destruct (decide (p = x)) as [->|]; [by rewrite Ep|done]. }
    rewrite mapSum_insert, Ep. simpl. lia.
  - rewrite alter_id; [done|]. intros x Hx. congruence.
Qed.

Lemma deposits_rebind T old k p : deposits (a_rebind T old k p) = deposits T.
Proof.
  unfold a_rebind. destruct old as [[k' p']|]; [|apply deposits_adjust].
  destruct (_ && _); [done|]. by rewrite !deposits_adjust.
Qed.

Lemma deposits_track T id v r f k p :
  deposits (a_track T id v r f k p) = deposits T - default 0 (e_fees <$> T !! id) + f.
Proof. unfold a_track. rewrite deposits_rebind. unfold deposits. by rewrite mapSum_insert. Qed.

Lemma deposits_setParent T id k p : deposits (a_setParent T id k p) = deposits T.
Proof. unfold a_setParent. rewrite deposits_track. destruct (T !! id); simpl; lia. Qed.

Lemma deposits_bump T id : deposits (a_bump T id) = deposits T.
Proof. unfold a_bump. rewrite deposits_track. destruct (T !! id); simpl; lia. Qed.

Lemma deposits_delete T id :
  deposits (a_delete T id) = deposits T - default 0 (e_fees <$> T !! id).
Proof.
  unfold a_delete, a_edge. destruct (T !! id) as [e|] eqn:Ee; simpl; [|lia].
  rewrite deposits_adjust. unfold deposits. by rewrite (mapSum_delete _ _ _ _ Ee).
Qed.

Lemma deposits_ge T id e : wf_tracker T -> T !! id = Some e -> e_fees e <= deposits T.
Proof. intros Hw He. apply (mapSum_ge e_fees T id e); [|done]. intros x y Hy. apply (Hw x y Hy). Qed.

#[export] Hint Rewrite deposits_setParent deposits_bump deposits_delete : go.

(** Every term of the identity in range: no counter saturates or floors. *)
Record ledger_ok (st : CoinStore) (vs : ValidatorSet) (T : gmap Hash Entry) : Prop := {
  lo_supply : is_u64 (cs_supply st);
  lo_coins : 0 <= cs_coins st;
  lo_bonded : 0 <= bonded vs;
  lo_slack : 0 <= slack st vs T;
}.

Lemma wf_entry_delete T id : wf_tracker T -> wf_tracker (a_delete T id).
Proof.
  intros Hw. unfold a_delete. destruct (a_edge T id) as [[k q]|]; [|done].
  assert (Hd : wf_tracker (delete id T)) by by apply map_Forall_delete.
  unfold a_adjust. destruct (k =? objectParentKind); [|done].
  intros x e. rewrite lookup_alter. case_decide; [subst|apply Hd].
  destruct (delete id T !! x) as [e'|] eqn:Ee; [|done]. simpl. intros [= <-].
  by apply wf_set_children, (Hd x).
Qed.

(** A successful or refused credit, at the counters. *)
Lemma creditCoin_counters st id amount st' ok :
  creditCoin st id amount = (st', ok) ->
  is_u64 amount -> 0 <= cs_coins st -> cs_coins st + amount <= max64 ->
  cs_supply st' = cs_supply st /\
  cs_coins st' = cs_coins st + (if ok then amount else 0) /\ (ok = false -> st' = st).
Proof.
  unfold creditCoin. intros Hc Ha H0 Hle. destruct (Z.eqb_spec amount 0) as [->|].
  { injection Hc as <- <-. split_and!; auto; lia. }
  destruct (GetObject st id) as [o|]; [|injection Hc as <- <-; split_and!; auto; lia].
  destruct (readCoinBalance o) as [b|]; [|injection Hc as <- <-; split_and!; auto; lia].
  cbv zeta in Hc. destruct (b +w amount <? b); injection Hc as <- <-; [split_and!; auto; lia|].
  split_and!; [done| |done]. unfold AddCoins. cbn [cs_coins SetCoinsTotal SetObject set_objects].
  rewrite satAdd_min, Z.min_l by u64_lia. done.
Qed.

Section Settlement.
Context {M : Type} `{Pebble M} (c : Config).
Implicit Types (L : Ledger M) (T : gmap Hash Entry).

(** Deleting an object releases its deposit: refund into the coin or burn, the
    counters stay balanced either way. *)
Lemma settleDeletion_slack L st params T id gasCoin hasGas :
  Rep (l_tracker L) T -> l_coins L = Some st -> feeParams c = Some params ->
  0 <= StorageRefundBPS params <= bpsMax -> ledger_ok st (l_validators L) T ->
  exists L' st' refund, settleDeletion c L id gasCoin hasGas = Some (L', refund) /\
    Rep (l_tracker L') (a_delete T id) /\ l_coins L' = Some st' /\
    l_validators L' = l_validators L /\ l_domains L' = l_domains L /\
    slack st' (l_validators L) (a_delete T id) = slack st (l_validators L) T /\
    ledger_ok st' (l_validators L) (a_delete T id) /\
    0 <= refund <= default 0 (e_fees <$> T !! id).
Proof.
  intros HR Hst Hp Hbps Hok. pose proof HR as [Hw _]. pose proof Hok as [Hsu Hco Hbo Hsl].
  destruct (Rep_reads _ T id HR) as (_ & _ & Hf & _). unfold settleDeletion. rewrite Hf.
  set (dep := default 0 (e_fees <$> T !! id)).
  assert (Hdep : is_u64 dep /\ dep <= deposits T).
  { unfold dep. destruct (T !! id) as [e|] eqn:Ee; simpl.
    - split; [apply (Rep_wf _ _ _ _ HR Ee)|by apply (deposits_ge T id e)].
    - pose proof (deposits_nonneg T Hw). u64_lia. }
  pose proof (deposits_nonneg _ (wf_entry_delete T id Hw)) as Hdn.
  assert (Hdd : deposits (a_delete T id) = deposits T - dep) by apply deposits_delete.
  unfold slack in *. destruct (Z.eqb_spec dep 0) as [E0|Hne].
  { eexists _, st, 0. split; [done|]. split; [by apply Rep_delete|]. split_and!; auto; try lia.
    split; auto. unfold slack. lia. }
  unfold mustFeeParams. rewrite Hp. simpl. rewrite Hst. simpl.
  pose proof (bps_share_le dep _ (proj1 Hdep) Hbps) as Href.
  set (refund := (dep *w StorageRefundBPS params) / bpsMax) in *.
  assert (Hburn : forall st1 x, cs_supply st1 = cs_supply st -> is_u64 x -> x <= dep ->
    cs_coins st1 = cs_coins st + (dep - x) ->
    cs_supply (SubSupply st1 x) = cs_supply st - x /\
    cs_coins (SubSupply st1 x) = cs_coins st + (dep - x)).
  { intros st1 x Hs1 Hx Hle Hc1. split; [|done]. cbn [cs_supply SubSupply SetTotalSupply].
    rewrite Hs1, floorSub_max, Z.max_l by u64_lia. done. }
  assert (Hfin : forall st1 x, cs_supply st1 = cs_supply st - x -> 0 <= x <= dep ->
    cs_coins st1 = cs_coins st + (dep - x) ->
    slack st1 (l_validators L) (a_delete T id) = slack st (l_validators L) T /\
    ledger_ok st1 (l_validators L) (a_delete T id)).
  { intros st1 x H1 H2 H3. assert (Hs : slack st1 (l_validators L) (a_delete T id) = slack st (l_validators L) T)
      by (unfold slack; lia).
    split; [done|]. split; [u64_lia|lia|done|rewrite Hs; unfold slack; lia]. }
  destruct (negb hasGas || (StorageRefundBPS params =? 0)).
  - destruct (Hburn st dep eq_refl) as [B1 B2]; [tauto|lia|lia|]. destruct (Hfin _ dep B1) as [F1 F2]; [u64_lia|done|].
    eexists _, _, 0. split; [done|]. split; [by apply Rep_delete|]. split_and!; auto; u64_lia.
  - destruct (creditCoin st gasCoin refund) as [st1 ok] eqn:Ec.
    destruct (creditCoin_counters _ _ _ _ _ Ec) as (C1 & C2 & C3); [u64_lia|lia|u64_lia|].
    destruct ok.
    + rewrite (sub64_exact dep refund) by (tauto || lia).
      destruct (Hburn st1 (dep - refund) C1) as [B1 B2]; [u64_lia|lia|lia|].
      destruct (Hfin _ (dep - refund) B1) as [F1 F2]; [lia|done|].
      eexists _, _, refund. split; [done|]. split; [by apply Rep_delete|]. split_and!; auto; lia.
    + destruct (Hburn st dep eq_refl) as [B1 B2]; [tauto|lia|lia|]. destruct (Hfin _ dep B1) as [F1 F2]; [u64_lia|done|].
      eexists _, _, 0. split; [done|]. split; [by apply Rep_delete|]. split_and!; auto; u64_lia.
Qed.

End Settlement.

(** ** The expiry sweep *)

Section Sweep.
Context {M : Type} `{Pebble M} (c : Config).
Implicit Types (L : Ledger M) (R : gmap bytes domainLeafView).

(** A lease past its grace window. *)
Definition expired (newEpoch grace : Z) (l : domainLeafView) : bool :=
  safeAdd (expiry l) grace <? newEpoch.

Definition unexpired (newEpoch grace : Z) R : gmap bytes domainLeafView :=
  filter (fun kv => expired newEpoch grace (snd kv) = false) R.

Lemma sweepNames L db R names :
  l_domains L = Some db -> DRep db R ->
  exists db', l_domains (foldl sweepName L names) = Some db' /\
    DRep db' (foldl (fun R n => delete n R) R names) /\
    l_index (foldl sweepName L names) = (fun log => log ++ map RemoveDomain names) <$> l_index L /\
    l_tracker (foldl sweepName L names) = l_tracker L /\ l_coins (foldl sweepName L names) = l_coins L /\
    l_validators (foldl sweepName L names) = l_validators L.
Proof.
  revert L db R. induction names as [|n names IH]; intros L db R Hd HR; simpl.
  - exists db. split_and!; auto. destruct (l_index L); simpl; [by rewrite app_nil_r|done].
  - assert (Hd' : l_domains (sweepName L n) = Some (DeleteDomainLeaf db n)) by (unfold sweepName; by rewrite Hd).
    destruct (IH (sweepName L n) _ _ Hd' (DRep_delete db R n HR)) as (db' & H1 & H2 & H3 & H4 & H5 & H6).
    exists db'. rewrite H3, H4, H5, H6. split; [done|]. split; [done|].
    unfold sweepName. rewrite Hd. simpl. split_and!; auto.
    destruct (l_index L); simpl; [by rewrite <- app_assoc|done].
Qed.

Lemma foldl_delete_lookup R names x :
  foldl (fun R n => delete n R) R names !! x = if bool_decide (x ∈ names) then None else R !! x.
Proof.
  revert R. induction names as [|n names IH]; intros R; simpl; [done|].
  rewrite IH, lookup_delete. destruct (decide (x ∈ names)).
  - rewrite !bool_decide_eq_true_2 by set_solver. done.
  - rewrite (bool_decide_eq_false_2 (x ∈ names)) by done.
    destruct (decide (n = x)) as [->|].
    + by rewrite bool_decide_eq_true_2 by set_solver.
    + by rewrite bool_decide_eq_false_2 by set_solver.
Qed.

Lemma expiredNames_spec (db : M) R newEpoch grace name :
  DRep db R -> name ∈ expiredNames db newEpoch grace <->
  exists l, R !! name = Some l /\ expired newEpoch grace l = true.
Proof.
  intros HR. unfold expiredNames. rewrite list_elem_of_fmap. split.
  - intros (e & -> & [Hx Hin]%list_elem_of_filter). apply (ExportDomains_spec db R e HR) in Hin. eauto.
  - intros (l & Hl & Hx). exists (mkDomainEntry name l). split; [done|].
    apply list_elem_of_filter. split; [done|]. by apply (ExportDomains_spec db R).
Qed.

(** The boundary sweep removes exactly the domain leaves whose expiry plus grace is
    before the new epoch, in sorted order, and feeds the index the same removals. *)
Theorem sweep_removes_exactly_expired L db R params newEpoch :
  l_domains L = Some db -> DRep db R -> feeParams c = Some params ->
  exists L' db' names, sweepExpiredDomains c L newEpoch = Some L' /\
    l_domains L' = Some db' /\ DRep db' (unexpired newEpoch (GraceEpochs params) R) /\
    Sorted bytes_le names /\
    (forall n, n ∈ names <-> exists l, R !! n = Some l /\ expired newEpoch (GraceEpochs params) l = true) /\
    l_index L' = (fun log => log ++ map RemoveDomain names) <$> l_index L /\
    l_tracker L' = l_tracker L /\ l_coins L' = l_coins L /\ l_validators L' = l_validators L.
Proof.
  intros Hd HR Hp. unfold sweepExpiredDomains, graceEpochs, mustFeeParams. rewrite Hd, Hp. simpl.
  set (g := GraceEpochs params). set (names := sortHashes (expiredNames db newEpoch g)).
  destruct (sweepNames L db R names Hd HR) as (db' & H1 & H2 & H3 & H4 & H5 & H6).
  assert (Hn : forall n, n ∈ names <-> exists l, R !! n = Some l /\ expired newEpoch g l = true).
  { intros n. unfold names. rewrite elem_of_sortHashes. by apply expiredNames_spec. }
  exists (foldl sweepName L names), db', names. split; [done|]. split; [done|]. split.
  - assert (unexpired newEpoch g R = foldl (fun R n => delete n R) R names) as ->; [|done].
    apply map_eq. intros x. rewrite foldl_delete_lookup. unfold unexpired.
    rewrite map_lookup_filter. destruct (R !! x) as [l|] eqn:El.
    2:{ simpl. by case_bool_decide. }
    simpl. destruct (expired newEpoch g l) eqn:Ex.
    + rewrite bool_decide_eq_true_2 by (apply Hn; eauto). by case_guard.
    + rewrite bool_decide_eq_false_2; [by case_guard|].
      intros (l' & Hl' & Hx)%Hn. congruence.
  - split; [apply sortHashes_sorted|]. split_and!; auto.
Qed.

End Sweep.

Definition sampleConfig : Config :=
  mkConfig (replicate 32 0) (Some DefaultFeeParams) 0 0 1000 100 0 0 10 0
    (mkThermostat 250 350 0 0 0 0 0).

Definition sampleLeaf (expiry : Z) : domainLeafView := mkLeaf (replicate 32 1) (replicate 32 7) expiry.

Definition sampleRegistry : gmap bytes bytes :=
  SetDomainLeaf (SetDomainLeaf (∅ : gmap bytes bytes) (str "old") (sampleLeaf 5)) (str "new") (sampleLeaf 90).

Lemma DRep_empty {M} `{Pebble M} (db : M) : (forall n, db_map db !! domainKey n = None) -> DRep db ∅.
Proof. intros Hn. split; [apply map_Forall_empty|]. intros n. by rewrite Hn, lookup_empty. Qed.

Lemma sampleRegistry_rep :
  DRep sampleRegistry (<[str "new" := sampleLeaf 90]> (<[str "old" := sampleLeaf 5]> ∅)).
Proof.
  repeat apply DRep_set; [|split; simpl; u64_lia..].
  apply DRep_empty. intros n. reflexivity.
Qed.

Definition sweepLedger : Ledger (gmap bytes bytes) :=
  mkLedger ∅ (Some sampleRegistry) None (NewValidatorSet []) (Some []) [].

Theorem sweep_removes_exactly_expired_witness :
  l_index <$> sweepExpiredDomains sampleConfig sweepLedger 14 = Some (Some [RemoveDomain (str "old")]) /\
  exists L' db', sweepExpiredDomains sampleConfig sweepLedger 14 = Some L' /\ l_domains L' = Some db' /\
    DRep db' (unexpired 14 8 (<[str "new" := sampleLeaf 90]> (<[str "old" := sampleLeaf 5]> ∅))).
Proof.
  split; [vm_compute; reflexivity|].
  destruct (sweep_removes_exactly_expired sampleConfig sweepLedger sampleRegistry
    (<[str "new" := sampleLeaf 90]> (<[str "old" := sampleLeaf 5]> ∅)) DefaultFeeParams 14)
    as (L' & db' & names & H1 & H2 & H3 & _).
  - reflexivity.
  - exact sampleRegistry_rep.
  - reflexivity.
  - exists L', db'. split; [exact H1|]. split; [exact H2|exact H3].
Defined.
