(* ===== verification/Ops.v ===== *)
(** * Declared operations (internal/consensus/ops.go, domainops.go)

    A transaction's operation list is validated as a whole against the staged
    view and only then applied to the tracker, the registry and the coin store.
    The theorems: a rejected list has no effect, the applied state is the staged
    one, the forest and the supply identity are preserved, and nobody's object
    or name but the sender's is touched. *)

From S2P Require Import Prelude Types Fees Validators Stake Storage Tracker Domains Staged Coins Ledger.

Section Ops.
Context {M : Type} `{Pebble M} (E : Env M) (c : Config).
Implicit Types (L : Ledger M) (op : DeclaredOp) (tx : Transaction).

(** [commitEpochForRound] (epoch.go): the boundary round still belongs to the
    epoch it closes. *)
Definition commitEpochForRound (round : Z) : Z :=
  if epochLength c =? 0 then 0
  else
    let epoch := round / epochLength c in
    if (0 <? epoch) && (round mod epochLength c =? 0) then epoch - 1 else epoch.

Definition rewriteBodyOwner L (objID : Hash) (kind : Z) (parent : Hash) (version : Z) : Ledger M :=
  match l_coins L with
  | None => L
  | Some st =>
      let st := match GetObject st objID with
                | Some data => SetObject st (writeObjectOwner data parent kind version)
                | None => st
                end in
      set_coins L (Some (onObjectReparented E st objID kind parent version))
  end.

Definition applyReparent L op : Ledger M :=
  let objID := toHash (op_ObjectID op) in
  let parent := toHash (op_Target op) in
  let version := getVersion (l_tracker L) objID in
  let L := set_tracker L (setParent (l_tracker L) objID (op_TargetKind op) parent) in
  let L := rewriteBodyOwner L objID (op_TargetKind op) parent version in
  feed L (ApplyEdge objID (op_TargetKind op) parent).

Definition applyDelete L (gasCoinID : Hash) (hasGasCoin : bool) op : option (Ledger M) :=
  let objID := toHash (op_ObjectID op) in
  r ← settleDeletion c L objID gasCoinID hasGasCoin;
  let L := fst r in
  Some (set_coins L ((fun st => onObjectDeleted E st objID) <$> l_coins L)).

Definition applyDomainRegister L (sender : Hash) (epoch maxTerm : Z) op : option (Ledger M) :=
  match domainExpiry 0 epoch (op_TermEpochs op) maxTerm with
  | None => Some L
  | Some exp => writeDomainLeaf L (op_Name op) (mkLeaf (toHash (op_ObjectID op)) sender exp)
  end.

Definition applyDomainRenew L (epoch maxTerm : Z) op : option (Ledger M) :=
  db ← l_domains L;
  match DomainLeaf db (op_Name op) with
  | None => Some L
  | Some leaf =>
      match domainExpiry (expiry leaf) epoch (op_TermEpochs op) maxTerm with
      | None => Some L
      | Some exp => writeDomainLeaf L (op_Name op) (mkLeaf (objectID leaf) (owner leaf) exp)
      end
  end.

Definition applyDomainUpdate L op : option (Ledger M) :=
  db ← l_domains L;
  match DomainLeaf db (op_Name op) with
  | None => Some L
  | Some leaf => writeDomainLeaf L (op_Name op) (mkLeaf (toHash (op_ObjectID op)) (owner leaf) (expiry leaf))
  end.

Definition applyDomainTransfer L op : option (Ledger M) :=
  db ← l_domains L;
  match DomainLeaf db (op_Name op) with
  | None => Some L
  | Some leaf => writeDomainLeaf L (op_Name op) (mkLeaf (objectID leaf) (toHash (op_Target op)) (expiry leaf))
  end.

Definition applyDomainDelete L op : option (Ledger M) :=
  db ← l_domains L;
  Some (feed (set_domains L (Some (DeleteDomainLeaf db (op_Name op)))) (RemoveDomain (op_Name op))).

Definition applyDomainOp L (sender : Hash) (epoch maxTerm : Z) op : option (Ledger M) :=
  let k := op_Kind op in
  if k =? domainRegisterOp then applyDomainRegister L sender epoch maxTerm op
  else if k =? domainRenewOp then applyDomainRenew L epoch maxTerm op
  else if k =? domainUpdateOp then applyDomainUpdate L op
  else if k =? domainTransferOp then applyDomainTransfer L op
  else if k =? domainDeleteOp then applyDomainDelete L op
  else Some L.

Definition applyOp (gasCoin : option Hash) (sender : Hash) (epoch maxTerm : Z) L op : option (Ledger M) :=
  if op_Kind op =? reparentOp then Some (applyReparent L op)
  else if op_Kind op =? deleteOp then
    applyDelete L (default zeroHash gasCoin) (bool_decide (is_Some gasCoin)) op
  else applyDomainOp L sender epoch maxTerm op.

(** The loop of [applyDeclaredOps]. *)
Fixpoint applyDeclaredOps (gasCoin : option Hash) (sender : Hash) (epoch maxTerm : Z)
    (ops : list DeclaredOp) L : option (Ledger M) :=
  match ops with
  | [] => Some L
  | op :: ops =>
      L' ← applyOp gasCoin sender epoch maxTerm L op;
      applyDeclaredOps gasCoin sender epoch maxTerm ops L'
  end.

(** [handleDeclaredOps]: the ledger and whether the list was applied. *)
Definition handleDeclaredOps L tx (epoch : Z) : option (Ledger M * bool) :=
  match hash32 (tx_Sender tx) with
  | None => Some (L, false)
  | Some sender =>
      if bool_decide (sender = zeroHash) then Some (L, false)
      else if Nat.eqb (length (tx_Operations tx)) 0 then Some (L, false)
      else
        maxTerm ← maxTermEpochs c;
        match validateAll (newStagedView (l_tracker L) (l_domains L) epoch maxTerm) sender
                (tx_Operations tx) (mutableRefIDSet tx) with
        | None => Some (L, false)
        | Some _ =>
            L' ← applyDeclaredOps (txGasCoinID tx) sender epoch maxTerm (tx_Operations tx) L;
            Some (L', true)
        end
  end.

(** [poolUnlockedStorage] (commit.go). *)
Definition poolUnlockedStorage (split : FeeSplit) (storage : Z) : FeeSplit :=
  mkFeeSplit (safeAdd (fs_Total split) storage) (fs_Burned split) (safeAdd (fs_Epoch split) storage).

Definition commitDeclaredOps L tx (commitRound : Z) (feeSplit : FeeSplit) (withheldStorage : Z)
    : option (Ledger M * FeeSplit) :=
  let outcome :=
    if txHasPodCall tx || negb (Nat.eqb (length (tx_CreatedObjectsReplication tx)) 0)
    then Some (L, false)
    else handleDeclaredOps L tx (commitEpochForRound commitRound) in
  match outcome with
  | None => None
  | Some (L, success) =>
      let reason := if success then FailNone else FailOps in
      Some (emitTransaction L tx success reason, poolUnlockedStorage feeSplit withheldStorage)
  end.

End Ops.

(** ** The abstract effect of one operation *)

Definition a_applyTracker (T : gmap Hash Entry) (op : DeclaredOp) : gmap Hash Entry :=
  if op_Kind op =? reparentOp then
    a_setParent T (toHash (op_ObjectID op)) (op_TargetKind op) (toHash (op_Target op))
  else if op_Kind op =? deleteOp then a_delete T (toHash (op_ObjectID op))
  else T.

Definition a_applyDomain (sender : Hash) (epoch maxTerm : Z) (R : gmap bytes domainLeafView)
    (op : DeclaredOp) : gmap bytes domainLeafView :=
  let k := op_Kind op in
  let name := op_Name op in
  if k =? domainRegisterOp then
    match domainExpiry 0 epoch (op_TermEpochs op) maxTerm with
    | Some exp => <[name := mkLeaf (toHash (op_ObjectID op)) sender exp]> R
    | None => R
    end
  else match R !! name with
  | None => R
  | Some leaf =>
      if k =? domainRenewOp then
        match domainExpiry (expiry leaf) epoch (op_TermEpochs op) maxTerm with
        | Some exp => <[name := mkLeaf (objectID leaf) (owner leaf) exp]> R
        | None => R
        end
      else if k =? domainUpdateOp then <[name := mkLeaf (toHash (op_ObjectID op)) (owner leaf) (expiry leaf)]> R
      else if k =? domainTransferOp then <[name := mkLeaf (objectID leaf) (toHash (op_Target op)) (expiry leaf)]> R
      else if k =? domainDeleteOp then delete name R
      else R
  end.

(** ** The staged view tracks the abstract state *)

(** Widths of a declared operation as the header decodes it. *)
Record wf_decl (op : DeclaredOp) : Prop := {
  wd_kind : 0 <= op_Kind op < 256;
  wd_tkind : is_byte (op_TargetKind op);
  wd_term : is_u64 (op_TermEpochs op);
}.

(** Shape lemmas of the two object operations. *)

Lemma size_setParent T id k p : is_Some (T !! id) -> size (a_setParent T id k p) = size T.
Proof.
  intros [e He]. rewrite <- !(size_dom (D := gset Hash)). f_equal. apply set_eq. intros x.
  rewrite !elem_of_dom, <- !a_edge_Some, a_edge_setParent.
  destruct (decide (x = id)) as [->|]; [|done]. rewrite a_edge_Some, He. split; eauto.
Qed.

Lemma size_delete_le T id : (size (a_delete T id) <= size T)%nat.
Proof.
  rewrite <- !(size_dom (D := gset Hash)). apply subseteq_size. intros x.
  rewrite !elem_of_dom, <- !a_edge_Some, a_edge_delete. by case_decide; [intros [? ?]|].
Qed.

Lemma walkCycle_ext (e1 e2 : Hash -> option (Z * Hash)) fuel id x :
  (forall y, e1 y = e2 y) -> walkCycle e1 fuel id x = walkCycle e2 fuel id x.
Proof.
  intros He. revert x. induction fuel as [|fuel IH]; intros x; simpl; [done|].
  rewrite He. case_bool_decide; [done|]. destruct (e2 x) as [[k p]|]; [|done]. by rewrite IH.
Qed.

Lemma wouldCycle_ext (e1 e2 : Hash -> option (Z * Hash)) id k p :
  (forall y, e1 y = e2 y) -> wouldCycle e1 id k p = wouldCycle e2 id k p.
Proof. intros He. unfold wouldCycle. by rewrite (walkCycle_ext e1 e2). Qed.

Lemma cnt_setParent T id k p x :
  cnt (a_setParent T id k p) x = cnt T x - ind_edge (a_edge T id) x + ind k p x.
Proof.
  rewrite (cnt_edges _ (<[id := mkEntry 0 0 0 k p 0]> T)).
  - by rewrite cnt_insert.
  - intros y. by rewrite a_edge_setParent, a_edge_insert.
Qed.

Lemma cnt_a_delete T id x : cnt (a_delete T id) x = cnt T x - ind_edge (a_edge T id) x.
Proof.
  destruct (T !! id) as [e|] eqn:Ee.
  - rewrite (cnt_edges _ (delete id T)).
    + rewrite (cnt_delete T id e) by done. unfold a_edge. by rewrite Ee.
    + intros y. rewrite a_edge_delete. unfold a_edge. rewrite lookup_delete.
      destruct (decide (y = id)) as [->|]; [by rewrite decide_True|by rewrite decide_False by congruence].
  - unfold a_delete, a_edge. rewrite Ee. simpl. lia.
Qed.

Section Agreement.
Context {M : Type} `{Pebble M}.
Context (ot : M) (T0 : gmap Hash Entry) (HR0 : Rep ot T0) (HF0 : forest_ok T0)
  (Hsize : Z.of_nat (size T0) < two32).
Implicit Types (s : stagedView M) (T : gmap Hash Entry) (R : gmap bytes domainLeafView).

(** [s] is the view over the committed tracker [ot] that describes [T] and [R]. *)
Record Staged s T R : Prop := {
  sg_ot : sv_ot s = ot;
  sg_edge : forall x, s_getParent s x = a_edge T x;
  sg_count : forall x, cnt T0 x + delta s x = cnt T x;
  sg_domain : forall n, s_getDomain s n = R !! n;
  sg_forest : forest_ok T;
  sg_size : (size T <= size T0)%nat;
}.

Lemma s_childCount_exact s T R x : Staged s T R -> s_childCount s x = a_children T x.
Proof using HR0 HF0 Hsize.
  intros [Hot _ Hc _ HF Hs]. unfold s_childCount. rewrite Hot.
  destruct (Rep_reads ot T0 x HR0) as (_ & _ & _ & _ & ->).
  rewrite (a_children_cnt T0 x HF0), (a_children_cnt T x HF).
  pose proof (cnt_bound T0 x). pose proof (cnt_bound T x). specialize (Hc x).
  unfold u32. rewrite (Z.mod_small (cnt T0 x)) by lia. cbv zeta. rewrite Hc.
  destruct (Z.ltb_spec (cnt T x) 0); [lia|done].
Qed.

(** What [controls] establishes about the object. *)
Lemma controls_rooted s T R sender x :
  Staged s T R -> s_controls s sender x = true ->
  is_Some (T !! x) /\ exists n, Rooted (a_edge T) x n sender.
Proof using Type.
  intros [_ He _ _ _ _] Hc. unfold s_controls, controls, controllerOf in Hc.
  destruct (walkController (s_getParent s) walkDepthLimit x) as [k|] eqn:Ew; [|done].
  apply bool_decide_eq_true in Hc as ->. apply walkController_spec in Ew as (n & Hr & _).
  apply (Rooted_ext _ (a_edge T)) in Hr; [|by intros; rewrite He].
  split; [by apply a_edge_Some, (Rooted_edge _ _ _ _ Hr)|eauto].
Qed.


(** What validation has established about an accepted operation. *)
Definition opAllowed (refs : gset Hash) T R (sender : Hash) (op : DeclaredOp) : Prop :=
  let id := op_ObjectID op in
  (op_Kind op = reparentOp /\ length id = 32%nat /\ id ∈ refs /\
    (exists n, Rooted (a_edge T) id n sender) /\ length (op_Target op) = 32%nat /\
    (op_TargetKind op = keyRootKind \/ op_TargetKind op = objectParentKind) /\
    (op_TargetKind op = objectParentKind -> exists n, Rooted (a_edge T) (op_Target op) n sender) /\
    wouldCycle (a_edge T) id (op_TargetKind op) (op_Target op) = false) \/
  (op_Kind op = deleteOp /\ length id = 32%nat /\ id ∈ refs /\
    (exists n, Rooted (a_edge T) id n sender) /\ cnt T id = 0) \/
  (reparentOp <> op_Kind op /\ deleteOp <> op_Kind op /\
    (forall leaf, R !! op_Name op = Some leaf -> owner leaf = sender)).

(** The leases are measured against the same epoch and cap throughout. *)
Definition sameTerms s s' : Prop :=
  sv_epoch s' = sv_epoch s /\ sv_maxTerm s' = sv_maxTerm s /\ sv_ds s' = sv_ds s.

Lemma dropOldEdge_terms s id : sameTerms s (dropOldEdge s id) /\ sv_ot (dropOldEdge s id) = sv_ot s.
Proof using Type. unfold dropOldEdge, sameTerms. destruct (s_getParent s id) as [[k p]|]; [destruct (k =? _)|]; done. Qed.

Lemma stageReparent_terms s id k p :
  sameTerms s (stageReparent s id k p) /\ sv_ot (stageReparent s id k p) = sv_ot s.
Proof using Type.
  destruct (dropOldEdge_terms s id) as [H1 H2]. unfold stageReparent. unfold sameTerms in *.
  destruct (k =? objectParentKind); simpl; tauto.
Qed.

Lemma stageReparent_staged s T R id k p :
  Staged s T R -> is_Some (T !! id) -> wouldCycle (a_edge T) id k p = false ->
  Staged (stageReparent s id k p) (a_setParent T id k p) R.
Proof using HR0 HF0 Hsize.
  intros [Hot He Hc Hd HF Hs] Hid Hw. destruct (stageReparent_terms s id k p) as [_ Ho].
  split; [congruence| | | | |].
  - intros x. rewrite stageReparent_getParent, a_edge_setParent, <- He.
    case_bool_decide as Hx; [|done].
    assert (Hn : s_getParent s x = None) by (unfold s_getParent; by rewrite bool_decide_eq_true_2).
    destruct (decide (x = id)) as [->|]; [|by rewrite Hn].
    rewrite He in Hn. apply a_edge_Some in Hid. rewrite Hn in Hid. by destruct Hid.
  - intros x. rewrite stageReparent_delta, cnt_setParent, He, <- (Hc x). lia.
  - intros n. by rewrite stageReparent_getDomain.
  - unfold a_setParent. apply forest_track; [done|]. intros Hk. left. by apply (wouldCycle_target T id k p Hw).
  - by rewrite size_setParent.
Qed.

Lemma stageDelete_staged s T R id :
  Staged s T R -> cnt T id = 0 -> Staged (stageDelete s id) (a_delete T id) R.
Proof using HR0 HF0 Hsize.
  intros [Hot He Hc Hd HF Hs] H0. destruct (dropOldEdge_terms s id) as [_ Ho].
  split; [unfold stageDelete, putDeleted; simpl; congruence| | | | |].
  - intros x. by rewrite stageDelete_getParent, a_edge_delete, He.
  - intros x. rewrite stageDelete_delta, cnt_a_delete, He, <- (Hc x). lia.
  - intros n. by rewrite stageDelete_getDomain.
  - by apply forest_delete.
  - pose proof (size_delete_le T id). lia.
Qed.

Lemma stageDomain_staged s T R name leaf :
  Staged s T R -> Staged (stageDomain s name leaf) T (<[name := leaf]> R).
Proof using Type.
  intros [Hot He Hc Hd HF Hs]. split; auto. intros n. rewrite stageDomain_getDomain, lookup_insert, Hd.
  destruct (decide (n = name)) as [->|]; [by rewrite decide_True|by rewrite decide_False by congruence].
Qed.

Lemma stageDomainDelete_staged s T R name :
  Staged s T R -> Staged (stageDomainDelete s name) T (delete name R).
Proof using Type.
  intros [Hot He Hc Hd HF Hs]. split; auto. intros n. rewrite stageDomainDelete_getDomain, lookup_delete, Hd.
  destruct (decide (n = name)) as [->|]; [by rewrite decide_True|by rewrite decide_False by congruence].
Qed.

Lemma ownedDomain_spec s T R sender name leaf :
  Staged s T R -> ownedDomain s sender name = Some leaf -> R !! name = Some leaf /\ owner leaf = sender.
Proof using Type.
  intros Hs. unfold ownedDomain. rewrite (sg_domain _ _ _ Hs).
  destruct (R !! name) as [l|]; simpl; [|done].
  destruct (bool_decide (owner l = sender)) eqn:Eo; [|done]. simpl.
  destruct (bool_decide (sender = zeroHash)); [done|]. intros [= <-]. zb. done.
Qed.

Lemma validateReparent_step s T R sender op refs s' :
  Staged s T R -> op_Kind op = reparentOp -> validateReparent s sender op refs = Some s' ->
  Staged s' (a_applyTracker T op) R /\ sameTerms s s' /\ opAllowed refs T R sender op.
Proof using HR0 HF0 Hsize.
  intros Hs Hk Hv. unfold validateReparent in Hv.
  destruct (hash32 (op_ObjectID op)) as [id|] eqn:Eid; [|done]. apply hash32_Some in Eid as [Hid Hl]. simpl in Hv.
  destruct (negb (bool_decide (id ∈ refs)) || negb (s_controls s sender id)) eqn:Eb; [done|].
  destruct (hash32 (op_Target op)) as [p|] eqn:Ep; [|done]. apply hash32_Some in Ep as [Hp Hlp]. simpl in Hv.
  destruct (negb (op_TargetKind op =? keyRootKind) && negb (op_TargetKind op =? objectParentKind)) eqn:Ek; [done|].
  destruct ((op_TargetKind op =? objectParentKind) && negb (s_controls s sender p)) eqn:Et; [done|].
  destruct (s_wouldCycle s id (op_TargetKind op) p) eqn:Ew; [done|]. injection Hv as <-.
  zb. destruct (controls_rooted s T R sender id Hs) as [Hin Hr]; [done|].
  unfold s_wouldCycle in Ew. rewrite (wouldCycle_ext _ (a_edge T)) in Ew by apply (sg_edge _ _ _ Hs).
  split; [|split].
  - unfold a_applyTracker. rewrite Hk. change (reparentOp =? reparentOp) with true. cbv iota.
    rewrite Hid, Hp, !toHash_id by done. by apply stageReparent_staged.
  - apply stageReparent_terms.
  - left. rewrite Hid, Hp. split_and!; auto.
    + apply andb_false_iff in Ek as [?|?]; zb; auto.
    + intros Ht. rewrite Ht in Et. change (objectParentKind =? objectParentKind) with true in Et.
      simpl in Et. apply negb_false_iff in Et. by apply (controls_rooted s T R sender p Hs Et).
Qed.

Lemma validateDelete_step s T R sender op refs s' :
  Staged s T R -> op_Kind op = deleteOp -> validateDelete s sender op refs = Some s' ->
  Staged s' (a_applyTracker T op) R /\ sameTerms s s' /\ opAllowed refs T R sender op.
Proof using HR0 HF0 Hsize.
  intros Hs Hk Hv. unfold validateDelete in Hv.
  destruct (hash32 (op_ObjectID op)) as [id|] eqn:Eid; [|done]. apply hash32_Some in Eid as [Hid Hl]. simpl in Hv.
  destruct (negb (bool_decide (id ∈ refs)) || negb (s_controls s sender id)) eqn:Eb; [done|].
  destruct (negb (s_childCount s id =? 0)) eqn:Ec; [done|]. injection Hv as <-. zb.
  destruct (controls_rooted s T R sender id Hs) as [Hin Hr]; [done|].
  rewrite (s_childCount_exact s T R id Hs) in Ec.
  assert (Hcnt : cnt T id = 0).
  { pose proof (sg_size _ _ _ Hs). apply children_zero_cnt; [apply Hs|lia|done]. }
  split; [|split].
  - unfold a_applyTracker. rewrite Hk. change (deleteOp =? reparentOp) with false.
    change (deleteOp =? deleteOp) with true. cbv iota. rewrite Hid, toHash_id by done.
    by apply stageDelete_staged.
  - apply dropOldEdge_terms.
  - right. left. rewrite Hid. split_and!; auto.
Qed.

(** One kind constant at a time. *)
Ltac kinds :=
  repeat match goal with
  | H : (?k =? _) = true |- _ => apply Z.eqb_eq in H
  | H : op_Kind ?op = _ |- context [op_Kind ?op] => rewrite H
  end;
  change (domainRegisterOp =? domainRegisterOp) with true;
  change (domainRenewOp =? domainRegisterOp) with false; change (domainRenewOp =? domainRenewOp) with true;
  change (domainUpdateOp =? domainRegisterOp) with false; change (domainUpdateOp =? domainRenewOp) with false;
  change (domainUpdateOp =? domainUpdateOp) with true;
  change (domainTransferOp =? domainRegisterOp) with false; change (domainTransferOp =? domainRenewOp) with false;
  change (domainTransferOp =? domainUpdateOp) with false; change (domainTransferOp =? domainTransferOp) with true;
  change (domainDeleteOp =? domainRegisterOp) with false; change (domainDeleteOp =? domainRenewOp) with false;
  change (domainDeleteOp =? domainUpdateOp) with false; change (domainDeleteOp =? domainTransferOp) with false;
  change (domainDeleteOp =? domainDeleteOp) with true; cbv iota zeta.

(** A domain operation keeps the tracker half and is allowed once its name is
    free or the sender's. *)
Definition domainStep s T R (sender : Hash) op s' : Prop :=
  Staged s' T (a_applyDomain sender (sv_epoch s) (sv_maxTerm s) R op) /\ sameTerms s s' /\
  (forall leaf, R !! op_Name op = Some leaf -> owner leaf = sender).

Lemma validateDomainRegister_step s T R sender op s' :
  Staged s T R -> op_Kind op = domainRegisterOp -> validateDomainRegister s sender op = Some s' ->
  domainStep s T R sender op s'.
Proof using Type.
  intros Hs Hk Hv. unfold validateDomainRegister in Hv.
  destruct (validDomainName (op_Name op)); [|done]. simpl in Hv.
  rewrite (sg_domain _ _ _ Hs) in Hv. destruct (R !! op_Name op) eqn:Er; [done|].
  destruct (ownsDomainNamespace s sender (op_Name op)); [|done]. simpl in Hv.
  destruct (hash32 (op_ObjectID op)) as [id|] eqn:Eid; [|done]. apply hash32_Some in Eid as [Hid Hl]. simpl in Hv.
  destruct (s_controls s sender id); [|done]. simpl in Hv.
  destruct (domainExpiry 0 (sv_epoch s) (op_TermEpochs op) (sv_maxTerm s)) as [e|] eqn:Ee; [|done].
  simpl in Hv. injection Hv as <-. split; [|split; [done|by rewrite Er]].
  unfold a_applyDomain. kinds. rewrite Ee, Hid, toHash_id by done. by apply stageDomain_staged.
Qed.

Lemma validateDomainRenew_step s T R sender op s' :
  Staged s T R -> op_Kind op = domainRenewOp -> validateDomainRenew s sender op = Some s' ->
  domainStep s T R sender op s'.
Proof using Type.
  intros Hs Hk Hv. unfold validateDomainRenew in Hv.
  destruct (ownedDomain s sender (op_Name op)) as [leaf|] eqn:Eo; [|done]. simpl in Hv.
  destruct (ownedDomain_spec s T R _ _ _ Hs Eo) as [Er Ho].
  destruct (domainExpiry (expiry leaf) _ _ _) as [e|] eqn:Ee; [|done]. simpl in Hv. injection Hv as <-.
  split; [|split; [done|rewrite Er; congruence]].
  unfold a_applyDomain. kinds. rewrite Er, Ee. by apply stageDomain_staged.
Qed.

Lemma validateDomainUpdate_step s T R sender op s' :
  Staged s T R -> op_Kind op = domainUpdateOp -> validateDomainUpdate s sender op = Some s' ->
  domainStep s T R sender op s'.
Proof using Type.
  intros Hs Hk Hv. unfold validateDomainUpdate in Hv.
  destruct (ownedDomain s sender (op_Name op)) as [leaf|] eqn:Eo; [|done]. simpl in Hv.
  destruct (ownedDomain_spec s T R _ _ _ Hs Eo) as [Er Ho].
  destruct (hash32 (op_ObjectID op)) as [id|] eqn:Eid; [|done]. apply hash32_Some in Eid as [Hid Hl]. simpl in Hv.
  destruct (s_controls s sender id); [|done]. simpl in Hv. injection Hv as <-.
  split; [|split; [done|rewrite Er; congruence]].
  unfold a_applyDomain. kinds. rewrite Er, Hid, toHash_id by done. by apply stageDomain_staged.
Qed.

Lemma validateDomainTransfer_step s T R sender op s' :
  Staged s T R -> op_Kind op = domainTransferOp -> validateDomainTransfer s sender op = Some s' ->
  domainStep s T R sender op s'.
Proof using Type.
  intros Hs Hk Hv. unfold validateDomainTransfer in Hv.
  destruct (ownedDomain s sender (op_Name op)) as [leaf|] eqn:Eo; [|done]. simpl in Hv.
  destruct (ownedDomain_spec s T R _ _ _ Hs Eo) as [Er Ho].
  destruct (hash32 (op_Target op)) as [id|] eqn:Eid; [|done]. apply hash32_Some in Eid as [Hid Hl]. simpl in Hv.
  destruct (bool_decide (id = zeroHash)); [done|]. simpl in Hv. injection Hv as <-.
  split; [|split; [done|rewrite Er; congruence]].
  unfold a_applyDomain. kinds. rewrite Er, Hid, toHash_id by done. by apply stageDomain_staged.
Qed.

Lemma validateDomainDelete_step s T R sender op s' :
  Staged s T R -> op_Kind op = domainDeleteOp -> validateDomainDelete s sender op = Some s' ->
  domainStep s T R sender op s'.
Proof using Type.
  intros Hs Hk Hv. unfold validateDomainDelete in Hv.
  destruct (ownedDomain s sender (op_Name op)) as [leaf|] eqn:Eo; [|done]. simpl in Hv. injection Hv as <-.
  destruct (ownedDomain_spec s T R _ _ _ Hs Eo) as [Er Ho].
  split; [|split; [done|rewrite Er; congruence]].
  unfold a_applyDomain. kinds. rewrite Er. by apply stageDomainDelete_staged.
Qed.

Lemma validateDomainOp_step s T R sender op s' :
  Staged s T R -> validateDomainOp s sender op = Some s' -> domainStep s T R sender op s'.
Proof using Type.
  intros Hs Hv. unfold validateDomainOp in Hv. destruct (sv_ds s); [|done]. cbv zeta in Hv.
  destruct (Z.eqb_spec (op_Kind op) domainRegisterOp); [by apply validateDomainRegister_step|].
  destruct (Z.eqb_spec (op_Kind op) domainRenewOp); [by apply validateDomainRenew_step|].
  destruct (Z.eqb_spec (op_Kind op) domainUpdateOp); [by apply validateDomainUpdate_step|].
  destruct (Z.eqb_spec (op_Kind op) domainTransferOp); [by apply validateDomainTransfer_step|].
  destruct (Z.eqb_spec (op_Kind op) domainDeleteOp); [by apply validateDomainDelete_step|done].
Qed.

(** Object kinds leave the registry alone and domain kinds the tracker. *)
Lemma a_applyDomain_object sender epoch maxTerm R op :
  op_Kind op = reparentOp \/ op_Kind op = deleteOp -> a_applyDomain sender epoch maxTerm R op = R.
Proof using Type.
  intros [Hk|Hk]; unfold a_applyDomain; rewrite Hk; simpl; by destruct (R !! op_Name op).
Qed.

Lemma a_applyTracker_domain T op :
  reparentOp <> op_Kind op -> deleteOp <> op_Kind op -> a_applyTracker T op = T.
Proof using Type.
  intros H1 H2. unfold a_applyTracker.
  destruct (Z.eqb_spec (op_Kind op) reparentOp); [congruence|].
  destruct (Z.eqb_spec (op_Kind op) deleteOp); [congruence|done].
Qed.

(** One operation: the view follows the abstract state. *)
Lemma validate_step s T R sender op refs s' :
  Staged s T R -> validate s sender op refs = Some s' ->
  Staged s' (a_applyTracker T op) (a_applyDomain sender (sv_epoch s) (sv_maxTerm s) R op) /\
  sameTerms s s' /\ opAllowed refs T R sender op.
Proof using HR0 HF0 Hsize.
  intros Hs Hv. unfold validate in Hv. destruct (_ <? _); [done|].
  destruct (Z.eqb_spec (op_Kind op) reparentOp) as [Hk|Hk].
  { rewrite a_applyDomain_object by auto. by apply validateReparent_step. }
  destruct (Z.eqb_spec (op_Kind op) deleteOp) as [Hk'|Hk'].
  { rewrite a_applyDomain_object by auto. by apply validateDelete_step. }
  destruct (validateDomainOp_step s T R sender op s' Hs Hv) as (H1 & H2 & H3).
  rewrite a_applyTracker_domain by congruence. split_and!; auto. right; right. auto.
Qed.

End Agreement.

(** ** The concrete operations implement the abstract ones *)

Lemma length_toHash b : length (toHash b) = 32%nat.
Proof. unfold toHash. rewrite length_take, length_app, length_replicate. lia. Qed.

Definition domainsHold {M} `{Pebble M} (ds : option M) (R : gmap bytes domainLeafView) : Prop :=
  match ds with Some db => DRep db R | None => R = ∅ end.

Section Apply.
Context {M : Type} `{Pebble M} (E : Env M) `{!BodyHooks E} (c : Config).
Context (params : FeeParams) (Hparams : feeParams c = Some params)
  (Hbps : 0 <= StorageRefundBPS params <= bpsMax).
Implicit Types (L : Ledger M) (T : gmap Hash Entry) (R : gmap bytes domainLeafView).

(** The ledger stands for the abstract tracker and registry, with its counters
    balanced up to the fees in flight [fl]. *)
Record Holds L T R (fl : Z) : Prop := {
  hd_tracker : Rep (l_tracker L) T;
  hd_domains : domainsHold (l_domains L) R;
  hd_coins : exists st, l_coins L = Some st /\ ledger_ok st (l_validators L) T /\
               slack st (l_validators L) T = fl;
}.

Lemma ledger_ok_same st st' vs T T' :
  ledger_ok st vs T -> cs_supply st' = cs_supply st -> cs_coins st' = cs_coins st ->
  deposits T' = deposits T -> ledger_ok st' vs T' /\ slack st' vs T' = slack st vs T.
Proof using Type.
  intros [H1 H2 H3 H4] Hs Hc Hd. unfold slack in *. rewrite Hs, Hc, Hd. split; [|done].
  split; unfold slack; rewrite ?Hs, ?Hc, ?Hd; auto.
Qed.

Lemma applyReparent_holds L T R fl op :
  Holds L T R fl -> is_byte (op_TargetKind op) ->
  Holds (applyReparent E L op)
    (a_setParent T (toHash (op_ObjectID op)) (op_TargetKind op) (toHash (op_Target op))) R fl /\
  l_validators (applyReparent E L op) = l_validators L /\ l_domains (applyReparent E L op) = l_domains L.
Proof using BodyHooks0.
  intros [HR HD (st & Hst & Hok & Hfl)] Hk. unfold applyReparent, rewriteBodyOwner.
  cbn [l_coins set_tracker]. rewrite Hst. split; [|done]. split; [|done|].
  - apply Rep_setParent; auto using length_toHash.
  - eexists. split; [done|]. cbn [l_validators feed set_coins set_tracker].
    set (st1 := match GetObject st _ with Some _ => _ | None => _ end).
    assert (H1 : cs_supply st1 = cs_supply st /\ cs_coins st1 = cs_coins st)
      by (unfold st1; by destruct (GetObject st _)).
    destruct (hook_reparented st1 (toHash (op_ObjectID op)) (op_TargetKind op) (toHash (op_Target op))
      (getVersion (l_tracker L) (toHash (op_ObjectID op)))) as [H2 H3].
    destruct H1 as [H1 H1']. rewrite <- Hfl.
    apply ledger_ok_same; [done|congruence|congruence|apply deposits_setParent].
Qed.

Lemma applyDelete_holds L T R fl gas hasGas op :
  Holds L T R fl ->
  exists L', applyDelete E c L gas hasGas op = Some L' /\
    Holds L' (a_delete T (toHash (op_ObjectID op))) R fl /\
    l_validators L' = l_validators L /\ l_domains L' = l_domains L.
Proof using BodyHooks0 Hparams Hbps.
  intros [HR HD (st & Hst & Hok & Hfl)]. unfold applyDelete.
  destruct (settleDeletion_slack c L st params T (toHash (op_ObjectID op)) gas hasGas HR Hst Hparams Hbps Hok)
    as (L1 & st1 & refund & Hse & HR1 & Hst1 & Hv & Hd & Hsl & Hok1 & _).
  rewrite Hse. simpl. rewrite Hst1. simpl. eexists. split; [done|]. split; [|done].
  split; [done|cbn [l_domains set_coins]; by rewrite Hd|]. eexists. split; [done|].
  cbn [l_validators set_coins]. rewrite Hv, <- Hfl, <- Hsl.
  destruct (hook_deleted st1 (toHash (op_ObjectID op))) as [H1 H2].
  by apply ledger_ok_same.
Qed.

(** A leaf written through, and a name removed. *)
Lemma writeDomainLeaf_holds L T R fl db name leaf :
  Holds L T R fl -> l_domains L = Some db -> wf_leaf leaf ->
  exists L' db', writeDomainLeaf L name leaf = Some L' /\ Holds L' T (<[name := leaf]> R) fl /\
    l_validators L' = l_validators L /\ l_domains L' = Some db'.
Proof using Type.
  intros [HR HD HC] Hdb Hw. unfold writeDomainLeaf. rewrite Hdb. simpl.
  rewrite Hdb in HD. eexists _, _. split; [done|]. split; [|done].
  split; [done|by apply DRep_set|done].
Qed.

Lemma removeDomain_holds L T R fl db name :
  Holds L T R fl -> l_domains L = Some db ->
  Holds (feed (set_domains L (Some (DeleteDomainLeaf db name))) (RemoveDomain name)) T (delete name R) fl.
Proof using Type.
  intros [HR HD HC] Hdb. rewrite Hdb in HD. split; [done|by apply DRep_delete|done].
Qed.

Lemma applyDomainOp_holds L T R fl db sender epoch maxTerm op :
  Holds L T R fl -> l_domains L = Some db -> length sender = 32%nat ->
  is_u64 epoch -> is_u64 maxTerm -> is_u64 (op_TermEpochs op) ->
  exists L' db', applyDomainOp L sender epoch maxTerm op = Some L' /\
    Holds L' T (a_applyDomain sender epoch maxTerm R op) fl /\
    l_validators L' = l_validators L /\ l_domains L' = Some db'.
Proof using Type.
  intros HL Hdb Hsl He Hm Ht. pose proof (hd_domains _ _ _ _ HL) as HD. rewrite Hdb in HD. simpl in HD.
  assert (Hkeep : exists L' db', Some L = Some L' /\ Holds L' T R fl /\
    l_validators L' = l_validators L /\ l_domains L' = Some db') by eauto 10.
  unfold applyDomainOp, a_applyDomain. cbv zeta.
  destruct (Z.eqb_spec (op_Kind op) domainRegisterOp) as [Hk|Hk].
  { unfold applyDomainRegister. destruct (domainExpiry 0 epoch _ maxTerm) as [x|] eqn:Ex; [|done].
    destruct (domainExpiry_Some _ _ _ _ _ is_u64_0 He Ht Hm Ex) as (Hx & _).
    apply (writeDomainLeaf_holds L T R fl db); auto. split; simpl; auto using length_toHash. }
  unfold applyDomainRenew, applyDomainUpdate, applyDomainTransfer, applyDomainDelete. rewrite Hdb. simpl.
  rewrite !(DRep_leaf db R _ HD). destruct (R !! op_Name op) as [leaf|] eqn:El.
  - assert (Hw : wf_leaf leaf) by (destruct HD as [Hw _]; by apply (Hw (op_Name op))).
    destruct Hw as [Hw1 Hw2 Hw3].
    destruct (op_Kind op =? domainRenewOp).
    { destruct (domainExpiry (expiry leaf) epoch _ maxTerm) as [x|] eqn:Ex; [|done].
      destruct (domainExpiry_Some _ _ _ _ _ Hw3 He Ht Hm Ex) as (Hx & _).
      apply (writeDomainLeaf_holds L T R fl db); auto. by split. }
    destruct (op_Kind op =? domainUpdateOp).
    { apply (writeDomainLeaf_holds L T R fl db); auto. split; simpl; auto using length_toHash. }
    destruct (op_Kind op =? domainTransferOp).
    { apply (writeDomainLeaf_holds L T R fl db); auto. split; simpl; auto using length_toHash. }
    destruct (op_Kind op =? domainDeleteOp); [|done].
    eexists _, _. split; [done|]. split; [by apply removeDomain_holds|done].
  - destruct (op_Kind op =? domainRenewOp); [done|]. destruct (op_Kind op =? domainUpdateOp); [done|].
    destruct (op_Kind op =? domainTransferOp); [done|]. destruct (op_Kind op =? domainDeleteOp); [|done].
    eexists _, _. split; [done|]. split; [|done].
    rewrite <- (delete_id R (op_Name op)) by done. by apply removeDomain_holds.
Qed.

(** One accepted operation, all kinds. *)
Lemma applyOp_holds L T R fl refs gas sender epoch maxTerm op :
  Holds L T R fl -> wf_decl op -> length sender = 32%nat -> is_u64 epoch -> is_u64 maxTerm ->
  opAllowed refs T R sender op ->
  (reparentOp <> op_Kind op -> deleteOp <> op_Kind op -> is_Some (l_domains L)) ->
  exists L', applyOp E c gas sender epoch maxTerm L op = Some L' /\
    Holds L' (a_applyTracker T op) (a_applyDomain sender epoch maxTerm R op) fl /\
    l_validators L' = l_validators L /\ (is_Some (l_domains L) <-> is_Some (l_domains L')).
Proof using BodyHooks0 Hparams Hbps.
  intros HL Hw Hsl He Hm Hal Hds. unfold applyOp, a_applyTracker.
  destruct (Z.eqb_spec (op_Kind op) reparentOp) as [Hk|Hk].
  { rewrite a_applyDomain_object by auto. eexists. split; [done|].
    destruct (applyReparent_holds L T R fl op HL (wd_tkind _ Hw)) as (H1 & H2 & H3). by rewrite H3. }
  destruct (Z.eqb_spec (op_Kind op) deleteOp) as [Hk'|Hk'].
  { rewrite a_applyDomain_object by auto.
    destruct (applyDelete_holds L T R fl (default zeroHash gas) (bool_decide (is_Some gas)) op HL)
      as (L' & H1 & H2 & H3 & H4). exists L'. by rewrite H4. }
  destruct (Hds ltac:(congruence) ltac:(congruence)) as [db Hdb].
  destruct (applyDomainOp_holds L T R fl db sender epoch maxTerm op HL Hdb Hsl He Hm (wd_term _ Hw))
    as (L' & db' & H1 & H2 & H3 & H4). exists L'. split; [done|]. split; [done|]. split; [done|].
  rewrite Hdb, H4. by split; eexists.
Qed.

(** Every operation allowed at the state it meets. *)
Fixpoint allAllowed (refs : gset Hash) (sender : Hash) (epoch maxTerm : Z) T R (ops : list DeclaredOp) : Prop :=
  match ops with
  | [] => True
  | op :: ops => opAllowed refs T R sender op /\
      allAllowed refs sender epoch maxTerm (a_applyTracker T op) (a_applyDomain sender epoch maxTerm R op) ops
  end.

(** The whole list: validation and application walk the same states. *)
Lemma applyDeclaredOps_staged (ot : M) T0 s s' L T R fl refs gas sender epoch maxTerm ops :
  Rep ot T0 -> forest_ok T0 -> Z.of_nat (size T0) < two32 ->
  Staged ot T0 s T R -> Holds L T R fl -> Forall wf_decl ops ->
  length sender = 32%nat -> is_u64 epoch -> is_u64 maxTerm ->
  sv_epoch s = epoch -> sv_maxTerm s = maxTerm -> (is_Some (sv_ds s) <-> is_Some (l_domains L)) ->
  validateAll s sender ops refs = Some s' ->
  let T' := foldl a_applyTracker T ops in
  let R' := foldl (a_applyDomain sender epoch maxTerm) R ops in
  exists L', applyDeclaredOps E c gas sender epoch maxTerm ops L = Some L' /\
    Holds L' T' R' fl /\ Staged ot T0 s' T' R' /\ l_validators L' = l_validators L /\
    (is_Some (l_domains L) <-> is_Some (l_domains L')) /\
    allAllowed refs sender epoch maxTerm T R ops.
Proof using BodyHooks0 Hparams Hbps.
  intros HR0 HF0 Hsz. revert s L T R.
  induction ops as [|op ops IH]; intros s L T R Hs HL Hw Hsl He Hm Hse Hsm Hds Hv; simpl in *.
  - injection Hv as <-. exists L. split_and!; auto.
  - destruct (validate s sender op refs) as [s1|] eqn:E1; [|done]. simpl in Hv.
    inversion Hw as [|? ? Hw1 Hw2]; subst.
    destruct (validate_step ot T0 HR0 HF0 Hsz s T R sender op refs s1 Hs E1) as (Hs1 & (Te & Tm & Td) & Hal).
    destruct (applyOp_holds L T R fl refs gas sender (sv_epoch s) (sv_maxTerm s) op) as (L1 & HA1 & HL1 & Hv1 & Hd1);
      auto.
    { intros N1 N2. apply Hds. unfold validate in E1. destruct (_ <? _); [done|].
      destruct (Z.eqb_spec (op_Kind op) reparentOp); [congruence|].
      destruct (Z.eqb_spec (op_Kind op) deleteOp); [congruence|].
      unfold validateDomainOp in E1. destruct (sv_ds s); [by eexists|done]. }
    rewrite HA1. simpl.
    destruct (IH s1 L1 _ _ Hs1 HL1 Hw2 Hsl He Hm Te Tm) as (L' & HA & HL' & Hs' & Hv' & Hd' & Hall); auto.
    { rewrite Td. tauto. }
    exists L'. split_and!; auto; [congruence|tauto].
Qed.

End Apply.

(** ** Ownership *)

Lemma adjust_lookup_ne T k q d x :
  (k = objectParentKind -> x <> q) -> a_adjust T k q d !! x = T !! x.
Proof.
  intros Hx. unfold a_adjust. destruct (Z.eqb_spec k objectParentKind) as [Hk|]; [|done].
  rewrite lookup_alter_ne; [done|]. specialize (Hx Hk). congruence.
Qed.

Lemma track_lookup_ne T id v r f k p x :
  x <> id -> (k = objectParentKind -> x <> p) -> (forall q, a_edge T id = Some (objectParentKind, q) -> x <> q) ->
  a_track T id v r f k p !! x = T !! x.
Proof.
  intros Hx Hk Ho. unfold a_track, a_rebind.
  destruct (a_edge T id) as [[k' q]|]; [destruct (_ && _)|]; rewrite ?adjust_lookup_ne; auto;
    try (by rewrite lookup_insert_ne by congruence); intros ->; by apply Ho.
Qed.

Lemma delete_lookup_ne T id x :
  x <> id -> (forall q, a_edge T id = Some (objectParentKind, q) -> x <> q) -> a_delete T id !! x = T !! x.
Proof.
  intros Hx Ho. unfold a_delete. destruct (a_edge T id) as [[k' q]|]; [|done].
  rewrite adjust_lookup_ne; [by rewrite lookup_delete_ne by congruence|]. intros ->. by apply Ho.
Qed.

(** An operation on the sender's object leaves another key's entry alone. *)
Lemma opAllowed_entry refs T R sender op x n key :
  opAllowed refs T R sender op -> Rooted (a_edge T) x n key -> key <> sender ->
  a_applyTracker T op !! x = T !! x /\ Rooted (a_edge (a_applyTracker T op)) x n key.
Proof.
  intros Hal Hr Hne.
  assert (Hoff : forall id, (exists m, Rooted (a_edge T) id m sender) ->
    x <> id /\ ~ Above (a_edge T) x id /\ (forall q, a_edge T id = Some (objectParentKind, q) -> x <> q)).
  { intros id [m Hm]. assert (Hna : ~ Above (a_edge T) x id).
    { intros Ha. destruct (Above_rooted _ _ _ _ _ Hr Ha) as [m' Hm'].
      destruct (Rooted_det _ _ _ _ _ _ Hm Hm'). congruence. }
    split; [intros ->; apply Hna; constructor|]. split; [done|].
    intros q Hq ->. inversion Hm as [? ? He|? ? ? ? ? He Hk Hrp]; rewrite Hq in He; simplify_eq.
    destruct (Rooted_det _ _ _ _ _ _ Hr Hrp). congruence. }
  destruct Hal as [(Hk & Hl & _ & Hid & Hlt & _ & Htg & _)|[(Hk & Hl & _ & Hid & _)|(Hk1 & Hk2 & _)]].
  - unfold a_applyTracker. rewrite Hk. change (reparentOp =? reparentOp) with true. cbv iota.
    rewrite !toHash_id by done. destruct (Hoff _ Hid) as (Hx & Hna & Ho). split.
    + unfold a_setParent. apply track_lookup_ne; auto. intros Ht ->. destruct (Htg Ht) as [m Hm].
      destruct (Rooted_det _ _ _ _ _ _ Hr Hm). congruence.
    + eapply Rooted_other; [|exact Hr|exact Hna]. intros y Hy. by rewrite a_edge_setParent, decide_False.
  - unfold a_applyTracker. rewrite Hk. change (deleteOp =? reparentOp) with false.
    change (deleteOp =? deleteOp) with true. cbv iota. rewrite !toHash_id by done.
    destruct (Hoff _ Hid) as (Hx & Hna & Ho). split; [by apply delete_lookup_ne|].
    eapply Rooted_other; [|exact Hr|exact Hna]. intros y Hy. by rewrite a_edge_delete, decide_False.
  - by rewrite a_applyTracker_domain.
Qed.

Lemma opAllowed_leaf refs T R sender epoch maxTerm op name leaf :
  opAllowed refs T R sender op -> R !! name = Some leaf -> owner leaf <> sender ->
  a_applyDomain sender epoch maxTerm R op !! name = Some leaf.
Proof.
  intros Hal Hn Ho. destruct Hal as [(Hk & _)|[(Hk & _)|(Hk1 & Hk2 & Hown)]];
    [by rewrite a_applyDomain_object by auto..|].
  assert (Hne : op_Name op <> name) by (intros <-; apply Ho; by apply Hown).
  unfold a_applyDomain. cbv zeta. destruct (_ =? domainRegisterOp).
  - destruct (domainExpiry _ _ _ _); by rewrite ?lookup_insert_ne.
  - destruct (R !! op_Name op) as [l|]; [|done]. split_ifs; rewrite ?lookup_insert_ne, ?lookup_delete_ne by done; try done.
    destruct (domainExpiry _ _ _ _); by rewrite ?lookup_insert_ne.
Qed.

Lemma allAllowed_untouched refs sender epoch maxTerm T R ops :
  allAllowed refs sender epoch maxTerm T R ops ->
  (forall x n key, Rooted (a_edge T) x n key -> key <> sender ->
     foldl a_applyTracker T ops !! x = T !! x) /\
  (forall name leaf, R !! name = Some leaf -> owner leaf <> sender ->
     foldl (a_applyDomain sender epoch maxTerm) R ops !! name = Some leaf).
Proof.
  revert T R. induction ops as [|op ops IH]; intros T R Hal; simpl; [done|].
  destruct Hal as [H1 H2]. destruct (IH _ _ H2) as [I1 I2]. split.
  - intros x n key Hr Hne. destruct (opAllowed_entry _ _ _ _ _ _ _ _ H1 Hr Hne) as [He Hr'].
    by rewrite (I1 x n key Hr' Hne).
  - intros name leaf Hn Ho. apply I2; [|done]. by apply (opAllowed_leaf refs T).
Qed.

(** ** The operation list of a transaction *)

(** The hypotheses shared by the theorems: a forest small enough for its 32-bit
    counts, governed parameters, widths of the header fields. *)
Record opsPre {M} `{Pebble M} (c : Config) (params : FeeParams) (L : Ledger M) (tx : Transaction)
    (epoch : Z) (T : gmap Hash Entry) (R : gmap bytes domainLeafView) (fl : Z) : Prop := {
  op_holds : Holds L T R fl;
  op_forest : forest_ok T;
  op_small : Z.of_nat (size T) < two32;
  op_params : feeParams c = Some params;
  op_bps : 0 <= StorageRefundBPS params <= bpsMax;
  op_maxTerm : is_u64 (MaxTermEpochs params);
  op_epoch : is_u64 epoch;
  op_decls : Forall wf_decl (tx_Operations tx);
}.

Definition leafOf {M} `{Pebble M} (L : Ledger M) (name : bytes) : option domainLeafView :=
  match l_domains L with Some db => DomainLeaf db name | None => None end.

Section Handle.
Context {M : Type} `{Pebble M} (E : Env M) `{!BodyHooks E} (c : Config).
Implicit Types (L : Ledger M) (T : gmap Hash Entry) (R : gmap bytes domainLeafView).

Lemma leafOf_holds L T R fl name : Holds L T R fl -> leafOf L name = R !! name.
Proof using Type.
  intros [_ HD _]. unfold leafOf, domainsHold in *. destruct (l_domains L) as [db|].
  - by apply DRep_leaf.
  - by rewrite HD, lookup_empty.
Qed.

Lemma newStagedView_staged L T R fl epoch maxTerm :
  Holds L T R fl -> forest_ok T ->
  Staged (l_tracker L) T (newStagedView (l_tracker L) (l_domains L) epoch maxTerm) T R.
Proof using Type.
  intros HL HF. split; auto.
  - intros x. unfold s_getParent, newStagedView. simpl.
    destruct (Rep_reads _ T x (hd_tracker _ _ _ _ HL)) as (_ & _ & _ & Hp & _). done.
  - intros x. unfold delta. simpl. rewrite lookup_empty. simpl. lia.
  - intros n. unfold s_getDomain. simpl. by apply (leafOf_holds L T R fl).
Qed.

(** Both outcomes, without a panic. *)
Lemma handleDeclaredOps_cases L T R fl params tx epoch :
  opsPre c params L tx epoch T R fl ->
  handleDeclaredOps E c L tx epoch = Some (L, false) \/
  exists L' s' sender, handleDeclaredOps E c L tx epoch = Some (L', true) /\
    hash32 (tx_Sender tx) = Some sender /\
    validateAll (newStagedView (l_tracker L) (l_domains L) epoch (MaxTermEpochs params)) sender
      (tx_Operations tx) (mutableRefIDSet tx) = Some s' /\
    let T' := foldl a_applyTracker T (tx_Operations tx) in
    let R' := foldl (a_applyDomain sender epoch (MaxTermEpochs params)) R (tx_Operations tx) in
    Holds L' T' R' fl /\ Staged (l_tracker L) T s' T' R' /\ l_validators L' = l_validators L /\
    allAllowed (mutableRefIDSet tx) sender epoch (MaxTermEpochs params) T R (tx_Operations tx).
Proof using BodyHooks0.
  intros [HL HF Hsz Hp Hb Hm He Hw]. unfold handleDeclaredOps.
  destruct (hash32 (tx_Sender tx)) as [sender|] eqn:Es; [|by left]. apply hash32_Some in Es as [Es Hsl].
  case_bool_decide; [by left|]. destruct (Nat.eqb (length (tx_Operations tx)) 0); [by left|].
  unfold maxTermEpochs, mustFeeParams. rewrite Hp. simpl.
  destruct (validateAll _ _ _ _) as [s'|] eqn:Ev; [|by left]. right.
  destruct (applyDeclaredOps_staged E c params Hp Hb (l_tracker L) T _ s' L T R fl (mutableRefIDSet tx)
    (txGasCoinID tx) sender epoch (MaxTermEpochs params) (tx_Operations tx)
    (hd_tracker _ _ _ _ HL) HF Hsz (newStagedView_staged L T R fl _ _ HL HF) HL Hw Hsl He Hm
    eq_refl eq_refl ltac:(done) Ev) as (L' & HA & HL' & Hs' & Hv & _ & Hall).
  exists L', s', sender. rewrite HA. simpl. split_and!; auto.
Qed.

(** C31. Declared operations are all-or-nothing, and an accepted list leaves the tracker
    and the domain registry exactly as the staged view validated them, with the forest and
    the supply identity kept. *)
Theorem declared_ops_agree_with_staging L T R fl params tx epoch :
  opsPre c params L tx epoch T R fl ->
  exists L' ok, handleDeclaredOps E c L tx epoch = Some (L', ok) /\
    (ok = false -> L' = L) /\
    (ok = true -> exists s' sender T' R',
       validateAll (newStagedView (l_tracker L) (l_domains L) epoch (MaxTermEpochs params)) sender
         (tx_Operations tx) (mutableRefIDSet tx) = Some s' /\
       (forall id, getParent (l_tracker L') id = s_getParent s' id /\
                   childCount (l_tracker L') id = s_childCount s' id) /\
       (forall name, leafOf L' name = s_getDomain s' name) /\
       Holds L' T' R' fl /\ forest_ok T' /\ l_validators L' = l_validators L).
Proof using BodyHooks0.
  intros Hpre. destruct (handleDeclaredOps_cases L T R fl params tx epoch Hpre)
    as [Hr|(L' & s' & sender & Ha & _ & Hv & HL' & Hs' & Hvs & _)].
  - by exists L, false.
  - exists L', true. split; [done|]. split; [done|]. intros _.
    eexists s', sender, _, _. split; [done|]. split_and!; [| |exact HL'|apply Hs'|done].
    + intros id. destruct (Rep_reads _ _ id (hd_tracker _ _ _ _ HL')) as (_ & _ & _ & -> & ->).
      destruct Hpre. split; [by rewrite (sg_edge _ _ _ _ _ Hs')|].
      by rewrite (s_childCount_exact (l_tracker L) T (hd_tracker _ _ _ _ op_holds0) op_forest0 op_small0 s' _ _ id Hs').
    + intros name. rewrite (leafOf_holds L' _ _ _ name HL'). by rewrite (sg_domain _ _ _ _ _ Hs').
Qed.

(** C32. Declared operations leave untouched every tracked object whose controlling key is
    not the sender and every domain leaf the sender does not own. *)
Theorem declared_ops_respect_ownership L T R fl params tx epoch L' sender :
  opsPre c params L tx epoch T R fl ->
  handleDeclaredOps E c L tx epoch = Some (L', true) -> hash32 (tx_Sender tx) = Some sender ->
  (forall x key, controllerOf (getParent (l_tracker L)) x = Some key -> key <> sender ->
     Get (l_tracker L') (makeKey x) = Get (l_tracker L) (makeKey x)) /\
  (forall name leaf, leafOf L name = Some leaf -> owner leaf <> sender -> leafOf L' name = Some leaf).
Proof using BodyHooks0.
  intros Hpre Hh Hsender. destruct (handleDeclaredOps_cases L T R fl params tx epoch Hpre)
    as [Hr|(L1 & s' & sender1 & Ha & Hs1 & _ & HL' & _ & _ & Hall)]; [congruence|].
  rewrite Hh in Ha. injection Ha as <-. rewrite Hsender in Hs1. injection Hs1 as <-.
  destruct (allAllowed_untouched _ _ _ _ _ _ _ Hall) as [U1 U2]. pose proof (op_holds _ _ _ _ _ _ _ _ Hpre) as HL.
  split.
  - intros x key Hc Hne. apply walkController_spec in Hc as (n & Hr & _).
    apply (Rooted_ext _ (a_edge T)) in Hr.
    2:{ intros y. by destruct (Rep_reads _ T y (hd_tracker _ _ _ _ HL)) as (_ & _ & _ & -> & _). }
    specialize (U1 x n key Hr Hne). unfold Get. rewrite !db_get_spec.
    destruct (hd_tracker _ _ _ _ HL') as [_ ->], (hd_tracker _ _ _ _ HL) as [_ ->]. by rewrite U1.
  - intros name leaf Hl Ho. rewrite (leafOf_holds L _ _ _ name HL) in Hl.
    rewrite (leafOf_holds L' _ _ _ name HL'). by apply U2.
Qed.

End Handle.

(** ** A concrete ledger

    Key 7 controls [1] and, through it, [2]; key 8 controls [3].  The sender
    registers a name for [1], deletes [2] and hands [1] to key 8. *)

(** A toy hash that marks its outputs with a leading 9. *)
Definition sampleCrypto : Crypto :=
  mkCrypto (fun b => 9 :: take 31 (drop 22 b ++ replicate 31 0)) (fun u => u_sender u ++ reverse (u_args u))
    (fun _ _ _ => true) (fun _ _ _ _ => true).

Definition sampleEnv : Env (gmap bytes bytes) :=
  mkEnv _ sampleCrypto None None None
    (fun _ _ => []) None DeleteObject ReparentObject.

#[export] Instance sampleEnv_hooks : BodyHooks sampleEnv.
Proof.
  split; intros; [done|]. unfold sampleEnv, ReparentObject. simpl. by destruct (GetObject st id).
Qed.

Definition h (n : Z) : Hash := replicate 32 n.

Definition sampleTracker : gmap bytes bytes :=
  trackObject (trackObject (trackObject ∅ (h 1) 1 0 1025 0 (h 7)) (h 2) 0 0 1000 1 (h 1)) (h 3) 0 0 0 0 (h 8).
Definition sampleEntries : gmap Hash Entry :=
  a_track (a_track (a_track ∅ (h 1) 1 0 1025 0 (h 7)) (h 2) 0 0 1000 1 (h 1)) (h 3) 0 0 0 0 (h 8).

Lemma sampleTracker_rep : Rep sampleTracker sampleEntries.
Proof.
  unfold sampleTracker, sampleEntries.
  do 3 (apply Rep_track; [|unfold is_u64, is_byte; simpl; lia..]).
  apply Rep_empty. intros id. reflexivity.
Qed.

Lemma sampleEntries_forest : forest_ok sampleEntries.
Proof.
  unfold sampleEntries. apply forest_track; [|done]. apply forest_track.
  - apply forest_track; [apply map_Forall_empty|done].
  - intros _. left. vm_compute. eauto.
Qed.

Definition opsLedger : Ledger (gmap bytes bytes) :=
  mkLedger sampleTracker (Some sampleRegistry)
    (Some (mkCoinStore (cs_objects sampleStore) 3000 105 None None)) (NewValidatorSet []) (Some []) [].

Definition opsTx : Transaction :=
  mkTransaction (h 5) [] [mkTxRef (h 1) 1 []; mkTxRef (h 2) 0 []] [] (h 7) [] [] [] [] 100 (h 1) [] [] 0 []
    [mkDeclaredOp domainRegisterOp (h 1) 0 [] (str "shop") 10;
     mkDeclaredOp deleteOp (h 2) 0 [] [] 0;
     mkDeclaredOp reparentOp (h 1) 0 (h 8) [] 0].

Lemma opsLedger_pre :
  opsPre sampleConfig DefaultFeeParams opsLedger opsTx 12 sampleEntries
    (<[str "new" := sampleLeaf 90]> (<[str "old" := sampleLeaf 5]> ∅)) 870.
Proof.
  split; try (unfold is_u64, bpsMax; simpl; lia).
  - split; [exact sampleTracker_rep|exact sampleRegistry_rep|].
    eexists. split; [reflexivity|]. split; [split|]; vm_compute; try done; split; congruence.
  - exact sampleEntries_forest.
  - vm_compute. reflexivity.
  - reflexivity.
  - cbn [tx_Operations opsTx].
    do 3 (apply List.Forall_cons; [split; unfold is_byte, is_u64, domainRegisterOp, deleteOp, reparentOp; simpl; lia|]). apply List.Forall_nil.
Qed.

Theorem declared_ops_agree_with_staging_witness :
  (exists L', handleDeclaredOps sampleEnv sampleConfig opsLedger opsTx 12 = Some (L', true) /\
     getParent (l_tracker L') (h 1) = Some (0, h 8) /\ getParent (l_tracker L') (h 2) = None /\
     childCount (l_tracker L') (h 1) = 0 /\ expiry <$> leafOf L' (str "shop") = Some 22) /\
  exists L' ok, handleDeclaredOps sampleEnv sampleConfig opsLedger opsTx 12 = Some (L', ok) /\
    (ok = false -> L' = opsLedger).
Proof.
  split.
  - eexists. split; [vm_compute; reflexivity|]. vm_compute. auto.
  - destruct (declared_ops_agree_with_staging sampleEnv sampleConfig opsLedger sampleEntries _ 870
      DefaultFeeParams opsTx 12 opsLedger_pre) as (L' & ok & H1 & H2 & _).
    exists L', ok. split; [exact H1|exact H2].
Defined.

Definition opsResult : Ledger (gmap bytes bytes) :=
  match handleDeclaredOps sampleEnv sampleConfig opsLedger opsTx 12 with
  | Some (L, _) => L
  | None => opsLedger
  end.

Theorem declared_ops_respect_ownership_witness :
  controllerOf (getParent (l_tracker opsLedger)) (h 3) = Some (h 8) /\
  Get (l_tracker opsResult) (makeKey (h 3)) = Get (l_tracker opsLedger) (makeKey (h 3)).
Proof.
  assert (Hc : controllerOf (getParent (l_tracker opsLedger)) (h 3) = Some (h 8)) by (vm_compute; reflexivity).
  split; [exact Hc|].
  refine (proj1 (declared_ops_respect_ownership sampleEnv sampleConfig opsLedger sampleEntries _ 870
    DefaultFeeParams opsTx 12 opsResult (h 7) opsLedger_pre _ _) (h 3) (h 8) Hc _).
  - vm_compute. reflexivity.
  - vm_compute. reflexivity.
  - vm_compute. congruence.
Defined.
