(* ===== verification/Dag.v ===== *)
(** * Membership, epochs and the commit regime (internal/consensus/dag.go,
    regime.go, eligible.go, and the epoch selectors of epoch.go)

    The DAG's consensus state around the ledger: the committed member set, the
    strict-regime latch, the frozen holder snapshots with their eligible sets,
    and the per-epoch fee and liveness buckets. *)

From S2P Require Import Prelude Types Fees Validators Stake Storage Tracker Domains Staged Coins Ledger Ops.

(** [committedMembers], the produced set, the latch and the production posture. *)
Record Regime := mkRegime {
  committedMembers : gset Hash;
  producedMembers : gset Hash;
  strictLatched : bool;
  strictStartRound : Z;
  transitionRound : Z;           (* -1: minValidators not reached *)
  fullQuorumAchieved : bool;
  regimeDirty : bool;
  producedDirty : bool;
}.

(** [epochSnapshot], the atomically published quad. *)
Record epochSnapshot := mkSnapshot {
  sn_epoch : Z;
  sn_holders : option ValidatorSet;
  sn_prev : option ValidatorSet;
  sn_next : option ValidatorSet;
}.

Record Epochs := mkEpochs {
  currentEpoch : Z;
  epochHolders : option ValidatorSet;
  prevEpochHolders : option ValidatorSet;
  nextEpochHolders : option ValidatorSet;
  eligibleHolders : option (gset Hash);
  prevEligibleHolders : option (gset Hash);
  nextEligibleHolders : option (gset Hash);
  epochMirror : option epochSnapshot;
  pendingRemovals : gset Hash;
  epochAdditions : list Hash;
}.

(** Fees and liveness by the epoch a vertex's round belongs to, and the rate. *)
Record Rewards := mkRewards {
  epochFees : gmap Z Z;
  epochRoundsProduced : gmap Z (gmap Hash Z);
  issuanceRateMicro : Z;
}.

Record DAG (M : Type) := mkDAG {
  d_ledger : Ledger M;
  d_regime : Regime;
  d_epochs : Epochs;
  d_rewards : Rewards;
}.

Arguments mkDAG {M}. Arguments d_ledger {M}. Arguments d_regime {M}.
Arguments d_epochs {M}. Arguments d_rewards {M}.

Section DagState.
Context {M : Type} (c : Config).
Implicit Types (d : DAG M).

Definition set_ledger d (L : Ledger M) : DAG M := mkDAG L (d_regime d) (d_epochs d) (d_rewards d).
Definition set_regime d (r : Regime) : DAG M := mkDAG (d_ledger d) r (d_epochs d) (d_rewards d).
Definition set_epochs d (e : Epochs) : DAG M := mkDAG (d_ledger d) (d_regime d) e (d_rewards d).
Definition set_rewards d (w : Rewards) : DAG M := mkDAG (d_ledger d) (d_regime d) (d_epochs d) w.

(** [effectiveGrace] and [effectiveBuffer]. *)
Definition transitionGraceRounds : Z := 20.
Definition transitionBufferRounds : Z := 10.
Definition effectiveGrace : Z := if 0 <? graceRounds c then graceRounds c else transitionGraceRounds.
Definition effectiveBuffer : Z := if 0 <? bufferRounds c then bufferRounds c else transitionBufferRounds.

(** ** The latch (regime.go) *)

Definition roundIsRelaxed d (round : Z) : bool :=
  if minValidators c =? 0 then false
  else negb (strictLatched (d_regime d)) || (round <? strictStartRound (d_regime d)).

Definition latchStrictRegime d (atRound : Z) : DAG M :=
  let r := d_regime d in
  if strictLatched r then d
  else
    let start := atRound +w effectiveGrace +w effectiveBuffer in
    let floor := atRound +w 1 in
    let start := if start <? floor then floor else start in
    set_regime d (mkRegime (committedMembers r) (producedMembers r) true start
                    (transitionRound r) (fullQuorumAchieved r) true (producedDirty r)).

(** [committedStakedMemberCount]. *)
Definition stakedMember (vs : ValidatorSet) (pk : Hash) : bool :=
  match Validators.Get vs pk with Some v => 0 <? SelfStake v | None => false end.

Definition committedStakedMemberCount d : Z :=
  Z.of_nat (length (filter (fun pk => stakedMember (l_validators (d_ledger d)) pk = true)
                           (elements (committedMembers (d_regime d))))).

(** [sortedMemberKeys]. *)
Definition sortedMemberKeys (set : gset Hash) : list Hash := sortHashes (elements set).

Definition addFrozen (frozen : ValidatorSet) (v : ValidatorInfo) : ValidatorSet :=
  AddWithStake frozen (Pubkey v) (QUICAddr v) (BLSPubkey v) (SelfStake v) (DelegatedTotal v) (Jailed v).

(** [freezeGenesisHolders]. *)
Definition memberInfo d (pk : Hash) : option ValidatorInfo :=
  match Validators.Get (l_validators (d_ledger d)) pk with
  | Some v => Some v
  | None => holders ← epochHolders (d_epochs d); Validators.Get holders pk
  end.

Definition freezeGenesisHolders d : ValidatorSet :=
  foldl (fun frozen pk => match memberInfo d pk with Some v => addFrozen frozen v | None => frozen end)
        (NewValidatorSet []) (sortedMemberKeys (committedMembers (d_regime d))).

(** [snapshotOf]. *)
Definition snapshotOf (vs : ValidatorSet) : ValidatorSet :=
  foldl addFrozen (NewValidatorSet []) (All vs).

(** ** Eligibility (eligible.go) *)

Definition recordProducedMember d (pk : Hash) : DAG M :=
  let r := d_regime d in
  if bool_decide (pk ∈ producedMembers r) then d
  else set_regime d (mkRegime (committedMembers r) ({[ pk ]} ∪ producedMembers r) (strictLatched r)
         (strictStartRound r) (transitionRound r) (fullQuorumAchieved r) (regimeDirty r) true).

(** [snapshotProduced]: the sets are immutable here, the copy is the set. *)
Definition snapshotProduced d : gset Hash := producedMembers (d_regime d).

Definition eligibleForEpoch d (epoch : Z) : option (gset Hash) :=
  let e := d_epochs d in
  if epoch =? currentEpoch e then eligibleHolders e
  else if (0 <? currentEpoch e) && (epoch =? currentEpoch e - 1) then prevEligibleHolders e
  else if epoch =? currentEpoch e +w 1 then
    match nextEligibleHolders e with
    | Some s => Some s
    | None => if currentEpoch e =? 0 then eligibleHolders e else None
    end
  else None.

Definition eligibleKeys (holders : ValidatorSet) (eligible : option (gset Hash)) : list Hash :=
  let keys := SortedKeys holders in
  match eligible with
  | None => keys
  | Some s =>
      if Nat.eqb (size s) 0 then keys
      else
        let filtered := filter (fun k => k ∈ s) keys in
        if Nat.eqb (length filtered) 0 then keys else filtered
  end.

(** [encodeMemberSet] and [decodeMemberSet]. *)
Definition encodeMemberSet (set : gset Hash) : bytes :=
  let keys := sortedMemberKeys set in
  be_enc 4 (u32 (Z.of_nat (length keys))) ++ concat keys.

Fixpoint decodeKeys (count : nat) (data : bytes) : list Hash :=
  match count with
  | O => []
  | S count => toHash (take 32 data) :: decodeKeys count (drop 32 data)
  end.

Definition decodeMemberSet (data : bytes) : option (gset Hash) :=
  if Nat.ltb (length data) 4 then None
  else
    let count := Z.to_nat (be_dec (take 4 data)) in
    if Nat.eqb count 0 || Nat.ltb (length data) (4 + count * 32) then None
    else Some (list_to_set (decodeKeys count (drop 4 data))).

(** ** Publishing and selecting snapshots (epoch.go) *)

Definition publishEpochMirror d : DAG M :=
  let e := d_epochs d in
  set_epochs d (mkEpochs (currentEpoch e) (epochHolders e) (prevEpochHolders e) (nextEpochHolders e)
    (eligibleHolders e) (prevEligibleHolders e) (nextEligibleHolders e)
    (Some (mkSnapshot (currentEpoch e) (epochHolders e) (prevEpochHolders e) (nextEpochHolders e)))
    (pendingRemovals e) (epochAdditions e)).

Definition HoldersForEpoch d (epoch : Z) : option ValidatorSet :=
  match epochMirror (d_epochs d) with
  | None => None
  | Some snap =>
      if epoch =? sn_epoch snap then sn_holders snap
      else if (0 <? sn_epoch snap) && (epoch =? sn_epoch snap - 1) && bool_decide (is_Some (sn_prev snap))
      then sn_prev snap
      else if epoch =? sn_epoch snap +w 1 then
        match sn_next snap with
        | Some vs => Some vs
        | None => if sn_epoch snap =? 0 then sn_holders snap else None
        end
      else None
  end.

Definition rebuildIndexValidators (L : Ledger M) (epoch : Z) (holders : list ValidatorInfo) : Ledger M :=
  feed L (RebuildValidators epoch holders).

(** [refreezeGenesisRegime]. *)
Definition refreezeGenesisRegime d (atRound : Z) : DAG M :=
  if strictLatched (d_regime d) then d
  else
    let d :=
      if currentEpoch (d_epochs d) =? 0 then
        let frozen := freezeGenesisHolders d in
        let e := d_epochs d in
        let r := d_regime d in
        let d := set_epochs d (mkEpochs (currentEpoch e) (Some frozen) (prevEpochHolders e)
          (nextEpochHolders e) (Some (snapshotProduced d)) (prevEligibleHolders e)
          (nextEligibleHolders e) (epochMirror e) (pendingRemovals e) (epochAdditions e)) in
        let d := set_regime d (mkRegime (committedMembers r) (producedMembers r) (strictLatched r)
          (strictStartRound r) (transitionRound r) (fullQuorumAchieved r) true (producedDirty r)) in
        let d := set_ledger d (rebuildIndexValidators (d_ledger d) (currentEpoch e) (All frozen)) in
        publishEpochMirror d
      else d in
    if (0 <? minValidators c) && (minValidators c <=? committedStakedMemberCount d)
    then latchStrictRegime d atRound else d.

(** [recordCommittedMember]. *)
Definition recordCommittedMember d (pk : Hash) (atRound : Z) : DAG M :=
  let r := d_regime d in
  if bool_decide (pk ∈ committedMembers r) then d
  else refreezeGenesisRegime
    (set_regime d (mkRegime ({[ pk ]} ∪ committedMembers r) (producedMembers r) (strictLatched r)
      (strictStartRound r) (transitionRound r) (fullQuorumAchieved r) true (producedDirty r))) atRound.

(** [enterTransition]: compare-and-swap from -1. *)
Definition enterTransition d (atRound : Z) : DAG M :=
  let r := d_regime d in
  if transitionRound r =? -1 then
    set_regime d (mkRegime (committedMembers r) (producedMembers r) (strictLatched r)
      (strictStartRound r) atRound (fullQuorumAchieved r) (regimeDirty r) (producedDirty r))
  else d.

(** [restoreCommittedMembers], from the persisted bytes. *)
Definition restoreCommittedMembers d (stored : bytes) : DAG M :=
  let r := d_regime d in
  let put s := set_regime d (mkRegime s (producedMembers r) (strictLatched r)
      (strictStartRound r) (transitionRound r) (fullQuorumAchieved r) (regimeDirty r) (producedDirty r)) in
  match decodeMemberSet stored with
  | Some members => put members
  | None =>
      if negb (currentEpoch (d_epochs d) =? 0) then d
      else match epochHolders (d_epochs d) with
      | None => d
      | Some vs => put (list_to_set (Validators vs))
      end
  end.

End DagState.

(** ** The regime of a decided round is final *)

Inductive RegimeEvent :=
| RegRegister (pk : Hash)      (* a committed registration *)
| RegBond                      (* a committed bond *)
| RegProduced (pk : Hash)      (* a vertex marked committed *)
| RegTransition.               (* minValidators reached *)

Definition runRegime {M} (c : Config) (d : DAG M) (ev : Z * RegimeEvent) : DAG M :=
  match snd ev with
  | RegRegister pk => recordCommittedMember c d pk (fst ev)
  | RegBond => refreezeGenesisRegime c d (fst ev)
  | RegProduced pk => recordProducedMember d pk
  | RegTransition => enterTransition d (fst ev)
  end.

Section RegimeFacts.
Context {M : Type} (c : Config).
Implicit Types (d : DAG M).

(** The regime reads nothing but the latch. *)
Lemma roundIsRelaxed_latch d d' q :
  strictLatched (d_regime d') = strictLatched (d_regime d) ->
  strictStartRound (d_regime d') = strictStartRound (d_regime d) ->
  roundIsRelaxed c d' q = roundIsRelaxed c d q.
Proof. intros H1 H2. unfold roundIsRelaxed. by rewrite H1, H2. Qed.

Lemma latch_keeps d atRound q :
  q <= atRound -> 0 <= atRound < max64 -> 0 < minValidators c -> roundIsRelaxed c (latchStrictRegime c d atRound) q = roundIsRelaxed c d q.
Proof.
  intros Hq Ha Hm. unfold latchStrictRegime. destruct (strictLatched (d_regime d)) eqn:El; [done|].
  unfold roundIsRelaxed. rewrite El. destruct (Z.eqb_spec (minValidators c) 0); [done|]. simpl.
  rewrite (add64_exact atRound 1) by u64_lia.
  set (s := _ +w effectiveBuffer c). destruct (Z.ltb_spec s (atRound + 1)); apply Z.ltb_lt; lia.
Qed.

Lemma refreeze_keeps d atRound q :
  q <= atRound -> 0 <= atRound < max64 ->
  roundIsRelaxed c (refreezeGenesisRegime c d atRound) q = roundIsRelaxed c d q.
Proof.
  intros Hq Ha. unfold refreezeGenesisRegime. destruct (strictLatched (d_regime d)) eqn:El; [done|].
  set (d1 := if currentEpoch (d_epochs d) =? 0 then _ else d).
  assert (H1 : roundIsRelaxed c d1 q = roundIsRelaxed c d q).
  { unfold d1. destruct (currentEpoch (d_epochs d) =? 0); [|done].
    apply roundIsRelaxed_latch; simpl; congruence. }
  rewrite <- H1. destruct (Z.ltb_spec 0 (minValidators c)); [|done]. simpl.
  destruct (_ <=? _); [|done]. by apply latch_keeps.
Qed.

Lemma runRegime_keeps d ev q :
  q <= fst ev -> 0 <= fst ev < max64 -> roundIsRelaxed c (runRegime c d ev) q = roundIsRelaxed c d q.
Proof.
  intros Hq Ha. destruct ev as [a [pk| |pk|]]; unfold runRegime; simpl in *.
  - unfold recordCommittedMember. case_bool_decide; [done|].
    rewrite refreeze_keeps by done. by apply roundIsRelaxed_latch.
  - by apply refreeze_keeps.
  - unfold recordProducedMember. case_bool_decide; [done|]. by apply roundIsRelaxed_latch.
  - unfold enterTransition. destruct (transitionRound (d_regime d) =? -1); [|done]. by apply roundIsRelaxed_latch.
Qed.

(** Whether a round is certified under the relaxed or the strict rule is never
    changed by registrations, bonds or vertices committed at or after that round: the
    strict regime always starts strictly later. *)
Theorem regime_of_decided_round_is_final d events q :
  Forall (fun ev => q <= fst ev /\ 0 <= fst ev < max64) events ->
  roundIsRelaxed c (foldl (runRegime c) d events) q = roundIsRelaxed c d q.
Proof.
  intros Hev. revert d. induction Hev as [|ev evs [Hq Ha] Hevs IH]; intros d; simpl; [done|].
  rewrite IH. by apply runRegime_keeps.
Qed.

End RegimeFacts.

(** Three bonded members complete the bootstrap at round 9: the latch starts the
    strict regime at round 39, and round 9 stays relaxed. *)
Definition regimeConfig : Config :=
  mkConfig (replicate 32 0) (Some DefaultFeeParams) 0 1 1000 100 0 0 100 0 (thermostat sampleConfig).

Definition emptyLedger : Ledger (gmap bytes bytes) :=
  mkLedger ∅ None None (SetSelfStake (NewValidatorSet [h 1]) (h 1) 50) None [].

Definition emptyDag : DAG (gmap bytes bytes) :=
  mkDAG emptyLedger (mkRegime ∅ ∅ false 0 (-1) false false false)
    (mkEpochs 0 None None None None None None None ∅ []) (mkRewards ∅ ∅ 0).

Theorem regime_of_decided_round_is_final_witness :
  let evs := [(9, RegRegister (h 1)); (12, RegBond)] in
  strictStartRound (d_regime (foldl (runRegime regimeConfig) emptyDag evs)) = 39 /\
  roundIsRelaxed regimeConfig (foldl (runRegime regimeConfig) emptyDag evs) 9 = roundIsRelaxed regimeConfig emptyDag 9.
Proof.
  cbv zeta. split; [vm_compute; reflexivity|].
  apply (regime_of_decided_round_is_final regimeConfig emptyDag [(9, RegRegister (h 1)); (12, RegBond)] 9).
  repeat constructor; simpl; lia.
Defined.

(** ** Rounds and epochs *)

(** Rounds are partitioned into epochs with each boundary round in the epoch it
    closes: epoch k serves exactly the rounds after k*length up to (k+1)*length. *)
Theorem commitEpochForRound_partition c round :
  0 < epochLength c -> 0 < round ->
  let k := commitEpochForRound c round in
  0 <= k /\ k * epochLength c < round <= (k + 1) * epochLength c.
Proof.
  intros Hl Hr. cbv zeta. unfold commitEpochForRound.
  destruct (Z.eqb_spec (epochLength c) 0); [lia|]. cbv zeta.
  pose proof (Z.div_mod round (epochLength c) ltac:(lia)) as Hdm.
  pose proof (Z.mod_pos_bound round (epochLength c) Hl) as Hm.
  pose proof (Z.div_pos round (epochLength c) ltac:(lia) Hl) as Hd.
  set (q := round / epochLength c) in *. set (m := round mod epochLength c) in *.
  destruct (Z.ltb_spec 0 q), (Z.eqb_spec m 0); simpl; nia.
Qed.

Theorem commitEpochForRound_partition_witness :
  commitEpochForRound regimeConfig 200 = 1 /\ 1 * 100 < 200 <= (1 + 1) * 100.
Proof.
  split; [vm_compute; reflexivity|].
  exact (proj2 (commitEpochForRound_partition regimeConfig 200 ltac:(reflexivity) ltac:(reflexivity))).
Defined.

(** ** Designation is never undefined *)

Lemma StronglySorted_filter {A} (R : A -> A -> Prop) (P : A -> Prop) `{forall x, Decision (P x)} l :
  StronglySorted R l -> StronglySorted R (filter P l).
Proof.
  induction 1 as [|x l Hl IH Hx]; [constructor|]. rewrite filter_cons. case_decide; [|done].
  constructor; [done|]. apply Forall_forall. intros y [_ Hy]%list_elem_of_filter.
  rewrite Forall_forall in Hx. by apply Hx.
Qed.

Lemma SortedKeys_In holders k : k ∈ SortedKeys holders <-> k ∈ Validators holders.
Proof. unfold SortedKeys. apply elem_of_sortHashes. Qed.

(** Designation is never undefined: over a non-empty committee the eligible keys are
    non-empty, sorted members, and only produced members when there is one. *)
Theorem eligibleKeys_defined holders eligible :
  Validators holders <> [] ->
  let keys := eligibleKeys holders eligible in
  keys <> [] /\ Sorted bytes_le keys /\ (forall k, k ∈ keys -> k ∈ Validators holders) /\
  (forall s k, eligible = Some s -> k ∈ s -> k ∈ Validators holders -> forall k', k' ∈ keys -> k' ∈ s).
Proof.
  intros Hne. cbv zeta.
  assert (Hk : SortedKeys holders <> []).
  { intros E. apply Hne. apply (f_equal length) in E. unfold SortedKeys in E.
    rewrite length_sortHashes in E. by apply nil_length_inv in E. }
  assert (Hs : Sorted bytes_le (SortedKeys holders)) by apply sortHashes_sorted.
  assert (Hin : forall k, k ∈ SortedKeys holders -> k ∈ Validators holders) by (intros; by apply SortedKeys_In).
  unfold eligibleKeys. cbv zeta. destruct eligible as [s|]; [|split_and!; auto; done].
  destruct (Nat.eqb_spec (size s) 0) as [E0|_].
  { split_and!; auto. intros s' k [= <-] Hk'. apply size_empty_inv in E0. set_solver. }
  set (f := filter (fun k => k ∈ s) (SortedKeys holders)).
  destruct (Nat.eqb_spec (length f) 0) as [E0|Hf].
  - split_and!; auto. intros s' k [= <-] Hks Hkv. exfalso. apply nil_length_inv in E0.
    assert (Hx : k ∈ f) by (apply list_elem_of_filter; split; [done|by apply SortedKeys_In]).
    rewrite E0 in Hx. by inversion Hx.
  - split_and!.
    + intros E. by rewrite E in Hf.
    + apply StronglySorted_Sorted. unfold f. apply Sorted_StronglySorted in Hs; [|apply _].
      by apply StronglySorted_filter.
    + intros k [_ Hx]%list_elem_of_filter. auto.
    + intros s' k [= <-] _ _ k' [Hx _]%list_elem_of_filter. done.
Qed.

Theorem eligibleKeys_defined_witness :
  eligibleKeys (NewValidatorSet [h 3; h 1; h 2]) (Some {[ h 2; h 9 ]}) = [h 2] /\
  eligibleKeys (NewValidatorSet [h 3; h 1; h 2]) (Some {[ h 9 ]}) <> [].
Proof.
  split; [vm_compute; reflexivity|].
  refine (proj1 (eligibleKeys_defined (NewValidatorSet [h 3; h 1; h 2]) (Some {[ h 9 ]}) _)).
  vm_compute. congruence.
Defined.

(** ** The member-set codec *)

Lemma length_concat32 (keys : list Hash) :
  Forall (fun k => length k = 32%nat) keys -> length (concat keys) = (length keys * 32)%nat.
Proof. induction 1 as [|k keys Hk Hks IH]; [done|]. cbn [concat]. rewrite length_app, Hk, IH. simpl. lia. Qed.

Lemma decodeKeys_concat keys :
  Forall (fun k => length k = 32%nat) keys -> decodeKeys (length keys) (concat keys) = keys.
Proof.
  induction 1 as [|k keys Hk Hks IH]; [done|]. cbn [concat length decodeKeys].
  rewrite take_app_le, take_ge by lia. rewrite toHash_id by done.
  rewrite drop_app_ge by lia. rewrite Hk, Nat.sub_diag, drop_0. by rewrite IH.
Qed.

Lemma length_sortedMemberKeys (s : gset Hash) : length (sortedMemberKeys s) = size s.
Proof. unfold sortedMemberKeys. by rewrite length_sortHashes. Qed.

Lemma memberSet_decode (s : gset Hash) :
  s <> ∅ -> set_Forall (fun k => length k = 32%nat) s -> Z.of_nat (size s) < two32 ->
  decodeMemberSet (encodeMemberSet s) = Some s.
Proof.
  intros Hne Hk Hsz. unfold decodeMemberSet, encodeMemberSet. cbv zeta.
  assert (Hks : Forall (fun k => length k = 32%nat) (sortedMemberKeys s)).
  { apply Forall_forall. intros k Hin. apply Hk. apply elem_of_elements.
    by apply elem_of_sortHashes. }
  assert (Hn : length (sortedMemberKeys s) = size s) by apply length_sortedMemberKeys.
  set (keys := sortedMemberKeys s) in *.
  rewrite take_app_le, take_ge by (rewrite length_be_enc; lia).
  rewrite drop_app_ge, length_be_enc, Nat.sub_diag, drop_0 by (rewrite length_be_enc; lia).
  rewrite length_app, length_be_enc, (length_concat32 keys Hks).
  destruct (Nat.ltb_spec (4 + length keys * 32) 4); [lia|].
  unfold u32. rewrite Z.mod_small by lia. rewrite be_dec_enc by (simpl; lia). rewrite Nat2Z.id.
  destruct (Nat.eqb_spec (length keys) 0) as [E|_].
  { rewrite Hn in E. apply size_empty_inv in E. set_solver. }
  destruct (Nat.ltb_spec (4 + length keys * 32) (4 + length keys * 32)); [lia|]. cbn [orb].
  rewrite (decodeKeys_concat keys Hks). f_equal. unfold keys, sortedMemberKeys.
  apply set_eq. intros x. rewrite elem_of_list_to_set, elem_of_sortHashes. apply elem_of_elements.
Qed.

(** A non-empty member set of 32-byte keys survives its persisted encoding. *)
Theorem memberSet_roundtrip (s : gset Hash) :
  s <> ∅ -> set_Forall (fun k => length k = 32%nat) s -> Z.of_nat (size s) < two32 ->
  decodeMemberSet (encodeMemberSet s) = Some s.
Proof. apply memberSet_decode. Qed.

Theorem memberSet_roundtrip_witness :
  decodeMemberSet (encodeMemberSet {[ h 1; h 2 ]}) = Some {[ h 1; h 2 ]}.
Proof.
  apply memberSet_roundtrip.
  - apply (bool_decide_unpack _). vm_compute. exact I.
  - apply (bool_decide_unpack _). vm_compute. exact I.
  - vm_compute. reflexivity.
Defined.

(** ** An optimistic self-add never enters a frozen committee *)

Lemma Add_Get_ne vs pk addr bls q :
  vs_ok vs -> q <> pk -> Validators.Get (fst (Add vs pk addr bls)) q = Validators.Get vs q.
Proof.
  intros Hok Hne. destruct (index vs !! pk) as [i|] eqn:Ei.
  - rewrite Add_known by eauto. simpl. rewrite updateAt_Get by done. by rewrite decide_False.
  - unfold Add. rewrite Ei. cbn [fst].
    change (mkSet (validators vs ++ [newInfo pk addr bls]) (<[pk := length (validators vs)]> (index vs)))
      with (append vs (newInfo pk addr bls)).
    rewrite append_Get by done. by rewrite decide_False.
Qed.

(** [AddValidator] (dag.go): the optimistic self-add of a joining node, at its
    current round. *)
Definition AddValidator {M} (c : Config) (d : DAG M) (pk : Hash) (addr bls : bytes) (round : Z) : DAG M :=
  let d := set_ledger d (set_validators (d_ledger d) (fst (Add (l_validators (d_ledger d)) pk addr bls))) in
  if (0 <? minValidators c) && (minValidators c <=? Len (l_validators (d_ledger d)))
  then enterTransition d round else d.

Lemma AddValidator_fields {M} (c : Config) (d : DAG M) pk addr bls round :
  let d' := AddValidator c d pk addr bls round in
  l_validators (d_ledger d') = fst (Add (l_validators (d_ledger d)) pk addr bls) /\
  committedMembers (d_regime d') = committedMembers (d_regime d) /\ d_epochs d' = d_epochs d.
Proof.
  cbv zeta. unfold AddValidator, enterTransition. destruct (_ && _); [|done].
  by destruct (transitionRound _ =? -1).
Qed.

Lemma foldl_ext_in {A B} (f g : A -> B -> A) l a :
  (forall a x, x ∈ l -> f a x = g a x) -> foldl f a l = foldl g a l.
Proof.
  revert a. induction l as [|x l IH]; intros a Hfg; simpl; [done|].
  rewrite (Hfg a x) by left. apply IH. intros a' y Hy. apply Hfg. by right.
Qed.

Lemma filter_ext_in {A} (P1 P2 : A -> Prop) `{forall x, Decision (P1 x), forall x, Decision (P2 x)} (l : list A) :
  (forall x, x ∈ l -> P1 x <-> P2 x) -> filter P1 l = filter P2 l.
Proof.
  induction l as [|x l IH]; intros Hx; [done|]. rewrite !filter_cons.
  assert (E : P1 x <-> P2 x) by (apply Hx; left).
  rewrite IH by (intros y Hy; apply Hx; by right). repeat case_decide; tauto.
Qed.

(** A node's optimistic addition of an uncommitted validator changes neither the
    frozen genesis committee nor the staked member count that arms the strict regime. *)
Theorem self_add_not_frozen {M} (c : Config) (d : DAG M) pk addr bls round :
  vs_ok (l_validators (d_ledger d)) -> pk ∉ committedMembers (d_regime d) ->
  freezeGenesisHolders (AddValidator c d pk addr bls round) = freezeGenesisHolders d /\
  committedStakedMemberCount (AddValidator c d pk addr bls round) = committedStakedMemberCount d.
Proof.
  intros Hok Hpk.
  assert (Hget : forall q, q ∈ committedMembers (d_regime d) ->
    Validators.Get (fst (Add (l_validators (d_ledger d)) pk addr bls)) q =
    Validators.Get (l_validators (d_ledger d)) q).
  { intros q Hq. apply Add_Get_ne; [done|]. intros ->. done. }
  destruct (AddValidator_fields c d pk addr bls round) as (Hv & Hm & He). split.
  - unfold freezeGenesisHolders. rewrite Hm. apply foldl_ext_in. intros frozen q Hq.
    apply elem_of_sortHashes, elem_of_elements in Hq. unfold memberInfo. by rewrite Hv, He, Hget.
  - unfold committedStakedMemberCount. rewrite Hm, Hv. do 2 f_equal. apply filter_ext_in.
    intros q Hq. apply elem_of_elements in Hq. unfold stakedMember. by rewrite Hget.
Qed.

Definition oneMemberDag : DAG (gmap bytes bytes) := recordCommittedMember regimeConfig emptyDag (h 1) 3.

Theorem self_add_not_frozen_witness :
  Validators (freezeGenesisHolders oneMemberDag) = [h 1] /\
  freezeGenesisHolders (AddValidator regimeConfig oneMemberDag (h 2) [] [] 7) = freezeGenesisHolders oneMemberDag.
Proof.
  split; [vm_compute; reflexivity|].
  refine (proj1 (self_add_not_frozen regimeConfig oneMemberDag (h 2) [] [] 7 _ _)).
  - change (vs_ok (SetSelfStake (NewValidatorSet [h 1]) (h 1) 50)). apply updateAt_ok; [done|].
    apply NewValidatorSet_ok. repeat constructor. set_solver.
  - apply (bool_decide_unpack _). vm_compute. exact I.
Defined.
