(* ===== verification/Execution.v ===== *)
(** * Pod execution (internal/state/state.go, output_validation.go)

    [State.Execute] between the pod runtime and the ledger: it gathers the
    objects a transaction works on, runs the pod, checks the pod's output
    against the creation, parent and deletion rules, and applies it.  The
    runtime (a WebAssembly engine) is the parameter [vm]; its output is the
    decoded [PodExecuteOutput] table.  The callbacks [cmd/node/aggregation.go]
    installs are in place: a created object is tracked and fed to the index
    ([TrackObject]), a parent is checked against the tracker
    ([ControlsParent]), the deposit reads the live validator count, and each
    body that is written and held is signed (the list of [SignRequest]). *)

From S2P Require Import Prelude Types Fees Validators Storage Tracker Domains Coins Ledger Dag.

(** ** Pod input and output (types/podio.fbs) *)

Record PodInput := mkPodInput {
  pi_Transaction : Transaction;
  pi_Sender : bytes;
  pi_LocalObjects : list Object;
}.

Record PodOutput := mkPodOutput {
  po_Error : Z;
  po_Updated : list Object;
  po_Created : list Object;
  po_Deleted : bytes;
  po_RegisteredDomains : list bytes;
}.

(** [pods.Execute(podID, input, gasLimit)]: [None] is an error, [Some None] an
    empty output. *)
Definition PodRuntime : Type := Hash -> PodInput -> Z -> option (option PodOutput).

Definition defaultGasLimit : Z := 10000000.

Inductive outputError :=
| errCreationLimit
| errRegisteredDomains
| errCreatedParent (i : nat)
| errNoInputCopy (i : nat)
| errParentChanged (i : nat)
| errOutputDeletes.

Inductive executeError :=
| errNoTransaction
| errPod
| errPodCode (code : Z)
| errOutput (e : outputError).

(** One call of the object signer. *)
Record SignRequest := mkSign {
  sr_id : Hash;
  sr_content : bytes;
  sr_version : Z;
  sr_replication : Z;
  sr_owner : bytes;
}.

(** ** Reading tables *)

Definition extractTxHash (tx : Transaction) : Hash := default zeroHash (hash32 (tx_Hash tx)).
Definition extractPodID (tx : Transaction) : Hash := default zeroHash (hash32 (tx_Pod tx)).
Definition extractSender (tx : Transaction) : Hash := default zeroHash (hash32 (tx_Sender tx)).
Definition objectIDOf (o : Object) : Hash := default zeroHash (hash32 (obj_id o)).
Definition objectOwner (o : Object) : Hash := default zeroHash (hash32 (obj_owner o)).

(** The pod's copy of an object: [rebuildObject] leaves the parent kind out. *)
Definition rebuildObject (o : Object) : Object :=
  mkObject (obj_id o) (obj_version o) (obj_owner o) (obj_replication o) (obj_content o) (obj_fees o) 0.

Definition serializeInput (tx : Transaction) (objects : list Object) : PodInput :=
  mkPodInput tx (tx_Sender tx) (map rebuildObject objects).

(** The bodies written back, none of which carries a parent kind. *)
Definition rebuildObjectWithVersion (o : Object) (version : Z) : Object :=
  mkObject (obj_id o) version (obj_owner o) (obj_replication o) (obj_content o) (obj_fees o) 0.
Definition rebuildObjectIncrementVersion (o : Object) : Object :=
  rebuildObjectWithVersion o (obj_version o +w 1).
Definition rebuildObjectWithIDAndFees (id : Hash) (o : Object) (fees : Z) : Object :=
  mkObject id (obj_version o) (obj_owner o) (obj_replication o) (obj_content o) fees 0.

Definition txLocksDeposits (tx : Transaction) : bool := bool_decide (length (tx_GasCoin tx) = 32%nat).

(** ** Output rules that read no state *)

Definition inputsByID (inputs : list Object) : gmap Hash Object :=
  foldl (fun m o => <[objectIDOf o := o]> m) ∅ inputs.
Definition replicationByID (inputs : list Object) : gmap Hash Z :=
  foldl (fun m o => <[objectIDOf o := obj_replication o]> m) ∅ inputs.

Definition validateCreationLimits (out : PodOutput) (tx : Transaction) : option outputError :=
  if Nat.ltb (length (tx_CreatedObjectsReplication tx)) (length (po_Created out)) then Some errCreationLimit else None.

Definition validateDomainRegistrations (out : PodOutput) : option outputError :=
  if Nat.ltb 0 (length (po_RegisteredDomains out)) then Some errRegisteredDomains else None.

(** The loop of [validateParentImmutability] from index [i] on. *)
Fixpoint parentsUnchanged (byID : gmap Hash Object) (i : nat) (updated : list Object) : option outputError :=
  match updated with
  | [] => None
  | o :: updated =>
      match byID !! objectIDOf o with
      | None => Some (errNoInputCopy i)
      | Some input =>
          if negb (obj_parent_kind o =? obj_parent_kind input) || negb (bool_decide (obj_owner o = obj_owner input))
          then Some (errParentChanged i)
          else parentsUnchanged byID (S i) updated
      end
  end.

Definition validateParentImmutability (out : PodOutput) (inputs : list Object) : option outputError :=
  parentsUnchanged (inputsByID inputs) 0 (po_Updated out).

Definition allMutableRefsSingletons (tx : Transaction) (inputs : list Object) : bool :=
  forallb (fun r => match hash32 (ref_id r) with
                    | None => false
                    | Some id => negb (0 <? default 0 (replicationByID inputs !! id))
                    end) (tx_MutableRefs tx).

Definition validateOutputDeletions (out : PodOutput) (tx : Transaction) (inputs : list Object) : option outputError :=
  if Nat.eqb (length (po_Deleted out)) 0 then None
  else if Nat.ltb 0 (length (tx_CreatedObjectsReplication tx)) || allMutableRefsSingletons tx inputs then None
  else Some errOutputDeletes.

Section Execution.
Context {M : Type} `{Pebble M} (cr : Crypto) (vm : PodRuntime) (holder : option (Hash -> Z -> bool)).
Context (epoch : Z) (p : FeeParams).
Implicit Types (L : Ledger M) (tx : Transaction) (out : PodOutput).

(** ** Bodies

    The object store is the store the coin handlers read. *)

Definition getBody L (id : Hash) : option Object := st ← l_coins L; GetObject st id.
Definition putBody L (id : Hash) (o : Object) : Ledger M :=
  set_coins L ((fun st => set_objects st (<[id := o]> (cs_objects st))) <$> l_coins L).
Definition dropBody L (id : Hash) : Ledger M := set_coins L ((fun st => DeleteObject st id) <$> l_coins L).

Definition computeObjectID (txHash : Hash) (index : nat) : Hash :=
  blake3 cr (txHash ++ le_enc 4 (Z.of_nat index)).

Definition computeStorageDeposit L (replication : Z) : Z :=
  let total := Len (l_validators L) in
  if total =? 0 then 0
  else safeAdd (safeMul (if replication =? 0 then total else replication) (StorageFee p) / total) (IndexEntryFee p).

(** [TrackObject] (consensus/dag.go), the object-creation callback. *)
Definition TrackObject L (id : Hash) (version replication fees kind : Z) (parent : Hash) : Ledger M :=
  feed (set_tracker L (trackObject (l_tracker L) id version replication fees kind parent)) (ApplyEdge id kind parent).

(** [ControlsParent] (consensus/dag.go), the parent validator. *)
Definition ControlsParent L (kind : Z) (parent sender : Hash) : bool :=
  if kind =? keyRootKind then bool_decide (parent = sender)
  else controls (getParent (l_tracker L)) sender parent.

(** [State.ResolveDomain]: an expired name does not resolve. *)
Definition resolveName L (name : bytes) : option Hash :=
  db ← l_domains L;
  leaf ← DomainLeaf db name;
  if expiry leaf <? epoch then None else Some (objectID leaf).

Definition domainReferencedParents L tx : gset Hash :=
  list_to_set (omap (fun r => if bool_decide (ref_domain r = []) then None else resolveName L (ref_domain r))
                    (tx_MutableRefs tx)).

(** ** Inputs *)

Definition resolveMutableObjects L tx (atxObjects : list Object) : list Object :=
  let present : gset Hash := list_to_set (map (fun o => toHash (obj_id o)) atxObjects) in
  atxObjects ++ omap (fun r => id ← hash32 (ref_id r); if bool_decide (id ∈ present) then None else getBody L id)
                     (tx_MutableRefs tx).

(** ** Output rules that read the ledger *)

Definition createdParentAllowed L (kind : Z) (parent sender : Hash) (staged domainParents : gset Hash) : bool :=
  if kind =? keyRootKind then true
  else if bool_decide (parent ∈ staged) || bool_decide (parent ∈ domainParents) then true
  else ControlsParent L kind parent sender.

Fixpoint createdParents L (sender txHash : Hash) (domainParents staged : gset Hash) (i : nat) (created : list Object)
    : option outputError :=
  match created with
  | [] => None
  | o :: created =>
      if negb (createdParentAllowed L (obj_parent_kind o) (objectOwner o) sender staged domainParents)
      then Some (errCreatedParent i)
      else createdParents L sender txHash domainParents ({[ computeObjectID txHash i ]} ∪ staged) (S i) created
  end.

Definition validateCreatedParents L out tx (txHash : Hash) : option outputError :=
  createdParents L (extractSender tx) txHash (domainReferencedParents L tx) ∅ 0 (po_Created out).

(** The first failing rule. *)
Definition validateOutput L out tx (txHash : Hash) (inputs : list Object) : option outputError :=
  match validateCreationLimits out tx with
  | Some e => Some e
  | None => match validateDomainRegistrations out with
  | Some e => Some e
  | None => match validateCreatedParents L out tx txHash with
  | Some e => Some e
  | None => match validateParentImmutability out inputs with
  | Some e => Some e
  | None => validateOutputDeletions out tx inputs
  end end end end.

(** ** Applying an output *)

Definition held (id : Hash) (replication : Z) : bool :=
  match holder with Some f => f id replication | None => true end.

Definition eagerlySign (id : Hash) (content : bytes) (version replication : Z) (owner : bytes) : list SignRequest :=
  if (replication =? 0) || negb (held id replication) then []
  else [mkSign id content version replication owner].

Definition applyUpdatedObject L (o : Object) : Ledger M * list SignRequest :=
  let data := rebuildObjectIncrementVersion o in
  (putBody L (extractObjectID data) data,
   eagerlySign (extractObjectID data) (obj_content o) (obj_version o +w 1) (obj_replication o) (obj_owner o)).

Fixpoint applyUpdatedObjects L (updated : list Object) : Ledger M * list SignRequest :=
  match updated with
  | [] => (L, [])
  | o :: updated =>
      let '(L, s) := applyUpdatedObject L o in
      let '(L, s') := applyUpdatedObjects L updated in (L, s ++ s')
  end.

Definition applyCreatedObject L (txHash : Hash) (locksDeposit : bool) (i : nat) (o : Object)
    : Ledger M * list SignRequest :=
  let id := computeObjectID txHash i in
  let fees := if locksDeposit then computeStorageDeposit L (obj_replication o) else 0 in
  let L := TrackObject L id (obj_version o) (obj_replication o) fees (obj_parent_kind o) (objectOwner o) in
  if held id (obj_replication o) then
    (putBody L id (rebuildObjectWithIDAndFees id o fees),
     eagerlySign id (obj_content o) (obj_version o) (obj_replication o) (obj_owner o))
  else (L, []).

Fixpoint applyCreatedObjects L (txHash : Hash) (locksDeposit : bool) (i : nat) (created : list Object)
    : Ledger M * list SignRequest :=
  match created with
  | [] => (L, [])
  | o :: created =>
      let '(L, s) := applyCreatedObject L txHash locksDeposit i o in
      let '(L, s') := applyCreatedObjects L txHash locksDeposit (S i) created in (L, s ++ s')
  end.

Definition deleteHeldContent (sender : Hash) L (id : Hash) : Ledger M :=
  match getBody L id with
  | None => L
  | Some o => if bool_decide (objectOwner o = sender) then dropBody L id else L
  end.

(** The declared deletions, not the pod's. *)
Definition applyDeletedObjects L tx : Ledger M :=
  foldl (deleteHeldContent (extractSender tx)) L
    (decodeKeys (length (tx_DeletedObjects tx) / 32) (tx_DeletedObjects tx)).

Definition processOutput L (output : option PodOutput) (txHash : Hash) tx (inputs : list Object)
    : Ledger M * list SignRequest * option executeError :=
  match output with
  | None => (L, [], None)
  | Some out =>
      if negb (po_Error out =? 0) then (L, [], Some (errPodCode (po_Error out)))
      else match validateOutput L out tx txHash inputs with
      | Some e => (L, [], Some (errOutput e))
      | None =>
          let '(L, s1) := applyUpdatedObjects L (po_Updated out) in
          let '(L, s2) := applyCreatedObjects L txHash (txLocksDeposits tx) 0 (po_Created out) in
          (applyDeletedObjects L tx, s1 ++ s2, None)
      end
  end.

(** Every mutable reference ends one version up, returned by the pod or not. *)
Definition ensureMutableVersion L (r : TxRef) : Ledger M :=
  match hash32 (ref_id r) with
  | None => L
  | Some id =>
      match getBody L id with
      | None => L
      | Some o =>
          if obj_version o =? ref_version r +w 1 then L
          else putBody L id (rebuildObjectWithVersion o (ref_version r +w 1))
      end
  end.

Definition ensureMutableVersions L tx : Ledger M := foldl ensureMutableVersion L (tx_MutableRefs tx).

Definition Execute L (atx : AttestedTransaction) : Ledger M * list SignRequest * option executeError :=
  match atx_Transaction atx with
  | None => (L, [], Some errNoTransaction)
  | Some tx =>
      let inputs := resolveMutableObjects L tx (atx_Objects atx) in
      match vm (extractPodID tx) (serializeInput tx inputs) defaultGasLimit with
      | None => (L, [], Some errPod)
      | Some output =>
          match processOutput L output (extractTxHash tx) tx inputs with
          | (L, s, Some e) => (L, s, Some e)
          | (L, s, None) => (ensureMutableVersions L tx, s, None)
          end
      end
  end.

(** The executor consensus calls: [err == nil]. *)
Definition stateExecutor L (atx : AttestedTransaction) : Ledger M * bool :=
  let '(L, _, e) := Execute L atx in (L, match e with None => true | Some _ => false end).

(** ** What execution leaves alone

    Domains, validators, emitted outcomes and the four counters of the coin
    store are never touched; bodies, the tracker and the index feed are. *)

Definition counters (st : CoinStore) : Z * Z * option bytes * option bytes :=
  (cs_supply st, cs_coins st, cs_supplyKey st, cs_coinsKey st).

Record framed L L' : Prop := {
  fr_domains : l_domains L' = l_domains L;
  fr_validators : l_validators L' = l_validators L;
  fr_committed : l_committed L' = l_committed L;
  fr_counters : counters <$> l_coins L' = counters <$> l_coins L;
}.

#[local] Instance framed_preorder : PreOrder framed.
Proof using Type.
  split; [by split|]. intros L1 L2 L3 [] []. split; congruence.
Qed.

Lemma putBody_framed L id o : framed L (putBody L id o).
Proof using Type. split; [done..|]. unfold putBody. cbn. by destruct (l_coins L). Qed.

Lemma dropBody_framed L id : framed L (dropBody L id).
Proof using Type. split; [done..|]. unfold dropBody. cbn. by destruct (l_coins L). Qed.

(** The body at one identifier after a write or a removal at another. *)
Lemma getBody_put L id o x :
  getBody (putBody L id o) x = if bool_decide (x = id) then (_ ← l_coins L; Some o) else getBody L x.
Proof using Type.
  unfold getBody, putBody. cbn. destruct (l_coins L) as [st|]; cbn; [|by case_bool_decide].
  unfold GetObject. cbn. case_bool_decide as Hx; [subst; by rewrite lookup_insert_eq|].
  by rewrite lookup_insert_ne by congruence.
Qed.

Lemma getBody_drop L id x : getBody (dropBody L id) x = if bool_decide (x = id) then None else getBody L x.
Proof using Type.
  unfold getBody, dropBody. cbn. destruct (l_coins L) as [st|]; cbn; [|by case_bool_decide].
  unfold GetObject, DeleteObject. cbn. case_bool_decide as Hx; [subst; by rewrite lookup_delete_eq|].
  by rewrite lookup_delete_ne by congruence.
Qed.

(** A created object as the tracker and the index see it. *)
Definition creation : Type := Hash * (Z * Z * Z * Z) * Hash.

Definition createdRecord L (txHash : Hash) (locksDeposit : bool) (i : nat) (o : Object) : creation :=
  (computeObjectID txHash i,
   (obj_version o, obj_replication o, if locksDeposit then computeStorageDeposit L (obj_replication o) else 0,
    obj_parent_kind o), objectOwner o).

Definition trackCreation (t : M) (r : creation) : M :=
  let '(id, (version, replication, fees, kind), parent) := r in trackObject t id version replication fees kind parent.
Definition edgeOf (r : creation) : IndexFeed :=
  let '(id, (_, _, _, kind), parent) := r in ApplyEdge id kind parent.
Definition creationID (r : creation) : Hash := fst (fst r).
Definition creationFees (r : creation) : Z := let '(_, (_, _, fees, _), _) := r in fees.

(** The ledger moved by the creations [rs], whatever happened to the bodies. *)
Record moved (rs : list creation) L L' : Prop := {
  mv_framed : framed L L';
  mv_tracker : l_tracker L' = foldl trackCreation (l_tracker L) rs;
  mv_index : l_index L' = (fun log => log ++ map edgeOf rs) <$> l_index L;
}.

Lemma moved_nil L : moved [] L L.
Proof using Type. split; [reflexivity|done|]. destruct (l_index L); simpl; [by rewrite app_nil_r|done]. Qed.

Lemma moved_trans rs1 rs2 L1 L2 L3 : moved rs1 L1 L2 -> moved rs2 L2 L3 -> moved (rs1 ++ rs2) L1 L3.
Proof using Type.
  intros [F1 T1 I1] [F2 T2 I2]. split; [by etrans|by rewrite T2, T1, foldl_app|].
  rewrite I2, I1. destruct (l_index L1); simpl; [|done]. by rewrite map_app, app_assoc.
Qed.

Lemma moved_put L id o : moved [] L (putBody L id o).
Proof using Type. destruct (moved_nil L). by split; [apply putBody_framed|..]. Qed.

Lemma moved_drop L id : moved [] L (dropBody L id).
Proof using Type. destruct (moved_nil L). by split; [apply dropBody_framed|..]. Qed.

#[local] Hint Resolve moved_nil moved_put moved_drop : core.

Lemma moved_foldl {A} (f : Ledger M -> A -> Ledger M) l L :
  (forall L a, moved [] L (f L a)) -> moved [] L (foldl f L l).
Proof using Type.
  intros Hf. revert L. induction l as [|a l IH]; intros L; cbn; [done|].
  apply (moved_trans [] [] _ (f L a)); auto.
Qed.

Lemma moved_updated L updated : moved [] L (fst (applyUpdatedObjects L updated)).
Proof using Type.
  revert L. induction updated as [|o updated IH]; intros L; cbn; [done|].
  specialize (IH (putBody L (extractObjectID (rebuildObjectIncrementVersion o)) (rebuildObjectIncrementVersion o))).
  destruct (applyUpdatedObjects _ updated). cbn in *. eapply (moved_trans [] []); [|exact IH]. apply moved_put.
Qed.

Lemma framed_deposit L L' rep : framed L L' -> computeStorageDeposit L' rep = computeStorageDeposit L rep.
Proof using Type. intros [_ E _ _]. unfold computeStorageDeposit. by rewrite E. Qed.

Lemma moved_created_one L txHash b i o :
  moved [createdRecord L txHash b i o] L (fst (applyCreatedObject L txHash b i o)).
Proof using Type.
  unfold applyCreatedObject, createdRecord. set (id := computeObjectID txHash i). set (f := if b then _ else _).
  assert (HT : moved [(id, (obj_version o, obj_replication o, f, obj_parent_kind o), objectOwner o)] L
     (TrackObject L id (obj_version o) (obj_replication o) f (obj_parent_kind o) (objectOwner o)))
    by (by split).
  destruct (held id (obj_replication o)); cbn [fst]; [|done].
  rewrite <- (app_nil_r [_]). by eapply moved_trans.
Qed.

Lemma moved_created L L0 txHash b i created :
  framed L0 L ->
  moved (imap (fun k => createdRecord L0 txHash b (i + k)) created) L (fst (applyCreatedObjects L txHash b i created)).
Proof using Type.
  revert L i. induction created as [|o created IH]; intros L i HF; cbn; [done|].
  pose proof (moved_created_one L txHash b i o) as H1.
  destruct (applyCreatedObject L txHash b i o) as [L1 s1]. cbn in H1.
  specialize (IH L1 (S i) ltac:(etrans; [exact HF|apply H1])).
  destruct (applyCreatedObjects L1 txHash b (S i) created) as [L2 s2]. cbn in *.
  replace (createdRecord L0 txHash b (i + 0) o) with (createdRecord L txHash b i o).
  2:{ unfold createdRecord. by rewrite Nat.add_0_r, (framed_deposit _ _ _ HF). }
  rewrite (imap_ext _ (fun k => createdRecord L0 txHash b (S i + k))); [by apply (moved_trans [_] _ _ L1)|].
  intros k x _. unfold compose. by rewrite Nat.add_succ_r.
Qed.

Lemma moved_deleted L tx : moved [] L (applyDeletedObjects L tx).
Proof using Type.
  apply moved_foldl. intros L1 id. unfold deleteHeldContent. destruct (getBody L1 id); [|done]. by case_bool_decide.
Qed.

Lemma moved_versions L tx : moved [] L (ensureMutableVersions L tx).
Proof using Type.
  apply moved_foldl. intros L1 r. unfold ensureMutableVersion. destruct (hash32 (ref_id r)); [|done].
  destruct (getBody L1 _); [|done]. by destruct (_ =? _).
Qed.

(** The creations a run performs: those of the pod's output, when it is accepted. *)
Definition createdBy L (txHash : Hash) tx (output : option PodOutput) : list creation :=
  match output with
  | Some out => imap (createdRecord L txHash (txLocksDeposits tx)) (po_Created out)
  | None => []
  end.

(** Either the run fails and nothing moves, or the ledger moves by its creations. *)
Lemma Execute_moves L atx :
  match Execute L atx with
  | (L', signs, Some _) => L' = L /\ signs = []
  | (L', _, None) => exists tx output, atx_Transaction atx = Some tx /\
      vm (extractPodID tx) (serializeInput tx (resolveMutableObjects L tx (atx_Objects atx))) defaultGasLimit = Some output /\
      (forall out, output = Some out -> po_Error out = 0 /\ validateOutput L out tx (extractTxHash tx) (resolveMutableObjects L tx (atx_Objects atx)) = None) /\
      moved (createdBy L (extractTxHash tx) tx output) L L' /\
      (length (createdBy L (extractTxHash tx) tx output) <= length (tx_CreatedObjectsReplication tx))%nat
  end.
Proof using Type.
  unfold Execute. destruct (atx_Transaction atx) as [tx|]; [|done].
  destruct (vm _ _ _) as [output|] eqn:Ev; [|done]. unfold processOutput. destruct output as [out|].
  2:{ exists tx, None. split_and!; [done..| |cbn; lia]. apply moved_versions. }
  destruct (negb (po_Error out =? 0)) eqn:Ee; [done|]. destruct (validateOutput L out tx _ _) eqn:Eo; [done|].
  pose proof (moved_updated L (po_Updated out)) as H1. destruct (applyUpdatedObjects L _) as [L1 s1]. cbn [fst] in H1.
  pose proof (moved_created L1 L (extractTxHash tx) (txLocksDeposits tx) 0 (po_Created out) (mv_framed _ _ _ H1)) as H2.
  destruct (applyCreatedObjects L1 _ _ _ _) as [L2 s2]. cbn [fst] in H2.
  exists tx, (Some out). split_and!; [done..| | |].
  - intros o [= <-]. zb. done.
  - pose proof (moved_trans _ _ _ _ _ (moved_deleted L2 tx) (moved_versions (applyDeletedObjects L2 tx) tx)) as H3.
    pose proof (moved_trans _ _ _ _ _ H1 (moved_trans _ _ _ _ _ H2 H3)) as H4. cbn [app] in H4.
    by rewrite app_nil_r in H4.
  - unfold validateOutput, validateCreationLimits in Eo. destruct (Nat.ltb _ _) eqn:El; [done|].
    apply Nat.ltb_ge in El. cbn. by rewrite length_imap.
Qed.

End Execution.

(** ** Sharded execution

    Two nodes that share the tracker, the registry, the validators and the index
    but hold different bodies, and shard by different predicates. *)

Section Sharding.
Context {M : Type} `{Pebble M} (cr : Crypto) (vm : PodRuntime) (h1 h2 : option (Hash -> Z -> bool)).
Context (epoch : Z) (p : FeeParams).
Implicit Types (L : Ledger M) (tx : Transaction).

Record agrees L1 L2 : Prop := {
  ag_tracker : l_tracker L1 = l_tracker L2;
  ag_domains : l_domains L1 = l_domains L2;
  ag_validators : l_validators L1 = l_validators L2;
  ag_index : l_index L1 = l_index L2;
  ag_committed : l_committed L1 = l_committed L2;
}.

Lemma moved_agrees rs L1 L1' L2 L2' : agrees L1 L2 -> moved rs L1 L1' -> moved rs L2 L2' -> agrees L1' L2'.
Proof using Type. intros [] [[] ] [[] ]. split; congruence. Qed.

(** The rules read what the nodes share. *)
Lemma createdParents_agrees L1 L2 sender txHash ds staged i created :
  agrees L1 L2 ->
  createdParents cr L1 sender txHash ds staged i created = createdParents cr L2 sender txHash ds staged i created.
Proof using Type.
  intros [Et Ed _ _ _]. revert staged i. induction created as [|o created IH]; intros staged i; cbn; [done|].
  unfold createdParentAllowed, ControlsParent. rewrite Et. by rewrite IH.
Qed.

Lemma validateOutput_agrees L1 L2 out tx txHash inputs :
  agrees L1 L2 -> validateOutput cr epoch L1 out tx txHash inputs = validateOutput cr epoch L2 out tx txHash inputs.
Proof using Type.
  intros HA. unfold validateOutput, validateCreatedParents. rewrite (createdParents_agrees L1 L2) by done.
  unfold domainReferencedParents, resolveName. by rewrite (ag_domains _ _ HA).
Qed.

Lemma createdBy_agrees L1 L2 txHash tx output :
  agrees L1 L2 -> createdBy cr p L1 txHash tx output = createdBy cr p L2 txHash tx output.
Proof using Type.
  intros [_ _ Ev _ _]. unfold createdBy. destruct output; [|done]. apply imap_ext. intros i o _.
  unfold createdRecord, computeStorageDeposit. by rewrite Ev.
Qed.

(** What holds of one body on both nodes, step by step. *)
Record alike (x : Hash) L1 L2 : Prop := {
  al_wired : is_Some (l_coins L1) /\ is_Some (l_coins L2);
  al_body : getBody L1 x = getBody L2 x;
}.

Lemma alike_put x L1 L2 id o : alike x L1 L2 -> alike x (putBody L1 id o) (putBody L2 id o).
Proof using Type.
  intros [[[s1 E1] [s2 E2]] Hb]. split; [unfold putBody; cbn; by rewrite E1, E2|].
  rewrite !getBody_put, E1, E2. cbn. by rewrite Hb.
Qed.

Lemma alike_put_other x L1 L2 id o : x <> id -> alike x L1 L2 -> alike x (putBody L1 id o) L2 /\ alike x L1 (putBody L2 id o).
Proof using Type.
  intros Hx [[[s1 E1] [s2 E2]] Hb].
  split; (split; [unfold putBody; cbn; by rewrite ?E1, ?E2|]); by rewrite getBody_put, bool_decide_false.
Qed.

Lemma alike_foldl {A} (f g : Ledger M -> A -> Ledger M) x l L1 L2 :
  (forall L1 L2 a, alike x L1 L2 -> alike x (f L1 a) (g L2 a)) -> alike x L1 L2 -> alike x (foldl f L1 l) (foldl g L2 l).
Proof using Type. intros Hf. revert L1 L2. induction l as [|a l IH]; intros L1 L2 Ha; cbn; auto. Qed.

(** A step that rewrites one body from that body only. *)
Lemma alike_at x L1 L2 id (f : Ledger M -> Ledger M) (g : option Object -> option Object) :
  (forall L, is_Some (l_coins L) -> is_Some (l_coins (f L))) ->
  (forall L y, y <> id -> getBody (f L) y = getBody L y) ->
  (forall L, is_Some (l_coins L) -> getBody (f L) id = g (getBody L id)) ->
  alike x L1 L2 -> alike x (f L1) (f L2).
Proof using Type.
  intros Hw Hf Hg [[W1 W2] Hb]. split; [split; by apply Hw|].
  destruct (decide (x = id)) as [->|Hx]; [by rewrite !Hg, Hb|by rewrite !Hf].
Qed.

Lemma alike_delete x sender L1 L2 id :
  alike x L1 L2 -> alike x (deleteHeldContent sender L1 id) (deleteHeldContent sender L2 id).
Proof using Type.
  apply (alike_at x L1 L2 id (fun L => deleteHeldContent sender L id)
    (fun b => match b with Some o => if bool_decide (objectOwner o = sender) then None else Some o | None => None end)).
  - intros L [st E]. unfold deleteHeldContent. destruct (getBody L id); [|by exists st]. case_bool_decide; [|by exists st].
    unfold dropBody. cbn. by rewrite E.
  - intros L y Hy. unfold deleteHeldContent. destruct (getBody L id); [|done]. case_bool_decide; [|done].
    by rewrite getBody_drop, bool_decide_false.
  - intros L _. unfold deleteHeldContent. destruct (getBody L id) as [o|] eqn:Eo; [|done].
    case_bool_decide; [|done]. by rewrite getBody_drop, bool_decide_true.
Qed.

Lemma alike_version x L1 L2 r : alike x L1 L2 -> alike x (ensureMutableVersion L1 r) (ensureMutableVersion L2 r).
Proof using Type.
  destruct (hash32 (ref_id r)) as [id|] eqn:Er; [|unfold ensureMutableVersion; by rewrite Er].
  set (v := ref_version r +w 1).
  apply (alike_at x L1 L2 id (fun L => ensureMutableVersion L r)
    (fun b => match b with Some o => if obj_version o =? v then Some o else Some (rebuildObjectWithVersion o v) | None => None end)).
  - intros L [st E]. unfold ensureMutableVersion. rewrite Er. destruct (getBody L id); [|by exists st].
    destruct (_ =? _); [by exists st|]. unfold putBody. cbn. by rewrite E.
  - intros L y Hy. unfold ensureMutableVersion. rewrite Er. destruct (getBody L id); [|done]. destruct (_ =? _); [done|].
    by rewrite getBody_put, bool_decide_false.
  - intros L [st E]. unfold ensureMutableVersion. rewrite Er. fold v. destruct (getBody L id) as [o|] eqn:Eo; [|done].
    destruct (obj_version o =? v); [done|]. by rewrite getBody_put, bool_decide_true, E.
Qed.

Lemma alike_updated x L1 L2 updated :
  alike x L1 L2 -> alike x (fst (applyUpdatedObjects h1 L1 updated)) (fst (applyUpdatedObjects h2 L2 updated)).
Proof using Type.
  revert L1 L2. induction updated as [|o updated IH]; intros L1 L2 Ha; cbn; [done|].
  specialize (IH _ _ (alike_put x L1 L2 (extractObjectID (rebuildObjectIncrementVersion o)) (rebuildObjectIncrementVersion o) Ha)).
  destruct (applyUpdatedObjects h1 _ updated), (applyUpdatedObjects h2 _ updated). done.
Qed.

Lemma alike_track x L1 L2 r1 r2 :
  alike x L1 L2 ->
  alike x (feed (set_tracker L1 r1) r2) L2 /\ alike x L1 (feed (set_tracker L2 r1) r2).
Proof using Type. intros [W B]. by split; split. Qed.

Lemma alike_created x L1 L2 txHash b i created :
  l_validators L1 = l_validators L2 -> (forall rep, held h1 x rep = held h2 x rep) -> alike x L1 L2 ->
  alike x (fst (applyCreatedObjects cr h1 p L1 txHash b i created)) (fst (applyCreatedObjects cr h2 p L2 txHash b i created)).
Proof using Type.
  intros Hv Hh. revert L1 L2 i Hv. induction created as [|o created IH]; intros L1 L2 i Hv Ha; cbn; [done|].
  pose proof (moved_created_one cr h1 p L1 txHash b i o) as [[_ V1 _ _] _ _].
  pose proof (moved_created_one cr h2 p L2 txHash b i o) as [[_ V2 _ _] _ _].
  assert (H1 : alike x (fst (applyCreatedObject cr h1 p L1 txHash b i o)) (fst (applyCreatedObject cr h2 p L2 txHash b i o))).
  { unfold applyCreatedObject. set (id := computeObjectID cr txHash i).
    assert (Ed : computeStorageDeposit p L2 (obj_replication o) = computeStorageDeposit p L1 (obj_replication o))
      by (unfold computeStorageDeposit; by rewrite Hv).
    rewrite Ed. set (f := if b then _ else _).
    assert (Ht : alike x (TrackObject L1 id (obj_version o) (obj_replication o) f (obj_parent_kind o) (objectOwner o))
                         (TrackObject L2 id (obj_version o) (obj_replication o) f (obj_parent_kind o) (objectOwner o))).
    { eapply alike_track. by eapply alike_track. }
    destruct (decide (x = id)) as [->|Hx].
    - rewrite Hh. destruct (held h2 id (obj_replication o)); cbn [fst]; [by apply alike_put|done].
    - destruct (held h1 id _), (held h2 id _); cbn [fst]; [by apply alike_put|by apply alike_put_other..|done]. }
  destruct (applyCreatedObject cr h1 p L1 txHash b i o) as [L1' s1], (applyCreatedObject cr h2 p L2 txHash b i o) as [L2' s2].
  cbn [fst] in *. specialize (IH L1' L2' (S i) ltac:(congruence) H1).
  by destruct (applyCreatedObjects cr h1 p L1' txHash b (S i) created), (applyCreatedObjects cr h2 p L2' txHash b (S i) created).
Qed.

(** The copies a transaction carries. *)
Definition carried (atx : AttestedTransaction) : gset Hash := list_to_set (map (fun o => toHash (obj_id o)) (atx_Objects atx)).

(** The nodes have the same body of every mutable object that is not carried. *)
Definition sameUncarried (atx : AttestedTransaction) L1 L2 : Prop :=
  forall tx r id, atx_Transaction atx = Some tx -> r ∈ tx_MutableRefs tx -> hash32 (ref_id r) = Some id ->
    id ∉ carried atx -> getBody L1 id = getBody L2 id.

Lemma inputs_agree L1 L2 atx tx :
  atx_Transaction atx = Some tx -> sameUncarried atx L1 L2 ->
  resolveMutableObjects L1 tx (atx_Objects atx) = resolveMutableObjects L2 tx (atx_Objects atx).
Proof using Type.
  intros Htx Hs. unfold resolveMutableObjects. f_equal. specialize (Hs tx).
  assert (Hr : forall r, r ∈ tx_MutableRefs tx -> r ∈ tx_MutableRefs tx) by done. revert Hr.
  generalize (tx_MutableRefs tx) at 1 3 4. intros refs. induction refs as [|r refs IH]; intros Hr; [done|].
  cbn. rewrite IH by (intros; apply Hr; by right).
  destruct (hash32 (ref_id r)) as [id|] eqn:Er; cbn; [|done].
  case_bool_decide as Hin; [done|]. by rewrite (Hs r id Htx (Hr r ltac:(left)) Er Hin).
Qed.

Lemma Execute_agrees L1 L2 atx :
  agrees L1 L2 -> is_Some (l_coins L1) -> is_Some (l_coins L2) -> sameUncarried atx L1 L2 ->
  let '(L1', _, e1) := Execute cr vm h1 epoch p L1 atx in
  let '(L2', _, e2) := Execute cr vm h2 epoch p L2 atx in
  e1 = e2 /\ agrees L1' L2' /\
  forall x, getBody L1 x = getBody L2 x -> (forall rep, held h1 x rep = held h2 x rep) -> getBody L1' x = getBody L2' x.
Proof using Type.
  intros HA W1 W2 Hs. pose proof (Execute_moves cr vm h1 epoch p L1 atx) as M1.
  pose proof (Execute_moves cr vm h2 epoch p L2 atx) as M2.
  unfold Execute in *. destruct (atx_Transaction atx) as [tx|] eqn:Etx; [|by split].
  rewrite (inputs_agree L1 L2 atx tx Etx Hs) in *. set (ins := resolveMutableObjects L2 tx _) in *.
  destruct (vm _ _ _) as [output|] eqn:Ev; [|by split]. unfold processOutput in *. destruct output as [out|].
  2:{ destruct M1 as (tx1 & o1 & [= <-] & E1 & _ & M1 & _), M2 as (tx2 & o2 & [= <-] & E2 & _ & M2 & _).
  rewrite (inputs_agree L1 L2 atx tx Etx Hs) in E1. fold ins in E1, E2. rewrite Ev in E1, E2. injection E1 as <-. injection E2 as <-.
      split; [done|]. split; [by eapply moved_agrees|]. intros x Hb _. apply (al_body x).
      apply alike_foldl; [intros; by apply alike_version|]. by split. }
  destruct (negb (po_Error out =? 0)); [by split|].
  rewrite (validateOutput_agrees L1 L2) in * by done. destruct (validateOutput cr epoch L2 out tx _ ins); [by split|].
  assert (Hal : forall x, getBody L1 x = getBody L2 x -> (forall rep, held h1 x rep = held h2 x rep) ->
    alike x (ensureMutableVersions (applyDeletedObjects (fst (applyCreatedObjects cr h1 p (fst (applyUpdatedObjects h1 L1 (po_Updated out)))
               (extractTxHash tx) (txLocksDeposits tx) 0 (po_Created out))) tx) tx)
            (ensureMutableVersions (applyDeletedObjects (fst (applyCreatedObjects cr h2 p (fst (applyUpdatedObjects h2 L2 (po_Updated out)))
               (extractTxHash tx) (txLocksDeposits tx) 0 (po_Created out))) tx) tx)).
  { intros x Hb Hh. apply alike_foldl; [intros; by apply alike_version|].
    apply alike_foldl; [intros; by apply alike_delete|]. apply alike_created; [|done|apply alike_updated; by split].
    rewrite (fr_validators _ _ (mv_framed _ _ _ (moved_updated h1 L1 _))), (fr_validators _ _ (mv_framed _ _ _ (moved_updated h2 L2 _))).
    apply HA. }
  destruct (applyUpdatedObjects h1 L1 _) as [L1a s1], (applyUpdatedObjects h2 L2 _) as [L2a s2]. cbn [fst] in Hal.
  destruct (applyCreatedObjects cr h1 p L1a _ _ _ _) as [L1b t1], (applyCreatedObjects cr h2 p L2a _ _ _ _) as [L2b t2]. cbn [fst] in Hal.
  destruct M1 as (tx1 & o1 & [= <-] & E1 & _ & M1 & _), M2 as (tx2 & o2 & [= <-] & E2 & _ & M2 & _).
  rewrite (inputs_agree L1 L2 atx tx Etx Hs) in E1. fold ins in E1, E2. rewrite Ev in E1, E2. injection E1 as <-. injection E2 as <-.
  rewrite (createdBy_agrees L1 L2) in M1 by done.
  split; [done|]. split; [by eapply moved_agrees|]. intros x Hb Hh. by apply (al_body x), Hal.
Qed.

End Sharding.

(** ** The effect of a successful run on the bodies *)

Section Effect.
Context {M : Type} `{Pebble M} (cr : Crypto) (vm : PodRuntime) (holder : option (Hash -> Z -> bool)).
Context (epoch : Z) (p : FeeParams).
Implicit Types (L : Ledger M) (tx : Transaction).

(** [P] holds of whatever body is stored at [x]. *)
Definition bodyAt (x : Hash) (P : Object -> Prop) L : Prop := forall o, getBody L x = Some o -> P o.

Lemma bodyAt_put x P L id o : bodyAt x P L -> (id = x -> P o) -> bodyAt x P (putBody L id o).
Proof using Type.
  intros Hb Ho o'. rewrite getBody_put. case_bool_decide as Hx; [|by apply Hb].
  destruct (l_coins L); cbn; [|done]. intros [= <-]. by apply Ho.
Qed.

Lemma bodyAt_drop x P L id : bodyAt x P L -> bodyAt x P (dropBody L id).
Proof using Type. intros Hb o'. rewrite getBody_drop. case_bool_decide; [done|apply Hb]. Qed.

Lemma bodyAt_foldl {A} x P (f : Ledger M -> A -> Ledger M) l L :
  (forall L a, a ∈ l -> bodyAt x P L -> bodyAt x P (f L a)) -> bodyAt x P L -> bodyAt x P (foldl f L l).
Proof using Type.
  revert L. induction l as [|a l IH]; intros L Hf Hb; cbn; [done|].
  apply IH; [|apply Hf; [left|done]]. intros L' b Hin. apply Hf. by right.
Qed.

Lemma bodyAt_deleted x P L tx : bodyAt x P L -> bodyAt x P (applyDeletedObjects L tx).
Proof using Type.
  apply bodyAt_foldl. intros L' id _ Hb. unfold deleteHeldContent. destruct (getBody L' id); [|done].
  case_bool_decide; [by apply bodyAt_drop|done].
Qed.

Lemma bodyAt_updated x P L updated :
  bodyAt x P L -> (forall o, o ∈ updated -> objectIDOf o = x -> P (rebuildObjectIncrementVersion o)) ->
  bodyAt x P (fst (applyUpdatedObjects holder L updated)).
Proof using Type.
  revert L. induction updated as [|o updated IH]; intros L Hb Hu; cbn; [done|].
  specialize (IH (putBody L (extractObjectID (rebuildObjectIncrementVersion o)) (rebuildObjectIncrementVersion o))).
  destruct (applyUpdatedObjects holder _ updated). apply IH; [|intros; apply Hu; [by right|done]].
  apply bodyAt_put; [done|]. intros Hx. apply Hu; [left|exact Hx].
Qed.

Lemma created_one_other x L txHash b i o :
  computeObjectID cr txHash i <> x -> getBody (fst (applyCreatedObject cr holder p L txHash b i o)) x = getBody L x.
Proof using Type.
  intros Hx. unfold applyCreatedObject. destruct (held holder _ _); cbn [fst]; [|done].
  rewrite getBody_put, bool_decide_false by congruence. done.
Qed.

Lemma untouched_created x L txHash b i created :
  (forall k, (k < length created)%nat -> computeObjectID cr txHash (i + k) <> x) ->
  getBody (fst (applyCreatedObjects cr holder p L txHash b i created)) x = getBody L x.
Proof using Type.
  revert L i. induction created as [|o created IH]; intros L i Hk; cbn; [done|].
  pose proof (created_one_other x L txHash b i o) as H1. destruct (applyCreatedObject cr holder p L txHash b i o) as [L1 s1].
  specialize (IH L1 (S i)). destruct (applyCreatedObjects cr holder p L1 txHash b (S i) created) as [L2 s2]. cbn in *.
  rewrite IH, H1; [done|..].
  - rewrite <- (Nat.add_0_r i). apply Hk. lia.
  - intros k Hlt. rewrite <- Nat.add_succ_r. apply Hk. lia.
Qed.

Lemma bodyAt_created x P L txHash b i created :
  (forall k, (k < length created)%nat -> computeObjectID cr txHash (i + k) <> x) ->
  bodyAt x P L -> bodyAt x P (fst (applyCreatedObjects cr holder p L txHash b i created)).
Proof using Type. intros Hk Hb o. rewrite untouched_created by done. apply Hb. Qed.

(** The version pass: a body of a reference ends at the referenced version plus one. *)
Lemma bodyAt_versions x P L tx :
  bodyAt x P L -> (forall o r, r ∈ tx_MutableRefs tx -> mutableRefID r = Some x -> P o -> P (rebuildObjectWithVersion o (ref_version r +w 1))) ->
  bodyAt x P (ensureMutableVersions L tx).
Proof using Type.
  intros Hb Hv. apply bodyAt_foldl; [|done]. intros L' r Hr Hb'. unfold ensureMutableVersion.
  destruct (hash32 (ref_id r)) as [id|] eqn:Er; [|done]. destruct (getBody L' id) as [o|] eqn:Eo; [|done].
  destruct (_ =? _); [done|]. apply bodyAt_put; [done|]. intros ->. apply (Hv o r Hr Er). by apply Hb'.
Qed.

Lemma versions_set (refs : list TxRef) x v L :
  (forall r, r ∈ refs -> mutableRefID r = Some x -> ref_version r +w 1 = v) ->
  (exists r, r ∈ refs /\ mutableRefID r = Some x) \/ bodyAt x (fun o => obj_version o = v) L ->
  bodyAt x (fun o => obj_version o = v) (foldl ensureMutableVersion L refs).
Proof using Type.
  revert L. induction refs as [|r refs IH]; intros L Hv Hx; cbn.
  { destruct Hx as [(r & Hr%elem_of_nil & _)|Hb]; [done|exact Hb]. }
  apply IH; [intros; apply Hv; [by right|done]|]. unfold ensureMutableVersion.
  assert (Hother : forall L', bodyAt x (fun o => obj_version o = v) L -> mutableRefID r <> Some x ->
    (exists r', r' ∈ refs /\ mutableRefID r' = Some x) \/ bodyAt x (fun o => obj_version o = v) (ensureMutableVersion L r)).
  { intros _ Hb Hr. right. unfold ensureMutableVersion. unfold mutableRefID in Hr. destruct (hash32 (ref_id r)) as [id|]; [|done].
    destruct (getBody L id); [|done]. destruct (_ =? _); [done|]. apply bodyAt_put; [done|]. congruence. }
  fold (ensureMutableVersion L r). destruct (decide (mutableRefID r = Some x)) as [Er|Hr].
  - right. pose proof (Hv r ltac:(left) Er) as Ev. unfold ensureMutableVersion. unfold mutableRefID in Er. rewrite Er, Ev.
    destruct (getBody L x) as [o|] eqn:Eo; [|intros o' E; congruence].
    destruct (obj_version o =? v) eqn:Eq; [intros o' E; zb; congruence|].
    intros o'. rewrite getBody_put, bool_decide_true by done. destruct (l_coins L); cbn; [|done]. by intros [= <-].
  - destruct Hx as [(r' & [-> |Hin]%elem_of_cons & Hr')|Hb]; [done|left; eauto|by apply Hother].
Qed.

(** What a pod may write back: its own copies, under their own parents. *)
Lemma parentsUnchanged_sound byID i updated o :
  parentsUnchanged byID i updated = None -> o ∈ updated ->
  exists input, byID !! objectIDOf o = Some input /\ obj_owner o = obj_owner input /\ obj_parent_kind o = obj_parent_kind input.
Proof using Type.
  revert i. induction updated as [|o' updated IH]; intros i Hp Hin; [by inversion Hin|]. cbn in Hp.
  destruct (byID !! objectIDOf o') as [input|] eqn:Ei; [|done]. destruct (_ || _) eqn:Eb; [done|].
  apply elem_of_cons in Hin as [->|Hin]; [|by apply (IH (S i))]. zb. eauto.
Qed.

Lemma eagerlySign_In r id content version rep owner :
  r ∈ eagerlySign holder id content version rep owner -> sr_id r = id /\ sr_owner r = owner.
Proof using Type.
  unfold eagerlySign. destruct (_ || _); [by intros ?%elem_of_nil|]. by intros ->%list_elem_of_singleton.
Qed.

Lemma updated_signs L updated r :
  r ∈ snd (applyUpdatedObjects holder L updated) -> exists o, o ∈ updated /\ sr_id r = objectIDOf o /\ sr_owner r = obj_owner o.
Proof using Type.
  revert L. induction updated as [|o updated IH]; intros L; cbn; [by intros ?%elem_of_nil|].
  specialize (IH (putBody L (extractObjectID (rebuildObjectIncrementVersion o)) (rebuildObjectIncrementVersion o))).
  destruct (applyUpdatedObjects holder _ updated). cbn in *. intros [Hr|Hr]%elem_of_app.
  - exists o. split; [left|]. by apply eagerlySign_In in Hr.
  - destruct (IH Hr) as (o' & Ho & ?). exists o'. split; [by right|done].
Qed.

Lemma created_signs L txHash b i created r :
  r ∈ snd (applyCreatedObjects cr holder p L txHash b i created) ->
  exists k, (k < length created)%nat /\ sr_id r = computeObjectID cr txHash (i + k).
Proof using Type.
  revert L i. induction created as [|o created IH]; intros L i; cbn; [by intros ?%elem_of_nil|].
  destruct (applyCreatedObject cr holder p L txHash b i o) as [L1 s1] eqn:E1. specialize (IH L1 (S i)).
  destruct (applyCreatedObjects cr holder p L1 txHash b (S i) created) as [L2 s2]. cbn in *. intros [Hr|Hr]%elem_of_app.
  - exists 0%nat. rewrite Nat.add_0_r. split; [lia|]. unfold applyCreatedObject in E1.
    destruct (held holder _ _); injection E1 as <- <-; [by apply eagerlySign_In in Hr as [-> _]|by apply elem_of_nil in Hr].
  - destruct (IH Hr) as (k & Hk & Hi). exists (S k). split; [lia|]. by rewrite Nat.add_succ_r.
Qed.

(** The identifiers a run may create. *)
Definition createsID tx (x : Hash) : Prop :=
  exists k, (k < length (tx_CreatedObjectsReplication tx))%nat /\ computeObjectID cr (extractTxHash tx) k = x.

Lemma validateOutput_None L out tx txHash inputs :
  validateOutput cr epoch L out tx txHash inputs = None ->
  (length (po_Created out) <= length (tx_CreatedObjectsReplication tx))%nat /\
  validateCreatedParents cr epoch L out tx txHash = None /\ parentsUnchanged (inputsByID inputs) 0 (po_Updated out) = None.
Proof using Type.
  unfold validateOutput, validateCreationLimits, validateParentImmutability. destruct (Nat.ltb _ _) eqn:El; [done|].
  apply Nat.ltb_ge in El. destruct (validateDomainRegistrations out); [done|].
  destruct (validateCreatedParents cr epoch L out tx txHash); [done|]. by destruct (parentsUnchanged _ _ _).
Qed.

(** A body keeps its parent when the copies the pod was given had it. *)
Lemma Execute_parent L atx L' signs tx x owner :
  Execute cr vm holder epoch p L atx = (L', signs, None) -> atx_Transaction atx = Some tx ->
  ~ createsID tx x -> bodyAt x (fun o => obj_owner o = owner) L ->
  (forall o, inputsByID (resolveMutableObjects L tx (atx_Objects atx)) !! x = Some o -> obj_owner o = owner) ->
  bodyAt x (fun o => obj_owner o = owner) L' /\ forall r, r ∈ signs -> sr_id r = x -> sr_owner r = owner.
Proof using Type.
  unfold Execute. intros HE Htx Hc Hb Hin. rewrite Htx in HE. set (ins := resolveMutableObjects L tx _) in *.
  destruct (vm _ _ _) as [output|]; [|done]. unfold processOutput in HE. destruct output as [out|].
  2:{ injection HE as <- <-. split; [by apply bodyAt_versions|by intros r ?%elem_of_nil]. }
  destruct (negb _); [done|]. destruct (validateOutput cr epoch L out tx _ ins) eqn:Ev; [done|].
  apply validateOutput_None in Ev as (Hlen & _ & Hpu).
  assert (Hup : forall o, o ∈ po_Updated out -> objectIDOf o = x -> obj_owner o = owner).
  { intros o Ho Hx. destruct (parentsUnchanged_sound _ _ _ o Hpu Ho) as (i & Hi & Hoo & _). rewrite Hoo. apply Hin. congruence. }
  assert (Hid : forall k, (k < length (po_Created out))%nat -> computeObjectID cr (extractTxHash tx) (0 + k) <> x).
  { intros k Hk Hx. apply Hc. exists k. split; [lia|done]. }
  pose proof (bodyAt_updated x (fun o => obj_owner o = owner) L (po_Updated out) Hb Hup) as B1.
  pose proof (updated_signs L (po_Updated out)) as S1. destruct (applyUpdatedObjects holder L _) as [L1 s1].
  pose proof (bodyAt_created x _ L1 (extractTxHash tx) (txLocksDeposits tx) 0 (po_Created out) Hid B1) as B2.
  pose proof (created_signs L1 (extractTxHash tx) (txLocksDeposits tx) 0 (po_Created out)) as S2.
  destruct (applyCreatedObjects cr holder p L1 _ _ _ _) as [L2 s2]. cbn in *. injection HE as <- <-. split.
  - apply bodyAt_versions; [by apply bodyAt_deleted|done].
  - intros r [Hr|Hr]%elem_of_app Hx.
    + destruct (S1 r Hr) as (o & Ho & H1 & ->). apply Hup; congruence.
    + destruct (S2 r Hr) as (k & Hk & H1). exfalso. apply (Hid k Hk). cbn. congruence.
Qed.

(** Every stored body of a mutable reference ends one version up. *)
Lemma Execute_version L atx L' signs tx r x :
  Execute cr vm holder epoch p L atx = (L', signs, None) -> atx_Transaction atx = Some tx ->
  r ∈ tx_MutableRefs tx -> mutableRefID r = Some x ->
  (forall r', r' ∈ tx_MutableRefs tx -> mutableRefID r' = Some x -> ref_version r' = ref_version r) ->
  bodyAt x (fun o => obj_version o = ref_version r +w 1) L'.
Proof using Type.
  unfold Execute. intros HE Htx Hr Hx Hu. rewrite Htx in HE. destruct (vm _ _ _) as [output|]; [|done].
  destruct (processOutput _ _ _ _ _ _ _ _) as [[L1 s1] [e|]]; [done|]. injection HE as <- <-.
  apply versions_set; [|left; eauto]. intros r' Hr' Hx'. by rewrite (Hu r' Hr' Hx').
Qed.

Lemma untouched_versions x L tx :
  x ∉ omap mutableRefID (tx_MutableRefs tx) -> getBody (ensureMutableVersions L tx) x = getBody L x.
Proof using Type.
  unfold ensureMutableVersions. revert L. induction (tx_MutableRefs tx) as [|r refs IH]; intros L Hx; [done|]. cbn in *.
  rewrite IH. 2:{ destruct (mutableRefID r); set_solver. }
  unfold ensureMutableVersion, mutableRefID in *. destruct (hash32 (ref_id r)) as [id|]; [|done].
  destruct (getBody L id); [|done]. destruct (_ =? _); [done|]. rewrite getBody_put, bool_decide_false; [done|]. set_solver.
Qed.

Lemma untouched_deleted x L tx :
  x ∉ decodeKeys (length (tx_DeletedObjects tx) / 32) (tx_DeletedObjects tx) -> getBody (applyDeletedObjects L tx) x = getBody L x.
Proof using Type.
  unfold applyDeletedObjects. generalize (decodeKeys (length (tx_DeletedObjects tx) / 32) (tx_DeletedObjects tx)) as ids.
  intros ids. revert L. induction ids as [|id ids IH]; intros L Hx; [done|]. cbn. rewrite IH by set_solver.
  unfold deleteHeldContent. destruct (getBody L id); [|done]. case_bool_decide; [|done].
  rewrite getBody_drop, bool_decide_false; [done|]. set_solver.
Qed.

Lemma untouched_updated x L updated :
  (forall o, o ∈ updated -> objectIDOf o <> x) -> getBody (fst (applyUpdatedObjects holder L updated)) x = getBody L x.
Proof using Type.
  revert L. induction updated as [|o updated IH]; intros L Hu; cbn; [done|].
  set (L1 := putBody L (extractObjectID (rebuildObjectIncrementVersion o)) (rebuildObjectIncrementVersion o)).
  specialize (IH L1 ltac:(intros; apply Hu; by right)). destruct (applyUpdatedObjects holder L1 updated). cbn [fst] in *. rewrite IH.
  unfold L1. rewrite getBody_put, bool_decide_false; [done|]. intros ->. by apply (Hu o); [left|].
Qed.

(** Bodies the transaction does not name are the same bodies. *)
Lemma Execute_untouched L atx L' signs tx x :
  Execute cr vm holder epoch p L atx = (L', signs, None) -> atx_Transaction atx = Some tx ->
  ~ createsID tx x -> x ∉ omap mutableRefID (tx_MutableRefs tx) ->
  inputsByID (resolveMutableObjects L tx (atx_Objects atx)) !! x = None ->
  x ∉ decodeKeys (length (tx_DeletedObjects tx) / 32) (tx_DeletedObjects tx) ->
  getBody L' x = getBody L x.
Proof using Type.
  unfold Execute. intros HE Htx Hc Hr Hin Hd. rewrite Htx in HE. set (ins := resolveMutableObjects L tx _) in *.
  destruct (vm _ _ _) as [output|]; [|done]. unfold processOutput in HE. destruct output as [out|].
  2:{ injection HE as <- <-. by apply untouched_versions. }
  destruct (negb _); [done|]. destruct (validateOutput cr epoch L out tx _ ins) eqn:Ev; [done|].
  apply validateOutput_None in Ev as (Hlen & _ & Hpu).
  pose proof (untouched_updated x L (po_Updated out)) as U1. destruct (applyUpdatedObjects holder L _) as [L1 s1].
  pose proof (untouched_created x L1 (extractTxHash tx) (txLocksDeposits tx) 0 (po_Created out)) as U2.
  destruct (applyCreatedObjects cr holder p L1 _ _ _ _) as [L2 s2]. cbn [fst] in *. injection HE as <- <-.
  rewrite untouched_versions, untouched_deleted, U2, U1; [done|..]; try done.
  - intros o Ho Hx. destruct (parentsUnchanged_sound _ _ _ o Hpu Ho) as (i & Hi & _). congruence.
  - intros k Hk Hx. apply Hc. exists k. split; [lia|done].
Qed.

End Effect.
