(* ===== verification/Attest.v ===== *)
(** * Attestations (internal/attest, internal/aggregation)

    Who holds a replicated object (rendezvous hashing), what a holder signs, how
    a quorum proof carried in a transaction is checked against the committee of
    its epoch, alone or as part of a round's batch, and how a holder answers an
    attestation request.  BLAKE3 is [blake3]; the pairing check of the BLS
    library is the parameter [blst] and signing the parameter [sign]. *)

From S2P Require Import Prelude Types Validators Storage.

(** ** Rendezvous (attest/rendezvous.go) *)

Record scoredValidator := mkScored { sv_pubkey : Hash; sv_score : Hash }.

(** The order [sort.Slice] is given: highest score first. *)
Definition score_ge (a b : scoredValidator) : Prop := bytes_le (sv_score b) (sv_score a).

#[export] Instance score_ge_dec : RelDecision score_ge.
Proof. intros a b. unfold score_ge. apply _. Defined.

#[export] Instance score_ge_total : Total score_ge.
Proof. intros a b. unfold score_ge. destruct (total bytes_le (sv_score b) (sv_score a)); auto. Qed.

#[export] Instance score_ge_trans : Transitive score_ge.
Proof. intros a b c Hab Hbc. unfold score_ge in *. by etrans. Qed.

(** [QuorumSize]: two thirds of the holders, rounded up on the percentage. *)
Definition QuorumSize (replication : nat) : nat := (replication * 67 + 99) / 100.

Section Holders.
Context (cr : Crypto).

Definition computeScore (objectID validator : Hash) : Hash := blake3 cr (objectID ++ validator).

Definition ComputeHolders (vs : ValidatorSet) (objectID : Hash) (replication : Z) : list Hash :=
  let pubkeys := Validators vs in
  if replication <=? 0 then []
  else
    let scored := map (fun v => mkScored v (computeScore objectID v)) pubkeys in
    take (Z.to_nat (Z.min replication (Z.of_nat (length pubkeys)))) (map sv_pubkey (merge_sort score_ge scored)).

(** [ComputeObjectHash] (attest/hash.go). *)
Definition ComputeObjectHash (content : bytes) (version : Z) (owner : bytes) : Hash :=
  blake3 cr (content ++ be_enc 8 version ++ owner).

End Holders.

(** ** Signer bitmaps (attest/bls.go) *)

Definition setBit (bitmap : bytes) (idx : nat) : bytes :=
  alter (fun b => Z.lor b (Z.shiftl 1 (Z.of_nat (idx mod 8)))) (idx / 8)%nat bitmap.

(** [indices] are non-negative; an index at or above [total] is skipped. *)
Definition BuildSignerBitmap (indices : list nat) (total : nat) : bytes :=
  foldl (fun bitmap idx => if Nat.ltb idx total then setBit bitmap idx else bitmap)
        (replicate ((total + 7) / 8) 0) indices.

Definition bitsOf (byteIdx : nat) (b : Z) : list nat :=
  map (fun bit => (byteIdx * 8 + bit)%nat) (List.filter (fun bit => Z.testbit b (Z.of_nat bit)) (seq 0 8)).

Fixpoint parseFrom (byteIdx : nat) (bitmap : bytes) : list nat :=
  match bitmap with
  | [] => []
  | b :: bitmap => bitsOf byteIdx b ++ parseFrom (S byteIdx) bitmap
  end.

Definition ParseSignerBitmap (bitmap : bytes) : list nat := parseFrom 0 bitmap.

(** ** Aggregated signatures and the worker pool (attest/bls.go, batch.go) *)

Definition BLSPublicKeySize : nat := 48%nat.
Definition BLSSignatureSize : nat := 96%nat.

Record AggCheck := mkAggCheck {
  ac_Signature : bytes;
  ac_Message : bytes;
  ac_PublicKeys : list bytes;
}.

Section Aggregate.
Context (blst : bytes -> bytes -> list bytes -> bool).

(** [VerifyAggregated]: sizes first, then the library (point decoding included). *)
Definition VerifyAggregated (signature message : bytes) (publicKeys : list bytes) : bool :=
  if negb (Nat.eqb (length signature) BLSSignatureSize) || Nat.eqb (length publicKeys) 0 then false
  else if negb (forallb (fun pk => Nat.eqb (length pk) BLSPublicKeySize) publicKeys) then false
  else blst signature message publicKeys.

Definition verdictOf (c : AggCheck) : bool := VerifyAggregated (ac_Signature c) (ac_Message c) (ac_PublicKeys c).

(** The pool: a shared counter, one slot per item, and the workers, each idle
    with the index it is about to write ([Some i]) or between items ([None]). *)
Record Pool := mkPool {
  pl_next : nat;
  pl_results : list bool;
  pl_workers : list (option nat);
}.

(** One step of worker [w]: take the next index, or write its verdict. *)
Inductive poolStep (items : list AggCheck) : Pool -> Pool -> Prop :=
| pool_take s w :
    pl_workers s !! w = Some None -> (pl_next s < length items)%nat ->
    poolStep items s (mkPool (S (pl_next s)) (pl_results s) (<[w := Some (pl_next s)]> (pl_workers s)))
| pool_write s w i item :
    pl_workers s !! w = Some (Some i) -> items !! i = Some item ->
    poolStep items s (mkPool (pl_next s) (<[i := verdictOf item]> (pl_results s)) (<[w := None]> (pl_workers s))).

Definition poolStart (items : list AggCheck) (workers : nat) : Pool :=
  mkPool 0 (replicate (length items) false) (replicate workers None).

Definition poolDone (items : list AggCheck) (s : Pool) : Prop :=
  (length items <= pl_next s)%nat /\ Forall (fun w => w = None) (pl_workers s).

(** [VerifyAggregatedBatch], in input order; [pool_agrees] shows that every
    schedule of the pool ends here. *)
Definition VerifyAggregatedBatch (items : list AggCheck) : list bool := map verdictOf items.

End Aggregate.

(** ** Quorum proofs (aggregation/verify.go) *)

Inductive proofError :=
| errEpochInvalid
| errPastGrace
| errNoSnapshot
| errObjectNotFound (i : nat)
| errNoSigners (i : nat)
| errInsufficientSigners (i : nat)
| errSignatureInvalid (i : nat).

Record EpochResolver := mkResolver {
  er_HoldersForEpoch : Z -> option ValidatorSet;
  er_CommitEpochForRound : Z -> Z;
  er_EpochLength : Z;
  er_GraceRounds : Z;
}.

Record batchPlan := mkPlan {
  bp_checks : list AggCheck;
  bp_atxOf : list nat;
  bp_proofOf : list nat;
}.

(** [findATXObjectIndex], as the object itself. *)
Fixpoint findATXObject (objects : list Object) (objectID : bytes) : option Object :=
  match objects with
  | [] => None
  | o :: objects => if bool_decide (obj_id o = objectID) then Some o else findATXObject objects objectID
  end.

(** The key a holder index of the bitmap contributes, if any. *)
Definition signerKey (holders : list Hash) (vs : ValidatorSet) (idx : nat) : option bytes :=
  h ← holders !! idx; info ← Validators.Get vs h;
  if bool_decide (BLSPubkey info = zeroBLS) then None else Some (BLSPubkey info).

Definition extractSignerBLSKeys (bitmap : bytes) (holders : list Hash) (vs : ValidatorSet) : list bytes :=
  omap (signerKey holders vs) (ParseSignerBitmap bitmap).

Section Verifier.
Context (cr : Crypto) (blst : bytes -> bytes -> list bytes -> bool) (er : EpochResolver).

Definition withinGrace (commitRound : Z) : bool :=
  if er_EpochLength er =? 0 then false
  else
    let boundary := er_CommitEpochForRound er commitRound *w er_EpochLength er in
    if commitRound <? boundary then false
    else commitRound -w boundary <? er_GraceRounds er.

Definition resolveHolders (attestationEpoch commitRound : Z) : proofError + ValidatorSet :=
  let commitEpoch := er_CommitEpochForRound er commitRound in
  let set := match er_HoldersForEpoch er attestationEpoch with Some vs => inr vs | None => inl errNoSnapshot end in
  if attestationEpoch =? commitEpoch then set
  else if (0 <? commitEpoch) && (attestationEpoch =? commitEpoch -w 1) then
    if withinGrace commitRound then set else inl errPastGrace
  else inl errEpochInvalid.

(** The object ID is copied into 32 bytes before the holders are computed. *)
Definition prepareSingleProof (atx : AttestedTransaction) (proof : QuorumProof) (vs : ValidatorSet) (i : nat)
    : proofError + AggCheck :=
  match findATXObject (atx_Objects atx) (qp_object_id proof) with
  | None => inl (errObjectNotFound i)
  | Some obj =>
      let hash := ComputeObjectHash cr (obj_content obj) (obj_version obj) (obj_owner obj) in
      let holders := ComputeHolders cr vs (toHash (qp_object_id proof)) (obj_replication obj) in
      let keys := extractSignerBLSKeys (qp_signer_bitmap proof) holders vs in
      if Nat.eqb (length keys) 0 then inl (errNoSigners i)
      else if Nat.ltb (length keys) (QuorumSize (length holders)) then inl (errInsufficientSigners i)
      else inr (mkAggCheck (qp_bls_signature proof) hash keys)
  end.

(** The proof loop of [collectATXChecks] from index [i] on. *)
Fixpoint collectProofs (atx : AttestedTransaction) (vs : ValidatorSet) (atxIdx i : nat) (proofs : list QuorumProof)
    (plan : batchPlan) : option proofError * batchPlan :=
  match proofs with
  | [] => (None, plan)
  | proof :: proofs =>
      match prepareSingleProof atx proof vs i with
      | inl e => (Some e, plan)
      | inr check =>
          collectProofs atx vs atxIdx (S i) proofs
            (mkPlan (bp_checks plan ++ [check]) (bp_atxOf plan ++ [atxIdx]) (bp_proofOf plan ++ [i]))
      end
  end.

Definition collectATXChecks (atx : AttestedTransaction) (atxIdx : nat) (commitRound : Z) (plan : batchPlan)
    : option proofError * batchPlan :=
  match resolveHolders (atx_AttestationEpoch atx) commitRound with
  | inl e => (Some e, plan)
  | inr vs => collectProofs atx vs atxIdx 0 (atx_Proofs atx) plan
  end.

Fixpoint prepareBatch (atxs : list AttestedTransaction) (atxIdx : nat) (commitRound : Z) (plan : batchPlan)
    : list (option proofError) * batchPlan :=
  match atxs with
  | [] => ([], plan)
  | atx :: atxs =>
      let '(e, plan) := collectATXChecks atx atxIdx commitRound plan in
      let '(es, plan) := prepareBatch atxs (S atxIdx) commitRound plan in (e :: es, plan)
  end.

(** One failing verdict: the first error of an ATX stays. *)
Definition applyVerdict (results : list (option proofError)) (k : bool * (nat * nat)) : list (option proofError) :=
  let '(ok, (atxIdx, proofIdx)) := k in
  if ok then results
  else alter (fun e => match e with None => Some (errSignatureInvalid proofIdx) | Some e => Some e end) atxIdx results.

Definition applyBatchVerdicts (plan : batchPlan) (verdicts : list bool) (results : list (option proofError))
    : list (option proofError) :=
  foldl applyVerdict results (zip verdicts (zip (bp_atxOf plan) (bp_proofOf plan))).

Definition VerifyBatch (atxs : list AttestedTransaction) (commitRound : Z) : list (option proofError) :=
  let '(results, plan) := prepareBatch atxs 0 commitRound (mkPlan [] [] []) in
  applyBatchVerdicts plan (VerifyAggregatedBatch blst (bp_checks plan)) results.

(** [Verify]: the batch of one. *)
Definition Verify (atx : AttestedTransaction) (commitRound : Z) : option proofError :=
  default None (VerifyBatch [atx] commitRound !! 0%nat).

End Verifier.

(** ** The attestation protocol (attest/protocol.go, aggregation/sigstore.go,
    aggregation/handler.go) *)

Definition msgTypeRequest : Z := 1.
Definition msgTypePositive : Z := 2.
Definition msgTypeNegative : Z := 3.
Definition ReasonNotFound : Z := 1.
Definition ReasonWrongVersion : Z := 2.

Record AttestationRequest := mkRequest { rq_ObjectID : Hash; rq_Version : Z }.
Record PositiveResponse := mkPositive { ps_Hash : Hash; ps_Signature : bytes }.

Definition EncodeRequest (req : AttestationRequest) : bytes :=
  msgTypeRequest :: rq_ObjectID req ++ be_enc 8 (rq_Version req).

Definition DecodeRequest (data : bytes) : option AttestationRequest :=
  if Nat.ltb (length data) 41 then None
  else if negb (default 0 (data !! 0%nat) =? msgTypeRequest) then None
  else Some (mkRequest (slice 1 32 data) (be_dec (slice 33 8 data))).

(** A shorter signature leaves zero bytes, a longer one is cut. *)
Definition EncodePositiveResponse (resp : PositiveResponse) : bytes :=
  msgTypePositive :: ps_Hash resp ++ take 96 (ps_Signature resp ++ replicate 96 0).

Definition DecodePositiveResponse (data : bytes) : option PositiveResponse :=
  if Nat.ltb (length data) 129 then None
  else if negb (default 0 (data !! 0%nat) =? msgTypePositive) then None
  else Some (mkPositive (slice 1 32 data) (slice 33 96 data)).

Definition EncodeNegativeResponse (reason : Z) : bytes := [msgTypeNegative; reason].

Definition DecodeNegativeResponse (data : bytes) : option Z :=
  match data with
  | t :: reason :: _ => if t =? msgTypeNegative then Some reason else None
  | _ => None
  end.

Definition GetMessageType (data : bytes) : option Z := data !! 0%nat.

Definition IsAttestationRequest (data : bytes) : bool :=
  match data with t :: _ => t =? msgTypeRequest | [] => false end.

Definition sigKeyPrefix : bytes := str "objsig:".
Definition sigValueSize : nat := (8 + BLSSignatureSize)%nat.
Definition sigKey (id : Hash) : bytes := sigKeyPrefix ++ id.

Section Handler.
Context {M : Type} `{Pebble M} (cr : Crypto) (sign : bytes -> bytes).
Context (getObject : Hash -> option Object) (isHolder : option (Hash -> Z -> bool)).

Definition PutObjectSig (db : M) (id : Hash) (version : Z) (sig : bytes) : M :=
  Set_ db (sigKey id) (be_enc 8 version ++ sig).

Definition GetObjectSig (db : M) (id : Hash) : option (Z * bytes) :=
  match Get db (sigKey id) with
  | Some val => if Nat.eqb (length val) sigValueSize then Some (be_dec (take 8 val), drop 8 val) else None
  | None => None
  end.

Definition signatureForCurrent (db : option M) (id : Hash) (version : Z) (obj : Object) (hash : Hash)
    : option M * option bytes :=
  match (s ← db; GetObjectSig s id) with
  | Some (storedVersion, sig) =>
      if storedVersion =? version then (db, Some sig)
      else if match isHolder with Some f => negb (f id (obj_replication obj)) | None => false end then (db, None)
      else ((fun s => PutObjectSig s id version (sign hash)) <$> db, Some (sign hash))
  | None =>
      if match isHolder with Some f => negb (f id (obj_replication obj)) | None => false end then (db, None)
      else ((fun s => PutObjectSig s id version (sign hash)) <$> db, Some (sign hash))
  end.

Definition processRequest (db : option M) (req : AttestationRequest) : option M * bytes :=
  match getObject (rq_ObjectID req) with
  | None => (db, EncodeNegativeResponse ReasonNotFound)
  | Some obj =>
      if obj_replication obj =? 0 then (db, EncodeNegativeResponse ReasonNotFound)
      else if negb (obj_version obj =? rq_Version req) then (db, EncodeNegativeResponse ReasonWrongVersion)
      else
        let hash := ComputeObjectHash cr (obj_content obj) (rq_Version req) (obj_owner obj) in
        match signatureForCurrent db (rq_ObjectID req) (rq_Version req) obj hash with
        | (db, Some sig) => (db, EncodePositiveResponse (mkPositive hash sig))
        | (db, None) => (db, EncodeNegativeResponse ReasonNotFound)
        end
  end.

(** [HandleRequest]: [None] is the decode error. *)
Definition HandleRequest (db : option M) (data : bytes) : option (option M * bytes) :=
  req ← DecodeRequest data; Some (processRequest db req).

End Handler.

(** * Facts *)

(** ** Bitmaps *)

Lemma elem_of_bitsOf i k b :
  i ∈ bitsOf k b <-> (i / 8 = k)%nat /\ Z.testbit b (Z.of_nat (i mod 8)) = true.
Proof.
  unfold bitsOf. rewrite list_elem_of_In, in_map_iff. split.
  - intros (bit & <- & [Hin Ht]%filter_In). apply in_seq in Hin.
    assert ((k * 8 + bit) / 8 = k)%nat as -> by (rewrite Nat.div_add_l by lia; rewrite Nat.div_small; lia).
    split; [done|]. rewrite Nat.add_comm, Nat.Div0.mod_add, Nat.mod_small by lia. done.
  - intros [<- Ht]. exists (i mod 8)%nat. split; [pose proof (Nat.div_mod_eq i 8); lia|].
    apply filter_In. split; [|done]. apply in_seq. pose proof (Nat.mod_upper_bound i 8). lia.
Qed.

Lemma NoDup_bitsOf k b : NoDup (bitsOf k b).
Proof.
  unfold bitsOf. apply (NoDup_fmap_2_strong _ (List.filter _ _)).
  - intros x y _ _ Hxy. lia.
  - apply NoDup_ListNoDup, List.NoDup_filter, seq_NoDup.
Qed.

Lemma elem_of_parseFrom i k bitmap :
  i ∈ parseFrom k bitmap <-> exists b, (k <= i / 8)%nat /\ bitmap !! (i / 8 - k)%nat = Some b /\ Z.testbit b (Z.of_nat (i mod 8)) = true.
Proof.
  revert k. induction bitmap as [|b bitmap IH]; intros k; cbn [parseFrom].
  { split; [by intros ?%elem_of_nil|]. intros (b & _ & H & _). done. }
  rewrite elem_of_app, elem_of_bitsOf, IH. split.
  - intros [[<- Ht]|(b' & Hk & Hl & Ht)].
    + exists b. rewrite Nat.sub_diag. done.
    + exists b'. split; [lia|]. replace (i / 8 - k)%nat with (S (i / 8 - S k)) by lia. done.
  - intros (b' & Hk & Hl & Ht). destruct (decide (i / 8 = k)%nat) as [<-|Hne].
    + left. rewrite Nat.sub_diag in Hl. cbn in Hl. injection Hl as ->. done.
    + right. exists b'. split; [lia|]. replace (i / 8 - k)%nat with (S (i / 8 - S k)) in Hl by lia. done.
Qed.

Lemma NoDup_parseFrom k bitmap : NoDup (parseFrom k bitmap).
Proof.
  revert k. induction bitmap as [|b bitmap IH]; intros k; cbn [parseFrom]; [constructor|].
  apply NoDup_app. split; [apply NoDup_bitsOf|]. split; [|apply IH].
  intros i Hi%elem_of_bitsOf Hj%elem_of_parseFrom. destruct Hi as [<- _], Hj as (? & ? & _). lia.
Qed.

(** The signers a bitmap names. *)
Definition bitSet (bitmap : bytes) (i : nat) : bool :=
  match bitmap !! (i / 8)%nat with Some b => Z.testbit b (Z.of_nat (i mod 8)) | None => false end.

Lemma elem_of_ParseSignerBitmap bitmap i : i ∈ ParseSignerBitmap bitmap <-> bitSet bitmap i = true.
Proof.
  unfold ParseSignerBitmap, bitSet. rewrite elem_of_parseFrom, Nat.sub_0_r. split.
  - by intros (b & _ & -> & Ht).
  - destruct (bitmap !! (i / 8)%nat) as [b|]; [|done]. intros Ht. exists b. split; [lia|done].
Qed.

Lemma bitSet_setBit bitmap idx i :
  (idx / 8 < length bitmap)%nat -> bitSet (setBit bitmap idx) i = bitSet bitmap i || bool_decide (i = idx).
Proof.
  intros Hlen. unfold bitSet, setBit. destruct (decide (i / 8 = idx / 8)%nat) as [E|E].
  - rewrite E, list_lookup_alter_eq. destruct (lookup_lt_is_Some_2 bitmap _ Hlen) as [b ->]. cbn [fmap option_fmap option_map].
    rewrite Z.lor_spec. f_equal. destruct (decide (i mod 8 = idx mod 8)%nat) as [Em|Em].
    + rewrite Em, Z.shiftl_spec, Z.sub_diag, bool_decide_true; [done| |lia].
      pose proof (Nat.div_mod_eq i 8). pose proof (Nat.div_mod_eq idx 8). lia.
    + rewrite bool_decide_false by (intros ->; lia). rewrite Z.shiftl_spec by lia.
      destruct (Z.ltb_spec (Z.of_nat (i mod 8)) (Z.of_nat (idx mod 8))).
      * by rewrite Z.testbit_neg_r by lia.
      * replace 1 with (2 ^ 0) by done. rewrite Z.pow2_bits_false; [done|lia].
  - rewrite list_lookup_alter_ne by done. rewrite bool_decide_false by (intros ->; lia). by rewrite orb_false_r.
Qed.

Lemma length_setBit bitmap idx : length (setBit bitmap idx) = length bitmap.
Proof. unfold setBit. apply length_alter. Qed.

Lemma build_fold total indices bitmap i :
  length bitmap = ((total + 7) / 8)%nat ->
  bitSet (foldl (fun bitmap idx => if Nat.ltb idx total then setBit bitmap idx else bitmap) bitmap indices) i =
  bitSet bitmap i || bool_decide (i ∈ indices /\ i < total)%nat.
Proof.
  revert bitmap. induction indices as [|idx indices IH]; intros bitmap Hlen; cbn [foldl].
  - rewrite bool_decide_false by (intros [?%elem_of_nil _]; done). by rewrite orb_false_r.
  - destruct (Nat.ltb_spec idx total) as [Hlt|Hge].
    + rewrite IH by (by rewrite length_setBit). rewrite bitSet_setBit.
      2:{ rewrite Hlen. apply Nat.Div0.div_lt_upper_bound. pose proof (Nat.div_mod_eq (total + 7) 8).
          pose proof (Nat.mod_upper_bound (total + 7) 8). lia. }
      rewrite <- orb_assoc. f_equal. destruct (decide (i = idx)) as [->|Hne].
      * rewrite (bool_decide_true (idx = idx)) by done. symmetry. apply bool_decide_eq_true. split; [left|done].
      * rewrite (bool_decide_false (i = idx)) by done. cbn. apply bool_decide_ext. rewrite elem_of_cons. tauto.
    + rewrite IH by done. f_equal. apply bool_decide_ext. rewrite elem_of_cons. split; [tauto|]. intros [[->|?] ?]; [lia|tauto].
Qed.

(** Building and parsing a bitmap gives back the indices below the total, once each. *)
Theorem signer_bitmap_roundtrip (indices : list nat) (total : nat) :
  NoDup (ParseSignerBitmap (BuildSignerBitmap indices total)) /\
  forall i, i ∈ ParseSignerBitmap (BuildSignerBitmap indices total) <-> i ∈ indices /\ (i < total)%nat.
Proof.
  split; [apply NoDup_parseFrom|]. intros i. rewrite elem_of_ParseSignerBitmap. unfold BuildSignerBitmap.
  rewrite build_fold by apply length_replicate.
  assert (bitSet (replicate ((total + 7) / 8) 0) i = false) as ->.
  { unfold bitSet. destruct (_ !! _) as [b|] eqn:Eb; [|done]. apply lookup_replicate in Eb as [-> _]. by rewrite Z.bits_0. }
  cbn. apply bool_decide_eq_true.
Qed.

(** ** The worker pool *)

Section PoolFacts.
Context (blst : bytes -> bytes -> list bytes -> bool) (items : list AggCheck).

(** A slot below the counter holds its verdict or is in a worker's hands. *)
Record poolInv (s : Pool) : Prop := {
  pi_next : (pl_next s <= length items)%nat;
  pi_len : length (pl_results s) = length items;
  pi_busy : forall w i, pl_workers s !! w = Some (Some i) -> (i < pl_next s)%nat;
  pi_slot : forall i item, (i < pl_next s)%nat -> items !! i = Some item ->
    pl_results s !! i = Some (verdictOf blst item) \/ exists w, pl_workers s !! w = Some (Some i);
}.

Lemma poolStart_inv n : poolInv (poolStart items n).
Proof.
  split; cbn; [lia|apply length_replicate| |lia]. intros w i Hw. apply lookup_replicate in Hw as [? _]. done.
Qed.

Lemma poolStep_inv s s' : poolStep blst items s s' -> poolInv s -> poolInv s'.
Proof.
  intros Hs [I1 I2 I3 I4]. destruct Hs as [s w Hw Hn|s w i item Hw Hi]; split; cbn.
  - lia.
  - done.
  - intros w' i' Hw'. destruct (decide (w' = w)) as [->|Hne].
    + rewrite list_lookup_insert_eq in Hw' by (eapply lookup_lt_Some; eauto). injection Hw' as <-. lia.
    + rewrite list_lookup_insert_ne in Hw' by done. specialize (I3 _ _ Hw'). lia.
  - intros i item Hlt Hi. destruct (decide (i = pl_next s)) as [->|Hne].
    + right. exists w. apply list_lookup_insert_eq. eapply lookup_lt_Some; eauto.
    + destruct (I4 i item ltac:(lia) Hi) as [?|[w' Hw']]; [by left|]. right. exists w'.
      rewrite list_lookup_insert_ne; [done|]. intros ->. congruence.
  - done.
  - by rewrite length_insert.
  - intros w' i' Hw'. destruct (decide (w' = w)) as [->|Hne].
    + rewrite list_lookup_insert_eq in Hw' by (eapply lookup_lt_Some; eauto). done.
    + rewrite list_lookup_insert_ne in Hw' by done. by apply (I3 w').
  - intros i' item' Hlt Hi'. destruct (decide (i' = i)) as [->|Hne].
    + left. rewrite list_lookup_insert_eq by (rewrite I2; eapply lookup_lt_Some; eauto). congruence.
    + rewrite list_lookup_insert_ne by done. destruct (I4 i' item' Hlt Hi') as [?|[w' Hw']]; [by left|].
      right. exists w'. rewrite list_lookup_insert_ne; [done|]. intros ->. congruence.
Qed.

(** What is left to do: two steps per untaken item, one per busy worker. *)
Definition busy (ws : list (option nat)) : nat := length (List.filter (fun w => bool_decide (is_Some w)) ws).
Definition poolWork (s : Pool) : nat := (2 * (length items - pl_next s) + busy (pl_workers s))%nat.

Lemma busy_insert ws w (old new : option nat) :
  ws !! w = Some old ->
  (busy (<[w := new]> ws) + (if bool_decide (is_Some old) then 1 else 0) =
   busy ws + (if bool_decide (is_Some new) then 1 else 0))%nat.
Proof.
  revert w. induction ws as [|o ws IH]; intros [|w] Hw; try done.
  - injection Hw as ->. unfold busy. cbn. destruct (bool_decide (is_Some old)), (bool_decide (is_Some new)); cbn; lia.
  - specialize (IH w Hw). change (<[S w := new]> (o :: ws)) with (o :: <[w := new]> ws). unfold busy in *. cbn [List.filter].
    destruct (bool_decide (is_Some o)); cbn [length]; lia.
Qed.

Lemma poolStep_work s s' : poolStep blst items s s' -> (poolWork s = S (poolWork s'))%nat.
Proof.
  intros Hs. destruct Hs as [s w Hw Hn|s w i item Hw Hi]; unfold poolWork; cbn [pl_next pl_workers].
  - pose proof (busy_insert _ _ _ (Some (pl_next s)) Hw) as Hb. rewrite bool_decide_false in Hb by (by intros []).
    rewrite bool_decide_true in Hb by eauto. lia.
  - pose proof (busy_insert _ _ _ None Hw) as Hb. rewrite bool_decide_true in Hb by eauto.
    rewrite bool_decide_false in Hb by (by intros []). lia.
Qed.

Lemma poolSteps_inv n s s' : nsteps (poolStep blst items) n s s' -> poolInv s -> poolInv s' /\ (poolWork s = n + poolWork s')%nat.
Proof.
  induction 1 as [s|n s1 s2 s3 Hs _ IH]; intros HI; [done|].
  destruct (IH (poolStep_inv _ _ Hs HI)) as [HI' Hw]. split; [done|]. pose proof (poolStep_work _ _ Hs). lia.
Qed.

Lemma poolDone_results s : poolInv s -> poolDone items s -> pl_results s = VerifyAggregatedBatch blst items.
Proof.
  intros [I1 I2 I3 I4] [Hn Hw]. apply list_eq_same_length with (length items); [by unfold VerifyAggregatedBatch; rewrite length_map|done|].
  intros i x y Hi Hx Hy. unfold VerifyAggregatedBatch in Hy. rewrite list_lookup_fmap in Hy.
  destruct (items !! i) as [item|] eqn:Ei; [|done]. injection Hy as <-.
  destruct (I4 i item ltac:(lia) Ei) as [E|[w Ew]]; [congruence|].
  rewrite Forall_lookup in Hw. specialize (Hw _ _ Ew). done.
Qed.

(** A pool with a worker that is not done can move. *)
Lemma pool_progress s : (0 < length (pl_workers s))%nat -> poolInv s -> poolDone items s \/ exists s', poolStep blst items s s'.
Proof.
  intros H0 [I1 I2 I3 I4]. destruct (decide (Forall (fun w => w = None) (pl_workers s))) as [Hall|Hex].
  - destruct (decide (pl_next s < length items)%nat) as [Hlt|Hge]; [|left; split; [lia|done]].
    right. destruct (lookup_lt_is_Some_2 (pl_workers s) 0 H0) as [w Hw]. rewrite Forall_lookup in Hall.
    rewrite (Hall _ _ Hw) in Hw. eexists. by apply (pool_take blst items s 0).
  - right. apply not_Forall_Exists in Hex; [|apply _]. apply Exists_exists in Hex as ([i|] & Hin & Hne); [|by destruct (Hne eq_refl)].
    apply list_elem_of_lookup in Hin as [w Hw]. pose proof (I3 w i Hw) as Hi.
    destruct (lookup_lt_is_Some_2 items i ltac:(lia)) as [item Hit]. eexists. by eapply (pool_write blst items s w i item).
Qed.

End PoolFacts.

(** Every schedule of the workers makes at most two steps per item, can always
    go on until it is done, and ends with the verdicts of the items in order. *)

(** However its workers interleave, the signature pool finishes after two steps per
    item and every finished run holds the verdict of each item in its slot. *)
Theorem pool_agrees blst items workers n s :
  (0 < workers)%nat -> nsteps (poolStep blst items) n (poolStart items workers) s ->
  (n <= 2 * length items)%nat /\
  (poolDone items s -> pl_results s = VerifyAggregatedBatch blst items) /\
  (poolDone items s \/ exists s', poolStep blst items s s').
Proof.
  intros H0 Hs. destruct (poolSteps_inv blst items n _ _ Hs (poolStart_inv blst items workers)) as [HI Hw].
  split.
  - assert (Hb : busy (replicate workers None) = 0%nat) by (clear; induction workers; cbn; auto).
    unfold poolWork, poolStart in Hw. cbn [pl_next pl_workers] in Hw. rewrite Hb in Hw. lia.
  - split; [by apply poolDone_results|]. apply pool_progress; [|done].
    assert (Hl : length (pl_workers s) = workers); [|lia].
    clear -Hs. remember (poolStart items workers) as s0. assert (length (pl_workers s0) = workers) as <-
      by (subst; apply length_replicate). clear Heqs0. induction Hs as [|n s1 s2 s3 Hst _ IH]; [done|]. rewrite IH.
    destruct Hst; cbn; by rewrite length_insert.
Qed.

(** ** A batch is its transactions, one by one *)

Section VerifierFacts.
Context (cr : Crypto) (blst : bytes -> bytes -> list bytes -> bool) (er : EpochResolver).

Definition entry : Type := AggCheck * (nat * nat).

(** What one transaction adds to the plan. *)
Fixpoint ownProofs (atx : AttestedTransaction) (vs : ValidatorSet) (idx i : nat) (proofs : list QuorumProof)
    : option proofError * list entry :=
  match proofs with
  | [] => (None, [])
  | proof :: proofs =>
      match prepareSingleProof cr atx proof vs i with
      | inl e => (Some e, [])
      | inr check => let '(e, es) := ownProofs atx vs idx (S i) proofs in (e, (check, (idx, i)) :: es)
      end
  end.

Definition ownATX (atx : AttestedTransaction) (idx : nat) (commitRound : Z) : option proofError * list entry :=
  match resolveHolders er (atx_AttestationEpoch atx) commitRound with
  | inl e => (Some e, [])
  | inr vs => ownProofs atx vs idx 0 (atx_Proofs atx)
  end.

Definition plan_app (plan : batchPlan) (es : list entry) : batchPlan :=
  mkPlan (bp_checks plan ++ map fst es) (bp_atxOf plan ++ map (fun e => fst (snd e)) es)
         (bp_proofOf plan ++ map (fun e => snd (snd e)) es).

Lemma plan_app_nil plan : plan_app plan [] = plan.
Proof using Type. destruct plan. unfold plan_app. cbn. by rewrite !app_nil_r. Qed.

Lemma plan_app_app plan es es' : plan_app (plan_app plan es) es' = plan_app plan (es ++ es').
Proof using Type. unfold plan_app. cbn. by rewrite !map_app, !app_assoc. Qed.

Lemma collectProofs_own atx vs idx i proofs plan :
  collectProofs cr atx vs idx i proofs plan =
  (fst (ownProofs atx vs idx i proofs), plan_app plan (snd (ownProofs atx vs idx i proofs))).
Proof using Type.
  revert i plan. induction proofs as [|proof proofs IH]; intros i plan; cbn; [by rewrite plan_app_nil|].
  destruct (prepareSingleProof cr atx proof vs i) as [e|check]; [by rewrite plan_app_nil|]. rewrite IH.
  destruct (ownProofs atx vs idx (S i) proofs) as [e es]. cbn. f_equal.
  change (mkPlan _ _ _) with (plan_app plan [(check, (idx, i))]). by rewrite plan_app_app.
Qed.

Lemma collectATXChecks_own atx idx r plan :
  collectATXChecks cr er atx idx r plan = (fst (ownATX atx idx r), plan_app plan (snd (ownATX atx idx r))).
Proof using Type.
  unfold collectATXChecks, ownATX. destruct (resolveHolders _ _ _) as [e|vs]; cbn; [by rewrite plan_app_nil|apply collectProofs_own].
Qed.

Fixpoint ownAll (atxs : list AttestedTransaction) (idx : nat) (r : Z) : list (option proofError) * list entry :=
  match atxs with
  | [] => ([], [])
  | atx :: atxs =>
      let '(e, es) := ownATX atx idx r in
      let '(rs, es') := ownAll atxs (S idx) r in (e :: rs, es ++ es')
  end.

Lemma prepareBatch_own atxs idx r plan :
  prepareBatch cr er atxs idx r plan = (fst (ownAll atxs idx r), plan_app plan (snd (ownAll atxs idx r))).
Proof using Type.
  revert idx plan. induction atxs as [|atx atxs IH]; intros idx plan; cbn; [by rewrite plan_app_nil|].
  rewrite collectATXChecks_own. destruct (ownATX atx idx r) as [e es]. cbn. rewrite IH.
  destruct (ownAll atxs (S idx) r) as [rs es']. cbn. by rewrite plan_app_app.
Qed.

Definition judge (e : entry) : bool * (nat * nat) := (verdictOf blst (fst e), snd e).

Lemma applyBatchVerdicts_own es results :
  applyBatchVerdicts (plan_app (mkPlan [] [] []) es) (VerifyAggregatedBatch blst (bp_checks (plan_app (mkPlan [] [] []) es))) results =
  foldl applyVerdict results (map judge es).
Proof using Type.
  unfold applyBatchVerdicts, VerifyAggregatedBatch. f_equal. cbn.
  induction es as [|[check [idx i]] es IH]; cbn; [done|]. f_equal. exact IH.
Qed.

(** The verdicts of one transaction, folded into its own result. *)
Definition settle (e : option proofError) (es : list (bool * (nat * nat))) : option proofError :=
  foldl (fun e k => if fst k : bool then e
                    else match e with None => Some (errSignatureInvalid (snd (snd k))) | Some e => Some e end) e es.

#[local] Arguments settle : simpl never.

Lemma apply_at pre e post es :
  Forall (fun k => fst (snd k) = length pre) es ->
  foldl applyVerdict (pre ++ e :: post) es = pre ++ settle e es :: post.
Proof using Type.
  revert e. induction es as [|[ok [idx i]] es IH]; intros e Hes; cbn; [done|].
  apply Forall_cons in Hes as [Hi Hes]. cbn in Hi. subst idx. destruct ok; [by apply IH|].
  rewrite alter_app_r_alt, Nat.sub_diag by lia. cbn. by apply IH.
Qed.

Lemma ownProofs_idx atx vs idx i proofs :
  Forall (fun e => fst (snd e) = idx) (snd (ownProofs atx vs idx i proofs)) /\
  forall idx', fst (ownProofs atx vs idx' i proofs) = fst (ownProofs atx vs idx i proofs) /\
    forall e, settle e (map judge (snd (ownProofs atx vs idx' i proofs))) = settle e (map judge (snd (ownProofs atx vs idx i proofs))).
Proof using Type.
  revert i. induction proofs as [|proof proofs IH]; intros i; cbn; [done|].
  destruct (prepareSingleProof cr atx proof vs i) as [e|check]; [done|]. destruct (IH (S i)) as [H1 H2].
  destruct (ownProofs atx vs idx (S i) proofs) as [e es]. cbn in *. split; [by constructor|].
  intros idx'. destruct (H2 idx') as [H3 H4]. destruct (ownProofs atx vs idx' (S i) proofs) as [e' es']. cbn in *.
  split; [done|]. intros e0. unfold settle in *. cbn. apply H4.
Qed.

Lemma ownATX_idx atx idx r :
  Forall (fun e => fst (snd e) = idx) (snd (ownATX atx idx r)) /\
  forall idx', fst (ownATX atx idx' r) = fst (ownATX atx idx r) /\
    forall e, settle e (map judge (snd (ownATX atx idx' r))) = settle e (map judge (snd (ownATX atx idx r))).
Proof using Type. unfold ownATX. destruct (resolveHolders _ _ _); [done|]. apply ownProofs_idx. Qed.

(** The verdict of one transaction by itself. *)
Definition verdictOne (atx : AttestedTransaction) (r : Z) : option proofError :=
  settle (fst (ownATX atx 0 r)) (map judge (snd (ownATX atx 0 r))).

Lemma ownAll_settles atxs pre r :
  foldl applyVerdict (pre ++ fst (ownAll atxs (length pre) r)) (map judge (snd (ownAll atxs (length pre) r))) =
  pre ++ map (fun atx => verdictOne atx r) atxs.
Proof using Type.
  revert pre. induction atxs as [|atx atxs IH]; intros pre; cbn; [done|].
  destruct (ownATX_idx atx (length pre) r) as [Hi Hs]. destruct (Hs 0%nat) as [He Hj].
  assert (Hv : verdictOne atx r = settle (fst (ownATX atx (length pre) r)) (map judge (snd (ownATX atx (length pre) r))))
    by (unfold verdictOne; by rewrite He, Hj).
  destruct (ownATX atx (length pre) r) as [e es]. cbn in *.
  specialize (IH (pre ++ [verdictOne atx r])). rewrite length_app in IH. cbn in IH. rewrite Nat.add_1_r in IH.
  destruct (ownAll atxs (S (length pre)) r) as [rs es']. cbn in *. rewrite map_app, foldl_app, apply_at.
  2:{ by apply Forall_fmap. }
  rewrite <- Hv. rewrite <- !app_assoc in IH. exact IH.
Qed.

Lemma VerifyBatch_verdicts atxs r : VerifyBatch cr blst er atxs r = map (fun atx => verdictOne atx r) atxs.
Proof using Type.
  unfold VerifyBatch. rewrite prepareBatch_own. cbn [fst snd]. rewrite applyBatchVerdicts_own. apply (ownAll_settles atxs []).
Qed.

(** ** What an accepted proof shows *)

Lemma settle_None e es : settle e es = None <-> e = None /\ Forall (fun k => fst k = true) es.
Proof using Type.
  revert e. induction es as [|[ok k] es IH]; intros e; unfold settle in *; cbn; [split; [done|by intros [? _]]|].
  rewrite IH, Forall_cons. cbn. destruct ok; [tauto|]. split; [|by intros (_ & ? & _)]. destruct e; by intros [? _].
Qed.

Lemma ownProofs_accept atx vs idx i proofs :
  fst (ownProofs atx vs idx i proofs) = None /\ Forall (fun k => fst k = true) (map judge (snd (ownProofs atx vs idx i proofs))) <->
  forall j proof, proofs !! j = Some proof -> exists check, prepareSingleProof cr atx proof vs (i + j) = inr check /\ verdictOf blst check = true.
Proof using Type.
  revert i. induction proofs as [|proof proofs IH]; intros i; cbn; [split; [by intros _ j p ?|done]|].
  destruct (prepareSingleProof cr atx proof vs i) as [e|check] eqn:Ep.
  - split; [by intros [? _]|]. intros Hf. destruct (Hf 0%nat proof eq_refl) as (check & Hc & _).
    rewrite Nat.add_0_r in Hc. congruence.
  - specialize (IH (S i)). destruct (ownProofs atx vs idx (S i) proofs) as [e es]. cbn in *. rewrite Forall_cons. cbn. split.
    + intros (He & Hv & Hes) [|j] p Hp; cbn in Hp.
      * injection Hp as <-. rewrite Nat.add_0_r. eauto.
      * rewrite Nat.add_succ_r. by apply IH.
    + intros Hf. destruct (Hf 0%nat proof eq_refl) as (check' & Hc & Hv). rewrite Nat.add_0_r, Ep in Hc. injection Hc as <-.
      assert (e = None /\ Forall (fun k => fst k = true) (map judge es)) as [? ?]; [|done].
      apply IH. intros j p Hp. destruct (Hf (S j) p Hp) as (c' & Hc' & Hv'). rewrite Nat.add_succ_r in Hc'. eauto.
Qed.

Lemma verdictOne_accept atx r :
  verdictOne atx r = None <-> exists vs, resolveHolders er (atx_AttestationEpoch atx) r = inr vs /\
    forall i proof, atx_Proofs atx !! i = Some proof ->
      exists check, prepareSingleProof cr atx proof vs i = inr check /\ verdictOf blst check = true.
Proof using Type.
  unfold verdictOne. rewrite settle_None. unfold ownATX. destruct (resolveHolders _ _ _) as [e|vs]; cbn.
  - split; [by intros [? _]|by intros (vs & ? & _)].
  - rewrite ownProofs_accept. split; [intros Hf; exists vs; split; [done|exact Hf]|]. by intros (vs' & [= ->] & Hf).
Qed.

End VerifierFacts.

(** Verifying a round's attested transactions in one batch gives each of them the
    verdict of verifying it alone, whatever the others hold. *)
Theorem batch_is_pointwise cr blst er atxs r :
  VerifyBatch cr blst er atxs r = map (fun atx => Verify cr blst er atx r) atxs.
Proof.
  rewrite VerifyBatch_verdicts. apply map_ext. intros atx. unfold Verify. by rewrite VerifyBatch_verdicts.
Qed.

(** ** Holders *)

Section HolderFacts.
Context (cr : Crypto) (objectID : Hash).
Implicit Types vs : ValidatorSet.

Definition scored (l : list Hash) : list scoredValidator := map (fun v => mkScored v (computeScore cr objectID v)) l.
Definition ranking (l : list Hash) : list Hash := map sv_pubkey (merge_sort score_ge (scored l)).

Lemma pubkeys_scored l : map sv_pubkey (scored l) = l.
Proof using Type. unfold scored. induction l as [|x l IH]; [done|]. cbn. by rewrite IH. Qed.

Lemma ranking_perm l : ranking l ≡ₚ l.
Proof using Type.
  unfold ranking. rewrite <- (pubkeys_scored l) at 2. apply (fmap_Permutation sv_pubkey), merge_sort_Permutation.
Qed.

Lemma ComputeHolders_ranking vs rep :
  ComputeHolders cr vs objectID rep = take (Z.to_nat (Z.min rep (Z.of_nat (length (Validators vs))))) (ranking (Validators vs)).
Proof using Type.
  unfold ComputeHolders, ranking. destruct (Z.leb_spec rep 0); [|done].
  assert (Z.to_nat (Z.min rep (Z.of_nat (length (Validators vs)))) = 0%nat) as -> by lia. done.
Qed.

Lemma NoDup_holders vs rep : NoDup (Validators vs) -> NoDup (ComputeHolders cr vs objectID rep).
Proof using Type.
  intros Hnd. rewrite ComputeHolders_ranking. rewrite <- ranking_perm in Hnd.
  rewrite <- (take_drop (Z.to_nat (Z.min rep (Z.of_nat (length (Validators vs))))) (ranking _)) in Hnd.
  by apply NoDup_app in Hnd as [? _].
Qed.

Lemma length_holders vs rep :
  length (ComputeHolders cr vs objectID rep) = Z.to_nat (Z.min rep (Z.of_nat (length (Validators vs)))).
Proof using Type. rewrite ComputeHolders_ranking, length_take, ranking_perm. lia. Qed.

(** With distinct scores the ranking is the only sorted arrangement. *)
Lemma ranking_unique l (s : list scoredValidator) :
  NoDup (map (computeScore cr objectID) l) -> Sorted score_ge s -> s ≡ₚ scored l -> map sv_pubkey s = ranking l.
Proof using Type.
  intros Hnd Hs Hp. unfold ranking. f_equal. apply (Sorted_unique_strong score_ge).
  - intros a b Ha Hb Hab Hba. rewrite Hp in Ha. rewrite (merge_sort_Permutation score_ge) in Hb.
    assert (Hsc : sv_score a = sv_score b) by (by apply (anti_symm bytes_le)).
    apply list_elem_of_In, in_map_iff in Ha as (x & <- & Hx), Hb as (y & <- & Hy). cbn in Hsc.
    apply list_elem_of_In, list_elem_of_lookup in Hx as [i Hi], Hy as [j Hj].
    assert (i = j) as ->; [|congruence].
    apply (NoDup_lookup _ i j (computeScore cr objectID x) Hnd); rewrite list_lookup_fmap, ?Hi, ?Hj; cbn; congruence.
  - done.
  - apply (Sorted_merge_sort score_ge).
  - by rewrite Hp, merge_sort_Permutation.
Qed.

Lemma Sorted_filter_ge (P : scoredValidator -> Prop) `{forall x, Decision (P x)} s :
  Sorted score_ge s -> Sorted score_ge (filter P s).
Proof using Type.
  intros Hs. apply StronglySorted_Sorted. apply Sorted_StronglySorted in Hs; [|intros a b c; apply score_ge_trans].
  induction Hs as [|a s _ IH Hf]; [constructor|]. rewrite filter_cons. case_decide; [|done]. constructor; [done|].
  apply Forall_forall. intros x Hx. apply list_elem_of_filter in Hx as [_ Hx]. rewrite Forall_forall in Hf. by apply Hf.
Qed.

Lemma take_filter_ne (pk : Hash) k (l : list Hash) :
  pk ∉ take k l -> (k <= length (filter (fun x => x <> pk) l))%nat -> take k (filter (fun x => x <> pk) l) = take k l.
Proof using Type.
  revert k. induction l as [|x l IH]; intros [|k] Hn Hk; [done..|]. change (pk ∉ x :: take k l) in Hn.
  rewrite filter_cons in Hk. rewrite filter_cons. case_decide as Hx; [|set_solver].
  cbn [take length] in *. f_equal. apply IH; [set_solver|lia].
Qed.

Lemma filter_map_pubkey (pk : Hash) s :
  map sv_pubkey (filter (fun a => sv_pubkey a <> pk) s) = filter (fun x => x <> pk) (map sv_pubkey s).
Proof using Type.
  induction s as [|a s IH]; [done|]. cbn [map]. rewrite !filter_cons. cbn [map]. case_decide; cbn; by rewrite IH.
Qed.

Lemma filter_scored (pk : Hash) l :
  filter (fun a => sv_pubkey a <> pk) (scored l) = scored (filter (fun x => x <> pk) l).
Proof using Type.
  induction l as [|x l IH]; [done|]. cbn [scored map]. rewrite !filter_cons. cbn. case_decide; cbn; unfold scored in *; by rewrite IH.
Qed.

Lemma holders_stable vs vs' rep pk :
  NoDup (map (computeScore cr objectID) (Validators vs)) ->
  Validators vs' ≡ₚ filter (fun x => x <> pk) (Validators vs) -> pk ∉ ComputeHolders cr vs objectID rep ->
  ComputeHolders cr vs' objectID rep = ComputeHolders cr vs objectID rep.
Proof using Type.
  intros Hnd Hp Hn. rewrite !ComputeHolders_ranking in *.
  assert (Hr : ranking (Validators vs') = filter (fun x => x <> pk) (ranking (Validators vs))).
  { unfold ranking at 2. rewrite <- filter_map_pubkey. symmetry. apply ranking_unique.
    - eapply NoDup_Permutation_proper; [apply (fmap_Permutation (computeScore cr objectID)), Hp|].
      clear -Hnd. induction (Validators vs) as [|x l IH]; [constructor|]. cbn in Hnd. apply NoDup_cons in Hnd as [Hx Hnd].
      rewrite filter_cons. case_decide; [|by apply IH]. cbn. apply NoDup_cons. split; [|by apply IH].
      intros Hin. apply Hx. apply list_elem_of_fmap in Hin as (y & -> & Hy). apply list_elem_of_filter in Hy as [_ Hy].
      by apply list_elem_of_fmap_2.
    - apply Sorted_filter_ge, (Sorted_merge_sort score_ge).
    - rewrite (filter_Permutation _ _ _ (merge_sort_Permutation score_ge _)), filter_scored.
      apply (fmap_Permutation (fun v => mkScored v (computeScore cr objectID v))). by symmetry. }
  rewrite Hr. set (k := Z.to_nat (Z.min rep (Z.of_nat (length (Validators vs))))) in *.
  assert (Hlen : length (filter (fun x => x <> pk) (ranking (Validators vs))) = length (Validators vs'))
    by (by rewrite <- Hr, ranking_perm).
  destruct (decide (k <= length (Validators vs'))%nat) as [Hk|Hk].
  - assert (Z.to_nat (Z.min rep (Z.of_nat (length (Validators vs')))) = k) as ->.
    { assert (length (Validators vs') <= length (Validators vs))%nat; [|lia].
      rewrite Hp. apply length_filter. }
    apply take_filter_ne; [done|lia].
  - exfalso. apply Hk. assert (k <= length (ranking (Validators vs)))%nat as Hkl by (rewrite ranking_perm; lia).
    rewrite <- Hlen. clearbody k. clear -Hn Hkl. revert k Hn Hkl. generalize (ranking (Validators vs)) as l.
    induction l as [|x l IH]; intros [|k] Hn Hkl; cbn [length] in *; try lia. change (pk ∉ x :: take k l) in Hn.
    rewrite filter_cons. case_decide; [|set_solver]. cbn [length]. specialize (IH k ltac:(set_solver) ltac:(lia)). lia.
Qed.

End HolderFacts.

(** ** Signers *)

Definition signers (bitmap : bytes) (holders : list Hash) (vs : ValidatorSet) : list nat :=
  List.filter (fun idx => bool_decide (is_Some (signerKey holders vs idx))) (ParseSignerBitmap bitmap).

Lemma keys_of_signers bitmap holders vs :
  extractSignerBLSKeys bitmap holders vs = omap (signerKey holders vs) (signers bitmap holders vs) /\
  length (extractSignerBLSKeys bitmap holders vs) = length (signers bitmap holders vs).
Proof.
  unfold extractSignerBLSKeys, signers. induction (ParseSignerBitmap bitmap) as [|idx l [IH1 IH2]]; [done|].
  cbn [omap list_omap List.filter]. destruct (signerKey holders vs idx) as [k|] eqn:Ek.
  - rewrite bool_decide_true by eauto. cbn [omap list_omap length]. rewrite Ek. unfold omap in *. by rewrite <- IH1, IH2.
  - rewrite bool_decide_false by (by intros []). done.
Qed.

Lemma signers_spec bitmap holders vs idx :
  idx ∈ signers bitmap holders vs -> (idx < length holders)%nat /\ is_Some (signerKey holders vs idx).
Proof.
  unfold signers. rewrite list_elem_of_In, filter_In. intros [_ Hk%bool_decide_eq_true]. split; [|done].
  unfold signerKey in Hk. destruct (holders !! idx) eqn:Eh; [|by destruct Hk]. by eapply lookup_lt_Some.
Qed.

Lemma NoDup_signers bitmap holders vs : NoDup (signers bitmap holders vs).
Proof. apply NoDup_ListNoDup, List.NoDup_filter, NoDup_ListNoDup, NoDup_parseFrom. Qed.

(** Two subsets of [n] positions, each a per-object quorum, share more than a third. *)
Lemma quorums_overlap n (S1 S2 : list nat) :
  (0 < n)%nat -> NoDup S1 -> NoDup S2 -> (forall i, i ∈ S1 -> i < n)%nat -> (forall i, i ∈ S2 -> i < n)%nat ->
  (QuorumSize n <= length S1)%nat -> (QuorumSize n <= length S2)%nat ->
  (n < 3 * length (List.filter (fun i => bool_decide (i ∈ S2)) S1))%nat.
Proof.
  intros Hn N1 N2 B1 B2 Q1 Q2. set (both := List.filter (fun i => bool_decide (i ∈ S2)) S1).
  set (only := List.filter (fun i => negb (bool_decide (i ∈ S2))) S1).
  assert (Hsplit : length S1 = (length both + length only)%nat).
  { unfold both, only. clear. induction S1 as [|i S1 IH]; [done|]. cbn. case_bool_decide; cbn; lia. }
  assert (Hd : NoDup (only ++ S2)).
  { apply NoDup_app. split; [apply NoDup_ListNoDup, List.NoDup_filter, NoDup_ListNoDup, N1|]. split; [|done].
    intros i Hi. unfold only in Hi. rewrite list_elem_of_In, filter_In in Hi. destruct Hi as [_ Hi]. by case_bool_decide. }
  assert (Hb : (length (only ++ S2) <= n)%nat).
  { rewrite <- (length_seq n 0). apply submseteq_length, NoDup_submseteq; [done|]. intros i [Hi|Hi]%elem_of_app; apply elem_of_seq.
    - split; [lia|]. apply B1. unfold only in Hi. rewrite list_elem_of_In, filter_In in Hi. apply list_elem_of_In. tauto.
    - split; [lia|]. by apply B2. }
  rewrite length_app in Hb. unfold QuorumSize in *.
  pose proof (Nat.div_mod_eq (n * 67 + 99) 100). pose proof (Nat.mod_upper_bound (n * 67 + 99) 100). lia.
Qed.

(** The signers behind a proof of an accepted transaction. *)
Lemma accepted_proof cr blst er atx r i p vs o :
  Verify cr blst er atx r = None -> atx_Proofs atx !! i = Some p ->
  resolveHolders er (atx_AttestationEpoch atx) r = inr vs -> findATXObject (atx_Objects atx) (qp_object_id p) = Some o ->
  let hs := ComputeHolders cr vs (toHash (qp_object_id p)) (obj_replication o) in
  let S := signers (qp_signer_bitmap p) hs vs in
  (0 < length S)%nat /\ (QuorumSize (length hs) <= length S)%nat /\
  blst (qp_bls_signature p) (ComputeObjectHash cr (obj_content o) (obj_version o) (obj_owner o)) (omap (signerKey hs vs) S) = true.
Proof.
  intros V P R F. unfold Verify in V. rewrite VerifyBatch_verdicts in V. cbn in V.
  apply verdictOne_accept in V as (vs' & R' & Hf). rewrite R in R'. injection R' as <-. destruct (Hf i p P) as (check & Hc & Ht).
  unfold prepareSingleProof in Hc. rewrite F in Hc. cbv zeta in *. set (hs := ComputeHolders _ _ _ _) in *.
  destruct (keys_of_signers (qp_signer_bitmap p) hs vs) as [Hk Hl].
  destruct (Nat.eqb _ 0) eqn:E0; [done|]. destruct (Nat.ltb _ _) eqn:Eq; [done|]. injection Hc as <-.
  apply Nat.eqb_neq in E0. apply Nat.ltb_ge in Eq. rewrite Hl in E0, Eq. rewrite <- Hk. split_and!; [lia|done|].
  unfold verdictOf, VerifyAggregated in Ht. cbn [ac_Signature ac_Message ac_PublicKeys] in Ht. destruct (_ || _); [done|].
  by destruct (negb _).
Qed.

(** Two accepted proofs of one object, against one committee and replication:
    more than a third of its holders signed both messages. *)

(** Two accepted quorum proofs of one object under one holder set and replication
    have more than a third of the holders' slots in common among the signers that count.
    *)
Theorem accepted_proofs_share_signers cr blst er atx1 atx2 r1 r2 i1 i2 p1 p2 vs o1 o2 :
  Verify cr blst er atx1 r1 = None -> atx_Proofs atx1 !! i1 = Some p1 ->
  Verify cr blst er atx2 r2 = None -> atx_Proofs atx2 !! i2 = Some p2 ->
  resolveHolders er (atx_AttestationEpoch atx1) r1 = inr vs -> resolveHolders er (atx_AttestationEpoch atx2) r2 = inr vs ->
  qp_object_id p1 = qp_object_id p2 ->
  findATXObject (atx_Objects atx1) (qp_object_id p1) = Some o1 -> findATXObject (atx_Objects atx2) (qp_object_id p2) = Some o2 ->
  obj_replication o1 = obj_replication o2 ->
  let holders := ComputeHolders cr vs (toHash (qp_object_id p1)) (obj_replication o1) in
  exists S1 S2 C, NoDup C /\ (length holders < 3 * length C)%nat /\ (forall i, i ∈ C -> i ∈ S1 /\ i ∈ S2 /\ is_Some (signerKey holders vs i)) /\
    blst (qp_bls_signature p1) (ComputeObjectHash cr (obj_content o1) (obj_version o1) (obj_owner o1)) (omap (signerKey holders vs) S1) = true /\
    blst (qp_bls_signature p2) (ComputeObjectHash cr (obj_content o2) (obj_version o2) (obj_owner o2)) (omap (signerKey holders vs) S2) = true.
Proof.
  intros V1 P1 V2 P2 R1 R2 Hid F1 F2 Hrep holders.
  destruct (accepted_proof _ _ _ _ _ _ _ _ _ V1 P1 R1 F1) as (Z1 & Q1 & B1).
  destruct (accepted_proof _ _ _ _ _ _ _ _ _ V2 P2 R2 F2) as (Z2 & Q2 & B2).
  rewrite <- Hid, <- Hrep in Z2, Q2, B2. fold holders in Z1, Q1, B1, Z2, Q2, B2.
  set (S1 := signers (qp_signer_bitmap p1) holders vs) in *. set (S2 := signers (qp_signer_bitmap p2) holders vs) in *.
  exists S1, S2, (List.filter (fun i => bool_decide (i ∈ S2)) S1).
  split; [apply NoDup_ListNoDup, List.NoDup_filter, NoDup_ListNoDup, NoDup_signers|]. split; [|split; [|done]].
  - destruct S1 as [|i S1'] eqn:ES; [cbn in Z1; lia|]. rewrite <- ES in *.
    assert (Hi : i ∈ S1) by (rewrite ES; left). apply signers_spec in Hi as [Hi _].
    apply quorums_overlap; [lia|apply NoDup_signers..| | |done|done]; intros j Hj; by apply signers_spec in Hj as [? _].
  - intros i. rewrite list_elem_of_In, filter_In, <- list_elem_of_In. intros [Hi1 Hi2%bool_decide_eq_true].
    split_and!; [done..|]. by apply signers_spec in Hi1 as [_ ?].
Qed.

(** ** Serving attestations *)

Section HandlerFacts.
Context {M : Type} `{Pebble M} (cr : Crypto) (sign : bytes -> bytes).
Context (getObject : Hash -> option Object) (isHolder : option (Hash -> Z -> bool)).
Context (Hsign : forall m, length (sign m) = 96%nat) (Hhash : forall m, length (blake3 cr m) = 32%nat).

Definition hashOf (o : Object) : Hash := ComputeObjectHash cr (obj_content o) (obj_version o) (obj_owner o).

(** A stored signature for the current version of a stored object covers it. *)
Definition sigsOk (db : M) : Prop :=
  forall id v sig o, GetObjectSig db id = Some (v, sig) -> getObject id = Some o -> obj_version o = v -> sig = sign (hashOf o).

Lemma sigKey_inj a b : sigKey a = sigKey b -> a = b.
Proof using Type. unfold sigKey. by intros ?%(inj (app sigKeyPrefix)). Qed.

Lemma GetObjectSig_put db id v sig x :
  is_u64 v -> length sig = 96%nat ->
  GetObjectSig (PutObjectSig db id v sig) x = if bool_decide (x = id) then Some (v, sig) else GetObjectSig db x.
Proof using Type.
  intros Hv Hl. unfold GetObjectSig, PutObjectSig, Get, Set_. rewrite !db_get_spec, db_set_spec.
  case_bool_decide as Hx.
  - subst x. rewrite lookup_insert_eq. rewrite length_app, length_be_enc, Hl. cbn [Nat.eqb].
    rewrite take_app_length' by (by rewrite length_be_enc). rewrite drop_app_length' by (by rewrite length_be_enc).
    by rewrite be_dec_enc by (unfold is_u64 in Hv; simpl; lia).
  - rewrite lookup_insert_ne by (intros ?%sigKey_inj; congruence). done.
Qed.

Lemma decode_positive hash sig :
  length hash = 32%nat -> length sig = 96%nat -> DecodePositiveResponse (EncodePositiveResponse (mkPositive hash sig)) = Some (mkPositive hash sig).
Proof using Type.
  intros Hh Hs. unfold DecodePositiveResponse, EncodePositiveResponse. cbn [ps_Hash ps_Signature].
  rewrite take_app_le, take_ge by lia. change (msgTypePositive :: hash ++ sig) with ([msgTypePositive] ++ hash ++ sig).
  rewrite !length_app, Hh, Hs. cbn [length Nat.ltb Nat.leb plus]. change (negb _) with false. cbv iota.
  rewrite !(slice_app_r _ _ [msgTypePositive]) by (cbn; lia). cbn [length Nat.sub].
  rewrite slice_app_l by done. rewrite (slice_app_r 32) by lia. rewrite Hh, slice_whole by done. done.
Qed.

(** A positive answer carries the hash and the signature of the stored object
    at the requested version, and the signature store stays right. *)
Theorem served_attestation_is_current db req db' resp :
  sigsOk db -> is_u64 (rq_Version req) -> processRequest cr sign getObject isHolder (Some db) req = (Some db', resp) ->
  sigsOk db' /\
  (forall pr, DecodePositiveResponse resp = Some pr -> exists o, getObject (rq_ObjectID req) = Some o /\
     obj_replication o <> 0 /\ obj_version o = rq_Version req /\ pr = mkPositive (hashOf o) (sign (hashOf o))).
Proof using Hsign Hhash.
  intros Hok Hv. unfold processRequest. destruct (getObject (rq_ObjectID req)) as [o|] eqn:Eo; [|by intros [= <- <-]].
  destruct (Z.eqb_spec (obj_replication o) 0); [by intros [= <- <-]|].
  destruct (Z.eqb_spec (obj_version o) (rq_Version req)) as [Ev|]; cbn [negb]; [|by intros [= <- <-]].
  assert (Eh : ComputeObjectHash cr (obj_content o) (rq_Version req) (obj_owner o) = hashOf o) by (unfold hashOf; by rewrite Ev).
  cbv zeta. rewrite Eh.
  assert (Hpos : forall db1 sig, sig = sign (hashOf o) -> sigsOk db1 ->
    (Some db1, EncodePositiveResponse (mkPositive (hashOf o) sig)) = (Some db', resp) ->
    sigsOk db' /\ forall pr, DecodePositiveResponse resp = Some pr -> exists o', Some o = Some o' /\
      obj_replication o' <> 0 /\ obj_version o' = rq_Version req /\ pr = mkPositive (hashOf o') (sign (hashOf o'))).
  { intros db1 sig -> Hdb [= <- <-]. split; [done|]. intros pr. rewrite decode_positive by (unfold hashOf, ComputeObjectHash; auto).
    intros [= <-]. by exists o. }
  assert (Hput : sigsOk (PutObjectSig db (rq_ObjectID req) (rq_Version req) (sign (hashOf o)))).
  { intros x v sig o' Hg Ho' Hvo. rewrite GetObjectSig_put in Hg by auto. case_bool_decide; [|by apply (Hok x v sig o')].
    subst x. injection Hg as <- <-. congruence. }
  unfold signatureForCurrent. cbn [mbind option_bind].
  destruct (GetObjectSig db (rq_ObjectID req)) as [[sv sig]|] eqn:Eg.
  - destruct (Z.eqb_spec sv (rq_Version req)) as [->|].
    + apply Hpos; [|done]. by apply (Hok _ _ _ o Eg).
    + destruct (match isHolder with Some f => _ | None => false end); [by intros [= <- <-]|]. by apply Hpos.
  - destruct (match isHolder with Some f => _ | None => false end); [by intros [= <- <-]|]. by apply Hpos.
Qed.

End HandlerFacts.

Lemma request_roundtrip req :
  length (rq_ObjectID req) = 32%nat -> is_u64 (rq_Version req) -> DecodeRequest (EncodeRequest req) = Some req.
Proof.
  intros Hl Hv. destruct req as [id v]. unfold DecodeRequest, EncodeRequest. cbn [rq_ObjectID rq_Version length] in *.
  change (msgTypeRequest :: id ++ be_enc 8 v) with ([msgTypeRequest] ++ id ++ be_enc 8 v).
  rewrite length_app, length_be_enc, Hl. cbn [Nat.ltb Nat.leb plus]. change (negb _) with false. cbv iota.
  rewrite !(slice_app_r _ _ [msgTypeRequest]) by (cbn; lia). cbn [length Nat.sub].
  rewrite slice_app_l by done. rewrite (slice_app_r 32) by lia. rewrite Hl, slice_whole by apply length_be_enc.
  by rewrite be_dec_enc by (unfold is_u64 in Hv; simpl; lia).
Qed.

(** ** What the message does not bind

    The signed message is the bare concatenation of the three fields: with an
    owner field of another length, one message stands for two objects. *)
Theorem attestation_message_is_ambiguous cr :
  exists c1 v1 o1 c2 v2 o2, (c1, v1, o1) <> (c2, v2, o2) /\ length o2 = 32%nat /\
    ComputeObjectHash cr c1 v1 o1 = ComputeObjectHash cr c2 v2 o2.
Proof.
  exists [7], 3, (be_enc 8 9 ++ replicate 32 5), (7 :: be_enc 8 3), 9, (replicate 32 5). split; [done|]. split; [done|].
  unfold ComputeObjectHash. f_equal.
Qed.

(** Losing a validator that does not hold an object moves none of its copies. *)
Theorem rendezvous_moves_no_other_copy cr objectID vs vs' rep pk :
  NoDup (map (computeScore cr objectID) (Validators vs)) ->
  Validators vs' ≡ₚ filter (fun x => x <> pk) (Validators vs) -> pk ∉ ComputeHolders cr vs objectID rep ->
  ComputeHolders cr vs' objectID rep = ComputeHolders cr vs objectID rep.
Proof. apply holders_stable. Qed.

(** ** A committee of four *)

Definition fill (n : Z) : Hash := replicate 32 n.
Definition toyCrypto : Crypto :=
  mkCrypto (fun b => take 32 (reverse b ++ replicate 32 0)) (fun _ => []) (fun _ _ _ => true) (fun _ _ _ _ => true).
Definition committee : ValidatorSet :=
  foldl (fun vs n => fst (Add vs (fill n) [] (replicate 48 n))) (NewValidatorSet []) [1; 2; 3; 4].
Definition toyResolver : EpochResolver := mkResolver (fun _ => Some committee) (fun _ => 0) 0 50.

(** Signatures that aggregate by listing the first byte of each key. *)
Definition toyAggregate (msg : bytes) (keys : list bytes) : bytes :=
  take 96 (map (hd 0) keys ++ msg ++ replicate 96 0).
Definition toyBlst (sig msg : bytes) (keys : list bytes) : bool := bool_decide (sig = toyAggregate msg keys).

Definition copyOf (rep : Z) (content : bytes) : Object := mkObject (fill 9) 4 (fill 7) rep content 0 0.

(** A copy with the proof of the holders at the given positions. *)
Definition provenBy (o : Object) (idxs : list nat) : AttestedTransaction :=
  let holders := ComputeHolders toyCrypto committee (fill 9) (obj_replication o) in
  let bitmap := BuildSignerBitmap idxs 8 in
  mkAtx None [o] [mkQuorumProof (fill 9)
    (toyAggregate (ComputeObjectHash toyCrypto (obj_content o) (obj_version o) (obj_owner o))
                  (omap (signerKey holders committee) (ParseSignerBitmap bitmap))) bitmap] 0.

(** The replication of a copy is neither signed nor compared with the tracker:
    the first holder alone proves any content of an object that needs three of
    its four holders, by writing another replication into the copy. *)
Theorem replication_is_not_attested :
  Verify toyCrypto toyBlst toyResolver (provenBy (copyOf 4 [1; 2; 3]) [0%nat]) 5 = Some (errInsufficientSigners 0) /\
  Verify toyCrypto toyBlst toyResolver (provenBy (copyOf 1 [6; 6; 6]) [0%nat]) 5 = None.
Proof. split; vm_compute; reflexivity. Qed.

Theorem accepted_proofs_share_signers_witness :
  exists S1 S2 C : list nat, NoDup C /\ (4 < 3 * length C)%nat /\ forall i, i ∈ C -> i ∈ S1 /\ i ∈ S2.
Proof.
  destruct (accepted_proofs_share_signers toyCrypto toyBlst toyResolver
    (provenBy (copyOf 4 [1; 2; 3]) [0%nat; 1%nat; 2%nat]) (provenBy (copyOf 4 [4]) [1%nat; 2%nat; 3%nat]) 5 6 0 0
    _ _ committee (copyOf 4 [1; 2; 3]) (copyOf 4 [4])
    ltac:(vm_compute; reflexivity) eq_refl ltac:(vm_compute; reflexivity) eq_refl
    ltac:(vm_compute; reflexivity) ltac:(vm_compute; reflexivity) eq_refl
    ltac:(vm_compute; reflexivity) ltac:(vm_compute; reflexivity) eq_refl)
    as (S1 & S2 & C & HN & HL & HC & _).
  exists S1, S2, C. split; [exact HN|]. split; [exact HL|]. intros i Hi. destruct (HC i Hi) as (H1 & H2 & _). exact (conj H1 H2).
Defined.

Theorem rendezvous_moves_no_other_copy_witness :
  ComputeHolders toyCrypto (fst (Remove committee (fill 1))) (fill 9) 2 = [fill 4; fill 3].
Proof.
  rewrite (rendezvous_moves_no_other_copy toyCrypto (fill 9) committee (fst (Remove committee (fill 1))) 2 (fill 1)).
  - vm_compute. reflexivity.
  - apply (bool_decide_unpack _). vm_compute. exact I.
  - apply (bool_decide_unpack _). vm_compute. exact I.
  - apply (bool_decide_unpack _). vm_compute. exact I.
Defined.

Definition poolItems : list AggCheck :=
  [mkAggCheck (toyAggregate [1] [replicate 48 2]) [1] [replicate 48 2]; mkAggCheck [] [] []].

Theorem pool_agrees_witness :
  exists s, nsteps (poolStep toyBlst poolItems) 4 (poolStart poolItems 2) s /\ pl_results s = [true; false].
Proof.
  assert (Hs : exists s, nsteps (poolStep toyBlst poolItems) 4 (poolStart poolItems 2) s /\ poolDone poolItems s).
  { eexists. split.
    - eapply nsteps_l; [apply (pool_take _ _ _ 0); [reflexivity|cbn; lia]|].
      eapply nsteps_l; [apply (pool_take _ _ _ 1); [reflexivity|cbn; lia]|].
      eapply nsteps_l; [eapply (pool_write _ _ _ 1); reflexivity|].
      eapply nsteps_l; [eapply (pool_write _ _ _ 0); reflexivity|]. apply nsteps_O.
    - split; [cbn; lia|]. repeat constructor. }
  destruct Hs as (s & Hs & Hd). exists s. split; [exact Hs|].
  destruct (pool_agrees toyBlst poolItems 2 4 s ltac:(lia) Hs) as (_ & Hr & _). rewrite (Hr Hd). vm_compute. reflexivity.
Defined.

Theorem served_attestation_is_current_witness :
  exists db resp, processRequest toyCrypto (fun m => toyAggregate m []) (fun _ => Some (copyOf 4 [1])) None (Some (∅ : gmap bytes bytes)) (mkRequest (fill 9) 4)
    = (Some db, resp) /\ DecodePositiveResponse resp <> None /\ sigsOk toyCrypto (fun m => toyAggregate m []) (fun _ => Some (copyOf 4 [1])) db.
Proof.
  eexists _, _. split; [vm_compute; reflexivity|]. split; [vm_compute; discriminate|].
  refine (proj1 (served_attestation_is_current toyCrypto (fun m => toyAggregate m []) (fun _ => Some (copyOf 4 [1])) None _ _
    (∅ : gmap bytes bytes) (mkRequest (fill 9) 4) _ _ _ _ _)).
  - intros m. unfold toyAggregate. rewrite length_take, !length_app, length_replicate. lia.
  - intros m. cbn [blake3 toyCrypto]. rewrite length_take, length_app, length_replicate. lia.
  - intros id v sig o Hg. vm_compute in Hg. discriminate Hg.
  - vm_compute. split; congruence.
  - vm_compute. reflexivity.
Defined.
