(* ===== verification/SystemPod.v ===== *)
(** * The system pod (pods/pod-system, pods/pod-sdk)

    The only pod a node loads.  The pod is Rust compiled to WebAssembly;
    [systemExecute] is its dispatcher: Borsh arguments, one function per entry,
    and the objects it hands back.  An engine that runs it either fails (out of
    gas, trap) or returns its output ([SystemRuntime]).  Debug logs are left
    out, and the FlatBuffers encoding of a validator record is the parameter
    [validatorContent]. *)

From S2P Require Import Prelude Types Fees Validators Storage Tracker Domains Coins Ledger Dag Execution.

Definition ERR_INVALID_INPUT : Z := 1.
Definition ERR_UNKNOWN_FUNCTION : Z := 2.
Definition ERR_INVALID_ARGS : Z := 3.
Definition ERR_MISSING_OBJECT : Z := 4.
Definition ERR_INSUFFICIENT_BALANCE : Z := 100.
Definition ERR_INSUFFICIENT_COINS : Z := 101.
Definition ERR_BALANCE_OVERFLOW : Z := 102.

(** ** Borsh readers: a value and the rest *)

Definition reader (A : Type) : Type := bytes -> option (A * bytes).

Definition rd_ret {A} (a : A) : reader A := fun b => Some (a, b).
Definition rd_bind {A B} (r : reader A) (f : A -> reader B) : reader B :=
  fun b => '(a, b) ← r b; f a b.

Definition rd_take (k : nat) : reader bytes :=
  fun b => if Nat.ltb (length b) k then None else Some (take k b, drop k b).
Definition rd_uint (k : nat) : reader Z := rd_bind (rd_take k) (fun x => rd_ret (le_dec x)).
Definition rd_vec : reader bytes := rd_bind (rd_uint 4) (fun len => rd_take (Z.to_nat len)).

(** [try_from_slice]: the value must use every byte. *)
Definition try_from_slice {A} (r : reader A) (b : bytes) : option A :=
  match r b with Some (a, []) => Some a | _ => None end.

Definition borshVec (b : bytes) : bytes := le_enc 4 (Z.of_nat (length b)) ++ b.

(** ** The SDK (pod-sdk/src/lib.rs) *)

Record ObjectMeta := mkMeta { om_id : Hash; om_version : Z; om_owner : Hash; om_replication : Z }.
Record UpdatedObject := mkUpdated { uo_meta : ObjectMeta; uo_content : bytes }.
Record CreatedObject := mkCreated { co_owner : Hash; co_replication : Z; co_content : bytes }.
Record ExecuteResult := mkResult { er_error : Z; er_updated : list UpdatedObject; er_created : list CreatedObject }.

Definition result_ok : ExecuteResult := mkResult 0 [] [].
Definition result_err (code : Z) : ExecuteResult := mkResult code [] [].
Definition with_updated (o : UpdatedObject) (r : ExecuteResult) : ExecuteResult :=
  mkResult (er_error r) (er_updated r ++ [o]) (er_created r).
Definition with_created (o : CreatedObject) (r : ExecuteResult) : ExecuteResult :=
  mkResult (er_error r) (er_updated r) (er_created r ++ [o]).

Section Context_.
Context (ctx : PodInput).

Definition ctx_args {A} (r : reader A) : option A := try_from_slice r (tx_Args (pi_Transaction ctx)).
Definition object_count : nat := length (pi_LocalObjects ctx).
Definition ctx_object {A} (r : reader A) (index : nat) : option A :=
  o ← pi_LocalObjects ctx !! index; try_from_slice r (obj_content o).
Definition object_meta (index : nat) : option ObjectMeta :=
  o ← pi_LocalObjects ctx !! index;
  id ← hash32 (obj_id o);
  owner ← hash32 (obj_owner o);
  Some (mkMeta id (obj_version o) owner (obj_replication o)).

(** ** The functions (pod-system/src/functions) *)

(** A [Coin] is its balance, an [Object] its metadata bytes. *)
Definition rd_coin : reader Z := rd_uint 8.
Definition coinContent (balance : Z) : bytes := le_enc 8 balance.

Definition senderOk : bool := bool_decide (length (pi_Sender ctx) = 32%nat).

Definition fn_stake : ExecuteResult :=
  match ctx_args (rd_uint 8) with
  | None => result_err ERR_INVALID_ARGS
  | Some amount =>
      if amount =? 0 then result_err ERR_INVALID_ARGS
      else if senderOk then result_ok else result_err ERR_INVALID_INPUT
  end.

Definition fn_bond : ExecuteResult := fn_stake.
Definition fn_unbond : ExecuteResult := fn_stake.

Definition fn_delegate : ExecuteResult :=
  match ctx_args (rd_bind (rd_take 32) (fun v => rd_bind (rd_uint 8) (fun amount => rd_ret (v, amount)))) with
  | None => result_err ERR_INVALID_ARGS
  | Some (_, amount) =>
      if amount =? 0 then result_err ERR_INVALID_ARGS
      else if senderOk then result_ok else result_err ERR_INVALID_INPUT
  end.

Definition fn_undelegate : ExecuteResult :=
  match ctx_args (rd_take 32) with
  | None => result_err ERR_INVALID_ARGS
  | Some _ => if senderOk then result_ok else result_err ERR_INVALID_INPUT
  end.

Definition fn_deregister_validator : ExecuteResult := if senderOk then result_ok else result_err ERR_INVALID_INPUT.

Definition fn_create_object : ExecuteResult :=
  match ctx_args (rd_bind (rd_take 32) (fun owner => rd_bind (rd_uint 2) (fun rep => rd_bind rd_vec (fun metadata =>
                    rd_ret (owner, rep, metadata))))) with
  | None => result_err ERR_INVALID_ARGS
  | Some (owner, rep, metadata) => with_created (mkCreated owner rep (borshVec metadata)) result_ok
  end.

(** The object named in the arguments is not compared with object 0. *)
Definition fn_set_object : ExecuteResult :=
  match ctx_args (rd_bind (rd_take 32) (fun id => rd_bind rd_vec (fun content => rd_ret (id, content)))) with
  | None => result_err ERR_INVALID_ARGS
  | Some (_, content) =>
      match ctx_object rd_vec 0, object_meta 0 with
      | Some _, Some meta => with_updated (mkUpdated meta (borshVec content)) result_ok
      | _, _ => result_err ERR_MISSING_OBJECT
      end
  end.

Definition fn_split : ExecuteResult :=
  match ctx_args (rd_bind (rd_uint 8) (fun amount => rd_bind (rd_take 32) (fun owner => rd_ret (amount, owner)))) with
  | None => result_err ERR_INVALID_ARGS
  | Some (amount, new_owner) =>
      match ctx_object rd_coin 0, object_meta 0 with
      | Some balance, Some meta =>
          if balance <? amount then result_err ERR_INSUFFICIENT_BALANCE
          else with_created (mkCreated new_owner 0 (coinContent amount))
                 (with_updated (mkUpdated meta (coinContent (balance - amount))) result_ok)
      | _, _ => result_err ERR_MISSING_OBJECT
      end
  end.

(** [sum_balances]: a checked add per coin. *)
Fixpoint sum_from (indices : list nat) (total : Z) : Z + Z :=
  match indices with
  | [] => inr total
  | i :: indices =>
      match ctx_object rd_coin i with
      | None => inl ERR_MISSING_OBJECT
      | Some balance => if max64 <? total + balance then inl ERR_BALANCE_OVERFLOW else sum_from indices (total + balance)
      end
  end.

Definition updated_coin (index : nat) (balance : Z) : option UpdatedObject :=
  meta ← object_meta index; Some (mkUpdated meta (coinContent balance)).

Fixpoint empty_sources (indices : list nat) (r : ExecuteResult) : ExecuteResult :=
  match indices with
  | [] => r
  | i :: indices =>
      match updated_coin i 0 with
      | None => result_err ERR_MISSING_OBJECT
      | Some o => empty_sources indices (with_updated o r)
      end
  end.

Definition build_result (total : Z) : ExecuteResult :=
  match updated_coin 0 total with
  | None => result_err ERR_MISSING_OBJECT
  | Some o => empty_sources (seq 1 (object_count - 1)) (with_updated o result_ok)
  end.

Definition fn_merge : ExecuteResult :=
  match ctx_args (rd_ret tt) with
  | None => result_err ERR_INVALID_ARGS
  | Some _ =>
      if Nat.ltb object_count 2 then result_err ERR_INSUFFICIENT_COINS
      else match sum_from (seq 0 object_count) 0 with
      | inl code => result_err code
      | inr total => build_result total
      end
  end.

Definition fn_register_validator (validatorContent : Hash -> bytes -> bytes) : ExecuteResult :=
  match ctx_args (rd_bind rd_vec (fun quic => rd_bind rd_vec (fun bls => rd_bind rd_vec (fun pop => rd_ret (quic, bls, pop))))) with
  | None => result_err ERR_INVALID_ARGS
  | Some (quic, _, _) =>
      match hash32 (pi_Sender ctx) with
      | None => result_err ERR_INVALID_INPUT
      | Some pubkey => with_created (mkCreated pubkey 0 (validatorContent pubkey quic)) result_ok
      end
  end.

End Context_.

(** ** The dispatcher and its output *)

Section Pod.
Context (validatorContent : Hash -> bytes -> bytes).

Definition dispatch (ctx : PodInput) : ExecuteResult :=
  let f := tx_FunctionName (pi_Transaction ctx) in
  if bool_decide (f = str "bond") then fn_bond ctx
  else if bool_decide (f = str "create_object") then fn_create_object ctx
  else if bool_decide (f = str "delegate") then fn_delegate ctx
  else if bool_decide (f = str "deregister_validator") then fn_deregister_validator ctx
  else if bool_decide (f = str "merge") then fn_merge ctx
  else if bool_decide (f = str "register_validator") then fn_register_validator ctx validatorContent
  else if bool_decide (f = str "set_object") then fn_set_object ctx
  else if bool_decide (f = str "split") then fn_split ctx
  else if bool_decide (f = str "undelegate") then fn_undelegate ctx
  else if bool_decide (f = str "unbond") then fn_unbond ctx
  else result_err ERR_UNKNOWN_FUNCTION.

(** [build_object] writes neither the deposit nor the parent kind. *)
Definition build_object (meta : ObjectMeta) (content : bytes) : Object :=
  mkObject (om_id meta) (om_version meta) (om_owner meta) (om_replication meta) content 0 0.

Definition build_output (r : ExecuteResult) : PodOutput :=
  mkPodOutput (er_error r)
    (map (fun o => build_object (uo_meta o) (uo_content o)) (er_updated r))
    (map (fun o => build_object (mkMeta zeroHash 0 (co_owner o) (co_replication o)) (co_content o)) (er_created r))
    [] [].

Definition systemExecute (ctx : PodInput) : PodOutput := build_output (dispatch ctx).

(** What is relied on of the engine: the pool holds the system pod only, and a
    run that does not fail returns the pod's output. *)
Class SystemRuntime (podID : Hash) (vm : PodRuntime) : Prop := {
  rt_unknown : forall id input gas, id <> podID -> vm id input gas = None;
  rt_output : forall input gas, vm podID input gas = None \/ vm podID input gas = Some (Some (systemExecute input));
}.

(** The engine that never runs out of gas. *)
Definition idealRuntime (podID : Hash) : PodRuntime :=
  fun id input _ => if bool_decide (id = podID) then Some (Some (systemExecute input)) else None.

#[export] Instance idealRuntime_system podID : SystemRuntime podID (idealRuntime podID).
Proof using Type.
  split; intros; unfold idealRuntime; [by rewrite bool_decide_false|]. rewrite bool_decide_true by done. by right.
Qed.

End Pod.

(** ** Split and merge conserve tokens *)

Definition coinValue (o : Object) : Z := le_dec (obj_content o).
Definition coinShaped (o : Object) : Prop := length (obj_content o) = 8%nat /\ wf_bytes (obj_content o).

(** [u] is [o] with a new balance: same identifier, version, owner, replication. *)
Record rebalanced (o u : Object) : Prop := {
  rb_id : obj_id u = obj_id o /\ length (obj_id o) = 32%nat;
  rb_version : obj_version u = obj_version o;
  rb_owner : obj_owner u = obj_owner o;
  rb_replication : obj_replication u = obj_replication o;
  rb_coin : coinShaped o /\ coinShaped u;
}.

Section Coins_.
Context (ctx : PodInput) (Hwf : Forall (fun o => wf_bytes (obj_content o)) (pi_LocalObjects ctx)).
Context (Hargs : wf_bytes (tx_Args (pi_Transaction ctx))).

Lemma coinContent_shaped id v owner rep b : coinShaped (mkObject id v owner rep (coinContent b) 0 0).
Proof using Type. split; cbn; [apply length_le_enc|apply wf_le_enc]. Qed.

Lemma coinValue_content id v owner rep b : is_u64 b -> coinValue (mkObject id v owner rep (coinContent b) 0 0) = b.
Proof using Type. intros Hb. unfold coinValue. cbn. apply le_dec_enc. unfold is_u64 in Hb. cbn. lia. Qed.

Lemma coinValue_range o : coinShaped o -> is_u64 (coinValue o).
Proof using Type. intros [Hl Hw]. pose proof (le_dec_bound _ Hw) as Hb. rewrite Hl in Hb. unfold is_u64, coinValue. cbn in Hb. lia. Qed.

Lemma read_coin i b :
  ctx_object ctx rd_coin i = Some b -> exists o, pi_LocalObjects ctx !! i = Some o /\ coinShaped o /\ coinValue o = b.
Proof using Hwf.
  unfold ctx_object. destruct (pi_LocalObjects ctx !! i) as [o|] eqn:Eo; [|done]. cbn.
  unfold try_from_slice, rd_coin, rd_uint, rd_bind, rd_take. destruct (Nat.ltb (length (obj_content o)) 8) eqn:El; [done|]. cbn.
  destruct (drop 8 (obj_content o)) eqn:Ed; [|done]. intros [= <-]. apply Nat.ltb_ge in El.
  assert (Hl : length (obj_content o) = 8%nat) by (apply (f_equal length) in Ed; rewrite length_drop in Ed; cbn in Ed; lia).
  exists o. split; [done|]. split; [split; [done|]|].
  - rewrite Forall_forall in Hwf. apply Hwf. by eapply list_elem_of_lookup_2.
  - unfold coinValue. by rewrite take_ge by lia.
Qed.

Lemma read_meta i m :
  object_meta ctx i = Some m -> exists o, pi_LocalObjects ctx !! i = Some o /\
    (obj_id o = om_id m /\ length (obj_id o) = 32%nat) /\ obj_version o = om_version m /\ obj_owner o = om_owner m /\
    obj_replication o = om_replication m.
Proof using Type.
  unfold object_meta, hash32. destruct (pi_LocalObjects ctx !! i) as [o|]; [|done]. cbn.
  destruct (decide (length (obj_id o) = 32%nat)); [|done]. cbn. destruct (decide (length (obj_owner o) = 32%nat)); [|done]. cbn.
  intros [= <-]. eauto 10.
Qed.

Lemma rebalanced_meta o m b :
  coinShaped o -> (obj_id o = om_id m /\ length (obj_id o) = 32%nat) -> obj_version o = om_version m -> obj_owner o = om_owner m ->
  obj_replication o = om_replication m -> rebalanced o (build_object m (coinContent b)).
Proof using Type. intros H1 [H2 H2'] H3 H4 H5. split; cbn; auto. split; [done|]. apply coinContent_shaped. Qed.

Lemma split_conserves out :
  build_output (fn_split ctx) = out -> po_Error out = 0 ->
  exists o u n rest, pi_LocalObjects ctx = o :: rest /\ po_Updated out = [u] /\ po_Created out = [n] /\ rebalanced o u /\
    coinShaped n /\ obj_replication n = 0 /\ coinValue u + coinValue n = coinValue o.
Proof using Hwf Hargs.
  intros <-. unfold fn_split. destruct (ctx_args _ _) as [[amount owner]|] eqn:Ea; [|done].
  destruct (ctx_object ctx rd_coin 0) as [b|] eqn:Eo; [|done]. destruct (object_meta ctx 0) as [m|] eqn:Em; [|done].
  destruct (Z.ltb_spec b amount) as [Hlt|Hge]; [done|]. intros _.
  destruct (read_coin 0 b Eo) as (o & Ho & Hs & Hv). destruct (read_meta 0 m Em) as (o' & Ho' & H1 & H2 & H3 & H4).
  rewrite Ho in Ho'. injection Ho' as <-. destruct (pi_LocalObjects ctx) as [|o0 rest]; [done|]. injection Ho as ->.
  pose proof (coinValue_range o Hs) as Hr.
  assert (Ham : 0 <= amount).
  { unfold ctx_args, try_from_slice, rd_bind, rd_uint, rd_ret, rd_bind, rd_take in Ea. destruct (Nat.ltb _ 8); [done|]. cbn in Ea.
    destruct (_ <=? 31)%nat; [done|]. cbn in Ea. destruct (drop 32 _); [|done]. injection Ea as <- _. apply le_dec_bound, Forall_take, Hargs. }
  exists o, (build_object m (coinContent (b - amount))), (build_object (mkMeta zeroHash 0 owner 0) (coinContent amount)), rest.
  split; [done|]. split; [done|]. split; [done|]. split; [by apply rebalanced_meta|]. split; [apply coinContent_shaped|].
  split; [done|]. unfold build_object. rewrite !coinValue_content; unfold is_u64 in *; lia.
Qed.

Lemma sum_from_spec indices total r :
  is_u64 total -> sum_from ctx indices total = inr r ->
  exists os, Forall2 (fun i o => pi_LocalObjects ctx !! i = Some o) indices os /\ Forall coinShaped os /\
    r = total + sumZ (map coinValue os) /\ is_u64 r.
Proof using Hwf.
  revert total. induction indices as [|i indices IH]; intros total Ht; cbn [sum_from].
  { intros [= <-]. exists []. split_and!; [constructor|constructor|cbn; lia|apply Ht..]. }
  destruct (ctx_object ctx rd_coin i) as [b|] eqn:Eb; [|done]. destruct (read_coin i b Eb) as (o & Ho & Hs & <-).
  destruct (Z.ltb_spec max64 (total + coinValue o)) as [Hlt|Hge]; [done|]. intros Hr.
  pose proof (coinValue_range o Hs) as Hv.
  destruct (IH (total + coinValue o) ltac:(u64_lia) Hr) as (os & H1 & H2 & -> & H4). exists (o :: os).
  split; [by constructor|]. split; [by constructor|]. cbn. split; [unfold sumZ; cbn; lia|done].
Qed.

Lemma sum_from_error indices total code : sum_from ctx indices total = inl code -> code <> 0.
Proof using Type.
  revert total. induction indices as [|i indices IH]; intros total; cbn; [done|].
  destruct (ctx_object ctx rd_coin i); [|by intros [= <-]]. destruct (_ <? _); [by intros [= <-]|apply IH].
Qed.

Lemma emptied_rebalanced indices ms os :
  Forall2 (fun i m => object_meta ctx i = Some m) indices ms -> Forall2 (fun i o => pi_LocalObjects ctx !! i = Some o) indices os ->
  Forall coinShaped os ->
  Forall2 rebalanced os (map (fun m => build_object m (coinContent 0)) ms) /\
  sumZ (map coinValue (map (fun m => build_object m (coinContent 0)) ms)) = 0.
Proof using Type.
  intros HF. revert os. induction HF as [|i m indices ms Hm HF IH]; intros os Ho Hs; inversion Ho as [|i' o indices' os' Hi Ho']; subst.
  { split; [constructor|done]. }
  apply Forall_cons in Hs as [Hs Hs']. destruct (IH os' Ho' Hs') as [H1 H2]. destruct (read_meta i m Hm) as (o' & E & M1 & M2 & M3 & M4).
  rewrite Hi in E. injection E as <-. split; [constructor; [by apply rebalanced_meta|done]|].
  unfold sumZ in *. cbn [map foldr]. rewrite H2. unfold build_object. rewrite coinValue_content by u64_lia. lia.
Qed.

Lemma empty_sources_spec indices r :
  er_error r = 0 -> er_error (empty_sources ctx indices r) = 0 ->
  exists ms, Forall2 (fun i m => object_meta ctx i = Some m) indices ms /\
    er_updated (empty_sources ctx indices r) = er_updated r ++ map (fun m => mkUpdated m (coinContent 0)) ms /\
    er_created (empty_sources ctx indices r) = er_created r.
Proof using Type.
  revert r. induction indices as [|i indices IH]; intros r Hr; cbn [empty_sources].
  { intros _. exists []. split_and!; [constructor|by rewrite app_nil_r|done]. }
  unfold updated_coin. destruct (object_meta ctx i) as [m|] eqn:Em; [|done]. cbn. intros He.
  destruct (IH (with_updated (mkUpdated m (coinContent 0)) r) Hr He) as (ms & H1 & H2 & H3).
  exists (m :: ms). split; [by constructor|]. split; [|done]. rewrite H2. cbn. by rewrite <- app_assoc.
Qed.

Lemma seq_objects k os (l : list Object) :
  Forall2 (fun i o => l !! i = Some o) (seq k (length l - k)) os -> os = drop k l.
Proof using Type.
  intros HF. apply list_eq. intros j. rewrite lookup_drop. pose proof (Forall2_length _ _ _ HF) as Hlen. rewrite length_seq in Hlen.
  destruct (os !! j) as [o|] eqn:Eo.
  - destruct (Forall2_lookup_r _ _ _ _ _ HF Eo) as (i & Hi & Ho). apply lookup_seq in Hi as [-> _]. by rewrite Ho.
  - apply lookup_ge_None in Eo. symmetry. apply lookup_ge_None. lia.
Qed.

Lemma merge_conserves out :
  build_output (fn_merge ctx) = out -> po_Error out = 0 ->
  Forall2 rebalanced (pi_LocalObjects ctx) (po_Updated out) /\ po_Created out = [] /\
  sumZ (map coinValue (po_Updated out)) = sumZ (map coinValue (pi_LocalObjects ctx)).
Proof using Hwf.
  intros <-. unfold fn_merge. destruct (ctx_args _ _) as [[]|]; [|done]. destruct (Nat.ltb_spec (object_count ctx) 2) as [|Hn]; [done|].
  destruct (sum_from ctx _ 0) as [code|total] eqn:Es; [by intros He; destruct (sum_from_error _ _ _ Es)|].
  destruct (sum_from_spec _ 0 total ltac:(unfold is_u64; lia) Es) as (os & HF & Hs & -> & Hu).
  unfold object_count in HF. rewrite <- (Nat.sub_0_r (length _)) in HF. apply seq_objects in HF. rewrite drop_0 in HF. subst os.
  unfold build_result, updated_coin. destruct (object_meta ctx 0) as [m0|] eqn:Em0; [|done]. cbn [mbind option_bind]. intros He.
  destruct (empty_sources_spec (seq 1 (object_count ctx - 1)) (with_updated (mkUpdated m0 (coinContent (0 + sumZ (map coinValue (pi_LocalObjects ctx))))) result_ok) eq_refl He)
    as (ms & HF & Hup & Hcr).
  unfold build_output. cbn [po_Updated po_Created]. rewrite Hup, Hcr. cbn [er_updated er_created with_updated result_ok app map].
  rewrite map_map. cbn [uo_meta uo_content]. set (mk := fun m : ObjectMeta => build_object m (coinContent 0)) in *.
  destruct (read_meta 0 m0 Em0) as (o0 & Ho0 & M1 & M2 & M3 & M4).
  destruct (pi_LocalObjects ctx) as [|o tail] eqn:El; [done|]. injection Ho0 as ->. apply Forall_cons in Hs as [Hs0 Hs].
  assert (Htail : Forall2 (fun i x => pi_LocalObjects ctx !! i = Some x) (seq 1 (object_count ctx - 1)) tail).
  { unfold object_count. rewrite El. cbn [length]. rewrite Nat.sub_succ, Nat.sub_0_r.
    apply Forall2_same_length_lookup_2; [by rewrite length_seq|]. intros i x y Hx Hy. apply lookup_seq in Hx as [-> _]. done. }
  destruct (emptied_rebalanced _ ms tail HF Htail Hs) as [HR HS].
  split; [|split; [done|]].
  - constructor; [by apply rebalanced_meta|exact HR].
  - cbn [map]. unfold sumZ in *. cbn [foldr]. unfold mk. rewrite HS. unfold build_object at 1.
    rewrite Z.add_0_l in Hu. rewrite coinValue_content by exact Hu. cbn [map foldr]. lia.
Qed.

End Coins_.

(** ** What the pod can create *)

Lemma empty_sources_created ctx indices r : er_created r = [] -> er_created (empty_sources ctx indices r) = [].
Proof.
  revert r. induction indices as [|i indices IH]; intros r Hr; cbn; [done|]. destruct (updated_coin ctx i 0); [by apply IH|done].
Qed.

Lemma create_object_replication ctx co :
  wf_bytes (tx_Args (pi_Transaction ctx)) -> co ∈ er_created (fn_create_object ctx) -> 0 <= co_replication co < 65536.
Proof.
  intros Ha. unfold fn_create_object. destruct (ctx_args _ _) as [[[owner rep] metadata]|] eqn:Ea; [|by intros ?%elem_of_nil].
  cbn. intros ->%list_elem_of_singleton. cbn.
  unfold ctx_args, try_from_slice, rd_bind, rd_uint, rd_bind, rd_take, rd_ret in Ea.
  destruct (length (tx_Args (pi_Transaction ctx)) <? 32)%nat; [done|]. cbn [mbind option_bind] in Ea.
  destruct (length (drop 32 (tx_Args (pi_Transaction ctx))) <? 2)%nat eqn:E2; [done|]. cbn [mbind option_bind] in Ea.
  destruct (rd_vec _) as [[v w]|]; [|done]. cbn [mbind option_bind] in Ea. destruct w; [|done]. injection Ea as _ <- _.
  assert (Hw : wf_bytes (take 2 (drop 32 (tx_Args (pi_Transaction ctx))))) by apply Forall_take, Forall_drop, Ha.
  pose proof (le_dec_bound _ Hw) as Hb. apply Nat.ltb_ge in E2. rewrite length_take, Nat.min_l in Hb by done. cbn in Hb. lia.
Qed.

Lemma created_replication vc ctx co :
  wf_bytes (tx_Args (pi_Transaction ctx)) -> co ∈ er_created (dispatch vc ctx) -> 0 <= co_replication co < 65536.
Proof.
  intros Ha. unfold dispatch.
  assert (Hnil : forall r, er_created r = [] -> co ∈ er_created r -> 0 <= co_replication co < 65536)
    by (intros r -> ?%elem_of_nil; done).
  case_bool_decide; [apply Hnil; unfold fn_bond, fn_stake; by repeat case_match|].
  case_bool_decide; [by apply create_object_replication|].
  case_bool_decide; [apply Hnil; unfold fn_delegate; by repeat case_match|].
  case_bool_decide; [apply Hnil; unfold fn_deregister_validator; by repeat case_match|].
  case_bool_decide.
  { apply Hnil. unfold fn_merge, build_result. repeat case_match; try done. by apply empty_sources_created. }
  case_bool_decide.
  { unfold fn_register_validator. repeat case_match; try by intros ?%elem_of_nil. cbn. intros ->%list_elem_of_singleton. cbn. lia. }
  case_bool_decide; [apply Hnil; unfold fn_set_object; by repeat case_match|].
  case_bool_decide.
  { unfold fn_split. repeat case_match; try by intros ?%elem_of_nil. cbn. intros ->%list_elem_of_singleton. cbn. lia. }
  case_bool_decide; [apply Hnil; unfold fn_undelegate; by repeat case_match|].
  case_bool_decide; [apply Hnil; unfold fn_unbond, fn_stake; by repeat case_match|by apply Hnil].
Qed.
