(* ===== verification/Transfers.v ===== *)
(** * Coin calls on the ledger (pods/pod-system through state.go)

    The pod's [split] and [merge] run by [Execute]: the sum of the balances of
    the coins in circulation, which the protocol's counter stands for, is the
    same before and after. *)

From S2P Require Import Prelude Types Fees Validators Storage Tracker Domains Coins Ledger Dag Execution SystemPod.

Lemma setSum_insert (f g : Hash -> Z) (K : gset Hash) id :
  id ∉ K -> (forall x, x ∈ K -> g x = f x) -> setSum g ({[id]} ∪ K) = g id + setSum f K.
Proof.
  intros Hid Hx. rewrite (setSum_split g _ id) by set_solver. f_equal.
  replace (({[id]} ∪ K) ∖ {[id]}) with K by set_solver. by apply setSum_ext.
Qed.

Section Circulation.
Context {M : Type} `{Pebble M}.
Implicit Types (L : Ledger M) (K : gset Hash) (x id : Hash).

Definition coinAt L x : Prop := exists o, getBody L x = Some o /\ wf_object x o /\ (8 <= length (obj_content o))%nat.
Definition bal L x : Z := default 0 (getBody L x ≫= readCoinBalance).

(** The coins [K] hold [total] between them. *)
Record circulates K L (total : Z) : Prop := {
  ci_wired : is_Some (l_coins L);
  ci_coin : forall id, id ∈ K -> coinAt L id;
  ci_sum : setSum (bal L) K = total;
}.

Lemma coins_ok_circulates K L st : l_coins L = Some st -> coins_ok K st -> circulates K L (cs_coins st).
Proof using Type.
  intros E [H1 H2 _]. split; [by rewrite E| |].
  - intros id Hid. destruct (H1 id Hid) as (o & Ho & Hr). exists o. unfold getBody. rewrite E. done.
  - rewrite H2. apply setSum_ext. intros x _. unfold bal, balanceOf, getBody. by rewrite E.
Qed.

Lemma circulates_coins_ok K L st :
  l_coins L = Some st -> circulates K L (cs_coins st) -> cs_coins st <= max64 -> coins_ok K st.
Proof using Type.
  intros E [_ H1 H2] H3. split; [| |done].
  - intros id Hid. destruct (H1 id Hid) as (o & Ho & Hr). exists o. unfold getBody in Ho. rewrite E in Ho. done.
  - rewrite <- H2. apply setSum_ext. intros x _. unfold bal, balanceOf, getBody. by rewrite E.
Qed.

Lemma put_body L id o : is_Some (l_coins L) -> getBody (putBody L id o) id = Some o.
Proof using Type. intros [st E]. rewrite getBody_put, bool_decide_true by done. by rewrite E. Qed.

Lemma put_other L id o x : x <> id -> getBody (putBody L id o) x = getBody L x.
Proof using Type. intros Hx. by rewrite getBody_put, bool_decide_false. Qed.

Lemma put_wired L id o : is_Some (l_coins L) -> is_Some (l_coins (putBody L id o)).
Proof using Type. intros [st E]. unfold putBody. cbn. by rewrite E. Qed.

Lemma readCoin_shaped o : coinShaped o -> readCoinBalance o = Some (coinValue o).
Proof using Type.
  intros [Hl _]. unfold readCoinBalance, coinValue. rewrite Hl. cbn [Nat.ltb]. by rewrite slice_whole.
Qed.

(** A coin of [K] written with a new balance, a new coin added, a body rewritten in place. *)
Lemma circulates_put K L total id o :
  circulates K L total -> id ∈ K -> obj_id o = id -> length id = 32%nat -> coinShaped o ->
  circulates K (putBody L id o) (total - bal L id + coinValue o).
Proof using Type.
  intros [W C S] Hid Ho Hl Hs.
  assert (Hb : bal (putBody L id o) id = coinValue o) by (unfold bal; rewrite put_body by done; cbn; by rewrite readCoin_shaped).
  split; [by apply put_wired| |].
  - intros x Hx. destruct (decide (x = id)) as [->|Hne].
    + exists o. split; [by apply put_body|]. destruct Hs as [H8 Hw]. split; [by split|lia].
    + destruct (C x Hx) as (o' & Ho' & Hr). exists o'. rewrite put_other by done. done.
  - rewrite (setSum_update (bal L) _ K id Hid), Hb; [lia|]. intros x Hx. unfold bal. by rewrite put_other.
Qed.

Lemma circulates_add K L total id o :
  circulates K L total -> id ∉ K -> obj_id o = id -> length id = 32%nat -> coinShaped o ->
  circulates ({[id]} ∪ K) (putBody L id o) (total + coinValue o).
Proof using Type.
  intros [W C S] Hid Ho Hl Hs.
  assert (Hb : bal (putBody L id o) id = coinValue o) by (unfold bal; rewrite put_body by done; cbn; by rewrite readCoin_shaped).
  split; [by apply put_wired| |].
  - intros x Hx. destruct (decide (x = id)) as [->|Hne].
    + exists o. split; [by apply put_body|]. destruct Hs as [H8 Hw]. split; [by split|lia].
    + destruct (C x) as (o' & Ho' & Hr); [set_solver|]. exists o'. rewrite put_other by done. done.
  - rewrite (setSum_insert (bal L) _ K id Hid), Hb; [lia|]. intros x Hx. unfold bal. rewrite put_other; [done|]. intros ->. done.
Qed.

Lemma circulates_same K L L' total :
  (forall x, getBody L' x = getBody L x) -> is_Some (l_coins L') -> circulates K L total -> circulates K L' total.
Proof using Type.
  intros E W [_ C S]. split; [done| |].
  - intros x Hx. destruct (C x Hx) as (o & Ho & Hr). exists o. by rewrite E.
  - rewrite <- S. apply setSum_ext. intros x _. unfold bal. by rewrite E.
Qed.

(** The version pass changes no identifier and no content. *)
Lemma circulates_version K L total r : circulates K L total -> circulates K (ensureMutableVersion L r) total.
Proof using Type.
  intros HC. unfold ensureMutableVersion. destruct (hash32 (ref_id r)) as [id|]; [|done].
  destruct (getBody L id) as [o|] eqn:Eo; [|done]. destruct (_ =? _); [done|]. destruct HC as [W C S].
  split; [by apply put_wired| |].
  - intros x Hx. destruct (C x Hx) as (o' & Ho' & Hw & Hl). destruct (decide (x = id)) as [->|Hne].
    + rewrite Eo in Ho'. injection Ho' as <-. eexists. split; [by apply put_body|]. done.
    + exists o'. by rewrite put_other.
  - rewrite <- S. apply setSum_ext. intros x _. unfold bal. destruct (decide (x = id)) as [->|Hne].
    + rewrite put_body, Eo by done. done.
    + by rewrite put_other.
Qed.

Lemma circulates_versions K L total tx : circulates K L total -> circulates K (ensureMutableVersions L tx) total.
Proof using Type.
  unfold ensureMutableVersions. revert L. induction (tx_MutableRefs tx) as [|r refs IH]; intros L HC; [done|].
  cbn. by apply IH, circulates_version.
Qed.

(** ** Rebalanced coins written back *)

Lemma circulates_updated holder K os us : forall L total,
  circulates K L total -> Forall2 rebalanced os us -> NoDup (map obj_id os) -> (forall o, o ∈ os -> obj_id o ∈ K) ->
  (forall o, o ∈ os -> bal L (obj_id o) = coinValue o) ->
  circulates K (fst (applyUpdatedObjects holder L us)) (total - sumZ (map coinValue os) + sumZ (map coinValue us)).
Proof using Type.
  intros L total HC HF. revert L total HC. induction HF as [|o u os us Hr HF IH]; intros L total HC Hnd HK Hb; cbn.
  { unfold sumZ. cbn. by replace (total - 0 + 0) with total by lia. }
  destruct Hr as [[R1 R1'] R2 R3 R4 [R5 R6]]. apply NoDup_cons in Hnd as [Hn Hnd].
  set (u' := rebuildObjectIncrementVersion u).
  assert (Eid : extractObjectID u' = obj_id o).
  { unfold extractObjectID, u', hash32. cbn. rewrite R1, decide_True by done. done. }
  pose proof (circulates_put K L total (obj_id o) u' HC (HK o ltac:(left)) R1 R1' R6) as HC'.
  specialize (IH (putBody L (extractObjectID u') u') (total - bal L (obj_id o) + coinValue u')). rewrite Eid in IH. specialize (IH HC' Hnd).
  rewrite Eid. destruct (applyUpdatedObjects holder (putBody L (obj_id o) u') us) as [L2 s2]. cbn [fst] in *.
  unfold sumZ in *. cbn [map foldr]. rewrite (Hb o) in IH by left.
  replace (total - (coinValue o + foldr Z.add 0 (map coinValue os)) + (coinValue u + foldr Z.add 0 (map coinValue us)))
    with (total - coinValue o + coinValue u' - foldr Z.add 0 (map coinValue os) + foldr Z.add 0 (map coinValue us))
    by (change (coinValue u') with (coinValue u); lia).
  apply IH.
  - intros o' Ho'. apply HK. by right.
  - intros o' Ho'. unfold bal. rewrite put_other; [apply Hb; by right|]. intros E. apply Hn. rewrite <- E. by apply list_elem_of_fmap_2.
Qed.

End Circulation.

(** ** Split and merge, run on the ledger *)

Section Calls.
Context {M : Type} `{Pebble M} (cr : Crypto) (validatorContent : Hash -> bytes -> bytes) (podID : Hash) (vm : PodRuntime).
Context `{!SystemRuntime validatorContent podID vm} (holder : option (Hash -> Z -> bool)) (epoch : Z) (p : FeeParams).
Context (Hhash : forall m, length (blake3 cr m) = 32%nat) (Hsingleton : forall id, held holder id 0 = true).
Implicit Types (L : Ledger M) (K : gset Hash) (tx : Transaction).

Definition coinRefs tx : list Hash := omap mutableRefID (tx_MutableRefs tx).

(** A call of [split] or [merge] on coins of [K], none of them carried. *)
Record coinCall K atx tx : Prop := {
  cc_tx : atx_Transaction atx = Some tx;
  cc_function : tx_FunctionName tx = str "split" \/ tx_FunctionName tx = str "merge";
  cc_carried : atx_Objects atx = [];
  cc_coins : NoDup (coinRefs tx) /\ forall id, id ∈ coinRefs tx -> id ∈ K;
  cc_args : wf_bytes (tx_Args tx);
  cc_kept : tx_DeletedObjects tx = [];
  cc_fresh : computeObjectID cr (extractTxHash tx) 0 ∉ K;
}.

(** The coins after the call: [split] adds one. *)
Definition coinsAfter K tx : gset Hash :=
  if bool_decide (tx_FunctionName tx = str "split") then {[computeObjectID cr (extractTxHash tx) 0]} ∪ K else K.

Lemma inputs_are_bodies L tx : resolveMutableObjects L tx [] = omap (getBody L) (coinRefs tx).
Proof using Type.
  unfold resolveMutableObjects, coinRefs. cbn. induction (tx_MutableRefs tx) as [|r refs IH]; [done|]. cbn. rewrite IH.
  unfold mutableRefID. by destruct (hash32 (ref_id r)).
Qed.

Lemma bodies_of_coins K L total ids :
  circulates K L total -> (forall id, id ∈ ids -> id ∈ K) ->
  map obj_id (omap (getBody L) ids) = ids /\ (forall o, o ∈ omap (getBody L) ids -> getBody L (obj_id o) = Some o /\ wf_bytes (obj_content o)).
Proof using Type.
  intros HC HK. induction ids as [|id ids IH]; cbn; [split; [done|]; by intros o ?%elem_of_nil|].
  destruct IH as [I1 I2]; [intros; apply HK; by right|].
  destruct (ci_coin _ _ _ HC id (HK id ltac:(left))) as (o & Ho & (Hid & _ & Hw) & _). rewrite Ho. cbn. split; [by rewrite Hid, I1|].
  intros o' [->|Ho']%elem_of_cons; [by rewrite Hid|by apply I2].
Qed.

Lemma bal_of_body L o : getBody L (obj_id o) = Some o -> coinShaped o -> bal L (obj_id o) = coinValue o.
Proof using Type. intros Hb Hs. unfold bal. rewrite Hb. cbn. by rewrite readCoin_shaped. Qed.

Lemma rebuilt_shaped o : coinShaped (rebuildObject o) <-> coinShaped o.
Proof using Type. done. Qed.

(** The rules of the pod, on the bodies themselves instead of the copies it is given. *)
Lemma rebalanced_rebuilt os us : Forall2 rebalanced (map rebuildObject os) us -> Forall2 rebalanced os us.
Proof using Type.
  revert us. induction os as [|o os IH]; intros us HF; inversion HF as [|? u ? us' [A1 A2 A3 A4 A5] HF']; subst; constructor; [by split|].
  by apply IH.
Qed.

Lemma values_rebuilt os : map coinValue (map rebuildObject os) = map coinValue os.
Proof using Type. rewrite map_map. done. Qed.

Lemma dispatch_split ctx : tx_FunctionName (pi_Transaction ctx) = str "split" -> dispatch validatorContent ctx = fn_split ctx.
Proof using Type. intros E. unfold dispatch. rewrite E. reflexivity. Qed.
Lemma dispatch_merge ctx : tx_FunctionName (pi_Transaction ctx) = str "merge" -> dispatch validatorContent ctx = fn_merge ctx.
Proof using Type. intros E. unfold dispatch. rewrite E. reflexivity. Qed.

(** What the pod's output is, by function. *)
Lemma coin_output tx os :
  tx_FunctionName tx = str "split" \/ tx_FunctionName tx = str "merge" -> wf_bytes (tx_Args tx) ->
  (forall o, o ∈ os -> wf_bytes (obj_content o)) -> po_Error (systemExecute validatorContent (serializeInput tx os)) = 0 ->
  let out := systemExecute validatorContent (serializeInput tx os) in
  exists used rest, Forall2 rebalanced used (po_Updated out) /\ os = used ++ rest /\
    if bool_decide (tx_FunctionName tx = str "split")
    then exists n, po_Created out = [n] /\ coinShaped n /\ obj_replication n = 0 /\
           sumZ (map coinValue (po_Updated out)) + coinValue n = sumZ (map coinValue used)
    else po_Created out = [] /\ sumZ (map coinValue (po_Updated out)) = sumZ (map coinValue used).
Proof using Type.
  intros Hf Ha Hw He. cbv zeta.
  assert (Hwf : Forall (fun o => wf_bytes (obj_content o)) (pi_LocalObjects (serializeInput tx os))).
  { apply Forall_forall. intros o (o' & -> & Ho')%list_elem_of_fmap. exact (Hw o' Ho'). }
  unfold systemExecute in *. destruct Hf as [Hf|Hf].
  - rewrite bool_decide_true by done. rewrite dispatch_split in * by done.
    destruct (split_conserves (serializeInput tx os) Hwf Ha _ eq_refl He) as (o & u & n & rest & Hl & -> & -> & Hr & Hn & Hrep & Hv).
    destruct os as [|o0 os]; [done|]. cbn in Hl. injection Hl as <- <-. exists [o0], os.
    split; [constructor; [by destruct Hr; split|constructor]|]. split; [done|]. exists n. split_and!; auto; try apply Hn.
    unfold sumZ. cbn. change (coinValue (rebuildObject o0)) with (coinValue o0) in Hv. lia.
  - rewrite bool_decide_false by (rewrite Hf; vm_compute; congruence). rewrite dispatch_merge in * by done.
    destruct (merge_conserves (serializeInput tx os) Hwf _ eq_refl He) as (H1 & H2 & H3).
    exists os, []. rewrite app_nil_r. split; [by apply rebalanced_rebuilt|]. split; [done|]. split; [done|].
    rewrite H3. by rewrite <- (values_rebuilt os).
Qed.

Lemma coin_call_effect K L total atx tx L' signs :
  coinCall K atx tx -> circulates K L total -> Execute cr vm holder epoch p L atx = (L', signs, None) ->
  circulates (coinsAfter K tx) L' total.
Proof using Hhash Hsingleton SystemRuntime0.
  intros [Htx Hf Hcar [Hnd HK] Ha Hdel Hfresh] HC HE.
  unfold Execute in HE. rewrite Htx, Hcar, inputs_are_bodies in HE.
  destruct (bodies_of_coins K L total (coinRefs tx) HC HK) as [Hids Hbod].
  set (os := omap (getBody L) (coinRefs tx)) in *.
  destruct (vm _ _ _) as [output|] eqn:Ev; [|done].
  assert (Eo : output = Some (systemExecute validatorContent (serializeInput tx os))).
  { destruct (decide (extractPodID tx = podID)) as [Ep|Ep].
    - rewrite Ep in Ev. destruct (rt_output validatorContent (serializeInput tx os) defaultGasLimit); congruence.
    - rewrite (rt_unknown validatorContent (podID := podID)) in Ev; done. }
  subst output. unfold processOutput in HE. set (out := systemExecute validatorContent (serializeInput tx os)) in *.
  destruct (negb (po_Error out =? 0)) eqn:Ee; [done|]. apply negb_false_iff, Z.eqb_eq in Ee.
  destruct (validateOutput _ _ _ _ _ _ _); [done|].
  destruct (coin_output tx os Hf Ha (fun o Ho => proj2 (Hbod o Ho)) Ee) as (used & rest & HR & Hos & Hcase). fold out in HR, Hcase.
  pose proof (circulates_updated holder K used (po_Updated out) L total HC HR) as HU.
  destruct (applyUpdatedObjects holder L (po_Updated out)) as [L1 s1]. cbn [fst] in HU.
  destruct (applyCreatedObjects cr holder p L1 _ _ _ _) as [L2 s2] eqn:Ec. injection HE as <- _.
  assert (HU' : circulates K L1 (total - sumZ (map coinValue used) + sumZ (map coinValue (po_Updated out)))).
  { apply HU.
    - rewrite Hos, map_app in Hids. rewrite <- Hids in Hnd. by apply NoDup_app in Hnd as (? & _).
    - intros o Ho. apply HK. rewrite <- Hids, Hos. apply list_elem_of_fmap_2. set_solver.
    - intros o Ho. apply bal_of_body; [apply Hbod; rewrite Hos; set_solver|].
      destruct (list_elem_of_lookup_1 _ _ Ho) as [i Hi]. destruct (Forall2_lookup_l _ _ _ _ _ HR Hi) as (u & _ & Hu). apply Hu. }
  apply circulates_versions. unfold applyDeletedObjects. rewrite Hdel. cbn [length decodeKeys foldl Nat.div Nat.divmod fst].
  unfold coinsAfter. destruct (bool_decide (tx_FunctionName tx = str "split")).
  - destruct Hcase as (n & Hn & Hs & Hrep & Hv). rewrite Hn in Ec. cbn [applyCreatedObjects] in Ec.
    unfold applyCreatedObject in Ec. rewrite Hrep, Hsingleton in Ec. injection Ec as <- _.
    set (f := if txLocksDeposits tx then _ else _). set (id := computeObjectID cr (extractTxHash tx) 0).
    change (putBody _ _ _) with (putBody (TrackObject L1 id (obj_version n) 0 f (obj_parent_kind n) (objectOwner n)) id (rebuildObjectWithIDAndFees id n f)).
    replace total with (total - sumZ (map coinValue used) + sumZ (map coinValue (po_Updated out)) + coinValue (rebuildObjectWithIDAndFees id n f))
      by (change (coinValue (rebuildObjectWithIDAndFees id n f)) with (coinValue n); lia).
    apply circulates_add; [|done|done|apply Hhash|done].
    apply (circulates_same K L1); [done|apply (ci_wired _ _ _ HU')|done].
  - destruct Hcase as [Hn Hv]. rewrite Hn in Ec. injection Ec as <- _. by replace total with (total - sumZ (map coinValue used) + sumZ (map coinValue (po_Updated out))) by lia.
Qed.

(** A split or merge of the system pod on distinct circulating coins that no copy
    shadows leaves the counter of tokens in coins equal to the sum of their balances, the
    coin a split creates included. *)
Theorem coin_calls_keep_the_counter K L st atx tx L' signs :
  coinCall K atx tx -> l_coins L = Some st -> coins_ok K st -> Execute cr vm holder epoch p L atx = (L', signs, None) ->
  exists st', l_coins L' = Some st' /\ cs_supply st' = cs_supply st /\ cs_coins st' = cs_coins st /\ coins_ok (coinsAfter K tx) st'.
Proof using Hhash Hsingleton SystemRuntime0.
  intros HC Hst Hok HE. pose proof (coin_call_effect K L _ atx tx L' signs HC (coins_ok_circulates K L st Hst Hok) HE) as HC'.
  pose proof (Execute_moves cr vm holder epoch p L atx) as HM. rewrite HE in HM. destruct HM as (? & ? & _ & _ & _ & [[_ _ _ HF] _ _] & _).
  rewrite Hst in HF. destruct (l_coins L') as [st'|] eqn:E'; [|done]. injection HF as H1 H2 _ _. exists st'. split_and!; auto.
  rewrite <- H2 in HC'. apply (circulates_coins_ok _ L'); [done|done|]. rewrite H2. apply Hok.
Qed.

End Calls.
