(* ===== verification/Vertices.v ===== *)
(** * The vertex store and the causal batch (internal/consensus/store.go,
    store_committed.go, anchor.go)

    The decoded vertices by hash, the round index with its recorded producers,
    the committed flags and the snapshot floor.  The key-value encoding of these
    four maps is left out: [v:], [r:] and [vc/] entries are map entries. *)

From S2P Require Import Prelude Types.

Record store := mkStore {
  st_vertices : gmap Hash Vertex;          (* v:<hash> *)
  st_producers : gmap (Z * Hash) Hash;     (* r:<round>:<hash> *)
  byRound : gmap Z (list Hash);
  latestRound : Z;
  committedVertices : gset Hash;
  commitFloor : option Z;                  (* None: not set *)
}.

Definition emptyStore : store := mkStore ∅ ∅ ∅ 0 ∅ None.

Implicit Type s : store.

(** ** Reads *)

Definition get s (hash : Hash) : option Vertex := st_vertices s !! hash.
Definition has s (hash : Hash) : bool := bool_decide (is_Some (get s hash)).
Definition getByRound s (round : Z) : list Hash := default [] (byRound s !! round).
Definition countByRound s (round : Z) : Z := Z.of_nat (length (getByRound s round)).
Definition highestRound s : Z := latestRound s.

Definition producerAt s (round : Z) (hash : Hash) : Hash :=
  match st_producers s !! (round, hash) with
  | Some p => default zeroHash (hash32 p)
  | None => zeroHash
  end.

Definition getByRoundProducer s (round : Z) (producer : Hash) : list Hash * bool :=
  let matches := filter (fun hash => producerAt s round hash = producer) (getByRound s round) in
  (sortHashes matches, negb (Nat.eqb (length matches) 0)).

(** [producersInRange]: rounds [from .. to]. *)
Definition producersInRange s (from to : Z) : gset Hash :=
  list_to_set (concat (map (fun r => map (producerAt s r) (getByRound s r)) (seqZ from (to - from + 1)))).

Definition isVertexCommitted s (hash : Hash) : bool := bool_decide (hash ∈ committedVertices s).

Definition belowCommitFloor s (round : Z) : bool :=
  match commitFloor s with Some f => round <=? f | None => false end.

(** ** Writes *)

Definition put s (v : Vertex) (hash : Hash) (round : Z) (producer : Hash) : store :=
  mkStore (<[hash := v]> (st_vertices s)) (<[(round, hash) := producer]> (st_producers s))
    (<[round := getByRound s round ++ [hash]]> (byRound s)) (latestRound s) (committedVertices s) (commitFloor s).

Definition setLatest s (round : Z) : store :=
  mkStore (st_vertices s) (st_producers s) (byRound s) round (committedVertices s) (commitFloor s).

Definition add s (v : Vertex) (hash : Hash) (round : Z) (producer : Hash) : store * bool :=
  if has s hash then (s, false)
  else
    let s := put s v hash round producer in
    (if latestRound s <? round then setLatest s round else s, true).

Definition markVertexCommitted s (hash : Hash) : store :=
  mkStore (st_vertices s) (st_producers s) (byRound s) (latestRound s)
    ({[ hash ]} ∪ committedVertices s) (commitFloor s).

(** [setCommitFloorLocked]: never lowered. *)
Definition setCommitFloor s (round : Z) : store :=
  if match commitFloor s with Some f => round <=? f | None => false end then s
  else mkStore (st_vertices s) (st_producers s) (byRound s) (latestRound s) (committedVertices s) (Some round).

(** ** Snapshot transfer *)

Record VertexEntry := mkEntry { ve_Round : Z; ve_Data : Vertex; ve_Committed : bool }.

Definition exportRound s (round : Z) : list VertexEntry :=
  omap (fun hash => v ← get s hash; Some (mkEntry round v (isVertexCommitted s hash))) (getByRound s round).

Definition ExportVertices s (fromRound toRound : Z) : list VertexEntry :=
  concat (map (exportRound s) (seqZ fromRound (toRound - fromRound + 1))).

Definition importVertex s (e : VertexEntry) : store * bool :=
  let v := ve_Data e in
  let hash := toHash (v_Hash v) in
  if has s hash then (s, false)
  else
    let s := put s v hash (ve_Round e) (toHash (v_Producer v)) in
    (if ve_Committed e then markVertexCommitted s hash else s, true).

Definition importStep (acc : store * Z * option Z) (e : VertexEntry) : store * Z * option Z :=
  let '(s, maxRound, minRound) := acc in
  let minRound := match minRound with
                  | None => Some (ve_Round e)
                  | Some m => Some (if ve_Round e <? m then ve_Round e else m)
                  end in
  let '(s, added) := importVertex s e in
  (s, if added && (maxRound <? ve_Round e) then ve_Round e else maxRound, minRound).

Definition ImportVertices s (entries : list VertexEntry) : store * Z :=
  let '(s, maxRound, minRound) := foldl importStep (s, 0, None) entries in
  let s := match minRound with
           | Some m => if 0 <? m then setCommitFloor s (m - 1) else s
           | None => s
           end in
  let s := if latestRound s <? maxRound then setLatest s maxRound else s in
  (s, maxRound).

(** ** The causal walk

    [collectCausal] breadth first.  Each step consumes one queue entry and a
    visited vertex adds its parents once, so [walkFuel] is enough
    ([collectCausal_total]). *)

Definition causalEntry : Type := Z * Hash.

Definition parentsOf (v : Vertex) : list Hash := appendParentHashes [] v.

Definition walkFuel s : nat := S (Z.to_nat (mapSum (fun v => Z.of_nat (length (v_Parents v))) (st_vertices s))).

(** The outer [None] is an exhausted fuel, the inner one a missing vertex. *)
Fixpoint collectLoop (fuel : nat) s (seen : gset Hash) (queue : list Hash) (collected : list causalEntry)
    : option (option (list causalEntry)) :=
  match queue with
  | [] => Some (Some collected)
  | hash :: queue =>
      match fuel with
      | O => None
      | S fuel =>
          if bool_decide (hash ∈ seen) || isVertexCommitted s hash then collectLoop fuel s seen queue collected
          else match get s hash with
          | None => Some None
          | Some vertex =>
              let seen := {[ hash ]} ∪ seen in
              if negb (belowCommitFloor s (v_Round vertex)) then
                collectLoop fuel s seen (appendParentHashes queue vertex) (collected ++ [(v_Round vertex, hash)])
              else collectLoop fuel s seen queue collected
          end
      end
  end.

Definition collectCausal s (anchor : Hash) : option (list causalEntry) :=
  match collectLoop (walkFuel s) s ∅ [anchor] [] with
  | Some r => r
  | None => None
  end.

(** Round ascending, then hash ascending. *)
Definition entry_leb (a b : causalEntry) : bool :=
  if fst a =? fst b then bytes_leb (snd a) (snd b) else fst a <? fst b.
Definition entry_le (a b : causalEntry) : Prop := entry_leb a b = true.

#[export] Instance entry_le_dec : RelDecision entry_le.
Proof. intros a b. unfold entry_le. apply _. Defined.

#[export] Instance entry_le_trans : Transitive entry_le.
Proof.
  intros [r1 h1] [r2 h2] [r3 h3]. unfold entry_le, entry_leb. simpl.
  destruct (Z.eqb_spec r1 r2), (Z.eqb_spec r2 r3), (Z.eqb_spec r1 r3); rewrite ?Z.ltb_lt; intros H1 H2; try lia; try done.
  exact (bytes_le_trans h1 h2 h3 H1 H2).
Qed.

#[export] Instance entry_le_total : Total entry_le.
Proof.
  intros [r1 h1] [r2 h2]. unfold entry_le, entry_leb. simpl.
  destruct (Z.eqb_spec r1 r2), (Z.eqb_spec r2 r1); rewrite ?Z.ltb_lt; try lia. apply bytes_le_total.
Qed.

#[export] Instance entry_le_antisymm : AntiSymm eq entry_le.
Proof.
  intros [r1 h1] [r2 h2]. unfold entry_le, entry_leb. simpl.
  destruct (Z.eqb_spec r1 r2), (Z.eqb_spec r2 r1); rewrite ?Z.ltb_lt; intros H1 H2; try lia.
  f_equal; [done|]. exact (bytes_le_antisymm h1 h2 H1 H2).
Qed.

Definition causalBatch s (anchor : Hash) : option (list Hash) :=
  collected ← collectCausal s anchor; Some (map snd (merge_sort entry_le collected)).

(** [rawRange]: the vertices of rounds [from .. to], ascending, at most [limit]. *)
Definition rawRange s (from to limit : Z) : list Vertex :=
  if (limit <=? 0) || (to <? from) then []
  else take (Z.to_nat limit) (concat (map (fun r => omap (get s) (getByRound s r)) (seqZ from (to - from + 1)))).

(** ** What the walk visits *)

(** Vertices visited from [anchor]: a committed one and one at or below the
    floor stop the walk. *)
Inductive Visit s (anchor : Hash) : Hash -> Prop :=
| visit_anchor : Visit s anchor anchor
| visit_parent h v p :
    Visit s anchor h -> h ∉ committedVertices s -> get s h = Some v ->
    belowCommitFloor s (v_Round v) = false -> p ∈ parentsOf v -> Visit s anchor p.

(** Part of the batch. *)
Definition InBatch s (anchor : Hash) (e : causalEntry) : Prop :=
  Visit s anchor (snd e) /\ snd e ∉ committedVertices s /\
  exists v, get s (snd e) = Some v /\ belowCommitFloor s (v_Round v) = false /\ fst e = v_Round v.

Lemma appendParentHashes_app queue v : appendParentHashes queue v = queue ++ parentsOf v.
Proof. done. Qed.

(** *** Enough fuel *)

Definition pendingParents s (seen : gset Hash) : Z :=
  mapSum (fun v => Z.of_nat (length (v_Parents v))) (filter (fun kv => kv.1 ∉ seen) (st_vertices s)).

Lemma pendingParents_visit s seen h v :
  h ∉ seen -> get s h = Some v ->
  pendingParents s ({[ h ]} ∪ seen) = pendingParents s seen - Z.of_nat (length (v_Parents v)).
Proof.
  intros Hs Hg. unfold pendingParents.
  rewrite <- (mapSum_delete (fun v => Z.of_nat (length (v_Parents v))) _ h v) by (apply map_lookup_filter_Some; done).
  f_equal. apply map_eq. intros k. rewrite lookup_delete. case_decide as Hk.
  - subst k. apply map_lookup_filter_None. right. intros x _. simpl. set_solver.
  - apply option_eq. intros x. rewrite !map_lookup_filter_Some. simpl. set_solver.
Qed.

Lemma pendingParents_nonneg s seen : 0 <= pendingParents s seen.
Proof. apply mapSum_nonneg. intros k v _. lia. Qed.

Lemma collectLoop_total fuel s seen queue collected :
  Z.of_nat (length queue) + pendingParents s seen <= Z.of_nat fuel ->
  is_Some (collectLoop fuel s seen queue collected).
Proof.
  revert seen queue collected. induction fuel as [|fuel IH]; intros seen [|h queue] collected Hf; simpl in *; eauto.
  { pose proof (pendingParents_nonneg s seen). lia. }
  destruct (bool_decide (h ∈ seen)) eqn:Es; simpl; [apply IH; lia|].
  destruct (isVertexCommitted s h); [apply IH; lia|]. destruct (get s h) as [v|] eqn:Eg; [|eauto].
  apply bool_decide_eq_false in Es. pose proof (pendingParents_visit s seen h v Es Eg).
  destruct (negb _); apply IH; [|lia]. unfold appendParentHashes. rewrite length_app, length_map. lia.
Qed.

Lemma collectCausal_total s anchor : is_Some (collectLoop (walkFuel s) s ∅ [anchor] []).
Proof.
  apply collectLoop_total. unfold walkFuel, pendingParents.
  rewrite map_filter_id; [|set_solver].
  pose proof (mapSum_nonneg (fun v => Z.of_nat (length (v_Parents v))) (st_vertices s) ltac:(intros k v _; lia)).
  cbn [length]. lia.
Qed.

Lemma collectLoop_mono fuel fuel' s seen queue collected r :
  (fuel <= fuel')%nat -> collectLoop fuel s seen queue collected = Some r -> collectLoop fuel' s seen queue collected = Some r.
Proof.
  revert fuel' seen queue collected. induction fuel as [|fuel IH]; intros [|fuel'] seen [|h queue] collected Hle Hc;
    simpl in *; try done; try lia.
  destruct (_ || _); [apply IH; [lia|done]|]. destruct (get s h); [|done].
  destruct (negb _); (apply IH; [lia|done]).
Qed.

(** *** The loop invariant *)

Record walkInv s (anchor : Hash) (seen : gset Hash) (queue : list Hash) (collected : list causalEntry) : Prop := {
  wi_seen : forall h, h ∈ seen -> Visit s anchor h /\ h ∉ committedVertices s /\ is_Some (get s h);
  wi_queue : forall h, h ∈ queue -> Visit s anchor h;
  wi_anchor : anchor ∈ seen \/ anchor ∈ committedVertices s \/ anchor ∈ queue;
  wi_closed : forall h v p, h ∈ seen -> get s h = Some v -> belowCommitFloor s (v_Round v) = false ->
    p ∈ parentsOf v -> p ∈ seen \/ p ∈ committedVertices s \/ p ∈ queue;
  wi_collected : forall e, e ∈ collected <-> snd e ∈ seen /\
    exists v, get s (snd e) = Some v /\ belowCommitFloor s (v_Round v) = false /\ fst e = v_Round v;
  wi_nodup : NoDup collected;
}.

Lemma walkInv_skip s anchor seen h queue collected :
  walkInv s anchor seen (h :: queue) collected -> h ∈ seen \/ h ∈ committedVertices s ->
  walkInv s anchor seen queue collected.
Proof.
  intros [A1 A2 A3 A4 A5 A6] Hh. split; auto.
  - intros x Hx. apply A2. by right.
  - rewrite elem_of_cons in A3. destruct A3 as [|[|[->|]]]; tauto.
  - intros x v p Hx Hg Hb Hp. destruct (A4 x v p Hx Hg Hb Hp) as [|[|Hin]]; [tauto..|].
    rewrite elem_of_cons in Hin. destruct Hin as [->|]; tauto.
Qed.

Lemma walkInv_visit s anchor seen h v queue collected :
  walkInv s anchor seen (h :: queue) collected -> h ∉ seen -> h ∉ committedVertices s -> get s h = Some v ->
  let '(queue', collected') :=
    if belowCommitFloor s (v_Round v) then (queue, collected)
    else (appendParentHashes queue v, collected ++ [(v_Round v, h)]) in
  walkInv s anchor ({[ h ]} ∪ seen) queue' collected'.
Proof.
  intros [A1 A2 A3 A4 A5 A6] Hs Hc Hg. pose proof (A2 h ltac:(by left)) as Hv.
  assert (Hseen : forall x, x ∈ {[h]} ∪ seen -> Visit s anchor x /\ x ∉ committedVertices s /\ is_Some (get s x)).
  { intros x [->%elem_of_singleton|Hx]%elem_of_union; [eauto|by apply A1]. }
  destruct (belowCommitFloor s (v_Round v)) eqn:Eb.
  - split; auto.
    + intros x Hx. apply A2. by right.
    + rewrite elem_of_cons in A3. set_solver.
    + intros x w p [->%elem_of_singleton|Hx]%elem_of_union Hgx Hbx Hp; [congruence|].
      specialize (A4 x w p Hx Hgx Hbx Hp). rewrite elem_of_cons in A4. set_solver.
    + intros e. rewrite A5, elem_of_union, elem_of_singleton. split; [intros [? ?]; tauto|].
      intros [[He|He] (w & Hw & Hbw & Hr)]; [rewrite He in Hw; congruence|eauto 10].
  - rewrite appendParentHashes_app. split; auto.
    + intros x [Hx|Hx]%elem_of_app; [apply A2; by right|]. by apply (visit_parent s anchor h v).
    + rewrite elem_of_cons in A3. rewrite elem_of_app. set_solver.
    + intros x w p [->%elem_of_singleton|Hx]%elem_of_union Hgx Hbx Hp; rewrite elem_of_app.
      * simplify_eq. tauto.
      * specialize (A4 x w p Hx Hgx Hbx Hp). rewrite elem_of_cons in A4. set_solver.
    + intros e. rewrite elem_of_app, list_elem_of_singleton, A5, elem_of_union, elem_of_singleton. split.
      * intros [[? ?]|Ee]; [tauto|]. subst e. simpl. eauto 10.
      * intros [[He|He] (w & Hw & Hbw & Hr)]; [right|left; eauto 10].
        destruct e as [r x]. simpl in *. congruence.
    + apply NoDup_app. split_and!; [done| |apply NoDup_singleton].
      intros e He Hin. apply list_elem_of_singleton in Hin. subst e. apply A5 in He as [He _]. done.
Qed.

Lemma collectLoop_spec fuel s anchor seen queue collected r :
  walkInv s anchor seen queue collected -> collectLoop fuel s seen queue collected = Some r ->
  match r with
  | Some l => exists seen', walkInv s anchor seen' [] l
  | None => exists h, Visit s anchor h /\ h ∉ committedVertices s /\ get s h = None
  end.
Proof.
  revert seen queue collected. induction fuel as [|fuel IH]; intros seen [|h queue] collected HI Hc; simpl in Hc;
    try (by injection Hc as <-; eauto); [done|].
  destruct (bool_decide (h ∈ seen)) eqn:Es; simpl in Hc.
  { apply bool_decide_eq_true in Es. apply (IH _ _ _ (walkInv_skip _ _ _ _ _ _ HI ltac:(by left)) Hc). }
  apply bool_decide_eq_false in Es. unfold isVertexCommitted in Hc. case_bool_decide as Hcm.
  { apply (IH _ _ _ (walkInv_skip _ _ _ _ _ _ HI ltac:(by right)) Hc). }
  destruct (get s h) as [v|] eqn:Eg.
  - pose proof (walkInv_visit s anchor seen h v queue collected HI Es Hcm Eg) as HI'.
    destruct (belowCommitFloor s (v_Round v)); simpl in Hc; by apply (IH _ _ _ HI').
  - injection Hc as <-. exists h. split_and!; auto. apply (wi_queue _ _ _ _ _ HI). by left.
Qed.

Lemma walkInv_start s anchor : walkInv s anchor ∅ [anchor] [].
Proof.
  split; try set_solver.
  - intros h Hh. apply list_elem_of_singleton in Hh as ->. constructor.
  - apply NoDup_nil_2.
Qed.

(** [collectCausal] is exact: it fails exactly when a visited vertex is missing
    and otherwise collects the batch once. *)
Lemma collectCausal_spec s anchor :
  match collectCausal s anchor with
  | Some l => NoDup l /\ (forall e, e ∈ l <-> InBatch s anchor e) /\
              (forall h, Visit s anchor h -> h ∉ committedVertices s -> is_Some (get s h))
  | None => exists h, Visit s anchor h /\ h ∉ committedVertices s /\ get s h = None
  end.
Proof.
  unfold collectCausal. destruct (collectCausal_total s anchor) as [r Hr]. rewrite Hr.
  pose proof (collectLoop_spec _ _ _ _ _ _ _ (walkInv_start s anchor) Hr) as Hsp.
  destruct r as [l|]; [|done]. destruct Hsp as (seen & [A1 A2 A3 A4 A5 A6]).
  assert (Hall : forall h, Visit s anchor h -> h ∈ seen \/ h ∈ committedVertices s).
  { intros h Hv. induction Hv as [|h v p Hv IH Hc Hg Hb Hp]; [set_solver|].
    destruct IH as [IH|]; [|done]. specialize (A4 h v p IH Hg Hb Hp). set_solver. }
  split; [done|]. split.
  - intros e. rewrite A5. unfold InBatch. split.
    + intros [He Hx]. destruct (A1 _ He) as (B1 & B2 & _). done.
    + intros (Hv & Hc & Hx). destruct (Hall _ Hv); [done|done].
  - intros h Hv Hc. destruct (Hall h Hv); [|done]. by apply A1.
Qed.

(** ** The batch *)

Definition entryOf s (h : Hash) : causalEntry := (default 0 (v_Round <$> get s h), h).

Lemma causalBatch_entries s anchor l :
  collectCausal s anchor = Some l -> map (entryOf s) (map snd (merge_sort entry_le l)) = merge_sort entry_le l.
Proof.
  intros Hc. pose proof (collectCausal_spec s anchor) as Hsp. rewrite Hc in Hsp. destruct Hsp as (_ & Hin & _).
  rewrite map_map. rewrite <- (map_id (merge_sort entry_le l)) at 2. apply map_ext_in. intros [r h] He.
  apply list_elem_of_In in He. rewrite merge_sort_Permutation in He. apply Hin in He as (_ & _ & v & Hg & _ & Hr).
  simpl in *. unfold entryOf. by rewrite Hg, Hr.
Qed.

Lemma causalBatch_elem s anchor batch h :
  causalBatch s anchor = Some batch ->
  h ∈ batch <-> Visit s anchor h /\ h ∉ committedVertices s /\
                exists v, get s h = Some v /\ belowCommitFloor s (v_Round v) = false.
Proof.
  unfold causalBatch. pose proof (collectCausal_spec s anchor) as Hsp.
  destruct (collectCausal s anchor) as [l|]; [|done]. cbn [mbind option_bind]. intros [= <-].
  destruct Hsp as (_ & Hin & _). rewrite list_elem_of_fmap. split.
  - intros ([r x] & -> & Hx). rewrite merge_sort_Permutation in Hx. apply Hin in Hx as (V & C & v & G & B & _).
    simpl in *. eauto 10.
  - intros (V & C & v & G & B). exists (v_Round v, h). split; [done|]. rewrite merge_sort_Permutation. apply Hin.
    split_and!; simpl; eauto 10.
Qed.

Lemma causalBatch_complete s anchor batch h :
  causalBatch s anchor = Some batch -> Visit s anchor h -> h ∉ committedVertices s -> is_Some (get s h).
Proof.
  unfold causalBatch. pose proof (collectCausal_spec s anchor) as Hsp.
  destruct (collectCausal s anchor) as [l|]; [|done]. intros _. apply Hsp.
Qed.

(** A commit batch lists, once each and in round-then-hash order, exactly the
    uncommitted vertices above the floor reachable from the anchor, closed under parents;
    the walk fails only when a reachable uncommitted vertex is missing. *)
Theorem causalBatch_exact s anchor :
  match causalBatch s anchor with
  | Some batch =>
      NoDup batch /\ Sorted entry_le (map (entryOf s) batch) /\
      (forall h, h ∈ batch <-> Visit s anchor h /\ h ∉ committedVertices s /\
                 exists v, get s h = Some v /\ belowCommitFloor s (v_Round v) = false) /\
      (forall h v p, h ∈ batch -> get s h = Some v -> p ∈ parentsOf v ->
         p ∈ batch \/ p ∈ committedVertices s \/ exists w, get s p = Some w /\ belowCommitFloor s (v_Round w) = true)
  | None => exists h, Visit s anchor h /\ h ∉ committedVertices s /\ get s h = None
  end.
Proof.
  destruct (causalBatch s anchor) as [batch|] eqn:Eb.
  2: { unfold causalBatch in Eb. pose proof (collectCausal_spec s anchor). by destruct (collectCausal s anchor). }
  pose proof (fun h => causalBatch_elem s anchor batch h Eb) as Hmem.
  pose proof (fun h => causalBatch_complete s anchor batch h Eb) as Hst.
  unfold causalBatch in Eb. pose proof (collectCausal_spec s anchor) as Hsp.
  destruct (collectCausal s anchor) as [l|] eqn:Ec; [|done]. cbn [mbind option_bind] in Eb. injection Eb as <-.
  destruct Hsp as (Hnd & Hin & _). pose proof (causalBatch_entries s anchor l Ec) as He.
  split_and!.
  - apply (NoDup_fmap_1 (entryOf s)). change (NoDup (map (entryOf s) (map snd (merge_sort entry_le l)))).
    rewrite He. by rewrite merge_sort_Permutation.
  - rewrite He. apply (Sorted_merge_sort entry_le).
  - exact Hmem.
  - intros h v p Hh Hg Hp. apply Hmem in Hh as (V & C & v' & G & B). rewrite Hg in G. injection G as <-.
    assert (Vp : Visit s anchor p) by (by apply (visit_parent s anchor h v)).
    destruct (decide (p ∈ committedVertices s)) as [|Cp]; [by right; left|].
    destruct (Hst p Vp Cp) as [w Gw]. destruct (belowCommitFloor s (v_Round w)) eqn:Eb; [eauto 10|].
    left. apply Hmem. eauto 10.
Qed.

(** ** Agreement across views *)

Lemma belowCommitFloor_same s s' r : commitFloor s' = commitFloor s -> belowCommitFloor s' r = belowCommitFloor s r.
Proof. intros Hf. unfold belowCommitFloor. by rewrite Hf. Qed.

Lemma Visit_extend s s' anchor h :
  st_vertices s ⊆ st_vertices s' -> committedVertices s' = committedVertices s -> commitFloor s' = commitFloor s ->
  (forall x, Visit s anchor x -> x ∉ committedVertices s -> is_Some (get s x)) ->
  Visit s' anchor h <-> Visit s anchor h.
Proof.
  intros Hsub Hc Hf Hst. split.
  - induction 1 as [|h v p Hv IH Hn Hg Hb Hp]; [constructor|]. rewrite Hc in Hn.
    destruct (Hst h IH Hn) as [w Hw]. assert (get s' h = Some w) by (by eapply lookup_weaken). simplify_eq.
    rewrite (belowCommitFloor_same s s') in Hb by done. by apply (visit_parent s anchor h v).
  - induction 1 as [|h v p Hv IH Hn Hg Hb Hp]; [constructor|].
    apply (visit_parent s' anchor h v); [done|by rewrite Hc|by eapply lookup_weaken|by rewrite (belowCommitFloor_same s s')|done].
Qed.

Lemma causalBatch_extends s s' anchor batch :
  causalBatch s anchor = Some batch ->
  st_vertices s ⊆ st_vertices s' -> committedVertices s' = committedVertices s -> commitFloor s' = commitFloor s ->
  causalBatch s' anchor = Some batch.
Proof.
  unfold causalBatch. intros Hb Hsub Hc Hf.
  destruct (collectCausal s anchor) as [l|] eqn:El; [|done]. cbn [mbind option_bind] in Hb. injection Hb as <-.
  pose proof (collectCausal_spec s anchor) as Hs. rewrite El in Hs. destruct Hs as (Hnd & Hin & Hst).
  assert (Hvis : forall h, Visit s' anchor h <-> Visit s anchor h) by (intros; by apply Visit_extend).
  assert (Hget : forall h, Visit s anchor h -> h ∉ committedVertices s -> get s' h = get s h).
  { intros h Hv Hn. destruct (Hst h Hv Hn) as [w Hw]. rewrite Hw. by eapply lookup_weaken. }
  pose proof (collectCausal_spec s' anchor) as Hs'. destruct (collectCausal s' anchor) as [l'|].
  - cbn [mbind option_bind]. f_equal. f_equal. destruct Hs' as (Hnd' & Hin' & _).
    apply (Sorted_unique entry_le); [apply (Sorted_merge_sort entry_le)..|].
    rewrite !merge_sort_Permutation. apply NoDup_Permutation; [done..|]. intros e. rewrite Hin, Hin'. unfold InBatch.
    rewrite Hvis, Hc. split; intros (V & C & v & G & B & R).
    + rewrite Hget in G by done. rewrite (belowCommitFloor_same s s') in B by done. eauto 10.
    + split_and!; auto. exists v. rewrite Hget, (belowCommitFloor_same s s') by done. done.
  - destruct Hs' as (h & V & C & G). apply Hvis in V. rewrite Hc in C. rewrite Hget in G by done.
    destruct (Hst h V C). congruence.
Qed.

(** A batch that a node can compute is the batch of every node that holds at least
    its vertices and has the same committed set and floor: later arrivals do not change
    it. *)
Theorem causalBatch_agreement s s' anchor batch :
  causalBatch s anchor = Some batch ->
  st_vertices s ⊆ st_vertices s' -> committedVertices s' = committedVertices s -> commitFloor s' = commitFloor s ->
  causalBatch s' anchor = Some batch.
Proof. apply causalBatch_extends. Qed.

(** A diamond over a committed root, and a later store with one more vertex. *)
Definition hh (n : Z) : Hash := replicate 32 n.
Definition vtx (n round producer : Z) (parents : list Z) : Vertex :=
  mkVertex (hh n) round (hh producer) (map (fun p => mkLink (hh p) (hh 0)) parents) [] 0 None 0 0 [] [] [].
Definition addV s (n round producer : Z) (parents : list Z) : store :=
  fst (add s (vtx n round producer parents) (hh n) round (hh producer)).

Definition diamond : store :=
  addV (addV (addV (markVertexCommitted (addV emptyStore 1 0 1 []) (hh 1)) 3 1 2 [1]) 2 1 1 [1]) 4 2 1 [3; 2].

Theorem causalBatch_agreement_witness :
  causalBatch diamond (hh 4) = Some [hh 2; hh 3; hh 4] /\
  causalBatch (addV diamond 5 2 2 [2]) (hh 4) = Some [hh 2; hh 3; hh 4].
Proof.
  assert (Hb : causalBatch diamond (hh 4) = Some [hh 2; hh 3; hh 4]) by (vm_compute; reflexivity).
  split; [exact Hb|]. apply (causalBatch_agreement diamond _ (hh 4) _ Hb).
  - change (st_vertices (addV diamond 5 2 2 [2])) with (<[hh 5 := vtx 5 2 2 [2]]> (st_vertices diamond)).
    apply insert_subseteq. vm_compute. reflexivity.
  - vm_compute. reflexivity.
  - vm_compute. reflexivity.
Defined.

(** ** The store's invariant

    The round index lists exactly the stored vertices of each round, once, and
    records their producers; no stored round exceeds the latest one. *)

Record storeOk s : Prop := {
  so_index : forall r h, h ∈ getByRound s r <-> exists v, get s h = Some v /\ v_Round v = r;
  so_producer : forall h v, get s h = Some v -> producerAt s (v_Round v) h = extractProducer v;
  so_nodup : forall r, NoDup (getByRound s r);
  so_latest : forall h v, get s h = Some v -> v_Round v <= latestRound s;
}.

Lemma emptyStore_ok : storeOk emptyStore.
Proof.
  split; unfold getByRound, get; simpl; intros *; rewrite ?lookup_empty; try done; simpl; [|constructor].
  split; [by intros ?%not_elem_of_nil|by intros (v & ? & _)].
Qed.

Lemma extractProducer_length v : length (extractProducer v) = 32%nat.
Proof.
  unfold extractProducer. destruct (hash32 (v_Producer v)) as [p|] eqn:E; [|apply length_replicate].
  by apply hash32_Some in E as [_ ?].
Qed.

Lemma has_false s hash : has s hash = false -> get s hash = None.
Proof. unfold has. intros H%bool_decide_eq_false. by apply eq_None_not_Some. Qed.

(** What [put] changes. *)
Lemma get_put s v hash r p h : get (put s v hash r p) h = if decide (hash = h) then Some v else get s h.
Proof. unfold get, put. cbn [st_vertices]. by rewrite lookup_insert. Qed.

Lemma getByRound_put s v hash r p q :
  getByRound (put s v hash r p) q = if decide (r = q) then getByRound s r ++ [hash] else getByRound s q.
Proof. unfold getByRound at 1, put. cbn [byRound]. rewrite lookup_insert. by case_decide. Qed.

Lemma producerAt_put s v hash r p q h :
  (r, hash) ≠ (q, h) -> producerAt (put s v hash r p) q h = producerAt s q h.
Proof. intros Hne. unfold producerAt, put. cbn [st_producers]. by rewrite lookup_insert_ne. Qed.

Definition indexOk s : Prop :=
  (forall r h, h ∈ getByRound s r <-> exists v, get s h = Some v /\ v_Round v = r) /\
  (forall h v, get s h = Some v -> producerAt s (v_Round v) h = extractProducer v) /\
  (forall r, NoDup (getByRound s r)).

Lemma put_index s v hash p :
  indexOk s -> get s hash = None -> hash32 p = Some (extractProducer v) ->
  indexOk (put s v hash (v_Round v) p).
Proof.
  intros (I1 & I2 & I3) Hn Hp.
  assert (Hnot : forall r, hash ∉ getByRound s r) by (intros r (w & Hw & _)%I1; congruence).
  split_and!.
  - intros r h. rewrite getByRound_put, get_put. case_decide as Hr.
    + rewrite elem_of_app, list_elem_of_singleton, I1. case_decide as Hh; subst; [|naive_solver].
      split; [eauto|]. intros _. by right.
    + rewrite I1. case_decide as Hh; [|done]. subst h. split; [intros (w & Hw & _); congruence|].
      by intros (w & [= <-] & ?).
  - intros h w. rewrite get_put. case_decide as Hh.
    + intros [= <-]. subst h. unfold producerAt, put. cbn [st_producers]. by rewrite lookup_insert_eq, Hp.
    + intros Hw. rewrite producerAt_put by congruence. by apply I2.
  - intros r. rewrite getByRound_put. case_decide as Hr; [|done]. apply NoDup_app. split_and!; [done| |apply NoDup_singleton].
    intros h Hin ->%list_elem_of_singleton. by apply (Hnot (v_Round v)).
Qed.

Lemma storeOk_index s : storeOk s -> indexOk s.
Proof. intros [A B C D]. done. Qed.

Lemma add_ok s v hash : storeOk s -> storeOk (fst (add s v hash (v_Round v) (extractProducer v))).
Proof.
  intros Hok. unfold add. destruct (has s hash) eqn:Eh; [done|]. apply has_false in Eh.
  pose proof (put_index s v hash (extractProducer v) (storeOk_index s Hok) Eh) as (I1 & I2 & I3).
  { apply hash32_Some. split; [done|apply extractProducer_length]. }
  assert (Hl : forall h w, get (put s v hash (v_Round v) (extractProducer v)) h = Some w ->
               v_Round w <= Z.max (latestRound s) (v_Round v)).
  { intros h w. rewrite get_put. case_decide; [intros [= <-]; lia|]. intros Hw%(so_latest s Hok). lia. }
  cbv zeta. cbn [fst]. change (latestRound (put s v hash (v_Round v) (extractProducer v))) with (latestRound s).
  destruct (Z.ltb_spec (latestRound s) (v_Round v)); split; try done; intros h w Hw%Hl; simpl in *; lia.
Qed.

Lemma mark_ok s hash : storeOk s -> storeOk (markVertexCommitted s hash).
Proof. intros [A B C D]. by split. Qed.

Lemma setCommitFloor_ok s r : storeOk s -> storeOk (setCommitFloor s r).
Proof. intros [A B C D]. unfold setCommitFloor. destruct (match commitFloor s with Some _ => _ | None => _ end); by split. Qed.

(** A snapshot entry whose round is its vertex's, from a 32-byte producer. *)
Definition entryOk (e : VertexEntry) : Prop := ve_Round e = v_Round (ve_Data e) /\ length (v_Producer (ve_Data e)) = 32%nat.

Lemma importVertex_index s e : indexOk s -> entryOk e -> indexOk (fst (importVertex s e)).
Proof.
  intros Hi [Hr Hl]. unfold importVertex. destruct (has s _) eqn:Eh; [done|]. apply has_false in Eh. cbv zeta. cbn [fst].
  pose proof (put_index s (ve_Data e) (toHash (v_Hash (ve_Data e))) (toHash (v_Producer (ve_Data e))) Hi Eh) as Hp.
  rewrite Hr. destruct (ve_Committed e); apply Hp; rewrite toHash_id by done; unfold extractProducer;
    rewrite (proj2 (hash32_Some _ _) (conj eq_refl Hl)); done.
Qed.

Lemma importVertex_get s e h w :
  get (fst (importVertex s e)) h = Some w -> get s h = Some w \/ snd (importVertex s e) = true /\ w = ve_Data e.
Proof.
  unfold importVertex. destruct (has s _); [tauto|]. cbv zeta. cbn [fst snd]. intros Hg.
  assert (Hg' : get (put s (ve_Data e) (toHash (v_Hash (ve_Data e))) (ve_Round e) (toHash (v_Producer (ve_Data e)))) h = Some w)
    by (by destruct (ve_Committed e)).
  rewrite get_put in Hg'. case_decide; [injection Hg' as <-|]; tauto.
Qed.

Lemma importVertex_latest s e : latestRound (fst (importVertex s e)) = latestRound s.
Proof. unfold importVertex. destruct (has s _); [done|]. cbv zeta. cbn [fst]. by destruct (ve_Committed e). Qed.

Lemma import_fold entries s0 : forall s mx mn,
  indexOk s -> latestRound s = latestRound s0 -> Forall entryOk entries ->
  (forall h w, get s h = Some w -> v_Round w <= Z.max (latestRound s0) mx) ->
  let '(s', mx', _) := foldl importStep (s, mx, mn) entries in
  indexOk s' /\ latestRound s' = latestRound s0 /\
  forall h w, get s' h = Some w -> v_Round w <= Z.max (latestRound s0) mx'.
Proof.
  induction entries as [|e l IH]; intros s mx mn Hi Hlat Hok Hle; cbn [foldl]; [done|].
  apply Forall_cons in Hok as [He Hok]. unfold importStep at 2. destruct (importVertex s e) as [s1 added] eqn:E.
  pose proof (importVertex_index s e Hi He) as Hi1. pose proof (importVertex_latest s e) as Hl1.
  pose proof (importVertex_get s e) as Hg. rewrite E in Hi1, Hl1, Hg. simpl in Hi1, Hl1, Hg.
  apply IH; [done|congruence|done|]. intros h w [Hw|[-> ->]]%Hg.
  - apply Hle in Hw. destruct added, (Z.ltb_spec mx (ve_Round e)); simpl; lia.
  - simpl. destruct He as [<- _]. destruct (Z.ltb_spec mx (ve_Round e)); lia.
Qed.

Lemma ImportVertices_ok s entries : storeOk s -> Forall entryOk entries -> storeOk (fst (ImportVertices s entries)).
Proof.
  intros Hok He. unfold ImportVertices.
  pose proof (import_fold entries s s 0 None (storeOk_index s Hok) eq_refl He) as Hf.
  destruct (foldl importStep (s, 0, None) entries) as [[s' mx] mn].
  destruct Hf as ((I1 & I2 & I3) & Hl & Hle); [intros h w Hw%(so_latest s Hok); lia|]. cbn [fst].
  set (s1 := match mn with Some m => if 0 <? m then setCommitFloor s' (m - 1) else s' | None => s' end).
  assert (H1 : getByRound s1 = getByRound s' /\ get s1 = get s' /\ producerAt s1 = producerAt s' /\ latestRound s1 = latestRound s').
  { unfold s1, setCommitFloor. destruct mn as [m|]; [|done]. destruct (0 <? m); [|done].
    by destruct (match commitFloor s' with Some _ => _ | None => _ end). }
  destruct H1 as (E1 & E2 & E3 & E4).
  destruct (Z.ltb_spec (latestRound s1) mx); split; unfold setLatest; intros *;
    change (getByRound (mkStore (st_vertices s1) (st_producers s1) (byRound s1) mx (committedVertices s1) (commitFloor s1))) with (getByRound s1);
    change (get (mkStore (st_vertices s1) (st_producers s1) (byRound s1) mx (committedVertices s1) (commitFloor s1))) with (get s1);
    change (producerAt (mkStore (st_vertices s1) (st_producers s1) (byRound s1) mx (committedVertices s1) (commitFloor s1))) with (producerAt s1);
    cbn [latestRound]; rewrite ?E1, ?E2, ?E3; auto.
  all: intros Hw%Hle; lia.
Qed.

(** ** Sequences of store operations *)

Inductive StoreOp :=
| StAdd (v : Vertex) (hash : Hash)          (* a validated vertex *)
| StMark (hash : Hash)                      (* folded into a batch *)
| StImport (entries : list VertexEntry).    (* a snapshot *)

Definition runStore s (op : StoreOp) : store :=
  match op with
  | StAdd v hash => fst (add s v hash (v_Round v) (extractProducer v))
  | StMark hash => markVertexCommitted s hash
  | StImport entries => fst (ImportVertices s entries)
  end.

Definition storeOpOk (op : StoreOp) : Prop :=
  match op with StImport entries => Forall entryOk entries | _ => True end.

Lemma runStore_ok s op : storeOpOk op -> storeOk s -> storeOk (runStore s op).
Proof. destruct op; simpl; auto using add_ok, mark_ok, ImportVertices_ok. Qed.

(** Stored vertices stay, committed flags stay. *)
Lemma put_grows s v hash r p : get s hash = None -> st_vertices s ⊆ st_vertices (put s v hash r p).
Proof. intros Hn. apply insert_subseteq, Hn. Qed.

Lemma importVertex_grows s e :
  st_vertices s ⊆ st_vertices (fst (importVertex s e)) /\ committedVertices s ⊆ committedVertices (fst (importVertex s e)).
Proof.
  unfold importVertex. destruct (has s _) eqn:Eh; [done|]. apply has_false in Eh. cbv zeta. cbn [fst].
  destruct (ve_Committed e); (split; [by apply (put_grows s _ _ _ _ Eh)|]); cbn; set_solver.
Qed.

Lemma runStore_grows s op :
  st_vertices s ⊆ st_vertices (runStore s op) /\ committedVertices s ⊆ committedVertices (runStore s op).
Proof.
  destruct op as [v hash|hash|entries]; simpl; [| |].
  - unfold add. destruct (has s hash) eqn:Eh; [done|]. apply has_false in Eh. cbv zeta. cbn [fst].
    destruct (_ <? _); (split; [by apply (put_grows s _ _ _ _ Eh)|done]).
  - split; [done|]. cbn. set_solver.
  - assert (Hf : forall l s mx mn, let '(s', _, _) := foldl importStep (s, mx, mn) l in
               st_vertices s ⊆ st_vertices s' /\ committedVertices s ⊆ committedVertices s').
    { clear s entries. induction l as [|e l IH]; intros s mx mn; cbn [foldl]; [done|].
      unfold importStep at 2. pose proof (importVertex_grows s e) as [G1 G2].
      destruct (importVertex s e) as [s1 added]. simpl in G1, G2.
      specialize (IH s1 (if added && (mx <? ve_Round e) then ve_Round e else mx)
        (match mn with None => Some (ve_Round e) | Some m => Some (if ve_Round e <? m then ve_Round e else m) end)).
      destruct (foldl importStep _ l) as [[s' mx'] mn']. destruct IH. split; by etrans. }
    unfold ImportVertices.
    specialize (Hf entries s 0 None). destruct (foldl importStep (s, 0, None) entries) as [[s' mx] mn]. cbn [fst].
    unfold setCommitFloor. destruct mn as [m|]; [destruct (0 <? m); [destruct (match commitFloor s' with Some _ => _ | None => _ end)|]|];
      match goal with |- context[if ?b then _ else _] => destruct b end; exact Hf.
Qed.

(** ** What holds of any import

    An entry is filed under the round it claims, which the code does not compare with
    its vertex's. *)

Record filedOk s : Prop := {
  fi_stored : forall r h, h ∈ getByRound s r -> is_Some (get s h);
  fi_listed : forall h, is_Some (get s h) -> exists r, h ∈ getByRound s r;
  fi_once : forall r r' h, h ∈ getByRound s r -> h ∈ getByRound s r' -> r = r';
  fi_nodup : forall r, NoDup (getByRound s r);
  fi_producer : forall r h v, h ∈ getByRound s r -> get s h = Some v -> length (v_Producer v) = 32%nat -> producerAt s r h = v_Producer v;
}.

(** Filed under its own round, or under the one an entry claims for it. *)
Definition filedBy (claims : list VertexEntry) s : Prop :=
  forall r h v, h ∈ getByRound s r -> get s h = Some v -> r = v_Round v \/ exists e, e ∈ claims /\ ve_Data e = v /\ ve_Round e = r.

Definition below (top : Z) s : Prop := forall r h, h ∈ getByRound s r -> r <= top.

Lemma put_filed s v hash r p :
  filedOk s -> get s hash = None -> (length (v_Producer v) = 32%nat -> hash32 p = Some (v_Producer v)) -> filedOk (put s v hash r p).
Proof.
  intros [I1 I2 I3 I4 I5] Hn Hp. assert (Hnot : forall q, hash ∉ getByRound s q) by (intros q Hq%I1; rewrite Hn in Hq; by destruct Hq).
  assert (Hin : forall q h, h ∈ getByRound (put s v hash r p) q <-> (h ∈ getByRound s q \/ (q = r /\ h = hash))).
  { intros q h. rewrite getByRound_put. case_decide as Hq; [subst; rewrite elem_of_app, list_elem_of_singleton; naive_solver|naive_solver]. }
  split.
  - intros q h Hh. rewrite get_put. case_decide; [done|]. apply Hin in Hh as [Hh|[_ ->]]; [by apply (I1 q)|done].
  - intros h. rewrite get_put. case_decide as Hh; [subst; intros _; exists r; apply Hin; by right|]. intros [q Hq]%I2. exists q. apply Hin. by left.
  - intros q q' h [H1|[-> ->]]%Hin [H2|[-> H2]]%Hin; [by eapply I3|subst; by apply Hnot in H1|by apply Hnot in H2|done].
  - intros q. rewrite getByRound_put. case_decide as Hq; [|done]. apply NoDup_app. split_and!; [done| |apply NoDup_singleton]. intros h Hh ->%list_elem_of_singleton. by apply Hnot in Hh.
  - intros q h w Hh. rewrite get_put. case_decide as Hx.
    + intros [= <-] Hl. subst h. apply Hin in Hh as [Hh|[-> _]]; [by apply Hnot in Hh|]. unfold producerAt, put. cbn [st_producers]. by rewrite lookup_insert_eq, Hp.
    + intros Hw Hl. rewrite producerAt_put by congruence. apply Hin in Hh as [Hh|[_ ->]]; [by eapply I5|done].
Qed.

Lemma put_filedBy claims s v hash r p : get s hash = None -> filedOk s -> filedBy claims s ->
  r = v_Round v \/ (exists e, e ∈ claims /\ ve_Data e = v /\ ve_Round e = r) -> filedBy claims (put s v hash r p).
Proof.
  intros Hn Hok Hf Hr q h w Hh. rewrite get_put. rewrite getByRound_put in Hh. destruct (decide (hash = h)) as [Hx|Hx], (decide (r = q)) as [Hq|Hq].
  - intros [= <-]. by subst.
  - intros [= <-]. subst h. apply (fi_stored s Hok) in Hh. rewrite Hn in Hh. by destruct Hh.
  - subst. apply elem_of_app in Hh as [Hh|Hh%list_elem_of_singleton]; [by apply Hf|done].
  - by apply Hf.
Qed.

Lemma put_below top s v hash r p : below top s -> below (Z.max top r) (put s v hash r p).
Proof.
  intros Hb q h. rewrite getByRound_put. case_decide; [subst; intros [Hh%Hb|_]%elem_of_app; lia|]. intros Hh%Hb. lia.
Qed.

(** The fields the other operations touch are not read by the index. *)
Definition sameIndex s s' : Prop := getByRound s' = getByRound s /\ get s' = get s /\ producerAt s' = producerAt s.

Lemma same_filed claims s s' : sameIndex s s' -> filedOk s /\ filedBy claims s -> filedOk s' /\ filedBy claims s'.
Proof. intros (E1 & E2 & E3) [[] Hf]. split; [split|]; unfold filedBy; rewrite ?E1, ?E2, ?E3; done. Qed.

Lemma importVertex_filed claims s e : e ∈ claims -> filedOk s -> filedBy claims s ->
  filedOk (fst (importVertex s e)) /\ filedBy claims (fst (importVertex s e)).
Proof.
  intros He Hok Hf. unfold importVertex. destruct (has s _) eqn:Eh; [done|]. apply has_false in Eh. cbv zeta. cbn [fst].
  assert (Hp : filedOk (put s (ve_Data e) (toHash (v_Hash (ve_Data e))) (ve_Round e) (toHash (v_Producer (ve_Data e)))) /\
    filedBy claims (put s (ve_Data e) (toHash (v_Hash (ve_Data e))) (ve_Round e) (toHash (v_Producer (ve_Data e))))).
  { split; [apply put_filed; [done|done|]|apply put_filedBy; eauto]. intros Hl. rewrite toHash_id by done. by apply hash32_Some. }
  destruct (ve_Committed e); [|done]. by apply (same_filed claims (put s (ve_Data e) (toHash (v_Hash (ve_Data e))) (ve_Round e) (toHash (v_Producer (ve_Data e))))).
Qed.

Lemma importVertex_below top s e : below top s -> below (if snd (importVertex s e) then Z.max top (ve_Round e) else top) (fst (importVertex s e)).
Proof.
  intros Hb. unfold importVertex. destruct (has s _); [done|]. cbv zeta. cbn [fst snd].
  pose proof (put_below top s (ve_Data e) (toHash (v_Hash (ve_Data e))) (ve_Round e) (toHash (v_Producer (ve_Data e))) Hb). by destruct (ve_Committed e).
Qed.

Lemma import_filed claims entries s0 : forall s mx mn, Forall (fun e => e ∈ claims) entries -> latestRound s = latestRound s0 ->
  filedOk s -> filedBy claims s -> below (Z.max (latestRound s0) mx) s ->
  let '(s', mx', _) := foldl importStep (s, mx, mn) entries in
  latestRound s' = latestRound s0 /\ filedOk s' /\ filedBy claims s' /\ below (Z.max (latestRound s0) mx') s'.
Proof.
  induction entries as [|e l IH]; intros s mx mn Hc Hl Hok Hf Hb; cbn [foldl]; [done|]. apply Forall_cons in Hc as [He Hc]. unfold importStep at 2.
  destruct (importVertex_filed claims s e He Hok Hf) as [H1 H2]. pose proof (importVertex_below _ s e Hb) as H3. pose proof (importVertex_latest s e) as H4.
  destruct (importVertex s e) as [s1 added]. cbn [fst snd] in *. apply IH; [done|congruence|done|done|]. intros r h Hh%H3.
  destruct added, (Z.ltb_spec mx (ve_Round e)); cbn [andb] in *; lia.
Qed.

Definition filedStore (claims : list VertexEntry) s : Prop := filedOk s /\ filedBy claims s /\ below (latestRound s) s.

Definition claimsOf (ops : list StoreOp) : list VertexEntry := flat_map (fun op => match op with StImport entries => entries | _ => [] end) ops.

Lemma runStore_filed claims s op : (forall e, e ∈ claimsOf [op] -> e ∈ claims) -> filedStore claims s -> filedStore claims (runStore s op).
Proof.
  intros Hc (Hok & Hf & Hb). destruct op as [v hash|hash|entries]; cbn [runStore].
  - unfold add. destruct (has s hash) eqn:Eh; [done|]. apply has_false in Eh. cbv zeta. cbn [fst].
    assert (Hp : length (v_Producer v) = 32%nat -> hash32 (extractProducer v) = Some (v_Producer v)).
    { intros Hl. unfold extractProducer. rewrite (proj2 (hash32_Some _ _) (conj eq_refl Hl)). cbn. by apply hash32_Some. }
    pose proof (put_filed s v hash (v_Round v) (extractProducer v) Hok Eh Hp) as H1.
    pose proof (put_filedBy claims s v hash (v_Round v) (extractProducer v) Eh Hok Hf (or_introl eq_refl)) as H2.
    pose proof (put_below _ s v hash (v_Round v) (extractProducer v) Hb) as H3.
    change (latestRound (put s v hash (v_Round v) (extractProducer v))) with (latestRound s).
    destruct (Z.ltb_spec (latestRound s) (v_Round v)); (split; [|split]); try done.
    + apply (same_filed claims (put s v hash (v_Round v) (extractProducer v))); done.
    + intros r h Hh%H3. cbn [setLatest latestRound]. lia.
    + intros r h Hh%H3. cbn [put latestRound]. lia.
  - destruct (same_filed claims s (markVertexCommitted s hash)); done.
  - unfold ImportVertices. pose proof (import_filed claims entries s s 0 None) as Hi. destruct (foldl importStep (s, 0, None) entries) as [[s' mx] mn].
    destruct Hi as (Hl & H1 & H2 & H3); [|done|done|done|intros r h Hh%Hb; lia|].
    { apply Forall_forall. intros e He. apply Hc. cbn. by rewrite app_nil_r. }
    cbn [fst]. set (s1 := match mn with Some m => if 0 <? m then setCommitFloor s' (m - 1) else s' | None => s' end).
    assert (Hs1 : sameIndex s' s1 /\ latestRound s1 = latestRound s').
    { unfold s1, setCommitFloor. destruct mn as [m|]; [|done]. destruct (0 <? m); [|done]. by destruct (match commitFloor s' with Some _ => _ | None => _ end). }
    destruct Hs1 as [Hs1 El]. destruct (same_filed claims s' s1 Hs1 (conj H1 H2)) as [H1' H2']. destruct Hs1 as (E1 & _).
    destruct (Z.ltb_spec (latestRound s1) mx).
    + split; [|split]; [apply (same_filed claims s1); done|apply (same_filed claims s1); done|]. intros r h Hh. change (h ∈ getByRound s1 r) in Hh. rewrite E1 in Hh. apply H3 in Hh. cbn [setLatest latestRound]. lia.
    + split; [done|]. split; [done|]. intros r h. rewrite E1. intros Hh%H3. lia.
Qed.

Lemma runs_filed claims ops : forall s, (forall e, e ∈ claimsOf ops -> e ∈ claims) -> filedStore claims s -> filedStore claims (foldl runStore s ops).
Proof.
  induction ops as [|op ops IH]; intros s Hc Hs; [done|]. cbn [foldl]. apply IH.
  - intros e He. apply Hc. cbn. apply elem_of_app. by right.
  - apply runStore_filed; [|done]. intros e He. apply Hc. cbn in *. rewrite app_nil_r in He. apply elem_of_app. by left.
Qed.

Lemma emptyStore_filed claims : filedStore claims emptyStore.
Proof.
  split; [|split].
  - split; intros *; unfold getByRound, get; cbn; rewrite ?lookup_empty; cbn; try (by intros ?%not_elem_of_nil); [by intros []|constructor].
  - intros r h v Hh. unfold getByRound in Hh. cbn in Hh. rewrite lookup_empty in Hh. by apply not_elem_of_nil in Hh.
  - intros r h Hh. unfold getByRound in Hh. cbn in Hh. rewrite lookup_empty in Hh. by apply not_elem_of_nil in Hh.
Qed.

(** C39. Every store built by additions, commit marks and snapshot imports, whatever the
    imported entries claim, lists each stored vertex once, under one round only and with
    its producer when that has 32 bytes, and lists nothing else, below the latest round;
    the round is the vertex's own or the one an imported entry claimed for it, so with
    imports that claim the vertices' own rounds each round lists exactly its vertices;
    stored vertices and committed marks are never lost. *)
Theorem store_wellformed ops :
  let s := foldl runStore emptyStore ops in
  filedOk s /\ filedBy (claimsOf ops) s /\ below (latestRound s) s /\
  (Forall storeOpOk ops -> storeOk s) /\
  forall n, st_vertices (foldl runStore emptyStore (take n ops)) ⊆ st_vertices s /\ committedVertices (foldl runStore emptyStore (take n ops)) ⊆ committedVertices s.
Proof.
  cbv zeta. destruct (runs_filed (claimsOf ops) ops emptyStore (fun e He => He) (emptyStore_filed _)) as (H1 & H2 & H3). split_and!; [done|done|done| |].
  - intros Hops. clear H1 H2 H3. generalize emptyStore_ok. generalize emptyStore. induction Hops as [|op ops Hop Hops IH]; intros s Hs; [done|].
    simpl. by apply IH, runStore_ok.
  - intros n. rewrite <- (take_drop n ops) at 2 4. rewrite !foldl_app. generalize (foldl runStore emptyStore (take n ops)).
    induction (drop n ops) as [|op l IH]; intros s; [done|]. simpl.
    destruct (runStore_grows s op), (IH (runStore s op)). split; by etrans.
Qed.

(** A snapshot that claims round 9 for a vertex of round 4: the vertex is listed in round
    9 and in no other, and the store's latest round is 9. *)
Theorem claimed_round_misfiles :
  let s := runStore emptyStore (StImport [mkEntry 9 (vtx 1 4 1 []) false]) in
  get s (hh 1) = Some (vtx 1 4 1 []) /\ getByRound s 4 = [] /\ getByRound s 9 = [hh 1] /\ latestRound s = 9 /\ commitFloor s = Some 8.
Proof. vm_compute. split_and!; reflexivity. Qed.

Theorem store_sample :
  let s := foldl runStore emptyStore
    [StImport [mkEntry 4 (vtx 1 4 1 []) true; mkEntry 5 (vtx 2 5 2 [1]) false]; StAdd (vtx 3 6 1 [2]) (hh 3); StMark (hh 2)] in
  getByRound s 5 = [hh 2] /\ latestRound s = 6 /\ commitFloor s = Some 3.
Proof. vm_compute. split_and!; reflexivity. Qed.

(** The causal walk ends on every store, cyclic links included: with at least one
    step per stored link plus one it returns, and the result does not depend on the bound.
    *)
Theorem collectCausal_terminates s anchor :
  forall fuel, (walkFuel s <= fuel)%nat ->
  exists r, collectLoop fuel s ∅ [anchor] [] = Some r /\ collectCausal s anchor = r.
Proof.
  intros fuel Hf. destruct (collectCausal_total s anchor) as [r Hr]. exists r. split.
  - by apply (collectLoop_mono (walkFuel s)).
  - unfold collectCausal. by rewrite Hr.
Qed.

(** Two vertices that link each other: the walk still ends. *)
Definition knot : store := addV (addV emptyStore 1 1 1 [2]) 2 1 2 [1].

Theorem collectCausal_terminates_witness :
  exists r, collectLoop 7 knot ∅ [hh 1] [] = Some r /\ collectCausal knot (hh 1) = r.
Proof. apply (collectCausal_terminates knot (hh 1) 7). apply Nat.leb_le. vm_compute. reflexivity. Defined.
