(* ===== verification/Gaps.v ===== *)
(** * Gap recovery (internal/consensus/anchor.go, dag.go, commit.go)

    The walks that name the vertices a stalled commit cursor is missing, through
    the store alone or through the store and the pending buffer. *)

From S2P Require Import Prelude Types Vertices.

Implicit Type s : store.

(** [missingAncestors]: the same walk past every gap. *)
Fixpoint missingLoop (fuel : nat) s (seen : gset Hash) (queue : list Hash) (missing : list Hash) : option (list Hash) :=
  match queue with
  | [] => Some missing
  | hash :: queue =>
      match fuel with
      | O => None
      | S fuel =>
          if bool_decide (hash ∈ seen) || isVertexCommitted s hash then missingLoop fuel s seen queue missing
          else
            let seen := {[ hash ]} ∪ seen in
            match get s hash with
            | None => missingLoop fuel s seen queue (missing ++ [hash])
            | Some vertex =>
                if negb (belowCommitFloor s (v_Round vertex)) then
                  missingLoop fuel s seen (appendParentHashes queue vertex) missing
                else missingLoop fuel s seen queue missing
            end
      end
  end.

Definition missingAncestors s (anchor : Hash) : list Hash :=
  default [] (missingLoop (walkFuel s) s ∅ [anchor] []).

(** [missingFrontierAbove]: the walk seeded with every stored vertex from
    [fromRound] on.  The source ranges over a map, so the order is unspecified. *)
Definition frontierSeeds s (fromRound : Z) : list Hash :=
  concat (map snd (filter (fun kv => fromRound <= kv.1) (map_to_list (byRound s)))).

Definition missingFrontierAbove s (fromRound : Z) : list Hash :=
  let seeds := frontierSeeds s fromRound in
  default [] (missingLoop (length seeds + walkFuel s) s ∅ seeds []).

(** [missingCausalRoots]: the walk through the store and the pending buffer; the
    boolean reports a buffered vertex on the way. *)
Fixpoint rootsLoop (fuel : nat) s (pendingParents : gmap Hash (list Hash)) (seen : gset Hash) (queue : list Hash)
    (missing : list Hash) (throughPending : bool) : option (list Hash * bool) :=
  match queue with
  | [] => Some (missing, throughPending)
  | hash :: queue =>
      match fuel with
      | O => None
      | S fuel =>
          if bool_decide (hash ∈ seen) || isVertexCommitted s hash
          then rootsLoop fuel s pendingParents seen queue missing throughPending
          else
            let seen := {[ hash ]} ∪ seen in
            match get s hash with
            | Some vertex =>
                rootsLoop fuel s pendingParents seen
                  (if negb (belowCommitFloor s (v_Round vertex)) then appendParentHashes queue vertex else queue)
                  missing throughPending
            | None =>
                match pendingParents !! hash with
                | Some parents => rootsLoop fuel s pendingParents seen (queue ++ parents) missing true
                | None => rootsLoop fuel s pendingParents seen queue (missing ++ [hash]) throughPending
                end
            end
      end
  end.

Definition rootsFuel s (pendingParents : gmap Hash (list Hash)) : nat :=
  walkFuel s + Z.to_nat (mapSum (fun l => Z.of_nat (length l)) pendingParents).

Definition missingCausalRoots s (anchor : Hash) (pendingParents : gmap Hash (list Hash)) : list Hash * bool :=
  default ([], false) (rootsLoop (rootsFuel s pendingParents) s pendingParents ∅ [anchor] [] false).


(** ** The pending buffer (dag.go)

    Vertices whose parents or producer are unknown, by hash. *)

Definition pendingParentSnapshot (pending : gmap Hash Vertex) : gmap Hash (list Hash) := parentsOf <$> pending.

Definition missingCausalAncestry s (pending : gmap Hash Vertex) (anchor : Hash) : list Hash * bool :=
  missingCausalRoots s anchor (pendingParentSnapshot pending).

(** [pendingMissingParents]; the source ranges over a map. *)
Definition pendingMissingParents s (pending : gmap Hash Vertex) : list Hash :=
  filter (fun p => negb (bool_decide (is_Some (pending !! p)) || has s p) = true)
    (remove_dups (concat (map (fun kv => parentsOf (snd kv)) (map_to_list pending)))).

Definition highestPendingRound (pending : gmap Hash Vertex) : Z :=
  foldl (fun highest v => if highest <? v_Round v then v_Round v else highest) 0 (map snd (map_to_list pending)).

Definition PurgePendingBeforeRound (pending : gmap Hash Vertex) (minRound : Z) : gmap Hash Vertex * Z :=
  let kept := filter (fun kv => minRound <= v_Round kv.2) pending in
  (kept, Z.of_nat (size pending) - Z.of_nat (size kept)).

(** ** What the walk reaches *)

Section Reach.
Context (s : store) (pend : gmap Hash (list Hash)) (seeds : list Hash).

(** Links followed from a hash: its stored parents above the floor, or the
    buffered parents of a vertex the store lacks. *)
Definition linksOf (hash : Hash) : list Hash :=
  match get s hash with
  | Some v => if negb (belowCommitFloor s (v_Round v)) then parentsOf v else []
  | None => default [] (pend !! hash)
  end.

Inductive Reach : Hash -> Prop :=
| reach_seed h : h ∈ seeds -> Reach h
| reach_link h p : Reach h -> h ∉ committedVertices s -> p ∈ linksOf h -> Reach p.

Definition Absent (h : Hash) : Prop := Reach h /\ h ∉ committedVertices s /\ get s h = None.

(** *** Enough fuel *)

Definition pendingLinks (seen : gset Hash) : Z :=
  pendingParents s seen + mapSum (fun l => Z.of_nat (length l)) (filter (fun kv => kv.1 ∉ seen) pend).

Lemma filter_unseen_insert {A} (m : gmap Hash A) (f : A -> Z) (seen : gset Hash) (h : Hash) (v : A) :
  m !! h = Some v -> h ∉ seen ->
  mapSum f (filter (fun kv => kv.1 ∉ {[ h ]} ∪ seen) m) = mapSum f (filter (fun kv => kv.1 ∉ seen) m) - f v.
Proof using.
  intros Hl Hs. rewrite <- (mapSum_delete f _ h v) by (apply map_lookup_filter_Some; done).
  f_equal. apply map_eq. intros k. rewrite lookup_delete. case_decide as Hk.
  - subst k. apply map_lookup_filter_None. right. intros x _. simpl. set_solver.
  - apply option_eq. intros x. rewrite !map_lookup_filter_Some. simpl. set_solver.
Qed.

Lemma filter_unseen_absent {A} (m : gmap Hash A) (f : A -> Z) (seen : gset Hash) (h : Hash) :
  m !! h = None -> mapSum f (filter (fun kv => kv.1 ∉ {[ h ]} ∪ seen) m) = mapSum f (filter (fun kv => kv.1 ∉ seen) m).
Proof using.
  intros Hl. f_equal. apply map_eq. intros k. apply option_eq. intros x. rewrite !map_lookup_filter_Some. simpl.
  split; intros [Hk Hn]; (split; [done|]); [set_solver|]. intros [->%elem_of_singleton|?]%elem_of_union; [congruence|done].
Qed.

Lemma filter_unseen_le {A} (m : gmap Hash A) (f : A -> Z) (seen : gset Hash) (h : Hash) :
  (forall v, 0 <= f v) -> h ∉ seen ->
  mapSum f (filter (fun kv => kv.1 ∉ {[ h ]} ∪ seen) m) <= mapSum f (filter (fun kv => kv.1 ∉ seen) m).
Proof using.
  intros Hf Hs. destruct (m !! h) as [v|] eqn:E; [rewrite (filter_unseen_insert m f seen h v E Hs); specialize (Hf v); lia|].
  by rewrite filter_unseen_absent.
Qed.

(** A visited hash consumes its links. *)
Lemma pendingLinks_visit (seen : gset Hash) (h : Hash) : h ∉ seen ->
  pendingLinks ({[ h ]} ∪ seen) + Z.of_nat (length (linksOf h)) <= pendingLinks seen.
Proof using.
  intros Hs. unfold pendingLinks, linksOf.
  pose proof (filter_unseen_le pend (fun l => Z.of_nat (length l)) seen h (fun l => Nat2Z.is_nonneg (length l)) Hs) as Hp.
  destruct (get s h) as [v|] eqn:Eg.
  - rewrite (pendingParents_visit s seen h v Hs Eg).
    destruct (negb _); unfold parentsOf, appendParentHashes; rewrite ?app_nil_l, ?length_map; simpl length; lia.
  - assert (pendingParents s ({[ h ]} ∪ seen) = pendingParents s seen) as -> by (apply filter_unseen_absent, Eg).
    destruct (pend !! h) as [l|] eqn:El; simpl default; [|simpl length; lia].
    rewrite (filter_unseen_insert pend _ seen h l El Hs). lia.
Qed.

Lemma pendingLinks_nonneg seen : 0 <= pendingLinks seen.
Proof using.
  unfold pendingLinks. pose proof (pendingParents_nonneg s seen).
  pose proof (mapSum_nonneg (fun l : list Hash => Z.of_nat (length l)) (filter (fun kv => kv.1 ∉ seen) pend) ltac:(intros k v _; lia)). lia.
Qed.

(** One step of the walk. *)
Lemma rootsLoop_step fuel seen h queue missing through :
  rootsLoop (S fuel) s pend seen (h :: queue) missing through =
  if bool_decide (h ∈ seen) || isVertexCommitted s h then rootsLoop fuel s pend seen queue missing through
  else rootsLoop fuel s pend ({[ h ]} ∪ seen) (queue ++ linksOf h)
         (if bool_decide (get s h = None /\ pend !! h = None) then missing ++ [h] else missing)
         (through || bool_decide (get s h = None /\ is_Some (pend !! h))).
Proof using.
  cbn [rootsLoop]. destruct (_ || _); [done|]. unfold linksOf. destruct (get s h) as [v|] eqn:Eg.
  - rewrite !bool_decide_eq_false_2 by (by intros [? _]). rewrite orb_false_r. destruct (negb _); [done|by rewrite app_nil_r].
  - destruct (pend !! h) as [l|] eqn:El.
    + rewrite bool_decide_eq_false_2 by (by intros [_ ?]). rewrite bool_decide_eq_true_2 by eauto. by rewrite orb_true_r.
    + rewrite bool_decide_eq_true_2 by done. rewrite bool_decide_eq_false_2 by (by intros [_ [? ?]]).
      rewrite orb_false_r. simpl. by rewrite app_nil_r.
Qed.

Lemma rootsLoop_total fuel seen queue missing through :
  Z.of_nat (length queue) + pendingLinks seen <= Z.of_nat fuel -> is_Some (rootsLoop fuel s pend seen queue missing through).
Proof using.
  revert seen queue missing through. induction fuel as [|fuel IH]; intros seen [|h queue] missing through Hf; try (simpl; eauto; fail).
  { pose proof (pendingLinks_nonneg seen). cbn [length] in Hf. lia. }
  rewrite rootsLoop_step. cbn [length] in Hf. destruct (bool_decide (h ∈ seen)) eqn:Es; simpl; [apply IH; lia|].
  destruct (isVertexCommitted s h); [apply IH; lia|]. apply bool_decide_eq_false in Es.
  pose proof (pendingLinks_visit seen h Es). apply IH. rewrite length_app. lia.
Qed.

(** *** The invariant *)

Record gapInv (seen : gset Hash) (queue missing : list Hash) (through : bool) : Prop := {
  gi_seen : forall h, h ∈ seen -> Reach h /\ h ∉ committedVertices s;
  gi_queue : forall h, h ∈ queue -> Reach h;
  gi_seeds : forall h, h ∈ seeds -> h ∈ seen \/ h ∈ committedVertices s \/ h ∈ queue;
  gi_closed : forall h p, h ∈ seen -> p ∈ linksOf h -> p ∈ seen \/ p ∈ committedVertices s \/ p ∈ queue;
  gi_missing : forall h, h ∈ missing <-> h ∈ seen /\ get s h = None /\ pend !! h = None;
  gi_nodup : NoDup missing;
  gi_through : through = true <-> exists h, h ∈ seen /\ get s h = None /\ is_Some (pend !! h);
}.

Lemma gapInv_skip seen h queue missing through :
  gapInv seen (h :: queue) missing through -> h ∈ seen \/ h ∈ committedVertices s -> gapInv seen queue missing through.
Proof using.
  intros [A1 A2 A3 A4 A5 A6 A7] Hh. split; auto.
  - intros x Hx. apply A2. by right.
  - intros x Hx. specialize (A3 x Hx). rewrite elem_of_cons in A3. destruct A3 as [|[|[->|]]]; tauto.
  - intros x p Hx Hp. specialize (A4 x p Hx Hp). rewrite elem_of_cons in A4. destruct A4 as [|[|[->|]]]; tauto.
Qed.

Lemma gapInv_visit seen h queue missing through :
  gapInv seen (h :: queue) missing through -> h ∉ seen -> h ∉ committedVertices s ->
  gapInv ({[ h ]} ∪ seen) (queue ++ linksOf h)
    (if bool_decide (get s h = None /\ pend !! h = None) then missing ++ [h] else missing)
    (through || bool_decide (get s h = None /\ is_Some (pend !! h))).
Proof using.
  intros [A1 A2 A3 A4 A5 A6 A7] Hs Hc. pose proof (A2 h ltac:(by left)) as Hr. split.
  - intros x [->%elem_of_singleton|Hx]%elem_of_union; [done|by apply A1].
  - intros x [Hx|Hx]%elem_of_app; [apply A2; by right|]. by apply (reach_link h).
  - intros x Hx. specialize (A3 x Hx). rewrite elem_of_cons in A3. rewrite elem_of_union, elem_of_singleton, elem_of_app. tauto.
  - intros x p Hx Hp. rewrite elem_of_union, elem_of_singleton, elem_of_app.
    apply elem_of_union in Hx as [->%elem_of_singleton|Hx]; [tauto|].
    specialize (A4 x p Hx Hp). rewrite elem_of_cons in A4. tauto.
  - intros x. rewrite elem_of_union, elem_of_singleton. case_bool_decide as Hb.
    + rewrite elem_of_app, list_elem_of_singleton, A5. split; [|tauto]. intros [?| ->]; tauto.
    + rewrite A5. split; [tauto|]. intros [[->|?] ?]; tauto.
  - case_bool_decide; [|done]. apply NoDup_app. split_and!; [done| |apply NoDup_singleton].
    intros x Hx ->%list_elem_of_singleton. by apply A5 in Hx as [? _].
  - rewrite orb_true_iff, A7, bool_decide_eq_true. split.
    + intros [(x & Hx & ?)|[? ?]]; [exists x|exists h]; set_solver.
    + intros (x & [->%elem_of_singleton|Hx]%elem_of_union & ?); [by right|left; eauto].
Qed.

Lemma rootsLoop_spec fuel seen queue missing through r :
  gapInv seen queue missing through -> rootsLoop fuel s pend seen queue missing through = Some r ->
  exists seen', gapInv seen' [] (fst r) (snd r).
Proof using.
  revert seen queue missing through. induction fuel as [|fuel IH]; intros seen [|h queue] missing through HI Hc.
  1, 3: injection Hc as <-; eauto.
  { done. }
  rewrite rootsLoop_step in Hc. destruct (bool_decide (h ∈ seen)) eqn:Es; simpl in Hc.
  { apply bool_decide_eq_true in Es. apply (IH _ _ _ _ (gapInv_skip _ _ _ _ _ HI ltac:(by left)) Hc). }
  destruct (isVertexCommitted s h) eqn:Ec.
  { apply bool_decide_eq_true in Ec. apply (IH _ _ _ _ (gapInv_skip _ _ _ _ _ HI ltac:(by right)) Hc). }
  apply bool_decide_eq_false in Es. apply bool_decide_eq_false in Ec.
  apply (IH _ _ _ _ (gapInv_visit _ _ _ _ _ HI Es Ec) Hc).
Qed.

Lemma gap_init : gapInv ∅ seeds [] false.
Proof using.
  split; try set_solver.
  - intros h Hh. by apply reach_seed.
  - constructor.
Qed.

(** The final state of the walk names exactly the absent roots. *)
Lemma gap_final seen missing through :
  gapInv seen [] missing through ->
  NoDup missing /\ (forall h, h ∈ missing <-> Absent h /\ pend !! h = None) /\
  (through = true <-> exists h, Absent h /\ is_Some (pend !! h)).
Proof using.
  intros [A1 A2 A3 A4 A5 A6 A7].
  assert (Hall : forall h, Reach h -> h ∈ seen \/ h ∈ committedVertices s).
  { intros h Hr. induction Hr as [h Hs|h p Hr IH Hc Hp].
    - destruct (A3 h Hs) as [|[|?%not_elem_of_nil]]; tauto.
    - destruct IH as [IH|]; [|done]. destruct (A4 h p IH Hp) as [|[|?%not_elem_of_nil]]; tauto. }
  assert (Hseen : forall h, h ∈ seen <-> Reach h /\ h ∉ committedVertices s).
  { intros h. split; [apply A1|]. intros [Hr Hc]. by destruct (Hall h Hr). }
  unfold Absent. split_and!; [done| |].
  - intros h. rewrite A5, Hseen. tauto.
  - rewrite A7. split; intros (h & H); exists h; rewrite Hseen in *; tauto.
Qed.

End Reach.

(** ** The three walks *)

Lemma rootsFuel_enough s (pend : gmap Hash (list Hash)) (anchor : Hash) :
  Z.of_nat (length [anchor]) + pendingLinks s pend ∅ <= Z.of_nat (rootsFuel s pend).
Proof.
  unfold rootsFuel, walkFuel, pendingLinks, pendingParents. rewrite !map_filter_id by set_solver.
  pose proof (mapSum_nonneg (fun v => Z.of_nat (length (v_Parents v))) (st_vertices s) ltac:(intros k v _; lia)).
  pose proof (mapSum_nonneg (fun l : list Hash => Z.of_nat (length l)) pend ltac:(intros k v _; lia)).
  cbn [length]. lia.
Qed.

(** Gap recovery names, once each, exactly the absent vertices reachable from the
    anchor through the store and the pending buffer that are not buffered themselves, and
    reports whether it crossed the buffer; a batch that fails always leaves something to
    fetch. *)
Theorem missing_roots_exact s (anchor : Hash) (pend : gmap Hash (list Hash)) :
  let '(missing, throughPending) := missingCausalRoots s anchor pend in
  NoDup missing /\ (forall h, h ∈ missing <-> Absent s pend [anchor] h /\ pend !! h = None) /\
  (throughPending = true <-> exists h, Absent s pend [anchor] h /\ is_Some (pend !! h)) /\
  (causalBatch s anchor = None -> missing ≠ [] \/ throughPending = true).
Proof.
  unfold missingCausalRoots.
  destruct (rootsLoop_total s pend (rootsFuel s pend) ∅ [anchor] [] false (rootsFuel_enough s pend anchor)) as [[missing through] Er].
  rewrite Er. cbn [from_option id].
  destruct (rootsLoop_spec s pend [anchor] _ _ _ _ _ _ (gap_init s pend [anchor]) Er) as [seen HI]. cbn [fst snd] in HI.
  destruct (gap_final s pend [anchor] seen missing through HI) as (H1 & H2 & H3).
  split_and!; [done|done|done|]. intros Hb.
  pose proof (collectCausal_spec s anchor) as Hsp. unfold causalBatch in Hb.
  destruct (collectCausal s anchor) as [l|]; [done|]. destruct Hsp as (h & Hv & Hc & Hg).
  assert (Ha : Absent s pend [anchor] h).
  { split_and!; [|done|done]. clear Hg. induction Hv as [|h v p Hv IH Hn Hgh Hbf Hp]; [apply reach_seed; left|].
    apply (reach_link s pend [anchor] h); [by apply IH|done|]. unfold linksOf. rewrite Hgh, Hbf. done. }
  destruct (pend !! h) as [l|] eqn:El.
  - right. apply H3. exists h. rewrite El. eauto.
  - left. intros ->. by apply (not_elem_of_nil h), H2.
Qed.

(** With an empty buffer the two walks are one. *)
Lemma rootsLoop_empty fuel s seen queue missing :
  rootsLoop fuel s ∅ seen queue missing false = (fun m => (m, false)) <$> missingLoop fuel s seen queue missing.
Proof.
  revert seen queue missing. induction fuel as [|fuel IH]; intros seen [|h queue] missing; try done.
  cbn [rootsLoop missingLoop]. destruct (_ || _); [apply IH|]. destruct (get s h) as [v|].
  - destruct (negb _); apply IH.
  - rewrite lookup_empty. apply IH.
Qed.

Theorem missingAncestors_roots s anchor : missingCausalRoots s anchor ∅ = (missingAncestors s anchor, false).
Proof.
  unfold missingCausalRoots, missingAncestors, rootsFuel. rewrite rootsLoop_empty.
  assert (Z.to_nat (mapSum (fun l : list Hash => Z.of_nat (length l)) (∅ : gmap Hash (list Hash))) = 0%nat) as -> by done.
  rewrite Nat.add_0_r. by destruct (missingLoop _ _ _ _ _).
Qed.

(** The frontier walk, from every stored vertex of the rounds above. *)
Lemma missingFrontierAbove_exact s fromRound :
  let missing := missingFrontierAbove s fromRound in
  NoDup missing /\ forall h, h ∈ missing <-> Absent s ∅ (frontierSeeds s fromRound) h.
Proof.
  cbv zeta. unfold missingFrontierAbove. set (seeds := frontierSeeds s fromRound).
  assert (Hf : Z.of_nat (length seeds) + pendingLinks s ∅ ∅ <= Z.of_nat (length seeds + walkFuel s)).
  { pose proof (rootsFuel_enough s ∅ []) as H. unfold rootsFuel in H.
    assert (Z.to_nat (mapSum (fun l : list Hash => Z.of_nat (length l)) (∅ : gmap Hash (list Hash))) = 0%nat) as E by done.
    rewrite E in H. cbn [length] in H. lia. }
  destruct (rootsLoop_total s ∅ (length seeds + walkFuel s) ∅ seeds [] false Hf) as [r Er].
  pose proof Er as Er'. rewrite rootsLoop_empty in Er'.
  destruct (missingLoop (length seeds + walkFuel s) s ∅ seeds []) as [m|]; [|done]. injection Er' as <-. cbn [from_option id].
  destruct (rootsLoop_spec s ∅ seeds _ _ _ _ _ _ (gap_init s ∅ seeds) Er) as [seen HI]. cbn [fst snd] in HI.
  destruct (gap_final s ∅ seeds seen m false HI) as (H1 & H2 & _). split; [done|]. intros h. rewrite H2, lookup_empty. split; [by intros [? _]|done].
Qed.

(** Vertex 4 is held, its parent 3 is buffered behind the absent 2. *)
Example buffered_gap :
  missingCausalRoots (addV emptyStore 4 2 1 [3]) (hh 4) {[ hh 3 := [hh 2] ]} = ([hh 2], true).
Proof. vm_compute. reflexivity. Qed.
