(* ===== verification/Anchor.v ===== *)
(** * The anchor rule (internal/consensus/anchor.go, anchor_decision.go)

    Which vertex a round commits.  The designated producer comes from the frozen
    committee; the verdict from the citations of the next round; an undecided
    round is resolved by the first certified anchor above it. *)

From S2P Require Import Prelude Types Fees Validators Stake Storage Tracker Domains Staged Coins Ledger Ops Dag Vertices.

Implicit Type s : store.

(** ** Data *)

Inductive anchorDecision :=
| anchorWait
| anchorCommit (anchor : Hash)
| anchorSkip.

Inductive anchorVerdict := verdictWait | verdictUndecided | verdictCertified | verdictBlamed.

Record citationTally := mkTally {
  supporters : gmap Hash (gset Hash);
  blamers : gset Hash;
}.

Definition anchorDomain : bytes := str "bluepods/anchor/v1".
Definition anchorSilenceSpanRounds : Z := 20.

(** ** Citations *)

Definition designatedVertexSet s (round : Z) (producer : Hash) : gset Hash :=
  list_to_set (fst (getByRoundProducer s round producer)).

Definition collectCitedCandidates (vertex : Vertex) (candidates votes : gset Hash) : gset Hash :=
  foldl (fun votes parent => if bool_decide (parent ∈ candidates) then {[ parent ]} ∪ votes else votes)
        votes (appendParentHashes [] vertex).

(** One vertex of the round: its citations join its producer's. *)
Definition citeStep s (candidates : gset Hash) (result : gmap Hash (gset Hash)) (hash : Hash) : gmap Hash (gset Hash) :=
  match get s hash with
  | None => result
  | Some vertex =>
      let producer := extractProducer vertex in
      let votes := default ∅ (result !! producer) in
      <[producer := collectCitedCandidates vertex candidates votes]> result
  end.

Definition citationsByProducer s (round : Z) (candidates : gset Hash) : gmap Hash (gset Hash) :=
  foldl (citeStep s candidates) ∅ (getByRound s round).

Definition addSupporter (m : gmap Hash (gset Hash)) (v p : Hash) : gmap Hash (gset Hash) :=
  <[v := {[ p ]} ∪ default ∅ (m !! v)]> m.

Definition tallyStep (tally : citationTally) (pv : Hash * gset Hash) : citationTally :=
  let '(p, votes) := pv in
  if bool_decide (votes = ∅) then mkTally (supporters tally) ({[ p ]} ∪ blamers tally)
  else mkTally (foldl (fun m v => addSupporter m v p) (supporters tally) (elements votes)) (blamers tally).

Definition tallyCitations s (round : Z) (producer : Hash) : citationTally :=
  let candidates := designatedVertexSet s round producer in
  let cited := citationsByProducer s (round +w 1) candidates in
  foldl tallyStep (mkTally ∅ ∅) (map_to_list cited).

(** [sortedHashKeys]. *)
Definition sortedHashKeys (m : gmap Hash (gset Hash)) : list Hash := sortHashes (map fst (map_to_list m)).

Definition supportersOf (tally : citationTally) (v : Hash) : gset Hash := default ∅ (supporters tally !! v).

(** The order of the candidates' hashes decides, never the local view. *)
Definition verdictFromTally (cap : Z) (set : ValidatorSet) (tally : citationTally) (relaxed : bool)
    : anchorVerdict * Hash :=
  match List.find (fun v => certifies cap set (supportersOf tally v) relaxed) (sortedHashKeys (supporters tally)) with
  | Some v => (verdictCertified, v)
  | None =>
      if negb relaxed && reachesStrictQuorum cap set (blamers tally) then (verdictBlamed, zeroHash)
      else (verdictUndecided, zeroHash)
  end.

(** [decideMembership]: candidates are hash-ascending. *)
Definition decideMembership (candidates history : list Hash) : anchorDecision :=
  match List.find (fun x => bool_decide (x ∈ history)) candidates with
  | Some x => anchorCommit x
  | None => anchorSkip
  end.

Section Anchor.
Context {M : Type} (X : Crypto) (c : Config) (d : DAG M) (s : store).

(** ** Designation *)

Definition anchorProducerFor (round : Z) : option Hash :=
  let epoch := commitEpochForRound c round in
  match HoldersForEpoch d epoch with
  | None => None
  | Some holders =>
      if Len holders =? 0 then None
      else
        let keys := eligibleKeys holders (eligibleForEpoch d epoch) in
        let hash := blake3 X (anchorDomain ++ le_enc 8 round) in
        let idx := le_dec (take 8 hash) mod Z.of_nat (length keys) in
        keys !! Z.to_nat idx
  end.

(** The stake set that weighs the citations of a round's anchor. *)
Definition citersOf (round : Z) : option ValidatorSet := HoldersForEpoch d (commitEpochForRound c (round +w 1)).

Definition directAnchorVerdict (round : Z) : anchorVerdict * Hash :=
  match anchorProducerFor round with
  | None => (verdictWait, zeroHash)
  | Some producer =>
      match citersOf round with
      | None => (verdictWait, zeroHash)
      | Some set =>
          verdictFromTally (votingCapMille c) set (tallyCitations s round producer) (roundIsRelaxed c d round)
      end
  end.

(** ** Impossibility *)

Definition silentHolders (set : ValidatorSet) (frontier : Z) : gset Hash :=
  let horizon := frontier +w anchorSilenceSpanRounds in
  if highestRound s <? horizon then ∅
  else
    let seen := producersInRange s frontier horizon in
    list_to_set (filter (fun pk => pk ∉ seen) (map Pubkey (All set))).

Definition deadDesignatedProducer (round : Z) : bool :=
  match anchorProducerFor round with
  | None => false
  | Some producer =>
      match citersOf round with
      | None => false
      | Some set =>
          if negb (Nat.eqb (size (designatedVertexSet s round producer)) 0) then false
          else bool_decide (producer ∈ silentHolders set (round +w 1))
      end
  end.

(** [certImpossibility]: impossible, and by blame alone. *)
Definition certImpossibility (round : Z) : bool * bool :=
  if deadDesignatedProducer round then (true, false)
  else if roundIsRelaxed c d round then (false, false)
  else match anchorProducerFor round with
  | None => (false, false)
  | Some producer =>
      match citersOf round with
      | None => (false, false)
      | Some set =>
          let tally := tallyCitations s round producer in
          if certificationRuledOut (votingCapMille c) set (blamers tally) then (true, true)
          else
            let silent := silentHolders set (round +w 1) in
            if Nat.eqb (size silent) 0 then (false, false)
            else if certificationRuledOut (votingCapMille c) set (blamers tally ∪ silent) then (true, false)
            else (false, false)
      end
  end.

Definition anchorCertImpossible (round : Z) : bool := fst (certImpossibility round).

Definition designatedRoundVertices (round : Z) : list Hash * bool :=
  match anchorProducerFor round with
  | None => ([], false)
  | Some producer => getByRoundProducer s round producer
  end.

Definition vertexCitesCandidate (hash : Hash) (candidates : gset Hash) : bool :=
  match get s hash with
  | None => false
  | Some vertex => existsb (fun parent => bool_decide (parent ∈ candidates)) (appendParentHashes [] vertex)
  end.

Definition adjacentCertifyAgrees (round r : Z) : bool :=
  if deadDesignatedProducer round then true
  else match anchorProducerFor round with
  | None => false
  | Some producer =>
      let candidates := designatedVertexSet s round producer in
      if negb (Nat.eqb (size candidates) 1) then false
      else match designatedRoundVertices r with
      | (_, false) => false
      | (rVertices, true) => forallb (fun rv => vertexCitesCandidate rv candidates) rVertices
      end
  end.

(** [scanPastUndecided]: the boolean is [true] when the scan may continue; the
    decision returned otherwise is always to wait. *)
Definition scanPastUndecided (round r : Z) : bool :=
  let '(impossible, byBlame) := certImpossibility r in
  if negb impossible then false
  else if negb byBlame && (r =? round +w 1) && negb (adjacentCertifyAgrees round r) then false
  else true.

(** ** The indirect rule *)

Definition relaxedSupporterStillPossible (round : Z) (producer : Hash) : bool :=
  match citersOf round with
  | None => false
  | Some set =>
      let bl := blamers (tallyCitations s round producer) in
      let silent := silentHolders set (round +w 1) in
      existsb (fun v => negb (bool_decide (Pubkey v ∈ bl)) && negb (bool_decide (Pubkey v ∈ silent))) (All set)
  end.

Definition resolveIndirect (round : Z) (certified : Hash) : anchorDecision :=
  match anchorProducerFor round with
  | None => anchorWait
  | Some producer =>
      match getByRoundProducer s round producer with
      | (_, false) =>
          if roundIsRelaxed c d round && negb (deadDesignatedProducer round) then anchorWait else anchorSkip
      | (candidates, true) =>
          match causalBatch s certified with
          | None => anchorWait
          | Some history =>
              match decideMembership candidates history with
              | anchorSkip =>
                  if roundIsRelaxed c d round && relaxedSupporterStillPossible round producer
                  then anchorWait else anchorSkip
              | dec => dec
              end
          end
      end
  end.

(** ** The decision *)

(** The loop of [anchorStatus] over [r], the rounds still to scan. *)
Fixpoint scanRounds (round : Z) (rs : list Z) : anchorDecision :=
  match rs with
  | [] => anchorWait
  | r :: rs =>
      match directAnchorVerdict r with
      | (verdictCertified, vertex) => if r =? round then anchorCommit vertex else resolveIndirect round vertex
      | (verdictBlamed, _) => if r =? round then anchorSkip else scanRounds round rs
      | (verdictUndecided, _) =>
          if r =? round then scanRounds round rs
          else if scanPastUndecided round r then scanRounds round rs else anchorWait
      | (verdictWait, _) => anchorWait
      end
  end.

Definition anchorStatus (round : Z) : anchorDecision :=
  scanRounds round (seqZ round (highestRound s - round + 1)).

End Anchor.

(** ** Who cites whom *)

(** A stored vertex of [p] at round [r] has [x] among its parents. *)
Definition Cites s (r : Z) (p x : Hash) : Prop :=
  exists h v, h ∈ getByRound s r /\ get s h = Some v /\ extractProducer v = p /\ x ∈ parentsOf v.

(** [p] has a stored vertex at round [r]. *)
Definition Produced s (r : Z) (p : Hash) : Prop :=
  exists h v, h ∈ getByRound s r /\ get s h = Some v /\ extractProducer v = p.

Lemma collectCited_elem v cands votes x :
  x ∈ collectCitedCandidates v cands votes <-> x ∈ votes \/ x ∈ cands /\ x ∈ parentsOf v.
Proof.
  unfold collectCitedCandidates. change (appendParentHashes [] v) with (parentsOf v).
  revert votes. induction (parentsOf v) as [|p l IH]; intros votes; simpl; [set_solver|].
  rewrite IH. case_bool_decide; set_solver.
Qed.

(** The accumulator of [citationsByProducer] over a list of hashes. *)
Lemma citations_fold s (cands : gset Hash) (l : list Hash) (m : gmap Hash (gset Hash)) (p : Hash) :
  let res := foldl (citeStep s cands) m l in
  (is_Some (res !! p) <-> is_Some (m !! p) \/ exists h v, h ∈ l /\ get s h = Some v /\ extractProducer v = p) /\
  (forall x, x ∈ default ∅ (res !! p) <-> x ∈ default ∅ (m !! p) \/
     x ∈ cands /\ exists h v, h ∈ l /\ get s h = Some v /\ extractProducer v = p /\ x ∈ parentsOf v).
Proof.
  cbv zeta. revert m. induction l as [|h l IH]; intros m; cbn [foldl].
  { split; [|intros x]; set_solver. }
  unfold citeStep at 2 4. destruct (get s h) as [v|] eqn:Eg.
  - destruct (IH (<[extractProducer v := collectCitedCandidates v cands (default ∅ (m !! extractProducer v))]> m)) as [I1 I2].
    split; [rewrite I1|intros x; rewrite I2]; rewrite lookup_insert.
    + case_decide as Hp; [subst p|]; split.
      * intros _. right. exists h, v. set_solver.
      * eauto.
      * intros [?|(h' & v' & Hin & ?)]; [by left|right]. exists h', v'. set_solver.
      * intros [?|(h' & v' & [->|Hin]%elem_of_cons & Hg & He)]; [by left|congruence|right; eauto].
    + case_decide as Hp; [subst p|].
      * simpl. rewrite collectCited_elem. split.
        -- intros [[?|[? ?]]|(? & h' & v' & ? & ?)]; [by left| |]; right; split; try done;
             [exists h, v|exists h', v']; set_solver.
        -- intros [?|(Hc & h' & v' & [->|Hin]%elem_of_cons & Hg & He & Hx)]; [tauto| |].
           ++ simplify_eq. tauto.
           ++ right. eauto 10.
      * split.
        -- intros [?|(? & h' & v' & ? & ?)]; [by left|]. right. split; [done|]. exists h', v'. set_solver.
        -- intros [?|(Hc & h' & v' & [->|Hin]%elem_of_cons & Hg & He & Hx)]; [by left|congruence|]. right. eauto 10.
  - destruct (IH m) as [I1 I2]. split; [rewrite I1|intros x; rewrite I2].
    + split; (intros [?|(h' & v' & Hin & Hg & He)]; [by left|]); right; exists h', v'; [set_solver|].
      apply elem_of_cons in Hin as [->|]; [congruence|done].
    + split; (intros [?|(Hc & h' & v' & Hin & Hg & He)]; [by left|]); right; (split; [done|]); exists h', v'; [set_solver|].
      apply elem_of_cons in Hin as [->|]; [congruence|done].
Qed.

Lemma citations_produced s r cands p : is_Some (citationsByProducer s r cands !! p) <-> Produced s r p.
Proof.
  unfold citationsByProducer, Produced. rewrite (proj1 (citations_fold s cands (getByRound s r) ∅ p)).
  rewrite lookup_empty. split; [intros [[? ?]|?]; [done|done]|by right].
Qed.

Lemma citations_cites s r cands p x :
  x ∈ default ∅ (citationsByProducer s r cands !! p) <-> x ∈ cands /\ Cites s r p x.
Proof.
  unfold citationsByProducer, Cites. rewrite (proj2 (citations_fold s cands (getByRound s r) ∅ p)).
  rewrite lookup_empty. simpl. set_solver.
Qed.

(** *** The tally *)

Lemma addSupporter_elem (m : gmap Hash (gset Hash)) v p w q :
  q ∈ default ∅ (addSupporter m v p !! w) <-> q ∈ default ∅ (m !! w) \/ q = p /\ w = v.
Proof. unfold addSupporter. rewrite lookup_insert. case_decide as E; simpl; [subst|]; set_solver. Qed.

Lemma addSupporters_elem (l : list Hash) (m : gmap Hash (gset Hash)) p w q :
  q ∈ default ∅ (foldl (fun m v => addSupporter m v p) m l !! w) <-> q ∈ default ∅ (m !! w) \/ q = p /\ w ∈ l.
Proof. revert m. induction l as [|v l IH]; intros m; simpl; [set_solver|]. rewrite IH, addSupporter_elem. set_solver. Qed.

Lemma addSupporters_dom (l : list Hash) (m : gmap Hash (gset Hash)) p w :
  is_Some (foldl (fun m v => addSupporter m v p) m l !! w) <-> is_Some (m !! w) \/ w ∈ l.
Proof.
  revert m. induction l as [|v l IH]; intros m; simpl; [set_solver|]. rewrite IH. unfold addSupporter.
  rewrite lookup_insert. case_decide as E; [subst|]; rewrite elem_of_cons; [|naive_solver].
  split; [|eauto]. intros _. right. by left.
Qed.

Lemma votes_cons (l : list (Hash * gset Hash)) p vs (q w : Hash) :
  (exists votes, (q, votes) ∈ (p, vs) :: l /\ w ∈ votes) <-> q = p /\ w ∈ vs \/ exists votes, (q, votes) ∈ l /\ w ∈ votes.
Proof.
  split.
  - intros (votes & [[= -> ->]|Hin]%elem_of_cons & Hw); eauto.
  - intros [[-> Hw]|(votes & Hin & Hw)]; [exists vs|exists votes]; rewrite elem_of_cons; auto.
Qed.

Lemma tally_fold (l : list (Hash * gset Hash)) t :
  let res := foldl tallyStep t l in
  (forall w q, q ∈ supportersOf res w <-> q ∈ supportersOf t w \/ exists votes, (q, votes) ∈ l /\ w ∈ votes) /\
  (forall q, q ∈ blamers res <-> q ∈ blamers t \/ (q, ∅) ∈ l) /\
  (forall w, is_Some (supporters res !! w) <-> is_Some (supporters t !! w) \/ exists q votes, (q, votes) ∈ l /\ w ∈ votes).
Proof.
  cbv zeta. revert t. induction l as [|[p votes] l IH]; intros t; cbn [foldl].
  { split_and!; intros; (split; [by left|intros [?|H]; [done|]]); destruct_and?;
      repeat match goal with H : exists _, _ |- _ => destruct H | H : _ /\ _ |- _ => destruct H end; by apply not_elem_of_nil in H. }
  destruct (IH (tallyStep t (p, votes))) as (I1 & I2 & I3). unfold tallyStep in *. case_bool_decide as Ev.
  - subst votes. cbn [blamers] in *. split_and!.
    + intros w q. rewrite I1, votes_cons. unfold supportersOf. cbn [supporters]. pose proof (not_elem_of_empty (C := gset Hash) w). tauto.
    + intros q. rewrite I2, elem_of_union, elem_of_singleton, elem_of_cons. intuition congruence.
    + intros w. rewrite I3. cbn [supporters]. apply or_iff_compat_l. setoid_rewrite votes_cons.
      split; intros (q & H); exists q; [by right|]. destruct H as [[_ ?%elem_of_empty]|H]; done.
  - cbn [blamers] in *. split_and!.
    + intros w q. rewrite I1, votes_cons. unfold supportersOf. cbn [supporters].
      rewrite addSupporters_elem, elem_of_elements. tauto.
    + intros q. rewrite I2, elem_of_cons. split; [tauto|]. intros [?|[[= _ E]|?]]; [tauto|congruence|tauto].
    + intros w. rewrite I3. cbn [supporters]. rewrite addSupporters_dom, elem_of_elements. setoid_rewrite votes_cons.
      split; [intros [[?|?]|(q & ?)]|intros [?|(q & [[-> ?]|?])]]; eauto 10.
Qed.

Section TallyFacts.
Context (s : store) (round : Z) (producer : Hash).

Lemma supporters_cites w q :
  q ∈ supportersOf (tallyCitations s round producer) w <->
  w ∈ designatedVertexSet s round producer /\ Cites s (round +w 1) q w.
Proof.
  unfold tallyCitations. rewrite (proj1 (tally_fold _ _)), <- (citations_cites s _ (designatedVertexSet s round producer)).
  unfold supportersOf at 1. simpl. rewrite lookup_empty. simpl. split.
  - intros [?%elem_of_empty|(votes & Hin & Hw)]; [done|]. apply elem_of_map_to_list in Hin. by rewrite Hin.
  - intros Hw. right. destruct (citationsByProducer _ _ _ !! q) as [votes|] eqn:E; [|by apply elem_of_empty in Hw].
    exists votes. split; [by apply elem_of_map_to_list|done].
Qed.

Lemma blamers_cites q :
  q ∈ blamers (tallyCitations s round producer) <->
  Produced s (round +w 1) q /\ forall w, w ∈ designatedVertexSet s round producer -> ~ Cites s (round +w 1) q w.
Proof.
  unfold tallyCitations. rewrite (proj1 (proj2 (tally_fold _ _))), elem_of_map_to_list.
  rewrite <- (citations_produced s _ (designatedVertexSet s round producer)). simpl. split.
  - intros [?%elem_of_empty|E]; [done|]. split; [by rewrite E|]. intros w Hd Hc.
    pose proof (proj2 (citations_cites s _ _ q w) (conj Hd Hc)) as H. rewrite E in H. by apply elem_of_empty in H.
  - intros [[votes E] Hn]. right. rewrite E. f_equal. apply set_eq. intros w. split; [|by intros ?%elem_of_empty].
    intros Hw. exfalso. pose proof (citations_cites s (round +w 1) (designatedVertexSet s round producer) q w) as H.
    rewrite E in H. simpl in H. apply H in Hw as [Hd Hc]. by apply (Hn w).
Qed.

Lemma supporters_keys w :
  w ∈ sortedHashKeys (supporters (tallyCitations s round producer)) -> w ∈ designatedVertexSet s round producer.
Proof.
  unfold sortedHashKeys, sortHashes. rewrite merge_sort_Permutation, list_elem_of_fmap.
  intros ([w' ps] & -> & Hin). apply elem_of_map_to_list in Hin. simpl.
  destruct (proj1 (proj2 (proj2 (tally_fold (map_to_list (citationsByProducer s (round +w 1) (designatedVertexSet s round producer)))
    (mkTally ∅ ∅))) w')) as [[? ?]|(q & votes & Hq & Hw)]; [unfold tallyCitations in Hin; by rewrite Hin|done|].
  apply elem_of_map_to_list in Hq.
  pose proof (citations_cites s (round +w 1) (designatedVertexSet s round producer) q w') as H.
  rewrite Hq in H. by apply H in Hw as [? _].
Qed.

End TallyFacts.

(** In an indexed store the candidates are the producer's vertices of the round. *)
Lemma designated_elem s round producer h :
  storeOk s -> h ∈ designatedVertexSet s round producer <->
  exists v, get s h = Some v /\ v_Round v = round /\ extractProducer v = producer.
Proof.
  intros Hok. unfold designatedVertexSet, getByRoundProducer. cbn [fst].
  rewrite elem_of_list_to_set. unfold sortHashes. rewrite merge_sort_Permutation, list_elem_of_filter, (so_index s Hok).
  split.
  - intros (Hp & v & Hg & Hr). exists v. rewrite <- Hr, (so_producer s Hok h v Hg) in Hp. done.
  - intros (v & Hg & Hr & Hp). subst round. rewrite (so_producer s Hok h v Hg). eauto.
Qed.

Lemma Cites_elem s r p x : storeOk s -> Cites s r p x <->
  exists h v, get s h = Some v /\ v_Round v = r /\ extractProducer v = p /\ x ∈ parentsOf v.
Proof.
  intros Hok. unfold Cites. split; intros (h & v & H1 & H2).
  - apply (so_index s Hok) in H1 as (v' & Hg & Hr). destruct H2 as (Hg' & Hp & Hx). simplify_eq. eauto 10.
  - destruct H2 as (Hr & Hp & Hx). exists h, v. split_and!; auto. apply (so_index s Hok). eauto.
Qed.
