(* ===== verification/Agreement.v ===== *)
(** * Agreement of the anchor rule across views

    Two nodes hold different parts of one run and decide the same round.  The
    views are closed under parents and share the frozen committees; holders a view
    sees silent are silent, save at the round right after, where silence may be a
    matter of timing and the rule has a guard for it ([Sight]).  Where the rule
    decides a round in compatible ways they agree ([anchorStatus_agreement]); a
    certificate against the adjacent anchor, and a blame against an anchor, can
    disagree ([Forks.v]). *)

From S2P Require Import Prelude Types Fees Validators Stake Storage Tracker Domains Staged Coins Ledger Ops Dag Vertices Anchor.

Implicit Type s : store.

(** ** How a round was decided *)

Inductive DecidedBy :=
| byCertificate (w : Hash)           (* its own citations certify [w] *)
| byBlame                            (* its own citations blame it *)
| byAnchor (r : Z) (x : Hash)        (* the certified anchor [x] of round [r] *)
| byNothing.

(** Combinations of ways that exclude each other or lead to one decision: a
    certificate against an anchor needs two rounds between them, and so does the next
    round's anchor against a later one. *)
Definition compatible (round : Z) (a b : DecidedBy) : bool :=
  match a, b with
  | byCertificate _, byAnchor r _ | byAnchor r _, byCertificate _ => round +w 2 <=? r
  | byBlame, byAnchor _ _ | byAnchor _ _, byBlame => false
  | byAnchor r _, byAnchor r' _ => (r =? r') || negb (Z.min r r' =? round +w 1) || (round +w 3 <=? Z.max r r')
  | _, _ => true
  end.

Section Agreement.
Context {M : Type} (X : Crypto) (c : Config) (d : DAG M) (U : gmap Hash Vertex) (round : Z).

(** The scan of [anchorStatus] with the round that ends it. *)
Fixpoint scanBy s (rs : list Z) : DecidedBy :=
  match rs with
  | [] => byNothing
  | r :: rs =>
      match directAnchorVerdict X c d s r with
      | (verdictCertified, vertex) => if r =? round then byCertificate vertex else byAnchor r vertex
      | (verdictBlamed, _) => if r =? round then byBlame else scanBy s rs
      | (verdictUndecided, _) =>
          if r =? round then scanBy s rs
          else if scanPastUndecided X c d s round r then scanBy s rs else byNothing
      | (verdictWait, _) => byNothing
      end
  end.

Definition decidedBy s : DecidedBy := scanBy s (seqZ round (highestRound s - round + 1)).

(** ** The run and its views *)

(** Nobody equivocates, and links point one round down.  A vertex two or three rounds
    above the decided one links a quorum of the round below it, a later one links
    something: what production requires ([hasQuorumFromRound]). *)
Record Run : Prop := {
  run_single : forall h h' v v', U !! h = Some v -> U !! h' = Some v' -> v_Round v = v_Round v' ->
    extractProducer v = extractProducer v' -> h = h';
  run_links : forall h v p, U !! h = Some v -> p ∈ parentsOf v -> exists w, U !! p = Some w /\ v_Round v = v_Round w + 1;
  run_quorum : forall h v r set, U !! h = Some v -> round <= r <= round + 1 -> v_Round v = r + 2 -> citersOf c d r = Some set ->
    exists P, reachesStrictQuorum (votingCapMille c) set P = true /\
      forall q, q ∈ P -> exists p w, p ∈ parentsOf v /\ U !! p = Some w /\ extractProducer w = q;
  run_progress : forall h v, U !! h = Some v -> round + 2 < v_Round v -> parentsOf v ≠ [];
}.

(** One node at cursor [round]: nothing from there up is committed yet, and the
    holders it calls silent are silent in the run, but for those of the next round: a
    holder silent from [r + 1] on produced nothing at [r + 1], and a designated producer
    it calls dead nothing at its round. *)
Record Sight s : Prop := {
  vw_ok : storeOk s;
  vw_sub : st_vertices s ⊆ U;
  vw_closed : forall h v p, get s h = Some v -> round < v_Round v -> p ∈ parentsOf v -> is_Some (get s p);
  vw_floor : forall r, round <= r -> belowCommitFloor s r = false;
  vw_cursor : forall h v, get s h = Some v -> round <= v_Round v -> h ∉ committedVertices s;
  vw_latest : latestRound s < max64 - 1;
  vw_silent : forall r set q h v, round + 1 < r <= latestRound s -> citersOf c d r = Some set -> q ∈ silentHolders s set (r +w 1) ->
    U !! h = Some v -> extractProducer v = q -> v_Round v ≠ r + 1;
  vw_dead : forall r h v, r = round \/ round + 1 < r <= latestRound s -> deadDesignatedProducer X c d s r = true ->
    U !! h = Some v -> anchorProducerFor X c d r = Some (extractProducer v) -> v_Round v ≠ r;
}.

(** A node whose silent holders, of any round from the cursor on, are silent in the run. *)
Record View s : Prop := {
  vf_ok : storeOk s;
  vf_sub : st_vertices s ⊆ U;
  vf_closed : forall h v p, get s h = Some v -> round < v_Round v -> p ∈ parentsOf v -> is_Some (get s p);
  vf_floor : forall r, round <= r -> belowCommitFloor s r = false;
  vf_cursor : forall h v, get s h = Some v -> round <= v_Round v -> h ∉ committedVertices s;
  vf_latest : latestRound s < max64 - 1;
  vf_silence : forall r set q h v, r = round \/ round < r <= latestRound s -> citersOf c d r = Some set -> q ∈ silentHolders s set (r +w 1) ->
    U !! h = Some v -> extractProducer v = q -> v_Round v ≠ r /\ v_Round v ≠ r + 1;
}.

Lemma View_Sight s : View s -> Sight s.
Proof using.
  intros [H1 H2 H3 H4 H5 H6 H7]. split; try done.
  - intros r set q h v Hr Hc Hq Hu Hp. by destruct (H7 r set q h v ltac:(right; lia) Hc Hq Hu Hp).
  - intros r h v Hr Hd Hu Hp. unfold deadDesignatedProducer in Hd. rewrite Hp in Hd. destruct (citersOf c d r) as [set|] eqn:Hc; [|done].
    destruct (negb _); [done|]. apply bool_decide_eq_true in Hd. by destruct (H7 r set (extractProducer v) h v ltac:(destruct Hr; [by left|right; lia]) Hc Hd Hu eq_refl).
Qed.

Context (Hround : 0 <= round).
Context (Hrun : Run).
Context (Hstrict : forall r, round <= r -> roundIsRelaxed c d r = false).
Context (Hbounded : forall r set, citersOf c d r = Some set -> bounded (votingCapMille c) set).

Lemma view_get s h v : Sight s -> get s h = Some v -> U !! h = Some v.
Proof using. intros Hv Hg. eapply lookup_weaken; [exact Hg|apply Hv]. Qed.

(** A vertex known to be in the run and held by a view. *)
Lemma view_same s h v : Sight s -> is_Some (get s h) -> U !! h = Some v -> get s h = Some v.
Proof using. intros Hv [w Hw] Hu. pose proof (view_get s h w Hv Hw). congruence. Qed.

(** ** The direct verdicts *)

Lemma certified_inv s r w :
  round <= r -> directAnchorVerdict X c d s r = (verdictCertified, w) ->
  exists p set, anchorProducerFor X c d r = Some p /\ citersOf c d r = Some set /\
    w ∈ designatedVertexSet s r p /\
    reachesStrictQuorum (votingCapMille c) set (supportersOf (tallyCitations s r p) w) = true.
Proof using Hstrict.
  intros Hr. unfold directAnchorVerdict. destruct (anchorProducerFor X c d r) as [p|]; [|done].
  destruct (citersOf c d r) as [set|]; [|done]. unfold verdictFromTally. rewrite (Hstrict r Hr).
  destruct (List.find _ _) as [w'|] eqn:Ef; [|by destruct (negb false && _)]. intros [= ->].
  apply List.find_some in Ef as [Hin Hc]. apply list_elem_of_In in Hin.
  exists p, set. split_and!; auto. by apply supporters_keys.
Qed.

Lemma blamed_inv s r w :
  round <= r -> directAnchorVerdict X c d s r = (verdictBlamed, w) ->
  exists p set, anchorProducerFor X c d r = Some p /\ citersOf c d r = Some set /\
    reachesStrictQuorum (votingCapMille c) set (blamers (tallyCitations s r p)) = true.
Proof using Hstrict.
  intros Hr. unfold directAnchorVerdict. destruct (anchorProducerFor X c d r) as [p|]; [|done].
  destruct (citersOf c d r) as [set|]; [|done]. unfold verdictFromTally. rewrite (Hstrict r Hr).
  destruct (List.find _ _) as [w'|]; [done|]. simpl. destruct (reachesStrictQuorum _ _ _) eqn:Eq; [|done].
  intros _. eauto 10.
Qed.

(** What a citation in one view means in another. *)
Lemma cites_transfer s s' r q w p :
  Sight s -> Sight s' -> round <= r -> r + 1 < two64 -> Cites s (r +w 1) q w -> w ∈ designatedVertexSet s r p ->
  Produced s' (r +w 1) q -> w ∈ designatedVertexSet s' r p /\ Cites s' (r +w 1) q w.
Proof using Hround Hrun.
  intros V V' Hr Hlt Hc Hd (h' & v' & Hin' & Hg' & Hq').
  rewrite add64_exact in * by u64_lia. apply (Cites_elem s _ _ _ (vw_ok s V)) in Hc as (h & v & Hg & Hrd & Hq & Hx).
  apply (so_index s' (vw_ok s' V')) in Hin' as (v2 & Hg2 & Hr2). rewrite Hg' in Hg2. injection Hg2 as <-.
  assert (h = h') as <-.
  { apply (run_single Hrun h h' v v'); eauto using view_get; congruence. }
  assert (v' = v) as -> by (pose proof (view_get s h v V Hg); pose proof (view_get s' h v' V' Hg'); congruence).
  apply (designated_elem s r p w (vw_ok s V)) in Hd as (vw & Hgw & Hrw & Hpw).
  assert (Hgw' : get s' w = Some vw).
  { apply view_same; [done| |exact (view_get s w vw V Hgw)]. apply (vw_closed s' V' h v); [done|lia|done]. }
  split; [apply (designated_elem s' r p w (vw_ok s' V')); eauto|].
  apply (Cites_elem s' _ _ _ (vw_ok s' V')). exists h, v. done.
Qed.

(** Supporters in one view are not blamers in another. *)
Lemma supporters_blamers_disjoint s s' r w p :
  Sight s -> Sight s' -> round <= r -> r + 1 < two64 -> w ∈ designatedVertexSet s r p ->
  supportersOf (tallyCitations s r p) w ∩ blamers (tallyCitations s' r p) = ∅.
Proof using Hround Hrun.
  intros V V' Hr Hlt Hd. apply set_eq. intros q. split; [|by intros ?%elem_of_empty].
  intros [Hs Hb]%elem_of_intersection. exfalso.
  apply supporters_cites in Hs as [_ Hc]. apply blamers_cites in Hb as [Hp Hn].
  destruct (cites_transfer s s' r q w p) as [Hd' Hc']; try done. by apply (Hn w).
Qed.

Lemma certified_not_blamed s s' r w x :
  Sight s -> Sight s' -> round <= r -> r + 1 < two64 ->
  directAnchorVerdict X c d s r = (verdictCertified, w) -> directAnchorVerdict X c d s' r = (verdictBlamed, x) -> False.
Proof using Hround Hrun Hstrict Hbounded.
  intros V V' Hr Hlt Hc Hb. apply certified_inv in Hc as (p & set & Hp & Hset & Hd & Hq); [|done].
  apply blamed_inv in Hb as (p' & set' & Hp' & Hset' & Hq'); [|done]. simplify_eq.
  destruct (quorum_overlap _ _ _ _ (Hbounded r set Hset) Hq Hq') as [H1 H2].
  rewrite (supporters_blamers_disjoint s s' r w p V V' Hr Hlt Hd), weightOf_empty in H2. lia.
Qed.

Lemma certified_same s s' r w w' :
  Sight s -> Sight s' -> round <= r ->
  directAnchorVerdict X c d s r = (verdictCertified, w) -> directAnchorVerdict X c d s' r = (verdictCertified, w') -> w = w'.
Proof using Hrun Hstrict.
  intros V V' Hr Hc Hc'. apply certified_inv in Hc as (p & set & Hp & _ & Hd & _); [|done].
  apply certified_inv in Hc' as (p' & set' & Hp' & _ & Hd' & _); [|done]. simplify_eq.
  apply (designated_elem s r p w (vw_ok s V)) in Hd as (v & Hg & Hrv & Hpv).
  apply (designated_elem s' r p w' (vw_ok s' V')) in Hd' as (v' & Hg' & Hrv' & Hpv').
  apply (run_single Hrun w w' v v'); eauto using view_get; congruence.
Qed.

(** A round certified in one view cannot be ruled out by blame in another. *)
Lemma certified_not_ruled_out s s' r w p set N :
  Sight s -> Sight s' -> round <= r -> r + 1 < two64 -> directAnchorVerdict X c d s r = (verdictCertified, w) ->
  anchorProducerFor X c d r = Some p -> citersOf c d r = Some set ->
  (forall q, q ∈ N -> q ∈ blamers (tallyCitations s' r p) \/ forall h v, U !! h = Some v -> extractProducer v = q -> v_Round v ≠ r + 1) ->
  certificationRuledOut (votingCapMille c) set N = false.
Proof using Hround Hrun Hstrict Hbounded.
  intros V V' Hr Hlt Hc Hp Hset HN. apply certified_inv in Hc as (p' & set' & Hp' & Hset' & Hd & Hq); [|lia]. simplify_eq.
  apply not_true_is_false. intros Ho. rewrite (ruledOut_no_quorum _ _ _ (supportersOf (tallyCitations s r p') w) (Hbounded r set' Hset') Ho) in Hq; [done|].
  apply set_eq. intros q. split; [|by intros ?%elem_of_empty]. intros [Hs HqN]%elem_of_intersection. exfalso. destruct (HN q HqN) as [Hb|Hsil].
  - pose proof (supporters_blamers_disjoint s s' r w p' V V' Hr Hlt Hd). set_solver.
  - apply supporters_cites in Hs as [_ Hcit]. rewrite add64_exact in Hcit by u64_lia.
    apply (Cites_elem s _ _ _ (vw_ok s V)) in Hcit as (h & u & Hgu & Hru & Hqu & _). by apply (Hsil h u (view_get s h u V Hgu)).
Qed.

(** Two or more rounds up, a round certified in one view is never passed over by another. *)
Lemma certified_not_impossible s s' r w :
  Sight s -> Sight s' -> round + 1 < r <= latestRound s' -> r + 1 < two64 ->
  directAnchorVerdict X c d s r = (verdictCertified, w) -> fst (certImpossibility X c d s' r) = false.
Proof using Hround Hrun Hstrict Hbounded.
  intros V V' Hr Hlt Hc. pose proof Hc as Hc0. apply certified_inv in Hc0 as (p & set & Hp & Hset & Hd & Hq); [|lia].
  pose proof (proj1 (designated_elem s r p w (vw_ok s V)) Hd) as (v & Hg & Hrv & Hpv).
  assert (Hdead : deadDesignatedProducer X c d s' r = false).
  { apply not_true_is_false. intros Hdd. apply (vw_dead s' V' r w v); [by right|done|exact (view_get s w v V Hg)|by rewrite Hpv|done]. }
  unfold certImpossibility. rewrite Hdead, (Hstrict r) by lia. rewrite Hp, Hset.
  rewrite (certified_not_ruled_out s s' r w p set (blamers (tallyCitations s' r p))) by (done || lia || by left).
  destruct (Nat.eqb _ _); [done|]. rewrite (certified_not_ruled_out s s' r w p set); try done; [lia|].
  intros q [?|Hsil]%elem_of_union; [by left|]. right. intros h u Hu Hqu. by apply (vw_silent s' V' r set q h u).
Qed.

(** The next round certified in one view can be passed over by another on silence
    alone, and then only past the guard. *)
Lemma certified_next_guarded s s' w :
  Sight s -> Sight s' -> round + 2 < two64 -> directAnchorVerdict X c d s (round + 1) = (verdictCertified, w) ->
  scanPastUndecided X c d s' round (round + 1) = true -> adjacentCertifyAgrees X c d s' round (round + 1) = true.
Proof using Hround Hrun Hstrict Hbounded.
  intros V V' Hlt Hc. pose proof Hc as Hc0. apply certified_inv in Hc0 as (p & set & Hp & Hset & _ & _); [|lia].
  unfold scanPastUndecided. rewrite (add64_exact round 1), Z.eqb_refl by u64_lia.
  assert (Hnb : snd (certImpossibility X c d s' (round + 1)) = false).
  { unfold certImpossibility. destruct (deadDesignatedProducer _ _ _ _ _); [done|]. destruct (roundIsRelaxed _ _ _); [done|]. rewrite Hp, Hset.
    rewrite (certified_not_ruled_out s s' (round + 1) w p set (blamers (tallyCitations s' (round + 1) p))) by (done || lia || by left).
    destruct (Nat.eqb _ _); [done|]. by destruct (certificationRuledOut _ _ _). }
  destruct (certImpossibility X c d s' (round + 1)) as [imp byBlame]. cbn in Hnb. subst byBlame. destruct imp; [|done]. cbn [negb andb].
  by destruct (adjacentCertifyAgrees _ _ _ _ _ _).
Qed.

(** ** Verdicts are stable *)

Lemma Produced_grows s s' r q : Sight s -> Sight s' -> st_vertices s ⊆ st_vertices s' -> Produced s r q -> Produced s' r q.
Proof using.
  intros V V' Hsub (h & v & Hin & Hg & Hq). apply (so_index s (vw_ok s V)) in Hin as (v' & Hg' & Hr). simplify_eq.
  assert (get s' h = Some v') by (by eapply lookup_weaken). exists h, v'. split_and!; auto.
  apply (so_index s' (vw_ok s' V')). eauto.
Qed.

Lemma supporters_grow s s' r p w :
  Sight s -> Sight s' -> st_vertices s ⊆ st_vertices s' -> w ∈ designatedVertexSet s r p ->
  w ∈ designatedVertexSet s' r p /\
  supportersOf (tallyCitations s r p) w ⊆ supportersOf (tallyCitations s' r p) w.
Proof using.
  intros V V' Hsub Hd. assert (Hd' : w ∈ designatedVertexSet s' r p).
  { apply (designated_elem s r p w (vw_ok s V)) in Hd as (v & Hg & ?). apply (designated_elem s' r p w (vw_ok s' V')).
    exists v. split; [by eapply lookup_weaken|done]. }
  split; [done|]. intros q [_ Hc]%supporters_cites. apply supporters_cites. split; [done|].
  apply (Cites_elem s _ _ _ (vw_ok s V)) in Hc as (h & v & Hg & ?). apply (Cites_elem s' _ _ _ (vw_ok s' V')).
  exists h, v. split; [by eapply lookup_weaken|done].
Qed.

Lemma certified_intro s r w p set :
  Sight s -> round <= r -> anchorProducerFor X c d r = Some p -> citersOf c d r = Some set ->
  w ∈ designatedVertexSet s r p -> reachesStrictQuorum (votingCapMille c) set (supportersOf (tallyCitations s r p) w) = true ->
  directAnchorVerdict X c d s r = (verdictCertified, w).
Proof using Hrun Hstrict Hbounded.
  intros V Hr Hp Hset Hd Hq. unfold directAnchorVerdict. rewrite Hp, Hset. unfold verdictFromTally.
  rewrite (Hstrict r Hr). unfold certifies.
  assert (Hkey : w ∈ sortedHashKeys (supporters (tallyCitations s r p))).
  { unfold sortedHashKeys. apply elem_of_sortHashes. apply list_elem_of_fmap.
    destruct (supporters (tallyCitations s r p) !! w) as [ps|] eqn:Es.
    - exists (w, ps). split; [done|]. by apply elem_of_map_to_list.
    - unfold supportersOf in Hq. rewrite Es in Hq. rewrite reachesStrictQuorum_exact in Hq by eauto.
      simpl in Hq. rewrite weightOf_empty in Hq. apply andb_true_iff in Hq as [H1%Z.ltb_lt H2%Z.leb_le]. lia. }
  assert (Hall : forall x, x ∈ sortedHashKeys (supporters (tallyCitations s r p)) -> x = w).
  { intros x Hx%supporters_keys. apply (designated_elem s r p _ (vw_ok s V)) in Hx as (v & Hg & Hrv & Hpv).
    apply (designated_elem s r p _ (vw_ok s V)) in Hd as (v' & Hg' & Hrv' & Hpv').
    apply (run_single Hrun x w v v'); eauto using view_get; congruence. }
  destruct (sortedHashKeys _) as [|x l]; [by apply not_elem_of_nil in Hkey|]. simpl.
  rewrite (Hall x ltac:(left)), Hq. done.
Qed.

(** Without equivocation a round certified or blamed in a view keeps that verdict,
    with the same vertex, in every larger view. *)
Theorem direct_verdict_stable s s' r w :
  Sight s -> Sight s' -> st_vertices s ⊆ st_vertices s' -> round <= r -> r + 1 < two64 ->
  (directAnchorVerdict X c d s r = (verdictCertified, w) -> directAnchorVerdict X c d s' r = (verdictCertified, w)) /\
  (directAnchorVerdict X c d s r = (verdictBlamed, w) -> directAnchorVerdict X c d s' r = (verdictBlamed, w)).
Proof using Hround Hrun Hstrict Hbounded.
  intros V V' Hsub Hr Hlt. split; intros Hv.
  - apply certified_inv in Hv as (p & set & Hp & Hset & Hd & Hq); [|done].
    destruct (supporters_grow s s' r p w V V' Hsub Hd) as [Hd' Hsup].
    apply (certified_intro s' r w p set); try done. apply (quorum_superset _ _ _ _ (Hbounded r set Hset) Hsup Hq).
  - pose proof Hv as Hb. apply blamed_inv in Hv as (p & set & Hp & Hset & Hq); [|done].
    assert (Hsup : blamers (tallyCitations s r p) ⊆ blamers (tallyCitations s' r p)).
    { intros q [Hpr Hn]%blamers_cites. apply blamers_cites. split; [by apply (Produced_grows s s')|].
      intros x Hx Hcx. destruct (cites_transfer s' s r q x p V' V Hr Hlt Hcx Hx Hpr) as [Hx' Hcx']. by apply (Hn x). }
    assert (w = zeroHash) as ->.
    { revert Hb. unfold directAnchorVerdict. rewrite Hp, Hset. unfold verdictFromTally. destruct (List.find _ _); [done|].
      destruct (negb _ && _); congruence. }
    destruct (directAnchorVerdict X c d s' r) as [v' w'] eqn:Ev. revert Ev.
    unfold directAnchorVerdict. rewrite Hp, Hset. unfold verdictFromTally. rewrite (Hstrict r Hr).
    rewrite (quorum_superset _ _ _ _ (Hbounded r set Hset) Hsup Hq). simpl.
    destruct (List.find _ _) as [x|] eqn:Ef; [|congruence]. intros _. exfalso.
    apply (certified_not_blamed s' s r x zeroHash V' V Hr Hlt); [|done].
    unfold directAnchorVerdict. rewrite Hp, Hset. unfold verdictFromTally. rewrite (Hstrict r Hr). unfold certifies. by rewrite Ef.
Qed.

(** ** Histories *)

Lemma Visit_trans s a b h : Visit s a b -> Visit s b h -> Visit s a h.
Proof using. intros Hab Hbh. induction Hbh as [|h v p _ IH Hc Hg Hb Hp]; [done|]. by apply (visit_parent s a h v). Qed.

(** One link down from a vertex above the cursor. *)
Lemma visit_link s x v p :
  Sight s -> get s x = Some v -> round < v_Round v -> p ∈ parentsOf v -> Visit s x p /\ is_Some (get s p).
Proof using.
  intros V Hg Hr Hp. split; [|by apply (vw_closed s V x v)].
  apply (visit_parent s x x v); [constructor|apply (vw_cursor s V x v Hg); lia|done|apply (vw_floor s V); lia|done].
Qed.

Lemma visit_transfer s s' x y :
  Sight s -> Sight s' -> is_Some (get s' x) -> Visit s x y -> forall v, U !! y = Some v -> round <= v_Round v ->
  Visit s' x y /\ get s' y = Some v.
Proof using Hrun.
  intros V V' Hx Hv. induction Hv as [|h u p Hv IH Hc Hg Hb Hp]; intros v Hu Hr.
  - split; [constructor|]. by apply view_same.
  - pose proof (view_get s h u V Hg) as Huh. destruct (run_links Hrun h u p Huh Hp) as (v' & Hv' & Hrd).
    rewrite Hu in Hv'. injection Hv' as <-. destruct (IH u Huh ltac:(lia)) as [IV IG].
    destruct (visit_link s' h u p V' IG ltac:(lia) Hp) as [Hl Hs].
    split; [by apply (Visit_trans s' x h p)|by apply view_same].
Qed.

(** Whatever is certified at the cursor, or one round up, lies in the history of every
    vertex two or more rounds above it, in every view. *)
Lemma certified_carried s s' r w x vx :
  Sight s -> Sight s' -> round <= r <= round + 1 -> r + 1 < two64 -> directAnchorVerdict X c d s r = (verdictCertified, w) ->
  get s' x = Some vx -> r + 2 <= v_Round vx -> Visit s' x w /\ is_Some (get s' w).
Proof using Hround Hrun Hstrict Hbounded.
  intros V V' Hb Hlt Hc. remember (Z.to_nat (v_Round vx - (r + 2))) as n eqn:En. revert x vx En.
  induction n as [|n IH]; intros x vx En Hg Hr; pose proof (view_get s' x vx V' Hg) as Hu.
  - apply certified_inv in Hc as (p & set & Hp & Hset & Hd & Hq); [|lia].
    destruct (run_quorum Hrun x vx r set Hu Hb ltac:(lia) Hset) as (P & HP & Hpar).
    assert (Hne : supportersOf (tallyCitations s r p) w ∩ P ≠ ∅)
      by exact (quorum_meet (QuorumSystem := stake_quorums _ _ (Hbounded r set Hset)) _ _ Hq HP).
    apply set_choose_L in Hne as [q [Hs HqP]%elem_of_intersection].
    destruct (Hpar q HqP) as (p1 & w1 & Hp1 & Hu1 & Hq1). apply supporters_cites in Hs as [_ Hcit].
    rewrite add64_exact in Hcit by u64_lia. apply (Cites_elem s _ _ _ (vw_ok s V)) in Hcit as (h & v & Hgh & Hrh & Hqh & Hw).
    destruct (run_links Hrun x vx p1 Hu Hp1) as (w2 & Hw2 & Hr2). rewrite Hu1 in Hw2. injection Hw2 as <-.
    assert (h = p1) as -> by (apply (run_single Hrun h p1 v w1); eauto using view_get; [lia|congruence]).
    assert (v = w1) as -> by (pose proof (view_get s p1 v V Hgh); congruence).
    destruct (visit_link s' x vx p1 V' Hg ltac:(lia) Hp1) as [Hv1 Hg1].
    destruct (visit_link s' p1 w1 w V' (view_same s' p1 w1 V' Hg1 Hu1) ltac:(lia) Hw) as [Hv2 Hg2].
    split; [by apply (Visit_trans s' x p1 w)|done].
  - pose proof (run_progress Hrun x vx Hu ltac:(lia)) as Hne. destruct (parentsOf vx) as [|p1 l] eqn:Ep; [done|].
    assert (Hp1 : p1 ∈ parentsOf vx) by (rewrite Ep; left).
    destruct (run_links Hrun x vx p1 Hu Hp1) as (w1 & Hu1 & Hr1).
    destruct (visit_link s' x vx p1 V' Hg ltac:(lia) Hp1) as [Hv1 Hg1].
    destruct (IH p1 w1) as [Hv2 Hg2]; [lia|by apply view_same|lia|]. split; [by apply (Visit_trans s' x p1 w)|done].
Qed.

(** ** The indirect rule *)

Lemma resolve_spec s x dec :
  Sight s -> resolveIndirect X c d s round x = dec -> dec ≠ anchorWait ->
  exists p, anchorProducerFor X c d round = Some p /\
    match dec with
    | anchorCommit y => y ∈ designatedVertexSet s round p /\ Visit s x y
    | anchorSkip => forall y, y ∈ designatedVertexSet s round p -> ~ Visit s x y
    | anchorWait => False
    end.
Proof using Hstrict.
  intros V Hd Hw. unfold resolveIndirect in Hd. destruct (anchorProducerFor X c d round) as [p|]; [|congruence].
  exists p. split; [done|]. rewrite (Hstrict round) in Hd by lia. cbn [andb] in Hd.
  assert (Hdes : forall y, y ∈ designatedVertexSet s round p <-> y ∈ fst (getByRoundProducer s round p))
    by (intros y; apply elem_of_list_to_set).
  destruct (getByRoundProducer s round p) as [cands [|]] eqn:Eg.
  2: { subst dec. intros y Hy%Hdes. exfalso. unfold getByRoundProducer in Eg. injection Eg as <- El.
       destruct (filter _ _); [by apply not_elem_of_nil in Hy|done]. }
  simpl in Hdes. destruct (causalBatch s x) as [hist|] eqn:Eb; [|congruence].
  unfold decideMembership in Hd. destruct (List.find _ cands) as [y|] eqn:Ef; cbv iota in Hd.
  - subst dec. apply List.find_some in Ef as [Hin Hh]. apply list_elem_of_In in Hin. apply bool_decide_eq_true in Hh.
    split; [by apply Hdes|]. by apply (causalBatch_elem s x hist y Eb) in Hh as [? _].
  - subst dec. intros y Hy Hv. apply Hdes in Hy as Hy'. apply list_elem_of_In in Hy'.
    pose proof (List.find_none _ _ Ef y Hy') as Hn. apply bool_decide_eq_false in Hn. apply Hn.
    apply (designated_elem s round p y (vw_ok s V)) in Hy as (v & Hgv & Hrv & _).
    apply (causalBatch_elem s x hist y Eb). split_and!; [done|apply (vw_cursor s V y v Hgv); lia|].
    exists v. split; [done|]. apply (vw_floor s V). lia.
Qed.

Lemma designated_single s s' r p y y' :
  Sight s -> Sight s' -> y ∈ designatedVertexSet s r p -> y' ∈ designatedVertexSet s' r p -> y = y'.
Proof using Hrun.
  intros V V' (v & Hg & Hr & Hp)%(designated_elem s r p y (vw_ok s V)) (v' & Hg' & Hr' & Hp')%(designated_elem s' r p y' (vw_ok s' V')).
  apply (run_single Hrun y y' v v'); eauto using view_get; congruence.
Qed.

Lemma resolve_agrees s s' x dec dec' :
  Sight s -> Sight s' -> is_Some (get s x) -> is_Some (get s' x) ->
  resolveIndirect X c d s round x = dec -> resolveIndirect X c d s' round x = dec' ->
  dec ≠ anchorWait -> dec' ≠ anchorWait -> dec = dec'.
Proof using Hrun Hstrict.
  intros V V' Hx Hx' Hd Hd' Hw Hw'.
  destruct (resolve_spec s x dec V Hd Hw) as (p & Hp & H). destruct (resolve_spec s' x dec' V' Hd' Hw') as (p' & Hp' & H').
  assert (p' = p) as -> by congruence.
  assert (Hmove : forall s s' y, Sight s -> Sight s' -> is_Some (get s' x) -> y ∈ designatedVertexSet s round p -> Visit s x y ->
            y ∈ designatedVertexSet s' round p /\ Visit s' x y).
  { intros t t' y Vt Vt' Hxt (v & Hg & Hr & Hq)%(designated_elem t round p y (vw_ok t Vt)) Hv.
    destruct (visit_transfer t t' x y Vt Vt' Hxt Hv v (view_get t y v Vt Hg) ltac:(lia)) as [Hv' Hg'].
    split; [|done]. apply (designated_elem t' round p y (vw_ok t' Vt')). eauto. }
  destruct dec as [|y|], dec' as [|y'|]; try done.
  - destruct H as [Hy _], H' as [Hy' _]. f_equal. by apply (designated_single s s' round p).
  - destruct H as [Hy Hv]. destruct (Hmove s s' y V V' Hx' Hy Hv). by destruct (H' y).
  - destruct H' as [Hy Hv]. destruct (Hmove s' s y' V' V Hx Hy Hv). by destruct (H y').
Qed.

(** ** The scan *)

Lemma scan_by s rs :
  scanRounds X c d s round rs =
  match scanBy s rs with
  | byCertificate w => anchorCommit w
  | byBlame => anchorSkip
  | byAnchor r x => resolveIndirect X c d s round x
  | byNothing => anchorWait
  end.
Proof using.
  induction rs as [|r rs IH]; simpl; [done|].
  destruct (directAnchorVerdict X c d s r) as [[| | |] w]; destruct (r =? round); try done.
  destruct (scanPastUndecided X c d s round r); done.
Qed.

(** A round the scan went past. *)
Definition passed s (r : Z) : Prop :=
  r = round /\ (exists x, directAnchorVerdict X c d s r = (verdictUndecided, x)) \/
  r ≠ round /\ ((exists x, directAnchorVerdict X c d s r = (verdictBlamed, x)) \/ scanPastUndecided X c d s round r = true).

Lemma scanBy_inv s n : forall a,
  match scanBy s (seqZ a (Z.of_nat n)) with
  | byCertificate w => a <= round < a + Z.of_nat n /\ directAnchorVerdict X c d s round = (verdictCertified, w)
  | byBlame => a <= round < a + Z.of_nat n /\ exists x, directAnchorVerdict X c d s round = (verdictBlamed, x)
  | byAnchor r x => a <= r < a + Z.of_nat n /\ r ≠ round /\ directAnchorVerdict X c d s r = (verdictCertified, x) /\
      forall q, a <= q < r -> passed s q
  | byNothing => True
  end.
Proof using.
  induction n as [|n IH]; intros a; [done|]. rewrite Nat2Z.inj_succ, seqZ_cons by lia. rewrite Z.pred_succ. cbn [scanBy].
  specialize (IH (Z.succ a)).
  assert (Hpass : passed s a -> match scanBy s (seqZ (Z.succ a) (Z.of_nat n)) with
    | byCertificate w => a <= round < a + Z.succ (Z.of_nat n) /\ directAnchorVerdict X c d s round = (verdictCertified, w)
    | byBlame => a <= round < a + Z.succ (Z.of_nat n) /\ exists x, directAnchorVerdict X c d s round = (verdictBlamed, x)
    | byAnchor r x => a <= r < a + Z.succ (Z.of_nat n) /\ r ≠ round /\ directAnchorVerdict X c d s r = (verdictCertified, x) /\
        forall q, a <= q < r -> passed s q
    | byNothing => True end).
  { intros Hp. destruct (scanBy s _) as [w| |r x|]; [destruct IH; split; [lia|done]..| |done].
    destruct IH as (H1 & H2 & H3 & H4). split_and!; [lia|lia|done|done|]. intros q Hq.
    destruct (Z.eq_dec q a) as [->|]; [done|]. apply H4. lia. }
  destruct (directAnchorVerdict X c d s a) as [[| | |] w] eqn:Ed; destruct (Z.eqb_spec a round) as [->|Hne]; try done.
  - apply Hpass. left. eauto.
  - destruct (scanPastUndecided X c d s round a) eqn:Es; [|done]. apply Hpass. right. split; [done|by right].
  - split; [lia|done].
  - split_and!; [lia|lia|done|done|]. intros q. lia.
  - split; [lia|eauto].
  - apply Hpass. right. eauto.
Qed.

Lemma decided_inv s :
  Sight s ->
  match decidedBy s with
  | byCertificate w => round + 1 < two64 /\ directAnchorVerdict X c d s round = (verdictCertified, w)
  | byBlame => round + 1 < two64 /\ exists x, directAnchorVerdict X c d s round = (verdictBlamed, x)
  | byAnchor r x => round < r <= latestRound s /\ r + 1 < two64 /\ directAnchorVerdict X c d s r = (verdictCertified, x) /\
      forall q, round <= q < r -> passed s q
  | byNothing => True
  end.
Proof using.
  intros V. pose proof (vw_latest s V) as Hl. unfold decidedBy, highestRound.
  destruct (Z.leb_spec 0 (latestRound s - round + 1)) as [Hn|Hn].
  2: { rewrite seqZ_nil by lia. done. }
  pose proof (scanBy_inv s (Z.to_nat (latestRound s - round + 1)) round) as H. rewrite Z2Nat.id in H by lia.
  destruct (scanBy s _) as [w| |r x|]; [destruct H; split; [u64_lia|done]..| |done].
  destruct H as (H1 & H2 & H3 & H4). split_and!; [lia|lia|u64_lia|done|done].
Qed.

Lemma passed_impossible s r : scanPastUndecided X c d s round r = true -> fst (certImpossibility X c d s r) = true.
Proof using. unfold scanPastUndecided. by destruct (certImpossibility X c d s r) as [[|] b]. Qed.

(** Two views that resolve an undecided round by anchors take the same one, unless one
    passed over the next round on silence that the other certifies. *)
Lemma anchors_same s s' r x r' x' :
  Sight s -> Sight s' -> round + 2 < two64 -> decidedBy s = byAnchor r x -> decidedBy s' = byAnchor r' x' -> r' <= r ->
  r' = r /\ x' = x \/ r' = round + 1 /\ r' < r /\ adjacentCertifyAgrees X c d s round (round + 1) = true.
Proof using Hround Hrun Hstrict Hbounded.
  intros V V' Hlt Hd Hd' Hle. pose proof (decided_inv s V) as H. rewrite Hd in H. destruct H as (H1 & H2 & H3 & H4).
  pose proof (decided_inv s' V') as H'. rewrite Hd' in H'. destruct H' as (H1' & H2' & H3' & _).
  destruct (Z.eq_dec r' r) as [->|Hne]; [left; split; [done|apply (certified_same s' s r x' x V' V); [lia|done|done]]|].
  right. destruct (H4 r' ltac:(lia)) as [[? _]|[_ [[y Hb]|Hi]]]; [lia| |].
  - by destruct (certified_not_blamed s' s r' x' y V' V ltac:(lia) H2' H3' Hb).
  - destruct (Z.eq_dec r' (round + 1)) as [->|Hn].
    + split; [done|]. split; [lia|]. by apply (certified_next_guarded s' s x').
    + exfalso. apply passed_impossible in Hi. by rewrite (certified_not_impossible s' s r' x' V' V ltac:(lia) H2' H3') in Hi.
Qed.

Lemma anchor_stored s r x : Sight s -> round <= r -> directAnchorVerdict X c d s r = (verdictCertified, x) ->
  exists v, get s x = Some v /\ v_Round v = r.
Proof using Hstrict.
  intros V Hr Hc. apply certified_inv in Hc as (p & set & _ & _ & Hd & _); [|done].
  apply (designated_elem s r p x (vw_ok s V)) in Hd as (v & ? & ? & _). eauto.
Qed.

(** A certificate in one view against an anchor two rounds up in the other. *)
Lemma certificate_against_anchor s s' w r x dec' :
  Sight s -> Sight s' -> decidedBy s = byCertificate w -> decidedBy s' = byAnchor r x -> round + 2 <= r ->
  resolveIndirect X c d s' round x = dec' -> dec' ≠ anchorWait -> dec' = anchorCommit w.
Proof using Hround Hrun Hstrict Hbounded.
  intros V V' Hd Hd' Hr He Hw. pose proof (decided_inv s V) as H. rewrite Hd in H. destruct H as [Hlt Hc].
  pose proof (decided_inv s' V') as H'. rewrite Hd' in H'. destruct H' as (_ & _ & Hc' & _).
  destruct (anchor_stored s' r x V' ltac:(lia) Hc') as (vx & Hgx & Hrx).
  destruct (certified_carried s s' round w x vx V V' ltac:(lia) Hlt Hc Hgx ltac:(lia)) as [Hv Hs].
  apply certified_inv in Hc as (p & set & Hp & _ & Hdes & _); [|lia].
  destruct (resolve_spec s' x dec' V' He Hw) as (p' & Hp' & H'). assert (p' = p) as -> by congruence.
  destruct dec' as [|y|]; [done| |].
  - destruct H' as [Hy _]. f_equal. symmetry. by apply (designated_single s s' round p).
  - exfalso. apply (H' w); [|done].
    apply (designated_elem s round p w (vw_ok s V)) in Hdes as (v & Hg & Hrv & Hpv).
    apply (designated_elem s' round p w (vw_ok s' V')). exists v. split; [|done].
    apply view_same; [done|done|]. exact (view_get s w v V Hg).
Qed.

(** Past the guard the candidate is the same for both: none, or one that the next
    round's anchor cites. *)
Lemma guard_spec s s' x' vx' :
  Sight s -> Sight s' -> round + 2 < two64 -> directAnchorVerdict X c d s' (round + 1) = (verdictCertified, x') -> get s' x' = Some vx' ->
  adjacentCertifyAgrees X c d s round (round + 1) = true ->
  exists p, anchorProducerFor X c d round = Some p /\
    ((forall h v, U !! h = Some v -> extractProducer v = p -> v_Round v ≠ round) \/
     exists k, k ∈ designatedVertexSet s round p /\ k ∈ parentsOf vx').
Proof using Hround Hrun Hstrict.
  intros V V' Hlt Hc Hx'. unfold adjacentCertifyAgrees. destruct (deadDesignatedProducer X c d s round) eqn:Edd.
  - intros _. pose proof Edd as Ed. unfold deadDesignatedProducer in Ed. destruct (anchorProducerFor X c d round) as [p|] eqn:Hp; [|done].
    exists p. split; [done|]. left. intros h v Hu Hpv. apply (vw_dead s V round h v); [by left|done|done|by rewrite Hpv].
  - destruct (anchorProducerFor X c d round) as [p|] eqn:Hp; [|done]. destruct (negb _); [done|]. intros Hg. exists p. split; [done|]. right.
    apply certified_inv in Hc as (p1 & set & Hp1 & _ & Hd & _); [|lia]. unfold designatedRoundVertices in Hg. rewrite Hp1 in Hg.
    destruct (getByRoundProducer s (round + 1) p1) as [rv ok] eqn:Eg. destruct ok; [|done].
    assert (Hne : exists y, y ∈ rv). { unfold getByRoundProducer in Eg. injection Eg as <- El. destruct (filter _ _) as [|y l]; [done|]. exists y. apply elem_of_sortHashes. left. }
    destruct Hne as [y Hy]. assert (Hyd : y ∈ designatedVertexSet s (round + 1) p1) by (unfold designatedVertexSet; rewrite Eg; by apply elem_of_list_to_set).
    assert (y = x') as -> by (by apply (designated_single s s' (round + 1) p1)).
    rewrite forallb_forall in Hg. specialize (Hg x' (proj1 (list_elem_of_In _ _) Hy)). unfold vertexCitesCandidate in Hg.
    destruct (get s x') as [v|] eqn:Ex; [|done]. assert (v = vx') as -> by (pose proof (view_get s x' v V Ex); pose proof (view_get s' x' vx' V' Hx'); congruence).
    apply existsb_exists in Hg as (k & Hk & Hkd). exists k. split; [by apply bool_decide_eq_true in Hkd|by apply list_elem_of_In].
Qed.

(** The next round's anchor in one view against an anchor three rounds up in the other. *)
Lemma next_against_later s s' r x x' dec dec' :
  Sight s -> Sight s' -> round + 2 < two64 -> decidedBy s = byAnchor r x -> decidedBy s' = byAnchor (round + 1) x' ->
  adjacentCertifyAgrees X c d s round (round + 1) = true -> round + 3 <= r ->
  resolveIndirect X c d s round x = dec -> resolveIndirect X c d s' round x' = dec' -> dec ≠ anchorWait -> dec' ≠ anchorWait -> dec = dec'.
Proof using Hround Hrun Hstrict Hbounded.
  intros V V' Hlt Hd Hd' Hg Hr Hs Hs' Hw Hw'. pose proof (decided_inv s V) as H. rewrite Hd in H. destruct H as (_ & _ & Hc & _).
  pose proof (decided_inv s' V') as H'. rewrite Hd' in H'. destruct H' as (_ & Hlt' & Hc' & _).
  destruct (anchor_stored s r x V ltac:(lia) Hc) as (vx & Hgx & Hrx). destruct (anchor_stored s' (round + 1) x' V' ltac:(lia) Hc') as (vx' & Hgx' & Hrx').
  destruct (guard_spec s s' x' vx' V V' Hlt Hc' Hgx' Hg) as (p & Hp & Hcase).
  destruct (resolve_spec s x dec V Hs Hw) as (p1 & Hp1 & R). destruct (resolve_spec s' x' dec' V' Hs' Hw') as (p2 & Hp2 & R').
  assert (p1 = p) as -> by congruence. assert (p2 = p) as -> by congruence. destruct Hcase as [Hnone|(k & Hk & Hkx)].
  - assert (Hno : forall t y, Sight t -> y ∈ designatedVertexSet t round p -> False).
    { intros t y Vt (v & Hgv & Hrv & Hpv)%(designated_elem t round p y (vw_ok t Vt)). by apply (Hnone y v (view_get t y v Vt Hgv)). }
    destruct dec as [|y|], dec' as [|y'|]; try done; exfalso; [by apply (Hno s y V), R..|by apply (Hno s' y' V'), R'].
  - destruct (visit_link s' x' vx' k V' Hgx' ltac:(lia) Hkx) as [Hvk Hsk].
    apply (designated_elem s round p k (vw_ok s V)) in Hk as Hk0. destruct Hk0 as (vk & Hgk & Hrk & Hpk).
    assert (Hk' : k ∈ designatedVertexSet s' round p).
    { apply (designated_elem s' round p k (vw_ok s' V')). exists vk. split; [|done]. apply view_same; [done|done|exact (view_get s k vk V Hgk)]. }
    destruct (certified_carried s' s (round + 1) x' x vx V' V ltac:(lia) Hlt' Hc' Hgx ltac:(lia)) as [Hvx Hsx].
    assert (Hgx2 : get s x' = Some vx') by (apply view_same; [done|done|exact (view_get s' x' vx' V' Hgx')]).
    destruct (visit_link s x' vx' k V Hgx2 ltac:(lia) Hkx) as [Hvk2 _]. pose proof (Visit_trans s x x' k Hvx Hvk2) as Hxk.
    destruct dec as [|y|]; [done| |by destruct (R k Hk)]. destruct dec' as [|y'|]; [done| |by destruct (R' k Hk')].
    destruct R as [Hy _], R' as [Hy' _]. f_equal. by apply (designated_single s s' round p).
Qed.

(** Two anchors that both resolve the round. *)
Lemma anchors_agree s s' r x r' x' dec dec' :
  Sight s -> Sight s' -> round + 2 < two64 -> decidedBy s = byAnchor r x -> decidedBy s' = byAnchor r' x' -> r' <= r ->
  r' = r \/ r' ≠ round + 1 \/ round + 3 <= r ->
  resolveIndirect X c d s round x = dec -> resolveIndirect X c d s' round x' = dec' -> dec ≠ anchorWait -> dec' ≠ anchorWait -> dec = dec'.
Proof using Hround Hrun Hstrict Hbounded.
  intros V V' Hlt Hd Hd' Hle Hcomp Hs Hs' Hw Hw'.
  destruct (anchors_same s s' r x r' x' V V' Hlt Hd Hd' Hle) as [[-> ->]|(-> & Hr & Hg)].
  - pose proof (decided_inv s V) as H. rewrite Hd in H. destruct H as (H1 & _ & H2 & _). pose proof (decided_inv s' V') as H'. rewrite Hd' in H'. destruct H' as (_ & _ & H3 & _).
    destruct (anchor_stored s r x V ltac:(lia) H2) as (v & Hg & _). destruct (anchor_stored s' r x V' ltac:(lia) H3) as (v' & Hg' & _). by apply (resolve_agrees s s' x).
  - apply (next_against_later s s' r x x'); try done. lia.
Qed.

(** C12. In the strict regime, over one run without equivocation whose links go to the
    round below and carry a quorum of citers, two nodes that hold causally closed parts of
    it above the commit floor, neither having committed the round, and both decide it
    decide it alike (the same anchor or both a skip). Assumed of each view: a designated
    producer it takes for dead made no vertex, and holders it sees silent really made
    none, save at the round right after, where silence may be a matter of timing and the
    adjacent-certification guard is what protects. Excluded: one decided from its own
    certificate and the other from the adjacent anchor, one from a blame and the other
    from an anchor, and one from the anchor of the next round and the other from that of
    the round after it; Forks.v has runs in which nodes of the first two combinations
    disagree. *)
Theorem anchorStatus_agreement s s' :
  Sight s -> Sight s' -> round + 3 < two64 ->
  anchorStatus X c d s round ≠ anchorWait -> anchorStatus X c d s' round ≠ anchorWait ->
  compatible round (decidedBy s) (decidedBy s') = true ->
  anchorStatus X c d s round = anchorStatus X c d s' round.
Proof using Hround Hrun Hstrict Hbounded.
  intros V V' Hlt. unfold anchorStatus. rewrite !scan_by. fold (decidedBy s) (decidedBy s').
  pose proof (decided_inv s V) as Hi. pose proof (decided_inv s' V') as Hi'. unfold compatible. rewrite !add64_exact by u64_lia.
  destruct (decidedBy s) as [w| |r x|] eqn:Ed, (decidedBy s') as [w'| |r' x'|] eqn:Ed'; intros Hw Hw' Hcomp; try done.
  - f_equal. destruct Hi, Hi'. apply (certified_same s s' round w w' V V'); [lia|done|done].
  - destruct Hi as [H1 H2], Hi' as [_ [y H3]]. by destruct (certified_not_blamed s s' round w y V V' ltac:(lia) H1 H2 H3).
  - symmetry. apply Z.leb_le in Hcomp. by apply (certificate_against_anchor s s' w r' x').
  - destruct Hi as [H1 [y H2]], Hi' as [_ H3]. by destruct (certified_not_blamed s' s round w' y V' V ltac:(lia) H1 H3 H2).
  - apply Z.leb_le in Hcomp. by apply (certificate_against_anchor s' s w' r x).
  - assert (Hc : r = r' \/ Z.min r r' ≠ round + 1 \/ round + 3 <= Z.max r r').
    { destruct (Z.eqb_spec r r'); [by left|]. destruct (Z.eqb_spec (Z.min r r') (round + 1)); [|by right; left]. cbn [orb negb] in Hcomp. right. right. by apply Z.leb_le. }
    destruct (Z.le_ge_cases r' r).
    + apply (anchors_agree s s' r x r' x'); try done; lia.
    + symmetry. apply (anchors_agree s' s r' x' r x); try done; lia.
Qed.

End Agreement.
