(* ===== verification/Forks.v ===== *)
(** * Where the anchor rule disagrees with itself

    Four validators of equal stake in the strict regime.  The views below differ
    only in what has been delivered; they satisfy every hypothesis of
    [Agreement.anchorStatus_agreement] but the compatibility of the two ways of
    deciding. *)

From S2P Require Import Prelude Types Fees Validators Stake Thermostat Storage Tracker Domains Staged Coins Ledger Ops Dag Vertices Anchor Agreement.

Implicit Type s : store.

(** ** The network *)

(** Validators 1 to 4 with 100 staked each. *)
Definition quartet : ValidatorSet :=
  foldl (fun vs n => AddWithStake vs (hh n) [] [] 100 0 false) (NewValidatorSet []) [1; 2; 3; 4].

Definition quartetDag : DAG (gmap bytes bytes) :=
  mkDAG emptyLedger (mkRegime ∅ ∅ false 0 (-1) false false false)
    (mkEpochs 0 (Some quartet) None None None None None (Some (mkSnapshot 0 (Some quartet) None None)) ∅ []) (mkRewards ∅ ∅ 0).

(** [minValidators] zero: every round is strict. *)
Definition quartetConfig : Config :=
  mkConfig (replicate 32 0) (Some DefaultFeeParams) 0 0 1000 100 0 0 100 0 (thermostat sampleConfig).

(** A rotation in place of the hash: rounds 4 and 5 designate validator 3, rounds
    6 and 7 validator 4. *)
Definition rotation : Crypto :=
  mkCrypto (fun b => le_enc 8 (le_dec (drop 18 b) / 2) ++ replicate 24 0) (fun _ => []) (fun _ _ _ => true) (fun _ _ _ _ => true).

Definition status s (round : Z) : anchorDecision := anchorStatus rotation quartetConfig quartetDag s round.

(** Vertex [10 * round + producer]. *)
Definition addR s (vx : Z * list Z) : store :=
  let '(n, parents) := vx in addV s n (n / 10) (n mod 10) parents.

Definition build (committed : list Z) (vxs : list (Z * list Z)) : store :=
  foldl (fun s n => markVertexCommitted s (hh n)) (foldl addR emptyStore vxs) committed.

(** *** First run: round 5, validator 3 designated, then 4 *)

Definition base4 : list (Z * list Z) := [(41, []); (42, []); (43, []); (44, [])].
Definition round5 : list (Z * list Z) := map (fun n => (n, [41; 42; 43; 44])) [51; 52; 53; 54].
Definition all5 : list Z := [51; 52; 53; 54].

(** Validator 4 misses vertex 53; validators 1 to 3 cite it. *)
Definition viewCert : store :=
  build [41; 42; 43; 44] (base4 ++ round5 ++ [(61, all5); (62, all5); (63, all5)]).
(** The others go on before vertex 63 arrives. *)
Definition viewAnchor : store :=
  build [41; 42; 43; 44] (base4 ++ round5 ++ [(61, all5); (62, all5); (64, [51; 52; 54]);
    (71, [61; 62; 64]); (72, [61; 62; 64]); (74, [61; 62; 64])]).
(** All of it. *)
Definition viewBoth : store := foldl addR viewAnchor [(63, all5)].

(** *** Second run: round 4, validator 3 designated twice *)

Definition base3 : list (Z * list Z) := [(31, []); (32, []); (33, []); (34, [])].
Definition round4 : list (Z * list Z) := map (fun n => (n, [31; 32; 33; 34])) [41; 42; 43; 44].
Definition viewBlame : store :=
  build [31; 32; 33; 34] (base3 ++ round4 ++ [(51, [41; 42; 44]); (52, [41; 42; 44]); (54, [41; 42; 44])]).
Definition viewLate : store :=
  build [31; 32; 33; 34] (base3 ++ round4 ++ [(51, [41; 42; 44]); (52, [41; 42; 44]); (53, [41; 42; 43]);
    (61, [51; 52; 53]); (62, [51; 52; 53]); (63, [51; 52; 53])]).
Definition viewAll4 : store := foldl addR viewLate [(54, [41; 42; 44])].

Example cert_commits : status viewCert 5 = anchorCommit (hh 53).
Proof. vm_compute. reflexivity. Qed.

Example anchor_skips : status viewAnchor 5 = anchorSkip.
Proof. vm_compute. reflexivity. Qed.

Example blame_skips : status viewBlame 4 = anchorSkip.
Proof. vm_compute. reflexivity. Qed.

Example late_commits : status viewLate 4 = anchorCommit (hh 43).
Proof. vm_compute. reflexivity. Qed.

(** ** The views are views *)

Definition each (U : gmap Hash Vertex) (f : Hash -> Vertex -> bool) : bool :=
  forallb (fun kv => f (fst kv) (snd kv)) (map_to_list U).

Lemma each_spec U f h v : each U f = true -> U !! h = Some v -> f h v = true.
Proof.
  unfold each. intros Hf Hl. rewrite forallb_forall in Hf. apply (Hf (h, v)). by apply list_elem_of_In, elem_of_map_to_list.
Qed.

Definition linkedProducers (U : gmap Hash Vertex) (v : Vertex) : gset Hash :=
  list_to_set (omap (fun p => extractProducer <$> U !! p) (parentsOf v)).

Definition checkRun (U : gmap Hash Vertex) (round : Z) : bool :=
  each U (fun h v => each U (fun h' v' =>
    negb ((v_Round v =? v_Round v') && bool_decide (extractProducer v = extractProducer v')) || bool_decide (h = h'))) &&
  each U (fun h v => forallb (fun p => match U !! p with Some w => v_Round v =? v_Round w + 1 | None => false end) (parentsOf v)) &&
  each U (fun h v => negb ((v_Round v =? round + 2) || (v_Round v =? round + 3)) ||
    reachesStrictQuorum (votingCapMille quartetConfig) quartet (linkedProducers U v)) &&
  each U (fun h v => negb (round + 2 <? v_Round v) || negb (Nat.eqb (length (parentsOf v)) 0)).

Lemma quartet_holders r set : citersOf quartetConfig quartetDag r = Some set -> set = quartet.
Proof.
  unfold citersOf, HoldersForEpoch. simpl. repeat match goal with |- context[if ?b then _ else _] => destruct b end; congruence.
Qed.

Lemma checkRun_sound U round : checkRun U round = true -> Run quartetConfig quartetDag U round.
Proof.
  unfold checkRun. intros [[[H1 H2]%andb_true_iff H3]%andb_true_iff H4]%andb_true_iff. split.
  - intros h h' v v' Hv Hv' Hr Hp. pose proof (each_spec _ _ _ _ (each_spec _ _ _ _ H1 Hv) Hv') as H. cbv beta in H.
    rewrite Hr, Z.eqb_refl, (bool_decide_eq_true_2 _ Hp) in H. by apply bool_decide_eq_true in H.
  - intros h v p Hv Hp. pose proof (each_spec _ _ _ _ H2 Hv) as H. cbv beta in H. rewrite forallb_forall in H.
    specialize (H p (proj1 (list_elem_of_In _ _) Hp)). destruct (U !! p) as [w|]; [|done]. exists w. split; [done|by apply Z.eqb_eq].
  - intros h v r set Hv Hb Hr ->%quartet_holders. exists (linkedProducers U v). split.
    + pose proof (each_spec _ _ _ _ H3 Hv) as H. cbv beta in H. destruct (Z.eqb_spec (v_Round v) (round + 2)); [done|].
      destruct (Z.eqb_spec (v_Round v) (round + 3)); [done|lia].
    + intros q (p & Hp & Hq)%elem_of_list_to_set%list_elem_of_omap. destruct (U !! p) as [w|] eqn:Ew; [|done].
      injection Hq as <-. eauto.
  - intros h v Hv Hr He. pose proof (each_spec _ _ _ _ H4 Hv) as H. cbv beta in H. rewrite He in H.
    apply Z.ltb_lt in Hr. by rewrite Hr in H.
Qed.

Definition checkView (U : gmap Hash Vertex) (round : Z) s : bool :=
  each (st_vertices s) (fun h v => bool_decide (U !! h = Some v)) &&
  each (st_vertices s) (fun h v => negb (round <? v_Round v) || forallb (has s) (parentsOf v)) &&
  each (st_vertices s) (fun h v => negb (round <=? v_Round v) || negb (isVertexCommitted s h)) &&
  bool_decide (commitFloor s = None) && (0 <=? round) && (latestRound s <? round + 20) && (round <? 1000).

Lemma checkView_sound U round s : storeOk s -> checkView U round s = true -> View quartetConfig quartetDag U round s.
Proof.
  unfold checkView. intros Hok ((((((H1 & H2)%andb_true_iff & H3)%andb_true_iff & Hf%bool_decide_eq_true)%andb_true_iff
    & H0%Z.leb_le)%andb_true_iff & Hl%Z.ltb_lt)%andb_true_iff & Hr%Z.ltb_lt)%andb_true_iff. split; [done| | | | |u64_lia|].
  - apply map_subseteq_spec. intros h v Hv. by apply (each_spec _ _ _ _ H1), bool_decide_eq_true in Hv.
  - intros h v p Hv Hlt%Z.ltb_lt Hp. pose proof (each_spec _ _ _ _ H2 Hv) as H. cbv beta in H. rewrite Hlt in H.
    simpl in H. rewrite forallb_forall in H. specialize (H p (proj1 (list_elem_of_In _ _) Hp)). by apply bool_decide_eq_true in H.
  - intros r _. unfold belowCommitFloor. by rewrite Hf.
  - intros h v Hv Hle%Z.leb_le Hc. pose proof (each_spec _ _ _ _ H3 Hv) as H. cbv beta in H. rewrite Hle in H.
    unfold isVertexCommitted in H. by rewrite bool_decide_eq_true_2 in H.
  - intros r set q h v Hrr _ Hq. exfalso. unfold silentHolders, highestRound in Hq.
    rewrite (add64_exact r 1), add64_exact in Hq by (unfold anchorSilenceSpanRounds; u64_lia).
    destruct (Z.ltb_spec (latestRound s) (r + 1 + anchorSilenceSpanRounds)); [by apply elem_of_empty in Hq|].
    unfold anchorSilenceSpanRounds in *. lia.
Qed.

Lemma addV_ok s n r p ps : storeOk s -> storeOk (addV s n r p ps).
Proof. intros Hok. exact (add_ok s (vtx n r p ps) (hh n) Hok). Qed.

Lemma addR_ok l : forall s, storeOk s -> storeOk (foldl addR s l).
Proof. induction l as [|[n ps] l IH]; intros s Hok; simpl; [done|]. by apply IH, addV_ok. Qed.

Lemma build_ok committed vxs : storeOk (build committed vxs).
Proof.
  unfold build. generalize (addR_ok vxs emptyStore emptyStore_ok). generalize (foldl addR emptyStore vxs).
  induction committed as [|n l IH]; intros s Hok; simpl; [done|]. by apply IH, mark_ok.
Qed.

Definition run5 : gmap Hash Vertex := st_vertices viewBoth.
Definition run4 : gmap Hash Vertex := st_vertices viewAll4.

Lemma viewBoth_ok : storeOk viewBoth.
Proof. exact (addR_ok _ _ (build_ok _ _)). Qed.

Lemma run5_views :
  Run quartetConfig quartetDag run5 5 /\ View quartetConfig quartetDag run5 5 viewCert /\
  View quartetConfig quartetDag run5 5 viewAnchor /\ View quartetConfig quartetDag run5 5 viewBoth.
Proof.
  split_and!.
  - apply checkRun_sound. vm_compute. reflexivity.
  - apply (checkView_sound _ _ _ (build_ok _ _)). vm_compute. reflexivity.
  - apply (checkView_sound _ _ _ (build_ok _ _)). vm_compute. reflexivity.
  - apply (checkView_sound _ _ _ viewBoth_ok). vm_compute. reflexivity.
Qed.

Lemma run4_views :
  Run quartetConfig quartetDag run4 4 /\ View quartetConfig quartetDag run4 4 viewBlame /\
  View quartetConfig quartetDag run4 4 viewLate.
Proof.
  split_and!.
  - apply checkRun_sound. vm_compute. reflexivity.
  - apply (checkView_sound _ _ _ (build_ok _ _)). vm_compute. reflexivity.
  - apply (checkView_sound _ _ _ (build_ok _ _)). vm_compute. reflexivity.
Qed.

(** ** The forks *)

(** C13. Four honest validators, no equivocation, strict regime: with different delivery
    one view certifies and commits a round's anchor while another skips the round because
    the adjacent certified anchor omits it; and one view skips a round by blame while
    another commits it from the next anchor's history. Both pairs of views satisfy the
    hypotheses of the agreement theorem. *)
Theorem anchor_rule_forks :
  (Run quartetConfig quartetDag run5 5 /\ View quartetConfig quartetDag run5 5 viewCert /\
   View quartetConfig quartetDag run5 5 viewAnchor /\
   anchorStatus rotation quartetConfig quartetDag viewCert 5 = anchorCommit (hh 53) /\
   anchorStatus rotation quartetConfig quartetDag viewAnchor 5 = anchorSkip) /\
  (Run quartetConfig quartetDag run4 4 /\ View quartetConfig quartetDag run4 4 viewBlame /\
   View quartetConfig quartetDag run4 4 viewLate /\
   anchorStatus rotation quartetConfig quartetDag viewBlame 4 = anchorSkip /\
   anchorStatus rotation quartetConfig quartetDag viewLate 4 = anchorCommit (hh 43)).
Proof.
  pose proof run5_views as (R5 & V1 & V2 & _). pose proof run4_views as (R4 & V3 & V4).
  split; (split; [assumption|]); (split; [assumption|]); (split; [assumption|]); split; vm_compute; reflexivity.
Qed.

(** Validator 3 signs two vertices for round 4; validators 1 and 2 cite both, as
    production does with every stored vertex of the round before. *)
Definition equivocated : list (Z * list Z) :=
  base3 ++ round4 ++ [(51, [41; 42; 43; 44; 48]); (52, [41; 42; 43; 44; 48])].
Definition twin48 s : store := addV s 48 4 3 [31; 32; 33; 34].
Definition viewLow : store := foldl addR (twin48 (build [31; 32; 33; 34] equivocated)) [(54, [41; 42; 43; 44])].
Definition viewHigh : store := foldl addR (twin48 (build [31; 32; 33; 34] equivocated)) [(53, [41; 42; 48])].

(** When the designated producer signs two vertices and honest validators cite both,
    two causally closed views certify different vertices of the same round. *)
Theorem equivocation_forks_certification :
  storeOk viewLow /\ storeOk viewHigh /\
  (forall h v, get viewLow h = Some v -> 4 < v_Round v -> Forall (fun p => is_Some (get viewLow p)) (parentsOf v)) /\
  (forall h v, get viewHigh h = Some v -> 4 < v_Round v -> Forall (fun p => is_Some (get viewHigh p)) (parentsOf v)) /\
  anchorStatus rotation quartetConfig quartetDag viewLow 4 = anchorCommit (hh 43) /\
  anchorStatus rotation quartetConfig quartetDag viewHigh 4 = anchorCommit (hh 48).
Proof.
  assert (Hc : forall s, each (st_vertices s) (fun h v => negb (4 <? v_Round v) || forallb (has s) (parentsOf v)) = true ->
     forall h v, get s h = Some v -> 4 < v_Round v -> Forall (fun p => is_Some (get s p)) (parentsOf v)).
  { intros s He h v Hv Hlt%Z.ltb_lt. pose proof (each_spec _ _ _ _ He Hv) as H. cbv beta in H. rewrite Hlt in H. simpl in H.
    apply Forall_forall. intros p Hp. rewrite forallb_forall in H. specialize (H p (proj1 (list_elem_of_In _ _) Hp)).
    by apply bool_decide_eq_true in H. }
  split_and!; [exact (addR_ok _ _ (addV_ok _ _ _ _ _ (build_ok _ _)))|exact (addR_ok _ _ (addV_ok _ _ _ _ _ (build_ok _ _)))
    |apply Hc; vm_compute; reflexivity|apply Hc; vm_compute; reflexivity|vm_compute; reflexivity|vm_compute; reflexivity].
Qed.

(** ** Agreement at work: vertex 63 arrives late, the certificate is the same *)

Lemma quartet_bounded : bounded 100 quartet.
Proof.
  split; [|vm_compute; reflexivity|unfold is_u64; lia|vm_compute; reflexivity].
  repeat constructor; unfold is_u64; simpl; lia.
Qed.

Lemma quartet_citers r set : citersOf quartetConfig quartetDag r = Some set -> bounded (votingCapMille quartetConfig) set.
Proof. intros ->%quartet_holders. apply quartet_bounded. Qed.

Theorem anchorStatus_agreement_witness :
  anchorStatus rotation quartetConfig quartetDag viewCert 5 = anchorStatus rotation quartetConfig quartetDag viewBoth 5.
Proof.
  destruct run5_views as (R & V1 & _ & V3).
  apply (anchorStatus_agreement rotation quartetConfig quartetDag run5 5).
  - lia.
  - exact R.
  - intros r _. reflexivity.
  - exact quartet_citers.
  - exact (View_Sight rotation _ _ _ _ _ V1).
  - exact (View_Sight rotation _ _ _ _ _ V3).
  - lia.
  - vm_compute. discriminate.
  - vm_compute. discriminate.
  - vm_compute. reflexivity.
Defined.

Lemma viewAnchor_sub : st_vertices viewAnchor ⊆ st_vertices viewBoth.
Proof.
  apply map_subseteq_spec. intros h v Hv.
  assert (He : each (st_vertices viewAnchor) (fun h v => bool_decide (st_vertices viewBoth !! h = Some v)) = true) by (vm_compute; reflexivity).
  exact (bool_decide_eq_true_1 _ (each_spec _ _ _ _ He Hv)).
Qed.

Theorem direct_verdict_stable_witness :
  directAnchorVerdict rotation quartetConfig quartetDag viewAnchor 6 = (verdictCertified, hh 64) /\
  directAnchorVerdict rotation quartetConfig quartetDag viewBoth 6 = (verdictCertified, hh 64).
Proof.
  destruct run5_views as (R & _ & V2 & V3).
  assert (Hv : directAnchorVerdict rotation quartetConfig quartetDag viewAnchor 6 = (verdictCertified, hh 64)) by (vm_compute; reflexivity).
  split; [exact Hv|].
  refine (proj1 (direct_verdict_stable rotation quartetConfig quartetDag run5 5 _ R _ quartet_citers viewAnchor viewBoth 6 (hh 64) (View_Sight rotation _ _ _ _ _ V2) (View_Sight rotation _ _ _ _ _ V3) viewAnchor_sub _ _) Hv);
    [lia|intros r _; reflexivity|lia|lia].
Defined.

(** Validators 1 and 2 blame round 4; then a second vertex of validator 2 that
    cites the anchor arrives with those of 3 and 4. *)
Definition viewRuledOut : store :=
  build [31; 32; 33; 34] (base3 ++ round4 ++ [(51, [41; 42; 44]); (52, [41; 42; 44])]).
Definition viewReopened : store :=
  addV (foldl addR viewRuledOut [(53, [41; 42; 43; 44]); (54, [41; 42; 43; 44])]) 57 5 2 [41; 42; 43; 44].

Theorem blame_is_reversible :
  certImpossibility rotation quartetConfig quartetDag viewRuledOut 4 = (true, true) /\
  directAnchorVerdict rotation quartetConfig quartetDag viewReopened 4 = (verdictCertified, hh 43).
Proof. vm_compute. done. Qed.
