(* ===== verification/Persist.v ===== *)
(** * Persistence and transfer of the consensus state (internal/consensus/
    epoch_persist.go, epoch_accumulators.go, regime_sync.go, store_committed.go)

    The big-endian codecs of the epoch counter, the holder snapshots, the member
    sets and the settlement accumulators, the batch written with the commit
    cursor, its restoration at boot, and the blob a snapshot carries to a
    joiner.  A Go [nil] map or slice is [None]. *)

From S2P Require Import Prelude Types Fees Validators Stake Storage Tracker Domains Staged Coins Ledger Ops Dag.

(** ** Byte codecs *)

(** [count] fixed-size records. *)
Fixpoint decodeRecords {A} (size : nat) (f : bytes -> A) (count : nat) (data : bytes) : list A :=
  match count with
  | O => []
  | S count => f (take size data) :: decodeRecords size f count (drop size data)
  end.

Definition appendLenPrefixed (buf b : bytes) : bytes := buf ++ be_enc 4 (u32 (Z.of_nat (length b))) ++ b.

(** The remaining bytes are consumed on truncation. *)
Definition readLenPrefixed (data : bytes) : option bytes * bytes :=
  if Nat.ltb (length data) 4 then (None, [])
  else
    let n := Z.to_nat (be_dec (take 4 data)) in
    let data := drop 4 data in
    if Nat.ltb (length data) n then (None, []) else (Some (take n data), drop n data).

(** *** Fees per epoch *)

Definition sortedEpochs {A} (m : gmap Z A) : list Z := merge_sort Z.le (map fst (map_to_list m)).

Definition encodeEpochFees (m : gmap Z Z) : bytes :=
  let epochs := sortedEpochs m in
  be_enc 4 (u32 (Z.of_nat (length epochs))) ++
  concat (map (fun e => be_enc 8 e ++ be_enc 8 (default 0 (m !! e))) epochs).

Definition feeRecord (b : bytes) : Z * Z := (be_dec (take 8 b), be_dec (take 8 (drop 8 b))).

Definition decodeEpochFees (data : bytes) : option (gmap Z Z) :=
  if Nat.ltb (length data) 4 then None
  else
    let count := Z.to_nat (be_dec (take 4 data)) in
    if Nat.eqb count 0 || Nat.ltb (length data) (4 + count * 16) then None
    else Some (foldl (fun m kv => <[fst kv := snd kv]> m) ∅ (decodeRecords 16 feeRecord count (drop 4 data))).

(** *** Liveness per epoch *)

Definition encodeCounterSet (set : gmap Hash Z) : bytes :=
  let keys := sortHashes (map fst (map_to_list set)) in
  be_enc 4 (u32 (Z.of_nat (length keys))) ++ concat (map (fun k => k ++ be_enc 8 (default 0 (set !! k))) keys).

Definition counterRecord (b : bytes) : Hash * Z := (toHash (take 32 b), be_dec (take 8 (drop 32 b))).

Definition decodeCounterSet (data : bytes) : option (gmap Hash Z) :=
  if Nat.ltb (length data) 4 then None
  else
    let count := Z.to_nat (be_dec (take 4 data)) in
    if Nat.eqb count 0 || Nat.ltb (length data) (4 + count * 40) then None
    else Some (foldl (fun m kv => <[fst kv := snd kv]> m) ∅ (decodeRecords 40 counterRecord count (drop 4 data))).

Definition encodePerEpochCounters (m : gmap Z (gmap Hash Z)) : bytes :=
  let epochs := sortedEpochs m in
  be_enc 4 (u32 (Z.of_nat (length epochs))) ++
  concat (map (fun e => appendLenPrefixed (be_enc 8 e) (encodeCounterSet (default ∅ (m !! e)))) epochs).

Fixpoint decodeCounterEpochs (count : nat) (rest : bytes) (m : gmap Z (gmap Hash Z)) : option (gmap Z (gmap Hash Z)) :=
  match count with
  | O => Some m
  | S count =>
      if Nat.ltb (length rest) 8 then None
      else
        let epoch := be_dec (take 8 rest) in
        let '(raw, rest) := readLenPrefixed (drop 8 rest) in
        decodeCounterEpochs count rest
          (match decodeCounterSet (default [] raw) with Some inner => <[epoch := inner]> m | None => m end)
  end.

Definition decodePerEpochCounters (data : bytes) : option (gmap Z (gmap Hash Z)) :=
  if Nat.ltb (length data) 4 then None
  else
    let count := Z.to_nat (be_dec (take 4 data)) in
    if Nat.eqb count 0 then None
    else
      m ← decodeCounterEpochs count (drop 4 data) ∅;
      if bool_decide (m = ∅) then None else Some m.

(** *** Hash lists *)

Definition encodeHashList (list : list Hash) : bytes :=
  let sorted := sortHashes list in
  be_enc 4 (u32 (Z.of_nat (length sorted))) ++ concat sorted.

Definition decodeHashList (data : bytes) : option (list Hash) :=
  if Nat.ltb (length data) 4 then None
  else
    let count := Z.to_nat (be_dec (take 4 data)) in
    if Nat.eqb count 0 || Nat.ltb (length data) (4 + count * 32) then None
    else Some (decodeRecords 32 toHash count (drop 4 data)).

(** *** Holder snapshots *)

Definition boolByte (b : bool) : Z := if b then 1 else 0.

Definition validatorRecord (v : ValidatorInfo) : bytes :=
  Pubkey v ++ BLSPubkey v ++ be_enc 8 (SelfStake v) ++ be_enc 8 (DelegatedTotal v) ++ [boolByte (Jailed v)] ++
  be_enc 2 (Z.of_nat (length (QUICAddr v)) mod 65536) ++ QUICAddr v.

Definition appendValidatorRecord (buf : bytes) (v : ValidatorInfo) : bytes := buf ++ validatorRecord v.

Definition encodeHolderSnapshot (set : option ValidatorSet) : bytes :=
  match set with
  | None => be_enc 4 0
  | Some set =>
      let all := All set in
      foldl appendValidatorRecord (be_enc 4 (u32 (Z.of_nat (length all)))) all
  end.

Definition fixedRecord : nat := 99.   (* 32 + 48 + 8 + 8 + 1 + 2 *)

(** The shared fields of a record and the bytes they take; [tail] bytes must
    follow the address. *)
Definition decodeInfo (data : bytes) (tail : nat) : option (ValidatorInfo * nat) :=
  if Nat.ltb (length data) fixedRecord then None
  else
    let addrLen := Z.to_nat (be_dec (slice 97 2 data)) in
    if Nat.ltb (length data) (99 + addrLen + tail) then None
    else Some (mkInfo (toHash (slice 0 32 data)) (slice 99 addrLen data) (slice 32 48 data)
                 (be_dec (slice 80 8 data)) (be_dec (slice 88 8 data))
                 (negb (be_dec (slice 96 1 data) =? 0)) zeroHash, (99 + addrLen)%nat).

Definition decodeValidatorRecord (data : bytes) (set : ValidatorSet) : option (ValidatorSet * nat) :=
  r ← decodeInfo data 0; Some (addFrozen set (fst r), snd r).

Fixpoint decodeHolders (count : nat) (data : bytes) (set : ValidatorSet) : ValidatorSet :=
  match count with
  | O => set
  | S count =>
      match decodeValidatorRecord data set with
      | None => set
      | Some (set, n) => decodeHolders count (drop n data) set
      end
  end.

Definition decodeHolderSnapshot (data : bytes) : ValidatorSet :=
  if Nat.ltb (length data) 4 then NewValidatorSet []
  else decodeHolders (Z.to_nat (be_dec (take 4 data))) (drop 4 data) (NewValidatorSet []).

(** *** The live set *)

Definition encodeLiveValidators (set : option ValidatorSet) : bytes :=
  match set with
  | None => be_enc 4 0
  | Some set =>
      let all := All set in
      foldl (fun buf v => appendValidatorRecord buf v ++ RewardCoin v) (be_enc 4 (u32 (Z.of_nat (length all)))) all
  end.

Definition decodeLiveValidatorRecord (data : bytes) : option (ValidatorInfo * nat) :=
  r ← decodeInfo data 32;
  let '(v, off) := r in
  Some (set_RewardCoin (slice off 32 data) v, (off + 32)%nat).

Fixpoint decodeLive (count : nat) (data : bytes) : list ValidatorInfo :=
  match count with
  | O => []
  | S count =>
      match decodeLiveValidatorRecord data with
      | None => []
      | Some (v, n) => v :: decodeLive count (drop n data)
      end
  end.

Definition decodeLiveValidators (data : bytes) : option (list ValidatorInfo) :=
  if Nat.ltb (length data) 4 then None
  else Some (decodeLive (Z.to_nat (be_dec (take 4 data))) (drop 4 data)).

(** ** The metadata batch *)

Definition metaKey (name : string) : bytes := str "m:" ++ str name.

Abbreviation DB := (gmap bytes bytes).

Definition loadMetaBytes (db : DB) (key : bytes) : bytes := default [] (db !! key).

Definition loadMetaUint64 (db : DB) (key : bytes) : option Z :=
  data ← db !! key; if Nat.ltb (length data) 8 then None else Some (be_dec (take 8 data)).

Definition LoadLiveValidators (db : DB) : option (list ValidatorInfo) :=
  let data := loadMetaBytes db (metaKey "liveValidators") in
  if Nat.eqb (length data) 0 then None else decodeLiveValidators data.

Definition loadHolderSnapshot (db : DB) (key : bytes) : option ValidatorSet :=
  let data := loadMetaBytes db key in
  if Nat.eqb (length data) 0 then None
  else
    let set := decodeHolderSnapshot data in
    if Len set =? 0 then None else Some set.

(** [encodeMemberSet] of a set that may be nil. *)
Definition encodeMembers (set : option (gset Hash)) : bytes := encodeMemberSet (default ∅ set).

Section Persist.
Context {M : Type}.
Implicit Type d : DAG M.

Definition accumulatorKVs d : list (bytes * bytes) :=
  [(metaKey "epochFees", encodeEpochFees (epochFees (d_rewards d)));
   (metaKey "epochRoundsProduced", encodePerEpochCounters (epochRoundsProduced (d_rewards d)));
   (metaKey "epochAdditions", encodeHashList (epochAdditions (d_epochs d)));
   (metaKey "pendingRemovals", encodeMemberSet (pendingRemovals (d_epochs d)))].

Definition epochStateKVs d : list (bytes * bytes) :=
  let e := d_epochs d in
  let r := d_regime d in
  [(metaKey "currentEpoch", be_enc 8 (currentEpoch e));
   (metaKey "epochHolders", encodeHolderSnapshot (epochHolders e));
   (metaKey "prevEpochHolders", encodeHolderSnapshot (prevEpochHolders e));
   (metaKey "nextEpochHolders", encodeHolderSnapshot (nextEpochHolders e));
   (metaKey "producedMembers", encodeMemberSet (producedMembers r));
   (metaKey "eligibleHolders", encodeMembers (eligibleHolders e));
   (metaKey "prevEligibleHolders", encodeMembers (prevEligibleHolders e));
   (metaKey "nextEligibleHolders", encodeMembers (nextEligibleHolders e));
   (metaKey "committedMembers", encodeMemberSet (committedMembers r))] ++
  (if strictLatched r then [(metaKey "strictStartRound", be_enc 8 (strictStartRound r))] else []) ++
  accumulatorKVs d.

Definition liveValidatorsKV d : bytes * bytes :=
  (metaKey "liveValidators", encodeLiveValidators (Some (l_validators (d_ledger d)))).

(** [saveCommitCursorBatch]: one atomic batch, the cursor first. *)
Definition saveCommitCursorBatch (db : DB) (round : Z) (extra : list (bytes * bytes)) : DB :=
  foldl (fun db kv => <[fst kv := snd kv]> db) db ((metaKey "commitCursor", be_enc 8 round) :: extra).

Definition loadCommitCursor (db : DB) : option Z := loadMetaUint64 db (metaKey "commitCursor").

(** *** Restoration at boot *)

Definition restoreStrictLatch d (db : DB) : DAG M :=
  match loadMetaUint64 db (metaKey "strictStartRound") with
  | None => d
  | Some start =>
      let r := d_regime d in
      set_regime d (mkRegime (committedMembers r) (producedMembers r) true start (transitionRound r)
        (fullQuorumAchieved r) (regimeDirty r) (producedDirty r))
  end.

(** Each accumulator is replaced only by a non-empty record. *)
Definition installAccumulators d (fees produced additions removals : bytes) : DAG M :=
  let w := d_rewards d in
  let e := d_epochs d in
  let d := set_rewards d (mkRewards (default (epochFees w) (decodeEpochFees fees))
    (default (epochRoundsProduced w) (decodePerEpochCounters produced)) (issuanceRateMicro w)) in
  set_epochs d (mkEpochs (currentEpoch e) (epochHolders e) (prevEpochHolders e) (nextEpochHolders e)
    (eligibleHolders e) (prevEligibleHolders e) (nextEligibleHolders e) (epochMirror e)
    (default (pendingRemovals e) (decodeMemberSet removals)) (default (epochAdditions e) (decodeHashList additions))).

Definition restoreAccumulators d (db : DB) : DAG M :=
  installAccumulators d (loadMetaBytes db (metaKey "epochFees")) (loadMetaBytes db (metaKey "epochRoundsProduced"))
    (loadMetaBytes db (metaKey "epochAdditions")) (loadMetaBytes db (metaKey "pendingRemovals")).

Definition restoreEpochState d (db : DB) : DAG M :=
  let d := restoreAccumulators (restoreStrictLatch d db) db in
  match loadMetaUint64 db (metaKey "currentEpoch") with
  | None => d
  | Some epoch =>
      let e := d_epochs d in
      let r := d_regime d in
      let d := set_epochs d (mkEpochs epoch (loadHolderSnapshot db (metaKey "epochHolders"))
        (loadHolderSnapshot db (metaKey "prevEpochHolders")) (loadHolderSnapshot db (metaKey "nextEpochHolders"))
        (eligibleHolders e) (prevEligibleHolders e) (nextEligibleHolders e) (epochMirror e)
        (pendingRemovals e) (epochAdditions e)) in
      let d := publishEpochMirror d in
      let e := d_epochs d in
      let d := set_regime d (mkRegime (committedMembers r)
        (default ∅ (decodeMemberSet (loadMetaBytes db (metaKey "producedMembers")))) (strictLatched r)
        (strictStartRound r) (transitionRound r) (fullQuorumAchieved r) (regimeDirty r) (producedDirty r)) in
      let d := set_epochs d (mkEpochs (currentEpoch e) (epochHolders e) (prevEpochHolders e) (nextEpochHolders e)
        (decodeMemberSet (loadMetaBytes db (metaKey "eligibleHolders")))
        (decodeMemberSet (loadMetaBytes db (metaKey "prevEligibleHolders")))
        (decodeMemberSet (loadMetaBytes db (metaKey "nextEligibleHolders"))) (epochMirror e)
        (pendingRemovals e) (epochAdditions e)) in
      restoreCommittedMembers d (loadMetaBytes db (metaKey "committedMembers"))
  end.

(** *** The blob of a snapshot *)

Definition appendHolderBlob (buf : bytes) (set : option ValidatorSet) : bytes :=
  let encoded := encodeHolderSnapshot set in
  buf ++ be_enc 4 (u32 (Z.of_nat (length encoded))) ++ encoded.

Definition appendMemberBlob (buf : bytes) (set : option (gset Hash)) : bytes :=
  let encoded := encodeMembers set in
  buf ++ be_enc 4 (u32 (Z.of_nat (length encoded))) ++ encoded.

Definition appendEpochAccumulators d (buf : bytes) : bytes :=
  let buf := appendLenPrefixed buf (encodeEpochFees (epochFees (d_rewards d))) in
  let buf := appendLenPrefixed buf (encodePerEpochCounters (epochRoundsProduced (d_rewards d))) in
  let buf := appendLenPrefixed buf (encodeHashList (epochAdditions (d_epochs d))) in
  appendLenPrefixed buf (encodeMemberSet (pendingRemovals (d_epochs d))).

Definition encodeRegimeState d : bytes :=
  let e := d_epochs d in
  let r := d_regime d in
  let buf := be_enc 8 (currentEpoch e) ++ [boolByte (strictLatched r)] ++ be_enc 8 (strictStartRound r) in
  let buf := appendHolderBlob buf (epochHolders e) in
  let buf := appendHolderBlob buf (prevEpochHolders e) in
  let buf := appendHolderBlob buf (nextEpochHolders e) in
  let buf := appendMemberBlob buf (Some (producedMembers r)) in
  let buf := appendMemberBlob buf (eligibleHolders e) in
  let buf := appendMemberBlob buf (prevEligibleHolders e) in
  let buf := appendMemberBlob buf (nextEligibleHolders e) in
  let buf := appendMemberBlob buf (Some (committedMembers r)) in
  appendEpochAccumulators d buf.

(** A truncated record reads as nil and consumes the rest. *)
Definition readMemberBlob (data : bytes) : option (gset Hash) * bytes :=
  if Nat.ltb (length data) 4 then (None, [])
  else
    let n := Z.to_nat (be_dec (take 4 data)) in
    let data := drop 4 data in
    if u32 (Z.of_nat (length data)) <? Z.of_nat n then (None, []) else (decodeMemberSet (take n data), drop n data).

Definition readHolderBlob (data : bytes) : option ValidatorSet * bytes :=
  if Nat.ltb (length data) 4 then (None, [])
  else
    let n := Z.to_nat (be_dec (take 4 data)) in
    let data := drop 4 data in
    if u32 (Z.of_nat (length data)) <? Z.of_nat n then (None, [])
    else
      let set := decodeHolderSnapshot (take n data) in
      let rest := drop n data in
      if Len set =? 0 then (None, rest) else (Some set, rest).

Definition readEpochAccumulators d (data : bytes) : DAG M :=
  let '(fees, data) := readLenPrefixed data in
  let '(produced, data) := readLenPrefixed data in
  let '(additions, data) := readLenPrefixed data in
  let '(removals, _) := readLenPrefixed data in
  installAccumulators d (default [] fees) (default [] produced) (default [] additions) (default [] removals).

Definition applyRegimeState d (blob : bytes) : DAG M :=
  if Nat.ltb (length blob) 17 then d
  else
    let e := d_epochs d in
    let r := d_regime d in
    let rest := drop 17 blob in
    let '(holders, rest) := readHolderBlob rest in
    let '(prev, rest) := readHolderBlob rest in
    let '(next, rest) := readHolderBlob rest in
    let '(produced, rest) := readMemberBlob rest in
    let '(eligible, rest) := readMemberBlob rest in
    let '(prevEligible, rest) := readMemberBlob rest in
    let '(nextEligible, rest) := readMemberBlob rest in
    let '(committed, rest) := readMemberBlob rest in
    let d := set_regime d (mkRegime (default ∅ committed) (default ∅ produced) (negb (be_dec (slice 8 1 blob) =? 0))
      (be_dec (slice 9 8 blob)) (transitionRound r) (fullQuorumAchieved r) (regimeDirty r) (producedDirty r)) in
    let d := set_epochs d (mkEpochs (be_dec (take 8 blob)) holders prev next eligible prevEligible nextEligible
      (epochMirror e) (pendingRemovals e) (epochAdditions e)) in
    publishEpochMirror (readEpochAccumulators d rest).

End Persist.

(** ** Round trips of the codecs *)

Lemma take_be n z (rest : bytes) : take n (be_enc n z ++ rest) = be_enc n z.
Proof. rewrite take_app_le, take_ge by (rewrite length_be_enc; lia). done. Qed.

Lemma drop_be n z (rest : bytes) : drop n (be_enc n z ++ rest) = rest.
Proof. rewrite drop_app_ge by (rewrite length_be_enc; lia). by rewrite length_be_enc, Nat.sub_diag, drop_0. Qed.

Lemma be_dec_u32 n : 0 <= n < two32 -> be_dec (be_enc 4 (u32 n)) = n.
Proof. intros Hn. unfold u32. rewrite Z.mod_small by lia. apply be_dec_enc. simpl. lia. Qed.

(** A 4-byte count or length in front of [rest]. *)
Lemma count_prefix n (rest : bytes) :
  Z.of_nat n < two32 ->
  Nat.ltb (length (be_enc 4 (u32 (Z.of_nat n)) ++ rest)) 4 = false /\
  Z.to_nat (be_dec (take 4 (be_enc 4 (u32 (Z.of_nat n)) ++ rest))) = n /\
  drop 4 (be_enc 4 (u32 (Z.of_nat n)) ++ rest) = rest.
Proof.
  intros Hn. rewrite take_be, drop_be, be_dec_u32 by lia. split_and!; [|lia|done].
  apply Nat.ltb_ge. rewrite length_app, length_be_enc. lia.
Qed.

Lemma read_prefix b rest :
  Z.of_nat (length b) < two32 ->
  readLenPrefixed (be_enc 4 (u32 (Z.of_nat (length b))) ++ b ++ rest) = (Some b, rest).
Proof.
  intros Hb. destruct (count_prefix (length b) (b ++ rest) Hb) as (H1 & H2 & H3).
  unfold readLenPrefixed. rewrite H1, H2, H3. rewrite length_app.
  destruct (Nat.ltb_spec (length b + length rest) (length b)); [lia|].
  rewrite take_app_le, take_ge by lia. rewrite drop_app_ge by lia. by rewrite Nat.sub_diag, drop_0.
Qed.

Lemma decodeRecords_map {A B} (size : nat) (enc : A -> bytes) (f : bytes -> B) (g : A -> B) l (rest : bytes) :
  (forall x, x ∈ l -> length (enc x) = size /\ f (enc x) = g x) ->
  decodeRecords size f (length l) (concat (map enc l) ++ rest) = map g l.
Proof.
  induction l as [|x l IH]; intros Hl; [done|]. cbn [length decodeRecords map concat]. rewrite <- app_assoc.
  destruct (Hl x ltac:(left)) as [Hx Hf]. rewrite take_app_le, take_ge by lia. rewrite drop_app_ge by lia.
  rewrite Hx, Nat.sub_diag, drop_0, Hf, IH; [done|]. intros y Hy. apply Hl. by right.
Qed.

Lemma length_concat_const {A} (enc : A -> bytes) size l :
  (forall x, x ∈ l -> length (enc x) = size) -> length (concat (map enc l)) = (length l * size)%nat.
Proof.
  induction l as [|x l IH]; intros Hl; [done|]. cbn [map concat length]. rewrite length_app, IH.
  - rewrite (Hl x) by left. simpl. lia.
  - intros y Hy. apply Hl. by right.
Qed.

(** Rebuilding a map from its keys. *)
Lemma fold_insert_lookup `{Countable K} {A} (l : list (K * A)) (m0 : gmap K A) k :
  NoDup l.*1 ->
  foldl (fun m kv => <[fst kv := snd kv]> m) m0 l !! k = match (list_to_map l : gmap K A) !! k with Some v => Some v | None => m0 !! k end.
Proof.
  revert m0. induction l as [|[k' v'] l IH]; intros m0 Hnd; simpl; [by rewrite lookup_empty|].
  apply NoDup_cons in Hnd as [Hni Hnd]. rewrite IH by done. rewrite lookup_insert.
  destruct (decide (k' = k)) as [->|Hne]; [|by rewrite lookup_insert_ne].
  rewrite lookup_insert_eq. rewrite (not_elem_of_list_to_map_1 l k) by done. done.
Qed.

Lemma rebuild_map `{Countable K} {A} (dflt : A) (m : gmap K A) ks :
  NoDup ks -> (forall k, k ∈ ks <-> is_Some (m !! k)) ->
  foldl (fun m kv => <[fst kv := snd kv]> m) ∅ (map (fun k => (k, default dflt (m !! k))) ks) = m.
Proof.
  intros Hnd Hks. set (l := map _ ks).
  assert (Hfst : l.*1 = ks) by (unfold l; rewrite <- list_fmap_compose; apply list_fmap_id).
  apply map_eq. intros k. rewrite fold_insert_lookup by (by rewrite Hfst). rewrite lookup_empty.
  destruct (m !! k) as [v|] eqn:E.
  - rewrite (elem_of_list_to_map_1 l k v); [done|by rewrite Hfst|]. unfold l. apply list_elem_of_fmap.
    exists k. rewrite E. split; [done|]. apply Hks. eauto.
  - rewrite not_elem_of_list_to_map_1; [done|]. rewrite Hfst, Hks, E. by intros [? ?].
Qed.

Lemma map_keys_nodup `{Countable K} {A} (m : gmap K A) : NoDup (map fst (map_to_list m)).
Proof. exact (NoDup_fst_map_to_list m). Qed.

Lemma map_keys_elem `{Countable K} {A} (m : gmap K A) k : k ∈ map fst (map_to_list m) <-> is_Some (m !! k).
Proof.
  rewrite list_elem_of_fmap. split.
  - intros ([k' v] & -> & Hin%elem_of_map_to_list). eauto.
  - intros [v Hv]. exists (k, v). split; [done|]. by apply elem_of_map_to_list.
Qed.

Lemma sortedEpochs_facts {A} (m : gmap Z A) :
  NoDup (sortedEpochs m) /\ (forall k, k ∈ sortedEpochs m <-> is_Some (m !! k)) /\ length (sortedEpochs m) = size m.
Proof.
  unfold sortedEpochs. split_and!.
  - rewrite merge_sort_Permutation. apply map_keys_nodup.
  - intros k. rewrite merge_sort_Permutation. apply map_keys_elem.
  - rewrite (Permutation_length (merge_sort_Permutation Z.le _)), length_map. apply length_map_to_list.
Qed.

Lemma sortedKeys_facts {A} (m : gmap Hash A) :
  let ks := sortHashes (map fst (map_to_list m)) in
  NoDup ks /\ (forall k, k ∈ ks <-> is_Some (m !! k)) /\ length ks = size m.
Proof.
  cbv zeta. split_and!.
  - rewrite sortHashes_perm. apply map_keys_nodup.
  - intros k. rewrite elem_of_sortHashes. apply map_keys_elem.
  - rewrite length_sortHashes, length_map. apply length_map_to_list.
Qed.

Lemma epochFees_roundtrip (m : gmap Z Z) :
  map_Forall (fun k v => is_u64 k /\ is_u64 v) m -> Z.of_nat (size m) < two32 ->
  decodeEpochFees (encodeEpochFees m) = if bool_decide (m = ∅) then None else Some m.
Proof.
  intros Hm Hsz. destruct (sortedEpochs_facts m) as (Hnd & Hin & Hlen).
  unfold decodeEpochFees, encodeEpochFees. cbv zeta.
  destruct (count_prefix (length (sortedEpochs m))
    (concat (map (fun e => be_enc 8 e ++ be_enc 8 (default 0 (m !! e))) (sortedEpochs m)))) as (H1 & H2 & H3); [lia|].
  rewrite H1, H2, H3, length_app, length_be_enc.
  rewrite (length_concat_const _ 16) by (intros; rewrite length_app, !length_be_enc; lia).
  destruct (Nat.ltb_spec (4 + length (sortedEpochs m) * 16) (4 + length (sortedEpochs m) * 16)); [lia|]. rewrite orb_false_r, Hlen.
  case_bool_decide as He.
  { subst m. by rewrite map_size_empty. }
  destruct (Nat.eqb_spec (size m) 0) as [E|_]; [by apply map_size_empty_inv in E|]. f_equal. rewrite <- Hlen.
  rewrite <- (app_nil_r (concat _)).
  rewrite (decodeRecords_map 16 _ _ (fun e => (e, default 0 (m !! e)))).
  - by apply rebuild_map.
  - intros e He'. rewrite length_app, !length_be_enc. split; [done|]. unfold feeRecord.
    rewrite take_be, drop_be. rewrite take_ge by (rewrite length_be_enc; lia).
    apply Hin in He' as [v Hv]. destruct (Hm e v Hv) as [[] []]. rewrite Hv. simpl default.
    rewrite !be_dec_enc by (simpl; lia). done.
Qed.

Lemma counterSet_roundtrip (m : gmap Hash Z) :
  map_Forall (fun k v => length k = 32%nat /\ is_u64 v) m -> Z.of_nat (size m) < two32 ->
  decodeCounterSet (encodeCounterSet m) = if bool_decide (m = ∅) then None else Some m.
Proof.
  intros Hm Hsz. destruct (sortedKeys_facts m) as (Hnd & Hin & Hlen).
  unfold decodeCounterSet, encodeCounterSet. cbv zeta. set (ks := sortHashes (map fst (map_to_list m))) in *.
  destruct (count_prefix (length ks) (concat (map (fun k => k ++ be_enc 8 (default 0 (m !! k))) ks))) as (H1 & H2 & H3); [lia|].
  assert (Hk : forall k, k ∈ ks -> length k = 32%nat /\ exists v, m !! k = Some v /\ is_u64 v).
  { intros k [v Hv]%Hin. destruct (Hm k v Hv). eauto. }
  rewrite H1, H2, H3, length_app, length_be_enc.
  rewrite (length_concat_const _ 40) by (intros k (Hl & _)%Hk; rewrite length_app, length_be_enc; lia).
  destruct (Nat.ltb_spec (4 + length ks * 40) (4 + length ks * 40)); [lia|]. rewrite orb_false_r, Hlen.
  case_bool_decide as He.
  { subst m. by rewrite map_size_empty. }
  destruct (Nat.eqb_spec (size m) 0) as [E|_]; [by apply map_size_empty_inv in E|]. f_equal. rewrite <- Hlen.
  rewrite <- (app_nil_r (concat _)).
  rewrite (decodeRecords_map 40 _ _ (fun k => (k, default 0 (m !! k)))).
  - by apply rebuild_map.
  - intros k (Hl & v & Hv & [])%Hk. rewrite length_app, length_be_enc. split; [lia|]. unfold counterRecord.
    rewrite Hv. simpl default. rewrite take_app_le, take_ge by lia. rewrite toHash_id by done.
    rewrite drop_app_ge by lia. rewrite Hl, Nat.sub_diag, drop_0. rewrite take_ge by (rewrite length_be_enc; lia).
    rewrite be_dec_enc by (simpl; lia). done.
Qed.

Lemma hashList_roundtrip (l : list Hash) :
  Forall (fun k => length k = 32%nat) l -> Z.of_nat (length l) < two32 ->
  decodeHashList (encodeHashList l) = if Nat.eqb (length l) 0 then None else Some (sortHashes l).
Proof.
  intros Hl Hsz. unfold decodeHashList, encodeHashList. cbv zeta.
  assert (Hs : forall k, k ∈ sortHashes l -> length k = 32%nat).
  { intros k Hk. rewrite Forall_forall in Hl. apply Hl. by apply elem_of_sortHashes. }
  pose proof (length_sortHashes l) as Hlen.
  destruct (count_prefix (length (sortHashes l)) (concat (sortHashes l))) as (H1 & H2 & H3); [lia|].
  assert (Hid : concat (sortHashes l) = concat (map id (sortHashes l))) by (by rewrite map_id).
  rewrite H1, H2, H3, length_app, length_be_enc, Hid.
  rewrite (length_concat_const id 32) by done.
  destruct (Nat.ltb_spec (4 + length (sortHashes l) * 32) (4 + length (sortHashes l) * 32)); [lia|].
  rewrite orb_false_r, Hlen. destruct (Nat.eqb_spec (length l) 0); [done|]. f_equal.
  rewrite <- Hlen. rewrite <- (app_nil_r (concat _)).
  rewrite (decodeRecords_map 32 id toHash id) by (intros k Hk%Hs; by rewrite toHash_id). apply map_id.
Qed.

(** *** Liveness per epoch *)

Definition bucketsOk (m : gmap Z (gmap Hash Z)) : Prop :=
  map_Forall (fun e b => is_u64 e /\ b ≠ ∅ /\ map_Forall (fun k v => length k = 32%nat /\ is_u64 v) b /\
                         Z.of_nat (length (encodeCounterSet b)) < two32) m.

Lemma encodeCounterSet_size b :
  map_Forall (fun k v => length k = 32%nat /\ is_u64 v) b -> (size b <= length (encodeCounterSet b))%nat.
Proof.
  intros Hb. unfold encodeCounterSet. cbv zeta. destruct (sortedKeys_facts b) as (_ & Hin & Hlen).
  rewrite length_app, (length_concat_const _ 40); [lia|].
  intros k [v Hv]%Hin. destruct (Hb k v Hv). rewrite length_app, length_be_enc. lia.
Qed.

Lemma decodeCounterEpochs_map (m : gmap Z (gmap Hash Z)) es rest acc :
  bucketsOk m -> (forall e, e ∈ es -> is_Some (m !! e)) ->
  decodeCounterEpochs (length es)
    (concat (map (fun e => appendLenPrefixed (be_enc 8 e) (encodeCounterSet (default ∅ (m !! e)))) es) ++ rest) acc =
  Some (foldl (fun m kv => <[fst kv := snd kv]> m) acc (map (fun e => (e, default ∅ (m !! e))) es)).
Proof.
  intros Hm. revert acc. induction es as [|e es IH]; intros acc Hes; [done|].
  cbn [length decodeCounterEpochs map concat foldl]. destruct (Hes e ltac:(left)) as [b Hb].
  destruct (Hm e b Hb) as ([] & Hne & Hok & Hsz). rewrite Hb. simpl default.
  change (appendLenPrefixed (be_enc 8 e) (encodeCounterSet b))
    with (be_enc 8 e ++ be_enc 4 (u32 (Z.of_nat (length (encodeCounterSet b)))) ++ encodeCounterSet b).
  rewrite <- !app_assoc. destruct (Nat.ltb_spec (length (be_enc 8 e ++ be_enc 4 (u32 (Z.of_nat (length (encodeCounterSet b)))) ++ encodeCounterSet b ++
    concat (map (fun e => appendLenPrefixed (be_enc 8 e) (encodeCounterSet (default ∅ (m !! e)))) es) ++ rest)) 8) as [Hlt|_].
  { rewrite length_app, length_be_enc in Hlt. lia. }
  rewrite take_be, drop_be, read_prefix by done. simpl default. rewrite be_dec_enc by (simpl; lia).
  pose proof (encodeCounterSet_size b Hok). rewrite counterSet_roundtrip by (done || lia). rewrite bool_decide_eq_false_2 by done.
  apply IH. intros e' He'. apply Hes. by right.
Qed.

Lemma perEpochCounters_roundtrip (m : gmap Z (gmap Hash Z)) :
  bucketsOk m -> Z.of_nat (size m) < two32 ->
  decodePerEpochCounters (encodePerEpochCounters m) = if bool_decide (m = ∅) then None else Some m.
Proof.
  intros Hm Hsz. destruct (sortedEpochs_facts m) as (Hnd & Hin & Hlen).
  unfold decodePerEpochCounters, encodePerEpochCounters. cbv zeta.
  destruct (count_prefix (length (sortedEpochs m)) (concat (map (fun e => appendLenPrefixed (be_enc 8 e)
    (encodeCounterSet (default ∅ (m !! e)))) (sortedEpochs m)))) as (H1 & H2 & H3); [lia|].
  rewrite H1, H2, H3. rewrite Hlen at 1. case_bool_decide as He.
  { subst m. by rewrite map_size_empty. }
  destruct (Nat.eqb_spec (size m) 0) as [E|_]; [by apply map_size_empty_inv in E|].
  rewrite <- (app_nil_r (concat _)), decodeCounterEpochs_map by (done || (intros e; apply Hin)).
  cbn [mbind option_bind]. rewrite rebuild_map by done. by rewrite bool_decide_eq_false_2.
Qed.

(** *** Holder snapshots *)

Definition recordOk (v : ValidatorInfo) : Prop :=
  length (Pubkey v) = 32%nat /\ length (BLSPubkey v) = 48%nat /\ is_u64 (SelfStake v) /\ is_u64 (DelegatedTotal v) /\
  Z.of_nat (length (QUICAddr v)) < 65536.

Definition unrewarded (v : ValidatorInfo) : ValidatorInfo := set_RewardCoin zeroHash v.

Lemma length_validatorRecord v : recordOk v -> length (validatorRecord v) = (99 + length (QUICAddr v))%nat.
Proof. intros (H1 & H2 & _). unfold validatorRecord. rewrite !length_app, !length_be_enc, H1, H2. simpl. lia. Qed.

Lemma decodeInfo_record v tail rest :
  recordOk v -> (tail <= length rest)%nat ->
  decodeInfo (validatorRecord v ++ rest) tail = Some (unrewarded v, length (validatorRecord v)).
Proof.
  intros Hv Ht. pose proof (length_validatorRecord v Hv) as Hl. destruct Hv as (H1 & H2 & [] & [] & H3).
  unfold decodeInfo. rewrite length_app, Hl. unfold fixedRecord.
  destruct (Nat.ltb_spec (99 + length (QUICAddr v) + length rest) 99); [lia|]. cbv zeta.
  unfold validatorRecord in *. rewrite <- !app_assoc.
  assert (E97 : slice 97 2 (Pubkey v ++ BLSPubkey v ++ be_enc 8 (SelfStake v) ++ be_enc 8 (DelegatedTotal v) ++
    [boolByte (Jailed v)] ++ be_enc 2 (Z.of_nat (length (QUICAddr v)) mod 65536) ++ QUICAddr v ++ rest) =
    be_enc 2 (Z.of_nat (length (QUICAddr v)) mod 65536)).
  { repeat (rewrite slice_app_r by (rewrite ?H1, ?H2, ?length_be_enc; simpl; lia); rewrite ?H1, ?H2, ?length_be_enc; simpl Nat.sub).
    apply slice_app_l, length_be_enc. }
  rewrite E97, Z.mod_small, be_dec_enc, Nat2Z.id by (simpl; lia).
  destruct (Nat.ltb_spec (99 + length (QUICAddr v) + length rest) (99 + length (QUICAddr v) + tail)); [lia|].
  do 2 f_equal.
  assert (E0 : slice 0 32 (Pubkey v ++ BLSPubkey v ++ be_enc 8 (SelfStake v) ++ be_enc 8 (DelegatedTotal v) ++
    [boolByte (Jailed v)] ++ be_enc 2 (Z.of_nat (length (QUICAddr v))) ++ QUICAddr v ++ rest) = Pubkey v) by (by apply slice_app_l).
  rewrite E0, toHash_id by done. unfold unrewarded, set_RewardCoin. f_equal.
  all: repeat (rewrite slice_app_r by (rewrite ?H1, ?H2, ?length_be_enc; simpl; lia); rewrite ?H1, ?H2, ?length_be_enc; simpl Nat.sub).
  all: rewrite ?slice_app_l by (rewrite ?length_be_enc; done).
  all: rewrite ?be_dec_enc by (simpl; lia); try done.
  by destruct (Jailed v).
Qed.

Lemma addFrozen_unrewarded set v : addFrozen set (unrewarded v) = addFrozen set v.
Proof. done. Qed.

Lemma decodeHolders_map l rest set :
  Forall recordOk l -> decodeHolders (length l) (concat (map validatorRecord l) ++ rest) set = foldl addFrozen set l.
Proof.
  intros Hl. revert set. induction Hl as [|v l Hv Hl IH]; intros set; [done|].
  cbn [length decodeHolders map concat foldl]. rewrite <- app_assoc. unfold decodeValidatorRecord.
  rewrite (decodeInfo_record v 0) by (done || lia). cbn [mbind option_bind fst snd].
  rewrite addFrozen_unrewarded, drop_app_ge, Nat.sub_diag, drop_0 by lia. apply IH.
Qed.

Lemma foldl_record l : forall buf, foldl appendValidatorRecord buf l = buf ++ concat (map validatorRecord l).
Proof.
  induction l as [|v l IH]; intros buf; cbn [foldl map concat]; [by rewrite app_nil_r|].
  rewrite IH. unfold appendValidatorRecord. by rewrite <- app_assoc.
Qed.

Lemma holderSnapshot_roundtrip vs :
  Forall recordOk (All vs) -> Z.of_nat (length (All vs)) < two32 ->
  decodeHolderSnapshot (encodeHolderSnapshot (Some vs)) = snapshotOf vs.
Proof.
  intros Hv Hsz. unfold decodeHolderSnapshot, encodeHolderSnapshot. cbv zeta. rewrite foldl_record.
  destruct (count_prefix (length (All vs)) (concat (map validatorRecord (All vs))) Hsz) as (H1 & H2 & H3).
  rewrite H1, H2, H3. rewrite <- (app_nil_r (concat _)). by apply decodeHolders_map.
Qed.

Lemma decodeLive_map l :
  Forall (fun v => recordOk v /\ length (RewardCoin v) = 32%nat) l ->
  decodeLive (length l) (concat (map (fun v => validatorRecord v ++ RewardCoin v) l)) = l.
Proof.
  intros Hl. induction Hl as [|v l [Hv Hc] Hl IH]; [done|]. cbn [length decodeLive map concat].
  unfold decodeLiveValidatorRecord. rewrite <- app_assoc. rewrite (decodeInfo_record v 32) by (done || (rewrite length_app; lia)).
  cbn [mbind option_bind]. rewrite slice_app_r by lia. rewrite Nat.sub_diag, slice_app_l by done.
  f_equal; [by destruct v|]. rewrite drop_app_ge by lia. replace (_ + 32 - _)%nat with 32%nat by lia.
  rewrite drop_app_ge by lia. rewrite Hc, Nat.sub_diag, drop_0. exact IH.
Qed.

(** The live set comes back whole, reward coins and order included. *)
Lemma liveValidators_roundtrip vs :
  Forall (fun v => recordOk v /\ length (RewardCoin v) = 32%nat) (All vs) -> Z.of_nat (length (All vs)) < two32 ->
  decodeLiveValidators (encodeLiveValidators (Some vs)) = Some (All vs).
Proof.
  intros Hv Hsz. unfold decodeLiveValidators, encodeLiveValidators. cbv zeta.
  assert (Hf : forall l buf, foldl (fun buf v => appendValidatorRecord buf v ++ RewardCoin v) buf l =
                 buf ++ concat (map (fun v => validatorRecord v ++ RewardCoin v) l)).
  { clear. induction l as [|v l IH]; intros buf; cbn [foldl map concat]; [by rewrite app_nil_r|].
    rewrite IH. unfold appendValidatorRecord. by rewrite <- !app_assoc. }
  rewrite Hf. destruct (count_prefix (length (All vs)) (concat (map (fun v => validatorRecord v ++ RewardCoin v) (All vs))) Hsz) as (H1 & H2 & H3).
  rewrite H1, H2, H3. f_equal. by apply decodeLive_map.
Qed.

(** ** The blob of a snapshot *)

(** Frozen snapshots: distinct members in frozen form, at least one. *)
Definition holdersOk (set : option ValidatorSet) : Prop :=
  match set with
  | None => True
  | Some vs => snapshotOf vs = vs /\ Len vs ≠ 0 /\ Forall recordOk (All vs)
  end.

Definition membersOk (set : gset Hash) : Prop := set_Forall (fun k => length k = 32%nat) set.

(** Absent and empty are one record. *)
Definition restored (set : option (gset Hash)) : option (gset Hash) :=
  match set with Some s => if bool_decide (s = ∅) then None else Some s | None => None end.

Lemma members_roundtrip s :
  membersOk s -> Z.of_nat (size s) < two32 -> decodeMemberSet (encodeMemberSet s) = if bool_decide (s = ∅) then None else Some s.
Proof.
  intros Hs Hsz. case_bool_decide as He; [subst s; by vm_compute|]. by apply memberSet_decode.
Qed.

Lemma length_encodeMemberSet s : membersOk s -> length (encodeMemberSet s) = (4 + size s * 32)%nat.
Proof.
  intros Hs. unfold encodeMemberSet. cbv zeta. rewrite length_app, length_be_enc, length_concat32.
  - by rewrite length_sortedMemberKeys.
  - apply Forall_forall. intros k Hk. apply Hs, elem_of_elements. by apply elem_of_sortHashes.
Qed.

Lemma length_encodeHolders vs : Forall recordOk (All vs) ->
  (length (All vs) <= length (encodeHolderSnapshot (Some vs)))%nat.
Proof.
  intros Hv. unfold encodeHolderSnapshot. cbv zeta. rewrite foldl_record, length_app.
  assert (length (All vs) <= length (concat (map validatorRecord (All vs))))%nat; [|lia].
  induction Hv as [|v l Hv Hl IH]; [done|]. cbn [map concat length]. rewrite length_app, length_validatorRecord by done. lia.
Qed.

(** One length-prefixed record in front of [rest], whole blob under 4 GiB. *)
Lemma readMemberBlob_app s rest :
  membersOk (default ∅ s) -> Z.of_nat (length (encodeMembers s) + length rest) < two32 ->
  readMemberBlob (be_enc 4 (u32 (Z.of_nat (length (encodeMembers s)))) ++ encodeMembers s ++ rest) = (restored s, rest).
Proof.
  intros Hs Hsz. unfold readMemberBlob.
  destruct (count_prefix (length (encodeMembers s)) (encodeMembers s ++ rest)) as (H1 & H2 & H3); [lia|].
  rewrite H1, H2, H3. cbv zeta. rewrite length_app. unfold u32. rewrite Z.mod_small by lia.
  destruct (Z.ltb_spec (Z.of_nat (length (encodeMembers s) + length rest)) (Z.of_nat (length (encodeMembers s)))); [lia|].
  rewrite take_app_le, take_ge by lia. rewrite drop_app_ge, Nat.sub_diag, drop_0 by lia. f_equal.
  unfold encodeMembers in *. rewrite length_encodeMemberSet in Hsz by done.
  rewrite members_roundtrip by (done || lia). by destruct s.
Qed.

Lemma readHolderBlob_app set rest :
  holdersOk set -> Z.of_nat (length (encodeHolderSnapshot set) + length rest) < two32 ->
  readHolderBlob (be_enc 4 (u32 (Z.of_nat (length (encodeHolderSnapshot set)))) ++ encodeHolderSnapshot set ++ rest) = (set, rest).
Proof.
  intros Hs Hsz. unfold readHolderBlob.
  destruct (count_prefix (length (encodeHolderSnapshot set)) (encodeHolderSnapshot set ++ rest)) as (H1 & H2 & H3); [lia|].
  rewrite H1, H2, H3. cbv zeta. rewrite length_app. unfold u32. rewrite Z.mod_small by lia.
  destruct (Z.ltb_spec (Z.of_nat (length (encodeHolderSnapshot set) + length rest)) (Z.of_nat (length (encodeHolderSnapshot set)))); [lia|].
  rewrite take_app_le, take_ge by lia. rewrite drop_app_ge, Nat.sub_diag, drop_0 by lia.
  destruct set as [vs|].
  - destruct Hs as (Hf & Hne & Hr). pose proof (length_encodeHolders vs Hr).
    rewrite holderSnapshot_roundtrip, Hf by (done || lia). destruct (Z.eqb_spec (Len vs) 0); done.
  - done.
Qed.

(** A length-prefixed record. *)
Definition lp (b : bytes) : bytes := be_enc 4 (u32 (Z.of_nat (length b))) ++ b.

Lemma length_lp b : length (lp b) = (4 + length b)%nat.
Proof. unfold lp. by rewrite length_app, length_be_enc. Qed.

Lemma readLen_lp b rest : Z.of_nat (length b) < two32 -> readLenPrefixed (lp b ++ rest) = (Some b, rest).
Proof. intros Hb. unfold lp. rewrite <- app_assoc. by apply read_prefix. Qed.

Lemma readHolder_lp set rest :
  holdersOk set -> Z.of_nat (length (encodeHolderSnapshot set) + length rest) < two32 ->
  readHolderBlob (lp (encodeHolderSnapshot set) ++ rest) = (set, rest).
Proof. intros Hs Hz. unfold lp. rewrite <- app_assoc. by apply readHolderBlob_app. Qed.

Lemma readMember_lp s rest :
  membersOk (default ∅ s) -> Z.of_nat (length (encodeMembers s) + length rest) < two32 ->
  readMemberBlob (lp (encodeMembers s) ++ rest) = (restored s, rest).
Proof. intros Hs Hz. unfold lp. rewrite <- app_assoc. by apply readMemberBlob_app. Qed.

Section Transfer.
Context {M : Type}.
Implicit Type d : DAG M.

(** What the source of a snapshot holds. *)
Record regimeOk d : Prop := {
  ro_epoch : is_u64 (currentEpoch (d_epochs d));
  ro_start : is_u64 (strictStartRound (d_regime d));
  ro_holders : holdersOk (epochHolders (d_epochs d)) /\ holdersOk (prevEpochHolders (d_epochs d)) /\
               holdersOk (nextEpochHolders (d_epochs d));
  ro_members : membersOk (producedMembers (d_regime d)) /\ membersOk (committedMembers (d_regime d)) /\
               membersOk (pendingRemovals (d_epochs d));
  ro_eligible : membersOk (default ∅ (eligibleHolders (d_epochs d))) /\ membersOk (default ∅ (prevEligibleHolders (d_epochs d))) /\
                membersOk (default ∅ (nextEligibleHolders (d_epochs d)));
  ro_fees : map_Forall (fun k v => is_u64 k /\ is_u64 v) (epochFees (d_rewards d));
  ro_rounds : bucketsOk (epochRoundsProduced (d_rewards d));
  ro_additions : Forall (fun k => length k = 32%nat) (epochAdditions (d_epochs d));
}.

(** No accumulator of its own. *)
Definition freshAccumulators d : Prop :=
  epochFees (d_rewards d) = ∅ /\ epochRoundsProduced (d_rewards d) = ∅ /\
  epochAdditions (d_epochs d) = [] /\ pendingRemovals (d_epochs d) = ∅.

(** The state a joiner [d0] adopts from a source [d]. *)
Definition adopted d0 d : DAG M :=
  let e := d_epochs d in
  let r := d_regime d in
  mkDAG (d_ledger d0)
    (mkRegime (committedMembers r) (producedMembers r) (strictLatched r) (strictStartRound r)
       (transitionRound (d_regime d0)) (fullQuorumAchieved (d_regime d0)) (regimeDirty (d_regime d0)) (producedDirty (d_regime d0)))
    (mkEpochs (currentEpoch e) (epochHolders e) (prevEpochHolders e) (nextEpochHolders e)
       (restored (eligibleHolders e)) (restored (prevEligibleHolders e)) (restored (nextEligibleHolders e))
       (Some (mkSnapshot (currentEpoch e) (epochHolders e) (prevEpochHolders e) (nextEpochHolders e)))
       (pendingRemovals e) (sortHashes (epochAdditions e)))
    (mkRewards (epochFees (d_rewards d)) (epochRoundsProduced (d_rewards d)) (issuanceRateMicro (d_rewards d0))).

Definition blobTail d : bytes :=
  lp (encodeEpochFees (epochFees (d_rewards d))) ++ lp (encodePerEpochCounters (epochRoundsProduced (d_rewards d))) ++
  lp (encodeHashList (epochAdditions (d_epochs d))) ++ lp (encodeMemberSet (pendingRemovals (d_epochs d))).

Lemma encodeRegimeState_lp d :
  encodeRegimeState d =
  (be_enc 8 (currentEpoch (d_epochs d)) ++ [boolByte (strictLatched (d_regime d))] ++ be_enc 8 (strictStartRound (d_regime d))) ++
  lp (encodeHolderSnapshot (epochHolders (d_epochs d))) ++ lp (encodeHolderSnapshot (prevEpochHolders (d_epochs d))) ++
  lp (encodeHolderSnapshot (nextEpochHolders (d_epochs d))) ++ lp (encodeMembers (Some (producedMembers (d_regime d)))) ++
  lp (encodeMembers (eligibleHolders (d_epochs d))) ++ lp (encodeMembers (prevEligibleHolders (d_epochs d))) ++
  lp (encodeMembers (nextEligibleHolders (d_epochs d))) ++ lp (encodeMembers (Some (committedMembers (d_regime d)))) ++ blobTail d.
Proof.
  unfold encodeRegimeState, appendEpochAccumulators, appendHolderBlob, appendMemberBlob, appendLenPrefixed, blobTail, lp.
  cbv zeta. by rewrite <- !app_assoc.
Qed.

Lemma encodeEpochFees_size m : (size m <= length (encodeEpochFees m))%nat.
Proof.
  unfold encodeEpochFees. cbv zeta. destruct (sortedEpochs_facts m) as (_ & _ & Hl).
  rewrite length_app, (length_concat_const _ 16) by (intros; rewrite length_app, !length_be_enc; lia). lia.
Qed.

Lemma encodePerEpoch_size m : (size m <= length (encodePerEpochCounters m))%nat.
Proof.
  unfold encodePerEpochCounters. cbv zeta. destruct (sortedEpochs_facts m) as (_ & _ & <-). rewrite length_app.
  induction (sortedEpochs m) as [|e l IH]; cbn [map concat length]; [lia|].
  rewrite !length_app in *. unfold appendLenPrefixed at 1. rewrite !length_app, !length_be_enc in *. lia.
Qed.

Lemma default_empty {A} (x e : A) `{Decision (x = e)} : default e (if bool_decide (x = e) then None else Some x) = x.
Proof. case_bool_decide as E; [by rewrite E|done]. Qed.

Lemma installAccumulators_encoded d0 d :
  regimeOk d -> freshAccumulators d0 -> Z.of_nat (length (blobTail d)) < two32 ->
  installAccumulators d0 (encodeEpochFees (epochFees (d_rewards d))) (encodePerEpochCounters (epochRoundsProduced (d_rewards d)))
    (encodeHashList (epochAdditions (d_epochs d))) (encodeMemberSet (pendingRemovals (d_epochs d))) =
  set_epochs (set_rewards d0 (mkRewards (epochFees (d_rewards d)) (epochRoundsProduced (d_rewards d)) (issuanceRateMicro (d_rewards d0))))
    (let e := d_epochs d0 in mkEpochs (currentEpoch e) (epochHolders e) (prevEpochHolders e) (nextEpochHolders e)
      (eligibleHolders e) (prevEligibleHolders e) (nextEligibleHolders e) (epochMirror e)
      (pendingRemovals (d_epochs d)) (sortHashes (epochAdditions (d_epochs d)))).
Proof.
  intros Hok (F1 & F2 & F3 & F4) Hsz. unfold blobTail in Hsz. rewrite !length_app, !length_lp in Hsz.
  pose proof (encodeEpochFees_size (epochFees (d_rewards d))). pose proof (encodePerEpoch_size (epochRoundsProduced (d_rewards d))).
  assert (Hadd : (length (epochAdditions (d_epochs d)) <= length (encodeHashList (epochAdditions (d_epochs d))))%nat).
  { unfold encodeHashList. cbv zeta. rewrite length_app, length_be_enc, length_concat32, length_sortHashes; [lia|].
    apply Forall_forall. intros k Hk. pose proof (ro_additions d Hok) as HA. rewrite Forall_forall in HA. apply HA. by apply elem_of_sortHashes. }
  pose proof (length_encodeMemberSet (pendingRemovals (d_epochs d)) (proj2 (proj2 (ro_members d Hok)))) as Hrem.
  unfold installAccumulators.
  rewrite epochFees_roundtrip by (apply Hok || lia). rewrite perEpochCounters_roundtrip by (apply Hok || lia).
  rewrite hashList_roundtrip by (apply Hok || lia). rewrite members_roundtrip by (apply Hok || lia).
  rewrite F1, F2, F3, F4.
  assert (E4 : default [] (if Nat.eqb (length (epochAdditions (d_epochs d))) 0 then None else Some (sortHashes (epochAdditions (d_epochs d)))) = sortHashes (epochAdditions (d_epochs d)))
    by (by destruct (epochAdditions (d_epochs d))).
  rewrite !default_empty, E4. done.
Qed.

Lemma restored_default (s : gset Hash) : default ∅ (restored (Some s)) = s.
Proof. apply default_empty. Qed.

Lemma regime_transfer d0 d :
  regimeOk d -> freshAccumulators d0 -> Z.of_nat (length (encodeRegimeState d)) < two32 ->
  applyRegimeState d0 (encodeRegimeState d) = adopted d0 d.
Proof.
  intros Hok Hf Hsz. rewrite encodeRegimeState_lp in *.
  set (hdr := be_enc 8 (currentEpoch (d_epochs d)) ++ [boolByte (strictLatched (d_regime d))] ++ be_enc 8 (strictStartRound (d_regime d))) in *.
  assert (Hhdr : length hdr = 17%nat) by (unfold hdr; rewrite !length_app, !length_be_enc; done).
  destruct (ro_holders d Hok) as (A1 & A2 & A3), (ro_members d Hok) as (B1 & B2 & B3), (ro_eligible d Hok) as (C1 & C2 & C3).
  rewrite !length_app, !length_lp, Hhdr in Hsz.
  unfold applyRegimeState. rewrite length_app, Hhdr.
  match goal with |- context[Nat.ltb (17 + ?n) 17] => destruct (Nat.ltb_spec (17 + n) 17); [lia|] end. cbv zeta.
  rewrite drop_app_ge by lia. rewrite Hhdr, Nat.sub_diag, drop_0.
  rewrite !readHolder_lp by (done || (rewrite ?length_app, ?length_lp; lia)).
  rewrite !readMember_lp by (done || (rewrite ?length_app, ?length_lp; lia)).
  rewrite !restored_default.
  assert (Hfld : forall rest, be_dec (take 8 (hdr ++ rest)) = currentEpoch (d_epochs d) /\
     be_dec (slice 8 1 (hdr ++ rest)) = boolByte (strictLatched (d_regime d)) /\
     be_dec (slice 9 8 (hdr ++ rest)) = strictStartRound (d_regime d)).
  { intros rest. destruct (ro_epoch d Hok), (ro_start d Hok). unfold hdr. rewrite <- !app_assoc. split_and!.
    - rewrite take_be, be_dec_enc by (simpl; lia). done.
    - rewrite slice_app_r by (rewrite length_be_enc; lia). rewrite length_be_enc. simpl Nat.sub.
      rewrite slice_app_l by done. by destruct (strictLatched (d_regime d)).
    - rewrite slice_app_r by (rewrite length_be_enc; lia). rewrite length_be_enc. simpl Nat.sub.
      rewrite slice_app_r by done. simpl Nat.sub. rewrite slice_app_l by apply length_be_enc. rewrite be_dec_enc by (simpl; lia). done. }
  match goal with |- context[take 8 (hdr ++ ?r)] => destruct (Hfld r) as (-> & -> & ->) end.
  assert (Ht : Z.of_nat (length (blobTail d)) < two32) by lia.
  unfold readEpochAccumulators, blobTail. pose proof Ht as Ht'. unfold blobTail in Ht'. rewrite !length_app, !length_lp in Ht'.
  rewrite !readLen_lp by lia. rewrite <- (app_nil_r (lp (encodeMemberSet _))), readLen_lp by lia. cbn [from_option id].
  rewrite installAccumulators_encoded; [|done|destruct Hf as (? & ? & ? & ?); done|done].
  unfold publishEpochMirror, adopted, set_regime, set_epochs, set_rewards. simpl. by destruct (strictLatched (d_regime d)).
Qed.

End Transfer.
