(* ===== verification/Resume.v ===== *)
(** * Resuming from persisted or transferred state

    What a node that restarts, or joins from a snapshot, decides with the state
    it restored (regime_sync.go, epoch_persist.go) compared with the node that
    wrote it. *)

From S2P Require Import Prelude Types Fees Validators Stake Thermostat Storage Tracker Domains Staged Coins Ledger Ops Dag Vertices Anchor Persist.

(** ** What the anchor rule reads of the DAG *)

Section Reads.
Context {M : Type} (X : Crypto) (c : Config) (d d' : DAG M).
Context (Hh : forall e, HoldersForEpoch d' e = HoldersForEpoch d e).
Context (Hp : forall r, anchorProducerFor X c d' r = anchorProducerFor X c d r).
Context (Hr : forall r, roundIsRelaxed c d' r = roundIsRelaxed c d r).

Lemma citersOf_same r : citersOf c d' r = citersOf c d r.
Proof using Hh. apply Hh. Qed.

Lemma directAnchorVerdict_same s r : directAnchorVerdict X c d' s r = directAnchorVerdict X c d s r.
Proof using Hh Hp Hr. unfold directAnchorVerdict. by rewrite Hp, citersOf_same, Hr. Qed.

Lemma deadDesignatedProducer_same s r : deadDesignatedProducer X c d' s r = deadDesignatedProducer X c d s r.
Proof using Hh Hp. unfold deadDesignatedProducer. by rewrite Hp, citersOf_same. Qed.

Lemma certImpossibility_same s r : certImpossibility X c d' s r = certImpossibility X c d s r.
Proof using Hh Hp Hr. unfold certImpossibility. by rewrite deadDesignatedProducer_same, Hr, Hp, citersOf_same. Qed.

Lemma resolveIndirect_same s r x : resolveIndirect X c d' s r x = resolveIndirect X c d s r x.
Proof using Hh Hp Hr.
  unfold resolveIndirect, relaxedSupporterStillPossible. by rewrite Hp, Hr, deadDesignatedProducer_same, citersOf_same.
Qed.

Lemma scanPastUndecided_same s r q : scanPastUndecided X c d' s r q = scanPastUndecided X c d s r q.
Proof using Hh Hp Hr.
  unfold scanPastUndecided, adjacentCertifyAgrees, designatedRoundVertices.
  by rewrite certImpossibility_same, deadDesignatedProducer_same, !Hp.
Qed.

Lemma anchorStatus_same s r : anchorStatus X c d' s r = anchorStatus X c d s r.
Proof using Hh Hp Hr.
  unfold anchorStatus. induction (seqZ _ _) as [|q l IH]; cbn [scanRounds]; [done|].
  rewrite directAnchorVerdict_same. destruct (directAnchorVerdict X c d s q) as [[| | |] w];
    by rewrite ?resolveIndirect_same, ?scanPastUndecided_same, ?IH.
Qed.

End Reads.

(** ** A joiner decides like its source *)

Lemma eligibleKeys_restored vs s : eligibleKeys vs (restored s) = eligibleKeys vs s.
Proof. destruct s as [s|]; [|done]. simpl. case_bool_decide as E; [|done]. subst s. done. Qed.

Section Joiner.
Context {M : Type}.
Implicit Type d : DAG M.

(** The quad is published, and the genesis epoch froze no successor. *)
Record published d : Prop := {
  pb_mirror : epochMirror (d_epochs d) = Some (mkSnapshot (currentEpoch (d_epochs d)) (epochHolders (d_epochs d))
                (prevEpochHolders (d_epochs d)) (nextEpochHolders (d_epochs d)));
  pb_genesis : currentEpoch (d_epochs d) = 0 -> nextEligibleHolders (d_epochs d) = None;
}.

Lemma adopted_holders d0 d e : published d -> HoldersForEpoch (adopted d0 d) e = HoldersForEpoch d e.
Proof. intros Hpub. unfold HoldersForEpoch. rewrite (pb_mirror d Hpub). done. Qed.

Lemma adopted_eligible d0 d e vs :
  published d -> eligibleKeys vs (eligibleForEpoch (adopted d0 d) e) = eligibleKeys vs (eligibleForEpoch d e).
Proof.
  intros Hpub. unfold eligibleForEpoch, adopted. cbn [d_epochs currentEpoch eligibleHolders prevEligibleHolders nextEligibleHolders].
  destruct (_ =? _); [apply eligibleKeys_restored|]. destruct (_ && _); [apply eligibleKeys_restored|].
  destruct (e =? _); [|done]. destruct (Z.eqb_spec (currentEpoch (d_epochs d)) 0) as [E|E].
  - rewrite (pb_genesis d Hpub E). simpl. apply eligibleKeys_restored.
  - destruct (nextEligibleHolders (d_epochs d)) as [s|] eqn:En; [|done]. simpl.
    case_bool_decide as Es; [subst s; done|done].
Qed.

Lemma adopted_decides (X : Crypto) (c : Config) d0 d s round : published d -> anchorStatus X c (adopted d0 d) s round = anchorStatus X c d s round.
Proof.
  intros Hpub. apply anchorStatus_same.
  - intros e. by apply adopted_holders.
  - intros r. unfold anchorProducerFor. rewrite adopted_holders by done.
    destruct (HoldersForEpoch d _) as [vs|]; [|done]. by rewrite adopted_eligible.
  - intros r. done.
Qed.

(** A fresh joiner that applies the regime blob of a node decides every round as that
    node does on every store, and has its members, produced set, fee and liveness buckets,
    pending removals and additions. *)
Theorem synced_node_decides_alike (X : Crypto) (c : Config) d0 d s round :
  regimeOk d -> published d -> freshAccumulators d0 -> Z.of_nat (length (encodeRegimeState d)) < two32 ->
  let d' := applyRegimeState d0 (encodeRegimeState d) in
  anchorStatus X c d' s round = anchorStatus X c d s round /\
  committedMembers (d_regime d') = committedMembers (d_regime d) /\ producedMembers (d_regime d') = producedMembers (d_regime d) /\
  epochFees (d_rewards d') = epochFees (d_rewards d) /\ epochRoundsProduced (d_rewards d') = epochRoundsProduced (d_rewards d) /\
  pendingRemovals (d_epochs d') = pendingRemovals (d_epochs d) /\ epochAdditions (d_epochs d') ≡ₚ epochAdditions (d_epochs d).
Proof.
  intros Hok Hpub Hf Hsz. cbv zeta. rewrite regime_transfer by done.
  split; [by apply adopted_decides|split_and!; try done; apply sortHashes_perm].
Qed.

End Joiner.

(** *** A committee in its second epoch *)

Definition frozenPair : ValidatorSet :=
  foldl addFrozen (NewValidatorSet [])
    [mkInfo (h 1) (str "10.0.0.1:9000") zeroBLS 100 7 false zeroHash; mkInfo (h 2) [] zeroBLS 50 0 true zeroHash].

Definition sourceDag : DAG (gmap bytes bytes) :=
  mkDAG emptyLedger (mkRegime {[ h 1; h 2 ]} {[ h 1 ]} true 39 9 true false false)
    (mkEpochs 1 (Some frozenPair) (Some frozenPair) None (Some {[ h 1 ]}) (Some ∅) None
      (Some (mkSnapshot 1 (Some frozenPair) (Some frozenPair) None)) {[ h 2 ]} [h 3])
    (mkRewards {[ 0 := 70; 1 := 30 ]} {[ 1 := {[ h 1 := 4 ]} ]} 0).

Lemma sourceDag_ok : regimeOk sourceDag.
Proof.
  split; try (split_and!); try (unfold is_u64; simpl; lia).
  all: try (apply (bool_decide_unpack _); vm_compute; exact I).
  all: try (split_and!; [vm_compute; reflexivity|vm_compute; discriminate|]).
  all: try (repeat constructor; unfold recordOk, is_u64; simpl; lia).
Qed.

Lemma sourceDag_published : published sourceDag.
Proof. split; [reflexivity|simpl; lia]. Qed.

(** A fresh joiner. *)
Definition joinerDag : DAG (gmap bytes bytes) := emptyDag.

Theorem synced_node_decides_alike_witness :
  let d' := applyRegimeState joinerDag (encodeRegimeState sourceDag) in
  anchorStatus (mkCrypto (fun b => b) (fun _ => []) (fun _ _ _ => true) (fun _ _ _ _ => true)) regimeConfig d' diamond 1 =
  anchorStatus (mkCrypto (fun b => b) (fun _ => []) (fun _ _ _ => true) (fun _ _ _ _ => true)) regimeConfig sourceDag diamond 1 /\
  epochFees (d_rewards d') = {[ 0 := 70; 1 := 30 ]}.
Proof.
  destruct (synced_node_decides_alike (mkCrypto (fun b => b) (fun _ => []) (fun _ _ _ => true) (fun _ _ _ _ => true))
    regimeConfig joinerDag sourceDag diamond 1 sourceDag_ok sourceDag_published) as (H1 & _ & _ & H2 & _).
  - vm_compute. done.
  - vm_compute. reflexivity.
  - split; [exact H1|exact H2].
Defined.

(** ** Stale accumulators

    A joiner whose data directory still queues a removal keeps it: the source's
    empty record installs nothing, although the source's regime is adopted. *)

Definition staleDag : DAG (gmap bytes bytes) :=
  mkDAG emptyLedger (mkRegime ∅ ∅ false 0 (-1) false false false)
    (mkEpochs 0 None None None None None None None {[ h 2 ]} [h 4]) (mkRewards {[ 0 := 5 ]} ∅ 0).

Definition settledDag : DAG (gmap bytes bytes) :=
  mkDAG emptyLedger (mkRegime {[ h 1; h 2 ]} {[ h 1 ]} true 39 9 true false false)
    (mkEpochs 1 (Some frozenPair) (Some frozenPair) None (Some {[ h 1 ]}) None None
      (Some (mkSnapshot 1 (Some frozenPair) (Some frozenPair) None)) ∅ []) (mkRewards ∅ ∅ 0).

Theorem sync_keeps_stale_accumulators :
  let d' := applyRegimeState staleDag (encodeRegimeState settledDag) in
  currentEpoch (d_epochs d') = 1 /\ pendingRemovals (d_epochs settledDag) = ∅ /\ pendingRemovals (d_epochs d') = {[ h 2 ]} /\
  epochAdditions (d_epochs d') = [h 4] /\ epochFees (d_rewards d') = {[ 0 := 5 ]}.
Proof. vm_compute. done. Qed.

(** ** A restarted node decides as before

    The batch of [advanceCommitCursor] at a boundary or after a regime change,
    read back into a freshly constructed DAG. *)

Section Restart.
Context {M : Type}.
Implicit Type d : DAG M.

Definition batchOf d : list (bytes * bytes) := epochStateKVs d ++ [liveValidatorsKV d].

Definition batchKeys (latched : bool) : list bytes :=
  map metaKey ["commitCursor"; "currentEpoch"; "epochHolders"; "prevEpochHolders"; "nextEpochHolders"; "producedMembers";
    "eligibleHolders"; "prevEligibleHolders"; "nextEligibleHolders"; "committedMembers"]%string ++
  (if latched then [metaKey "strictStartRound"] else []) ++
  map metaKey ["epochFees"; "epochRoundsProduced"; "epochAdditions"; "pendingRemovals"; "liveValidators"]%string.

Lemma batchKeys_nodup latched : NoDup (batchKeys latched).
Proof. destruct latched; apply (bool_decide_unpack _); vm_compute; exact I. Qed.

Lemma batch_keys d cursor : map fst ((metaKey "commitCursor", be_enc 8 cursor) :: batchOf d) = batchKeys (strictLatched (d_regime d)).
Proof. unfold batchOf, epochStateKVs, batchKeys. by destruct (strictLatched (d_regime d)). Qed.

Lemma batch_lookup db cursor d k v :
  (k, v) ∈ batchOf d -> saveCommitCursorBatch db cursor (batchOf d) !! k = Some v.
Proof.
  intros Hin. unfold saveCommitCursorBatch.
  assert (Hnd : NoDup ((metaKey "commitCursor", be_enc 8 cursor) :: batchOf d).*1).
  { change (NoDup (map fst ((metaKey "commitCursor", be_enc 8 cursor) :: batchOf d))). rewrite batch_keys. apply batchKeys_nodup. }
  rewrite fold_insert_lookup by done.
  by rewrite (elem_of_list_to_map_1 ((metaKey "commitCursor", be_enc 8 cursor) :: batchOf d) k v Hnd) by (by right).
Qed.

Lemma batch_other db cursor d k :
  k ∉ batchKeys (strictLatched (d_regime d)) -> saveCommitCursorBatch db cursor (batchOf d) !! k = db !! k.
Proof.
  intros Hni. unfold saveCommitCursorBatch. rewrite fold_insert_lookup.
  - rewrite not_elem_of_list_to_map_1; [done|].
    change (k ∉ map fst ((metaKey "commitCursor", be_enc 8 cursor) :: batchOf d)). by rewrite batch_keys.
  - change (NoDup (map fst ((metaKey "commitCursor", be_enc 8 cursor) :: batchOf d))). rewrite batch_keys. apply batchKeys_nodup.
Qed.

(** The cursor and the live set come back too. *)
Lemma batch_cursor db cursor d : is_u64 cursor -> loadCommitCursor (saveCommitCursorBatch db cursor (batchOf d)) = Some cursor.
Proof.
  intros []. unfold loadCommitCursor, loadMetaUint64, saveCommitCursorBatch.
  assert (Hnd : NoDup ((metaKey "commitCursor", be_enc 8 cursor) :: batchOf d).*1).
  { change (NoDup (map fst ((metaKey "commitCursor", be_enc 8 cursor) :: batchOf d))). rewrite batch_keys. apply batchKeys_nodup. }
  rewrite fold_insert_lookup by done.
  rewrite (elem_of_list_to_map_1 ((metaKey "commitCursor", be_enc 8 cursor) :: batchOf d) _ (be_enc 8 cursor) Hnd) by left.
  cbn [mbind option_bind]. rewrite length_be_enc. cbn [Nat.ltb Nat.leb].
  rewrite take_ge by (rewrite length_be_enc; lia). by rewrite be_dec_enc by (simpl; lia).
Qed.

Lemma meta_bytes db cursor d name v :
  (metaKey name, v) ∈ batchOf d -> loadMetaBytes (saveCommitCursorBatch db cursor (batchOf d)) (metaKey name) = v.
Proof. intros Hin. unfold loadMetaBytes. by rewrite (batch_lookup db cursor d _ v Hin). Qed.

Lemma meta_uint64 db cursor d name z :
  is_u64 z -> (metaKey name, be_enc 8 z) ∈ batchOf d ->
  loadMetaUint64 (saveCommitCursorBatch db cursor (batchOf d)) (metaKey name) = Some z.
Proof.
  intros [] Hin. unfold loadMetaUint64. rewrite (batch_lookup db cursor d _ _ Hin). cbn [mbind option_bind].
  rewrite length_be_enc. cbn [Nat.ltb Nat.leb]. rewrite take_ge by (rewrite length_be_enc; lia). by rewrite be_dec_enc by (simpl; lia).
Qed.

Lemma meta_holders db cursor d name set :
  (metaKey name, encodeHolderSnapshot set) ∈ batchOf d -> holdersOk set -> Z.of_nat (length (encodeHolderSnapshot set)) < two32 ->
  loadHolderSnapshot (saveCommitCursorBatch db cursor (batchOf d)) (metaKey name) = set.
Proof.
  intros Hin Hok Hsz. unfold loadHolderSnapshot. rewrite (meta_bytes db cursor d name _ Hin).
  destruct set as [vs|]; [|done]. destruct Hok as (Hf & Hne & Hr). pose proof (length_encodeHolders vs Hr) as Hl.
  destruct (Nat.eqb_spec (length (encodeHolderSnapshot (Some vs))) 0) as [E|_].
  - exfalso. apply Hne. unfold Len. unfold All in Hl. lia.
  - cbv zeta. rewrite holderSnapshot_roundtrip, Hf by (done || lia). by destruct (Z.eqb_spec (Len vs) 0).
Qed.

Lemma meta_members db cursor d name s :
  (metaKey name, encodeMembers s) ∈ batchOf d -> membersOk (default ∅ s) -> Z.of_nat (length (encodeMembers s)) < two32 ->
  decodeMemberSet (loadMetaBytes (saveCommitCursorBatch db cursor (batchOf d)) (metaKey name)) = restored s.
Proof.
  intros Hin Hok Hsz. rewrite (meta_bytes db cursor d name _ Hin). unfold encodeMembers in *.
  rewrite length_encodeMemberSet in Hsz by done. rewrite members_roundtrip by (done || lia). by destruct s.
Qed.

(** A freshly constructed DAG. *)
Definition bootDag d : Prop :=
  freshAccumulators d /\ strictLatched (d_regime d) = false /\ strictStartRound (d_regime d) = 0.

Definition batchSmall d : Prop :=
  Forall (fun kv => Z.of_nat (length (snd kv)) < two32) (batchOf d) /\ Z.of_nat (length (blobTail d)) < two32.

Lemma small_entry d k v : batchSmall d -> (k, v) ∈ batchOf d -> Z.of_nat (length v) < two32.
Proof. intros [Hs _] Hin. rewrite Forall_forall in Hs. exact (Hs _ Hin). Qed.

Ltac in_batch :=
  solve [unfold batchOf, epochStateKVs, accumulatorKVs, encodeMembers; cbn [app];
         repeat first [apply list_elem_of_here | apply list_elem_of_further | destruct (strictLatched _); cbn [app]]].

Lemma latch_restored d0 d db cursor :
  bootDag d0 -> is_u64 (strictStartRound (d_regime d)) -> (strictLatched (d_regime d) = false -> strictStartRound (d_regime d) = 0) ->
  db !! metaKey "strictStartRound" = None ->
  restoreStrictLatch d0 (saveCommitCursorBatch db cursor (batchOf d)) =
  set_regime d0 (mkRegime (committedMembers (d_regime d0)) (producedMembers (d_regime d0)) (strictLatched (d_regime d))
    (strictStartRound (d_regime d)) (transitionRound (d_regime d0)) (fullQuorumAchieved (d_regime d0))
    (regimeDirty (d_regime d0)) (producedDirty (d_regime d0))).
Proof.
  intros (_ & Hl & Hs0) Hu Hun Hdb. unfold restoreStrictLatch. destruct (strictLatched (d_regime d)) eqn:El.
  - rewrite (meta_uint64 db cursor d "strictStartRound" (strictStartRound (d_regime d)) Hu); [done|].
    unfold batchOf, epochStateKVs. rewrite El. apply elem_of_app. left. apply elem_of_app. right. apply elem_of_app. left. left.
  - unfold loadMetaUint64. rewrite batch_other; [|rewrite El; apply (bool_decide_unpack _); vm_compute; exact I].
    rewrite Hdb. simpl. rewrite Hun by done. destruct d0 as [L r e w]. destruct r. simpl in *. by subst.
Qed.

Lemma restart_transfer d0 d db cursor :
  regimeOk d -> bootDag d0 -> batchSmall d -> committedMembers (d_regime d) ≠ ∅ ->
  (strictLatched (d_regime d) = false -> strictStartRound (d_regime d) = 0) -> db !! metaKey "strictStartRound" = None ->
  restoreEpochState d0 (saveCommitCursorBatch db cursor (batchOf d)) = adopted d0 d.
Proof.
  intros Hok Hboot Hsm Hcm Hun Hdb. unfold restoreEpochState. rewrite latch_restored by (done || apply Hok).
  unfold restoreAccumulators.
  rewrite (meta_bytes db cursor d "epochFees" (encodeEpochFees (epochFees (d_rewards d)))) by in_batch.
  rewrite (meta_bytes db cursor d "epochRoundsProduced" (encodePerEpochCounters (epochRoundsProduced (d_rewards d)))) by in_batch.
  rewrite (meta_bytes db cursor d "epochAdditions" (encodeHashList (epochAdditions (d_epochs d)))) by in_batch.
  rewrite (meta_bytes db cursor d "pendingRemovals" (encodeMemberSet (pendingRemovals (d_epochs d)))) by in_batch.
  rewrite installAccumulators_encoded; [|done|apply Hboot|apply Hsm].
  rewrite (meta_uint64 db cursor d "currentEpoch" (currentEpoch (d_epochs d))) by (apply Hok || in_batch).
  destruct (ro_holders d Hok) as (A1 & A2 & A3), (ro_members d Hok) as (B1 & B2 & B3), (ro_eligible d Hok) as (C1 & C2 & C3).
  rewrite (meta_holders db cursor d "epochHolders" (epochHolders (d_epochs d)))
    by (done || in_batch || (eapply small_entry; [done|in_batch])).
  rewrite (meta_holders db cursor d "prevEpochHolders" (prevEpochHolders (d_epochs d)))
    by (done || in_batch || (eapply small_entry; [done|in_batch])).
  rewrite (meta_holders db cursor d "nextEpochHolders" (nextEpochHolders (d_epochs d)))
    by (done || in_batch || (eapply small_entry; [done|in_batch])).
  rewrite (meta_members db cursor d "producedMembers" (Some (producedMembers (d_regime d))))
    by (done || in_batch || (eapply small_entry; [done|in_batch])).
  rewrite (meta_members db cursor d "eligibleHolders" (eligibleHolders (d_epochs d)))
    by (done || in_batch || (eapply small_entry; [done|in_batch])).
  rewrite (meta_members db cursor d "prevEligibleHolders" (prevEligibleHolders (d_epochs d)))
    by (done || in_batch || (eapply small_entry; [done|in_batch])).
  rewrite (meta_members db cursor d "nextEligibleHolders" (nextEligibleHolders (d_epochs d)))
    by (done || in_batch || (eapply small_entry; [done|in_batch])).
  unfold restoreCommittedMembers.
  rewrite (meta_members db cursor d "committedMembers" (Some (committedMembers (d_regime d))))
    by (done || in_batch || (eapply small_entry; [done|in_batch])).
  rewrite restored_default.
  assert (Hr : restored (Some (committedMembers (d_regime d))) = Some (committedMembers (d_regime d)))
    by (simpl; by rewrite bool_decide_eq_false_2).
  by rewrite Hr.
Qed.

(** C36. A node restarted from the batch of a regime change or boundary reads back its
    cursor, decides every round as before and has its members, produced set, fee and
    liveness buckets. *)
Theorem restarted_node_decides_alike (X : Crypto) (c : Config) d0 d db cursor s round :
  regimeOk d -> published d -> bootDag d0 -> batchSmall d -> committedMembers (d_regime d) ≠ ∅ ->
  (strictLatched (d_regime d) = false -> strictStartRound (d_regime d) = 0) -> db !! metaKey "strictStartRound" = None ->
  is_u64 cursor ->
  let db' := saveCommitCursorBatch db cursor (batchOf d) in
  let d' := restoreEpochState d0 db' in
  loadCommitCursor db' = Some cursor /\
  anchorStatus X c d' s round = anchorStatus X c d s round /\
  committedMembers (d_regime d') = committedMembers (d_regime d) /\ producedMembers (d_regime d') = producedMembers (d_regime d) /\
  epochFees (d_rewards d') = epochFees (d_rewards d) /\ epochRoundsProduced (d_rewards d') = epochRoundsProduced (d_rewards d).
Proof.
  intros Hok Hpub Hboot Hsm Hcm Hun Hdb Hcur. cbv zeta. rewrite batch_cursor by done. rewrite restart_transfer by done.
  split; [done|]. split; [|done]. apply anchorStatus_same.
  - intros e. by apply adopted_holders.
  - intros r. unfold anchorProducerFor. rewrite adopted_holders by done.
    destruct (HoldersForEpoch d _) as [vs|]; [|done]. by rewrite adopted_eligible.
  - intros r. done.
Qed.

End Restart.

Theorem restarted_node_decides_alike_witness :
  let db' := saveCommitCursorBatch ∅ 140 (batchOf sourceDag) in
  let d' := restoreEpochState joinerDag db' in
  loadCommitCursor db' = Some 140 /\
  anchorStatus (mkCrypto (fun b => b) (fun _ => []) (fun _ _ _ => true) (fun _ _ _ _ => true)) regimeConfig d' diamond 1 =
  anchorStatus (mkCrypto (fun b => b) (fun _ => []) (fun _ _ _ => true) (fun _ _ _ _ => true)) regimeConfig sourceDag diamond 1.
Proof.
  destruct (restarted_node_decides_alike (mkCrypto (fun b => b) (fun _ => []) (fun _ _ _ => true) (fun _ _ _ _ => true))
    regimeConfig joinerDag sourceDag ∅ 140 diamond 1 sourceDag_ok sourceDag_published) as (H1 & H2 & _).
  - vm_compute. done.
  - split; [|vm_compute; reflexivity]. apply (bool_decide_unpack _). vm_compute. exact I.
  - apply (bool_decide_unpack _). vm_compute. exact I.
  - vm_compute. discriminate.
  - vm_compute. reflexivity.
  - unfold is_u64. lia.
  - split; [exact H1|exact H2].
Defined.
