(* ===== verification/Smt.v ===== *)
(** * The sparse Merkle tree (internal/index/smt.go, smt_inc.go, smt_oracle.go,
    proof.go)

    The materialised tree with its memoised hashes, the from-scratch oracle it
    is compared with, proofs and their wire format.  blake3 is a parameter; all
    that is used of it is that it returns 32 bytes.  A Go out-of-range panic of
    [bit] at depth 256 is [None]. *)

From S2P Require Import Prelude Types Persist.

Definition treeDepth : nat := 256.
Definition leafPrefix : Z := 0.
Definition internalPrefix : Z := 1.

(** Most significant bit first. *)
Definition bit (h : Hash) (i : nat) : Z := Z.land (Z.shiftr (nth (i / 8) h 0) (7 - Z.of_nat (i mod 8))) 1.

Record entry := mkSmtEntry { en_keyHash : Hash; en_valueHash : Hash; en_value : bytes }.

(** A nil pointer, a leaf with its hash, an internal node with its memoised hash
    and dirty flag. *)
Inductive node :=
| Nil
| Leaf (keyHash valueHash hash : Hash)
| Inner (left right : node) (hash : Hash) (dirty : bool).

Definition keyOf (n : node) : Hash := match n with Leaf k _ _ => k | _ => zeroHash end.

Record MerkleProof := mkProof { p_Siblings : list Hash; p_Leaf : bytes }.

Record SMT := mkSMT { smt_entries : gmap Hash entry; smt_root : node }.

Definition New : SMT := mkSMT ∅ Nil.

(** [sort.Search]: the smallest index where [f] holds, by bisection. *)
Fixpoint searchLoop (fuel i j : nat) (f : nat -> bool) : nat :=
  match fuel with
  | O => i
  | S fuel =>
      if Nat.ltb i j then
        let h := ((i + j) / 2)%nat in
        if negb (f h) then searchLoop fuel (S h) j f else searchLoop fuel i h f
      else i
  end.

Definition Search (n : nat) (f : nat -> bool) : nat := searchLoop (S n) 0 n f.

Definition entryAt (es : list entry) (i : nat) : entry := nth i es (mkSmtEntry [] [] []).

Definition entry_le (a b : entry) : Prop := bytes_le (en_keyHash a) (en_keyHash b).

#[export] Instance entry_le_dec : RelDecision entry_le.
Proof. intros a b. apply bytes_le_dec. Defined.

Definition sortEntries (es : list entry) : list entry := merge_sort entry_le es.

Definition splitOnBit (es : list entry) (depth : nat) : nat :=
  Search (length es) (fun i => bit (en_keyHash (entryAt es i)) depth =? 1).

Definition otherLeaf (keyHash valueHash : Hash) : bytes := keyHash ++ valueHash.

Definition branch (first second : node) (firstBit : Z) : node :=
  if firstBit =? 0 then Inner first second zeroHash true else Inner second first zeroHash true.

Definition collapse (n : node) : node :=
  match n with
  | Inner Nil (Leaf k v h) _ _ => Leaf k v h
  | Inner (Leaf k v h) Nil _ _ => Leaf k v h
  | _ => n
  end.

Fixpoint splitLeaves (fuel : nat) (a b : node) (depth : nat) : option node :=
  match fuel with
  | O => None
  | S fuel =>
      let ba := bit (keyOf a) depth in
      let bb := bit (keyOf b) depth in
      if negb (ba =? bb) then Some (branch a b ba)
      else n ← splitLeaves fuel a b (S depth); Some (branch n Nil ba)
  end.

Fixpoint deleteNode (n : node) (depth : nat) (keyHash : Hash) : node :=
  match n with
  | Nil => Nil
  | Leaf k _ _ => if bool_decide (k = keyHash) then Nil else n
  | Inner l r h _ =>
      if bit keyHash depth =? 0 then collapse (Inner (deleteNode l (S depth) keyHash) r h true)
      else collapse (Inner l (deleteNode r (S depth) keyHash) h true)
  end.

Definition pathLeaf (n : node) (keyHash : Hash) : bytes :=
  match n with
  | Leaf k v _ => if bool_decide (k = keyHash) then [] else otherLeaf k v
  | _ => []
  end.

(** *** Wire format *)

Definition Serialize (p : MerkleProof) : bytes :=
  be_enc 4 (u32 (Z.of_nat (length (p_Siblings p)))) ++ concat (p_Siblings p) ++
  be_enc 4 (u32 (Z.of_nat (length (p_Leaf p)))) ++ p_Leaf p.

Fixpoint readHashes (count : nat) (data : bytes) : option (list Hash * bytes) :=
  match count with
  | O => Some ([], data)
  | S count =>
      if Nat.ltb (length data) 32 then None
      else r ← readHashes count (drop 32 data); Some (take 32 data :: fst r, snd r)
  end.

Definition readSiblings (data : bytes) : option (list Hash * bytes) :=
  if Nat.ltb (length data) 4 then None
  else
    let count := be_dec (take 4 data) in
    if Z.of_nat treeDepth <? count then None else readHashes (Z.to_nat count) (drop 4 data).

Definition readLeaf (data : bytes) : option bytes :=
  if Nat.ltb (length data) 4 then None
  else
    let leafLen := be_dec (take 4 data) in
    let data := drop 4 data in
    if negb (u32 (Z.of_nat (length data)) =? leafLen) then None else Some data.

Definition DeserializeProof (data : bytes) : option MerkleProof :=
  '(siblings, rest) ← readSiblings data;
  leaf ← readLeaf rest;
  Some (mkProof siblings leaf).

Section Hashing.
Context (H : bytes -> Hash).

Definition leafHash (keyHash valueHash : Hash) : Hash := H (leafPrefix :: keyHash ++ valueHash).
Definition internalHash (left right : Hash) : Hash := H (internalPrefix :: left ++ right).

(** [computeDefaultHashes], from the all-zero base at depth 256 up. *)
Fixpoint defaultsUp (levels : nat) : Hash :=
  match levels with
  | O => zeroHash
  | S levels => let d := defaultsUp levels in internalHash d d
  end.

Definition defaultHashes (depth : nat) : Hash := defaultsUp (treeDepth - depth).

Definition newLeaf (keyHash valueHash : Hash) : node := Leaf keyHash valueHash (leafHash keyHash valueHash).

Fixpoint insertNode (n : node) (depth : nat) (keyHash valueHash : Hash) : option node :=
  match n with
  | Nil => Some (newLeaf keyHash valueHash)
  | Leaf k _ _ =>
      if bool_decide (k = keyHash) then Some (Leaf k valueHash (leafHash keyHash valueHash))
      else splitLeaves (treeDepth - depth) n (newLeaf keyHash valueHash) depth
  | Inner l r h _ =>
      if bit keyHash depth =? 0
      then l ← insertNode l (S depth) keyHash valueHash; Some (Inner l r h true)
      else r ← insertNode r (S depth) keyHash valueHash; Some (Inner l r h true)
  end.

(** [nodeHash] with the node as it is left behind. *)
Fixpoint nodeHash (n : node) (depth : nat) : Hash * node :=
  match n with
  | Nil => (defaultHashes depth, Nil)
  | Leaf _ _ h => (h, n)
  | Inner l r h dirty =>
      if dirty then
        let '(hl, l) := nodeHash l (S depth) in
        let '(hr, r) := nodeHash r (S depth) in
        let h := internalHash hl hr in
        (h, Inner l r h false)
      else (h, n)
  end.

(** *** The tree *)

Definition Insert (t : SMT) (key value : bytes) : option SMT :=
  let kh := H key in
  let vh := H value in
  root ← insertNode (smt_root t) 0 kh vh;
  Some (mkSMT (<[kh := mkSmtEntry kh vh value]> (smt_entries t)) root).

Definition Delete (t : SMT) (key : bytes) : SMT :=
  let kh := H key in
  match smt_entries t !! kh with
  | None => t
  | Some _ => mkSMT (delete kh (smt_entries t)) (deleteNode (smt_root t) 0 kh)
  end.

Definition Get (t : SMT) (key : bytes) : option bytes := en_value <$> smt_entries t !! H key.

Definition Root (t : SMT) : Hash * SMT :=
  let '(h, root) := nodeHash (smt_root t) 0 in (h, mkSMT (smt_entries t) root).

(** The walk of [provePath]: the siblings shallowest first and the node it ends
    on; sibling hashes are memoised on the way. *)
Fixpoint proveWalk (n : node) (depth : nat) (keyHash : Hash) : node * list Hash * node :=
  match n with
  | Inner l r h dirty =>
      if bit keyHash depth =? 0 then
        let '(s, r) := nodeHash r (S depth) in
        let '(l, siblings, last) := proveWalk l (S depth) keyHash in
        (Inner l r h dirty, s :: siblings, last)
      else
        let '(s, l) := nodeHash l (S depth) in
        let '(r, siblings, last) := proveWalk r (S depth) keyHash in
        (Inner l r h dirty, s :: siblings, last)
  | _ => (n, [], n)
  end.

Definition reverseHashes (siblings : list Hash) : list Hash := rev siblings.

Definition Prove (t : SMT) (key : bytes) : MerkleProof * SMT :=
  let keyHash := H key in
  let '(root, siblings, last) := proveWalk (smt_root t) 0 keyHash in
  (mkProof (reverseHashes siblings) (pathLeaf last keyHash), mkSMT (smt_entries t) root).

(** *** Verification.  [value = None] asks for absence. *)

Definition absenceTarget (keyHash : Hash) (p : MerkleProof) : option Hash :=
  if Nat.eqb (length (p_Leaf p)) 0 then Some (defaultHashes (length (p_Siblings p)))
  else if negb (Nat.eqb (length (p_Leaf p)) 64) then None
  else
    let otherKey := take 32 (p_Leaf p) in
    let otherValue := drop 32 (p_Leaf p) in
    if bool_decide (otherKey = keyHash) then None else Some (leafHash otherKey otherValue).

Definition proofTarget (keyHash : Hash) (value : option bytes) (p : MerkleProof) : option Hash :=
  match value with
  | Some value => if negb (Nat.eqb (length (p_Leaf p)) 0) then None else Some (leafHash keyHash (H value))
  | None => absenceTarget keyHash p
  end.

Fixpoint foldLoop (cur keyHash : Hash) (siblings : list Hash) : Hash :=
  match siblings with
  | [] => cur
  | sib :: siblings =>
      let depth := length siblings in
      foldLoop (if bit keyHash depth =? 0 then internalHash cur sib else internalHash sib cur) keyHash siblings
  end.

Definition foldPath (target keyHash : Hash) (siblings : list Hash) : Hash := foldLoop target keyHash siblings.

Definition Verify (root : Hash) (key : bytes) (value : option bytes) (p : MerkleProof) : bool :=
  if Nat.ltb treeDepth (length (p_Siblings p)) then false
  else
    let keyHash := H key in
    match proofTarget keyHash value p with
    | None => false
    | Some target => bool_decide (foldPath target keyHash (p_Siblings p) = root)
    end.

(** *** The oracle *)

(** Fuel: one level per bit; [None] is the panic of [bit] past the last one. *)
Fixpoint hashSubtree (fuel depth : nat) (es : list entry) : option Hash :=
  match es with
  | [] => Some (defaultHashes depth)
  | [e] => Some (leafHash (en_keyHash e) (en_valueHash e))
  | _ =>
      match fuel with
      | O => None
      | S fuel =>
          let mid := splitOnBit es depth in
          left ← hashSubtree fuel (S depth) (take mid es);
          right ← hashSubtree fuel (S depth) (drop mid es);
          Some (internalHash left right)
      end
  end.

Definition functionalRoot (es : list entry) : option Hash := hashSubtree treeDepth 0 (sortEntries es).

Fixpoint prove (fuel depth : nat) (es : list entry) (keyHash : Hash) : option (list Hash * bytes) :=
  match es with
  | [] => Some ([], [])
  | [e] => Some ([], if bool_decide (en_keyHash e = keyHash) then [] else otherLeaf (en_keyHash e) (en_valueHash e))
  | _ =>
      match fuel with
      | O => None
      | S fuel =>
          let mid := splitOnBit es depth in
          if bit keyHash depth =? 0 then
            '(sib, leaf) ← prove fuel (S depth) (take mid es) keyHash;
            right ← hashSubtree fuel (S depth) (drop mid es);
            Some (sib ++ [right], leaf)
          else
            '(sib, leaf) ← prove fuel (S depth) (drop mid es) keyHash;
            left ← hashSubtree fuel (S depth) (take mid es);
            Some (sib ++ [left], leaf)
      end
  end.

Definition functionalProve (es : list entry) (keyHash : Hash) : option MerkleProof :=
  '(siblings, leaf) ← prove treeDepth 0 (sortEntries es) keyHash; Some (mkProof siblings leaf).

(** [entriesSnapshot]; the source ranges over a map. *)
Definition entriesSnapshot (t : SMT) : list entry := map snd (map_to_list (smt_entries t)).

End Hashing.

(** ** Key positions as bit strings

    The bits of a 32-byte hash in the order of the tree, and how they relate to
    the byte-wise order of the oracle's sort. *)



(** A blake3 output. *)
Definition hashOk (h : Hash) : Prop := length h = 32%nat /\ wf_bytes h.

#[export] Instance hashOk_dec h : Decision (hashOk h).
Proof. unfold hashOk, wf_bytes, is_byte. apply _. Defined.

(** *** Big-endian values *)

Lemma le_dec_app a b : le_dec (a ++ b) = le_dec a + 256 ^ Z.of_nat (length a) * le_dec b.
Proof.
  induction a as [|x a IH]; [change (le_dec []) with 0; cbn [length app]; rewrite Z.pow_0_r; lia|].
  change ((x :: a) ++ b) with (x :: (a ++ b)). change (le_dec (x :: a ++ b)) with (x + 256 * le_dec (a ++ b)).
  change (le_dec (x :: a)) with (x + 256 * le_dec a). rewrite IH. cbn [length]. rewrite Nat2Z.inj_succ, Z.pow_succ_r by lia. ring.
Qed.

Lemma be_dec_app a b : be_dec (a ++ b) = be_dec a * 256 ^ Z.of_nat (length b) + be_dec b.
Proof. unfold be_dec. rewrite rev_app_distr, le_dec_app, length_rev. ring. Qed.

Lemma be_dec_cons x l : be_dec (x :: l) = x * 256 ^ Z.of_nat (length l) + be_dec l.
Proof.
  change (x :: l) with ([x] ++ l). rewrite be_dec_app. f_equal. f_equal.
  change (x + 256 * 0 = x). ring.
Qed.

Lemma be_dec_bound l : wf_bytes l -> 0 <= be_dec l < 256 ^ Z.of_nat (length l).
Proof. intros Hl. unfold be_dec. rewrite <- length_rev. apply le_dec_bound. by apply Forall_rev. Qed.

Lemma be_dec_inj a b : wf_bytes a -> wf_bytes b -> length a = length b -> be_dec a = be_dec b -> a = b.
Proof.
  revert b. induction a as [|x a IH]; intros [|y b] Ha Hb Hl He; try done. apply Forall_cons in Ha as [Hx Ha], Hb as [Hy Hb].
  rewrite !be_dec_cons in He. injection Hl as Hl. rewrite Hl in He.
  pose proof (be_dec_bound a Ha) as Ba. pose proof (be_dec_bound b Hb) as Bb. rewrite Hl in Ba.
  assert (x = y) as -> by nia. f_equal. apply IH; auto; lia.
Qed.

Lemma bytes_le_be a b : wf_bytes a -> wf_bytes b -> length a = length b -> bytes_le a b -> be_dec a <= be_dec b.
Proof.
  unfold bytes_le. revert b. induction a as [|x a IH]; intros [|y b] Ha Hb Hl Hle; try done.
  apply Forall_cons in Ha as [Hx Ha], Hb as [Hy Hb]. injection Hl as Hl. simpl in Hle.
  pose proof (be_dec_bound a Ha) as Ba. pose proof (be_dec_bound b Hb) as Bb. rewrite !be_dec_cons. rewrite Hl in Ba |- *.
  destruct (Z.ltb_spec x y); [nia|]. simpl in Hle. apply andb_true_iff in Hle as [->%Z.eqb_eq Hle].
  specialize (IH b Ha Hb Hl Hle). lia.
Qed.

(** *** The bits of a position *)

Lemma land_one x j : 0 <= j -> Z.land (Z.shiftr x j) 1 = Z.b2z (Z.testbit x j).
Proof.
  intros Hj. change 1 with (Z.ones 1). rewrite Z.land_ones by lia. rewrite Z.shiftr_div_pow2 by done.
  rewrite Z.testbit_spec' by done. by rewrite Z.pow_1_r.
Qed.

Lemma bit_spec h i : hashOk h -> (i < 256)%nat -> bit h i = Z.b2z (Z.testbit (be_dec h) (255 - Z.of_nat i)).
Proof.
  intros [Hl Hw] Hi. unfold bit. assert (Hm : (i mod 8 < 8)%nat) by (apply Nat.mod_upper_bound; lia).
  assert (Hq : (i / 8 < 32)%nat) by (apply Nat.Div0.div_lt_upper_bound; lia).
  assert (Hi8 : Z.of_nat i = 8 * Z.of_nat (i / 8) + Z.of_nat (i mod 8)) by (pose proof (Nat.div_mod_eq i 8); lia).
  destruct (nth_split h 0 (n := (i / 8)%nat)) as (a & b & Hab & Ha); [lia|].
  set (x := nth (i / 8) h 0) in *. rewrite land_one by lia. f_equal.
  assert (Hlb : length b = (31 - i / 8)%nat).
  { apply (f_equal length) in Hab. rewrite length_app in Hab. cbn [length] in Hab. lia. }
  assert (Hwx : is_byte x /\ wf_bytes b).
  { rewrite Hab in Hw. apply Forall_app in Hw as [_ [? ?]%Forall_cons]. done. }
  replace (255 - Z.of_nat i) with (7 - Z.of_nat (i mod 8) + 8 * Z.of_nat (length b)) by lia.
  set (j := 7 - Z.of_nat (i mod 8)). assert (0 <= j < 8) by lia.
  rewrite <- Z.shiftr_spec by lia. rewrite Z.shiftr_div_pow2 by lia. rewrite Z.pow_mul_r by lia. change (2 ^ 8) with 256.
  rewrite Hab, be_dec_app, be_dec_cons. cbn [length]. rewrite Nat2Z.inj_succ, Z.pow_succ_r by lia.
  pose proof (be_dec_bound b (proj2 Hwx)) as Hbb. set (B := 256 ^ Z.of_nat (length b)) in *.
  replace (be_dec a * (256 * B) + (x * B + be_dec b)) with (be_dec b + (be_dec a * 256 + x) * B) by ring.
  rewrite Z.div_add, Z.div_small, Z.add_0_l by lia.
  rewrite <- (Z.mod_pow2_bits_low (be_dec a * 256 + x) 8 j) by lia. change (2 ^ 8) with 256.
  rewrite Z.add_comm, Z.mod_add by lia. unfold is_byte in Hwx. by rewrite Z.mod_small by lia.
Qed.

Lemma bit_01 h i : bit h i = 0 \/ bit h i = 1.
Proof. unfold bit. pose proof (Nat.mod_upper_bound i 8 ltac:(lia)). rewrite land_one by lia. destruct (Z.testbit _ _); auto. Qed.

(** Two positions share their first bits. *)
Definition under (depth : nat) (k k' : Hash) : Prop := forall i, (i < depth)%nat -> bit k' i = bit k i.

Lemma under_0 k k' : under 0 k k'.
Proof. intros i Hi. lia. Qed.

Lemma under_S depth k k' : under depth k k' -> bit k' depth = bit k depth -> under (S depth) k k'.
Proof. intros Hu Hb i Hi. destruct (decide (i = depth)) as [->|]; [done|]. apply Hu. lia. Qed.

Lemma under_le depth depth' k k' : (depth' <= depth)%nat -> under depth k k' -> under depth' k k'.
Proof. intros Hd Hu i Hi. apply Hu. lia. Qed.

Lemma under_sym depth k k' : under depth k k' -> under depth k' k.
Proof. intros Hu i Hi. symmetry. by apply Hu. Qed.

Lemma under_trans depth k1 k2 k3 : under depth k1 k2 -> under depth k2 k3 -> under depth k1 k3.
Proof. intros H1 H2 i Hi. rewrite H2, H1; auto. Qed.

Lemma high_bits depth k k' :
  hashOk k -> hashOk k' -> (depth <= 256)%nat -> under depth k k' ->
  Z.shiftr (be_dec k') (256 - Z.of_nat depth) = Z.shiftr (be_dec k) (256 - Z.of_nat depth).
Proof.
  intros Hk Hk' Hd Hu. apply Z.bits_inj'. intros n Hn. rewrite !Z.shiftr_spec by done.
  destruct (Z.ltb_spec n (Z.of_nat depth)) as [Hlt|Hge].
  - specialize (Hu (Z.to_nat (Z.of_nat depth - 1 - n)) ltac:(lia)). rewrite !bit_spec in Hu by (done || lia).
    apply Z.b2z_inj in Hu. replace (255 - Z.of_nat (Z.to_nat (Z.of_nat depth - 1 - n))) with (n + (256 - Z.of_nat depth)) in Hu by lia.
    done.
  - assert (Hz : forall q, hashOk q -> Z.testbit (be_dec q) (n + (256 - Z.of_nat depth)) = false).
    { intros q [Hq Hw]. pose proof (be_dec_bound q Hw) as Hb. rewrite Hq in Hb. change (256 ^ Z.of_nat 32) with (2 ^ 256) in Hb.
      destruct (Z.eq_dec (be_dec q) 0) as [->|]; [apply Z.bits_0|]. apply Z.bits_above_log2; [lia|].
      assert (Z.log2 (be_dec q) < 256) by (apply Z.log2_lt_pow2; lia). lia. }
    by rewrite !Hz.
Qed.

(** Different positions part before the last bit. *)
Lemma under_all k k' : hashOk k -> hashOk k' -> under 256 k k' -> k = k'.
Proof.
  intros Hk Hk' Hu. pose proof (high_bits 256 k k' Hk Hk' ltac:(lia) Hu) as E. change (256 - Z.of_nat 256) with 0 in E.
  rewrite !Z.shiftr_0_r in E. destruct Hk, Hk'. symmetry. apply be_dec_inj; congruence.
Qed.

(** The byte order sorts by the first differing bit. *)
Lemma bit_mono depth k k' :
  hashOk k -> hashOk k' -> (depth < 256)%nat -> under depth k k' -> bytes_le k k' -> bit k depth <= bit k' depth.
Proof.
  intros Hk Hk' Hd Hu Hle. pose proof (high_bits depth k k' Hk Hk' ltac:(lia) Hu) as E.
  assert (Hb : be_dec k <= be_dec k') by (destruct Hk, Hk'; apply bytes_le_be; congruence).
  rewrite !bit_spec by done. rewrite !Z.testbit_spec' by lia.
  replace (256 - Z.of_nat depth) with (Z.succ (255 - Z.of_nat depth)) in E by lia.
  rewrite !Z.shiftr_div_pow2, !Z.pow_succ_r in E by lia. set (P := 2 ^ (255 - Z.of_nat depth)) in *.
  assert (0 < P) by (apply Z.pow_pos_nonneg; lia). rewrite (Z.mul_comm 2 P), <- !Z.div_div in E by lia.
  assert (be_dec k / P <= be_dec k' / P) by (apply Z.div_le_mono; lia).
  pose proof (Z.div_mod (be_dec k / P) 2). pose proof (Z.div_mod (be_dec k' / P) 2). lia.
Qed.
