(* ===== verification/Merkle.v ===== *)
(** * Correctness of the sparse Merkle tree

    The memoised incremental tree against the from-scratch oracle, and proofs
    against the verifier (smt_inc.go, smt_oracle.go, proof.go). *)

From S2P Require Import Prelude Types Persist Smt.

(** What is assumed of blake3: 32 bytes. *)
Class Digest (H : bytes -> Hash) : Prop := digest_out : forall b, hashOk (H b).

Section Merkle.
Context (H : bytes -> Hash) `{!Digest H}.

(** ** The tree without its memo *)

Fixpoint pureHash (n : node) (depth : nat) : Hash :=
  match n with
  | Nil => defaultHashes H depth
  | Leaf k v _ => leafHash H k v
  | Inner l r _ _ => internalHash H (pureHash l (S depth)) (pureHash r (S depth))
  end.

(** Position to value hash. *)
Fixpoint content (n : node) : gmap Hash Hash :=
  match n with
  | Nil => ∅
  | Leaf k v _ => {[ k := v ]}
  | Inner l r _ _ => content l ∪ content r
  end.

(** Keys sit on the side of their bit, an internal node holds at least two
    entries, and a clean node memoises its hash. *)
Fixpoint wf (depth : nat) (n : node) : Prop :=
  match n with
  | Nil => True
  | Leaf k v h => hashOk k /\ length v = 32%nat /\ h = leafHash H k v
  | Inner l r h dirty =>
      (depth < treeDepth)%nat /\ wf (S depth) l /\ wf (S depth) r /\
      map_Forall (fun k _ => bit k depth = 0) (content l) /\ map_Forall (fun k _ => bit k depth = 1) (content r) /\
      (2 <= size (content l ∪ content r))%nat /\
      (dirty = false -> h = internalHash H (pureHash l (S depth)) (pureHash r (S depth)))
  end.

Lemma wf_keys depth n k v : wf depth n -> content n !! k = Some v -> hashOk k /\ length v = 32%nat.
Proof using.
  revert depth. induction n as [|k' v' h|l IHl r IHr h dirty]; intros depth; simpl.
  - intros _ Hc. by rewrite lookup_empty in Hc.
  - intros (? & ? & _) [<- <-]%lookup_singleton_Some. done.
  - intros (_ & Hl & Hr & _) [?|[_ ?]]%lookup_union_Some_raw; eauto.
Qed.

(** How many entries make which node. *)
Lemma wf_size depth n : wf depth n ->
  match n with Nil => size (content n) = 0%nat | Leaf _ _ _ => size (content n) = 1%nat | Inner _ _ _ _ => (2 <= size (content n))%nat end.
Proof using.
  destruct n as [|k v h|l r h dirty]; simpl; [done| |tauto]. intros _. apply map_size_singleton.
Qed.

Lemma sides_disjoint (depth : nat) (m1 m2 : gmap Hash Hash) :
  map_Forall (fun k _ => bit k depth = 0) m1 -> map_Forall (fun k _ => bit k depth = 1) m2 -> m1 ##ₘ m2.
Proof using.
  intros H1 H2. apply map_disjoint_spec. intros k x y Hx Hy. specialize (H1 k x Hx). specialize (H2 k y Hy). simpl in *. lia.
Qed.

Lemma sides_size (depth : nat) (m1 m2 : gmap Hash Hash) :
  map_Forall (fun k _ => bit k depth = 0) m1 -> map_Forall (fun k _ => bit k depth = 1) m2 ->
  size (m1 ∪ m2) = (size m1 + size m2)%nat.
Proof using. intros H1 H2. apply map_size_disj_union. by apply (sides_disjoint depth). Qed.

(** *** Insertion *)

(** A branch of two sides is well formed. *)
Lemma branch_wf (depth : nat) a b ba :
  (depth < treeDepth)%nat -> (ba = 0 \/ ba = 1) -> wf (S depth) a -> wf (S depth) b ->
  map_Forall (fun k _ => bit k depth = ba) (content a) -> map_Forall (fun k _ => bit k depth = 1 - ba) (content b) ->
  (2 <= size (content a) + size (content b))%nat ->
  wf depth (branch a b ba) /\ content (branch a b ba) = content a ∪ content b.
Proof using.
  intros Hd Hba Ha Hb Hka Hkb Hsz. unfold branch. destruct Hba as [-> | ->]; cbn [Z.eqb wf content].
  - split; [|done]. split_and!; try done. by rewrite (sides_size depth).
  - rewrite (map_union_comm (content a)).
    + split; [|done]. split_and!; try done. rewrite (sides_size depth) by done. lia.
    + symmetry. by apply (sides_disjoint depth).
Qed.

(** Two leaves on one path part at the first differing bit. *)
Lemma splitLeaves_wf fuel depth k v k' v' :
  (depth + fuel = treeDepth)%nat -> hashOk k -> hashOk k' -> length v = 32%nat -> length v' = 32%nat -> k ≠ k' -> under depth k' k ->
  exists n, splitLeaves fuel (newLeaf H k v) (newLeaf H k' v') depth = Some n /\ wf depth n /\
    content n = {[ k := v ]} ∪ {[ k' := v' ]}.
Proof using.
  revert depth. induction fuel as [|fuel IH]; intros depth Hf Hk Hk' Hv Hv' Hne Hu.
  { exfalso. apply Hne. symmetry. apply under_all; [done|done|]. by replace 256%nat with depth by (unfold treeDepth in *; lia). }
  assert (Hcase := bit_01 k depth). assert (Hcase' := bit_01 k' depth). cbn [splitLeaves newLeaf keyOf].
  destruct (Z.eqb_spec (bit k depth) (bit k' depth)) as [Eb|Eb]; simpl negb; cbv iota.
  - destruct (IH (S depth)) as (n & -> & Hw & Hc); try done; [lia|by apply under_S|].
    cbn [mbind option_bind]. eexists. split; [done|]. rewrite <- Hc.
    assert (Hs : size (content n) = 2%nat).
    { rewrite Hc, map_size_disj_union, !map_size_singleton; [done|]. by apply map_disjoint_singleton_l, lookup_singleton_ne. }
    destruct (branch_wf depth n Nil (bit k depth)) as [H1 H2]; try done.
    + lia.
    + rewrite Hc. intros q x [[<- <-]%lookup_singleton_Some|[_ [<- <-]%lookup_singleton_Some]]%lookup_union_Some_raw; auto.
    + simpl. rewrite Hs. lia.
    + split; [done|]. rewrite H2. simpl. apply map_union_empty.
  - eexists. split; [done|]. apply branch_wf; try done.
    + lia.
    + simpl. apply map_Forall_singleton. done.
    + simpl. apply map_Forall_singleton. lia.
    + simpl. rewrite !map_size_singleton. lia.
Qed.

Lemma insertNode_wf n depth k v :
  wf depth n -> (depth <= treeDepth)%nat -> hashOk k -> length v = 32%nat -> map_Forall (fun k' _ => under depth k k') (content n) ->
  exists n', insertNode H n depth k v = Some n' /\ wf depth n' /\ content n' = <[k := v]> (content n).
Proof using Digest0.
  revert depth. induction n as [|k' v' h|l IHl r IHr h dirty]; intros depth Hw Hd Hk Hv Hu.
  - eexists. split; [done|]. split; [done|]. simpl. by rewrite insert_empty.
  - cbn [insertNode]. case_bool_decide as E.
    + subst k'. eexists. split; [done|]. split; [done|]. simpl. by rewrite insert_singleton_eq.
    + destruct Hw as (Hk' & Hv' & ->). simpl content in Hu. apply map_Forall_singleton in Hu.
      destruct (splitLeaves_wf (treeDepth - depth) depth k' v' k v) as (n & Hn & Hwn & Hc); try done; [lia|].
      exists n. split; [done|]. split; [done|]. rewrite Hc. simpl. rewrite insert_union_singleton_l.
      apply map_union_comm, map_disjoint_singleton_l, lookup_singleton_ne. congruence.
  - destruct Hw as (Hlt & Hl & Hr & Hbl & Hbr & Hsz & _). cbn [insertNode]. simpl content in Hu.
    destruct (Z.eqb_spec (bit k depth) 0) as [E|E].
    + destruct (IHl (S depth)) as (l' & -> & Hl' & Hc); try done.
      { intros q x Hq. apply under_S; [eapply Hu; by apply lookup_union_Some_l|]. specialize (Hbl q x Hq). simpl in Hbl. lia. }
      eexists. split; [done|]. simpl. rewrite Hc. split_and!; try done.
      * by apply map_Forall_insert_2.
      * rewrite (sides_size depth) by (done || by apply map_Forall_insert_2). rewrite (sides_size depth) in Hsz by done.
        rewrite map_size_insert. destruct (content l !! k); simpl; lia.
      * by rewrite insert_union_l.
    + assert (E1 : bit k depth = 1) by (destruct (bit_01 k depth); lia).
      assert (Hnl : content l !! k = None).
      { destruct (content l !! k) as [x|] eqn:Ex; [|done]. specialize (Hbl k x Ex). simpl in Hbl. lia. }
      destruct (IHr (S depth)) as (r' & -> & Hr' & Hc); try done.
      { intros q x Hq. apply under_S; [|specialize (Hbr q x Hq); simpl in Hbr; lia].
        eapply Hu. apply lookup_union_Some_r; [by apply (sides_disjoint depth)|done]. }
      eexists. split; [done|]. simpl. rewrite Hc. split_and!; try done.
      * by apply map_Forall_insert_2.
      * rewrite (sides_size depth) by (done || by apply map_Forall_insert_2). rewrite (sides_size depth) in Hsz by done.
        rewrite map_size_insert. destruct (content r !! k); simpl; lia.
      * by rewrite insert_union_r.
Qed.

(** *** Deletion *)

Lemma collapse_content n : content (collapse n) = content n.
Proof using.
  destruct n as [|k v h|[|k v h|ll lr lh ld] [|k' v' h'|rl rr rh rd] h0 d0]; simpl; try done.
  - symmetry. apply map_empty_union.
  - symmetry. apply map_union_empty.
Qed.

Lemma dirty_wf (depth : nat) l r h :
  (depth < treeDepth)%nat -> wf (S depth) l -> wf (S depth) r ->
  map_Forall (fun k _ => bit k depth = 0) (content l) -> map_Forall (fun k _ => bit k depth = 1) (content r) ->
  (2 <= size (content l ∪ content r))%nat -> wf depth (Inner l r h true).
Proof using. intros. by split_and!. Qed.

Lemma collapse_wf (depth : nat) l r h :
  (depth < treeDepth)%nat -> wf (S depth) l -> wf (S depth) r ->
  map_Forall (fun k _ => bit k depth = 0) (content l) -> map_Forall (fun k _ => bit k depth = 1) (content r) ->
  (1 <= size (content l ∪ content r))%nat -> wf depth (collapse (Inner l r h true)).
Proof using.
  intros Hd Hl Hr Hbl Hbr Hsz. rewrite (sides_size depth) in Hsz by done.
  pose proof (wf_size (S depth) l Hl) as Sl. pose proof (wf_size (S depth) r Hr) as Sr.
  destruct l as [|k v h'|ll lr lh ld], r as [|k' v' h''|rl rr rh rd]; try lia; try done.
  all: apply (dirty_wf depth); rewrite ?(sides_size depth) by done; try done; lia.
Qed.

Lemma delete_shrinks (k : Hash) (m : gmap Hash Hash) : (size m <= S (size (delete k m)))%nat.
Proof using. rewrite map_size_delete. destruct (m !! k); simpl; lia. Qed.

Lemma deleteNode_wf n (depth : nat) k :
  wf depth n -> wf depth (deleteNode n depth k) /\ content (deleteNode n depth k) = delete k (content n).
Proof using.
  revert depth. induction n as [|k' v' h|l IHl r IHr h dirty]; intros depth Hw; cbn [deleteNode].
  - split; [done|]. simpl. by rewrite delete_empty.
  - case_bool_decide as E; simpl; (split; [done|]).
    + subst k'. by rewrite delete_singleton_eq.
    + by rewrite delete_singleton_ne.
  - destruct Hw as (Hlt & Hl & Hr & Hbl & Hbr & Hsz & _). rewrite (sides_size depth) in Hsz by done.
    destruct (Z.eqb_spec (bit k depth) 0) as [E|E]; rewrite collapse_content; simpl content; rewrite delete_union.
    + destruct (IHl (S depth) Hl) as [Hl' Hc]. rewrite Hc.
      assert (Hnr : delete k (content r) = content r).
      { apply delete_id. destruct (content r !! k) as [x|] eqn:Ex; [|done]. specialize (Hbr k x Ex). simpl in Hbr. lia. }
      rewrite Hnr. split; [|done]. pose proof (delete_shrinks k (content l)).
      apply collapse_wf; rewrite ?Hc; try done; [by apply map_Forall_delete|].
      rewrite (sides_size depth) by (done || by apply map_Forall_delete). lia.
    + destruct (IHr (S depth) Hr) as [Hr' Hc]. rewrite Hc.
      assert (Hnl : delete k (content l) = content l).
      { apply delete_id. destruct (content l !! k) as [x|] eqn:Ex; [|done]. specialize (Hbl k x Ex). done. }
      rewrite Hnl. split; [|done]. pose proof (delete_shrinks k (content r)).
      apply collapse_wf; rewrite ?Hc; try done; [by apply map_Forall_delete|].
      rewrite (sides_size depth) by (done || by apply map_Forall_delete). lia.
Qed.

(** *** Memoisation *)

Lemma nodeHash_pure n (depth : nat) :
  wf depth n -> fst (nodeHash H n depth) = pureHash n depth /\ wf depth (snd (nodeHash H n depth)) /\
  content (snd (nodeHash H n depth)) = content n /\ forall d', pureHash (snd (nodeHash H n depth)) d' = pureHash n d'.
Proof using.
  revert depth. induction n as [|k v h|l IHl r IHr h dirty]; intros depth Hw; cbn [nodeHash].
  - done.
  - destruct Hw as (? & ? & ->). done.
  - destruct dirty.
    + destruct Hw as (Hlt & Hl & Hr & Hbl & Hbr & Hsz & _). destruct (IHl _ Hl) as (L1 & L2 & L3 & L4), (IHr _ Hr) as (R1 & R2 & R3 & R4).
      destruct (nodeHash H l (S depth)) as [hl l'], (nodeHash H r (S depth)) as [hr r']. simpl in *. subst hl hr.
      rewrite L3, R3. split_and!; try done; intros; by rewrite L4, R4.
    + split; [|done]. by apply Hw.
Qed.

(** The siblings on a key's path, shallowest first, and where the path ends. *)
Fixpoint siblingsOf (n : node) (depth : nat) (k : Hash) : list Hash :=
  match n with
  | Inner l r _ _ =>
      if bit k depth =? 0 then pureHash r (S depth) :: siblingsOf l (S depth) k else pureHash l (S depth) :: siblingsOf r (S depth) k
  | _ => []
  end.

Fixpoint endOf (n : node) (depth : nat) (k : Hash) : node :=
  match n with
  | Inner l r _ _ => if bit k depth =? 0 then endOf l (S depth) k else endOf r (S depth) k
  | _ => n
  end.

Lemma proveWalk_spec n (depth : nat) k :
  wf depth n -> exists n', proveWalk H n depth k = (n', siblingsOf n depth k, endOf n depth k) /\
    wf depth n' /\ content n' = content n /\ forall d', pureHash n' d' = pureHash n d'.
Proof using.
  revert depth. induction n as [|k' v' h|l IHl r IHr h dirty]; intros depth Hw; cbn [proveWalk siblingsOf endOf]; try by eauto.
  destruct Hw as (Hlt & Hl & Hr & Hbl & Hbr & Hsz & Hm). destruct (_ =? _).
  - destruct (nodeHash_pure r (S depth) Hr) as (R1 & R2 & R3 & R4). destruct (nodeHash H r (S depth)) as [s r']. simpl in *. subst s.
    destruct (IHl (S depth) Hl) as (l' & -> & L2 & L3 & L4). eexists. split; [done|]. simpl. rewrite L3, R3.
    split_and!; try done; intros; rewrite ?L4, ?R4; auto.
  - destruct (nodeHash_pure l (S depth) Hl) as (L1 & L2 & L3 & L4). destruct (nodeHash H l (S depth)) as [s l']. simpl in *. subst s.
    destruct (IHr (S depth) Hr) as (r' & -> & R2 & R3 & R4). eexists. split; [done|]. simpl. rewrite L3, R3.
    split_and!; try done; intros; rewrite ?L4, ?R4; auto.
Qed.

(** ** The oracle *)

Definition entryMap (es : list entry) : gmap Hash Hash := list_to_map (map (fun e => (en_keyHash e, en_valueHash e)) es).

(** Sorted entries of one subtree. *)
Record entriesAt (depth : nat) (es : list entry) : Prop := {
  ea_sorted : StronglySorted entry_le es;
  ea_nodup : NoDup (map en_keyHash es);
  ea_ok : Forall (fun e => hashOk (en_keyHash e)) es;
  ea_under : forall e e', e ∈ es -> e' ∈ es -> under depth (en_keyHash e) (en_keyHash e');
}.

(** Bisection finds the border of a monotone predicate. *)
Lemma searchLoop_spec fuel f (m i j : nat) :
  (i <= m <= j)%nat -> (j - i < fuel)%nat -> (forall x, (i <= x < j)%nat -> f x = negb (Nat.ltb x m)) -> searchLoop fuel i j f = m.
Proof using.
  revert i j. induction fuel as [|fuel IH]; intros i j Hm Hf Hx; [lia|]. cbn [searchLoop].
  destruct (Nat.ltb_spec i j) as [Hlt|]; [|lia]. cbv zeta.
  assert (Hh : (i <= (i + j) / 2 < j)%nat).
  { pose proof (Nat.div_mod_eq (i + j) 2). pose proof (Nat.mod_upper_bound (i + j) 2 ltac:(lia)). lia. }
  set (q := ((i + j) / 2)%nat) in *. rewrite (Hx q Hh). destruct (Nat.ltb_spec q m); simpl.
  - apply IH; [lia|lia|]. intros x ?. apply Hx. lia.
  - apply IH; [lia|lia|]. intros x ?. apply Hx. lia.
Qed.

Lemma splitOnBit_app (depth : nat) l r :
  Forall (fun e => bit (en_keyHash e) depth = 0) l -> Forall (fun e => bit (en_keyHash e) depth = 1) r ->
  splitOnBit (l ++ r) depth = length l.
Proof using.
  intros Hl Hr. unfold splitOnBit, Search. apply searchLoop_spec; rewrite length_app; [lia|lia|]. intros x [_ Hx].
  unfold entryAt. destruct (Nat.ltb_spec x (length l)) as [Hlt|Hge].
  - rewrite app_nth1 by done. rewrite Forall_forall in Hl.
    rewrite (Hl (nth x l (mkSmtEntry [] [] []))); [done|]. apply list_elem_of_In, nth_In. done.
  - rewrite app_nth2 by lia. rewrite Forall_forall in Hr.
    rewrite (Hr (nth (x - length l) r (mkSmtEntry [] [] []))); [done|]. apply list_elem_of_In, nth_In. lia.
Qed.

(** Sorted entries split at their bit. *)
Lemma entries_split (depth : nat) es :
  entriesAt depth es -> (depth < treeDepth)%nat ->
  exists l r, es = l ++ r /\ Forall (fun e => bit (en_keyHash e) depth = 0) l /\ Forall (fun e => bit (en_keyHash e) depth = 1) r.
Proof using.
  intros [Hs _ Hok Hu] Hd. induction es as [|e es IH]; [by exists [], []|].
  apply StronglySorted_inv in Hs as [Hs He]. apply Forall_cons in Hok as [Hoke Hok].
  destruct (bit_01 (en_keyHash e) depth) as [E|E].
  - destruct IH as (l & r & -> & Hl & Hr); [done|done|intros; apply Hu; by right|]. exists (e :: l), r. by repeat constructor.
  - exists [], (e :: es). split_and!; [done|constructor|]. constructor; [done|]. apply Forall_forall. intros e' He'.
    rewrite Forall_forall in He, Hok. pose proof (bit_mono depth (en_keyHash e) (en_keyHash e') Hoke (Hok e' He') Hd) as Hb.
    destruct (bit_01 (en_keyHash e') depth); [|done]. enough (1 <= 0) by lia. rewrite <- E, <- H0. apply Hb; [|by apply He].
    apply Hu; [left|by right].
Qed.

Lemma entriesAt_sub (depth : nat) es l b :
  entriesAt depth es -> l `sublist_of` es -> Forall (fun e => bit (en_keyHash e) depth = b) l -> entriesAt (S depth) l.
Proof using.
  intros [Hs Hn Hok Hu] Hsub Hb. split.
  - clear -Hs Hsub. induction Hsub as [|x l es Hsub IH|x l es Hsub IH]; [done| |]; apply StronglySorted_inv in Hs as [Hs Hx]; [|auto].
    constructor; [auto|]. rewrite Forall_forall in *. intros y Hy. apply Hx. by eapply elem_of_sublist.
  - eapply sublist_NoDup; [done|]. by apply (fmap_sublist en_keyHash).
  - rewrite Forall_forall in *. intros e He. apply Hok. by eapply elem_of_sublist.
  - rewrite Forall_forall in Hb. intros e e' He He'. apply under_S; [|rewrite !Hb by done; done].
    apply Hu; (by eapply elem_of_sublist).
Qed.

Lemma entryMap_app l r : entryMap (l ++ r) = entryMap l ∪ entryMap r.
Proof using. unfold entryMap. rewrite map_app. apply list_to_map_app. Qed.

Lemma entryMap_size es : NoDup (map en_keyHash es) -> size (entryMap es) = length es.
Proof using.
  intros Hn. induction es as [|e es IH]; [done|]. apply NoDup_cons in Hn as [Hni Hn].
  change (entryMap (e :: es)) with (<[en_keyHash e := en_valueHash e]> (entryMap es)). rewrite map_size_insert_None.
  - rewrite IH by done. done.
  - apply not_elem_of_list_to_map_1. change (en_keyHash e ∉ map fst (map (fun e => (en_keyHash e, en_valueHash e)) es)).
    by rewrite map_map.
Qed.

Lemma entryMap_side (depth : nat) b es :
  Forall (fun e => bit (en_keyHash e) depth = b) es -> map_Forall (fun k _ => bit k depth = b) (entryMap es).
Proof using.
  intros Hb k v Hk. apply elem_of_list_to_map_2 in Hk. apply list_elem_of_fmap in Hk as (e & [= -> ->] & He).
  rewrite Forall_forall in Hb. by apply Hb.
Qed.

Lemma sides_determined (depth : nat) (m1 m2 m1' m2' : gmap Hash Hash) :
  map_Forall (fun k _ => bit k depth = 0) m1 -> map_Forall (fun k _ => bit k depth = 1) m2 ->
  map_Forall (fun k _ => bit k depth = 0) m1' -> map_Forall (fun k _ => bit k depth = 1) m2' ->
  m1 ∪ m2 = m1' ∪ m2' -> m1 = m1' /\ m2 = m2'.
Proof using.
  intros H1 H2 H1' H2' E.
  assert (Hz : forall b (m : gmap Hash Hash) k, map_Forall (fun k _ => bit k depth = b) m -> bit k depth ≠ b -> m !! k = None).
  { intros b m k Hm Hk. destruct (m !! k) as [x|] eqn:Ex; [|done]. by specialize (Hm k x Ex). }
  split; apply map_eq; intros k; pose proof (f_equal (lookup k) E) as Ek; destruct (bit_01 k depth) as [B|B].
  - by rewrite !lookup_union_l in Ek by (eapply Hz; [done|lia]).
  - by rewrite (Hz 0 m1 k), (Hz 0 m1' k) by (done || lia).
  - by rewrite (Hz 1 m2 k), (Hz 1 m2' k) by (done || lia).
  - by rewrite !lookup_union_r in Ek by (eapply Hz; [done|lia]).
Qed.

(** The oracle computes the hashes and the path of the tree. *)
Lemma oracle_node n : forall (fuel depth : nat) es,
  wf depth n -> (depth + fuel = treeDepth)%nat -> entriesAt depth es -> entryMap es = content n ->
  hashSubtree H fuel depth es = Some (pureHash n depth) /\
  forall k, prove H fuel depth es k = Some (rev (siblingsOf n depth k), pathLeaf (endOf n depth k) k).
Proof using.
  induction n as [|k v h|l IHl r IHr h dirty]; intros fuel depth es Hw Hf Hes Hm;
    pose proof (wf_size depth _ Hw) as Hsz; rewrite <- Hm, (entryMap_size es (ea_nodup _ _ Hes)) in Hsz.
  - destruct es; [|done]. by destruct fuel.
  - destruct es as [|e [|]]; try done. simpl in Hm. unfold entryMap in Hm. simpl in Hm.
    apply (f_equal (lookup (en_keyHash e))) in Hm as Hv. rewrite lookup_insert_eq in Hv. symmetry in Hv.
    apply lookup_singleton_Some in Hv as [-> ->]. destruct fuel; (split; [done|]); intros k0; cbn [prove siblingsOf endOf pathLeaf rev];
      by case_bool_decide.
  - destruct Hw as (Hlt & Hl & Hr & Hbl & Hbr & Hcr & _). destruct fuel as [|fuel]; [lia|].
    destruct (entries_split depth es Hes Hlt) as (el & er & -> & Hel & Her).
    rewrite entryMap_app in Hm. simpl content in Hm.
    destruct (sides_determined depth _ _ _ _ (entryMap_side _ _ _ Hel) (entryMap_side _ _ _ Her) Hbl Hbr Hm) as [Hml Hmr].
    assert (Eel : entriesAt (S depth) el) by (eapply entriesAt_sub; [done| |done]; apply sublist_inserts_r; done).
    assert (Eer : entriesAt (S depth) er) by (eapply entriesAt_sub; [done| |done]; apply sublist_inserts_l; done).
    destruct (IHl fuel (S depth) el Hl ltac:(lia) Eel Hml) as [L1 L2], (IHr fuel (S depth) er Hr ltac:(lia) Eer Hmr) as [R1 R2].
    assert (Hmid := splitOnBit_app depth el er Hel Her). rewrite length_app in Hsz.
    assert (Hcase : exists e1 e2 rest, el ++ er = e1 :: e2 :: rest).
    { destruct el as [|e1 [|e2 el]]; [destruct er as [|e1 [|e2 er]]|destruct er|]; simpl in *; try lia; eauto. }
    destruct Hcase as (e1 & e2 & rest & Ecase). split; [|intros k]; rewrite Ecase; cbn [hashSubtree prove siblingsOf endOf];
      rewrite <- Ecase, Hmid, take_app_length, drop_app_length.
    + by rewrite L1, R1.
    + destruct (_ =? _).
      * rewrite L2, R1. cbn [mbind option_bind rev]. done.
      * rewrite R2, L1. cbn [mbind option_bind rev]. done.
Qed.

(** ** The tree and its entries *)

(** The materialised tree holds exactly the stored entries. *)
Record smtOk (t : SMT) : Prop := {
  sk_wf : wf 0 (smt_root t);
  sk_content : content (smt_root t) = en_valueHash <$> smt_entries t;
  sk_keys : map_Forall (fun k e => en_keyHash e = k /\ en_valueHash e = H (en_value e)) (smt_entries t);
}.

Lemma New_ok : smtOk New.
Proof using. split; [done| |apply map_Forall_empty]. simpl. by rewrite fmap_empty. Qed.

Lemma Insert_ok t key value : smtOk t -> exists t', Insert H t key value = Some t' /\ smtOk t' /\
  smt_entries t' = <[H key := mkSmtEntry (H key) (H value) value]> (smt_entries t).
Proof using Digest0.
  intros [Hw Hc Hk]. destruct (insertNode_wf (smt_root t) 0 (H key) (H value)) as (n & Hn & Hwn & Hcn).
  - done.
  - lia.
  - apply digest_out.
  - apply digest_out.
  - intros q x _. apply under_0.
  - unfold Insert. rewrite Hn. cbn [mbind option_bind]. eexists. split; [done|]. split; [|done]. split; simpl.
    + done.
    + by rewrite Hcn, Hc, fmap_insert.
    + by apply map_Forall_insert_2.
Qed.

Lemma Delete_ok t key : smtOk t -> smtOk (Delete H t key) /\ smt_entries (Delete H t key) = delete (H key) (smt_entries t).
Proof using.
  intros Hok. unfold Delete. destruct (smt_entries t !! H key) as [e|] eqn:E; [|by rewrite delete_id].
  destruct Hok as [Hw Hc Hk]. destruct (deleteNode_wf (smt_root t) 0 (H key) Hw) as [Hwn Hcn].
  split; [|done]. split; simpl; [done| |by apply map_Forall_delete]. by rewrite Hcn, Hc, fmap_delete.
Qed.

Lemma Root_ok t : smtOk t -> fst (Root H t) = pureHash (smt_root t) 0 /\ smtOk (snd (Root H t)) /\
  smt_entries (snd (Root H t)) = smt_entries t /\ fst (Root H (snd (Root H t))) = fst (Root H t).
Proof using.
  intros [Hw Hc Hk]. unfold Root. destruct (nodeHash_pure (smt_root t) 0 Hw) as (H1 & H2 & H3 & H4).
  destruct (nodeHash H (smt_root t) 0) as [h n] eqn:E. simpl in *. split; [done|]. split; [|split; [done|]].
  - split; simpl; [done|congruence|done].
  - destruct (nodeHash_pure n 0 H2) as (G1 & _). destruct (nodeHash H n 0). simpl in *. by rewrite G1, H4, <- H1.
Qed.

Lemma Prove_ok t key : smtOk t ->
  fst (Prove H t key) = mkProof (rev (siblingsOf (smt_root t) 0 (H key))) (pathLeaf (endOf (smt_root t) 0 (H key)) (H key)) /\
  smtOk (snd (Prove H t key)) /\ smt_entries (snd (Prove H t key)) = smt_entries t /\
  fst (Root H (snd (Prove H t key))) = fst (Root H t).
Proof using.
  intros Hok. pose proof (Root_ok t Hok) as (HR & _). destruct Hok as [Hw Hc Hk].
  destruct (proveWalk_spec (smt_root t) 0 (H key) Hw) as (n & E & Hwn & Hcn & Hp). unfold Prove. rewrite E. simpl.
  assert (Hn : smtOk (mkSMT (smt_entries t) n)) by (split; simpl; [done|congruence|done]).
  split_and!; try done. destruct (Root_ok _ Hn) as (-> & _). by rewrite HR.
Qed.

(** *** Snapshots in sorted order *)

#[local] Instance entry_le_trans : Transitive entry_le.
Proof using. intros a b d. apply bytes_le_trans. Qed.

#[local] Instance entry_le_total : Total entry_le.
Proof using. intros a b. apply bytes_le_total. Qed.

Lemma snapshot_entriesAt t : smtOk t ->
  entriesAt 0 (sortEntries (entriesSnapshot t)) /\ entryMap (sortEntries (entriesSnapshot t)) = content (smt_root t).
Proof using.
  intros [Hw Hc Hk]. pose proof (merge_sort_Permutation entry_le (entriesSnapshot t)) as Hp. fold (sortEntries (entriesSnapshot t)) in Hp.
  assert (Hkeys : map (fun e => (en_keyHash e, en_valueHash e)) (entriesSnapshot t) = map_to_list (en_valueHash <$> smt_entries t)).
  { unfold entriesSnapshot. rewrite map_map, map_to_list_fmap. apply list_fmap_ext. intros i [k e] Hi.
    apply list_elem_of_lookup_2, elem_of_map_to_list in Hi. destruct (Hk k e Hi) as [Hke _]. simpl. by rewrite Hke. }
  assert (Hnd : NoDup (map en_keyHash (entriesSnapshot t))).
  { apply (f_equal (map fst)) in Hkeys. rewrite map_map in Hkeys. simpl in Hkeys.
    change (NoDup (map (fun e => en_keyHash e) (entriesSnapshot t))). rewrite Hkeys. apply map_keys_nodup. }
  assert (Hnd' : NoDup (map en_keyHash (sortEntries (entriesSnapshot t)))).
  { eapply NoDup_Permutation_proper; [|exact Hnd]. apply Permutation_map, Hp. }
  split.
  - split; [|done| |intros; apply under_0].
    + apply Sorted_StronglySorted; [apply _|]. apply (Sorted_merge_sort entry_le).
    + rewrite Forall_forall. intros e He. rewrite Hp in He. apply list_elem_of_fmap in He as ([k e'] & -> & Hin).
      apply elem_of_map_to_list in Hin. simpl. destruct (Hk k e' Hin) as [-> _].
      eapply (wf_keys 0 _ k); [done|]. rewrite Hc, lookup_fmap, Hin. done.
  - rewrite Hc. transitivity (entryMap (entriesSnapshot t)).
    + apply list_to_map_proper; [|by apply Permutation_map].
      change (NoDup (map fst (map (fun e => (en_keyHash e, en_valueHash e)) (sortEntries (entriesSnapshot t))))). by rewrite map_map.
    + unfold entryMap. rewrite Hkeys. apply list_to_map_to_list.
Qed.

Lemma oracle_tree t : smtOk t ->
  functionalRoot H (entriesSnapshot t) = Some (fst (Root H t)) /\
  forall key, functionalProve H (entriesSnapshot t) (H key) = Some (fst (Prove H t key)).
Proof using.
  intros Hok. destruct (snapshot_entriesAt t Hok) as [He Hm].
  destruct (oracle_node (smt_root t) treeDepth 0 _ (sk_wf t Hok) ltac:(lia) He Hm) as [H1 H2]. split.
  - unfold functionalRoot. rewrite H1. by destruct (Root_ok t Hok) as (-> & _).
  - intros key. unfold functionalProve. rewrite H2. by destruct (Prove_ok t key Hok) as (-> & _).
Qed.

(** ** Any sequence of operations *)

Inductive SmtOp := OpInsert (key value : bytes) | OpDelete (key : bytes) | OpRoot | OpProve (key : bytes).

Definition smtStep (t : SMT) (op : SmtOp) : option SMT :=
  match op with
  | OpInsert key value => Insert H t key value
  | OpDelete key => Some (Delete H t key)
  | OpRoot => Some (snd (Root H t))
  | OpProve key => Some (snd (Prove H t key))
  end.

Fixpoint runSmt (t : SMT) (ops : list SmtOp) : option SMT :=
  match ops with
  | [] => Some t
  | op :: ops => t ← smtStep t op; runSmt t ops
  end.

(** What the tree stands for: a map from positions to values. *)
Definition mapStep (m : gmap Hash bytes) (op : SmtOp) : gmap Hash bytes :=
  match op with
  | OpInsert key value => <[H key := value]> m
  | OpDelete key => delete (H key) m
  | _ => m
  end.

Lemma smtStep_ok t op : smtOk t -> exists t', smtStep t op = Some t' /\ smtOk t' /\
  en_value <$> smt_entries t' = mapStep (en_value <$> smt_entries t) op.
Proof using Digest0.
  intros Hok. destruct op as [key value|key| |key]; cbn [smtStep mapStep].
  - destruct (Insert_ok t key value Hok) as (t' & E & Hok' & He). exists t'. split; [done|]. split; [done|]. by rewrite He, fmap_insert.
  - destruct (Delete_ok t key Hok) as [Hok' He]. eexists. split; [done|]. split; [done|]. by rewrite He, fmap_delete.
  - destruct (Root_ok t Hok) as (_ & Hok' & He & _). eexists. split; [done|]. split; [done|]. by rewrite He.
  - destruct (Prove_ok t key Hok) as (_ & Hok' & He & _). eexists. split; [done|]. split; [done|]. by rewrite He.
Qed.

Lemma runSmt_ok ops : forall t, smtOk t -> exists t', runSmt t ops = Some t' /\ smtOk t' /\
  en_value <$> smt_entries t' = foldl mapStep (en_value <$> smt_entries t) ops.
Proof using Digest0.
  induction ops as [|op ops IH]; intros t Hok; [by exists t|]. cbn [runSmt foldl].
  destruct (smtStep_ok t op Hok) as (t1 & -> & Hok1 & <-). cbn [mbind option_bind]. by apply IH.
Qed.

(** The root is a function of the stored values. *)
Lemma root_canonical t t' : smtOk t -> smtOk t' -> en_value <$> smt_entries t = en_value <$> smt_entries t' ->
  fst (Root H t) = fst (Root H t').
Proof using.
  intros Hok Hok' E. assert (smt_entries t = smt_entries t') as Es.
  { apply map_eq. intros k. apply (f_equal (lookup k)) in E. rewrite !lookup_fmap in E.
    destruct (smt_entries t !! k) as [[a b x]|] eqn:E1, (smt_entries t' !! k) as [[a' b' x']|] eqn:E2; try done.
    destruct (sk_keys t Hok k _ E1) as [? ?], (sk_keys t' Hok' k _ E2) as [? ?]. simpl in *. injection E as ->. by subst. }
  apply (inj Some). destruct (oracle_tree t Hok) as [<- _], (oracle_tree t' Hok') as [<- _]. unfold entriesSnapshot. by rewrite Es.
Qed.

(** C18. After any sequence of insertions, deletions and reads, the incremental tree's
    root and proofs equal those of the functional reference recomputed from its entries.
    *)
Theorem incremental_is_functional (ops : list SmtOp) :
  exists t, runSmt New ops = Some t /\
    (forall key, Get H t key = foldl mapStep ∅ ops !! H key) /\
    functionalRoot H (entriesSnapshot t) = Some (fst (Root H t)) /\
    (forall key, functionalProve H (entriesSnapshot t) (H key) = Some (fst (Prove H t key))) /\
    (forall ops' t', runSmt New ops' = Some t' -> foldl mapStep ∅ ops' = foldl mapStep ∅ ops -> fst (Root H t') = fst (Root H t)).
Proof using Digest0.
  destruct (runSmt_ok ops New New_ok) as (t & E & Hok & He). cbn [New smt_entries] in He. rewrite fmap_empty in He. exists t. split; [done|].
  split; [intros key; unfold Get; by rewrite <- lookup_fmap, He|]. destruct (oracle_tree t Hok) as [H1 H2]. split; [done|]. split; [done|].
  intros ops' t' E' Em. destruct (runSmt_ok ops' New New_ok) as (t2 & E2 & Hok' & He'). cbn [New smt_entries] in He'. rewrite fmap_empty in He'.
  rewrite E' in E2. injection E2 as <-. apply root_canonical; [done|done|congruence].
Qed.

(** ** Proofs verify *)

(** A proof folded from its shallow end. *)
Fixpoint foldDown (target k : Hash) (depth : nat) (siblings : list Hash) : Hash :=
  match siblings with
  | [] => target
  | s :: siblings =>
      let cur := foldDown target k (S depth) siblings in
      if bit k depth =? 0 then internalHash H cur s else internalHash H s cur
  end.

Lemma foldLoop_down k siblings : forall target rest,
  foldLoop H target k (rev siblings ++ rest) = foldLoop H (foldDown target k (length rest) siblings) k rest.
Proof using.
  induction siblings as [|s siblings IH]; intros target rest; [done|]. cbn [rev foldDown].
  rewrite <- app_assoc, IH. cbn [app length foldLoop]. done.
Qed.

Lemma foldPath_down target k siblings : foldPath H target k (rev siblings) = foldDown target k 0 siblings.
Proof using. unfold foldPath. rewrite <- (app_nil_r (rev siblings)). by rewrite foldLoop_down. Qed.

Lemma length_pureHash n (depth : nat) : length (pureHash n depth) = 32%nat.
Proof using Digest0.
  destruct n; cbn [pureHash]; [|apply (proj1 (digest_out (H := H) _))..]. unfold defaultHashes. destruct (treeDepth - depth)%nat; [done|]. cbn [defaultsUp]. apply (proj1 (digest_out (H := H) _)).
Qed.

Lemma length_foldDown target k (depth : nat) siblings : length target = 32%nat -> length (foldDown target k depth siblings) = 32%nat.
Proof using Digest0.
  intros Ht. destruct siblings as [|s l]; [done|]. cbn [foldDown]. destruct (bit k depth =? 0); apply (proj1 (digest_out (H := H) _)).
Qed.

Lemma fold_siblings n (depth : nat) k :
  foldDown (pureHash (endOf n depth k) (depth + length (siblingsOf n depth k))) k depth (siblingsOf n depth k) = pureHash n depth.
Proof using.
  revert depth. induction n as [|k' v' h|l IHl r IHr h dirty]; intros depth; cbn [siblingsOf endOf];
    try (cbn [foldDown length]; by rewrite Nat.add_0_r).
  destruct (bit k depth =? 0) eqn:E; cbn [foldDown length]; rewrite E, Nat.add_succ_r, <- Nat.add_succ_l; [by rewrite IHl|by rewrite IHr].
Qed.

Lemma siblings_depth n (depth : nat) k : wf depth n -> (depth <= treeDepth)%nat -> (depth + length (siblingsOf n depth k) <= treeDepth)%nat.
Proof using.
  revert depth. induction n as [|k' v' h|l IHl r IHr h dirty]; intros depth Hw Hd; cbn [siblingsOf length]; [lia|lia|].
  destruct Hw as (Hlt & Hl & Hr & _).
  destruct (_ =? _); cbn [length]; rewrite Nat.add_succ_r, <- Nat.add_succ_l; [apply IHl|apply IHr]; (done || lia).
Qed.

Lemma endOf_content n (depth : nat) k : wf depth n ->
  wf (depth + length (siblingsOf n depth k)) (endOf n depth k) /\
  match endOf n depth k with
  | Nil => content n !! k = None
  | Leaf k' v' _ => if bool_decide (k' = k) then content n !! k = Some v' else content n !! k = None
  | Inner _ _ _ _ => False
  end.
Proof using.
  revert depth. induction n as [|k' v' h|l IHl r IHr h dirty]; intros depth Hw; cbn [siblingsOf endOf length content].
  - done.
  - rewrite Nat.add_0_r. split; [done|]. case_bool_decide as E; [subst; apply lookup_singleton_eq|by apply lookup_singleton_ne].
  - destruct Hw as (Hlt & Hl & Hr & Hbl & Hbr & _). destruct (Z.eqb_spec (bit k depth) 0) as [E|E]; cbn [length].
    + destruct (IHl (S depth) Hl) as [H1 H2]. rewrite Nat.add_succ_r, <- Nat.add_succ_l. split; [done|].
      assert (Hn : content r !! k = None).
      { destruct (content r !! k) as [x|] eqn:Ex; [|done]. specialize (Hbr k x Ex). simpl in Hbr. lia. }
      by rewrite lookup_union_l.
    + destruct (IHr (S depth) Hr) as [H1 H2]. rewrite Nat.add_succ_r, <- Nat.add_succ_l. split; [done|].
      assert (Hn : content l !! k = None).
      { destruct (content l !! k) as [x|] eqn:Ex; [|done]. by specialize (Hbl k x Ex). }
      by rewrite lookup_union_r.
Qed.

Lemma Get_content t key : smtOk t ->
  content (smt_root t) !! H key = H <$> Get H t key.
Proof using.
  intros [_ Hc Hk]. rewrite Hc, lookup_fmap. unfold Get. destruct (smt_entries t !! H key) as [e|] eqn:E; [|done].
  destruct (Hk _ e E) as [_ Hv]. simpl. by rewrite Hv.
Qed.

(** The proof of a key verifies what the tree answers for it. *)
Lemma Prove_Verify t key : smtOk t -> Verify H (fst (Root H t)) key (Get H t key) (fst (Prove H t key)) = true.
Proof using Digest0.
  intros Hok. destruct (Prove_ok t key Hok) as (-> & _). destruct (Root_ok t Hok) as (-> & _).
  pose proof (sk_wf t Hok) as Hw. pose proof (siblings_depth _ 0 (H key) Hw ltac:(lia)) as Hd.
  destruct (endOf_content _ 0 (H key) Hw) as [He Hc]. rewrite (Get_content t key Hok) in Hc.
  pose proof (fold_siblings (smt_root t) 0 (H key)) as Hf. cbn [Nat.add] in *. set (sibs := siblingsOf (smt_root t) 0 (H key)) in *.
  unfold Verify. cbn [p_Siblings p_Leaf]. rewrite length_rev.
  destruct (Nat.ltb_spec treeDepth (length sibs)) as [|_]; [lia|].
  assert (Ht : proofTarget H (H key) (Get H t key) (mkProof (rev sibs) (pathLeaf (endOf (smt_root t) 0 (H key)) (H key))) =
               Some (pureHash (endOf (smt_root t) 0 (H key)) (length sibs))).
  { destruct (endOf (smt_root t) 0 (H key)) as [|k v h|] eqn:En; [| |done]; cbn [pathLeaf pureHash].
    - destruct (Get H t key); [done|]. unfold proofTarget, absenceTarget. cbn [p_Leaf p_Siblings length Nat.eqb]. by rewrite length_rev.
    - destruct He as ((Hlk & _) & Hlv & _). case_bool_decide as E; destruct (Get H t key) as [value|]; try done; unfold proofTarget; cbn [p_Leaf].
      + simpl in Hc. injection Hc as <-. by subst k.
      + unfold absenceTarget, otherLeaf. cbn [p_Leaf p_Siblings]. rewrite length_app, Hlk, Hlv. cbn [Nat.eqb Nat.add negb].
        rewrite take_app_length', drop_app_length' by done. by rewrite bool_decide_eq_false_2. }
  rewrite Ht, foldPath_down, Hf. by apply bool_decide_eq_true.
Qed.

(** ** Only true answers verify *)

Definition leafInput (k v : Hash) : bytes := leafPrefix :: k ++ v.
Definition nodeInput (l r : Hash) : bytes := internalPrefix :: l ++ r.

(** What is hashed for the empty subtrees, the tree and the proof. *)
Fixpoint defaultPair (levels : nat) : Hash * list bytes :=
  match levels with
  | O => (zeroHash, [])
  | S levels => let '(d, l) := defaultPair levels in (internalHash H d d, nodeInput d d :: l)
  end.

Definition defaultInputs (levels : nat) : list bytes := snd (defaultPair levels).

Fixpoint treeInputs (n : node) (depth : nat) : list bytes :=
  match n with
  | Nil => []
  | Leaf k v _ => [leafInput k v]
  | Inner l r _ _ =>
      nodeInput (pureHash l (S depth)) (pureHash r (S depth)) :: treeInputs l (S depth) ++ treeInputs r (S depth)
  end.

Fixpoint foldInputs (target k : Hash) (depth : nat) (siblings : list Hash) : list bytes :=
  match siblings with
  | [] => []
  | s :: siblings =>
      let cur := foldDown target k (S depth) siblings in
      (if bit k depth =? 0 then nodeInput cur s else nodeInput s cur) :: foldInputs target k (S depth) siblings
  end.

(** Every string the tree and the verifier hash. *)
Definition hashedInputs (t : SMT) (key : bytes) (value : option bytes) (p : MerkleProof) : list bytes :=
  defaultInputs treeDepth ++ treeInputs (smt_root t) 0 ++
  foldInputs (default zeroHash (proofTarget H (H key) value p)) (H key) 0 (rev (p_Siblings p)) ++
  match value with
  | Some v => [leafInput (H key) (H v); v]
  | None => if Nat.eqb (length (p_Leaf p)) 0 then [] else [leafInput (take 32 (p_Leaf p)) (drop 32 (p_Leaf p))]
  end ++
  match Get H t key with Some v => [v] | None => [] end.

Definition NoCollision (xs : list bytes) : Prop :=
  Forall (fun x => H x ≠ zeroHash /\ Forall (fun y => H x = H y -> x = y) xs) xs.

Section Sound.
Context (xs : list bytes) (Hxs : NoCollision xs) (Hdef : forall x, x ∈ defaultInputs treeDepth -> x ∈ xs).

Lemma no_clash x y : x ∈ xs -> y ∈ xs -> H x = H y -> x = y.
Proof using Hxs. intros Hx Hy. unfold NoCollision in Hxs. rewrite Forall_forall in Hxs. destruct (Hxs x Hx) as [_ Hf]. rewrite Forall_forall in Hf. by apply Hf. Qed.

Lemma no_zero x : x ∈ xs -> H x ≠ zeroHash.
Proof using Hxs. intros Hx. unfold NoCollision in Hxs. rewrite Forall_forall in Hxs. by destruct (Hxs x Hx). Qed.

Lemma nodeInput_inj l r l' r' : length l = length l' -> nodeInput l r = nodeInput l' r' -> l = l' /\ r = r'.
Proof using. intros Hl [= E]. by apply app_inj_1 in E. Qed.

Lemma defaultPair_hash levels : fst (defaultPair levels) = defaultsUp H levels.
Proof using. induction levels as [|n IH]; [done|]. cbn [defaultPair defaultsUp]. destruct (defaultPair n). simpl in *. by subst. Qed.

Lemma defaultInputs_elem levels n : (n < levels)%nat -> nodeInput (defaultsUp H n) (defaultsUp H n) ∈ defaultInputs levels.
Proof using.
  unfold defaultInputs. induction levels as [|levels IH]; [lia|]. intros Hn. cbn [defaultPair].
  pose proof (defaultPair_hash levels) as Hd. destruct (defaultPair levels) as [d l]. simpl in *. subst d.
  destruct (decide (n = levels)) as [->|]; [left|]. right. apply IH. lia.
Qed.

(** A default hash above the base is hashed from two defaults. *)
Lemma default_unfold (depth : nat) : (depth < treeDepth)%nat ->
  nodeInput (defaultHashes H (S depth)) (defaultHashes H (S depth)) ∈ xs /\
  defaultHashes H depth = H (nodeInput (defaultHashes H (S depth)) (defaultHashes H (S depth))).
Proof using Hdef.
  intros Hd. unfold defaultHashes. replace (treeDepth - depth)%nat with (S (treeDepth - S depth)) by lia. split; [|done].
  apply Hdef, defaultInputs_elem. unfold treeDepth in *. lia.
Qed.

Lemma leaf_not_default k v (depth : nat) : (depth <= treeDepth)%nat -> leafInput k v ∈ xs -> leafHash H k v ≠ defaultHashes H depth.
Proof using Hxs Hdef.
  intros Hd Hin E. change (H (leafInput k v) = defaultHashes H depth) in E. destruct (decide (depth = treeDepth)) as [->|].
  - by apply (no_zero _ Hin).
  - destruct (default_unfold depth ltac:(lia)) as [Hin' Hu]. rewrite Hu in E. by apply no_clash in E.
Qed.

(** Only the empty subtree has the empty hash. *)
Lemma default_is_nil n (depth : nat) :
  wf depth n -> (depth <= treeDepth)%nat -> (forall x, x ∈ treeInputs n depth -> x ∈ xs) -> pureHash n depth = defaultHashes H depth -> n = Nil.
Proof using Digest0 Hxs Hdef.
  revert depth. induction n as [|k v h|l IHl r IHr h dirty]; intros depth Hw Hd Hin E; [done| |].
  - exfalso. eapply leaf_not_default; [exact Hd| |exact E]. apply Hin. left.
  - destruct Hw as (Hlt & Hl & Hr & _ & _ & Hsz & _). destruct (default_unfold depth Hlt) as [Hin' Hu]. cbn [pureHash] in E. rewrite Hu in E.
    apply no_clash in E; [|apply Hin; left|done].
    apply nodeInput_inj in E as [El Er]; [|rewrite length_pureHash; symmetry; apply (length_pureHash Nil (S depth))].
    rewrite (IHl (S depth)) in Hsz; try done; [|intros x Hx; apply Hin; right; apply elem_of_app; by left].
    rewrite (IHr (S depth)) in Hsz; try done; [|intros x Hx; apply Hin; right; apply elem_of_app; by right].
    simpl in Hsz. rewrite map_union_empty, map_size_empty in Hsz. lia.
Qed.

(** A fold that meets the root follows the tree down to its target. *)
Lemma fold_follows siblings : forall n (depth : nat) target k,
  wf depth n -> (depth + length siblings <= treeDepth)%nat -> Forall (fun s => length s = 32%nat) siblings -> length target = 32%nat ->
  (forall x, x ∈ treeInputs n depth -> x ∈ xs) -> (forall x, x ∈ foldInputs target k depth siblings -> x ∈ xs) ->
  pureHash n depth = foldDown target k depth siblings ->
  exists n', wf (depth + length siblings) n' /\ (forall x, x ∈ treeInputs n' (depth + length siblings) -> x ∈ xs) /\
    content n' !! k = content n !! k /\ pureHash n' (depth + length siblings) = target.
Proof using Digest0 Hxs Hdef.
  induction siblings as [|s siblings IH]; intros n depth target k Hw Hd Hs Ht Hin Hfin E.
  { exists n. cbn [length] in *. by rewrite Nat.add_0_r. }
  apply Forall_cons in Hs as [Hls Hs]. cbn [length] in *. rewrite Nat.add_succ_r, <- Nat.add_succ_l. cbn [foldDown foldInputs] in E, Hfin.
  set (cur := foldDown target k (S depth) siblings) in *.
  assert (Hlc : length cur = 32%nat) by (by apply length_foldDown).
  set (input := if bit k depth =? 0 then nodeInput cur s else nodeInput s cur) in *.
  assert (Hi : input ∈ xs) by (apply Hfin; left).
  assert (Ei : pureHash n depth = H input) by (unfold input; destruct (_ =? _); exact E).
  assert (Hrest : forall x, x ∈ foldInputs target k (S depth) siblings -> x ∈ xs) by (intros x Hx; apply Hfin; by right).
  assert (Hlen : length (if bit k depth =? 0 then cur else s) = 32%nat) by (destruct (_ =? _); done).
  destruct n as [|k' v' h|l r h dirty]; cbn [pureHash] in Ei.
  - destruct (default_unfold depth ltac:(lia)) as [Hin' Hu]. rewrite Hu in Ei. apply no_clash in Ei; [|done|done].
    assert (Ec : defaultHashes H (S depth) = cur).
    { pose proof (length_pureHash Nil (S depth)) as Hl0. cbn [pureHash] in Hl0. unfold input in Ei.
      destruct (_ =? _); apply nodeInput_inj in Ei as [? ?]; congruence. }
    apply (IH Nil (S depth) target k); try done; lia.
  - exfalso. apply (no_clash (leafInput k' v')) in Ei; [|apply Hin; left|done]. unfold input in Ei. by destruct (_ =? _).
  - destruct Hw as (Hlt & Hl & Hr & Hbl & Hbr & _). cbn [treeInputs] in Hin. apply no_clash in Ei; [|apply Hin; left|done].
    assert (Hnone : (bit k depth = 0 -> content r !! k = None) /\ (bit k depth ≠ 0 -> content l !! k = None)).
    { split; intros Hb; [destruct (content r !! k) as [x|] eqn:Ex|destruct (content l !! k) as [x|] eqn:Ex]; try done; exfalso;
        [pose proof (Hbr k x Ex : bit k depth = 1)|pose proof (Hbl k x Ex : bit k depth = 0)]; congruence. }
    unfold input in Ei. destruct (Z.eqb_spec (bit k depth) 0) as [Eb|Eb];
      (apply nodeInput_inj in Ei as [E1 E2]; [|by rewrite length_pureHash]).
    + destruct (IH l (S depth) target k) as (n' & ? & ? & Hc & ?); try done; try lia.
      { intros x Hx. apply Hin. right. apply elem_of_app. by left. }
      exists n'. split_and!; try done. rewrite Hc. cbn [content]. by rewrite lookup_union_l by (by apply Hnone).
    + destruct (IH r (S depth) target k) as (n' & ? & ? & Hc & ?); try done; try lia.
      { intros x Hx. apply Hin. right. apply elem_of_app. by right. }
      exists n'. split_and!; try done. rewrite Hc. cbn [content]. by rewrite lookup_union_r by (by apply Hnone).
Qed.

(** A leaf at the target is the leaf of the tree. *)
Lemma leaf_found n (depth : nat) k v :
  wf depth n -> (depth <= treeDepth)%nat -> length k = 32%nat -> leafInput k v ∈ xs -> (forall x, x ∈ treeInputs n depth -> x ∈ xs) ->
  pureHash n depth = leafHash H k v -> content n = {[ k := v ]}.
Proof using Hxs Hdef.
  intros Hw Hd Hlk Hin Hx E. destruct n as [|k' v' h|l r h dirty]; cbn [pureHash] in E.
  - exfalso. by apply (leaf_not_default k v depth).
  - apply (no_clash (leafInput k' v')) in E; [|apply Hx; left|done]. destruct Hw as ((Hlk' & _) & _).
    injection E as E. apply app_inj_1 in E as [-> ->]; [done|congruence].
  - exfalso. apply (no_clash (nodeInput (pureHash l (S depth)) (pureHash r (S depth)))) in E; [done|apply Hx; left|done].
Qed.

End Sound.

#[local] Strategy opaque [defaultPair defaultsUp treeDepth].

Lemma verified_answer t key value p :
  smtOk t -> Forall (fun s => length s = 32%nat) (p_Siblings p) -> NoCollision (hashedInputs t key value p) ->
  Verify H (fst (Root H t)) key value p = true -> Get H t key = value.
Proof using Digest0.
  intros Hok Hs Hn Hv. pose proof (sk_wf t Hok) as Hw. destruct (Root_ok t Hok) as (HR & _). rewrite HR in Hv. clear HR.
  unfold Verify in Hv. destruct (Nat.ltb_spec treeDepth (length (p_Siblings p))) as [|Hlen]; [done|].
  set (xs := hashedInputs t key value p) in *. unfold hashedInputs in xs.
  destruct (proofTarget H (H key) value p) as [target|] eqn:Et; [|done]. apply bool_decide_eq_true in Hv.
  rewrite <- (rev_involutive (p_Siblings p)), foldPath_down in Hv. cbn [from_option id] in xs.
  assert (Hd : forall x, x ∈ defaultInputs treeDepth -> x ∈ xs) by (intros x Hx; apply elem_of_app; by left).
  assert (Ht : forall x, x ∈ treeInputs (smt_root t) 0 -> x ∈ xs) by (intros x Hx; do 1 (apply elem_of_app; right); apply elem_of_app; by left).
  assert (Hf : forall x, x ∈ foldInputs target (H key) 0 (rev (p_Siblings p)) -> x ∈ xs)
    by (intros x Hx; do 2 (apply elem_of_app; right); apply elem_of_app; by left).
  assert (Htl : length target = 32%nat).
  { unfold proofTarget, absenceTarget in Et. destruct value; repeat (destruct (negb _) || destruct (Nat.eqb _ _) || case_bool_decide); try done;
      injection Et as <-; try apply (proj1 (digest_out (H := H) _)); apply (length_pureHash Nil). }
  destruct (fold_follows xs Hn Hd (rev (p_Siblings p)) (smt_root t) 0 target (H key)) as (n & Hwn & Hin & Hc & Hp);
    rewrite ?length_rev in *; try done; [by apply Forall_rev|].
  cbn [Nat.add] in *. rewrite (Get_content t key Hok) in Hc. destruct value as [value|]; unfold proofTarget in Et.
  - destruct (negb _); [done|]. injection Et as <-. apply (leaf_found xs Hn Hd n) in Hp; try done.
    + rewrite Hp, lookup_singleton_eq in Hc. destruct (Get H t key) as [stored|] eqn:Eg; [|done]. injection Hc as Hc. f_equal.
      apply (no_clash xs Hn); [| |by symmetry].
      * do 4 (apply elem_of_app; right). left.
      * do 3 (apply elem_of_app; right). apply elem_of_app. left. right. left.
    + apply (proj1 (digest_out (H := H) _)).
    + do 3 (apply elem_of_app; right). apply elem_of_app. left. left.
  - enough (content n !! H key = None) as Hnone by (rewrite Hnone in Hc; by destruct (Get H t key)).
    unfold absenceTarget in Et. destruct (Nat.eqb_spec (length (p_Leaf p)) 0) as [El|El].
    + injection Et as <-. rewrite (default_is_nil xs Hn Hd n (length (p_Siblings p)) Hwn Hlen Hin Hp). apply lookup_empty.
    + destruct (Nat.eqb_spec (length (p_Leaf p)) 64) as [E64|]; [|done]. simpl negb in Et. cbv iota in Et. case_bool_decide as Eo; [done|].
      injection Et as <-. apply (leaf_found xs Hn Hd n) in Hp; try done.
      * rewrite Hp. by apply lookup_singleton_ne.
      * rewrite length_take. lia.
      * do 3 (apply elem_of_app; right). apply elem_of_app. left. destruct (Nat.eqb_spec (length (p_Leaf p)) 0); [done|]. left.
Qed.

#[local] Strategy transparent [defaultPair defaultsUp treeDepth].

(** ** The wire format *)

Lemma readHashes_concat l rest :
  Forall (fun s => length s = 32%nat) l -> readHashes (length l) (concat l ++ rest) = Some (l, rest).
Proof using.
  induction l as [|s l IH]; intros Hl; [done|]. apply Forall_cons in Hl as [Hs Hl]. cbn [length readHashes concat]. rewrite <- app_assoc.
  destruct (Nat.ltb_spec (length (s ++ concat l ++ rest)) 32) as [Hc|_]; [rewrite length_app in Hc; lia|].
  by rewrite drop_app_length', take_app_length', IH by done.
Qed.

Lemma proof_roundtrip p :
  (length (p_Siblings p) <= treeDepth)%nat -> Forall (fun s => length s = 32%nat) (p_Siblings p) -> Z.of_nat (length (p_Leaf p)) < two32 ->
  DeserializeProof (Serialize p) = Some p.
Proof using.
  intros Hd Hs Hl. unfold DeserializeProof, Serialize, readSiblings, readLeaf. destruct p as [sibs leaf]; cbn [p_Siblings p_Leaf] in *.
  rewrite !length_app, length_be_enc. cbn [Nat.ltb Nat.leb Nat.add].
  rewrite take_app_length', drop_app_length' by (by rewrite length_be_enc).
  assert (Hu : u32 (Z.of_nat (length sibs)) = Z.of_nat (length sibs)) by (unfold u32; apply Z.mod_small; unfold treeDepth in *; lia).
  rewrite Hu, be_dec_enc by (unfold treeDepth in *; simpl; lia).
  destruct (Z.ltb_spec (Z.of_nat treeDepth) (Z.of_nat (length sibs))) as [|_]; [lia|].
  rewrite Nat2Z.id, readHashes_concat by done. cbn [mbind option_bind]. rewrite !length_app, length_be_enc. cbn [Nat.ltb Nat.leb Nat.add].
  rewrite take_app_length', drop_app_length' by (by rewrite length_be_enc). rewrite be_dec_u32 by lia.
  unfold u32. rewrite Z.mod_small by lia. by rewrite Z.eqb_refl.
Qed.

Lemma length_siblings n (depth : nat) k : Forall (fun s => length s = 32%nat) (siblingsOf n depth k).
Proof using Digest0.
  revert depth. induction n as [|k' v' h|l IHl r IHr h dirty]; intros depth; cbn [siblingsOf]; try constructor.
  destruct (_ =? _); constructor; auto using length_pureHash.
Qed.

Lemma Prove_wire t key : smtOk t -> DeserializeProof (Serialize (fst (Prove H t key))) = Some (fst (Prove H t key)).
Proof using Digest0.
  intros Hok. destruct (Prove_ok t key Hok) as (-> & _). pose proof (sk_wf t Hok) as Hw.
  destruct (endOf_content _ 0 (H key) Hw) as [He _]. apply proof_roundtrip; cbn [p_Siblings p_Leaf].
  - rewrite length_rev. apply (siblings_depth _ 0 (H key) Hw). lia.
  - apply Forall_rev, length_siblings.
  - destruct (endOf _ _ _) as [|k v h|]; [done| |done]. cbn [pathLeaf]. case_bool_decide; [done|].
    destruct He as ((Hk & _) & Hv & _). unfold otherLeaf. rewrite length_app, Hk, Hv. done.
Qed.

(** Whatever the tree answers for a key, the proof it serves decodes on the other
    side and verifies that answer against the root. *)
Theorem served_proof_verifies ops t key :
  runSmt New ops = Some t ->
  exists p, DeserializeProof (Serialize (fst (Prove H t key))) = Some p /\ Verify H (fst (Root H t)) key (Get H t key) p = true.
Proof using Digest0.
  intros E. destruct (runSmt_ok ops New New_ok) as (t' & E' & Hok & _). rewrite E in E'. injection E' as <-.
  exists (fst (Prove H t key)). split; [by apply Prove_wire|by apply Prove_Verify].
Qed.

(** Without hash collisions among the inputs involved, a proof that verifies against
    a tree's root proves exactly what the tree stores: no other value, no false absence.
    *)
Theorem verified_answer_is_stored ops t key value p :
  runSmt New ops = Some t -> Forall (fun s => length s = 32%nat) (p_Siblings p) ->
  NoCollision (hashedInputs t key value p) -> Verify H (fst (Root H t)) key value p = true -> Get H t key = value.
Proof using Digest0.
  intros E. destruct (runSmt_ok ops New New_ok) as (t' & E' & Hok & _). rewrite E in E'. injection E' as <-. by apply verified_answer.
Qed.

End Merkle.

(** ** A concrete digest and tree *)

(** A 24-bit polynomial hash padded to 32 bytes, for evaluation. *)
Definition toyHash (b : bytes) : Hash :=
  let a := Z.land (foldl (fun a x => Z.land (a * 33 + x + 1) (Z.ones 24)) 7 b * 9301591) (Z.ones 24) in
  map (fun s => Z.land (Z.shiftr a s) (Z.ones 8)) [16; 8; 0] ++ replicate 29 7.

#[export] Instance toyHash_digest : Digest toyHash.
Proof.
  intros b. split; [done|]. apply Forall_app. split; [|repeat constructor; unfold is_byte; lia]. apply Forall_forall. intros x Hx.
  apply list_elem_of_fmap in Hx as (i & -> & _). unfold is_byte. rewrite Z.land_ones by lia. apply Z.mod_pos_bound. lia.
Qed.

(** The hypothesis of soundness, with each hash computed once. *)
Definition noCollisionB (H : bytes -> Hash) (xs : list bytes) : bool :=
  let hs := map (fun x => (H x, x)) xs in
  forallb (fun p => negb (bool_decide (fst p = zeroHash)) &&
    forallb (fun q => negb (bool_decide (fst p = fst q)) || bool_decide (snd p = snd q)) hs) hs.

Lemma noCollisionB_sound H xs : noCollisionB H xs = true -> NoCollision H xs.
Proof.
  unfold noCollisionB, NoCollision. rewrite forallb_forall, Forall_forall. intros Hb x Hx.
  specialize (Hb (H x, x) ltac:(apply in_map_iff; exists x; by rewrite <- list_elem_of_In)). apply andb_true_iff in Hb as [Hz Hb].
  split; [by apply negb_true_iff, bool_decide_eq_false in Hz|]. rewrite forallb_forall in Hb. apply Forall_forall. intros y Hy E.
  specialize (Hb (H y, y) ltac:(apply in_map_iff; exists y; by rewrite <- list_elem_of_In)). cbn [fst snd] in Hb.
  rewrite bool_decide_eq_true_2 in Hb by done. simpl in Hb. by apply bool_decide_eq_true in Hb.
Qed.

Definition exampleOps : list SmtOp :=
  [OpInsert (str "a") (str "1"); OpInsert (str "b") (str "2"); OpRoot; OpInsert (str "c") (str "3"); OpProve (str "b");
   OpDelete (str "a"); OpInsert (str "b") (str "4")].

Definition exampleTree : SMT := default New (runSmt toyHash New exampleOps).

Lemma exampleTree_built : runSmt toyHash New exampleOps = Some exampleTree.
Proof. vm_compute. reflexivity. Qed.

Theorem incremental_is_functional_witness :
  exists t, runSmt toyHash New exampleOps = Some t /\
    functionalRoot toyHash (entriesSnapshot t) = Some (fst (Root toyHash t)) /\
    functionalProve toyHash (entriesSnapshot t) (toyHash (str "b")) = Some (fst (Prove toyHash t (str "b"))).
Proof.
  destruct (incremental_is_functional toyHash exampleOps) as (t & Hrun & _ & Hroot & Hprove & _).
  exists t. exact (conj Hrun (conj Hroot (Hprove (str "b")))).
Defined.

Theorem served_proof_verifies_witness :
  exists p, DeserializeProof (Serialize (fst (Prove toyHash exampleTree (str "b")))) = Some p /\
    Verify toyHash (fst (Root toyHash exampleTree)) (str "b") (Get toyHash exampleTree (str "b")) p = true.
Proof. apply (served_proof_verifies toyHash exampleOps exampleTree (str "b") exampleTree_built). Defined.

Theorem verified_answer_is_stored_witness :
  Get toyHash exampleTree (str "b") = Some (str "4") /\ Get toyHash exampleTree (str "a") = None.
Proof.
  split.
  - apply (verified_answer_is_stored toyHash exampleOps exampleTree (str "b") (Some (str "4")) (fst (Prove toyHash exampleTree (str "b")))).
    + exact exampleTree_built.
    + apply (bool_decide_unpack _). vm_compute. exact I.
    + apply noCollisionB_sound. vm_compute. reflexivity.
    + vm_compute. reflexivity.
  - apply (verified_answer_is_stored toyHash exampleOps exampleTree (str "a") None (fst (Prove toyHash exampleTree (str "a")))).
    + exact exampleTree_built.
    + apply (bool_decide_unpack _). vm_compute. exact I.
    + apply noCollisionB_sound. vm_compute. reflexivity.
    + vm_compute. reflexivity.
Defined.
