(* ===== verification/Index.v ===== *)
(** * The verifiable index (internal/index: domain_tree.go, hierarchy_trees.go,
    validator_tree.go, manager.go, query.go)

    The four trees over the sparse Merkle tree, the manager with its retained
    root history, and the proved queries.  [None] is the panic of an insertion,
    which [Insert_ok] excludes; a read returns the manager with the hashes it
    memoised. *)

From S2P Require Import Prelude Types Persist Smt.

(** ** Leaves *)

Record DomainLeaf := mkDomainLeaf { dl_Name : bytes; dl_ObjectID : Hash; dl_Owner : Hash; dl_ExpiryEpoch : Z }.

Definition encodeDomainLeaf (l : DomainLeaf) : bytes :=
  be_enc 4 (u32 (Z.of_nat (length (dl_Name l)))) ++ dl_Name l ++ dl_ObjectID l ++ dl_Owner l ++ be_enc 8 (dl_ExpiryEpoch l).

Definition DecodeDomainLeaf (data : bytes) : option DomainLeaf :=
  if Nat.ltb (length data) 4 then None
  else
    let nameLen := be_dec (take 4 data) in
    let data := drop 4 data in
    if negb (Z.of_nat (length data) =? nameLen + 32 + 32 + 8) then None
    else
      let n := Z.to_nat nameLen in
      let name := take n data in
      let data := drop n data in
      Some (mkDomainLeaf name (take 32 data) (take 32 (drop 32 data)) (be_dec (take 8 (drop 64 data)))).

Definition KeyRootKind : Z := 0.
Definition ObjectParentKind : Z := 1.
Definition presentMarker : Z := 1.

Record ParentLeaf := mkParentLeaf { pl_ChildID : Hash; pl_ParentKind : Z; pl_Parent : Hash }.

Definition encodeParentLeaf (l : ParentLeaf) : bytes := pl_ChildID l ++ [pl_ParentKind l] ++ pl_Parent l.

Definition DecodeParentLeaf (data : bytes) : option ParentLeaf :=
  if negb (Nat.eqb (length data) 65) then None
  else Some (mkParentLeaf (take 32 data) (nth 32 data 0) (take 32 (drop 33 data))).

Definition ValidatorActive : Z := 0.
Definition ValidatorJailed : Z := 1.

Record ValidatorLeaf := mkValidatorLeaf { vl_Pubkey : Hash; vl_CappedStake : Z; vl_BLSKey : bytes; vl_Status : Z }.

Definition encodeValidatorLeaf (l : ValidatorLeaf) : bytes :=
  vl_Pubkey l ++ be_enc 8 (vl_CappedStake l) ++ vl_BLSKey l ++ [vl_Status l].

Definition DecodeValidatorLeaf (data : bytes) : option ValidatorLeaf :=
  if negb (Nat.eqb (length data) 89) then None
  else Some (mkValidatorLeaf (take 32 data) (be_dec (take 8 (drop 32 data))) (take 48 (drop 40 data)) (nth 88 data 0)).

(** ** Trees *)

Record ChildrenTree := mkChildren { ct_top : SMT; ct_children : gmap Hash (gset Hash) }.

Record HierarchyTrees := mkHierarchy { ht_Parent : SMT; ht_Children : ChildrenTree }.

Record ValidatorTree := mkValidatorTree { vt_smt : SMT; vt_values : list bytes }.

Definition NewHierarchyTrees : HierarchyTrees := mkHierarchy New (mkChildren New ∅).
Definition NewValidatorTree : ValidatorTree := mkValidatorTree New [].

Record TrackerEntry := mkIndexEntry { ie_ID : Hash; ie_ParentKind : Z; ie_Parent : Hash }.

Record Roots := mkRoots { r_Domain : Hash; r_Parent : Hash; r_Children : Hash; r_Validator : Hash; r_Combined : Hash }.

#[export] Instance DomainLeaf_eq_dec : EqDecision DomainLeaf.
Proof. solve_decision. Defined.

#[export] Instance TrackerEntry_eq_dec : EqDecision TrackerEntry.
Proof. solve_decision. Defined.

Definition historyWindow : nat := 1000.

Record Manager := mkManager {
  m_hierarchy : HierarchyTrees;
  m_domain : SMT;
  m_validator : ValidatorTree;
  m_history : gmap Z Hash;
  m_order : list Z;
  m_epochCheckpoints : gmap Z Hash;
  m_pendingCheckpoint : bool;
  m_frontierRound : Z;
  m_frontierRoot : Hash;
}.

Definition NewManager : Manager := mkManager NewHierarchyTrees New NewValidatorTree ∅ [] ∅ false 0 zeroHash.

Definition set_trees (m : Manager) (h : HierarchyTrees) (dt : SMT) (v : ValidatorTree) : Manager :=
  mkManager h dt v (m_history m) (m_order m) (m_epochCheckpoints m) (m_pendingCheckpoint m) (m_frontierRound m) (m_frontierRoot m).

(** [evictOldRounds]. *)
Fixpoint evictLoop (fuel : nat) (order : list Z) (history : gmap Z Hash) : list Z * gmap Z Hash :=
  match fuel with
  | O => (order, history)
  | S fuel =>
      if Nat.ltb historyWindow (length order) then
        match order with
        | [] => (order, history)
        | oldest :: order => evictLoop fuel order (delete oldest history)
        end
      else (order, history)
  end.

Definition evictOldRounds (order : list Z) (history : gmap Z Hash) : list Z * gmap Z Hash := evictLoop (length order) order history.

Definition CommittedFrontier (m : Manager) : Z * Hash := (m_frontierRound m, m_frontierRoot m).

Definition RootAt (m : Manager) (round : Z) : option Hash :=
  match m_epochCheckpoints m !! round with
  | Some root => Some root
  | None => m_history m !! round
  end.

Record Anchor := mkAnchor { a_Roots : Roots; a_Round : Z; a_Anchored : bool }.
Record DomainAnswer := mkDomainAnswer { da_Anchor : Anchor; da_Value : option bytes; da_Proof : MerkleProof }.
Record ChildrenAnswer := mkChildrenAnswer {
  ca_Anchor : Anchor; ca_SubtreeRoot : Hash; ca_Found : bool; ca_Proof : MerkleProof; ca_Children : list Hash }.
Record AncestorEdge := mkAncestorEdge { ae_ChildID : Hash; ae_Value : option bytes; ae_Proof : MerkleProof }.
Record AncestorAnswer := mkAncestorAnswer { aa_Anchor : Anchor; aa_Edges : list AncestorEdge }.
Record ValidatorAnswer := mkValidatorAnswer { va_Anchor : Anchor; va_Values : list bytes }.

Definition ancestorWalkLimit : nat := 256.

Section Index.
Context (H : bytes -> Hash).

(** *** Domain tree *)

Definition domainSet (t : SMT) (leaf : DomainLeaf) : option SMT := Insert H t (dl_Name leaf) (encodeDomainLeaf leaf).
Definition domainRemove (t : SMT) (name : bytes) : SMT := Delete H t name.
Definition domainGet (t : SMT) (name : bytes) : option DomainLeaf := value ← Get H t name; DecodeDomainLeaf value.

(** *** Hierarchy trees *)

Definition parentSet (t : SMT) (child : Hash) (kind : Z) (parent : Hash) : option SMT :=
  Insert H t child (encodeParentLeaf (mkParentLeaf child kind parent)).

Definition parentGet (t : SMT) (child : Hash) : option ParentLeaf := value ← Get H t child; DecodeParentLeaf value.

(** [subtreeRoot]; the source ranges over a map. *)
Fixpoint insertMarkers (sub : SMT) (children : list Hash) : option SMT :=
  match children with
  | [] => Some sub
  | c :: children => sub ← Insert H sub c [presentMarker]; insertMarkers sub children
  end.

Definition subtreeRoot (children : gset Hash) : option Hash :=
  sub ← insertMarkers New (elements children); Some (fst (Root H sub)).

Definition syncTop (t : ChildrenTree) (parent : Hash) : option ChildrenTree :=
  match ct_children t !! parent with
  | None => Some (mkChildren (Delete H (ct_top t) parent) (ct_children t))
  | Some set =>
      if Nat.eqb (size set) 0 then Some (mkChildren (Delete H (ct_top t) parent) (ct_children t))
      else
        root ← subtreeRoot set;
        top ← Insert H (ct_top t) parent root;
        Some (mkChildren top (ct_children t))
  end.

Definition addChild (t : ChildrenTree) (parent child : Hash) : option ChildrenTree :=
  let set := default ∅ (ct_children t !! parent) in
  syncTop (mkChildren (ct_top t) (<[parent := {[ child ]} ∪ set]> (ct_children t))) parent.

Definition removeChild (t : ChildrenTree) (parent child : Hash) : option ChildrenTree :=
  match ct_children t !! parent with
  | None => Some t
  | Some set =>
      let set := set ∖ {[ child ]} in
      let children := if Nat.eqb (size set) 0 then delete parent (ct_children t) else <[parent := set]> (ct_children t) in
      syncTop (mkChildren (ct_top t) children) parent
  end.

Definition Children (t : ChildrenTree) (parent : Hash) : list Hash := elements (default ∅ (ct_children t !! parent)).

Definition TopLeaf (t : ChildrenTree) (parent : Hash) : option Hash :=
  value ← Get H (ct_top t) parent; if negb (Nat.eqb (length value) 32) then None else Some value.

Definition SetEdge (h : HierarchyTrees) (child : Hash) (kind : Z) (parent : Hash) : option HierarchyTrees :=
  children ← match parentGet (ht_Parent h) child with
             | Some old => removeChild (ht_Children h) (pl_Parent old) child
             | None => Some (ht_Children h)
             end;
  p ← parentSet (ht_Parent h) child kind parent;
  children ← addChild children parent child;
  Some (mkHierarchy p children).

Definition RemoveEdge (h : HierarchyTrees) (child : Hash) : option HierarchyTrees :=
  children ← match parentGet (ht_Parent h) child with
             | Some old => removeChild (ht_Children h) (pl_Parent old) child
             | None => Some (ht_Children h)
             end;
  Some (mkHierarchy (Delete H (ht_Parent h) child) children).

(** *** Validator tree *)

Fixpoint insertLeaves (t : SMT) (entries : list ValidatorLeaf) : option SMT :=
  match entries with
  | [] => Some t
  | e :: entries => t ← Insert H t (vl_Pubkey e) (encodeValidatorLeaf e); insertLeaves t entries
  end.

Definition Rebuild (entries : list ValidatorLeaf) : option ValidatorTree :=
  fresh ← insertLeaves New entries; Some (mkValidatorTree fresh (map encodeValidatorLeaf entries)).

Definition Values (t : ValidatorTree) : list bytes := vt_values t.

Definition ValidatorRootOf (entries : list ValidatorLeaf) : option Hash :=
  t ← Rebuild entries; Some (fst (Root H (vt_smt t))).

Definition CombinedRoot (domain parent children validator : Hash) : Hash := H (domain ++ parent ++ children ++ validator).

(** *** Manager *)

Definition managerApplyEdge (m : Manager) (child : Hash) (kind : Z) (parent : Hash) : option Manager :=
  h ← SetEdge (m_hierarchy m) child kind parent; Some (set_trees m h (m_domain m) (m_validator m)).

Definition managerRemoveObject (m : Manager) (child : Hash) : option Manager :=
  h ← RemoveEdge (m_hierarchy m) child; Some (set_trees m h (m_domain m) (m_validator m)).

Definition managerApplyDomain (m : Manager) (name : bytes) (objectID owner : Hash) (expiryEpoch : Z) : option Manager :=
  t ← domainSet (m_domain m) (mkDomainLeaf name objectID owner expiryEpoch); Some (set_trees m (m_hierarchy m) t (m_validator m)).

Definition managerRemoveDomain (m : Manager) (name : bytes) : Manager :=
  set_trees m (m_hierarchy m) (domainRemove (m_domain m) name) (m_validator m).

Definition managerRebuildValidators (m : Manager) (entries : list ValidatorLeaf) : option Manager :=
  v ← Rebuild entries;
  Some (mkManager (m_hierarchy m) (m_domain m) v (m_history m) (m_order m) (m_epochCheckpoints m) true (m_frontierRound m)
          (m_frontierRoot m)).

Definition roots (m : Manager) : Roots * Manager :=
  let '(d, dt) := Root H (m_domain m) in
  let '(p, pt) := Root H (ht_Parent (m_hierarchy m)) in
  let '(c, top) := Root H (ct_top (ht_Children (m_hierarchy m))) in
  let '(v, vt) := Root H (vt_smt (m_validator m)) in
  (mkRoots d p c v (CombinedRoot d p c v),
   set_trees m (mkHierarchy pt (mkChildren top (ct_children (ht_Children (m_hierarchy m))))) dt
     (mkValidatorTree vt (vt_values (m_validator m)))).

Definition managerSetFrontier (m : Manager) (round : Z) : Manager :=
  if match last (m_order m) with Some r => round <=? r | None => false end then m
  else
    let '(rs, m) := roots m in
    let root := r_Combined rs in
    let '(order, history) := evictOldRounds (m_order m ++ [round]) (<[round := root]> (m_history m)) in
    mkManager (m_hierarchy m) (m_domain m) (m_validator m) history order
      (if m_pendingCheckpoint m then <[round := root]> (m_epochCheckpoints m) else m_epochCheckpoints m) false round root.

Fixpoint setEdges (h : HierarchyTrees) (entries : list TrackerEntry) : option HierarchyTrees :=
  match entries with
  | [] => Some h
  | e :: entries => h ← SetEdge h (ie_ID e) (ie_ParentKind e) (ie_Parent e); setEdges h entries
  end.

Fixpoint setDomains (t : SMT) (entries : list DomainLeaf) : option SMT :=
  match entries with
  | [] => Some t
  | e :: entries => t ← domainSet t e; setDomains t entries
  end.

Definition BuildFromState (m : Manager) (trackerEntries : list TrackerEntry) (domainEntries : list DomainLeaf)
    (validatorEntries : list ValidatorLeaf) : option Manager :=
  hierarchy ← setEdges NewHierarchyTrees trackerEntries;
  domain ← setDomains New domainEntries;
  validator ← Rebuild validatorEntries;
  Some (set_trees m hierarchy domain validator).

(** *** Queries *)

Definition anchor (m : Manager) : Anchor * Manager :=
  let '(rs, m) := roots m in
  (if bool_decide (r_Combined rs = m_frontierRoot m) then mkAnchor rs (m_frontierRound m) true else mkAnchor rs 0 false, m).

Definition ValidatorSetAnswer (m : Manager) : ValidatorAnswer * Manager :=
  let '(a, m) := anchor m in (mkValidatorAnswer a (Values (m_validator m)), m).

Definition ResolveDomain (m : Manager) (name : bytes) : DomainAnswer * Manager :=
  let value := Get H (m_domain m) name in
  let '(a, m) := anchor m in
  let '(p, t) := Prove H (m_domain m) name in
  (mkDomainAnswer a value p, set_trees m (m_hierarchy m) t (m_validator m)).

Definition ListChildren (m : Manager) (parent : Hash) : ChildrenAnswer * Manager :=
  let leaf := TopLeaf (ht_Children (m_hierarchy m)) parent in
  let '(a, m) := anchor m in
  let ch := ht_Children (m_hierarchy m) in
  let '(p, top) := Prove H (ct_top ch) parent in
  (mkChildrenAnswer a (default zeroHash leaf) (bool_decide (is_Some leaf)) p (Children ch parent),
   set_trees m (mkHierarchy (ht_Parent (m_hierarchy m)) (mkChildren top (ct_children ch))) (m_domain m) (m_validator m)).

Fixpoint walkEdges (hops : nat) (parents : SMT) (current : Hash) : list AncestorEdge * SMT :=
  match hops with
  | O => ([], parents)
  | S hops =>
      let value := Get H parents current in
      let '(p, parents) := Prove H parents current in
      let edge := mkAncestorEdge current value p in
      match value ≫= DecodeParentLeaf with
      | None => ([edge], parents)
      | Some leaf =>
          if pl_ParentKind leaf =? KeyRootKind then ([edge], parents)
          else let '(edges, parents) := walkEdges hops parents (pl_Parent leaf) in (edge :: edges, parents)
      end
  end.

Definition Ancestors (m : Manager) (objectID : Hash) : AncestorAnswer * Manager :=
  let '(a, m) := anchor m in
  let '(edges, parents) := walkEdges ancestorWalkLimit (ht_Parent (m_hierarchy m)) objectID in
  (mkAncestorAnswer a edges, set_trees m (mkHierarchy parents (ht_Children (m_hierarchy m))) (m_domain m) (m_validator m)).

(** The client side of an enumeration. *)
Definition ChildrenSubtreeRoot (children : list Hash) : option (option Hash) :=
  if decide (NoDup children) then root ← subtreeRoot (list_to_set children); Some (Some root) else Some None.

End Index.
