(* ===== verification/IndexFacts.v ===== *)
(** * The index against a plain map

    The trees, fed edge by edge, stand for the current edges, names and
    validators; a rebuild from those gives the same roots; the retained history
    never rewrites a root; and what the queries serve verifies (internal/index). *)

From S2P Require Import Prelude Types Persist Smt Merkle Index.

Section Facts.
Context (H : bytes -> Hash) `{!Digest H}.
(** The identifiers and names in use, on which blake3 does not collide. *)
Context (K : bytes -> Prop) (Kinj : forall a b, K a -> K b -> H a = H b -> a = b).

(** ** A tree that stands for a map *)

Record Stores (t : SMT) (m : gmap bytes bytes) : Prop := {
  ts_ok : smtOk H t;
  ts_keys : map_Forall (fun k _ => K k) m;
  ts_map : forall p v, (en_value <$> smt_entries t) !! p = Some v <-> exists key, m !! key = Some v /\ H key = p;
}.

Lemma Stores_New : Stores New ∅.
Proof using.
  split; [apply New_ok|apply map_Forall_empty|]. intros p v. simpl. rewrite fmap_empty, lookup_empty.
  split; [done|]. intros (key & Hk & _). by rewrite lookup_empty in Hk.
Qed.

Lemma Stores_Insert t m key value : Stores t m -> K key ->
  exists t', Insert H t key value = Some t' /\ Stores t' (<[key := value]> m).
Proof using Digest0 Kinj.
  intros [Hok Hk Hm] HK. destruct (Insert_ok H t key value Hok) as (t' & E & Hok' & He). exists t'. split; [done|].
  split; [done|by apply map_Forall_insert_2|]. intros p v. rewrite He, fmap_insert. cbn [en_value].
  rewrite lookup_insert_Some, Hm. split.
  - intros [[<- <-]|[Hne (q & Hq & <-)]].
    + exists key. by rewrite lookup_insert_eq.
    + exists q. split; [|done]. rewrite lookup_insert_ne; [done|]. by intros <-.
  - intros (q & [[<- <-]|[Hne Hq]]%lookup_insert_Some & <-); [by left|]. right. split; [|eauto].
    intros E'. apply Hne. apply Kinj; [done|by apply (Hk q v)|done].
Qed.

Lemma Stores_Delete t m key : Stores t m -> K key -> Stores (Delete H t key) (delete key m).
Proof using Kinj.
  intros [Hok Hk Hm] HK. destruct (Delete_ok H t key Hok) as [Hok' He]. split; [done|by apply map_Forall_delete|].
  intros p v. rewrite He, fmap_delete, lookup_delete_Some, Hm. split.
  - intros [Hne (q & Hq & <-)]. exists q. split; [|done]. apply lookup_delete_Some. split; [by intros <-|done].
  - intros (q & [Hne Hq]%lookup_delete_Some & <-). split; [|eauto]. intros E. apply Hne. apply Kinj; [done|by apply (Hk q v)|done].
Qed.

Lemma Stores_Get t m key : Stores t m -> K key -> Get H t key = m !! key.
Proof using Kinj.
  intros [Hok Hk Hm] HK. unfold Get. rewrite <- lookup_fmap. apply option_eq. intros v. rewrite Hm. split; [|eauto].
  intros (q & Hq & E). apply Kinj in E; [by subst|by apply (Hk q v)|done].
Qed.

Lemma Stores_Root t m : Stores t m -> Stores (snd (Root H t)) m.
Proof using. intros [Hok Hk Hm]. destruct (Root_ok H t Hok) as (_ & Hok' & He & _). split; [done|done|]. by rewrite He. Qed.

Lemma Stores_Prove t m key : Stores t m -> Stores (snd (Prove H t key)) m /\ fst (Root H (snd (Prove H t key))) = fst (Root H t).
Proof using. intros [Hok Hk Hm]. destruct (Prove_ok H t key Hok) as (_ & Hok' & He & HR). split; [|done]. split; [done|done|]. by rewrite He. Qed.

(** The root is a function of the map. *)
Lemma Stores_root_eq t t' m : Stores t m -> Stores t' m -> fst (Root H t) = fst (Root H t').
Proof using.
  intros Ht Ht'. apply root_canonical; [apply Ht|apply Ht'|]. apply map_eq. intros p. apply option_eq. intros v.
  by rewrite (ts_map _ _ Ht), (ts_map _ _ Ht').
Qed.

(** ** Children subtrees *)

Lemma insertMarkers_stores l : forall sub m, Stores sub m -> Forall K l ->
  exists sub', insertMarkers H sub l = Some sub' /\ Stores sub' (foldl (fun m c => <[c := [presentMarker]]> m) m l).
Proof using Digest0 Kinj.
  induction l as [|c l IH]; intros sub m Hs Hl; [by exists sub|]. apply Forall_cons in Hl as [Hc Hl]. cbn [insertMarkers foldl].
  destruct (Stores_Insert sub m c [presentMarker] Hs Hc) as (sub1 & -> & Hs1). cbn [mbind option_bind]. by apply IH.
Qed.

Lemma subtreeRoot_total (s : gset Hash) : set_Forall K s -> exists r, subtreeRoot H s = Some r /\ length r = 32%nat.
Proof using Digest0 Kinj.
  intros Hs. unfold subtreeRoot. destruct (insertMarkers_stores (elements s) New ∅ Stores_New) as (sub & -> & Hst).
  { apply Forall_forall. intros x Hx. apply Hs. by apply elem_of_elements. }
  cbn [mbind option_bind]. eexists. split; [done|]. destruct (Root_ok H sub (ts_ok _ _ Hst)) as (-> & _). by apply length_pureHash.
Qed.

(** ** The hierarchy *)

Abbreviation Edges := (gmap Hash (Z * Hash)).

Definition childSet (edges : Edges) (p : Hash) : gset Hash := dom (filter (fun kv => kv.2.2 = p) edges).

Definition parentMap (edges : Edges) : gmap bytes bytes :=
  map_imap (fun c kp => Some (encodeParentLeaf (mkParentLeaf c (fst kp) (snd kp)))) edges.

Definition topMap (children : gmap Hash (gset Hash)) : gmap bytes bytes := (fun s => default [] (subtreeRoot H s)) <$> children.

Definition idOk (h : Hash) : Prop := K h /\ length h = 32%nat.

Definition edgesOk (edges : Edges) : Prop := map_Forall (fun c kp => idOk c /\ idOk (snd kp)) edges.

Definition childrenOk (edges : Edges) (children : gmap Hash (gset Hash)) : Prop :=
  forall p, children !! p = if decide (childSet edges p = ∅) then None else Some (childSet edges p).

Record hierOk (h : HierarchyTrees) (edges : Edges) : Prop := {
  ho_edges : edgesOk edges;
  ho_parent : Stores (ht_Parent h) (parentMap edges);
  ho_children : childrenOk edges (ct_children (ht_Children h));
  ho_top : Stores (ct_top (ht_Children h)) (topMap (ct_children (ht_Children h)));
}.

Lemma childSet_elem (edges : Edges) (p c : Hash) : c ∈ childSet edges p <-> exists k, edges !! c = Some (k, p).
Proof using.
  unfold childSet. rewrite elem_of_dom. split.
  - intros [[k q] [Hl Hq]%map_lookup_filter_Some]. simpl in Hq. subst q. eauto.
  - intros [k Hl]. exists (k, p). apply map_lookup_filter_Some. done.
Qed.

Lemma childSet_delete (edges : Edges) (c p : Hash) : childSet (delete c edges) p = childSet edges p ∖ {[ c ]}.
Proof using.
  apply set_eq. intros x. rewrite elem_of_difference, elem_of_singleton, !childSet_elem. setoid_rewrite lookup_delete_Some. naive_solver.
Qed.

Lemma childSet_insert (edges : Edges) (c : Hash) (k : Z) (p q : Hash) : edges !! c = None ->
  childSet (<[c := (k, p)]> edges) q = if decide (q = p) then {[ c ]} ∪ childSet edges q else childSet edges q.
Proof using.
  intros Hn. apply set_eq. intros x. rewrite childSet_elem. setoid_rewrite lookup_insert_Some. case_decide as E.
  - subst q. rewrite elem_of_union, elem_of_singleton, childSet_elem. split.
    + intros (k' & [[-> _]|[_ ?]]); eauto.
    + intros [->|[k' ?]]; [by exists k; left|]. exists k'. right. split; [|done]. by intros <-; rewrite Hn in *.
  - rewrite childSet_elem. split.
    + intros (k' & [[_ [= -> ->]]|[_ ?]]); [done|eauto].
    + intros [k' ?]. exists k'. right. split; [|done]. by intros <-; rewrite Hn in *.
Qed.

Lemma parentMap_lookup (edges : Edges) (c : Hash) : parentMap edges !! c = (fun kp => encodeParentLeaf (mkParentLeaf c (fst kp) (snd kp))) <$> edges !! c.
Proof using. unfold parentMap. rewrite map_lookup_imap. by destruct (edges !! c). Qed.

Lemma parentMap_insert (edges : Edges) (c : Hash) (k : Z) (p : Hash) :
  parentMap (<[c := (k, p)]> edges) = <[c := encodeParentLeaf (mkParentLeaf c k p)]> (parentMap edges).
Proof using.
  apply map_eq. intros x. rewrite parentMap_lookup. destruct (decide (c = x)) as [->|].
  - by rewrite !lookup_insert_eq.
  - by rewrite !lookup_insert_ne, parentMap_lookup by done.
Qed.

Lemma parentMap_delete (edges : Edges) (c : Hash) : parentMap (delete c edges) = delete c (parentMap edges).
Proof using.
  apply map_eq. intros x. rewrite parentMap_lookup. destruct (decide (c = x)) as [->|].
  - by rewrite !lookup_delete_eq.
  - by rewrite !lookup_delete_ne, parentMap_lookup by done.
Qed.

Lemma parentLeaf_roundtrip l : length (pl_ChildID l) = 32%nat -> length (pl_Parent l) = 32%nat ->
  DecodeParentLeaf (encodeParentLeaf l) = Some l.
Proof using.
  intros Hc Hp. unfold DecodeParentLeaf, encodeParentLeaf. rewrite !length_app, Hc, Hp. cbn [length Nat.add Nat.eqb negb].
  rewrite take_app_length' by done. rewrite app_nth2 by lia. rewrite Hc, Nat.sub_diag. cbn [app nth].
  rewrite (drop_app_ge (pl_ChildID l)) by lia. rewrite Hc. cbn [Nat.sub drop app]. rewrite drop_0, take_ge by lia. by destruct l.
Qed.

Lemma parentGet_edges (h : HierarchyTrees) (edges : Edges) (c : Hash) : hierOk h edges -> K c ->
  parentGet H (ht_Parent h) c = (fun kp => mkParentLeaf c (fst kp) (snd kp)) <$> edges !! c.
Proof using Kinj.
  intros Hh Hc. unfold parentGet. rewrite (Stores_Get _ _ c (ho_parent _ _ Hh) Hc), parentMap_lookup.
  destruct (edges !! c) as [[k p]|] eqn:E; [|done]. cbn [fmap option_fmap option_map mbind option_bind].
  destruct (ho_edges _ _ Hh c (k, p) E) as [[_ ?] [_ ?]]. by rewrite parentLeaf_roundtrip.
Qed.

(** [syncTop] repairs the one leaf that changed. *)
Lemma syncTop_stores (top : SMT) (children : gmap Hash (gset Hash)) (M : gmap bytes bytes) (parent : Hash) :
  Stores top M -> K parent -> delete parent M = delete parent (topMap children) ->
  children !! parent ≠ Some ∅ -> (forall s, children !! parent = Some s -> set_Forall K s) ->
  exists t, syncTop H (mkChildren top children) parent = Some t /\ ct_children t = children /\ Stores (ct_top t) (topMap children).
Proof using Digest0 Kinj.
  intros Ht HK HM Hne Hs. unfold syncTop. cbn [ct_children ct_top]. destruct (children !! parent) as [s|] eqn:E.
  - destruct (Nat.eqb_spec (size s) 0) as [Hz|_].
    { apply size_empty_inv in Hz. fold_leibniz. by subst s. }
    destruct (subtreeRoot_total s (Hs s eq_refl)) as (r & Er & _). rewrite Er. cbn [mbind option_bind].
    destruct (Stores_Insert top M parent r Ht HK) as (top' & -> & Ht'). cbn [mbind option_bind]. eexists. split; [done|]. split; [done|].
    assert (topMap children = <[parent := r]> M) as ->; [|done].
    rewrite <- (insert_delete_eq M), HM, insert_delete_eq. symmetry. apply insert_id. unfold topMap. rewrite lookup_fmap, E. simpl.
    by rewrite Er.
  - eexists. split; [done|]. split; [done|]. simpl. pose proof (Stores_Delete top M parent Ht HK) as Hd. rewrite HM in Hd.
    rewrite delete_id in Hd; [done|]. unfold topMap. by rewrite lookup_fmap, E.
Qed.

Lemma edges_set (edges : Edges) (p : Hash) : edgesOk edges -> set_Forall K (childSet edges p).
Proof using. intros He c [k Hc]%childSet_elem. by destruct (He c _ Hc) as [[? _] _]. Qed.

Lemma removeChild_ok (t : ChildrenTree) (edges : Edges) (c : Hash) (k : Z) (p : Hash) :
  edgesOk edges -> childrenOk edges (ct_children t) -> Stores (ct_top t) (topMap (ct_children t)) -> edges !! c = Some (k, p) ->
  exists t', removeChild H t p c = Some t' /\ childrenOk (delete c edges) (ct_children t') /\ Stores (ct_top t') (topMap (ct_children t')).
Proof using Digest0 Kinj.
  intros He Hc Ht Hl. unfold removeChild. assert (Hin : c ∈ childSet edges p) by (apply childSet_elem; eauto).
  rewrite (Hc p). case_decide as E; [rewrite E in Hin; by apply elem_of_empty in Hin|].
  set (children := if Nat.eqb _ _ then _ else _).
  assert (Hc' : childrenOk (delete c edges) children).
  { intros q. rewrite childSet_delete. unfold children. destruct (Nat.eqb_spec (size (childSet edges p ∖ {[c]})) 0) as [Hz|Hz].
    - apply size_empty_inv in Hz. fold_leibniz. destruct (decide (p = q)) as [->|Hpq].
      + rewrite lookup_delete_eq. by rewrite decide_True.
      + rewrite lookup_delete_ne by done. rewrite Hc. assert (childSet edges q ∖ {[c]} = childSet edges q) as ->; [|done].
        apply difference_disjoint_L. apply disjoint_singleton_r. intros [k' Hq]%childSet_elem. congruence.
    - destruct (decide (p = q)) as [->|Hpq].
      + rewrite lookup_insert_eq. rewrite decide_False; [done|]. intros Hn. apply Hz. by rewrite Hn, size_empty.
      + rewrite lookup_insert_ne by done. rewrite Hc. assert (childSet edges q ∖ {[c]} = childSet edges q) as ->; [|done].
        apply difference_disjoint_L. apply disjoint_singleton_r. intros [k' Hq]%childSet_elem. congruence. }
  destruct (syncTop_stores (ct_top t) children (topMap (ct_children t)) p) as (t' & Es & Ec & Hs); [done| | | | |].
  - by destruct (He c _ Hl) as [_ [? _]].
  - unfold topMap. rewrite <- !fmap_delete. f_equal. unfold children.
    destruct (Nat.eqb _ _); [by rewrite delete_delete_eq|by rewrite delete_insert_eq].
  - rewrite (Hc' p). case_decide; congruence.
  - intros s Hs. rewrite (Hc' p) in Hs. case_decide; [done|]. injection Hs as <-. apply edges_set. by apply map_Forall_delete.
  - exists t'. rewrite Ec. eauto.
Qed.

Lemma addChild_ok (t : ChildrenTree) (edges : Edges) (c : Hash) (k : Z) (p : Hash) :
  edgesOk edges -> childrenOk edges (ct_children t) -> Stores (ct_top t) (topMap (ct_children t)) -> edges !! c = None -> idOk c -> idOk p ->
  exists t', addChild H t p c = Some t' /\ childrenOk (<[c := (k, p)]> edges) (ct_children t') /\ Stores (ct_top t') (topMap (ct_children t')).
Proof using Digest0 Kinj.
  intros He Hc Ht Hl Hic Hip. unfold addChild.
  assert (Hd : default ∅ (ct_children t !! p) = childSet edges p) by (rewrite (Hc p); case_decide; simpl; congruence).
  rewrite Hd. set (children := <[p := _]> (ct_children t)).
  assert (Hc' : childrenOk (<[c := (k, p)]> edges) children).
  { intros q. rewrite childSet_insert by done. unfold children. destruct (decide (p = q)) as [->|Hpq].
    - rewrite lookup_insert_eq. destruct (decide (q = q)); [|done]. rewrite decide_False; [done|set_solver].
    - rewrite lookup_insert_ne by done. destruct (decide (q = p)); [congruence|]. apply Hc. }
  destruct (syncTop_stores (ct_top t) children (topMap (ct_children t)) p) as (t' & Es & Ec & Hs); [done|apply Hip| | | |].
  - unfold topMap. rewrite <- !fmap_delete. f_equal. unfold children. by rewrite delete_insert_eq.
  - rewrite (Hc' p). case_decide; congruence.
  - intros s Hs. rewrite (Hc' p) in Hs. case_decide; [done|]. injection Hs as <-. apply edges_set. by apply map_Forall_insert_2.
  - exists t'. rewrite Ec. eauto.
Qed.

Lemma SetEdge_ok (h : HierarchyTrees) (edges : Edges) (c : Hash) (k : Z) (p : Hash) :
  hierOk h edges -> idOk c -> idOk p -> exists h', SetEdge H h c k p = Some h' /\ hierOk h' (<[c := (k, p)]> edges).
Proof using Digest0 Kinj.
  intros Hh Hc Hp. unfold SetEdge. rewrite (parentGet_edges h edges c Hh (proj1 Hc)). destruct Hh as [He Hpar Hch Htop].
  assert (Hstep : exists t, match (fun kp => mkParentLeaf c (fst kp) (snd kp)) <$> edges !! c with
                            | Some old => removeChild H (ht_Children h) (pl_Parent old) c
                            | None => Some (ht_Children h)
                            end = Some t /\ childrenOk (delete c edges) (ct_children t) /\ Stores (ct_top t) (topMap (ct_children t))).
  { destruct (edges !! c) as [[k0 p0]|] eqn:E.
    - apply (removeChild_ok (ht_Children h) edges c k0 p0); done.
    - eexists. split; [done|]. by rewrite delete_id. }
  destruct Hstep as (t & -> & Hc1 & Ht1). cbn [mbind option_bind].
  unfold parentSet. destruct (Stores_Insert (ht_Parent h) _ c (encodeParentLeaf (mkParentLeaf c k p)) Hpar (proj1 Hc)) as (pt & -> & Hpt).
  cbn [mbind option_bind].
  destruct (addChild_ok t (delete c edges) c k p) as (t' & -> & Hc2 & Ht2); try done; [by apply map_Forall_delete|apply lookup_delete_eq|].
  cbn [mbind option_bind]. eexists. split; [done|]. rewrite insert_delete_eq in Hc2. split; cbn [ht_Parent ht_Children]; [|by rewrite parentMap_insert|done|done].
  by apply map_Forall_insert_2.
Qed.

Lemma RemoveEdge_ok (h : HierarchyTrees) (edges : Edges) (c : Hash) :
  hierOk h edges -> idOk c -> exists h', RemoveEdge H h c = Some h' /\ hierOk h' (delete c edges).
Proof using Digest0 Kinj.
  intros Hh Hc. unfold RemoveEdge. rewrite (parentGet_edges h edges c Hh (proj1 Hc)). destruct Hh as [He Hpar Hch Htop].
  assert (Hd := Stores_Delete (ht_Parent h) _ c Hpar (proj1 Hc)). rewrite <- parentMap_delete in Hd.
  destruct (edges !! c) as [[k0 p0]|] eqn:E; cbn [fmap option_fmap option_map].
  - destruct (removeChild_ok (ht_Children h) edges c k0 p0) as (t & Et & Hc1 & Ht1); try done. cbn [pl_Parent fst snd]. rewrite Et.
    eexists. split; [done|]. split; try done. by apply map_Forall_delete.
  - eexists. split; [done|]. split; try done; [by apply map_Forall_delete|]. simpl. by rewrite delete_id.
Qed.

(** ** The manager *)

(** What the index stands for. *)
Record IndexState := mkIndexState {
  is_edges : Edges;
  is_domains : gmap bytes DomainLeaf;
  is_validators : list ValidatorLeaf;
}.

Definition emptyIndex : IndexState := mkIndexState ∅ ∅ [].

Definition leafMap (vs : list ValidatorLeaf) : gmap bytes bytes :=
  foldl (fun m v => <[vl_Pubkey v := encodeValidatorLeaf v]> m) ∅ vs.

Record managerOk (m : Manager) (a : IndexState) : Prop := {
  mo_hier : hierOk (m_hierarchy m) (is_edges a);
  mo_domain : Stores (m_domain m) (encodeDomainLeaf <$> is_domains a);
  mo_validator : Stores (vt_smt (m_validator m)) (leafMap (is_validators a));
  mo_values : vt_values (m_validator m) = map encodeValidatorLeaf (is_validators a);
  mo_names : map_Forall (fun n l => dl_Name l = n) (is_domains a);
}.

Lemma NewManager_ok : managerOk NewManager emptyIndex.
Proof using.
  split; [|apply Stores_New|apply Stores_New|done|apply map_Forall_empty]. split; [apply map_Forall_empty|apply Stores_New| |].
  - intros p. cbn. rewrite lookup_empty. by rewrite decide_True by done.
  - unfold topMap. cbn [NewManager NewHierarchyTrees m_hierarchy ht_Children ct_children ct_top]. rewrite fmap_empty. apply Stores_New.
Qed.

Lemma insertLeaves_ok vs : forall t m, Stores t m -> Forall (fun v => K (vl_Pubkey v)) vs ->
  exists t', insertLeaves H t vs = Some t' /\ Stores t' (foldl (fun m v => <[vl_Pubkey v := encodeValidatorLeaf v]> m) m vs).
Proof using Digest0 Kinj.
  induction vs as [|v vs IH]; intros t m Ht Hv; [by exists t|]. apply Forall_cons in Hv as [Hk Hv]. cbn [insertLeaves foldl].
  destruct (Stores_Insert t m _ (encodeValidatorLeaf v) Ht Hk) as (t1 & -> & Ht1). cbn [mbind option_bind]. by apply IH.
Qed.

Lemma Rebuild_ok vs : Forall (fun v => K (vl_Pubkey v)) vs ->
  exists t, Rebuild H vs = Some t /\ Stores (vt_smt t) (leafMap vs) /\ vt_values t = map encodeValidatorLeaf vs.
Proof using Digest0 Kinj.
  intros Hv. unfold Rebuild. destruct (insertLeaves_ok vs New ∅ Stores_New Hv) as (t & -> & Ht). cbn [mbind option_bind]. eauto.
Qed.

(** Reading the roots leaves the contents. *)
Lemma roots_ok m a : managerOk m a -> managerOk (snd (roots H m)) a /\
  fst (roots H m) =
    (let d := fst (Root H (m_domain m)) in let p := fst (Root H (ht_Parent (m_hierarchy m))) in
     let c := fst (Root H (ct_top (ht_Children (m_hierarchy m)))) in let v := fst (Root H (vt_smt (m_validator m))) in
     mkRoots d p c v (CombinedRoot H d p c v)) /\
  m_history (snd (roots H m)) = m_history m /\ m_order (snd (roots H m)) = m_order m /\
  m_epochCheckpoints (snd (roots H m)) = m_epochCheckpoints m /\ m_pendingCheckpoint (snd (roots H m)) = m_pendingCheckpoint m /\
  m_frontierRound (snd (roots H m)) = m_frontierRound m /\ m_frontierRoot (snd (roots H m)) = m_frontierRoot m.
Proof using.
  intros [[He Hp Hc Ht] Hd Hv Hvs Hn]. pose proof (Stores_Root _ _ Hp) as Hp'. pose proof (Stores_Root _ _ Ht) as Ht'.
  pose proof (Stores_Root _ _ Hd) as Hd'. pose proof (Stores_Root _ _ Hv) as Hv'. unfold roots.
  destruct (Root H (m_domain m)), (Root H (ht_Parent (m_hierarchy m))), (Root H (ct_top _)), (Root H (vt_smt _)). done.
Qed.

(** Equal contents, equal roots. *)
Lemma roots_determined m m' a : managerOk m a -> managerOk m' a -> fst (roots H m) = fst (roots H m').
Proof using.
  intros Hm Hm'. destruct (roots_ok m a Hm) as (_ & -> & _), (roots_ok m' a Hm') as (_ & -> & _). cbv zeta.
  destruct Hm as [[_ Hp Hc Ht] Hd Hv _ _], Hm' as [[_ Hp' Hc' Ht'] Hd' Hv' _ _].
  assert (ct_children (ht_Children (m_hierarchy m)) = ct_children (ht_Children (m_hierarchy m'))) as Ec.
  { apply map_eq. intros q. by rewrite (Hc q), (Hc' q). }
  rewrite <- Ec in Ht'. by rewrite (Stores_root_eq _ _ _ Hp Hp'), (Stores_root_eq _ _ _ Ht Ht'), (Stores_root_eq _ _ _ Hd Hd'),
    (Stores_root_eq _ _ _ Hv Hv').
Qed.

(** *** One feed or query *)

Inductive IndexOp :=
| IxEdge (child : Hash) (kind : Z) (parent : Hash)
| IxRemove (child : Hash)
| IxDomain (name : bytes) (objectID owner : Hash) (expiryEpoch : Z)
| IxDropDomain (name : bytes)
| IxValidators (entries : list ValidatorLeaf)
| IxFrontier (round : Z)
| IxResolve (name : bytes)
| IxChildren (parent : Hash)
| IxAncestors (objectID : Hash)
| IxSet.

Definition managerStep (m : Manager) (op : IndexOp) : option Manager :=
  match op with
  | IxEdge c k p => managerApplyEdge H m c k p
  | IxRemove c => managerRemoveObject H m c
  | IxDomain n o w e => managerApplyDomain H m n o w e
  | IxDropDomain n => Some (managerRemoveDomain H m n)
  | IxValidators vs => managerRebuildValidators H m vs
  | IxFrontier r => Some (managerSetFrontier H m r)
  | IxResolve n => Some (snd (ResolveDomain H m n))
  | IxChildren p => Some (snd (ListChildren H m p))
  | IxAncestors c => Some (snd (Ancestors H m c))
  | IxSet => Some (snd (ValidatorSetAnswer H m))
  end.

Fixpoint runManager (m : Manager) (ops : list IndexOp) : option Manager :=
  match ops with
  | [] => Some m
  | op :: ops => m ← managerStep m op; runManager m ops
  end.

Definition indexStep (a : IndexState) (op : IndexOp) : IndexState :=
  match op with
  | IxEdge c k p => mkIndexState (<[c := (k, p)]> (is_edges a)) (is_domains a) (is_validators a)
  | IxRemove c => mkIndexState (delete c (is_edges a)) (is_domains a) (is_validators a)
  | IxDomain n o w e => mkIndexState (is_edges a) (<[n := mkDomainLeaf n o w e]> (is_domains a)) (is_validators a)
  | IxDropDomain n => mkIndexState (is_edges a) (delete n (is_domains a)) (is_validators a)
  | IxValidators vs => mkIndexState (is_edges a) (is_domains a) vs
  | _ => a
  end.

Definition opOk (op : IndexOp) : Prop :=
  match op with
  | IxEdge c _ p => idOk c /\ idOk p
  | IxRemove c => idOk c
  | IxDomain n _ _ _ | IxDropDomain n => K n
  | IxValidators vs => Forall (fun v => K (vl_Pubkey v)) vs
  | _ => True
  end.

Lemma anchor_ok m a : managerOk m a -> managerOk (snd (anchor H m)) a /\ a_Roots (fst (anchor H m)) = fst (roots H m).
Proof using.
  intros Hm. destruct (roots_ok m a Hm) as (Hr & _). unfold anchor. destruct (roots H m) as [rs m']. simpl in *. by case_bool_decide.
Qed.

Lemma walkEdges_ok hops : forall t m c, Stores t m -> Stores (snd (walkEdges H hops t c)) m.
Proof using.
  induction hops as [|hops IH]; intros t m c Ht; [done|]. cbn [walkEdges]. destruct (Stores_Prove t m c Ht) as [Hp _].
  destruct (Prove H t c) as [p t']. simpl in Hp. destruct (_ ≫= _) as [leaf|]; [|done]. destruct (_ =? _); [done|].
  specialize (IH t' m (pl_Parent leaf) Hp). by destruct (walkEdges H hops t' (pl_Parent leaf)).
Qed.

Lemma managerStep_ok m a op : managerOk m a -> opOk op -> exists m', managerStep m op = Some m' /\ managerOk m' (indexStep a op).
Proof using Digest0 Kinj.
  intros Hm Hop. pose proof (anchor_ok m a Hm) as [Ha _].
  destruct op as [c k p|c|n o w e|n|vs|r|n|p|c|]; cbn [managerStep indexStep opOk] in *.
  - unfold managerApplyEdge. destruct Hop as [Hc Hp]. destruct (SetEdge_ok _ _ c k p (mo_hier _ _ Hm) Hc Hp) as (h & -> & Hh).
    eexists. split; [done|]. by split; try apply Hm.
  - unfold managerRemoveObject. destruct (RemoveEdge_ok _ _ c (mo_hier _ _ Hm) Hop) as (h & -> & Hh). eexists. split; [done|].
    by split; try apply Hm.
  - unfold managerApplyDomain, domainSet. cbn [dl_Name].
    destruct (Stores_Insert _ _ n (encodeDomainLeaf (mkDomainLeaf n o w e)) (mo_domain _ _ Hm) Hop) as (t & -> & Ht).
    eexists. split; [done|]. split; try apply Hm; simpl; [by rewrite fmap_insert|]. apply map_Forall_insert_2; [done|apply Hm].
  - eexists. split; [done|]. split; try apply Hm; simpl; [|apply map_Forall_delete, Hm].
    rewrite fmap_delete. apply Stores_Delete; [apply Hm|done].
  - unfold managerRebuildValidators. destruct (Rebuild_ok vs Hop) as (t & -> & Ht & Hv). eexists. split; [done|]. by split; try apply Hm.
  - eexists. split; [done|]. unfold managerSetFrontier. set (late := match last _ with Some _ => _ | None => _ end). destruct late; [done|].
    destruct (roots_ok m a Hm) as (Hr & _). destruct (roots H m) as [rs m']. destruct (evictOldRounds _ _). by split; apply Hr.
  - eexists. split; [done|]. unfold ResolveDomain. destruct (anchor H m) as [an m'].
    destruct (Stores_Prove _ _ n (mo_domain _ _ Ha)) as [Hp _]. simpl in *. destruct (Prove H _ n). by split; try apply Ha.
  - eexists. split; [done|]. unfold ListChildren. destruct (anchor H m) as [an m']. simpl in Ha.
    destruct (Stores_Prove _ _ p (ho_top _ _ (mo_hier _ _ Ha))) as [Hp _]. destruct (Prove H _ p). split; try apply Ha. by split; try apply Ha.
  - eexists. split; [done|]. unfold Ancestors. destruct (anchor H m) as [an m']. simpl in Ha.
    pose proof (walkEdges_ok ancestorWalkLimit _ _ c (ho_parent _ _ (mo_hier _ _ Ha))) as Hp.
    destruct (walkEdges H _ _ c). split; try apply Ha. by split; try apply Ha.
  - eexists. split; [done|]. unfold ValidatorSetAnswer. by destruct (anchor H m).
Qed.

Lemma runManager_ok ops : forall m a, managerOk m a -> Forall opOk ops ->
  exists m', runManager m ops = Some m' /\ managerOk m' (foldl indexStep a ops).
Proof using Digest0 Kinj.
  induction ops as [|op ops IH]; intros m a Hm Hops; [by exists m|]. apply Forall_cons in Hops as [Hop Hops]. cbn [runManager foldl].
  destruct (managerStep_ok m a op Hm Hop) as (m1 & -> & Hm1). cbn [mbind option_bind]. by apply IH.
Qed.

(** *** The boot rebuild *)

Lemma setEdges_ok l : forall h edges, hierOk h edges -> Forall (fun e => idOk (ie_ID e) /\ idOk (ie_Parent e)) l ->
  exists h', setEdges H h l = Some h' /\ hierOk h' (foldl (fun m e => <[ie_ID e := (ie_ParentKind e, ie_Parent e)]> m) edges l).
Proof using Digest0 Kinj.
  induction l as [|e l IH]; intros h edges Hh Hl; [by exists h|]. apply Forall_cons in Hl as [[Hc Hp] Hl]. cbn [setEdges foldl].
  destruct (SetEdge_ok h edges (ie_ID e) (ie_ParentKind e) (ie_Parent e) Hh Hc Hp) as (h1 & -> & Hh1). cbn [mbind option_bind]. by apply IH.
Qed.

Lemma setDomains_ok l : forall t m, Stores t m -> Forall (fun e => K (dl_Name e)) l ->
  exists t', setDomains H t l = Some t' /\ Stores t' (foldl (fun m e => <[dl_Name e := encodeDomainLeaf e]> m) m l).
Proof using Digest0 Kinj.
  induction l as [|e l IH]; intros t m Ht Hl; [by exists t|]. apply Forall_cons in Hl as [Hc Hl]. cbn [setDomains foldl].
  unfold domainSet. destruct (Stores_Insert t m _ (encodeDomainLeaf e) Ht Hc) as (t1 & -> & Ht1). cbn [mbind option_bind]. by apply IH.
Qed.

(** A listing of a map, inserted in any order, gives the map back. *)
Lemma fold_listing {A B} `{Countable KK} (key : A -> KK) (val : A -> B) (l : list A) (m : gmap KK B) :
  map (fun e => (key e, val e)) l ≡ₚ map_to_list m -> foldl (fun m e => <[key e := val e]> m) ∅ l = m.
Proof using.
  intros Hp. assert (E : foldl (fun m e => <[key e := val e]> m) (∅ : gmap KK B) l =
    foldl (fun m kv => <[fst kv := snd kv]> m) ∅ (map (fun e => (key e, val e)) l)).
  { generalize (∅ : gmap KK B). clear Hp. induction l as [|e l IH]; intros m0; [done|]. simpl. apply IH. }
  rewrite E. apply map_eq. intros k.
  assert (Hnd : NoDup (map (fun e => (key e, val e)) l).*1).
  { rewrite Hp. apply NoDup_fst_map_to_list. }
  rewrite fold_insert_lookup by done. rewrite (list_to_map_proper _ (map_to_list m)) by done. rewrite list_to_map_to_list.
  rewrite lookup_empty. by destruct (m !! k).
Qed.

(** What a restarted node hands over: its tracker, registry and snapshot, in any order. *)
Record bootListing (a : IndexState) (trackers : list TrackerEntry) (domains : list DomainLeaf) (validators : list ValidatorLeaf) : Prop := {
  bl_trackers : trackers ≡ₚ map (fun kv => mkIndexEntry (fst kv) (fst (snd kv)) (snd (snd kv))) (map_to_list (is_edges a));
  bl_domains : domains ≡ₚ map snd (map_to_list (is_domains a));
  bl_validators : leafMap validators = leafMap (is_validators a) /\ Forall (fun v => K (vl_Pubkey v)) validators;
}.

Lemma Build_ok m0 m a trackers domains validators :
  managerOk m a -> bootListing a trackers domains validators ->
  exists m', BuildFromState H m0 trackers domains validators = Some m' /\
    managerOk m' (mkIndexState (is_edges a) (is_domains a) validators).
Proof using Digest0 Kinj.
  intros Hm [Ht Hd [Hv Hvk]]. unfold BuildFromState.
  destruct (setEdges_ok trackers NewHierarchyTrees ∅ (mo_hier _ _ NewManager_ok)) as (h & -> & Hh).
  { apply Forall_forall. intros e He. rewrite Ht in He. apply list_elem_of_fmap in He as ([c [k p]] & -> & Hin).
    apply elem_of_map_to_list in Hin. exact (ho_edges _ _ (mo_hier _ _ Hm) c (k, p) Hin). }
  replace (foldl _ ∅ trackers) with (is_edges a) in Hh.
  2:{ symmetry. apply (fold_listing ie_ID (fun e => (ie_ParentKind e, ie_Parent e))). rewrite Ht, map_map. apply Permutation_refl'. transitivity (map (fun x => x) (map_to_list (is_edges a))); [|apply map_id].
      apply map_ext. by intros [c [k p]]. }
  cbn [mbind option_bind]. destruct (setDomains_ok domains New ∅ Stores_New) as (dt & -> & Hdt).
  { apply Forall_forall. intros e He. rewrite Hd in He. apply list_elem_of_fmap in He as ([n l] & -> & Hin).
    apply elem_of_map_to_list in Hin. simpl. rewrite (mo_names _ _ Hm n l Hin).
    apply (ts_keys _ _ (mo_domain _ _ Hm) n (encodeDomainLeaf l)). by rewrite lookup_fmap, Hin. }
  replace (foldl _ ∅ domains) with (encodeDomainLeaf <$> is_domains a) in Hdt.
  2:{ symmetry. apply (fold_listing dl_Name encodeDomainLeaf). rewrite Hd, map_map, map_to_list_fmap. apply Permutation_refl', list_fmap_ext. intros i [n l] Hi.
      apply list_elem_of_lookup_2, elem_of_map_to_list in Hi. simpl. by rewrite (mo_names _ _ Hm n l Hi). }
  cbn [mbind option_bind]. destruct (Rebuild_ok validators Hvk) as (v & -> & Hvt & Hvs). cbn [mbind option_bind].
  eexists. split; [done|]. split; try done. apply Hm.
Qed.

(** Fed edge by edge, name by name and query by query, the index has the roots of
    a rebuild from the state it stands for. *)

(** The index rebuilt from the committed state at boot has the roots of the index fed
    operation by operation. *)
Theorem index_rebuild_agrees ops m0 trackers domains validators :
  Forall opOk ops -> bootListing (foldl indexStep emptyIndex ops) trackers domains validators ->
  exists m m', runManager NewManager ops = Some m /\ BuildFromState H m0 trackers domains validators = Some m' /\
    fst (roots H m') = fst (roots H m).
Proof using Digest0 Kinj.
  intros Hops Hb. destruct (runManager_ok ops NewManager emptyIndex NewManager_ok Hops) as (m & E & Hm).
  destruct (Build_ok m0 m _ _ _ _ Hm Hb) as (m' & E' & Hm'). exists m, m'. split; [done|]. split; [done|].
  destruct (roots_ok m _ Hm) as (_ & -> & _), (roots_ok m' _ Hm') as (_ & -> & _). cbv zeta.
  destruct Hm as [[_ Hp Hc Ht] Hd Hv _ _], Hm' as [[_ Hp' Hc' Ht'] Hd' Hv' _ _]. cbn [is_edges is_domains is_validators] in *.
  rewrite (proj1 (bl_validators _ _ _ _ Hb)) in Hv'.
  assert (ct_children (ht_Children (m_hierarchy m)) = ct_children (ht_Children (m_hierarchy m'))) as Ec.
  { apply map_eq. intros q. by rewrite (Hc q), (Hc' q). }
  rewrite <- Ec in Ht'. by rewrite (Stores_root_eq _ _ _ Hp Hp'), (Stores_root_eq _ _ _ Ht Ht'), (Stores_root_eq _ _ _ Hd Hd'),
    (Stores_root_eq _ _ _ Hv Hv').
Qed.

(** *** Answers verify *)

Definition childMarkers (s : gset Hash) : gmap bytes bytes := gset_to_gmap [presentMarker] s.

(** What the client checks of each answer. *)
Lemma served_domain m a name : managerOk m a -> K name ->
  let ans := fst (ResolveDomain H m name) in
  da_Value ans = encodeDomainLeaf <$> is_domains a !! name /\
  Verify H (r_Domain (a_Roots (da_Anchor ans))) name (da_Value ans) (da_Proof ans) = true.
Proof using Digest0 Kinj.
  intros Hm Hn. cbv zeta. destruct (anchor_ok m a Hm) as [Ha HR]. destruct (roots_ok m a Hm) as (_ & Hr & _). unfold ResolveDomain.
  destruct (anchor H m) as [an m']. cbn [fst snd] in *. rewrite Hr in HR.
  pose proof (Prove_Verify H (m_domain m') name (ts_ok _ _ (mo_domain _ _ Ha))) as Hv.
  destruct (Prove H (m_domain m') name) as [p t]. cbn [fst da_Value da_Anchor da_Proof] in *. rewrite HR. cbv zeta. cbn [r_Domain].
  rewrite (Stores_Get _ _ name (mo_domain _ _ Hm) Hn), lookup_fmap. split; [done|].
  rewrite (Stores_Get _ _ name (mo_domain _ _ Ha) Hn), lookup_fmap in Hv.
  by rewrite (Stores_root_eq _ _ _ (mo_domain _ _ Hm) (mo_domain _ _ Ha)).
Qed.

Lemma served_children m a parent : managerOk m a -> K parent ->
  let ans := fst (ListChildren H m parent) in
  let proved := if ca_Found ans then Some (ca_SubtreeRoot ans) else None in
  Verify H (r_Children (a_Roots (ca_Anchor ans))) parent proved (ca_Proof ans) = true /\
  list_to_set (ca_Children ans) = childSet (is_edges a) parent /\
  (if ca_Found ans then ChildrenSubtreeRoot H (ca_Children ans) = Some (Some (ca_SubtreeRoot ans)) else ca_Children ans = []).
Proof using Digest0 Kinj.
  intros Hm Hp. cbv zeta. destruct (anchor_ok m a Hm) as [Ha HR]. destruct (roots_ok m a Hm) as (_ & Hr & _). unfold ListChildren.
  assert (Hleaf : forall m, managerOk m a -> TopLeaf H (ht_Children (m_hierarchy m)) parent = Get H (ct_top (ht_Children (m_hierarchy m))) parent /\
    Get H (ct_top (ht_Children (m_hierarchy m))) parent =
      if decide (childSet (is_edges a) parent = ∅) then None else subtreeRoot H (childSet (is_edges a) parent)).
  { intros m1 Hm1. unfold TopLeaf. pose proof (mo_hier _ _ Hm1) as Hh. rewrite (Stores_Get _ _ parent (ho_top _ _ Hh) Hp).
    unfold topMap. rewrite lookup_fmap, (ho_children _ _ Hh parent). case_decide; [done|]. cbn [fmap option_fmap option_map mbind option_bind].
    destruct (subtreeRoot_total (childSet (is_edges a) parent)) as (r & -> & Hl); [apply edges_set, Hh|]. simpl. by rewrite Hl. }
  destruct (Hleaf m Hm) as [-> ->]. destruct (Hleaf _ Ha) as [_ Hg']. destruct (anchor H m) as [an m']. cbn [fst snd] in *. rewrite Hr in HR.
  pose proof (Prove_Verify H (ct_top (ht_Children (m_hierarchy m'))) parent (ts_ok _ _ (ho_top _ _ (mo_hier _ _ Ha)))) as Hv.
  destruct (Prove H _ parent) as [p t]. cbn [fst ca_Found ca_SubtreeRoot ca_Anchor ca_Proof ca_Children] in *. rewrite HR. cbv zeta. cbn [r_Children].
  assert (Hrt : fst (Root H (ct_top (ht_Children (m_hierarchy m)))) = fst (Root H (ct_top (ht_Children (m_hierarchy m'))))).
  { pose proof (ho_top _ _ (mo_hier _ _ Hm)) as T1. pose proof (ho_top _ _ (mo_hier _ _ Ha)) as T2.
    eapply Stores_root_eq; [exact T1|]. replace (ct_children (ht_Children (m_hierarchy m))) with (ct_children (ht_Children (m_hierarchy m'))); [done|].
    apply map_eq. intros q. by rewrite (ho_children _ _ (mo_hier _ _ Hm) q), (ho_children _ _ (mo_hier _ _ Ha) q). }
  rewrite Hrt. rewrite Hg' in Hv. unfold Children. rewrite (ho_children _ _ (mo_hier _ _ Ha) parent).
  case_decide as E; cbn [default]; simpl from_option.
  - rewrite bool_decide_eq_false_2 by (by intros [? ?]). rewrite elements_empty. rewrite E. done.
  - destruct (subtreeRoot_total (childSet (is_edges a) parent)) as (r & Er & Hl); [apply edges_set, (mo_hier _ _ Hm)|]. rewrite Er in *.
    rewrite bool_decide_eq_true_2 by eauto. simpl. split_and!; [done|apply list_to_set_elements_L|].
    unfold ChildrenSubtreeRoot. rewrite decide_True by apply NoDup_elements. by rewrite list_to_set_elements_L, Er.
Qed.

(** An ancestry: every hop proved, each leading to the next, the last one
    terminal, absent, or cut at the limit. *)
Fixpoint ancestry (root : Hash) (edges : Edges) (hops : nat) (current : Hash) (es : list AncestorEdge) : Prop :=
  match hops, es with
  | O, [] => True
  | S hops, e :: es =>
      ae_ChildID e = current /\ Verify H root current (ae_Value e) (ae_Proof e) = true /\
      ae_Value e = (fun kp => encodeParentLeaf (mkParentLeaf current (fst kp) (snd kp))) <$> edges !! current /\
      match edges !! current with
      | Some (kind, parent) => if kind =? KeyRootKind then es = [] else ancestry root edges hops parent es
      | None => es = []
      end
  | _, _ => False
  end.

Lemma walk_ancestry hops : forall t edges c, edgesOk edges -> Stores t (parentMap edges) -> K c ->
  ancestry (fst (Root H t)) edges hops c (fst (walkEdges H hops t c)).
Proof using Digest0 Kinj.
  induction hops as [|hops IH]; intros t edges c He Ht Hc; [done|]. cbn [walkEdges].
  pose proof (Prove_Verify H t c (ts_ok _ _ Ht)) as Hv. destruct (Stores_Prove t _ c Ht) as [Hs HR]. rewrite (Stores_Get t _ c Ht Hc), parentMap_lookup in *.
  destruct (Prove H t c) as [p t']. cbn [fst snd] in *. destruct (edges !! c) as [[k q]|] eqn:E; cbn [fmap option_fmap option_map mbind option_bind] in *.
  - destruct (He c _ E) as [[_ Hlc] [Hkq Hlq]]. cbn [fst snd] in *. rewrite parentLeaf_roundtrip by done. cbn [pl_ParentKind pl_Parent].
    destruct (k =? KeyRootKind) eqn:Ek.
    + cbn [fst ancestry ae_ChildID ae_Value ae_Proof]. rewrite E, Ek. done.
    + specialize (IH t' edges q He Hs Hkq). rewrite HR in IH. destruct (walkEdges H hops t' q) as [es t''].
      cbn [fst ancestry ae_ChildID ae_Value ae_Proof] in *. rewrite E, Ek. done.
  - cbn [fst ancestry ae_ChildID ae_Value ae_Proof]. rewrite E. done.
Qed.

Lemma served_ancestors m a c : managerOk m a -> K c ->
  ancestry (r_Parent (a_Roots (aa_Anchor (fst (Ancestors H m c))))) (is_edges a) ancestorWalkLimit c (aa_Edges (fst (Ancestors H m c))).
Proof using Digest0 Kinj.
  intros Hm Hc. destruct (anchor_ok m a Hm) as [Ha HR]. destruct (roots_ok m a Hm) as (_ & Hr & _). unfold Ancestors.
  destruct (anchor H m) as [an m']. cbn [fst snd] in *. rewrite Hr in HR.
  pose proof (walk_ancestry ancestorWalkLimit _ _ c (ho_edges _ _ (mo_hier _ _ Ha)) (ho_parent _ _ (mo_hier _ _ Ha)) Hc) as Hw.
  rewrite (Stores_root_eq _ _ _ (ho_parent _ _ (mo_hier _ _ Ha)) (ho_parent _ _ (mo_hier _ _ Hm))) in Hw.
  destruct (walkEdges H ancestorWalkLimit _ c) as [es t]. cbn [fst aa_Anchor aa_Edges] in *. by rewrite HR.
Qed.

Definition leafOk (v : ValidatorLeaf) : Prop :=
  length (vl_Pubkey v) = 32%nat /\ is_u64 (vl_CappedStake v) /\ length (vl_BLSKey v) = 48%nat.

Lemma validatorLeaf_roundtrip v : leafOk v -> DecodeValidatorLeaf (encodeValidatorLeaf v) = Some v.
Proof using.
  intros (Hp & [Hs1 Hs2] & Hb). unfold DecodeValidatorLeaf, encodeValidatorLeaf.
  rewrite !length_app, Hp, Hb, length_be_enc. cbn [length Nat.add Nat.eqb negb].
  rewrite take_app_length' by done. rewrite drop_app_length' by done. rewrite take_app_length' by (by rewrite length_be_enc).
  rewrite be_dec_enc by (simpl; lia). rewrite (drop_app_ge (vl_Pubkey v)) by lia. rewrite Hp.
  rewrite (drop_app_length' (be_enc 8 _)) by (by rewrite length_be_enc). rewrite take_app_length' by done.
  rewrite !app_nth2 by (rewrite ?length_be_enc; lia). rewrite Hp, length_be_enc, Hb. cbn [Nat.sub nth]. by destruct v.
Qed.

(** The served set reproduces the validator root. *)
Lemma served_validators m a : managerOk m a -> Forall (fun v => K (vl_Pubkey v) /\ leafOk v) (is_validators a) ->
  let ans := fst (ValidatorSetAnswer H m) in
  mapM DecodeValidatorLeaf (va_Values ans) = Some (is_validators a) /\
  ValidatorRootOf H (is_validators a) = Some (r_Validator (a_Roots (va_Anchor ans))).
Proof using Digest0 Kinj.
  intros Hm Hv. cbv zeta. destruct (anchor_ok m a Hm) as [Ha HR]. destruct (roots_ok m a Hm) as (_ & Hr & _). unfold ValidatorSetAnswer.
  destruct (anchor H m) as [an m']. cbn [fst snd va_Values va_Anchor] in *. rewrite Hr in HR. unfold Values. rewrite (mo_values _ _ Ha), HR. cbv zeta. cbn [r_Validator].
  split.
  - apply mapM_Some. clear -Hv. induction (is_validators a) as [|v vs IH]; [constructor|]. apply Forall_cons in Hv as [[_ Hv] Hvs].
    constructor; [by apply validatorLeaf_roundtrip|by apply IH].
  - unfold ValidatorRootOf. destruct (Rebuild_ok (is_validators a)) as (t & -> & Ht & _); [by eapply Forall_impl; [done|intros ? []]|].
    cbn [mbind option_bind]. f_equal. apply (Stores_root_eq _ _ _ Ht (mo_validator _ _ Hm)).
Qed.

(** Domain, children and ancestor answers carry the stored facts and proofs that
    verify against the roots they are served with; an ancestry is the chain of parent
    edges. *)
Theorem served_answers_verify ops name parent object :
  Forall opOk ops -> K name -> K parent -> K object ->
  let a := foldl indexStep emptyIndex ops in
  exists m, runManager NewManager ops = Some m /\
    (let ans := fst (ResolveDomain H m name) in
     da_Value ans = encodeDomainLeaf <$> is_domains a !! name /\
     Verify H (r_Domain (a_Roots (da_Anchor ans))) name (da_Value ans) (da_Proof ans) = true) /\
    (let ans := fst (ListChildren H m parent) in
     Verify H (r_Children (a_Roots (ca_Anchor ans))) parent (if ca_Found ans then Some (ca_SubtreeRoot ans) else None) (ca_Proof ans) = true /\
     list_to_set (ca_Children ans) = childSet (is_edges a) parent /\
     (if ca_Found ans then ChildrenSubtreeRoot H (ca_Children ans) = Some (Some (ca_SubtreeRoot ans)) else ca_Children ans = [])) /\
    ancestry (r_Parent (a_Roots (aa_Anchor (fst (Ancestors H m object))))) (is_edges a) ancestorWalkLimit object
      (aa_Edges (fst (Ancestors H m object))).
Proof using Digest0 Kinj.
  intros Hops Hn Hp Ho. cbv zeta. destruct (runManager_ok ops NewManager emptyIndex NewManager_ok Hops) as (m & E & Hm).
  exists m. split; [done|]. split; [by apply served_domain|]. split; [by apply served_children|]. by apply served_ancestors.
Qed.

End Facts.
