(* ===== verification/Retention.v ===== *)
(** * Root history and enumeration

    The bounded history of combined roots (index/manager.go), and why a child
    stream that reproduces a proven subtree root is the whole child set
    (index/query.go). *)

From S2P Require Import Prelude Types Persist Smt Merkle Index IndexFacts.

(** ** The retained history *)

Section History.
Context (H : bytes -> Hash).

Record historyOk (m : Manager) : Prop := {
  hk_sorted : StronglySorted Z.lt (m_order m);
  hk_index : forall r, is_Some (m_history m !! r) <-> r ∈ m_order m;
  hk_agree : forall r x y, m_epochCheckpoints m !! r = Some x -> m_history m !! r = Some y -> x = y;
  hk_past : forall r, is_Some (m_epochCheckpoints m !! r) -> exists l, last (m_order m) = Some l /\ r <= l;
  hk_size : (length (m_order m) <= historyWindow)%nat;
  hk_frontier : m_order m ≠ [] -> last (m_order m) = Some (m_frontierRound m) /\ m_history m !! m_frontierRound m = Some (m_frontierRoot m);
  hk_unset : m_order m = [] -> m_frontierRound m = 0 /\ m_frontierRoot m = zeroHash;
}.

(** The fields an operation on the trees leaves alone. *)
Definition sameHistory (m m' : Manager) : Prop :=
  m_history m' = m_history m /\ m_order m' = m_order m /\ m_epochCheckpoints m' = m_epochCheckpoints m /\
  m_frontierRound m' = m_frontierRound m /\ m_frontierRoot m' = m_frontierRoot m.

Lemma sameHistory_ok m m' : sameHistory m m' -> historyOk m -> historyOk m'.
Proof using. intros (E1 & E2 & E3 & E4 & E5) [A1 A2 A3 A4 A5 A6 A7]. split; rewrite ?E1, ?E2, ?E3, ?E4, ?E5; auto. Qed.

Lemma roots_same m : sameHistory m (snd (roots H m)).
Proof using.
  unfold roots. destruct (Root H (m_domain m)), (Root H (ht_Parent _)), (Root H (ct_top _)), (Root H (vt_smt _)). done.
Qed.

Lemma anchor_same m : sameHistory m (snd (anchor H m)).
Proof using. pose proof (roots_same m). unfold anchor. by destruct (roots H m). Qed.

Lemma step_same m op m' : managerStep H m op = Some m' -> (forall r, op ≠ IxFrontier r) -> sameHistory m m'.
Proof using.
  intros E Hne. destruct op as [c k p|c|n o w e|n|vs|r|n|p|c|]; cbn [managerStep] in E.
  - unfold managerApplyEdge in E. destruct (SetEdge _ _ _ _ _); [|done]. by injection E as <-.
  - unfold managerRemoveObject in E. destruct (RemoveEdge _ _ _); [|done]. by injection E as <-.
  - unfold managerApplyDomain in E. destruct (domainSet _ _ _); [|done]. by injection E as <-.
  - by injection E as <-.
  - unfold managerRebuildValidators in E. destruct (Rebuild _ _); [|done]. by injection E as <-.
  - by destruct (Hne r).
  - injection E as <-. pose proof (anchor_same m) as Ha. unfold ResolveDomain. destruct (anchor H m) as [an m1]. by destruct (Prove _ _ _).
  - injection E as <-. pose proof (anchor_same m) as Ha. unfold ListChildren. destruct (anchor H m) as [an m1]. by destruct (Prove _ _ _).
  - injection E as <-. pose proof (anchor_same m) as Ha. unfold Ancestors. destruct (anchor H m) as [an m1]. by destruct (walkEdges _ _ _ _).
  - injection E as <-. pose proof (anchor_same m) as Ha. unfold ValidatorSetAnswer. by destruct (anchor H m).
Qed.

(** At most one round leaves per recorded round. *)
Lemma evict_spec order history : (length order <= S historyWindow)%nat ->
  evictOldRounds order history =
  if Nat.eqb (length order) (S historyWindow) then (tail order, delete (default 0 (head order)) history) else (order, history).
Proof using.
  intros Hl. unfold evictOldRounds. destruct (Nat.eqb_spec (length order) (S historyWindow)) as [E|E].
  - rewrite E. destruct order as [|o order]; [done|]. cbn [evictLoop]. rewrite E.
    assert (Nat.ltb historyWindow (S historyWindow) = true) as -> by (apply Nat.ltb_lt; lia). cbn [tail head default]. injection E as E.
    assert (Hr : forall fuel h, evictLoop fuel order h = (order, h)).
    { intros fuel h. destruct fuel; [done|]. cbn [evictLoop]. rewrite E. by rewrite Nat.ltb_irrefl. }
    apply Hr.
  - destruct (length order) as [|n] eqn:En; [done|]. cbn [evictLoop]. rewrite En.
    destruct (Nat.ltb_spec historyWindow (S n)); [lia|done].
Qed.

(** One recorded round. *)
Definition recorded (m : Manager) (round : Z) (root : Hash) (m' : Manager) : Prop :=
  m_order m' = (if Nat.eqb (length (m_order m)) historyWindow then tail (m_order m ++ [round]) else m_order m ++ [round]) /\
  m_history m' = (if Nat.eqb (length (m_order m)) historyWindow
                  then delete (default 0 (head (m_order m ++ [round]))) (<[round := root]> (m_history m)) else <[round := root]> (m_history m)) /\
  m_epochCheckpoints m' = (if m_pendingCheckpoint m then <[round := root]> (m_epochCheckpoints m) else m_epochCheckpoints m) /\
  m_frontierRound m' = round /\ m_frontierRoot m' = root.

Lemma frontier_recorded m round : (length (m_order m) <= historyWindow)%nat ->
  match last (m_order m) with Some r => round <=? r | None => false end = false ->
  recorded m round (r_Combined (fst (roots H m))) (managerSetFrontier H m round).
Proof using.
  intros Hl E. unfold managerSetFrontier. rewrite E. destruct (roots_same m) as (E1 & E2 & E3 & _).
  assert (E6 : m_pendingCheckpoint (snd (roots H m)) = m_pendingCheckpoint m).
  { unfold roots. destruct (Root H (m_domain m)), (Root H (ht_Parent _)), (Root H (ct_top _)), (Root H (vt_smt _)). done. }
  destruct (roots H m) as [rs m1]. cbn [fst snd] in *.
  rewrite E2, evict_spec by (rewrite length_app; simpl; lia). rewrite length_app. cbn [length].
  assert (Nat.eqb (length (m_order m) + 1) (S historyWindow) = Nat.eqb (length (m_order m)) historyWindow) as ->.
  { destruct (Nat.eqb_spec (length (m_order m) + 1) (S historyWindow)), (Nat.eqb_spec (length (m_order m)) historyWindow); try done; lia. }
  unfold recorded. destruct (Nat.eqb _ _); cbn; by rewrite ?E1, ?E3, ?E6.
Qed.

Lemma sorted_snoc l (round : Z) : StronglySorted Z.lt l -> (forall q, last l = Some q -> q < round) -> StronglySorted Z.lt (l ++ [round]).
Proof using.
  intros Hs Hl. induction l as [|x l IH]; [repeat constructor|]. apply StronglySorted_inv in Hs as [Hs Hx]. cbn [app].
  assert (Htl : forall q, last l = Some q -> q < round) by (intros q Hq; apply Hl; rewrite last_cons; by rewrite Hq).
  constructor; [by apply IH|]. apply Forall_app. split; [done|]. repeat constructor.
  destruct (last l) as [q|] eqn:E.
  - specialize (Htl q eq_refl). rewrite Forall_forall in Hx. apply last_Some_elem_of in E. specialize (Hx q E). lia.
  - apply Hl. rewrite last_cons. by rewrite E.
Qed.

Lemma last_below m round : StronglySorted Z.lt (m_order m) -> match last (m_order m) with Some r => round <=? r | None => false end = false ->
  Forall (fun q => q < round) (m_order m).
Proof using.
  intros Hs E. assert (Hs' := sorted_snoc (m_order m) round Hs). clear Hs. apply Forall_forall. intros q Hq.
  assert (Hl : forall q, last (m_order m) = Some q -> q < round) by (intros x Hx; rewrite Hx in E; apply Z.leb_gt in E; lia).
  specialize (Hs' Hl). clear -Hs' Hq. induction (m_order m) as [|x l IH]; [by apply not_elem_of_nil in Hq|].
  apply StronglySorted_inv in Hs' as [Hs Hx]. apply elem_of_cons in Hq as [->|Hq]; [|by apply IH].
  rewrite Forall_forall in Hx. apply Hx. apply elem_of_app. right. by left.
Qed.

(** The order after one more round, with the evicted one if any. *)
Lemma recorded_order m round root m' : historyOk m -> Forall (fun q => q < round) (m_order m) -> recorded m round root m' ->
  StronglySorted Z.lt (m_order m') /\ last (m_order m') = Some round /\ (length (m_order m') <= historyWindow)%nat /\
  (forall q, q ∈ m_order m' -> q ∈ m_order m \/ q = round) /\
  (forall q, q ∈ m_order m -> q ∉ m_order m' -> length (m_order m') = historyWindow /\ Forall (fun x => q < x) (m_order m')) /\
  (forall q, m_history m' !! q = if decide (q ∈ m_order m') then (if decide (q = round) then Some root else m_history m !! q) else None).
Proof using.
  intros Hk Hlt (Eo & Eh & _). pose proof (hk_sorted m Hk) as Hs. pose proof (hk_size m Hk) as Hsz.
  assert (Hs' : StronglySorted Z.lt (m_order m ++ [round])).
  { apply sorted_snoc; [done|]. intros q Hq. rewrite Forall_forall in Hlt. apply Hlt, last_Some_elem_of, Hq. }
  assert (Hnew : round ∉ m_order m) by (intros Hin; rewrite Forall_forall in Hlt; specialize (Hlt _ Hin); simpl in Hlt; lia).
  assert (Hhist : forall q, m_history m !! q = None <-> q ∉ m_order m).
  { intros q. by rewrite eq_None_not_Some, (hk_index m Hk). }
  destruct (Nat.eqb_spec (length (m_order m)) historyWindow) as [Ew|Ew].
  - destruct (m_order m) as [|o l] eqn:Em; [done|]. cbn [tail head app default] in Eo, Eh. simpl from_option in Eh. rewrite Eo.
    apply StronglySorted_inv in Hs' as [Hsl Ho].
    assert (Hno : o ∉ l ++ [round]) by (intros Hin; rewrite Forall_forall in Ho; specialize (Ho _ Hin); lia).
    split_and!; [done|apply last_snoc|rewrite length_app; cbn [length] in *; lia| | |].
    + intros q [Hq|Hq%list_elem_of_singleton]%elem_of_app; [left; by right|by right].
    + intros q [->|Hq]%elem_of_cons Hn; [|exfalso; apply Hn, elem_of_app; by left].
      split; [rewrite length_app; cbn [length] in *; lia|done].
    + intros q. rewrite Eh. destruct (decide (q = o)) as [->|Hqo].
      * rewrite lookup_delete_eq. by rewrite decide_False.
      * rewrite lookup_delete_ne by done. destruct (decide (q = round)) as [->|Hqr].
        -- rewrite lookup_insert_eq, decide_True; [done|]. apply elem_of_app. right. by left.
        -- rewrite lookup_insert_ne by done. destruct (decide (q ∈ l ++ [round])) as [_|Hn]; [done|]. apply Hhist.
           intros [->|Hq]%elem_of_cons; [done|]. apply Hn, elem_of_app. by left.
  - rewrite Eo. split_and!; [done|apply last_snoc|rewrite length_app; cbn [length]; lia| | |].
    + intros q [Hq|Hq%list_elem_of_singleton]%elem_of_app; auto.
    + intros q Hq Hn. exfalso. apply Hn, elem_of_app. by left.
    + intros q. rewrite Eh. destruct (decide (q = round)) as [->|Hqr].
      * rewrite lookup_insert_eq, decide_True; [done|]. apply elem_of_app. right. by left.
      * rewrite lookup_insert_ne by done. destruct (decide (q ∈ m_order m ++ [round])) as [_|Hn]; [done|]. apply Hhist.
        intros Hq. apply Hn, elem_of_app. by left.
Qed.

Lemma recorded_ok m round root m' : historyOk m -> Forall (fun q => q < round) (m_order m) -> recorded m round root m' -> historyOk m'.
Proof using.
  intros Hk Hlt Hr. destruct (recorded_order m round root m' Hk Hlt Hr) as (Hs & Hl & Hsz & Hin & _ & Hh). destruct Hr as (_ & _ & Ec & E4 & E5).
  assert (Hrin : round ∈ m_order m') by (by apply last_Some_elem_of).
  assert (Hpast : forall r, is_Some (m_epochCheckpoints m !! r) -> r < round).
  { intros r Hr. destruct (hk_past m Hk r Hr) as (l & Hll & Hle). rewrite Forall_forall in Hlt. specialize (Hlt l (last_Some_elem_of _ _ Hll)). simpl in Hlt. lia. }
  split; [done| | | |done| |intros En; by rewrite En in Hl].
  - intros r. rewrite Hh. destruct (decide (r ∈ m_order m')) as [Hr|Hr]; [|split; [by intros []|done]]. split; [done|]. intros _.
    destruct (decide (r = round)); [eauto|]. apply (hk_index m Hk). by destruct (Hin r Hr).
  - intros r x y. rewrite Ec, Hh. destruct (decide (r ∈ m_order m')); [|done]. destruct (decide (r = round)) as [->|Hne].
    + intros Hx [= <-]. destruct (m_pendingCheckpoint m); [rewrite lookup_insert_eq in Hx; congruence|].
      specialize (Hpast round ltac:(eauto)). lia.
    + destruct (m_pendingCheckpoint m); [rewrite lookup_insert_ne by done|]; apply (hk_agree m Hk).
  - intros r Hr. exists round. split; [done|]. rewrite Ec in Hr. destruct (m_pendingCheckpoint m).
    + destruct (decide (r = round)); [lia|]. rewrite lookup_insert_ne in Hr by done. specialize (Hpast r Hr). lia.
    + specialize (Hpast r Hr). lia.
  - intros _. rewrite E4, E5. split; [done|]. rewrite Hh. by rewrite !decide_True.
Qed.

(** A recorded root, or its eviction. *)
Definition keptOrEvicted (r : Z) (x : Hash) (checkpointed : bool) (m : Manager) : Prop :=
  RootAt m r = Some x /\ (checkpointed = true -> m_epochCheckpoints m !! r = Some x) \/
  (checkpointed = false /\ RootAt m r = None /\ length (m_order m) = historyWindow /\ Forall (fun q => r < q) (m_order m)).

Lemma kept_recorded r x b m round root m' :
  historyOk m -> Forall (fun q => q < round) (m_order m) -> recorded m round root m' -> keptOrEvicted r x b m -> keptOrEvicted r x b m'.
Proof using.
  intros Hk Hlt Hr Hkept. destruct (recorded_order m round root m' Hk Hlt Hr) as (_ & Hl & _ & Hin & Hout & Hh).
  pose proof (recorded_ok m round root m' Hk Hlt Hr) as Hk'. destruct Hr as (Eo & _ & Ec & _).
  assert (Hcp : forall q y, q < round -> m_epochCheckpoints m' !! q = Some y <-> m_epochCheckpoints m !! q = Some y).
  { intros q y Hq. rewrite Ec. destruct (m_pendingCheckpoint m); [|done]. by rewrite lookup_insert_ne by lia. }
  destruct Hkept as [[Hroot Hcheck]|(Hb & Hroot & Hlen & Hall)].
  - assert (Hrr : r < round).
    { unfold RootAt in Hroot. destruct (m_epochCheckpoints m !! r) as [y0|] eqn:E.
      - destruct (hk_past m Hk r ltac:(eauto)) as (l & Hll & Hle). rewrite Forall_forall in Hlt.
        specialize (Hlt l (last_Some_elem_of _ _ Hll)). simpl in Hlt. lia.
      - assert (r ∈ m_order m) as Hin' by (apply (hk_index m Hk); eauto). rewrite Forall_forall in Hlt. apply (Hlt r Hin'). }
    unfold RootAt in Hroot. destruct (m_epochCheckpoints m !! r) as [y|] eqn:E.
    + injection Hroot as <-. left. unfold RootAt. rewrite (proj2 (Hcp r y Hrr) E). done.
    + assert (Hn' : m_epochCheckpoints m' !! r = None).
      { destruct (m_epochCheckpoints m' !! r) as [y|] eqn:E'; [|done]. apply Hcp in E'; [congruence|done]. }
      destruct b; [by specialize (Hcheck eq_refl)|]. assert (Hro : r ∈ m_order m) by (apply (hk_index m Hk); eauto).
      destruct (decide (r ∈ m_order m')) as [Hr'|Hr'].
      * left. split; [|done]. unfold RootAt. rewrite Hn', Hh, decide_True by done. by rewrite decide_False by lia.
      * right. destruct (Hout r Hro Hr') as [? ?]. split_and!; try done. unfold RootAt. rewrite Hn', Hh. by rewrite decide_False.
  - right. assert (Hne : m_order m ≠ []) by (intros Hn; rewrite Hn in Hlen; done).
    assert (Hrr : r < round).
    { destruct (m_order m) as [|o l]; [done|]. apply Forall_cons in Hall as [? _], Hlt as [? _]. lia. }
    assert (Hall' : Forall (fun q => r < q) (m_order m')).
    { apply Forall_forall. intros q Hq. destruct (Hin q Hq) as [Hq'| ->]; [|done]. rewrite Forall_forall in Hall. by apply Hall. }
    split_and!; [done| | |done].
    + unfold RootAt in *. destruct (m_epochCheckpoints m !! r) as [y|] eqn:E; [done|].
      assert (m_epochCheckpoints m' !! r = None) as ->.
      { destruct (m_epochCheckpoints m' !! r) as [y|] eqn:E'; [|done]. apply Hcp in E'; [congruence|done]. }
      rewrite Hh. rewrite decide_False; [done|]. intros Hr. rewrite Forall_forall in Hall'. specialize (Hall' r Hr). simpl in Hall'. lia.
    + rewrite Eo, Hlen, Nat.eqb_refl. destruct (m_order m) as [|o l]; [done|]. cbn [app tail length] in *. rewrite length_app. cbn [length]. lia.
Qed.

Lemma step_history m op m' r x b : managerStep H m op = Some m' -> historyOk m -> keptOrEvicted r x b m ->
  historyOk m' /\ keptOrEvicted r x b m'.
Proof using.
  intros E Hk Hkept. assert (Hc : (exists q, op = IxFrontier q) \/ forall q, op ≠ IxFrontier q) by (destruct op; (by left; eauto) || by right).
  destruct Hc as [[q ->]|Hne].
  - injection E as <-. destruct (match last (m_order m) with Some r => q <=? r | None => false end) eqn:El.
    + unfold managerSetFrontier. by rewrite El.
    + pose proof (frontier_recorded m q (hk_size m Hk) El) as Hr. pose proof (last_below m q (hk_sorted m Hk) El) as Hlt.
      split; [by eapply recorded_ok|by eapply kept_recorded].
  - assert (Hs : sameHistory m m') by (by apply (step_same m op m' E)).
    split; [by apply (sameHistory_ok m)|]. destruct Hs as (E1 & E2 & E3 & _). unfold keptOrEvicted, RootAt in *. by rewrite E1, E2, E3.
Qed.

Lemma NewManager_history : historyOk NewManager.
Proof using.
  split; [constructor| |done| |simpl; lia|done|done]; cbn [NewManager m_history m_order m_epochCheckpoints].
  - intros r. rewrite lookup_empty. split; [by intros []|by intros ?%not_elem_of_nil].
  - intros r. rewrite lookup_empty. by intros [].
Qed.

Lemma run_history ops : forall m m', runManager H m ops = Some m' -> historyOk m ->
  historyOk m' /\ forall r x b, keptOrEvicted r x b m -> keptOrEvicted r x b m'.
Proof using.
  induction ops as [|op ops IH]; intros m m' E Hk; cbn [runManager] in E; [injection E as <-; auto|].
  destruct (managerStep H m op) as [m1|] eqn:E1; [|done]. cbn [mbind option_bind] in E.
  assert (Hk1 : historyOk m1).
  { assert (Hc : (exists q, op = IxFrontier q) \/ forall q, op ≠ IxFrontier q) by (destruct op; (by left; eauto) || by right).
    destruct Hc as [[q ->]|Hne]; [|by apply (sameHistory_ok m), Hk; apply (step_same m op)].
    injection E1 as <-. destruct (match last (m_order m) with Some r => q <=? r | None => false end) eqn:El.
    - unfold managerSetFrontier. by rewrite El.
    - eapply recorded_ok; [done|by apply last_below; [apply Hk|]|]. apply frontier_recorded; [apply Hk|done]. }
  destruct (IH m1 m' E Hk1) as [Hk' Hkept]. split; [done|]. intros r x b Hm. apply Hkept. by apply (step_history m op m1 r x b).
Qed.

(** The frontier pair is what is retained for its round. *)
Lemma frontier_retained m : historyOk m -> m_order m ≠ [] -> RootAt m (m_frontierRound m) = Some (m_frontierRoot m).
Proof using.
  intros Hk Hne. destruct (hk_frontier m Hk Hne) as [_ Hf]. unfold RootAt.
  destruct (m_epochCheckpoints m !! m_frontierRound m) as [y|] eqn:Ec; [|done]. by rewrite (hk_agree m Hk _ _ _ Ec Hf).
Qed.

Lemma run_final ops m m' r x : historyOk m -> runManager H m ops = Some m' -> RootAt m r = Some x ->
  RootAt m' r = Some x \/
  RootAt m' r = None /\ m_epochCheckpoints m !! r = None /\ length (m_order m') = historyWindow /\ Forall (fun q => r < q) (m_order m').
Proof using.
  intros Hk E Hr. destruct (run_history ops m m' E Hk) as [_ Hkept].
  destruct (Hkept r x (bool_decide (is_Some (m_epochCheckpoints m !! r)))) as [[? _]|(Hb & ? & ?)].
  - left. split; [done|]. intros [y Hy]%bool_decide_eq_true. unfold RootAt in Hr. rewrite Hy in Hr. congruence.
  - by left.
  - right. apply bool_decide_eq_false in Hb. split; [done|]. split; [by apply eq_None_not_Some|done].
Qed.

(** A root recorded for a round is reported for it forever or evicted, never changed;
    eviction takes the oldest rounds of a full window and never an epoch checkpoint. *)
Theorem retained_roots_are_final ops ops' m m' r x :
  runManager H NewManager ops = Some m -> runManager H m ops' = Some m' -> RootAt m r = Some x ->
  (RootAt m' r = Some x \/
   RootAt m' r = None /\ m_epochCheckpoints m !! r = None /\ length (m_order m') = historyWindow /\ Forall (fun q => r < q) (m_order m')) /\
  (let '(round, root) := CommittedFrontier m in RootAt m round = Some root).
Proof using.
  intros E E' Hr. destruct (run_history ops NewManager m E NewManager_history) as [Hk _]. split; [by apply (run_final ops')|].
  apply (frontier_retained m Hk). intros En. unfold RootAt in Hr. destruct (m_epochCheckpoints m !! r) as [y|] eqn:Ec.
  - destruct (hk_past m Hk r ltac:(eauto)) as (l & Hl & _). by rewrite En in Hl.
  - assert (r ∈ m_order m) as Hin by (apply (hk_index m Hk); eauto). rewrite En in Hin. by apply not_elem_of_nil in Hin.
Qed.

End History.

(** ** A root binds its contents *)

Section Binding.
Context (H : bytes -> Hash) `{!Digest H}.
Context (xs : list bytes) (Hxs : NoCollision H xs) (Hdef : forall x, x ∈ defaultInputs H treeDepth -> x ∈ xs).

Lemma root_binds n : forall n' (depth : nat), wf H depth n -> wf H depth n' -> (depth <= treeDepth)%nat ->
  (forall x, x ∈ treeInputs H n depth -> x ∈ xs) -> (forall x, x ∈ treeInputs H n' depth -> x ∈ xs) ->
  pureHash H n depth = pureHash H n' depth -> content n = content n'.
Proof using Digest0 Hxs Hdef.
  induction n as [|k v h|l IHl r IHr h dirty]; intros n' depth Hw Hw' Hd Hin Hin' E.
  - by rewrite (default_is_nil H xs Hxs Hdef n' depth Hw' Hd Hin' (eq_sym E)).
  - symmetry. destruct Hw as ((Hlk & _) & Hw). cbn [content].
    apply (leaf_found H xs Hxs Hdef n' depth k v); [done|done|done|apply Hin; left|done|by symmetry].
  - destruct n' as [|k' v' h'|l' r' h' dirty'].
    + by rewrite (default_is_nil H xs Hxs Hdef (Inner l r h dirty) depth Hw Hd Hin E).
    + destruct Hw' as ((Hlk & _) & Hw'). apply (leaf_found H xs Hxs Hdef (Inner l r h dirty) depth k' v'); [done|done|done|apply Hin'; left|done|done].
    + destruct Hw as (Hlt & Hl & Hr & _), Hw' as (_ & Hl' & Hr' & _). cbn [pureHash treeInputs] in *.
      apply (no_clash H xs Hxs) in E; [|apply Hin; left|apply Hin'; left].
      apply nodeInput_inj in E as [El Er]; [|by rewrite !length_pureHash by done]. cbn [content]. f_equal.
      * apply (IHl l' (S depth)); try done; intros x Hx; [apply Hin|apply Hin']; right; apply elem_of_app; by left.
      * apply (IHr r' (S depth)); try done; intros x Hx; [apply Hin|apply Hin']; right; apply elem_of_app; by right.
Qed.

End Binding.

(** ** A stream that reproduces the subtree root is the child set *)

Section Enumeration.
Context (H : bytes -> Hash) `{!Digest H}.
Context (K : bytes -> Prop) (Kinj : forall a b, K a -> K b -> H a = H b -> a = b).

(** What is hashed to build a children subtree. *)
Definition markerInputs (children : gset Hash) : list bytes :=
  match insertMarkers H New (elements children) with Some sub => treeInputs H (smt_root sub) 0 | None => [] end.

Lemma markers_dom l : forall (m : gmap bytes bytes) c,
  is_Some (foldl (fun m c => <[c := [presentMarker]]> m) m l !! c) <-> c ∈ l \/ is_Some (m !! c).
Proof using.
  induction l as [|x l IH]; intros m c; cbn [foldl].
  - split; [by right|]. by intros [?%not_elem_of_nil|?].
  - rewrite IH, elem_of_cons, lookup_insert_is_Some'. naive_solver.
Qed.

Lemma subtree_members (s : gset Hash) sub c : set_Forall K s -> insertMarkers H New (elements s) = Some sub -> K c ->
  wf H 0 (smt_root sub) /\ fst (Root H sub) = pureHash H (smt_root sub) 0 /\ (is_Some (content (smt_root sub) !! H c) <-> c ∈ s).
Proof using Digest0 Kinj.
  intros Hs E Hc. destruct (insertMarkers_stores H K Kinj (elements s) New ∅ (Stores_New H K)) as (sub' & E' & Hst).
  { apply Forall_forall. intros x Hx. apply Hs. by apply elem_of_elements. }
  rewrite E in E'. injection E' as <-. pose proof (ts_ok _ _ _ _ Hst) as Hok. split_and!; [apply Hok|by apply Root_ok|].
  rewrite (Get_content H sub c Hok), fmap_is_Some, (Stores_Get H K Kinj sub _ c Hst Hc), markers_dom, elem_of_elements, lookup_empty.
  split; [|by left]. intros [?|[? ?]]; done.
Qed.

Lemma enumeration_members (children : gset Hash) (stream : list Hash) root :
  set_Forall K children -> Forall K stream ->
  subtreeRoot H children = Some root -> ChildrenSubtreeRoot H stream = Some (Some root) ->
  NoCollision H (defaultInputs H treeDepth ++ markerInputs children ++ markerInputs (list_to_set stream)) ->
  NoDup stream /\ forall c, c ∈ stream <-> c ∈ children.
Proof using Digest0 Kinj.
  intros Hs Hl E E' Hn. unfold ChildrenSubtreeRoot in E'. destruct (decide (NoDup stream)) as [Hnd|]; [|done]. split; [done|].
  assert (Hl' : set_Forall K (list_to_set stream : gset Hash)).
  { intros x Hx%elem_of_list_to_set. rewrite Forall_forall in Hl. by apply Hl. }
  unfold subtreeRoot in E, E'. unfold markerInputs in Hn.
  destruct (insertMarkers H New (elements children)) as [sub|] eqn:Es; [|done].
  destruct (insertMarkers H New (elements (list_to_set stream))) as [sub'|] eqn:Es'; [|done]. cbn [mbind option_bind] in *.
  injection E as E. injection E' as E'.
  set (xs := defaultInputs H treeDepth ++ treeInputs H (smt_root sub) 0 ++ treeInputs H (smt_root sub') 0) in *.
  assert (Hc : forall c, K c -> content (smt_root sub) = content (smt_root sub') -> c ∈ stream <-> c ∈ children).
  { intros c Hk Ec. destruct (subtree_members _ sub c Hs Es Hk) as (_ & _ & M1), (subtree_members _ sub' c Hl' Es' Hk) as (_ & _ & M2).
    rewrite <- M1, Ec, M2. by rewrite elem_of_list_to_set. }
  assert (Hk0 : forall c, c ∈ stream \/ c ∈ children -> K c).
  { intros c [Hx|Hx]; [rewrite Forall_forall in Hl; by apply Hl|by apply Hs]. }
  assert (Ec : forall c, K c -> content (smt_root sub) = content (smt_root sub')).
  { intros c Hk. destruct (subtree_members _ sub c Hs Es Hk) as (W1 & R1 & _), (subtree_members _ sub' c Hl' Es' Hk) as (W2 & R2 & _).
    apply (root_binds H xs Hn) with (depth := 0%nat); try done; try lia; try congruence; intros x Hx; unfold xs; rewrite !elem_of_app; auto. }
  intros c. split; intros Hx; (assert (Hk : K c) by (apply Hk0; auto)); by apply (Hc c Hk (Ec c Hk)).
Qed.

(** Without hash collisions a streamed list of children that reproduces a subtree
    root has no repetition and is exactly the committed set of children. *)
Theorem enumeration_is_complete (children : gset Hash) (stream : list Hash) root :
  set_Forall K children -> Forall K stream ->
  subtreeRoot H children = Some root -> ChildrenSubtreeRoot H stream = Some (Some root) ->
  NoCollision H (defaultInputs H treeDepth ++ markerInputs children ++ markerInputs (list_to_set stream)) ->
  NoDup stream /\ forall c, c ∈ stream <-> c ∈ children.
Proof using Digest0 Kinj. apply enumeration_members. Qed.

End Enumeration.

(** ** A concrete index *)

Definition id32 (n : Z) : Hash := replicate 31 0 ++ [n].

Definition exampleKeys : list bytes := [id32 1; id32 2; id32 3; id32 9; str "a.pod"; str "b.pod"].

Definition exampleKey (b : bytes) : Prop := b ∈ exampleKeys.

Lemma exampleKey_inj a b : exampleKey a -> exampleKey b -> toyHash a = toyHash b -> a = b.
Proof. apply no_clash. apply noCollisionB_sound. vm_compute. reflexivity. Qed.

Lemma exampleKey_id n : n ∈ [1; 2; 3; 9] -> idOk exampleKey (id32 n).
Proof. intros Hn. split; [|done]. unfold exampleKey, exampleKeys. set_solver. Qed.

Definition exampleValidator : ValidatorLeaf := mkValidatorLeaf (id32 9) 70 (replicate 48 4) ValidatorActive.

(** Two objects under a key, a lease, a frontier, a reparenting, a removal, and
    reads in between. *)
Definition exampleFeed : list IndexOp :=
  [IxEdge (id32 1) KeyRootKind (id32 9); IxEdge (id32 2) ObjectParentKind (id32 1); IxEdge (id32 3) KeyRootKind (id32 9);
   IxDomain (str "a.pod") (id32 1) (id32 9) 5; IxDomain (str "b.pod") (id32 2) (id32 9) 6; IxValidators [exampleValidator];
   IxFrontier 4; IxChildren (id32 9); IxEdge (id32 2) ObjectParentKind (id32 3); IxRemove (id32 1); IxDropDomain (str "a.pod");
   IxAncestors (id32 2); IxFrontier 5].

Lemma exampleFeed_ok : Forall (opOk exampleKey) exampleFeed.
Proof.
  assert (Hn : forall b, b ∈ exampleKeys -> exampleKey b) by done. unfold exampleFeed.
  repeat (apply Forall_cons; split; [cbn [opOk]; try done; try (split; apply exampleKey_id; set_solver); try (apply exampleKey_id; set_solver);
    try (apply Hn; unfold exampleKeys; set_solver)|]); try constructor.
  all: apply Hn; unfold exampleKeys; simpl; set_solver.
Qed.

Definition bootTrackers : list TrackerEntry := [mkIndexEntry (id32 3) KeyRootKind (id32 9); mkIndexEntry (id32 2) ObjectParentKind (id32 3)].
Definition bootDomains : list DomainLeaf := [mkDomainLeaf (str "b.pod") (id32 2) (id32 9) 6].

Theorem index_rebuild_agrees_witness :
  exists m m', runManager toyHash NewManager exampleFeed = Some m /\
    BuildFromState toyHash NewManager bootTrackers bootDomains [exampleValidator] = Some m' /\
    fst (roots toyHash m') = fst (roots toyHash m).
Proof.
  apply (index_rebuild_agrees toyHash exampleKey exampleKey_inj exampleFeed NewManager bootTrackers bootDomains [exampleValidator]).
  - exact exampleFeed_ok.
  - split.
    + apply (bool_decide_unpack _). vm_compute. exact I.
    + apply (bool_decide_unpack _). vm_compute. exact I.
    + split; [vm_compute; reflexivity|]. constructor; [|constructor]. apply (exampleKey_id 9). set_solver.
Defined.

Theorem served_answers_verify_witness :
  exists m, runManager toyHash NewManager exampleFeed = Some m /\
    da_Value (fst (ResolveDomain toyHash m (str "b.pod"))) = Some (encodeDomainLeaf (mkDomainLeaf (str "b.pod") (id32 2) (id32 9) 6)).
Proof.
  destruct (served_answers_verify toyHash exampleKey exampleKey_inj exampleFeed (str "b.pod") (id32 9) (id32 2)) as (m & E & Hd & _).
  - exact exampleFeed_ok.
  - unfold exampleKey, exampleKeys. set_solver.
  - apply (exampleKey_id 9). set_solver.
  - apply (exampleKey_id 2). set_solver.
  - exists m. split; [exact E|]. cbv zeta in Hd. destruct Hd as [Hd _]. rewrite Hd. vm_compute. reflexivity.
Defined.

(** A lease anchored at an epoch boundary, then dropped. *)
Definition leaseFeed : list IndexOp := [IxDomain (str "a.pod") (id32 1) (id32 9) 5; IxValidators [exampleValidator]; IxFrontier 4].
Definition dropFeed : list IndexOp := [IxDropDomain (str "a.pod"); IxFrontier 5].

Definition exampleManager : Manager := default NewManager (runManager toyHash NewManager leaseFeed).

Lemma exampleManager_built : runManager toyHash NewManager leaseFeed = Some exampleManager.
Proof. vm_compute. reflexivity. Qed.

Definition exampleRoot : Hash := default [] (RootAt exampleManager 4).

Lemma exampleRoot_recorded : RootAt exampleManager 4 = Some exampleRoot.
Proof. vm_compute. reflexivity. Qed.

Lemma exampleRoot_checkpoint : m_epochCheckpoints exampleManager !! 4 = Some exampleRoot.
Proof. vm_compute. reflexivity. Qed.

Definition exampleLater : Manager := default NewManager (runManager toyHash exampleManager dropFeed).

Lemma exampleLater_built : runManager toyHash exampleManager dropFeed = Some exampleLater.
Proof. vm_compute. reflexivity. Qed.

Theorem retained_roots_are_final_witness : RootAt exampleLater 4 = Some exampleRoot.
Proof.
  destruct (retained_roots_are_final toyHash leaseFeed dropFeed exampleManager exampleLater 4 exampleRoot) as [[Hk|Hk] _].
  - exact exampleManager_built.
  - exact exampleLater_built.
  - exact exampleRoot_recorded.
  - exact Hk.
  - exfalso. destruct Hk as (_ & Hc & _). rewrite exampleRoot_checkpoint in Hc. discriminate.
Defined.

Definition pairRoot : Hash := default [] (subtreeRoot toyHash {[ id32 1; id32 3 ]}).

Lemma pairRoot_built :
  subtreeRoot toyHash {[ id32 1; id32 3 ]} = Some pairRoot /\ ChildrenSubtreeRoot toyHash [id32 3; id32 1] = Some (Some pairRoot).
Proof. vm_compute. done. Qed.

Theorem enumeration_is_complete_witness :
  NoDup [id32 3; id32 1] /\ forall c, c ∈ [id32 3; id32 1] <-> c ∈ ({[ id32 1; id32 3 ]} : gset Hash).
Proof.
  apply (enumeration_is_complete toyHash exampleKey exampleKey_inj {[ id32 1; id32 3 ]} [id32 3; id32 1] pairRoot).
  - intros x Hx. apply elem_of_union in Hx as [->%elem_of_singleton| ->%elem_of_singleton];
      [apply (exampleKey_id 1)|apply (exampleKey_id 3)]; set_solver.
  - apply Forall_cons. split; [apply (exampleKey_id 3); set_solver|]. apply Forall_cons. split; [apply (exampleKey_id 1); set_solver|constructor].
  - exact (proj1 pairRoot_built).
  - exact (proj2 pairRoot_built).
  - apply noCollisionB_sound. vm_compute. reflexivity.
Defined.
