(* ===== verification/Feed.v ===== *)
(** * The index behind the DAG (internal/consensus/indexer.go, rootcheck.go)

    The manager a node's feed leads to, the boot rebuild, and the anchor check:
    the verdict rule the ingress, production and commit stages share. *)

From S2P Require Import Prelude Types Fees Validators Stake Storage Tracker Domains Staged Coins Ledger Ops Dag Smt Index.

(** ** From the feed to the manager *)

(** [ValidatorLeaves]. *)
Definition ValidatorLeaves (c : Config) (entries : list ValidatorInfo) : list ValidatorLeaf :=
  let rawTotal := foldl (fun t v => safeAdd t (EffectiveStake v)) 0 entries in
  map (fun v => mkValidatorLeaf (Pubkey v)
                  (cappedWeight (EffectiveStake v) rawTotal (votingCapMille c) (Z.of_nat (length entries)))
                  (BLSPubkey v) (if Jailed v then ValidatorJailed else ValidatorActive)) entries.

Section Feed.
Context (H : bytes -> Hash) (c : Config).

(** One call of the [indexer] interface on the manager. *)
Definition applyFeed (m : Manager) (f : IndexFeed) : option Manager :=
  match f with
  | ApplyEdge child kind parent => managerApplyEdge H m child kind parent
  | RemoveObject child => managerRemoveObject H m child
  | ApplyDomain name leaf => managerApplyDomain H m name (objectID leaf) (owner leaf) (expiry leaf)
  | RemoveDomain name => Some (managerRemoveDomain H m name)
  | RebuildValidators _ entries => managerRebuildValidators H m (ValidatorLeaves c entries)
  | SetFrontier round => Some (managerSetFrontier H m round)
  end.

Fixpoint replay (m : Manager) (log : list IndexFeed) : option Manager :=
  match log with
  | [] => Some m
  | f :: log => m ← applyFeed m f; replay m log
  end.

(** The index of a node that booted with [boot] and has fed [log] since. *)
Definition indexOf (boot : Manager) (log : list IndexFeed) : Manager := default boot (replay boot log).

Definition indexTrackerEntries {M} `{Pebble M} (t : M) : list TrackerEntry :=
  map (fun e => mkIndexEntry (te_ID e) (te_ParentKind e) (te_Parent e)) (Export t).

Definition indexDomainLeaves {M} `{Pebble M} (db : option M) : list DomainLeaf :=
  match db with
  | None => []
  | Some db => map (fun e => mkDomainLeaf (de_Name e) (objectID (de_Leaf e)) (owner (de_Leaf e)) (expiry (de_Leaf e))) (ExportDomains db)
  end.

(** [EpochHolders]: the frozen set, or the live one before any freeze. *)
Definition EpochHolders {M} (d : DAG M) : ValidatorSet :=
  match epochHolders (d_epochs d) with Some vs => vs | None => l_validators (d_ledger d) end.

Definition lastDecidedRound (cursor : Z) : Z := if cursor =? 0 then 0 else cursor - 1.

(** [backfillIndex]: the manager after construction. *)
Definition backfillIndex {M} `{Pebble M} (d : DAG M) (lastCommitted : Z) (m : Manager) : option Manager :=
  let holders := match HoldersForEpoch d (currentEpoch (d_epochs d)) with Some vs => vs | None => EpochHolders d end in
  m ← BuildFromState H m (indexTrackerEntries (l_tracker (d_ledger d))) (indexDomainLeaves (l_domains (d_ledger d)))
        (ValidatorLeaves c (All holders));
  Some (if 0 <? lastCommitted then managerSetFrontier H m (lastDecidedRound lastCommitted) else m).

(** ** The anchor check (rootcheck.go) *)

Definition hashFrom (b : bytes) : Hash := default zeroHash (hash32 b).

Definition toleratesZeroAnchor (v : Vertex) (claimed : Hash) : bool :=
  bool_decide (claimed = zeroHash) && (commitEpochForRound c (v_Round v) =? 0).

(** [anchorLie]: the claimed and the computed root of a proven lie. *)
Definition anchorLie (indexer : option Manager) (v : Vertex) : option (Hash * Hash) :=
  m ← indexer;
  let frontier := v_FrontierRound v in
  if fst (CommittedFrontier m) <? frontier then None
  else
    computed ← RootAt m frontier;
    let claimed := hashFrom (v_IndexRoot v) in
    if bool_decide (claimed = computed) then None
    else if toleratesZeroAnchor v claimed then None
    else Some (claimed, computed).

End Feed.
