(* ===== verification/Honest.v ===== *)
(** * Honest anchors are never convicted

    Two nodes that have fed their index the same committed stream, one further
    than the other (rootcheck.go, manager.go). *)

From S2P Require Import Prelude Types Fees Validators Stake Storage Tracker Domains Staged Coins Ledger Ops Dag Smt Merkle Index IndexFacts Retention Feed.

Section Honest.
Context (H : bytes -> Hash) (c : Config).

(** A feed call as an operation of the manager. *)
Definition feedOp (f : IndexFeed) : IndexOp :=
  match f with
  | ApplyEdge child kind parent => IxEdge child kind parent
  | RemoveObject child => IxRemove child
  | ApplyDomain name leaf => IxDomain name (objectID leaf) (owner leaf) (expiry leaf)
  | RemoveDomain name => IxDropDomain name
  | RebuildValidators _ entries => IxValidators (ValidatorLeaves c entries)
  | SetFrontier round => IxFrontier round
  end.

Lemma replay_run log : forall m, replay H c m log = runManager H m (map feedOp log).
Proof using.
  induction log as [|f log IH]; intros m; [done|]. cbn [replay map runManager].
  assert (applyFeed H c m f = managerStep H m (feedOp f)) as -> by (by destruct f).
  destruct (managerStep H m (feedOp f)) as [m1|]; [|done]. apply IH.
Qed.

Lemma replay_app log1 log2 m m2 : replay H c m (log1 ++ log2) = Some m2 ->
  exists m1, replay H c m log1 = Some m1 /\ replay H c m1 log2 = Some m2.
Proof using.
  revert m. induction log1 as [|f log1 IH]; intros m E; [eauto|]. cbn [replay app] in *.
  destruct (applyFeed H c m f) as [m'|]; [|done]. by apply IH.
Qed.

(** The producer fed [logA], the verifier [logB]; one stream is a prefix of the
    other.  The vertex anchors the producer's committed frontier. *)

(** When one node's committed stream is a prefix of another's, a vertex that anchors
    the first node's frontier is never judged a lie by the second, in either direction. *)
Theorem honest_anchor_not_convicted logA logB mA mB v :
  replay H c NewManager logA = Some mA -> replay H c NewManager logB = Some mB ->
  logA `prefix_of` logB \/ logB `prefix_of` logA ->
  (v_FrontierRound v, hashFrom (v_IndexRoot v)) = CommittedFrontier mA ->
  m_order mA ≠ [] \/ commitEpochForRound c (v_Round v) = 0 ->
  anchorLie c (Some mB) v = None.
Proof using.
  intros EA EB Hpre Hpair Hrec. unfold CommittedFrontier in Hpair. injection Hpair as Hfr Hroot.
  assert (HkA : historyOk mA) by (rewrite replay_run in EA; by apply (run_history H (map feedOp logA) NewManager mA EA NewManager_history)).
  assert (HkB : historyOk mB) by (rewrite replay_run in EB; by apply (run_history H (map feedOp logB) NewManager mB EB NewManager_history)).
  unfold anchorLie. cbn [mbind option_bind]. rewrite Hfr, Hroot. destruct (_ <? _); [done|].
  destruct (RootAt mB (m_frontierRound mA)) as [computed|] eqn:Ec; [|done]. cbn [mbind option_bind]. cbv zeta.
  destruct (decide (m_order mA = [])) as [En|Hne].
  - destruct (hk_unset mA HkA En) as [_ Hz]. rewrite Hz. case_bool_decide; [done|]. unfold toleratesZeroAnchor.
    destruct Hrec as [Hrec|Hrec]; [done|]. rewrite bool_decide_eq_true_2 by done. by rewrite Hrec.
  - assert (HA := frontier_retained mA HkA Hne). rewrite bool_decide_eq_true_2; [done|].
    destruct Hpre as [[rest ->]|[rest ->]].
    + apply replay_app in EB as (m1 & E1 & E2). rewrite EA in E1. injection E1 as <-. rewrite replay_run in E2.
      destruct (run_final H _ mA mB _ _ HkA E2 HA) as [Hk|(Hk & _)]; congruence.
    + apply replay_app in EA as (m1 & E1 & E2). rewrite EB in E1. injection E1 as <-. rewrite replay_run in E2.
      destruct (run_final H _ mB mA _ _ HkB E2 Ec) as [Hk|(Hk & _)]; congruence.
Qed.

End Honest.

(** Two frontiers apart. *)
Definition shortLog : list IndexFeed := [ApplyEdge (id32 1) KeyRootKind (id32 9); SetFrontier 4].
Definition longLog : list IndexFeed := shortLog ++ [RemoveObject (id32 1); SetFrontier 5].

Definition frontierVertex (m : Manager) : Vertex :=
  mkVertex [] 6 [] [] [] 0 None 0 (m_frontierRound m) (m_frontierRoot m) [] [].

Theorem honest_anchor_not_convicted_witness :
  anchorLie regimeConfig (replay toyHash regimeConfig NewManager longLog)
    (frontierVertex (default NewManager (replay toyHash regimeConfig NewManager shortLog))) = None /\
  is_Some (anchorLie regimeConfig (replay toyHash regimeConfig NewManager longLog)
    (mkVertex [] 6 [] [] [] 0 None 0 4 (id32 7) [] [])).
Proof.
  split; [|vm_compute; eauto].
  destruct (replay toyHash regimeConfig NewManager longLog) as [mB|] eqn:EB; [|done].
  destruct (replay toyHash regimeConfig NewManager shortLog) as [mA|] eqn:EA.
  - apply (honest_anchor_not_convicted toyHash regimeConfig shortLog longLog mA mB).
    + exact EA.
    + exact EB.
    + left. exists [RemoveObject (id32 1); SetFrontier 5]. reflexivity.
    + assert (Hl : length (m_frontierRoot mA) = 32%nat).
      { assert (Hb : (fun o => match o with Some m => length (m_frontierRoot m) | None => 0%nat end) (replay toyHash regimeConfig NewManager shortLog) = 32%nat)
          by (vm_compute; reflexivity). by rewrite EA in Hb. }
      cbn [from_option id frontierVertex v_FrontierRound v_IndexRoot]. unfold CommittedFrontier, hashFrom, hash32. by rewrite Hl.
    + left. assert (Hb : (fun o => match o with Some m => length (m_order m) | None => 0%nat end) (replay toyHash regimeConfig NewManager shortLog) = 1%nat)
        by (vm_compute; reflexivity). rewrite EA in Hb. intros Hn. by rewrite Hn in Hb.
  - exfalso. assert (Hb : bool_decide (is_Some (replay toyHash regimeConfig NewManager shortLog)) = true) by (vm_compute; reflexivity).
    apply bool_decide_eq_true in Hb as [? Hb]. rewrite EA in Hb. discriminate.
Defined.
