(* ===== verification/Header.v ===== *)
(** * Vertex headers and fault evidence (internal/consensus/header.go, fault.go)

    The 120-byte header a producer signs, the identity derived from it, and the
    self-contained record that convicts a lying anchor.  The FlatBuffers encoding
    of a body is a parameter. *)

From S2P Require Import Prelude Types Persist Smt Index Feed Ledger.

Definition headerSize : nat := 120.
Definition headerDomainTag : Z := 1.
Definition bodyDomainTag : Z := 2.
Definition signatureSize : nat := 64.

Record vertexHeader := mkHeader {
  vh_producer : Hash;
  vh_round : Z;
  vh_epoch : Z;
  vh_frontierRound : Z;
  vh_indexRoot : Hash;
  vh_bodyHash : Hash;
}.

Definition headerEncode (h : vertexHeader) : bytes :=
  vh_producer h ++ be_enc 8 (vh_round h) ++ be_enc 8 (vh_epoch h) ++ be_enc 8 (vh_frontierRound h) ++ vh_indexRoot h ++ vh_bodyHash h.

Definition headerOf (v : Vertex) : vertexHeader :=
  mkHeader (extractProducer v) (v_Round v) (v_Epoch v) (v_FrontierRound v) (hashFrom (v_IndexRoot v)) (hashFrom (v_BodyHash v)).

Definition headerBytes (v : Vertex) : bytes := headerEncode (headerOf v).

Record faultRecord := mkFault { f_header : bytes; f_signature : bytes; f_computed : Hash }.

Definition faultRecordSize : nat := headerSize + signatureSize + 32.

Definition faultEncode (r : faultRecord) : bytes := f_header r ++ f_signature r ++ f_computed r.

Definition decodeFaultRecord (data : bytes) : option faultRecord :=
  if negb (Nat.eqb (length data) faultRecordSize) then None
  else Some (mkFault (take headerSize data) (take signatureSize (drop headerSize data)) (hashFrom (drop (headerSize + signatureSize) data))).

Definition faultProducer (r : faultRecord) : Hash := hashFrom (take 32 (f_header r)).
Definition faultRound (r : faultRecord) : Z := be_dec (take 8 (drop 32 (f_header r))).
Definition faultClaimed (r : faultRecord) : Hash := hashFrom (take 32 (drop 56 (f_header r))).

Definition faultIdentity (r : faultRecord) : vertexHeader :=
  mkHeader (faultProducer r) (faultRound r) (be_dec (take 8 (drop 40 (f_header r)))) (be_dec (take 8 (drop 48 (f_header r))))
    (faultClaimed r) (hashFrom (take 32 (drop 88 (f_header r)))).

(** What a body hash covers: parents, transactions, fee summary, timestamp. *)
Definition BodyEncoder : Type := list VertexLink -> list AttestedTransaction -> option FeeSummary -> Z -> bytes.

Section Identity.
Context (X : Crypto) (bodyBytes : BodyEncoder).

Definition taggedHash (tag : Z) (data : bytes) : Hash := blake3 X (tag :: data).

Definition headerHash (h : vertexHeader) : Hash := taggedHash headerDomainTag (headerEncode h).

Definition malformedBody : Hash := blake3 X (str "bluepods.vertex.body.malformed").

Definition computeBodyHash (v : Vertex) : Hash :=
  taggedHash bodyDomainTag (bodyBytes (v_Parents v) (v_Transactions v) (v_FeeSummary v) (v_Timestamp v)).

(** The identity and the body hash the content implies. *)
Definition vertexIdentity (v : Vertex) : Hash * Hash :=
  let h := headerOf v in
  let body := computeBodyHash v in
  (headerHash (mkHeader (vh_producer h) (vh_round h) (vh_epoch h) (vh_frontierRound h) (vh_indexRoot h) body), body).

(** [verifiableEvidence]: a record a third party can check, or nothing. *)
Definition verifiableEvidence (v : Vertex) (computed : Hash) : option faultRecord :=
  if negb (Nat.eqb (length (v_Signature v)) signatureSize) then None
  else
    let record := mkFault (headerBytes v) (v_Signature v) computed in
    if ed25519Verify X (faultProducer record) (headerHash (faultIdentity record)) (v_Signature v) then Some record else None.

(** [recordAnchorFault] on the evidence by vertex hash. *)
Definition recordAnchorFault (faults : gmap Hash bytes) (v : Vertex) (claimed computed : Hash) : gmap Hash bytes :=
  let identity := hashFrom (v_Hash v) in
  if bool_decide (is_Some (faults !! identity)) then faults
  else match verifiableEvidence v computed with
       | None => faults
       | Some record => <[identity := faultEncode record]> faults
       end.

End Identity.

(** ** The fields come back out of the encoding *)

Definition headerOk (h : vertexHeader) : Prop :=
  length (vh_producer h) = 32%nat /\ is_u64 (vh_round h) /\ is_u64 (vh_epoch h) /\ is_u64 (vh_frontierRound h) /\
  length (vh_indexRoot h) = 32%nat /\ length (vh_bodyHash h) = 32%nat.

Lemma length_headerEncode h : headerOk h -> length (headerEncode h) = headerSize.
Proof. intros (H1 & _ & _ & _ & H2 & H3). unfold headerEncode. rewrite !length_app, !length_be_enc, H1, H2, H3. done. Qed.

Lemma hashFrom_id b : length b = 32%nat -> hashFrom b = b.
Proof. intros Hl. unfold hashFrom, hash32. by rewrite Hl. Qed.

Lemma length_hashFrom b : length (hashFrom b) = 32%nat.
Proof. unfold hashFrom. destruct (hash32 b) as [h|] eqn:E; [|done]. by apply hash32_Some in E as [_ ?]. Qed.

Lemma identity_of_header h sig computed : headerOk h -> faultIdentity (mkFault (headerEncode h) sig computed) = h.
Proof.
  intros (Hp & [] & [] & [] & Hr & Hb). unfold faultIdentity, faultProducer, faultRound, faultClaimed, headerEncode. cbn [f_header].
  rewrite take_app_length' by done. rewrite (drop_app_length' (vh_producer h)) by done.
  rewrite take_app_length' by (by rewrite length_be_enc). rewrite hashFrom_id by done. rewrite be_dec_enc by (simpl; lia).
  rewrite !(drop_app_ge (vh_producer h)) by lia. rewrite Hp.
  rewrite (drop_app_length' (be_enc 8 (vh_round h))) by (by rewrite length_be_enc).
  rewrite take_app_length' by (by rewrite length_be_enc). rewrite be_dec_enc by (simpl; lia).
  rewrite !(drop_app_ge (be_enc 8 (vh_round h))) by (rewrite length_be_enc; lia). rewrite !length_be_enc.
  rewrite (drop_app_length' (be_enc 8 (vh_epoch h))) by (by rewrite length_be_enc).
  rewrite take_app_length' by (by rewrite length_be_enc). rewrite be_dec_enc by (simpl; lia).
  rewrite !(drop_app_ge (be_enc 8 (vh_epoch h))) by (rewrite length_be_enc; lia). rewrite !length_be_enc.
  rewrite (drop_app_length' (be_enc 8 (vh_frontierRound h))) by (by rewrite length_be_enc).
  rewrite take_app_length' by done. rewrite hashFrom_id by done.
  rewrite !(drop_app_ge (be_enc 8 (vh_frontierRound h))) by (rewrite length_be_enc; lia). rewrite !length_be_enc.
  rewrite (drop_app_length' (vh_indexRoot h)) by done. rewrite take_ge by lia. rewrite hashFrom_id by done. by destruct h.
Qed.

Lemma headerOf_ok v : is_u64 (v_Round v) -> is_u64 (v_Epoch v) -> is_u64 (v_FrontierRound v) -> headerOk (headerOf v).
Proof. intros H1 H2 H3. unfold headerOk, headerOf, extractProducer. cbn. split_and!; try done; apply length_hashFrom. Qed.

Lemma fault_roundtrip r :
  length (f_header r) = headerSize -> length (f_signature r) = signatureSize -> length (f_computed r) = 32%nat ->
  decodeFaultRecord (faultEncode r) = Some r.
Proof.
  intros Hh Hs Hc. unfold decodeFaultRecord, faultEncode. rewrite !length_app, Hh, Hs, Hc, Nat.add_assoc.
  change (headerSize + signatureSize + 32)%nat with faultRecordSize. rewrite Nat.eqb_refl. cbn [negb].
  rewrite take_app_length', drop_app_length' by done. rewrite take_app_length' by done.
  rewrite (drop_app_ge (f_header r)) by lia. rewrite Hh, (drop_app_length' (f_signature r)) by lia. rewrite hashFrom_id by done. by destruct r.
Qed.

(** Evidence is stored only with a signature that verifies over the header it
    carries, and everything it accuses of is read out of that header. *)

(** A stored fault record decodes, its signature verifies over the header it carries,
    and the producer, round and claimed root read from it are those of the convicted
    vertex. *)
Theorem stored_evidence_convicts X faults v claimed computed data :
  is_u64 (v_Round v) -> is_u64 (v_Epoch v) -> is_u64 (v_FrontierRound v) -> length computed = 32%nat ->
  faults !! hashFrom (v_Hash v) = None -> recordAnchorFault X faults v claimed computed !! hashFrom (v_Hash v) = Some data ->
  exists r, decodeFaultRecord data = Some r /\
    ed25519Verify X (faultProducer r) (headerHash X (faultIdentity r)) (f_signature r) = true /\
    faultIdentity r = headerOf v /\ faultProducer r = extractProducer v /\ faultRound r = v_Round v /\
    faultClaimed r = hashFrom (v_IndexRoot v) /\ f_computed r = computed.
Proof.
  intros H1 H2 H3 Hc Hn Hs. unfold recordAnchorFault in Hs. rewrite Hn in Hs. rewrite bool_decide_eq_false_2 in Hs by (by intros []).
  unfold verifiableEvidence in Hs. destruct (Nat.eqb_spec (length (v_Signature v)) signatureSize) as [El|]; cbn [negb] in Hs; [|congruence].
  set (r := mkFault (headerBytes v) (v_Signature v) computed) in *. destruct (ed25519Verify X _ _ _) eqn:Ev; [|congruence].
  rewrite lookup_insert_eq in Hs. injection Hs as <-. pose proof (headerOf_ok v H1 H2 H3) as Hok.
  pose proof (identity_of_header (headerOf v) (v_Signature v) computed Hok) as Hi. exists r.
  split; [apply fault_roundtrip; [by apply length_headerEncode|done|done]|]. split; [done|]. split; [done|].
  change (faultProducer r) with (vh_producer (faultIdentity r)). change (faultRound r) with (vh_round (faultIdentity r)).
  change (faultClaimed r) with (vh_indexRoot (faultIdentity r)).
  change (mkFault (headerEncode (headerOf v)) (v_Signature v) computed) with r in Hi. by rewrite Hi.
Qed.

Definition openCrypto : Crypto := mkCrypto (fun b => take 32 (b ++ replicate 32 0)) (fun _ => []) (fun _ _ _ => true) (fun _ _ _ _ => true).

Definition lyingVertex : Vertex :=
  mkVertex (replicate 32 5) 6 (replicate 32 1) [] [] 0 None 0 4 (replicate 32 7) (replicate 32 8) (replicate 64 9).

Theorem stored_evidence_convicts_witness :
  exists data r, recordAnchorFault openCrypto ∅ lyingVertex (replicate 32 7) (replicate 32 2) !! replicate 32 5 = Some data /\
    decodeFaultRecord data = Some r /\ faultRound r = 6 /\ f_computed r = replicate 32 2.
Proof.
  destruct (recordAnchorFault openCrypto ∅ lyingVertex (replicate 32 7) (replicate 32 2) !! replicate 32 5) as [data|] eqn:E.
  - destruct (stored_evidence_convicts openCrypto ∅ lyingVertex (replicate 32 7) (replicate 32 2) data) as (r & H1 & _ & _ & _ & H2 & _ & H3).
    + unfold is_u64. simpl. lia.
    + unfold is_u64. simpl. lia.
    + unfold is_u64. simpl. lia.
    + reflexivity.
    + reflexivity.
    + exact E.
    + exists data, r. split; [reflexivity|]. split; [exact H1|]. split; [exact H2|exact H3].
  - exfalso. vm_compute in E. discriminate.
Defined.
