(* ===== verification/Commit.v ===== *)
(** * The transaction commit path (internal/consensus/commit.go,
    registration_pop.go)

    [executeTx] with every gate in the order of the code, the fee deduction,
    the staking and delegation handlers, the registration handlers and the
    settlement of declared deletions; [processTransactions] and [applyBatch]
    fold it over the vertices of a committed batch. *)

From S2P Require Import Prelude Types Fees Validators Stake Storage Tracker Domains Staged Coins Ledger Ops Ingress Dag.

(** Function names of the system pod (types.go). *)
Definition registerValidatorFunc : bytes := str "register_validator".
Definition deregisterValidatorFunc : bytes := str "deregister_validator".
Definition bondFunc : bytes := str "bond".
Definition unbondFunc : bytes := str "unbond".
Definition delegateFunc : bytes := str "delegate".
Definition undelegateFunc : bytes := str "undelegate".

(** ** Reading transactions *)

(** [buildReplicationMap]: a later object overrides an earlier one. *)
Definition buildReplicationMap (atx : AttestedTransaction) : gmap Hash Z :=
  foldl (fun m o => match hash32 (obj_id o) with
                    | Some id => <[id := obj_replication o]> m
                    | None => m
                    end) ∅ (atx_Objects atx).

(** The shared loop of [extractMutableObjectRefs] and [extractReadObjectRefs]. *)
Definition resolveRefs (refs : list TxRef) (atx : AttestedTransaction) : list ObjectRef :=
  omap (fun r => match hash32 (ref_id r) with
                 | Some id => Some (mkRef id (default 0 (buildReplicationMap atx !! id)))
                 | None => None
                 end) refs.

Definition extractMutableObjectRefs (tx : Transaction) (atx : AttestedTransaction) : list ObjectRef :=
  resolveRefs (tx_MutableRefs tx) atx.
Definition extractReadObjectRefs (tx : Transaction) (atx : AttestedTransaction) : list ObjectRef :=
  resolveRefs (tx_ReadRefs tx) atx.

Definition extractCreatedObjectsReplication (tx : Transaction) : list Z := tx_CreatedObjectsReplication tx.

(** [attestedReplicatedOwner]: the first replicated object with that ID decides. *)
Fixpoint attestedOwner (objects : list Object) (objectID : Hash) : option Hash :=
  match objects with
  | [] => None
  | o :: objects =>
      if (obj_replication o =? 0) || negb (bool_decide (obj_id o = objectID)) then attestedOwner objects objectID
      else hash32 (obj_owner o)
  end.

Definition attestedReplicatedOwner (atx : AttestedTransaction) (objectID : Hash) : option Hash :=
  attestedOwner (atx_Objects atx) objectID.

(** [declaredDeletedSet]: concatenated 32-byte IDs, trailing bytes ignored. *)
Definition declaredDeletedSet (tx : Transaction) : gset Hash :=
  list_to_set (decodeKeys (length (tx_DeletedObjects tx) / 32) (tx_DeletedObjects tx)).

(** [ownedDeletedRefs]: the loop that consumes the set as it matches. *)
Fixpoint takeDeleted (deleted : gset Hash) (refs : list TxRef) : list Hash :=
  match refs with
  | [] => []
  | r :: refs =>
      match mutableRefID r with
      | Some id => if bool_decide (id ∈ deleted) then id :: takeDeleted (deleted ∖ {[ id ]}) refs
                   else takeDeleted deleted refs
      | None => takeDeleted deleted refs
      end
  end.

Definition ownedDeletedRefs (tx : Transaction) : list Hash :=
  takeDeleted (declaredDeletedSet tx) (tx_MutableRefs tx).

Definition decodeStakeAmount (args : bytes) : option Z :=
  if Nat.ltb (length args) 8 then None else Some (le_dec (take 8 args)).

Definition decodeDelegateArgs (args : bytes) (withAmount : bool) : option (Hash * Z) :=
  let need := if withAmount then 40%nat else 32%nat in
  if Nat.ltb (length args) need then None
  else Some (take 32 args, if withAmount then le_dec (slice 32 8 args) else 0).

(** [proofVerdicts.next]: the remaining verdicts, [true] is no error. *)
Definition nextVerdict (errs : list bool) (hasProofs : bool) : bool * list bool :=
  if negb hasProofs then (true, errs)
  else match errs with [] => (true, []) | e :: errs => (e, errs) end.

Section Commit.
Context {M : Type} `{Pebble M} (E : Env M) (c : Config).
Implicit Types (L : Ledger M) (d : DAG M) (tx : Transaction) (atx : AttestedTransaction).

Definition isSystemFunc tx (fn : bytes) : bool :=
  Nat.eqb (length (tx_Pod tx)) 32 && bool_decide (tx_Pod tx = systemPod c) &&
  bool_decide (tx_FunctionName tx = fn).

Definition isRegisterValidatorTx tx : bool := isSystemFunc tx registerValidatorFunc.
Definition isDeregisterValidatorTx tx : bool := isSystemFunc tx deregisterValidatorFunc.
Definition isBondTx tx : bool := isSystemFunc tx bondFunc.
Definition isUnbondTx tx : bool := isSystemFunc tx unbondFunc.
Definition isDelegateTx tx : bool := isSystemFunc tx delegateFunc.
Definition isUndelegateTx tx : bool := isSystemFunc tx undelegateFunc.

(** ** Fees *)

(** [calculateTxFee], on the dereferenced parameters. *)
Definition calculateTxFee (vs : ValidatorSet) (p : FeeParams) tx atx : Z :=
  let mutableRefs := extractMutableObjectRefs tx atx in
  let readRefs := extractReadObjectRefs tx atx in
  let standardCount := CountStandardObjects (mutableRefs ++ readRefs) in
  let createdReps := extractCreatedObjectsReplication tx in
  let totalValidators := Len vs in
  let '(repNum, repDenom) :=
    ReplicationRatio mutableRefs (Z.of_nat (length createdReps)) (computeHolders E) totalValidators in
  let ops := tx_Operations tx in
  CalculateFee (tx_MaxGas tx) repNum repDenom standardCount createdReps ops
    (negb (Nat.eqb (length ops) 0) && negb (txHasPodCall tx)) totalValidators p.

(** [calculateTxFeeSplit]: the consumed and the storage portion. *)
Definition calculateTxFeeSplit (vs : ValidatorSet) (p : FeeParams) tx atx : Z * Z :=
  let storage := addDeposits 0 (extractCreatedObjectsReplication tx) (Len vs) p in
  let full := calculateTxFee vs p tx atx in
  if full <? storage then (0, full) else (full -w storage, storage).

Definition gasPayer tx : bytes := if isSponsored tx then tx_FeePayer tx else tx_Sender tx.

(** [validateGasCoin]: [err == nil]. *)
Definition validateGasCoin (st : CoinStore) tx (gasCoinID : Hash) : bool :=
  match GetObject st gasCoinID with
  | None => false
  | Some data =>
      if negb (readCoinReplication data =? 0) then false
      else match readCoinOwner data, hash32 (gasPayer tx) with
      | Some owner, Some payer => bool_decide (owner = payer)
      | _, _ => false
      end
  end.

(** [deductFees]: the ledger, the split, the withheld storage deposit and
    whether the transaction proceeds. *)
Definition deductFees L tx atx : option (Ledger M * FeeSplit * Z * bool) :=
  match l_coins L with
  | None => Some (L, noFees, 0, true)
  | Some st =>
      params ← mustFeeParams c;
      match hash32 (tx_GasCoin tx) with
      | None =>
          Some (L, noFees, 0, isRegisterValidatorTx tx || isDeregisterValidatorTx tx)
      | Some gasCoinID =>
          if tx_MaxGas tx <? MinGas params then Some (L, noFees, 0, false)
          else if negb (validateGasCoin st tx gasCoinID) then Some (L, noFees, 0, false)
          else
            let '(consumed, storage) := calculateTxFeeSplit (l_validators L) params tx atx in
            let fee := consumed +w storage in
            if fee =? 0 then Some (L, noFees, 0, true)
            else match deductCoinFee st gasCoinID fee with
            | (_, None) => Some (L, noFees, 0, false)
            | (st, Some (deducted, false)) =>
                Some (set_coins L (Some st), mkFeeSplit fee 0 deducted, 0, false)
            | (st, Some (_, true)) =>
                Some (set_coins L (Some st), SplitFee consumed params, storage, true)
            end
      end
  end.

Definition sponsoredTxStillValid tx (commitRound : Z) : bool :=
  if negb (isSponsored tx) then true
  else if tx_ValidUntil tx =? 0 then false
  else commitEpochForRound c commitRound <=? tx_ValidUntil tx.

(** ** Ownership of the mutable references *)

Definition mutableRefOwner (st : CoinStore) atx (objectID : Hash) : option Hash :=
  match attestedReplicatedOwner atx objectID with
  | Some owner => Some owner
  | None => data ← GetObject st objectID; readCoinOwner data
  end.

Definition mutableRefOwnedBy (st : CoinStore) atx (r : TxRef) (sender : Hash) : bool :=
  match hash32 (ref_id r) with
  | None => negb (bool_decide (ref_domain r = []))
  | Some objectID => bool_decide (mutableRefOwner st atx objectID = Some sender)
  end.

Definition validateMutableRefOwnership L atx tx : bool :=
  match l_coins L with
  | None => true
  | Some st =>
      if Nat.eqb (length (tx_MutableRefs tx)) 0 then true
      else match hash32 (tx_Sender tx) with
      | None => false
      | Some sender => forallb (fun r => mutableRefOwnedBy st atx r sender) (tx_MutableRefs tx)
      end
  end.

(** ** Staking *)

Definition parseStakeTx L tx (matches : Transaction -> bool) : option (Hash * Hash * Z) :=
  if bool_decide (l_coins L = None) || negb (matches tx) then None
  else
    sender ← hash32 (tx_Sender tx);
    coinID ← firstMutableRefID tx;
    amount ← decodeStakeAmount (tx_Args tx);
    if amount =? 0 then None else Some (sender, coinID, amount).

Definition handleBond L tx : Ledger M * bool :=
  match parseStakeTx L tx isBondTx, l_coins L with
  | Some (sender, coinID, amount), Some st =>
      match Validators.Get (l_validators L) sender with
      | None => (L, false)
      | Some current =>
          let newStake := safeAdd (SelfStake current) amount in
          if newStake <? minStake c then (L, false)
          else match strictDebit st coinID amount with
          | (_, false) => (L, false)
          | (st, true) =>
              (set_validators (set_coins L (Some st)) (SetSelfStake (l_validators L) sender newStake), true)
          end
      end
  | _, _ => (L, false)
  end.

Definition handleUnbond L tx : Ledger M * bool :=
  match parseStakeTx L tx isUnbondTx, l_coins L with
  | Some (sender, coinID, amount), Some st =>
      match Validators.Get (l_validators L) sender with
      | None => (L, false)
      | Some current =>
          if SelfStake current <? amount then (L, false)
          else
            let remaining := SelfStake current -w amount in
            if (0 <? minStake c) && (0 <? remaining) && (remaining <? minStake c) then (L, false)
            else match creditCoin st coinID amount with
            | (_, false) => (L, false)
            | (st, true) =>
                (set_validators (set_coins L (Some st))
                   (SetSelfStake (l_validators L) sender (SelfStake current -w amount)), true)
            end
      end
  | _, _ => (L, false)
  end.

Definition parseDelegateTx L tx (matches : Transaction -> bool) (withAmount : bool)
    : option (Hash * Hash * Hash * Z) :=
  if bool_decide (l_coins L = None) || negb (matches tx) then None
  else
    delegator ← hash32 (tx_Sender tx);
    coinID ← firstMutableRefID tx;
    va ← decodeDelegateArgs (tx_Args tx) withAmount;
    if withAmount && (snd va =? 0) then None else Some (delegator, coinID, fst va, snd va).

Definition handleDelegate L tx : Ledger M * bool :=
  match parseDelegateTx L tx isDelegateTx true, l_coins L with
  | Some (delegator, coinID, validator, amount), Some st =>
      match Validators.Get (l_validators L) validator with
      | None => (L, false)
      | Some target =>
          if Jailed target then (L, false)
          else match strictDebit st coinID amount with
          | (_, false) => (L, false)
          | (st, true) =>
              let st := SetObject st (buildDelegationObject (crypto E) delegator validator amount) in
              (set_validators (set_coins L (Some st)) (fst (AddDelegated (l_validators L) validator amount)), true)
          end
      end
  | _, _ => (L, false)
  end.

Definition handleUndelegate L tx : Ledger M * bool :=
  match parseDelegateTx L tx isUndelegateTx false, l_coins L with
  | Some (delegator, coinID, validator, _), Some st =>
      let posID := DelegationID (crypto E) delegator validator in
      match readDelegationAmount st posID validator with
      | None => (L, false)
      | Some amount =>
          match creditCoin st coinID amount with
          | (_, false) => (L, false)
          | (st, true) =>
              (set_validators (set_coins L (Some (DeleteObject st posID)))
                 (fst (SubDelegated (l_validators L) validator amount)), true)
          end
      end
  | _, _ => (L, false)
  end.

(** ** Declared deletions *)

Fixpoint settleAll L (targets : list Hash) (gasCoin : option Hash) : option (Ledger M) :=
  match targets with
  | [] => Some L
  | id :: targets =>
      r ← settleDeletion c L id (default zeroHash gasCoin) (bool_decide (is_Some gasCoin));
      settleAll (fst r) targets gasCoin
  end.

Definition settleDeclaredDeletions L tx : option (Ledger M * bool) :=
  let targets := ownedDeletedRefs tx in
  if Nat.eqb (length targets) 0 then Some (L, true)
  else if existsb (fun id => negb (childCount (l_tracker L) id =? 0)) targets then Some (L, false)
  else match l_coins L with
  | None => Some (L, true)
  | Some _ => L' ← settleAll L targets (txGasCoinID tx); Some (L', true)
  end.

(** ** Execution sharding *)

Definition shouldExecute atx tx : bool :=
  match isHolder E with
  | None => true
  | Some holds =>
      existsb (fun r => match hash32 (ref_id r) with
                        | Some id => holds id (default 0 (buildReplicationMap atx !! id))
                        | None => false
                        end) (tx_MutableRefs tx)
      || Nat.eqb (length (tx_MutableRefs tx)) 0
  end.

(** ** Validator registration *)

(** [verifiedRegistrationBLSKey] (registration_pop.go). *)
Definition verifiedRegistrationBLSKey (sender : Hash) (blsPubkey pop : bytes) : bytes * bool :=
  if negb (Nat.eqb (length blsPubkey) 48) then (zeroBLS, true)
  else if negb (VerifyKeyPossession (crypto E) pop sender blsPubkey) then (zeroBLS, false)
  else (blsPubkey, true).

Definition setRewardCoinFromArgs (vs : ValidatorSet) tx (pk : Hash) : option ValidatorSet :=
  coin ← DecodeRegisterValidatorRewardCoin (tx_Args tx);
  Some match coin with
       | Some coin => SetRewardCoin vs pk coin
       | None => match txGasCoinID tx with Some coin => SetRewardCoin vs pk coin | None => vs end
       end.

Definition set_vals d (vs : ValidatorSet) : DAG M := set_ledger d (set_validators (d_ledger d) vs).

Definition addEpochAddition d (pk : Hash) : DAG M :=
  let e := d_epochs d in
  set_epochs d (mkEpochs (currentEpoch e) (epochHolders e) (prevEpochHolders e) (nextEpochHolders e)
    (eligibleHolders e) (prevEligibleHolders e) (nextEligibleHolders e) (epochMirror e)
    (pendingRemovals e) (epochAdditions e ++ [pk])).

Definition addPendingRemoval d (pk : Hash) : DAG M :=
  let e := d_epochs d in
  set_epochs d (mkEpochs (currentEpoch e) (epochHolders e) (prevEpochHolders e) (nextEpochHolders e)
    (eligibleHolders e) (prevEligibleHolders e) (nextEligibleHolders e) (epochMirror e)
    ({[ pk ]} ∪ pendingRemovals e) (epochAdditions e)).

(** [handleRegisterValidator]: [false] fails the whole transaction. *)
Definition handleRegisterValidator d tx (commitRound : Z) : option (DAG M * bool) :=
  if negb (isRegisterValidatorTx tx) then Some (d, true)
  else match hash32 (tx_Sender tx) with
  | None => Some (d, true)
  | Some pk =>
      args ← DecodeRegisterValidatorArgs (tx_Args tx);
      let '(quicAddr, blsBytes, pop) := args in
      let '(blsPubkey, proven) := verifiedRegistrationBLSKey pk blsBytes pop in
      if negb proven then Some (d, false)
      else
        let wasCommittedMember := bool_decide (pk ∈ committedMembers (d_regime d)) in
        let d := set_vals d (fst (Add (l_validators (d_ledger d)) pk quicAddr blsPubkey)) in
        let d := recordCommittedMember c d pk commitRound in
        vs ← setRewardCoinFromArgs (l_validators (d_ledger d)) tx pk;
        let d := set_vals d vs in
        let d := if negb wasCommittedMember && (0 <? epochLength c) then addEpochAddition d pk else d in
        let d := if (0 <? minValidators c) && (minValidators c <=? Len (l_validators (d_ledger d)))
                 then enterTransition d commitRound else d in
        Some (d, true)
  end.

Definition handleDeregisterValidator d tx : DAG M :=
  if negb (isDeregisterValidatorTx tx) then d
  else match hash32 (tx_Sender tx) with
  | None => d
  | Some pk => addPendingRemoval d pk
  end.

(** ** One transaction *)

Definition emitTx d tx (success : bool) (reason : FailReason) : DAG M :=
  set_ledger d (emitTransaction (d_ledger d) tx success reason).

(** [proofVerdict]: with the round's verdicts, or inline. *)
Definition proofVerdict atx (commitRound : Z) (verdicts : option (list bool)) : bool * option (list bool) :=
  let hasProofs := negb (Nat.eqb (length (atx_Proofs atx)) 0) in
  match verdicts with
  | Some errs => let '(v, errs) := nextVerdict errs hasProofs in (v, Some errs)
  | None =>
      match verifyATXProofs E with
      | Some verify => (if hasProofs then verify atx commitRound else true, None)
      | None => (true, None)
      end
  end.

(** The tail of [executeTx] from the ownership check on. *)
Definition executePodCall d atx tx (commitRound : Z) (feeSplit : FeeSplit) (storageDeposit : Z)
    : option (DAG M * FeeSplit) :=
  if negb (validateMutableRefOwnership (d_ledger d) atx tx) then
    Some (emitTx d tx false FailOwner, feeSplit)
  else
    r ← handleRegisterValidator d tx commitRound;
    let '(d, registered) := r in
    if negb registered then Some (emitTx d tx false FailAuth, feeSplit)
    else
      let d := handleDeregisterValidator d tx in
      let '(L, bonded) := handleBond (d_ledger d) tx in
      let d := set_ledger d L in
      let d := if bonded then refreezeGenesisRegime c d commitRound else d in
      let L := fst (handleUnbond (d_ledger d) tx) in
      let L := fst (handleDelegate L tx) in
      let L := fst (handleUndelegate L tx) in
      settled ← settleDeclaredDeletions L tx;
      let '(L, ok) := settled in
      let d := set_ledger d L in
      if negb ok then Some (emitTx d tx false FailOps, feeSplit)
      else if Nat.eqb (length (tx_CreatedObjectsReplication tx)) 0 && negb (shouldExecute atx tx) then
        Some (emitTx d tx true FailNone, feeSplit)
      else
        let '(L, success) := match executor E with
                             | Some run => run (d_ledger d) atx
                             | None => (d_ledger d, true)
                             end in
        let d := set_ledger d L in
        let feeSplit := if success then feeSplit else poolUnlockedStorage feeSplit storageDeposit in
        Some (emitTx d tx success (if success then FailNone else FailRevert), feeSplit).

(** The gates before any fee is charged: [None] when they all pass. *)
Definition preCheck tx (commitRound : Z) (proofOk : bool) : option FailReason :=
  if negb proofOk then Some FailAuth
  else if negb (verifyTxAuthenticity (crypto E) tx) then Some FailAuth
  else if negb (ValidateShape tx) then Some FailOps
  else if negb (sponsoredTxStillValid tx commitRound) then Some FailExpired
  else None.

(** The commit-once guard: the marked ledger, [None] for a duplicate. *)
Definition commitOnce L tx : option (Ledger M) :=
  match txCommitHash tx with
  | None => Some L
  | Some txh =>
      if wasCommitted (l_tracker L) txh then None
      else Some (set_tracker L (markCommitted (l_tracker L) txh))
  end.

Definition executeTx d atx (commitRound : Z) (verdicts : option (list bool))
    : option (DAG M * FeeSplit * option (list bool)) :=
  match atx_Transaction atx with
  | None => Some (d, noFees, verdicts)
  | Some tx =>
      let '(proofOk, verdicts) := proofVerdict atx commitRound verdicts in
      match preCheck tx commitRound proofOk with
      | Some reason => Some (emitTx d tx false reason, noFees, verdicts)
      | None =>
          match commitOnce (d_ledger d) tx with
          | None => Some (d, noFees, verdicts)
          | Some L =>
              let '(t, versionsOk) := checkAndUpdate (l_tracker L) tx in
              let d := set_ledger d (set_tracker L t) in
              if negb versionsOk then Some (emitTx d tx false FailVersion, noFees, verdicts)
              else
                fees ← deductFees (d_ledger d) tx atx;
                let '(L, feeSplit, storageDeposit, proceed) := fees in
                let d := set_ledger d L in
                if negb proceed then Some (emitTx d tx false FailFee, feeSplit, verdicts)
                else if negb (Nat.eqb (length (tx_Operations tx)) 0) then
                  r ← commitDeclaredOps E c (d_ledger d) tx commitRound feeSplit storageDeposit;
                  Some (set_ledger d (fst r), snd r, verdicts)
                else
                  r ← executePodCall d atx tx commitRound feeSplit storageDeposit;
                  Some (fst r, snd r, verdicts)
          end
      end
  end.

(** ** A vertex and a batch *)

Definition addSplit (a b : FeeSplit) : FeeSplit :=
  mkFeeSplit (fs_Total a +w fs_Total b) (fs_Burned a +w fs_Burned b) (fs_Epoch a +w fs_Epoch b).

Fixpoint processAtxs d (atxs : list AttestedTransaction) (commitRound : Z) (verdicts : option (list bool))
    (fees : FeeSplit) : option (DAG M * FeeSplit * option (list bool)) :=
  match atxs with
  | [] => Some (d, fees, verdicts)
  | atx :: atxs =>
      r ← executeTx d atx commitRound verdicts;
      let '(d, txFees, verdicts) := r in
      processAtxs d atxs commitRound verdicts (addSplit fees txFees)
  end.

(** [processTransactions]. *)
Definition processTransactions d (v : Vertex) (commitRound : Z) (verdicts : option (list bool)) :=
  processAtxs d (v_Transactions v) commitRound verdicts noFees.

(** [creditLiveness] with [roundsProducedBucket]. *)
Definition creditLiveness d (epoch : Z) (v : Vertex) (credited : gset (Hash * Z)) : DAG M * gset (Hash * Z) :=
  let key := (extractProducer v, v_Round v) in
  if bool_decide (key ∈ credited) then (d, credited)
  else
    let w := d_rewards d in
    let bucket := default ∅ (epochRoundsProduced w !! epoch) in
    let bucket := <[fst key := default 0 (bucket !! fst key) +w 1]> bucket in
    (set_rewards d (mkRewards (epochFees w) (<[epoch := bucket]> (epochRoundsProduced w)) (issuanceRateMicro w)),
     {[ key ]} ∪ credited).

Definition poolFees d (epoch : Z) (amount : Z) : DAG M :=
  let w := d_rewards d in
  set_rewards d (mkRewards (<[epoch := safeAdd (default 0 (epochFees w !! epoch)) amount]> (epochFees w))
    (epochRoundsProduced w) (issuanceRateMicro w)).

(** [collectRoundProofs]: the proof-bearing transactions in committed order. *)
Definition collectRoundProofs (batch : list Vertex) : list AttestedTransaction :=
  filter (fun atx => bool_decide (is_Some (atx_Transaction atx)) && negb (Nat.eqb (length (atx_Proofs atx)) 0) = true)
         (concat (map v_Transactions batch)).

Definition verifyRoundProofs (round : Z) (batch : list Vertex) : option (list bool) :=
  match verifyATXProofsBatch E with
  | None => None
  | Some verify =>
      let atxs := collectRoundProofs batch in
      Some (if Nat.eqb (length atxs) 0 then [] else verify atxs round)
  end.

(** The loop of [applyBatch] over the stored vertices of the batch.  Fees and
    liveness go to the epoch of the vertex's own round. *)
Fixpoint applyVertices d (batch : list Vertex) (commitRound : Z) (verdicts : option (list bool))
    (credited : gset (Hash * Z)) : option (DAG M) :=
  match batch with
  | [] => Some d
  | v :: batch =>
      let epoch := commitEpochForRound c (v_Round v) in
      let '(d, credited) := creditLiveness d epoch v credited in
      r ← processTransactions d v commitRound verdicts;
      let '(d, fees, verdicts) := r in
      let d := poolFees d epoch (fs_Epoch fees) in
      let d := recordProducedMember d (extractProducer v) in
      applyVertices d batch commitRound verdicts credited
  end.

Definition applyBatch d (batch : list Vertex) (commitRound : Z) : option (DAG M) :=
  applyVertices d batch commitRound (verifyRoundProofs commitRound batch) ∅.

End Commit.

(** ** Up to the fees *)

(** The tail of [executeTx] from the deduction of fees on. *)
Definition fromFees {M} `{Pebble M} (E : Env M) (c : Config) (d : DAG M) atx tx (commitRound : Z) (verdicts : option (list bool))
    : option (DAG M * FeeSplit * option (list bool)) :=
  fees ← deductFees E c (d_ledger d) tx atx;
  let '(L, feeSplit, storageDeposit, proceed) := fees in
  let d := set_ledger d L in
  if negb proceed then Some (emitTx d tx false FailFee, feeSplit, verdicts)
  else if negb (Nat.eqb (length (tx_Operations tx)) 0) then
    r ← commitDeclaredOps E c (d_ledger d) tx commitRound feeSplit storageDeposit;
    Some (set_ledger d (fst r), snd r, verdicts)
  else
    r ← executePodCall E c d atx tx commitRound feeSplit storageDeposit;
    Some (fst r, snd r, verdicts).

(** The state in which fees are taken: the transaction marked as committed, the
    versions of its mutable references advanced. *)
Definition readyToPay {M} `{Pebble M} (d : DAG M) tx hash : DAG M :=
  set_ledger d (set_tracker (d_ledger d) (incrementMutableObjects (markCommitted (l_tracker (d_ledger d)) hash) tx)).

(** A transaction that passes the checks before the commit mark, that was not committed
    before and whose references carry the tracked versions is charged. *)
Lemma passes_to_fees {M} `{Pebble M} (E : Env M) c (d : DAG M) atx tx round hash verdicts verdicts' ok :
  atx_Transaction atx = Some tx -> txCommitHash tx = Some hash -> proofVerdict E atx round verdicts = (ok, verdicts') -> preCheck E c tx round ok = None ->
  wasCommitted (l_tracker (d_ledger d)) hash = false -> checkVersions (l_tracker (d_ledger d)) tx = true ->
  executeTx E c d atx round verdicts = fromFees E c (readyToPay d tx hash) atx tx round verdicts'.
Proof.
  intros Ht Hh Hv Hp Hw Hc. unfold executeTx. rewrite Ht, Hv, Hp. unfold commitOnce. rewrite Hh, Hw. unfold checkAndUpdate. cbn [set_tracker l_tracker].
  rewrite checkVersions_mark, Hc. cbn [negb]. destruct d as [[] ? ? ?]. reflexivity.
Qed.
