(* ===== verification/Supply.v ===== *)
(** * The supply identity across a transaction

    Theorems about the handlers of Commit.v: what each of them does to the
    identity coins + bonded stake + deposits + fees in flight = supply, and the
    commit-once guarantee.  Commit.v holds the definitions. *)

From S2P Require Import Prelude Types Fees Validators Stake Storage Tracker Domains Staged Coins Ledger Ops Ingress Dag Commit.

(** ** Bonded stake *)

Definition stake_ok (v : ValidatorInfo) : Prop :=
  Jailed v = false /\ 0 <= SelfStake v /\ 0 <= DelegatedTotal v /\ SelfStake v + DelegatedTotal v <= max64.

Record stakeInv (vs : ValidatorSet) : Prop := {
  si_ok : vs_ok vs;
  si_stakes : Forall stake_ok (validators vs);
}.

Lemma EffectiveStake_exact v : stake_ok v -> EffectiveStake v = SelfStake v + DelegatedTotal v.
Proof.
  intros (Hj & Hs & Hd & Hle). unfold EffectiveStake. rewrite Hj.
  rewrite safeAdd_min by u64_lia. lia.
Qed.

Lemma Get_index vs pk v :
  vs_ok vs -> Validators.Get vs pk = Some v ->
  exists i, index vs !! pk = Some i /\ validators vs !! i = Some v.
Proof.
  intros Hok. unfold Validators.Get. destruct (index vs !! pk) as [i|] eqn:Ei; [|done]. eauto.
Qed.

Lemma Get_stake_ok vs pk v : stakeInv vs -> Validators.Get vs pk = Some v -> stake_ok v.
Proof.
  intros [Hok Hs] Hg. destruct (Get_index vs pk v Hok Hg) as (i & _ & Hi).
  rewrite Forall_lookup in Hs. by apply (Hs i).
Qed.

Lemma bonded_nonneg vs : stakeInv vs -> 0 <= bonded vs.
Proof.
  intros [_ Hs]. unfold bonded, bondedSum. apply sumZ_map_nonneg. intros v Hv.
  rewrite Forall_forall in Hs. rewrite EffectiveStake_exact by auto. destruct (Hs v Hv) as (_ & ? & ? & _). lia.
Qed.

Lemma bonded_ge vs pk v : stakeInv vs -> Validators.Get vs pk = Some v -> SelfStake v + DelegatedTotal v <= bonded vs.
Proof.
  intros Hi Hg. pose proof (Get_stake_ok vs pk v Hi Hg) as Hv. destruct Hi as [Hok Hs].
  destruct (Get_index vs pk v Hok Hg) as (i & _ & Hl). rewrite <- (EffectiveStake_exact v Hv).
  unfold bonded, bondedSum. apply (sumZ_elem_le EffectiveStake); [|by apply list_elem_of_lookup_2 in Hl].
  intros y Hy. rewrite Forall_forall in Hs. rewrite EffectiveStake_exact by auto.
  destruct (Hs y Hy) as (_ & ? & ? & _). lia.
Qed.

(** One validator rewritten in place. *)
Lemma stakeInv_update vs pk f v :
  stakeInv vs -> Validators.Get vs pk = Some v -> (forall w, Pubkey (f w) = Pubkey w) -> stake_ok (f v) ->
  stakeInv (fst (updateAt vs pk f)) /\
  bonded (fst (updateAt vs pk f)) =
    bonded vs - (SelfStake v + DelegatedTotal v) + (SelfStake (f v) + DelegatedTotal (f v)).
Proof.
  intros Hi Hg Hf Hfv. pose proof (Get_stake_ok vs pk v Hi Hg) as Hv. destruct Hi as [Hok Hs].
  destruct (Get_index vs pk v Hok Hg) as (i & Hix & Hl). split; [split|].
  - by apply updateAt_ok.
  - unfold updateAt. rewrite Hix. simpl. apply Forall_lookup. intros j w. rewrite list_lookup_alter.
    rewrite Forall_lookup in Hs. case_decide; [|apply Hs]. subst j. rewrite Hl. simpl. by intros [= <-].
  - unfold bonded, bondedSum, updateAt. rewrite Hix. simpl. rewrite (sumZ_alter _ _ _ _ v Hl).
    rewrite !EffectiveStake_exact by done. done.
Qed.

Lemma updateAt_missing vs pk f : vs_ok vs -> Validators.Get vs pk = None -> fst (updateAt vs pk f) = vs.
Proof.
  intros Hok Hg. unfold updateAt, Validators.Get in *. destruct (index vs !! pk) as [i|] eqn:Ei; [|done].
  destruct (vs_ok_lookup _ _ _ Hok Ei) as (v & Hv & _). congruence.
Qed.

(** Registering or designating a coin moves no stake. *)
Lemma stakeInv_neutral vs pk f :
  stakeInv vs -> (forall w, Pubkey (f w) = Pubkey w) ->
  (forall w, SelfStake (f w) = SelfStake w /\ DelegatedTotal (f w) = DelegatedTotal w /\ Jailed (f w) = Jailed w) ->
  stakeInv (fst (updateAt vs pk f)) /\ bonded (fst (updateAt vs pk f)) = bonded vs.
Proof.
  intros Hi Hf Hn. destruct (Validators.Get vs pk) as [v|] eqn:Hg.
  - destruct (Hn v) as (N1 & N2 & N3). destruct (stakeInv_update vs pk f v Hi Hg Hf) as [H1 H2].
    + pose proof (Get_stake_ok vs pk v Hi Hg) as Hv. unfold stake_ok in *. by rewrite N1, N2, N3.
    + split; [done|]. lia.
  - by rewrite updateAt_missing by (done || apply Hi).
Qed.

Lemma stakeInv_Add vs pk addr bls :
  stakeInv vs -> stakeInv (fst (Add vs pk addr bls)) /\ bonded (fst (Add vs pk addr bls)) = bonded vs.
Proof.
  intros Hi. destruct (index vs !! pk) as [i|] eqn:Ei.
  - rewrite Add_known by eauto. apply stakeInv_neutral; [done|apply fillUnset_Pubkey|].
    intros w. unfold fillUnset. by split_ifs.
  - destruct Hi as [Hok Hs]. unfold Add. rewrite Ei. cbn [fst]. split; [split|].
    + apply (append_ok vs (newInfo pk addr bls)); done.
    + cbn [validators]. apply Forall_app. split; [done|]. constructor; [|done].
      unfold stake_ok, newInfo. simpl. lia.
    + unfold bonded, bondedSum. cbn [validators]. rewrite map_app, sumZ_app.
      assert (E0 : EffectiveStake (newInfo pk addr bls) = 0) by reflexivity. simpl. rewrite E0. lia.
Qed.

(** ** A balanced ledger

    [K] is the set of coins in circulation, [fl] the fees in flight. *)

Record Bal {M} `{Pebble M} (K : gset Hash) (L : Ledger M) (T : gmap Hash Entry) (fl : Z) : Prop := {
  ba_rep : Rep (l_tracker L) T;
  ba_stake : stakeInv (l_validators L);
  ba_coins : exists st, l_coins L = Some st /\ ledger_ok st (l_validators L) T /\
               slack st (l_validators L) T = fl /\ coins_ok K st;
}.

Lemma safeAdd_range a b : is_u64 (safeAdd a b).
Proof. unfold safeAdd. cbv zeta. destruct (_ <? _); [unfold is_u64; lia|apply u64_range]. Qed.

Lemma addDeposits_range reps n p : is_u64 (addDeposits 0 reps n p).
Proof.
  unfold addDeposits. induction reps as [|r reps _] using rev_ind; [simpl; u64_lia|].
  rewrite foldl_app. simpl. apply safeAdd_range.
Qed.

Lemma calculateTxFee_range {M} (E : Env M) vs p tx atx : is_u64 (calculateTxFee E vs p tx atx).
Proof.
  unfold calculateTxFee. cbv zeta. destruct (ReplicationRatio _ _ _ _). apply safeAdd_range.
Qed.

(** Version bumps move no deposit and keep the forest. *)
Lemma increment_rep {M} `{Pebble M} (refs : list TxRef) (t : M) T :
  Rep t T -> forest_ok T ->
  exists T', Rep (foldl (fun ot r => match hash32 (ref_id r) with
                          | Some id => bumpObject ot id | None => ot end) t refs) T' /\
    deposits T' = deposits T /\ forest_ok T' /\ (size T' <= size T + length refs)%nat /\
    dom T' ⊆ dom T ∪ list_to_set (omap mutableRefID refs).
Proof.
  revert t T. induction refs as [|r refs IH]; intros t T HR HF; simpl; [exists T; split_and!; auto; [lia|set_solver]|].
  unfold mutableRefID at 1. destruct (hash32 (ref_id r)) as [id|].
  - assert (Hdom : dom (a_bump T id) ⊆ {[id]} ∪ dom T).
    { intros x. rewrite elem_of_union, elem_of_singleton, !elem_of_dom, <- !a_edge_Some.
      unfold a_bump. rewrite a_edge_track. case_decide; [by left|by right]. }
    destruct (IH (bumpObject t id) (a_bump T id) (Rep_bump t T id HR) (forest_bump T id HF))
      as (T' & H1 & H2 & H3 & H4 & H5). exists T'. split_and!; auto; [by rewrite H2, deposits_bump| |set_solver].
    assert (size (a_bump T id) <= S (size T))%nat; [|lia].
    rewrite <- !(size_dom (D := gset Hash)). etrans; [apply (subseteq_size _ _ Hdom)|].
    rewrite size_union_alt, size_singleton. pose proof (subseteq_size (dom T ∖ {[id]}) (dom T) ltac:(set_solver)). lia.
  - destruct (IH t T HR HF) as (T' & H1 & H2 & H3 & H4 & H5). exists T'. split_and!; auto. lia.
Qed.

Lemma dom_a_delete T id : dom (a_delete T id) ⊆ dom T.
Proof.
  intros x. rewrite !elem_of_dom, <- !a_edge_Some, a_edge_delete. case_decide; [by intros []|done].
Qed.

Section Stages.
Context {M : Type} `{Pebble M} (E : Env M) (c : Config) (K : gset Hash).
Context (params : FeeParams) (Hparams : feeParams c = Some params)
  (Hbps : 0 <= StorageRefundBPS params <= bpsMax) (Hburn : BurnBPS params = 0).
Implicit Types (L : Ledger M) (T : gmap Hash Entry) (tx : Transaction).

(** A ledger that keeps its tracker, counters and stakes keeps its balance. *)
Lemma Bal_same L L' T fl :
  Bal K L T fl -> l_tracker L' = l_tracker L -> l_coins L' = l_coins L ->
  l_validators L' = l_validators L -> Bal K L' T fl.
Proof using Type. intros [H1 H2 H3] Ht Hc Hv. split; by rewrite ?Ht, ?Hc, ?Hv. Qed.

(** Tokens moved between a coin, the stakes and the pool. *)
Lemma Bal_move L T fl st' vs' fl' :
  Bal K L T fl -> stakeInv vs' -> coins_ok K st' ->
  cs_supply st' = (match l_coins L with Some st => cs_supply st | None => 0 end) ->
  cs_coins st' + bonded vs' + fl' =
    (match l_coins L with Some st => cs_coins st | None => 0 end) + bonded (l_validators L) + fl ->
  0 <= fl' -> 0 <= cs_coins st' ->
  Bal K (set_validators (set_coins L (Some st')) vs') T fl'.
Proof using Type.
  intros [HR HS (st & Hst & Hok & Hfl & Hco)] Hs' Hc' Hsup Hsum Hf Hcn.
  rewrite Hst in *. cbv iota in Hsup, Hsum.
  pose proof (bonded_nonneg vs' Hs'). destruct Hok as [O1 O2 O3 O4]. unfold slack in *.
  split; [done|done|]. exists st'. split; [done|].
  assert (Hsl : slack st' vs' T = fl') by (unfold slack; lia).
  split_and!; auto. split; [by rewrite Hsup|done|done|].
  change (0 <= slack st' vs' T). lia.
Qed.

(** The outcome of the fee stage: what left the coin is pooled or withheld. *)
Definition feesOutcome L T fl tx (r : option (Ledger M * FeeSplit * Z * bool)) : Prop :=
  exists L' split storage ok, r = Some (L', split, storage, ok) /\
    Bal K L' T (fl + fs_Epoch split + storage) /\ l_tracker L' = l_tracker L /\ l_domains L' = l_domains L /\
    l_validators L' = l_validators L /\ 0 <= fs_Epoch split /\ 0 <= storage /\
    fl + fs_Epoch split + storage <= max64 /\ (tx_CreatedObjectsReplication tx = [] -> storage = 0) /\
    (forall st st' x, l_coins L = Some st -> l_coins L' = Some st' -> x ∉ K -> GetObject st' x = GetObject st x).

Lemma deductFees_bal L T fl tx atx :
  Bal K L T fl -> (forall g, hash32 (tx_GasCoin tx) = Some g -> g ∈ K) ->
  feesOutcome L T fl tx (deductFees E c L tx atx).
Proof using Hparams Hburn.
  intros HB Hg. pose proof HB as [HR HS (st & Hst & Hok & Hfl & Hco)].
  assert (Hfm : 0 <= fl <= max64).
  { destruct Hok as [O1 O2 O3 O4]. pose proof (deposits_nonneg T (proj1 HR)). unfold slack in *. u64_lia. }
  unfold deductFees, mustFeeParams. rewrite Hst, Hparams. simpl.
  assert (Hkeep : forall b, feesOutcome L T fl tx (Some (L, noFees, 0, b))).
  { intros b. unfold feesOutcome. exists L, noFees, 0, b. simpl. rewrite !Z.add_0_r. split_and!; auto; [lia..|].
    intros s1 s2 x E1 E2. congruence. }
  destruct (hash32 (tx_GasCoin tx)) as [g|] eqn:Eg; [|apply Hkeep]. specialize (Hg g eq_refl).
  destruct (_ <? _); [apply Hkeep|]. destruct (negb (validateGasCoin _ _ _)); [apply Hkeep|].
  destruct (calculateTxFeeSplit E (l_validators L) params tx atx) as [consumed storage] eqn:Es.
  assert (Hcs : is_u64 consumed /\ is_u64 storage /\ consumed + storage <= max64 /\
    (tx_CreatedObjectsReplication tx = [] -> storage = 0)).
  { unfold calculateTxFeeSplit, extractCreatedObjectsReplication in Es. cbv zeta in Es.
    pose proof (calculateTxFee_range E (l_validators L) params tx atx) as Hf.
    pose proof (addDeposits_range (tx_CreatedObjectsReplication tx) (Len (l_validators L)) params) as Hd.
    assert (Hz : tx_CreatedObjectsReplication tx = [] ->
      addDeposits 0 (tx_CreatedObjectsReplication tx) (Len (l_validators L)) params = 0) by (by intros ->).
    set (full := calculateTxFee _ _ _ _ _) in *. set (sto := addDeposits _ _ _ _) in *.
    destruct (Z.ltb_spec full sto); injection Es as <- <-.
    - split_and!; try u64_lia. intros Hn. specialize (Hz Hn). u64_lia.
    - rewrite sub64_exact by u64_lia. split_and!; auto; u64_lia. }
  destruct Hcs as (Hc & Hs & Hsum & Hz). rewrite add64_exact by u64_lia.
  destruct (Z.eqb_spec (consumed + storage) 0); [apply Hkeep|].
  destruct (deductCoinFee_spec K st g (consumed + storage) Hco Hg ltac:(u64_lia))
    as (st' & -> & Hco' & Hsup & Hcoins & _ & _ & Hoth).
  assert (Hobj : forall s1 s2 x, l_coins L = Some s1 -> Some st' = Some s2 -> x ∉ K -> GetObject s2 x = GetObject s1 x).
  { intros s1 s2 x Es1 [= <-] Hx. rewrite Hst in Es1. injection Es1 as <-. apply Hoth. congruence. }
  pose proof (coins_ok_bounds K st g Hco Hg) as [Hbal Hcu].
  set (taken := Z.min (consumed + storage) (balanceOf st g)) in *.
  assert (Hmove : forall fl', fl' = fl + taken -> Bal K (set_coins L (Some st')) T fl').
  { intros fl' ->. apply (Bal_move L T fl st' (l_validators L)); rewrite ?Hst; auto; unfold taken in *; u64_lia. }
  destruct (Hmove _ eq_refl) as [_ _ (st2 & [= <-] & Hok2 & Hfl2 & _)].
  assert (Hcap : fl + taken <= max64).
  { destruct Hok2 as [O1 O2 O3 O4]. pose proof (deposits_nonneg T (proj1 HR)). unfold slack in *. cbn [l_validators set_coins] in *. u64_lia. }
  destruct (Z.leb_spec (consumed + storage) (balanceOf st g)) as [Hcov|Hcov].
  - eexists _, _, _, _. split; [done|]. rewrite SplitFee_zero_burn by done. cbn [fs_Epoch].
    assert (taken = consumed + storage) by (unfold taken; lia).
    split; [apply Hmove; lia|]. split_and!; auto; u64_lia.
  - eexists _, _, _, _. split; [done|]. cbn [fs_Epoch].
    assert (taken = balanceOf st g) by (unfold taken; lia).
    split; [apply Hmove; lia|]. split_and!; auto; u64_lia.
Qed.

(** A transaction that does not proceed withholds no deposit. *)
Lemma deductFees_abort L tx atx L' split storage :
  deductFees E c L tx atx = Some (L', split, storage, false) -> storage = 0.
Proof using Hparams.
  unfold deductFees, mustFeeParams. rewrite Hparams. destruct (l_coins L) as [st|]; [|done]. cbn.
  destruct (hash32 (tx_GasCoin tx)); [|by intros [= _ _ <- _]]. destruct (_ <? _); [by intros [= _ _ <-]|].
  destruct (negb _); [by intros [= _ _ <-]|]. destruct (calculateTxFeeSplit _ _ _ _ _) as [consumed sto].
  destruct (_ =? 0); [done|]. destruct (deductCoinFee _ _ _) as [st' [[deducted []]|]]; [done|by intros [= _ _ <-]..].
Qed.

(** Bounds every balanced ledger gives. *)
Lemma Bal_bounds L T fl :
  Bal K L T fl -> exists st, l_coins L = Some st /\ coins_ok K st /\ 0 <= cs_coins st /\ 0 <= fl /\
    0 <= bonded (l_validators L) /\ cs_coins st + bonded (l_validators L) + fl <= max64.
Proof using Type.
  intros [HR HS (st & Hst & [O1 O2 O3 O4] & Hfl & Hco)]. exists st.
  pose proof (deposits_nonneg T (proj1 HR)). unfold slack in *. split_and!; auto; u64_lia.
Qed.

(** A handler that keeps the tracker, the registry and the balance. *)
Definition keeps L T fl (L' : Ledger M) : Prop :=
  Bal K L' T fl /\ l_tracker L' = l_tracker L /\ l_domains L' = l_domains L.

Lemma keeps_refl L T fl : Bal K L T fl -> keeps L T fl L.
Proof using Type. by intros. Qed.

Lemma parseStakeTx_Some L tx m sender coin amount :
  wf_bytes (tx_Args tx) -> parseStakeTx L tx m = Some (sender, coin, amount) ->
  m tx = true /\ firstMutableRefID tx = Some coin /\ is_u64 amount /\ amount <> 0.
Proof using Type.
  intros Hw. unfold parseStakeTx. destruct (bool_decide (l_coins L = None) || negb (m tx)) eqn:Eb; [done|].
  destruct (hash32 (tx_Sender tx)) as [s0|]; [|done]. simpl.
  destruct (firstMutableRefID tx) as [c0|] eqn:Ec; [|done]. simpl. unfold decodeStakeAmount.
  destruct (Nat.ltb_spec (length (tx_Args tx)) 8); [done|]. simpl.
  destruct (Z.eqb_spec (le_dec (take 8 (tx_Args tx))) 0); [done|]. intros [= <- <- <-].
  zb. split_and!; auto. pose proof (le_dec_bound (take 8 (tx_Args tx)) ltac:(by apply Forall_take)) as Hb.
  rewrite length_take in Hb. replace (8 `min` length (tx_Args tx))%nat with 8%nat in Hb by lia.
  unfold is_u64. simpl in Hb. lia.
Qed.

Lemma handleBond_bal L T fl tx :
  Bal K L T fl -> wf_bytes (tx_Args tx) ->
  (isBondTx c tx = true -> forall coin, firstMutableRefID tx = Some coin -> coin ∈ K) ->
  keeps L T fl (fst (handleBond c L tx)).
Proof using Type.
  intros HB Hw HK. destruct (Bal_bounds L T fl HB) as (st & Hst & Hco & Hc0 & Hf0 & Hb0 & Hsum).
  unfold handleBond. rewrite Hst.
  destruct (parseStakeTx L tx (isBondTx c)) as [[[sender coin] amount]|] eqn:Ep; [|by apply keeps_refl].
  destruct (parseStakeTx_Some _ _ _ _ _ _ Hw Ep) as (Hm & Hfc & Ha & Hne).
  destruct (Validators.Get (l_validators L) sender) as [v|] eqn:Eg; [|by apply keeps_refl]. cbv zeta.
  destruct (_ <? _); [by apply keeps_refl|].
  destruct (strictDebit_spec K st coin amount Hco (HK Hm coin Hfc) Ha) as (st' & ok & -> & Hco' & Hsup & _ & Ht).
  destruct ok; [|by apply keeps_refl]. destruct (Ht eq_refl) as (Hle & Hcoins & _).
  pose proof (ba_stake _ _ _ _ HB) as HS. destruct (Get_stake_ok _ _ _ HS Eg) as (Hj & Hs0 & Hd0 & Hsd).
  pose proof (bonded_ge _ _ _ HS Eg) as Hbg.
  destruct (coins_ok_bounds K st coin Hco (HK Hm coin Hfc)) as [Hbb _].
  rewrite safeAdd_min by u64_lia. rewrite Z.min_l by u64_lia.
  destruct (stakeInv_update (l_validators L) sender (set_SelfStake (SelfStake v + amount)) v HS Eg) as [HS' Hb'];
    [done|split_and!; simpl; auto; u64_lia|].
  split; [|done]. apply (Bal_move L T fl); rewrite ?Hst; auto; [|lia]. unfold SetSelfStake. rewrite Hb'. simpl. lia.
Qed.

Lemma handleUnbond_bal L T fl tx :
  Bal K L T fl -> wf_bytes (tx_Args tx) ->
  (isUnbondTx c tx = true -> forall coin, firstMutableRefID tx = Some coin -> coin ∈ K) ->
  keeps L T fl (fst (handleUnbond c L tx)).
Proof using Type.
  intros HB Hw HK. destruct (Bal_bounds L T fl HB) as (st & Hst & Hco & Hc0 & Hf0 & Hb0 & Hsum).
  unfold handleUnbond. rewrite Hst.
  destruct (parseStakeTx L tx (isUnbondTx c)) as [[[sender coin] amount]|] eqn:Ep; [|by apply keeps_refl].
  destruct (parseStakeTx_Some _ _ _ _ _ _ Hw Ep) as (Hm & Hfc & Ha & Hne).
  destruct (Validators.Get (l_validators L) sender) as [v|] eqn:Eg; [|by apply keeps_refl].
  destruct (Z.ltb_spec (SelfStake v) amount) as [|Hle]; [by apply keeps_refl|]. cbv zeta.
  destruct ((0 <? minStake c) && _ && _); [by apply keeps_refl|].
  pose proof (ba_stake _ _ _ _ HB) as HS. destruct (Get_stake_ok _ _ _ HS Eg) as (Hj & Hs0 & Hd0 & Hsd).
  pose proof (bonded_ge _ _ _ HS Eg) as Hbg.
  destruct (creditCoin_spec K st coin amount Hco (HK Hm coin Hfc) Ha) as (st' & -> & Hco' & Hsup & Hcoins & _); [lia|].
  rewrite sub64_exact by u64_lia.
  destruct (stakeInv_update (l_validators L) sender (set_SelfStake (SelfStake v - amount)) v HS Eg) as [HS' Hb'];
    [done|split_and!; simpl; auto; u64_lia|].
  split; [|done]. apply (Bal_move L T fl); rewrite ?Hst; auto; [|u64_lia]. unfold SetSelfStake. rewrite Hb'. simpl. lia.
Qed.

(** Objects outside the coins may come and go. *)
Lemma coins_ok_objects st m :
  coins_ok K st -> (forall x, x ∈ K -> m !! x = cs_objects st !! x) -> coins_ok K (set_objects st m).
Proof using Type.
  intros [Hc Hs Hb] Hm.
  assert (Hg : forall x, x ∈ K -> GetObject (set_objects st m) x = GetObject st x) by (intros; by apply Hm).
  split; [|simpl; rewrite Hs|done].
  - intros x Hx. destruct (Hc x Hx) as (o & Ho & Hw). exists o. by rewrite Hg.
  - symmetry. apply setSum_ext. intros x Hx. unfold balanceOf. by rewrite Hg.
Qed.

Context (Hpos : forall a b, length (DelegationID (crypto E) a b) = 32%nat /\ DelegationID (crypto E) a b ∉ K).

Lemma parseDelegateTx_Some L tx m w d coin v amount :
  wf_bytes (tx_Args tx) -> parseDelegateTx L tx m w = Some (d, coin, v, amount) ->
  m tx = true /\ firstMutableRefID tx = Some coin /\ is_u64 amount.
Proof using Type.
  intros Hw. unfold parseDelegateTx. destruct (bool_decide (l_coins L = None) || negb (m tx)) eqn:Eb; [done|].
  destruct (hash32 (tx_Sender tx)) as [s0|]; [|done]. simpl.
  destruct (firstMutableRefID tx) as [c0|] eqn:Ec; [|done]. simpl. unfold decodeDelegateArgs.
  destruct (Nat.ltb (length (tx_Args tx)) _) eqn:El; [done|]. simpl.
  destruct (w && _); [done|]. intros [= <- <- <- <-]. zb. split_and!; auto.
  destruct w; [|u64_lia]. apply Nat.ltb_ge in El.
  pose proof (le_dec_bound (slice 32 8 (tx_Args tx)) ltac:(by apply Forall_take, Forall_drop)) as Hb.
  unfold slice in Hb at 3. rewrite length_take, length_drop in Hb.
  replace (8 `min` (length (tx_Args tx) - 32))%nat with 8%nat in Hb by lia. unfold is_u64. simpl in Hb. lia.
Qed.

Lemma handleDelegate_bal L T fl tx :
  Bal K L T fl -> wf_bytes (tx_Args tx) ->
  (isDelegateTx c tx = true -> forall coin, firstMutableRefID tx = Some coin -> coin ∈ K) ->
  keeps L T fl (fst (handleDelegate E c L tx)).
Proof using Hpos.
  intros HB Hw HK. destruct (Bal_bounds L T fl HB) as (st & Hst & Hco & Hc0 & Hf0 & Hb0 & Hsum).
  unfold handleDelegate. rewrite Hst.
  destruct (parseDelegateTx L tx (isDelegateTx c) true) as [[[[del coin] val] amount]|] eqn:Ep; [|by apply keeps_refl].
  destruct (parseDelegateTx_Some _ _ _ _ _ _ _ _ Hw Ep) as (Hm & Hfc & Ha).
  destruct (Validators.Get (l_validators L) val) as [v|] eqn:Eg; [|by apply keeps_refl].
  destruct (Jailed v) eqn:Ej; [by apply keeps_refl|].
  destruct (strictDebit_spec K st coin amount Hco (HK Hm coin Hfc) Ha) as (st' & ok & -> & Hco' & Hsup & _ & Ht).
  destruct ok; [|by apply keeps_refl]. destruct (Ht eq_refl) as (Hle & Hcoins & _). cbv zeta.
  pose proof (ba_stake _ _ _ _ HB) as HS. destruct (Get_stake_ok _ _ _ HS Eg) as (Hj & Hs0 & Hd0 & Hsd).
  pose proof (bonded_ge _ _ _ HS Eg) as Hbg.
  destruct (coins_ok_bounds K st coin Hco (HK Hm coin Hfc)) as [Hbb _].
  assert (Hadd : DelegatedTotal v +w amount = DelegatedTotal v + amount) by (apply add64_exact; u64_lia).
  destruct (stakeInv_update (l_validators L) val (addDelegated amount) v HS Eg) as [HS' Hb'].
  { done. }
  { unfold addDelegated. rewrite Hadd. split_and!; simpl; auto; u64_lia. }
  split; [|done]. apply (Bal_move L T fl); rewrite ?Hst; auto.
  - apply coins_ok_objects; [done|]. intros x Hx. rewrite lookup_insert_ne; [done|].
    destruct (Hpos del val) as [Hl Hn]. unfold extractObjectID, buildDelegationObject. cbn [obj_id].
    unfold hash32. rewrite decide_True by done. simpl. congruence.
  - unfold AddDelegated. rewrite Hb'. unfold addDelegated. rewrite Hadd. cbn. lia.
  - cbn. lia.
Qed.

(** The position's principal is part of a known validator's delegated total. *)
Definition backed L : Prop :=
  forall st del val amount, l_coins L = Some st ->
    readDelegationAmount st (DelegationID (crypto E) del val) val = Some amount ->
    exists v, Validators.Get (l_validators L) val = Some v /\ 0 <= amount <= DelegatedTotal v.

Lemma handleUndelegate_bal L T fl tx :
  Bal K L T fl -> wf_bytes (tx_Args tx) -> (isUndelegateTx c tx = true -> backed L) ->
  (isUndelegateTx c tx = true -> forall coin, firstMutableRefID tx = Some coin -> coin ∈ K) ->
  keeps L T fl (fst (handleUndelegate E c L tx)).
Proof using Hpos.
  intros HB Hw Hbk HK. destruct (Bal_bounds L T fl HB) as (st & Hst & Hco & Hc0 & Hf0 & Hb0 & Hsum).
  unfold handleUndelegate. rewrite Hst.
  destruct (parseDelegateTx L tx (isUndelegateTx c) false) as [[[[del coin] val] amt]|] eqn:Ep; [|by apply keeps_refl].
  destruct (parseDelegateTx_Some _ _ _ _ _ _ _ _ Hw Ep) as (Hm & Hfc & _). cbv zeta.
  destruct (readDelegationAmount st (DelegationID (crypto E) del val) val) as [amount|] eqn:Er; [|by apply keeps_refl].
  destruct (Hbk Hm st del val amount Hst Er) as (v & Eg & Ha).
  pose proof (ba_stake _ _ _ _ HB) as HS. destruct (Get_stake_ok _ _ _ HS Eg) as (Hj & Hs0 & Hd0 & Hsd).
  pose proof (bonded_ge _ _ _ HS Eg) as Hbg.
  destruct (creditCoin_spec K st coin amount Hco (HK Hm coin Hfc)) as (st' & -> & Hco' & Hsup & Hcoins & _); [u64_lia|lia|].
  assert (Hsub : subDelegated amount v = set_DelegatedTotal (DelegatedTotal v - amount) v).
  { unfold subDelegated. destruct (Z.ltb_spec (DelegatedTotal v) amount); [lia|]. by rewrite sub64_exact by u64_lia. }
  destruct (stakeInv_update (l_validators L) val (subDelegated amount) v HS Eg) as [HS' Hb'].
  { apply subDelegated_Pubkey. }
  { rewrite Hsub. split_and!; simpl; auto; u64_lia. }
  split; [|done]. apply (Bal_move L T fl); rewrite ?Hst; auto.
  - apply coins_ok_objects; [done|]. intros x Hx. rewrite lookup_delete_ne; [done|].
    destruct (Hpos del val) as [_ Hn]. congruence.
  - unfold SubDelegated. rewrite Hb', Hsub. cbn. lia.
  - cbn. lia.
Qed.

Lemma coins_ok_supply st v : coins_ok K st -> coins_ok K (SetTotalSupply st v).
Proof using Type. by intros [H1 H2 H3]. Qed.

Lemma settleDeletion_bal L T fl id gas hasGas :
  Bal K L T fl -> (hasGas = true -> gas ∈ K) ->
  exists L' refund, settleDeletion c L id gas hasGas = Some (L', refund) /\
    Bal K L' (a_delete T id) fl /\ l_domains L' = l_domains L.
Proof using Hparams Hbps.
  intros HB HK. pose proof HB as [HR HS (st & Hst & Hok & Hfl & Hco)].
  destruct (settleDeletion_slack c L st params T id gas hasGas HR Hst Hparams Hbps Hok)
    as (L' & st' & refund & Hse & HR' & Hst' & Hv & Hd & Hsl & Hok' & _).
  exists L', refund. split; [done|]. split; [|done]. split; [done|by rewrite Hv|].
  exists st'. rewrite Hv. split_and!; auto; [congruence|].
  unfold settleDeletion in Hse. cbv zeta in Hse. destruct (_ =? 0).
  { injection Hse as <- <-. cbn [l_coins feed set_tracker] in Hst'. congruence. }
  unfold mustFeeParams in Hse. rewrite Hparams in Hse. simpl in Hse. rewrite Hst in Hse. simpl in Hse.
  destruct (negb hasGas || _) eqn:Eb.
  { injection Hse as <- <-. cbn [l_coins set_coins] in Hst'. injection Hst' as <-. by apply coins_ok_supply. }
  set (rf := (_ *w _) / bpsMax) in *. destruct (creditCoin st gas rf) as [st1 ok] eqn:Ec.
  destruct ok; injection Hse as <- <-; cbn [l_coins set_coins] in Hst'; injection Hst' as <-; apply coins_ok_supply;
    [|done].
  apply orb_false_iff in Eb as [Eg _]. apply negb_false_iff in Eg.
  destruct (Rep_reads _ T id HR) as (_ & _ & Hfe & _).
  assert (Hu : is_u64 (getFees (l_tracker L) id) /\ getFees (l_tracker L) id <= deposits T).
  { rewrite Hfe. destruct (T !! id) as [e|] eqn:Ee; simpl.
    - split; [apply (Rep_wf _ _ _ _ HR Ee)|by apply (deposits_ge T id e); [apply HR|]].
    - pose proof (deposits_nonneg T (proj1 HR)). u64_lia. }
  pose proof (bps_share_le _ _ (proj1 Hu) Hbps) as Hrf. fold rf in Hrf.
  destruct Hok as [O1 O2 O3 O4]. unfold slack in O4.
  destruct (creditCoin_spec K st gas rf Hco (HK Eg)) as (st2 & Ec2 & Hco2 & _); [u64_lia|u64_lia|].
  rewrite Ec in Ec2. injection Ec2 as <-. done.
Qed.

Lemma settleAll_bal L T fl targets gas :
  Bal K L T fl -> (forall g, gas = Some g -> g ∈ K) ->
  exists L' T', settleAll c L targets gas = Some L' /\ Bal K L' T' fl /\ l_domains L' = l_domains L /\ dom T' ⊆ dom T.
Proof using Hparams Hbps.
  intros HB HK. revert L T HB. induction targets as [|id targets IH]; intros L T HB; simpl; [eauto 10|].
  destruct (settleDeletion_bal L T fl id (default zeroHash gas) (bool_decide (is_Some gas)) HB)
    as (L1 & refund & -> & HB1 & Hd1).
  { intros Hb. apply bool_decide_eq_true in Hb as [g ->]. by apply HK. }
  simpl. destruct (IH L1 _ HB1) as (L' & T' & H1 & H2 & H3 & H4). exists L', T'. split_and!; auto; [congruence|].
  etrans; [exact H4|apply dom_a_delete].
Qed.

Lemma settleDeclaredDeletions_bal L T fl tx :
  Bal K L T fl -> (forall g, hash32 (tx_GasCoin tx) = Some g -> g ∈ K) ->
  exists L' T' ok, settleDeclaredDeletions c L tx = Some (L', ok) /\ Bal K L' T' fl /\ l_domains L' = l_domains L /\
    dom T' ⊆ dom T.
Proof using Hparams Hbps.
  intros HB HK. unfold settleDeclaredDeletions. destruct (Nat.eqb _ 0); [eauto 10|].
  destruct (existsb _ _); [eauto 10|]. destruct (ba_coins _ _ _ _ HB) as (st & -> & _).
  destruct (settleAll_bal L T fl (ownedDeletedRefs tx) (txGasCoinID tx) HB) as (L' & T' & -> & H1 & H2 & H3); [done|].
  simpl. eauto 10.
Qed.

End Stages.

(** ** A whole transaction *)

(** The index feed and the output channel aside, nothing moved. *)
Definition sameLedger {M} (L L' : Ledger M) : Prop :=
  l_tracker L' = l_tracker L /\ l_coins L' = l_coins L /\ l_validators L' = l_validators L /\
  l_domains L' = l_domains L.

Section Whole.
Context {M : Type} `{Pebble M} (E : Env M) `{!BodyHooks E} (c : Config) (K : gset Hash).
Context (params : FeeParams) (Hparams : feeParams c = Some params)
  (Hbps : 0 <= StorageRefundBPS params <= bpsMax) (Hburn : BurnBPS params = 0)
  (Hterm : is_u64 (MaxTermEpochs params)).
Context (Hpos : forall a b, length (DelegationID (crypto E) a b) = 32%nat /\ DelegationID (crypto E) a b ∉ K).
Implicit Types (L : Ledger M) (d : DAG M) (T : gmap Hash Entry) (tx : Transaction).

(** Supply minus every accounted token, whatever the tracker stands for. *)
Definition supplyAt L (fl : Z) : Prop :=
  exists T st, Rep (l_tracker L) T /\ l_coins L = Some st /\ slack st (l_validators L) T = fl.

(** A pod call that declares no created object moves no token across the
    boundary of the identity. *)
Context (Hexec : forall run L atx tx L' ok fl, executor E = Some run -> run L atx = (L', ok) ->
           atx_Transaction atx = Some tx -> tx_CreatedObjectsReplication tx = [] -> supplyAt L fl -> supplyAt L' fl).

Lemma Bal_supplyAt L T fl : Bal K L T fl -> supplyAt L fl.
Proof using Type. intros [HR _ (st & Hst & _ & Hfl & _)]. by exists T, st. Qed.

Lemma supplyAt_emit L tx ok r fl : supplyAt L fl -> supplyAt (emitTransaction L tx ok r) fl.
Proof using Type. intros (T & st & H1 & H2 & H3). by exists T, st. Qed.

Lemma refreeze_ledger d r : sameLedger (d_ledger d) (d_ledger (refreezeGenesisRegime c d r)).
Proof using Type.
  unfold refreezeGenesisRegime. destruct (strictLatched (d_regime d)); [done|].
  set (d1 := if currentEpoch (d_epochs d) =? 0 then _ else d).
  assert (H1 : sameLedger (d_ledger d) (d_ledger d1)) by (unfold d1; by destruct (_ =? 0)).
  destruct (_ && _); [|done]. unfold latchStrictRegime. by destruct (strictLatched (d_regime d1)).
Qed.

Lemma recordCommittedMember_ledger d pk r :
  sameLedger (d_ledger d) (d_ledger (recordCommittedMember c d pk r)).
Proof using Type.
  unfold recordCommittedMember. case_bool_decide; [done|].
  set (d1 := set_regime d _). change (d_ledger d) with (d_ledger d1). apply refreeze_ledger.
Qed.

Lemma handleRegisterValidator_bal d T fl tx r :
  Bal K (d_ledger d) T fl -> is_Some (decodeRegisterValidatorArgs (tx_Args tx)) \/ isRegisterValidatorTx c tx = false ->
  exists d' ok, handleRegisterValidator E c d tx r = Some (d', ok) /\ keeps K (d_ledger d) T fl (d_ledger d') /\
    (isRegisterValidatorTx c tx = false -> d' = d).
Proof using Type.
  intros HB Hdec. unfold handleRegisterValidator.
  destruct (isRegisterValidatorTx c tx); simpl; [|by exists d, true].
  destruct Hdec as [[[[[q k] p] coin] Hdec]|]; [|done].
  destruct (hash32 (tx_Sender tx)) as [pk|]; [|by exists d, true].
  unfold DecodeRegisterValidatorArgs, setRewardCoinFromArgs, DecodeRegisterValidatorRewardCoin.
  rewrite Hdec. simpl. destruct (verifiedRegistrationBLSKey E pk k p) as [bls proven].
  destruct proven; simpl; [|by exists d, false].
  set (d1 := set_vals d _). set (d2 := recordCommittedMember c d1 pk r).
  assert (HB1 : keeps K (d_ledger d) T fl (d_ledger d1)).
  { destruct (Bal_bounds K (d_ledger d) T fl HB) as (st & Hst & Hco & Hc0 & Hf0 & Hb0 & Hsum).
    destruct (stakeInv_Add (l_validators (d_ledger d)) pk q bls (ba_stake _ _ _ _ HB)) as [HS Hb].
    split; [|done]. pose proof (Bal_move K (d_ledger d) T fl st _ fl HB HS Hco) as Hm.
    rewrite Hst in Hm. destruct Hm as [M1 M2 M3]; auto; [lia|]. split; [done|done|].
    unfold d1, set_vals. cbn. rewrite Hst. done. }
  assert (HB2 : keeps K (d_ledger d) T fl (d_ledger d2)).
  { destruct (recordCommittedMember_ledger d1 pk r) as (R1 & R2 & R3 & R4). destruct HB1 as (B1 & B2 & B3).
    split; [by apply (Bal_same K (d_ledger d1))|]. split; unfold d2; congruence. }
  assert (HB3 : forall vs', stakeInv vs' -> bonded vs' = bonded (l_validators (d_ledger d2)) ->
    keeps K (d_ledger d) T fl (d_ledger (set_vals d2 vs'))).
  { intros vs' HS Hb. destruct HB2 as (B1 & B2 & B3).
    destruct (Bal_bounds K (d_ledger d2) T fl B1) as (st & Hst & Hco & Hc0 & Hf0 & Hb0 & Hsum).
    split; [|done]. pose proof (Bal_move K (d_ledger d2) T fl st _ fl B1 HS Hco) as Hm.
    rewrite Hst in Hm. destruct Hm as [M1 M2 M3]; auto; [lia|]. split; [done|done|].
    unfold set_vals. cbn. rewrite Hst. done. }
  set (vs' := match hash32 coin with Some _ => _ | None => _ end).
  assert (HB4 : keeps K (d_ledger d) T fl (d_ledger (set_vals d2 vs'))).
  { assert (Hn : forall x, stakeInv (SetRewardCoin (l_validators (d_ledger d2)) pk x) /\
      bonded (SetRewardCoin (l_validators (d_ledger d2)) pk x) = bonded (l_validators (d_ledger d2))).
    { intros x. apply stakeInv_neutral; [apply HB2|done|done]. }
    apply HB3; unfold vs'; destruct (hash32 coin); try apply Hn; destruct (txGasCoinID tx); try apply Hn; try done.
    apply HB2. }
  set (d3 := if negb _ && _ then _ else _).
  assert (E3 : d_ledger d3 = d_ledger (set_vals d2 vs')) by (unfold d3; by destruct (negb _ && _)).
  set (d4 := if (0 <? minValidators c) && _ then _ else _).
  assert (E4 : d_ledger d4 = d_ledger d3).
  { unfold d4. clearbody d3. destruct ((0 <? minValidators c) && _); [|done].
    unfold enterTransition. by destruct (transitionRound (d_regime d3) =? -1). }
  exists d4, true. split; [done|]. split; [|done]. by rewrite E4, E3.
Qed.

(** A transaction is at most one system function. *)
Lemma isSystemFunc_only tx f g :
  isSystemFunc c tx f = true -> f <> g -> isSystemFunc c tx g = false.
Proof using Type.
  unfold isSystemFunc. intros Hf Hne. apply andb_true_iff in Hf as [-> Hf]. simpl.
  apply bool_decide_eq_true in Hf. apply bool_decide_eq_false. congruence.
Qed.

Lemma handleBond_noop L tx : isBondTx c tx = false -> handleBond c L tx = (L, false).
Proof using Type. intros Hb. unfold handleBond, parseStakeTx. rewrite Hb, orb_true_r. done. Qed.
Lemma handleUnbond_noop L tx : isUnbondTx c tx = false -> handleUnbond c L tx = (L, false).
Proof using Type. intros Hb. unfold handleUnbond, parseStakeTx. rewrite Hb, orb_true_r. done. Qed.
Lemma handleDelegate_noop L tx : isDelegateTx c tx = false -> handleDelegate E c L tx = (L, false).
Proof using Type. intros Hb. unfold handleDelegate, parseDelegateTx. rewrite Hb, orb_true_r. done. Qed.

Definition isStakingTx tx : bool :=
  isBondTx c tx || isUnbondTx c tx || isDelegateTx c tx || isUndelegateTx c tx.

(** What a transaction must look like for its handlers to be accounted. *)
Record txOk L tx : Prop := {
  to_args : wf_bytes (tx_Args tx);
  to_gas : forall g, hash32 (tx_GasCoin tx) = Some g -> g ∈ K;
  to_stake : isStakingTx tx = true -> forall coin, firstMutableRefID tx = Some coin -> coin ∈ K;
  to_backed : isUndelegateTx c tx = true -> backed E L;
  to_reg : is_Some (decodeRegisterValidatorArgs (tx_Args tx)) \/ isRegisterValidatorTx c tx = false;
}.

(** The handlers after the bond. *)
Lemma later_handlers_bal L T fl tx :
  Bal K L T fl -> txOk L tx ->
  let L2 := fst (handleUnbond c L tx) in
  let L3 := fst (handleDelegate E c L2 tx) in
  keeps K L T fl (fst (handleUndelegate E c L3 tx)).
Proof using Hpos.
  intros HB [Ha _ Hs Hbk _]. cbv zeta. unfold isStakingTx in Hs.
  destruct (handleUnbond_bal c K L T fl tx HB Ha) as (B2 & t2 & d2).
  { intros Hm. apply Hs. by rewrite Hm, orb_true_r. }
  destruct (handleDelegate_bal E c K Hpos _ T fl tx B2 Ha) as (B3 & t3 & d3).
  { intros Hm. apply Hs. by rewrite Hm, orb_true_r. }
  destruct (handleUndelegate_bal E c K Hpos _ T fl tx B3 Ha) as (B4 & t4 & d4).
  { intros Hm. assert (Hx : forall f, undelegateFunc <> f -> isSystemFunc c tx f = false)
      by (intros f; by apply isSystemFunc_only).
    rewrite handleUnbond_noop by (apply Hx; vm_compute; congruence). cbn [fst].
    rewrite handleDelegate_noop by (apply Hx; vm_compute; congruence). by apply Hbk. }
  { intros Hm. apply Hs. by rewrite Hm, orb_true_r. }
  split; [done|]. split; congruence.
Qed.

Lemma txOk_same L L' tx : txOk L tx -> l_coins L' = l_coins L -> l_validators L' = l_validators L -> txOk L' tx.
Proof using Type.
  intros [X1 X2 X3 X4 X5] Hc Hv. split; auto. intros Hu st del val a Hst. rewrite Hc in Hst. rewrite Hv.
  by apply X4.
Qed.

(** The bond, with the regime refresh it triggers. *)
Lemma bond_stage_bal d T fl tx r :
  Bal K (d_ledger d) T fl -> txOk (d_ledger d) tx ->
  let '(L1, bonded) := handleBond c (d_ledger d) tx in
  let d1 := set_ledger d L1 in
  let d2 := if bonded then refreezeGenesisRegime c d1 r else d1 in
  keeps K (d_ledger d) T fl (d_ledger d2) /\ txOk (d_ledger d2) tx.
Proof using Type.
  intros HB Htx. pose proof Htx as [Ha _ Hs Hbk _].
  destruct (handleBond_bal c K (d_ledger d) T fl tx HB Ha) as (B1 & t1 & m1).
  { intros Hm. apply Hs. unfold isStakingTx. by rewrite Hm. }
  destruct (handleBond c (d_ledger d) tx) as [L1 bonded] eqn:Eb. cbn [fst] in *. cbv zeta.
  set (d2 := if bonded then _ else _).
  assert (E2 : sameLedger L1 (d_ledger d2)).
  { unfold d2. destruct bonded; [|done]. change L1 with (d_ledger (set_ledger d L1)). apply refreeze_ledger. }
  destruct E2 as (E1 & E2 & E3 & E4).
  assert (Hk : keeps K (d_ledger d) T fl (d_ledger d2)).
  { split; [by apply (Bal_same K L1)|]. split; congruence. }
  split; [done|]. destruct (isUndelegateTx c tx) eqn:Eu.
  - assert (isBondTx c tx = false) as Hnb by (apply (isSystemFunc_only tx undelegateFunc); [done|vm_compute; congruence]).
    rewrite handleBond_noop in Eb by done. injection Eb as <- <-. by apply (txOk_same (d_ledger d)).
  - destruct Htx as [X1 X2 X3 X4 X5]. split; auto. congruence.
Qed.

Lemma safeAdd_0_r a : is_u64 a -> safeAdd a 0 = a.
Proof using Type. intros Ha. rewrite safeAdd_min by u64_lia. u64_lia. Qed.

Lemma poolUnlockedStorage_exact split storage :
  0 <= fs_Epoch split -> 0 <= storage -> fs_Epoch split + storage <= max64 ->
  fs_Epoch (poolUnlockedStorage split storage) = fs_Epoch split + storage.
Proof using Type. intros H1 H2 H3. unfold poolUnlockedStorage. simpl. rewrite safeAdd_min by u64_lia. lia. Qed.

(** Staking and settlement keep the number of validators. *)
Lemma Len_updateAt vs pk f : Len (fst (updateAt vs pk f)) = Len vs.
Proof using Type. unfold updateAt, Len. destruct (index vs !! pk); [|done]. cbn. by rewrite length_alter. Qed.

Lemma staking_len L tx :
  Len (l_validators (fst (handleBond c L tx))) = Len (l_validators L) /\
  Len (l_validators (fst (handleUnbond c L tx))) = Len (l_validators L) /\
  Len (l_validators (fst (handleDelegate E c L tx))) = Len (l_validators L) /\
  Len (l_validators (fst (handleUndelegate E c L tx))) = Len (l_validators L).
Proof using Type.
  split_and!; unfold handleBond, handleUnbond, handleDelegate, handleUndelegate; cbv zeta;
    repeat case_match; try done; apply Len_updateAt.
Qed.

Lemma settleDeletion_validators L id g b L' r : settleDeletion c L id g b = Some (L', r) -> l_validators L' = l_validators L.
Proof using Type.
  unfold settleDeletion. cbv zeta. destruct (_ =? 0); [by intros [= <- _]|]. destruct (mustFeeParams c); [|done]. cbn.
  destruct (l_coins L); [|done]. cbn. destruct (_ || _); [by intros [= <- _]|].
  destruct (creditCoin _ _ _) as [st []]; by intros [= <- _].
Qed.

Lemma settleDeclared_validators L tx L' ok : settleDeclaredDeletions c L tx = Some (L', ok) -> l_validators L' = l_validators L.
Proof using Type.
  unfold settleDeclaredDeletions. cbv zeta. destruct (Nat.eqb _ 0); [by intros [= <- _]|].
  destruct (existsb _ _); [by intros [= <- _]|]. destruct (l_coins L); [|by intros [= <- _]].
  destruct (settleAll _ _ _ _) as [L1|] eqn:E1; [|done]. intros [= <- _]. revert E1. generalize (ownedDeletedRefs tx) as ids.
  intros ids. revert L. induction ids as [|id ids IH]; intros L; cbn; [by intros [= <-]|].
  destruct (settleDeletion _ _ _ _ _) as [[L2 r]|] eqn:E2; [|done]. cbn. intros E1. rewrite (IH _ E1).
  by eapply settleDeletion_validators.
Qed.

(** How the part from the ownership check on ends, on a balanced ledger: a
    rejection, a skipped execution, or a run of the executor. *)
Inductive podOutcome atx tx (split : FeeSplit) (storage fl : Z) T0 (count : Z) (d' : DAG M) (split' : FeeSplit) : Prop :=
| outcome_reject L T reason :
    Bal K L T fl -> d_ledger d' = emitTransaction L tx false reason -> split' = split ->
    reason = FailOwner \/ reason = FailAuth \/ reason = FailOps -> podOutcome atx tx split storage fl T0 count d' split'
| outcome_skip L T :
    Bal K L T fl -> d_ledger d' = emitTransaction L tx true FailNone -> split' = split ->
    tx_CreatedObjectsReplication tx = [] -> podOutcome atx tx split storage fl T0 count d' split'
| outcome_run L T L' ok :
    Bal K L T fl -> dom T ⊆ dom T0 ->
    (isRegisterValidatorTx c tx = false -> Len (l_validators L) = count) ->
    match executor E with Some run => run L atx | None => (L, true) end = (L', ok) ->
    d_ledger d' = emitTransaction L' tx ok (if ok then FailNone else FailRevert) ->
    split' = (if ok then split else poolUnlockedStorage split storage) -> podOutcome atx tx split storage fl T0 count d' split'.

Lemma executePodCall_outcome d atx tx r split storage T fl :
  Bal K (d_ledger d) T fl -> txOk (d_ledger d) tx ->
  exists d' split', executePodCall E c d atx tx r split storage = Some (d', split') /\
    podOutcome atx tx split storage fl T (Len (l_validators (d_ledger d))) d' split'.
Proof using Hparams Hbps Hpos.
  intros HB Htx. unfold executePodCall. destruct (negb (validateMutableRefOwnership _ _ _)).
  { eexists _, _. split; [done|]. by eapply (outcome_reject _ _ _ _ _ _ _ _ _ (d_ledger d) T FailOwner); auto. }
  destruct (handleRegisterValidator_bal d T fl tx r HB (to_reg _ _ Htx)) as (d1 & ok & -> & (B1 & t1 & dm1) & Hid).
  simpl. destruct ok; simpl.
  2:{ eexists _, _. split; [done|]. by eapply (outcome_reject _ _ _ _ _ _ _ _ _ (d_ledger d1) T FailAuth); auto. }
  set (d2 := handleDeregisterValidator c d1 tx).
  assert (E2 : d_ledger d2 = d_ledger d1).
  { unfold d2, handleDeregisterValidator. destruct (negb _); [done|]. by destruct (hash32 _). }
  assert (Htx1 : txOk (d_ledger d1) tx).
  { destruct Htx as [X1 X2 X3 X4 X5]. split; auto. intros Hu. rewrite Hid; [by apply X4|].
    apply (isSystemFunc_only tx undelegateFunc); [done|vm_compute; congruence]. }
  assert (B2 : Bal K (d_ledger d2) T fl) by (by rewrite E2). rewrite <- E2 in Htx1.
  pose proof (bond_stage_bal d2 T fl tx r B2 Htx1) as Hbond.
  pose proof (proj1 (staking_len (d_ledger d2) tx)) as V2.
  destruct (handleBond c (d_ledger d2) tx) as [L1 bonded]. cbv zeta in Hbond. cbn [fst] in V2.
  set (d3 := if bonded then _ else _) in *.
  assert (V3 : l_validators (d_ledger d3) = l_validators L1).
  { unfold d3. destruct bonded; [|done]. apply (refreeze_ledger (set_ledger d2 L1) r). }
  destruct (staking_len (d_ledger d3) tx) as (_ & V4 & _).
  destruct (staking_len (fst (handleUnbond c (d_ledger d3) tx)) tx) as (_ & _ & V5 & _).
  destruct (staking_len (fst (handleDelegate E c (fst (handleUnbond c (d_ledger d3) tx)) tx)) tx) as (_ & _ & _ & V6).
  pose proof (settleDeclared_validators (fst (handleUndelegate E c (fst (handleDelegate E c (fst (handleUnbond c (d_ledger d3) tx)) tx)) tx)) tx) as V7. destruct Hbond as ((B3 & _) & Htx3).
  destruct (later_handlers_bal (d_ledger d3) T fl tx B3 Htx3) as (B4 & _).
  destruct (settleDeclaredDeletions_bal c K params Hparams Hbps _ T fl tx B4 (to_gas _ _ Htx))
    as (L5 & T5 & ok5 & Es & B5 & _ & D5).
  rewrite Es. specialize (V7 L5 ok5 Es).
  cbn [mbind option_bind]. destruct ok5; cbn [negb].
  2:{ eexists _, _. split; [done|]. by eapply (outcome_reject _ _ _ _ _ _ _ _ _ L5 T5 FailOps); auto. }
  destruct (Nat.eqb (length (tx_CreatedObjectsReplication tx)) 0 && _) eqn:Esk.
  { eexists _, _. split; [done|]. eapply (outcome_skip _ _ _ _ _ _ _ _ _ L5 T5); [done..|].
    apply andb_true_iff in Esk as [Esk _]. apply Nat.eqb_eq in Esk. by apply nil_length_inv. }
  cbn [d_ledger set_ledger].
  destruct (match executor E with Some run => run L5 atx | None => (L5, true) end) as [L6 success] eqn:Er.
  eexists _, _. split; [done|]. eapply (outcome_run _ _ _ _ _ _ _ _ _ L5 T5 L6 success); try done.
  intros Hnr. rewrite V7, V6, V5, V4, V3, V2, E2. by rewrite (Hid Hnr).
Qed.

(** Without created objects nothing is withheld: the fees stay, every other token balances. *)
Lemma executePodCall_supply d atx tx r split T fl :
  Bal K (d_ledger d) T fl -> txOk (d_ledger d) tx -> is_u64 (fs_Epoch split) ->
  atx_Transaction atx = Some tx -> tx_CreatedObjectsReplication tx = [] ->
  exists d' split', executePodCall E c d atx tx r split 0 = Some (d', split') /\
    fs_Epoch split' = fs_Epoch split /\ supplyAt (d_ledger d') fl.
Proof using Hparams Hbps Hpos Hexec.
  intros HB Htx Hsp Hatx Hcr. destruct (executePodCall_outcome d atx tx r split 0 T fl HB Htx) as (d' & split' & Hp & Ho).
  exists d', split'. split; [done|].
  destruct Ho as [L T' reason HL -> -> _|L T' HL -> -> _|L T' L' ok HL _ _ Hrun -> ->].
  - split; [done|]. by apply supplyAt_emit, (Bal_supplyAt _ T').
  - split; [done|]. by apply supplyAt_emit, (Bal_supplyAt _ T').
  - split; [destruct ok; [done|]; rewrite poolUnlockedStorage_exact; u64_lia|]. apply supplyAt_emit.
    pose proof (Bal_supplyAt _ T' _ HL) as S5. destruct (executor E) as [run|] eqn:Ee.
    + by apply (Hexec run L atx tx L' ok).
    + by injection Hrun as <- _.
Qed.

(** The state a transaction is executed in. *)
Record txPre d tx (commitRound : Z) T (R : gmap bytes domainLeafView) (fl : Z) : Prop := {
  tp_bal : Bal K (d_ledger d) T fl;
  tp_domains : domainsHold (l_domains (d_ledger d)) R;
  tp_forest : forest_ok T;
  tp_small : Z.of_nat (size T + length (tx_MutableRefs tx)) < two32;
  tp_tx : txOk (d_ledger d) tx;
  tp_ops : Forall wf_decl (tx_Operations tx);
  tp_epoch : is_u64 (commitEpochForRound c commitRound);
}.

(** The commit-once guard and the version bumps keep the balance. *)
Lemma version_stage_bal L L1 T fl tx t ok :
  Bal K L T fl -> forest_ok T -> commitOnce L tx = Some L1 -> checkAndUpdate (l_tracker L1) tx = (t, ok) ->
  exists T', Bal K (set_tracker L1 t) T' fl /\ forest_ok T' /\ (size T' <= size T + length (tx_MutableRefs tx))%nat /\
    l_coins L1 = l_coins L /\ l_validators L1 = l_validators L /\ l_domains L1 = l_domains L /\
    dom T' ⊆ dom T ∪ mutableRefIDSet tx.
Proof using Type.
  intros [HR HS HC] HF Hco Hcu.
  assert (H1 : Rep (l_tracker L1) T /\ l_coins L1 = l_coins L /\ l_validators L1 = l_validators L /\ l_domains L1 = l_domains L).
  { unfold commitOnce in Hco. destruct (txCommitHash tx) as [hh|]; [|by injection Hco as <-].
    destruct (wasCommitted _ _); [done|]. injection Hco as <-. split; [by apply Rep_mark|done]. }
  destruct H1 as (HR1 & Hc1 & Hv1 & Hd1). unfold checkAndUpdate in Hcu.
  assert (Hfin : forall T', Rep t T' -> deposits T' = deposits T -> Bal K (set_tracker L1 t) T' fl).
  { intros T' HR' Hd. split; [done|cbn; by rewrite Hv1|]. cbn. rewrite Hc1, Hv1.
    destruct HC as (st & Hst & Hok & Hfl & Hk). exists st. split; [done|].
    destruct (ledger_ok_same st st (l_validators L) T T' Hok eq_refl eq_refl Hd) as [H1 H2].
    split_and!; auto. congruence. }
  destruct (checkVersions (l_tracker L1) tx); injection Hcu as <- <-.
  - destruct (increment_rep (tx_MutableRefs tx) (l_tracker L1) T HR1 HF) as (T' & H1 & H2 & H3 & H4 & H5).
    exists T'. split_and!; auto.
  - exists T. split_and!; auto; [lia|apply union_subseteq_l].
Qed.

Lemma txOk_fees L L' tx :
  txOk L tx -> l_validators L' = l_validators L -> is_Some (l_coins L) ->
  (forall st st' x, l_coins L = Some st -> l_coins L' = Some st' -> x ∉ K -> GetObject st' x = GetObject st x) ->
  txOk L' tx.
Proof using Hpos.
  intros [X1 X2 X3 X4 X5] Hv [st Hst] Ho. split; auto. intros Hu st' del val a Hst' Hr. rewrite Hv.
  apply (X4 Hu st del val a Hst). unfold readDelegationAmount in *.
  by rewrite <- (Ho st st' _ Hst Hst' (proj2 (Hpos del val))).
Qed.

Lemma Holds_supplyAt L T R fl : Holds L T R fl -> supplyAt L fl.
Proof using Type. intros [HR _ (st & Hst & _ & Hfl)]. by exists T, st. Qed.

Lemma commitDeclaredOps_supply L tx r split storage T R fl :
  Bal K L T fl -> domainsHold (l_domains L) R -> forest_ok T -> Z.of_nat (size T) < two32 ->
  Forall wf_decl (tx_Operations tx) -> is_u64 (commitEpochForRound c r) ->
  0 <= fs_Epoch split -> 0 <= storage -> fs_Epoch split + storage <= max64 ->
  exists L' split', commitDeclaredOps E c L tx r split storage = Some (L', split') /\
    fs_Epoch split' = fs_Epoch split + storage /\ supplyAt L' fl.
Proof using BodyHooks0 Hparams Hbps Hterm.
  intros HB HD HF Hsz Hw He H1 H2 H3. pose proof HB as [HR HS (st & Hst & Hok & Hfl & _)].
  assert (Hh : Holds L T R fl) by (split; eauto). unfold commitDeclaredOps. cbv zeta.
  assert (Hfin : forall L' b, supplyAt L' fl -> exists L2 split',
    Some (emitTransaction L' tx b (if b then FailNone else FailOps), poolUnlockedStorage split storage) = Some (L2, split') /\
    fs_Epoch split' = fs_Epoch split + storage /\ supplyAt L2 fl).
  { intros L' b Hs. eexists _, _. split; [done|]. split; [by apply poolUnlockedStorage_exact|by apply supplyAt_emit]. }
  destruct (txHasPodCall tx || _); [apply (Hfin L false); by apply (Bal_supplyAt L T)|].
  destruct (handleDeclaredOps_cases E c L T R fl params tx (commitEpochForRound c r)) as [->|(L' & s' & sender & -> & _ & _ & HL' & _)].
  - by split.
  - apply (Hfin L false). by apply (Bal_supplyAt L T).
  - apply (Hfin L' true). eapply Holds_supplyAt. exact HL'.
Qed.

(** Up to the pod call: the transaction ends with the identity exact, or it
    reaches the pod call with the debited fee pooled or withheld. *)
Lemma executeTx_stages d atx tx commitRound verdicts T R fl :
  txPre d tx commitRound T R fl -> atx_Transaction atx = Some tx ->
  exists d' fees verdicts', executeTx E c d atx commitRound verdicts = Some (d', fees, verdicts') /\
    (supplyAt (d_ledger d') (fl + fs_Epoch fees) \/
     exists L L2 d1 split storage T1, executePodCall E c d1 atx tx commitRound split storage = Some (d', fees) /\
       deductFees E c L tx atx = Some (L2, split, storage, true) /\ l_validators L = l_validators (d_ledger d) /\ l_coins L = l_coins (d_ledger d) /\
       d_ledger d1 = L2 /\ Bal K L2 T1 (fl + fs_Epoch split + storage) /\ txOk L2 tx /\
       l_validators L2 = l_validators (d_ledger d) /\
       0 <= fs_Epoch split /\ 0 <= storage /\ fs_Epoch split + storage <= max64 /\
       (tx_CreatedObjectsReplication tx = [] -> storage = 0) /\ dom T1 ⊆ dom T ∪ mutableRefIDSet tx).
Proof using BodyHooks0 Hparams Hbps Hburn Hterm Hpos.
  intros [HB HD HF Hsz Htx Hw He] Hatx. unfold executeTx. rewrite Hatx.
  destruct (proofVerdict E atx commitRound verdicts) as [pv vs'].
  pose proof (Bal_supplyAt _ T _ HB) as S0. rewrite <- (Z.add_0_r fl) in S0.
  destruct (preCheck E c tx commitRound pv).
  { eexists _, _, _. split; [done|]. left. by apply supplyAt_emit. }
  destruct (commitOnce (d_ledger d) tx) as [L1|] eqn:Eco; [|eexists _, _, _; split; [done|by left]].
  destruct (checkAndUpdate (l_tracker L1) tx) as [t vok] eqn:Ecu.
  destruct (version_stage_bal _ _ _ _ _ _ _ HB HF Eco Ecu) as (T1 & B1 & F1 & Z1 & C1 & V1 & D1 & Dm1).
  destruct vok; cbn [negb].
  2:{ eexists _, _, _. split; [done|]. left. apply supplyAt_emit, (Bal_supplyAt _ T1). cbn [fs_Epoch noFees]. by rewrite Z.add_0_r. }
  cbn [d_ledger set_ledger].
  destruct (deductFees_bal E c K params Hparams Hburn _ T1 fl tx atx B1 (to_gas _ _ Htx))
    as (L2 & split & storage & ok & Ed & B2 & t2 & m2 & v2 & Hs0 & Hst0 & Hmax & Hz & Hobj).
  rewrite Ed. cbn [mbind option_bind].
  destruct (Bal_bounds K _ T fl HB) as (st0 & Hc0 & _ & _ & Hfl0 & _).
  assert (Hsu : fs_Epoch split + storage <= max64) by lia.
  destruct ok; cbn [negb].
  2:{ pose proof (deductFees_abort E c params Hparams _ _ _ _ _ _ Ed) as ->. rewrite Z.add_0_r in B2.
      eexists _, _, _. split; [done|]. left. by apply supplyAt_emit, (Bal_supplyAt _ T1). }
  destruct (negb (Nat.eqb (length (tx_Operations tx)) 0)).
  - destruct (commitDeclaredOps_supply L2 tx commitRound split storage T1 R (fl + fs_Epoch split + storage)) as (L3 & split' & Hc & Hsp & S3); auto.
    { rewrite m2. cbn [l_domains set_tracker]. by rewrite D1. }
    { lia. }
    cbn [d_ledger set_ledger]. rewrite Hc. cbn [mbind option_bind].
    eexists _, _, _. split; [done|]. left. cbn [fst snd d_ledger set_ledger]. rewrite Hsp. by rewrite Z.add_assoc.
  - assert (Htx2 : txOk L2 tx).
    { apply (txOk_fees (set_tracker L1 t)); auto.
      - by apply (txOk_same (d_ledger d)).
      - cbn. rewrite C1. by eexists. }
    set (d1 := set_ledger _ L2).
    destruct (executePodCall_outcome d1 atx tx commitRound split storage T1 _ B2 Htx2) as (d3 & split' & Hp & _).
    rewrite Hp. cbn [mbind option_bind]. eexists _, _, _. split; [done|]. right.
    exists (set_tracker L1 t), L2, d1, split, storage, T1. split_and!; auto. by rewrite v2.
Qed.

(** C3. From a ledger whose books balance over a set of accounted coins (supply = coins +
    bonded stake + locked deposits + fees in flight, the domain registry and the ownership
    forest well-formed, versions and references below 2^32), executing one transaction
    that creates no object, on any branch (a rejection, a fee abort, declared operations,
    staking, delegation, registration or a pod call), returns and keeps that identity
    exact: what leaves the coins is in the stakes, the deposits or the fees it returns.
    Assumed: nothing is burned (BurnBPS = 0) and the refund rate is at most 100%; the gas
    coin, and for a staking transaction the first mutable reference, is an accounted coin
    and no delegation position is; an undelegation meets backed positions; registration
    arguments decode; and the executor keeps the identity when nothing is created. Leaks.v
    shows what happens without the last conditions on coins, positions and registrations.
    *)
Theorem executeTx_conserves_supply d atx tx commitRound verdicts T R fl :
  txPre d tx commitRound T R fl -> atx_Transaction atx = Some tx -> tx_CreatedObjectsReplication tx = [] ->
  exists d' fees verdicts', executeTx E c d atx commitRound verdicts = Some (d', fees, verdicts') /\
    supplyAt (d_ledger d') (fl + fs_Epoch fees).
Proof using BodyHooks0 Hparams Hbps Hburn Hterm Hpos Hexec.
  intros Hpre Hatx Hcr. destruct (executeTx_stages d atx tx commitRound verdicts T R fl Hpre Hatx)
    as (d' & fees & vs' & HE & Hend).
  exists d', fees, vs'. split; [done|].
  destruct Hend as [HS|(L & L2 & d1 & sp & storage & T1 & Hp & _ & _ & _ & <- & HB & Htx & _ & H1 & H2 & H3 & Hz & _)]; [done|].
  rewrite (Hz Hcr) in *. rewrite Z.add_0_r in *.
  destruct (executePodCall_supply d1 atx tx commitRound sp T1 _ HB Htx ltac:(u64_lia) Hatx Hcr) as (d3 & split' & Hp' & Hsp & S3).
  rewrite Hp in Hp'. injection Hp' as <- <-. by rewrite Hsp.
Qed.

End Whole.

(** A validator bonds 20 of the coin its fee is paid from. *)
Definition bondCoins : gset Hash := {[ h 1 ]}.
Definition bondStore : CoinStore :=
  mkCoinStore (<[h 1 := mkObject (h 1) 0 (h 7) 0 (le_enc 8 5000) 0 0]> ∅) 9000 5000 None None.
Definition bondValidators : ValidatorSet := SetSelfStake (NewValidatorSet [h 7]) (h 7) 50.
Definition bondLedger : Ledger (gmap bytes bytes) :=
  mkLedger sampleTracker (Some sampleRegistry) (Some bondStore) bondValidators (Some []) [].
Definition bondDag : DAG (gmap bytes bytes) := set_ledger emptyDag bondLedger.
Definition bondTx : Transaction :=
  mkTransaction (9 :: replicate 10 7 ++ reverse (le_enc 8 20) ++ replicate 13 0) [] [mkTxRef (h 1) 1 []] [] (h 7)
    (replicate 64 1) (h 0) bondFunc (le_enc 8 20) 100 (h 1) [] [] 0 [] [].
Definition bondAtx : AttestedTransaction := mkAtx (Some bondTx) [] [] 0.
Definition bondResult := executeTx sampleEnv sampleConfig bondDag bondAtx 3 None.

Lemma bondStore_ok : coins_ok bondCoins bondStore.
Proof.
  split; [|vm_compute; reflexivity|vm_compute; discriminate].
  intros id Hid. apply elem_of_singleton in Hid as ->.
  exists (mkObject (h 1) 0 (h 7) 0 (le_enc 8 5000) 0 0). split; [vm_compute; reflexivity|].
  split; [|vm_compute; lia]. split_and!; [done..|]. apply wf_le_enc.
Qed.

Lemma sampleHash_fresh a b :
  length (DelegationID sampleCrypto a b) = 32%nat /\ DelegationID sampleCrypto a b ∉ bondCoins.
Proof.
  split.
  - unfold DelegationID, sampleCrypto. cbn [blake3 length]. f_equal.
    rewrite length_take, length_app, length_replicate. lia.
  - intros Hx. apply elem_of_singleton in Hx. discriminate Hx.
Qed.

Lemma bondLedger_bal : Bal bondCoins bondLedger sampleEntries 1925.
Proof.
  split; [exact sampleTracker_rep|split|].
  - apply updateAt_ok; [done|]. apply NewValidatorSet_ok. repeat constructor. set_solver.
  - repeat constructor; vm_compute; congruence.
  - exists bondStore. split_and!; [done| |vm_compute; reflexivity|exact bondStore_ok].
    split; vm_compute; try done; split; congruence.
Qed.

Lemma bondPre : txPre sampleEnv sampleConfig bondCoins bondDag bondTx 3 sampleEntries
  (<[str "new" := sampleLeaf 90]> (<[str "old" := sampleLeaf 5]> ∅)) 1925.
Proof.
  split; [exact bondLedger_bal|exact sampleRegistry_rep|exact sampleEntries_forest|vm_compute; reflexivity| | |].
  - split.
    + apply wf_le_enc.
    + intros g Hg. vm_compute in Hg. injection Hg as <-. apply (bool_decide_unpack _). vm_compute. exact I.
    + intros _ coin Hc. vm_compute in Hc. injection Hc as <-. apply (bool_decide_unpack _). vm_compute. exact I.
    + intros Hu. vm_compute in Hu. discriminate.
    + right. vm_compute. reflexivity.
  - apply List.Forall_nil.
  - vm_compute. split; congruence.
Qed.

Theorem executeTx_conserves_supply_witness :
  (bondResult ≫= fun r => Some (fs_Epoch (snd (fst r)))) = Some 100 /\
  exists d' fees verdicts', bondResult = Some (d', fees, verdicts') /\ supplyAt (d_ledger d') (1925 + fs_Epoch fees).
Proof.
  split; [vm_compute; reflexivity|].
  refine (executeTx_conserves_supply sampleEnv sampleConfig bondCoins DefaultFeeParams _ _ _ _ _ _
    bondDag bondAtx bondTx 3 None _ _ 1925 bondPre _ _).
  - reflexivity.
  - vm_compute. split; congruence.
  - reflexivity.
  - vm_compute. split; congruence.
  - exact sampleHash_fresh.
  - intros run L atx tx L' ok fl He. discriminate He.
  - reflexivity.
  - reflexivity.
Defined.
