(* ===== verification/Once.v ===== *)
(** * Commit-once (commit.go, tracker.go)

    The [c:] marker of a committed transaction survives everything the commit
    path does afterwards, so a transaction carried by several vertices takes
    effect at most once. *)

From S2P Require Import Prelude Types Fees Validators Stake Storage Tracker Domains Staged Coins Ledger Ops Ingress Dag Commit Supply.

(** ** Trackers with the same markers *)

Section Marks.
Context {M : Type} `{Pebble M}.
Implicit Types (ot : M) (L : Ledger M).

Definition sameMarks ot ot' : Prop :=
  forall x, Get ot' (committedKey x) = Get ot (committedKey x).

#[global] Instance sameMarks_refl : Reflexive sameMarks.
Proof. by intros ot x. Qed.
#[global] Instance sameMarks_trans : Transitive sameMarks.
Proof. intros a b d Hab Hbd x. by rewrite Hbd, Hab. Qed.

Lemma sameMarks_set ot id v : sameMarks ot (Set_ ot (makeKey id) v).
Proof.
  intros x. unfold Get, Set_. rewrite !db_get_spec, db_set_spec.
  apply lookup_insert_ne. intros E. exact (key_prefixes_differ x id (eq_sym E)).
Qed.

Lemma sameMarks_delete ot id : sameMarks ot (Delete ot (makeKey id)).
Proof.
  intros x. unfold Get, Delete. rewrite !db_get_spec, db_delete_spec.
  apply lookup_delete_ne. intros E. exact (key_prefixes_differ x id (eq_sym E)).
Qed.

Lemma sameMarks_adjust ot k p n : sameMarks ot (adjustChildCount ot k p n).
Proof. unfold adjustChildCount. repeat case_match; try done. apply sameMarks_set. Qed.

Lemma sameMarks_rebind ot old k p : sameMarks ot (rebindChildCount ot old k p).
Proof.
  unfold rebindChildCount. destruct old as [[k' p']|]; [|apply sameMarks_adjust].
  case_match; [done|]. etrans; apply sameMarks_adjust.
Qed.

Lemma sameMarks_track ot id v r f k p : sameMarks ot (trackObject ot id v r f k p).
Proof. unfold trackObject. cbv zeta. etrans; [apply sameMarks_set|apply sameMarks_rebind]. Qed.

Lemma sameMarks_setParent ot id k p : sameMarks ot (setParent ot id k p).
Proof. unfold setParent. cbv zeta. etrans; [apply sameMarks_set|apply sameMarks_rebind]. Qed.

Lemma sameMarks_deleteObject ot id : sameMarks ot (deleteObject ot id).
Proof.
  unfold deleteObject. cbv zeta. destruct (getParent ot id) as [[k p]|]; [|apply sameMarks_delete].
  etrans; [apply sameMarks_delete|apply sameMarks_adjust].
Qed.

Lemma sameMarks_increment ot tx : sameMarks ot (incrementMutableObjects ot tx).
Proof.
  unfold incrementMutableObjects. generalize (tx_MutableRefs tx). intros refs. revert ot.
  induction refs as [|r refs IH]; intros ot; simpl; [done|]. etrans; [|apply IH].
  destruct (hash32 _); [|done]. unfold bumpObject. case_match. apply sameMarks_track.
Qed.

Lemma wasCommitted_same ot ot' x : sameMarks ot ot' -> wasCommitted ot' x = wasCommitted ot x.
Proof. intros Hs. unfold wasCommitted. by rewrite Hs. Qed.

Lemma wasCommitted_mark ot x y : wasCommitted (markCommitted ot x) y = bool_decide (x = y) || wasCommitted ot y.
Proof.
  unfold wasCommitted, markCommitted, Get, Set_. rewrite !db_get_spec, db_set_spec.
  destruct (decide (x = y)) as [->|Hne].
  - rewrite lookup_insert_eq. by rewrite !bool_decide_eq_true_2 by eauto.
  - rewrite lookup_insert_ne; [by rewrite (bool_decide_eq_false_2 (x = y))|].
    unfold committedKey. intros E. by apply app_inv_head in E.
Qed.

End Marks.

(** ** Handlers keep the markers *)

Section Frames.
Context {M : Type} `{Pebble M} (E : Env M) (c : Config).
Implicit Types (L : Ledger M) (d : DAG M) (tx : Transaction) (atx : AttestedTransaction).

Notation keepsMarks L L' := (sameMarks (l_tracker L) (l_tracker L')).

Lemma settleDeletion_marks L id g b L' r : settleDeletion c L id g b = Some (L', r) -> keepsMarks L L'.
Proof.
  intros Hs. pose proof (sameMarks_deleteObject (l_tracker L) id) as Hd.
  unfold settleDeletion in Hs. cbv zeta in Hs. simpl in Hs.
  repeat (case_match; simplify_option_eq; try done).
Qed.

Lemma settleAll_marks L targets gas L' : settleAll c L targets gas = Some L' -> keepsMarks L L'.
Proof.
  revert L. induction targets as [|id targets IH]; intros L Hs; simpl in Hs; [by simplify_eq|].
  destruct (settleDeletion _ _ _ _ _) as [[L1 r]|] eqn:E1; [|done]. simpl in Hs.
  etrans; [exact (settleDeletion_marks _ _ _ _ _ _ E1)|exact (IH _ Hs)].
Qed.

Lemma settleDeclaredDeletions_marks L tx L' ok : settleDeclaredDeletions c L tx = Some (L', ok) -> keepsMarks L L'.
Proof.
  unfold settleDeclaredDeletions. cbv zeta. destruct (Nat.eqb _ 0); [by intros [= <- _]|].
  destruct (existsb _ _); [by intros [= <- _]|]. destruct (l_coins L); [|by intros [= <- _]].
  destruct (settleAll _ _ _ _) as [L1|] eqn:E1; [|done]. simpl. intros [= <- _].
  exact (settleAll_marks _ _ _ _ E1).
Qed.

Lemma applyOp_marks gas sender epoch maxTerm L op L' :
  applyOp E c gas sender epoch maxTerm L op = Some L' -> keepsMarks L L'.
Proof.
  unfold applyOp. destruct (_ =? reparentOp).
  { intros [= <-]. unfold applyReparent, rewriteBodyOwner. cbv zeta. cbn.
    destruct (l_coins L); apply sameMarks_setParent. }
  destruct (_ =? deleteOp).
  { unfold applyDelete. cbv zeta. destruct (settleDeletion _ _ _ _ _) as [[L1 r]|] eqn:E1; [|done].
    simpl. intros [= <-]. exact (settleDeletion_marks _ _ _ _ _ _ E1). }
  unfold applyDomainOp, applyDomainRegister, applyDomainRenew, applyDomainUpdate, applyDomainTransfer,
    applyDomainDelete, writeDomainLeaf. cbv zeta.
  destruct (l_domains L) as [db|]; simpl; repeat case_match; intros; simplify_eq; done.
Qed.

Lemma applyDeclaredOps_marks gas sender epoch maxTerm ops L L' :
  applyDeclaredOps E c gas sender epoch maxTerm ops L = Some L' -> keepsMarks L L'.
Proof.
  revert L. induction ops as [|op ops IH]; intros L Hs; simpl in Hs; [by simplify_eq|].
  destruct (applyOp _ _ _ _ _ _ _ _) as [L1|] eqn:E1; [|done]. simpl in Hs.
  etrans; [exact (applyOp_marks _ _ _ _ _ _ _ E1)|exact (IH _ Hs)].
Qed.

Lemma commitDeclaredOps_marks L tx r split storage L' split' :
  commitDeclaredOps E c L tx r split storage = Some (L', split') -> keepsMarks L L'.
Proof.
  unfold commitDeclaredOps, handleDeclaredOps. cbv zeta.
  destruct (_ || _); [by intros [= <- <-]|]. destruct (hash32 _); [|by intros [= <- <-]].
  case_bool_decide; [by intros [= <- <-]|]. destruct (Nat.eqb _ 0); [by intros [= <- <-]|].
  destruct (maxTermEpochs c); [|done]. simpl. destruct (validateAll _ _ _ _); [|by intros [= <- <-]].
  destruct (applyDeclaredOps _ _ _ _ _ _ _ _) as [L1|] eqn:E1; [|done]. simpl. intros [= <- <-].
  exact (applyDeclaredOps_marks _ _ _ _ _ _ _ E1).
Qed.

Lemma stake_handlers_tracker L tx :
  l_tracker (fst (handleBond c L tx)) = l_tracker L /\ l_tracker (fst (handleUnbond c L tx)) = l_tracker L /\
  l_tracker (fst (handleDelegate E c L tx)) = l_tracker L /\ l_tracker (fst (handleUndelegate E c L tx)) = l_tracker L.
Proof.
  split_and!; unfold handleBond, handleUnbond, handleDelegate, handleUndelegate; cbv zeta;
    repeat case_match; done.
Qed.

Lemma deductFees_tracker L tx atx L' split storage ok :
  deductFees E c L tx atx = Some (L', split, storage, ok) -> l_tracker L' = l_tracker L.
Proof.
  unfold deductFees. intros Hd. repeat (case_match; simplify_option_eq; try done).
Qed.

Lemma register_tracker d tx r d' ok :
  handleRegisterValidator E c d tx r = Some (d', ok) -> l_tracker (d_ledger d') = l_tracker (d_ledger d).
Proof.
  unfold handleRegisterValidator. destruct (negb _); [by intros [= <- <-]|].
  destruct (hash32 _) as [pk|]; [|by intros [= <- <-]].
  destruct (DecodeRegisterValidatorArgs _) as [[[q b] p]|]; [|done]. simpl.
  destruct (verifiedRegistrationBLSKey _ _ _ _) as [bls proven]. destruct proven; simpl; [|by intros [= <- <-]].
  set (d1 := set_vals d _). set (d2 := recordCommittedMember c d1 pk r).
  destruct (recordCommittedMember_ledger c d1 pk r) as (Ht & _). fold d2 in Ht.
  destruct (setRewardCoinFromArgs _ _ _) as [vs|]; [|done]. simpl. intros [= <- <-].
  unfold enterTransition, addEpochAddition. repeat case_match; done.
Qed.

(** Pod execution writes tracker entries, never markers. *)
Context (Hexec : forall run L atx L' ok, executor E = Some run -> run L atx = (L', ok) -> keepsMarks L L').

Lemma executePodCall_marks d atx tx r split storage d' split' :
  executePodCall E c d atx tx r split storage = Some (d', split') -> keepsMarks (d_ledger d) (d_ledger d').
Proof using Hexec.
  unfold executePodCall. destruct (negb _); [by intros [= <- <-]|].
  destruct (handleRegisterValidator _ _ _ _ _) as [[d1 ok]|] eqn:Er; [|done]. simpl.
  apply register_tracker in Er. destruct ok; simpl; [|intros [= <- <-]; cbn; by rewrite Er].
  set (d2 := handleDeregisterValidator c d1 tx).
  assert (E2 : d_ledger d2 = d_ledger d1).
  { unfold d2, handleDeregisterValidator. destruct (negb _); [done|]. by destruct (hash32 _). }
  destruct (stake_handlers_tracker (d_ledger d2) tx) as (Hb & _).
  destruct (handleBond c (d_ledger d2) tx) as [L1 bonded]. simpl in Hb.
  set (d3 := if bonded then _ else _).
  assert (E3 : l_tracker (d_ledger d3) = l_tracker (d_ledger d)).
  { rewrite <- Er, <- E2, <- Hb. unfold d3. destruct bonded; [|done].
    apply (refreeze_ledger c (set_ledger d2 L1)). }
  set (L4 := fst (handleUndelegate _ _ _ _)).
  assert (E4 : l_tracker L4 = l_tracker (d_ledger d)).
  { unfold L4. rewrite (proj2 (proj2 (proj2 (stake_handlers_tracker _ tx)))).
    rewrite (proj1 (proj2 (proj2 (stake_handlers_tracker _ tx)))).
    by rewrite (proj1 (proj2 (stake_handlers_tracker _ tx))). }
  destruct (settleDeclaredDeletions c L4 tx) as [[L5 ok5]|] eqn:E5; [|done]. simpl.
  apply settleDeclaredDeletions_marks in E5. rewrite E4 in E5.
  destruct ok5; simpl; [|by intros [= <- <-]]. destruct (_ && _); [by intros [= <- <-]|].
  destruct (executor E) as [run|] eqn:Ee; [|by intros [= <- <-]].
  destruct (run L5 atx) as [L6 success] eqn:Ex. intros [= <- <-]. cbn.
  etrans; [exact E5|exact (Hexec run L5 atx L6 success eq_refl Ex)].
Qed.

(** What one transaction does to the markers. *)
Lemma executeTx_marks d atx tx r vs d' fees vs' :
  executeTx E c d atx r vs = Some (d', fees, vs') -> atx_Transaction atx = Some tx ->
  (forall x, wasCommitted (l_tracker (d_ledger d)) x = true -> wasCommitted (l_tracker (d_ledger d')) x = true) /\
  (forall x, preCheck E c tx r (fst (proofVerdict E atx r vs)) = None -> txCommitHash tx = Some x ->
     wasCommitted (l_tracker (d_ledger d')) x = true).
Proof using Hexec.
  intros Hx Hatx. unfold executeTx in Hx. rewrite Hatx in Hx.
  destruct (proofVerdict E atx r vs) as [pv vs1]. cbn [fst].
  destruct (preCheck E c tx r pv) as [reason|]; [by simplify_eq|].
  destruct (commitOnce (d_ledger d) tx) as [L1|] eqn:Eo.
  2:{ simplify_eq. split; [done|]. intros x _ Hh. unfold commitOnce in Eo. rewrite Hh in Eo.
      by destruct (wasCommitted _ x). }
  assert (H1 : (forall x, wasCommitted (l_tracker (d_ledger d)) x = true -> wasCommitted (l_tracker L1) x = true) /\
               (forall x, txCommitHash tx = Some x -> wasCommitted (l_tracker L1) x = true)).
  { unfold commitOnce in Eo. destruct (txCommitHash tx) as [y|]; [|by simplify_eq].
    destruct (wasCommitted _ _); [done|]. simplify_eq. cbn. split.
    - intros x Hc. by rewrite wasCommitted_mark, Hc, orb_true_r.
    - intros x [= ->]. by rewrite wasCommitted_mark, bool_decide_eq_true_2. }
  assert (H2 : sameMarks (l_tracker L1) (l_tracker (d_ledger d'))).
  { destruct (checkAndUpdate (l_tracker L1) tx) as [t ok] eqn:Ec.
    assert (Ht : sameMarks (l_tracker L1) t).
    { unfold checkAndUpdate in Ec. destruct (checkVersions _ _); injection Ec as <- _;
        [apply sameMarks_increment|done]. }
    destruct ok; simpl in Hx; [|by simplify_eq].
    destruct (deductFees _ _ _ _ _) as [[[[L2 split] storage] ok2]|] eqn:Ed; [|done]. simpl in Hx.
    apply deductFees_tracker in Ed. cbn in Ed. rewrite <- Ed in Ht.
    destruct ok2; simpl in Hx; [|by simplify_eq]. destruct (negb _).
    - destruct (commitDeclaredOps _ _ _ _ _ _ _) as [[L3 s3]|] eqn:Eq; [|done]. simpl in Hx. simplify_eq.
      apply commitDeclaredOps_marks in Eq. by etrans.
    - destruct (executePodCall _ _ _ _ _ _ _ _) as [[d3 s3]|] eqn:Eq; [|done]. simpl in Hx. simplify_eq.
      apply executePodCall_marks in Eq. by etrans. }
  destruct H1 as [Ha Hb]. split; intros x; rewrite (wasCommitted_same _ _ x H2); [apply Ha|intros _; apply Hb].
Qed.

Lemma processAtxs_marks d atxs r vs fees d' fees' vs' x :
  processAtxs E c d atxs r vs fees = Some (d', fees', vs') ->
  wasCommitted (l_tracker (d_ledger d)) x = true -> wasCommitted (l_tracker (d_ledger d')) x = true.
Proof using Hexec.
  revert d vs fees. induction atxs as [|atx atxs IH]; intros d vs fees Hp Hc; simpl in Hp; [by simplify_eq|].
  destruct (executeTx E c d atx r vs) as [[[d1 f1] vs1]|] eqn:Ex; [|done]. simpl in Hp.
  apply (IH _ _ _ Hp). destruct (atx_Transaction atx) as [tx|] eqn:Ha.
  - exact (proj1 (executeTx_marks _ _ _ _ _ _ _ _ Ex Ha) x Hc).
  - unfold executeTx in Ex. rewrite Ha in Ex. by simplify_eq.
Qed.

(** C35. Once a transaction has passed the gates, every later occurrence of its hash,
    after any number of other transactions, charges nothing and changes nothing but at
    most a failure record. *)
Theorem transaction_commits_once d atx tx r vs d1 fees1 vs1 others r2 vs2 fees2 d2 fees2' vs2' atx' tx' r3 vs3 hash :
  executeTx E c d atx r vs = Some (d1, fees1, vs1) -> atx_Transaction atx = Some tx ->
  preCheck E c tx r (fst (proofVerdict E atx r vs)) = None ->
  processAtxs E c d1 others r2 vs2 fees2 = Some (d2, fees2', vs2') ->
  atx_Transaction atx' = Some tx' -> txCommitHash tx = Some hash -> txCommitHash tx' = Some hash ->
  exists d3 vs3', executeTx E c d2 atx' r3 vs3 = Some (d3, noFees, vs3') /\
    (d3 = d2 \/ exists reason, d3 = emitTx d2 tx' false reason).
Proof using Hexec.
  intros Hx Ha Hp Hr Ha' Hh Hh'.
  destruct (executeTx_marks _ _ _ _ _ _ _ _ Hx Ha) as [_ Hm]. specialize (Hm hash Hp Hh).
  pose proof (processAtxs_marks _ _ _ _ _ _ _ _ hash Hr Hm) as Hm2.
  unfold executeTx. rewrite Ha'. destruct (proofVerdict E atx' r3 vs3) as [pv vs3'].
  destruct (preCheck E c tx' r3 pv) as [reason|]; [by eexists _, _; eauto|].
  unfold commitOnce. rewrite Hh', Hm2. by eexists _, _; eauto.
Qed.

End Frames.

(** The bond transaction of [Supply], carried twice. *)
Theorem transaction_commits_once_witness :
  exists d1 fees1 vs1, bondResult = Some (d1, fees1, vs1) /\
  exists d3 vs3', executeTx sampleEnv sampleConfig d1 bondAtx 4 None = Some (d3, noFees, vs3') /\
    (d3 = d1 \/ exists reason, d3 = emitTx d1 bondTx false reason).
Proof.
  destruct bondResult as [[[d1 fees1] vs1]|] eqn:Er; [|vm_compute in Er; discriminate Er].
  exists d1, fees1, vs1. split; [reflexivity|].
  apply (transaction_commits_once sampleEnv sampleConfig) with (d := bondDag) (atx := bondAtx) (tx := bondTx)
    (r := 3) (vs := None) (fees1 := fees1) (vs1 := vs1) (others := []) (r2 := 3) (vs2 := None) (fees2 := noFees)
    (d1 := d1) (fees2' := noFees) (vs2' := None) (hash := tx_Hash bondTx).
  - intros run L atx L' ok He. discriminate He.
  - exact Er.
  - reflexivity.
  - vm_compute. reflexivity.
  - reflexivity.
  - reflexivity.
  - vm_compute. reflexivity.
  - vm_compute. reflexivity.
Defined.
