(* ===== verification/Leaks.v ===== *)
(** * Where the commit path departs from the identity (commit.go)

    Concrete runs of [executeTx] on the ledger of Supply.v.  Each shows a
    branch that a transaction built by any client reaches. *)

From S2P Require Import Prelude Types Fees Validators Stake Storage Tracker Domains Staged Coins Ledger Ops Ingress Dag Commit Supply.

(** The hash [sampleCrypto] gives a transaction. *)
Definition sealTx (tx : Transaction) : Transaction :=
  mkTransaction (blake3 sampleCrypto (encodeBody sampleCrypto (rebuildUnsignedTxBody tx)))
    (tx_ReadRefs tx) (tx_MutableRefs tx) (tx_CreatedObjectsReplication tx) (tx_Sender tx) (tx_Signature tx)
    (tx_Pod tx) (tx_FunctionName tx) (tx_Args tx) (tx_MaxGas tx) (tx_GasCoin tx) (tx_FeePayer tx)
    (tx_SponsorSignature tx) (tx_ValidUntil tx) (tx_DeletedObjects tx) (tx_Operations tx).

Definition runTx (d : DAG (gmap bytes bytes)) (tx : Transaction) : option (DAG (gmap bytes bytes) * FeeSplit) :=
  r ← executeTx sampleEnv sampleConfig d (mkAtx (Some (sealTx tx)) [] [] 0) 3 None; Some (fst r).

(** The state after a transaction that does not panic. *)
Definition afterTx (d : DAG (gmap bytes bytes)) (tx : Transaction) : DAG (gmap bytes bytes) :=
  default d (fst <$> runTx d tx).

Definition coinsOf (d : DAG (gmap bytes bytes)) : Z := default 0 (cs_coins <$> l_coins (d_ledger d)).
Definition supplyOf (d : DAG (gmap bytes bytes)) : Z := default 0 (cs_supply <$> l_coins (d_ledger d)).
Definition bondedOf (d : DAG (gmap bytes bytes)) : Z := bonded (l_validators (d_ledger d)).
Definition lastReason (d : DAG (gmap bytes bytes)) : option FailReason := ct_Reason <$> last (l_committed (d_ledger d)).

(** Key 7 pays for one created object and references object 3, which key 8 owns. *)
Definition createTx : Transaction :=
  mkTransaction [] [] [mkTxRef (h 3) 0 []] [0] (h 7) (replicate 64 1) (h 4) (str "create") [] 100 (h 1) [] [] 0 [] [].

(** A transaction rejected for ownership loses its withheld storage deposit:
    the coin pays more than the pool receives, and no object or stake holds
    the rest. *)

(** A transaction that declares a created object and is rejected for ownership takes
    its storage deposit from the coin without pooling or locking it: coins fall by the
    fees plus the deposit, and nothing else changes. *)
Theorem ownership_reject_leaks_deposit :
  match runTx bondDag createTx with
  | None => False
  | Some (d, fees) =>
      lastReason d = Some FailOwner /\
      coinsOf bondDag - coinsOf d = fs_Epoch fees + addDeposits 0 [0] 1 DefaultFeeParams /\
      0 < addDeposits 0 [0] 1 DefaultFeeParams /\
      supplyOf d = supplyOf bondDag /\ bondedOf d = bondedOf bondDag /\
      map (getFees (l_tracker (d_ledger d))) [h 1; h 2; h 3] = map (getFees sampleTracker) [h 1; h 2; h 3]
  end.
Proof. vm_compute. split_and!; reflexivity. Qed.

(** ** Untyped coins *)

Definition delegateTx (version amount : Z) : Transaction :=
  mkTransaction [] [] [mkTxRef (h 1) version []] [] (h 7) (replicate 64 1) (h 0) delegateFunc (h 7 ++ le_enc 8 amount)
    100 (h 1) [] [] 0 [] [].

Definition position : Hash := DelegationID sampleCrypto (h 7) (h 7).

Definition bondPositionTx : Transaction :=
  mkTransaction [] [] [mkTxRef position 0 []] [] (h 7) (replicate 64 1) (h 0) bondFunc (le_enc 8 1000000)
    100 (h 1) [] [] 0 [] [].

(** A delegator bonds its own delegation position as if it were a coin: the
    first eight bytes of the validator key in it read as a balance, and stake
    appears that no coin paid for. *)

(** A delegator's own delegation position is accepted as the coin of a bond, and a
    million of stake appears that exceeds the whole supply. *)
Theorem position_bonds_as_coin :
  let d1 := afterTx bondDag (delegateTx 1 30) in
  let d2 := afterTx d1 bondPositionTx in
  lastReason d2 = Some FailNone /\ bondedOf d2 = bondedOf d1 + 1000000 /\ supplyOf d2 = supplyOf d1 /\
  supplyOf d2 < bondedOf d2.
Proof. cbv zeta. vm_compute. split_and!; reflexivity. Qed.

(** A second delegation to the same validator replaces the position: the first
    principal stays in the validator's total with no object to withdraw it. *)

(** Delegating 30 and then 20 to one validator leaves a delegated total of 50 behind
    a position of 20. *)
Theorem second_delegation_overwrites_first :
  let d2 := afterTx (afterTx bondDag (delegateTx 1 30)) (delegateTx 2 20) in
  (DelegatedTotal <$> Validators.Get (l_validators (d_ledger d2)) (h 7)) = Some 50 /\
  (l_coins (d_ledger d2) ≫= fun st => readDelegationAmount st position (h 7)) = Some 20.
Proof. cbv zeta. vm_compute. split_and!; reflexivity. Qed.

(** ** A panic in the commit loop *)

Definition badRegisterTx : Transaction :=
  mkTransaction [] [] [] [] (h 8) (replicate 64 1) (h 0) registerValidatorFunc (replicate 4 255) 0 [] [] [] 0 [] [].

(** A registration without gas coin whose first length prefix is [2^32 - 1]
    passes ingress and every gate, and its decoding panics at commit. *)

(** A registration without gas coin whose first length prefix is 2^32-1 passes
    ingress validation, and executing it at commit panics in the argument decoder. *)
Theorem bad_registration_panics_commit :
  ValidateTx sampleCrypto (sealTx badRegisterTx) = true /\ runTx bondDag badRegisterTx = None.
Proof. split; vm_compute; reflexivity. Qed.
