(* ===== verification/Epoch.v ===== *)
(** * The epoch boundary (internal/consensus/epoch.go, thermostat.go)

    Settlement of the epoch that closed one boundary ago (issuance and reward
    distribution), churn-limited removals and additions, the sweep of expired
    domains, and the freeze of the incoming epoch's holder committee. *)

From S2P Require Import Prelude Types Fees Validators Stake Thermostat Storage Tracker Domains Staged Coins Ledger Ops Ingress Dag Commit Supply.

(** ** Reward weights *)

Definition rewardWeight (v : ValidatorInfo) (produced : gmap Hash Z) : Z :=
  safeMul (EffectiveStake v) (default 0 (produced !! Pubkey v)).

(** [totalRewardWeight] (thermostat.go). *)
Definition totalRewardWeight (vs : ValidatorSet) (produced : gmap Hash Z) : Z :=
  foldl (fun total v => safeAdd total (safeMul (EffectiveStake v) (default 0 (produced !! Pubkey v)))) 0 (All vs).

(** [pickRemainderRecipient]: the heaviest, ties to the lower key. *)
Definition pickRemainderRecipient (vals : list ValidatorInfo) (weightOf : ValidatorInfo -> Z) : Hash :=
  fst (foldl (fun '(best, bestWeight) v =>
    let w := weightOf v in
    if w =? 0 then (best, bestWeight)
    else if (bestWeight <? w) || ((w =? bestWeight) && bytes_ltb (Pubkey v) best) then (Pubkey v, w)
    else (best, bestWeight)) (zeroHash, 0) vals).

Definition releasedSelfStake (v : option ValidatorInfo) : Z :=
  match v with
  | Some v => if Jailed v then 0 else SelfStake v
  | None => 0
  end.

Definition sortedAdditions (additions : list Hash) (limit : Z) : list Hash :=
  let sorted := sortHashes additions in
  if limit <? Z.of_nat (length sorted) then take (Z.to_nat limit) sorted else sorted.

Section Epoch.
Context {M : Type} `{Pebble M} (E : Env M) (c : Config).
(** Whether the delegation enumerator is wired (it is on a node). *)
Context (wired : bool).
Implicit Types (L : Ledger M) (d : DAG M).

Definition isEpochBoundary (round : Z) : bool :=
  if epochLength c =? 0 then false
  else if round =? 0 then false
  else round mod epochLength c =? 0.

(** ** Crediting one validator.  A [CoinStore] and the validator set are moved
    together; [None] is a run-time panic. *)

Definition delegatorShares (st : CoinStore) (validator : Hash) : list delegatorShare :=
  if wired then DelegationsFor st validator else [].

Definition compoundDelegation (st : CoinStore) (vs : ValidatorSet) (delegator validator : Hash) (reward : Z)
    : CoinStore * ValidatorSet * bool :=
  if reward =? 0 then (st, vs, false)
  else
    let posID := DelegationID (crypto E) delegator validator in
    match readDelegationAmount st posID validator with
    | None => (st, vs, false)
    | Some current =>
        (SetObject st (buildDelegationObject (crypto E) delegator validator (safeAdd current reward)),
         fst (AddDelegated vs validator reward), true)
    end.

Fixpoint creditDelegators (st : CoinStore) (vs : ValidatorSet) (payouts : list delegatorShare) (validator : Hash)
    (credited : Z) : CoinStore * ValidatorSet * Z :=
  match payouts with
  | [] => (st, vs, credited)
  | del :: payouts =>
      match compoundDelegation st vs (ds_Delegator del) validator (ds_Amount del) with
      | (st, vs, false) => creditDelegators st vs payouts validator credited
      | (st, vs, true) => creditDelegators st vs payouts validator (credited +w ds_Amount del)
      end
  end.

(** [v] is the copy read before the loop, as in the code. *)
Definition creditValidatorReward (st : CoinStore) (vs : ValidatorSet) (v : ValidatorInfo) (amount : Z)
    : CoinStore * ValidatorSet * Z :=
  if bool_decide (RewardCoin v = zeroHash) then
    (st, SetSelfStake vs (Pubkey v) (safeAdd (SelfStake v) amount), amount)
  else
    let restake := safeMul amount (AutoRestakeMille (thermostat c)) / milleMax in
    let liquid := amount -w restake in
    let vs := if 0 <? restake then SetSelfStake vs (Pubkey v) (safeAdd (SelfStake v) restake) else vs in
    match creditCoin st (RewardCoin v) liquid with
    | (st, false) => (st, vs, restake)
    | (st, true) => (st, vs, restake +w liquid)
    end.

Definition creditShare (st : CoinStore) (vs : ValidatorSet) (v : ValidatorInfo) (share : Z)
    : option (CoinStore * ValidatorSet * Z) :=
  let dels := delegatorShares st (Pubkey v) in
  r ← splitValidatorReward share (SelfStake v) (commissionBPS c) dels;
  let '(validatorAmount, payouts) := r in
  let '(st, vs, a) := creditDelegators st vs payouts (Pubkey v) 0 in
  let '(st, vs, b) := creditValidatorReward st vs v validatorAmount in
  Some (st, vs, a +w b).

Definition creditRemainder (st : CoinStore) (vs : ValidatorSet) (top : Hash) (remainder : Z) : CoinStore * Z :=
  if remainder =? 0 then (st, 0)
  else match Validators.Get vs top with
  | None => (st, 0)
  | Some info =>
      if bool_decide (RewardCoin info = zeroHash) then (st, 0)
      else match creditCoin st (RewardCoin info) remainder with
      | (st, false) => (st, 0)
      | (st, true) => (st, remainder)
      end
  end.

(** The loop of [distributeEpochRewards]. *)
Fixpoint creditShares (st : CoinStore) (vs : ValidatorSet) (vals : list ValidatorInfo) (produced : gmap Hash Z)
    (pool totalWeight distributed : Z) : option (CoinStore * ValidatorSet * Z) :=
  match vals with
  | [] => Some (st, vs, distributed)
  | v :: vals =>
      let share := safeMul pool (rewardWeight v produced) / totalWeight in
      r ← creditShare st vs v share;
      let '(st, vs, credited) := r in
      creditShares st vs vals produced pool totalWeight (distributed +w credited)
  end.

Definition distributeEpochRewards d (epoch issuance : Z) : option (DAG M * Z) :=
  let L := d_ledger d in
  let w := d_rewards d in
  let produced := default ∅ (epochRoundsProduced w !! epoch) in
  let pool := safeAdd (default 0 (epochFees w !! epoch)) issuance in
  match l_coins L with
  | None => Some (d, pool)
  | Some st =>
      let totalWeight := totalRewardWeight (l_validators L) produced in
      if (pool =? 0) || (totalWeight =? 0) then Some (d, pool)
      else
        _ ← mustFeeParams c;
        let vals := All (l_validators L) in
        let top := pickRemainderRecipient vals (fun v => rewardWeight v produced) in
        r ← creditShares st (l_validators L) vals produced pool totalWeight 0;
        let '(st, vs, distributed) := r in
        let '(st, credited) := creditRemainder st vs top (pool -w distributed) in
        Some (set_ledger d (set_validators (set_coins L (Some st)) vs), pool -w (distributed +w credited))
  end.

Definition runThermostat d (distributable : bool) : DAG M * Z :=
  match l_coins (d_ledger d) with
  | None => (d, 0)
  | Some st =>
      let preMint := cs_supply st in
      let bonded := totalBonded (l_validators (d_ledger d)) in
      let ratio := stakingRatioMille bonded preMint in
      let w := d_rewards d in
      let rate := adjustRate (issuanceRateMicro w) ratio (thermostat c) in
      let d := set_rewards d (mkRewards (epochFees w) (epochRoundsProduced w) rate) in
      if negb distributable then (d, 0)
      else
        let issuance := issuanceFor rate preMint in
        (set_ledger d (set_coins (d_ledger d) (Some (AddSupply st issuance))), issuance)
  end.

Definition settleDeferredEpoch d : option (DAG M) :=
  let current := currentEpoch (d_epochs d) in
  if current =? 0 then Some d
  else
    let epoch := current - 1 in
    let produced := default ∅ (epochRoundsProduced (d_rewards d) !! epoch) in
    let distributable := 0 <? totalRewardWeight (l_validators (d_ledger d)) produced in
    let '(d, issuance) := runThermostat d distributable in
    r ← distributeEpochRewards d epoch issuance;
    let '(d, leftover) := r in
    let w := d_rewards d in
    let fees := delete epoch (epochFees w) in
    let fees := if 0 <? leftover then <[current := safeAdd (default 0 (fees !! current)) leftover]> fees else fees in
    Some (set_rewards d (mkRewards fees (delete epoch (epochRoundsProduced w)) (issuanceRateMicro w))).

(** ** Removals *)

Definition hasBondedDelegations (vs : ValidatorSet) (pk : Hash) : bool :=
  match Validators.Get vs pk with Some info => 0 <? DelegatedTotal info | None => false end.

Definition returnDeregisteredStake L (pk : Hash) : Ledger M * bool :=
  let info := Validators.Get (l_validators L) pk in
  let principal := releasedSelfStake info in
  if principal =? 0 then (L, true)
  else match l_coins L, info with
  | Some st, Some info =>
      if bool_decide (RewardCoin info = zeroHash) then (L, false)
      else match creditCoin st (RewardCoin info) principal with
      | (_, false) => (L, false)
      | (st, true) => (set_coins L (Some st), true)
      end
  | _, _ => (L, false)
  end.

(** The loop of [applyPendingRemovals] over the sorted keys. *)
Fixpoint removeLoop L (pending : gset Hash) (keys : list Hash) (removed : list Hash)
    : Ledger M * gset Hash * list Hash :=
  match keys with
  | [] => (L, pending, removed)
  | pk :: keys =>
      if (0 <? maxChurnPerEpoch c) && (maxChurnPerEpoch c <=? Z.of_nat (length removed)) then (L, pending, removed)
      else if hasBondedDelegations (l_validators L) pk then removeLoop L pending keys removed
      else match returnDeregisteredStake L pk with
      | (L, false) => removeLoop L pending keys removed
      | (L, true) =>
          removeLoop (set_validators L (fst (Remove (l_validators L) pk))) (pending ∖ {[ pk ]}) keys (removed ++ [pk])
      end
  end.

Definition set_pending d (pending : gset Hash) : DAG M :=
  let e := d_epochs d in
  set_epochs d (mkEpochs (currentEpoch e) (epochHolders e) (prevEpochHolders e) (nextEpochHolders e)
    (eligibleHolders e) (prevEligibleHolders e) (nextEligibleHolders e) (epochMirror e) pending (epochAdditions e)).

Definition applyPendingRemovals d : DAG M * list Hash :=
  let pending := pendingRemovals (d_epochs d) in
  let '(L, pending, removed) := removeLoop (d_ledger d) pending (sortedMemberKeys pending) [] in
  (set_pending (set_ledger d L) pending, removed).

(** ** The incoming committee *)

Definition churnLimitedAdditions d : list Hash :=
  let additions := epochAdditions (d_epochs d) in
  if (maxChurnPerEpoch c =? 0) || (Z.of_nat (length additions) <=? maxChurnPerEpoch c) then additions
  else sortedAdditions additions (maxChurnPerEpoch c).

Definition admitted d (v : ValidatorInfo) : bool :=
  let members := committedMembers (d_regime d) in
  let tracked := negb (Nat.eqb (size members) 0) in
  if tracked && negb (bool_decide (Pubkey v ∈ members)) then false
  else negb (bool_decide (Pubkey v ∈ epochAdditions (d_epochs d))) ||
       bool_decide (Pubkey v ∈ churnLimitedAdditions d).

(** [snapshotEpochHolders]: the frozen set. *)
Definition snapshotEpochHolders d : ValidatorSet :=
  foldl (fun frozen v => if admitted d v then addFrozen frozen v else frozen)
        (NewValidatorSet []) (All (l_validators (d_ledger d))).

(** ** The transition *)

(** The membership writes of [transitionEpoch] after the sweep, up to and
    including [clearEpochState] and [setCurrentEpoch]. *)
Definition freezeIncoming d : DAG M :=
  let e := d_epochs d in
  let prevHolders := match epochHolders e with
                     | Some vs => vs
                     | None => snapshotOf (l_validators (d_ledger d))
                     end in
  let holders := snapshotEpochHolders d in
  let L := rebuildIndexValidators (d_ledger d) (currentEpoch e +w 1) (All holders) in
  let prevEligible := match eligibleHolders e with Some s => s | None => snapshotProduced d end in
  let eligible := snapshotProduced d in
  set_epochs (set_ledger d L)
    (mkEpochs (currentEpoch e +w 1) (Some holders) (Some prevHolders) (Some holders)
       (Some eligible) (Some prevEligible) (Some eligible) (epochMirror e) (pendingRemovals e) []).

Definition transitionEpoch d : option (DAG M) :=
  d ← settleDeferredEpoch d;
  let '(d, removed) := applyPendingRemovals d in
  L ← sweepExpiredDomains c (d_ledger d) (currentEpoch (d_epochs d) +w 1);
  Some (publishEpochMirror (freezeIncoming (set_ledger d L))).

End Epoch.

(** ** The frozen committee *)

(** A validator as the snapshot stores it: the reward coin is not copied. *)
Definition frozenInfo (v : ValidatorInfo) : ValidatorInfo :=
  mkInfo (Pubkey v) (QUICAddr v) (BLSPubkey v) (SelfStake v) (DelegatedTotal v) (Jailed v) zeroHash.

Lemma addFrozen_new vs v q :
  vs_ok vs -> Validators.Get vs (Pubkey v) = None ->
  vs_ok (addFrozen vs v) /\
  Validators.Get (addFrozen vs v) q = if decide (q = Pubkey v) then Some (frozenInfo v) else Validators.Get vs q.
Proof.
  intros Hok Hg. assert (Hi : index vs !! Pubkey v = None).
  { unfold Validators.Get in Hg. destruct (index vs !! Pubkey v) as [i|] eqn:Ei; [|done].
    destruct (vs_ok_lookup _ _ _ Hok Ei) as (w & Hw & _). congruence. }
  assert (He : addFrozen vs v = append vs (frozenInfo v)).
  { unfold addFrozen, AddWithStake. rewrite Hi. done. }
  rewrite He. split; [by apply append_ok|]. by rewrite append_Get.
Qed.

Lemma addFrozen_fold (P : ValidatorInfo -> bool) l vs :
  vs_ok vs -> NoDup (map Pubkey l) -> (forall v, v ∈ l -> Validators.Get vs (Pubkey v) = None) ->
  let vs' := foldl (fun frozen v => if P v then addFrozen frozen v else frozen) vs l in
  vs_ok vs' /\ forall q w, Validators.Get vs' q = Some w <->
    Validators.Get vs q = Some w \/ exists v, v ∈ l /\ P v = true /\ Pubkey v = q /\ w = frozenInfo v.
Proof.
  revert vs. induction l as [|v l IH]; intros vs Hok Hnd Hn; simpl.
  { split; [done|]. intros q w. split; [by left|]. intros [?|(x & Hx & _)]; [done|by apply elem_of_nil in Hx]. }
  apply NoDup_cons in Hnd as [Hv Hnd].
  assert (Hne : forall x, x ∈ l -> Pubkey x <> Pubkey v).
  { intros x Hx Ee. apply Hv. rewrite <- Ee. by apply list_elem_of_fmap_2. }
  pose proof (Hn v ltac:(by left)) as Hnv.
  destruct (P v) eqn:Pv.
  - destruct (addFrozen_new vs v (Pubkey v) Hok Hnv) as [Hok' _].
    destruct (IH (addFrozen vs v) Hok' Hnd) as [H1 H2].
    { intros x Hx. rewrite (proj2 (addFrozen_new vs v (Pubkey x) Hok Hnv)), decide_False by auto. apply Hn. by right. }
    split; [done|]. intros q w. rewrite H2, (proj2 (addFrozen_new vs v q Hok Hnv)).
    setoid_rewrite elem_of_cons. destruct (decide (q = Pubkey v)) as [->|Hq].
    + split.
      * intros [[= <-]|(x & Hx & Px & Ex & ->)]; [right; exists v; eauto|right; exists x; eauto].
      * intros [Hg|(x & [->|Hx] & Px & Ex & ->)]; [congruence|by left|by destruct (Hne x Hx)].
    + split.
      * intros [?|(x & Hx & Px & Ex & ->)]; [by left|right; exists x; eauto].
      * intros [?|(x & [->|Hx] & Px & Ex & ->)]; [by left|by destruct Hq|right; exists x; eauto].
  - destruct (IH vs Hok Hnd) as [H1 H2]; [intros x Hx; apply Hn; by right|]. split; [done|].
    intros q w. rewrite H2. setoid_rewrite elem_of_cons. split.
    + intros [?|(x & Hx & Px & Ex & ->)]; [by left|right; exists x; eauto].
    + intros [?|(x & [->|Hx] & Px & Ex & ->)]; [by left|congruence|right; exists x; eauto].
Qed.

(** The committee frozen for an epoch holds exactly the live validators that are
    committed members (when membership is tracked) and are not additions past the churn
    cap, each with its live stake. *)
Theorem committee_is_committed {M} (c : Config) (d : DAG M) pk w :
  vs_ok (l_validators (d_ledger d)) ->
  Validators.Get (snapshotEpochHolders c d) pk = Some w <->
  (exists v, Validators.Get (l_validators (d_ledger d)) pk = Some v /\ w = frozenInfo v) /\
  (committedMembers (d_regime d) = ∅ \/ pk ∈ committedMembers (d_regime d)) /\
  (pk ∉ epochAdditions (d_epochs d) \/ pk ∈ churnLimitedAdditions c d).
Proof.
  intros Hok. unfold snapshotEpochHolders, All.
  destruct (addFrozen_fold (admitted c d) (validators (l_validators (d_ledger d))) (NewValidatorSet []))
    as [_ ->]; [by apply NewValidatorSet_ok, NoDup_nil|by apply vs_ok_NoDup|done|].
  assert (Had : forall v, Pubkey v = pk -> admitted c d v = true <->
    (committedMembers (d_regime d) = ∅ \/ pk ∈ committedMembers (d_regime d)) /\
    (pk ∉ epochAdditions (d_epochs d) \/ pk ∈ churnLimitedAdditions c d)).
  { intros v Ev. unfold admitted. cbv zeta. rewrite Ev.
    destruct (Nat.eqb_spec (size (committedMembers (d_regime d))) 0) as [Hz|Hz]; simpl.
    - rewrite size_empty_iff in Hz. apply leibniz_equiv in Hz. rewrite Hz, orb_true_iff, negb_true_iff, bool_decide_eq_false, bool_decide_eq_true.
      tauto.
    - assert (committedMembers (d_regime d) <> ∅) by (intros Ee; apply Hz; by rewrite Ee, size_empty).
      case_bool_decide; simpl; [|naive_solver]. rewrite orb_true_iff, negb_true_iff, bool_decide_eq_false, bool_decide_eq_true. tauto. }
  assert (Hin : forall v, Validators.Get (l_validators (d_ledger d)) pk = Some v <->
                          v ∈ validators (l_validators (d_ledger d)) /\ Pubkey v = pk).
  { intros v. split.
    - intros Hg. split; [|by eapply Get_Some_Pubkey].
      destruct (Get_index _ _ _ Hok Hg) as (i & _ & Hi). by eapply list_elem_of_lookup_2.
    - intros [Hv <-]. apply list_elem_of_lookup in Hv as [i Hi]. unfold Validators.Get.
      rewrite (proj2 (Hok (Pubkey v) i)) by eauto. done. }
  split.
  - intros [Hg|(v & Hv & Pv & Ev & ->)]; [by vm_compute in Hg|]. apply (Had v Ev) in Pv. split; [|done].
    exists v. split; [by apply Hin|done].
  - intros [(v & Hg & ->) Hc]. right. exists v. apply Hin in Hg as [Hv Ev]. split_and!; auto. by apply Had.
Qed.

(** ** Churn *)

Lemma removeLoop_churn {M} `{Pebble M} (c : Config) keys (L : Ledger M) pending removed :
  (0 < maxChurnPerEpoch c -> Z.of_nat (length removed) <= maxChurnPerEpoch c) ->
  let '(L', pending', removed') := removeLoop c L pending keys removed in
  (0 < maxChurnPerEpoch c -> Z.of_nat (length removed') <= maxChurnPerEpoch c) /\
  exists new, removed' = removed ++ new /\ (forall x, x ∈ new -> x ∈ keys) /\ pending' = pending ∖ list_to_set new.
Proof.
  revert L pending removed. induction keys as [|pk keys IH]; intros L pending removed Hc; simpl.
  { split; [done|]. exists []. rewrite app_nil_r. split_and!; [done|set_solver|set_solver]. }
  assert (Hstop : (0 < maxChurnPerEpoch c -> Z.of_nat (length removed) <= maxChurnPerEpoch c) /\
    exists new, removed = removed ++ new /\ (forall x, x ∈ new -> x ∈ pk :: keys) /\ pending = pending ∖ list_to_set new).
  { split; [done|]. exists []. rewrite app_nil_r. split_and!; [done|set_solver|set_solver]. }
  assert (Hskip : forall L' : Ledger M, let '(L1, p1, r1) := removeLoop c L' pending keys removed in
    (0 < maxChurnPerEpoch c -> Z.of_nat (length r1) <= maxChurnPerEpoch c) /\
    exists new, r1 = removed ++ new /\ (forall x, x ∈ new -> x ∈ pk :: keys) /\ p1 = pending ∖ list_to_set new).
  { intros L'. pose proof (IH L' pending removed Hc) as H1. destruct (removeLoop _ _ _ _ _) as [[L1 p1] r1].
    destruct H1 as (H1 & new & -> & H2 & H3). split; [done|]. exists new. split_and!; auto. set_solver. }
  destruct ((0 <? maxChurnPerEpoch c) && (maxChurnPerEpoch c <=? Z.of_nat (length removed))) eqn:Eb; [exact Hstop|].
  destruct (hasBondedDelegations _ _); [apply Hskip|]. destruct (returnDeregisteredStake L pk) as [L0 ok].
  destruct ok; [|apply Hskip].
  assert (Hc' : 0 < maxChurnPerEpoch c -> Z.of_nat (length (removed ++ [pk])) <= maxChurnPerEpoch c).
  { intros Hm. rewrite length_app. simpl. apply andb_false_iff in Eb as [Eb|Eb]; zb; lia. }
  pose proof (IH (set_validators L0 (fst (Remove (l_validators L0) pk))) (pending ∖ {[pk]}) _ Hc') as H1.
  destruct (removeLoop _ _ _ _ _) as [[L1 p1] r1]. destruct H1 as (H1 & new & -> & H2 & ->). split; [done|].
  exists (pk :: new). rewrite <- app_assoc. split_and!; [done|set_solver|set_solver].
Qed.

(** With a churn cap set, a boundary removes and admits at most that many validators,
    removes only requested ones and keeps every other request pending. *)
Theorem churn_is_bounded {M} `{Pebble M} (c : Config) (d : DAG M) :
  0 < maxChurnPerEpoch c ->
  let '(d', removed) := applyPendingRemovals c d in
  Z.of_nat (length removed) <= maxChurnPerEpoch c /\
  Z.of_nat (length (churnLimitedAdditions c d)) <= maxChurnPerEpoch c /\
  (forall pk, pk ∈ removed -> pk ∈ pendingRemovals (d_epochs d)) /\
  pendingRemovals (d_epochs d') = pendingRemovals (d_epochs d) ∖ list_to_set removed.
Proof.
  intros Hm. unfold applyPendingRemovals. cbv zeta. set (pend := pendingRemovals (d_epochs d)).
  pose proof (removeLoop_churn c (sortedMemberKeys pend) (d_ledger d) pend []) as H1.
  destruct (removeLoop _ _ _ _ _) as [[L1 p1] removed]. destruct H1 as (H1 & new & -> & H2 & ->); [simpl; lia|].
  split; [by apply H1|]. split.
  - unfold churnLimitedAdditions, sortedAdditions. cbv zeta.
    destruct (Z.eqb_spec (maxChurnPerEpoch c) 0); [lia|]. simpl.
    destruct (Z.leb_spec (Z.of_nat (length (epochAdditions (d_epochs d)))) (maxChurnPerEpoch c)); [done|].
    rewrite length_sortHashes. destruct (Z.ltb_spec (maxChurnPerEpoch c) (Z.of_nat (length (epochAdditions (d_epochs d)))));
      [rewrite length_take; lia|lia].
  - split; [|done]. intros pk Hpk. apply H2 in Hpk. unfold sortedMemberKeys in Hpk.
    by apply elem_of_sortHashes, elem_of_elements in Hpk.
Qed.

(** Keys 7 and 8 are committed members; key 9 added itself and is not. *)
Definition committeeDag : DAG (gmap bytes bytes) :=
  mkDAG (mkLedger ∅ None None (NewValidatorSet [h 7; h 8; h 9]) None [])
    (mkRegime {[ h 7; h 8 ]} ∅ true 0 0 true false false)
    (mkEpochs 2 None None None None None None None {[ h 3; h 8 ]} [h 8])
    (mkRewards ∅ ∅ 0).

Definition churnConfig : Config :=
  mkConfig (h 0) (Some DefaultFeeParams) 0 0 1000 100 0 0 10 1 (thermostat sampleConfig).

Theorem committee_is_committed_witness :
  Validators.Get (snapshotEpochHolders churnConfig committeeDag) (h 9) = None /\
  is_Some (Validators.Get (snapshotEpochHolders churnConfig committeeDag) (h 8)).
Proof.
  assert (Hok : vs_ok (l_validators (d_ledger committeeDag))).
  { apply NewValidatorSet_ok. apply (bool_decide_unpack _). vm_compute. exact I. }
  split; [vm_compute; reflexivity|].
  exists (newInfo (h 8) [] zeroBLS). apply (committee_is_committed churnConfig committeeDag (h 8) _ Hok).
  split; [eexists; split; vm_compute; reflexivity|].
  split; right; apply (bool_decide_unpack _); vm_compute; exact I.
Defined.

Theorem churn_is_bounded_witness :
  let '(d', removed) := applyPendingRemovals churnConfig committeeDag in
  Z.of_nat (length removed) <= maxChurnPerEpoch churnConfig.
Proof.
  pose proof (churn_is_bounded churnConfig committeeDag ltac:(reflexivity)) as Hc.
  destruct (applyPendingRemovals churnConfig committeeDag) as [d' removed]. exact (proj1 Hc).
Defined.

(** Key 3 is no validator, yet its deregistration fills the epoch's budget and
    the departure of key 8 waits. *)
Theorem stranger_consumes_churn :
  Contains (l_validators (d_ledger committeeDag)) (h 3) = false /\
  snd (applyPendingRemovals churnConfig committeeDag) = [h 3] /\
  pendingRemovals (d_epochs (fst (applyPendingRemovals churnConfig committeeDag))) = {[ h 8 ]}.
Proof. vm_compute. auto. Qed.
