(* ===== verification/Rewards.v ===== *)
(** * Conservation at the epoch boundary

    Theorems about Epoch.v: the pool an epoch distributes is credited to coins
    and stakes or carried forward, removals move stake to coins, and the whole
    transition keeps the supply identity. *)

From S2P Require Import Prelude Types Fees Validators Stake Thermostat Storage Tracker Domains Staged Coins Ledger Ops Ingress Dag Commit Supply Epoch.

(** ** Delegation positions in the store *)

Definition amountFor (v : Hash) (o : Object) : Z :=
  match decodeDelegationPosition o v with Some s => ds_Amount s | None => 0 end.

(** Every object taken for a position of [v], whatever its key. *)
Definition posSum (st : CoinStore) (v : Hash) : Z := mapSum (amountFor v) (cs_objects st).

Record positions_ok (st : CoinStore) (v : ValidatorInfo) : Prop := {
  po_amounts : map_Forall (fun _ o => forall s, decodeDelegationPosition o (Pubkey v) = Some s ->
                 0 < ds_Amount s /\ is_u64 (ds_Amount s)) (cs_objects st);
  po_backed : posSum st (Pubkey v) <= DelegatedTotal v;
}.

(** A coin the rewards may be paid to: stored under its own ID, and not of a
    position's size. *)
Definition payable (st : CoinStore) (id : Hash) : Prop :=
  forall o, GetObject st id = Some o -> length (obj_content o) <> 40%nat /\ extractObjectID o = id.

Lemma sumShares_omap (f : Hash * Object -> option delegatorShare) l g :
  (forall kv s, kv ∈ l -> f kv = Some s -> ds_Amount s <= g (snd kv)) ->
  (forall kv, kv ∈ l -> 0 <= g (snd kv)) ->
  sumShares (omap f l) <= sumZ (map (fun kv => g (snd kv)) l).
Proof.
  induction l as [|kv l IH]; intros Hf Hg; [done|].
  assert (IH' : sumShares (omap f l) <= sumZ (map (fun kv => g (snd kv)) l)).
  { apply IH; intros; [by eapply Hf; [by right|]|by apply Hg; right]. }
  simpl. destruct (f kv) as [s|] eqn:Es.
  - pose proof (Hf kv s ltac:(by left) Es). unfold sumShares in *. simpl.
    change (list_omap _ _ f l) with (omap f l). lia.
  - pose proof (Hg kv ltac:(by left)). change (list_omap _ _ f l) with (omap f l). lia.
Qed.

Lemma DelegationsFor_ok st v :
  positions_ok st v ->
  Forall (fun d => 0 < ds_Amount d /\ is_u64 (ds_Amount d)) (DelegationsFor st (Pubkey v)) /\
  0 <= sumShares (DelegationsFor st (Pubkey v)) <= DelegatedTotal v.
Proof.
  intros [Ha Hb].
  assert (Hp : Forall (fun d => 0 < ds_Amount d /\ is_u64 (ds_Amount d)) (DelegationsFor st (Pubkey v))).
  { apply Forall_forall. intros s Hs. unfold DelegationsFor in Hs.
    apply list_elem_of_omap in Hs as ([k o] & Hin & He). simpl in He. destruct (isObjectKey k); [|done].
    rewrite merge_sort_Permutation in Hin. apply elem_of_map_to_list in Hin. by apply (Ha k o Hin). }
  split; [done|]. split.
  { apply sumZ_map_nonneg. intros s Hs. rewrite Forall_forall in Hp. destruct (Hp s Hs). lia. }
  etrans; [|exact Hb]. unfold posSum, mapSum.
  rewrite <- (sumZ_perm _ _ (Permutation_map _ (merge_sort_Permutation keyOrder (map_to_list (cs_objects st))))).
  assert (Hnn : forall kv, kv ∈ merge_sort keyOrder (map_to_list (cs_objects st)) -> 0 <= amountFor (Pubkey v) (snd kv)).
  { intros [k o] Hin. rewrite merge_sort_Permutation in Hin. apply elem_of_map_to_list in Hin.
    unfold amountFor. simpl. destruct (decodeDelegationPosition o (Pubkey v)) eqn:Ed; [|done].
    destruct (Ha k o Hin _ Ed). lia. }
  unfold DelegationsFor. apply sumShares_omap; [|done].
  intros [k o] s Hin He. simpl in *. destruct (isObjectKey k); [|done]. unfold amountFor. by rewrite He.
Qed.

(** Replacing an object that is no position of [v] by another one. *)
Lemma positions_ok_replace st v k o o' :
  positions_ok st v -> GetObject st k = Some o ->
  decodeDelegationPosition o (Pubkey v) = None -> decodeDelegationPosition o' (Pubkey v) = None ->
  positions_ok (set_objects st (<[k := o']> (cs_objects st))) v.
Proof.
  intros [Ha Hb] Hg Hn Hn'. split; cbn [set_objects cs_objects].
  - apply map_Forall_insert_2; [|done]. intros s. by rewrite Hn'.
  - unfold posSum in *. cbn [set_objects cs_objects]. rewrite mapSum_insert. unfold GetObject in Hg. rewrite Hg.
    cbn. unfold amountFor at 2 3. rewrite Hn, Hn'. lia.
Qed.

Lemma decode_other_size o v : length (obj_content o) <> 40%nat -> decodeDelegationPosition o v = None.
Proof.
  intros Hl. unfold decodeDelegationPosition. destruct (Nat.eqb_spec (length (obj_content o)) delegationContentSize); [|done].
  unfold delegationContentSize in *. lia.
Qed.

Lemma decode_other_validator o u v : slice 0 32 (obj_content o) = u -> u <> v -> decodeDelegationPosition o v = None.
Proof.
  intros Hs Hne. unfold decodeDelegationPosition. destruct (negb _); [done|].
  rewrite Hs, bool_decide_eq_false_2 by done. done.
Qed.

Lemma readDelegationAmount_Some st pos u a :
  readDelegationAmount st pos u = Some a ->
  exists o, GetObject st pos = Some o /\ length (obj_content o) = 40%nat /\ slice 0 32 (obj_content o) = u.
Proof.
  unfold readDelegationAmount, decodeDelegationContent. destruct (GetObject st pos) as [o|]; [|done].
  destruct (Nat.eqb_spec (length (obj_content o)) delegationContentSize) as [Hl|]; [|done]. simpl.
  case_bool_decide as Hu; [|done]. intros _. by exists o.
Qed.

(** ** Crediting one validator *)

(** What crediting validator [u] leaves alone. *)
Record frame (u : Hash) (st : CoinStore) (vs : ValidatorSet) (st' : CoinStore) (vs' : ValidatorSet) : Prop := {
  fr_get : forall q, q <> u -> Validators.Get vs' q = Validators.Get vs q;
  fr_pos : forall v, Pubkey v <> u -> positions_ok st v -> positions_ok st' v;
  fr_pay : forall id, payable st id -> payable st' id;
  fr_supply : cs_supply st' = cs_supply st;
}.

Lemma frame_refl u st vs : frame u st vs st vs.
Proof. by split. Qed.

Lemma frame_trans u st1 vs1 st2 vs2 st3 vs3 :
  frame u st1 vs1 st2 vs2 -> frame u st2 vs2 st3 vs3 -> frame u st1 vs1 st3 vs3.
Proof.
  intros [A1 A2 A3 A4] [B1 B2 B3 B4]. split; [|auto..|congruence].
  intros q Hq. by rewrite B1, A1.
Qed.

Lemma updateAt_other vs u f q :
  vs_ok vs -> (forall w, Pubkey (f w) = Pubkey w) -> q <> u -> Validators.Get (fst (updateAt vs u f)) q = Validators.Get vs q.
Proof.
  intros Hok Hf Hq. rewrite updateAt_Get by done. by rewrite decide_False.
Qed.

(** Writing a coin's balance back, and writing a position of [u]. *)
Lemma frame_coin u st vs id o b n :
  GetObject st id = Some o -> payable st id ->
  frame u st vs (SetCoinsTotal (SetObject st (writeCoinBalance o b)) n) vs.
Proof.
  intros Hg Hp. destruct (Hp o Hg) as [Hl Hid].
  assert (Hl2 : length (obj_content (writeCoinBalance o b)) <> 40%nat).
  { unfold writeCoinBalance. cbn [obj_content]. rewrite length_app, length_le_enc, length_drop. lia. }
  assert (He : extractObjectID (writeCoinBalance o b) = id) by (by rewrite <- Hid).
  split; try done.
  - intros v _ Hv. unfold SetObject. rewrite He.
    by destruct (positions_ok_replace st v id o _ Hv Hg (decode_other_size _ _ Hl) (decode_other_size _ _ Hl2)).
  - intros x Hx o' Ho'. unfold GetObject, SetObject in Ho'. cbn in Ho'. rewrite He, lookup_insert in Ho'.
    case_decide; [|by apply Hx]. subst x. injection Ho' as <-. done.
Qed.

Lemma frame_creditCoin u st vs id amount st' ok :
  creditCoin st id amount = (st', ok) -> payable st id -> frame u st vs st' vs.
Proof.
  intros Hc Hp. unfold creditCoin in Hc. destruct (amount =? 0); [injection Hc as <- <-; apply frame_refl|].
  destruct (GetObject st id) as [o|] eqn:Hg; [|injection Hc as <- <-; apply frame_refl].
  destruct (readCoinBalance o); [|injection Hc as <- <-; apply frame_refl]. cbv zeta in Hc.
  destruct (_ <? _); injection Hc as <- <-; [apply frame_refl|]. by apply (frame_coin u st vs id o).
Qed.

Section Credit.
Context {M : Type} (E : Env M) (c : Config) (wired : bool).
Context (Hblake : forall b, length (blake3 (crypto E) b) = 32%nat)
  (Hcomm : 0 <= commissionBPS c <= bpsMax) (Hmille : 0 <= AutoRestakeMille (thermostat c) <= milleMax).
Implicit Types (st : CoinStore) (vs : ValidatorSet).

Lemma compoundDelegation_ok st vs del u reward w :
  stakeInv vs -> Validators.Get vs u = Some w -> length u = 32%nat -> is_u64 reward -> bonded vs + reward <= max64 ->
  let '(st', vs', ok) := compoundDelegation E st vs del u reward in
  frame u st vs st' vs' /\ stakeInv vs' /\ cs_coins st' = cs_coins st /\
  bonded vs' = bonded vs + (if ok then reward else 0) /\
  exists w', Validators.Get vs' u = Some w' /\ SelfStake w' = SelfStake w.
Proof using Hblake.
  intros HS Hg Hu Hr Hb. unfold compoundDelegation. cbv zeta.
  assert (Hskip : frame u st vs st vs /\ stakeInv vs /\ cs_coins st = cs_coins st /\ bonded vs = bonded vs + 0 /\
    exists w', Validators.Get vs u = Some w' /\ SelfStake w' = SelfStake w).
  { split_and!; auto using frame_refl; [lia|eauto]. }
  destruct (reward =? 0); [exact Hskip|].
  destruct (readDelegationAmount _ _ _) as [current|] eqn:Er; [|exact Hskip].
  destruct (readDelegationAmount_Some _ _ _ _ Er) as (o & Ho & Hl & Hs).
  set (pos := DelegationID (crypto E) del u) in *.
  set (o' := buildDelegationObject (crypto E) del u (safeAdd current reward)).
  assert (He : extractObjectID o' = pos).
  { unfold extractObjectID, o', buildDelegationObject, hash32. cbn [obj_id]. rewrite decide_True; [done|].
    apply Hblake. }
  assert (Hs' : slice 0 32 (obj_content o') = u).
  { unfold o', buildDelegationObject, encodeDelegationContent, slice. cbn [obj_content]. rewrite drop_0.
    by rewrite take_app_le, take_ge by lia. }
  destruct (Get_stake_ok _ _ _ HS Hg) as (Hj & H0 & H1 & H2). pose proof (bonded_ge _ _ _ HS Hg) as Hge.
  assert (Hadd : DelegatedTotal w +w reward = DelegatedTotal w + reward) by (apply add64_exact; u64_lia).
  destruct (stakeInv_update vs u (addDelegated reward) w HS Hg) as [HS' Hb'].
  { done. } { unfold addDelegated. rewrite Hadd. split_and!; simpl; auto; u64_lia. }
  unfold AddDelegated. split_and!; auto.
  - split; [intros q Hq; apply updateAt_other; [apply HS|done|done]| | |done].
    + intros v Hv Hp. unfold SetObject. rewrite He.
      apply (positions_ok_replace st v pos o); auto; apply (decode_other_validator _ u); auto.
    + intros id Hp o2 Ho2. unfold GetObject, SetObject in Ho2. cbn in Ho2. rewrite He, lookup_insert in Ho2.
      case_decide; [|by apply Hp]. subst id. destruct (Hp o Ho). done.
  - rewrite Hb'. unfold addDelegated. rewrite Hadd. cbn. lia.
  - rewrite updateAt_Get by apply HS. rewrite decide_True, Hg by done. by eexists.
Qed.

Lemma creditDelegators_ok payouts st vs u credited w :
  stakeInv vs -> Validators.Get vs u = Some w -> length u = 32%nat ->
  Forall (fun d => 0 <= ds_Amount d) payouts -> 0 <= credited ->
  bonded vs + sumShares payouts <= max64 -> credited + sumShares payouts <= max64 ->
  let '(st', vs', credited') := creditDelegators E st vs payouts u credited in
  frame u st vs st' vs' /\ stakeInv vs' /\ cs_coins st' = cs_coins st /\
  bonded vs' = bonded vs + (credited' - credited) /\ credited <= credited' <= credited + sumShares payouts /\
  exists w', Validators.Get vs' u = Some w' /\ SelfStake w' = SelfStake w.
Proof using Hblake.
  revert st vs credited w. induction payouts as [|d payouts IH]; intros st vs credited w HS Hg Hu Hp Hc Hb Hs.
  { simpl. split_and!; auto using frame_refl; unfold sumShares; simpl; try lia. eauto. }
  apply Forall_cons in Hp as [Hd Hp]. unfold sumShares in Hb, Hs. simpl in Hb, Hs.
  assert (Hn : 0 <= sumShares payouts).
  { apply sumZ_map_nonneg. intros y Hy. rewrite Forall_forall in Hp. by apply Hp. }
  unfold sumShares in Hn. pose proof (bonded_nonneg vs HS) as Hbn.
  simpl. pose proof (compoundDelegation_ok st vs (ds_Delegator d) u (ds_Amount d) w HS Hg Hu) as H1.
  destruct (compoundDelegation E st vs (ds_Delegator d) u (ds_Amount d)) as [[st1 vs1] ok].
  destruct H1 as (F1 & S1 & C1 & B1 & w1 & G1 & W1); [u64_lia|lia|].
  destruct ok.
  - rewrite add64_exact by u64_lia.
    pose proof (IH st1 vs1 (credited + ds_Amount d) w1 S1 G1 Hu Hp) as H2. unfold sumShares in *.
    destruct (creditDelegators E st1 vs1 payouts u _) as [[st2 vs2] cr].
    destruct H2 as (F2 & S2 & C2 & B2 & R2 & w2 & G2 & W2); try lia. simpl.
    split_and!; auto; try lia; try congruence; [by eapply frame_trans|]. exists w2. split; congruence.
  - pose proof (IH st1 vs1 credited w1 S1 G1 Hu Hp) as H2. unfold sumShares in *.
    destruct (creditDelegators E st1 vs1 payouts u _) as [[st2 vs2] cr].
    destruct H2 as (F2 & S2 & C2 & B2 & R2 & w2 & G2 & W2); try lia. simpl.
    split_and!; auto; try lia; try congruence; [by eapply frame_trans|]. exists w2. split; congruence.
Qed.

Lemma milleShare_le amount : is_u64 amount -> 0 <= safeMul amount (AutoRestakeMille (thermostat c)) / milleMax <= amount.
Proof using Hmille.
  intros Ha. unfold milleMax in *. set (m := AutoRestakeMille _) in *.
  assert (Hm : is_u64 m) by u64_lia. pose proof (safeMul_le amount m Ha Hm). pose proof (safeMul_u64 amount m Ha Hm).
  split; [apply Z.div_pos; unfold is_u64 in *; lia|]. apply Z.div_le_upper_bound; [lia|]. unfold is_u64 in *. nia.
Qed.

(** [w] is what the set holds now; the code restakes on top of the copy [v]. *)
Lemma creditValidatorReward_ok st vs v w amount :
  stakeInv vs -> Validators.Get vs (Pubkey v) = Some w -> SelfStake w = SelfStake v ->
  payable st (RewardCoin v) -> 0 <= cs_coins st -> is_u64 amount -> cs_coins st + bonded vs + amount <= max64 ->
  let '(st', vs', moved) := creditValidatorReward c st vs v amount in
  frame (Pubkey v) st vs st' vs' /\ stakeInv vs' /\ 0 <= moved <= amount /\ 0 <= cs_coins st' /\
  cs_coins st' + bonded vs' = cs_coins st + bonded vs + moved.
Proof using Hmille.
  intros HS Hg Hs Hp Hc Ha Hb. destruct (Get_stake_ok _ _ _ HS Hg) as (Hj & H0 & H1 & H2).
  pose proof (bonded_ge _ _ _ HS Hg) as Hge. pose proof (bonded_nonneg vs HS) as Hbn.
  assert (Hset : forall x, 0 <= x <= amount ->
    let vs' := SetSelfStake vs (Pubkey v) (safeAdd (SelfStake v) x) in
    stakeInv vs' /\ bonded vs' = bonded vs + x /\ frame (Pubkey v) st vs st vs').
  { intros x Hx. cbv zeta. rewrite safeAdd_min, Z.min_l by u64_lia. unfold SetSelfStake.
    destruct (stakeInv_update vs (Pubkey v) (set_SelfStake (SelfStake v + x)) w HS Hg) as [HS' Hb'].
    { done. } { split_and!; simpl; auto; u64_lia. }
    split_and!; auto; [rewrite Hb'; simpl; lia|]. split; auto. intros q Hq. apply updateAt_other; [apply HS|done|done]. }
  unfold creditValidatorReward. case_bool_decide.
  { destruct (Hset amount) as (S1 & B1 & F1); [u64_lia|]. split_and!; auto; u64_lia. }
  cbv zeta. pose proof (milleShare_le amount Ha) as Hr. set (restake := _ / milleMax) in *.
  rewrite sub64_exact by u64_lia. set (vs1 := if 0 <? restake then _ else vs).
  assert (H3 : stakeInv vs1 /\ bonded vs1 = bonded vs + restake /\ frame (Pubkey v) st vs st vs1).
  { unfold vs1. destruct (Z.ltb_spec 0 restake); [by apply Hset|].
    split_and!; auto using frame_refl. lia. }
  destruct H3 as (S1 & B1 & F1).
  destruct (creditCoin st (RewardCoin v) (amount - restake)) as [st' ok] eqn:Ec.
  destruct (creditCoin_counters _ _ _ _ _ Ec) as (K1 & K2 & K3); [u64_lia|lia|lia|].
  assert (F2 : frame (Pubkey v) st vs st' vs1).
  { eapply frame_trans; [exact F1|]. by eapply frame_creditCoin. }
  destruct ok; [rewrite add64_exact by u64_lia|]; split_and!; auto; lia.
Qed.

Lemma creditShare_ok st vs v share :
  stakeInv vs -> Validators.Get vs (Pubkey v) = Some v -> length (Pubkey v) = 32%nat ->
  positions_ok st v -> payable st (RewardCoin v) -> 0 <= cs_coins st -> is_u64 share ->
  cs_coins st + bonded vs + share <= max64 ->
  exists st' vs' moved, creditShare E c wired st vs v share = Some (st', vs', moved) /\
    frame (Pubkey v) st vs st' vs' /\ stakeInv vs' /\ 0 <= moved <= share /\ 0 <= cs_coins st' /\
    cs_coins st' + bonded vs' = cs_coins st + bonded vs + moved.
Proof using Hblake Hcomm Hmille.
  intros HS Hg Hu Hpo Hpa Hc Ha Hb. destruct (Get_stake_ok _ _ _ HS Hg) as (Hj & H0 & H1 & H2).
  pose proof (bonded_nonneg vs HS) as Hbn.
  set (dels := delegatorShares wired st (Pubkey v)).
  assert (Hd : Forall (fun d => 0 < ds_Amount d /\ is_u64 (ds_Amount d)) dels /\ 0 <= sumShares dels <= DelegatedTotal v).
  { unfold dels, delegatorShares. destruct wired; [by apply DelegationsFor_ok|]. split; [constructor|]. unfold sumShares. simpl. lia. }
  destruct Hd as [Hd Hds].
  destruct (splitValidatorReward_conserves share (SelfStake v) (commissionBPS c) dels Ha)
    as (va & payouts & Hsp & Hsum & Hlo & Hpp & _); [u64_lia|done|done|lia|].
  unfold creditShare. fold dels. rewrite Hsp. cbn [mbind option_bind].
  assert (Hn : 0 <= sumShares payouts).
  { apply sumZ_map_nonneg. intros y Hy. rewrite Forall_forall in Hpp. by apply Hpp. }
  assert (Hva : 0 <= va).
  { etrans; [|exact Hlo]. apply Z.div_pos; [|lia]. pose proof (safeMul_u64 share (SelfStake v) Ha). u64_lia. }
  pose proof (creditDelegators_ok payouts st vs (Pubkey v) 0 v HS Hg Hu Hpp) as H3.
  destruct (creditDelegators E st vs payouts (Pubkey v) 0) as [[st1 vs1] a].
  destruct H3 as (F1 & S1 & C1 & B1 & R1 & w & G1 & W1); [lia|lia|u64_lia|].
  pose proof (creditValidatorReward_ok st1 vs1 v w va S1 G1 W1 (fr_pay _ _ _ _ _ F1 _ Hpa)) as H4.
  destruct (creditValidatorReward c st1 vs1 v va) as [[st2 vs2] b].
  destruct H4 as (F2 & S2 & R2 & C2 & B2); [lia|u64_lia|lia|].
  rewrite add64_exact by u64_lia. eexists _, _, _. split; [done|].
  split_and!; auto; try lia. by eapply frame_trans.
Qed.

(** ** The whole pool *)

Section Pool.
Context (produced : gmap Hash Z) (pool W : Z) (Hpool : is_u64 pool) (HW : 0 < W <= max64).

Definition shareOf (v : ValidatorInfo) : Z := safeMul pool (rewardWeight v produced) / W.

Record pending (st : CoinStore) (vs : ValidatorSet) (vals : list ValidatorInfo) : Prop := {
  pe_stake : stakeInv vs;
  pe_coins : 0 <= cs_coins st;
  pe_copy : Forall (fun v => Validators.Get vs (Pubkey v) = Some v) vals;
  pe_keys : Forall (fun v => length (Pubkey v) = 32%nat) vals;
  pe_pos : Forall (positions_ok st) vals;
  pe_pay : Forall (fun v => payable st (RewardCoin v)) vals;
}.

Lemma pending_step st vs v vals st' vs' :
  pending st vs (v :: vals) -> NoDup (map Pubkey (v :: vals)) -> frame (Pubkey v) st vs st' vs' ->
  stakeInv vs' -> 0 <= cs_coins st' -> pending st' vs' vals.
Proof using Type.
  intros [P1 P2 P3 P4 P5 P6] Hnd [F1 F2 F3 F4] HS Hc. apply NoDup_cons in Hnd as [Hv _].
  rewrite !Forall_cons in *. destruct P3 as [_ P3], P4 as [_ P4], P5 as [_ P5], P6 as [_ P6].
  assert (Hne : forall w, w ∈ vals -> Pubkey w <> Pubkey v).
  { intros w Hw Ee. apply Hv. rewrite <- Ee. by apply list_elem_of_fmap_2. }
  split; auto; rewrite Forall_forall in *; intros w Hw.
  - rewrite F1 by auto. by apply P3.
  - by apply F2; auto.
  - by apply F3, P6.
Qed.

Lemma creditShares_ok vals st vs distributed :
  pending st vs vals -> NoDup (map Pubkey vals) -> 0 <= distributed ->
  Forall (fun v => is_u64 (shareOf v)) vals ->
  cs_coins st + bonded vs + sumZ (map shareOf vals) <= max64 -> distributed + sumZ (map shareOf vals) <= max64 ->
  exists st' vs' distributed',
    creditShares E c wired st vs vals produced pool W distributed = Some (st', vs', distributed') /\
    stakeInv vs' /\ cs_supply st' = cs_supply st /\ 0 <= cs_coins st' /\
    distributed <= distributed' <= distributed + sumZ (map shareOf vals) /\
    cs_coins st' + bonded vs' = cs_coins st + bonded vs + (distributed' - distributed).
Proof using Hblake Hcomm Hmille.
  revert st vs distributed. induction vals as [|v vals IH]; intros st vs distributed Hp Hnd Hd Hsh Hb Hs.
  { simpl. eexists _, _, _. split; [done|]. destruct Hp. split_and!; auto; simpl; lia. }
  apply Forall_cons in Hsh as [Hv Hsh]. simpl in Hb, Hs.
  assert (Hn : 0 <= sumZ (map shareOf vals)).
  { apply sumZ_map_nonneg. intros y Hy. rewrite Forall_forall in Hsh. apply (Hsh y Hy). }
  pose proof Hp as [P1 P2 P3 P4 P5 P6].
  apply Forall_cons in P3 as [P3 _], P4 as [P4 _], P5 as [P5 _], P6 as [P6 _].
  destruct (creditShare_ok st vs v (shareOf v) P1 P3 P4 P5 P6 P2 Hv) as (st1 & vs1 & m & E1 & F1 & S1 & R1 & C1 & T1); [lia|].
  simpl. fold (shareOf v). rewrite E1. cbn [mbind option_bind]. pose proof (bonded_nonneg vs P1).
  rewrite add64_exact by u64_lia.
  pose proof (pending_step st vs v vals st1 vs1 Hp Hnd F1 S1 C1) as Hp1. apply NoDup_cons in Hnd as [_ Hnd].
  destruct (IH st1 vs1 (distributed + m) Hp1 Hnd) as (st2 & vs2 & d2 & E2 & S2 & U2 & C2 & R2 & T2); [lia|done|lia|lia|].
  exists st2, vs2, d2. split; [done|]. pose proof (fr_supply _ _ _ _ _ F1). split_and!; auto; try lia.
Qed.

End Pool.
End Credit.

Lemma sum_of_floors {A} (f g : A -> Z) (W : Z) (l : list A) :
  0 < W -> (forall x, x ∈ l -> f x <= g x) -> W * sumZ (map (fun x => f x / W) l) <= sumZ (map g l).
Proof.
  intros HW. induction l as [|x l IH]; intros Hf; simpl; [lia|].
  pose proof (IH ltac:(intros; apply Hf; by right)). pose proof (Hf x ltac:(by left)).
  pose proof (Z.mul_div_le (f x) W HW). lia.
Qed.

Lemma sumZ_map_scale {A} (k : Z) (f : A -> Z) (l : list A) : sumZ (map (fun x => k * f x) l) = k * sumZ (map f l).
Proof. induction l as [|x l IH]; simpl; lia. Qed.

Lemma safeMul_nonneg a b : 0 <= safeMul a b.
Proof.
  unfold safeMul. destruct (_ || _); [done|]. destruct (0 <? _); [done|]. apply (u64_range (a * b)).
Qed.

Section Settle.
Context {M : Type} `{Pebble M} (E : Env M) (c : Config) (wired : bool) (params : FeeParams).
Context (Hblake : forall b, length (blake3 (crypto E) b) = 32%nat) (Hparams : feeParams c = Some params)
  (Hcomm : 0 <= commissionBPS c <= bpsMax) (Hmille : 0 <= AutoRestakeMille (thermostat c) <= milleMax)
  (Hrate : 0 <= FloorRateMicro (thermostat c) <= CeilingRateMicro (thermostat c) /\ CeilingRateMicro (thermostat c) <= max64).
Implicit Types (L : Ledger M) (d : DAG M).

Definition weights (vs : ValidatorSet) (produced : gmap Hash Z) : Z :=
  sumZ (map (fun v => rewardWeight v produced) (validators vs)).

Lemma rewardWeight_u64 vs v produced :
  stakeInv vs -> v ∈ validators vs -> map_Forall (fun _ n => is_u64 n) produced -> is_u64 (rewardWeight v produced).
Proof using Type.
  intros [_ HS] Hv Hp. rewrite Forall_forall in HS. pose proof (HS v Hv) as Hs. unfold rewardWeight.
  apply safeMul_u64; [rewrite EffectiveStake_exact by done; destruct Hs as (_ & ? & ? & ?); u64_lia|].
  destruct (produced !! Pubkey v) as [n|] eqn:En; simpl; [by apply (Hp _ _ En)|u64_lia].
Qed.

Lemma weights_exact vs produced :
  stakeInv vs -> map_Forall (fun _ n => is_u64 n) produced ->
  totalRewardWeight vs produced = Z.min (weights vs produced) max64 /\ 0 <= weights vs produced.
Proof using Type.
  intros HS Hp. unfold totalRewardWeight, weights, All.
  assert (Hu : forall v, v ∈ validators vs -> is_u64 (rewardWeight v produced)) by (intros; by eapply rewardWeight_u64).
  pose proof (safeAdd_fold (fun v => rewardWeight v produced) (validators vs) 0 is_u64_0 Hu) as [_ Hs].
  split; [exact Hs|]. apply sumZ_map_nonneg. intros v Hv. apply (Hu v Hv).
Qed.

(** What a settlement starts from: [B] is the counters' total with the pools. *)
Record settlePre (st : CoinStore) (vs : ValidatorSet) (produced : gmap Hash Z) : Prop := {
  se_pending : pending st vs (validators vs);
  se_rounds : map_Forall (fun _ n => is_u64 n) produced;
  se_weights : weights vs produced <= max64;
}.

Lemma distributeEpochRewards_ok d epoch issuance st :
  let vs := l_validators (d_ledger d) in
  let produced := default ∅ (epochRoundsProduced (d_rewards d) !! epoch) in
  let fees := default 0 (epochFees (d_rewards d) !! epoch) in
  l_coins (d_ledger d) = Some st -> settlePre st vs produced -> 0 <= fees -> 0 <= issuance ->
  cs_coins st + bonded vs + fees + issuance <= max64 ->
  exists st' vs' leftover,
    distributeEpochRewards E c wired d epoch issuance =
      Some (set_ledger d (set_validators (set_coins (d_ledger d) (Some st')) vs'), leftover) /\
    stakeInv vs' /\ cs_supply st' = cs_supply st /\ 0 <= cs_coins st' /\ 0 <= leftover /\
    cs_coins st' + bonded vs' + leftover = cs_coins st + bonded vs + fees + issuance.
Proof using Hblake Hparams Hcomm Hmille.
  clear Hrate. cbv zeta. intros Hst [Hp Hr Hw] Hf Hi Hb. pose proof Hp as [P1 P2 _ _ _ _]. pose proof (bonded_nonneg _ P1) as Hbn.
  unfold distributeEpochRewards. cbv zeta. rewrite Hst.
  set (vs := l_validators (d_ledger d)) in *. set (produced := default ∅ _) in *. set (fees := default 0 _) in *.
  rewrite safeAdd_min, Z.min_l by u64_lia. set (pool := fees + issuance) in *.
  assert (Hsame : set_ledger d (set_validators (set_coins (d_ledger d) (Some st)) vs) = d).
  { unfold vs. destruct d as [[t dm co v ix cm] r e w]. simpl in *. by rewrite Hst. }
  destruct (weights_exact vs produced P1 Hr) as [HW Hw0]. rewrite HW, Z.min_l by lia.
  destruct ((pool =? 0) || (weights vs produced =? 0)) eqn:Ez.
  { exists st, vs, pool. rewrite Hsame. split_and!; auto; unfold pool; lia. }
  apply orb_false_iff in Ez as [Ez1 Ez2]. zb. unfold mustFeeParams. rewrite Hparams. cbn [mbind option_bind].
  set (W := weights vs produced) in *. set (top := pickRemainderRecipient _ _).
  assert (Hpu : is_u64 pool) by (unfold pool; u64_lia).
  assert (Hwu : forall v, v ∈ validators vs -> is_u64 (rewardWeight v produced)) by (intros; by eapply rewardWeight_u64).
  assert (Hsh : Forall (fun v => is_u64 (shareOf produced pool W v)) (validators vs)).
  { apply Forall_forall. intros v Hv. unfold shareOf.
    assert (rewardWeight v produced <= W).
    { unfold W, weights. apply (sumZ_elem_le (fun v => rewardWeight v produced)); [|done]. intros y Hy. apply (Hwu y Hy). }
    pose proof (share_le pool (rewardWeight v produced) W Hpu (Hwu v Hv) ltac:(lia) ltac:(lia)). u64_lia. }
  assert (Hsum : sumZ (map (shareOf produced pool W) (validators vs)) <= pool).
  { pose proof (sum_of_floors (fun v => safeMul pool (rewardWeight v produced)) (fun v => pool * rewardWeight v produced)
      W (validators vs) ltac:(lia)) as Hs. rewrite sumZ_map_scale in Hs. fold (weights vs produced) in Hs. fold W in Hs.
    assert (W * sumZ (map (shareOf produced pool W) (validators vs)) <= pool * W); [|nia].
    apply Hs. intros v Hv. apply safeMul_le; auto. }
  destruct (creditShares_ok E c wired Hblake Hcomm Hmille produced pool W (All vs) st vs 0 Hp)
    as (st1 & vs1 & dist & -> & S1 & U1 & C1 & R1 & T1); unfold All in *.
  { apply vs_ok_NoDup, P1. } { lia. } { done. } { unfold pool in *. lia. } { unfold is_u64 in *. lia. }
  cbn [mbind option_bind]. rewrite sub64_exact by u64_lia.
  destruct (creditRemainder st1 vs1 top (pool - dist)) as [st2 cr] eqn:Ec.
  pose proof (bonded_nonneg _ S1) as Hb1.
  assert (Hcr : cs_supply st2 = cs_supply st1 /\ cs_coins st2 = cs_coins st1 + cr /\ 0 <= cr <= pool - dist).
  { unfold creditRemainder in Ec. destruct (pool - dist =? 0); [injection Ec as <- <-; split_and!; auto; lia|].
    destruct (Validators.Get vs1 top) as [info|]; [|injection Ec as <- <-; split_and!; auto; lia].
    case_bool_decide; [injection Ec as <- <-; split_and!; auto; lia|].
    destruct (creditCoin st1 (RewardCoin info) (pool - dist)) as [st3 ok] eqn:Ek.
    destruct (creditCoin_counters _ _ _ _ _ Ek) as (K1 & K2 & _); [u64_lia|lia|unfold pool in *; lia|].
    destruct ok; injection Ec as <- <-; split_and!; auto; lia. }
  destruct Hcr as (U2 & C2 & R2). rewrite add64_exact by u64_lia. rewrite sub64_exact by u64_lia.
  exists st2, vs1, (pool - (dist + cr)). split_and!; auto; try congruence; unfold pool in *; lia.
Qed.

(** Fees pooled and not yet distributed, over every open epoch. *)
Definition feesPooled (w : Rewards) : Z := mapSum (fun n => n) (epochFees w).

(** [supply - coins - bonded - pooled fees]: the locked deposits when the
    identity holds. *)
Definition unheld d : option Z :=
  (fun st => cs_supply st - cs_coins st - bonded (l_validators (d_ledger d)) - feesPooled (d_rewards d)) <$>
    l_coins (d_ledger d).

Record epochPre d (st : CoinStore) : Prop := {
  ep_coins : l_coins (d_ledger d) = Some st;
  ep_settle : settlePre st (l_validators (d_ledger d))
                (default ∅ (epochRoundsProduced (d_rewards d) !! (currentEpoch (d_epochs d) - 1)));
  ep_pools : map_Forall (fun _ n => 0 <= n) (epochFees (d_rewards d));
  ep_supply : 0 <= cs_supply st;
  ep_held : cs_coins st + bonded (l_validators (d_ledger d)) + feesPooled (d_rewards d) <= cs_supply st;
  ep_room : cs_supply st + snd (runThermostat c d true) <= max64;
}.

Lemma settleDeferredEpoch_ok d st :
  epochPre d st ->
  exists d' st', settleDeferredEpoch E c wired d = Some d' /\
    l_coins (d_ledger d') = Some st' /\ stakeInv (l_validators (d_ledger d')) /\ 0 <= cs_coins st' /\
    cs_coins st' + bonded (l_validators (d_ledger d')) <= max64 /\
    unheld d' = unheld d /\ d_epochs d' = d_epochs d /\ d_regime d' = d_regime d /\
    l_tracker (d_ledger d') = l_tracker (d_ledger d) /\ l_domains (d_ledger d') = l_domains (d_ledger d).
Proof using Hblake Hparams Hcomm Hmille Hrate.
  intros [Hst Hse Hpo H0 Hh Hroom]. pose proof (pe_stake _ _ _ (se_pending _ _ _ Hse)) as HS.
  pose proof (bonded_nonneg _ HS) as Hbn. pose proof (pe_coins _ _ _ (se_pending _ _ _ Hse)) as Hc0.
  assert (Hpn : 0 <= feesPooled (d_rewards d)) by (by apply mapSum_nonneg).
  unfold settleDeferredEpoch. cbv zeta. set (e := currentEpoch (d_epochs d)) in *.
  assert (Hi : 0 <= snd (runThermostat c d true)).
  { unfold runThermostat. rewrite Hst. cbn [negb snd].
    pose proof (adjustRate_bounds (issuanceRateMicro (d_rewards d))
      (stakingRatioMille (totalBonded (l_validators (d_ledger d))) (cs_supply st)) (thermostat c) ltac:(lia)).
    unfold issuanceFor. apply Z.div_pos; [|lia]. unfold runThermostat in Hroom. rewrite Hst in Hroom. cbn [negb snd] in Hroom.
    apply safeMul_nonneg. }
  destruct (e =? 0) eqn:E0.
  { exists d, st. split_and!; auto. u64_lia. }
  set (produced := default ∅ _) in *. set (dist := 0 <? totalRewardWeight _ _).
  set (minted := if dist then snd (runThermostat c d true) else 0).
  destruct (runThermostat c d dist) as [d1 issuance] eqn:Et.
  assert (Ht : issuance = minted /\ l_validators (d_ledger d1) = l_validators (d_ledger d) /\
    epochFees (d_rewards d1) = epochFees (d_rewards d) /\
    epochRoundsProduced (d_rewards d1) = epochRoundsProduced (d_rewards d) /\
    d_epochs d1 = d_epochs d /\ d_regime d1 = d_regime d /\
    l_tracker (d_ledger d1) = l_tracker (d_ledger d) /\ l_domains (d_ledger d1) = l_domains (d_ledger d) /\
    exists st1, l_coins (d_ledger d1) = Some st1 /\ cs_objects st1 = cs_objects st /\ cs_coins st1 = cs_coins st /\
      cs_supply st1 = cs_supply st + minted).
  { unfold minted. clearbody dist. unfold runThermostat in *. rewrite Hst in *. cbv zeta in *. cbn [negb snd] in *.
    destruct dist; cbn [negb] in Et; injection Et as <- <-; split_and!; auto.
    - eexists. split; [done|]. cbn. split_and!; auto. rewrite satAdd_min, Z.min_l by u64_lia. done.
    - exists st. split_and!; auto. lia. }
  destruct Ht as (Hmi & Hv1 & Hf1 & Hp1 & He1 & Hr1 & Ht1 & Hd1 & st1 & Hst1 & Ho1 & Hc1 & Hs1).
  assert (Hmn : 0 <= minted /\ cs_supply st + minted <= max64) by (unfold minted; destruct dist; lia).
  set (fees := default 0 (epochFees (d_rewards d) !! (e - 1))).
  assert (Hfe : 0 <= fees <= feesPooled (d_rewards d)).
  { unfold fees. destruct (epochFees (d_rewards d) !! (e - 1)) as [n|] eqn:En; simpl; [|lia].
    split; [by apply (Hpo _ _ En)|]. by apply (mapSum_ge (fun n => n) _ (e - 1)). }
  destruct (distributeEpochRewards_ok d1 (e - 1) issuance st1) as (st2 & vs2 & left & -> & S2 & U2 & C2 & L2 & T2).
  { done. }
  { rewrite Hv1, Hp1. fold produced. destruct Hse as [[Q1 Q2 Q3 Q4 Q5 Q6] Q7 Q8]. split; [|done|done].
    split; auto; [lia| |].
    - eapply Forall_impl; [exact Q5|]. intros v [A1 A2]. split; [by rewrite Ho1|]. unfold posSum. by rewrite Ho1.
    - eapply Forall_impl; [exact Q6|]. intros v Hv. unfold payable, GetObject. by rewrite Ho1. }
  { rewrite Hf1. fold fees. lia. } { lia. } { rewrite Hf1, Hv1. fold fees. lia. }
  rewrite Hf1, Hv1 in T2. fold fees in T2. cbn [mbind option_bind]. eexists _, st2. split; [done|].
  cbn [d_ledger set_rewards set_ledger l_coins l_validators set_validators set_coins d_rewards d_epochs d_regime].
  split_and!; auto; [lia|].
  unfold unheld. cbn [d_ledger set_rewards set_ledger l_coins l_validators set_validators set_coins d_rewards fmap option_fmap option_map].
  rewrite Hst. cbn [fmap option_fmap option_map]. f_equal. unfold feesPooled. cbn [epochFees]. rewrite Hf1.
  set (F := epochFees (d_rewards d)) in *.
  assert (HF : mapSum (fun n => n) (delete (e - 1) F) = mapSum (fun n => n) F - fees).
  { unfold fees. destruct (F !! (e - 1)) as [n|] eqn:En; simpl.
    - by rewrite (mapSum_delete (fun n => n) F _ n En).
    - rewrite delete_id by done. lia. }
  change (mapSum (fun n => n) F) with (feesPooled (d_rewards d)) in HF.
  destruct (Z.ltb_spec 0 left).
  - rewrite mapSum_insert. cbn [epochFees set_ledger d_rewards].
    rewrite lookup_delete_ne by lia.
    assert (Hcur : 0 <= default 0 (F !! e) <= feesPooled (d_rewards d) - fees).
    { rewrite <- HF. destruct (F !! e) as [n|] eqn:En; simpl.
      - split; [by apply (Hpo _ _ En)|]. apply (mapSum_ge (fun n => n) _ e); [|by rewrite lookup_delete_ne by lia].
        by apply map_Forall_delete.
      - split; [done|]. apply mapSum_nonneg. by apply map_Forall_delete. }
    change (mapSum (fun n => n) F) with (feesPooled (d_rewards d)).
    pose proof (bonded_nonneg _ S2). rewrite safeAdd_min, Z.min_l by u64_lia. rewrite HF.
    replace (default 0 ((fun n => n) <$> F !! e)) with (default 0 (F !! e)) by (by destruct (F !! e)). lia.
  - change (mapSum (fun n => n) F) with (feesPooled (d_rewards d)). rewrite HF. lia.
Qed.

(** ** Removals *)

Lemma Remove_stake vs pk v :
  stakeInv vs -> Validators.Get vs pk = Some v ->
  stakeInv (fst (Remove vs pk)) /\ bonded (fst (Remove vs pk)) = bonded vs - (SelfStake v + DelegatedTotal v).
Proof using Type.
  intros HS Hg. pose proof (Get_stake_ok _ _ _ HS Hg) as Hv. destruct HS as [Hok Hs].
  pose proof (Remove_perm vs pk v Hok Hg) as Hp. split; [split; [by apply Remove_ok|]|].
  - rewrite Hp in Hs. by apply Forall_cons in Hs as [_ Hs].
  - unfold bonded, bondedSum. rewrite (sumZ_perm _ _ (Permutation_map EffectiveStake Hp)). simpl.
    rewrite (EffectiveStake_exact v Hv). lia.
Qed.

Lemma Remove_unknown vs pk : vs_ok vs -> Validators.Get vs pk = None -> fst (Remove vs pk) = vs.
Proof using Type.
  intros Hok Hg. unfold Remove. unfold Validators.Get in Hg. destruct (index vs !! pk) as [i|] eqn:Ei; [|done].
  destruct (vs_ok_lookup _ _ _ Hok Ei) as (v & Hv & _). congruence.
Qed.

(** Counters and stakes of a ledger, with what the boundary never touches. *)
Record held L (st : CoinStore) (n : Z) : Prop := {
  he_coins : l_coins L = Some st;
  he_stake : stakeInv (l_validators L);
  he_pos : 0 <= cs_coins st;
  he_sum : cs_coins st + bonded (l_validators L) = n;
}.

Lemma remove_one L st n pk L1 :
  held L st n -> n <= max64 -> hasBondedDelegations (l_validators L) pk = false ->
  returnDeregisteredStake L pk = (L1, true) ->
  exists st', held (set_validators L1 (fst (Remove (l_validators L1) pk))) st' n /\ cs_supply st' = cs_supply st /\
    l_tracker L1 = l_tracker L /\ l_domains L1 = l_domains L.
Proof using Type.
  clear Hrate Hcomm Hmille. intros [Hst HS Hc Hn] Hm Hbd Hr. unfold hasBondedDelegations in Hbd. unfold returnDeregisteredStake in Hr. cbv zeta in Hr.
  destruct (Validators.Get (l_validators L) pk) as [v|] eqn:Hg; simpl in Hr.
  2:{ injection Hr as <-. exists st. split_and!; auto. rewrite Remove_unknown by (done || apply HS). by split. }
  destruct (Get_stake_ok _ _ _ HS Hg) as (Hj & H0 & H1 & H2). apply Z.ltb_ge in Hbd. rewrite Hj in Hr.
  destruct (Remove_stake _ _ _ HS Hg) as [HS' Hb']. pose proof (bonded_ge _ _ _ HS Hg). pose proof (bonded_nonneg _ HS').
  destruct (Z.eqb_spec (SelfStake v) 0) as [Hz|Hz].
  { injection Hr as <-. exists st. split_and!; auto. split; auto. cbn. lia. }
  rewrite Hst in Hr. case_bool_decide; [done|].
  destruct (creditCoin st (RewardCoin v) (SelfStake v)) as [st1 ok] eqn:Ec. destruct ok; [|done]. injection Hr as <-.
  destruct (creditCoin_counters _ _ _ _ _ Ec) as (K1 & K2 & _); [u64_lia|lia|lia|].
  exists st1. split_and!; auto. split; auto; cbn; lia.
Qed.

Lemma removeLoop_ok keys L st n pending removed :
  held L st n -> n <= max64 ->
  let '(L', pending', removed') := removeLoop c L pending keys removed in
  exists st', held L' st' n /\ cs_supply st' = cs_supply st /\
    l_tracker L' = l_tracker L /\ l_domains L' = l_domains L.
Proof using Type.
  intros HL Hm. revert L st pending removed HL. induction keys as [|pk keys IH]; intros L st pending removed HL; simpl.
  { exists st. split_and!; auto. }
  destruct (_ && _); [exists st; split_and!; auto|].
  destruct (hasBondedDelegations (l_validators L) pk) eqn:Hb; [by apply IH|].
  destruct (returnDeregisteredStake L pk) as [L1 ok] eqn:Er. destruct ok.
  - destruct (remove_one L st n pk L1 HL Hm Hb Er) as (st1 & H1 & S1 & T1 & D1).
    pose proof (IH _ st1 (pending ∖ {[pk]}) (removed ++ [pk]) H1) as H2.
    destruct (removeLoop _ _ _ _ _) as [[L2 p2] r2]. destruct H2 as (st2 & H3 & S3 & T3 & D3).
    exists st2. split_and!; auto; cbn in *; congruence.
  - assert (L1 = L) as ->; [|by apply IH]. unfold returnDeregisteredStake in Er. cbv zeta in Er.
    repeat (case_match; simplify_eq; try done).
Qed.

(** ** The whole boundary *)

Lemma sweep_ledger L epoch :
  exists L', sweepExpiredDomains c L epoch = Some L' /\ l_coins L' = l_coins L /\
    l_validators L' = l_validators L /\ l_tracker L' = l_tracker L.
Proof using Hparams.
  clear Hrate Hcomm Hmille. unfold sweepExpiredDomains. destruct (l_domains L) as [db|]; [|by exists L].
  unfold graceEpochs, mustFeeParams. rewrite Hparams. cbn [fmap option_fmap option_map mbind option_bind].
  eexists. split; [done|]. generalize (sortHashes (expiredNames db epoch (GraceEpochs params))). intros names. revert L.
  induction names as [|nm names IH]; intros L; simpl; [done|]. destruct (IH (sweepName L nm)) as (-> & -> & ->).
  unfold sweepName. by destruct (l_domains L).
Qed.

(** C28. When positions are backed and payable with stakes in range, reward weights sum
    within 64 bits, fee pools are non-negative, what is held does not exceed the supply
    and issuance fits in 64 bits (with commission, issuance and emission rates within
    their scales), an epoch transition returns and moves tokens only between supply,
    coins, stakes and the fee pools: supply less coins, bonded stake and pooled fees is
    what it was, so issuance and the settled pool are credited or carried forward; tracker
    entries and their deposits stay; the epoch advances by one and the published snapshot
    of the new epoch is the committee just frozen. *)
Theorem transitionEpoch_conserves_supply d st :
  epochPre d st ->
  exists d', transitionEpoch E c wired d = Some d' /\ unheld d' = unheld d /\
    l_tracker (d_ledger d') = l_tracker (d_ledger d) /\
    currentEpoch (d_epochs d') = currentEpoch (d_epochs d) +w 1 /\
    HoldersForEpoch d' (currentEpoch (d_epochs d')) = epochHolders (d_epochs d').
Proof using Hblake Hparams Hcomm Hmille Hrate.
  intros Hpre. destruct (settleDeferredEpoch_ok d st Hpre)
    as (d1 & st1 & H1 & Hst1 & HS1 & Hc1 & Hm1 & Hu1 & He1 & Hr1 & Ht1 & Hd1).
  unfold transitionEpoch. rewrite H1. cbn [mbind option_bind]. unfold applyPendingRemovals. cbv zeta.
  set (pend := pendingRemovals (d_epochs d1)).
  pose proof (removeLoop_ok (sortedMemberKeys pend) (d_ledger d1) st1 _ pend [] ltac:(by split) Hm1) as H2.
  destruct (removeLoop _ _ _ _ _) as [[L2 p2] removed]. destruct H2 as (st2 & [A1 A2 A3 A4] & S2 & T2 & D2).
  cbn [d_ledger set_pending set_epochs set_ledger].
  destruct (sweep_ledger L2 (currentEpoch (d_epochs (set_pending (set_ledger d1 L2) p2)) +w 1))
    as (L3 & -> & C3 & V3 & T3).
  cbn [mbind option_bind]. eexists. split; [done|]. split; [|split; [|split]].
  - rewrite <- Hu1. unfold unheld. cbn. rewrite C3, V3, A1, Hst1. cbn [fmap option_fmap option_map]. f_equal. lia.
  - cbn. by rewrite T3, T2, Ht1.
  - cbn. by rewrite He1.
  - unfold HoldersForEpoch. cbn. by rewrite Z.eqb_refl.
Qed.

End Settle.

(** ** A boundary with issuance, a delegator and a removal

    Key 7 is delegated to by key 9; key 8 leaves, its stake returned to coin 2. *)

Definition epochConfig : Config :=
  mkConfig (h 0) (Some DefaultFeeParams) 0 0 1000 100 0 0 10 1 (mkThermostat 250 350 10 100000 500 50 500).

Definition coinObject (id owner : Hash) (balance : Z) : Object := mkObject id 0 owner 0 (le_enc 8 balance) 0 0.
Definition epochPosition : Hash := DelegationID sampleCrypto (h 9) (h 7).
Definition epochStore : CoinStore :=
  mkCoinStore (<[h 1 := coinObject (h 1) (h 7) 500]> (<[h 2 := coinObject (h 2) (h 8) 0]>
    (<[epochPosition := buildDelegationObject sampleCrypto (h 9) (h 7) 100]> ∅))) 200000 500 None None.
Definition epochValidators : ValidatorSet :=
  let vs := SetSelfStake (SetSelfStake (NewValidatorSet [h 7; h 8]) (h 7) 300) (h 8) 200 in
  SetRewardCoin (SetRewardCoin (fst (AddDelegated vs (h 7) 100)) (h 7) (h 1)) (h 8) (h 2).
Definition epochDag : DAG (gmap bytes bytes) :=
  mkDAG (mkLedger ∅ (Some sampleRegistry) (Some epochStore) epochValidators (Some []) [])
    (mkRegime {[ h 7; h 8 ]} {[ h 7; h 8 ]} true 0 0 true false false)
    (mkEpochs 2 None None None None None None None {[ h 8 ]} [])
    (mkRewards (<[1 := 77]> (<[2 := 5]> ∅)) (<[1 := <[h 7 := 3]> (<[h 8 := 2]> ∅)]> ∅) 500).

Lemma epochValidators_ok : stakeInv epochValidators.
Proof.
  split; [|repeat constructor; vm_compute; congruence].
  repeat (apply updateAt_ok; [done|]). apply NewValidatorSet_ok. repeat constructor; set_solver.
Qed.

Lemma epochStore_positions : Forall (positions_ok epochStore) (validators epochValidators).
Proof.
  assert (Hall : forall v, v ∈ validators epochValidators -> positions_ok epochStore v);
    [|by apply Forall_forall].
  intros v Hv. assert (Hc : v ∈ [mkInfo (h 7) [] zeroBLS 300 100 false (h 1); mkInfo (h 8) [] zeroBLS 200 0 false (h 2)]) by exact Hv.
  apply elem_of_cons in Hc. destruct Hc as [-> | Hc]; [|apply list_elem_of_singleton in Hc as ->]; split.
  - repeat apply map_Forall_insert_2; [| | |apply map_Forall_empty]; intros s Hs; vm_compute in Hs; simplify_eq.
    unfold is_u64. simpl. lia.
  - vm_compute. discriminate.
  - repeat apply map_Forall_insert_2; [| | |apply map_Forall_empty]; intros s Hs; vm_compute in Hs; simplify_eq.
  - vm_compute. discriminate.
Qed.

Lemma epochDag_pre : epochPre epochConfig epochDag epochStore.
Proof.
  split; [done|split; [split| |]| | | |].
  - exact epochValidators_ok.
  - vm_compute. discriminate.
  - repeat (apply List.Forall_cons; [vm_compute; reflexivity|]). apply List.Forall_nil.
  - repeat (apply List.Forall_cons; [vm_compute; reflexivity|]). apply List.Forall_nil.
  - exact epochStore_positions.
  - repeat (apply List.Forall_cons; [intros o Ho; vm_compute in Ho; injection Ho as <-; split; [vm_compute; discriminate|vm_compute; reflexivity]|]).
    apply List.Forall_nil.
  - apply (bool_decide_unpack _). vm_compute. exact I.
  - vm_compute. discriminate.
  - apply (bool_decide_unpack _). vm_compute. exact I.
  - vm_compute. discriminate.
  - vm_compute. discriminate.
  - vm_compute. discriminate.
Qed.

Theorem transitionEpoch_conserves_supply_witness :
  unheld epochDag = Some 198818 /\
  exists d', transitionEpoch sampleEnv epochConfig true epochDag = Some d' /\ unheld d' = unheld epochDag /\
    currentEpoch (d_epochs d') = 3.
Proof.
  split; [vm_compute; reflexivity|].
  destruct (transitionEpoch_conserves_supply sampleEnv epochConfig true DefaultFeeParams) with (d := epochDag) (st := epochStore)
    as (d' & H1 & H2 & _ & H3 & _).
  - intros b. cbn [crypto sampleEnv sampleCrypto blake3 length]. f_equal.
    rewrite length_take, length_app, length_replicate. lia.
  - reflexivity.
  - vm_compute. split; discriminate.
  - vm_compute. split; discriminate.
  - vm_compute. split; [split|]; discriminate.
  - exact epochDag_pre.
  - exists d'. split; [exact H1|]. split; [exact H2|exact H3].
Defined.

(** ** Saturated weights

    Two stakes of [10^18] over a hundred rounds: each weight and their total all
    saturate at [2^64 - 1], so both shares round to the whole pool of one. *)
Definition richDag : DAG (gmap bytes bytes) :=
  let vs := SetSelfStake (SetSelfStake (NewValidatorSet [h 7; h 8]) (h 7) (10 ^ 18)) (h 8) (10 ^ 18) in
  mkDAG (mkLedger ∅ None (Some (mkCoinStore ∅ (3 * 10 ^ 18) 0 None None)) vs None [])
    (mkRegime {[ h 7; h 8 ]} {[ h 7; h 8 ]} true 0 0 true false false)
    (mkEpochs 2 None None None None None None None ∅ [])
    (mkRewards (<[1 := 1]> ∅) (<[1 := <[h 7 := 100]> (<[h 8 := 100]> ∅)]> ∅) 0).

(** The pool of one is paid out twice and the leftover wraps to [2^64 - 1]. *)

(** With two stakes of 10^18 over a hundred rounds, distributing a pool of one
    credits two and returns a leftover of 2^64-1. *)
Theorem saturated_weights_inflate_pool :
  match distributeEpochRewards sampleEnv sampleConfig true richDag 1 0 with
  | None => False
  | Some (d', leftover) =>
      bonded (l_validators (d_ledger d')) = bonded (l_validators (d_ledger richDag)) + 2 /\ leftover = max64
  end.
Proof. vm_compute. auto. Qed.
