(* ===== verification/Admission.v ===== *)
(** * Vertex admission and production (internal/consensus/validate.go, dag.go,
    build.go, quarantine.go, rootcheck.go)

    What a node checks of a vertex before it stores, buffers or rejects it, the
    pending buffer, and the vertices it builds itself.  A vertex is its decoded
    form.  [None] is the panic of [mustFeeParams]. *)

From S2P Require Import Prelude Types Fees Validators Stake Thermostat Storage Tracker Ingress Domains Staged Coins Ledger Ops Dag Vertices Gaps Anchor Commit Persist Smt Index Feed Header.

(** Errors of [validateVertex]; the first two make the vertex wait, the last one
    quarantines it. *)
Inductive vertexError :=
| errUnknownProducer | errParentNotFound | errBadSignature | errWrongEpoch | errParentRound | errParentQuorum | errFeeSummary
| errIndexRoot.

#[export] Instance vertexError_eq_dec : EqDecision vertexError.
Proof. solve_decision. Defined.

Definition isQuarantineVerdict (e : option vertexError) : bool := bool_decide (e = Some errIndexRoot).
Definition isMissingParentError (e : option vertexError) : bool := bool_decide (e = Some errParentNotFound).
Definition isUnknownProducerError (e : option vertexError) : bool := bool_decide (e = Some errUnknownProducer).

(** [epochWindow]. *)
Definition epochWindow (frontierEpoch : Z) : Z * Z := (if 0 <? frontierEpoch then frontierEpoch - 1 else 0, frontierEpoch +w 1).

Definition extractLinkProducer (l : VertexLink) : Hash := default zeroHash (hash32 (link_producer l)).

(** A call on the injected [VertexFetcher]. *)
Inductive FetchCall := FetchVertices (hashes : list Hash) | FetchRange (from to : Z).

(** Emitted events. *)
Inductive NodeEvent :=
| evVertexRejected (hash : Hash) (reason : vertexError)
| evVertexReceived (hash producer : Hash) (round : Z)
| evVertexQuarantined (hash producer : Hash) (round frontier : Z)
| evVertexProduced (hash : Hash) (round txs : Z)
| evRoundAdvanced (round : Z) (designated : Hash)
| evRoundSkipped (round : Z)
| evAnchorCommitted (round : Z) (anchor producer : Hash) (size : Z).

(** The fields of the DAG around its consensus state: stores, buffers and cursors. *)
Record Node (M : Type) := mkNode {
  n_dag : DAG M;
  n_store : store;
  n_db : DB;
  n_quarantined : gset Hash;
  n_faults : gmap Hash bytes;
  n_pending : gmap Hash Vertex;
  n_round : Z;
  n_lastProduced : Z;
  n_pendingTxs : list AttestedTransaction;
  n_lastRebroadcast : option Z;
  n_syncMode : bool;
  n_trusted : gset Hash;
  n_lastCommitted : Z;
  n_lastAnnounced : Z;
  n_stallAnchor : Hash;
  n_stallTicks : Z;
  n_waitRound : Z;
  n_waitTicks : Z;
  n_fetcher : option (list FetchCall);       (* None: not wired *)
  n_events : list NodeEvent;
}.

Arguments mkNode {M}. Arguments n_dag {M}. Arguments n_store {M}. Arguments n_db {M}. Arguments n_quarantined {M}. Arguments n_faults {M}.
Arguments n_pending {M}. Arguments n_round {M}. Arguments n_lastProduced {M}. Arguments n_pendingTxs {M}. Arguments n_lastRebroadcast {M}.
Arguments n_syncMode {M}. Arguments n_trusted {M}. Arguments n_lastCommitted {M}. Arguments n_lastAnnounced {M}. Arguments n_stallAnchor {M}.
Arguments n_stallTicks {M}. Arguments n_waitRound {M}. Arguments n_waitTicks {M}. Arguments n_fetcher {M}. Arguments n_events {M}.

(** What the node was constructed with, and its signing key. *)
Record NodeConfig := mkNodeConfig {
  nc_pubKey : Hash;
  nc_sign : Hash -> bytes;
  nc_listenerMode : bool;
  nc_isBootstrap : bool;
  nc_boot : Manager;             (* the index after construction *)
}.

Definition livenessTimeout : Z := 500000000.   (* nanoseconds *)

Section Setters.
Context {M : Type}.
Implicit Type n : Node M.

Definition set_n_store n s q p r ev : Node M :=
  mkNode (n_dag n) s (n_db n) q (n_faults n) p r (n_lastProduced n) (n_pendingTxs n) (n_lastRebroadcast n) (n_syncMode n) (n_trusted n)
    (n_lastCommitted n) (n_lastAnnounced n) (n_stallAnchor n) (n_stallTicks n) (n_waitRound n) (n_waitTicks n) (n_fetcher n) (n_events n ++ ev).

Definition emit n (ev : NodeEvent) : Node M := set_n_store n (n_store n) (n_quarantined n) (n_pending n) (n_round n) [ev].
Definition with_store n (s : store) : Node M := set_n_store n s (n_quarantined n) (n_pending n) (n_round n) [].
Definition with_pending n (p : gmap Hash Vertex) : Node M := set_n_store n (n_store n) (n_quarantined n) p (n_round n) [].

Definition set_production n (lastProduced : Z) (txs : list AttestedTransaction) (lastRebroadcast : option Z) (syncMode : bool) : Node M :=
  mkNode (n_dag n) (n_store n) (n_db n) (n_quarantined n) (n_faults n) (n_pending n) (n_round n) lastProduced txs lastRebroadcast syncMode
    (n_trusted n) (n_lastCommitted n) (n_lastAnnounced n) (n_stallAnchor n) (n_stallTicks n) (n_waitRound n) (n_waitTicks n) (n_fetcher n)
    (n_events n).

(** [updateRound]. *)
Definition updateRound n (round : Z) : Node M :=
  if round <=? n_round n then n else set_n_store n (n_store n) (n_quarantined n) (n_pending n) round [].

(** [markQuarantined]. *)
Definition markQuarantined n (hash : Hash) : Node M :=
  set_n_store n (n_store n) ({[ hash ]} ∪ n_quarantined n) (n_pending n) (n_round n) [].

Definition isQuarantined n (hash : Hash) : bool := bool_decide (hash ∈ n_quarantined n).

Definition bufferPendingVertex n (hash : Hash) (v : Vertex) : Node M :=
  if bool_decide (is_Some (n_pending n !! hash)) then n else with_pending n (<[hash := v]> (n_pending n)).

Definition removePendingVertex n (hash : Hash) : Node M := with_pending n (delete hash (n_pending n)).

End Setters.

Section Admission.
Context {M : Type} `{Pebble M} (E : Env M) (c : Config) (k : NodeConfig) (bodyBytes : BodyEncoder).
Implicit Types (n : Node M) (d : DAG M) (v : Vertex).

(** The index the node's feed leads to. *)
Definition nodeIndex d : option Manager := indexOf (blake3 (crypto E)) c (nc_boot k) <$> l_index (d_ledger d).

Definition vals d : ValidatorSet := l_validators (d_ledger d).

(** ** Transition window *)

Definition windowEnd d : Z := u64 (transitionRound (d_regime d)) +w effectiveGrace c +w effectiveBuffer c.

Definition isInTransitionOrBuffer n : bool :=
  if transitionRound (d_regime (n_dag n)) <? 0 then false else n_round n <? windowEnd (n_dag n).

Definition isRoundInTransitionOrBuffer d (round : Z) : bool :=
  if transitionRound (d_regime d) <? 0 then false
  else if round <? windowEnd d then true
  else negb (fullQuorumAchieved (d_regime d)).

(** ** The checks of [validateVertex] *)

(** During init any producer is accepted. *)
Definition initPhase d : bool := (0 <? minValidators c) && (Len (vals d) <? minValidators c).

Definition validateProducer d v : option vertexError :=
  if initPhase d then None else if Contains (vals d) (extractProducer v) then None else Some errUnknownProducer.

Definition validateVertexHash v : option vertexError :=
  let '(identity, bodyHash) := vertexIdentity (crypto E) bodyBytes v in
  if bool_decide (bodyHash = malformedBody (crypto E)) then Some errBadSignature
  else if negb (bool_decide (hashFrom (v_BodyHash v) = bodyHash)) then Some errBadSignature
  else if negb (bool_decide (hashFrom (v_Hash v) = identity)) then Some errBadSignature
  else None.

Definition validateSignature v : option vertexError :=
  if negb (Nat.eqb (length (v_Signature v)) 64) then Some errBadSignature
  else if negb (Nat.eqb (length (v_Producer v)) 32) then Some errBadSignature
  else if negb (Nat.eqb (length (v_Hash v)) 32) then Some errBadSignature
  else match validateVertexHash v with
  | Some e => Some e
  | None => if ed25519Verify (crypto E) (v_Producer v) (v_Hash v) (v_Signature v) then None else Some errBadSignature
  end.

Definition validateEpoch v : option vertexError :=
  if epochLength c =? 0 then (if v_Epoch v =? 0 then None else Some errWrongEpoch)
  else
    let '(low, high) := epochWindow (commitEpochForRound c (v_FrontierRound v)) in
    if (v_Epoch v <? low) || (high <? v_Epoch v) then Some errWrongEpoch else None.

Definition validateParentLink d (s : store) (link : VertexLink) (round : Z) : option vertexError :=
  match get s (extractLinkHash link) with
  | None => if Contains (vals d) (extractLinkProducer link) then Some errParentNotFound else None
  | Some parent => if v_Round parent =? round -w 1 then None else Some errParentRound
  end.

Fixpoint validateLinks d (s : store) (links : list VertexLink) (round : Z) : option vertexError :=
  match links with
  | [] => None
  | link :: links => match validateParentLink d s link round with
                     | Some e => Some e
                     | None => validateLinks d s links round
                     end
  end.

Definition validateParents d (s : store) v : option vertexError :=
  if v_Round v =? 0 then None
  else if Nat.eqb (length (v_Parents v)) 0 then Some errParentRound
  else validateLinks d s (v_Parents v) (v_Round v).

Definition validateParentsQuorum d v : option vertexError :=
  if v_Round v =? 0 then None
  else if initPhase d then None
  else if existsb (fun l => Contains (vals d) (extractLinkProducer l)) (v_Parents v) then None else Some errParentQuorum.

(** One transaction of a fee summary. *)
Definition txFeeSplit d (atx : AttestedTransaction) : option FeeSplit :=
  match atx_Transaction atx with
  | None => Some noFees
  | Some tx =>
      if negb (Nat.eqb (length (tx_GasCoin tx)) 32) then Some noFees
      else p ← feeParams c; Some (SplitFee (fst (calculateTxFeeSplit E (vals d) p tx atx)) p)
  end.

(** The wrapping sums of [validateFeeSummary] and [buildFeeSummary]. *)
Fixpoint feeTotals d (atxs : list AttestedTransaction) (acc : FeeSummary) : option FeeSummary :=
  match atxs with
  | [] => Some acc
  | atx :: atxs =>
      split ← txFeeSplit d atx;
      feeTotals d atxs (mkFeeSummary (fs_TotalFees acc +w fs_Total split) (fs_TotalBurned acc +w fs_Burned split)
        (fs_TotalEpoch acc +w fs_Epoch split))
  end.

Definition validateFeeSummary d v : option (option vertexError) :=
  match v_FeeSummary v with
  | None => Some (if Nat.eqb (length (v_Transactions v)) 0 then None else Some errFeeSummary)
  | Some declared =>
      total ← feeTotals d (v_Transactions v) (mkFeeSummary 0 0 0);
      Some (if negb (fs_TotalFees declared =? fs_TotalFees total) then Some errFeeSummary
            else if negb (fs_TotalBurned declared =? fs_TotalBurned total) then Some errFeeSummary
            else if negb (fs_TotalEpoch declared =? fs_TotalEpoch total) then Some errFeeSummary
            else None)
  end.

Definition validateIndexAnchor d v : option vertexError :=
  match anchorLie c (nodeIndex d) v with Some _ => Some errIndexRoot | None => None end.

(** The first error, in the order of the code. *)
Definition validateVertex d (s : store) v : option (option vertexError) :=
  match validateProducer d v with Some e => Some (Some e) | None =>
  match validateSignature v with Some e => Some (Some e) | None =>
  match validateEpoch v with Some e => Some (Some e) | None =>
  match (if isRoundInTransitionOrBuffer d (v_Round v) then None else validateParents d s v) with Some e => Some (Some e) | None =>
  match validateParentsQuorum d v with Some e => Some (Some e) | None =>
  fee ← validateFeeSummary d v;
  match fee with Some e => Some (Some e) | None => Some (validateIndexAnchor d v) end
  end end end end end.

(** ** Production *)

Definition knownProducersAt d (s : store) (hashes : list Hash) : gset Hash :=
  list_to_set (omap (fun h => v ← get s h; let p := extractProducer v in if Contains (vals d) p then Some p else None) hashes).

Definition countValidatorVertices d (s : store) (round : Z) : Z :=
  Z.of_nat (length (filter (fun h => (match get s h with Some v => Contains (vals d) (extractProducer v) | None => false end) = true) (getByRound s round))).

Definition hasQuorumFromRound n (round : Z) : bool :=
  let d := n_dag n in
  if isInTransitionOrBuffer n || isRoundInTransitionOrBuffer d round then 1 <=? countValidatorVertices d (n_store n) round
  else
    let producers := knownProducersAt d (n_store n) (getByRound (n_store n) round) in
    if Nat.eqb (size producers) 0 then false
    else
      let set := match HoldersForEpoch d (commitEpochForRound c round) with Some set => set | None => vals d end in
      let '(cappedSum, cappedTotal) := cappedStakeOf (votingCapMille c) set producers in
      quorumReached cappedSum cappedTotal.

Definition canProduceVertex n (round : Z) : bool :=
  if round =? 0 then true
  else if nc_isBootstrap k && (0 <? minValidators c) && (transitionRound (d_regime (n_dag n)) <? 0)
  then 1 <=? countValidatorVertices (n_dag n) (n_store n) (round - 1)
  else hasQuorumFromRound n (round - 1).

Definition nextProductionRound n : Z :=
  let round := n_round n in
  if 0 <? n_lastProduced n then let nextProd := n_lastProduced n +w 1 in if nextProd <? round then nextProd else round
  else round.

Definition provenLiar n (hash : Hash) v : bool :=
  isQuarantined n hash || match anchorLie c (nodeIndex (n_dag n)) v with Some _ => true | None => false end.

Definition referenceableParents n (candidates : list Hash) : list Hash :=
  filter (fun h => (match get (n_store n) h with Some v => negb (provenLiar n h v) | None => false end) = true) candidates.

Definition trustedParents n (candidates : list Hash) : list Hash :=
  filter (fun h => (match get (n_store n) h with Some v => bool_decide (extractProducer v ∈ n_trusted n) | None => false end) = true) candidates.

Definition collectParents n (round : Z) : list Hash :=
  if round =? 0 then []
  else
    let candidates := getByRound (n_store n) (round - 1) in
    let candidates := if n_syncMode n then trustedParents n candidates else candidates in
    referenceableParents n candidates.

Definition buildVertexLink (s : store) (hash : Hash) : VertexLink :=
  mkLink hash (match get s hash with Some v => v_Producer v | None => zeroHash end).

(** [buildTxVector]: a transaction that does not parse is skipped. *)
Definition buildTxVector (txs : list AttestedTransaction) : list AttestedTransaction :=
  filter (fun atx => is_Some (atx_Transaction atx)) txs.

Definition committedFrontier d : Z * Hash :=
  match nodeIndex d with None => (0, zeroHash) | Some m => CommittedFrontier m end.

(** [buildVertex]: the unsigned pass, the identity, the signed pass. *)
Definition buildVertex n (now : Z) (round : Z) (parents : list Hash) (txs : list AttestedTransaction) : option Vertex :=
  let d := n_dag n in
  let '(frontierRound, indexRoot) := committedFrontier d in
  let epoch := currentEpoch (d_epochs d) in
  summary ← feeTotals d txs (mkFeeSummary 0 0 0);
  let links := map (buildVertexLink (n_store n)) parents in
  let body := buildTxVector txs in
  let unsigned := mkVertex [] round (nc_pubKey k) links body epoch (Some summary) now frontierRound indexRoot [] [] in
  let '(identity, bodyHash) := vertexIdentity (crypto E) bodyBytes unsigned in
  Some (mkVertex identity round (nc_pubKey k) links body epoch (Some summary) now frontierRound indexRoot bodyHash (nc_sign k identity)).

Definition addOwnVertex n v (round : Z) : Node M * bool :=
  match validateProducer (n_dag n) v with
  | Some _ => (n, false)
  | None =>
      match validateSignature v with
      | Some _ => (n, false)
      | None =>
          match hash32 (v_Hash v) with
          | None => (n, false)
          | Some hash => let '(s, added) := add (n_store n) v hash round (nc_pubKey k) in (if added then with_store n s else n, added)
          end
      end
  end.

(** [frontierLeafToRebroadcast]: the leaves to send again, at most one round per
    liveness interval. *)
Definition frontierLeafToRebroadcast n (now : Z) : Node M * list Vertex :=
  if n_lastProduced n =? 0 then (n, [])
  else if match n_lastRebroadcast n with Some t => now - t <? livenessTimeout | None => false end then (n, [])
  else
    let '(hashes, ok) := getByRoundProducer (n_store n) (n_lastProduced n) (nc_pubKey k) in
    if negb ok then (n, [])
    else (set_production n (n_lastProduced n) (n_pendingTxs n) (Some now) (n_syncMode n), omap (get (n_store n)) hashes).

(** [produceVertex]: the node and what it sends. *)
Definition produceVertex n (now : Z) : option (Node M * list Vertex) :=
  if nc_listenerMode k then Some (n, [])
  else if negb (Contains (vals (n_dag n)) (nc_pubKey k)) then Some (n, [])
  else
    let round := nextProductionRound n in
    if negb (canProduceVertex n round) then Some (frontierLeafToRebroadcast n now)
    else
      let parents := collectParents n round in
      let txs := n_pendingTxs n in
      let n := set_production n (n_lastProduced n) [] (n_lastRebroadcast n) (n_syncMode n) in
      v ← buildVertex n now round parents txs;
      match addOwnVertex n v round with
      | (n, false) => Some (set_production n (n_lastProduced n) (txs ++ n_pendingTxs n) (n_lastRebroadcast n) (n_syncMode n), [])
      | (n, true) =>
          let n := emit n (evVertexProduced (hashFrom (v_Hash v)) round (Z.of_nat (length txs))) in
          let n := set_production n round (n_pendingTxs n) (n_lastRebroadcast n) false in
          Some (updateRound n (round +w 1), [v])
      end.

(** ** Admission *)

(** [onVertexAdded]: production is triggered only outside multi-validator mode. *)
Definition onVertexAdded n (now : Z) (round : Z) : option (Node M) :=
  let n := updateRound n round in
  if 0 <? minValidators c then Some n else '(n, _) ← produceVertex n now; Some n.

(** One entry of [tryProcessPending]: the node and whether it was stored. *)
Definition processEntry n (now : Z) (hash : Hash) v : option (Node M * bool) :=
  err ← validateVertex (n_dag n) (n_store n) v;
  let quarantined := isQuarantineVerdict err in
  if negb (bool_decide (err = None)) && negb quarantined then
    Some (if isMissingParentError err || isUnknownProducerError err then n else removePendingVertex n hash, false)
  else
    let n := if quarantined then markQuarantined n hash else n in
    let '(s, added) := add (n_store n) v hash (v_Round v) (extractProducer v) in
    if added then
      let n := with_store n s in
      let n := if quarantined then emit n (evVertexQuarantined hash (extractProducer v) (v_Round v) (v_FrontierRound v)) else n in
      n ← onVertexAdded n now (v_Round v);
      Some (removePendingVertex n hash, true)
    else Some (removePendingVertex n hash, false).

(** [snapshotPendingSorted]: by round; [sort.Slice] leaves the order within a
    round open. *)
Definition round_le (a b : Hash * Vertex) : Prop := v_Round (snd a) <= v_Round (snd b).

#[export] Instance round_le_dec : RelDecision round_le.
Proof using. intros a b. unfold round_le. apply _. Defined.

Definition snapshotPendingSorted n : list (Hash * Vertex) := merge_sort round_le (map_to_list (n_pending n)).

Fixpoint processEntries n (now : Z) (entries : list (Hash * Vertex)) (processed : Z) : option (Node M * Z) :=
  match entries with
  | [] => Some (n, processed)
  | (hash, v) :: entries =>
      '(n, stored) ← processEntry n now hash v;
      processEntries n now entries (if (stored : bool) then processed + 1 else processed)
  end.

Definition tryProcessPending n (now : Z) : option (Node M * Z) := processEntries n now (snapshotPendingSorted n) 0.

(** [processPendingVertices]: every pass that stores something also shrinks the
    buffer, so one more pass than buffered vertices is enough. *)
Fixpoint pendingPasses (fuel : nat) n (now : Z) : option (Node M) :=
  match fuel with
  | O => None
  | S fuel =>
      '(n, processed) ← tryProcessPending n now;
      if processed =? 0 then Some n else pendingPasses fuel n now
  end.

Definition processPendingVertices n (now : Z) : option (Node M) := pendingPasses (S (size (n_pending n))) n now.

(** [AddVertex]: the node and whether the vertex is fit to relay. *)
Definition AddVertex n (now : Z) v : option (Node M * bool) :=
  match hash32 (v_Hash v) with
  | None => Some (n, false)
  | Some hash =>
      if has (n_store n) hash then Some (n, false)
      else
        err ← validateVertex (n_dag n) (n_store n) v;
        let quarantined := isQuarantineVerdict err in
        if negb (bool_decide (err = None)) && negb quarantined then
          Some (if isMissingParentError err || isUnknownProducerError err then bufferPendingVertex n hash v
                else emit n (evVertexRejected hash (default errBadSignature err)), false)
        else
          let producer := extractProducer v in
          let round := v_Round v in
          let n := if quarantined then markQuarantined n hash else n in
          let '(s, added) := add (n_store n) v hash round producer in
          if negb added then Some (n, false)
          else
            let n := with_store n s in
            let n := emit n (if quarantined then evVertexQuarantined hash producer round (v_FrontierRound v)
                             else evVertexReceived hash producer round) in
            n ← onVertexAdded n now round;
            n ← processPendingVertices n now;
            Some (n, negb quarantined)
  end.

(** [SubmitTx] and one tick of [livenessLoop]. *)
Definition SubmitTx n (now : Z) (atx : AttestedTransaction) : option (Node M * list Vertex) :=
  produceVertex (set_production n (n_lastProduced n) (n_pendingTxs n ++ [atx]) (n_lastRebroadcast n) (n_syncMode n)) now.

Definition livenessTick n (now : Z) : option (Node M * list Vertex) :=
  node ← processPendingVertices n now; produceVertex node now.

End Admission.
