(* ===== verification/Cursor.v ===== *)
(** * The commit cursor (internal/consensus/commit.go, rootcheck.go, dag.go)

    One tick of the commit loop: decide the round at the cursor, apply the
    anchor's causal batch, advance the cursor with its persisted batch, cross the
    epoch boundary, and ask peers for what a stalled round is missing.  [None] is
    a run-time panic. *)

From S2P Require Import Prelude Types Fees Validators Stake Thermostat Storage Tracker Ingress Domains Staged Coins Ledger Ops Dag Vertices Gaps Anchor Commit Supply Epoch Persist Smt Index Feed Header Admission.

Definition deepGapRangeThreshold : Z := 10.

Section Setters.
Context {M : Type}.
Implicit Type n : Node M.

Definition set_commit n (d : DAG M) (s : store) (db : DB) (faults : gmap Hash bytes) (cursor : Z) : Node M :=
  mkNode d s db (n_quarantined n) faults (n_pending n) (n_round n) (n_lastProduced n) (n_pendingTxs n) (n_lastRebroadcast n)
    (n_syncMode n) (n_trusted n) cursor (n_lastAnnounced n) (n_stallAnchor n) (n_stallTicks n) (n_waitRound n) (n_waitTicks n)
    (n_fetcher n) (n_events n).

Definition with_dag n (d : DAG M) : Node M := set_commit n d (n_store n) (n_db n) (n_faults n) (n_lastCommitted n).

Definition set_stall n (anchor : Hash) (ticks waitRound waitTicks : Z) : Node M :=
  mkNode (n_dag n) (n_store n) (n_db n) (n_quarantined n) (n_faults n) (n_pending n) (n_round n) (n_lastProduced n) (n_pendingTxs n)
    (n_lastRebroadcast n) (n_syncMode n) (n_trusted n) (n_lastCommitted n) (n_lastAnnounced n) anchor ticks waitRound waitTicks
    (n_fetcher n) (n_events n).

Definition set_announced n (round : Z) (evs : list NodeEvent) : Node M :=
  mkNode (n_dag n) (n_store n) (n_db n) (n_quarantined n) (n_faults n) (n_pending n) (n_round n) (n_lastProduced n) (n_pendingTxs n)
    (n_lastRebroadcast n) (n_syncMode n) (n_trusted n) (n_lastCommitted n) round (n_stallAnchor n) (n_stallTicks n) (n_waitRound n)
    (n_waitTicks n) (n_fetcher n) (n_events n ++ evs).

(** A call on the fetcher; nothing happens while none is wired. *)
Definition fetch n (call : FetchCall) : Node M :=
  mkNode (n_dag n) (n_store n) (n_db n) (n_quarantined n) (n_faults n) (n_pending n) (n_round n) (n_lastProduced n) (n_pendingTxs n)
    (n_lastRebroadcast n) (n_syncMode n) (n_trusted n) (n_lastCommitted n) (n_lastAnnounced n) (n_stallAnchor n) (n_stallTicks n)
    (n_waitRound n) (n_waitTicks n) ((fun calls => calls ++ [call]) <$> n_fetcher n) (n_events n).

(** ** Gap recovery *)

Definition fetchMissing n (hashes : list Hash) : Node M :=
  if bool_decide (n_fetcher n = None) || Nat.eqb (length hashes) 0 then n else fetch n (FetchVertices hashes).

Definition requestMissingAncestors n (anchor : Hash) : Node M :=
  fetchMissing n (fst (missingCausalAncestry (n_store n) (n_pending n) anchor)).

Definition requestDeepGapRange n (cursor : Z) : Node M :=
  if bool_decide (n_fetcher n = None) then n
  else
    let highest := highestPendingRound (n_pending n) in
    if (highest <=? cursor) || (highest - cursor <=? deepGapRangeThreshold) then n else fetch n (FetchRange cursor highest).

Definition requestMissingFrontier n (round : Z) : Node M :=
  if bool_decide (n_fetcher n = None) then n
  else
    let missing := missingFrontierAbove (n_store n) round ++ pendingMissingParents (n_store n) (n_pending n) in
    if Nat.eqb (length missing) 0 then n else fetch n (FetchVertices missing).

Definition onCausalStall n (anchor : Hash) : Node M :=
  let '(missing, behindBacklog) := missingCausalAncestry (n_store n) (n_pending n) anchor in
  let n := if negb (bool_decide (n_stallAnchor n = anchor)) then set_stall n anchor 1 (n_waitRound n) (n_waitTicks n)
           else set_stall n (n_stallAnchor n) (n_stallTicks n + 1) (n_waitRound n) (n_waitTicks n) in
  if (2 <=? n_stallTicks n) || behindBacklog then fetchMissing n missing else n.

Definition onWaitStall n (round : Z) : Node M :=
  let n := set_stall n zeroHash 0 (n_waitRound n) (n_waitTicks n) in
  let n := requestDeepGapRange n round in
  if negb (n_waitRound n =? round) then set_stall n (n_stallAnchor n) (n_stallTicks n) round 1
  else
    let n := set_stall n (n_stallAnchor n) (n_stallTicks n) (n_waitRound n) (n_waitTicks n + 1) in
    if 2 <=? n_waitTicks n then requestMissingFrontier n round else n.

Definition clearStall n : Node M := set_stall n zeroHash 0 0 0.

End Setters.

Section Cursor.
Context {M : Type} `{Pebble M} (E : Env M) (c : Config) (wired : bool) (k : NodeConfig).
Implicit Types (n : Node M) (d : DAG M) (v : Vertex).

(** ** The batch *)

(** [recheckCommittedAnchor]. *)
Definition recheckCommittedAnchor n v : Node M :=
  match anchorLie c (nodeIndex E c k (n_dag n)) v with
  | None => n
  | Some (claimed, computed) =>
      set_commit n (n_dag n) (n_store n) (n_db n) (recordAnchorFault (crypto E) (n_faults n) v claimed computed) (n_lastCommitted n)
  end.

(** The loop of [applyBatch]. *)
Fixpoint commitVertices n (batch : list Hash) (commitRound : Z) (verdicts : option (list bool)) (credited : gset (Hash * Z))
    : option (Node M) :=
  match batch with
  | [] => Some n
  | hash :: batch =>
      match get (n_store n) hash with
      | None => commitVertices n batch commitRound verdicts credited
      | Some v =>
          let n := recheckCommittedAnchor n v in
          let epoch := commitEpochForRound c (v_Round v) in
          let '(d, credited) := creditLiveness (n_dag n) epoch v credited in
          r ← processTransactions E c d v commitRound verdicts;
          let '(d, fees, verdicts) := r in
          let d := poolFees d epoch (fs_Epoch fees) in
          let s := markVertexCommitted (n_store n) hash in
          let d := recordProducedMember d (extractProducer v) in
          commitVertices (set_commit n d s (n_db n) (n_faults n) (n_lastCommitted n)) batch commitRound verdicts credited
      end
  end.

Definition commitBatch n (commitRound : Z) (batch : list Hash) : option (Node M) :=
  commitVertices n batch commitRound (verifyRoundProofs E commitRound (omap (get (n_store n)) batch)) ∅.

Definition markFullQuorumAchieved d : DAG M :=
  let r := d_regime d in
  set_regime d (mkRegime (committedMembers r) (producedMembers r) (strictLatched r) (strictStartRound r) (transitionRound r)
    true (regimeDirty r) (producedDirty r)).

Definition markQuorumIfDirect n (round : Z) : Node M :=
  if roundIsRelaxed c (n_dag n) round then n
  else match directAnchorVerdict (crypto E) c (n_dag n) (n_store n) round with
  | (verdictCertified, _) => with_dag n (markFullQuorumAchieved (n_dag n))
  | _ => n
  end.

Definition anchorProducer n (hash : Hash) : Hash :=
  match get (n_store n) hash with None => zeroHash | Some v => extractProducer v end.

Definition commitAnchorBatch n (round : Z) (anchor : Hash) : option (Node M * bool) :=
  match causalBatch (n_store n) anchor with
  | None => Some (n, false)
  | Some batch =>
      n ← commitBatch n round batch;
      let n := markQuorumIfDirect n round in
      Some (emit n (evAnchorCommitted round anchor (anchorProducer n anchor) (Z.of_nat (length batch))), true)
  end.

(** ** The cursor *)

Definition clearDirty d : DAG M :=
  let r := d_regime d in
  set_regime d (mkRegime (committedMembers r) (producedMembers r) (strictLatched r) (strictStartRound r) (transitionRound r)
    (fullQuorumAchieved r) false false).

(** The live set is encoded before the boundary's own removals and rewards. *)
Definition advanceCommitCursor n (round : Z) : option (Node M) :=
  let cursor := round +w 1 in
  let d := n_dag n in
  let live := liveValidatorsKV d in
  if isEpochBoundary c round then
    d ← transitionEpoch E c wired d;
    Some (set_commit n (clearDirty d) (n_store n) (saveCommitCursorBatch (n_db n) cursor (epochStateKVs d ++ [live])) (n_faults n) cursor)
  else if regimeDirty (d_regime d) || producedDirty (d_regime d) then
    Some (set_commit n (clearDirty d) (n_store n) (saveCommitCursorBatch (n_db n) cursor (epochStateKVs d ++ [live])) (n_faults n) cursor)
  else Some (set_commit n d (n_store n) (saveCommitCursorBatch (n_db n) cursor (accumulatorKVs d ++ [live])) (n_faults n) cursor).

Definition setIndexFrontier n (round : Z) : Node M :=
  with_dag n (set_ledger (n_dag n) (feed (d_ledger (n_dag n)) (SetFrontier round))).

(** [commitNextRound]: the boolean tells whether the cursor advanced. *)
Definition commitNextRound n : option (Node M * bool) :=
  let round := n_lastCommitted n in
  match anchorStatus (crypto E) c (n_dag n) (n_store n) round with
  | anchorWait => Some (onWaitStall n round, false)
  | anchorCommit anchor =>
      '(n, ok) ← commitAnchorBatch n round anchor;
      if negb (ok : bool) then Some (onCausalStall n anchor, false)
      else n ← advanceCommitCursor (clearStall n) round; Some (setIndexFrontier n round, true)
  | anchorSkip =>
      n ← advanceCommitCursor (clearStall (emit n (evRoundSkipped round))) round; Some (setIndexFrontier n round, true)
  end.

(** The loop of [checkCommits].  The outer [None] is an exhausted fuel; a round
    above the highest stored one waits, so [commitFuel] is enough. *)
Fixpoint commitRounds (fuel : nat) n : option (option (Node M)) :=
  match fuel with
  | O => None
  | S fuel =>
      match commitNextRound n with
      | None => Some None
      | Some (n, true) => commitRounds fuel n
      | Some (n, false) => Some (Some n)
      end
  end.

Definition commitFuel n : nat := S (Z.to_nat (highestRound (n_store n) + 1 - n_lastCommitted n)).

(** [announceRoundAdvances]. *)
Definition announceRoundAdvances n : Node M :=
  let current := n_round n in
  let rounds := seqZ (n_lastAnnounced n + 1) (current - n_lastAnnounced n) in
  let evs := map (fun r => evRoundAdvanced r (default zeroHash (anchorProducerFor (crypto E) c (n_dag n) r))) rounds in
  set_announced n (if n_lastAnnounced n <? current then current else n_lastAnnounced n) evs.

Definition checkCommits n : option (option (Node M)) :=
  match commitRounds (commitFuel n) n with
  | None => None
  | Some r => Some (announceRoundAdvances <$> r)
  end.

End Cursor.
