(* ===== verification/Replica.v ===== *)
(** * Replication of the committed state

    Two nodes that decide alike compute the same ledger, membership, epoch state
    and durable batch, whatever else their stores hold (commit.go).  The one
    field a decision may leave different is the production posture
    [fullQuorumAchieved], latched from the local view. *)

From S2P Require Import Prelude Types Fees Validators Stake Thermostat Storage Tracker Ingress Domains Staged Coins Ledger Ops Dag Vertices Gaps Anchor Agreement Forks Commit Supply Epoch Persist Smt Index Feed Header Admission Cursor.

(** ** The production posture does not reach the committed state *)

Section Posture.
Context {M : Type} `{Pebble M} (E : Env M) (c : Config) (wired : bool) (b : bool).
Implicit Types (L : Ledger M) (d : DAG M).

Definition setQuorum d : DAG M :=
  let r := d_regime d in
  set_regime d (mkRegime (committedMembers r) (producedMembers r) (strictLatched r) (strictStartRound r) (transitionRound r)
    b (regimeDirty r) (producedDirty r)).

Lemma setQuorum_ledger d L : set_ledger (setQuorum d) L = setQuorum (set_ledger d L).
Proof using. done. Qed.

Lemma latch_quorum d r : latchStrictRegime c (setQuorum d) r = setQuorum (latchStrictRegime c d r).
Proof using. unfold latchStrictRegime. cbn. by destruct (strictLatched (d_regime d)). Qed.

Lemma refreeze_quorum d r : refreezeGenesisRegime c (setQuorum d) r = setQuorum (refreezeGenesisRegime c d r).
Proof using.
  unfold refreezeGenesisRegime. cbn [strictLatched d_regime setQuorum set_regime d_epochs]. destruct (strictLatched _); [done|].
  destruct (_ =? 0).
  - cbv zeta. match goal with |- context [if ?x && (?y <=? committedStakedMemberCount ?z) then _ else _] =>
      destruct (x && (y <=? committedStakedMemberCount z)) eqn:Eb end.
    + match goal with |- _ = setQuorum (if ?x then _ else _) => change x with true || idtac end.
      match type of Eb with ?x = true => match goal with |- _ = setQuorum (if ?y then _ else _) => change y with x end end.
      rewrite Eb. rewrite <- latch_quorum. done.
    + match type of Eb with ?x = false => match goal with |- _ = setQuorum (if ?y then _ else _) => change y with x end end.
      by rewrite Eb.
  - match goal with |- (if ?x then _ else _) = setQuorum (if ?y then _ else _) => change x with y; destruct y end; [|done].
    by rewrite latch_quorum.
Qed.

Lemma member_quorum d pk r : recordCommittedMember c (setQuorum d) pk r = setQuorum (recordCommittedMember c d pk r).
Proof using.
  unfold recordCommittedMember. cbn [d_regime setQuorum set_regime committedMembers]. case_bool_decide; [done|].
  rewrite <- refreeze_quorum. done.
Qed.

Lemma produced_quorum d pk : recordProducedMember (setQuorum d) pk = setQuorum (recordProducedMember d pk).
Proof using. unfold recordProducedMember. cbn. by case_bool_decide. Qed.

Lemma transition_quorum d r : enterTransition (setQuorum d) r = setQuorum (enterTransition d r).
Proof using. unfold enterTransition. cbn. by destruct (_ =? -1). Qed.

Lemma full_quorum d r :
  (if (0 <? minValidators c) && (minValidators c <=? Len (l_validators (d_ledger (setQuorum d)))) then enterTransition (setQuorum d) r
   else setQuorum d) =
  setQuorum (if (0 <? minValidators c) && (minValidators c <=? Len (l_validators (d_ledger d))) then enterTransition d r else d).
Proof using. change (d_ledger (setQuorum d)) with (d_ledger d). destruct (_ && _); [apply transition_quorum|done]. Qed.

Lemma register_quorum d tx r :
  handleRegisterValidator E c (setQuorum d) tx r = (fun p => (setQuorum (fst p), snd p)) <$> handleRegisterValidator E c d tx r.
Proof using.
  unfold handleRegisterValidator. destruct (isRegisterValidatorTx c tx); [|done]. cbn [negb].
  destruct (hash32 (tx_Sender tx)) as [pk|]; [|done]. destruct (DecodeRegisterValidatorArgs _) as [[[a bls] pop]|]; [|done].
  cbn [mbind option_bind]. destruct (verifiedRegistrationBLSKey E pk bls pop) as [key []]; [|done]. cbn [negb].
  change (set_vals (setQuorum d)) with (fun vs => setQuorum (set_vals d vs)). cbv beta.
  change (l_validators (d_ledger (setQuorum d))) with (l_validators (d_ledger d)).
  rewrite member_quorum. set (d1 := recordCommittedMember c _ pk r).
  change (l_validators (d_ledger (setQuorum d1))) with (l_validators (d_ledger d1)).
  destruct (setRewardCoinFromArgs _ tx pk) as [vs|]; [|done]. cbn [mbind option_bind fmap option_fmap option_map].
  change (committedMembers (d_regime (setQuorum d))) with (committedMembers (d_regime d)).
  destruct (negb _ && (0 <? epochLength c)); cbn [fst snd]; cbv zeta; f_equal; f_equal;
    [exact (full_quorum (addEpochAddition (set_vals d1 vs) pk) r)|exact (full_quorum (set_vals d1 vs) r)].
Qed.

Lemma podCall_quorum d atx tx r split storage :
  executePodCall E c (setQuorum d) atx tx r split storage =
  (fun p => (setQuorum (fst p), snd p)) <$> executePodCall E c d atx tx r split storage.
Proof using.
  unfold executePodCall. change (d_ledger (setQuorum d)) with (d_ledger d).
  destruct (validateMutableRefOwnership _ atx tx); [|done]. cbn [negb]. rewrite register_quorum.
  destruct (handleRegisterValidator E c d tx r) as [[d1 []]|]; [|done|done]. cbn [fmap option_fmap option_map mbind option_bind fst snd negb].
  assert (Hd : handleDeregisterValidator c (setQuorum d1) tx = setQuorum (handleDeregisterValidator c d1 tx)).
  { unfold handleDeregisterValidator. destruct (isDeregisterValidatorTx c tx); [|done]. by destruct (hash32 _). }
  rewrite Hd. set (d2 := handleDeregisterValidator c d1 tx). change (d_ledger (setQuorum d2)) with (d_ledger d2).
  destruct (handleBond c (d_ledger d2) tx) as [L bonded]. rewrite setQuorum_ledger.
  assert (Hb : (if bonded then refreezeGenesisRegime c (setQuorum (set_ledger d2 L)) r else setQuorum (set_ledger d2 L)) =
               setQuorum (if bonded then refreezeGenesisRegime c (set_ledger d2 L) r else set_ledger d2 L)).
  { destruct bonded; [apply refreeze_quorum|done]. }
  rewrite Hb. set (d3 := if bonded then _ else _). change (d_ledger (setQuorum d3)) with (d_ledger d3).
  destruct (settleDeclaredDeletions c _ tx) as [[L2 []]|]; [|done|done]. cbn [mbind option_bind negb].
  rewrite setQuorum_ledger. change (d_ledger (setQuorum (set_ledger d3 L2))) with L2.
  destruct (_ && _); [done|]. cbn [d_ledger set_ledger]. destruct (match executor E with Some run => run L2 atx | None => (L2, true) end) as [L3 ok].
  done.
Qed.

Lemma executeTx_quorum d atx r vs :
  executeTx E c (setQuorum d) atx r vs = (fun p => (setQuorum (fst (fst p)), snd (fst p), snd p)) <$> executeTx E c d atx r vs.
Proof using.
  unfold executeTx. destruct (atx_Transaction atx) as [tx|]; [|done]. destruct (proofVerdict E atx r vs) as [ok vs'].
  destruct (preCheck E c tx r ok); [done|]. change (d_ledger (setQuorum d)) with (d_ledger d).
  destruct (commitOnce (d_ledger d) tx) as [L|]; [|done]. destruct (checkAndUpdate _ tx) as [t []]; [|done]. cbn [negb].
  rewrite setQuorum_ledger. cbn [d_ledger set_ledger setQuorum set_regime].
  destruct (deductFees E c _ tx atx) as [[[[L1 split] storage] []]|]; [|done|done]. cbn [mbind option_bind negb].
  destruct (negb _).
  - change (d_ledger (set_ledger (setQuorum (set_ledger d (set_tracker L t))) L1)) with L1. cbn [d_ledger set_ledger].
    by destruct (commitDeclaredOps E c L1 tx r split storage).
  - change (set_ledger (setQuorum (set_ledger d (set_tracker L t))) L1) with (setQuorum (set_ledger d L1)).
    change (set_ledger (set_ledger d (set_tracker L t)) L1) with (set_ledger d L1). rewrite podCall_quorum.
    by destruct (executePodCall E c (set_ledger d L1) atx tx r split storage).
Qed.

Lemma processAtxs_quorum atxs : forall d r vs fees,
  processAtxs E c (setQuorum d) atxs r vs fees =
  (fun p => (setQuorum (fst (fst p)), snd (fst p), snd p)) <$> processAtxs E c d atxs r vs fees.
Proof using.
  induction atxs as [|atx atxs IH]; intros d r vs fees; [done|]. cbn [processAtxs]. rewrite executeTx_quorum.
  destruct (executeTx E c d atx r vs) as [[[d1 f1] vs1]|]; [|done]. apply IH.
Qed.

Lemma applyVertices_quorum batch : forall d r vs credited,
  applyVertices E c (setQuorum d) batch r vs credited = setQuorum <$> applyVertices E c d batch r vs credited.
Proof using.
  induction batch as [|v batch IH]; intros d r vs credited; [done|]. cbn [applyVertices].
  assert (Hc : creditLiveness (setQuorum d) (commitEpochForRound c (v_Round v)) v credited =
    (setQuorum (fst (creditLiveness d (commitEpochForRound c (v_Round v)) v credited)),
     snd (creditLiveness d (commitEpochForRound c (v_Round v)) v credited))) by (unfold creditLiveness; by case_bool_decide).
  rewrite Hc. destruct (creditLiveness d _ v credited) as [d1 credited1]. cbn [fst snd].
  unfold processTransactions. rewrite processAtxs_quorum. destruct (processAtxs E c d1 _ r vs noFees) as [[[d2 f2] vs2]|]; [|done].
  cbn [fmap option_fmap option_map mbind option_bind fst snd].
  change (poolFees (setQuorum d2)) with (fun e a => setQuorum (poolFees d2 e a)). cbv beta. rewrite produced_quorum. apply IH.
Qed.

Lemma transitionEpoch_quorum d : transitionEpoch E c wired (setQuorum d) = setQuorum <$> transitionEpoch E c wired d.
Proof using.
  unfold transitionEpoch.
  assert (Hs : settleDeferredEpoch E c wired (setQuorum d) = setQuorum <$> settleDeferredEpoch E c wired d).
  { unfold settleDeferredEpoch. change (d_epochs (setQuorum d)) with (d_epochs d). destruct (_ =? 0); [done|].
    change (d_rewards (setQuorum d)) with (d_rewards d). change (d_ledger (setQuorum d)) with (d_ledger d). cbv zeta.
    set (dist := 0 <? _).
    assert (Hr : runThermostat c (setQuorum d) dist = (setQuorum (fst (runThermostat c d dist)), snd (runThermostat c d dist))).
    { unfold runThermostat. change (d_ledger (setQuorum d)) with (d_ledger d). destruct (l_coins (d_ledger d)); [|done]. by destruct dist. }
    rewrite Hr. destruct (runThermostat c d dist) as [d1 issuance]. cbn [fst snd].
    unfold distributeEpochRewards. change (d_ledger (setQuorum d1)) with (d_ledger d1).
    change (d_rewards (setQuorum d1)) with (d_rewards d1). destruct (l_coins (d_ledger d1)) as [st|]; [|done].
    destruct (_ || _); [done|]. destruct (mustFeeParams c); [|done]. cbn [mbind option_bind].
    destruct (creditShares _ _ _ _ _ _ _ _ _ _) as [[[st1 vs1] n1]|]; [|done]. cbn [mbind option_bind].
    by destruct (creditRemainder st1 vs1 _ _) as [st2 n2]. }
  rewrite Hs. destruct (settleDeferredEpoch E c wired d) as [d1|]; [|done]. cbn [fmap option_fmap option_map mbind option_bind].
  assert (Ha : applyPendingRemovals c (setQuorum d1) = (setQuorum (fst (applyPendingRemovals c d1)), snd (applyPendingRemovals c d1))).
  { unfold applyPendingRemovals. change (d_epochs (setQuorum d1)) with (d_epochs d1). change (d_ledger (setQuorum d1)) with (d_ledger d1).
    by destruct (removeLoop _ _ _ _ _) as [[L p] rm]. }
  rewrite Ha. destruct (applyPendingRemovals c d1) as [d2 removed]. cbn [fst snd].
  change (d_ledger (setQuorum d2)) with (d_ledger d2). change (d_epochs (setQuorum d2)) with (d_epochs d2).
  by destruct (sweepExpiredDomains c _ _).
Qed.

End Posture.

(** ** One committed round *)

(** What a commit never touches of the store. *)
Record sameStore (s s' : store) : Prop := {
  ss_vertices : st_vertices s' = st_vertices s;
  ss_rounds : byRound s' = byRound s;
  ss_producers : st_producers s' = st_producers s;
  ss_latest : latestRound s' = latestRound s;
  ss_floor : commitFloor s' = commitFloor s;
}.

Lemma sameStore_refl s : sameStore s s.
Proof. done. Qed.

Lemma sameStore_trans s1 s2 s3 : sameStore s1 s2 -> sameStore s2 s3 -> sameStore s1 s3.
Proof. intros [] []. split; congruence. Qed.

Create HintDb node discriminated.
#[export] Hint Resolve sameStore_refl : node.

Section Rounds.
Context {M : Type} `{Pebble M} (E : Env M) (c : Config) (wired : bool) (k : NodeConfig).
Implicit Types (n : Node M) (d : DAG M).

Lemma recheck_same n v :
  let n' := recheckCommittedAnchor E c k n v in
  n_dag n' = n_dag n /\ n_store n' = n_store n /\ n_db n' = n_db n /\ n_lastCommitted n' = n_lastCommitted n.
Proof using. unfold recheckCommittedAnchor. by destruct (anchorLie c _ v) as [[claimed computed]|]. Qed.

(** The loop of [applyBatch] is [applyVertices] on the stored vertices. *)
Lemma commitVertices_spec batch : forall n r vs credited n',
  commitVertices E c k n batch r vs credited = Some n' ->
  applyVertices E c (n_dag n) (omap (get (n_store n)) batch) r vs credited = Some (n_dag n') /\
  sameStore (n_store n) (n_store n') /\
  committedVertices (n_store n') = committedVertices (n_store n) ∪ list_to_set (filter (fun h => is_Some (get (n_store n) h)) batch) /\
  n_db n' = n_db n /\ n_lastCommitted n' = n_lastCommitted n.
Proof using.
  induction batch as [|h batch IH]; intros n r vs credited n' Hc; cbn [commitVertices omap list_omap] in *.
  { injection Hc as <-. split_and!; auto with node. simpl. set_solver. }
  destruct (get (n_store n) h) as [v|] eqn:Eg.
  - cbn [applyVertices]. destruct (recheck_same n v) as (R1 & R2 & R3 & R4). set (n1 := recheckCommittedAnchor E c k n v) in *.
    rewrite R1 in Hc. destruct (creditLiveness (n_dag n) _ v credited) as [d1 cr1].
    destruct (processTransactions E c d1 v r vs) as [[[d2 f2] vs2]|]; [|done]. cbn [mbind option_bind] in Hc |- *.
    apply IH in Hc as (H1 & H2 & H3 & H4 & H5). cbn [set_commit n_dag n_store n_db n_lastCommitted] in *.
    rewrite R2 in *. rewrite R3 in *. rewrite R4 in *. split_and!; try done.
    + eapply sameStore_trans; [|exact H2]. done.
    + rewrite H3. rewrite filter_cons_True by (by rewrite Eg). cbn [list_to_set markVertexCommitted committedVertices].
      change (get (markVertexCommitted (n_store n) h)) with (get (n_store n)). set_solver.
  - apply IH in Hc as (H1 & H2 & H3 & H4 & H5). split_and!; try done. rewrite H3, filter_cons_False; [done|]. rewrite Eg. by intros [].
Qed.

Lemma filter_stored s (batch : list Hash) : Forall (fun h => is_Some (get s h)) batch -> filter (fun h => is_Some (get s h)) batch = batch.
Proof using. induction 1 as [|h batch Hh Hb IH]; [done|]. by rewrite filter_cons_True, IH. Qed.

Lemma causalBatch_stored s anchor batch : causalBatch s anchor = Some batch -> Forall (fun h => is_Some (get s h)) batch.
Proof using. intros Hb. apply Forall_forall. intros h Hin. apply (causalBatch_elem s anchor batch h Hb) in Hin as (_ & _ & v & Hv & _). eauto. Qed.

Lemma markQuorum_setQuorum n r :
  exists b, n_dag (markQuorumIfDirect E c n r) = setQuorum b (n_dag n) /\ n_store (markQuorumIfDirect E c n r) = n_store n /\
    n_db (markQuorumIfDirect E c n r) = n_db n /\ n_lastCommitted (markQuorumIfDirect E c n r) = n_lastCommitted n.
Proof using.
  assert (Hs : setQuorum (fullQuorumAchieved (d_regime (n_dag n))) (n_dag n) = n_dag n) by (destruct n as [[L [] e w]]; done).
  unfold markQuorumIfDirect. destruct (roundIsRelaxed c (n_dag n) r); [eexists; split_and!; [symmetry; exact Hs|done..]|].
  destruct (directAnchorVerdict _ c _ _ r) as [[] h]; try (eexists; split_and!; [symmetry; exact Hs|done..]).
  exists true. done.
Qed.

(** ** Two nodes in step *)

(** Two nodes at the same cursor: one committed set, one floor, one durable
    state, stores that are parts of one set of vertices [U]. *)
Record twins (U : gmap Hash Vertex) n n' : Prop := {
  tw_dag : exists b, n_dag n' = setQuorum b (n_dag n);
  tw_db : n_db n' = n_db n;
  tw_cursor : n_lastCommitted n' = n_lastCommitted n;
  tw_marks : committedVertices (n_store n') = committedVertices (n_store n);
  tw_floor : commitFloor (n_store n') = commitFloor (n_store n);
  tw_left : st_vertices (n_store n) ⊆ U;
  tw_right : st_vertices (n_store n') ⊆ U;
}.

Definition unionStore (U : gmap Hash Vertex) (s : store) : store :=
  mkStore U (st_producers s) (byRound s) (latestRound s) (committedVertices s) (commitFloor s).

Lemma twins_batch U n n' anchor batch batch' :
  twins U n n' -> causalBatch (n_store n) anchor = Some batch -> causalBatch (n_store n') anchor = Some batch' ->
  batch' = batch /\ omap (get (n_store n')) batch = omap (get (n_store n)) batch.
Proof using.
  intros Ht H1 H2. set (u := unionStore U (n_store n)).
  pose proof (causalBatch_extends (n_store n) u anchor batch H1 (tw_left U n n' Ht) eq_refl eq_refl) as E1.
  pose proof (causalBatch_extends (n_store n') u anchor batch' H2 (tw_right U n n' Ht) (eq_sym (tw_marks U n n' Ht)) (eq_sym (tw_floor U n n' Ht))) as E2.
  rewrite E1 in E2. injection E2 as ->. split; [done|].
  pose proof (causalBatch_stored _ _ _ H1) as S1. pose proof (causalBatch_stored _ _ _ H2) as S2. clear H1 H2 E1.
  induction batch' as [|h l IH]; [done|]. apply Forall_cons in S1 as [[v G1] S1], S2 as [[v' G2] S2].
  assert (v' = v).
  { pose proof (lookup_weaken _ _ _ _ G1 (tw_left U n n' Ht)). pose proof (lookup_weaken _ _ _ _ G2 (tw_right U n n' Ht)). congruence. }
  subst v'. change (omap (get (n_store n')) (h :: l)) with (match get (n_store n') h with Some y => y :: omap (get (n_store n')) l | None => omap (get (n_store n')) l end).
  change (omap (get (n_store n)) (h :: l)) with (match get (n_store n) h with Some y => y :: omap (get (n_store n)) l | None => omap (get (n_store n)) l end).
  rewrite G1, G2. f_equal. by apply IH.
Qed.

Lemma twins_commit U n n' round anchor m m' :
  twins U n n' -> commitAnchorBatch E c k n round anchor = Some (m, true) -> commitAnchorBatch E c k n' round anchor = Some (m', true) ->
  twins U m m'.
Proof using.
  intros Ht H1 H2. unfold commitAnchorBatch, commitBatch in *.
  destruct (causalBatch (n_store n) anchor) as [batch|] eqn:B1; [|done]. destruct (causalBatch (n_store n') anchor) as [batch'|] eqn:B2; [|done].
  destruct (twins_batch U n n' anchor batch batch' Ht B1 B2) as [-> Hom]. rewrite Hom in H2.
  destruct (commitVertices E c k n batch _ _ _) as [n1|] eqn:C1; [|done]. destruct (commitVertices E c k n' batch _ _ _) as [n1'|] eqn:C2; [|done].
  cbn [mbind option_bind] in H1, H2. injection H1 as <-. injection H2 as <-.
  apply commitVertices_spec in C1 as (D1 & S1 & K1 & P1 & L1), C2 as (D2 & S2 & K2 & P2 & L2).
  rewrite filter_stored in K1 by (by eapply causalBatch_stored). rewrite filter_stored in K2 by (by eapply causalBatch_stored).
  destruct (markQuorum_setQuorum n1 round) as (q1 & A1 & A2 & A3 & A4), (markQuorum_setQuorum n1' round) as (q2 & B1' & B2' & B3 & B4).
  destruct Ht as [[b Hd] Hdb Hcur Hm Hf Hl Hr]. rewrite Hom, Hd, applyVertices_quorum, D1 in D2. injection D2 as D2.
  split; cbn [emit set_n_store n_dag n_db n_lastCommitted n_store].
  - exists q2. rewrite A1, B1', <- D2. destruct (n_dag n1) as [L [] e w]; done.
  - congruence.
  - congruence.
  - rewrite A2, B2'. congruence.
  - rewrite A2, B2'. by rewrite (ss_floor _ _ S1), (ss_floor _ _ S2).
  - by rewrite A2, (ss_vertices _ _ S1).
  - by rewrite B2', (ss_vertices _ _ S2).
Qed.

Lemma twins_advance U n n' round m m' :
  twins U n n' -> advanceCommitCursor E c wired n round = Some m -> advanceCommitCursor E c wired n' round = Some m' -> twins U m m'.
Proof using.
  intros [[b Hd] Hdb Hcur Hm Hf Hl Hr] H1 H2. unfold advanceCommitCursor in *. rewrite Hd, Hdb in H2.
  destruct (isEpochBoundary c round).
  - rewrite transitionEpoch_quorum in H2. destruct (transitionEpoch E c wired (n_dag n)) as [d1|]; [|done].
    cbn [fmap option_fmap option_map mbind option_bind] in H1, H2. injection H1 as <-. injection H2 as <-. split; try done. exists b. done.
  - change (d_regime (setQuorum b (n_dag n))) with
      (mkRegime (committedMembers (d_regime (n_dag n))) (producedMembers (d_regime (n_dag n))) (strictLatched (d_regime (n_dag n)))
        (strictStartRound (d_regime (n_dag n))) (transitionRound (d_regime (n_dag n))) b (regimeDirty (d_regime (n_dag n)))
        (producedDirty (d_regime (n_dag n)))) in H2. cbn [regimeDirty producedDirty] in H2.
    destruct (_ || _); injection H1 as <-; injection H2 as <-; (split; try done; exists b; done).
Qed.

(** Cosmetic fields and the frontier. *)
Lemma twins_view U n n' m m' :
  twins U n n' -> n_dag m = n_dag n -> n_dag m' = n_dag n' -> n_db m = n_db n -> n_db m' = n_db n' ->
  n_lastCommitted m = n_lastCommitted n -> n_lastCommitted m' = n_lastCommitted n' -> n_store m = n_store n -> n_store m' = n_store n' ->
  twins U m m'.
Proof using. intros [] D D' P P' L L' S S'. split; rewrite ?D, ?D', ?P, ?P', ?L, ?L', ?S, ?S'; done. Qed.

Lemma twins_frontier U n n' round : twins U n n' -> twins U (setIndexFrontier n round) (setIndexFrontier n' round).
Proof using. intros [[b Hd] Hdb Hcur Hm Hf Hl Hr]. split; try done. exists b. cbn. by rewrite Hd. Qed.

Lemma twins_step U n n' m m' :
  twins U n n' ->
  anchorStatus (crypto E) c (n_dag n') (n_store n') (n_lastCommitted n) = anchorStatus (crypto E) c (n_dag n) (n_store n) (n_lastCommitted n) ->
  commitNextRound E c wired k n = Some (m, true) -> commitNextRound E c wired k n' = Some (m', true) -> twins U m m'.
Proof using.
  intros Ht Hst H1 H2. unfold commitNextRound in *. rewrite (tw_cursor U n n' Ht), Hst in H2.
  destruct (anchorStatus _ c (n_dag n) _ _) as [|anchor|]; [done| |].
  - destruct (commitAnchorBatch E c k n _ anchor) as [[n1 [|]]|] eqn:C1; [|done|done].
    destruct (commitAnchorBatch E c k n' _ anchor) as [[n1' [|]]|] eqn:C2; [|done|done]. cbn [mbind option_bind negb] in H1, H2.
    destruct (advanceCommitCursor E c wired (clearStall n1) _) as [n2|] eqn:V1; [|done].
    destruct (advanceCommitCursor E c wired (clearStall n1') _) as [n2'|] eqn:V2; [|done]. cbn [mbind option_bind] in H1, H2.
    injection H1 as <-. injection H2 as <-. apply twins_frontier. eapply twins_advance; [|exact V1|exact V2].
    eapply twins_view; [exact (twins_commit U n n' _ anchor n1 n1' Ht C1 C2)|done..].
  - destruct (advanceCommitCursor E c wired (clearStall (emit n _)) _) as [n2|] eqn:V1; [|done].
    destruct (advanceCommitCursor E c wired (clearStall (emit n' _)) _) as [n2'|] eqn:V2; [|done]. cbn [mbind option_bind] in H1, H2.
    injection H1 as <-. injection H2 as <-. apply twins_frontier. eapply twins_advance; [|exact V1|exact V2].
    eapply twins_view; [exact Ht|done..].
Qed.

(** [count] rounds that all advance, with their decisions. *)
Fixpoint decideRounds (count : nat) n : option (Node M * list anchorDecision) :=
  match count with
  | O => Some (n, [])
  | S count =>
      match commitNextRound E c wired k n with
      | Some (m, true) =>
          r ← decideRounds count m;
          Some (fst r, anchorStatus (crypto E) c (n_dag n) (n_store n) (n_lastCommitted n) :: snd r)
      | _ => None
      end
  end.

(** C1. Two nodes at the same cursor, whose stores are different parts of one set of
    vertices and whose committed sets agree, that take the same decisions for any number
    of rounds end with the same ledger, epoch state, reward buckets, membership, committed
    set and durable batch. *)
Theorem replicas_stay_in_step U count : forall n n' m m' decisions,
  twins U n n' ->
  decideRounds count n = Some (m, decisions) -> decideRounds count n' = Some (m', decisions) ->
  d_ledger (n_dag m') = d_ledger (n_dag m) /\ d_epochs (n_dag m') = d_epochs (n_dag m) /\
  d_rewards (n_dag m') = d_rewards (n_dag m) /\ n_db m' = n_db m /\ n_lastCommitted m' = n_lastCommitted m /\
  committedVertices (n_store m') = committedVertices (n_store m) /\
  committedMembers (d_regime (n_dag m')) = committedMembers (d_regime (n_dag m)) /\
  producedMembers (d_regime (n_dag m')) = producedMembers (d_regime (n_dag m)) /\
  strictLatched (d_regime (n_dag m')) = strictLatched (d_regime (n_dag m)) /\
  strictStartRound (d_regime (n_dag m')) = strictStartRound (d_regime (n_dag m)).
Proof using.
  induction count as [|count IH]; intros n n' m m' ds Ht H1 H2; cbn [decideRounds] in *.
  - injection H1 as <- <-. injection H2 as <-. destruct Ht as [[b ->] ? ? ? ? ? ?]. done.
  - destruct (commitNextRound E c wired k n) as [[n1 []]|] eqn:C1; [|done|done].
    destruct (commitNextRound E c wired k n') as [[n1' []]|] eqn:C2; [|done|done].
    destruct (decideRounds count n1) as [[m1 ds1]|] eqn:D1; [|done]. destruct (decideRounds count n1') as [[m2 ds2]|] eqn:D2; [|done].
    cbn [mbind option_bind fst snd] in H1, H2. injection H1 as <- <-. injection H2 as <- Hst Hds.
    rewrite (tw_cursor U n n' Ht) in Hst. rewrite Hds in D2.
    exact (IH n1 n1' m1 m2 ds1 (twins_step U n n' n1 n1' Ht Hst C1 C2) D1 D2).
Qed.

(** ** The loop ends *)

Lemma advance_cursor n round m :
  advanceCommitCursor E c wired n round = Some m -> n_lastCommitted m = round +w 1 /\ n_store m = n_store n.
Proof using.
  unfold advanceCommitCursor. destruct (isEpochBoundary c round); [|destruct (_ || _)].
  - destruct (transitionEpoch E c wired (n_dag n)); [|done]. by intros [= <-].
  - by intros [= <-].
  - by intros [= <-].
Qed.

Lemma commitNextRound_advances n m :
  commitNextRound E c wired k n = Some (m, true) ->
  n_lastCommitted m = n_lastCommitted n +w 1 /\ sameStore (n_store n) (n_store m) /\ n_lastCommitted n <= highestRound (n_store n).
Proof using.
  unfold commitNextRound. intros Hc.
  assert (Hle : n_lastCommitted n <= highestRound (n_store n)).
  { destruct (Z.le_gt_cases (n_lastCommitted n) (highestRound (n_store n))) as [|Hgt]; [done|]. exfalso.
    unfold anchorStatus in Hc. rewrite seqZ_nil in Hc by lia. done. }
  destruct (anchorStatus _ c (n_dag n) _ _) as [|anchor|]; [done| |].
  - destruct (commitAnchorBatch E c k n _ anchor) as [[n1 [|]]|] eqn:C1; [|done|done]. cbn [mbind option_bind negb] in Hc.
    destruct (advanceCommitCursor E c wired (clearStall n1) _) as [n2|] eqn:V1; [|done]. injection Hc as <-.
    apply advance_cursor in V1 as [V1 V2]. cbn [setIndexFrontier with_dag set_commit n_lastCommitted n_store]. rewrite V1, V2. split; [done|].
    split; [|done]. unfold commitAnchorBatch, commitBatch in C1. destruct (causalBatch _ anchor) as [batch|]; [|done].
    destruct (commitVertices E c k n batch _ _ _) as [n3|] eqn:C3; [|done]. injection C1 as <-.
    destruct (markQuorum_setQuorum n3 (n_lastCommitted n)) as (q & _ & A2 & _). cbn [clearStall set_stall emit set_n_store n_store]. rewrite A2.
    by apply commitVertices_spec in C3 as (_ & S & _).
  - destruct (advanceCommitCursor E c wired (clearStall (emit n _)) _) as [n2|] eqn:V1; [|done]. injection Hc as <-.
    apply advance_cursor in V1 as [V1 V2]. cbn [setIndexFrontier with_dag set_commit n_lastCommitted n_store]. rewrite V1, V2.
    split; [done|]. split; [apply sameStore_refl|done].
Qed.

Lemma commitRounds_total fuel : forall n,
  0 <= n_lastCommitted n -> highestRound (n_store n) < two64 - 1 ->
  (commitFuel n <= fuel)%nat -> exists r, forall extra, commitRounds E c wired k (fuel + extra) n = Some r.
Proof using.
  induction fuel as [|fuel IH]; intros n H0 Hh Hf; [unfold commitFuel in Hf; lia|]. cbn [commitRounds Nat.add].
  destruct (commitNextRound E c wired k n) as [[m []]|] eqn:C; [|eauto|eauto].
  apply commitNextRound_advances in C as (C1 & C2 & C3). rewrite add64_exact in C1 by (u64_lia).
  unfold highestRound in *. apply IH; unfold commitFuel, highestRound in *; rewrite ?(ss_latest _ _ C2), ?C1; lia.
Qed.

(** C38. The commit loop of one tick ends: it returns with at most one iteration per round
    up to the highest stored one plus one, and a larger bound gives the same result. *)
Theorem checkCommits_terminates n :
  0 <= n_lastCommitted n -> highestRound (n_store n) < two64 - 1 ->
  is_Some (checkCommits E c wired k n) /\
  exists r, forall extra, commitRounds E c wired k (commitFuel n + extra) n = Some r.
Proof using.
  intros H0 Hh. destruct (commitRounds_total (commitFuel n) n H0 Hh) as [r Hr]; [lia|].
  split; [|eauto]. unfold checkCommits. specialize (Hr 0%nat). rewrite Nat.add_0_r in Hr. rewrite Hr. eauto.
Qed.

End Rounds.

(** ** Two of the four validators at round 5, one with more vertices *)

Definition quartetEnv : Env (gmap bytes bytes) :=
  mkEnv _ rotation None None None (fun _ _ => []) None (fun st _ => st) (fun st _ _ _ _ => st).

Definition quartetNode (s : store) (cursor : Z) : Node (gmap bytes bytes) :=
  mkNode quartetDag s ∅ ∅ ∅ ∅ 7 0 [] None false ∅ cursor 0 zeroHash 0 0 0 None [].

Definition quartetKeys : NodeConfig := mkNodeConfig (hh 1) (fun _ => []) false false NewManager.

Lemma quartet_twins : twins run5 (quartetNode viewCert 5) (quartetNode viewBoth 5).
Proof.
  destruct run5_views as (_ & V1 & _ & V3). split; try (vm_compute; reflexivity).
  - exists false. reflexivity.
  - apply V1.
  - apply V3.
Qed.

#[export] Instance anchorDecision_eq_dec : EqDecision anchorDecision.
Proof. solve_decision. Defined.

Lemma decided_run {A : Type} (o : option (A * list anchorDecision)) ds :
  bool_decide ((snd <$> o) = Some ds) = true -> exists m, o = Some (m, ds).
Proof. intros Hb%bool_decide_eq_true. destruct o as [[m l]|]; [|done]. injection Hb as ->. eauto. Qed.

Lemma quartet_left : exists m, decideRounds quartetEnv quartetConfig true quartetKeys 1 (quartetNode viewCert 5) = Some (m, [anchorCommit (hh 53)]).
Proof. apply decided_run. vm_compute. reflexivity. Qed.

Lemma quartet_right : exists m, decideRounds quartetEnv quartetConfig true quartetKeys 1 (quartetNode viewBoth 5) = Some (m, [anchorCommit (hh 53)]).
Proof. apply decided_run. vm_compute. reflexivity. Qed.

Theorem replicas_stay_in_step_witness :
  exists m m', decideRounds quartetEnv quartetConfig true quartetKeys 1 (quartetNode viewCert 5) = Some (m, [anchorCommit (hh 53)]) /\
    decideRounds quartetEnv quartetConfig true quartetKeys 1 (quartetNode viewBoth 5) = Some (m', [anchorCommit (hh 53)]) /\
    n_db m' = n_db m /\ committedVertices (n_store m') = committedVertices (n_store m).
Proof.
  destruct quartet_left as [m E1]. destruct quartet_right as [m' E2]. exists m, m'. split; [exact E1|]. split; [exact E2|].
  destruct (replicas_stay_in_step quartetEnv quartetConfig true quartetKeys run5 1 _ _ m m' _ quartet_twins E1 E2) as (_ & _ & _ & D & _ & K & _).
  exact (conj D K).
Defined.

Theorem checkCommits_terminates_witness :
  is_Some (checkCommits quartetEnv quartetConfig true quartetKeys (quartetNode viewCert 5)).
Proof.
  refine (proj1 (checkCommits_terminates quartetEnv quartetConfig true quartetKeys (quartetNode viewCert 5) _ _)).
  - simpl. lia.
  - vm_compute. reflexivity.
Defined.
