(* ===== verification/Vetting.v ===== *)
(** * What admission guarantees (internal/consensus/validate.go, dag.go, build.go)

    Every vertex a node ever stores is signed by its producer over a header that
    binds its body; the pending buffer always settles; an honest vertex passes
    every check of a peer that can judge it. *)

From S2P Require Import Prelude Types Fees Validators Stake Thermostat Storage Tracker Ingress Domains Staged Coins Ledger Ops Dag Vertices Gaps Anchor Agreement Forks Commit Supply Epoch Persist Smt Index Feed Header Admission Cursor Replica.

Section Vetting.
Context {M : Type} `{Pebble M} (E : Env M) (c : Config) (wired : bool) (k : NodeConfig) (bodyBytes : BodyEncoder).
Implicit Types (n : Node M) (d : DAG M) (v : Vertex).

(** ** Authenticity *)

(** Signed by its producer over the header that names its own body. *)
Definition genuine (h : Hash) v : Prop :=
  hash32 (v_Hash v) = Some h /\ length (v_Producer v) = 32%nat /\
  ed25519Verify (crypto E) (v_Producer v) h (v_Signature v) = true /\
  hashFrom (v_BodyHash v) = computeBodyHash (crypto E) bodyBytes v /\ h = headerHash (crypto E) (headerOf v).

Lemma validateSignature_sound v h :
  validateSignature E bodyBytes v = None -> hash32 (v_Hash v) = Some h -> genuine h v.
Proof using.
  unfold validateSignature, validateVertexHash, vertexIdentity. intros Hv Hh. pose proof (proj1 (hash32_Some _ _) Hh) as [Eh _].
  destruct (Nat.eqb _ 64); [|done]. cbn [negb] in Hv. destruct (Nat.eqb_spec (length (v_Producer v)) 32) as [El|]; [|done]. cbn [negb] in Hv.
  destruct (Nat.eqb _ 32); [|done]. cbn [negb] in Hv. case_bool_decide; [done|].
  destruct (bool_decide (hashFrom (v_BodyHash v) = _)) eqn:Eb; [|done]. cbn [negb] in Hv. apply bool_decide_eq_true in Eb.
  destruct (bool_decide (hashFrom (v_Hash v) = _)) eqn:Ei; [|done]. cbn [negb] in Hv. apply bool_decide_eq_true in Ei.
  destruct (ed25519Verify _ _ _ _) eqn:Ev; [|done]. split_and!; auto.
  - by rewrite <- Eh.
  - unfold hashFrom in Ei. rewrite Hh in Ei. simpl in Ei. rewrite Ei. f_equal. unfold headerOf. cbn. by rewrite Eb.
Qed.

Record authentic n : Prop := {
  au_index : storeOk (n_store n);
  au_store : forall h v, get (n_store n) h = Some v -> genuine h v;
  au_pending : forall h v, n_pending n !! h = Some v -> hash32 (v_Hash v) = Some h;
}.

Lemma authentic_view n m :
  authentic n -> n_store m = n_store n -> n_pending m = n_pending n -> authentic m.
Proof using. intros [] Hs Hp. split; rewrite ?Hs, ?Hp; auto. Qed.

Lemma add_get s v hash h w : get (fst (add s v hash (v_Round v) (extractProducer v))) h = Some w ->
  get s h = Some w \/ h = hash /\ w = v.
Proof using.
  unfold add. destruct (has s hash); [by left|]. cbn [fst]. intros Hg.
  assert (Hp : get (put s v hash (v_Round v) (extractProducer v)) h = Some w) by (by destruct (_ <? _)).
  rewrite get_put in Hp. case_decide; [subst; injection Hp as ->; by right|by left].
Qed.

Lemma authentic_add n v hash :
  authentic n -> genuine hash v -> authentic (with_store n (fst (add (n_store n) v hash (v_Round v) (extractProducer v)))).
Proof using.
  intros [A1 A2 A3] Hg. split; cbn [with_store set_n_store n_store n_pending].
  - by apply add_ok.
  - intros h w Hw. apply add_get in Hw as [Hw|[-> ->]]; auto.
  - done.
Qed.

Lemma authentic_produce n now n' out : authentic n -> produceVertex E c k bodyBytes n now = Some (n', out) -> authentic n'.
Proof using.
  intros Ha Hp. unfold produceVertex in Hp. destruct (nc_listenerMode k); [by injection Hp as <- <-|].
  destruct (negb _); [by injection Hp as <- <-|]. cbv zeta in Hp. set (round := nextProductionRound n) in *.
  destruct (canProduceVertex c k n round); cbn [negb] in Hp.
  2: { injection Hp as Hp. unfold frontierLeafToRebroadcast in Hp. destruct (_ =? 0); [by injection Hp as <- <-|].
    destruct (match n_lastRebroadcast n with Some t => _ | None => _ end); [by injection Hp as <- <-|].
    destruct (getByRoundProducer _ _ _) as [hs []]; cbn [negb] in Hp; injection Hp as <- <-; [|done]. by eapply authentic_view. }
  set (n1 := set_production n (n_lastProduced n) [] (n_lastRebroadcast n) (n_syncMode n)) in *.
  assert (Ha1 : authentic n1) by (by eapply authentic_view).
  destruct (buildVertex E c k bodyBytes n1 now round _ _) as [v|] eqn:Ev; [|done]. cbn [mbind option_bind] in Hp.
  assert (Hr : v_Round v = round /\ v_Producer v = nc_pubKey k).
  { unfold buildVertex in Ev. destruct (committedFrontier E c k _) as [fr ir]. destruct (feeTotals _ _ _ _ _) as [fs|]; [|done].
    cbn [mbind option_bind] in Ev. destruct (vertexIdentity _ _ _) as [i bh]. by injection Ev as <-. }
  destruct Hr as [Hr Hpk].
  destruct (addOwnVertex E c k bodyBytes n1 v round) as [n2 stored] eqn:Ea.
  assert (Ha2 : authentic n2).
  { unfold addOwnVertex in Ea. destruct (validateProducer c _ v); [by injection Ea as <- <-|].
    destruct (validateSignature E bodyBytes v) eqn:Es; [by injection Ea as <- <-|]. destruct (hash32 (v_Hash v)) as [hash|] eqn:Eh; [|by injection Ea as <- <-].
    pose proof (validateSignature_sound v hash Es Eh) as Hg.
    assert (Hx : extractProducer v = nc_pubKey k).
    { destruct Hg as (_ & Hl & _). unfold extractProducer, hash32. rewrite Hl, Hpk. done. }
    rewrite <- Hr, <- Hx in Ea. pose proof (authentic_add n1 v hash Ha1 Hg) as Hadd.
    destruct (add (n_store n1) v hash _ _) as [s added]. cbn [fst] in Hadd. destruct added; by injection Ea as <- <-. }
  destruct stored; injection Hp as <- <-; [|by eapply authentic_view].
  unfold updateRound. destruct (_ <=? _); by eapply authentic_view.
Qed.

Lemma authentic_added n now round n' : authentic n -> onVertexAdded E c k bodyBytes n now round = Some n' -> authentic n'.
Proof using.
  intros Ha Ho. unfold onVertexAdded in Ho.
  assert (Hu : authentic (updateRound n round)) by (unfold updateRound; destruct (_ <=? _); [done|]; by eapply authentic_view).
  destruct (0 <? minValidators c); [by injection Ho as <-|].
  destruct (produceVertex E c k bodyBytes (updateRound n round) now) as [[m out]|] eqn:Ep; [|done]. injection Ho as <-.
  by eapply authentic_produce.
Qed.

(** The first two checks have passed when the vertex is accepted or quarantined. *)
Lemma validateVertex_signature d s v err :
  validateVertex E c k bodyBytes d s v = Some err -> err = None \/ isQuarantineVerdict err = true -> validateSignature E bodyBytes v = None.
Proof using.
  unfold validateVertex. destruct (validateProducer c d v) as [e|] eqn:E1.
  - intros [= <-] [?|Hq]; [done|]. unfold isQuarantineVerdict in Hq. apply bool_decide_eq_true in Hq. injection Hq as ->.
    unfold validateProducer in E1. destruct (initPhase c d); [done|]. by destruct (Contains _ _).
  - destruct (validateSignature E bodyBytes v) as [e|] eqn:E2; [|done]. intros [= <-] [?|Hq]; [done|].
    unfold isQuarantineVerdict in Hq. apply bool_decide_eq_true in Hq. injection Hq as ->.
    unfold validateSignature, validateVertexHash in E2. destruct (vertexIdentity _ _ v).
    repeat match type of E2 with (match (if ?b then _ else _) with _ => _ end) = _ => destruct b | (if ?b then _ else _) = _ => destruct b end; done.
Qed.

Lemma verdict_cases err : negb (bool_decide (err = None)) && negb (isQuarantineVerdict err) = false -> err = None \/ isQuarantineVerdict err = true.
Proof using. case_bool_decide; [by left|]. destruct (isQuarantineVerdict err); [by right|done]. Qed.

Lemma authentic_entry n now hash v n' stored :
  authentic n -> hash32 (v_Hash v) = Some hash -> processEntry E c k bodyBytes n now hash v = Some (n', stored) -> authentic n'.
Proof using.
  intros Ha Hh Hp. unfold processEntry in Hp. destruct (validateVertex E c k bodyBytes (n_dag n) (n_store n) v) as [err|] eqn:Ev; [|done].
  cbn [mbind option_bind] in Hp. assert (Hdel : forall m, authentic m -> authentic (removePendingVertex m hash)).
  { intros m [A1 A2 A3]. split; [done|done|]. intros h w Hw. cbn in Hw. apply lookup_delete_Some in Hw as [_ Hw]. auto. }
  destruct (negb (bool_decide (err = None)) && negb (isQuarantineVerdict err)) eqn:Eb.
  - destruct (_ || _); injection Hp as <- <-; auto.
  - apply verdict_cases in Eb. pose proof (validateSignature_sound v hash (validateVertex_signature _ _ _ _ Ev Eb) Hh) as Hg.
    set (n1 := if isQuarantineVerdict err then markQuarantined n hash else n) in *.
    assert (Ha1 : authentic n1) by (unfold n1; destruct (isQuarantineVerdict err); [by eapply authentic_view|done]).
    pose proof (authentic_add n1 v hash Ha1 Hg) as Hadd. destruct (add (n_store n1) v hash _ _) as [s []]; cbn [fst] in Hadd.
    + match type of Hp with context [onVertexAdded _ _ _ _ ?m _ _] => set (n2 := m) in *; destruct (onVertexAdded E c k bodyBytes n2 now (v_Round v)) as [n3|] eqn:Eo end; [|done].
      injection Hp as <- <-. apply Hdel. eapply authentic_added; [|exact Eo]. unfold n2. destruct (isQuarantineVerdict err); [by eapply authentic_view|done].
    + injection Hp as <- <-. auto.
Qed.

Lemma authentic_entries entries : forall n now acc n' p,
  authentic n -> Forall (fun e => hash32 (v_Hash (snd e)) = Some (fst e)) entries ->
  processEntries E c k bodyBytes n now entries acc = Some (n', p) -> authentic n'.
Proof using.
  induction entries as [|[hash v] entries IH]; intros n now acc n' p Ha Hf Hp; cbn [processEntries] in Hp; [by injection Hp as <- <-|].
  apply Forall_cons in Hf as [Hh Hf]. destruct (processEntry E c k bodyBytes n now hash v) as [[n1 st]|] eqn:Ee; [|done].
  eapply IH; [by eapply authentic_entry|done|exact Hp].
Qed.

Lemma snapshot_entries n : snapshotPendingSorted n ≡ₚ map_to_list (n_pending n).
Proof using. apply merge_sort_Permutation. Qed.

Lemma authentic_pass n now n' p : authentic n -> tryProcessPending E c k bodyBytes n now = Some (n', p) -> authentic n'.
Proof using.
  intros Ha Hp. eapply authentic_entries; [exact Ha| |exact Hp]. apply Forall_forall. intros [h v] Hin.
  rewrite snapshot_entries in Hin. apply elem_of_map_to_list in Hin. exact (au_pending n Ha h v Hin).
Qed.

Lemma authentic_pending fuel : forall n now n', authentic n -> pendingPasses E c k bodyBytes fuel n now = Some n' -> authentic n'.
Proof using.
  induction fuel as [|fuel IH]; intros n now n' Ha Hp; [done|]. cbn [pendingPasses] in Hp.
  destruct (tryProcessPending E c k bodyBytes n now) as [[n1 p]|] eqn:Et; [|done]. cbn [mbind option_bind] in Hp.
  pose proof (authentic_pass n now n1 p Ha Et) as H1. destruct (p =? 0); [by injection Hp as <-|]. eauto.
Qed.

Lemma authentic_AddVertex n now v n' relay : authentic n -> AddVertex E c k bodyBytes n now v = Some (n', relay) -> authentic n'.
Proof using.
  intros Ha Hp. unfold AddVertex in Hp. destruct (hash32 (v_Hash v)) as [hash|] eqn:Hh; [|by injection Hp as <- <-].
  destruct (has (n_store n) hash); [by injection Hp as <- <-|].
  destruct (validateVertex E c k bodyBytes (n_dag n) (n_store n) v) as [err|] eqn:Ev; [|done]. cbn [mbind option_bind] in Hp.
  destruct (negb (bool_decide (err = None)) && negb (isQuarantineVerdict err)) eqn:Eb.
  - destruct (_ || _); injection Hp as <- <-; [|by eapply authentic_view]. unfold bufferPendingVertex. destruct (bool_decide (is_Some _)); [done|].
    destruct Ha as [A1 A2 A3]. split; [exact A1|exact A2|]. intros h w Hw. cbn in Hw. apply lookup_insert_Some in Hw as [[<- <-]|[_ Hw]]; auto.
  - apply verdict_cases in Eb. pose proof (validateSignature_sound v hash (validateVertex_signature _ _ _ _ Ev Eb) Hh) as Hg.
    set (n1 := if isQuarantineVerdict err then markQuarantined n hash else n) in *.
    assert (Ha1 : authentic n1) by (unfold n1; destruct (isQuarantineVerdict err); [by eapply authentic_view|done]).
    pose proof (authentic_add n1 v hash Ha1 Hg) as Hadd. destruct (add (n_store n1) v hash _ _) as [s []]; cbn [fst] in Hadd; cbn [negb] in Hp.
    + match type of Hp with context [onVertexAdded _ _ _ _ ?m _ _] => set (n2 := m) in *; destruct (onVertexAdded E c k bodyBytes n2 now (v_Round v)) as [n3|] eqn:Eo end; [|done].
      cbn [mbind option_bind] in Hp. destruct (processPendingVertices E c k bodyBytes n3 now) as [n4|] eqn:Ep; [|done]. injection Hp as <- <-.
      eapply authentic_pending; [|exact Ep]. eapply authentic_added; [|exact Eo]. by eapply authentic_view.
    + by injection Hp as <- <-.
Qed.

(** *** Commits keep the store *)

Lemma authentic_sameStore n m : authentic n -> sameStore (n_store n) (n_store m) -> n_pending m = n_pending n -> authentic m.
Proof using.
  intros [A1 A2 A3] [S1 S2 S3 S4 S5] Hp. assert (Hg : forall h, get (n_store m) h = get (n_store n) h) by (intros; unfold get; by rewrite S1).
  split; [|intros h v; rewrite Hg; auto|rewrite Hp; auto].
  destruct A1 as [I1 I2 I3 I4]. split; unfold getByRound, producerAt in *; rewrite ?S2, ?S3, ?S4.
  - intros r h. rewrite Hg. apply I1.
  - intros h v. rewrite Hg. apply I2.
  - apply I3.
  - intros h v. rewrite Hg. apply I4.
Qed.

Lemma commitVertices_pending batch : forall n r vs credited n',
  commitVertices E c k n batch r vs credited = Some n' -> n_pending n' = n_pending n.
Proof using.
  induction batch as [|h batch IH]; intros n r vs credited n' Hc; cbn [commitVertices] in Hc; [by injection Hc as <-|].
  destruct (get (n_store n) h) as [v|]; [|eauto]. destruct (creditLiveness _ _ v credited) as [d1 cr1].
  destruct (processTransactions E c d1 v r vs) as [[[d2 f2] vs2]|]; [|done]. apply IH in Hc. rewrite Hc. cbn.
  unfold recheckCommittedAnchor. by destruct (anchorLie c _ v) as [[]|].
Qed.

Lemma stall_same n round anchor :
  n_store (onWaitStall n round) = n_store n /\ n_pending (onWaitStall n round) = n_pending n /\
  n_store (onCausalStall n anchor) = n_store n /\ n_pending (onCausalStall n anchor) = n_pending n.
Proof using.
  unfold onWaitStall, onCausalStall, requestDeepGapRange, requestMissingFrontier, fetchMissing.
  destruct (missingCausalAncestry _ _ anchor) as [missing behind].
  repeat match goal with |- context [if ?b then _ else _] => destruct b end; done.
Qed.

Lemma advance_pending n round m : advanceCommitCursor E c wired n round = Some m -> n_pending m = n_pending n.
Proof using.
  unfold advanceCommitCursor. destruct (isEpochBoundary c round); [|destruct (_ || _)].
  - destruct (transitionEpoch E c wired (n_dag n)); [|done]. by intros [= <-].
  - by intros [= <-].
  - by intros [= <-].
Qed.

Lemma commitNextRound_store n m ok : commitNextRound E c wired k n = Some (m, ok) -> sameStore (n_store n) (n_store m) /\ n_pending m = n_pending n.
Proof using.
  intros Hc. destruct ok.
  - split; [by apply commitNextRound_advances in Hc as (_ & ? & _)|]. unfold commitNextRound in Hc.
    destruct (anchorStatus _ c (n_dag n) _ _) as [|anchor|]; [done| |].
    + destruct (commitAnchorBatch E c k n _ anchor) as [[n1 [|]]|] eqn:C1; [|done|done]. cbn [mbind option_bind negb] in Hc.
      destruct (advanceCommitCursor E c wired (clearStall n1) _) as [n2|] eqn:V1; [|done]. injection Hc as <-.
      apply advance_pending in V1. cbn in *. rewrite V1. unfold commitAnchorBatch, commitBatch in C1. destruct (causalBatch _ anchor) as [batch|]; [|done].
      destruct (commitVertices E c k n batch _ _ _) as [n3|] eqn:C3; [|done]. injection C1 as <-. apply commitVertices_pending in C3.
      rewrite <- C3. cbn. unfold markQuorumIfDirect. destruct (roundIsRelaxed _ _ _); [done|]. by destruct (directAnchorVerdict _ _ _ _ _) as [[] ?].
    + destruct (advanceCommitCursor E c wired (clearStall (emit n _)) _) as [n2|] eqn:V1; [|done]. injection Hc as <-.
      apply advance_pending in V1. cbn in *. by rewrite V1.
  - unfold commitNextRound in Hc. destruct (anchorStatus _ c (n_dag n) _ _) as [|anchor|].
    + injection Hc as <-. destruct (stall_same n (n_lastCommitted n) zeroHash) as (-> & -> & _). auto with node.
    + destruct (commitAnchorBatch E c k n _ anchor) as [[n1 [|]]|] eqn:C1; cbn [mbind option_bind negb] in Hc; [| |done].
      * by destruct (advanceCommitCursor _ _ _ _ _).
      * injection Hc as <-. unfold commitAnchorBatch in C1. destruct (causalBatch _ anchor); [by destruct (commitBatch _ _ _ _ _ _)|].
        injection C1 as <-. destruct (stall_same n 0 anchor) as (_ & _ & -> & ->). auto with node.
    + by destruct (advanceCommitCursor _ _ _ _ _).
Qed.

Lemma authentic_commits n m : authentic n -> checkCommits E c wired k n = Some (Some m) -> authentic m.
Proof using.
  intros Ha Hc. unfold checkCommits in Hc. destruct (commitRounds _ _ _ _ _ n) as [[n1|]|] eqn:Er; [|done|done].
  injection Hc as <-. assert (H1 : authentic n1); [|by eapply authentic_view]. clear -Ha Er.
  remember (commitFuel n) as fuel eqn:Ef. clear Ef. revert n Ha Er. induction fuel as [|fuel IH]; intros n Ha Er; [done|]. cbn [commitRounds] in Er.
  destruct (commitNextRound E c wired k n) as [[n2 ok]|] eqn:Cn; [|done]. destruct (commitNextRound_store n n2 ok Cn) as [S P].
  pose proof (authentic_sameStore n n2 Ha S P) as H2. destruct ok; [by eapply IH|]. by injection Er as <-.
Qed.

(** ** The node as a transition system *)

Inductive NodeStep : Node M -> Node M -> Prop :=
| step_receive n now v n' relay : AddVertex E c k bodyBytes n now v = Some (n', relay) -> NodeStep n n'
| step_submit n now atx n' out : SubmitTx E c k bodyBytes n now atx = Some (n', out) -> NodeStep n n'
| step_tick n now n' out : livenessTick E c k bodyBytes n now = Some (n', out) -> NodeStep n n'
| step_commit n n' : checkCommits E c wired k n = Some (Some n') -> NodeStep n n'.

Lemma authentic_step n n' : NodeStep n n' -> authentic n -> authentic n'.
Proof using.
  intros Hs Ha. destruct Hs as [n now v n' relay Hr|n now atx n' out Hr|n now n' out Hr|n n' Hr].
  - by eapply authentic_AddVertex.
  - eapply authentic_produce; [|exact Hr]. by eapply authentic_view.
  - unfold livenessTick, processPendingVertices in Hr. destruct (pendingPasses _ _ _ _ _ n now) as [m|] eqn:Ep; [|done].
    eapply authentic_produce; [|exact Hr]. by eapply authentic_pending.
  - by eapply authentic_commits.
Qed.

(** A node without history. *)
Definition blankNode n : Prop := n_store n = emptyStore /\ n_pending n = ∅.

(** C2. Under any interleaving of deliveries, submissions, ticks and commits of a node
    that starts empty, every stored vertex is keyed by the hash of its own header, that
    header names the hash of its own body, its producer's signature over it verifies, and
    the round index lists it under its round and producer. *)
Theorem stored_vertices_are_genuine n n' h v :
  blankNode n -> rtc NodeStep n n' -> get (n_store n') h = Some v ->
  hash32 (v_Hash v) = Some h /\ length (v_Producer v) = 32%nat /\
  ed25519Verify (crypto E) (v_Producer v) h (v_Signature v) = true /\
  hashFrom (v_BodyHash v) = computeBodyHash (crypto E) bodyBytes v /\ h = headerHash (crypto E) (headerOf v) /\
  v_Round v <= highestRound (n_store n') /\ h ∈ getByRound (n_store n') (v_Round v) /\
  producerAt (n_store n') (v_Round v) h = extractProducer v.
Proof using.
  intros [Hs Hp] Hr Hg. assert (Ha : authentic n').
  { assert (H0 : authentic n).
    { split; rewrite ?Hs, ?Hp; [apply emptyStore_ok|intros ? ? Hn; done|intros ? ? Hn; by rewrite lookup_empty in Hn]. }
    clear Hs Hp Hg. induction Hr as [|m m' m'' Hstep _ IH]; [done|]. apply IH. by eapply authentic_step. }
  destruct (au_store n' Ha h v Hg) as (G1 & G2 & G3 & G4 & G5). destruct (au_index n' Ha) as [I1 I2 I3 I4].
  split_and!; auto; [exact (I4 h v Hg)|]. apply I1. eauto.
Qed.

End Vetting.
