(* ===== verification/Relay.v ===== *)
(** * Admission always settles, and admits honest vertices (internal/consensus/
    validate.go, dag.go, build.go) *)

From S2P Require Import Prelude Types Fees Validators Stake Thermostat Storage Tracker Ingress Domains Staged Coins Ledger Ops Dag Vertices Gaps Anchor Agreement Forks Commit Supply Epoch Persist Smt Index Feed Header Admission Cursor Replica Vetting.

Section Relay.
Context {M : Type} `{Pebble M} (E : Env M) (c : Config) (k : NodeConfig) (bodyBytes : BodyEncoder).
Context (p : FeeParams) (Hfee : feeParams c = Some p).
Implicit Types (n : Node M) (d : DAG M) (v : Vertex).

(** ** Nothing panics when the fee system is wired *)

Lemma feeTotals_total atxs : forall d acc, is_Some (feeTotals E c d atxs acc).
Proof using Hfee.
  induction atxs as [|atx atxs IH]; intros d acc; cbn [feeTotals]; [eauto|]. unfold txFeeSplit. rewrite Hfee.
  destruct (atx_Transaction atx) as [tx|]; [destruct (negb _)|]; apply IH.
Qed.

Lemma validateVertex_total d s v : is_Some (validateVertex E c k bodyBytes d s v).
Proof using Hfee.
  unfold validateVertex. destruct (validateProducer c d v); [eauto|]. destruct (validateSignature E bodyBytes v); [eauto|].
  destruct (validateEpoch c v); [eauto|]. destruct (if isRoundInTransitionOrBuffer c d (v_Round v) then None else validateParents d s v); [eauto|].
  destruct (validateParentsQuorum c d v); [eauto|]. unfold validateFeeSummary. destruct (v_FeeSummary v) as [f|].
  - destruct (feeTotals_total (v_Transactions v) d (mkFeeSummary 0 0 0)) as [t ->]. cbn [mbind option_bind].
    match goal with |- is_Some (match ?x with _ => _ end) => destruct x end; eauto.
  - cbn [mbind option_bind]. destruct (Nat.eqb _ 0); eauto.
Qed.

(** What admission leaves alone: the committed state and the cursor. *)
Definition pos n : DAG M * Z := (n_dag n, n_lastCommitted n).

(** Production leaves the buffer alone. *)
Lemma produce_settles n now :
  exists n' out, produceVertex E c k bodyBytes n now = Some (n', out) /\ n_pending n' = n_pending n /\
    st_vertices (n_store n) ⊆ st_vertices (n_store n') /\ pos n' = pos n.
Proof using Hfee.
  unfold produceVertex. destruct (nc_listenerMode k); [eauto 10|]. destruct (negb _); [eauto 10|]. cbv zeta.
  set (round := nextProductionRound n). destruct (canProduceVertex c k n round); cbn [negb].
  2: { unfold frontierLeafToRebroadcast. destruct (_ =? 0); [eauto 10|].
    destruct (match n_lastRebroadcast n with Some t => _ | None => _ end); [eauto 10|].
    destruct (getByRoundProducer _ _ _) as [hs []]; cbn [negb]; eauto 10. }
  set (n1 := set_production n (n_lastProduced n) [] (n_lastRebroadcast n) (n_syncMode n)).
  assert (Hb : exists v, buildVertex E c k bodyBytes n1 now round (collectParents E c k n round) (n_pendingTxs n) = Some v).
  { unfold buildVertex. destruct (committedFrontier E c k _) as [fr ir]. destruct (feeTotals_total (n_pendingTxs n) (n_dag n1) (mkFeeSummary 0 0 0)) as [t ->].
    cbn [mbind option_bind]. destruct (vertexIdentity _ _ _); eauto. }
  destruct Hb as [v ->]. cbn [mbind option_bind].
  assert (Ho : exists n2 st, addOwnVertex E c k bodyBytes n1 v round = (n2, st) /\ n_pending n2 = n_pending n /\
    st_vertices (n_store n) ⊆ st_vertices (n_store n2) /\ pos n2 = pos n).
  { unfold addOwnVertex. destruct (validateProducer c _ v); [eauto 10|]. destruct (validateSignature E bodyBytes v); [eauto 10|].
    destruct (hash32 (v_Hash v)) as [hash|]; [|eauto 10]. unfold add. destruct (has (n_store n1) hash) eqn:Eh; [eauto 10|].
    eexists _, _. split; [done|]. split; [done|]. split; [|done]. cbn.
    assert (Hg : st_vertices (n_store n) !! hash = None) by exact (has_false _ _ Eh).
    destruct (_ <? _); by apply insert_subseteq. }
  destruct Ho as (n2 & [] & -> & P & G & D).
  - eexists _, _. split; [done|]. unfold updateRound. destruct (_ <=? _); cbn; auto.
  - eexists _, _. split; [done|]. cbn. auto.
Qed.

Lemma added_settles n now round :
  exists n', onVertexAdded E c k bodyBytes n now round = Some n' /\ n_pending n' = n_pending n /\
    st_vertices (n_store n) ⊆ st_vertices (n_store n') /\ pos n' = pos n.
Proof using Hfee.
  unfold onVertexAdded. assert (Hu : n_pending (updateRound n round) = n_pending n /\ n_store (updateRound n round) = n_store n /\ pos (updateRound n round) = pos n)
    by (unfold updateRound; by destruct (_ <=? _)). destruct Hu as (U1 & U2 & U3).
  destruct (0 <? minValidators c); [exists (updateRound n round); by rewrite U1, U2, U3|].
  destruct (produce_settles (updateRound n round) now) as (n' & out & -> & P & G & D). cbn [mbind option_bind].
  exists n'. rewrite P, U1. rewrite U2 in G. split_and!; auto. exact (eq_trans D U3).
Qed.

(** An entry that is stored leaves the buffer. *)
Lemma entry_settles n now hash v :
  exists n' stored, processEntry E c k bodyBytes n now hash v = Some (n', stored) /\
    (n_pending n' = n_pending n \/ n_pending n' = delete hash (n_pending n)) /\
    (stored = true -> n_pending n' = delete hash (n_pending n)) /\
    st_vertices (n_store n) ⊆ st_vertices (n_store n') /\ pos n' = pos n.
Proof using Hfee.
  unfold processEntry. destruct (validateVertex_total (n_dag n) (n_store n) v) as [err ->]. cbn [mbind option_bind].
  destruct (negb _ && negb _); [destruct (_ || _); eexists _, false; (split; [done|]); split_and!; auto; done|]. cbv zeta.
  set (n1 := if isQuarantineVerdict err then markQuarantined n hash else n).
  assert (H1 : n_pending n1 = n_pending n /\ n_store n1 = n_store n /\ pos n1 = pos n) by (unfold n1; by destruct (isQuarantineVerdict err)).
  destruct H1 as (P1 & S1 & D1). unfold add. rewrite S1. destruct (has (n_store n) hash) eqn:Eh.
  { exists (removePendingVertex n1 hash), false. split; [done|]. cbn [removePendingVertex with_pending set_n_store n_pending n_store].
    rewrite P1, S1. split_and!; auto. }
  set (s1 := if _ <? _ then _ else _).
  match goal with |- context [onVertexAdded _ _ _ _ ?m _ _] => set (n2 := m);
    destruct (added_settles n2 now (v_Round v)) as (n' & -> & P & G & D) end.
  cbn [mbind option_bind]. assert (P2 : n_pending n2 = n_pending n) by (unfold n2; destruct (isQuarantineVerdict err); exact P1).
  assert (S2 : n_store n2 = s1) by (unfold n2; by destruct (isQuarantineVerdict err)).
  assert (D2 : pos n2 = pos n) by (unfold n2; destruct (isQuarantineVerdict err); exact D1).
  eexists _, true. split; [done|]. cbn [removePendingVertex with_pending set_n_store n_pending n_store]. rewrite P, P2.
  split_and!; auto; [|exact (eq_trans D D2)]. rewrite S2 in G. etrans; [|exact G].
  assert (Hg : st_vertices (n_store n) !! hash = None) by exact (has_false _ _ Eh). unfold s1. destruct (_ <? _); by apply insert_subseteq.
Qed.

Lemma entries_settle entries : forall n now acc,
  NoDup entries.*1 -> Forall (fun e => is_Some (n_pending n !! e.1)) entries ->
  exists n' q, processEntries E c k bodyBytes n now entries acc = Some (n', q) /\ acc <= q /\
    Z.of_nat (size (n_pending n')) + (q - acc) <= Z.of_nat (size (n_pending n)) /\
    st_vertices (n_store n) ⊆ st_vertices (n_store n') /\ pos n' = pos n.
Proof using Hfee.
  induction entries as [|[hash v] entries IH]; intros n now acc Hnd Hin; cbn [processEntries].
  { exists n, acc. split_and!; auto; lia. }
  apply NoDup_cons in Hnd as [Hni Hnd]. apply Forall_cons in Hin as [[w Hw] Hin]. cbn [fst] in Hw.
  destruct (entry_settles n now hash v) as (n1 & stored & -> & Hor & Hst & G & D). cbn [mbind option_bind].
  assert (Hin1 : Forall (fun e => is_Some (n_pending n1 !! e.1)) entries).
  { rewrite Forall_forall in Hin |- *. intros e He. specialize (Hin e He). destruct Hor as [-> | ->]; [done|].
    rewrite lookup_delete_ne; [done|]. intros Heq. apply Hni. apply list_elem_of_fmap. exists e. split; [exact Heq|done]. }
  assert (Hdel : S (size (delete hash (n_pending n))) = size (n_pending n)).
  { rewrite <- (insert_delete_id (n_pending n) hash w Hw) at 2. by rewrite map_size_insert_None by apply lookup_delete_eq. }
  destruct (IH n1 now (if stored then acc + 1 else acc) Hnd Hin1) as (n' & q & -> & Hle & Hsz & G' & D').
  exists n', q. split; [done|]. assert (Hsub : st_vertices (n_store n) ⊆ st_vertices (n_store n')) by (by etrans).
  rewrite D', D. destruct stored.
  - rewrite (Hst eq_refl) in Hsz. split_and!; auto; lia.
  - assert ((size (n_pending n1) <= size (n_pending n))%nat) by (destruct Hor as [-> | ->]; lia). split_and!; auto; lia.
Qed.

Lemma pass_settles n now :
  exists n' q, tryProcessPending E c k bodyBytes n now = Some (n', q) /\ 0 <= q /\
    Z.of_nat (size (n_pending n')) + q <= Z.of_nat (size (n_pending n)) /\
    st_vertices (n_store n) ⊆ st_vertices (n_store n') /\ pos n' = pos n.
Proof using Hfee.
  unfold tryProcessPending. destruct (entries_settle (snapshotPendingSorted n) n now 0) as (n' & q & Hp & H1 & H2 & H3).
  - rewrite snapshot_entries. apply NoDup_fst_map_to_list.
  - apply Forall_forall. intros [h v] Hin. rewrite snapshot_entries in Hin. apply elem_of_map_to_list in Hin. eauto.
  - exists n', q. split_and!; auto; try lia; apply H3.
Qed.

Lemma passes_settle fuel : forall n now, (size (n_pending n) < fuel)%nat ->
  exists n', (forall extra, pendingPasses E c k bodyBytes (fuel + extra) n now = Some n') /\
    st_vertices (n_store n) ⊆ st_vertices (n_store n') /\ pos n' = pos n.
Proof using Hfee.
  induction fuel as [|fuel IH]; intros n now Hf; [lia|].
  destruct (pass_settles n now) as (n1 & q & Et & H0 & Hsz & G & D). destruct (Z.eqb_spec q 0) as [->|Hq].
  - exists n1. split_and!; auto. intros extra. cbn [Nat.add pendingPasses]. by rewrite Et.
  - destruct (IH n1 now) as (n' & Hn & G' & D'); [lia|]. exists n'. split_and!; [|by etrans|congruence].
    intros extra. cbn [Nat.add pendingPasses]. rewrite Et. cbn [mbind option_bind]. destruct (Z.eqb_spec q 0); [lia|]. apply Hn.
Qed.

(** With the fee system wired a delivery never panics and the pending buffer always
    settles: one pass more than buffered vertices is enough and a larger bound gives the
    same node. *)
Theorem AddVertex_settles n now v :
  is_Some (AddVertex E c k bodyBytes n now v) /\
  exists n', forall extra, pendingPasses E c k bodyBytes (S (size (n_pending n)) + extra) n now = Some n'.
Proof using Hfee.
  split.
  - unfold AddVertex. destruct (hash32 (v_Hash v)) as [hash|]; [|eauto]. destruct (has (n_store n) hash); [eauto|].
    destruct (validateVertex_total (n_dag n) (n_store n) v) as [err ->]. cbn [mbind option_bind]. destruct (negb _ && negb _); [eauto|].
    destruct (add _ v hash _ _) as [s []]; cbn [negb]; [|eauto].
    match goal with |- context [onVertexAdded _ _ _ _ ?m _ _] => destruct (added_settles m now (v_Round v)) as (n2 & -> & _) end.
    cbn [mbind option_bind]. destruct (passes_settle (S (size (n_pending n2))) n2 now) as (n' & Hn & _); [lia|].
    unfold processPendingVertices. specialize (Hn 0%nat). rewrite Nat.add_0_r in Hn. rewrite Hn. eauto.
  - destruct (passes_settle (S (size (n_pending n))) n now) as (n' & Hn & _); [lia|]. eauto.
Qed.

Lemma receive_settles n now v n' relay : AddVertex E c k bodyBytes n now v = Some (n', relay) -> pos n' = pos n.
Proof using Hfee.
  unfold AddVertex. destruct (hash32 (v_Hash v)) as [hash|]; [|by intros [= <- _]]. destruct (has (n_store n) hash); [by intros [= <- _]|].
  destruct (validateVertex_total (n_dag n) (n_store n) v) as [err ->]. cbn [mbind option_bind].
  destruct (negb _ && negb _); [destruct (_ || _); intros [= <- _]; [|done]; unfold bufferPendingVertex; by destruct (bool_decide _)|].
  cbv zeta. set (n1 := if isQuarantineVerdict err then markQuarantined n hash else n).
  assert (D1 : pos n1 = pos n) by (unfold n1; by destruct (isQuarantineVerdict err)).
  destruct (add (n_store n1) v hash _ _) as [s []]; cbn [negb]; [|by intros [= <- _]].
  match goal with |- context [onVertexAdded _ _ _ _ ?m _ _] => set (n2 := m); destruct (added_settles n2 now (v_Round v)) as (n3 & -> & _ & _ & D) end.
  cbn [mbind option_bind]. unfold processPendingVertices. destruct (passes_settle (S (size (n_pending n3))) n3 now) as (n4 & Hn & _ & D'); [lia|].
  specialize (Hn 0%nat). rewrite Nat.add_0_r in Hn. rewrite Hn. intros [= <- _]. rewrite D', D. exact D1.
Qed.

Lemma tick_settles n now n' out : livenessTick E c k bodyBytes n now = Some (n', out) -> pos n' = pos n.
Proof using Hfee.
  unfold livenessTick, processPendingVertices. destruct (passes_settle (S (size (n_pending n))) n now) as (n1 & Hn & _ & D); [lia|].
  specialize (Hn 0%nat). rewrite Nat.add_0_r in Hn. rewrite Hn. cbn [mbind option_bind].
  destruct (produce_settles n1 now) as (n2 & o & -> & _ & _ & D2). intros [= <- _]. congruence.
Qed.

Lemma submit_settles n now atx n' out : SubmitTx E c k bodyBytes n now atx = Some (n', out) -> pos n' = pos n.
Proof using Hfee.
  unfold SubmitTx. match goal with |- context [produceVertex _ _ _ _ ?m _] => destruct (produce_settles m now) as (n2 & o & -> & _ & _ & D2) end.
  intros [= <- _]. exact D2.
Qed.

(** ** Honest vertices are admitted *)

(** A 32-byte digest, as BLAKE3-256 gives. *)
Definition digests (X : Crypto) : Prop := forall b, length (blake3 X b) = 32%nat.

(** A signing key whose signatures verify. *)
Definition signer (X : Crypto) (kp : NodeConfig) : Prop :=
  length (nc_pubKey kp) = 32%nat /\
  forall m, length (nc_sign kp m) = 64%nat /\ ed25519Verify X (nc_pubKey kp) m (nc_sign kp m) = true.

Lemma feeSplit_same (vs vs' : ValidatorSet) q tx atx : Len vs' = Len vs -> calculateTxFeeSplit E vs' q tx atx = calculateTxFeeSplit E vs q tx atx.
Proof using. intros Hl. unfold calculateTxFeeSplit, calculateTxFee. by rewrite Hl. Qed.

Lemma feeTotals_same atxs : forall d d' acc, Len (vals d') = Len (vals d) -> feeTotals E c d' atxs acc = feeTotals E c d atxs acc.
Proof using Hfee.
  induction atxs as [|atx atxs IH]; intros d d' acc Hl; [done|]. cbn [feeTotals].
  assert (Ht : txFeeSplit E c d' atx = txFeeSplit E c d atx).
  { unfold txFeeSplit. destruct (atx_Transaction atx); [|done]. destruct (negb _); [done|]. destruct (feeParams c); [|done].
    cbn [mbind option_bind]. by rewrite (feeSplit_same (vals d)). }
  rewrite Ht. destruct (txFeeSplit E c d atx); [|done]. cbn [mbind option_bind]. by apply IH.
Qed.

Definition summaryOk (f : FeeSummary) : Prop := is_u64 (fs_TotalFees f) /\ is_u64 (fs_TotalBurned f) /\ is_u64 (fs_TotalEpoch f).

(** The transactions that do not parse carry no fees. *)
Lemma feeTotals_parsed atxs : forall d acc, summaryOk acc -> feeTotals E c d (buildTxVector atxs) acc = feeTotals E c d atxs acc.
Proof using.
  induction atxs as [|atx atxs IH]; intros d acc Hok; [done|]. unfold buildTxVector. rewrite filter_cons. case_decide as Hs.
  - cbn [feeTotals]. destruct (txFeeSplit E c d atx) as [sp|]; [|done]. cbn [mbind option_bind]. apply IH.
    unfold summaryOk. cbn [fs_TotalFees fs_TotalBurned fs_TotalEpoch]. split_and!; apply u64_range.
  - cbn [feeTotals]. unfold txFeeSplit. destruct (atx_Transaction atx) as [tx|]; [by destruct Hs|]. cbn [mbind option_bind noFees fs_Total fs_Burned fs_Epoch].
    destruct acc as [a b e]. destruct Hok as (H1 & H2 & H3). cbn in H1, H2, H3 |- *.
    rewrite !add64_exact, !Z.add_0_r by (unfold is_u64 in *; lia). apply IH. done.
Qed.

(** What [buildVertex] returns. *)
Lemma buildVertex_shape kp n now round parents txs v :
  buildVertex E c kp bodyBytes n now round parents txs = Some v ->
  v_Round v = round /\ v_Producer v = nc_pubKey kp /\ v_Parents v = map (buildVertexLink (n_store n)) parents /\
  v_Transactions v = buildTxVector txs /\ v_FeeSummary v = feeTotals E c (n_dag n) txs (mkFeeSummary 0 0 0) /\
  v_BodyHash v = computeBodyHash (crypto E) bodyBytes v /\ v_Signature v = nc_sign kp (v_Hash v) /\
  v_Epoch v = currentEpoch (d_epochs (n_dag n)) /\ (v_FrontierRound v, v_IndexRoot v) = committedFrontier E c kp (n_dag n) /\
  v_Hash v = headerHash (crypto E) (mkHeader (extractProducer v) (v_Round v) (v_Epoch v) (v_FrontierRound v) (hashFrom (v_IndexRoot v))
    (computeBodyHash (crypto E) bodyBytes v)).
Proof using.
  unfold buildVertex. destruct (committedFrontier E c kp (n_dag n)) as [fr ir]. destruct (feeTotals _ _ _ _ _) as [fs|]; [|done].
  cbn [mbind option_bind]. unfold vertexIdentity. intros [= <-]. split_and!; done.
Qed.

Lemma built_signature kp n now round parents txs v :
  digests (crypto E) -> signer (crypto E) kp -> buildVertex E c kp bodyBytes n now round parents txs = Some v ->
  computeBodyHash (crypto E) bodyBytes v ≠ malformedBody (crypto E) -> validateSignature E bodyBytes v = None.
Proof using.
  intros Hd (Hk & Hsig) Hb Hm. apply buildVertex_shape in Hb as (_ & B2 & _ & _ & _ & B6 & B7 & _ & _ & B10).
  assert (Hh : length (v_Hash v) = 32%nat) by (rewrite B10; apply Hd).
  unfold validateSignature. rewrite B2, B7, Hk. rewrite (proj1 (Hsig (v_Hash v))), Hh. cbn [Nat.eqb negb].
  unfold validateVertexHash, vertexIdentity. rewrite bool_decide_eq_false_2 by done.
  rewrite B6, hashFrom_id by apply Hd. rewrite bool_decide_eq_true_2 by done. cbn [negb headerOf vh_producer vh_round vh_epoch vh_frontierRound vh_indexRoot].
  rewrite hashFrom_id, <- B10 by done. rewrite bool_decide_eq_true_2 by done. cbn [negb]. by rewrite (proj2 (Hsig (v_Hash v))).
Qed.

(** The receiver holds the parents, one from a validator it knows. *)
Record parentsReady (sender m : Node M) (round : Z) (parents : list Hash) : Prop := {
  pr_some : parents ≠ [];
  pr_stored : Forall (fun h => length h = 32%nat /\ exists w, get (n_store m) h = Some w /\ v_Round w = round -w 1) parents;
  pr_known : exists h w, h ∈ parents /\ get (n_store sender) h = Some w /\ Contains (vals (n_dag m)) (extractProducer w) = true;
}.

Lemma built_parents kp n now round parents txs v m :
  buildVertex E c kp bodyBytes n now round parents txs = Some v -> parentsReady n m round parents ->
  validateParents (n_dag m) (n_store m) v = None /\ validateParentsQuorum c (n_dag m) v = None.
Proof using.
  intros Hb [P1 P2 P3]. apply buildVertex_shape in Hb as (B1 & _ & B3 & _). split.
  - unfold validateParents. destruct (v_Round v =? 0); [done|]. rewrite B3, length_map. destruct parents as [|h0 l0] eqn:Ep; [done|]. rewrite <- Ep in *.
    rewrite (proj2 (Nat.eqb_neq (length parents) 0)) by (by rewrite Ep). rewrite B1. clear P1 P3 B3 Ep.
    induction P2 as [|h l [Hl (w & Hw & Hr)] _ IH]; [done|]. cbn [map validateLinks]. unfold validateParentLink.
    assert (Hx : extractLinkHash (buildVertexLink (n_store n) h) = h) by (unfold extractLinkHash, hash32; cbn; by rewrite Hl).
    rewrite Hx, Hw, Hr, Z.eqb_refl. exact IH.
  - unfold validateParentsQuorum. destruct (v_Round v =? 0); [done|]. destruct (initPhase c (n_dag m)); [done|].
    rewrite B3. destruct (existsb _ _) eqn:Ee; [done|]. exfalso. destruct P3 as (h & w & Hin & Hw & Hc).
    assert (existsb (fun l => Contains (vals (n_dag m)) (extractLinkProducer l)) (map (buildVertexLink (n_store n)) parents) = true); [|congruence].
    apply existsb_exists. exists (buildVertexLink (n_store n) h). split; [apply in_map; by apply list_elem_of_In|].
    unfold buildVertexLink, extractLinkProducer. rewrite Hw. exact Hc.
Qed.

(** A vertex a validator builds passes every check of a peer that knows it, holds its
    parents, counts the same validators and cannot disprove its anchor, if its epoch is
    inside the window of its frontier: the peer stores it and relays it. *)
Lemma built_vertex_is_admitted kp n now round parents txs v m now' :
  digests (crypto E) -> signer (crypto E) kp ->
  buildVertex E c kp bodyBytes n now round parents txs = Some v ->
  computeBodyHash (crypto E) bodyBytes v ≠ malformedBody (crypto E) ->
  Contains (vals (n_dag m)) (nc_pubKey kp) = true -> validateEpoch c v = None -> parentsReady n m round parents ->
  Len (vals (n_dag m)) = Len (vals (n_dag n)) -> anchorLie c (nodeIndex E c k (n_dag m)) v = None ->
  get (n_store m) (v_Hash v) = None ->
  exists m', AddVertex E c k bodyBytes m now' v = Some (m', true) /\ get (n_store m') (v_Hash v) = Some v.
Proof using Hfee.
  intros Hd Hk Hb Hbody Hc He Hp Hl Ha Hn.
  pose proof (built_signature kp n now round parents txs v Hd Hk Hb Hbody) as Hs.
  destruct (built_parents kp n now round parents txs v m Hb Hp) as [Hp1 Hp2].
  apply buildVertex_shape in Hb as (_ & B2 & _ & B4 & B5 & _ & _ & _ & _ & B10).
  assert (Hlen : length (v_Hash v) = 32%nat) by (rewrite B10; apply Hd).
  assert (Hh : hash32 (v_Hash v) = Some (v_Hash v)) by (unfold hash32; by rewrite Hlen).
  assert (Hf : validateFeeSummary E c (n_dag m) v = Some None).
  { unfold validateFeeSummary. destruct (feeTotals_total txs (n_dag n) (mkFeeSummary 0 0 0)) as [fs Efs]. rewrite B5, Efs, B4.
    rewrite feeTotals_parsed by (unfold summaryOk, is_u64; cbn; lia). rewrite (feeTotals_same txs (n_dag n)) by done. rewrite Efs. cbn [mbind option_bind].
    by rewrite !Z.eqb_refl. }
  assert (Hv : validateVertex E c k bodyBytes (n_dag m) (n_store m) v = Some None).
  { unfold validateVertex, validateProducer. assert (Hx : extractProducer v = nc_pubKey kp).
    { unfold extractProducer, hash32. rewrite B2. by rewrite (proj1 Hk). }
    rewrite Hx, Hc, Hs, He. destruct (initPhase c (n_dag m)), (isRoundInTransitionOrBuffer c (n_dag m) (v_Round v));
      rewrite ?Hp1, Hp2, Hf; cbn [mbind option_bind]; unfold validateIndexAnchor; by rewrite Ha. }
  unfold AddVertex. rewrite Hh, Hv. unfold has. rewrite Hn. rewrite bool_decide_eq_false_2 by (by intros []). cbn [mbind option_bind].
  change (isQuarantineVerdict None) with false. rewrite bool_decide_eq_true_2 by done. cbn [negb andb].
  unfold add, has. rewrite Hn. rewrite bool_decide_eq_false_2 by (by intros []). cbn [negb].
  set (s1 := if _ <? _ then _ else _). assert (G1 : st_vertices s1 !! v_Hash v = Some v) by (unfold s1; destruct (_ <? _); apply lookup_insert_eq).
  match goal with |- context [onVertexAdded _ _ _ _ ?x _ _] => set (m1 := x); destruct (added_settles m1 now' (v_Round v)) as (m2 & -> & P2 & G2 & _) end.
  cbn [mbind option_bind]. unfold processPendingVertices.
  destruct (passes_settle (S (size (n_pending m2))) m2 now') as (m3 & Hm & G3 & _); [lia|]. specialize (Hm 0%nat). rewrite Nat.add_0_r in Hm. rewrite Hm.
  exists m3. split; [done|]. exact (lookup_weaken _ _ _ _ (lookup_weaken _ _ _ _ G1 G2) G3).
Qed.

End Relay.
