(* ===== verification/Clock.v ===== *)
(** * The epoch and the anchored frontier move together

    The epoch a node stamps on a vertex and the committed frontier it anchors
    both follow the commit cursor, so an honest header passes [validateEpoch]
    whatever the gap between the production round and the cursor (validate.go,
    commit.go, epoch.go). *)

From S2P Require Import Prelude Types Fees Validators Stake Thermostat Storage Tracker Ingress Domains Staged Coins Ledger Ops Dag Vertices Gaps Anchor Agreement Forks Commit Supply Epoch Persist Smt Merkle Index IndexFacts Retention Feed Honest Header Admission Cursor Replica Vetting Relay.

(** ** The frontier of a feed *)

(** The last recorded round after a log; a round at or below it is ignored. *)
Definition frontierStep (mark : option Z) (f : IndexFeed) : option Z :=
  match f with
  | SetFrontier x => if match mark with Some r => x <=? r | None => false end then mark else Some x
  | _ => mark
  end.

Definition lastFrontier (boot : option Z) (log : list IndexFeed) : option Z := foldl frontierStep boot log.

Lemma replay_frontier (Hf : bytes -> Hash) c log : forall m m', historyOk m -> replay Hf c m log = Some m' ->
  historyOk m' /\ last (m_order m') = lastFrontier (last (m_order m)) log.
Proof.
  induction log as [|f log IH]; intros m m' Hk Hr; cbn [replay] in *; [by injection Hr as <-|].
  destruct (applyFeed Hf c m f) as [m1|] eqn:Ea; [|done]. cbn [mbind option_bind] in Hr.
  assert (H1 : historyOk m1 /\ last (m_order m1) = frontierStep (last (m_order m)) f).
  { assert (Hs : managerStep Hf m (feedOp c f) = Some m1) by (rewrite <- Ea; by destruct f).
    assert (Hc : (exists q, f = SetFrontier q) \/ forall q, f ≠ SetFrontier q) by (destruct f; (by left; eauto) || by right).
    destruct Hc as [[q ->]|Hne].
    - injection Hs as <-. cbn [frontierStep]. destruct (match last (m_order m) with Some r => q <=? r | None => false end) eqn:El.
      + unfold managerSetFrontier. by rewrite El.
      + pose proof (frontier_recorded Hf m q (hk_size m Hk) El) as Hrec. pose proof (last_below m q (hk_sorted m Hk) El) as Hlt.
        split; [by eapply recorded_ok|]. by destruct (recorded_order m q _ _ Hk Hlt Hrec) as (_ & ? & _).
    - assert (Hsame : sameHistory m m1) by (apply (step_same Hf m (feedOp c f) m1 Hs); destruct f; done || by destruct (Hne round)).
      split; [by apply (sameHistory_ok m)|]. destruct Hsame as (_ & -> & _). destruct f; done || by destruct (Hne round). }
  destruct H1 as [Hk1 E1]. destruct (IH m1 m' Hk1 Hr) as [Hk' E']. split; [done|]. unfold lastFrontier in *. cbn [foldl]. by rewrite <- E1.
Qed.

Section Clock.
Context {M : Type} `{Pebble M} (E : Env M) (c : Config) (wired : bool) (k : NodeConfig) (bodyBytes : BodyEncoder) (boot : option Z).
Implicit Types (L : Ledger M) (d : DAG M) (n : Node M).

Definition front L : option (option Z) := lastFrontier boot <$> l_index L.

Lemma front_feed L f : (forall r, f ≠ SetFrontier r) -> front (feed L f) = front L.
Proof using.
  intros Hn. unfold front, feed. cbn. destruct (l_index L) as [log|]; [|done]. cbn. unfold lastFrontier. rewrite foldl_app. cbn.
  destruct f; done || by destruct (Hn round).
Qed.

(** ** Transactions move neither *)

Lemma settleDeletion_front L id g b L' r : settleDeletion c L id g b = Some (L', r) -> front L' = front L.
Proof using.
  intros Hs. unfold settleDeletion in Hs. cbv zeta in Hs.
  assert (Hf : front (feed (set_tracker L (deleteObject (l_tracker L) id)) (RemoveObject id)) = front L) by (by rewrite front_feed).
  repeat (case_match; simplify_option_eq; try done).
Qed.

Lemma settleAll_front targets gas : forall L L', settleAll c L targets gas = Some L' -> front L' = front L.
Proof using.
  induction targets as [|id targets IH]; intros L L' Hs; cbn [settleAll] in Hs; [by simplify_eq|].
  destruct (settleDeletion _ _ _ _ _) as [[L1 r]|] eqn:E1; [|done]. apply settleDeletion_front in E1. apply IH in Hs. cbn in Hs. congruence.
Qed.

Lemma settleDeclared_front L tx L' ok : settleDeclaredDeletions c L tx = Some (L', ok) -> front L' = front L.
Proof using.
  unfold settleDeclaredDeletions. cbv zeta. destruct (Nat.eqb _ 0); [by intros [= <- _]|].
  destruct (existsb _ _); [by intros [= <- _]|]. destruct (l_coins L); [|by intros [= <- _]].
  destruct (settleAll _ _ _ _) as [L1|] eqn:E1; [|done]. intros [= <- _]. by eapply settleAll_front.
Qed.

Lemma applyOp_front gas sender epoch maxTerm L op L' : applyOp E c gas sender epoch maxTerm L op = Some L' -> front L' = front L.
Proof using.
  unfold applyOp. destruct (_ =? reparentOp).
  { intros [= <-]. unfold applyReparent. rewrite front_feed by done. unfold rewriteBodyOwner. by destruct (l_coins _). }
  destruct (_ =? deleteOp).
  { unfold applyDelete. cbv zeta. destruct (settleDeletion _ _ _ _ _) as [[L1 r]|] eqn:E1; [|done].
    intros [= <-]. exact (settleDeletion_front _ _ _ _ _ _ E1). }
  unfold applyDomainOp, applyDomainRegister, applyDomainRenew, applyDomainUpdate, applyDomainTransfer, applyDomainDelete, writeDomainLeaf.
  cbv zeta. destruct (l_domains L) as [db|]; cbn [mbind option_bind]; repeat case_match; intros; simplify_eq; try done; by rewrite front_feed by done.
Qed.

Lemma applyDeclaredOps_front gas sender epoch maxTerm ops : forall L L', applyDeclaredOps E c gas sender epoch maxTerm ops L = Some L' -> front L' = front L.
Proof using.
  induction ops as [|op ops IH]; intros L L' Hs; simpl in Hs; [by simplify_eq|].
  destruct (applyOp _ _ _ _ _ _ _ _) as [L1|] eqn:E1; [|done]. apply applyOp_front in E1. apply IH in Hs. congruence.
Qed.

Lemma commitDeclaredOps_front L tx r split storage L' split' :
  commitDeclaredOps E c L tx r split storage = Some (L', split') -> front L' = front L.
Proof using.
  unfold commitDeclaredOps, handleDeclaredOps. cbv zeta.
  destruct (_ || _); [by intros [= <- <-]|]. destruct (hash32 _); [|by intros [= <- <-]].
  case_bool_decide; [by intros [= <- <-]|]. destruct (Nat.eqb _ 0); [by intros [= <- <-]|].
  destruct (maxTermEpochs c); [|done]. simpl. destruct (validateAll _ _ _ _); [|by intros [= <- <-]].
  destruct (applyDeclaredOps _ _ _ _ _ _ _ _) as [L1|] eqn:E1; [|done]. simpl. intros [= <- <-]. change (front L1 = front L).
  by eapply applyDeclaredOps_front.
Qed.

Lemma stake_handlers_front L tx :
  front (fst (handleBond c L tx)) = front L /\ front (fst (handleUnbond c L tx)) = front L /\
  front (fst (handleDelegate E c L tx)) = front L /\ front (fst (handleUndelegate E c L tx)) = front L.
Proof using.
  split_and!; unfold handleBond, handleUnbond, handleDelegate, handleUndelegate; cbv zeta; repeat case_match; done.
Qed.

(** The clock of a DAG: its epoch and the frontier its feed reports. *)
Definition clock d : Z * option (option Z) := (currentEpoch (d_epochs d), front (d_ledger d)).

Lemma refreeze_clock d r : clock (refreezeGenesisRegime c d r) = clock d.
Proof using.
  unfold refreezeGenesisRegime. destruct (strictLatched _); [done|].
  assert (Hl : forall d1, clock (latchStrictRegime c d1 r) = clock d1) by (intros d1; unfold latchStrictRegime; by destruct (strictLatched _)).
  destruct (_ =? 0).
  - cbv zeta. match goal with |- context [publishEpochMirror ?x] => set (d1 := x) end.
    assert (H1 : clock (publishEpochMirror d1) = clock d).
    { unfold clock. f_equal. exact (front_feed (d_ledger d) (RebuildValidators _ _) ltac:(done)). }
    destruct (_ && _); [by rewrite Hl|done].
  - destruct (_ && _); [by rewrite Hl|done].
Qed.

Lemma register_clock d tx r d' ok : handleRegisterValidator E c d tx r = Some (d', ok) -> clock d' = clock d.
Proof using.
  unfold handleRegisterValidator. destruct (negb _); [by intros [= <- <-]|].
  destruct (hash32 _) as [pk|]; [|by intros [= <- <-]]. destruct (DecodeRegisterValidatorArgs _) as [[[q b] p]|]; [|done]. simpl.
  destruct (verifiedRegistrationBLSKey _ _ _ _) as [bls proven]. destruct proven; simpl; [|by intros [= <- <-]].
  set (d1 := set_vals d _). set (d2 := recordCommittedMember c d1 pk r).
  assert (H2 : clock d2 = clock d).
  { unfold d2, recordCommittedMember. case_bool_decide; [done|]. by rewrite refreeze_clock. }
  destruct (setRewardCoinFromArgs _ _ _) as [vs|]; [|done]. simpl. intros [= <- <-]. rewrite <- H2.
  unfold enterTransition, addEpochAddition. repeat case_match; done.
Qed.

(** Pod execution feeds edges, never a frontier. *)
Context (Hexec : forall run L atx L' ok, executor E = Some run -> run L atx = (L', ok) -> front L' = front L).

Lemma executePodCall_clock d atx tx r split storage d' split' :
  executePodCall E c d atx tx r split storage = Some (d', split') -> clock d' = clock d.
Proof using Hexec.
  unfold executePodCall. destruct (negb _); [by intros [= <- <-]|].
  destruct (handleRegisterValidator _ _ _ _ _) as [[d1 ok]|] eqn:Er; [|done]. simpl.
  apply register_clock in Er. destruct ok; simpl; [|by intros [= <- <-]].
  set (d2 := handleDeregisterValidator c d1 tx).
  assert (E2 : clock d2 = clock d1 /\ d_ledger d2 = d_ledger d1).
  { unfold d2, handleDeregisterValidator. destruct (negb _); [done|]. by destruct (hash32 _). }
  destruct (stake_handlers_front (d_ledger d2) tx) as (Hb & _).
  destruct (handleBond c (d_ledger d2) tx) as [L1 bonded]. simpl in Hb.
  set (d3 := if bonded then _ else _).
  assert (E3 : clock d3 = clock d).
  { rewrite <- Er, <- (proj1 E2). assert (Hs : clock (set_ledger d2 L1) = clock d2) by (unfold clock; cbn; by rewrite Hb).
    unfold d3. destruct bonded; [by rewrite refreeze_clock|done]. }
  set (L4 := fst (handleUndelegate _ _ _ _)).
  assert (E4 : front L4 = front (d_ledger d3)).
  { unfold L4. rewrite (proj2 (proj2 (proj2 (stake_handlers_front _ tx)))).
    rewrite (proj1 (proj2 (proj2 (stake_handlers_front _ tx)))). by rewrite (proj1 (proj2 (stake_handlers_front _ tx))). }
  destruct (settleDeclaredDeletions c L4 tx) as [[L5 ok5]|] eqn:E5; [|done]. simpl.
  apply settleDeclared_front in E5. rewrite E4 in E5.
  assert (H5 : forall L6, front L6 = front L5 -> (currentEpoch (d_epochs d3), front L6) = clock d).
  { intros L6 H6. rewrite <- E3. unfold clock. by rewrite H6, E5. }
  destruct ok5; simpl; [|intros [= <- <-]; by apply H5]. destruct (_ && _); [intros [= <- <-]; by apply H5|].
  destruct (executor E) as [run|] eqn:Ee; [|intros [= <- <-]; by apply H5].
  destruct (run L5 atx) as [L6 success] eqn:Ex. intros [= <- <-]. apply H5. exact (Hexec run L5 atx L6 success eq_refl Ex).
Qed.

Lemma executeTx_clock d atx r vs d' fees vs' : executeTx E c d atx r vs = Some (d', fees, vs') -> clock d' = clock d.
Proof using Hexec.
  unfold executeTx. destruct (atx_Transaction atx) as [tx|]; [|by intros [= <- _ _]]. destruct (proofVerdict E atx r vs) as [pv vs1].
  destruct (preCheck E c tx r pv); [by intros [= <- _ _]|]. destruct (commitOnce (d_ledger d) tx) as [L1|] eqn:Eo; [|by intros [= <- _ _]].
  assert (H1 : front L1 = front (d_ledger d)).
  { unfold commitOnce in Eo. destruct (txCommitHash tx); [|by simplify_eq]. destruct (wasCommitted _ _); [done|]. by simplify_eq. }
  destruct (checkAndUpdate (l_tracker L1) tx) as [t ok]. destruct ok; cbn [negb]; [|intros [= <- _ _]; unfold clock; cbn; f_equal; exact H1].
  destruct (deductFees _ _ _ _ _) as [[[[L2 split] storage] ok2]|] eqn:Ed; [|done]. cbn [mbind option_bind].
  assert (H2 : front L2 = front (d_ledger d)).
  { rewrite <- H1. clear -Ed. unfold deductFees in Ed. repeat (case_match; simplify_option_eq; try done). }
  destruct ok2; cbn [negb]; [|intros [= <- _ _]; unfold clock; cbn; f_equal; exact H2]. destruct (negb _).
  - destruct (commitDeclaredOps _ _ _ _ _ _ _) as [[L3 s3]|] eqn:Eq; [|done]. intros [= <- _ _].
    apply commitDeclaredOps_front in Eq. unfold clock. cbn. f_equal. cbn in Eq. congruence.
  - destruct (executePodCall _ _ _ _ _ _ _ _) as [[d3 s3]|] eqn:Eq; [|done]. intros [= <- _ _].
    apply executePodCall_clock in Eq. cbn. rewrite Eq. unfold clock. cbn. by rewrite H2.
Qed.

Lemma applyVertices_clock batch : forall d r vs credited d', applyVertices E c d batch r vs credited = Some d' -> clock d' = clock d.
Proof using Hexec.
  induction batch as [|v batch IH]; intros d r vs credited d' Ha; cbn [applyVertices] in Ha; [by simplify_eq|].
  assert (Hc : clock (fst (creditLiveness d (commitEpochForRound c (v_Round v)) v credited)) = clock d) by (unfold creditLiveness; by case_bool_decide).
  destruct (creditLiveness d _ v credited) as [d1 cr1]. cbn [fst] in Hc.
  destruct (processTransactions E c d1 v r vs) as [[[d2 f2] vs2]|] eqn:Ep; [|done]. cbn [mbind option_bind] in Ha. apply IH in Ha.
  assert (H2 : clock d2 = clock d1).
  { clear -Ep Hexec. unfold processTransactions in Ep. revert d1 vs d2 f2 vs2 Ep. generalize noFees as fees.
    induction (v_Transactions v) as [|atx l IHl]; intros fees d1 vs d2 f2 vs2 Ep; cbn [processAtxs] in Ep; [by simplify_eq|].
    destruct (executeTx E c d1 atx r vs) as [[[d3 f3] vs3]|] eqn:Ex; [|done]. apply executeTx_clock in Ex. apply IHl in Ep. congruence. }
  rewrite Ha, <- Hc, <- H2. unfold recordProducedMember. by case_bool_decide.
Qed.

(** ** The boundary advances the epoch by one *)

Lemma creditAll_clock d : forall d', settleDeferredEpoch E c wired d = Some d' -> clock d' = clock d.
Proof using.
  intros d' Hs. unfold settleDeferredEpoch in Hs. destruct (_ =? 0); [by simplify_eq|]. cbv zeta in Hs.
  match type of Hs with context [runThermostat c d ?b] => set (dist := b) in Hs end.
  assert (Hr : clock (fst (runThermostat c d dist)) = clock d).
  { unfold runThermostat. destruct (l_coins (d_ledger d)); [|done]. by destruct dist. }
  destruct (runThermostat c d dist) as [d1 issuance]. cbn [fst] in Hr. rewrite <- Hr. clear Hr.
  destruct (distributeEpochRewards E c wired d1 _ issuance) as [[d2 left]|] eqn:Ed; [|done]. cbn [mbind option_bind] in Hs. injection Hs as <-.
  unfold distributeEpochRewards in Ed. destruct (l_coins (d_ledger d1)); [|by injection Ed as <- _]. destruct (_ || _); [by injection Ed as <- _|].
  destruct (mustFeeParams c); [|done]. cbn [mbind option_bind] in Ed. destruct (creditShares _ _ _ _ _ _ _ _ _ _) as [[[st1 vs1] n1]|]; [|done].
  cbn [mbind option_bind] in Ed. destruct (creditRemainder st1 vs1 _ _) as [st2 n2]. by injection Ed as <- _.
Qed.

Lemma removeLoop_front keys : forall L pending removed, front (fst (fst (removeLoop c L pending keys removed))) = front L.
Proof using.
  induction keys as [|pk keys IH]; intros L pending removed; cbn [removeLoop]; [done|]. destruct (_ && _); [done|]. destruct (hasBondedDelegations _ _); [apply IH|].
  assert (Hr : front (fst (returnDeregisteredStake L pk)) = front L).
  { unfold returnDeregisteredStake. cbv zeta. repeat case_match; done. }
  destruct (returnDeregisteredStake L pk) as [L1 []]; cbn [fst] in Hr; rewrite IH; [|done]. exact Hr.
Qed.

Lemma sweep_front L epoch L' : sweepExpiredDomains c L epoch = Some L' -> front L' = front L.
Proof using.
  unfold sweepExpiredDomains. destruct (l_domains L) as [db|]; [|by intros [= <-]]. destruct (graceEpochs c) as [g|]; [|done]. cbn [mbind option_bind].
  intros [= <-]. generalize (sortHashes (expiredNames db epoch g)). intros names. revert L. induction names as [|name names IH]; intros L; [done|].
  cbn [foldl]. rewrite IH. unfold sweepName. destruct (l_domains L); [|done]. by rewrite front_feed.
Qed.

Lemma transitionEpoch_clock d d' : transitionEpoch E c wired d = Some d' ->
  clock d' = (currentEpoch (d_epochs d) +w 1, front (d_ledger d)).
Proof using.
  unfold transitionEpoch. destruct (settleDeferredEpoch E c wired d) as [d1|] eqn:Es; [|done]. cbn [mbind option_bind].
  apply creditAll_clock in Es.
  assert (Ha : clock (fst (applyPendingRemovals c d1)) = clock d1).
  { unfold applyPendingRemovals. pose proof (removeLoop_front (sortedMemberKeys (pendingRemovals (d_epochs d1))) (d_ledger d1) (pendingRemovals (d_epochs d1)) []) as Hl.
    destruct (removeLoop _ _ _ _ _) as [[L p] rm]. cbn [fst] in *. unfold clock. cbn. by rewrite Hl. }
  destruct (applyPendingRemovals c d1) as [d2 removed]. cbn [fst] in Ha.
  destruct (sweepExpiredDomains c _ _) as [L|] eqn:Ew; [|done]. cbn [mbind option_bind]. intros [= <-]. apply sweep_front in Ew.
  rewrite Es in Ha. unfold clock in *. injection Ha as H1 H2. f_equal.
  - cbn. by rewrite H1.
  - rewrite <- H2, <- Ew. exact (front_feed L (RebuildValidators _ _) ltac:(done)).
Qed.

(** ** The invariant *)

(** Decided rounds [0 .. cursor - 1]. *)
Record clockOk n : Prop := {
  co_cursor : 0 <= n_lastCommitted n;
  co_epoch : currentEpoch (d_epochs (n_dag n)) = lastDecidedRound (n_lastCommitted n) / epochLength c;
  co_front : front (d_ledger (n_dag n)) = Some (if n_lastCommitted n =? 0 then None else Some (n_lastCommitted n - 1));
}.

Context (Hlen : 0 < epochLength c).

Lemma boundary_epoch round : 0 <= round ->
  round / epochLength c = lastDecidedRound round / epochLength c + (if isEpochBoundary c round then 1 else 0).
Proof using Hlen.
  intros Hr. unfold isEpochBoundary, lastDecidedRound. destruct (Z.eqb_spec (epochLength c) 0); [lia|].
  destruct (Z.eqb_spec round 0) as [->|Hne]; [lia|]. pose proof (Z.div_mod round (epochLength c)) as D.
  destruct (Z.eqb_spec (round mod epochLength c) 0) as [E0|E0].
  - assert (round - 1 = epochLength c * (round / epochLength c - 1) + (epochLength c - 1)) as D' by lia.
    rewrite <- (Z.div_unique (round - 1) (epochLength c) (round / epochLength c - 1) (epochLength c - 1)); lia.
  - pose proof (Z.mod_pos_bound round (epochLength c)).
    rewrite <- (Z.div_unique (round - 1) (epochLength c) (round / epochLength c) (round mod epochLength c - 1)); lia.
Qed.

Lemma advance_clock n round m :
  advanceCommitCursor E c wired n round = Some m -> clockOk n -> n_lastCommitted n = round -> round < two64 - 1 -> clockOk (setIndexFrontier m round).
Proof using Hlen.
  intros Ha [C1 C2 C3] Hr Hb. rewrite Hr in *.
  assert (Hm : n_lastCommitted m = round + 1 /\ clock (n_dag m) = (round / epochLength c, Some (if round =? 0 then None else Some (round - 1)))).
  { assert (Hq : 0 <= round / epochLength c <= round) by (split; [apply Z.div_pos; lia|apply Z.div_le_upper_bound; nia]).
    pose proof (boundary_epoch round C1) as Hbe. assert (Hcur : round +w 1 = round + 1) by (rewrite add64_exact by u64_lia; done).
    unfold advanceCommitCursor in Ha. destruct (isEpochBoundary c round).
    - destruct (transitionEpoch E c wired (n_dag n)) as [d1|] eqn:Et; [|done]. injection Ha as <-. apply transitionEpoch_clock in Et. split; [exact Hcur|].
      change (clock d1 = (round / epochLength c, Some (if round =? 0 then None else Some (round - 1)))). rewrite Et, C2, C3. f_equal.
      assert (Hx : 0 <= lastDecidedRound round / epochLength c) by (apply Z.div_pos; [unfold lastDecidedRound; destruct (Z.eqb_spec round 0); lia|lia]).
      rewrite add64_exact by u64_lia. lia.
    - assert (Hclk : clock (n_dag n) = (round / epochLength c, Some (if round =? 0 then None else Some (round - 1)))).
      { unfold clock. rewrite C2, C3. f_equal. lia. }
      destruct (_ || _); injection Ha as <-; (split; [exact Hcur|exact Hclk]). }
  destruct Hm as [M1 M2]. unfold clock in M2. injection M2 as M2 M3.
  split; cbn [setIndexFrontier with_dag set_commit n_lastCommitted n_dag].
  - lia.
  - rewrite M1. unfold lastDecidedRound. destruct (Z.eqb_spec (round + 1) 0); [lia|]. rewrite Z.add_simpl_r. exact M2.
  - rewrite M1. destruct (Z.eqb_spec (round + 1) 0); [lia|]. rewrite Z.add_simpl_r. unfold front in *. cbn. destruct (l_index (d_ledger (n_dag m))) as [log|]; [|done].
    cbn in *. injection M3 as M3. unfold lastFrontier in *. rewrite foldl_app, M3. cbn. f_equal.
    destruct (Z.eqb_spec round 0) as [->|]; [done|]. destruct (Z.leb_spec round (round - 1)); [lia|done].
Qed.

Lemma clockOk_view n m : clockOk n -> clock (n_dag m) = clock (n_dag n) -> n_lastCommitted m = n_lastCommitted n -> clockOk m.
Proof using. intros [C1 C2 C3] Hd Hc. unfold clock in Hd. injection Hd as D1 D2. split; rewrite ?Hc, ?D1, ?D2; done. Qed.

Lemma stall_clock n round anchor :
  n_dag (onWaitStall n round) = n_dag n /\ n_lastCommitted (onWaitStall n round) = n_lastCommitted n /\
  n_dag (onCausalStall n anchor) = n_dag n /\ n_lastCommitted (onCausalStall n anchor) = n_lastCommitted n.
Proof using.
  unfold onWaitStall, onCausalStall, requestDeepGapRange, requestMissingFrontier, fetchMissing.
  destruct (missingCausalAncestry _ _ anchor) as [missing behind].
  repeat match goal with |- context [if ?b then _ else _] => destruct b end; done.
Qed.

Lemma commitNextRound_clock n m ok :
  commitNextRound E c wired k n = Some (m, ok) -> clockOk n -> highestRound (n_store n) < two64 - 1 -> clockOk m.
Proof using Hlen Hexec.
  intros Hc Hok Hh. pose proof Hc as Hc'. unfold commitNextRound in Hc. destruct (anchorStatus _ c (n_dag n) _ _) as [|anchor|].
  - injection Hc as <- <-. destruct (stall_clock n (n_lastCommitted n) zeroHash) as (S1 & S2 & _). by apply (clockOk_view n); rewrite ?S1, ?S2.
  - destruct (commitAnchorBatch E c k n _ anchor) as [[n1 [|]]|] eqn:C1; cbn [mbind option_bind negb] in Hc; [| |done].
    + destruct (advanceCommitCursor E c wired (clearStall n1) _) as [n2|] eqn:V1; [|done]. injection Hc as <- <-.
      apply commitNextRound_advances in Hc' as (_ & _ & Hle). unfold commitAnchorBatch, commitBatch in C1.
      destruct (causalBatch _ anchor) as [batch|]; [|done]. destruct (commitVertices E c k n batch _ _ _) as [n3|] eqn:C3; [|done]. injection C1 as <-.
      apply commitVertices_spec in C3 as (A & _ & _ & _ & L3). apply applyVertices_clock in A.
      destruct (markQuorum_setQuorum E c n3 (n_lastCommitted n)) as (q & A1 & _ & _ & A4).
      assert (Hv : clockOk (clearStall (emit (markQuorumIfDirect E c n3 (n_lastCommitted n)) (evAnchorCommitted (n_lastCommitted n) anchor
        (anchorProducer (markQuorumIfDirect E c n3 (n_lastCommitted n)) anchor) (Z.of_nat (length batch)))))).
      { apply (clockOk_view n); [done| |].
        - change (clock (n_dag (markQuorumIfDirect E c n3 (n_lastCommitted n))) = clock (n_dag n)). rewrite A1. exact A.
        - change (n_lastCommitted (markQuorumIfDirect E c n3 (n_lastCommitted n)) = n_lastCommitted n). congruence. }
      eapply (advance_clock _ (n_lastCommitted n) n2 V1 Hv); [|lia].
      change (n_lastCommitted (markQuorumIfDirect E c n3 (n_lastCommitted n)) = n_lastCommitted n). congruence.
    + injection Hc as <- <-. unfold commitAnchorBatch in C1. destruct (causalBatch _ anchor); [by destruct (commitBatch _ _ _ _ _ _)|].
      injection C1 as <-. destruct (stall_clock n 0 anchor) as (_ & _ & S3 & S4). by apply (clockOk_view n); rewrite ?S3, ?S4.
  - destruct (advanceCommitCursor E c wired (clearStall (emit n _)) _) as [n2|] eqn:V1; [|done]. injection Hc as <- <-.
    apply commitNextRound_advances in Hc' as (_ & _ & Hle).
    eapply (advance_clock _ (n_lastCommitted n) n2 V1); [|done|lia]. by apply (clockOk_view n).
Qed.

Lemma commitRounds_clock fuel : forall n m, commitRounds E c wired k fuel n = Some (Some m) -> clockOk n -> highestRound (n_store n) < two64 - 1 ->
  clockOk m /\ highestRound (n_store m) = highestRound (n_store n).
Proof using Hlen Hexec.
  induction fuel as [|fuel IH]; intros n m Hc Hok Hh; [done|]. cbn [commitRounds] in Hc.
  destruct (commitNextRound E c wired k n) as [[n1 ok]|] eqn:Cn; [|done]. pose proof (commitNextRound_clock n n1 ok Cn Hok Hh) as H1.
  destruct (commitNextRound_store E c wired k n n1 ok Cn) as [S _]. assert (Hl : highestRound (n_store n1) = highestRound (n_store n)) by apply S.
  destruct ok; [|by injection Hc as <-]. destruct (IH n1 m Hc H1) as [? ?]; [lia|]. split; [done|congruence].
Qed.

(** Any interleaving of deliveries, submissions, ticks and commits, while round
    numbers stay below the last one. *)
Definition boundedStep n n' : Prop := NodeStep E c wired k bodyBytes n n' /\ highestRound (n_store n') < two64 - 1.

Context (p : FeeParams) (Hfee : feeParams c = Some p).

Lemma clockOk_step n n' : boundedStep n n' -> clockOk n -> clockOk n'.
Proof using Hlen Hexec Hfee.
  intros [Hs Hh] Hok. destruct Hs as [n now v n' relay Hr|n now atx n' out Hr|n now n' out Hr|n n' Hr].
  - apply (receive_settles E c k bodyBytes p Hfee) in Hr. unfold pos in Hr. injection Hr as D C. apply (clockOk_view n); [done|by rewrite D|done].
  - apply (submit_settles E c k bodyBytes p Hfee) in Hr. unfold pos in Hr. injection Hr as D C. apply (clockOk_view n); [done|by rewrite D|done].
  - apply (tick_settles E c k bodyBytes p Hfee) in Hr. unfold pos in Hr. injection Hr as D C. apply (clockOk_view n); [done|by rewrite D|done].
  - unfold checkCommits in Hr. destruct (commitRounds _ _ _ _ _ n) as [[n1|]|] eqn:Er; [|done|done]. injection Hr as <-.
    change (highestRound (n_store (announceRoundAdvances E c n1))) with (highestRound (n_store n1)) in Hh.
    assert (Hsame : highestRound (n_store n1) = highestRound (n_store n)).
    { clear -Er. remember (commitFuel n) as fuel eqn:Ef. clear Ef. revert n Er. induction fuel as [|fuel IH]; intros n Er; [done|]. cbn [commitRounds] in Er.
      destruct (commitNextRound E c wired k n) as [[n2 ok]|] eqn:Cn; [|done]. destruct (commitNextRound_store E c wired k n n2 ok Cn) as [S _].
      assert (Hl : highestRound (n_store n2) = highestRound (n_store n)) by apply S. destruct ok; [rewrite (IH n2 Er); done|by injection Er as <-]. }
    destruct (commitRounds_clock (commitFuel n) n n1 Er Hok) as [H1 _]; [lia|]. by apply (clockOk_view n1).
Qed.

(** The window of the anchored frontier holds the epoch the cursor is in. *)
Lemma window_holds cursor : 0 <= cursor ->
  let epoch := lastDecidedRound cursor / epochLength c in
  let frontier := commitEpochForRound c (lastDecidedRound cursor) in
  (epoch = frontier \/ epoch = frontier + 1) /\ 0 <= frontier <= lastDecidedRound cursor.
Proof using Hlen.
  intros Hc. cbv zeta. assert (Hr : 0 <= lastDecidedRound cursor) by (unfold lastDecidedRound; destruct (Z.eqb_spec cursor 0); lia).
  set (r := lastDecidedRound cursor) in *. assert (Hq : 0 <= r / epochLength c <= r) by (split; [apply Z.div_pos; lia|apply Z.div_le_upper_bound; nia]).
  unfold commitEpochForRound. destruct (Z.eqb_spec (epochLength c) 0); [lia|].
  destruct (Z.ltb_spec 0 (r / epochLength c)); cbn [andb]; [destruct (_ =? 0)|]; lia.
Qed.

End Clock.

(** ** Honest headers are inside the window *)

Section Stamp.
Context {M : Type} `{Pebble M} (E : Env M) (c : Config) (wired : bool) (k : NodeConfig) (bodyBytes : BodyEncoder).
Implicit Types (n : Node M).

(** A node at construction: its index was rebuilt and anchored at the last
    decided round. *)
Record booted n : Prop := {
  bt_cursor : 0 <= n_lastCommitted n;
  bt_epoch : currentEpoch (d_epochs (n_dag n)) = lastDecidedRound (n_lastCommitted n) / epochLength c;
  bt_index : l_index (d_ledger (n_dag n)) = Some [];
  bt_history : historyOk (nc_boot k);
  bt_frontier : last (m_order (nc_boot k)) = if n_lastCommitted n =? 0 then None else Some (n_lastCommitted n - 1);
}.

(** What the commit path relies on of pod execution: it feeds no frontier. *)
Definition executorFeedsNoFrontier : Prop :=
  forall run (L : Ledger M) atx L' ok boot, executor E = Some run -> run L atx = (L', ok) -> front boot L' = front boot L.

(** Under any interleaving of deliveries, submissions, ticks and commits, the frontier
    a built vertex anchors is the last decided round and its epoch is the number of
    boundaries up to it, so the header passes validateEpoch however far production runs
    ahead. *)
Theorem stamped_epoch_is_in_window p n n' log m now round parents txs v :
  0 < epochLength c -> feeParams c = Some p -> executorFeedsNoFrontier -> booted n ->
  rtc (boundedStep E c wired k bodyBytes) n n' -> n_lastCommitted n' < two64 ->
  l_index (d_ledger (n_dag n')) = Some log -> replay (blake3 (crypto E)) c (nc_boot k) log = Some m ->
  buildVertex E c k bodyBytes n' now round parents txs = Some v ->
  v_FrontierRound v = lastDecidedRound (n_lastCommitted n') /\ v_Epoch v = lastDecidedRound (n_lastCommitted n') / epochLength c /\
  validateEpoch c v = None.
Proof using.
  intros Hlen Hfee Hexec [B1 B2 B3 B4 B5] Hr Hcur Hlog Hm Hb.
  set (boot := last (m_order (nc_boot k))).
  assert (Hok : clockOk c boot n').
  { assert (H0 : clockOk c boot n).
    { split; [done|done|]. unfold front. rewrite B3. cbn. f_equal. exact B5. }
    clear -H0 Hr Hlen Hfee Hexec. induction Hr as [|a b d Hs _ IH]; [done|]. apply IH.
    eapply (clockOk_step E c wired k bodyBytes boot _ Hlen p Hfee); [exact Hs|exact H0].
    Unshelve. intros run L atx L' ok He Hrun. exact (Hexec run L atx L' ok boot He Hrun). }
  destruct Hok as [C1 C2 C3]. apply buildVertex_shape in Hb as (_ & _ & _ & _ & _ & _ & _ & B8 & B9 & _).
  unfold committedFrontier, nodeIndex in B9. rewrite Hlog in B9. cbn in B9. unfold indexOf in B9. rewrite Hm in B9. cbn in B9. injection B9 as Hfr _.
  destruct (replay_frontier (blake3 (crypto E)) c log (nc_boot k) m B4 Hm) as [Hk Hl].
  unfold front in C3. rewrite Hlog in C3. cbn in C3. injection C3 as C3. fold boot in Hl. rewrite C3 in Hl.
  assert (HF : v_FrontierRound v = lastDecidedRound (n_lastCommitted n')).
  { rewrite Hfr. unfold lastDecidedRound. destruct (Z.eqb_spec (n_lastCommitted n') 0) as [E0|E0].
    - apply last_None in Hl. by apply (hk_unset m Hk).
    - assert (Hne : m_order m ≠ []) by (intros En; by rewrite En in Hl). destruct (hk_frontier m Hk Hne) as [Hlast _]. congruence. }
  split; [done|]. rewrite B8, C2. split; [done|]. unfold validateEpoch. destruct (Z.eqb_spec (epochLength c) 0); [lia|].
  rewrite HF, B8, C2. destruct (window_holds c Hlen (n_lastCommitted n') C1) as (Hw & Hfb).
  assert (Hlast : 0 <= lastDecidedRound (n_lastCommitted n') < two64 - 1) by (unfold lastDecidedRound; destruct (Z.eqb_spec (n_lastCommitted n') 0); u64_lia).
  unfold epochWindow. rewrite (add64_exact (commitEpochForRound c (lastDecidedRound (n_lastCommitted n'))) 1) by u64_lia.
  set (f := commitEpochForRound c (lastDecidedRound (n_lastCommitted n'))) in *. set (e := lastDecidedRound (n_lastCommitted n') / epochLength c) in *.
  destruct (Z.ltb_spec 0 f); [destruct (Z.ltb_spec e (f - 1))|destruct (Z.ltb_spec e 0)]; try lia; cbn [orb];
    destruct (Z.ltb_spec (f + 1) e); done || lia.
Qed.

(** The whole of admission for the vertex of an honest validator: the epoch check, which
    the previous theorem discharges, included. *)

(** C14. A validator booted on its own state, after any bounded steps, in epochs of
    positive length, with the fee system wired, its index running and an executor that
    leaves the index frontier alone (as the wired one does), builds a vertex: it passes
    every check of a peer, the epoch window included, that knows the validator, holds the
    parents, counts the same number of validators, cannot disprove the anchor and does not
    hold the vertex yet, if its body encodes; the peer stores it and relays it. *)
Theorem honest_vertex_is_admitted p kr n0 n log mgr now round parents txs v m now' :
  feeParams c = Some p -> 0 < epochLength c -> executorFeedsNoFrontier -> digests (crypto E) -> signer (crypto E) k ->
  booted n0 -> rtc (boundedStep E c wired k bodyBytes) n0 n -> n_lastCommitted n < two64 ->
  l_index (d_ledger (n_dag n)) = Some log -> replay (blake3 (crypto E)) c (nc_boot k) log = Some mgr ->
  buildVertex E c k bodyBytes n now round parents txs = Some v -> computeBodyHash (crypto E) bodyBytes v ≠ malformedBody (crypto E) ->
  Contains (vals (n_dag m)) (nc_pubKey k) = true -> parentsReady n m round parents -> Len (vals (n_dag m)) = Len (vals (n_dag n)) ->
  anchorLie c (nodeIndex E c kr (n_dag m)) v = None -> get (n_store m) (v_Hash v) = None ->
  exists m', AddVertex E c kr bodyBytes m now' v = Some (m', true) /\ get (n_store m') (v_Hash v) = Some v.
Proof using.
  intros Hfee Hlen Hexec Hd Hk Hboot Hr Hcur Hlog Hm Hb Hbody Hc Hp Hl Ha Hn.
  assert (He : validateEpoch c v = None)
    by exact (proj2 (proj2 (stamped_epoch_is_in_window p n0 n log mgr now round parents txs v Hlen Hfee Hexec Hboot Hr Hcur Hlog Hm Hb))).
  exact (built_vertex_is_admitted E c kr bodyBytes p Hfee k n now round parents txs v m now' Hd Hk Hb Hbody Hc He Hp Hl Ha Hn).
Qed.

End Stamp.

(** ** A boundary crossed

    The four validators at round 5, with epochs of five rounds: the commit of
    round 5 opens epoch 1. *)

Definition shortEpochs : Config :=
  mkConfig (replicate 32 0) (Some DefaultFeeParams) 0 0 1000 100 0 0 5 0 (thermostat sampleConfig).

Definition clockCrypto : Crypto :=
  mkCrypto (fun b => if bool_decide (take 18 b = anchorDomain) then blake3 rotation b else take 32 (b ++ replicate 32 0)) (fun _ => [])
    (fun _ _ _ => true) (fun _ _ _ _ => true).

Definition clockEnv : Env (gmap bytes bytes) :=
  mkEnv _ clockCrypto None None None (fun _ _ => []) None (fun st _ => st) (fun st _ _ _ _ => st).

Definition clockKeys : NodeConfig :=
  mkNodeConfig (hh 1) (fun _ => []) false false (managerSetFrontier (blake3 clockCrypto) NewManager 4).

Definition clockNode : Node (gmap bytes bytes) :=
  mkNode (set_ledger quartetDag (mkLedger ∅ None None quartet (Some []) [])) viewCert ∅ ∅ ∅ ∅ 7 0 [] None false ∅ 5 0 zeroHash 0 0 0 None [].

Definition noBody : BodyEncoder := fun _ _ _ _ => [].

Abbreviation clockRun := (checkCommits clockEnv shortEpochs true clockKeys clockNode).

Definition clockCheck (run : option (option (Node (gmap bytes bytes)))) : bool :=
  match run with
  | Some (Some n) =>
      (n_lastCommitted n =? 6) && (highestRound (n_store n) <? two64 - 1) &&
      match l_index (d_ledger (n_dag n)) with
      | Some log => bool_decide (is_Some (replay (blake3 clockCrypto) shortEpochs (nc_boot clockKeys) log))
      | None => false
      end && bool_decide (is_Some (buildVertex clockEnv shortEpochs clockKeys noBody n 0 7 [] []))
  | _ => false
  end.

Lemma clockCheck_sound run : clockCheck run = true -> exists n log m v,
  run = Some (Some n) /\ n_lastCommitted n = 6 /\ highestRound (n_store n) < two64 - 1 /\ l_index (d_ledger (n_dag n)) = Some log /\
  replay (blake3 clockCrypto) shortEpochs (nc_boot clockKeys) log = Some m /\ buildVertex clockEnv shortEpochs clockKeys noBody n 0 7 [] [] = Some v.
Proof.
  unfold clockCheck. intros Hc.
  destruct run as [[n|]|]; [|discriminate Hc|discriminate Hc]. apply andb_true_iff in Hc as [Hc H4]. apply andb_true_iff in Hc as [Hc H3].
  apply andb_true_iff in Hc as [H1 H2]. destruct (l_index (d_ledger (n_dag n))) as [log|] eqn:El; [|discriminate H3].
  destruct (bool_decide_eq_true_1 _ H3) as [m Hm]. destruct (bool_decide_eq_true_1 _ H4) as [v Hv].
  exists n, log, m, v. split; [reflexivity|]. split; [exact (proj1 (Z.eqb_eq _ _) H1)|]. split; [exact (proj1 (Z.ltb_lt _ _) H2)|].
  split; [exact El|]. split; [exact Hm|exact Hv].
Qed.

Lemma clockRun_checked : clockCheck clockRun = true.
Proof. vm_compute. reflexivity. Qed.

Lemma clockNode_booted : booted shortEpochs clockKeys clockNode.
Proof.
  assert (Hr : runManager (blake3 clockCrypto) NewManager [IxFrontier 4] = Some (nc_boot clockKeys)) by reflexivity.
  split; [simpl; lia|vm_compute; reflexivity|reflexivity| |vm_compute; reflexivity].
  exact (proj1 (run_history (blake3 clockCrypto) [IxFrontier 4] NewManager _ Hr NewManager_history)).
Qed.

Theorem stamped_epoch_is_in_window_witness :
  exists n v, buildVertex clockEnv shortEpochs clockKeys noBody n 0 7 [] [] = Some v /\
    v_FrontierRound v = 5 /\ v_Epoch v = 1 /\ validateEpoch shortEpochs v = None.
Proof.
  destruct (clockCheck_sound clockRun clockRun_checked) as (n & log & m & v & Hrun & Hcur & Hhigh & Hlog & Hm & Hv). exists n, v. split; [exact Hv|].
  destruct (stamped_epoch_is_in_window clockEnv shortEpochs true clockKeys noBody DefaultFeeParams clockNode n log m 0 7 [] [] v) as (H1 & H2 & H3).
  - reflexivity.
  - reflexivity.
  - intros run L atx L' ok boot He. discriminate He.
  - exact clockNode_booted.
  - apply rtc_once. split; [exact (step_commit _ _ _ _ _ _ _ Hrun)|exact Hhigh].
  - rewrite Hcur. reflexivity.
  - exact Hlog.
  - exact Hm.
  - exact Hv.
  - rewrite H1, H2, Hcur. split; [reflexivity|]. split; [reflexivity|exact H3].
Defined.
