(* ===== verification/Scenarios.v ===== *)
(** * Admission at work on four validators

    Concrete runs: an honest vertex received by a peer, and three vertices on
    which admission and the commit path disagree about what may be stored
    (validate.go, dag.go, commit.go). *)

From S2P Require Import Prelude Types Fees Validators Stake Thermostat Storage Tracker Ingress Domains Staged Coins Ledger Ops Dag Vertices Gaps Anchor Agreement Forks Commit Supply Epoch Persist Smt Merkle Index Feed Header Admission Cursor Replica Vetting Relay IndexFacts Retention Honest Clock.

(** ** The network *)

(** Designation rotates; a signature is the key followed by the message, in 64
    bytes. *)
Definition signatureOf (pk m : bytes) : bytes := take 64 (pk ++ m ++ replicate 32 0).

Definition relayCrypto : Crypto :=
  mkCrypto (fun b => if bool_decide (take 18 b = anchorDomain) then blake3 rotation b else toyHash b) (fun _ => [])
    (fun pk m sig => bool_decide (sig = signatureOf pk m)) (fun _ _ _ _ => true).

Definition relayEnv : Env (gmap bytes bytes) :=
  mkEnv _ relayCrypto None None None (fun _ rep => map hh (seqZ 1 rep)) None (fun st _ => st) (fun st _ _ _ _ => st).

Definition linkBody : BodyEncoder := fun links txs _ _ => [Z.of_nat (length links); Z.of_nat (length txs)].

Definition relayDag : DAG (gmap bytes bytes) :=
  set_ledger quartetDag (mkLedger ∅ None None quartet None []).

Definition relayNode (s : store) (round : Z) : Node (gmap bytes bytes) :=
  mkNode relayDag s ∅ ∅ ∅ ∅ round 0 [] None false ∅ 0 0 zeroHash 0 0 0 (Some []) [].

Definition validatorKey (p : Z) (listens : bool) : NodeConfig :=
  mkNodeConfig (hh p) (signatureOf (hh p)) listens false NewManager.

(** The vertex of validator [p] with these links. *)
Definition mint (p round : Z) (links : list VertexLink) : Vertex :=
  let unsigned := mkVertex [] round (hh p) links [] 0 (Some (mkFeeSummary 0 0 0)) 0 0 zeroHash [] [] in
  let '(identity, bodyHash) := vertexIdentity relayCrypto linkBody unsigned in
  mkVertex identity round (hh p) links [] 0 (Some (mkFeeSummary 0 0 0)) 0 0 zeroHash bodyHash (signatureOf (hh p) identity).

Definition linkTo (v : Vertex) : VertexLink := mkLink (v_Hash v) (v_Producer v).

Definition layer (round : Z) (links : list VertexLink) : list Vertex := map (fun p => mint p round links) [1; 2; 3; 4].

Fixpoint deliver (k : NodeConfig) (n : Node (gmap bytes bytes)) (vs : list Vertex) : option (Node (gmap bytes bytes) * bool) :=
  match vs with
  | [] => Some (n, true)
  | v :: vs =>
      match AddVertex relayEnv quartetConfig k linkBody n 0 v with
      | Some (n, relay) => match deliver k n vs with Some (n, all) => Some (n, relay && all) | None => None end
      | None => None
      end
  end.

(** ** A fabricated parent

    Validator 4 links, beside the four vertices of round 0, a hash nobody has
    with a producer nobody knows. *)

Definition ghost : Hash := hh 99.

Definition genesisLayer : list Vertex := layer 0 [].
Definition links0 : list VertexLink := map linkTo genesisLayer.
Definition poisoned : Vertex := mint 4 1 (links0 ++ [mkLink ghost (hh 9)]).
Definition layer1 : list Vertex := map (fun p => mint p 1 links0) [1; 2; 3] ++ [poisoned].
Definition layer2 : list Vertex := layer 2 (map linkTo layer1).
Definition layer3 : list Vertex := layer 3 (map linkTo layer2).

Definition poisonedRun : option (Node (gmap bytes bytes) * bool) :=
  deliver (validatorKey 1 true) (relayNode emptyStore 0) (genesisLayer ++ layer1 ++ layer2 ++ layer3).

Definition afterCommits : option (Node (gmap bytes bytes)) :=
  match poisonedRun with
  | Some (n, true) => match checkCommits relayEnv quartetConfig true (validatorKey 1 true) n with Some r => r | None => None end
  | _ => None
  end.

(** A stored link to a vertex that never comes fails every batch above it. *)
Lemma missing_parent_fails s s' anchor x v h :
  Visit s anchor x -> x ∉ committedVertices s -> get s x = Some v -> belowCommitFloor s (v_Round v) = false -> h ∈ parentsOf v ->
  h ∉ committedVertices s -> st_vertices s ⊆ st_vertices s' -> committedVertices s' = committedVertices s -> commitFloor s' = commitFloor s ->
  get s' h = None -> causalBatch s' anchor = None.
Proof.
  intros Hv Hx Hg Hb Hp Hh Hsub Hc Hf Hn. destruct (causalBatch s' anchor) as [batch|] eqn:Eb; [|done]. exfalso.
  assert (Hmono : forall y, Visit s anchor y -> Visit s' anchor y).
  { induction 1 as [|y w q Hy IH Hny Hgy Hby Hq]; [constructor|].
    apply (visit_parent s' anchor y w); [done|by rewrite Hc|by eapply lookup_weaken|by rewrite (belowCommitFloor_same s s')|done]. }
  destruct (causalBatch_complete s' anchor batch h Eb) as [w Hw].
  - apply (visit_parent s' anchor x v); [by apply Hmono|by rewrite Hc|by eapply lookup_weaken|by rewrite (belowCommitFloor_same s s')|done].
  - by rewrite Hc.
  - congruence.
Qed.

Definition stuckAnchor : Hash := v_Hash (mint 2 2 (map linkTo layer1)).

Definition stuckCheck (n : Node (gmap bytes bytes)) : bool :=
  (n_lastCommitted n =? 2) && bool_decide (anchorStatus relayCrypto quartetConfig (n_dag n) (n_store n) 2 = anchorCommit stuckAnchor) &&
  bool_decide (get (n_store n) stuckAnchor = Some (mint 2 2 (map linkTo layer1))) &&
  bool_decide (get (n_store n) (v_Hash poisoned) = Some poisoned) &&
  negb (isVertexCommitted (n_store n) stuckAnchor) && negb (isVertexCommitted (n_store n) (v_Hash poisoned)) &&
  negb (isVertexCommitted (n_store n) ghost) && bool_decide (commitFloor (n_store n) = None) &&
  bool_decide (v_Hash poisoned ∈ parentsOf (mint 2 2 (map linkTo layer1))) && bool_decide (ghost ∈ parentsOf poisoned).

Lemma poisoned_run_stuck : exists n, afterCommits = Some n /\ stuckCheck n = true.
Proof.
  assert (Hb : match afterCommits with Some n => stuckCheck n | None => false end = true) by (vm_compute; reflexivity).
  destruct afterCommits as [n|]; [eauto|done].
Qed.

(** C15. A validator's vertex that links, beside real parents, a hash nobody has under a
    producer nobody knows is stored and relayed, cited by the next round, and then every
    causal batch of the anchor above it fails in every larger store that lacks that hash:
    the commit cursor stops at round 2. *)
Theorem fabricated_parent_halts :
  exists n, afterCommits = Some n /\ n_lastCommitted n = 2 /\
    anchorStatus relayCrypto quartetConfig (n_dag n) (n_store n) 2 = anchorCommit stuckAnchor /\
    forall s', st_vertices (n_store n) ⊆ st_vertices s' -> committedVertices s' = committedVertices (n_store n) ->
      commitFloor s' = commitFloor (n_store n) -> get s' ghost = None -> causalBatch s' stuckAnchor = None.
Proof.
  destruct poisoned_run_stuck as (n & En & Hc). exists n. split; [exact En|]. clear En. unfold stuckCheck in Hc.
  rewrite !andb_true_iff, !bool_decide_eq_true, !negb_true_iff, Z.eqb_eq in Hc.
  destruct Hc as (((((((((C1 & C2) & C3) & C4) & C5) & C6) & C7) & C8) & C9) & C10). split; [exact C1|]. split; [exact C2|].
  unfold isVertexCommitted in C5, C6, C7. apply bool_decide_eq_false in C5, C6, C7. intros s' Hsub Hm Hf Hg.
  assert (Hfl : forall r, belowCommitFloor (n_store n) r = false) by (intros r; unfold belowCommitFloor; by rewrite C8).
  apply (missing_parent_fails (n_store n) s' stuckAnchor (v_Hash poisoned) poisoned ghost);
    [|exact C6|exact C4|apply Hfl|exact C10|exact C7|exact Hsub|exact Hm|exact Hf|exact Hg].
  apply (visit_parent (n_store n) stuckAnchor stuckAnchor (mint 2 2 (map linkTo layer1))); [constructor|exact C5|exact C3|apply Hfl|exact C9].
Qed.

(** ** A summary the receiver weighs differently

    The transaction writes an object held by two validators.  Its summary was
    computed while four were registered; a fifth registers before it arrives. *)

Definition heldObject : Object := mkObject (hh 50) 1 (hh 60) 2 [] 0 0.

Definition heldWrite : AttestedTransaction :=
  mkAtx (Some (mkTransaction (hh 40) [] [mkTxRef (hh 50) 1 []] [] (hh 60) [] (hh 70) (str "touch") [] 1000 (hh 80) [] [] 0 [] [])) [heldObject] [] 0.

Definition quintetDag : DAG (gmap bytes bytes) :=
  set_ledger relayDag (mkLedger ∅ None None (fst (Add quartet (hh 5) [] [])) None []).

Definition summaryVertex : option Vertex :=
  buildVertex relayEnv quartetConfig (validatorKey 2 false) linkBody (relayNode emptyStore 0) 0 0 [] [heldWrite].

(** One vertex with a transaction on a replicated object is valid for a node with
    four registered validators and terminally rejected by a node that has committed a
    fifth registration. *)
Theorem fee_summary_depends_on_receiver :
  exists v, summaryVertex = Some v /\
    validateVertex relayEnv quartetConfig (validatorKey 1 true) linkBody relayDag emptyStore v = Some None /\
    validateVertex relayEnv quartetConfig (validatorKey 1 true) linkBody quintetDag emptyStore v = Some (Some errFeeSummary).
Proof.
  assert (Hb : match summaryVertex with
    | Some v => bool_decide (validateVertex relayEnv quartetConfig (validatorKey 1 true) linkBody relayDag emptyStore v = Some None) &&
                bool_decide (validateVertex relayEnv quartetConfig (validatorKey 1 true) linkBody quintetDag emptyStore v = Some (Some errFeeSummary))
    | None => false end = true) by (vm_compute; reflexivity).
  destruct summaryVertex as [v|]; [|done]. exists v. split; [done|].
  apply andb_true_iff in Hb as [H1 H2].
  exact (conj (bool_decide_eq_true_1 _ H1) (bool_decide_eq_true_1 _ H2)).
Qed.

(** ** A forged claim in the buffer

    Validator 5 is not registered yet.  A stranger sends unsigned bytes under the
    hash of its vertex; the genuine vertex is then ignored, and once validator 5
    is known the buffer drops the forgery and holds nothing. *)

Definition awaited : Vertex := mint 5 0 [].
Definition forged : Vertex := mkVertex (v_Hash awaited) 0 (hh 5) [] [] 0 None 0 0 [] [] [].

Definition learnFifth (n : Node (gmap bytes bytes)) : Node (gmap bytes bytes) := with_dag n quintetDag.

Definition shadowed : option (Node (gmap bytes bytes)) :=
  match deliver (validatorKey 1 true) (relayNode emptyStore 0) [forged; awaited] with
  | Some (n, _) => processPendingVertices relayEnv quartetConfig (validatorKey 1 true) linkBody (learnFifth n) 0
  | None => None
  end.

Definition unshadowed : option (Node (gmap bytes bytes)) :=
  match deliver (validatorKey 1 true) (relayNode emptyStore 0) [awaited] with
  | Some (n, _) => processPendingVertices relayEnv quartetConfig (validatorKey 1 true) linkBody (learnFifth n) 0
  | None => None
  end.

Theorem forged_claim_shadows_vertex :
  (exists n, shadowed = Some n /\ get (n_store n) (v_Hash awaited) = None /\ n_pending n = ∅) /\
  (exists n, unshadowed = Some n /\ get (n_store n) (v_Hash awaited) = Some awaited).
Proof.
  assert (H1 : match shadowed with Some n => bool_decide (get (n_store n) (v_Hash awaited) = None) && bool_decide (n_pending n = ∅) | None => false end = true)
    by (vm_compute; reflexivity).
  assert (H2 : match unshadowed with Some n => bool_decide (get (n_store n) (v_Hash awaited) = Some awaited) | None => false end = true)
    by (vm_compute; reflexivity).
  destruct shadowed as [n|]; [|discriminate H1]. destruct unshadowed as [m|]; [|discriminate H2]. apply andb_true_iff in H1 as [A B].
  split; [exists n; split; [reflexivity|exact (conj (bool_decide_eq_true_1 _ A) (bool_decide_eq_true_1 _ B))]|].
  exists m. split; [reflexivity|exact (bool_decide_eq_true_1 _ H2)].
Qed.

(** ** Honest deliveries *)

Lemma relayCrypto_digests : digests relayCrypto.
Proof. intros b. cbn. case_bool_decide; [|done]. cbn. rewrite length_app, length_le_enc. done. Qed.

Lemma validatorKey_signer p listens : signer relayCrypto (validatorKey p listens).
Proof.
  split; [done|]. intros m. split; [|by apply bool_decide_eq_true_2]. cbn [validatorKey nc_sign]. unfold signatureOf.
  rewrite length_take, !length_app. unfold hh. rewrite !length_replicate. lia.
Qed.

Definition store0 : store := foldl (fun s v => fst (add s v (v_Hash v) 0 (v_Producer v))) emptyStore genesisLayer.

Definition parents0 : list Hash := map v_Hash genesisLayer.

(** The sender keeps an index. *)
Definition indexedNode (s : store) (round : Z) : Node (gmap bytes bytes) :=
  let L := d_ledger relayDag in
  with_dag (relayNode s round) (set_ledger relayDag (mkLedger (l_tracker L) (l_domains L) (l_coins L) (l_validators L) (Some []) (l_committed L))).

Definition secondVertex : option Vertex :=
  buildVertex relayEnv quartetConfig (validatorKey 2 false) linkBody (indexedNode store0 1) 0 1 parents0 [heldWrite].

Lemma parents0_ready : parentsReady (indexedNode store0 1) (relayNode store0 1) 1 parents0.
Proof.
  split; [done| |].
  - assert (Hb : forallb (fun h => Nat.eqb (length h) 32 && match get store0 h with Some w => v_Round w =? 0 | None => false end) parents0 = true)
      by (vm_compute; reflexivity).
    apply Forall_forall. intros h Hin. rewrite forallb_forall in Hb. specialize (Hb h (proj1 (list_elem_of_In _ _) Hin)). cbv beta in Hb.
    apply andb_true_iff in Hb as [H1%Nat.eqb_eq H2]. split; [done|]. change (n_store (relayNode store0 1)) with store0.
    destruct (get store0 h) as [w|]; [|done]. exists w. split; [done|]. by apply Z.eqb_eq.
  - exists (v_Hash (mint 1 0 [])), (mint 1 0 []). split; [apply list_elem_of_here|]. split; vm_compute; reflexivity.
Qed.

Definition secondReady (v : Vertex) : bool :=
  negb (bool_decide (computeBodyHash relayCrypto linkBody v = malformedBody relayCrypto)) &&
  bool_decide (get store0 (v_Hash v) = None).

Lemma secondVertex_ready : exists v, secondVertex = Some v /\ secondReady v = true.
Proof.
  assert (Hb : match secondVertex with Some v => secondReady v | None => false end = true) by (vm_compute; reflexivity).
  destruct secondVertex as [v|]; [eauto|done].
Qed.

Theorem honest_vertex_is_admitted_witness :
  exists v m', secondVertex = Some v /\
    AddVertex relayEnv quartetConfig (validatorKey 1 true) linkBody (relayNode store0 1) 0 v = Some (m', true) /\
    get (n_store m') (v_Hash v) = Some v.
Proof.
  destruct secondVertex_ready as (v & Ev & Hr). apply andb_true_iff in Hr as [R1 R3].
  apply negb_true_iff in R1. apply bool_decide_eq_false in R1. apply bool_decide_eq_true in R3.
  destruct (honest_vertex_is_admitted relayEnv quartetConfig true (validatorKey 2 false) linkBody DefaultFeeParams (validatorKey 1 true) (indexedNode store0 1) (indexedNode store0 1) [] NewManager
    0 1 parents0 [heldWrite] v (relayNode store0 1) 0) as (m' & H1 & H2).
  - reflexivity.
  - cbn. lia.
  - intros run L atx L' ok boot He. discriminate He.
  - exact relayCrypto_digests.
  - exact (validatorKey_signer 2 false).
  - split; [simpl; lia|vm_compute; reflexivity|reflexivity|exact NewManager_history|reflexivity].
  - apply rtc_refl.
  - reflexivity.
  - reflexivity.
  - reflexivity.
  - exact Ev.
  - exact R1.
  - reflexivity.
  - exact parents0_ready.
  - reflexivity.
  - reflexivity.
  - exact R3.
  - exists v, m'. exact (conj Ev (conj H1 H2)).
Defined.

Theorem AddVertex_settles_witness :
  is_Some (AddVertex relayEnv quartetConfig (validatorKey 1 true) linkBody (relayNode store0 1) 0 poisoned).
Proof. exact (proj1 (AddVertex_settles relayEnv quartetConfig (validatorKey 1 true) linkBody DefaultFeeParams eq_refl (relayNode store0 1) 0 poisoned)). Defined.

(** One delivery to an empty node. *)
Lemma first_delivery : exists n, AddVertex relayEnv quartetConfig (validatorKey 1 true) linkBody (relayNode emptyStore 0) 0 (mint 1 0 []) = Some (n, true) /\
  get (n_store n) (v_Hash (mint 1 0 [])) = Some (mint 1 0 []).
Proof.
  assert (Hb : match AddVertex relayEnv quartetConfig (validatorKey 1 true) linkBody (relayNode emptyStore 0) 0 (mint 1 0 []) with
    | Some (n, true) => bool_decide (get (n_store n) (v_Hash (mint 1 0 [])) = Some (mint 1 0 [])) | _ => false end = true) by (vm_compute; reflexivity).
  destruct (AddVertex _ _ _ _ _ _ _) as [[n []]|]; [|done|done]. apply bool_decide_eq_true in Hb. eauto.
Qed.

Theorem stored_vertices_are_genuine_witness :
  exists n, rtc (NodeStep relayEnv quartetConfig true (validatorKey 1 true) linkBody) (relayNode emptyStore 0) n /\
    v_Hash (mint 1 0 []) ∈ getByRound (n_store n) 0.
Proof.
  destruct first_delivery as (n & Hn & Hg). exists n.
  assert (Hr : rtc (NodeStep relayEnv quartetConfig true (validatorKey 1 true) linkBody) (relayNode emptyStore 0) n)
    by exact (rtc_once _ _ (step_receive _ _ _ _ _ _ _ _ _ _ Hn)).
  split; [exact Hr|].
  destruct (stored_vertices_are_genuine relayEnv quartetConfig true (validatorKey 1 true) linkBody (relayNode emptyStore 0) n _ _
    (conj eq_refl eq_refl) Hr Hg) as (_ & _ & _ & _ & _ & _ & Hi & _).
  exact Hi.
Defined.
