(* ===== verification/Restart.v ===== *)
(** * What a restart loses (cmd/node/init.go, internal/consensus/commit.go,
    epoch_persist.go)

    The live set is encoded before the boundary changes it, and the issuance rate
    is not part of any batch. *)

From S2P Require Import Prelude Types Fees Validators Stake Thermostat Storage Tracker Ingress Domains Staged Coins Ledger Ops Dag Vertices Gaps Anchor Agreement Forks Commit Supply Epoch Rewards Persist Resume Smt Index Feed Header Admission Cursor.

(** [restoreValidatorSet]: [None] when nothing was persisted. *)
Definition restoreValidatorSet (infos : list ValidatorInfo) : option ValidatorSet :=
  if Nat.eqb (length infos) 0 then None
  else Some (foldl (fun vs v => SetRewardCoin (AddWithStake vs (Pubkey v) (QUICAddr v) (BLSPubkey v) (SelfStake v) (DelegatedTotal v) (Jailed v))
                                  (Pubkey v) (RewardCoin v)) (NewValidatorSet []) infos).

(** [buildValidatorSet]. *)
Definition buildValidatorSet (db : DB) (bootstrap : bool) (self : Hash) : ValidatorSet :=
  match restoreValidatorSet (default [] (LoadLiveValidators db)) with
  | Some restored => restored
  | None => if bootstrap then NewValidatorSet [self] else NewValidatorSet []
  end.

(** [MarkStateAdopted] and [HasAdoptedState] (adopted.go). *)
Definition stateAdoptedKey : bytes := metaKey "stateAdopted".

Definition MarkStateAdopted (db : DB) : DB := <[stateAdoptedKey := [1]]> db.

Definition HasAdoptedState (db : DB) : bool :=
  match db !! stateAdoptedKey with
  | None => false
  | Some mark =>
      if Nat.eqb (length mark) 0 then false
      else match db !! metaKey "commitCursor" with
      | None => false
      | Some cursor =>
          if Nat.ltb (length cursor) 8 || (be_dec (take 8 cursor) =? 0) then false
          else negb (Nat.eqb (length (default [] (LoadLiveValidators db))) 0)
      end
  end.

Definition boundaryNode : Node (gmap bytes bytes) :=
  mkNode epochDag emptyStore ∅ ∅ ∅ ∅ 0 0 [] None false ∅ 30 0 zeroHash 0 0 0 None [].

Definition afterBoundary : Node (gmap bytes bytes) := default boundaryNode (advanceCommitCursor sampleEnv epochConfig true boundaryNode 30).

(** The ledger a restart finds: the durable stores with the restored live set. *)
Definition restartedDag : DAG (gmap bytes bytes) :=
  set_ledger (n_dag afterBoundary) (set_validators (d_ledger (n_dag afterBoundary)) (buildValidatorSet (n_db afterBoundary) false (h 7))).

(** The batch of an epoch boundary holds the new epoch and cursor with the live
    validator set from before the boundary: a restart from it revives a removed validator
    whose stake was already paid back and loses the boundary's restaked rewards. *)
Theorem boundary_persists_outgoing_set :
  loadCommitCursor (n_db afterBoundary) = Some 31 /\ loadMetaUint64 (n_db afterBoundary) (metaKey "currentEpoch") = Some 3 /\
  Contains (l_validators (d_ledger (n_dag afterBoundary))) (h 8) = false /\ Contains (l_validators (d_ledger restartedDag)) (h 8) = true /\
  bonded (l_validators (d_ledger (n_dag afterBoundary))) = 486 /\ bonded (l_validators (d_ledger restartedDag)) = 600 /\
  l_coins (d_ledger restartedDag) = l_coins (d_ledger (n_dag afterBoundary)).
Proof. split_and!; vm_compute; reflexivity. Qed.

(** ** The issuance rate *)

Section Rate.
Context {M : Type}.
Implicit Type d : DAG M.

(** Whatever was persisted, a restart keeps the constructor's rate. *)
Lemma restart_keeps_genesis_rate d0 db : issuanceRateMicro (d_rewards (restoreEpochState d0 db)) = issuanceRateMicro (d_rewards d0).
Proof using.
  unfold restoreEpochState, restoreStrictLatch, restoreAccumulators, installAccumulators, restoreCommittedMembers. cbv zeta.
  repeat case_match; done.
Qed.

End Rate.

Definition withRate (d : DAG (gmap bytes bytes)) (rate : Z) : DAG (gmap bytes bytes) :=
  set_rewards d (mkRewards (epochFees (d_rewards d)) (epochRoundsProduced (d_rewards d)) rate).

Definition supplyAfterBoundary (d : DAG (gmap bytes bytes)) : option Z :=
  d' ← transitionEpoch sampleEnv epochConfig true d; cs_supply <$> l_coins (d_ledger d').

(** A node running at rate 5000 writes the batch of a regime change; its restart
    runs at the genesis rate and mints another amount at the next boundary. *)
Definition runningDag : DAG (gmap bytes bytes) := withRate epochDag 5000.

Definition rebootedDag : DAG (gmap bytes bytes) :=
  let db := saveCommitCursorBatch ∅ 30 (batchOf runningDag) in
  let d0 := mkDAG (d_ledger runningDag) (mkRegime ∅ ∅ false 0 (-1) false false false) (mkEpochs 0 None None None None None None None ∅ [])
              (mkRewards ∅ ∅ (GenesisRateMicro (thermostat epochConfig))) in
  restoreEpochState d0 db.

Theorem restart_resets_issuance :
  (forall (d0 : DAG (gmap bytes bytes)) db, issuanceRateMicro (d_rewards (restoreEpochState d0 db)) = issuanceRateMicro (d_rewards d0)) /\
  epochFees (d_rewards rebootedDag) = epochFees (d_rewards runningDag) /\
  epochRoundsProduced (d_rewards rebootedDag) = epochRoundsProduced (d_rewards runningDag) /\
  currentEpoch (d_epochs rebootedDag) = currentEpoch (d_epochs runningDag) /\
  supplyAfterBoundary runningDag ≠ supplyAfterBoundary rebootedDag.
Proof.
  split; [intros; apply restart_keeps_genesis_rate|]. split; [vm_compute; reflexivity|]. split; [vm_compute; reflexivity|].
  split; [vm_compute; reflexivity|]. vm_compute. discriminate.
Qed.
