(* ===== verification/Wiring.v ===== *)
(** * The wired node (cmd/node/aggregation.go, consensus/scanner.go)

    [initAggregation] and [initFeeSystem] plug the parts together: the pod
    executor of [Execution], the proof verifier and the rendezvous of [Attest]
    and the body hooks of the object store become the [Env] the commit path of
    [Commit] runs with.  The theorems of the commit path that ask something of
    the executor are discharged here for the real one, with the pod runtime and
    the cryptography as the only parameters left. *)

From S2P Require Import Prelude Types Fees Validators Stake Storage Tracker Domains Coins Ledger Ops Dag Commit Epoch Rewards Supply Once Clock Execution Attest.

(** What the node is built from. *)
Record Node := mkNode {
  n_crypto : Crypto;
  n_vm : PodRuntime;
  n_blst : bytes -> bytes -> list bytes -> bool;
  n_pubkey : Hash;
  n_feeParams : FeeParams;
}.

Definition EpochGraceRounds : Z := 50.

(** The validators a node shards by: the live set, followed by reference, until
    the first epoch transition of the process; the frozen holders of the last
    transition from then on. *)
Inductive Rendezvous := rendezvousLive | rendezvousFrozen (holders : ValidatorSet).

Section Wiring.
Context {M : Type} `{Pebble M} (n : Node) (c : Config).
Implicit Types (L : Ledger M) (d : DAG M) (rv : ValidatorSet) (tx : Transaction) (atx : AttestedTransaction).

(** [EpochHolders] (dag.go), from the published mirror. *)
Definition EpochHolders d : ValidatorSet :=
  default (l_validators (d_ledger d)) (epochMirror (d_epochs d) ≫= sn_holders).

(** The epoch-transition callback rebuilds the rendezvous. *)
Definition onEpochTransition d : Rendezvous := rendezvousFrozen (EpochHolders d).

Definition rendezvousSet (r : Rendezvous) d : ValidatorSet :=
  match r with rendezvousLive => l_validators (d_ledger d) | rendezvousFrozen vs => vs end.

Definition buildIsHolder rv (objectID : Hash) (replication : Z) : bool :=
  if replication =? 0 then true
  else bool_decide (n_pubkey n ∈ ComputeHolders (n_crypto n) rv objectID replication).

(** The resolver the proof verifier is built with. *)
Definition atxResolver d : EpochResolver :=
  mkResolver (HoldersForEpoch d) (commitEpochForRound c) (epochLength c) EpochGraceRounds.

Definition accepted (e : option proofError) : bool := match e with None => true | Some _ => false end.

(** The commit path's environment while it applies one transaction in [d], with
    [rv] behind the rendezvous. *)
Definition nodeEnv d rv : Env M :=
  mkEnv M (n_crypto n)
    (Some (fun atx r => accepted (Verify (n_crypto n) (n_blst n) (atxResolver d) atx r)))
    (Some (fun atxs r => map accepted (VerifyBatch (n_crypto n) (n_blst n) (atxResolver d) atxs r)))
    (Some (buildIsHolder rv))
    (ComputeHolders (n_crypto n) rv)
    (Some (stateExecutor (n_crypto n) (n_vm n) (Some (buildIsHolder rv)) (currentEpoch (d_epochs d)) (n_feeParams n)))
    DeleteObject ReparentObject.

Definition commitTx d rv atx (commitRound : Z) (verdicts : option (list bool)) :=
  executeTx (nodeEnv d rv) c d atx commitRound verdicts.

(** ** The scan after a transition (scanner.go) *)

Record ScanResult := mkScan { NeedFetch : list Hash; CanDrop : list Hash }.

Definition scanEntry (isHolder : Hash -> Z -> bool) (hasLocal : Hash -> bool) (result : ScanResult) (entry : ObjectTrackerEntry)
    : ScanResult :=
  let holder := isHolder (te_ID entry) (te_Replication entry) in
  let local := hasLocal (te_ID entry) in
  let result := if holder && negb local then mkScan (NeedFetch result ++ [te_ID entry]) (CanDrop result) else result in
  if negb holder && local then mkScan (NeedFetch result) (CanDrop result ++ [te_ID entry]) else result.

Definition scanObjects (t : M) (isHolder : Hash -> Z -> bool) (hasLocal : Hash -> bool) : ScanResult :=
  foldl (scanEntry isHolder hasLocal) (mkScan [] []) (Export t).

(** [scanObjectsForEpoch], up to the fetches it starts. *)
Definition scanObjectsForEpoch L rv : ScanResult :=
  scanObjects (l_tracker L) (buildIsHolder rv) (fun id => bool_decide (is_Some (getBody L id))).

(** ** The executor, as the commit path sees it *)

#[export] Instance node_hooks d rv : BodyHooks (nodeEnv d rv).
Proof using Type. split; intros; cbn; [done|]. unfold ReparentObject. by destruct (GetObject st id). Qed.

Lemma executor_moves d rv run L atx L' ok :
  executor (nodeEnv d rv) = Some run -> run L atx = (L', ok) ->
  if ok then exists tx output, atx_Transaction atx = Some tx /\
    n_vm n (extractPodID tx) (serializeInput tx (resolveMutableObjects L tx (atx_Objects atx))) defaultGasLimit = Some output /\
    (forall out, output = Some out -> po_Error out = 0 /\
       validateOutput (n_crypto n) (currentEpoch (d_epochs d)) L out tx (extractTxHash tx) (resolveMutableObjects L tx (atx_Objects atx)) = None) /\
    moved (createdBy (n_crypto n) (n_feeParams n) L (extractTxHash tx) tx output) L L' /\
    (length (createdBy (n_crypto n) (n_feeParams n) L (extractTxHash tx) tx output) <= length (tx_CreatedObjectsReplication tx))%nat
  else L' = L.
Proof using Type.
  intros [= <-]. unfold stateExecutor.
  pose proof (Execute_moves (n_crypto n) (n_vm n) (Some (buildIsHolder rv)) (currentEpoch (d_epochs d)) (n_feeParams n) L atx) as HM.
  destruct (Execute _ _ _ _ _ L atx) as [[L1 s] [e|]]; intros [= <- <-]; [apply HM|done].
Qed.

Lemma creations_marks rs (t : M) : sameMarks t (foldl trackCreation t rs).
Proof using Type.
  revert t. induction rs as [|[[id [[[v r] f] k]] q] rs IH]; intros t; cbn; [done|].
  etrans; [|apply IH]. apply sameMarks_track.
Qed.

(** [Once] and [Clock] ask that a run keeps the commit-once marks and feeds no frontier. *)
Lemma executor_keeps_marks d rv run L atx L' ok :
  executor (nodeEnv d rv) = Some run -> run L atx = (L', ok) -> sameMarks (l_tracker L) (l_tracker L').
Proof using Type.
  intros Hr HL. pose proof (executor_moves d rv run L atx L' ok Hr HL) as HM. destruct ok; [|by subst].
  destruct HM as (tx & out & _ & _ & _ & [_ -> _] & _). apply creations_marks.
Qed.

Lemma edges_frontier boot log rs : lastFrontier boot (log ++ map edgeOf rs) = lastFrontier boot log.
Proof using Type.
  unfold lastFrontier. rewrite foldl_app. generalize (foldl frontierStep boot log). intros m.
  induction rs as [|[[id [[[v r] f] k]] q] rs IH]; cbn; done.
Qed.

Lemma executor_keeps_front d rv run L atx L' ok boot :
  executor (nodeEnv d rv) = Some run -> run L atx = (L', ok) -> front boot L' = front boot L.
Proof using Type.
  intros Hr HL. pose proof (executor_moves d rv run L atx L' ok Hr HL) as HM. destruct ok; [|by subst].
  destruct HM as (tx & out & _ & _ & _ & [_ _ HI] & _). unfold front. rewrite HI.
  destruct (l_index L) as [log|]; [|done]. cbn. by rewrite edges_frontier.
Qed.

(** [Supply] asks that a run without created objects moves no token. *)
Lemma framed_coins L L' st :
  framed L L' -> l_coins L = Some st -> exists st', l_coins L' = Some st' /\ cs_supply st' = cs_supply st /\ cs_coins st' = cs_coins st.
Proof using Type.
  intros [_ _ _ HC] E. rewrite E in HC. destruct (l_coins L') as [st'|]; [|done]. injection HC as H1 H2 _ _. eauto.
Qed.

Lemma executor_balances d rv run L atx tx L' ok fl :
  executor (nodeEnv d rv) = Some run -> run L atx = (L', ok) ->
  atx_Transaction atx = Some tx -> tx_CreatedObjectsReplication tx = [] -> supplyAt L fl -> supplyAt L' fl.
Proof using Type.
  intros Hr HL Htx Hcr (T & st & HT & Hst & Hs). pose proof (executor_moves d rv run L atx L' ok Hr HL) as HM.
  destruct ok; [|by subst; exists T, st].
  destruct HM as (tx' & out & Htx' & _ & _ & [HF HTr _] & Hlen). rewrite Htx in Htx'. injection Htx' as <-.
  rewrite Hcr in Hlen. cbn in Hlen. destruct (createdBy _ _ _ _ _ _) as [|? ?]; [|cbn in Hlen; lia]. cbn in HTr.
  destruct (framed_coins L L' st HF Hst) as (st' & E1 & E2 & E3). exists T, st'.
  split; [by rewrite HTr|]. split; [done|]. unfold slack in *. by rewrite E2, E3, (fr_validators _ _ HF).
Qed.

(** ** Created objects *)

Definition a_trackCreation (T : gmap Hash Entry) (r : creation) : gmap Hash Entry :=
  let '(id, (version, replication, fees, kind), parent) := r in a_track T id version replication fees kind parent.

Definition wf_creation (r : creation) : Prop :=
  let '(_, (version, replication, fees, kind), parent) := r in
  is_u64 version /\ 0 <= replication < 65536 /\ is_u64 fees /\ is_byte kind /\ length parent = 32%nat.

Definition freshFor (T : gmap Hash Entry) (rs : list creation) : Prop :=
  NoDup (map creationID rs) /\ forall r, r ∈ rs -> T !! creationID r = None.

Lemma a_track_None T id v r f k p x : x <> id -> T !! x = None -> a_track T id v r f k p !! x = None.
Proof using Type.
  intros Hx Hn. pose proof (a_edge_track T id v r f k p x) as He. rewrite decide_False in He by done.
  unfold a_edge in He. rewrite Hn in He. by destruct (a_track T id v r f k p !! x).
Qed.

Lemma freshFor_cons T r rs : freshFor T (r :: rs) -> T !! creationID r = None /\ freshFor (a_trackCreation T r) rs.
Proof using Type.
  destruct r as [[id [[[v rep] f] k]] q]. intros [[Hn Hd]%NoDup_cons Hf]. split; [apply Hf; by left|]. split; [done|].
  intros r Hr. apply a_track_None; [|apply Hf; by right]. intros Hid. apply Hn. cbn. rewrite <- Hid.
  by apply list_elem_of_fmap_2.
Qed.

Lemma creations_rep rs (t : M) T :
  Rep t T -> Forall wf_creation rs -> freshFor T rs ->
  Rep (foldl trackCreation t rs) (foldl a_trackCreation T rs) /\
  deposits (foldl a_trackCreation T rs) = deposits T + sumZ (map creationFees rs).
Proof using Type.
  revert t T. induction rs as [|r rs IH]; intros t T HR Hw Hf; cbn; [split; [done|lia]|].
  apply Forall_cons in Hw as [Hr Hw]. apply freshFor_cons in Hf as [Hn Hf].
  destruct r as [[id [[[v rep] f] k]] q]. cbn in *. destruct Hr as (H1 & H2 & H3 & H4 & H5).
  destruct (IH (trackObject t id v rep f k q) (a_track T id v rep f k q)) as [HR' HD]; auto.
  { by apply Rep_track. }
  split; [done|]. rewrite HD, deposits_track, Hn. unfold sumZ. cbn. lia.
Qed.

(** ** The withheld deposit is the deposit stamped on the created objects *)

Lemma sumZ_map_zero {A} (l : list A) : sumZ (map (fun _ => 0) l) = 0.
Proof using Type. by induction l. Qed.

Lemma safeAdd_ge a b : is_u64 a -> a <= safeAdd a b.
Proof using Type. intros Ha. unfold safeAdd. cbv zeta. destruct (Z.ltb_spec (a +w b) a); u64_lia. Qed.

(** The deposit of one created object, from the header's replication. *)
Definition headerDeposit (total : Z) (p : FeeParams) (rep : Z) : Z := StorageDeposit rep total (StorageFee p) (IndexEntryFee p).

Lemma calculateTxFee_covers (E : Env M) vs p tx atx :
  wf_params p -> Forall is_u64 (tx_CreatedObjectsReplication tx) -> is_u64 (Len vs) ->
  addDeposits 0 (tx_CreatedObjectsReplication tx) (Len vs) p <= calculateTxFee E vs p tx atx.
Proof using Type.
  intros Hp Hr Hn. unfold calculateTxFee, extractCreatedObjectsReplication. cbv zeta. destruct (ReplicationRatio _ _ _ _) as [num den].
  unfold CalculateFee. cbv zeta. match goal with |- context [addDeposits (safeAdd ?a ?b) _ _ _] => set (t0 := safeAdd a b) end.
  assert (H0 : is_u64 t0) by apply safeAdd_range. clearbody t0.
  destruct (addDeposits_min 0 (tx_CreatedObjectsReplication tx) (Len vs) p) as [U1 E1]; auto; [u64_lia|].
  destruct (addDeposits_min t0 (tx_CreatedObjectsReplication tx) (Len vs) p) as [U2 E2]; auto.
  destruct (Z.ltb_spec 0 (Len vs)).
  - etrans; [|by apply safeAdd_ge]. rewrite E1, E2. u64_lia.
  - assert (Hz : addDeposits 0 (tx_CreatedObjectsReplication tx) (Len vs) p = 0).
    { rewrite E1. assert (Len vs = 0) as -> by (unfold Len in *; lia). unfold StorageDeposit. cbn.
      by rewrite sumZ_map_zero. }
    rewrite Hz. apply safeAdd_range.
Qed.

Lemma headerDeposit_u64 vs p rep : wf_params p -> is_u64 rep -> is_u64 (Len vs) -> is_u64 (headerDeposit (Len vs) p rep).
Proof using Type. intros. unfold headerDeposit. auto with u64db. Qed.

Definition headerDeposits (p : FeeParams) L tx : Z :=
  sumZ (map (headerDeposit (Len (l_validators L)) p) (tx_CreatedObjectsReplication tx)).

Lemma deductFees_withholds (E : Env M) p L tx atx L' split storage :
  feeParams c = Some p -> wf_params p -> Forall is_u64 (tx_CreatedObjectsReplication tx) -> is_u64 (Len (l_validators L)) ->
  headerDeposits p L tx <= max64 -> is_Some (l_coins L) ->
  deductFees E c L tx atx = Some (L', split, storage, true) ->
  storage = if txLocksDeposits tx then headerDeposits p L tx else 0.
Proof using Type.
  intros Hc Hp Hr Hn Hmax [st Hst]. unfold deductFees, mustFeeParams, txLocksDeposits. rewrite Hc, Hst. cbn [mbind option_bind].
  unfold hash32. destruct (decide (length (tx_GasCoin tx) = 32%nat)) as [Hg|Hg].
  2:{ rewrite bool_decide_false by done. intros Hd. congruence. }
  rewrite bool_decide_true by done. destruct (_ <? _); [done|]. destruct (negb _); [done|].
  assert (Hs : snd (calculateTxFeeSplit E (l_validators L) p tx atx) = headerDeposits p L tx /\
               0 <= fst (calculateTxFeeSplit E (l_validators L) p tx atx) /\
               fst (calculateTxFeeSplit E (l_validators L) p tx atx) + snd (calculateTxFeeSplit E (l_validators L) p tx atx) <= max64).
  { pose proof (calculateTxFee_covers E (l_validators L) p tx atx Hp Hr Hn) as Hcov.
    pose proof (calculateTxFee_range E (l_validators L) p tx atx) as Hrange.
    destruct (addDeposits_min 0 (tx_CreatedObjectsReplication tx) (Len (l_validators L)) p) as [U1 E1]; auto; [u64_lia|].
    fold (headerDeposit (Len (l_validators L)) p) in E1. fold (headerDeposits p L tx) in E1.
    unfold calculateTxFeeSplit, extractCreatedObjectsReplication. cbv zeta.
    destruct (Z.ltb_spec (calculateTxFee E (l_validators L) p tx atx) (addDeposits 0 (tx_CreatedObjectsReplication tx) (Len (l_validators L)) p)) as [Hlt|Hge]; [lia|].
    cbn [fst snd]. rewrite sub64_exact by u64_lia. rewrite E1 in *. unfold headerDeposits in *. u64_lia. }
  destruct (calculateTxFeeSplit E (l_validators L) p tx atx) as [consumed sto]. cbn [fst snd] in Hs. destruct Hs as (Hsto & H1 & H2). rewrite <- Hsto.
  destruct (Z.eqb_spec (consumed +w sto) 0) as [Hz|Hz].
  - intros [= _ _ <-].
    assert (0 <= sto). { subst sto. apply sumZ_map_nonneg. intros x Hx. rewrite Forall_forall in Hr. by apply headerDeposit_u64; [|apply Hr|]. }
    rewrite add64_exact in Hz by u64_lia. lia.
  - destruct (deductCoinFee _ _ _) as [st' [[deducted []]|]]; [by intros [= _ _ <-]|done..].
Qed.


(** What a pod must do for its creations to be paid for exactly: create the
    objects the header declares, with the replication it declares, in fields of
    their width.  The runtime checks the count from above only. *)
Definition wf_created (o : Object) : Prop :=
  is_u64 (obj_version o) /\ 0 <= obj_replication o < 65536 /\ is_byte (obj_parent_kind o).

Definition honoursHeader tx (created : list Object) : Prop :=
  map obj_replication created = tx_CreatedObjectsReplication tx /\ Forall wf_created created.

Definition podHonours atx tx : Prop :=
  forall L output, n_vm n (extractPodID tx) (serializeInput tx (resolveMutableObjects L tx (atx_Objects atx))) defaultGasLimit = Some output ->
    match output with Some out => po_Error out = 0 -> honoursHeader tx (po_Created out) | None => tx_CreatedObjectsReplication tx = [] end.

(** The identifiers of the created objects are new and pairwise distinct. *)
Definition freshIDs tx (used : gset Hash) : Prop :=
  (forall i j, (i < length (tx_CreatedObjectsReplication tx))%nat -> (j < length (tx_CreatedObjectsReplication tx))%nat ->
     computeObjectID (n_crypto n) (extractTxHash tx) i = computeObjectID (n_crypto n) (extractTxHash tx) j -> i = j) /\
  (forall i, (i < length (tx_CreatedObjectsReplication tx))%nat -> computeObjectID (n_crypto n) (extractTxHash tx) i ∉ used).

Lemma created_ids p L tx created :
  map creationID (imap (createdRecord (n_crypto n) p L (extractTxHash tx) (txLocksDeposits tx)) created) =
  imap (fun i _ => computeObjectID (n_crypto n) (extractTxHash tx) i) created.
Proof using Type. exact (fmap_imap _ _ _). Qed.

Lemma created_fresh p L tx created T :
  (length created <= length (tx_CreatedObjectsReplication tx))%nat -> freshIDs tx (dom T) ->
  freshFor T (imap (createdRecord (n_crypto n) p L (extractTxHash tx) (txLocksDeposits tx)) created).
Proof using Type.
  intros Hlen [Hinj Hnew]. split.
  - rewrite created_ids. apply NoDup_alt. intros i j x Hi Hj. rewrite list_lookup_imap in Hi, Hj.
    destruct (created !! i) eqn:Ei; [|done]. destruct (created !! j) eqn:Ej; [|done]. cbn in Hi, Hj.
    apply lookup_lt_Some in Ei, Ej. apply Hinj; [lia..|congruence].
  - intros r (i & o & -> & Ho)%elem_of_lookup_imap. apply not_elem_of_dom, Hnew.
    apply lookup_lt_Some in Ho. lia.
Qed.

Lemma created_wf p L tx created :
  wf_params p -> is_u64 (Len (l_validators L)) -> Forall wf_created created ->
  Forall wf_creation (imap (createdRecord (n_crypto n) p L (extractTxHash tx) (txLocksDeposits tx)) created).
Proof using Type.
  intros Hp Hn Hw. apply Forall_forall. intros r (i & o & -> & Ho)%elem_of_lookup_imap.
  rewrite Forall_forall in Hw. destruct (Hw o) as (H1 & H2 & H3); [by eapply list_elem_of_lookup_2|].
  unfold createdRecord. cbn. split; [done|]. split; [done|]. split; [|split; [done|]].
  - destruct (txLocksDeposits tx); [|u64_lia]. apply (headerDeposit_u64 (l_validators L) p (obj_replication o)); auto. u64_lia.
  - unfold objectOwner, hash32. by destruct (decide _).
Qed.

Lemma created_fees p L tx created :
  map obj_replication created = tx_CreatedObjectsReplication tx ->
  sumZ (map creationFees (imap (createdRecord (n_crypto n) p L (extractTxHash tx) (txLocksDeposits tx)) created)) =
  if txLocksDeposits tx then headerDeposits p L tx else 0.
Proof using Type.
  intros Hr. unfold headerDeposits. rewrite <- Hr.
  assert (Hm : map creationFees (imap (createdRecord (n_crypto n) p L (extractTxHash tx) (txLocksDeposits tx)) created) =
    map (fun o => if txLocksDeposits tx then headerDeposit (Len (l_validators L)) p (obj_replication o) else 0) created).
  { etrans; [exact (fmap_imap _ _ _)|]. etrans; [|exact (imap_const _ created)]. by apply imap_ext. }
  rewrite Hm. destruct (txLocksDeposits tx); [by rewrite map_map|]. by apply sumZ_map_zero.
Qed.

(** A successful run locks in the tracker what its creations are stamped with. *)
Lemma run_locks_deposits d rv K p run L atx tx L' T fl :
  executor (nodeEnv d rv) = Some run -> run L atx = (L', true) -> atx_Transaction atx = Some tx ->
  n_feeParams n = p -> wf_params p -> is_u64 (Len (l_validators L)) -> podHonours atx tx -> freshIDs tx (dom T) ->
  Bal K L T fl -> supplyAt L' (fl - if txLocksDeposits tx then headerDeposits p L tx else 0).
Proof using Type.
  intros Hx Hrun Htx Hnp Hp Hlen Hpod Hfresh [HR _ (st & Hst & _ & Hfl & _)].
  destruct (executor_moves d rv run L atx L' true Hx Hrun) as (tx' & output & Htx' & Hvm & Hok & HM & _).
  rewrite Htx in Htx'. injection Htx' as <-. specialize (Hpod L output Hvm). rewrite Hnp in HM.
  assert (Hcr : exists created, createdBy (n_crypto n) p L (extractTxHash tx) tx output =
      imap (createdRecord (n_crypto n) p L (extractTxHash tx) (txLocksDeposits tx)) created /\ honoursHeader tx created).
  { destruct output as [out|]; [exists (po_Created out)|exists []]; (split; [done|]); [|by split].
    apply Hpod. by apply (Hok out). }
  destruct Hcr as (created & Ecr & Hreps & Hwf). rewrite Ecr in HM. destruct HM as [HF HT _].
  assert (Hl : length created = length (tx_CreatedObjectsReplication tx)) by (by rewrite <- Hreps, length_map).
  apply Nat.eq_le_incl in Hl.
  destruct (creations_rep _ (l_tracker L) T HR (created_wf p L tx created Hp Hlen Hwf) (created_fresh p L tx created T Hl Hfresh))
    as [HR' HD].
  destruct (framed_coins L L' st HF Hst) as (st' & E1 & E2 & E3). eexists _, st'. split; [rewrite HT; exact HR'|].
  split; [done|]. unfold slack in *. rewrite HD, E2, E3, (fr_validators _ _ HF), (created_fees p L tx created Hreps). lia.
Qed.

(** ** The scan *)

Lemma scan_spec isHolder hasLocal entries result :
  let result' := foldl (scanEntry isHolder hasLocal) result entries in
  NeedFetch result' = NeedFetch result ++ map te_ID (List.filter (fun e => isHolder (te_ID e) (te_Replication e) && negb (hasLocal (te_ID e))) entries) /\
  CanDrop result' = CanDrop result ++ map te_ID (List.filter (fun e => negb (isHolder (te_ID e) (te_Replication e)) && hasLocal (te_ID e)) entries).
Proof using Type.
  cbv zeta. revert result. induction entries as [|e entries IH]; intros result; cbn; [by rewrite !app_nil_r|].
  destruct (IH (scanEntry isHolder hasLocal result e)) as [-> ->]. unfold scanEntry. cbv zeta.
  destruct (isHolder _ _), (hasLocal _); cbn; by rewrite <- ?app_assoc.
Qed.

End Wiring.

(** ** Transactions that create objects *)

Section Creation.
Context {M : Type} `{Pebble M} (n : Node) (c : Config) (K : gset Hash).
Context (params : FeeParams) (Hparams : feeParams c = Some params) (Hnode : n_feeParams n = params) (Hwf : wf_params params).
Context (Hbps : 0 <= StorageRefundBPS params <= bpsMax) (Hburn : BurnBPS params = 0).
Context (Hpos : forall a b, length (DelegationID (n_crypto n) a b) = 32%nat /\ DelegationID (n_crypto n) a b ∉ K).
Implicit Types (d : DAG M) (T : gmap Hash Entry).

Definition lastOutcome d : option FailReason := ct_Reason <$> last (l_committed (d_ledger d)).

(** Reasons recorded before a pod runs, after its deposits are withheld. *)
Definition rejectedEarly d : Prop := exists reason, lastOutcome d = Some reason /\ (reason = FailOwner \/ reason = FailAuth \/ reason = FailOps).

(** C4. On the wired node, with any pod runtime and from balanced books (the conditions of
    C3: accounted gas and staking coins, backed positions, BurnBPS = 0), a transaction
    that is not a validator registration, whose pod creates exactly what its header
    declares under fresh, distinct IDs and whose deposits fit in 64 bits, returns and
    leaves supply minus every accounted token moved by exactly the fees it reports: the
    deposits stamped on the created objects are the ones withheld from the coin, and a
    reverted run pools them; only a rejection between the withholding and the run loses
    them. *)
Theorem creation_conserves_supply d rv atx tx commitRound verdicts T R fl :
  txPre (nodeEnv n c d rv) c K d tx commitRound T R fl -> atx_Transaction atx = Some tx ->
  podHonours (M := M) n atx tx -> freshIDs n tx (dom T ∪ mutableRefIDSet tx) ->
  Forall is_u64 (tx_CreatedObjectsReplication tx) -> is_u64 (Len (l_validators (d_ledger d))) ->
  headerDeposits params (d_ledger d) tx <= max64 -> isRegisterValidatorTx c tx = false ->
  exists d' fees verdicts', commitTx n c d rv atx commitRound verdicts = Some (d', fees, verdicts') /\
    exists leaked, supplyAt (d_ledger d') (fl + fs_Epoch fees + leaked) /\ 0 <= leaked /\ (leaked = 0 \/ rejectedEarly d').
Proof using Hparams Hnode Hwf Hbps Hburn Hpos.
  intros Hpre Htx Hpod [Hinj Hnew] Hreps Hlen Hmax Hreg.
  assert (Hterm : is_u64 (MaxTermEpochs params)) by apply Hwf.
  destruct (executeTx_stages (nodeEnv n c d rv) c K params Hparams Hbps Hburn Hterm Hpos d atx tx commitRound verdicts T R fl Hpre Htx)
    as (d' & fees & vs' & HE & Hend).
  exists d', fees, vs'. split; [exact HE|].
  destruct Hend as [HS|(L & L2 & d1 & sp & storage & T1 & Hp & Hded & HvL & HcL & HdL & HB & Htx2 & Hv2 & H1 & H2 & H3 & Hz & Hdom)].
  { exists 0. rewrite Z.add_0_r. split; [done|]. split; [lia|by left]. }
  destruct (executePodCall_outcome (nodeEnv n c d rv) c K params Hparams Hbps Hpos d1 atx tx commitRound sp storage T1 _
    ltac:(by rewrite HdL) ltac:(by rewrite HdL)) as (d3 & sp3 & Hp' & Ho).
  rewrite Hp in Hp'. injection Hp' as <- <-.
  assert (Hlast : forall L b reason, d_ledger d' = emitTransaction L tx b reason -> lastOutcome d' = Some reason).
  { intros L0 b reason E. unfold lastOutcome. rewrite E. cbn. by rewrite last_snoc. }
  destruct Ho as [L0 T0 reason HL Ed -> Hr|L0 T0 HL Ed -> Hr|L0 T0 L1 ok HL HT0 Hcount Hrun Ed ->].
  - exists storage. split; [rewrite Ed; by apply supplyAt_emit, (Bal_supplyAt K _ T0)|]. split; [lia|].
    right. exists reason. split; [by eapply Hlast|done].
  - exists 0. rewrite (Hz Hr) in HL. split; [rewrite Ed; by apply supplyAt_emit, (Bal_supplyAt K _ T0)|]. split; [lia|by left].
  - exists 0. rewrite Z.add_0_r. split; [|split; [lia|by left]]. rewrite Ed. apply supplyAt_emit.
    cbn [executor nodeEnv] in Hrun.
    destruct ok.
    2:{ rewrite poolUnlockedStorage_exact, Z.add_assoc by lia.
        pose proof (executor_moves n c d rv _ L0 atx L1 false eq_refl Hrun) as ->. by apply (Bal_supplyAt K _ T0). }
    specialize (Hcount Hreg). rewrite HdL, Hv2 in Hcount.
    assert (Hd0 : headerDeposits params L0 tx = headerDeposits params (d_ledger d) tx) by (unfold headerDeposits; by rewrite Hcount).
    assert (Hst : storage = if txLocksDeposits tx then headerDeposits params (d_ledger d) tx else 0).
    { assert (HeL : headerDeposits params L tx = headerDeposits params (d_ledger d) tx) by (unfold headerDeposits; by rewrite HvL).
      rewrite <- HeL. eapply (deductFees_withholds c (nodeEnv n c d rv)); try done; [by rewrite HvL|by rewrite HeL|].
      rewrite HcL. destruct (ba_coins _ _ _ _ (tp_bal _ _ _ _ _ _ _ _ _ Hpre)) as (st & -> & _). eauto. }
    pose proof (run_locks_deposits n c d rv K params _ L0 atx tx L1 T0 (fl + fs_Epoch sp + storage) eq_refl Hrun Htx Hnode Hwf ltac:(by rewrite Hcount) Hpod) as HS.
    rewrite Hd0, <- Hst in HS. replace (fl + fs_Epoch sp) with (fl + fs_Epoch sp + storage - storage) by lia. apply HS; [|done].
    split; [done|]. intros i Hi. specialize (Hnew i Hi). set_solver.
Qed.

End Creation.

(** ** Creations keep the ownership forest *)

Section Forest.
Context {M : Type} `{Pebble M} (n : Node).
Implicit Types (L : Ledger M) (T : gmap Hash Entry) (tx : Transaction).

(** The tracker's invariant: exact child counts, the two parent kinds, every
    chain ends at a key. *)
Definition forestInv T : Prop := forest_ok T /\ kinds_ok T /\ all_rooted T.

Lemma ostep_inv T T' : ostep T T' -> forestInv T -> forestInv T'.
Proof using Type.
  intros [Hs Hk] (H1 & H2 & H3). split; [by eapply tstep_forest|]. split; [done|by eapply tstep_rooted].
Qed.

Lemma controls_tracked (t : M) T sender parent :
  Rep t T -> controls (getParent t) sender parent = true -> is_Some (T !! parent).
Proof using Type.
  intros HR. unfold controls, controllerOf. destruct (walkController _ _ _) as [k|] eqn:Ew; [|done]. intros _.
  apply walkController_spec in Ew as (m & Hr & _). apply Rooted_edge in Hr.
  destruct (Rep_reads t T parent HR) as (_ & _ & _ & E & _). rewrite E in Hr. by apply a_edge_Some.
Qed.

Lemma allowed_tracked L T T0 kind parent sender staged dp :
  Rep (l_tracker L) T0 -> dom T0 ⊆ dom T -> staged ⊆ dom T -> dp ⊆ dom T ->
  createdParentAllowed L kind parent sender staged dp = true -> kind = objectParentKind -> is_Some (T !! parent).
Proof using Type.
  intros HR HT Hs Hd. unfold createdParentAllowed. intros Ha ->. apply elem_of_dom. cbn in Ha.
  destruct (bool_decide (parent ∈ staged) || bool_decide (parent ∈ dp)) eqn:Eb.
  { apply orb_true_iff in Eb as [Eb|Eb]; apply bool_decide_eq_true in Eb; auto. }
  apply (HT parent), elem_of_dom. eapply controls_tracked; [done|exact Ha].
Qed.

Lemma kinds_ok_track T id v r f k q : kinds_ok T -> k = keyRootKind \/ k = objectParentKind -> kinds_ok (a_track T id v r f k q).
Proof using Type. intros Hk Hkk x k' q' He. rewrite a_edge_track in He. case_decide; [by simplify_eq|by eapply Hk]. Qed.

Lemma dom_track T id v r f k q : dom (a_track T id v r f k q) = {[id]} ∪ dom T.
Proof using Type.
  apply set_eq. intros x. rewrite elem_of_union, elem_of_singleton, !elem_of_dom, <- !a_edge_Some, a_edge_track.
  case_decide; [naive_solver|]. naive_solver.
Qed.

(** Accepted creations, one tracker step each. *)
Lemma created_steps p L T0 sender txHash dp b created : forall T staged i,
  Rep (l_tracker L) T0 -> createdParents (n_crypto n) L sender txHash dp staged i created = None ->
  dom T0 ⊆ dom T -> staged ⊆ dom T -> dp ⊆ dom T ->
  (forall o, o ∈ created -> obj_parent_kind o = keyRootKind \/ obj_parent_kind o = objectParentKind) ->
  freshFor T (imap (fun k => createdRecord (n_crypto n) p L txHash b (i + k)) created) ->
  forestInv T -> forestInv (foldl a_trackCreation T (imap (fun k => createdRecord (n_crypto n) p L txHash b (i + k)) created)).
Proof using Type.
  induction created as [|o created IH]; intros T staged i HR Hc HT Hs Hd Hk Hf HI; cbn in *; [done|].
  destruct (negb _) eqn:Ea; [done|]. apply negb_false_iff in Ea. apply freshFor_cons in Hf as [Hn Hf].
  rewrite (imap_ext _ (fun k => createdRecord (n_crypto n) p L txHash b (S i + k))) in *
    by (intros k x _; unfold compose; by rewrite Nat.add_succ_r).
  pose proof (Hk o ltac:(left)) as Hko. cbn in Hn. rewrite Nat.add_0_r in *.
  apply (IH _ ({[computeObjectID (n_crypto n) txHash i]} ∪ staged)); auto.
  - rewrite dom_track. set_solver.
  - rewrite dom_track. set_solver.
  - rewrite dom_track. set_solver.
  - intros o' Ho. apply Hk. by right.
  - apply (ostep_inv T); [|done]. split.
    + apply step_create; [done|]. intros Hkk. by apply (allowed_tracked L T T0 (obj_parent_kind o) (objectOwner o) sender staged dp).
    + apply kinds_ok_track; [apply HI|done].
Qed.

End Forest.

(** Accepted creations keep the tracker an ownership forest: exact child counts, no
    dangling object parent and every chain ending at a key, when the created kinds are the
    two of the protocol and referenced domains resolve to tracked objects. *)
Theorem execution_keeps_forest {M} `{Pebble M} n holder epoch p (L : Ledger M) atx L' signs tx T :
  Execute (n_crypto n) (n_vm n) holder epoch p L atx = (L', signs, None) -> atx_Transaction atx = Some tx ->
  Rep (l_tracker L) T -> forestInv T -> freshIDs n tx (dom T) ->
  (forall input out o, pi_Transaction input = tx -> n_vm n (extractPodID tx) input defaultGasLimit = Some (Some out) -> o ∈ po_Created out ->
     wf_created o /\ (obj_parent_kind o = keyRootKind \/ obj_parent_kind o = objectParentKind)) ->
  domainReferencedParents epoch L tx ⊆ dom T -> wf_params p -> is_u64 (Len (l_validators L)) ->
  exists T', Rep (l_tracker L') T' /\ forestInv T'.
Proof.
  intros HE Htx HR HI Hfresh Hpod Hdp Hp Hlen. pose proof (Execute_moves (n_crypto n) (n_vm n) holder epoch p L atx) as HM.
  rewrite HE in HM. destruct HM as (tx' & output & Htx' & Hvm & Hok & [_ HT _] & Hl). rewrite Htx in Htx'. injection Htx' as <-.
  destruct output as [out|]; [|cbn in HT; rewrite HT; eauto]. destruct (Hok out eq_refl) as [_ Hval].
  apply validateOutput_None in Hval as (_ & Hpar & _). cbn [createdBy] in *. rewrite length_imap in Hl.
  assert (Hf : freshFor T (imap (createdRecord (n_crypto n) p L (extractTxHash tx) (txLocksDeposits tx)) (po_Created out))) by (by apply created_fresh).
  assert (Hw : Forall wf_created (po_Created out))
    by (apply Forall_forall; intros o Ho; by apply (Hpod (serializeInput tx _) out o eq_refl Hvm Ho)).
  destruct (creations_rep _ (l_tracker L) T HR (created_wf n p L tx _ Hp Hlen Hw) Hf) as [HR' _].
  eexists. split; [rewrite HT; exact HR'|].
  refine (created_steps n p L T (extractSender tx) (extractTxHash tx) (domainReferencedParents epoch L tx) (txLocksDeposits tx)
    (po_Created out) T ∅ 0 HR Hpar _ _ Hdp _ Hf HI).
  - done.
  - set_solver.
  - intros o Ho. by apply (Hpod (serializeInput tx _) out o eq_refl Hvm Ho).
Qed.

(** ** A node of the sample network

    Its only pod creates one singleton per call, owned by the caller. *)

Definition singletonFor (owner : Hash) : Object := mkObject (h 0) 0 owner 0 [1; 2; 3] 0 0.
Definition mintPod : PodRuntime := fun _ input _ => Some (Some (mkPodOutput 0 [] [singletonFor (pi_Sender input)] [] [])).

Definition sampleNode : Node := mkNode sampleCrypto mintPod toyBlst (h 7) DefaultFeeParams.

Definition mintTx : Transaction :=
  mkTransaction (9 :: replicate 10 7 ++ replicate 21 0) [] [] [0] (h 7) (replicate 64 1) (h 4) (str "create") [] 100 (h 1)
    [] [] 0 [] [].
Definition mintAtx : AttestedTransaction := mkAtx (Some mintTx) [] [] 0.
Definition mintResult := commitTx sampleNode sampleConfig bondDag bondValidators mintAtx 3 None.

Lemma mintPre : txPre (nodeEnv sampleNode sampleConfig bondDag bondValidators) sampleConfig bondCoins bondDag mintTx 3 sampleEntries
  (<[str "new" := sampleLeaf 90]> (<[str "old" := sampleLeaf 5]> ∅)) 1925.
Proof.
  split; [exact bondLedger_bal|exact sampleRegistry_rep|exact sampleEntries_forest|vm_compute; reflexivity| | |].
  - split.
    + apply List.Forall_nil.
    + intros g Hg. vm_compute in Hg. injection Hg as <-. apply (bool_decide_unpack _). vm_compute. exact I.
    + intros Hs. vm_compute in Hs. discriminate.
    + intros Hu. vm_compute in Hu. discriminate.
    + right. vm_compute. reflexivity.
  - apply List.Forall_nil.
  - vm_compute. split; congruence.
Qed.

Lemma mintPod_honours : podHonours (M := gmap bytes bytes) sampleNode mintAtx mintTx.
Proof.
  intros L output [= <-] _. split; [done|]. repeat constructor; cbn; u64_lia.
Qed.

Lemma DefaultFeeParams_wf : wf_params DefaultFeeParams.
Proof. split; vm_compute; split; congruence. Qed.

Theorem creation_conserves_supply_witness :
  (mintResult ≫= fun r => Some (fs_Epoch (snd (fst r)), lastOutcome (fst (fst r)))) = Some (100, Some FailNone) /\
  exists d' fees verdicts', mintResult = Some (d', fees, verdicts') /\
    exists leaked, supplyAt (d_ledger d') (1925 + fs_Epoch fees + leaked) /\ 0 <= leaked /\ (leaked = 0 \/ rejectedEarly d').
Proof.
  split; [vm_compute; reflexivity|].
  refine (creation_conserves_supply sampleNode sampleConfig bondCoins DefaultFeeParams _ _ DefaultFeeParams_wf _ _ sampleHash_fresh
    bondDag bondValidators mintAtx mintTx 3 None _ _ 1925 mintPre _ mintPod_honours _ _ _ _ _).
  - reflexivity.
  - reflexivity.
  - vm_compute. split; congruence.
  - reflexivity.
  - reflexivity.
  - split.
    + intros [|i] [|j]; cbn; lia.
    + intros [|i]; cbn [length mintTx tx_CreatedObjectsReplication]; [|lia]. intros _. apply (bool_decide_unpack _). vm_compute. exact I.
  - repeat constructor; vm_compute; congruence.
  - vm_compute. split; congruence.
  - vm_compute. congruence.
  - reflexivity.
Defined.
