(* ===== verification/Exposures.v ===== *)
(** * Where execution departs from what it promises (commit.go, state.go,
    output_validation.go, pods/pod-system)

    A copy nobody proved is taken for the object, on any node with the system pod
    loaded; then concrete commits, in which key 8 owns coin 3 and signs nothing and
    key 7 is a validator that owns coin 1. *)

From S2P Require Import Prelude Types Fees Validators Stake Storage Tracker Domains Coins Ledger Ops Ingress Dag Commit Supply Leaks Execution Attest Wiring SystemPod.

Definition podNode : Node := mkNode sampleCrypto (idealRuntime (fun _ _ => []) (h 0)) toyBlst (h 7) DefaultFeeParams.

Definition victimCoin : Object := mkObject (h 3) 0 (h 8) 0 (le_enc 8 3000) 0 0.
Definition townStore : CoinStore :=
  mkCoinStore (<[h 3 := victimCoin]> (cs_objects bondStore)) 12000 8000 None None.
Definition townDag : DAG (gmap bytes bytes) := set_ledger bondDag (set_coins bondLedger (Some townStore)).

Definition call (fn args : bytes) (refs : list TxRef) (created : list Z) : Transaction :=
  mkTransaction [] [] refs created (h 7) (replicate 64 1) (h 0) fn args 100 (h 1) [] [] 0 [] [].

(** A commit of [tx] with the copies [objects] and no quorum proof. *)
Definition commitCall (d : DAG (gmap bytes bytes)) (tx : Transaction) (objects : list Object) : option (DAG (gmap bytes bytes) * FeeSplit) :=
  r ← commitTx podNode sampleConfig d bondValidators (mkAtx (Some (sealTx tx)) objects [] 0) 3 None; Some (fst r).

Definition stakeOf (d : DAG (gmap bytes bytes)) (pk : Hash) : Z := default 0 (SelfStake <$> Validators.Get (l_validators (d_ledger d)) pk).
Definition balOf (d : DAG (gmap bytes bytes)) (id : Hash) : Z := default 0 ((fun st => balanceOf st id) <$> l_coins (d_ledger d)).
Definition ownerOf (d : DAG (gmap bytes bytes)) (id : Hash) : option bytes := obj_owner <$> getBody (d_ledger d) id.

(** ** Copies without a proof *)

(** A copy of coin 3 that names key 7 as its owner. *)
Definition forgedCopy (rep : Z) (content : bytes) : Object := mkObject (h 3) 0 (h 7) rep content 0 0.

(** An unproven carried copy decides who owns a mutable reference: key 7 bonds the
    coin of key 8. *)
Theorem unproven_copy_spends_another_coin :
  match commitCall townDag (call bondFunc (le_enc 8 2000) [mkTxRef (h 3) 0 []] []) [forgedCopy 1 []] with
  | None => False
  | Some (d, _) =>
      ownerOf townDag (h 3) = Some (h 8) /\ lastOutcome d = Some FailNone /\
      balOf townDag (h 3) - balOf d (h 3) = 2000 /\ stakeOf d (h 7) - stakeOf townDag (h 7) = 2000
  end.
Proof. vm_compute. split_and!; reflexivity. Qed.

(** A call of [merge] with no reference at all. *)
Definition mergeCall (hash : Hash) (sender sig : bytes) (pod : Hash) (maxGas : Z) (gasCoin : bytes) : Transaction :=
  mkTransaction hash [] [] [] sender sig pod (str "merge") [] maxGas gasCoin [] [] 0 [] [].

(** A copy of an object made up by its alleged owner. *)
Definition madeUp (id : Hash) (version : Z) (owner : bytes) (balance : Z) : Object := mkObject id version owner 0 (le_enc 8 balance) 0 0.

Section Forgery.
Context {M : Type} `{Pebble M} (cr : Crypto) (vm : PodRuntime) (holder : option (Hash -> Z -> bool)) (epoch : Z) (p : FeeParams) (vc : Hash -> bytes -> bytes).
Implicit Type L : Ledger M.

Lemma coin_reads (b : Z) : is_u64 b -> try_from_slice rd_coin (le_enc 8 b) = Some b.
Proof using Type.
  intros Hb. unfold try_from_slice, rd_coin, rd_uint, rd_bind, rd_take, rd_ret. rewrite length_le_enc. cbn [Nat.ltb Nat.leb mbind option_bind].
  rewrite take_ge, drop_ge by (rewrite length_le_enc; lia). rewrite le_dec_enc; [done|]. unfold is_u64 in Hb. cbn. lia.
Qed.

(** The pod merges the two copies it is handed. *)
Lemma pod_merges_copies hash sender sig pod maxGas gasCoin id other v w b :
  length sender = 32%nat -> length id = 32%nat -> length other = 32%nat -> is_u64 b ->
  systemExecute vc (serializeInput (mergeCall hash sender sig pod maxGas gasCoin) [madeUp id v sender b; madeUp other w sender 0]) =
  mkPodOutput 0 [madeUp id v sender b; madeUp other w sender 0] [] [] [].
Proof using Type.
  intros Hs Hi Ho Hb. assert (H32 : forall x : bytes, length x = 32%nat -> hash32 x = Some x) by (intros x Hx; by apply hash32_Some). unfold systemExecute, dispatch. cbn [serializeInput pi_Transaction mergeCall tx_FunctionName].
  do 4 rewrite bool_decide_false by done. rewrite bool_decide_true by done. unfold fn_merge, ctx_args. cbn [serializeInput pi_Transaction mergeCall tx_Args].
  change (try_from_slice (rd_ret tt) []) with (Some tt). unfold object_count. cbn [pi_LocalObjects map length Nat.ltb Nat.leb serializeInput seq sum_from].
  unfold ctx_object. cbn [serializeInput pi_LocalObjects map lookup list_lookup mbind option_bind rebuildObject madeUp obj_content obj_id obj_version obj_owner obj_replication obj_fees].
  rewrite !coin_reads by (done || unfold is_u64; lia). unfold is_u64 in Hb. destruct (Z.ltb_spec max64 (0 + b)); [u64_lia|]. rewrite Z.add_0_l.
  destruct (Z.ltb_spec max64 (b + 0)); [u64_lia|]. rewrite Z.add_0_r.
  unfold build_result, updated_coin, object_meta, object_count. cbn [serializeInput pi_LocalObjects map lookup list_lookup mbind option_bind rebuildObject madeUp obj_id obj_owner obj_version obj_replication length Nat.sub seq].
  rewrite !H32 by done. cbn [mbind option_bind empty_sources]. unfold updated_coin, object_meta.
  cbn [serializeInput pi_LocalObjects map lookup list_lookup mbind option_bind rebuildObject madeUp obj_id obj_owner obj_version obj_replication].
  rewrite !H32 by done. reflexivity.
Qed.

(** The bodies after the run. *)
Lemma copies_are_written L hash sender sig pod maxGas gasCoin id other v w b st proofs epoch0 :
  length hash = 32%nat -> length sender = 32%nat -> length pod = 32%nat -> length id = 32%nat -> length other = 32%nat -> id <> other -> is_u64 b -> l_coins L = Some st ->
  (forall input gas, vm pod input gas = Some (Some (systemExecute vc input))) ->
  exists L', stateExecutor cr vm holder epoch p L (mkAtx (Some (mergeCall hash sender sig pod maxGas gasCoin)) [madeUp id v sender b; madeUp other w sender 0] proofs epoch0) = (L', true) /\
    getBody L' id = Some (madeUp id (v +w 1) sender b) /\ framed L L'.
Proof using Type.
  intros Hh Hs Hp Hi Ho Hne Hb Hst Hvm. unfold stateExecutor, Execute. cbn [atx_Transaction atx_Objects]. unfold resolveMutableObjects. cbn [mergeCall tx_MutableRefs omap list_omap app].
  fold (mergeCall hash sender sig pod maxGas gasCoin). unfold extractPodID. cbn [mergeCall tx_Pod]. rewrite (proj2 (hash32_Some pod pod) (conj eq_refl Hp)). cbn [default].
  fold (mergeCall hash sender sig pod maxGas gasCoin). rewrite Hvm, pod_merges_copies by done. cbn [processOutput po_Error]. change (negb (0 =? 0)) with false. cbv iota.
  assert (Ei : objectIDOf (madeUp id v sender b) = id) by (unfold objectIDOf; cbn [madeUp obj_id]; by rewrite (proj2 (hash32_Some id id) (conj eq_refl Hi))).
  assert (Eo : objectIDOf (madeUp other w sender 0) = other) by (unfold objectIDOf; cbn [madeUp obj_id]; by rewrite (proj2 (hash32_Some other other) (conj eq_refl Ho))).
  assert (Hval : validateOutput cr epoch L (mkPodOutput 0 [madeUp id v sender b; madeUp other w sender 0] [] [] []) (mergeCall hash sender sig pod maxGas gasCoin)
    (extractTxHash (mergeCall hash sender sig pod maxGas gasCoin)) [madeUp id v sender b; madeUp other w sender 0] = None).
  { unfold validateOutput, validateCreationLimits, validateDomainRegistrations, validateCreatedParents, validateParentImmutability, validateOutputDeletions, inputsByID.
    cbn [po_Created po_RegisteredDomains po_Updated po_Deleted length Nat.ltb Nat.leb Nat.eqb createdParents foldl parentsUnchanged].
    rewrite Ei, Eo, lookup_insert_ne, lookup_insert_eq by done. cbn [madeUp obj_parent_kind obj_owner]. rewrite !bool_decide_true by done. cbn [Z.eqb negb orb]. rewrite lookup_insert_eq.
    cbn [obj_parent_kind obj_owner]. by rewrite bool_decide_true. }
  rewrite Hval. cbn [po_Updated po_Created applyUpdatedObjects applyCreatedObjects applyUpdatedObject].
  assert (Xi : extractObjectID (rebuildObjectIncrementVersion (madeUp id v sender b)) = id) by (unfold extractObjectID; cbn; by rewrite (proj2 (hash32_Some id id) (conj eq_refl Hi))).
  assert (Xo : extractObjectID (rebuildObjectIncrementVersion (madeUp other w sender 0)) = other) by (unfold extractObjectID; cbn; by rewrite (proj2 (hash32_Some other other) (conj eq_refl Ho))).
  rewrite Xi, Xo. exists (putBody (putBody L id (rebuildObjectIncrementVersion (madeUp id v sender b))) other (rebuildObjectIncrementVersion (madeUp other w sender 0))). split; [reflexivity|]. split.
  - rewrite !getBody_put. rewrite bool_decide_false, bool_decide_true by done. by rewrite Hst.
  - split; cbn; rewrite ?Hst; done.
Qed.

End Forgery.

(** Whoever owns an object, any key that can pay the fee of a call takes it, with a
    balance it names: the copies travel without a proof, and the system pod writes them
    back. *)

(** C6. A copy carried without a quorum proof is taken as the object. On any node with the
    system pod loaded, for any sender key, any object ID and any 64-bit balance: a call of
    merge with no references that carries a made-up copy of the object and of one other,
    once it passes the checks before fees and pays, commits with success and makes the
    stored body of that object the sender's, with the chosen balance, whoever it belonged
    to, while the supply counters stay as they were. *)
Theorem unproven_copy_takes_an_object {M} `{Pebble M} (n : Node) (c : Config) (d : DAG M) rv vc hash sender sig maxGas gasCoin pod id other v w b round L split deposit st :
  length hash = 32%nat -> length sender = 32%nat -> length pod = 32%nat -> length id = 32%nat -> length other = 32%nat -> id <> other -> is_u64 b ->
  (forall input gas, n_vm n pod input gas = Some (Some (systemExecute vc input))) ->
  let tx := mergeCall hash sender sig pod maxGas gasCoin in
  let atx := mkAtx (Some tx) [madeUp id v sender b; madeUp other w sender 0] [] 0 in
  preCheck (nodeEnv n c d rv) c tx round true = None -> wasCommitted (l_tracker (d_ledger d)) hash = false ->
  deductFees (nodeEnv n c d rv) c (d_ledger (readyToPay d tx hash)) tx atx = Some (L, split, deposit, true) -> l_coins L = Some st ->
  exists d', commitTx n c d rv atx round None = Some (d', split, None) /\ lastOutcome d' = Some FailNone /\
    getBody (d_ledger d') id = Some (madeUp id (v +w 1) sender b) /\ counters <$> l_coins (d_ledger d') = counters <$> l_coins L.
Proof.
  intros Hh Hs Hp Hi Ho Hne Hb Hvm tx atx Hpre Hnew Hfee Hst. unfold commitTx.
  rewrite (passes_to_fees (nodeEnv n c d rv) c d atx tx round hash None None true); [|reflexivity|by apply hash32_Some|reflexivity|done..].
  unfold fromFees. rewrite Hfee. cbn [mbind option_bind negb]. change (length (tx_Operations tx)) with 0%nat. cbn [Nat.eqb negb].
  set (d1 := set_ledger (readyToPay d tx hash) L).
  destruct (copies_are_written (n_crypto n) (n_vm n) (Some (buildIsHolder n rv)) (currentEpoch (d_epochs d)) (n_feeParams n) vc L hash sender sig pod maxGas gasCoin id other v w b st [] 0
    Hh Hs Hp Hi Ho Hne Hb Hst Hvm) as (L' & Erun & Hbody & Hframe).
  assert (Ex : executePodCall (nodeEnv n c d rv) c d1 atx tx round split deposit = Some (emitTx (set_ledger d1 L') tx true FailNone, split)).
  { unfold executePodCall. assert (Hown : validateMutableRefOwnership (d_ledger d1) atx tx = true) by (unfold validateMutableRefOwnership; by destruct (l_coins _)). rewrite Hown. cbn [negb].
    assert (Hno : forall fn, fn <> str "merge" -> isSystemFunc c tx fn = false) by (intros fn Hfn; unfold isSystemFunc; rewrite (bool_decide_false (tx_FunctionName tx = fn)) by (by intros <-); by rewrite andb_false_r).
    unfold handleRegisterValidator, isRegisterValidatorTx. rewrite Hno by done. cbn [negb mbind option_bind].
    unfold handleDeregisterValidator, isDeregisterValidatorTx. rewrite Hno by done. cbn [negb].
    unfold handleBond, handleUnbond, handleDelegate, handleUndelegate, parseStakeTx, parseDelegateTx, isBondTx, isUnbondTx, isDelegateTx, isUndelegateTx. rewrite !Hno by done. cbn [negb].
    rewrite !orb_true_r. cbn [fst]. unfold settleDeclaredDeletions, ownedDeletedRefs. cbn [tx mergeCall tx_MutableRefs takeDeleted length Nat.eqb mbind option_bind negb].
    cbn [tx_CreatedObjectsReplication length Nat.eqb andb]. unfold shouldExecute. cbn [nodeEnv isHolder executor tx_MutableRefs existsb orb length Nat.eqb negb]. fold (mergeCall hash sender sig pod maxGas gasCoin). fold tx. fold atx.
    match goal with |- context [stateExecutor ?a ?b ?h ?e ?q ?l ?x] => replace (stateExecutor a b h e q l x) with (L', true) by (symmetry; exact Erun) end. by destruct d1. }
  rewrite Ex. cbn [mbind option_bind fst snd]. eexists. split; [reflexivity|]. split_and!.
  - unfold lastOutcome, emitTx, emitTransaction. cbn. by rewrite last_snoc.
  - exact Hbody.
  - apply Hframe.
Qed.

(** Key 7 takes the coin of key 8 and gives it five million. *)
Definition takingCall : Transaction := sealTx (mergeCall [] (h 7) (replicate 64 1) (h 0) 100 (h 1)).
Definition takingCopies : list Object := [madeUp (h 3) 0 (h 7) 5000000; madeUp (h 99) 0 (h 7) 0].

Lemma unproven_copy_takes_an_object_witness :
  ownerOf townDag (h 3) = Some (h 8) /\
  exists d' split, commitTx podNode sampleConfig townDag bondValidators (mkAtx (Some takingCall) takingCopies [] 0) 3 None = Some (d', split, None) /\
    getBody (d_ledger d') (h 3) = Some (madeUp (h 3) 1 (h 7) 5000000).
Proof.
  split; [vm_compute; reflexivity|].
  destruct (deductFees (nodeEnv podNode sampleConfig townDag bondValidators) sampleConfig (d_ledger (readyToPay townDag takingCall (tx_Hash takingCall))) takingCall
    (mkAtx (Some takingCall) takingCopies [] 0)) as [[[[L split] deposit] proceed]|] eqn:Ef; [|vm_compute in Ef; discriminate Ef].
  assert (Hg : proceed = true /\ exists st, l_coins L = Some st).
  { vm_compute in Ef. injection Ef as <- _ _ <-. split; [reflexivity|]. eexists. reflexivity. }
  destruct Hg as [-> [st Hst]].
  destruct (unproven_copy_takes_an_object podNode sampleConfig townDag bondValidators (fun _ _ => []) (tx_Hash takingCall) (h 7) (replicate 64 1) 100 (h 1) (h 0) (h 3) (h 99) 0 0 5000000 3 L split deposit st)
    as (d' & E & _ & Hb & _); [reflexivity..|by vm_compute|unfold is_u64; lia|reflexivity|vm_compute; reflexivity|vm_compute; reflexivity|exact Ef|exact Hst|].
  exists d', split. split; [exact E|exact Hb].
Defined.

(** ** The header and the pod's creations *)

(** The header declares one copy, the pod creates an object with 1000: the deposit
    locked in the tracker is not the one taken from the coin. *)
Definition wideArgs : bytes := h 7 ++ le_enc 2 1000 ++ borshVec [1].

Theorem stamped_deposit_exceeds_the_withheld_one :
  match commitCall townDag (call (str "create_object") wideArgs [] [1]) [] with
  | None => False
  | Some (d, fees) =>
      let id := computeObjectID sampleCrypto (extractTxHash (sealTx (call (str "create_object") wideArgs [] [1]))) 0 in
      lastOutcome d = Some FailNone /\ getReplication (l_tracker (d_ledger d)) id = 1000 /\
      coinsOf townDag - coinsOf d = fs_Epoch fees + headerDeposit 1 DefaultFeeParams 1 /\
      getFees (l_tracker (d_ledger d)) id = headerDeposit 1 DefaultFeeParams 1000 /\
      headerDeposit 1 DefaultFeeParams 1 < headerDeposit 1 DefaultFeeParams 1000
  end.
Proof. vm_compute. split_and!; reflexivity. Qed.

(** ** Effects of reverted transactions *)

(** One byte after the amount: the commit handler ignores it, the pod refuses it.
    The transaction is reported reverted and its bond stays. *)
Theorem reverted_bond_takes_effect :
  match commitCall townDag (call bondFunc (le_enc 8 20 ++ [0]) [mkTxRef (h 1) 1 []] []) [] with
  | None => False
  | Some (d, _) => lastOutcome d = Some FailRevert /\ stakeOf d (h 7) - stakeOf townDag (h 7) = 20
  end.
Proof. vm_compute. split_and!; reflexivity. Qed.

(** The arguments [EncodeRegisterValidatorArgs] builds for an explicit reward coin
    carry a fourth vector the pod's argument type has not: such a registration is
    reported reverted, without its validator object, and registers. *)
Definition registerArgs (coin : bytes) : bytes := borshVec (str "n:1") ++ borshVec [] ++ borshVec [] ++ coin.

Definition registerCall (coin : bytes) : Transaction :=
  mkTransaction [] [] [] [0] (h 6) (replicate 64 1) (h 0) registerValidatorFunc (registerArgs coin) 100 [] [] [] 0 [] [].

Theorem reward_coin_registration_reverts :
  (lastOutcome <$> (fst <$> commitCall townDag (registerCall []) [])) = Some (Some FailNone) /\
  match commitCall townDag (registerCall (borshVec (h 1))) [] with
  | None => False
  | Some (d, _) =>
      lastOutcome d = Some FailRevert /\ RewardCoin <$> Validators.Get (l_validators (d_ledger d)) (h 6) = Some (h 1)
  end.
Proof. vm_compute. split_and!; reflexivity. Qed.
