(* ===== verification/Runs.v ===== *)
(** * What one execution may do (internal/state)

    The theorems of [Execution] on a whole run, with sample runs of the system
    pod: how far the effect of a transaction reaches, and that nodes which
    store different objects still reach the same verdict and the same shared
    state. *)

From S2P Require Import Prelude Types Fees Validators Stake Storage Tracker Domains Coins Ledger Ops Ingress Dag Commit Supply Leaks Execution Attest Wiring SystemPod Transfers Exposures.

(** C33. A failed execution changes nothing and signs nothing. A successful one leaves
    every body it does not name alone, leaves every stored mutable reference one version
    up, and keeps the owner of every object it did not create, in the body and in the
    signed attestation, when the copies the pod worked on had that owner. *)
Theorem run_effect_is_bounded {M} `{Pebble M} cr vm holder epoch p (L : Ledger M) atx tx :
  atx_Transaction atx = Some tx ->
  let inputs := inputsByID (resolveMutableObjects L tx (atx_Objects atx)) in
  match Execute cr vm holder epoch p L atx with
  | (L', signs, Some _) => L' = L /\ signs = []
  | (L', signs, None) =>
      (forall x, ~ createsID cr tx x -> x ∉ coinRefs tx -> inputs !! x = None ->
         x ∉ decodeKeys (length (tx_DeletedObjects tx) / 32) (tx_DeletedObjects tx) -> getBody L' x = getBody L x) /\
      (forall r x, r ∈ tx_MutableRefs tx -> mutableRefID r = Some x ->
         (forall r', r' ∈ tx_MutableRefs tx -> mutableRefID r' = Some x -> ref_version r' = ref_version r) ->
         bodyAt x (fun o => obj_version o = ref_version r +w 1) L') /\
      (forall x owner, ~ createsID cr tx x -> bodyAt x (fun o => obj_owner o = owner) L ->
         (forall o, inputs !! x = Some o -> obj_owner o = owner) ->
         bodyAt x (fun o => obj_owner o = owner) L' /\ forall r, r ∈ signs -> sr_id r = x -> sr_owner r = owner)
  end.
Proof.
  intros Htx. cbv zeta. pose proof (Execute_moves cr vm holder epoch p L atx) as HM.
  destruct (Execute cr vm holder epoch p L atx) as [[L' signs] [e|]] eqn:HE; [done|]. split_and!.
  - intros x H1 H2 H3 H4. by eapply Execute_untouched.
  - intros r x H1 H2 H3. by eapply Execute_version.
  - intros x owner H1 H2 H3. by eapply Execute_parent.
Qed.

(** C5. Two nodes that share the tracker, the registry, the validators and the index but
    store different bodies and shard by different predicates, and have the same bodies of
    the mutable objects that are not carried, execute a transaction with the same verdict,
    the same tracker, index and registry, and the same body wherever they agreed and shard
    alike. *)
Theorem sharded_nodes_agree {M} `{Pebble M} cr vm h1 h2 epoch p (L1 L2 : Ledger M) atx :
  agrees L1 L2 -> is_Some (l_coins L1) -> is_Some (l_coins L2) -> sameUncarried atx L1 L2 ->
  let '(L1', _, e1) := Execute cr vm h1 epoch p L1 atx in
  let '(L2', _, e2) := Execute cr vm h2 epoch p L2 atx in
  e1 = e2 /\ agrees L1' L2' /\
  forall x, getBody L1 x = getBody L2 x -> (forall rep, held h1 x rep = held h2 x rep) -> getBody L1' x = getBody L2' x.
Proof. apply Execute_agrees. Qed.

(** ** Sample runs *)

Definition townVM : PodRuntime := idealRuntime (fun _ _ => []) (h 0).
Definition townLedger : Ledger (gmap bytes bytes) := d_ledger townDag.

(** Key 7 overwrites the replicated object 5, carried at version 4. *)
Definition replica : Object := mkObject (h 5) 4 (h 7) 3 (borshVec [1]) 0 0.
Definition writeTx : Transaction := call (str "set_object") (h 5 ++ borshVec [2; 2]) [mkTxRef (h 5) 4 []] [].
Definition writeAtx : AttestedTransaction := mkAtx (Some writeTx) [replica] [] 0.

(** One node stores object 5, the other does not. *)
Definition holderLedger : Ledger (gmap bytes bytes) := putBody townLedger (h 5) replica.
Definition everything : option (Hash -> Z -> bool) := Some (fun _ _ => true).
Definition singletonsOnly : option (Hash -> Z -> bool) := Some (fun _ rep => rep =? 0).

Definition runOn (holder : option (Hash -> Z -> bool)) (L : Ledger (gmap bytes bytes)) :=
  Execute sampleCrypto townVM holder 0 DefaultFeeParams L writeAtx.

Theorem run_effect_is_bounded_witness :
  atx_Transaction writeAtx = Some writeTx /\
  match runOn everything holderLedger with
  | (L', signs, Some _) => False
  | (L', signs, None) => getBody L' (h 3) = getBody holderLedger (h 3) /\ bodyAt (h 5) (fun o => obj_version o = 5) L' /\
      map sr_version signs = [5]
  end.
Proof.
  split; [reflexivity|].
  pose proof (run_effect_is_bounded sampleCrypto townVM everything 0 DefaultFeeParams holderLedger writeAtx writeTx eq_refl) as HR.
  cbv zeta in HR. unfold runOn. destruct (Execute _ _ _ _ _ _ _) as [[L' signs] [e|]] eqn:HE.
  { vm_compute in HE. discriminate HE. }
  destruct HR as (H1 & H2 & _). split_and!.
  - apply H1.
    + intros (k & Hk & _). cbn in Hk. lia.
    + apply (bool_decide_unpack _). vm_compute. exact I.
    + vm_compute. reflexivity.
    + apply not_elem_of_nil.
  - apply (H2 (mkTxRef (h 5) 4 []) (h 5)); [left|reflexivity|]. intros r' ->%list_elem_of_singleton _. reflexivity.
  - assert (Hs : snd (fst (Execute sampleCrypto townVM everything 0 DefaultFeeParams holderLedger writeAtx)) = signs) by (by rewrite HE).
    rewrite <- Hs. vm_compute. reflexivity.
Defined.

Theorem sharded_nodes_agree_witness :
  getBody holderLedger (h 5) = Some replica /\ getBody townLedger (h 5) = None /\
  let '(L1', _, e1) := runOn everything holderLedger in
  let '(L2', _, e2) := runOn singletonsOnly townLedger in
  e1 = e2 /\ agrees L1' L2' /\
  forall x, getBody holderLedger x = getBody townLedger x ->
    (forall rep, held everything x rep = held singletonsOnly x rep) -> getBody L1' x = getBody L2' x.
Proof.
  split; [vm_compute; reflexivity|]. split; [vm_compute; reflexivity|]. unfold runOn.
  apply (sharded_nodes_agree sampleCrypto townVM everything singletonsOnly 0 DefaultFeeParams holderLedger townLedger writeAtx).
  - by split.
  - eexists. reflexivity.
  - eexists. reflexivity.
  - intros tx r id [= <-] ->%list_elem_of_singleton [= <-] Hc. exfalso. apply Hc.
    apply (bool_decide_unpack _). vm_compute. exact I.
Defined.

(** ** A split *)

Definition splitTx : Transaction := call (str "split") (le_enc 8 700 ++ h 8) [mkTxRef (h 1) 1 []] [0].
Definition splitAtx : AttestedTransaction := mkAtx (Some splitTx) [] [] 0.

Definition after {A B C} (r : A * B * C) : A := fst (fst r).

Theorem coin_calls_keep_the_counter_witness :
  coinCall sampleCrypto bondCoins splitAtx splitTx /\
  exists st', l_coins (after (Execute sampleCrypto townVM everything 0 DefaultFeeParams bondLedger splitAtx)) = Some st' /\
    cs_supply st' = cs_supply bondStore /\ cs_coins st' = cs_coins bondStore /\
    coins_ok (coinsAfter sampleCrypto bondCoins splitTx) st'.
Proof.
  assert (HC : coinCall sampleCrypto bondCoins splitAtx splitTx).
  { split.
    - reflexivity.
    - left. reflexivity.
    - reflexivity.
    - split; [apply (bool_decide_unpack _); vm_compute; exact I|].
      intros id Hid. vm_compute in Hid. apply list_elem_of_singleton in Hid as ->. apply (bool_decide_unpack _). vm_compute. exact I.
    - vm_compute. repeat constructor; discriminate.
    - reflexivity.
    - apply (bool_decide_unpack _). vm_compute. exact I. }
  split; [exact HC|].
  destruct (Execute sampleCrypto townVM everything 0 DefaultFeeParams bondLedger splitAtx) as [[L' signs] e] eqn:HE.
  assert (He : e = None) by (assert (snd (Execute sampleCrypto townVM everything 0 DefaultFeeParams bondLedger splitAtx) = e) as <- by (by rewrite HE); vm_compute; reflexivity).
  rewrite He in HE. cbn [after fst].
  refine (coin_calls_keep_the_counter sampleCrypto (fun _ _ => []) (h 0) townVM everything 0 DefaultFeeParams _ _
    bondCoins bondLedger bondStore splitAtx splitTx L' signs HC _ bondStore_ok HE).
  - intros m. unfold sampleCrypto. cbn [blake3 length]. f_equal. rewrite length_take, length_app, length_replicate. lia.
  - reflexivity.
  - reflexivity.
Defined.

(** ** The forest after a split *)

Lemma sampleEntries_inv : forestInv sampleEntries.
Proof.
  apply reachable_invariant. unfold sampleEntries.
  eapply rtc_l; [split; [apply (step_create ∅ (h 1) 1 0 1025 0 (h 7)); [done|discriminate]|apply kinds_ok_of_list; vm_compute; reflexivity]|].
  eapply rtc_l; [split; [apply (step_create _ (h 2) 0 0 1000 1 (h 1)); [done|vm_compute; eauto]|apply kinds_ok_of_list; vm_compute; reflexivity]|].
  apply rtc_once. split; [apply (step_create _ (h 3) 0 0 0 0 (h 8)); [done|discriminate]|apply kinds_ok_of_list; vm_compute; reflexivity].
Qed.

(** Whatever the system pod creates hangs under a key, in fields of their width. *)
Lemma system_created vc podID vm `{!SystemRuntime vc podID vm} id input out o :
  vm id input defaultGasLimit = Some (Some out) -> wf_bytes (tx_Args (pi_Transaction input)) -> o ∈ po_Created out ->
  wf_created o /\ obj_parent_kind o = keyRootKind.
Proof.
  intros Hvm Ha Ho.
  assert (Eo : out = systemExecute vc input).
  { destruct (decide (id = podID)) as [->|Hne]; [|rewrite (rt_unknown vc (podID := podID)) in Hvm; done].
    destruct (rt_output vc input defaultGasLimit); congruence. }
  subst out. unfold systemExecute, build_output in Ho. cbn [po_Created] in Ho. apply list_elem_of_fmap in Ho as (co & -> & Hco).
  split; [|done]. cut (0 <= co_replication co < 65536); [intros Hr; split; [cbn; u64_lia|split; [exact Hr|done]]|].
  by eapply created_replication.
Qed.

(** The system pod keeps the ownership forest: its creations hang under keys. *)
Theorem execution_keeps_forest_witness :
  forestInv sampleEntries /\
  exists T', Rep (l_tracker (after (Execute sampleCrypto townVM everything 0 DefaultFeeParams bondLedger splitAtx))) T' /\ forestInv T'.
Proof.
  split; [exact sampleEntries_inv|].
  destruct (Execute sampleCrypto townVM everything 0 DefaultFeeParams bondLedger splitAtx) as [[L' signs] e] eqn:HE.
  assert (He : e = None) by (assert (snd (Execute sampleCrypto townVM everything 0 DefaultFeeParams bondLedger splitAtx) = e) as <- by (by rewrite HE); vm_compute; reflexivity).
  rewrite He in HE. cbn [after fst].
  refine (execution_keeps_forest podNode everything 0 DefaultFeeParams bondLedger splitAtx L' signs splitTx sampleEntries HE eq_refl
    sampleTracker_rep sampleEntries_inv _ _ _ DefaultFeeParams_wf _).
  - split; [intros [|i] [|j]; cbn; lia|]. intros [|i]; cbn [length splitTx call tx_CreatedObjectsReplication]; [|lia].
    intros _. apply (bool_decide_unpack _). vm_compute. exact I.
  - intros input out o Hi Hvm Ho.
    destruct (system_created (fun _ _ => []) (h 0) townVM _ input out o Hvm) as [H1 H2]; [|done|split; [done|by left]].
    rewrite Hi. vm_compute. repeat constructor; discriminate.
  - intros x Hx. vm_compute in Hx. done.
  - vm_compute. split; congruence.
Defined.
