(* ===== verification/Wire.v ===== *)
(** * The client and peer wire format (internal/network/messages.go,
    provedanchor.go, indexqueries.go, validatortree.go, testhooks_messages.go)

    Every tagged message, its encoder and its decoder.  A string is its bytes, a
    [32]byte array a list of 32 bytes, and a decoder's error is [None]. *)

From S2P Require Import Prelude Types Smt Index.

(** ** Tags *)

Definition MsgTagSubmitTx : Z := 4.
Definition MsgTagGetObject : Z := 5.
Definition MsgTagGetObjectResp : Z := 6.
Definition MsgTagGetValidators : Z := 7.
Definition MsgTagGetValidatorsResp : Z := 8.
Definition MsgTagStatus : Z := 9.
Definition MsgTagStatusResp : Z := 10.
Definition MsgTagHealth : Z := 11.
Definition MsgTagHealthResp : Z := 12.
Definition MsgTagFaucet : Z := 13.
Definition MsgTagFaucetResp : Z := 14.
Definition MsgTagDomainResolve : Z := 15.
Definition MsgTagDomainResolveResp : Z := 16.
Definition MsgTagSubmitTxResp : Z := 17.
Definition MsgTagGossipTx : Z := 18.
Definition MsgTagGetTxStatus : Z := 19.
Definition MsgTagGetTxStatusResp : Z := 20.
Definition MsgTagGetVertex : Z := 21.
Definition MsgTagGetVertexResp : Z := 22.
Definition MsgTagStateFingerprint : Z := 23.
Definition MsgTagStateFingerprintResp : Z := 24.
Definition MsgTagTestControl : Z := 25.
Definition MsgTagTestControlResp : Z := 26.
Definition MsgTagGetVertexRange : Z := 27.
Definition MsgTagGetVertexRangeResp : Z := 28.
Definition MsgTagGetIndexAnchor : Z := 29.
Definition MsgTagGetIndexAnchorResp : Z := 30.
Definition MsgTagListChildren : Z := 31.
Definition MsgTagListChildrenResp : Z := 32.
Definition MsgTagGetAncestors : Z := 33.
Definition MsgTagGetAncestorsResp : Z := 34.
Definition MsgTagGetValidatorTree : Z := 35.
Definition MsgTagGetValidatorTreeResp : Z := 36.

Definition clientRequestTags : list Z :=
  [MsgTagSubmitTx; MsgTagGetObject; MsgTagGetValidators; MsgTagStatus; MsgTagHealth; MsgTagFaucet; MsgTagDomainResolve;
   MsgTagGetTxStatus; MsgTagGetVertex; MsgTagGetVertexRange; MsgTagStateFingerprint; MsgTagTestControl; MsgTagGetIndexAnchor;
   MsgTagListChildren; MsgTagGetAncestors; MsgTagGetValidatorTree].

Definition IsClientMessage (data : bytes) : bool :=
  match data with [] => false | tag :: _ => bool_decide (tag ∈ clientRequestTags) end.

Definition MessageTag (data : bytes) : option Z := head data.

(** ** Slices *)

(** [data[a:b]], [data[i]] and [binary.BigEndian], inside the bounds the decoders check. *)
Definition slice (data : bytes) (a b : nat) : bytes := take (b - a) (drop a data).
Definition at_ (data : bytes) (i : nat) : Z := nth i data 0.
Definition uint (data : bytes) (a b : nat) : Z := be_dec (slice data a b).
Definition flag (b : bool) : Z := if b then 1 else 0.

(** The guard every decoder opens with: [len(data) < n || data[0] != tag]. *)
Definition refuses (data : bytes) (n : nat) (tag : Z) : bool := Nat.ltb (length data) n || negb (at_ data 0 =? tag).

(** ** Shared blocks *)

Definition provedAnchorSize : nat := 169.

Record ProvedIndexAnchor := mkProvedAnchor {
  pa_Anchored : bool;
  pa_FrontierRound : Z;
  pa_IndexRoot : Hash;
  pa_DomainRoot : Hash;
  pa_ParentRoot : Hash;
  pa_ChildrenRoot : Hash;
  pa_ValidatorRoot : Hash;
}.

Definition putProvedAnchor (a : ProvedIndexAnchor) : bytes :=
  flag (pa_Anchored a) :: be_enc 8 (pa_FrontierRound a) ++ pa_IndexRoot a ++ pa_DomainRoot a ++ pa_ParentRoot a ++
  pa_ChildrenRoot a ++ pa_ValidatorRoot a.

Definition readProvedAnchor (data : bytes) : ProvedIndexAnchor :=
  mkProvedAnchor (at_ data 0 =? 1) (uint data 1 9) (slice data 9 41) (slice data 41 73) (slice data 73 105) (slice data 105 137)
    (slice data 137 169).

Definition putBlob (blob : bytes) : bytes := be_enc 4 (Z.of_nat (length blob)) ++ blob.

Definition readBlob (data : bytes) : option (bytes * bytes) :=
  if Nat.ltb (length data) 4 then None
  else
    let n := Z.to_nat (uint data 0 4) in
    if Nat.ltb (length data) (4 + n) then None else Some (slice data 4 (4 + n), drop (4 + n) data).

(** The count-driven loops over a length-prefixed list. *)
Fixpoint readBlobs (count : nat) (data : bytes) : option (list bytes) :=
  match count with
  | O => Some []
  | S count => '(b, rest) ← readBlob data; bs ← readBlobs count rest; Some (b :: bs)
  end.

Fixpoint readArrays (count : nat) (data : bytes) : list Hash :=
  match count with O => [] | S count => slice data 0 32 :: readArrays count (drop 32 data) end.

(** ** Requests *)

Definition EncodeGossipTx (body : bytes) : bytes := MsgTagGossipTx :: body.
Definition DecodeGossipTx (data : bytes) : option bytes := if refuses data 1 MsgTagGossipTx then None else Some (drop 1 data).

Definition EncodeSubmitTx (body : bytes) : bytes := MsgTagSubmitTx :: body.
Definition DecodeSubmitTx (data : bytes) : option bytes := if refuses data 1 MsgTagSubmitTx then None else Some (drop 1 data).

Record GetObjectRequest := mkGetObject { go_ObjectID : Hash; go_LocalOnly : bool }.

Definition EncodeGetObject (req : GetObjectRequest) : bytes := MsgTagGetObject :: go_ObjectID req ++ [flag (go_LocalOnly req)].

Definition DecodeGetObject (data : bytes) : option GetObjectRequest :=
  if refuses data 33 MsgTagGetObject then None
  else Some (mkGetObject (slice data 1 33) (Nat.leb 34 (length data) && (at_ data 33 =? 1))).

Definition EncodeGetValidators : bytes := [MsgTagGetValidators].
Definition EncodeStatus : bytes := [MsgTagStatus].
Definition EncodeHealth : bytes := [MsgTagHealth].
Definition EncodeGetIndexAnchor : bytes := [MsgTagGetIndexAnchor].
Definition EncodeStateFingerprint : bytes := [MsgTagStateFingerprint].

Record FaucetRequest := mkFaucet { fq_Pubkey : Hash; fq_Amount : Z }.

Definition EncodeFaucet (req : FaucetRequest) : bytes := MsgTagFaucet :: fq_Pubkey req ++ be_enc 8 (fq_Amount req).

Definition DecodeFaucet (data : bytes) : option FaucetRequest :=
  if refuses data 41 MsgTagFaucet then None else Some (mkFaucet (slice data 1 33) (uint data 33 41)).

Definition EncodeDomainResolve (name : bytes) : bytes := MsgTagDomainResolve :: name.
Definition DecodeDomainResolve (data : bytes) : option bytes :=
  if refuses data 1 MsgTagDomainResolve then None else Some (drop 1 data).

(** The requests that carry one 32-byte identifier. *)
Definition encodeID (tag : Z) (id : Hash) : bytes := tag :: id.
Definition decodeID (tag : Z) (data : bytes) : option Hash := if refuses data 33 tag then None else Some (slice data 1 33).

Definition EncodeGetTxStatus : Hash -> bytes := encodeID MsgTagGetTxStatus.
Definition DecodeGetTxStatus : bytes -> option Hash := decodeID MsgTagGetTxStatus.
Definition EncodeGetVertex : Hash -> bytes := encodeID MsgTagGetVertex.
Definition DecodeGetVertex : bytes -> option Hash := decodeID MsgTagGetVertex.
Definition EncodeListChildren : Hash -> bytes := encodeID MsgTagListChildren.
Definition DecodeListChildren : bytes -> option Hash := decodeID MsgTagListChildren.
Definition EncodeGetAncestors : Hash -> bytes := encodeID MsgTagGetAncestors.
Definition DecodeGetAncestors : bytes -> option Hash := decodeID MsgTagGetAncestors.

Definition EncodeGetVertexRange (from to : Z) : bytes := MsgTagGetVertexRange :: be_enc 8 from ++ be_enc 8 to.
Definition DecodeGetVertexRange (data : bytes) : option (Z * Z) :=
  if refuses data 17 MsgTagGetVertexRange then None else Some (uint data 1 9, uint data 9 17).

Definition EncodeGetValidatorTree (epoch : Z) : bytes := MsgTagGetValidatorTree :: be_enc 8 epoch.
Definition DecodeGetValidatorTree (data : bytes) : option Z :=
  if refuses data 9 MsgTagGetValidatorTree then None else Some (uint data 1 9).

Record TestControlRequest := mkTestControl { tc_Op : Z; tc_Pubkeys : list Hash }.

Definition EncodeTestControl (req : TestControlRequest) : bytes :=
  MsgTagTestControl :: tc_Op req :: be_enc 4 (Z.of_nat (length (tc_Pubkeys req))) ++ concat (tc_Pubkeys req).

Definition DecodeTestControl (data : bytes) : option TestControlRequest :=
  if refuses data 6 MsgTagTestControl then None
  else
    let count := Z.to_nat (uint data 2 6) in
    if Nat.ltb (length data) (6 + 32 * count) then None else Some (mkTestControl (at_ data 1) (readArrays count (drop 6 data))).

(** ** Responses *)

Record SubmitTxResponse := mkSubmitResp { sr_Hash : bytes; sr_Err : bytes }.

Definition EncodeSubmitTxResp (resp : SubmitTxResponse) : bytes :=
  MsgTagSubmitTxResp :: be_enc 2 (Z.of_nat (length (sr_Hash resp))) ++ sr_Hash resp ++ sr_Err resp.

Definition DecodeSubmitTxResp (data : bytes) : option SubmitTxResponse :=
  if refuses data 3 MsgTagSubmitTxResp then None
  else
    let hashLen := Z.to_nat (uint data 1 3) in
    if Nat.ltb (length data) (3 + hashLen) then None
    else Some (mkSubmitResp (slice data 3 (3 + hashLen)) (drop (3 + hashLen) data)).

(** A payload behind a found flag: objects and vertices. *)
Record FoundResponse := mkFound { fr_Found : bool; fr_Data : bytes }.

Definition encodeFound (tag : Z) (resp : FoundResponse) : bytes := tag :: flag (fr_Found resp) :: fr_Data resp.
Definition decodeFound (tag : Z) (data : bytes) : option FoundResponse :=
  if refuses data 2 tag then None else Some (mkFound (at_ data 1 =? 1) (drop 2 data)).

Definition EncodeGetObjectResp : FoundResponse -> bytes := encodeFound MsgTagGetObjectResp.
Definition DecodeGetObjectResp : bytes -> option FoundResponse := decodeFound MsgTagGetObjectResp.
Definition EncodeGetVertexResp : FoundResponse -> bytes := encodeFound MsgTagGetVertexResp.
Definition DecodeGetVertexResp : bytes -> option FoundResponse := decodeFound MsgTagGetVertexResp.

Record ValidatorEntry := mkValidatorEntry { we_Pubkey : Hash; we_BLSPubkey : bytes; we_QUICAddr : bytes }.
Record GetValidatorsResponse := mkValidatorsResp { gv_Epoch : Z; gv_Validators : list ValidatorEntry }.

Definition putEntry (v : ValidatorEntry) : bytes :=
  we_Pubkey v ++ we_BLSPubkey v ++ be_enc 2 (Z.of_nat (length (we_QUICAddr v))) ++ we_QUICAddr v.

Definition EncodeGetValidatorsResp (resp : GetValidatorsResponse) : bytes :=
  MsgTagGetValidatorsResp :: be_enc 8 (gv_Epoch resp) ++ be_enc 4 (Z.of_nat (length (gv_Validators resp))) ++
  concat (map putEntry (gv_Validators resp)).

Fixpoint readEntries (count : nat) (data : bytes) : option (list ValidatorEntry) :=
  match count with
  | O => Some []
  | S count =>
      if Nat.ltb (length data) 82 then None
      else
        let addrLen := Z.to_nat (uint data 80 82) in
        if Nat.ltb (length data) (82 + addrLen) then None
        else
          entries ← readEntries count (drop (82 + addrLen) data);
          Some (mkValidatorEntry (slice data 0 32) (slice data 32 80) (slice data 82 (82 + addrLen)) :: entries)
  end.

Definition DecodeGetValidatorsResp (data : bytes) : option GetValidatorsResponse :=
  if refuses data 13 MsgTagGetValidatorsResp then None
  else vs ← readEntries (Z.to_nat (uint data 9 13)) (drop 13 data); Some (mkValidatorsResp (uint data 1 9) vs).

(** The capacity [DecodeGetValidatorsResp] reserves before it reads an entry. *)
Definition reservedEntries (data : bytes) : Z := if refuses data 13 MsgTagGetValidatorsResp then 0 else uint data 9 13.

Record StatusResponse := mkStatus {
  ss_Round : Z;
  ss_EpochLength : Z;
  ss_Epoch : Z;
  ss_LastCommitted : Z;
  ss_Validators : Z;
  ss_EpochHolders : Z;
  ss_SystemPod : Hash;
  ss_TotalTx : Z;
  ss_TPSMilli : Z;
  ss_ConnectedPeers : Z;
  ss_StrictStart : Z;
  ss_StrictLatched : bool;
}.

Definition EncodeStatusResp (r : StatusResponse) : bytes :=
  MsgTagStatusResp :: be_enc 8 (ss_Round r) ++ be_enc 8 (ss_EpochLength r) ++ be_enc 8 (ss_Epoch r) ++ be_enc 8 (ss_LastCommitted r) ++
  be_enc 4 (ss_Validators r) ++ be_enc 4 (ss_EpochHolders r) ++ ss_SystemPod r ++ be_enc 8 (ss_TotalTx r) ++ be_enc 4 (ss_TPSMilli r) ++
  be_enc 4 (ss_ConnectedPeers r) ++ be_enc 8 (ss_StrictStart r) ++ [flag (ss_StrictLatched r)].

Definition DecodeStatusResp (data : bytes) : option StatusResponse :=
  if refuses data 25 MsgTagStatusResp then None
  else
    let has73 := Nat.leb 73 (length data) in
    let has89 := Nat.leb 89 (length data) in
    let has98 := Nat.leb 98 (length data) in
    let get (b : bool) (z : Z) := if b then z else 0 in
    Some (mkStatus (uint data 1 9) (uint data 9 17) (uint data 17 25) (get has73 (uint data 25 33)) (get has73 (uint data 33 37))
            (get has73 (uint data 37 41)) (if has73 then slice data 41 73 else zeroHash) (get has89 (uint data 73 81))
            (get has89 (uint data 81 85)) (get has89 (uint data 85 89)) (get has98 (uint data 89 97)) (has98 && (at_ data 97 =? 1))).

Definition EncodeHealthResp (ok : bool) : bytes := [MsgTagHealthResp; flag ok].
Definition DecodeHealthResp (data : bytes) : option bool := if refuses data 2 MsgTagHealthResp then None else Some (at_ data 1 =? 1).

Record FaucetResponse := mkFaucetResp { fa_Hash : bytes; fa_CoinID : bytes; fa_Err : bytes }.

Definition EncodeFaucetResp (resp : FaucetResponse) : bytes :=
  MsgTagFaucetResp :: (Z.of_nat (length (fa_Hash resp)) mod 256) :: fa_Hash resp ++
  (Z.of_nat (length (fa_CoinID resp)) mod 256) :: fa_CoinID resp ++ fa_Err resp.

Definition DecodeFaucetResp (data : bytes) : option FaucetResponse :=
  if refuses data 2 MsgTagFaucetResp then None
  else
    let hashLen := Z.to_nat (at_ data 1) in
    if Nat.ltb (length data) (2 + hashLen + 1) then None
    else
      let coinLen := Z.to_nat (at_ data (2 + hashLen)) in
      let off := (2 + hashLen + 1)%nat in
      if Nat.ltb (length data) (off + coinLen) then None
      else Some (mkFaucetResp (slice data 2 (2 + hashLen)) (slice data off (off + coinLen)) (drop (off + coinLen) data)).

Record DomainResolveResponse := mkDomainResp {
  dr_Found : bool;
  dr_ObjectID : Hash;
  dr_Anchor : ProvedIndexAnchor;
  dr_Leaf : bytes;
  dr_Proof : bytes;
}.

Definition EncodeDomainResolveResp (resp : DomainResolveResponse) : bytes :=
  MsgTagDomainResolveResp :: putProvedAnchor (dr_Anchor resp) ++ flag (dr_Found resp) :: dr_ObjectID resp ++ putBlob (dr_Leaf resp) ++
  putBlob (dr_Proof resp).

Definition DecodeDomainResolveResp (data : bytes) : option DomainResolveResponse :=
  if refuses data (1 + provedAnchorSize + 1 + 32) MsgTagDomainResolveResp then None
  else
    '(leaf, rest) ← readBlob (drop (1 + provedAnchorSize + 1 + 32) data);
    '(proof, _) ← readBlob rest;
    Some (mkDomainResp (at_ data (1 + provedAnchorSize) =? 1) (slice data (1 + provedAnchorSize + 1) (1 + provedAnchorSize + 1 + 32))
            (readProvedAnchor (drop 1 data)) leaf proof).

Definition TxStateUnknown : Z := 0.
Definition TxStatePending : Z := 1.
Definition TxStateFinalized : Z := 2.
Definition TxStateFailed : Z := 3.

Definition EncodeGetTxStatusResp (state reason : Z) : bytes := [MsgTagGetTxStatusResp; state; reason].
Definition DecodeGetTxStatusResp (data : bytes) : option (Z * Z) :=
  if refuses data 3 MsgTagGetTxStatusResp then None else Some (at_ data 1, at_ data 2).

Definition EncodeGetVertexRangeResp (vertices : list bytes) : bytes :=
  MsgTagGetVertexRangeResp :: be_enc 4 (Z.of_nat (length vertices)) ++ concat (map putBlob vertices).

(** Stops at the first length prefix that does not fit. *)
Fixpoint readVertices (count : nat) (data : bytes) : list bytes :=
  match count with
  | O => []
  | S count => match readBlob data with None => [] | Some (v, rest) => v :: readVertices count rest end
  end.

Definition DecodeGetVertexRangeResp (data : bytes) : option (list bytes) :=
  if refuses data 5 MsgTagGetVertexRangeResp then None else Some (readVertices (Z.to_nat (uint data 1 5)) (drop 5 data)).

Definition IndexAnchorHeaderSize : nat := 184.

Record GetIndexAnchorResponse := mkIndexAnchorResp {
  ia_Found : bool;
  ia_FrontierRound : Z;
  ia_IndexRoot : Hash;
  ia_Epoch : Z;
  ia_Headers : list bytes;
}.

Definition validAnchorHeaders (records : list bytes) : list bytes := filter (fun r => length r = IndexAnchorHeaderSize) records.

Definition EncodeGetIndexAnchorResp (resp : GetIndexAnchorResponse) : bytes :=
  let headers := validAnchorHeaders (ia_Headers resp) in
  MsgTagGetIndexAnchorResp :: flag (ia_Found resp) :: be_enc 8 (ia_FrontierRound resp) ++ ia_IndexRoot resp ++ be_enc 8 (ia_Epoch resp) ++
  be_enc 4 (Z.of_nat (length headers)) ++ concat headers.

(** Stops at the first record that does not fit. *)
Fixpoint readRecords (count : nat) (data : bytes) : list bytes :=
  match count with
  | O => []
  | S count =>
      if Nat.ltb (length data) IndexAnchorHeaderSize then []
      else slice data 0 IndexAnchorHeaderSize :: readRecords count (drop IndexAnchorHeaderSize data)
  end.

Definition DecodeGetIndexAnchorResp (data : bytes) : option GetIndexAnchorResponse :=
  if refuses data 54 MsgTagGetIndexAnchorResp then None
  else Some (mkIndexAnchorResp (at_ data 1 =? 1) (uint data 2 10) (slice data 10 42) (uint data 42 50)
               (readRecords (Z.to_nat (uint data 50 54)) (drop 54 data))).

Record ListChildrenResponse := mkChildrenResp {
  lr_Anchor : ProvedIndexAnchor;
  lr_Found : bool;
  lr_SubtreeRoot : Hash;
  lr_Proof : bytes;
  lr_Children : list Hash;
}.

Definition EncodeListChildrenResp (resp : ListChildrenResponse) : bytes :=
  MsgTagListChildrenResp :: putProvedAnchor (lr_Anchor resp) ++ flag (lr_Found resp) :: lr_SubtreeRoot resp ++ putBlob (lr_Proof resp) ++
  be_enc 4 (Z.of_nat (length (lr_Children resp))) ++ concat (lr_Children resp).

Definition readChildIDs (data : bytes) : option (list Hash) :=
  if Nat.ltb (length data) 4 then None
  else
    let count := Z.to_nat (uint data 0 4) in
    let data := drop 4 data in
    if Nat.ltb (length data) (count * 32) then None else Some (readArrays count data).

Definition DecodeListChildrenResp (data : bytes) : option ListChildrenResponse :=
  if refuses data (1 + provedAnchorSize + 1 + 32) MsgTagListChildrenResp then None
  else
    '(proof, rest) ← readBlob (drop (1 + provedAnchorSize + 1 + 32) data);
    children ← readChildIDs rest;
    Some (mkChildrenResp (readProvedAnchor (drop 1 data)) (at_ data (1 + provedAnchorSize) =? 1)
            (slice data (1 + provedAnchorSize + 1) (1 + provedAnchorSize + 1 + 32)) proof children).

(** [network.AncestorEdge]. *)
Record WireEdge := mkWireEdge { wg_ChildID : Hash; wg_Leaf : bytes; wg_Proof : bytes }.
Record GetAncestorsResponse := mkAncestorsResp { ga_Anchor : ProvedIndexAnchor; ga_Edges : list WireEdge }.

Definition putEdge (e : WireEdge) : bytes := wg_ChildID e ++ putBlob (wg_Leaf e) ++ putBlob (wg_Proof e).

Definition EncodeGetAncestorsResp (resp : GetAncestorsResponse) : bytes :=
  MsgTagGetAncestorsResp :: putProvedAnchor (ga_Anchor resp) ++ be_enc 4 (Z.of_nat (length (ga_Edges resp))) ++
  concat (map putEdge (ga_Edges resp)).

Definition readAncestorEdge (data : bytes) : option (WireEdge * bytes) :=
  if Nat.ltb (length data) 32 then None
  else
    '(leaf, rest) ← readBlob (drop 32 data);
    '(proof, rest) ← readBlob rest;
    Some (mkWireEdge (slice data 0 32) leaf proof, rest).

Fixpoint readEdges (count : nat) (data : bytes) : option (list WireEdge) :=
  match count with
  | O => Some []
  | S count => '(e, rest) ← readAncestorEdge data; es ← readEdges count rest; Some (e :: es)
  end.

Definition DecodeGetAncestorsResp (data : bytes) : option GetAncestorsResponse :=
  if refuses data (1 + provedAnchorSize + 4) MsgTagGetAncestorsResp then None
  else
    edges ← readEdges (Z.to_nat (uint data (1 + provedAnchorSize) (1 + provedAnchorSize + 4))) (drop (1 + provedAnchorSize + 4) data);
    Some (mkAncestorsResp (readProvedAnchor (drop 1 data)) edges).

Record GetValidatorTreeResponse := mkTreeResp {
  gt_Anchor : ProvedIndexAnchor;
  gt_Found : bool;
  gt_Epoch : Z;
  gt_Leaves : list bytes;
}.

Definition EncodeGetValidatorTreeResp (resp : GetValidatorTreeResponse) : bytes :=
  MsgTagGetValidatorTreeResp :: putProvedAnchor (gt_Anchor resp) ++ flag (gt_Found resp) :: be_enc 8 (gt_Epoch resp) ++
  be_enc 4 (Z.of_nat (length (gt_Leaves resp))) ++ concat (map putBlob (gt_Leaves resp)).

Definition DecodeGetValidatorTreeResp (data : bytes) : option GetValidatorTreeResponse :=
  if refuses data (1 + provedAnchorSize + 1 + 8 + 4) MsgTagGetValidatorTreeResp then None
  else
    let off := (1 + provedAnchorSize + 1)%nat in
    leaves ← readBlobs (Z.to_nat (uint data (off + 8) (off + 12))) (drop (off + 12) data);
    Some (mkTreeResp (readProvedAnchor (drop 1 data)) (at_ data (1 + provedAnchorSize) =? 1) (uint data off (off + 8)) leaves).

Record FingerprintResponse := mkFingerprint {
  fp_Round : Z;
  fp_Checksum : Hash;
  fp_TotalSupply : Z;
  fp_CoinsTotal : Z;
  fp_TotalBonded : Z;
  fp_Deposits : Z;
  fp_FeesInFlight : Z;
  fp_Err : bytes;
}.

Definition fingerprintRespFixedLen : nat := 80.

Definition EncodeStateFingerprintResp (r : FingerprintResponse) : bytes :=
  MsgTagStateFingerprintResp :: be_enc 8 (fp_Round r) ++ fp_Checksum r ++ be_enc 8 (fp_TotalSupply r) ++ be_enc 8 (fp_CoinsTotal r) ++
  be_enc 8 (fp_TotalBonded r) ++ be_enc 8 (fp_Deposits r) ++ be_enc 8 (fp_FeesInFlight r) ++ fp_Err r.

Definition DecodeStateFingerprintResp (data : bytes) : option FingerprintResponse :=
  if refuses data (1 + fingerprintRespFixedLen) MsgTagStateFingerprintResp then None
  else Some (mkFingerprint (uint data 1 9) (slice data 9 41) (uint data 41 49) (uint data 49 57) (uint data 57 65) (uint data 65 73)
               (uint data 73 81) (drop 81 data)).

Definition EncodeTestControlResp (err : bytes) : bytes := MsgTagTestControlResp :: err.
Definition DecodeTestControlResp (data : bytes) : option bytes := if refuses data 1 MsgTagTestControlResp then None else Some (drop 1 data).

(** ** Reading back what was written *)

Lemma slice_skip x r a b : (length x <= a)%nat -> slice (x ++ r) a b = slice r (a - length x) (b - length x).
Proof. intros Hl. unfold slice. rewrite drop_app_ge by done. f_equal. lia. Qed.

Lemma slice_cons x r a b : slice (x :: r) (S a) (S b) = slice r a b.
Proof. done. Qed.

Lemma slice_here x r b : length x = b -> slice (x ++ r) 0 b = x.
Proof. intros <-. unfold slice. rewrite drop_0, Nat.sub_0_r. by rewrite take_app_length. Qed.

Lemma slice_all x b : length x = b -> slice x 0 b = x.
Proof. intros Hl. rewrite <- (app_nil_r x) at 1. by apply slice_here. Qed.

Lemma drop_skip (x r : bytes) n : (length x <= n)%nat -> drop n (x ++ r) = drop (n - length x) r.
Proof. by apply drop_app_ge. Qed.

Lemma at_skip x r i : (length x <= i)%nat -> at_ (x ++ r) i = at_ r (i - length x).
Proof. intros Hl. unfold at_. by rewrite app_nth2 by lia. Qed.

Lemma at_cons x r i : at_ (x :: r) (S i) = at_ r i.
Proof. done. Qed.

Lemma at_first x r : at_ (x :: r) 0 = x.
Proof. done. Qed.

Lemma drop_past (x : Z) (r : bytes) n : drop (S n) (x :: r) = drop n r.
Proof. done. Qed.

Lemma flag_eqb b : (flag b =? 1) = b.
Proof. by destruct b. Qed.

Lemma refuses_own tag r n : (n <= S (length r))%nat -> refuses (tag :: r) n tag = false.
Proof. intros Hn. unfold refuses, at_. cbn [nth length]. rewrite Z.eqb_refl. destruct (Nat.ltb_spec (S (length r)) n); [lia|done]. Qed.

Lemma refuses_other tag tag' r n : tag' ≠ tag -> refuses (tag' :: r) n tag = true.
Proof. intros Hne. unfold refuses, at_. cbn [nth]. destruct (Z.eqb_spec tag' tag); [done|]. by rewrite orb_true_r. Qed.

Lemma length_putProvedAnchor a :
  length (pa_IndexRoot a) = 32%nat -> length (pa_DomainRoot a) = 32%nat -> length (pa_ParentRoot a) = 32%nat ->
  length (pa_ChildrenRoot a) = 32%nat -> length (pa_ValidatorRoot a) = 32%nat -> length (putProvedAnchor a) = provedAnchorSize.
Proof. intros H1 H2 H3 H4 H5. unfold putProvedAnchor, provedAnchorSize. cbn [length]. rewrite !length_app, length_be_enc. lia. Qed.

#[export] Hint Rewrite @length_app @length_cons @Nat.sub_0_r @Nat.sub_diag : go.

(** Steps a reader over the fields in front of it. *)
Ltac lens := autorewrite with go; repeat match goal with H : length ?x = _ |- _ => progress rewrite H end; cbn [Nat.sub Nat.add]; autorewrite with go.
Ltac fits := autorewrite with go; lia.

Ltac fields :=
  repeat first
    [ rewrite slice_cons
    | rewrite at_cons
    | rewrite at_first
    | rewrite drop_past
    | rewrite drop_0
    | rewrite flag_eqb
    | rewrite slice_here by fits
    | rewrite slice_all by fits
    | rewrite slice_skip by fits; lens
    | rewrite drop_skip by fits; lens
    | rewrite at_skip by fits; lens ].

Record anchorOk (a : ProvedIndexAnchor) : Prop := {
  ak_round : is_u64 (pa_FrontierRound a);
  ak_index : length (pa_IndexRoot a) = 32%nat;
  ak_domain : length (pa_DomainRoot a) = 32%nat;
  ak_parent : length (pa_ParentRoot a) = 32%nat;
  ak_children : length (pa_ChildrenRoot a) = 32%nat;
  ak_validator : length (pa_ValidatorRoot a) = 32%nat;
}.

Lemma uint64_read z : is_u64 z -> be_dec (be_enc 8 z) = z.
Proof. intros []. apply be_dec_enc. simpl. lia. Qed.

Lemma provedAnchor_read a r : anchorOk a -> readProvedAnchor (putProvedAnchor a ++ r) = a.
Proof.
  intros [H0 H1 H2 H3 H4 H5]. unfold readProvedAnchor, putProvedAnchor, uint. cbn [app]. rewrite <- !app_assoc.
  fields. rewrite uint64_read by done. by destruct a.
Qed.

(** ** Lists and counts *)

Definition is_u32 (z : Z) : Prop := 0 <= z < 2 ^ 32.
Definition short (n : nat) (l : bytes) : Prop := Z.of_nat (length l) < 256 ^ Z.of_nat n.
Definition counted {A} (l : list A) : Prop := Z.of_nat (length l) < 2 ^ 32.

Lemma uint32_read z : is_u32 z -> be_dec (be_enc 4 z) = z.
Proof. intros []. apply be_dec_enc. simpl. lia. Qed.

Lemma count_read {A} (l : list A) : counted l -> Z.to_nat (be_dec (be_enc 4 (Z.of_nat (length l)))) = length l.
Proof. intros Hl. unfold counted in Hl. rewrite uint32_read; [apply Nat2Z.id|]. unfold is_u32. lia. Qed.

Lemma blob_read b r : short 4 b -> readBlob (putBlob b ++ r) = Some (b, r).
Proof.
  intros Hb. unfold readBlob, putBlob, uint. rewrite <- app_assoc. rewrite slice_here by fits. rewrite count_read by (exact Hb).
  rewrite !length_app, length_be_enc. destruct (Nat.ltb_spec (4 + (length b + length r)) 4); [lia|].
  destruct (Nat.ltb_spec (4 + (length b + length r)) (4 + length b)); [lia|]. by fields.
Qed.

Lemma blobs_read l r : Forall (short 4) l -> readBlobs (length l) (concat (map putBlob l) ++ r) = Some l.
Proof.
  induction 1 as [|b l Hb Hl IH]; [done|]. cbn [length readBlobs map concat]. rewrite <- app_assoc, blob_read by done.
  cbn [mbind option_bind]. by rewrite IH.
Qed.

Lemma vertices_read l r : Forall (short 4) l -> readVertices (length l) (concat (map putBlob l) ++ r) = l.
Proof.
  induction 1 as [|b l Hb Hl IH]; [done|]. cbn [length readVertices map concat]. rewrite <- app_assoc, blob_read by done. by rewrite IH.
Qed.

Lemma arrays_read l r : Forall (fun h : Hash => length h = 32%nat) l -> readArrays (length l) (concat l ++ r) = l.
Proof.
  induction 1 as [|h l Hh Hl IH]; [done|]. cbn [length readArrays concat]. rewrite <- app_assoc. fields. by rewrite IH.
Qed.

Lemma records_read l r : Forall (fun h => length h = IndexAnchorHeaderSize) l -> readRecords (length l) (concat l ++ r) = l.
Proof.
  induction 1 as [|h l Hh Hl IH]; [done|]. cbn [length readRecords concat]. rewrite <- app_assoc, length_app, Hh.
  destruct (Nat.ltb_spec (IndexAnchorHeaderSize + length (concat l ++ r)) IndexAnchorHeaderSize); [lia|].
  rewrite slice_here by done. rewrite drop_app_length' by done. by rewrite IH.
Qed.

Lemma length_hashes (l : list Hash) : Forall (fun h : Hash => length h = 32%nat) l -> length (concat l) = (32 * length l)%nat.
Proof. induction 1 as [|h l Hh Hl IH]; [done|]. cbn [concat length]. rewrite length_app, Hh, IH. lia. Qed.

Definition entryOk (v : ValidatorEntry) : Prop :=
  length (we_Pubkey v) = 32%nat /\ length (we_BLSPubkey v) = 48%nat /\ short 2 (we_QUICAddr v).

Lemma entries_read l r : Forall entryOk l -> readEntries (length l) (concat (map putEntry l) ++ r) = Some l.
Proof.
  induction 1 as [|v l (Hp & Hb & Ha) Hl IH]; [done|]. cbn [length readEntries map concat]. rewrite <- app_assoc.
  generalize dependent (concat (map putEntry l) ++ r). intros rest IH. unfold putEntry. rewrite <- !app_assoc.
  assert (Hn : uint (we_Pubkey v ++ we_BLSPubkey v ++ be_enc 2 (Z.of_nat (length (we_QUICAddr v))) ++ we_QUICAddr v ++ rest) 80 82 =
    Z.of_nat (length (we_QUICAddr v))).
  { unfold uint. fields. apply be_dec_enc. split; [lia|exact Ha]. }
  rewrite Hn, Nat2Z.id, !length_app, length_be_enc, Hp, Hb. clear Hn.
  repeat match goal with |- context [Nat.ltb ?a ?b] => destruct (Nat.ltb_spec a b); [lia|] end.
  fields. rewrite IH. by destruct v.
Qed.

Definition edgeOk (e : WireEdge) : Prop := length (wg_ChildID e) = 32%nat /\ short 4 (wg_Leaf e) /\ short 4 (wg_Proof e).

Lemma edge_read e r : edgeOk e -> readAncestorEdge (putEdge e ++ r) = Some (e, r).
Proof.
  intros (Hc & Hl & Hp). unfold readAncestorEdge, putEdge. rewrite <- !app_assoc, length_app, Hc.
  destruct (Nat.ltb_spec (32 + length (putBlob (wg_Leaf e) ++ putBlob (wg_Proof e) ++ r)) 32); [lia|].
  fields. rewrite blob_read by done. cbn [mbind option_bind]. rewrite blob_read by done. cbn [mbind option_bind]. by destruct e.
Qed.

Lemma edges_read l r : Forall edgeOk l -> readEdges (length l) (concat (map putEdge l) ++ r) = Some l.
Proof.
  induction 1 as [|e l He Hl IH]; [done|]. cbn [length readEdges map concat]. rewrite <- app_assoc, edge_read by done.
  cbn [mbind option_bind]. by rewrite IH.
Qed.

Lemma childIDs_read l : counted l -> Forall (fun h : Hash => length h = 32%nat) l ->
  readChildIDs (be_enc 4 (Z.of_nat (length l)) ++ concat l) = Some l.
Proof.
  intros Hc Hl. unfold readChildIDs, uint. rewrite length_app, length_be_enc. destruct (Nat.ltb_spec (4 + length (concat l)) 4); [lia|].
  fields. rewrite count_read by done. rewrite length_hashes by done. destruct (Nat.ltb_spec (32 * length l) (length l * 32)); [lia|].
  rewrite <- (app_nil_r (concat l)). by rewrite arrays_read.
Qed.

(** ** The formats *)

(** A message kind: its tag, its two directions, and the values that fit its fields. *)
Record Format := mkFormat {
  f_carrier : Type;
  f_tag : Z;
  f_encode : f_carrier -> bytes;
  f_decode : bytes -> option f_carrier;
  f_fits : f_carrier -> Prop;
}.

Record formatOk (f : Format) : Prop := {
  fo_tag : forall x, exists r, f_encode f x = f_tag f :: r;
  fo_other : forall tag r, tag ≠ f_tag f -> f_decode f (tag :: r) = None;
  fo_read : forall x, f_fits f x -> f_decode f (f_encode f x) = Some x;
}.

Definition is32 (h : Hash) : Prop := length h = 32%nat.
Definition anything {A} (_ : A) : Prop := True.

Definition objectRequestFmt := mkFormat GetObjectRequest MsgTagGetObject EncodeGetObject DecodeGetObject (fun r => is32 (go_ObjectID r)).
Definition faucetRequestFmt := mkFormat FaucetRequest MsgTagFaucet EncodeFaucet DecodeFaucet (fun r => is32 (fq_Pubkey r) /\ is_u64 (fq_Amount r)).
Definition rangeRequestFmt := mkFormat (Z * Z) MsgTagGetVertexRange (fun r => EncodeGetVertexRange r.1 r.2) DecodeGetVertexRange
  (fun r => is_u64 r.1 /\ is_u64 r.2).
Definition controlFmt := mkFormat TestControlRequest MsgTagTestControl EncodeTestControl DecodeTestControl
  (fun r => counted (tc_Pubkeys r) /\ Forall is32 (tc_Pubkeys r)).
Definition submitRespFmt := mkFormat SubmitTxResponse MsgTagSubmitTxResp EncodeSubmitTxResp DecodeSubmitTxResp (fun r => short 2 (sr_Hash r)).
Definition validatorsFmt := mkFormat GetValidatorsResponse MsgTagGetValidatorsResp EncodeGetValidatorsResp DecodeGetValidatorsResp
  (fun r => is_u64 (gv_Epoch r) /\ counted (gv_Validators r) /\ Forall entryOk (gv_Validators r)).
Definition statusFmt := mkFormat StatusResponse MsgTagStatusResp EncodeStatusResp DecodeStatusResp
  (fun r => Forall is_u64 [ss_Round r; ss_EpochLength r; ss_Epoch r; ss_LastCommitted r; ss_TotalTx r; ss_StrictStart r] /\
            Forall is_u32 [ss_Validators r; ss_EpochHolders r; ss_TPSMilli r; ss_ConnectedPeers r] /\ is32 (ss_SystemPod r)).
Definition faucetRespFmt := mkFormat FaucetResponse MsgTagFaucetResp EncodeFaucetResp DecodeFaucetResp
  (fun r => short 1 (fa_Hash r) /\ short 1 (fa_CoinID r)).
Definition domainFmt := mkFormat DomainResolveResponse MsgTagDomainResolveResp EncodeDomainResolveResp DecodeDomainResolveResp
  (fun r => anchorOk (dr_Anchor r) /\ is32 (dr_ObjectID r) /\ short 4 (dr_Leaf r) /\ short 4 (dr_Proof r)).
Definition rangeFmt := mkFormat (list bytes) MsgTagGetVertexRangeResp EncodeGetVertexRangeResp DecodeGetVertexRangeResp
  (fun l => counted l /\ Forall (short 4) l).
Definition bundleFmt := mkFormat GetIndexAnchorResponse MsgTagGetIndexAnchorResp EncodeGetIndexAnchorResp DecodeGetIndexAnchorResp
  (fun r => is_u64 (ia_FrontierRound r) /\ is32 (ia_IndexRoot r) /\ is_u64 (ia_Epoch r) /\ counted (ia_Headers r) /\
            Forall (fun h => length h = IndexAnchorHeaderSize) (ia_Headers r)).
Definition childrenFmt := mkFormat ListChildrenResponse MsgTagListChildrenResp EncodeListChildrenResp DecodeListChildrenResp
  (fun r => anchorOk (lr_Anchor r) /\ is32 (lr_SubtreeRoot r) /\ short 4 (lr_Proof r) /\ counted (lr_Children r) /\ Forall is32 (lr_Children r)).
Definition ancestorsFmt := mkFormat GetAncestorsResponse MsgTagGetAncestorsResp EncodeGetAncestorsResp DecodeGetAncestorsResp
  (fun r => anchorOk (ga_Anchor r) /\ counted (ga_Edges r) /\ Forall edgeOk (ga_Edges r)).
Definition treeFmt := mkFormat GetValidatorTreeResponse MsgTagGetValidatorTreeResp EncodeGetValidatorTreeResp DecodeGetValidatorTreeResp
  (fun r => anchorOk (gt_Anchor r) /\ is_u64 (gt_Epoch r) /\ counted (gt_Leaves r) /\ Forall (short 4) (gt_Leaves r)).
Definition fingerprintFmt := mkFormat FingerprintResponse MsgTagStateFingerprintResp EncodeStateFingerprintResp DecodeStateFingerprintResp
  (fun r => Forall is_u64 [fp_Round r; fp_TotalSupply r; fp_CoinsTotal r; fp_TotalBonded r; fp_Deposits r; fp_FeesInFlight r] /\ is32 (fp_Checksum r)).
Definition txStatusFmt := mkFormat (Z * Z) MsgTagGetTxStatusResp (fun r => EncodeGetTxStatusResp r.1 r.2) DecodeGetTxStatusResp anything.
Definition treeRequestFmt := mkFormat Z MsgTagGetValidatorTree EncodeGetValidatorTree DecodeGetValidatorTree is_u64.
Definition healthFmt := mkFormat bool MsgTagHealthResp EncodeHealthResp DecodeHealthResp anything.
Definition bodyFmt (tag : Z) (enc : bytes -> bytes) (dec : bytes -> option bytes) := mkFormat bytes tag enc dec anything.
Definition idFmt (tag : Z) (enc : Hash -> bytes) (dec : bytes -> option Hash) := mkFormat Hash tag enc dec is32.
Definition foundFmt (tag : Z) (enc : FoundResponse -> bytes) (dec : bytes -> option FoundResponse) := mkFormat FoundResponse tag enc dec anything.

Definition formats : list Format :=
  [bodyFmt MsgTagSubmitTx EncodeSubmitTx DecodeSubmitTx; bodyFmt MsgTagGossipTx EncodeGossipTx DecodeGossipTx;
   bodyFmt MsgTagDomainResolve EncodeDomainResolve DecodeDomainResolve; bodyFmt MsgTagTestControlResp EncodeTestControlResp DecodeTestControlResp;
   idFmt MsgTagGetTxStatus EncodeGetTxStatus DecodeGetTxStatus; idFmt MsgTagGetVertex EncodeGetVertex DecodeGetVertex;
   idFmt MsgTagListChildren EncodeListChildren DecodeListChildren; idFmt MsgTagGetAncestors EncodeGetAncestors DecodeGetAncestors;
   foundFmt MsgTagGetObjectResp EncodeGetObjectResp DecodeGetObjectResp; foundFmt MsgTagGetVertexResp EncodeGetVertexResp DecodeGetVertexResp;
   treeRequestFmt;
   healthFmt;
   objectRequestFmt; faucetRequestFmt; rangeRequestFmt; controlFmt; submitRespFmt; validatorsFmt; statusFmt; faucetRespFmt; domainFmt;
   rangeFmt; bundleFmt; childrenFmt; ancestorsFmt; treeFmt; fingerprintFmt; txStatusFmt].

(** The tag laws of a format, by its decoder. *)
Ltac openFormat fmt dec :=
  unfold fmt; split; [intros x; eexists; reflexivity|intros t r Hne; cbn [f_decode f_tag] in *; unfold dec; by rewrite refuses_other|];
  cbn [f_decode f_encode f_fits f_carrier].

Ltac reads := rewrite ?uint64_read, ?uint32_read by done.

Lemma body_format tag enc dec : enc = cons tag -> dec = (fun data => if refuses data 1 tag then None else Some (drop 1 data)) ->
  formatOk (bodyFmt tag enc dec).
Proof.
  intros -> ->. split; [intros x; eexists; reflexivity|intros t r Hne; cbn [f_decode f_tag bodyFmt] in *; by rewrite refuses_other|].
  intros x _. cbn [f_decode f_encode bodyFmt]. rewrite refuses_own by (cbn; lia). done.
Qed.

Lemma id_format tag enc dec : enc = encodeID tag -> dec = decodeID tag -> formatOk (idFmt tag enc dec).
Proof.
  intros -> ->. openFormat idFmt decodeID.
  intros x Hx. unfold decodeID, encodeID, is32 in *. rewrite refuses_own by lia. by fields.
Qed.

Lemma found_format tag enc dec : enc = encodeFound tag -> dec = decodeFound tag -> formatOk (foundFmt tag enc dec).
Proof.
  intros -> ->. openFormat foundFmt decodeFound.
  intros x _. unfold decodeFound, encodeFound. rewrite refuses_own by (cbn; lia). fields. by destruct x.
Qed.

Lemma objectRequest_format : formatOk objectRequestFmt.
Proof.
  openFormat objectRequestFmt DecodeGetObject.
  intros x Hx. unfold is32, DecodeGetObject, EncodeGetObject in *. rewrite refuses_own by (rewrite length_app; cbn; lia).
  cbn [length]. rewrite length_app, Hx. fields. by destruct x.
Qed.

Lemma faucetRequest_format : formatOk faucetRequestFmt.
Proof.
  openFormat faucetRequestFmt DecodeFaucet.
  intros x [Hx Ha]. unfold is32, DecodeFaucet, EncodeFaucet, uint in *. rewrite refuses_own by (rewrite length_app, length_be_enc; lia).
  fields. reads. by destruct x.
Qed.

Lemma rangeRequest_format : formatOk rangeRequestFmt.
Proof.
  openFormat rangeRequestFmt DecodeGetVertexRange.
  intros [from to] [Hf Ht]. cbn [fst snd] in *. unfold DecodeGetVertexRange, EncodeGetVertexRange, uint.
  rewrite refuses_own by (rewrite length_app, !length_be_enc; lia). fields. by reads.
Qed.

(** The length test in front of a variable part. *)
Ltac inRange := match goal with |- context [Nat.ltb ?a ?b] => destruct (Nat.ltb_spec a b); [lia|] end.

Lemma control_format : formatOk controlFmt.
Proof.
  openFormat controlFmt DecodeTestControl. intros [op l] [Hc Hl]. cbn [tc_Pubkeys] in *.
  unfold DecodeTestControl, EncodeTestControl, uint. cbn [tc_Op tc_Pubkeys]. rewrite refuses_own by (cbn [length]; rewrite length_app, length_be_enc; lia).
  fields. rewrite count_read by done. cbn [length]. rewrite ?length_app, ?length_be_enc, length_hashes by done.
  inRange. rewrite <- (app_nil_r (concat l)). by rewrite arrays_read.
Qed.

Lemma submitResp_format : formatOk submitRespFmt.
Proof.
  openFormat submitRespFmt DecodeSubmitTxResp. intros [h e] Hh. cbn [sr_Hash] in *.
  unfold DecodeSubmitTxResp, EncodeSubmitTxResp, uint. cbn [sr_Hash sr_Err]. rewrite refuses_own by (rewrite !length_app, length_be_enc; lia).
  rewrite slice_cons, slice_here by fits. rewrite be_dec_enc, Nat2Z.id by (split; [lia|exact Hh]). cbn [length]. rewrite ?length_app, ?length_be_enc.
  inRange. cbn [Nat.add]. by fields.
Qed.

Lemma validators_format : formatOk validatorsFmt.
Proof.
  openFormat validatorsFmt DecodeGetValidatorsResp. intros [ep l] (He & Hc & Hl). cbn [gv_Epoch gv_Validators] in *.
  unfold DecodeGetValidatorsResp, EncodeGetValidatorsResp, uint. cbn [gv_Epoch gv_Validators].
  rewrite refuses_own by (rewrite !length_app, !length_be_enc; lia). fields. reads. rewrite count_read by done.
  rewrite <- (app_nil_r (concat (map putEntry l))), entries_read by done. done.
Qed.

Lemma status_format : formatOk statusFmt.
Proof.
  openFormat statusFmt DecodeStatusResp. intros x (H64 & H32 & Hp). unfold is32 in *.
  do 6 apply Forall_cons in H64 as [? H64]. do 4 apply Forall_cons in H32 as [? H32].
  unfold DecodeStatusResp, uint. assert (Hl : length (EncodeStatusResp x) = 98%nat).
  { unfold EncodeStatusResp. cbn [length]. rewrite !length_app, !length_be_enc, Hp. done. }
  rewrite Hl. unfold EncodeStatusResp in *. rewrite refuses_own by (cbn [length] in Hl; lia). cbn [Nat.leb andb]. clear Hl. fields. reads. by destruct x.
Qed.

Lemma faucetResp_format : formatOk faucetRespFmt.
Proof.
  openFormat faucetRespFmt DecodeFaucetResp. intros [h cn e] [Hh Hc]. cbn [fa_Hash fa_CoinID] in *. unfold short in *.
  unfold DecodeFaucetResp, EncodeFaucetResp. cbn [fa_Hash fa_CoinID fa_Err]. rewrite !Z.mod_small by lia.
  rewrite refuses_own by (cbn [length]; lia). fields. rewrite Nat2Z.id. cbn [length]. rewrite ?length_app. cbn [length]. rewrite ?length_app.
  inRange. cbn [Nat.add].
  fields. rewrite Nat2Z.id.
  inRange.
  replace (length h + 1 - length h)%nat with 1%nat by lia. replace (length h + 1 + length cn - length h)%nat with (S (length cn)) by lia.
  by fields.
Qed.

Lemma anchor_length a : anchorOk a -> length (putProvedAnchor a) = 169%nat.
Proof. intros []. by apply length_putProvedAnchor. Qed.

Lemma domain_format : formatOk domainFmt.
Proof.
  openFormat domainFmt DecodeDomainResolveResp. intros [fd id a lf pf] (Ha & Hi & Hl & Hp). cbn [dr_Anchor dr_ObjectID dr_Leaf dr_Proof] in *.
  unfold is32, DecodeDomainResolveResp, EncodeDomainResolveResp, provedAnchorSize in *. cbn [dr_Anchor dr_ObjectID dr_Leaf dr_Proof dr_Found].
  pose proof (anchor_length a Ha) as La. rewrite refuses_own by (rewrite length_app; cbn [length]; rewrite length_app; lia). cbn [Nat.add].
  fields. rewrite blob_read by done. cbn [mbind option_bind]. rewrite <- (app_nil_r (putBlob pf)), blob_read by done. cbn [mbind option_bind].
  by rewrite provedAnchor_read.
Qed.

Lemma range_format : formatOk rangeFmt.
Proof.
  openFormat rangeFmt DecodeGetVertexRangeResp. intros l (Hc & Hl). unfold DecodeGetVertexRangeResp, EncodeGetVertexRangeResp, uint.
  rewrite refuses_own by (rewrite length_app, length_be_enc; lia). fields. rewrite count_read by done.
  rewrite <- (app_nil_r (concat (map putBlob l))). by rewrite vertices_read.
Qed.

Lemma validHeaders_all l : Forall (fun h => length h = IndexAnchorHeaderSize) l -> validAnchorHeaders l = l.
Proof. unfold validAnchorHeaders. induction 1 as [|h l Hh Hl IH]; [done|]. rewrite filter_cons_True by done. by rewrite IH. Qed.

Lemma bundle_format : formatOk bundleFmt.
Proof.
  openFormat bundleFmt DecodeGetIndexAnchorResp. intros [fd fr rt ep hs] (Hf & Hr & He & Hc & Hh).
  cbn [ia_FrontierRound ia_IndexRoot ia_Epoch ia_Headers] in *. unfold is32, DecodeGetIndexAnchorResp, EncodeGetIndexAnchorResp, uint in *.
  cbn [ia_FrontierRound ia_IndexRoot ia_Epoch ia_Headers ia_Found]. rewrite validHeaders_all by done.
  rewrite refuses_own by (cbn [length]; rewrite !length_app, !length_be_enc; lia). fields. reads. rewrite count_read by done.
  rewrite <- (app_nil_r (concat hs)). by rewrite records_read.
Qed.

Lemma children_format : formatOk childrenFmt.
Proof.
  openFormat childrenFmt DecodeListChildrenResp. intros [a fd rt pf cs] (Ha & Hr & Hp & Hc & Hcs).
  cbn [lr_Anchor lr_SubtreeRoot lr_Proof lr_Children] in *. unfold is32, DecodeListChildrenResp, EncodeListChildrenResp, provedAnchorSize in *.
  cbn [lr_Anchor lr_Found lr_SubtreeRoot lr_Proof lr_Children]. pose proof (anchor_length a Ha) as La.
  rewrite refuses_own by (rewrite length_app; cbn [length]; rewrite length_app; lia). cbn [Nat.add].
  fields. rewrite blob_read by done. cbn [mbind option_bind]. rewrite childIDs_read by done. cbn [mbind option_bind]. by rewrite provedAnchor_read.
Qed.

Lemma ancestors_format : formatOk ancestorsFmt.
Proof.
  openFormat ancestorsFmt DecodeGetAncestorsResp. intros [a es] (Ha & Hc & He). cbn [ga_Anchor ga_Edges] in *.
  unfold DecodeGetAncestorsResp, EncodeGetAncestorsResp, provedAnchorSize, uint. cbn [ga_Anchor ga_Edges]. pose proof (anchor_length a Ha) as La.
  rewrite refuses_own by (rewrite !length_app, length_be_enc; lia). cbn [Nat.add]. fields. rewrite count_read by done.
  rewrite provedAnchor_read by done. rewrite <- (app_nil_r (concat (map putEdge es))), edges_read by done. done.
Qed.

Lemma tree_format : formatOk treeFmt.
Proof.
  openFormat treeFmt DecodeGetValidatorTreeResp. intros [a fd ep ls] (Ha & He & Hc & Hl). cbn [gt_Anchor gt_Epoch gt_Leaves] in *.
  unfold DecodeGetValidatorTreeResp, EncodeGetValidatorTreeResp, provedAnchorSize, uint. cbn [gt_Anchor gt_Found gt_Epoch gt_Leaves].
  pose proof (anchor_length a Ha) as La. rewrite refuses_own by (rewrite !length_app; cbn [length]; rewrite !length_app, !length_be_enc; lia).
  cbn [Nat.add]. fields. rewrite count_read by done. reads. rewrite provedAnchor_read by done.
  rewrite <- (app_nil_r (concat (map putBlob ls))), blobs_read by done. done.
Qed.

Lemma fingerprint_format : formatOk fingerprintFmt.
Proof.
  openFormat fingerprintFmt DecodeStateFingerprintResp. intros x (H64 & Hc). do 6 apply Forall_cons in H64 as [? H64].
  unfold is32, DecodeStateFingerprintResp, EncodeStateFingerprintResp, fingerprintRespFixedLen, uint in *.
  rewrite refuses_own by (rewrite !length_app, !length_be_enc; lia). fields. reads. by destruct x.
Qed.

Lemma small_formats : formatOk txStatusFmt /\ formatOk treeRequestFmt /\
  formatOk healthFmt.
Proof.
  split_and!.
  - openFormat txStatusFmt DecodeGetTxStatusResp. by intros [st rs] _.
  - openFormat treeRequestFmt DecodeGetValidatorTree. intros ep He. unfold DecodeGetValidatorTree, EncodeGetValidatorTree, uint.
    rewrite refuses_own by (rewrite length_be_enc; lia). fields. by reads.
  - openFormat healthFmt DecodeHealthResp. by intros [] _.
Qed.

Lemma formats_ok : Forall formatOk formats.
Proof.
  destruct small_formats as (? & ? & ?). unfold formats. repeat apply Forall_cons_2; try apply Forall_nil_2; auto using objectRequest_format,
    faucetRequest_format, rangeRequest_format, control_format, submitResp_format, validators_format, status_format, faucetResp_format, domain_format,
    range_format, bundle_format, children_format, ancestors_format, tree_format, fingerprint_format; first [by apply body_format|by apply id_format|by apply found_format].
Qed.

Lemma formats_tags : NoDup (map f_tag formats).
Proof. apply (bool_decide_unpack _). vm_compute. exact I. Qed.

(** Every message reads back as it was sent, and no other decoder takes it. *)

(** C37. Every request and response of the wire protocol whose fields fit their widths
    decodes to what was encoded, and no decoder of another message takes its bytes. *)
Theorem every_message_reads_back f x :
  In f formats -> f_fits f x ->
  f_decode f (f_encode f x) = Some x /\ forall g, In g formats -> f_tag g ≠ f_tag f -> f_decode g (f_encode f x) = None.
Proof.
  intros Hf Hx. pose proof formats_ok as Hok. rewrite Forall_forall in Hok. split; [by apply Hok; [apply list_elem_of_In|]|].
  intros g Hg Hne. destruct (fo_tag f (Hok f ltac:(by apply list_elem_of_In)) x) as [r ->]. apply fo_other; [by apply Hok, list_elem_of_In|done].
Qed.

(** ** Truncation *)

Lemma take_short (n : nat) (x r : bytes) : (n < length x)%nat -> take n (x ++ r) = take n x.
Proof. intros Hn. apply take_app_le. lia. Qed.

Lemma take_past (n : nat) (x r : bytes) : (length x <= n)%nat -> take n (x ++ r) = x ++ take (n - length x) r.
Proof. apply take_app_ge. Qed.

Lemma length_putBlob b : length (putBlob b) = (4 + length b)%nat.
Proof. unfold putBlob. by rewrite length_app, length_be_enc. Qed.

Lemma blob_cut n b : short 4 b -> (n < length (putBlob b))%nat -> readBlob (take n (putBlob b)) = None.
Proof.
  intros Hb. rewrite length_putBlob. intros Hn. unfold readBlob, uint. rewrite length_take, length_putBlob, Nat.min_l by lia.
  destruct (Nat.ltb_spec n 4); [done|]. unfold putBlob at 1. rewrite take_past by fits. rewrite length_be_enc.
  rewrite slice_here by fits. rewrite count_read by exact Hb. destruct (Nat.ltb_spec n (4 + length b)); [done|lia].
Qed.

Lemma blobs_cut l : Forall (short 4) l -> forall n, (n < length (concat (map putBlob l)))%nat ->
  readBlobs (length l) (take n (concat (map putBlob l))) = None.
Proof.
  induction 1 as [|b l Hb Hl IH]; intros n Hn; [cbn in Hn; lia|]. cbn [length readBlobs map concat] in *. rewrite length_app in Hn.
  destruct (Nat.lt_ge_cases n (length (putBlob b))) as [Hs|Hs].
  - rewrite take_short by done. by rewrite blob_cut.
  - rewrite take_past by done. rewrite blob_read by done. cbn [mbind option_bind]. rewrite IH by lia. done.
Qed.

Lemma edge_cut n e : edgeOk e -> (n < length (putEdge e))%nat -> readAncestorEdge (take n (putEdge e)) = None.
Proof.
  intros (Hc & Hl & Hp) Hn. unfold readAncestorEdge, putEdge in *. rewrite !length_app, Hc in Hn.
  destruct (Nat.lt_ge_cases n 32) as [Hs|Hs].
  { rewrite length_take. destruct (Nat.ltb_spec (n `min` length (wg_ChildID e ++ putBlob (wg_Leaf e) ++ putBlob (wg_Proof e))) 32); [done|lia]. }
  rewrite take_past by lia. rewrite Hc, length_app, Hc. destruct (Nat.ltb_spec (32 + length (take (n - 32) (putBlob (wg_Leaf e) ++ putBlob (wg_Proof e)))) 32); [lia|].
  fields. destruct (Nat.lt_ge_cases (n - 32) (length (putBlob (wg_Leaf e)))) as [Hs'|Hs'].
  - rewrite take_short by done. by rewrite blob_cut.
  - rewrite take_past by done. rewrite blob_read by done. cbn [mbind option_bind]. rewrite blob_cut; [done|done|lia].
Qed.

Lemma edges_cut l : Forall edgeOk l -> forall n, (n < length (concat (map putEdge l)))%nat ->
  readEdges (length l) (take n (concat (map putEdge l))) = None.
Proof.
  induction 1 as [|e l He Hl IH]; intros n Hn; [cbn in Hn; lia|]. cbn [length readEdges map concat] in *. rewrite length_app in Hn.
  destruct (Nat.lt_ge_cases n (length (putEdge e))) as [Hs|Hs].
  - rewrite take_short by done. by rewrite edge_cut.
  - rewrite take_past by done. rewrite edge_read by done. cbn [mbind option_bind]. rewrite IH by lia. done.
Qed.

Lemma childIDs_cut n l : counted l -> Forall is32 l -> (n < length (be_enc 4 (Z.of_nat (length l)) ++ concat l))%nat ->
  readChildIDs (take n (be_enc 4 (Z.of_nat (length l)) ++ concat l)) = None.
Proof.
  intros Hc Hl. rewrite length_app, length_be_enc, length_hashes by done. intros Hn. unfold readChildIDs, uint.
  rewrite length_take, length_app, length_be_enc, length_hashes, Nat.min_l by (done || lia).
  destruct (Nat.ltb_spec n 4); [done|]. rewrite take_past by fits. rewrite length_be_enc. fields. rewrite count_read by done.
  rewrite length_take, length_hashes, Nat.min_l by (done || lia). destruct (Nat.ltb_spec (n - 4) (length l * 32)); [done|lia].
Qed.

Lemma refuses_short data n tag : (length data < n)%nat -> refuses data n tag = true.
Proof. intros Hn. unfold refuses. by destruct (Nat.ltb_spec (length data) n); [|lia]. Qed.

Lemma refuses_same x y n tag : length x = length y -> at_ x 0 = at_ y 0 -> refuses x n tag = refuses y n tag.
Proof. unfold refuses. by intros -> ->. Qed.

Lemma domain_cut r n : f_fits domainFmt r -> (n < length (EncodeDomainResolveResp r))%nat -> DecodeDomainResolveResp (take n (EncodeDomainResolveResp r)) = None.
Proof.
  intros (Ha & Hi & Hl & Hp) Hn. pose proof (anchor_length _ Ha) as La. unfold is32 in Hi. unfold DecodeDomainResolveResp, provedAnchorSize. cbn [Nat.add].
  destruct (Nat.lt_ge_cases n 203) as [Hs|Hs]; [by rewrite refuses_short by (rewrite length_take; lia)|].
  assert (E : EncodeDomainResolveResp r = (MsgTagDomainResolveResp :: putProvedAnchor (dr_Anchor r) ++ flag (dr_Found r) :: dr_ObjectID r) ++
    putBlob (dr_Leaf r) ++ putBlob (dr_Proof r)) by (cbn [app]; by rewrite <- app_assoc).
  rewrite E in *. set (pre := MsgTagDomainResolveResp :: _) in *.
  assert (Lp : length pre = 203%nat) by (unfold pre; cbn [length]; rewrite length_app; cbn [length]; lia). clearbody pre. rewrite !length_app in Hn.
  rewrite take_past by lia. rewrite Lp. destruct (refuses _ _ _); [done|]. rewrite (drop_skip pre _ 203), Lp, Nat.sub_diag, drop_0 by lia.
  destruct (Nat.lt_ge_cases (n - 203) (length (putBlob (dr_Leaf r)))) as [Hs'|Hs'].
  - rewrite take_short by done. by rewrite blob_cut.
  - rewrite take_past by done. rewrite blob_read by done. cbn [mbind option_bind]. rewrite blob_cut; [done|done|lia].
Qed.

Lemma children_cut r n : f_fits childrenFmt r -> (n < length (EncodeListChildrenResp r))%nat -> DecodeListChildrenResp (take n (EncodeListChildrenResp r)) = None.
Proof.
  intros (Ha & Hi & Hp & Hc & Hcs) Hn. pose proof (anchor_length _ Ha) as La. unfold is32 in Hi. unfold DecodeListChildrenResp, provedAnchorSize. cbn [Nat.add].
  destruct (Nat.lt_ge_cases n 203) as [Hs|Hs]; [by rewrite refuses_short by (rewrite length_take; lia)|].
  assert (E : EncodeListChildrenResp r = (MsgTagListChildrenResp :: putProvedAnchor (lr_Anchor r) ++ flag (lr_Found r) :: lr_SubtreeRoot r) ++
    putBlob (lr_Proof r) ++ be_enc 4 (Z.of_nat (length (lr_Children r))) ++ concat (lr_Children r)) by (cbn [app]; by rewrite <- app_assoc).
  rewrite E in *. set (pre := MsgTagListChildrenResp :: _) in *.
  assert (Lp : length pre = 203%nat) by (unfold pre; cbn [length]; rewrite length_app; cbn [length]; lia). clearbody pre.
  rewrite (length_app pre), (length_app (putBlob _)) in Hn.
  rewrite take_past by lia. rewrite Lp. destruct (refuses _ _ _); [done|]. rewrite (drop_skip pre _ 203), Lp, Nat.sub_diag, drop_0 by lia.
  destruct (Nat.lt_ge_cases (n - 203) (length (putBlob (lr_Proof r)))) as [Hs'|Hs'].
  - rewrite take_short by done. by rewrite blob_cut.
  - rewrite take_past by done. rewrite blob_read by done. cbn [mbind option_bind]. rewrite childIDs_cut; [done|done|done|lia].
Qed.

Lemma ancestors_cut r n : f_fits ancestorsFmt r -> (n < length (EncodeGetAncestorsResp r))%nat -> DecodeGetAncestorsResp (take n (EncodeGetAncestorsResp r)) = None.
Proof.
  intros (Ha & Hc & He) Hn. pose proof (anchor_length _ Ha) as La. unfold DecodeGetAncestorsResp, provedAnchorSize, uint. cbn [Nat.add].
  destruct (Nat.lt_ge_cases n 174) as [Hs|Hs]; [by rewrite refuses_short by (rewrite length_take; lia)|].
  destruct (refuses _ _ _); [done|]. unfold EncodeGetAncestorsResp in *. cbn [length] in Hn. rewrite !length_app, length_be_enc, La in Hn.
  destruct n as [|n]; [lia|]. cbn [take]. rewrite take_past by lia. rewrite La, take_past by fits. rewrite length_be_enc. fields.
  rewrite count_read by done. rewrite edges_cut; [done|done|lia].
Qed.

Lemma tree_cut r n : f_fits treeFmt r -> (n < length (EncodeGetValidatorTreeResp r))%nat -> DecodeGetValidatorTreeResp (take n (EncodeGetValidatorTreeResp r)) = None.
Proof.
  intros (Ha & He & Hc & Hl) Hn. pose proof (anchor_length _ Ha) as La. unfold DecodeGetValidatorTreeResp, provedAnchorSize, uint. cbn [Nat.add].
  destruct (Nat.lt_ge_cases n 183) as [Hs|Hs]; [by rewrite refuses_short by (rewrite length_take; lia)|].
  destruct (refuses _ _ _); [done|]. assert (E : EncodeGetValidatorTreeResp r =
    (MsgTagGetValidatorTreeResp :: putProvedAnchor (gt_Anchor r) ++ flag (gt_Found r) :: be_enc 8 (gt_Epoch r)) ++
    be_enc 4 (Z.of_nat (length (gt_Leaves r))) ++ concat (map putBlob (gt_Leaves r))) by (cbn [app]; by rewrite <- app_assoc).
  rewrite E in *. set (pre := MsgTagGetValidatorTreeResp :: _) in *.
  assert (Lp : length pre = 179%nat) by (unfold pre; cbn [length]; rewrite length_app; cbn [length]; rewrite length_be_enc; lia). clearbody pre.
  rewrite !length_app, length_be_enc in Hn. rewrite take_past by lia. rewrite Lp, take_past by (rewrite length_be_enc; lia). rewrite length_be_enc.
  rewrite (slice_skip pre _ 179 183), (drop_skip pre _ 183), Lp by lia. cbn [Nat.sub].
  rewrite slice_here, count_read by (done || fits). rewrite (drop_app_length' (be_enc 4 _)) by fits. rewrite blobs_cut; [done|done|lia].
Qed.

(** A cut answer is an error: it never reads as a shorter enumeration, walk or
    committee. *)
Theorem truncated_answers_are_refused :
  (forall r n, f_fits domainFmt r -> (n < length (EncodeDomainResolveResp r))%nat -> DecodeDomainResolveResp (take n (EncodeDomainResolveResp r)) = None) /\
  (forall r n, f_fits childrenFmt r -> (n < length (EncodeListChildrenResp r))%nat -> DecodeListChildrenResp (take n (EncodeListChildrenResp r)) = None) /\
  (forall r n, f_fits ancestorsFmt r -> (n < length (EncodeGetAncestorsResp r))%nat -> DecodeGetAncestorsResp (take n (EncodeGetAncestorsResp r)) = None) /\
  (forall r n, f_fits treeFmt r -> (n < length (EncodeGetValidatorTreeResp r))%nat -> DecodeGetValidatorTreeResp (take n (EncodeGetValidatorTreeResp r)) = None).
Proof. split_and!; intros r n Hr Hn; [by apply domain_cut|by apply children_cut|by apply ancestors_cut|by apply tree_cut]. Qed.

(** ** Samples *)

Definition sampleAnchor : ProvedIndexAnchor :=
  mkProvedAnchor true 7 (replicate 32 1) (replicate 32 2) (replicate 32 3) (replicate 32 4) (replicate 32 5).

Definition sampleChildren : ListChildrenResponse :=
  mkChildrenResp sampleAnchor true (replicate 32 6) [9; 9] [replicate 32 7; replicate 32 8].

Lemma sampleChildren_fits : f_fits childrenFmt sampleChildren.
Proof.
  split_and!; [split; try done; by vm_compute|done|by vm_compute|by vm_compute|]. repeat constructor.
Qed.

Theorem every_message_reads_back_witness :
  DecodeListChildrenResp (EncodeListChildrenResp sampleChildren) = Some sampleChildren /\
  DecodeGetAncestorsResp (EncodeListChildrenResp sampleChildren) = None.
Proof.
  destruct (every_message_reads_back childrenFmt sampleChildren) as [Hr Ho].
  - unfold formats. do 23 right. left. reflexivity.
  - exact sampleChildren_fits.
  - split; [exact Hr|]. apply (Ho ancestorsFmt); [unfold formats; do 24 right; left; reflexivity|by vm_compute].
Defined.

(** Thirteen bytes make the client reserve room for 2^32 - 1 validators. *)
Theorem validators_answer_reserves_by_claim :
  let data := MsgTagGetValidatorsResp :: replicate 8 0 ++ replicate 4 255 in
  reservedEntries data = 2 ^ 32 - 1 /\ DecodeGetValidatorsResp data = None.
Proof.
  split; [by vm_compute|]. unfold DecodeGetValidatorsResp. rewrite refuses_own by done.
  assert (E : uint (MsgTagGetValidatorsResp :: replicate 8 0 ++ replicate 4 255) 9 13 = 2 ^ 32 - 1) by (by vm_compute). rewrite E.
  destruct (Z.to_nat (2 ^ 32 - 1)) as [|k] eqn:Ek; [lia|done].
Qed.
