(* ===== verification/LightClient.v ===== *)
(** * The light client (pkg/client/anchorheader.go, verify.go, verifyproof.go,
    provedanswers.go, refusal.go, lightclient.go)

    What a client checks of an answer it does not trust: signed headers, a
    capped-stake quorum over them, the component roots, the proofs, and the walk of
    its checkpoint across epochs.  A node is an arbitrary state machine behind
    [indexSource]. *)

From S2P Require Import Prelude Types Header Smt Index Wire.

(** ** Results *)

(** The errors the source distinguishes; [errBound] wraps the last poll's. *)
Inductive lcError :=
| errNoBundle | errEmptySet | errShortQuorum | errCheckpointBehind
| errUnanchored | errUnbound | errProofEncoding | errFold
| errNoAnswer | errLeafEncoding | errWrongLeaf | errStreamedUnderAbsence | errRepeatedID | errRebuild
| errEmptyWalk | errBrokenChain | errWithheldTail
| errNoTree | errWrongEpoch | errNotPinned
| errTransport | errBound (last : option lcError).

(** [Crash] is a panic inside the Merkle index. *)
Inductive res (A : Type) := Val (a : A) | Err (e : lcError) | Crash.
Arguments Val {A}. Arguments Err {A}. Arguments Crash {A}.

#[export] Instance res_ret : MRet res := fun _ => Val.
#[export] Instance res_bind : MBind res := fun _ _ f r => match r with Val a => f a | Err e => Err e | Crash => Crash end.

Definition guard_ (b : bool) (e : lcError) : res unit := if b then Val tt else Err e.
Definition orErr {A} (o : option A) (e : lcError) : res A := match o with Some a => Val a | None => Err e end.
Definition orCrash {A} (o : option A) : res A := match o with Some a => Val a | None => Crash end.

(** ** Data *)

Record Checkpoint := mkCheckpoint { cp_Epoch : Z; cp_IndexRoot : Hash; cp_ValidatorSetHash : Hash }.

(** [client.ValidatorSet]. *)
Record Committee := mkCommittee { cm_Epoch : Z; cm_Leaves : list ValidatorLeaf }.

Record VerifiedAnchor := mkVerified { vn_FrontierRound : Z; vn_IndexRoot : Hash; vn_Epoch : Z }.

Inductive Component := DomainComponent | ParentComponent | ChildrenComponent.

(** [anchorHeader]. *)
Record anchorHeader := mkAnchorHeader { ah_Producer : Hash; ah_Epoch : Z; ah_FrontierRound : Z; ah_IndexRoot : Hash }.

Definition anchorHeaderSize : nat := IndexAnchorHeaderSize - signatureSize.

(** ** Weighing *)

Definition maxUint64 : Z := two64 - 1.

Definition saturatingAdd (a b : Z) : Z := let sum := a +w b in if sum <? a then maxUint64 else sum.

(** [bits.Mul64] overflows when the product does not fit. *)
Definition saturatingMul (a b : Z) : Z :=
  if (a =? 0) || (b =? 0) then 0 else if two64 <=? a * b then maxUint64 else a *w b.

Definition cappedStakeOf (set : Committee) (attesting : gset Hash) : Z * Z :=
  foldl (fun acc leaf =>
    (if bool_decide (vl_Pubkey leaf ∈ attesting) then saturatingAdd (fst acc) (vl_CappedStake leaf) else fst acc,
     saturatingAdd (snd acc) (vl_CappedStake leaf))) (0, 0) (cm_Leaves set).

Definition quorumReached (attesting total : Z) : bool :=
  if total =? 0 then false else saturatingMul 2 total <=? saturatingMul 3 attesting.

Definition membersByPubkey (set : Committee) : gset Hash := list_to_set (map vl_Pubkey (cm_Leaves set)).

Definition attestsBundle (header : anchorHeader) (bundle : GetIndexAnchorResponse) (set : Committee) : bool :=
  if negb (ah_FrontierRound header =? ia_FrontierRound bundle) || negb (bool_decide (ah_IndexRoot header = ia_IndexRoot bundle)) then false
  else (ah_Epoch header =? cm_Epoch set) || (ah_Epoch header =? cm_Epoch set +w 1).

(** ** Leaves and proofs *)

Definition nilIfEmpty (b : bytes) : option bytes := match b with [] => None | _ => Some b end.

Fixpoint decodeValidatorLeaves (values : list bytes) : res (list ValidatorLeaf) :=
  match values with
  | [] => Val []
  | v :: values => leaf ← orErr (DecodeValidatorLeaf v) errLeafEncoding; leaves ← decodeValidatorLeaves values; Val (leaf :: leaves)
  end.

Definition componentRoot (anchor : ProvedIndexAnchor) (c : Component) : Hash :=
  match c with
  | DomainComponent => pa_DomainRoot anchor
  | ParentComponent => pa_ParentRoot anchor
  | ChildrenComponent => pa_ChildrenRoot anchor
  end.

(** ** The node and the client's state *)

(** [indexSource]: a reply is [None] on a transport error, [Some None] when nil. *)
Record indexSource (W : Type) := mkSource {
  GetIndexAnchor : W -> W * option (option GetIndexAnchorResponse);
  GetValidatorTree : W -> Z -> W * option (option GetValidatorTreeResponse);
  ResolveDomainProved : W -> bytes -> W * option (option DomainResolveResponse);
  sourceListChildren : W -> Hash -> W * option (option ListChildrenResponse);
  sourceGetAncestors : W -> Hash -> W * option (option GetAncestorsResponse);
}.
Arguments GetIndexAnchor {W}. Arguments GetValidatorTree {W}. Arguments ResolveDomainProved {W}.
Arguments sourceListChildren {W}. Arguments sourceGetAncestors {W}. Arguments mkSource {W}.

Record LightClient := mkLight { lc_checkpoint : Checkpoint; lc_set : Committee; lc_advanceErr : option lcError }.

Definition emptyCommittee : Committee := mkCommittee 0 [].

Definition NewLightClient (cp : Checkpoint) : LightClient := mkLight cp emptyCommittee None.

Section Client.
Context (X : Crypto).

Definition headerIdentity (header : bytes) : Hash := blake3 X (headerDomainTag :: header).

Definition parseAnchorRecord (record : bytes) : option anchorHeader :=
  if negb (Nat.eqb (length record) IndexAnchorHeaderSize) then None
  else
    let header := take anchorHeaderSize record in
    let out := mkAnchorHeader (slice header 0 32) (uint header 40 48) (uint header 48 56) (slice header 56 88) in
    if negb (ed25519Verify X (ah_Producer out) (headerIdentity header) (drop anchorHeaderSize record)) then None else Some out.

(** One record of the loop of [countedProducers]: the buckets for N and N+1. *)
Definition countRecord (bundle : GetIndexAnchorResponse) (set : Committee) (acc : gset Hash * gset Hash) (record : bytes) : gset Hash * gset Hash :=
  match parseAnchorRecord record with
  | None => acc
  | Some header =>
      if negb (attestsBundle header bundle set) then acc
      else if negb (bool_decide (ah_Producer header ∈ membersByPubkey set)) then acc
      else if ah_Epoch header =? cm_Epoch set +w 1 then (fst acc, {[ ah_Producer header ]} ∪ snd acc)
      else ({[ ah_Producer header ]} ∪ fst acc, snd acc)
  end.

Definition countedProducers (bundle : GetIndexAnchorResponse) (set : Committee) : gset Hash * gset Hash :=
  foldl (countRecord bundle set) (∅, ∅) (ia_Headers bundle).

Definition unionOfProducers (a b : gset Hash) : gset Hash := a ∪ b.

Fixpoint outsideLoop (records : list bytes) (set : Committee) (sawParsable : bool) : bool :=
  match records with
  | [] => sawParsable
  | record :: records =>
      match parseAnchorRecord record with
      | None => outsideLoop records set sawParsable
      | Some header => if (ah_Epoch header =? cm_Epoch set) || (ah_Epoch header =? cm_Epoch set +w 1) then false else outsideLoop records set true
      end
  end.

Definition allHeadersOutsideWindow (bundle : GetIndexAnchorResponse) (set : Committee) : bool := outsideLoop (ia_Headers bundle) set false.

Definition refusalError (bundle : GetIndexAnchorResponse) (set : Committee) (atCurrentEpoch atNextEpoch : gset Hash) : lcError :=
  if bool_decide (atCurrentEpoch = ∅) && bool_decide (atNextEpoch = ∅) && Nat.ltb 0 (length (ia_Headers bundle)) && allHeadersOutsideWindow bundle set
  then errCheckpointBehind else errShortQuorum.

Definition VerifyAnchor (bundle : option GetIndexAnchorResponse) (set : Committee) : res VerifiedAnchor :=
  match bundle with
  | None => Err errNoBundle
  | Some bundle =>
      if negb (ia_Found bundle) then Err errNoBundle
      else if Nat.eqb (length (cm_Leaves set)) 0 then Err errEmptySet
      else
        let '(atCurrentEpoch, atNextEpoch) := countedProducers bundle set in
        let '(attesting, total) := cappedStakeOf set atNextEpoch in
        if quorumReached attesting total then Val (mkVerified (ia_FrontierRound bundle) (ia_IndexRoot bundle) (cm_Epoch set +w 1))
        else
          let '(attesting, total) := cappedStakeOf set (unionOfProducers atCurrentEpoch atNextEpoch) in
          if quorumReached attesting total then Val (mkVerified (ia_FrontierRound bundle) (ia_IndexRoot bundle) (cm_Epoch set))
          else Err (refusalError bundle set atCurrentEpoch atNextEpoch)
  end.

Definition bind (a : VerifiedAnchor) (anchor : ProvedIndexAnchor) : res unit :=
  if negb (pa_Anchored anchor) then Err errUnanchored
  else
    let combined := CombinedRoot (blake3 X) (pa_DomainRoot anchor) (pa_ParentRoot anchor) (pa_ChildrenRoot anchor) (pa_ValidatorRoot anchor) in
    guard_ (bool_decide (combined = vn_IndexRoot a)) errUnbound.

Definition VerifyProof (a : VerifiedAnchor) (anchor : ProvedIndexAnchor) (c : Component) (key : bytes) (value : option bytes) (proof : bytes) : res unit :=
  _ ← bind a anchor;
  parsed ← orErr (DeserializeProof proof) errProofEncoding;
  guard_ (Smt.Verify (blake3 X) (componentRoot anchor c) key value parsed) errFold.

Definition VerifyDomain (a : VerifiedAnchor) (resp : option DomainResolveResponse) (name : bytes) : res (option DomainLeaf) :=
  resp ← orErr resp errNoAnswer;
  let value := nilIfEmpty (dr_Leaf resp) in
  _ ← VerifyProof a (dr_Anchor resp) DomainComponent name value (dr_Proof resp);
  match value with
  | None => Val None
  | Some value =>
      leaf ← orErr (DecodeDomainLeaf value) errLeafEncoding;
      _ ← guard_ (bool_decide (dl_Name leaf = name)) errWrongLeaf;
      Val (Some leaf)
  end.

Definition VerifyChildren (a : VerifiedAnchor) (resp : option ListChildrenResponse) (parent : Hash) : res (list Hash) :=
  resp ← orErr resp errNoAnswer;
  let value := if lr_Found resp then Some (lr_SubtreeRoot resp) else None in
  _ ← VerifyProof a (lr_Anchor resp) ChildrenComponent parent value (lr_Proof resp);
  if negb (lr_Found resp) then
    _ ← guard_ (Nat.eqb (length (lr_Children resp)) 0) errStreamedUnderAbsence; Val []
  else
    rebuilt ← orCrash (ChildrenSubtreeRoot (blake3 X) (lr_Children resp));
    rebuilt ← orErr rebuilt errRepeatedID;
    _ ← guard_ (bool_decide (rebuilt = lr_SubtreeRoot resp)) errRebuild;
    Val (lr_Children resp).

(** [verifyEdge]; [None] is an edge proved absent. *)
Definition verifyEdge (a : VerifiedAnchor) (anchor : ProvedIndexAnchor) (edge : WireEdge) (expected : Hash) : res (option ParentLeaf) :=
  _ ← guard_ (bool_decide (wg_ChildID edge = expected)) errBrokenChain;
  let value := nilIfEmpty (wg_Leaf edge) in
  _ ← VerifyProof a anchor ParentComponent (wg_ChildID edge) value (wg_Proof edge);
  match value with
  | None => Val None
  | Some value =>
      leaf ← orErr (DecodeParentLeaf value) errLeafEncoding;
      _ ← guard_ (bool_decide (pl_ChildID leaf = wg_ChildID edge)) errWrongLeaf;
      Val (Some leaf)
  end.

Fixpoint ancestryLoop (a : VerifiedAnchor) (anchor : ProvedIndexAnchor) (edges : list WireEdge) (expected : Hash) : res (list ParentLeaf) :=
  match edges with
  | [] => Err errWithheldTail
  | edge :: edges =>
      leaf ← verifyEdge a anchor edge expected;
      match leaf with
      | None => Val []
      | Some leaf =>
          if pl_ParentKind leaf =? KeyRootKind then Val [leaf]
          else chain ← ancestryLoop a anchor edges (pl_Parent leaf); Val (leaf :: chain)
      end
  end.

Definition VerifyAncestry (a : VerifiedAnchor) (resp : option GetAncestorsResponse) (object : Hash) : res (list ParentLeaf) :=
  resp ← orErr resp errEmptyWalk;
  _ ← guard_ (negb (Nat.eqb (length (ga_Edges resp)) 0)) errEmptyWalk;
  ancestryLoop a (ga_Anchor resp) (ga_Edges resp) object.

Definition VerifyValidatorSet (a : VerifiedAnchor) (resp : option GetValidatorTreeResponse) : res Committee :=
  resp ← orErr resp errNoTree;
  _ ← guard_ (gt_Found resp) errNoTree;
  _ ← bind a (gt_Anchor resp);
  leaves ← decodeValidatorLeaves (gt_Leaves resp);
  root ← orCrash (ValidatorRootOf (blake3 X) leaves);
  _ ← guard_ (bool_decide (root = pa_ValidatorRoot (gt_Anchor resp))) errRebuild;
  Val (mkCommittee (gt_Epoch resp) leaves).

Definition authenticate (cp : Checkpoint) (resp : option GetValidatorTreeResponse) : res Committee :=
  match resp with
  | None => Err errWrongEpoch
  | Some r =>
      if negb (gt_Found r) then Err errWrongEpoch
      else if negb (gt_Epoch r =? cp_Epoch cp) then Err errWrongEpoch
      else
        match VerifyValidatorSet (mkVerified 0 (cp_IndexRoot cp) 0) resp with
        | Val set => Val set
        | Crash => Crash
        | Err _ =>
            leaves ← decodeValidatorLeaves (gt_Leaves r);
            root ← orCrash (ValidatorRootOf (blake3 X) leaves);
            _ ← guard_ (bool_decide (root = cp_ValidatorSetHash cp)) errNotPinned;
            Val (mkCommittee (gt_Epoch r) leaves)
        end
  end.

(** ** The client *)

Section Methods.
Context {W : Type} (src : indexSource W).

(** A method: the client's state and the node's, threaded. *)
Definition method (A : Type) : Type := LightClient * W -> (LightClient * W) * res A.

Definition mret_ {A} (r : res A) : method A := fun st => (st, r).
Definition mbind_ {A B} (m : method A) (f : A -> method B) : method B :=
  fun st => let '(st, r) := m st in match r with Val a => f a st | Err e => (st, Err e) | Crash => (st, Crash) end.

Definition ask {A} (f : W -> W * option (option A)) : method (option A) :=
  fun st => let '(s, reply) := f (snd st) in ((fst st, s), match reply with Some r => Val r | None => Err errTransport end).

Definition validatorSet : method Committee := fun st =>
  if Nat.ltb 0 (length (cm_Leaves (lc_set (fst st)))) then (st, Val (lc_set (fst st)))
  else
    mbind_ (ask (fun s => GetValidatorTree src s (cp_Epoch (lc_checkpoint (fst st))))) (fun resp st =>
      match authenticate (lc_checkpoint (fst st)) resp with
      | Val set => ((mkLight (lc_checkpoint (fst st)) set (lc_advanceErr (fst st)), snd st), Val set)
      | Err e => (st, Err e)
      | Crash => (st, Crash)
      end) st.

(** [advance]: the re-pinned client, or why it could not. *)
Definition advance (attested : VerifiedAnchor) : method unit :=
  mbind_ (ask (fun s => GetValidatorTree src s (vn_Epoch attested))) (fun resp =>
  mbind_ (mret_ (match resp with Some r => guard_ (gt_Epoch r =? vn_Epoch attested) errWrongEpoch | None => Err errWrongEpoch end)) (fun _ =>
  mbind_ (mret_ (VerifyValidatorSet attested resp)) (fun set =>
  mbind_ (mret_ (orCrash (ValidatorRootOf (blake3 X) (cm_Leaves set)))) (fun root st =>
    ((mkLight (mkCheckpoint (cm_Epoch set) (vn_IndexRoot attested) root) set (lc_advanceErr (fst st)), snd st), Val tt))))).

Definition setAdvanceErr (lc : LightClient) (e : option lcError) : LightClient := mkLight (lc_checkpoint lc) (lc_set lc) e.

Definition Anchor : method VerifiedAnchor :=
  mbind_ validatorSet (fun set =>
  mbind_ (ask (GetIndexAnchor src)) (fun bundle =>
  mbind_ (mret_ (VerifyAnchor bundle set)) (fun attested st =>
    if cm_Epoch set <? vn_Epoch attested then
      let '(st, r) := advance attested st in
      match r with
      | Val _ => ((setAdvanceErr (fst st) None, snd st), Val attested)
      | Err e => ((setAdvanceErr (fst st) (Some e), snd st), Val attested)
      | Crash => (st, Crash)
      end
    else ((setAdvanceErr (fst st) None, snd st), Val attested)))).

(** [WaitForFrontier]: [polls] more rounds of the loop start before the deadline. *)
Fixpoint WaitForFrontier (polls : nat) (round : Z) : method VerifiedAnchor := fun st =>
  let '(st, r) := Anchor st in
  let expire (last : option lcError) :=
    match polls with O => (st, Err (errBound last)) | S polls => WaitForFrontier polls round st end in
  match r with
  | Crash => (st, Crash)
  | Val attested => if round <=? vn_FrontierRound attested then (st, Val attested) else expire None
  | Err e => expire (Some e)
  end.

(** [attest]; [polls] is what [readAnchorWait] leaves room for. *)
Definition attest (polls : nat) (anchor : ProvedIndexAnchor) : method VerifiedAnchor :=
  if negb (pa_Anchored anchor) then mret_ (Err errUnanchored)
  else
    mbind_ Anchor (fun attested =>
      if bool_decide (vn_IndexRoot attested = pa_IndexRoot anchor) then mret_ (Val attested)
      else
        mbind_ (WaitForFrontier polls (pa_FrontierRound anchor)) (fun attested =>
          if bool_decide (vn_IndexRoot attested = pa_IndexRoot anchor) then mret_ (Val attested) else mret_ (Err errUnanchored))).

(** A proved read: ask, attest the answer's block, verify. *)
Definition provedRead {A B} (polls : nat) (query : W -> W * option (option A)) (anchorOf : A -> ProvedIndexAnchor)
    (check : VerifiedAnchor -> option A -> res B) : method B :=
  mbind_ (ask query) (fun resp =>
    match resp with
    | None => mret_ (Err errNoAnswer)
    | Some r => mbind_ (attest polls (anchorOf r)) (fun attested => mret_ (check attested resp))
    end).

Definition ResolveDomain (polls : nat) (name : bytes) : method (option DomainLeaf) :=
  provedRead polls (fun s => ResolveDomainProved src s name) dr_Anchor (fun a resp => VerifyDomain a resp name).

Definition ListChildren (polls : nat) (parent : Hash) : method (list Hash) :=
  provedRead polls (fun s => sourceListChildren src s parent) lr_Anchor (fun a resp => VerifyChildren a resp parent).

Definition Ancestors (polls : nat) (object : Hash) : method (list ParentLeaf) :=
  provedRead polls (fun s => sourceGetAncestors src s object) ga_Anchor (fun a resp => VerifyAncestry a resp object).

End Methods.
End Client.
