(* ===== verification/Trust.v ===== *)
(** * What an accepted anchor means (pkg/client/verify.go, lightclient.go)

    An anchor a client accepts carries two thirds of the committee's weight in the
    members' own signatures, so some honest member signed it and two clients cannot
    be shown different roots at one frontier; the checkpoint only moves on such a
    quorum, one epoch at a time.  What a served committee does not authenticate is
    the multiplicity of its leaves. *)

From S2P Require Import Prelude Types Header Smt Merkle Index Wire LightClient.

(** ** Exact weights *)

Definition setWeight (set : Committee) (P : gset Hash) : Z :=
  sumZ (map (fun l => if bool_decide (vl_Pubkey l ∈ P) then vl_CappedStake l else 0) (cm_Leaves set)).

Definition setTotal (set : Committee) : Z := sumZ (map vl_CappedStake (cm_Leaves set)).

(** Weights that three times over stay inside a uint64. *)
Record committeeOk (set : Committee) : Prop := {
  ck_epoch : 0 <= cm_Epoch set < two64 - 1;
  ck_stakes : Forall (fun l => is_u64 (vl_CappedStake l)) (cm_Leaves set);
  ck_total : 3 * setTotal set < two64;
}.

Lemma saturatingAdd_exact a b : 0 <= a -> 0 <= b -> a + b < two64 -> saturatingAdd a b = a + b.
Proof. intros Ha Hb Hs. unfold saturatingAdd. cbv zeta. rewrite add64_exact by u64_lia. destruct (Z.ltb_spec (a + b) a); lia. Qed.

Lemma saturatingMul_exact a b : 0 <= a -> 0 <= b -> a * b < two64 -> saturatingMul a b = a * b.
Proof.
  intros Ha Hb Hs. unfold saturatingMul. destruct (Z.eqb_spec a 0) as [->|]; [done|]. destruct (Z.eqb_spec b 0) as [->|]; [cbn; lia|]. cbn [orb].
  destruct (Z.leb_spec two64 (a * b)); [lia|]. unfold mul64. apply Z.mod_small. nia.
Qed.

Section Weights.
Context (set : Committee) (Hc : committeeOk set).

Lemma stake_nonneg l : l ∈ cm_Leaves set -> 0 <= vl_CappedStake l.
Proof using Hc. intros Hl. pose proof (ck_stakes _ Hc) as H. rewrite Forall_forall in H. by apply H. Qed.

Lemma setWeight_range P : 0 <= setWeight set P <= setTotal set.
Proof using Hc. split; [apply sumZ_map_nonneg|apply sumZ_map_le]; intros l Hl; pose proof (stake_nonneg l Hl); case_bool_decide; lia. Qed.

Lemma clientStake_exact P : cappedStakeOf set P = (setWeight set P, setTotal set).
Proof using Hc.
  assert (Hgen : forall l a b, l ⊆ cm_Leaves set -> 0 <= a -> 0 <= b ->
    a + sumZ (map (fun l => if bool_decide (vl_Pubkey l ∈ P) then vl_CappedStake l else 0) l) < two64 -> b + sumZ (map vl_CappedStake l) < two64 ->
    foldl (fun acc leaf =>
      (if bool_decide (vl_Pubkey leaf ∈ P) then saturatingAdd (fst acc) (vl_CappedStake leaf) else fst acc,
       saturatingAdd (snd acc) (vl_CappedStake leaf))) (a, b) l =
    (a + sumZ (map (fun l => if bool_decide (vl_Pubkey l ∈ P) then vl_CappedStake l else 0) l), b + sumZ (map vl_CappedStake l))).
  { induction l as [|v l IH]; intros a b Hin Ha Hb H1 H2; cbn [foldl map] in *; [cbn; f_equal; lia|]. cbn [fst snd]. change (sumZ (?a :: ?l)) with (a + sumZ l) in *.
    assert (Hv : 0 <= vl_CappedStake v) by (apply stake_nonneg, Hin; left). assert (Hl : l ⊆ cm_Leaves set) by (intros x Hx; apply Hin; by right).
    assert (0 <= sumZ (map vl_CappedStake l)) by (apply sumZ_map_nonneg; intros x Hx; by apply stake_nonneg, Hl).
    assert (0 <= sumZ (map (fun l => if bool_decide (vl_Pubkey l ∈ P) then vl_CappedStake l else 0) l)).
    { apply sumZ_map_nonneg. intros x Hx. pose proof (stake_nonneg x (Hl x Hx)). cbn beta. destruct (bool_decide (vl_Pubkey x ∈ P)); lia. }
    rewrite (saturatingAdd_exact b) by lia. case_bool_decide; rewrite ?(saturatingAdd_exact a) by lia; rewrite IH by (done || lia); f_equal; lia. }
  pose proof (setWeight_range P) as Hw. pose proof (ck_total _ Hc). unfold cappedStakeOf, setWeight, setTotal in *.
  rewrite Hgen by (done || lia). done.
Qed.

Lemma clientQuorum_exact s t : 0 <= s <= t -> 3 * t < two64 -> quorumReached s t = true <-> 0 < t /\ 2 * t <= 3 * s.
Proof using.
  intros Hs Ht. unfold quorumReached. destruct (Z.eqb_spec t 0) as [->|]; [split; [done|lia]|].
  rewrite !saturatingMul_exact by lia. rewrite Z.leb_le. split; [intros; lia|by intros [_ ?]].
Qed.

Lemma quorum_exact P : (let '(s, t) := cappedStakeOf set P in quorumReached s t) = true <-> 0 < setTotal set /\ 2 * setTotal set <= 3 * setWeight set P.
Proof using Hc. rewrite clientStake_exact. apply clientQuorum_exact; [apply setWeight_range|apply Hc]. Qed.

Lemma setWeight_union_inter P Q : setWeight set P + setWeight set Q = setWeight set (P ∪ Q) + setWeight set (P ∩ Q).
Proof using.
  clear Hc. unfold setWeight. rewrite <- !sumZ_map_add. f_equal. apply map_ext. intros v. repeat case_bool_decide; try lia; exfalso; set_solver.
Qed.

(** More weight than the byzantine members carry holds an honest one. *)
Lemma honest_in P B : setWeight set B < setWeight set P -> exists l, l ∈ cm_Leaves set /\ vl_Pubkey l ∈ P /\ vl_Pubkey l ∉ B.
Proof using Hc.
  intros Hw. destruct (Exists_dec (fun l => vl_Pubkey l ∈ P /\ vl_Pubkey l ∉ B) (cm_Leaves set)) as [He|Hne].
  { by apply Exists_exists in He as (l & Hl & H1 & H2); exists l. }
  exfalso. assert (setWeight set P <= setWeight set B); [|lia]. apply sumZ_map_le. intros l Hl. pose proof (stake_nonneg l Hl).
  case_bool_decide; case_bool_decide; try lia. exfalso. apply Hne, Exists_exists. eauto.
Qed.

End Weights.

(** ** Signed claims *)

Section Trust.
Context (X : Crypto).

(** [p]'s key signed a header that names epoch [e] and claims [root] at [frontier]. *)
Definition Signed (p : Hash) (e frontier : Z) (root : Hash) : Prop :=
  exists header sig, length header = anchorHeaderSize /\ length sig = signatureSize /\
    slice header 0 32 = p /\ uint header 40 48 = e /\ uint header 48 56 = frontier /\ slice header 56 88 = root /\
    ed25519Verify X p (headerIdentity X header) sig = true.

Lemma parse_signed record h : parseAnchorRecord X record = Some h -> Signed (ah_Producer h) (ah_Epoch h) (ah_FrontierRound h) (ah_IndexRoot h).
Proof.
  unfold parseAnchorRecord. destruct (Nat.eqb_spec (length record) IndexAnchorHeaderSize) as [Hl|]; [|done]. cbn [negb].
  destruct (ed25519Verify _ _ _ _) eqn:E; [|done]. intros [= <-]. exists (take anchorHeaderSize record), (drop anchorHeaderSize record).
  cbn [ah_Producer ah_Epoch ah_FrontierRound ah_IndexRoot] in *. split_and!; try done.
  - rewrite length_take, Hl. done.
  - rewrite length_drop, Hl. done.
Qed.

(** Every counted producer is a member whose signature names the bundle's pair. *)
Record counted_ (bundle : GetIndexAnchorResponse) (set : Committee) (now next : gset Hash) : Prop := {
  cd_member : forall p, p ∈ now ∪ next -> p ∈ membersByPubkey set;
  cd_now : forall p, p ∈ now -> Signed p (cm_Epoch set) (ia_FrontierRound bundle) (ia_IndexRoot bundle);
  cd_next : forall p, p ∈ next -> Signed p (cm_Epoch set +w 1) (ia_FrontierRound bundle) (ia_IndexRoot bundle);
}.

Lemma countRecord_spec bundle set now next record :
  counted_ bundle set now next -> let '(now, next) := countRecord X bundle set (now, next) record in counted_ bundle set now next.
Proof.
  intros Hi. unfold countRecord. destruct (parseAnchorRecord X record) as [h|] eqn:E; [|done]. apply parse_signed in E.
  destruct (attestsBundle h bundle set) eqn:Ea; [|done]. cbn [negb]. case_bool_decide as Hm; [|done]. cbn [negb].
  unfold attestsBundle in Ea. destruct (Z.eqb_spec (ah_FrontierRound h) (ia_FrontierRound bundle)) as [Hf|]; [|done]. cbn [negb orb] in Ea.
  case_bool_decide as Hr; [|done]. cbn [negb] in Ea. rewrite Hf, Hr in E. destruct Hi as [H1 H2 H3]. cbn [fst snd].
  destruct (Z.eqb_spec (ah_Epoch h) (cm_Epoch set +w 1)) as [He|He].
  - split; [set_solver|done|]. intros p Hp. apply elem_of_union in Hp as [->%elem_of_singleton|Hp]; [by rewrite <- He|by apply H3].
  - rewrite orb_false_r in Ea. apply Z.eqb_eq in Ea.
    split; [set_solver| |done]. intros p Hp. apply elem_of_union in Hp as [->%elem_of_singleton|Hp]; [by rewrite <- Ea|by apply H2].
Qed.

Lemma countedProducers_spec bundle set : let '(now, next) := countedProducers X bundle set in counted_ bundle set now next.
Proof.
  unfold countedProducers. assert (Hi : counted_ bundle set ∅ ∅) by (split; set_solver). revert Hi. generalize (∅ : gset Hash) at 1 3.
  generalize (∅ : gset Hash). induction (ia_Headers bundle) as [|r l IH]; intros next now Hi; [done|]. cbn [foldl].
  pose proof (countRecord_spec bundle set now next r Hi) as Hs. destruct (countRecord X bundle set (now, next) r) as [now' next']. by apply IH.
Qed.

(** A set of members that passes the client's quorum test, each with its own signature
    over the anchor's pair, at the anchor's epoch or the one after the committee's. *)
Definition passesTheTest (set : Committee) (a : VerifiedAnchor) : Prop :=
  exists P, (let '(s, t) := cappedStakeOf set P in quorumReached s t) = true /\
    (vn_Epoch a = cm_Epoch set \/ vn_Epoch a = cm_Epoch set +w 1) /\
    forall p, p ∈ P -> p ∈ membersByPubkey set /\
      exists e, Signed p e (vn_FrontierRound a) (vn_IndexRoot a) /\ (e = vn_Epoch a \/ e = cm_Epoch set +w 1).

Lemma accepted_passes bundle set a : VerifyAnchor X bundle set = Val a -> passesTheTest set a.
Proof.
  intros Ha. unfold VerifyAnchor in Ha. destruct bundle as [bundle|]; [|done]. destruct (ia_Found bundle); [|done]. cbn [negb] in Ha.
  destruct (Nat.eqb _ _); [done|]. pose proof (countedProducers_spec bundle set) as Hs. destruct (countedProducers X bundle set) as [now next].
  destruct Hs as [Hm Hn Hx]. destruct (cappedStakeOf set next) as [s t] eqn:E1. destruct (quorumReached s t) eqn:Q1.
  { injection Ha as <-. exists next. rewrite E1. cbn [vn_Epoch vn_FrontierRound vn_IndexRoot]. split_and!; [done|by right|].
    intros p Hp. split; [apply Hm; set_solver|]. exists (cm_Epoch set +w 1). split; [by apply Hx|by left]. }
  destruct (cappedStakeOf set (unionOfProducers now next)) as [s' t'] eqn:E2. destruct (quorumReached s' t') eqn:Q2; [|done].
  injection Ha as <-. exists (now ∪ next). unfold unionOfProducers in E2. rewrite E2. cbn [vn_Epoch vn_FrontierRound vn_IndexRoot]. split_and!; [done|by left|].
  intros p Hp. split; [by apply Hm|]. apply elem_of_union in Hp as [Hp|Hp]; eexists; [split; [by apply Hn|by left]|split; [by apply Hx|by right]].
Qed.

(** With weights in range, two thirds of the committee. *)
Lemma accepted_quorum bundle set a : committeeOk set -> VerifyAnchor X bundle set = Val a ->
  exists P, 0 < setTotal set /\ 2 * setTotal set <= 3 * setWeight set P /\
    forall p, p ∈ P -> exists e, Signed p e (vn_FrontierRound a) (vn_IndexRoot a) /\ vn_Epoch a <= e <= cm_Epoch set + 1.
Proof.
  intros Hc Ha. destruct (accepted_passes bundle set a Ha) as (P & Hq & He & HP). apply (quorum_exact set Hc) in Hq as [H0 H1].
  exists P. split_and!; [done|done|]. intros p Hp. destruct (HP p Hp) as (_ & e & Hs & Hor). exists e. split; [done|].
  pose proof (ck_epoch _ Hc). rewrite !add64_exact in * by u64_lia. lia.
Qed.

(** A committee that lists no member twice and whose weights are in range. *)
Definition regular (set : Committee) : Prop := committeeOk set /\ NoDup (map vl_Pubkey (cm_Leaves set)).

(** Distinct members of the committee, each with its own signature over the anchor's
    pair, at the anchor's epoch or the one after the committee's; in a regular committee
    they hold two thirds of the weight. *)
Definition Attested (set : Committee) (a : VerifiedAnchor) : Prop :=
  exists P : gset Hash, (regular set -> 0 < setTotal set /\ 2 * setTotal set <= 3 * setWeight set P) /\
    (vn_Epoch a = cm_Epoch set \/ vn_Epoch a = cm_Epoch set +w 1) /\
    forall p, p ∈ P -> (exists l, l ∈ cm_Leaves set /\ vl_Pubkey l = p) /\
      exists e, Signed p e (vn_FrontierRound a) (vn_IndexRoot a) /\ (e = vn_Epoch a \/ e = cm_Epoch set +w 1).

Lemma accepted_attested bundle set a : VerifyAnchor X bundle set = Val a -> Attested set a.
Proof.
  intros Ha. destruct (accepted_passes bundle set a Ha) as (P & Hq & He & HP). exists P. split_and!; [|done|].
  - intros [Hc _]. by apply (quorum_exact set Hc) in Hq.
  - intros p Hp. destruct (HP p Hp) as [Hm Hs]. split; [|done]. unfold membersByPubkey in Hm. apply elem_of_list_to_set, list_elem_of_fmap in Hm as (l & -> & Hl). by exists l.
Qed.

(** An accepted anchor names a pair that an honest member of the committee signed,
    at the next epoch when the client would walk there. *)
Theorem accepted_anchor_has_an_honest_signer bundle set a B :
  committeeOk set -> 3 * setWeight set B < setTotal set -> VerifyAnchor X bundle set = Val a ->
  exists l e, l ∈ cm_Leaves set /\ vl_Pubkey l ∉ B /\ Signed (vl_Pubkey l) e (vn_FrontierRound a) (vn_IndexRoot a) /\
    vn_Epoch a <= e <= cm_Epoch set + 1.
Proof.
  intros Hc HB Ha. destruct (accepted_quorum bundle set a Hc Ha) as (P & H0 & H1 & HP).
  destruct (honest_in set Hc P B) as (l & Hl & Hlp & Hlb); [lia|]. destruct (HP _ Hlp) as (e & Hs & He). by exists l, e.
Qed.

(** Two clients that trust the same committee accept the same root at a frontier, as
    long as less than a third of it signs two roots there. *)

(** Two clients that trust the same committee accept the same root at a frontier,
    whatever bundles they were served, as long as members holding less than a third of its
    capped stake sign two roots there. *)
Theorem accepted_roots_agree bundle bundle' set a a' B :
  committeeOk set -> 3 * setWeight set B < setTotal set ->
  (forall l e e' frontier root root', l ∈ cm_Leaves set -> vl_Pubkey l ∉ B ->
     Signed (vl_Pubkey l) e frontier root -> Signed (vl_Pubkey l) e' frontier root' -> root = root') ->
  VerifyAnchor X bundle set = Val a -> VerifyAnchor X bundle' set = Val a' ->
  vn_FrontierRound a = vn_FrontierRound a' -> vn_IndexRoot a = vn_IndexRoot a'.
Proof.
  intros Hc HB Hone Ha Ha' Hf. destruct (accepted_quorum bundle set a Hc Ha) as (P & H0 & H1 & HP).
  destruct (accepted_quorum bundle' set a' Hc Ha') as (Q & _ & H2 & HQ).
  pose proof (setWeight_union_inter set P Q). pose proof (setWeight_range set Hc (P ∪ Q)).
  destruct (honest_in set Hc (P ∩ Q) B) as (l & Hl & Hlp & Hlb); [lia|]. apply elem_of_intersection in Hlp as [Hp Hq].
  destruct (HP _ Hp) as (e & Hs & _), (HQ _ Hq) as (e' & Hs' & _). rewrite <- Hf in Hs'. by apply (Hone l e e' (vn_FrontierRound a)).
Qed.

(** ** The walk of the checkpoint *)

(** A committee is authentic for a checkpoint when its leaves rebuild the pinned hash,
    or a root that the pinned index root is the combination of. *)
Definition rebuilds (set : Committee) (v : Hash) : Prop := ValidatorRootOf (blake3 X) (cm_Leaves set) = Some v.
Definition component (v root : Hash) : Prop := exists d p c, CombinedRoot (blake3 X) d p c v = root.

Definition Authentic (cp : Checkpoint) (set : Committee) : Prop :=
  cm_Epoch set = cp_Epoch cp /\ exists v, rebuilds set v /\ (v = cp_ValidatorSetHash cp \/ component v (cp_IndexRoot cp)).

(** The checkpoints reachable from one: each step is an anchor that the committee of the
    last one attested for a later epoch, whose root the new pin is a component of. *)
Inductive Walk (cp0 : Checkpoint) : Checkpoint -> Prop :=
| Walk_refl : Walk cp0 cp0
| Walk_step cp set a v :
    Walk cp0 cp -> Authentic cp set -> Attested set a -> cm_Epoch set < vn_Epoch a -> component v (vn_IndexRoot a) ->
    Walk cp0 (mkCheckpoint (vn_Epoch a) (vn_IndexRoot a) v).

Definition Trusted (cp0 : Checkpoint) (set : Committee) : Prop := exists cp, Walk cp0 cp /\ Authentic cp set.

Record clientOk (cp0 : Checkpoint) (lc : LightClient) : Prop := {
  lo_walk : Walk cp0 (lc_checkpoint lc);
  lo_set : (0 < length (cm_Leaves (lc_set lc)))%nat -> Authentic (lc_checkpoint lc) (lc_set lc);
}.

Section Methods.
Context {W : Type} (src : indexSource W) (cp0 : Checkpoint).

(** A method keeps the client's invariant and its results satisfy [Q]. *)
Definition yields {A} (m : method (W := W) A) (Q : A -> Prop) : Prop :=
  forall st, clientOk cp0 (fst st) -> let '(st', r) := m st in clientOk cp0 (fst st') /\ forall a, r = Val a -> Q a.

Lemma yields_bind {A B} (m : method (W := W) A) (f : A -> method (W := W) B) (Q : A -> Prop) (R : B -> Prop) :
  yields m Q -> (forall a, Q a -> yields (f a) R) -> yields (mbind_ m f) R.
Proof.
  intros Hm Hf st Hi. unfold mbind_. specialize (Hm st Hi). destruct (m st) as [st' [a|e|]]; destruct Hm as [Hi' Hq]; [|done|done].
  apply Hf; [by apply Hq|done].
Qed.

Lemma yields_ret {A} (r : res A) (Q : A -> Prop) : (forall a, r = Val a -> Q a) -> yields (mret_ (W := W) r) Q.
Proof. by intros Hq st Hi. Qed.

Lemma yields_ask {A} (f : W -> W * option (option A)) : yields (ask f) (fun _ => True).
Proof. intros st Hi. unfold ask. by destruct (f (snd st)) as [s r]. Qed.

Lemma res_bind_Val {A B} (r : res A) (f : A -> res B) b : r ≫= f = Val b -> exists a, r = Val a /\ f a = Val b.
Proof. destruct r as [a|e|]; [|done|done]. intros E. by exists a. Qed.

Lemma guard_Val b e u : guard_ b e = Val u -> b = true.
Proof. by destruct b. Qed.

Lemma orErr_Val {A} (o : option A) e a : orErr o e = Val a -> o = Some a.
Proof. destruct o; [|done]. by intros [= ->]. Qed.

Lemma orCrash_Val {A} (o : option A) a : orCrash o = Val a -> o = Some a.
Proof. destruct o; [|done]. by intros [= ->]. Qed.

(** Opens an accepted chain of checks. *)
Ltac checks :=
  repeat match goal with
  | H : (_ ≫= _) = Val _ |- _ => apply res_bind_Val in H as (? & ? & ?)
  | H : guard_ _ _ = Val _ |- _ => apply guard_Val in H
  | H : orErr _ _ = Val _ |- _ => apply orErr_Val in H
  | H : orCrash _ = Val _ |- _ => apply orCrash_Val in H
  | H : bool_decide _ = true |- _ => apply bool_decide_eq_true in H
  | H : Val _ = Val _ |- _ => injection H as H
  end.

Lemma bind_Val a anchor u : bind X a anchor = Val u ->
  CombinedRoot (blake3 X) (pa_DomainRoot anchor) (pa_ParentRoot anchor) (pa_ChildrenRoot anchor) (pa_ValidatorRoot anchor) = vn_IndexRoot a.
Proof. unfold bind. destruct (pa_Anchored anchor); [|done]. cbn [negb]. intros Hb. by checks. Qed.

Lemma VerifyValidatorSet_Val a resp set : VerifyValidatorSet X a resp = Val set ->
  exists v, rebuilds set v /\ component v (vn_IndexRoot a) /\ exists r, resp = Some r /\ cm_Epoch set = gt_Epoch r.
Proof.
  unfold VerifyValidatorSet. intros Hv. checks. subst. eexists. split_and!; [done| |].
  - eexists _, _, _. by eapply bind_Val.
  - by eexists.
Qed.

Lemma authenticate_Val cp resp set : authenticate X cp resp = Val set -> Authentic cp set.
Proof.
  unfold authenticate. destruct resp as [r|]; [|done]. destruct (gt_Found r); [|done]. cbn [negb].
  destruct (Z.eqb_spec (gt_Epoch r) (cp_Epoch cp)) as [He|]; [|done]. cbn [negb].
  destruct (VerifyValidatorSet X _ _) as [set'|e|] eqn:E; [| |done].
  - intros [= <-]. apply VerifyValidatorSet_Val in E as (v & Hr & Hcm & r' & [= <-] & Hep). split; [congruence|]. exists v. auto.
  - intros Hv. checks. subst. split; [done|]. eexists. split; [done|by left].
Qed.

Lemma validatorSet_yields : yields (validatorSet X src) (Trusted cp0).
Proof.
  intros st Hi. unfold validatorSet. destruct (Nat.ltb_spec 0 (length (cm_Leaves (lc_set (fst st))))) as [Hl|_].
  { split; [done|]. intros a [= <-]. exists (lc_checkpoint (fst st)). split; [apply Hi|by apply Hi]. }
  apply (yields_bind _ _ (fun _ => True)); [apply yields_ask| |done]. intros resp _ st' Hi'.
  destruct (authenticate X (lc_checkpoint (fst st')) resp) as [set|e|] eqn:E; [|done|done]. apply authenticate_Val in E.
  destruct Hi' as [Hw Hs]. split; [by split|]. intros a [= <-]. by exists (lc_checkpoint (fst st')).
Qed.

Lemma advance_yields set attested : Trusted cp0 set -> Attested set attested -> cm_Epoch set < vn_Epoch attested ->
  yields (advance X src attested) (fun _ => True).
Proof.
  intros (cp & Hw & Hau) Hat Hlt. unfold advance. eapply yields_bind; [apply yields_ask|]. intros resp _.
  eapply (yields_bind _ _ (fun _ => exists r, resp = Some r /\ gt_Epoch r = vn_Epoch attested)).
  { apply yields_ret. intros u. destruct resp as [r|]; [|done]. intros Hg%guard_Val%Z.eqb_eq. by exists r. }
  intros _ (r & -> & Hep). eapply (yields_bind _ _ (fun s => VerifyValidatorSet X attested (Some r) = Val s)); [by apply yields_ret|].
  intros set' Hv. apply VerifyValidatorSet_Val in Hv as (v & Hr & Hcm & r' & [= <-] & Hep').
  eapply (yields_bind _ _ (fun root => root = v)).
  { apply yields_ret. intros root Hroot%orCrash_Val. unfold rebuilds in Hr. congruence. }
  intros root -> st Hi. cbn [fst snd]. split; [|done]. rewrite Hep', Hep in *. split; cbn [lc_checkpoint lc_set].
  - by eapply Walk_step.
  - intros _. split; [done|]. exists v. split; [done|]. by left.
Qed.

Lemma setAdvanceErr_ok lc e : clientOk cp0 lc -> clientOk cp0 (setAdvanceErr lc e).
Proof. by intros []. Qed.

Definition Good (a : VerifiedAnchor) : Prop := exists set, Trusted cp0 set /\ Attested set a.

Lemma Anchor_yields : yields (Anchor X src) Good.
Proof.
  eapply yields_bind; [apply validatorSet_yields|]. intros set Ht. eapply yields_bind; [apply yields_ask|]. intros bundle _.
  eapply (yields_bind _ _ (Attested set)); [apply yields_ret; intros a; apply accepted_attested|]. intros a Ha st Hi.
  assert (Hg : Good a) by (by exists set). destruct (Z.ltb_spec (cm_Epoch set) (vn_Epoch a)) as [Hlt|_].
  - pose proof (advance_yields set a Ht Ha Hlt st Hi) as Hadv. destruct (advance X src a st) as [st' [u|e|]]; destruct Hadv as [Hi' _];
      cbn [fst]; (split; [by try apply setAdvanceErr_ok|]); intros ? [=]; congruence.
  - cbn [fst]. split; [by apply setAdvanceErr_ok|]. intros ? [=]. congruence.
Qed.

Lemma Wait_yields polls round : yields (WaitForFrontier X src polls round) (fun a => Good a /\ round <= vn_FrontierRound a).
Proof.
  induction polls as [|polls IH]; intros st Hi; cbn [WaitForFrontier]; pose proof (Anchor_yields st Hi) as Ha;
    destruct (Anchor X src st) as [st' [a|e|]]; destruct Ha as [Hi' Hg]; try done; try (by apply IH).
  - destruct (Z.leb_spec round (vn_FrontierRound a)); [|done]. split; [done|]. intros ? [= <-]. split; [by apply Hg|done].
  - destruct (Z.leb_spec round (vn_FrontierRound a)); [|by apply IH]. split; [done|]. intros ? [= <-]. split; [by apply Hg|done].
Qed.

Lemma attest_yields polls anchor : yields (attest X src polls anchor) (fun a => Good a /\ vn_IndexRoot a = pa_IndexRoot anchor).
Proof.
  unfold attest. destruct (pa_Anchored anchor); [|by apply yields_ret]. cbn [negb]. eapply yields_bind; [apply Anchor_yields|]. intros a Ha.
  case_bool_decide as E; [apply yields_ret; intros ? [= <-]; done|]. eapply yields_bind; [apply Wait_yields|]. intros a' [Ha' _].
  case_bool_decide as E'; apply yields_ret; [|done]. by intros ? [= <-].
Qed.

Lemma provedRead_yields {A B} polls (query : W -> W * option (option A)) anchorOf (check : VerifiedAnchor -> option A -> res B) :
  yields (provedRead X src polls query anchorOf check)
    (fun b => exists a r, Good a /\ vn_IndexRoot a = pa_IndexRoot (anchorOf r) /\ check a (Some r) = Val b).
Proof.
  unfold provedRead. eapply yields_bind; [apply yields_ask|]. intros [r|] _; [|by apply yields_ret].
  eapply yields_bind; [apply attest_yields|]. intros a [Ha Hr]. apply yields_ret. intros b Hb. by exists a, r.
Qed.

(** *** Any use of a client *)

Inductive ClientCall :=
| CallAnchor | CallWait (polls : nat) (round : Z) | CallDomain (polls : nat) (name : bytes) | CallChildren (polls : nat) (parent : Hash)
| CallAncestors (polls : nat) (object : Hash).

Definition runCall (st : LightClient * W) (c : ClientCall) : LightClient * W :=
  match c with
  | CallAnchor => fst (Anchor X src st)
  | CallWait polls round => fst (WaitForFrontier X src polls round st)
  | CallDomain polls name => fst (ResolveDomain X src polls name st)
  | CallChildren polls parent => fst (ListChildren X src polls parent st)
  | CallAncestors polls object => fst (Ancestors X src polls object st)
  end.

Lemma yields_state {A} (m : method (W := W) A) Q st : yields m Q -> clientOk cp0 (fst st) -> clientOk cp0 (fst (fst (m st))).
Proof. intros Hm Hi. specialize (Hm st Hi). by destruct (m st) as [st' r]; destruct Hm. Qed.

Lemma yields_value {A} (m : method (W := W) A) (Q : A -> Prop) st a : yields m Q -> clientOk cp0 (fst st) -> snd (m st) = Val a -> Q a.
Proof. intros Hm Hi Ha. specialize (Hm st Hi). destruct (m st) as [st' r]; destruct Hm as [_ Hq]. by apply Hq. Qed.

Lemma runCall_ok st c : clientOk cp0 (fst st) -> clientOk cp0 (fst (runCall st c)).
Proof.
  intros Hi. destruct c; cbn [runCall]; (eapply yields_state; [|done]);
    [apply Anchor_yields|apply Wait_yields|apply provedRead_yields|apply provedRead_yields|apply provedRead_yields].
Qed.

Lemma runCalls_ok calls : forall st, clientOk cp0 (fst st) -> clientOk cp0 (fst (foldl runCall st calls)).
Proof. induction calls as [|c calls IH]; intros st Hi; [done|]. cbn [foldl]. by apply IH, runCall_ok. Qed.

Lemma NewLightClient_ok : clientOk cp0 (NewLightClient cp0).
Proof. split; [constructor|]. cbn. lia. Qed.

End Methods.

(** Against any node, whatever it answers: the checkpoint only moves over anchors
    attested by the committee it pins, and every anchor the client returns, or
    verifies an answer with, is attested by a committee on that walk. *)

(** C21. Against any node, whatever it answers and in any sequence of calls: the client's
    checkpoint only moves over anchors attested by the committee it pins, and every anchor
    the client returns, or checks a domain answer with, is attested by a committee on that
    walk. Attested means that distinct members each signed the root at that frontier, in
    the committee's epoch or the next, and that, in a committee which lists no member
    twice and whose weights stay in range, they hold two thirds of its exact weight,
    counted without the client's own arithmetic. C22 shows that a committee that repeats a
    leaf is not covered. *)
Theorem light_client_trusts_only_quorums {W} (src : indexSource W) cp0 w calls polls name :
  let st := foldl (runCall src) (NewLightClient cp0, w) calls in
  Walk cp0 (lc_checkpoint (fst st)) /\
  (forall a, snd (Anchor X src st) = Val a -> exists set, Trusted cp0 set /\ Attested set a) /\
  (forall r, snd (ResolveDomain X src polls name st) = Val r ->
     exists a resp, (exists set, Trusted cp0 set /\ Attested set a) /\ VerifyDomain X a (Some resp) name = Val r).
Proof.
  cbv zeta. assert (Hi : clientOk cp0 (fst (foldl (runCall src) (NewLightClient cp0, w) calls))) by (apply runCalls_ok, NewLightClient_ok).
  split_and!; [apply Hi| |].
  - intros a Ha. exact (yields_value cp0 _ _ _ a (Anchor_yields src cp0) Hi Ha).
  - intros r Hr. destruct (yields_value cp0 _ _ _ r (provedRead_yields src cp0 _ _ _ _) Hi Hr) as (a & resp & Hg & _ & Hv). by exists a, resp.
Qed.

End Trust.

(** ** Samples *)

Definition key (n : Z) : Hash := replicate 32 n.

Definition member (n : Z) : ValidatorLeaf := mkValidatorLeaf (key n) 25 (replicate 48 n) ValidatorActive.

(** Four members of equal weight, at epoch 3. *)
Definition fourLeaves : list ValidatorLeaf := [member 1; member 2; member 3; member 4].
Definition fourMembers : Committee := mkCommittee 3 fourLeaves.

(** [n]'s header for a pair, under a signature of zeros. *)
Definition claimHeader (n e frontier : Z) (root : Hash) : bytes := headerEncode (mkHeader (key n) 9 e frontier root (key 0)).
Definition claimRecord (n e frontier : Z) (root : Hash) : bytes := claimHeader n e frontier root ++ replicate 64 0.

(** Digest [H]; the only valid signatures are over the listed headers. *)
Definition ledgerCrypto (H : bytes -> Hash) (signed : list (Hash * bytes)) : Crypto :=
  mkCrypto H (fun _ => []) (fun p m _ => bool_decide ((p, m) ∈ map (fun kh => (fst kh, H (headerDomainTag :: snd kh))) signed)) (fun _ _ _ _ => false).

Definition trueRoot : Hash := key 77.

Definition honestSigned : list (Hash * bytes) := map (fun n => (key n, claimHeader n 3 7 trueRoot)) [1; 2; 3].

Definition honestBundle : GetIndexAnchorResponse := mkIndexAnchorResp true 7 trueRoot 3 (map (fun n => claimRecord n 3 7 trueRoot) [1; 2; 3]).

Definition honestCrypto : Crypto := ledgerCrypto (fun b => b) honestSigned.

Lemma fourMembers_ok : committeeOk fourMembers.
Proof. split; [by vm_compute|repeat (apply Forall_cons_2; [by vm_compute|]); apply Forall_nil_2|by vm_compute]. Qed.

Lemma honestBundle_accepted : VerifyAnchor honestCrypto (Some honestBundle) fourMembers = Val (mkVerified 7 trueRoot 3).
Proof. vm_compute. reflexivity. Qed.

Theorem accepted_anchor_has_an_honest_signer_witness :
  exists l e, l ∈ fourLeaves /\ vl_Pubkey l ∉ ({[ key 4 ]} : gset Hash) /\ Signed honestCrypto (vl_Pubkey l) e 7 trueRoot /\ 3 <= e <= 3 + 1.
Proof.
  apply (accepted_anchor_has_an_honest_signer honestCrypto (Some honestBundle) fourMembers (mkVerified 7 trueRoot 3) {[ key 4 ]}).
  - exact fourMembers_ok.
  - vm_compute. reflexivity.
  - exact honestBundle_accepted.
Defined.

(** Each of the three keys signed one header. *)
Lemma honest_sign_once p header header' :
  (p, headerDomainTag :: header) ∈ map (fun kh => (fst kh, headerDomainTag :: snd kh)) honestSigned ->
  (p, headerDomainTag :: header') ∈ map (fun kh => (fst kh, headerDomainTag :: snd kh)) honestSigned -> header = header'.
Proof.
  assert (Hnd : NoDup (map fst honestSigned)) by (apply (bool_decide_unpack _); vm_compute; exact I).
  intros (k & [= -> ->] & Hk)%list_elem_of_fmap (k' & [= Ep ->] & Hk')%list_elem_of_fmap.
  destruct k as [k h], k' as [k' h']. cbn [fst snd] in *. subst. 
  apply list_elem_of_lookup_1 in Hk as [i Hi], Hk' as [j Hj].
  assert (i = j) as ->; [|congruence]. eapply NoDup_lookup; [exact Hnd| |]; rewrite list_lookup_fmap; [by rewrite Hi|by rewrite Hj].
Qed.

Theorem accepted_roots_agree_witness : vn_IndexRoot (mkVerified 7 trueRoot 3) = trueRoot.
Proof.
  apply (accepted_roots_agree honestCrypto (Some honestBundle) (Some honestBundle) fourMembers (mkVerified 7 trueRoot 3) (mkVerified 7 trueRoot 3) {[ key 4 ]}).
  - exact fourMembers_ok.
  - vm_compute. reflexivity.
  - intros l e e' fr rt rt' _ _ (h & s & _ & _ & _ & _ & _ & <- & Hs) (h' & s' & _ & _ & _ & _ & _ & <- & Hs').
    apply bool_decide_eq_true in Hs, Hs'. by rewrite (honest_sign_once _ h h' Hs Hs').
  - exact honestBundle_accepted.
  - exact honestBundle_accepted.
  - reflexivity.
Defined.

(** ** A repeated leaf *)

Definition falseRoot : Hash := key 66.

(** The first member alone signed, for a root of its own. *)
Definition soloSigned : list (Hash * bytes) := [(key 1, claimHeader 1 3 7 falseRoot)].
Definition soloBundle : GetIndexAnchorResponse := mkIndexAnchorResp true 7 falseRoot 3 [claimRecord 1 3 7 falseRoot].

Definition soloCrypto : Crypto := ledgerCrypto toyHash soloSigned.

(** The committee with the first leaf sent nine times. *)
Definition paddedTree : GetValidatorTreeResponse :=
  mkTreeResp (mkProvedAnchor false 0 zeroHash zeroHash zeroHash zeroHash zeroHash) true 3
    (map encodeValidatorLeaf (replicate 8 (member 1) ++ fourLeaves)).

Definition paddingNode : indexSource unit :=
  mkSource (fun w => (w, Some (Some soloBundle))) (fun w _ => (w, Some (Some paddedTree))) (fun w _ => (w, None)) (fun w _ => (w, None)) (fun w _ => (w, None)).

Definition genesisPin : Checkpoint := mkCheckpoint 3 zeroHash (default [] (ValidatorRootOf toyHash fourLeaves)).

(** A node that repeats one member's leaf in the committee it serves still rebuilds the
    pinned root, and that member's signature alone then carries the quorum: the client
    accepts a root no other member signed. *)

(** C22. A node that repeats one member's leaf in a served validator tree rebuilds the
    pinned committee root, and that member's signature alone then carries the quorum: the
    light client accepts a root no other of four members signed. *)
Theorem repeated_leaf_forges_an_anchor :
  ValidatorRootOf toyHash fourLeaves = Some (cp_ValidatorSetHash genesisPin) /\
  setWeight fourMembers {[ key 1 ]} = 25 /\ setTotal fourMembers = 100 /\
  (forall p e frontier root, Signed soloCrypto p e frontier root -> p = key 1) /\
  VerifyAnchor soloCrypto (Some soloBundle) fourMembers = Err errShortQuorum /\
  snd (Anchor soloCrypto paddingNode (NewLightClient genesisPin, tt)) = Val (mkVerified 7 falseRoot 3).
Proof.
  split_and!.
  - vm_compute. reflexivity.
  - vm_compute. reflexivity.
  - vm_compute. reflexivity.
  - intros p e fr rt (h & s & _ & _ & _ & _ & _ & _ & Hs). apply bool_decide_eq_true in Hs. apply list_elem_of_singleton in Hs. exact (f_equal fst Hs).
  - vm_compute. reflexivity.
  - vm_compute. reflexivity.
Qed.
