(* ===== verification/Proved.v ===== *)
(** * What an accepted answer means (pkg/client/verifyproof.go, provedanswers.go)

    An answer a client accepts under an anchor is what the index with that root
    stores: the lease, the whole set of children, the chain of parents, the
    committee.  Collision-freedom is asked of the inputs hashed on both sides. *)

From S2P Require Import Prelude Types Header Smt Merkle Index IndexFacts Retention Wire LightClient Trust.

Lemma NoCollision_sub H xs ys : (forall x, x ∈ xs -> x ∈ ys) -> NoCollision H ys -> NoCollision H xs.
Proof.
  unfold NoCollision. rewrite !Forall_forall. intros Hs Hy x Hx. destruct (Hy x (Hs x Hx)) as [Hz Hf]. split; [done|].
  rewrite Forall_forall in *. intros y Hy'. by apply Hf, Hs.
Qed.

Lemma NoCollision_app H xs ys : NoCollision H (xs ++ ys) -> NoCollision H xs /\ NoCollision H ys.
Proof. intros Hn. split; (eapply NoCollision_sub; [|exact Hn]); intros x Hx; apply elem_of_app; auto. Qed.

Lemma readHashes_lengths count : forall data hs rest, readHashes count data = Some (hs, rest) -> Forall (fun h : Hash => length h = 32%nat) hs.
Proof.
  induction count as [|count IH]; intros data hs rest; cbn [readHashes]; [intros [= <- <-]; constructor|].
  destruct (Nat.ltb_spec (length data) 32); [done|]. destruct (readHashes count (drop 32 data)) as [[hs' rest']|] eqn:E; [|done].
  cbn [mbind option_bind]. intros [= <- <-]. constructor; [rewrite length_take; lia|by eapply IH].
Qed.

Lemma DeserializeProof_siblings data p : DeserializeProof data = Some p -> Forall (fun h : Hash => length h = 32%nat) (p_Siblings p).
Proof.
  unfold DeserializeProof, readSiblings. intros E. repeat (case_match || simplify_option_eq); try done; by eapply readHashes_lengths.
Qed.

Definition domainLeafOk (l : DomainLeaf) : Prop :=
  Z.of_nat (length (dl_Name l)) < 2 ^ 32 /\ length (dl_ObjectID l) = 32%nat /\ length (dl_Owner l) = 32%nat /\ is_u64 (dl_ExpiryEpoch l).

Lemma domainLeaf_roundtrip l : domainLeafOk l -> DecodeDomainLeaf (encodeDomainLeaf l) = Some l.
Proof.
  intros (Hn & Ho & Hw & [He1 He2]). unfold DecodeDomainLeaf, encodeDomainLeaf, u32. rewrite Z.mod_small by lia.
  rewrite !length_app, !length_be_enc. destruct (Nat.ltb_spec (4 + (length (dl_Name l) + (length (dl_ObjectID l) + (length (dl_Owner l) + 8)))) 4); [lia|].
  rewrite take_app_length' by (by rewrite length_be_enc). rewrite drop_app_length' by (by rewrite length_be_enc).
  rewrite be_dec_enc by (simpl; lia). rewrite !length_app, length_be_enc, Ho, Hw.
  destruct (Z.eqb_spec (Z.of_nat (length (dl_Name l) + (32 + (32 + 8)))) (Z.of_nat (length (dl_Name l)) + 32 + 32 + 8)); [|lia]. cbn [negb].
  rewrite Nat2Z.id, take_app_length, drop_app_length. rewrite take_app_length' by done.
  rewrite drop_app_length' by done. rewrite take_app_length' by done. rewrite (drop_app_ge (dl_ObjectID l)) by lia. rewrite Ho.
  rewrite (drop_app_length' (dl_Owner l)) by lia. rewrite take_ge by (rewrite length_be_enc; lia). rewrite be_dec_enc by (simpl; lia). by destruct l.
Qed.

Lemma nilIfEmpty_some b v : nilIfEmpty b = Some v -> b = v /\ v ≠ [].
Proof. destruct b; [done|]. by intros [= <-]. Qed.

(** Two trees with one root store the same map. *)
Lemma Stores_binds (H : bytes -> Hash) `{!Digest H} (K : bytes -> Prop) (Kinj : forall a b, K a -> K b -> H a = H b -> a = b) xs t t' m m' :
  Stores H K t m -> Stores H K t' m' -> fst (Root H t) = fst (Root H t') -> NoCollision H xs ->
  (forall x, x ∈ defaultInputs H treeDepth \/ x ∈ treeInputs H (smt_root t) 0 \/ x ∈ treeInputs H (smt_root t') 0 \/
     (exists k, m !! k = Some x) \/ (exists k, m' !! k = Some x) -> x ∈ xs) -> m = m'.
Proof.
  intros Ht Hs Er Hn Hsub. assert (Hc : content (smt_root t) = content (smt_root t')).
  { apply (root_binds H xs Hn) with (depth := 0%nat); [intros; apply Hsub; auto|apply (sk_wf _ _ (ts_ok _ _ _ _ Ht))|apply (sk_wf _ _ (ts_ok _ _ _ _ Hs))|lia
      |intros; apply Hsub; auto|intros; apply Hsub; auto|].
    destruct (Root_ok H _ (ts_ok _ _ _ _ Ht)) as (<- & _), (Root_ok H _ (ts_ok _ _ _ _ Hs)) as (<- & _). done. }
  apply map_eq. intros k. destruct (decide (is_Some (m !! k) \/ is_Some (m' !! k))) as [Hor|Hno].
  2: { destruct (m !! k), (m' !! k); try done; exfalso; apply Hno; eauto. }
  assert (HK : K k) by (destruct Hor as [[v Hv']|[v Hv']]; [by apply (ts_keys _ _ _ _ Ht k v)|by apply (ts_keys _ _ _ _ Hs k v)]).
  pose proof (Get_content H t k (ts_ok _ _ _ _ Ht)) as G1. pose proof (Get_content H t' k (ts_ok _ _ _ _ Hs)) as G2.
  rewrite Hc in G1. rewrite G1, !(Stores_Get H K Kinj _ _ k) in G2 by done.
  destruct (m !! k) as [v|] eqn:E1, (m' !! k) as [v'|] eqn:E2; try done. injection G2 as G2. f_equal.
  apply (no_clash H xs Hn); [| |done]; apply Hsub; eauto 7.
Qed.

Section Sound.
Context (X : Crypto) `{!Digest (blake3 X)}.
Abbreviation H := (blake3 X).
(** The identifiers and names in use, as in the index. *)
Context (K : bytes -> Prop) (Kinj : forall a b, K a -> K b -> H a = H b -> a = b).
(** The index behind the anchor, and the state it stands for. *)
Context (m : Manager) (st : IndexState) (Hm : managerOk H K m st).

Definition rootsInput : bytes :=
  let r := fst (roots H m) in r_Domain r ++ r_Parent r ++ r_Children r ++ r_Validator r.

Definition claimInput (anchor : ProvedIndexAnchor) : bytes :=
  pa_DomainRoot anchor ++ pa_ParentRoot anchor ++ pa_ChildrenRoot anchor ++ pa_ValidatorRoot anchor.

(** What the two sides hash to tie an answer's components to the root. *)
Definition bindInputs (anchor : ProvedIndexAnchor) : list bytes := [rootsInput; claimInput anchor].

(** The hashing of one proof check against one tree of the index. *)
Definition proofInputs (t : SMT) (key : bytes) (value : option bytes) (proof : bytes) : list bytes :=
  match DeserializeProof proof with Some p => hashedInputs H t key value p | None => [] end.

Lemma root_length t : smtOk H t -> length (fst (Root H t)) = 32%nat.
Proof using Digest0. intros Hok. destruct (Root_ok H t Hok) as (-> & _). by apply length_pureHash. Qed.

Definition tree (c : Component) : SMT :=
  match c with
  | DomainComponent => m_domain m
  | ParentComponent => ht_Parent (m_hierarchy m)
  | ChildrenComponent => ct_top (ht_Children (m_hierarchy m))
  end.

Lemma tree_ok c : smtOk H (tree c).
Proof using Hm. destruct Hm as [[_ Hp _ Ht] Hd _ _ _], c; cbn [tree]; [apply Hd|apply Hp|apply Ht]. Qed.

(** A bound block names the index's own components. *)
Lemma bound_components a anchor u : bind X a anchor = Val u -> vn_IndexRoot a = r_Combined (fst (roots H m)) -> anchorOk anchor ->
  NoCollision H (bindInputs anchor) ->
  (forall c, componentRoot anchor c = fst (Root H (tree c))) /\ pa_ValidatorRoot anchor = fst (Root H (vt_smt (m_validator m))).
Proof using Digest0 Hm.
  intros Hb Hr [_ _ L1 L2 L3 L4] Hn. apply bind_Val in Hb. rewrite Hr in Hb. destruct (roots_ok H K m st Hm) as (_ & Er & _).
  pose proof (root_length _ (tree_ok DomainComponent)) as R1. pose proof (root_length _ (tree_ok ParentComponent)) as R2.
  pose proof (root_length _ (tree_ok ChildrenComponent)) as R3. cbn [tree] in *.
  assert (E : claimInput anchor = rootsInput).
  { apply (no_clash H _ Hn); [right; left|left|]. unfold claimInput, rootsInput. rewrite Er in *. exact Hb. }
  unfold claimInput, rootsInput in E. rewrite Er in E. cbv zeta in E. cbn [r_Domain r_Parent r_Children r_Validator] in E.
  apply app_inj_1 in E as [E1 E]; [|congruence]. apply app_inj_1 in E as [E2 E]; [|congruence]. apply app_inj_1 in E as [E3 E4]; [|congruence].
  split; [|done]. by intros [].
Qed.

(** The value a checked proof carries is the stored one. *)
Lemma VerifyProof_stored a anchor c key value proof u : VerifyProof X a anchor c key value proof = Val u ->
  vn_IndexRoot a = r_Combined (fst (roots H m)) -> anchorOk anchor ->
  NoCollision H (bindInputs anchor ++ proofInputs (tree c) key value proof) -> Get H (tree c) key = value.
Proof using Digest0 Hm.
  intros Hv Hr Ha Hn. unfold VerifyProof in Hv. apply NoCollision_app in Hn as [Hn1 Hn2].
  apply res_bind_Val in Hv as (? & Hb & Hv). apply res_bind_Val in Hv as (p & Hp & Hv). apply orErr_Val in Hp. apply guard_Val in Hv.
  destruct (bound_components a anchor _ Hb Hr Ha Hn1) as [Hc _]. rewrite Hc in Hv. unfold proofInputs in Hn2. rewrite Hp in Hn2.
  apply (verified_answer H (tree c) key value p); [apply tree_ok|by eapply DeserializeProof_siblings|done|done].
Qed.

(** *** Domains *)

Definition domainInputs (resp : DomainResolveResponse) (name : bytes) : list bytes :=
  bindInputs (dr_Anchor resp) ++ proofInputs (m_domain m) name (nilIfEmpty (dr_Leaf resp)) (dr_Proof resp).

Lemma domain_sound a resp name r : VerifyDomain X a (Some resp) name = Val r ->
  vn_IndexRoot a = r_Combined (fst (roots H m)) -> anchorOk (dr_Anchor resp) -> K name ->
  map_Forall (fun _ l => domainLeafOk l) (is_domains st) -> NoCollision H (domainInputs resp name) ->
  r = is_domains st !! name.
Proof using Digest0 Kinj Hm.
  intros Hv Hr Ha Hk Hl Hn. unfold VerifyDomain in Hv. cbn [orErr mbind res_bind] in Hv. apply res_bind_Val in Hv as (u & Hp & Hv).
  pose proof (VerifyProof_stored a (dr_Anchor resp) DomainComponent name _ _ u Hp Hr Ha Hn) as Hg. cbn [tree] in Hg.
  rewrite (Stores_Get H K Kinj _ _ name (mo_domain _ _ _ _ Hm) Hk), lookup_fmap in Hg. destruct (nilIfEmpty (dr_Leaf resp)) as [value|] eqn:Ev.
  - destruct (is_domains st !! name) as [l|] eqn:El; [|done]. injection Hg as <-. specialize (Hl name l El).
    rewrite domainLeaf_roundtrip in Hv by done. cbn [orErr mbind res_bind] in Hv. apply res_bind_Val in Hv as (_ & _ & Hv). by injection Hv as <-.
  - destruct (is_domains st !! name); [done|]. by injection Hv as <-.
Qed.

(** *** Children *)

Definition childrenInputs (resp : ListChildrenResponse) (parent : Hash) : list bytes :=
  (bindInputs (lr_Anchor resp) ++
   proofInputs (ct_top (ht_Children (m_hierarchy m))) parent (if lr_Found resp then Some (lr_SubtreeRoot resp) else None) (lr_Proof resp)) ++
  defaultInputs H treeDepth ++ markerInputs H (childSet (is_edges st) parent) ++ markerInputs H (list_to_set (lr_Children resp)).

Lemma top_lookup parent : K parent -> Get H (ct_top (ht_Children (m_hierarchy m))) parent =
  if decide (childSet (is_edges st) parent = ∅) then None else subtreeRoot H (childSet (is_edges st) parent).
Proof using Digest0 Kinj Hm.
  intros Hp. pose proof (mo_hier _ _ _ _ Hm) as Hh. rewrite (Stores_Get H K Kinj _ _ parent (ho_top _ _ _ _ Hh) Hp).
  unfold topMap. rewrite lookup_fmap, (ho_children _ _ _ _ Hh parent). case_decide as Ed; [done|]. cbn [fmap option_fmap option_map].
  destruct (subtreeRoot_total H K Kinj (childSet (is_edges st) parent)) as (r & -> & _); [eapply edges_set, Hh|]. done.
Qed.

Lemma children_sound a resp parent l : VerifyChildren X a (Some resp) parent = Val l ->
  vn_IndexRoot a = r_Combined (fst (roots H m)) -> anchorOk (lr_Anchor resp) -> K parent -> Forall K (lr_Children resp) ->
  NoCollision H (childrenInputs resp parent) ->
  NoDup l /\ forall c, c ∈ l <-> exists kind, is_edges st !! c = Some (kind, parent).
Proof using Digest0 Kinj Hm.
  intros Hv Hr Ha Hk Hs Hn. apply NoCollision_app in Hn as [Hn1 Hn2]. unfold VerifyChildren in Hv. cbn [orErr mbind res_bind] in Hv.
  apply res_bind_Val in Hv as (u & Hp & Hv). pose proof (VerifyProof_stored a _ ChildrenComponent parent _ _ u Hp Hr Ha Hn1) as Hg. cbn [tree] in Hg.
  rewrite top_lookup in Hg by done. setoid_rewrite <- childSet_elem. destruct (lr_Found resp) eqn:Ef; cbn [negb] in Hv.
  - case_decide as Ed; [done|]. apply res_bind_Val in Hv as (o & Ho%orCrash_Val & Hv). apply res_bind_Val in Hv as (rb & Hrb%orErr_Val & Hv).
    apply res_bind_Val in Hv as (u' & Hu'%guard_Val%bool_decide_eq_true & Hv). injection Hv as <-. subst.
    destruct (enumeration_members H K Kinj (childSet (is_edges st) parent) (lr_Children resp) (lr_SubtreeRoot resp)) as [Hd Hc];
      [eapply edges_set, (mo_hier _ _ _ _ Hm)|exact Hs|exact Hg|exact Ho|exact Hn2|split; [exact Hd|exact Hc]].
  - case_decide as Ee; [|by destruct (subtreeRoot_total H K Kinj (childSet (is_edges st) parent)) as (r & Er & _);
      [eapply edges_set, (mo_hier _ _ _ _ Hm)|rewrite Er in Hg]].
    apply res_bind_Val in Hv as (u' & _ & Hv). injection Hv as <-. split; [constructor|]. intros c. rewrite Ee, elem_of_nil, elem_of_empty. tauto.
Qed.

(** *** Ancestry *)

(** The chain of edges from an object up to a key, or to an object without an edge. *)
Inductive Upward (edges : gmap Hash (Z * Hash)) : Hash -> list ParentLeaf -> Prop :=
| Up_none c : edges !! c = None -> Upward edges c []
| Up_key c p : edges !! c = Some (KeyRootKind, p) -> Upward edges c [mkParentLeaf c KeyRootKind p]
| Up_object c kind p chain : edges !! c = Some (kind, p) -> kind ≠ KeyRootKind -> Upward edges p chain ->
    Upward edges c (mkParentLeaf c kind p :: chain).

Definition ancestryInputs (resp : GetAncestorsResponse) : list bytes :=
  bindInputs (ga_Anchor resp) ++
  concat (map (fun e => proofInputs (ht_Parent (m_hierarchy m)) (wg_ChildID e) (nilIfEmpty (wg_Leaf e)) (wg_Proof e)) (ga_Edges resp)).

Lemma edge_sound a anchor e expected r : verifyEdge X a anchor e expected = Val r ->
  vn_IndexRoot a = r_Combined (fst (roots H m)) -> anchorOk anchor -> K expected ->
  NoCollision H (bindInputs anchor ++ proofInputs (ht_Parent (m_hierarchy m)) (wg_ChildID e) (nilIfEmpty (wg_Leaf e)) (wg_Proof e)) ->
  r = (fun kp => mkParentLeaf expected (fst kp) (snd kp)) <$> is_edges st !! expected.
Proof using Digest0 Kinj Hm.
  intros Hv Hr Ha Hk Hn. unfold verifyEdge in Hv. apply res_bind_Val in Hv as (? & <-%guard_Val%bool_decide_eq_true & Hv). cbv zeta in Hv.
  apply res_bind_Val in Hv as (u & Hp & Hv). pose proof (VerifyProof_stored a anchor ParentComponent _ _ _ u Hp Hr Ha Hn) as Hg. cbn [tree] in Hg.
  pose proof (mo_hier _ _ _ _ Hm) as Hh. rewrite (Stores_Get H K Kinj _ _ _ (ho_parent _ _ _ _ Hh) Hk), parentMap_lookup in Hg.
  destruct (nilIfEmpty (wg_Leaf e)) as [value|] eqn:Ev.
  - destruct (is_edges st !! wg_ChildID e) as [[k q]|] eqn:E; [|done]. injection Hg as <-. destruct (ho_edges _ _ _ _ Hh _ _ E) as [[_ L1] [_ L2]].
    cbn [fst snd] in *. rewrite parentLeaf_roundtrip in Hv by done. cbn [orErr mbind res_bind] in Hv. apply res_bind_Val in Hv as (_ & _ & Hv).
    by injection Hv as <-.
  - destruct (is_edges st !! wg_ChildID e); [done|]. by injection Hv as <-.
Qed.

Lemma ancestry_loop_sound a anchor edges : forall c chain, ancestryLoop X a anchor edges c = Val chain ->
  vn_IndexRoot a = r_Combined (fst (roots H m)) -> anchorOk anchor -> K c ->
  NoCollision H (bindInputs anchor ++
    concat (map (fun e => proofInputs (ht_Parent (m_hierarchy m)) (wg_ChildID e) (nilIfEmpty (wg_Leaf e)) (wg_Proof e)) edges)) ->
  Upward (is_edges st) c chain.
Proof using Digest0 Kinj Hm.
  induction edges as [|e edges IH]; intros c chain Hv Hr Ha Hk Hn; [done|]. cbn [ancestryLoop map concat] in *.
  apply res_bind_Val in Hv as (leaf & He & Hv). apply edge_sound in He; try done.
  2: { eapply NoCollision_sub; [|exact Hn]. intros x. rewrite !elem_of_app. tauto. }
  destruct (is_edges st !! c) as [[k p]|] eqn:E; rewrite He in Hv; cbn [fmap option_fmap option_map fst snd] in Hv.
  2: { injection Hv as <-. by constructor. }
  cbn [pl_ParentKind pl_Parent] in Hv. destruct (Z.eqb_spec k KeyRootKind) as [->|Hne].
  - injection Hv as <-. by constructor.
  - apply res_bind_Val in Hv as (rest & Hrest & Hv). injection Hv as <-. econstructor; [done|done|]. apply IH; try done.
    + destruct (ho_edges _ _ _ _ (mo_hier _ _ _ _ Hm) _ _ E) as [_ [Hkp _]]. exact Hkp.
    + eapply NoCollision_sub; [|exact Hn]. intros x. rewrite !elem_of_app. tauto.
Qed.

(** *** Committees *)

Definition treeOf (leaves : list ValidatorLeaf) : node := match Rebuild H leaves with Some t => smt_root (vt_smt t) | None => Nil end.

Definition committeeInputs (resp : GetValidatorTreeResponse) (leaves : list ValidatorLeaf) : list bytes :=
  bindInputs (gt_Anchor resp) ++ defaultInputs H treeDepth ++ treeInputs H (treeOf leaves) 0 ++ treeInputs H (smt_root (vt_smt (m_validator m))) 0 ++
  map encodeValidatorLeaf leaves ++ map encodeValidatorLeaf (is_validators st).

Lemma leafMap_range vs k v : leafMap vs !! k = Some v -> v ∈ map encodeValidatorLeaf vs.
Proof using.
  unfold leafMap. assert (Hg : forall l (mp : gmap bytes bytes), foldl (fun mp v => <[vl_Pubkey v := encodeValidatorLeaf v]> mp) mp l !! k = Some v ->
    v ∈ map encodeValidatorLeaf l \/ mp !! k = Some v).
  { induction l as [|x l IH]; intros mp E; [by right|]. cbn [foldl map] in *. destruct (IH _ E) as [Hl|Hl]; [left; by right|].
    apply lookup_insert_Some in Hl as [[_ <-]|[_ Hl]]; [left; left|by right]. }
  intros E. destruct (Hg _ _ E) as [|E']; [done|]. by rewrite lookup_empty in E'.
Qed.

Lemma committee_sound a resp set : VerifyValidatorSet X a (Some resp) = Val set ->
  vn_IndexRoot a = r_Combined (fst (roots H m)) -> anchorOk (gt_Anchor resp) -> Forall (fun l => K (vl_Pubkey l)) (cm_Leaves set) ->
  NoCollision H (committeeInputs resp (cm_Leaves set)) -> leafMap (cm_Leaves set) = leafMap (is_validators st).
Proof using Digest0 Kinj Hm.
  intros Hv Hr Ha Hk Hn. unfold VerifyValidatorSet in Hv. cbn [orErr mbind res_bind] in Hv. apply res_bind_Val in Hv as (? & _ & Hv).
  apply res_bind_Val in Hv as (? & Hb & Hv). apply res_bind_Val in Hv as (leaves & _ & Hv). apply res_bind_Val in Hv as (root & Hroot%orCrash_Val & Hv).
  apply res_bind_Val in Hv as (? & Heq%guard_Val%bool_decide_eq_true & Hv). injection Hv as <-. cbn [cm_Leaves] in *.
  apply NoCollision_app in Hn as [Hn1 Hn2]. destruct (bound_components a _ _ Hb Hr Ha Hn1) as [_ Hval]. rewrite Hval in Heq.
  destruct (Rebuild_ok H K Kinj leaves Hk) as (t & Et & Ht & _). unfold ValidatorRootOf in Hroot. unfold treeOf in Hn2. rewrite Et in Hroot, Hn2.
  cbn [mbind option_bind] in Hroot. injection Hroot as Hroot. pose proof (mo_validator _ _ _ _ Hm) as Hs.
  eapply (Stores_binds H K Kinj _ _ _ _ _ Ht Hs); [congruence|exact Hn2|]. intros y Hy. rewrite !elem_of_app.
  destruct Hy as [?|[?|[?|[[k Hy]|[k Hy]]]]]; [auto|auto|auto| |]; apply leafMap_range in Hy; auto 7.
Qed.

End Sound.

(** ** The theorems *)

Lemma leafMap_lookup vs v : NoDup (map vl_Pubkey vs) -> v ∈ vs -> leafMap vs !! vl_Pubkey v = Some (encodeValidatorLeaf v).
Proof.
  unfold leafMap. assert (Hg : forall l (mp : gmap bytes bytes) k w, k ∉ map vl_Pubkey l -> mp !! k = Some w ->
    foldl (fun mp v => <[vl_Pubkey v := encodeValidatorLeaf v]> mp) mp l !! k = Some w).
  { induction l as [|x l IH]; intros mp k w Hk Hw; [done|]. cbn [foldl map] in *. apply not_elem_of_cons in Hk as [Hne Hk].
    apply IH; [done|]. by rewrite lookup_insert_ne. }
  generalize (∅ : gmap bytes bytes). induction vs as [|x vs IH]; intros mp Hnd Hv; [by apply elem_of_nil in Hv|].
  cbn [map foldl] in *. apply NoDup_cons in Hnd as [Hx Hnd]. apply elem_of_cons in Hv as [->|Hv]; [|by apply IH].
  apply Hg; [done|]. by rewrite lookup_insert_eq.
Qed.

Lemma leafMap_source vs k w : leafMap vs !! k = Some w -> exists v, v ∈ vs /\ vl_Pubkey v = k /\ encodeValidatorLeaf v = w.
Proof.
  unfold leafMap. assert (Hg : forall l (mp : gmap bytes bytes), foldl (fun mp v => <[vl_Pubkey v := encodeValidatorLeaf v]> mp) mp l !! k = Some w ->
    (exists v, v ∈ l /\ vl_Pubkey v = k /\ encodeValidatorLeaf v = w) \/ mp !! k = Some w).
  { induction l as [|x l IH]; intros mp E; [by right|]. cbn [foldl] in E. destruct (IH _ E) as [(v & Hv & Hr)|Hl].
    - left. exists v. split; [by right|done].
    - apply lookup_insert_Some in Hl as [[<- <-]|[_ Hl]]; [left; exists x; split; [left|done]|by right]. }
  intros E. destruct (Hg _ _ E) as [|E']; [done|]. by rewrite lookup_empty in E'.
Qed.

(** Without repeated keys, equal maps are the same committee. *)
Lemma leafMap_perm vs vs' : NoDup (map vl_Pubkey vs) -> NoDup (map vl_Pubkey vs') -> Forall leafOk vs -> Forall leafOk vs' ->
  leafMap vs = leafMap vs' -> vs ≡ₚ vs'.
Proof.
  intros Hn Hn' Hl Hl' E. rewrite Forall_forall in Hl, Hl'. apply NoDup_Permutation; [by apply NoDup_fmap_1 in Hn|by apply NoDup_fmap_1 in Hn'|].
  assert (Hhalf : forall a b, NoDup (map vl_Pubkey a) -> (forall v, v ∈ a -> leafOk v) -> (forall v, v ∈ b -> leafOk v) -> leafMap a = leafMap b ->
    forall v, v ∈ a -> v ∈ b).
  { intros a b Hna Hla Hlb Eab v Hv. pose proof (leafMap_lookup a v Hna Hv) as Ev. rewrite Eab in Ev.
    apply leafMap_source in Ev as (w & Hw & _ & Ew). pose proof (validatorLeaf_roundtrip w (Hlb w Hw)) as R.
    rewrite Ew, validatorLeaf_roundtrip in R by (by apply Hla). by injection R as ->. }
  intros v. split; [by apply Hhalf|by apply Hhalf].
Qed.

Section Answers.
Context (X : Crypto) `{!Digest (blake3 X)}.
Context (K : bytes -> Prop) (Kinj : forall a b, K a -> K b -> blake3 X a = blake3 X b -> a = b).

(** What a client accepts under an anchor at an index's root is what that index stores:
    the lease or its absence, every child and no other, the chain of parents to its
    end. *)

(** C19. Without hash collisions among the inputs involved, what a client accepts under an
    anchor at an index's root is what that index stores: the lease of a name or its
    absence, every child of an object once and no other, the chain of parents to its end.
    *)
Theorem accepted_answers_are_stored ops m a :
  Forall (opOk K) ops -> runManager (blake3 X) NewManager ops = Some m -> vn_IndexRoot a = r_Combined (fst (roots (blake3 X) m)) ->
  let st := foldl indexStep emptyIndex ops in
  (forall resp name r, VerifyDomain X a (Some resp) name = Val r -> anchorOk (dr_Anchor resp) -> K name ->
     map_Forall (fun _ l => domainLeafOk l) (is_domains st) -> NoCollision (blake3 X) (domainInputs X m resp name) ->
     r = is_domains st !! name) /\
  (forall resp parent l, VerifyChildren X a (Some resp) parent = Val l -> anchorOk (lr_Anchor resp) -> K parent -> Forall K (lr_Children resp) ->
     NoCollision (blake3 X) (childrenInputs X m st resp parent) ->
     NoDup l /\ forall c, c ∈ l <-> exists kind, is_edges st !! c = Some (kind, parent)) /\
  (forall resp object chain, VerifyAncestry X a (Some resp) object = Val chain -> anchorOk (ga_Anchor resp) -> K object ->
     NoCollision (blake3 X) (ancestryInputs X m resp) -> Upward (is_edges st) object chain).
Proof using Digest0 Kinj.
  intros Hops Hrun Hr. cbv zeta. destruct (runManager_ok (blake3 X) K Kinj ops NewManager emptyIndex) as (m' & E & Hm); [apply NewManager_ok|done|].
  rewrite Hrun in E. injection E as <-. split_and!.
  - intros resp name r Hv Ha Hk Hl Hn. by eapply domain_sound.
  - intros resp parent l Hv Ha Hk Hs Hn. by eapply children_sound.
  - intros resp object chain Hv Ha Hk Hn. unfold VerifyAncestry in Hv. cbn [orErr mbind res_bind] in Hv. apply res_bind_Val in Hv as (u & _ & Hv).
    by eapply ancestry_loop_sound.
Qed.

(** A committee accepted under the anchor maps every key to the leaf the index stores;
    without a repeated leaf it is the committee itself. *)

(** A committee accepted under an anchor maps every key to the leaf the index stores,
    and without a repeated leaf it is a permutation of the stored committee. *)
Theorem accepted_committee_is_the_committee ops m a resp set :
  Forall (opOk K) ops -> runManager (blake3 X) NewManager ops = Some m -> vn_IndexRoot a = r_Combined (fst (roots (blake3 X) m)) ->
  VerifyValidatorSet X a (Some resp) = Val set -> anchorOk (gt_Anchor resp) -> Forall (fun l => K (vl_Pubkey l)) (cm_Leaves set) ->
  let st := foldl indexStep emptyIndex ops in
  NoCollision (blake3 X) (committeeInputs X m st resp (cm_Leaves set)) ->
  leafMap (cm_Leaves set) = leafMap (is_validators st) /\
  (NoDup (map vl_Pubkey (cm_Leaves set)) -> NoDup (map vl_Pubkey (is_validators st)) -> Forall leafOk (cm_Leaves set) -> Forall leafOk (is_validators st) ->
   cm_Leaves set ≡ₚ is_validators st).
Proof using Digest0 Kinj.
  intros Hops Hrun Hr Hv Ha Hk. cbv zeta. intros Hn.
  destruct (runManager_ok (blake3 X) K Kinj ops NewManager emptyIndex) as (m' & E & Hm); [apply NewManager_ok|done|].
  rewrite Hrun in E. injection E as <-. assert (El : leafMap (cm_Leaves set) = leafMap (is_validators (foldl indexStep emptyIndex ops))) by (by eapply committee_sound).
  split; [done|]. intros. by apply leafMap_perm.
Qed.

End Answers.
