(* ===== verification/Bundle.v ===== *)
(** * Serving and joining on quorum anchors (internal/consensus/anchorbundle.go,
    anchorquorum.go; cmd/node/indexhandlers.go, indexqueries.go, checkpoint.go)

    The bundle a node assembles from the headers it stores, the proved answers it
    serves, and the gate a joining node closes on: a committee pinned out of band
    must attest the root the joiner computed itself.  The index is the manager
    behind the node, [None] when it is not wired. *)

From S2P Require Import Prelude Types Fees Validators Stake Storage Tracker Domains Staged Coins Ledger Ops Dag Vertices Smt Index Feed Header Wire.

Definition bundleWindow : Z := 16.
Definition anchorScanSlack : Z := 32.

Record AnchorBundle := mkBundle { ab_FrontierRound : Z; ab_IndexRoot : Hash; ab_Epoch : Z; ab_Headers : list bytes }.

(** Matching headers by frontier and producer. *)
Abbreviation Tallies := (gmap Z (gmap Hash bytes)).

Definition headerRecord (v : Vertex) : option bytes :=
  if negb (Nat.eqb (length (v_Signature v)) signatureSize) then None else Some (headerBytes v ++ v_Signature v).

Definition tallyAnchorVertex (s : store) (m : Manager) (windowFloor committed : Z) (tallies : Tallies) (h : Hash) : Tallies :=
  match get s h with
  | None => tallies
  | Some v =>
      let frontier := v_FrontierRound v in
      if (frontier <? windowFloor) || (committed <? frontier) then tallies
      else match RootAt m frontier with
           | None => tallies
           | Some localRoot =>
               if negb (bool_decide (hashFrom (v_IndexRoot v) = localRoot)) then tallies
               else match headerRecord v with
                    | None => tallies
                    | Some record =>
                        let group := default ∅ (tallies !! frontier) in
                        let producer := hashFrom (v_Producer v) in
                        <[frontier := if bool_decide (is_Some (group !! producer)) then group else <[producer := record]> group]> tallies
                    end
           end
  end.

Definition scanCeiling (s : store) (committed : Z) : Z :=
  let ceiling := committed +w anchorScanSlack in if highestRound s <? ceiling then highestRound s else ceiling.

Definition collectAnchorTallies (s : store) (m : Manager) (windowFloor committed : Z) : Tallies :=
  foldl (fun tallies round => foldl (tallyAnchorVertex s m windowFloor committed) tallies (getByRound s round)) ∅
    (seqZ windowFloor (scanCeiling s committed - windowFloor + 1)).

(** [frontier := committed; ; frontier--] down to the floor. *)
Definition descending (floor committed : Z) : list Z := rev (seqZ floor (committed - floor + 1)).

Fixpoint firstBundle (at_frontier : Z -> option AnchorBundle) (frontiers : list Z) : option AnchorBundle :=
  match frontiers with
  | [] => None
  | f :: frontiers => match at_frontier f with Some b => Some b | None => firstBundle at_frontier frontiers end
  end.

Definition anchorQuorumFloor (minFrontier committed : Z) : Z :=
  if committed <? bundleWindow then minFrontier
  else let windowFloor := committed - (bundleWindow - 1) in if minFrontier <? windowFloor then windowFloor else minFrontier.

Section Bundle.
Context {M : Type} (X : Crypto) (c : Config) (d : DAG M) (s : store) (indexer : option Manager).

Definition bundleAtFrontier (m : Manager) (frontier : Z) (group : gmap Hash bytes) : option AnchorBundle :=
  if bool_decide (group = ∅) then None
  else
    let epoch := commitEpochForRound c frontier in
    set ← HoldersForEpoch d epoch;
    let producers : gset Hash := dom group in
    if negb (reachesStrictQuorum (votingCapMille c) set producers) then None
    else
      root ← RootAt m frontier;
      Some (mkBundle frontier root epoch (map snd (map_to_list group))).

Definition IndexAnchorBundle : option AnchorBundle :=
  m ← indexer;
  let committed := fst (CommittedFrontier m) in
  let windowFloor := if bundleWindow - 1 <=? committed then committed - (bundleWindow - 1) else 0 in
  let tallies := collectAnchorTallies s m windowFloor committed in
  firstBundle (fun frontier => bundleAtFrontier m frontier (default ∅ (tallies !! frontier))) (descending windowFloor committed).

Definition verifiedHeaderRecord (producer : Hash) (record : bytes) : bool :=
  if negb (Nat.eqb (length record) (headerSize + signatureSize)) then false
  else ed25519Verify X producer (taggedHash X headerDomainTag (take headerSize record)) (drop headerSize record).

Definition verifiedBundleAt (m : Manager) (frontier : Z) (group : gmap Hash bytes) (judge : ValidatorSet) : option AnchorBundle :=
  if bool_decide (group = ∅) then None
  else
    let counted := filter (fun pr => bool_decide (is_Some (Validators.Get judge (fst pr))) && verifiedHeaderRecord (fst pr) (snd pr) = true) (map_to_list group) in
    let producers : gset Hash := list_to_set (map fst counted) in
    if negb (reachesStrictQuorum (votingCapMille c) judge producers) then None
    else
      root ← RootAt m frontier;
      Some (mkBundle frontier root (commitEpochForRound c frontier) (map snd counted)).

Definition AnchorQuorumSince (minFrontier : Z) (judge : option ValidatorSet) : option AnchorBundle :=
  m ← indexer;
  judge ← judge;
  if Len judge =? 0 then None
  else
    let committed := fst (CommittedFrontier m) in
    if committed <? minFrontier then None
    else
      let floor := anchorQuorumFloor minFrontier committed in
      let tallies := collectAnchorTallies s m floor committed in
      firstBundle (fun frontier => verifiedBundleAt m frontier (default ∅ (tallies !! frontier)) judge) (descending floor committed).

(** ** The cached bundle (indexhandlers.go) *)

Record indexAnchorCache := mkCache { ac_cursor : option Z; ac_bundle : option AnchorBundle }.   (* cursor [None]: not seeded *)

Definition cachedAnchorBundle (cache : indexAnchorCache) : option AnchorBundle * indexAnchorCache :=
  match indexer with
  | None => (None, cache)
  | Some m =>
      let committed := fst (CommittedFrontier m) in
      if bool_decide (ac_cursor cache = Some committed) then (ac_bundle cache, cache)
      else let bundle := IndexAnchorBundle in (bundle, mkCache (Some committed) bundle)
  end.

Definition bundleResponse (bundle : option AnchorBundle) : GetIndexAnchorResponse :=
  match bundle with
  | None => mkIndexAnchorResp false 0 zeroHash 0 []
  | Some b => mkIndexAnchorResp true (ab_FrontierRound b) (ab_IndexRoot b) (ab_Epoch b) (ab_Headers b)
  end.

Definition handleGetIndexAnchor (cache : indexAnchorCache) : bytes * indexAnchorCache :=
  let '(bundle, cache) := cachedAnchorBundle cache in (EncodeGetIndexAnchorResp (bundleResponse bundle), cache).

(** ** The join gate (checkpoint.go) *)

Record trustCheckpoint := mkTrust { tk_epoch : Z; tk_validatorRoot : Hash }.

Inductive joinError := errNoTrustAnchor | errCheckpointEpoch | errCheckpointMismatch | errAnchorQuorum.

(** [trustedJudge]; [None] is a panic of the Merkle tree. *)
Definition trustedJudge (cp : trustCheckpoint) : option (joinError + ValidatorSet) :=
  match HoldersForEpoch d (tk_epoch cp) with
  | None => Some (inl errCheckpointEpoch)
  | Some set =>
      if Len set =? 0 then Some (inl errCheckpointEpoch)
      else
        root ← ValidatorRootOf (blake3 X) (ValidatorLeaves c (All set));
        if negb (bool_decide (root = tk_validatorRoot cp)) then Some (inl errCheckpointMismatch) else Some (inr set)
  end.

End Bundle.

Section Join.
Context {M : Type} (X : Crypto) (c : Config).

(** What one poll of the gate sees: the node while it keeps receiving and committing. *)
Record JoinView := mkView { jv_dag : DAG M; jv_store : store; jv_index : option Manager }.

(** [awaitAnchorQuorum]: one view per poll until the deadline. *)
Fixpoint awaitAnchorQuorum (judge : ValidatorSet) (minFrontier : Z) (polls : list JoinView) : option joinError :=
  match polls with
  | [] => Some errAnchorQuorum
  | v :: polls =>
      match AnchorQuorumSince X c (jv_store v) (jv_index v) minFrontier (Some judge) with
      | Some _ => None
      | None => awaitAnchorQuorum judge minFrontier polls
      end
  end.

Definition verifyJoin (cfg : option trustCheckpoint) (d : DAG M) (minFrontier : Z) (polls : list JoinView) : option (option joinError) :=
  match cfg with
  | None => Some (Some errNoTrustAnchor)
  | Some cp =>
      judge ← trustedJudge X c d cp;
      match judge with
      | inl e => Some (Some e)
      | inr set => Some (awaitAnchorQuorum set minFrontier polls)
      end
  end.

Definition verifySyncedState (cfg : option trustCheckpoint) (insecureBootstrap : bool) (d : DAG M) (minFrontier : Z) (polls : list JoinView)
  : option (option joinError) :=
  match cfg with None => if insecureBootstrap then Some None else verifyJoin cfg d minFrontier polls | Some _ => verifyJoin cfg d minFrontier polls end.

End Join.

(** ** Proved queries (indexqueries.go) *)

Definition provedAnchor (a : Anchor) : ProvedIndexAnchor :=
  mkProvedAnchor (a_Anchored a) (a_Round a) (r_Combined (a_Roots a)) (r_Domain (a_Roots a)) (r_Parent (a_Roots a)) (r_Children (a_Roots a))
    (r_Validator (a_Roots a)).

(** A leaf on the wire; an absent one is empty. *)
Definition wireLeaf (value : option bytes) : bytes := default [] value.

Definition ancestorEdges (edges : list AncestorEdge) : list WireEdge :=
  map (fun e => mkWireEdge (ae_ChildID e) (wireLeaf (ae_Value e)) (Serialize (ae_Proof e))) edges.

Section Queries.
Context (H : bytes -> Hash).

(** Each handler past its request decoder: the response and the index after the query,
    [None] when the node has no index. [resolved] is what [state.ResolveDomain] says. *)
Definition handleDomainResolve (idxManager : option Manager) (resolved : option Hash) (name : bytes) : DomainResolveResponse * option Manager :=
  let found := bool_decide (is_Some resolved) in
  let objectID := default zeroHash resolved in
  match idxManager with
  | None => (mkDomainResp found objectID (mkProvedAnchor false 0 zeroHash zeroHash zeroHash zeroHash zeroHash) [] [], None)
  | Some m =>
      let '(answer, m) := Index.ResolveDomain H m name in
      (mkDomainResp found objectID (provedAnchor (da_Anchor answer)) (wireLeaf (da_Value answer)) (Serialize (da_Proof answer)), Some m)
  end.

Definition handleListChildren (idxManager : option Manager) (parent : Hash) : option (ListChildrenResponse * Manager) :=
  m ← idxManager;
  let '(answer, m) := Index.ListChildren H m parent in
  Some (mkChildrenResp (provedAnchor (ca_Anchor answer)) (ca_Found answer) (ca_SubtreeRoot answer) (Serialize (ca_Proof answer)) (ca_Children answer), m).

Definition handleGetAncestors (idxManager : option Manager) (object : Hash) : option (GetAncestorsResponse * Manager) :=
  m ← idxManager;
  let '(answer, m) := Index.Ancestors H m object in
  Some (mkAncestorsResp (provedAnchor (aa_Anchor answer)) (ancestorEdges (aa_Edges answer)), m).

Definition handleGetValidatorTree (idxManager : option Manager) (liveEpoch : Z) (requested : Z) : option (GetValidatorTreeResponse * Manager) :=
  m ← idxManager;
  let '(answer, m) := ValidatorSetAnswer H m in
  let a := provedAnchor (va_Anchor answer) in
  Some (if requested =? liveEpoch then mkTreeResp a true liveEpoch (va_Values answer) else mkTreeResp a false liveEpoch [], m).

End Queries.
