(* ===== verification/Serving.v ===== *)
(** * Serving and joining are sound (internal/consensus/anchorbundle.go,
    anchorquorum.go; cmd/node/indexqueries.go, checkpoint.go)

    A node goes live only on a root of its own that an honest member of the pinned
    committee signed; the bundle a node serves is accepted by a client that holds
    the committee; and the proved answers it serves are accepted with the facts its
    index stores. *)

From S2P Require Import Prelude Types Fees Validators Stake Storage Tracker Domains Staged Coins Ledger Ops Dag Vertices Smt Merkle Index IndexFacts Retention Feed Header Wire LightClient Trust Proved Bundle.

#[local] Strategy opaque [defaultPair defaultsUp treeDepth].

(** ** Records *)

(** A stored vertex with fields of their width. *)
Definition vertexOk (v : Vertex) : Prop := is_u64 (v_Round v) /\ is_u64 (v_Epoch v) /\ is_u64 (v_FrontierRound v).

Definition verticesOk (s : store) : Prop := map_Forall (fun _ v => vertexOk v) (st_vertices s).

Lemma headerBytes_fields v : vertexOk v ->
  length (headerBytes v) = headerSize /\ slice (headerBytes v) 0 32 = hashFrom (v_Producer v) /\ uint (headerBytes v) 40 48 = v_Epoch v /\
  uint (headerBytes v) 48 56 = v_FrontierRound v /\ slice (headerBytes v) 56 88 = hashFrom (v_IndexRoot v).
Proof.
  intros (H1 & H2 & H3). pose proof (headerOf_ok v H1 H2 H3) as Hok. split; [by apply length_headerEncode|].
  destruct Hok as (Lp & _ & _ & _ & Lr & Lb). unfold headerBytes, headerEncode, uint. cbn [headerOf vh_producer vh_round vh_epoch vh_frontierRound vh_indexRoot vh_bodyHash] in *.
  split_and!; fields; by rewrite ?uint64_read.
Qed.

Lemma parse_record X v : vertexOk v -> length (v_Signature v) = signatureSize ->
  parseAnchorRecord X (headerBytes v ++ v_Signature v) =
    if ed25519Verify X (hashFrom (v_Producer v)) (headerHash X (headerOf v)) (v_Signature v)
    then Some (mkAnchorHeader (hashFrom (v_Producer v)) (v_Epoch v) (v_FrontierRound v) (hashFrom (v_IndexRoot v))) else None.
Proof.
  intros Hv Hs. destruct (headerBytes_fields v Hv) as (Hl & F1 & F2 & F3 & F4). unfold parseAnchorRecord. rewrite length_app, Hl, Hs.
  cbn [Nat.eqb negb headerSize signatureSize IndexAnchorHeaderSize Nat.add]. rewrite take_app_length', drop_app_length' by (rewrite Hl; done).
  cbn [ah_Producer]. rewrite F1, F2, F3, F4. change (headerIdentity X (headerBytes v)) with (headerHash X (headerOf v)).
  by destruct (ed25519Verify _ _ _ _).
Qed.

(** ** Tallies *)

(** Where a tallied record comes from. *)
Definition tallied (s : store) (m : Manager) (floor committed frontier : Z) (p : Hash) (record : bytes) : Prop :=
  floor <= frontier <= committed /\ exists h v, get s h = Some v /\ v_FrontierRound v = frontier /\ hashFrom (v_Producer v) = p /\
    RootAt m frontier = Some (hashFrom (v_IndexRoot v)) /\ length (v_Signature v) = signatureSize /\ record = headerBytes v ++ v_Signature v.

Definition talliesOk (s : store) (m : Manager) (floor committed : Z) (t : Tallies) : Prop :=
  forall frontier group p record, t !! frontier = Some group -> group !! p = Some record -> tallied s m floor committed frontier p record.

Lemma tallyAnchorVertex_ok s m floor committed t h : talliesOk s m floor committed t -> talliesOk s m floor committed (tallyAnchorVertex s m floor committed t h).
Proof.
  intros Ht. unfold tallyAnchorVertex. destruct (get s h) as [v|] eqn:Eg; [|done].
  destruct (Z.ltb_spec (v_FrontierRound v) floor); [done|]. destruct (Z.ltb_spec committed (v_FrontierRound v)); [done|]. cbn [orb].
  destruct (RootAt m (v_FrontierRound v)) as [root|] eqn:Er; [|done]. case_bool_decide as Eroot; [|done]. cbn [negb]. unfold headerRecord.
  destruct (Nat.eqb_spec (length (v_Signature v)) signatureSize) as [Hs|]; [|done]. cbn [negb].
  intros frontier group p record [[<- <-]|[Hne Hl]]%lookup_insert_Some Hp; [|by apply (Ht frontier group)].
  assert (Hold : forall p record, default ∅ (t !! v_FrontierRound v) !! p = Some record -> tallied s m floor committed (v_FrontierRound v) p record).
  { intros p' r' Hp'. destruct (t !! v_FrontierRound v) as [g|] eqn:El; cbn [default from_option] in Hp'; [|by rewrite lookup_empty in Hp'].
    by apply (Ht _ g). }
  case_bool_decide; [by apply Hold|]. apply lookup_insert_Some in Hp as [[<- <-]|[_ Hp]]; [|by apply Hold].
  split; [lia|]. exists h, v. split_and!; try done. by rewrite Er, Eroot.
Qed.

Lemma collect_ok s m floor committed : talliesOk s m floor committed (collectAnchorTallies s m floor committed).
Proof.
  unfold collectAnchorTallies. assert (H0 : talliesOk s m floor committed ∅) by (intros ? ? ? ? E; by rewrite lookup_empty in E).
  revert H0. generalize (∅ : Tallies). induction (seqZ _ _) as [|r rs IH]; intros t Ht; [done|]. cbn [foldl]. apply IH. clear IH.
  revert t Ht. induction (getByRound s r) as [|h hs IH]; intros t Ht; [done|]. cbn [foldl]. by apply IH, tallyAnchorVertex_ok.
Qed.

Lemma group_tallied s m floor committed frontier p record :
  default ∅ (collectAnchorTallies s m floor committed !! frontier) !! p = Some record -> tallied s m floor committed frontier p record.
Proof.
  destruct (collectAnchorTallies s m floor committed !! frontier) as [g|] eqn:E; cbn [default from_option]; [|by rewrite lookup_empty].
  by apply (collect_ok s m floor committed frontier g).
Qed.

Lemma firstBundle_Some f l b : firstBundle f l = Some b -> exists x, x ∈ l /\ f x = Some b.
Proof.
  induction l as [|x l IH]; [done|]. cbn [firstBundle]. destruct (f x) as [b'|] eqn:E.
  - intros [= ->]. exists x. split; [left|done].
  - intros Hb. destruct (IH Hb) as (y & Hy & Ey). exists y. split; [by right|done].
Qed.

Lemma descending_elem floor committed x : x ∈ descending floor committed <-> floor <= x <= committed.
Proof. unfold descending. rewrite list_elem_of_In, <- in_rev, <- list_elem_of_In, elem_of_seqZ. lia. Qed.

(** ** The join gate *)

Section Join.
Context {M : Type} (X : Crypto) (c : Config).

Lemma verified_signed s m floor committed frontier p record : verticesOk s -> tallied s m floor committed frontier p record ->
  verifiedHeaderRecord X p record = true -> exists e root, RootAt m frontier = Some root /\ Signed X p e frontier root.
Proof.
  intros Hok (_ & h & v & Hg & Hf & Hp & Hr & Hs & ->) Hv. destruct (headerBytes_fields v (Hok h v Hg)) as (Hl & F1 & F2 & F3 & F4).
  exists (v_Epoch v), (hashFrom (v_IndexRoot v)). split; [done|]. exists (headerBytes v), (v_Signature v). rewrite <- Hp, <- Hf. split_and!; try done.
  unfold verifiedHeaderRecord in Hv. rewrite length_app, Hl, Hs in Hv. cbn [Nat.eqb negb headerSize signatureSize Nat.add] in Hv.
  rewrite take_app_length', drop_app_length' in Hv by (by rewrite Hl). by rewrite Hp.
Qed.

(** What the gate's quorum says: members of the judge signed the node's own root. *)
Lemma quorumSince_spec s m minFrontier judge b : verticesOk s -> AnchorQuorumSince X c s (Some m) minFrontier (Some judge) = Some b ->
  minFrontier <= ab_FrontierRound b <= fst (CommittedFrontier m) /\ RootAt m (ab_FrontierRound b) = Some (ab_IndexRoot b) /\
  exists P, reachesStrictQuorum (votingCapMille c) judge P = true /\ forall p, p ∈ P -> exists e, Signed X p e (ab_FrontierRound b) (ab_IndexRoot b).
Proof.
  intros Hok E. unfold AnchorQuorumSince in E. cbn [mbind option_bind] in E. destruct (Len judge =? 0); [done|].
  destruct (Z.ltb_spec (fst (CommittedFrontier m)) minFrontier); [done|]. set (committed := fst (CommittedFrontier m)) in *. clearbody committed.
  apply firstBundle_Some in E as (f & Hf%descending_elem & E). unfold verifiedBundleAt in E. case_bool_decide; [done|].
  set (group := default ∅ _) in *. destruct (reachesStrictQuorum _ _ _) eqn:Eq; [|done]. cbn [negb] in E.
  destruct (RootAt m f) as [root|] eqn:Er; [|done]. cbn [mbind option_bind] in E. injection E as <-. cbn [ab_FrontierRound ab_IndexRoot].
  assert (minFrontier <= anchorQuorumFloor minFrontier committed).
  { unfold anchorQuorumFloor. destruct (_ <? _); [done|]. destruct (Z.ltb_spec minFrontier (committed - (bundleWindow - 1))); lia. }
  split; [lia|]. split; [done|]. eexists. split; [exact Eq|]. intros p Hp. apply elem_of_list_to_set, list_elem_of_fmap in Hp as ((p' & record) & -> & Hp).
  cbn [fst]. apply list_elem_of_filter in Hp as [Hg Hp]. apply elem_of_map_to_list in Hp. cbn [fst snd] in Hg. apply andb_true_iff in Hg as [_ Hg].
  destruct (verified_signed s m _ _ _ _ _ Hok (group_tallied _ _ _ _ _ _ _ Hp) Hg) as (e & root' & Er' & Hs). rewrite Er in Er'. injection Er' as <-. by exists e.
Qed.

Lemma await_spec (judge : ValidatorSet) minFrontier (polls : list (JoinView (M := M))) : awaitAnchorQuorum X c judge minFrontier polls = None ->
  exists v b, v ∈ polls /\ AnchorQuorumSince X c (jv_store v) (jv_index v) minFrontier (Some judge) = Some b.
Proof.
  induction polls as [|v polls IH]; [done|]. cbn [awaitAnchorQuorum]. destruct (AnchorQuorumSince _ _ _ _ _ _) as [b|] eqn:E.
  - intros _. exists v, b. split; [left|done].
  - intros Hp. destruct (IH Hp) as (v' & b & Hv & Hb). exists v', b. split; [by right|done].
Qed.

(** Leaves computed over a committee weigh it as the commit rule does. *)
Definition pinInputs (pinned leaves : list ValidatorLeaf) : list bytes :=
  defaultInputs (blake3 X) treeDepth ++ treeInputs (blake3 X) (treeOf X leaves) 0 ++ treeInputs (blake3 X) (treeOf X pinned) 0 ++
  map encodeValidatorLeaf leaves ++ map encodeValidatorLeaf pinned.

Lemma pin_binds `{!Digest (blake3 X)} (K : bytes -> Prop) (Kinj : forall a b, K a -> K b -> blake3 X a = blake3 X b -> a = b) pinned leaves root :
  ValidatorRootOf (blake3 X) pinned = Some root -> ValidatorRootOf (blake3 X) leaves = Some root ->
  Forall (fun l => K (vl_Pubkey l)) pinned -> Forall (fun l => K (vl_Pubkey l)) leaves -> NoCollision (blake3 X) (pinInputs pinned leaves) ->
  leafMap leaves = leafMap pinned.
Proof.
  intros E1 E2 Hp Hl Hn. destruct (Rebuild_ok _ K Kinj pinned Hp) as (t1 & T1 & S1 & _), (Rebuild_ok _ K Kinj leaves Hl) as (t2 & T2 & S2 & _).
  unfold ValidatorRootOf in E1, E2. unfold pinInputs, treeOf in Hn. rewrite T1 in E1, Hn. rewrite T2 in E2, Hn. cbn [mbind option_bind] in E1, E2.
  eapply (Stores_binds _ K Kinj _ _ _ _ _ S2 S1); [congruence|exact Hn|]. intros x Hx. rewrite !elem_of_app.
  destruct Hx as [?|[?|[?|[[k Hy]|[k Hy]]]]]; [auto|auto|auto| |]; apply leafMap_range in Hy; auto 7.
Qed.

End Join.

(** A node that pinned a checkpoint goes live only when the committee it imported for
    that epoch has exactly the pinned leaves, and an honest member of it signed a root
    the node computed itself, at or above the frontier it rebuilt. *)

(** C23. A node that pinned a checkpoint goes live only when the committee it imported for
    that epoch has exactly the pinned leaves, and an honest member of it signed a root the
    node computed itself, at or above the frontier it rebuilt. *)
Theorem joined_state_is_attested {M} X c `{!Digest (blake3 X)} (K : bytes -> Prop) (d : DAG M) cp pinned insecure minFrontier polls B :
  (forall a b, K a -> K b -> blake3 X a = blake3 X b -> a = b) ->
  verifySyncedState X c (Some cp) insecure d minFrontier polls = Some None ->
  Forall (fun v => verticesOk (jv_store v)) polls ->
  ValidatorRootOf (blake3 X) pinned = Some (tk_validatorRoot cp) -> Forall (fun l => K (vl_Pubkey l)) pinned ->
  (forall set, HoldersForEpoch d (tk_epoch cp) = Some set ->
     bounded (votingCapMille c) set /\ Forall (fun l => K (vl_Pubkey l)) (ValidatorLeaves c (All set)) /\
     NoCollision (blake3 X) (pinInputs X pinned (ValidatorLeaves c (All set))) /\
     3 * weightOf (votingCapMille c) set B < weightTotal (votingCapMille c) set) ->
  exists set v m frontier root info e,
    HoldersForEpoch d (tk_epoch cp) = Some set /\ leafMap (ValidatorLeaves c (All set)) = leafMap pinned /\
    v ∈ polls /\ jv_index v = Some m /\ minFrontier <= frontier /\ RootAt m frontier = Some root /\
    info ∈ All set /\ Pubkey info ∉ B /\ Signed X (Pubkey info) e frontier root.
Proof.
  intros Kinj Hv Hst Hpin Hkp Hset. unfold verifySyncedState, verifyJoin, trustedJudge in Hv.
  destruct (HoldersForEpoch d (tk_epoch cp)) as [set|] eqn:Eh; [|done]. destruct (Hset set eq_refl) as (Hb & Hk & Hn & HB). clear Hset.
  destruct (Len set =? 0); [done|]. destruct (ValidatorRootOf (blake3 X) (ValidatorLeaves c (All set))) as [root|] eqn:Er; [|done].
  cbn [mbind option_bind] in Hv. case_bool_decide as Eroot; [|done]. subst root. cbn [negb mbind option_bind] in Hv. injection Hv as Hv.
  apply await_spec in Hv as (v & b & Hvp & Hq). destruct (jv_index v) as [m|] eqn:Ei; [|done].
  rewrite Forall_forall in Hst. destruct (quorumSince_spec X c _ m _ set b (Hst v Hvp) Hq) as ([Hmin _] & Hroot & P & HP & Hs).
  destruct (quorum_honest_overlap (votingCapMille c) set P P B Hb HP HP HB) as (info & Hinfo & Hp & _ & HnB). destruct (Hs _ Hp) as [e He].
  exists set, v, m, (ab_FrontierRound b), (ab_IndexRoot b), info, e. split_and!; try done. by eapply (pin_binds X K Kinj).
Qed.

(** ** Served bundles *)

Section Served.
Context (c : Config).

(** The committee a client authenticates for an epoch: the leaves of its holders. *)
Definition committeeOf (epoch : Z) (set : ValidatorSet) : Committee := mkCommittee epoch (ValidatorLeaves c (All set)).

Lemma leaves_total set : bounded (votingCapMille c) set ->
  ValidatorLeaves c (All set) = map (fun v => mkValidatorLeaf (Pubkey v) (weight (votingCapMille c) set v) (BLSPubkey v)
    (if Jailed v then ValidatorJailed else ValidatorActive)) (All set).
Proof.
  intros Hb. unfold ValidatorLeaves, weight. cbv zeta.
  assert (foldl (fun t v => safeAdd t (EffectiveStake v)) 0 (All set) = bondedSum set) as ->; [|done].
  apply (totalBonded_exact set); [apply Hb|]. pose proof (bondedSum_u64 _ _ Hb). u64_lia.
Qed.

Lemma committee_weights epoch set P : bounded (votingCapMille c) set ->
  setWeight (committeeOf epoch set) P = weightOf (votingCapMille c) set P /\ setTotal (committeeOf epoch set) = weightTotal (votingCapMille c) set.
Proof.
  intros Hb. unfold setWeight, setTotal, committeeOf. cbn [cm_Leaves]. rewrite leaves_total by done. rewrite !map_map. cbn [vl_Pubkey vl_CappedStake]. split; reflexivity.
Qed.

Lemma committeeOf_ok epoch set : 0 <= epoch < two64 - 1 -> bounded (votingCapMille c) set -> committeeOk (committeeOf epoch set).
Proof.
  intros He Hb. split; [done| |].
  - cbn [committeeOf cm_Leaves]. rewrite leaves_total by done. apply Forall_map, Forall_forall. intros v Hv. cbn [vl_CappedStake].
    pose proof (weight_range _ _ Hb v Hv) as Hw. pose proof (EffectiveStake_u64 v (info_in _ _ Hb v Hv)). u64_lia.
  - destruct (committee_weights epoch set ∅ Hb) as [_ ->]. apply (weightTotal_range _ _ Hb).
Qed.

Lemma committee_members epoch set p : p ∈ membersByPubkey (committeeOf epoch set) <-> exists v, v ∈ All set /\ Pubkey v = p.
Proof.
  unfold membersByPubkey, committeeOf, ValidatorLeaves. cbn [cm_Leaves]. cbv zeta. rewrite elem_of_list_to_set, map_map. cbn [vl_Pubkey].
  rewrite list_elem_of_fmap. split; intros (v & H1 & H2); exists v; [by rewrite H1|by rewrite H2].
Qed.

Context (X : Crypto).

(** The count is complete: a member's record that parses and matches is counted. *)
Lemma counted_complete bundle set record h : record ∈ ia_Headers bundle -> parseAnchorRecord X record = Some h ->
  attestsBundle h bundle set = true -> ah_Producer h ∈ membersByPubkey set ->
  let '(now, next) := countedProducers X bundle set in ah_Producer h ∈ now ∪ next.
Proof.
  intros Hr Hp Ha Hm. unfold countedProducers.
  assert (Hmono : forall rs now next, let '(now', next') := foldl (countRecord X bundle set) (now, next) rs in now ∪ next ⊆ now' ∪ next').
  { induction rs as [|r rs IH]; intros now next; cbn [foldl]; [set_solver|]. destruct (countRecord X bundle set (now, next) r) as [now1 next1] eqn:E.
    specialize (IH now1 next1). destruct (foldl _ _ _) as [now' next']. etrans; [|exact IH]. unfold countRecord in E.
    destruct (parseAnchorRecord X r); [|by injection E as <- <-]. destruct (negb _); [by injection E as <- <-|].
    destruct (negb _); [by injection E as <- <-|]. destruct (_ =? _); injection E as <- <-; cbn [fst snd]; set_solver. }
  generalize (∅ : gset Hash) at 2. generalize (∅ : gset Hash). revert Hr. induction (ia_Headers bundle) as [|r rs IH]; intros Hr now next; [by apply elem_of_nil in Hr|].
  cbn [foldl]. apply elem_of_cons in Hr as [<-|Hr].
  - destruct (countRecord X bundle set (now, next) record) as [now1 next1] eqn:E. specialize (Hmono rs now1 next1).
    destruct (foldl _ _ _) as [now' next']. apply Hmono. unfold countRecord in E. rewrite Hp, Ha in E. cbn [negb] in E.
    rewrite bool_decide_eq_true_2 in E by done. cbn [negb] in E. destruct (_ =? _); injection E as <- <-; cbn [fst snd]; set_solver.
  - destruct (countRecord X bundle set (now, next) r) as [now1 next1]. by apply IH.
Qed.

Lemma weigh_accept bundle set : committeeOk set -> ia_Found bundle = true -> (0 < length (cm_Leaves set))%nat ->
  (let '(now, next) := countedProducers X bundle set in 0 < setTotal set /\ 2 * setTotal set <= 3 * setWeight set (now ∪ next)) ->
  exists e, (e = cm_Epoch set \/ e = cm_Epoch set +w 1) /\ VerifyAnchor X (Some bundle) set = Val (mkVerified (ia_FrontierRound bundle) (ia_IndexRoot bundle) e).
Proof.
  intros Hc Hf Hl Hq. unfold VerifyAnchor. rewrite Hf. cbn [negb]. destruct (Nat.eqb_spec (length (cm_Leaves set)) 0); [lia|].
  destruct (countedProducers X bundle set) as [now next]. destruct (LightClient.cappedStakeOf set next) as [s t]. destruct (LightClient.quorumReached s t); [eauto|].
  apply (quorum_exact set Hc (unionOfProducers now next)) in Hq. unfold unionOfProducers in *.
  destruct (LightClient.cappedStakeOf set (now ∪ next)) as [s' t']. rewrite Hq. eauto.
Qed.

End Served.

(** A stored vertex the light client would count at epoch [e]: signed by its producer,
    and labelled inside the handoff window. *)
Definition countable (X : Crypto) (e : Z) (v : Vertex) : Prop :=
  vertexOk v /\ ed25519Verify X (hashFrom (v_Producer v)) (headerHash X (headerOf v)) (v_Signature v) = true /\
  (v_Epoch v = e \/ v_Epoch v = e +w 1).

(** The bundle a node serves reaches a client over the wire and is accepted by the
    committee of its epoch, at the frontier and root of the node's own index. *)

(** The anchor bundle a node serves, encoded and decoded, is accepted by a client
    holding the committee of its epoch, at the frontier and root of the node's own index.
    *)
Theorem served_bundle_is_accepted {M} X c (d : DAG M) s m b :
  IndexAnchorBundle c d s (Some m) = Some b ->
  (forall h v, get s h = Some v -> v_FrontierRound v = ab_FrontierRound b -> countable X (ab_Epoch b) v) ->
  0 <= ab_Epoch b < two64 - 1 -> counted (ab_Headers b) ->
  (forall set, HoldersForEpoch d (ab_Epoch b) = Some set -> bounded (votingCapMille c) set) ->
  exists set r e, HoldersForEpoch d (ab_Epoch b) = Some set /\ RootAt m (ab_FrontierRound b) = Some (ab_IndexRoot b) /\
    DecodeGetIndexAnchorResp (EncodeGetIndexAnchorResp (bundleResponse (Some b))) = Some r /\
    (e = ab_Epoch b \/ e = ab_Epoch b +w 1) /\
    VerifyAnchor X (Some r) (committeeOf c (ab_Epoch b) set) = Val (mkVerified (ab_FrontierRound b) (ab_IndexRoot b) e).
Proof.
  intros E Hcv He Hcnt Hbd. unfold IndexAnchorBundle in E. cbn [mbind option_bind] in E. cbv zeta in E.
  apply firstBundle_Some in E as (f & _ & E). unfold bundleAtFrontier in E. case_bool_decide as Hne; [done|].
  set (group := default ∅ _) in *. destruct (HoldersForEpoch d (commitEpochForRound c f)) as [set|] eqn:Eh; [|done]. cbn [mbind option_bind] in E.
  destruct (reachesStrictQuorum _ _ _) eqn:Eq; [|done]. cbn [negb] in E. destruct (RootAt m f) as [root|] eqn:Er; [|done].
  cbn [mbind option_bind] in E. injection E as <-. cbn [ab_FrontierRound ab_IndexRoot ab_Epoch ab_Headers] in *.
  specialize (Hbd set Eh). set (e0 := commitEpochForRound c f) in *.
  assert (Hgrp : forall p record, group !! p = Some record -> exists v, countable X e0 v /\ v_FrontierRound v = f /\ hashFrom (v_Producer v) = p /\
    hashFrom (v_IndexRoot v) = root /\ length (v_Signature v) = signatureSize /\ record = headerBytes v ++ v_Signature v).
  { intros p record Hp. apply group_tallied in Hp as (_ & h & v & Hg & Hf & Hpr & Hr & Hs & ->). exists v. rewrite Er in Hr. injection Hr as ->.
    split_and!; try done. by apply (Hcv h). }
  assert (Hrec : forall record, record ∈ map snd (map_to_list group) -> exists p, group !! p = Some record).
  { intros record ((p & record') & -> & Hp)%list_elem_of_fmap. exists p. by apply elem_of_map_to_list in Hp. }
  assert (Hany : exists v, countable X e0 v /\ v_FrontierRound v = f /\ hashFrom (v_IndexRoot v) = root).
  { apply map_choose in Hne as (p & record & Hp). destruct (Hgrp p record Hp) as (v & ? & ? & _ & ? & _). by exists v. }
  destruct Hany as (v0 & [Hv0 _] & Hf0 & Hr0).
  set (resp := bundleResponse _). exists set, resp.
  assert (Hread : DecodeGetIndexAnchorResp (EncodeGetIndexAnchorResp resp) = Some resp).
  { apply (fo_read bundleFmt bundle_format). cbn [f_fits bundleFmt]. subst resp. cbn [bundleResponse ia_FrontierRound ia_IndexRoot ia_Epoch ia_Headers ab_FrontierRound ab_IndexRoot ab_Epoch ab_Headers].
    split_and!; [rewrite <- Hf0; apply Hv0|unfold is32; rewrite <- Hr0; apply length_hashFrom|unfold is_u64; lia|done|].
    apply Forall_forall. intros record Hin. destruct (Hrec record Hin) as [p Hp]. destruct (Hgrp p record Hp) as (v & [Hv _] & _ & _ & _ & Hs & ->).
    rewrite length_app, Hs. destruct (headerBytes_fields v Hv) as (-> & _). done. }
  pose proof (committeeOf_ok c e0 set He Hbd) as Hok. destruct (weigh_accept X resp (committeeOf c e0 set) Hok eq_refl) as (e & Hor & Hacc).
  - cbn [committeeOf cm_Leaves]. unfold ValidatorLeaves. cbv zeta. rewrite length_map. apply Nat.neq_0_lt_0. intros Hz. apply length_zero_iff_nil in Hz.
    unfold reachesStrictQuorum, Stake.cappedStakeOf in Eq. by rewrite Hz in Eq.
  - rewrite reachesStrictQuorum_exact in Eq by done. apply andb_true_iff in Eq as [H0%Z.ltb_lt H1%Z.leb_le].
    destruct (countedProducers X resp (committeeOf c e0 set)) as [now next] eqn:Ec.
    destruct (committee_weights c e0 set (dom group) Hbd) as [Hw ->]. split; [done|]. rewrite <- Hw in H1. etrans; [exact H1|].
    apply Z.mul_le_mono_nonneg_l; [lia|]. apply sumZ_map_le. intros l Hl. pose proof (stake_nonneg _ Hok l Hl).
    case_bool_decide as Hin; case_bool_decide as Hnot; try lia. exfalso. apply Hnot. apply elem_of_dom in Hin as [record Hp].
    destruct (Hgrp _ _ Hp) as (v & (Hv & Hsig & Hep) & Hf & Hpr & Hr & Hs & ->).
    pose proof (counted_complete X resp (committeeOf c e0 set) (headerBytes v ++ v_Signature v)
      (mkAnchorHeader (hashFrom (v_Producer v)) (v_Epoch v) (v_FrontierRound v) (hashFrom (v_IndexRoot v)))) as Hcc.
    rewrite Ec in Hcc. cbn [ah_Producer] in Hcc. rewrite Hpr in Hcc. apply Hcc.
    + apply list_elem_of_fmap. exists (vl_Pubkey l, headerBytes v ++ v_Signature v). split; [done|]. by apply elem_of_map_to_list.
    + rewrite parse_record by done. by rewrite Hsig, Hpr.
    + unfold attestsBundle. subst resp. cbn [ah_FrontierRound ah_IndexRoot ah_Epoch bundleResponse ia_FrontierRound ia_IndexRoot committeeOf cm_Epoch].
      rewrite Hf, Z.eqb_refl, Hr, bool_decide_eq_true_2 by done. cbn [negb orb ab_FrontierRound ab_IndexRoot].
      apply orb_true_iff. rewrite !Z.eqb_eq. exact Hep.
    + apply elem_of_list_to_set, list_elem_of_fmap. by exists l.
  - exists e. split_and!; try done.
Qed.

(** ** Served answers *)

Section Answers.
Context (X : Crypto) `{!Digest (blake3 X)}.
Abbreviation H := (blake3 X).
Context (K : bytes -> Prop) (Kinj : forall a b, K a -> K b -> H a = H b -> a = b).
Context (m : Manager) (st : IndexState) (Hm : managerOk H K m st).
(** No mutation since the last recorded frontier. *)
Context (Hanch : r_Combined (fst (roots H m)) = m_frontierRoot m).
Context (a : VerifiedAnchor) (Hroot : vn_IndexRoot a = r_Combined (fst (roots H m))).

Lemma served_block : let block := provedAnchor (fst (Index.anchor H m)) in
  bind X a block = Val tt /\ (forall c, componentRoot block c = fst (Root H (tree m c))) /\ pa_ValidatorRoot block = fst (Root H (vt_smt (m_validator m))).
Proof using Hm Hanch Hroot.
  destruct (roots_ok H K m st Hm) as (_ & Er & _ & _ & _ & _ & _ & Efr). unfold Index.anchor.
  assert (Hfr : m_frontierRoot (snd (roots H m)) = m_frontierRoot m) by exact Efr. destruct (roots H m) as [rs m'] eqn:E. cbn [fst snd] in *.
  rewrite Hfr. rewrite bool_decide_eq_true_2 by done. cbn [fst]. cbv zeta. unfold bind, provedAnchor.
  cbn [pa_Anchored pa_DomainRoot pa_ParentRoot pa_ChildrenRoot pa_ValidatorRoot a_Anchored a_Roots negb]. rewrite Er in *. cbv zeta in *.
  cbn [r_Domain r_Parent r_Children r_Validator r_Combined] in *. rewrite bool_decide_eq_true_2 by (by rewrite Hroot). split_and!; [done| |done]. by intros [].
Qed.

Definition wireOk (p : MerkleProof) : Prop := DeserializeProof (Serialize p) = Some p.

Lemma served_proof an c key value p : an = fst (Index.anchor H m) -> wireOk p -> Smt.Verify H (componentRoot (provedAnchor an) c) key value p = true ->
  VerifyProof X a (provedAnchor an) c key value (Serialize p) = Val tt.
Proof using Hm Hanch Hroot.
  intros -> Hw Hv. destruct served_block as (Hb & _). unfold VerifyProof. rewrite Hb. cbn [mbind res_bind]. rewrite Hw. cbn [orErr mbind res_bind]. by rewrite Hv.
Qed.

Lemma domain_answer resolved name : K name -> map_Forall (fun _ l => domainLeafOk l) (is_domains st) ->
  VerifyDomain X a (Some (fst (handleDomainResolve H (Some m) resolved name))) name = Val (is_domains st !! name).
Proof using Digest0 Kinj Hm Hanch Hroot.
  intros Hk Hl. pose proof (served_domain H K Kinj m st name Hm Hk) as [Hval Hver]. destruct (anchor_ok H K m st Hm) as [Ha _].
  unfold handleDomainResolve, Index.ResolveDomain in *. destruct (Index.anchor H m) as [an m'] eqn:Ea. cbn [fst snd] in *.
  pose proof (Prove_wire H (m_domain m') name (ts_ok _ _ _ _ (mo_domain _ _ _ _ Ha))) as Hw.
  destruct (Prove H (m_domain m') name) as [p t]. cbn [fst snd da_Anchor da_Value da_Proof] in *. unfold VerifyDomain.
  cbn [orErr mbind res_bind dr_Leaf dr_Anchor dr_Proof].
  assert (En : nilIfEmpty (wireLeaf (Get H (m_domain m) name)) = Get H (m_domain m) name).
  { rewrite Hval. destruct (is_domains st !! name) as [l|] eqn:E; [|done]. cbn [fmap option_fmap option_map wireLeaf default from_option].
    pose proof (domainLeaf_roundtrip l (Hl name l E)) as R. by destruct (encodeDomainLeaf l). }
  rewrite En, (served_proof an DomainComponent) by (done || by rewrite Ea). cbn [mbind res_bind]. rewrite Hval.
  destruct (is_domains st !! name) as [l|] eqn:E; [|done]. cbn [fmap option_fmap option_map]. rewrite domainLeaf_roundtrip by (by apply (Hl name)).
  cbn [orErr mbind res_bind]. rewrite (mo_names _ _ _ _ Hm name l E), bool_decide_eq_true_2 by done. done.
Qed.

Lemma children_answer parent : K parent -> exists resp m', handleListChildren H (Some m) parent = Some (resp, m') /\
  exists l, VerifyChildren X a (Some resp) parent = Val l /\ list_to_set l = childSet (is_edges st) parent.
Proof using Digest0 Kinj Hm Hanch Hroot.
  intros Hk. pose proof (served_children H K Kinj m st parent Hm Hk) as (Hver & Hset & Hreb). destruct (anchor_ok H K m st Hm) as [Ha _].
  unfold handleListChildren, Index.ListChildren in *. cbn [mbind option_bind]. destruct (Index.anchor H m) as [an m'] eqn:Ea. cbn [fst snd] in *.
  pose proof (Prove_wire H (ct_top (ht_Children (m_hierarchy m'))) parent (ts_ok _ _ _ _ (ho_top _ _ _ _ (mo_hier _ _ _ _ Ha)))) as Hw.
  destruct (Prove H (ct_top (ht_Children (m_hierarchy m'))) parent) as [p t]. cbn [fst snd ca_Anchor ca_Found ca_SubtreeRoot ca_Proof ca_Children] in *.
  eexists _, _. split; [reflexivity|]. eexists. split; [|exact Hset]. unfold VerifyChildren.
  cbn [orErr mbind res_bind lr_Found lr_SubtreeRoot lr_Anchor lr_Proof lr_Children]. rewrite (served_proof an ChildrenComponent) by (done || by rewrite Ea).
  cbn [mbind res_bind]. case_bool_decide as Ef; cbn [negb].
  - rewrite Hreb. cbn [orCrash orErr mbind res_bind]. by rewrite bool_decide_eq_true_2.
  - rewrite Hreb. done.
Qed.

Lemma walk_wire hops : forall t mp o, Stores H K t mp -> Forall (fun e => wireOk (ae_Proof e)) (fst (walkEdges H hops t o)).
Proof using Digest0.
  induction hops as [|hops IH]; intros t mp o Ht; [constructor|]. cbn [walkEdges].
  pose proof (Prove_wire H t o (ts_ok _ _ _ _ Ht)) as Hw. destruct (Stores_Prove H K t mp o Ht) as [Hs _]. destruct (Prove H t o) as [p t']. cbn [fst snd] in *.
  destruct (_ ≫= _) as [leaf|]; [|by repeat constructor]. destruct (_ =? _); [by repeat constructor|].
  specialize (IH t' mp (pl_Parent leaf) Hs). destruct (walkEdges H hops t' (pl_Parent leaf)) as [es t'']. cbn [fst] in *. by constructor.
Qed.

Lemma ancestry_accepts an hops : forall es o chain, an = fst (Index.anchor H m) -> K o -> Forall (fun e => wireOk (ae_Proof e)) es ->
  ancestry H (pa_ParentRoot (provedAnchor an)) (is_edges st) hops o es -> Upward (is_edges st) o chain -> (length chain < hops)%nat ->
  ancestryLoop X a (provedAnchor an) (ancestorEdges es) o = Val chain.
Proof using Hm Hanch Hroot.
  induction hops as [|hops IH]; intros es o chain Han Hk Hw Hes Hup Hlen; [lia|]. destruct es as [|e es]; [done|].
  cbn [ancestry] in Hes. destruct Hes as (<- & Hver & Hval & Hrest). apply Forall_cons in Hw as [Hwe Hw]. cbn [ancestorEdges map ancestryLoop].
  assert (Hedge : verifyEdge X a (provedAnchor an) (mkWireEdge (ae_ChildID e) (wireLeaf (ae_Value e)) (Serialize (ae_Proof e))) (ae_ChildID e) =
    Val ((fun kp => mkParentLeaf (ae_ChildID e) (fst kp) (snd kp)) <$> is_edges st !! ae_ChildID e)).
  { unfold verifyEdge. cbn [wg_ChildID wg_Leaf wg_Proof]. rewrite bool_decide_eq_true_2 by done. cbn [guard_ mbind res_bind]. cbv zeta.
    assert (En : nilIfEmpty (wireLeaf (ae_Value e)) = ae_Value e).
    { rewrite Hval. destruct (is_edges st !! ae_ChildID e) as [[k q]|] eqn:E; [|done]. cbn [fmap option_fmap option_map wireLeaf default from_option].
      unfold encodeParentLeaf. cbn [pl_ChildID pl_ParentKind pl_Parent]. by destruct (ae_ChildID e). }
    rewrite En, (served_proof an ParentComponent) by done. cbn [mbind res_bind]. rewrite Hval.
    destruct (is_edges st !! ae_ChildID e) as [[k q]|] eqn:E; [|done]. cbn [fmap option_fmap option_map fst snd].
    destruct (ho_edges _ _ _ _ (mo_hier _ _ _ _ Hm) _ _ E) as [[_ L1] [_ L2]]. rewrite parentLeaf_roundtrip by done.
    cbn [orErr mbind res_bind pl_ChildID]. by rewrite bool_decide_eq_true_2. }
  rewrite Hedge. cbn [mbind res_bind]. inversion Hup as [o' E|o' q E|o' k q rest E Hne Hup']; subst; rewrite E in *; cbn [fmap option_fmap option_map fst snd].
  - done.
  - cbn [pl_ParentKind]. by rewrite Z.eqb_refl.
  - cbn [pl_ParentKind pl_Parent length] in *. destruct (Z.eqb_spec k KeyRootKind); [done|].
    destruct (ho_edges _ _ _ _ (mo_hier _ _ _ _ Hm) _ _ E) as [_ [Hkq _]]. change (map _ es) with (ancestorEdges es).
    rewrite (IH es q rest eq_refl Hkq Hw Hrest Hup' ltac:(lia)). done.
Qed.

Lemma ancestors_answer object chain : K object -> Upward (is_edges st) object chain -> (length chain < ancestorWalkLimit)%nat ->
  exists resp m', handleGetAncestors H (Some m) object = Some (resp, m') /\ VerifyAncestry X a (Some resp) object = Val chain.
Proof using Digest0 Kinj Hm Hanch Hroot.
  intros Hk Hup Hlen. pose proof (served_ancestors H K Kinj m st object Hm Hk) as Hanc. destruct (anchor_ok H K m st Hm) as [Ha _].
  unfold handleGetAncestors, Index.Ancestors in *. cbn [mbind option_bind]. destruct (Index.anchor H m) as [an m'] eqn:Ea. cbn [fst snd] in *.
  pose proof (walk_wire ancestorWalkLimit (ht_Parent (m_hierarchy m')) _ object (ho_parent _ _ _ _ (mo_hier _ _ _ _ Ha))) as Hw.
  destruct (walkEdges H ancestorWalkLimit (ht_Parent (m_hierarchy m')) object) as [es t]. cbn [fst snd aa_Anchor aa_Edges] in *.
  eexists _, _. split; [reflexivity|]. unfold VerifyAncestry. cbn [orErr mbind res_bind ga_Edges ga_Anchor].
  assert (Hl : length (ancestorEdges es) ≠ 0%nat) by (unfold ancestorEdges; rewrite length_map; by destruct es).
  destruct (Nat.eqb_spec (length (ancestorEdges es)) 0); [done|]. cbn [negb guard_ mbind res_bind].
  apply (ancestry_accepts an ancestorWalkLimit); try done. by rewrite Ea.
Qed.

Lemma committee_answer epoch : Forall (fun v => K (vl_Pubkey v) /\ leafOk v) (is_validators st) ->
  exists resp m', handleGetValidatorTree H (Some m) epoch epoch = Some (resp, m') /\
    VerifyValidatorSet X a (Some resp) = Val (mkCommittee epoch (is_validators st)).
Proof using Digest0 Kinj Hm Hanch Hroot.
  intros Hv. pose proof (served_validators H K Kinj m st Hm Hv) as [Hdec Hr]. destruct served_block as (Hb & _).
  unfold handleGetValidatorTree, ValidatorSetAnswer in *. cbn [mbind option_bind]. destruct (Index.anchor H m) as [an m'] eqn:Ea. cbn [fst snd va_Anchor va_Values] in *.
  rewrite Z.eqb_refl. eexists _, _. split; [reflexivity|]. unfold VerifyValidatorSet. cbn [orErr mbind res_bind gt_Found gt_Anchor gt_Leaves gt_Epoch guard_].
  rewrite Hb. cbn [mbind res_bind].
  assert (Hd : decodeValidatorLeaves (Values (m_validator m')) = Val (is_validators st)).
  { revert Hdec. generalize (is_validators st). induction (Values (m_validator m')) as [|x l IH]; intros vs E; [by injection E as <-|].
    cbn [mapM decodeValidatorLeaves] in *. destruct (DecodeValidatorLeaf x) as [leaf|]; [|done]. cbn [mbind option_bind mret option_ret orErr res_bind] in *.
    destruct (mapM DecodeValidatorLeaf l) as [rest|]; [|done]. cbn [mbind option_bind] in E. injection E as <-. by rewrite (IH rest eq_refl). }
  rewrite Hd. cbn [mbind res_bind]. rewrite Hr. cbn [orCrash mbind res_bind]. by rewrite bool_decide_eq_true_2.
Qed.

End Answers.

(** Every answer a node gives about an anchored index is accepted under an anchor at its
    root, and says what the index stores; an ancestry is complete when it has fewer
    hops than the walk's limit. *)

(** C20. Every answer a node gives about its anchored index (a domain, the children of an
    object, its ancestors, the committee) is accepted by a client that trusts an anchor at
    its root and says what the index stores; an ancestry is complete below the walk's
    limit. *)
Theorem served_answers_are_accepted X `{!Digest (blake3 X)} (K : bytes -> Prop) ops m a epoch :
  (forall x y, K x -> K y -> blake3 X x = blake3 X y -> x = y) ->
  Forall (opOk K) ops -> runManager (blake3 X) NewManager ops = Some m ->
  r_Combined (fst (roots (blake3 X) m)) = m_frontierRoot m -> vn_IndexRoot a = m_frontierRoot m ->
  let st := foldl indexStep emptyIndex ops in
  (forall resolved name, K name -> map_Forall (fun _ l => domainLeafOk l) (is_domains st) ->
     VerifyDomain X a (Some (fst (handleDomainResolve (blake3 X) (Some m) resolved name))) name = Val (is_domains st !! name)) /\
  (forall parent, K parent -> exists resp m', handleListChildren (blake3 X) (Some m) parent = Some (resp, m') /\
     exists l, VerifyChildren X a (Some resp) parent = Val l /\ list_to_set l = childSet (is_edges st) parent) /\
  (forall object chain, K object -> Upward (is_edges st) object chain -> (length chain < ancestorWalkLimit)%nat ->
     exists resp m', handleGetAncestors (blake3 X) (Some m) object = Some (resp, m') /\ VerifyAncestry X a (Some resp) object = Val chain) /\
  (Forall (fun v => K (vl_Pubkey v) /\ leafOk v) (is_validators st) ->
     exists resp m', handleGetValidatorTree (blake3 X) (Some m) epoch epoch = Some (resp, m') /\
       VerifyValidatorSet X a (Some resp) = Val (mkCommittee epoch (is_validators st))).
Proof.
  intros Kinj Hops Hrun Hanch Hroot. cbv zeta. destruct (runManager_ok (blake3 X) K Kinj ops NewManager emptyIndex) as (m' & E & Hm); [apply NewManager_ok|done|].
  rewrite Hrun in E. injection E as <-. assert (Hroot' : vn_IndexRoot a = r_Combined (fst (roots (blake3 X) m))) by congruence.
  split_and!; intros; [by eapply domain_answer|by eapply children_answer|by eapply ancestors_answer|by eapply committee_answer].
Qed.
