(* ===== verification/Joins.v ===== *)
(** * Samples of serving, reading and joining

    A four-member committee, an index with a lease at frontier 4, and three signed
    vertices that anchor it: the client accepts the bundle and the answers, and a
    joiner goes live on them. *)

From S2P Require Import Prelude Types Fees Validators Stake Storage Tracker Domains Staged Coins Ledger Ops Dag Vertices Smt Merkle Index IndexFacts Retention Feed Header Wire LightClient Trust Proved Bundle Serving.

(** ** The committee and the chain *)

Definition holders : ValidatorSet :=
  foldl (fun vs n => SetSelfStake vs (key n) 25) (NewValidatorSet (map key [1; 2; 3; 4])) [1; 2; 3; 4].

Definition joinDag : DAG (gmap bytes bytes) :=
  mkDAG emptyLedger (mkRegime ∅ ∅ false 0 (-1) false false false)
    (mkEpochs 0 (Some holders) None None None None None (Some (mkSnapshot 0 (Some holders) None None)) ∅ []) (mkRewards ∅ ∅ 0).

(** Member [n]'s vertex at round 6, anchoring the lease index at frontier 4. *)
Definition anchorVertex (n : Z) : Vertex := mkVertex (key (100 + n)) 6 (key n) [] [] 0 None 0 4 exampleRoot (key 0) (replicate 64 0).

Definition anchorStore : store := foldl (fun s n => fst (add s (anchorVertex n) (key (100 + n)) 6 (key n))) emptyStore [1; 2; 3].

Definition joinCrypto : Crypto := ledgerCrypto toyHash (map (fun n => (key n, headerBytes (anchorVertex n))) [1; 2; 3]).

#[export] Instance joinCrypto_digest : Digest (blake3 joinCrypto) := toyHash_digest.

Definition servedBundle : AnchorBundle :=
  default (mkBundle 0 [] 0 []) (IndexAnchorBundle regimeConfig joinDag anchorStore (Some exampleManager)).

Lemma servedBundle_built : IndexAnchorBundle regimeConfig joinDag anchorStore (Some exampleManager) = Some servedBundle.
Proof. vm_compute. reflexivity. Qed.

Lemma anchorStore_vertices h v : get anchorStore h = Some v -> exists n, n ∈ [1; 2; 3] /\ v = anchorVertex n.
Proof.
  assert (E : st_vertices anchorStore = <[key 103 := anchorVertex 3]> (<[key 102 := anchorVertex 2]> (<[key 101 := anchorVertex 1]> ∅)))
    by (vm_compute; reflexivity).
  unfold get. rewrite E, !lookup_insert_Some, lookup_empty.
  intros [[_ <-]|[_ [[_ <-]|[_ [[_ <-]|[_ ?]]]]]]; [exists 3|exists 2|exists 1|done]; (split; [apply list_elem_of_In; cbn [In]; tauto|reflexivity]).
Qed.

Lemma anchorVertex_countable n : n ∈ [1; 2; 3] -> countable joinCrypto 0 (anchorVertex n).
Proof.
  intros Hn. split; [split_and!; cbn [v_Round v_Epoch v_FrontierRound anchorVertex]; unfold is_u64; lia|]. split; [|by left].
  apply list_elem_of_In in Hn as [<-|[<-|[<-|[]]]]; vm_compute; reflexivity.
Qed.

Lemma holders_bounded : bounded (votingCapMille regimeConfig) holders.
Proof.
  split; [|by vm_compute|by vm_compute|by vm_compute]. repeat (apply Forall_cons_2; [split; by vm_compute|]). apply Forall_nil_2.
Qed.

Lemma joinDag_holders set : HoldersForEpoch joinDag 0 = Some set -> set = holders.
Proof. intros E. by injection E as <-. Qed.

Theorem served_bundle_is_accepted_witness :
  exists r e, DecodeGetIndexAnchorResp (EncodeGetIndexAnchorResp (bundleResponse (Some servedBundle))) = Some r /\
    VerifyAnchor joinCrypto (Some r) (committeeOf regimeConfig 0 holders) = Val (mkVerified 4 exampleRoot e).
Proof.
  destruct (served_bundle_is_accepted joinCrypto regimeConfig joinDag anchorStore exampleManager servedBundle) as (set & r & e & Hs & _ & Hr & _ & Hv).
  - exact servedBundle_built.
  - intros h v Hg _. destruct (anchorStore_vertices h v Hg) as (n & Hn & ->). exact (anchorVertex_countable n Hn).
  - vm_compute. split; [discriminate|reflexivity].
  - vm_compute. reflexivity.
  - intros set Hs. rewrite (joinDag_holders set Hs). exact holders_bounded.
  - exists r, e. split; [exact Hr|]. rewrite (joinDag_holders set Hs) in Hv. exact Hv.
Defined.

(** ** Joining *)

Definition joinKey (b : bytes) : Prop := b ∈ map key [1; 2; 3; 4].

Lemma joinKey_inj a b : joinKey a -> joinKey b -> toyHash a = toyHash b -> a = b.
Proof. apply no_clash. apply noCollisionB_sound. vm_compute. reflexivity. Qed.

Definition holderLeaves : list ValidatorLeaf := ValidatorLeaves regimeConfig (All holders).

Definition joinPin : trustCheckpoint := mkTrust 0 (default [] (ValidatorRootOf toyHash holderLeaves)).

Definition joinView : JoinView := mkView joinDag anchorStore (Some exampleManager).

Lemma anchorStore_ok : verticesOk anchorStore.
Proof. intros h v Hg. destruct (anchorStore_vertices h v Hg) as (n & Hn & ->). apply anchorVertex_countable. exact Hn. Qed.

Lemma holderLeaves_keys : Forall (fun l => joinKey (vl_Pubkey l)) holderLeaves.
Proof. apply (bool_decide_unpack _). vm_compute. exact I. Qed.

Theorem joined_state_is_attested_witness :
  exists info e frontier root, info ∈ All holders /\ Pubkey info ∉ ({[ key 4 ]} : gset Hash) /\ 4 <= frontier /\
    RootAt exampleManager frontier = Some root /\ Signed joinCrypto (Pubkey info) e frontier root.
Proof.
  destruct (joined_state_is_attested joinCrypto regimeConfig joinKey joinDag joinPin holderLeaves false 4 [joinView] {[ key 4 ]})
    as (set & v & m & frontier & root & info & e & Hs & _ & Hv & Hm & Hf & Hr & Hinfo & HB & Hsig).
  - exact joinKey_inj.
  - vm_compute. reflexivity.
  - apply Forall_cons_2; [exact anchorStore_ok|apply Forall_nil_2].
  - vm_compute. reflexivity.
  - exact holderLeaves_keys.
  - intros set Hs. rewrite (joinDag_holders set Hs). split_and!; [exact holders_bounded|exact holderLeaves_keys|apply noCollisionB_sound; vm_compute; reflexivity|vm_compute; reflexivity].
  - rewrite (joinDag_holders set Hs) in Hinfo. apply list_elem_of_singleton in Hv. rewrite Hv in Hm. injection Hm as <-.
    exists info, e, frontier, root. exact (conj Hinfo (conj HB (conj Hf (conj Hr Hsig)))).
Defined.

(** ** Reading *)

Definition leaseKeys : list bytes := [id32 1; id32 9; str "a.pod"].
Definition leaseKey (b : bytes) : Prop := b ∈ leaseKeys.

Lemma leaseKey_inj a b : leaseKey a -> leaseKey b -> toyHash a = toyHash b -> a = b.
Proof. apply no_clash. apply noCollisionB_sound. vm_compute. reflexivity. Qed.

Definition readFeed : list IndexOp := IxEdge (id32 1) KeyRootKind (id32 9) :: leaseFeed.
Definition readManager : Manager := default NewManager (runManager toyHash NewManager readFeed).

Lemma readManager_built : runManager toyHash NewManager readFeed = Some readManager.
Proof. vm_compute. reflexivity. Qed.

Lemma leaseKey_in b : b ∈ leaseKeys -> leaseKey b.
Proof. done. Qed.

Lemma readFeed_ok : Forall (opOk leaseKey) readFeed.
Proof.
  unfold readFeed, leaseFeed. apply Forall_cons_2; [|apply Forall_cons_2; [|apply Forall_cons_2; [|apply Forall_cons_2; [|apply Forall_nil_2]]]]; cbn [opOk].
  - split; (split; [apply leaseKey_in, list_elem_of_In; cbn [In leaseKeys]; tauto|reflexivity]).
  - apply leaseKey_in, list_elem_of_In. cbn [In leaseKeys]. tauto.
  - apply Forall_cons_2; [|apply Forall_nil_2]. apply leaseKey_in, list_elem_of_In. cbn [In leaseKeys vl_Pubkey exampleValidator]. tauto.
  - exact I.
Qed.

Definition readAnchor : VerifiedAnchor := mkVerified 4 (m_frontierRoot readManager) 0.

Definition lease : DomainLeaf := mkDomainLeaf (str "a.pod") (id32 1) (id32 9) 5.

Lemma lease_ok : map_Forall (fun _ l => domainLeafOk l) (is_domains (foldl indexStep emptyIndex readFeed)).
Proof.
  change (is_domains (foldl indexStep emptyIndex readFeed)) with ({[ str "a.pod" := lease ]} : gmap bytes DomainLeaf).
  apply map_Forall_singleton. split_and!; by vm_compute.
Qed.

Theorem served_answers_are_accepted_witness :
  VerifyDomain joinCrypto readAnchor (Some (fst (handleDomainResolve toyHash (Some readManager) None (str "a.pod")))) (str "a.pod") = Val (Some lease) /\
  exists resp m', handleGetValidatorTree toyHash (Some readManager) 0 0 = Some (resp, m') /\
    VerifyValidatorSet joinCrypto readAnchor (Some resp) = Val (mkCommittee 0 [exampleValidator]).
Proof.
  destruct (served_answers_are_accepted joinCrypto leaseKey readFeed readManager readAnchor 0) as (Hd & _ & _ & Hv).
  - exact leaseKey_inj.
  - exact readFeed_ok.
  - exact readManager_built.
  - vm_compute. reflexivity.
  - reflexivity.
  - split.
    + apply (Hd None (str "a.pod")); [apply leaseKey_in, list_elem_of_In; cbn [In leaseKeys]; tauto|exact lease_ok].
    + apply Hv. apply Forall_cons_2; [|apply Forall_nil_2]. split; [apply leaseKey_in, list_elem_of_In; cbn [In leaseKeys vl_Pubkey exampleValidator]; tauto|].
      split_and!; by vm_compute.
Defined.

Definition leaseAnswer : DomainResolveResponse := fst (handleDomainResolve toyHash (Some readManager) None (str "a.pod")).
Definition treeAnswer : GetValidatorTreeResponse := mkTreeResp (dr_Anchor leaseAnswer) true 0 [encodeValidatorLeaf exampleValidator].

Lemma leaseAnswer_anchor : anchorOk (dr_Anchor leaseAnswer).
Proof. split; by vm_compute. Qed.

Theorem accepted_answers_are_stored_witness :
  VerifyDomain joinCrypto readAnchor (Some leaseAnswer) (str "a.pod") = Val (Some lease) /\
  Some lease = is_domains (foldl indexStep emptyIndex readFeed) !! str "a.pod".
Proof.
  assert (Hv : VerifyDomain joinCrypto readAnchor (Some leaseAnswer) (str "a.pod") = Val (Some lease)) by (vm_compute; reflexivity).
  split; [exact Hv|].
  destruct (accepted_answers_are_stored joinCrypto leaseKey leaseKey_inj readFeed readManager readAnchor) as (Hd & _).
  - exact readFeed_ok.
  - exact readManager_built.
  - vm_compute. reflexivity.
  - apply (Hd leaseAnswer (str "a.pod") (Some lease)).
    + exact Hv.
    + exact leaseAnswer_anchor.
    + apply leaseKey_in, list_elem_of_In. cbn [In leaseKeys]. tauto.
    + exact lease_ok.
    + apply noCollisionB_sound. vm_compute. reflexivity.
Defined.

Theorem accepted_committee_is_the_committee_witness :
  leafMap [exampleValidator] = leafMap (is_validators (foldl indexStep emptyIndex readFeed)).
Proof.
  refine (proj1 (accepted_committee_is_the_committee joinCrypto leaseKey leaseKey_inj readFeed readManager readAnchor treeAnswer
    (mkCommittee 0 [exampleValidator]) _ _ _ _ _ _ _)).
  - exact readFeed_ok.
  - exact readManager_built.
  - vm_compute. reflexivity.
  - vm_compute. reflexivity.
  - exact leaseAnswer_anchor.
  - apply Forall_cons_2; [|apply Forall_nil_2]. apply leaseKey_in, list_elem_of_In. cbn [In leaseKeys vl_Pubkey exampleValidator]. tauto.
  - apply noCollisionB_sound. vm_compute. reflexivity.
Defined.
