(* ===== verification/Snapshot.v ===== *)
(** * State snapshots (internal/sync/snapshot.go)

    What a node serves to a joining one: the objects and signatures of its
    store, the validators, the object versions, the leases, recent vertices and
    the consensus regime, under a checksum.  The FlatBuffers table is the record
    [Snapshot]; a vertex is its decoded table.  [sort.Slice] is a merge sort:
    the two differ only in the order of entries with equal keys. *)

From S2P Require Import Prelude Types Fees Validators Storage Tracker Domains Vertices Persist.

(** ** Data *)

Record objectEntry := mkObjectEntry { oe_id : bytes; oe_data : bytes }.

Record sigEntry := mkSigEntry { se_id : bytes; se_version : Z; se_sig : bytes }.

(** The table, its vectors as they are on the wire. *)
Record Snapshot := mkSnap {
  sn_Version : Z;
  sn_LastCommittedRound : Z;
  sn_Objects : list objectEntry;
  sn_Validators : bytes;
  sn_Checksum : bytes;
  sn_Vertices : list VertexEntry;
  sn_ObjectVersions : list ObjectTrackerEntry;
  sn_Domains : list DomainEntry;
  sn_Signatures : list sigEntry;
  sn_TotalSupply : Z;
  sn_CoinsTotal : Z;
  sn_IssuanceRateMicro : Z;
  sn_EpochState : bytes;
}.

Definition snapshotVersion : Z := 16.
Definition objectKeySize : nat := 32.
Definition blsSignatureSize : nat := 96.

Definition prefixObjectSig : bytes := str "objsig:".
Definition prefixVertex : bytes := str "v:".
Definition prefixRound : bytes := str "r:".
Definition prefixMeta : bytes := str "m:".
Definition prefixTracker : bytes := str "t:".
Definition prefixDomain : bytes := str "d:".

Definition hasPrefix (key prefix : bytes) : bool := bool_decide (take (length prefix) key = prefix).

Definition isConsensusKey (key : bytes) : bool :=
  hasPrefix key prefixVertex || hasPrefix key prefixRound || hasPrefix key prefixMeta || hasPrefix key prefixTracker || hasPrefix key prefixDomain.

(** ** Sorting by a key *)

Definition byKey {A} (key : A -> bytes) : relation A := fun a b => bytes_le (key a) (key b).

#[export] Instance byKey_dec {A} (key : A -> bytes) : RelDecision (byKey key).
Proof. intros a b. unfold byKey. apply _. Defined.

#[export] Instance byKey_trans {A} (key : A -> bytes) : Transitive (byKey key).
Proof. intros a b c. unfold byKey. apply transitivity. Qed.

#[export] Instance byKey_total {A} (key : A -> bytes) : Total (byKey key).
Proof. intros a b. unfold byKey. apply total. apply _. Qed.

Definition sortBy {A} (key : A -> bytes) (l : list A) : list A := merge_sort (byKey key) l.

Definition sortObjects : list objectEntry -> list objectEntry := sortBy oe_id.
Definition sortSignatures : list sigEntry -> list sigEntry := sortBy se_id.
Definition sortValidatorInfos : list ValidatorInfo -> list ValidatorInfo := sortBy Pubkey.
Definition sortTrackerEntries : list ObjectTrackerEntry -> list ObjectTrackerEntry := sortBy te_ID.
Definition sortDomainEntries : list DomainEntry -> list DomainEntry := sortBy de_Name.

(** ** Validators *)

Definition validatorStakeBytes : nat := 17.
Definition validatorRewardCoinBytes : nat := 32.

Definition encodeValidator (v : ValidatorInfo) : bytes :=
  Pubkey v ++ le_enc 2 (Z.of_nat (length (QUICAddr v)) mod 65536) ++ QUICAddr v ++ BLSPubkey v ++
  (be_enc 8 (SelfStake v) ++ be_enc 8 (DelegatedTotal v) ++ [boolByte (Jailed v)]) ++ RewardCoin v.

Definition encodeValidators (validators : list ValidatorInfo) : bytes := concat (map encodeValidator validators).

(** One turn of the loop of [decodeValidators]; [None] leaves it. *)
Definition decodeValidator (data : bytes) : option (ValidatorInfo * bytes) :=
  if Nat.ltb (length data) 32 then None
  else
    let pubkey := take 32 data in
    let data := drop 32 data in
    if Nat.ltb (length data) 2 then None
    else
      let quicLen := Z.to_nat (le_dec (take 2 data)) in
      let data := drop 2 data in
      if Nat.ltb (length data) quicLen then None
      else
        let addr := take quicLen data in
        let data := drop quicLen data in
        if Nat.ltb (length data) 48 then None
        else
          let bls := take 48 data in
          let data := drop 48 data in
          if Nat.ltb (length data) validatorStakeBytes then None
          else
            let self := be_dec (take 8 data) in
            let delegated := be_dec (slice 8 8 data) in
            let jailed := negb (default 0 (data !! 16%nat) =? 0) in
            let data := drop validatorStakeBytes data in
            if Nat.ltb (length data) validatorRewardCoinBytes then None
            else Some (mkInfo pubkey addr bls self delegated jailed (take 32 data), drop 32 data).

(** Every turn consumes at least 131 bytes, so the length of the data bounds the
    turns ([decodeLoop_fuel]). *)
Fixpoint decodeLoop (fuel : nat) (data : bytes) : list ValidatorInfo :=
  match fuel with
  | O => []
  | S fuel => match decodeValidator data with None => [] | Some (v, rest) => v :: decodeLoop fuel rest end
  end.

Definition decodeValidators (data : bytes) : list ValidatorInfo := decodeLoop (length data) data.

(** ** Collecting *)

Section Collect.
Context {M : Type} `{Pebble M}.
Implicit Type src : M.

(** [Iterate] of the store: every pair in key order. *)
Definition Iterate src : list (bytes * bytes) := db_iter src [] None.

Definition collectObjects src : list objectEntry :=
  omap (fun kv => if isConsensusKey (fst kv) then None
                  else if negb (Nat.eqb (length (fst kv)) objectKeySize) then None
                  else Some (mkObjectEntry (fst kv) (snd kv))) (Iterate src).

Definition collectSignatures src : list sigEntry :=
  omap (fun kv => if negb (Nat.eqb (length (fst kv)) (length prefixObjectSig + 32)) || negb (Nat.eqb (length (snd kv)) (8 + blsSignatureSize)) then None
                  else Some (mkSigEntry (drop (length prefixObjectSig) (fst kv)) (be_dec (take 8 (snd kv))) (drop 8 (snd kv))))
       (IteratePrefix src prefixObjectSig).

End Collect.

(** ** The checksum *)

(** [binary.BigEndian.PutUint32] of a length. *)
Definition len32 {A} (l : list A) : bytes := be_enc 4 (u32 (Z.of_nat (length l))).

Definition objectBytes (o : objectEntry) : bytes := oe_id o ++ len32 (oe_data o) ++ oe_data o.

Definition trackerBytes (e : ObjectTrackerEntry) : bytes :=
  te_ID e ++ be_enc 8 (te_Version e) ++ be_enc 2 (te_Replication e) ++ be_enc 8 (te_Fees e) ++ [te_ParentKind e] ++ te_Parent e ++ be_enc 4 (te_ChildCount e).

Definition domainBytes (e : DomainEntry) : bytes :=
  len32 (de_Name e) ++ de_Name e ++ objectID (de_Leaf e) ++ owner (de_Leaf e) ++ be_enc 8 (expiry (de_Leaf e)).

Definition sigBytes (s : sigEntry) : bytes := se_id s ++ be_enc 8 (se_version s) ++ se_sig s.

(** What [computeChecksumWithInfo] writes to the hasher; it sorts the object
    versions and the signatures in place. *)
Definition checksumInput (version round : Z) (objects : list objectEntry) (validators : list ValidatorInfo)
    (trackerEntries : list ObjectTrackerEntry) (domainEntries : list DomainEntry) (signatures : list sigEntry)
    (totalSupply coinsTotal issuanceRateMicro : Z) (epochState : bytes) : bytes :=
  be_enc 4 version ++ be_enc 8 round ++
  (len32 (encodeValidators validators) ++ encodeValidators validators) ++
  concat (map objectBytes objects) ++
  (len32 trackerEntries ++ concat (map trackerBytes (sortTrackerEntries trackerEntries))) ++
  (len32 domainEntries ++ concat (map domainBytes domainEntries)) ++
  (len32 signatures ++ concat (map sigBytes (sortSignatures signatures))) ++
  be_enc 8 totalSupply ++ be_enc 8 coinsTotal ++ be_enc 8 issuanceRateMicro ++
  len32 epochState ++ epochState.

Section Build.
Context (X : Crypto).

Definition computeChecksumWithInfo (version round : Z) (objects : list objectEntry) (validators : list ValidatorInfo)
    (trackerEntries : list ObjectTrackerEntry) (domainEntries : list DomainEntry) (signatures : list sigEntry)
    (totalSupply coinsTotal issuanceRateMicro : Z) (epochState : bytes) : Hash :=
  blake3 X (checksumInput version round objects validators trackerEntries domainEntries signatures totalSupply coinsTotal issuanceRateMicro epochState).

(** The checksum is computed before the leases are sorted. *)
Definition buildSnapshot (lastCommittedRound : Z) (objects : list objectEntry) (validators : list ValidatorInfo) (vertices : list VertexEntry)
    (trackerEntries : list ObjectTrackerEntry) (domainEntries : list DomainEntry) (signatures : list sigEntry)
    (totalSupply coinsTotal issuanceRateMicro : Z) (epochState : bytes) : Snapshot :=
  let objects := sortObjects objects in
  let validators := sortValidatorInfos validators in
  let signatures := sortSignatures signatures in
  let checksum := computeChecksumWithInfo snapshotVersion lastCommittedRound objects validators trackerEntries domainEntries signatures
                    totalSupply coinsTotal issuanceRateMicro epochState in
  let trackerEntries := sortTrackerEntries trackerEntries in
  let domainEntries := sortDomainEntries domainEntries in
  mkSnap snapshotVersion lastCommittedRound objects (encodeValidators validators) checksum vertices trackerEntries domainEntries signatures
    totalSupply coinsTotal issuanceRateMicro epochState.

Definition CreateSnapshot {M} `{Pebble M} (src : M) (lastCommittedRound : Z) (validators : list ValidatorInfo) (vertices : list VertexEntry)
    (trackerEntries : list ObjectTrackerEntry) (domainEntries : list DomainEntry) (totalSupply coinsTotal issuanceRateMicro : Z) (epochState : bytes) : Snapshot :=
  buildSnapshot lastCommittedRound (collectObjects src) validators vertices trackerEntries domainEntries (collectSignatures src)
    totalSupply coinsTotal issuanceRateMicro epochState.

(** ** Reading a snapshot *)

(** [decodeHash32]: zero unless exactly 32 bytes. *)
Definition decodeHash32 (b : bytes) : Hash := if Nat.eqb (length b) 32 then b else zeroHash.

Definition ExtractValidators (s : Snapshot) : list ValidatorInfo :=
  if Nat.eqb (length (sn_Validators s)) 0 then [] else decodeValidators (sn_Validators s).

Definition ExtractRegimeState (s : Snapshot) : option bytes :=
  if Nat.eqb (length (sn_EpochState s)) 0 then None else Some (sn_EpochState s).

Definition ExtractVertices (s : Snapshot) : list VertexEntry := sn_Vertices s.

Definition ExtractTrackerEntries (s : Snapshot) : list ObjectTrackerEntry :=
  map (fun v => mkTrackerEntry (decodeHash32 (te_ID v)) (te_Version v) (te_Replication v) (te_Fees v) (te_ParentKind v) (decodeHash32 (te_Parent v)) (te_ChildCount v))
    (sn_ObjectVersions s).

Definition ExtractDomains (s : Snapshot) : list DomainEntry :=
  map (fun d => mkDomainEntry (de_Name d) (mkLeaf (decodeHash32 (objectID (de_Leaf d))) (decodeHash32 (owner (de_Leaf d))) (expiry (de_Leaf d))))
    (sn_Domains s).

Definition extractSignatures (s : Snapshot) : list sigEntry :=
  filter (fun e => Nat.eqb (length (se_id e)) 32 && Nat.eqb (length (se_sig e)) blsSignatureSize = true) (sn_Signatures s).

Definition verifyChecksum (s : Snapshot) : bool :=
  if negb (Nat.eqb (length (sn_Checksum s)) 32) then false
  else
    let computed := computeChecksumWithInfo (sn_Version s) (sn_LastCommittedRound s) (sortObjects (sn_Objects s)) (sortValidatorInfos (ExtractValidators s))
                      (ExtractTrackerEntries s) (sortDomainEntries (ExtractDomains s)) (extractSignatures s)
                      (sn_TotalSupply s) (sn_CoinsTotal s) (sn_IssuanceRateMicro s) (sn_EpochState s) in
    bool_decide (computed = sn_Checksum s).

Definition checkObjectKey (key : bytes) : bool :=
  if negb (Nat.eqb (length key) objectKeySize) then false else negb (isConsensusKey key).

Definition sigStorageKey (id : Hash) : bytes := prefixObjectSig ++ id.
Definition encodeSigValue (version : Z) (sig : bytes) : bytes := be_enc 8 version ++ sig.

Inductive snapshotError := errSnapshotVersion | errChecksum | errObjectKey.

Definition ApplySnapshot {M} `{Pebble M} (db : M) (s : Snapshot) : snapshotError + M :=
  if negb (sn_Version s =? snapshotVersion) then inl errSnapshotVersion
  else if negb (verifyChecksum s) then inl errChecksum
  else if negb (forallb (fun o => checkObjectKey (oe_id o)) (sn_Objects s)) then inl errObjectKey
  else
    let pairs := map (fun o => (oe_id o, oe_data o)) (sn_Objects s) in
    let pairs := pairs ++ map (fun e => (sigStorageKey (se_id e), encodeSigValue (se_version e) (se_sig e))) (extractSignatures s) in
    inr (SetBatch db pairs).

End Build.
