(* ===== verification/SnapshotFacts.v ===== *)
(** * What a snapshot carries and what it may write

    Facts about internal/sync/snapshot.go: the validator records read back, a
    built snapshot passes its own checksum, applying it writes exactly the
    objects and signatures of the source, and no snapshot at all writes
    consensus state. *)

From S2P Require Import Prelude Types Fees Validators Storage Tracker Domains Vertices Persist Smt Merkle Snapshot.

(** ** Sorting by a key *)

Section SortBy.
Context {A : Type} (key : A -> bytes).
Implicit Type l : list A.

Lemma sortBy_perm l : sortBy key l ≡ₚ l.
Proof. apply merge_sort_Permutation. Qed.

Lemma sortBy_sorted l : Sorted (byKey key) (sortBy key l).
Proof. apply (Sorted_merge_sort (byKey key)). Qed.

Lemma elem_of_sortBy x l : x ∈ sortBy key l <-> x ∈ l.
Proof. by rewrite sortBy_perm. Qed.

Lemma Forall_sortBy (P : A -> Prop) l : Forall P (sortBy key l) <-> Forall P l.
Proof. by rewrite sortBy_perm. Qed.

Lemma length_sortBy l : length (sortBy key l) = length l.
Proof. by rewrite sortBy_perm. Qed.

Lemma NoDup_key_inj l x y : NoDup (map key l) -> x ∈ l -> y ∈ l -> key x = key y -> x = y.
Proof.
  intros Hn Hx Hy E. induction l as [|z l IH]; [by apply not_elem_of_nil in Hx|].
  cbn [map] in Hn. apply NoDup_cons in Hn as [Hz Hn].
  apply elem_of_cons in Hx, Hy. destruct Hx as [->|Hx], Hy as [->|Hy]; [done| | |by apply IH];
    exfalso; apply Hz; [rewrite E|rewrite <- E]; by apply list_elem_of_fmap_2.
Qed.

(** Without repeated keys the sorted list depends on the members only. *)
Lemma sorted_by_key l l' :
  NoDup (map key l) -> Sorted (byKey key) l -> Sorted (byKey key) l' -> l ≡ₚ l' -> l = l'.
Proof.
  intros Hn Hs Hs' Hp. apply (Sorted_unique_strong (byKey key)); [|done..].
  intros x y Hx Hy Hxy Hyx. apply (NoDup_key_inj l); [done|done|by rewrite Hp|]. by apply (anti_symm bytes_le).
Qed.

Lemma sortBy_proper l l' : NoDup (map key l) -> l ≡ₚ l' -> sortBy key l = sortBy key l'.
Proof.
  intros Hn Hp. apply sorted_by_key; [|apply sortBy_sorted..|by rewrite !sortBy_perm].
  by rewrite sortBy_perm.
Qed.

Lemma sortBy_id l : NoDup (map key l) -> Sorted (byKey key) l -> sortBy key l = l.
Proof. intros Hn Hs. apply sorted_by_key; [|apply sortBy_sorted|done|apply sortBy_perm]. by rewrite sortBy_perm. Qed.

Lemma sortBy_twice l : NoDup (map key l) -> sortBy key (sortBy key l) = sortBy key l.
Proof. intros Hn. apply sortBy_id; [by rewrite sortBy_perm|apply sortBy_sorted]. Qed.

End SortBy.

(** A list selected from the store in key order is sorted, without repetition. *)
Lemma omap_fst_sublist {A B} (f : bytes * B -> option A) (key : A -> bytes) l :
  (forall kv x, kv ∈ l -> f kv = Some x -> key x = fst kv) -> map key (omap f l) `sublist_of` map fst l.
Proof.
  induction l as [|kv l IH]; intros Hf; [done|]. cbn [omap list_omap map].
  assert (IH' : map key (omap f l) `sublist_of` map fst l) by (apply IH; intros; apply Hf; [by right|done]).
  destruct (f kv) as [x|] eqn:E; [|by constructor]. cbn [map]. rewrite (Hf kv x) by (by left || done). by constructor.
Qed.

Lemma Sorted_map_key {A} (key : A -> bytes) l : Sorted bytes_le (map key l) <-> Sorted (byKey key) l.
Proof.
  induction l as [|x l IH]; cbn [map]; [by split; constructor|]. split; inversion_clear 1 as [|? ? Hs Hh]; constructor; try by apply IH.
  - destruct l; [constructor|]. inversion_clear Hh. by constructor.
  - destruct l; [constructor|]. inversion_clear Hh. by constructor.
Qed.

Lemma Sorted_sublist (l l' : list bytes) : l `sublist_of` l' -> Sorted bytes_le l' -> Sorted bytes_le l.
Proof.
  intros Hl Hs. apply Sorted_StronglySorted in Hs; [|apply _]. apply StronglySorted_Sorted.
  revert Hs. induction Hl as [|x l l' Hl IH|x l l' Hl IH]; intros Hs; [done| |].
  - inversion_clear Hs as [|? ? Hs' Hf]. constructor; [by apply IH|]. rewrite Forall_forall in *. intros y Hy. apply Hf. by eapply elem_of_sublist.
  - inversion_clear Hs. by apply IH.
Qed.

(** ** Validator records *)

Definition validatorOk (v : ValidatorInfo) : Prop := recordOk v /\ length (RewardCoin v) = 32%nat.

Lemma length_encodeValidator v : validatorOk v -> length (encodeValidator v) = (131 + length (QUICAddr v))%nat.
Proof.
  intros [(H1 & H2 & _) H3]. unfold encodeValidator. rewrite !length_app, !length_be_enc, length_le_enc, H1, H2, H3. simpl. lia.
Qed.

Lemma boolByte_flag b : negb (boolByte b =? 0) = b.
Proof. by destruct b. Qed.

Lemma decodeValidator_encode v rest : validatorOk v -> decodeValidator (encodeValidator v ++ rest) = Some (v, rest).
Proof.
  intros Hv. pose proof (length_encodeValidator v Hv) as Hl. destruct Hv as [(H1 & H2 & [] & [] & H3) H4].
  unfold decodeValidator, encodeValidator, validatorStakeBytes, validatorRewardCoinBytes in *. rewrite Z.mod_small by lia.
  rewrite <- !app_assoc. rewrite (take_app_length' (Pubkey v)), (drop_app_length' (Pubkey v)) by done.
  rewrite take_app_length', drop_app_length' by (by rewrite length_le_enc). rewrite le_dec_enc by (simpl; lia). rewrite Nat2Z.id.
  rewrite take_app_length, drop_app_length. rewrite (take_app_length' (BLSPubkey v)), (drop_app_length' (BLSPubkey v)) by done.
  rewrite !length_app, !length_le_enc, !length_be_enc, H1, H2, H4. cbn [length].
  repeat match goal with |- context [Nat.ltb ?a ?b] => destruct (Nat.ltb_spec a b); [lia|] end.
  cbv zeta. rewrite take_app_length' by (by rewrite length_be_enc). rewrite be_dec_enc by (simpl; lia).
  rewrite slice_app_r by (rewrite length_be_enc; lia). rewrite length_be_enc. change (8 - 8)%nat with 0%nat.
  rewrite slice_app_l by (by rewrite length_be_enc). rewrite be_dec_enc by (simpl; lia).
  rewrite lookup_app_r by (rewrite length_be_enc; lia). rewrite lookup_app_r by (rewrite !length_be_enc; lia). rewrite !length_be_enc.
  change (16 - 8 - 8)%nat with 0%nat. cbn [app lookup list_lookup default from_option id]. rewrite boolByte_flag.
  rewrite !app_assoc. rewrite (drop_app_length' ((be_enc 8 (SelfStake v) ++ be_enc 8 (DelegatedTotal v)) ++ [boolByte (Jailed v)]) (RewardCoin v ++ rest)).
  - rewrite take_app_length', drop_app_length' by done. destruct (Nat.ltb_spec (length (RewardCoin v ++ rest)) 32) as [Hlt|]; [|by destruct v].
    rewrite length_app in Hlt. lia.
  - by rewrite !length_app, !length_be_enc.
Qed.

(** The loop ends before its bound, so a larger one gives the same list. *)
Lemma decodeValidator_shorter data v rest : decodeValidator data = Some (v, rest) -> (length rest < length data)%nat.
Proof.
  unfold decodeValidator. cbv zeta. repeat case_match; try done. intros [= _ <-]. rewrite !length_drop. unfold validatorStakeBytes in *.
  repeat match goal with H : Nat.ltb _ _ = false |- _ => apply Nat.ltb_ge in H end. lia.
Qed.

Lemma decodeLoop_enough fuel g data : (length data <= fuel)%nat -> (length data <= g)%nat -> decodeLoop fuel data = decodeLoop g data.
Proof.
  revert g data. induction fuel as [|fuel IH]; intros g data Hf Hg.
  - destruct data; [|cbn [length] in *; lia]. by destruct g.
  - destruct g as [|g]; [destruct data; [done|cbn [length] in *; lia]|]. cbn [decodeLoop].
    destruct (decodeValidator data) as [[v rest]|] eqn:E; [|done]. apply decodeValidator_shorter in E. f_equal. apply IH; lia.
Qed.

Lemma decodeLoop_fuel fuel data : (length data <= fuel)%nat -> decodeLoop fuel data = decodeValidators data.
Proof. intros Hf. by apply decodeLoop_enough. Qed.

Lemma decode_encodeValidators l : Forall validatorOk l -> decodeValidators (encodeValidators l) = l.
Proof.
  induction 1 as [|v l Hv Hl IH]; [done|]. rewrite <- (decodeLoop_fuel (S (length (encodeValidators (v :: l))))) by lia.
  cbn [decodeLoop]. unfold encodeValidators. cbn [map concat]. rewrite decodeValidator_encode by done. f_equal.
  fold (encodeValidators l). rewrite decodeLoop_fuel by (rewrite length_app; lia). exact IH.
Qed.

(** ** The store's namespaces *)

Definition objectKey (k : bytes) : bool := Nat.eqb (length k) objectKeySize && negb (isConsensusKey k).

Definition signatureKey (k : bytes) : bool := Nat.eqb (length k) (length prefixObjectSig + 32) && hasPrefix k prefixObjectSig.

Lemma hasPrefix_spec k p : hasPrefix k p = true <-> p `prefix_of` k.
Proof.
  unfold hasPrefix. rewrite bool_decide_eq_true. split.
  - intros E. exists (drop (length p) k). by rewrite <- E at 1; rewrite take_drop.
  - intros [r ->]. by rewrite take_app_length.
Qed.

Lemma checkObjectKey_spec k : checkObjectKey k = objectKey k.
Proof. unfold checkObjectKey, objectKey. by destruct (Nat.eqb _ _). Qed.

Lemma signatureKey_spec k : signatureKey k = true <-> exists id, length id = 32%nat /\ k = sigStorageKey id.
Proof.
  unfold signatureKey. rewrite andb_true_iff, Nat.eqb_eq, hasPrefix_spec. unfold sigStorageKey. split.
  - intros [Hl [id ->]]. rewrite length_app in Hl. exists id. split; [lia|done].
  - intros (id & Hid & ->). rewrite length_app, Hid. split; [lia|by exists id].
Qed.

Section Carried.
Context {M : Type} `{Pebble M}.
Implicit Type src : M.

(** The pairs of a store that its snapshot carries. *)
Definition carries (kv : bytes * bytes) : bool :=
  objectKey (fst kv) || (signatureKey (fst kv) && Nat.eqb (length (snd kv)) (8 + blsSignatureSize)).

Definition carried src : gmap bytes bytes := filter (fun kv => carries kv = true) (db_map src).

Lemma Iterate_spec src k v : (k, v) ∈ Iterate src <-> db_map src !! k = Some v.
Proof. unfold Iterate. rewrite db_iter_spec. unfold inRange. destruct k; cbn [bytes_leb andb]; tauto. Qed.

Lemma collectObjects_spec src o : o ∈ collectObjects src <-> objectKey (oe_id o) = true /\ db_map src !! oe_id o = Some (oe_data o).
Proof.
  unfold collectObjects, objectKey. rewrite list_elem_of_omap. split.
  - intros ([k v] & Hin & Hf). apply Iterate_spec in Hin. cbn [fst snd] in Hf.
    destruct (isConsensusKey k) eqn:Ec; [done|]. destruct (Nat.eqb (length k) objectKeySize) eqn:El; [|done].
    injection Hf as <-. cbn [oe_id oe_data]. by rewrite El, Ec.
  - intros [Hk Hv]. apply andb_true_iff in Hk as [Hl Hc]. apply negb_true_iff in Hc. exists (oe_id o, oe_data o).
    split; [by apply Iterate_spec|]. cbn [fst snd]. rewrite Hc, Hl. by destruct o.
Qed.

Lemma collectSignatures_spec src e :
  e ∈ collectSignatures src <->
  exists v, length (se_id e) = 32%nat /\ length v = (8 + blsSignatureSize)%nat /\ db_map src !! sigStorageKey (se_id e) = Some v /\
            se_version e = be_dec (take 8 v) /\ se_sig e = drop 8 v.
Proof.
  unfold collectSignatures. rewrite list_elem_of_omap. split.
  - intros ([k v] & Hin & Hf). apply (IteratePrefix_snoc src (str "objsig") 58) in Hin as [Hg [id ->]]; [|lia].
    unfold Get in Hg. rewrite db_get_spec in Hg. cbn [fst snd] in Hf. change (str "objsig" ++ [58]) with prefixObjectSig in *.
    destruct (Nat.eqb_spec (length (prefixObjectSig ++ id)) (length prefixObjectSig + 32)) as [El|]; [|done].
    destruct (Nat.eqb_spec (length v) (8 + blsSignatureSize)) as [Ev|]; [|done]. cbn [negb orb] in Hf. apply (inj Some) in Hf as <-. cbn [se_id se_version se_sig].
    rewrite drop_app_length. rewrite length_app in El. exists v. split_and!; try done. lia.
  - intros (v & Hid & Hv & Hg & E1 & E2). exists (sigStorageKey (se_id e), v). split.
    + apply (IteratePrefix_snoc src (str "objsig") 58); [lia|]. split; [unfold Get; by rewrite db_get_spec|]. by exists (se_id e).
    + cbn [fst snd]. unfold sigStorageKey. rewrite length_app, Hid, Nat.eqb_refl, (proj2 (Nat.eqb_eq _ _) Hv). cbn [negb orb].
      rewrite drop_app_length, <- E1, <- E2. by destruct e.
Qed.

Lemma collectObjects_keys src : map oe_id (collectObjects src) `sublist_of` map fst (Iterate src).
Proof. apply omap_fst_sublist. intros [k v] x _. cbn [fst snd]. repeat case_match; try done. by intros [= <-]. Qed.

Lemma collectObjects_NoDup src : NoDup (map oe_id (collectObjects src)).
Proof. eapply sublist_NoDup; [apply db_iter_NoDup|apply collectObjects_keys]. Qed.

Lemma collectSignatures_NoDup src : NoDup (map se_id (collectSignatures src)).
Proof.
  apply (NoDup_fmap_1 sigStorageKey). rewrite map_map. eapply sublist_NoDup; [apply (db_iter_NoDup src prefixObjectSig (prefixUpperBound prefixObjectSig))|].
  apply (omap_fst_sublist _ (fun e => sigStorageKey (se_id e))). intros [k v] x Hin. cbn [fst snd].
  apply (IteratePrefix_snoc src (str "objsig") 58) in Hin as [_ [id ->]]; [|lia]. change (str "objsig" ++ [58]) with prefixObjectSig.
  case_match; [done|]. intros E%(inj Some). subst x. cbn [se_id]. by rewrite drop_app_length.
Qed.

End Carried.

(** ** Applying any snapshot *)

Section Apply.
Context {M : Type} `{Pebble M} (X : Crypto).
Implicit Types (db src : M) (s : Snapshot).

Definition appliedPairs s : list (bytes * bytes) :=
  map (fun o => (oe_id o, oe_data o)) (sn_Objects s) ++
  map (fun e => (sigStorageKey (se_id e), encodeSigValue (se_version e) (se_sig e))) (extractSignatures s).

Lemma ApplySnapshot_inr db s db' :
  ApplySnapshot X db s = inr db' ->
  sn_Version s = snapshotVersion /\ verifyChecksum X s = true /\ Forall (fun o => objectKey (oe_id o) = true) (sn_Objects s) /\
  db' = SetBatch db (appliedPairs s).
Proof.
  unfold ApplySnapshot. destruct (Z.eqb_spec (sn_Version s) snapshotVersion) as [Ev|]; [|done]. cbn [negb].
  destruct (verifyChecksum X s); [|done]. cbn [negb]. destruct (forallb _ _) eqn:Ef; [|done]. cbn [negb]. intros [= <-]. split_and!; try done.
  rewrite forallb_forall in Ef. apply Forall_forall. intros o Ho. rewrite <- checkObjectKey_spec. apply Ef. by apply list_elem_of_In.
Qed.

Lemma extractSignatures_ok s e : e ∈ extractSignatures s -> length (se_id e) = 32%nat /\ length (se_sig e) = blsSignatureSize.
Proof. unfold extractSignatures. rewrite list_elem_of_filter. intros [Hb _]. apply andb_true_iff in Hb as [Hb1 Hb2]. by rewrite !Nat.eqb_eq in *. Qed.

Lemma appliedPairs_keys s k v :
  Forall (fun o => objectKey (oe_id o) = true) (sn_Objects s) -> (k, v) ∈ appliedPairs s -> objectKey k = true \/ signatureKey k = true.
Proof.
  intros Ho Hin. apply elem_of_app in Hin as [Hin|Hin]; apply list_elem_of_fmap in Hin as (x & E & Hx); injection E as -> ->.
  - left. rewrite Forall_forall in Ho. by apply Ho.
  - right. apply signatureKey_spec. exists (se_id x). split; [by apply (extractSignatures_ok s)|done].
Qed.

Lemma consensus_key_free k : isConsensusKey k = true -> objectKey k = false /\ signatureKey k = false.
Proof.
  intros Hc. split; [unfold objectKey; by rewrite Hc, andb_false_r|]. apply not_true_is_false. intros Hs.
  apply signatureKey_spec in Hs as (id & _ & ->). done.
Qed.

Lemma prefixed_is_consensus p k : p ∈ [prefixVertex; prefixRound; prefixMeta; prefixTracker; prefixDomain] -> p `prefix_of` k -> isConsensusKey k = true.
Proof.
  intros Hp Hk. apply hasPrefix_spec in Hk. unfold isConsensusKey. rewrite !elem_of_cons, elem_of_nil in Hp.
  destruct Hp as [->|[->|[->|[->|[->|[]]]]]]; rewrite Hk; by rewrite ?orb_true_r.
Qed.

Lemma apply_untouched db s db' k :
  ApplySnapshot X db s = inr db' -> objectKey k = false -> signatureKey k = false -> db_map db' !! k = db_map db !! k.
Proof.
  intros Ha Ho Hs. apply ApplySnapshot_inr in Ha as (_ & _ & Hk & ->). rewrite SetBatch_map.
  destruct (foldl_insert_In (appliedPairs s) (db_map db) k) as [(v & Hin & _)|[_ ->]]; [|done].
  apply appliedPairs_keys in Hin; [|done]. destruct Hin; congruence.
Qed.

(** ** Applying a node's own snapshot *)

Record exportOk (validators : list ValidatorInfo) (trackerEntries : list ObjectTrackerEntry) (domainEntries : list DomainEntry) : Prop := {
  xo_validators : Forall validatorOk validators;
  xo_pubkeys : NoDup (map Pubkey validators);
  xo_ids : NoDup (map te_ID trackerEntries);
  xo_tracker : Forall (fun e => length (te_ID e) = 32%nat /\ length (te_Parent e) = 32%nat) trackerEntries;
  xo_names : NoDup (map de_Name domainEntries);
  xo_sorted : Sorted (byKey de_Name) domainEntries;
  xo_domains : Forall (fun e => length (objectID (de_Leaf e)) = 32%nat /\ length (owner (de_Leaf e)) = 32%nat) domainEntries;
}.

Lemma decodeHash32_id b : length b = 32%nat -> decodeHash32 b = b.
Proof. intros E. unfold decodeHash32. by rewrite E. Qed.

Lemma ExtractTrackerEntries_id s :
  Forall (fun e => length (te_ID e) = 32%nat /\ length (te_Parent e) = 32%nat) (sn_ObjectVersions s) -> ExtractTrackerEntries s = sn_ObjectVersions s.
Proof.
  unfold ExtractTrackerEntries. induction 1 as [|e l [H1 H2] Hl IH]; [done|]. cbn [map]. rewrite IH, !decodeHash32_id by done. by destruct e.
Qed.

Lemma ExtractDomains_id s :
  Forall (fun e => length (objectID (de_Leaf e)) = 32%nat /\ length (owner (de_Leaf e)) = 32%nat) (sn_Domains s) -> ExtractDomains s = sn_Domains s.
Proof.
  unfold ExtractDomains. induction 1 as [|e l [H1 H2] Hl IH]; [done|]. cbn [map]. rewrite IH, !decodeHash32_id by done. by destruct e as [? []].
Qed.

Lemma extractSignatures_id s :
  Forall (fun e => length (se_id e) = 32%nat /\ length (se_sig e) = blsSignatureSize) (sn_Signatures s) -> extractSignatures s = sn_Signatures s.
Proof.
  unfold extractSignatures. induction 1 as [|e l [H1 H2] Hl IH]; [done|]. rewrite filter_cons, IH, decide_True; [done|]. by rewrite H1, H2.
Qed.

Lemma ExtractValidators_id s l : sn_Validators s = encodeValidators l -> Forall validatorOk l -> ExtractValidators s = l.
Proof.
  intros E Hl. unfold ExtractValidators. rewrite E. destruct (Nat.eqb_spec (length (encodeValidators l)) 0) as [El|]; [|by apply decode_encodeValidators].
  destruct l as [|v l]; [done|]. apply Forall_cons_1 in Hl as [Hv _]. unfold encodeValidators in El. cbn [map concat] in El.
  rewrite length_app, length_encodeValidator in El by done. lia.
Qed.

Context `{!Digest (blake3 X)}.
Context src (round : Z) (validators : list ValidatorInfo) (vertices : list VertexEntry) (trackerEntries : list ObjectTrackerEntry)
  (domainEntries : list DomainEntry) (totalSupply coinsTotal issuanceRateMicro : Z) (epochState : bytes).
Context (Hok : exportOk validators trackerEntries domainEntries).
Let snap := CreateSnapshot X src round validators vertices trackerEntries domainEntries totalSupply coinsTotal issuanceRateMicro epochState.

Lemma snap_validators : ExtractValidators snap = sortValidatorInfos validators.
Proof using Hok. apply ExtractValidators_id; [done|]. apply Forall_sortBy, (xo_validators _ _ _ Hok). Qed.

Lemma snap_tracker : ExtractTrackerEntries snap = sortTrackerEntries trackerEntries.
Proof using Hok. apply ExtractTrackerEntries_id, Forall_sortBy, (xo_tracker _ _ _ Hok). Qed.

Lemma snap_domains : ExtractDomains snap = domainEntries.
Proof using Hok.
  unfold snap. rewrite ExtractDomains_id.
  - apply sortBy_id; [apply (xo_names _ _ _ Hok)|apply (xo_sorted _ _ _ Hok)].
  - apply Forall_sortBy, (xo_domains _ _ _ Hok).
Qed.

Lemma snap_signatures : extractSignatures snap = sortSignatures (collectSignatures src).
Proof.
  apply extractSignatures_id, Forall_sortBy, Forall_forall. intros e He. apply collectSignatures_spec in He as (v & H1 & H2 & _ & _ & ->).
  split; [done|]. rewrite length_drop. lia.
Qed.

Lemma snap_verifies : verifyChecksum X snap = true.
Proof using Hok Digest0.
  unfold verifyChecksum. rewrite snap_validators, snap_tracker, snap_domains, snap_signatures.
  destruct (Nat.eqb_spec (length (sn_Checksum snap)) 32) as [_|Hne]; [|exfalso; apply Hne; exact (proj1 (Digest0 _))]. cbn [negb].
  apply bool_decide_eq_true. unfold snap, CreateSnapshot, buildSnapshot. cbv zeta. cbn [sn_Version sn_LastCommittedRound sn_Objects sn_Checksum sn_TotalSupply sn_CoinsTotal sn_IssuanceRateMicro sn_EpochState].
  unfold computeChecksumWithInfo, checksumInput, sortObjects, sortValidatorInfos, sortTrackerEntries, sortDomainEntries, sortSignatures. f_equal.
  rewrite (sortBy_twice oe_id (collectObjects src) (collectObjects_NoDup src)), (sortBy_twice Pubkey validators (xo_pubkeys _ _ _ Hok)).
  rewrite (sortBy_twice te_ID trackerEntries (xo_ids _ _ _ Hok)), (sortBy_id de_Name domainEntries (xo_names _ _ _ Hok) (xo_sorted _ _ _ Hok)).
  unfold len32. by rewrite !length_sortBy.
Qed.

Lemma be_enc_dec n b : length b = n -> wf_bytes b -> be_enc n (be_dec b) = b.
Proof.
  intros Hl Hb. unfold be_enc, be_dec. rewrite <- (rev_involutive b) at 2. f_equal. assert (Hr : wf_bytes (rev b)) by (by apply Forall_rev).
  rewrite <- (length_rev b) in Hl. revert n Hl. generalize dependent (rev b). clear. intros b Hb. induction Hb as [|x l Hx Hl IH]; intros n <-; [done|].
  cbn [length]. unfold le_enc, le_dec; fold le_enc le_dec. unfold is_byte in Hx. f_equal.
  - rewrite (Z.mul_comm 256), Z.mod_add, Z.mod_small by lia. done.
  - rewrite (Z.mul_comm 256), Z.div_add, Z.div_small, Z.add_0_l by lia. by apply IH.
Qed.

Lemma appliedPairs_spec k v :
  map_Forall (fun _ v => wf_bytes v) (db_map src) -> (k, v) ∈ appliedPairs snap <-> carried src !! k = Some v.
Proof using Hok.
  intros Hw. unfold appliedPairs. rewrite snap_signatures. rewrite elem_of_app, !list_elem_of_fmap. unfold carried. rewrite map_lookup_filter_Some. unfold carries. cbn [fst snd].
  split.
  - intros [(o & E & Ho)|(e & E & He)]; injection E as -> ->.
    + apply elem_of_sortBy, collectObjects_spec in Ho as [Hk Hv]. by rewrite Hk.
    + apply elem_of_sortBy, collectSignatures_spec in He as (v & H1 & H2 & Hg & -> & ->). unfold encodeSigValue.
      rewrite be_enc_dec by (try apply Forall_take, (Hw _ _ Hg); rewrite length_take; lia). rewrite take_drop. split; [done|].
      rewrite H2, (proj2 (signatureKey_spec _)) by eauto. by rewrite orb_true_r.
  - intros [Hv Hc]. apply orb_true_iff in Hc as [Hc|Hc].
    + left. exists (mkObjectEntry k v). split; [done|]. apply elem_of_sortBy, collectObjects_spec. done.
    + right. apply andb_true_iff in Hc as [Hs Hl]. apply Nat.eqb_eq in Hl. apply signatureKey_spec in Hs as (id & Hid & ->).
      exists (mkSigEntry id (be_dec (take 8 v)) (drop 8 v)). split.
      * cbn [se_id se_version se_sig]. unfold encodeSigValue. rewrite be_enc_dec; [by rewrite take_drop|rewrite length_take; lia|]. by apply Forall_take, (Hw _ _ Hv).
      * apply elem_of_sortBy, collectSignatures_spec. exists v. done.
Qed.

Lemma snap_applies db : exists db', ApplySnapshot X db snap = inr db' /\ db' = SetBatch db (appliedPairs snap).
Proof using Hok Digest0.
  unfold ApplySnapshot. rewrite snap_verifies. cbn [sn_Version snap CreateSnapshot buildSnapshot negb]. change (snapshotVersion =? snapshotVersion) with true. cbn [negb].
  assert (E : forallb (fun o => checkObjectKey (oe_id o)) (sn_Objects snap) = true); [|rewrite E; cbn [negb]; eauto].
  apply forallb_forall. intros o Ho. apply list_elem_of_In in Ho. change (sn_Objects snap) with (sortObjects (collectObjects src)) in Ho.
  apply elem_of_sortBy, collectObjects_spec in Ho as [Hk _]. by rewrite checkObjectKey_spec.
Qed.

Lemma snap_result db :
  map_Forall (fun _ v => wf_bytes v) (db_map src) -> exists db', ApplySnapshot X db snap = inr db' /\ db_map db' = carried src ∪ db_map db.
Proof using Hok Digest0.
  intros Hw. destruct (snap_applies db) as (db' & Ha & ->). exists (SetBatch db (appliedPairs snap)). split; [done|]. apply map_eq. intros k.
  rewrite SetBatch_map. destruct (foldl_insert_In (appliedPairs snap) (db_map db) k) as [(v & Hin & ->)|[Hno ->]].
  - symmetry. apply lookup_union_Some_l. by apply appliedPairs_spec.
  - symmetry. apply lookup_union_r. destruct (carried src !! k) as [v|] eqn:E; [|done]. exfalso. apply (Hno v). by apply appliedPairs_spec.
Qed.

End Apply.

(** Whatever a snapshot holds, applying it writes only under bare 32-byte object keys
    and signature keys: object versions, leases, metadata, vertices and commit marks
    stay as they are. *)

(** C25. Whatever bytes a peer packs into a snapshot, applying it changes nothing on the
    disk outside 32-byte object keys that carry no consensus prefix and the eager
    signatures: tracker entries, leases, metadata and commit marks stay as they are. *)
Theorem snapshot_writes_no_consensus_state {M} `{Pebble M} (X : Crypto) (db db' : M) (s : Snapshot) :
  ApplySnapshot X db s = inr db' ->
  (forall k, db_map db' !! k <> db_map db !! k -> objectKey k = true \/ signatureKey k = true) /\
  (forall id, db_map db' !! makeKey id = db_map db !! makeKey id) /\
  (forall name, db_map db' !! domainKey name = db_map db !! domainKey name) /\
  (forall name, db_map db' !! metaKey name = db_map db !! metaKey name) /\
  (forall h, length h = 32%nat -> db_map db' !! committedKey h = db_map db !! committedKey h).
Proof.
  intros Ha. assert (Hc : forall k, isConsensusKey k = true -> db_map db' !! k = db_map db !! k).
  { intros k Hk. destruct (consensus_key_free k Hk). by apply (apply_untouched X db s db'). }
  split_and!.
  - intros k Hk. destruct (objectKey k) eqn:Eo; [by left|]. destruct (signatureKey k) eqn:Es; [by right|]. destruct Hk. by apply (apply_untouched X db s db').
  - intros id. apply Hc, (prefixed_is_consensus prefixTracker); [apply list_elem_of_In; cbn [In]; tauto|by exists id].
  - intros name. apply Hc, (prefixed_is_consensus prefixDomain); [apply list_elem_of_In; cbn [In]; tauto|by exists name].
  - intros name. apply Hc, (prefixed_is_consensus prefixMeta); [apply list_elem_of_In; cbn [In]; tauto|by exists (str name)].
  - intros h Hh. apply (apply_untouched X db s db' _ Ha).
    + unfold objectKey, committedKey. by rewrite length_app, Hh.
    + unfold signatureKey, committedKey. by rewrite length_app, Hh.
Qed.

(** A node's snapshot passes its own checks and, applied to any store, writes exactly
    the objects and signatures of the source over it; its lists read back as they were
    exported. *)
Theorem snapshot_reads_back {M} `{Pebble M} (X : Crypto) `{!Digest (blake3 X)} (src db : M) round validators vertices trackerEntries domainEntries
    totalSupply coinsTotal issuanceRateMicro epochState :
  exportOk validators trackerEntries domainEntries -> map_Forall (fun _ v => wf_bytes v) (db_map src) ->
  let s := CreateSnapshot X src round validators vertices trackerEntries domainEntries totalSupply coinsTotal issuanceRateMicro epochState in
  (exists db', ApplySnapshot X db s = inr db' /\ db_map db' = carried src ∪ db_map db) /\
  ExtractValidators s ≡ₚ validators /\ ExtractTrackerEntries s ≡ₚ trackerEntries /\ ExtractDomains s = domainEntries /\ ExtractVertices s = vertices.
Proof.
  intros Hok Hw. cbv zeta. split_and!; [by apply snap_result| | |by apply snap_domains|done].
  - rewrite snap_validators by done. apply sortBy_perm.
  - rewrite snap_tracker by done. apply sortBy_perm.
Qed.
