(* ===== verification/Sync.v ===== *)
(** * Joining a network (internal/sync, cmd/node/sync.go)

    The cut a node exports, the manager that keeps the latest snapshot, the
    request and its answer, the buffer of vertices received meanwhile, the
    construction of a joiner's consensus from a snapshot, and the convergence
    fingerprint.  FlatBuffers and zstd are outside: a packed snapshot is a value
    of [Blob].  A node has one key-value store; [disk] is that store. *)

From S2P Require Import Prelude Types Fees Validators Stake Thermostat Storage Tracker Ingress Domains Staged Coins Ledger Ops Dag Vertices Anchor Persist Smt Merkle Index Retention Feed Header Commit Epoch Admission Snapshot.

(** ** The cut (regime_sync.go, fingerprint_export.go) *)

Record ConsistentCut (M : Type) := mkCut {
  cc_Cursor : Z;
  cc_Round : Z;
  cc_Regime : bytes;
  cc_Vertices : list VertexEntry;
  cc_TrackerEntries : list ObjectTrackerEntry;
  cc_Validators : list ValidatorInfo;
  cc_Supply : Z;
  cc_CoinsTotal : Z;
  cc_IssuanceRate : Z;
  cc_DBSnapshot : M;
}.

Arguments mkCut {M}. Arguments cc_Cursor {M}. Arguments cc_Round {M}. Arguments cc_Regime {M}. Arguments cc_Vertices {M}.
Arguments cc_TrackerEntries {M}. Arguments cc_Validators {M}. Arguments cc_Supply {M}. Arguments cc_CoinsTotal {M}.
Arguments cc_IssuanceRate {M}. Arguments cc_DBSnapshot {M}.

Record FingerprintCut (M : Type) := mkFingerprintCut {
  fc_Round : Z;
  fc_TrackerEntries : list ObjectTrackerEntry;
  fc_Validators : list ValidatorInfo;
  fc_PendingRemovals : list Hash;
  fc_EpochAdditions : list Hash;
  fc_CurrentEpoch : Z;
  fc_IssuanceRateMicro : Z;
  fc_EpochFees : Z;
  fc_TotalSupply : Z;
  fc_CoinsTotal : Z;
  fc_DBSnapshot : M;
}.

Arguments mkFingerprintCut {M}. Arguments fc_Round {M}. Arguments fc_TrackerEntries {M}. Arguments fc_Validators {M}.
Arguments fc_PendingRemovals {M}. Arguments fc_EpochAdditions {M}. Arguments fc_CurrentEpoch {M}. Arguments fc_IssuanceRateMicro {M}.
Arguments fc_EpochFees {M}. Arguments fc_TotalSupply {M}. Arguments fc_CoinsTotal {M}. Arguments fc_DBSnapshot {M}.

Section Cuts.
Context {M : Type} `{Pebble M}.
Implicit Types (n : Node M) (disk : M).

(** [TotalSupply] and [CoinsTotal] of the DAG: zero without a fee system. *)
Definition TotalSupply n : Z := match l_coins (d_ledger (n_dag n)) with Some st => cs_supply st | None => 0 end.
Definition CoinsTotal n : Z := match l_coins (d_ledger (n_dag n)) with Some st => cs_coins st | None => 0 end.

Definition totalEpochFees n : Z := foldl safeAdd 0 (map snd (map_to_list (epochFees (d_rewards (n_dag n))))).

Definition ExportConsistentCut n disk (historyRounds : Z) : ConsistentCut M :=
  let toRound := n_round n in
  let fromRound := if historyRounds <? toRound then toRound -w historyRounds else 0 in
  mkCut (n_lastCommitted n) toRound (encodeRegimeState (n_dag n)) (ExportVertices (n_store n) fromRound toRound)
    (Export (l_tracker (d_ledger (n_dag n)))) (All (l_validators (d_ledger (n_dag n)))) (TotalSupply n) (CoinsTotal n)
    (issuanceRateMicro (d_rewards (n_dag n))) disk.

Definition sortedAdditions (additions : list Hash) (limit : nat) : list Hash := take limit (sortHashes additions).

Definition ExportFingerprintCut n disk : FingerprintCut M :=
  let d := n_dag n in
  mkFingerprintCut (lastDecidedRound (n_lastCommitted n)) (Export (l_tracker (d_ledger d))) (All (l_validators (d_ledger d)))
    (sortedMemberKeys (pendingRemovals (d_epochs d))) (sortedAdditions (epochAdditions (d_epochs d)) (length (epochAdditions (d_epochs d))))
    (currentEpoch (d_epochs d)) (issuanceRateMicro (d_rewards d)) (totalEpochFees n) (TotalSupply n) (CoinsTotal n) disk.

End Cuts.

(** ** The snapshot manager (manager.go) and the exchange (protocol.go) *)

Record SnapshotManager (Blob : Type) := mkManager_ { sm_current : option Blob; sm_round : Z }.

Arguments mkManager_ {Blob}. Arguments sm_current {Blob}. Arguments sm_round {Blob}.

Definition NewSnapshotManager {Blob} : SnapshotManager Blob := mkManager_ None 0.

Definition vertexHistoryRounds : Z := 100.

Section Exchange.
Context {Blob : Type} (CompressSnapshot : Snapshot -> Blob) (DecompressSnapshot : Blob -> option Snapshot) (blobEmpty : Blob -> bool).
Context {M : Type} `{Pebble M} (X : Crypto).

Definition Latest (m : SnapshotManager Blob) : option Blob * Z := (sm_current m, sm_round m).

(** [createSnapshot]; [round] is what [Round] reads before the cut is taken. *)
Definition createSnapshot (m : SnapshotManager Blob) (round : Z) (n : Node M) (disk : M) : SnapshotManager Blob :=
  if (round =? sm_round m) && bool_decide (is_Some (sm_current m)) then m
  else
    let cut := ExportConsistentCut n disk vertexHistoryRounds in
    let commitRound := lastDecidedRound (cc_Cursor cut) in
    let domainEntries := ExportDomains (cc_DBSnapshot cut) in
    let data := CreateSnapshot X (cc_DBSnapshot cut) commitRound (cc_Validators cut) (cc_Vertices cut) (cc_TrackerEntries cut) domainEntries
                  (cc_Supply cut) (cc_CoinsTotal cut) (cc_IssuanceRate cut) (cc_Regime cut) in
    mkManager_ (Some (CompressSnapshot data)) (cc_Round cut).

(** [SnapshotRequest] carries its ID; [SnapshotResponse] the ID and the data. *)
Definition IsSnapshotRequest (dataLen : nat) (requestID : Z) : bool := if Nat.ltb dataLen 8 then false else 0 <? requestID.

Definition HandleSnapshotRequest (requestID : Z) (m : SnapshotManager Blob) : option (Z * Blob) :=
  match sm_current m with None => None | Some data => Some (requestID, data) end.

(** [RequestSnapshot] against a peer's answer; the counter is global. *)
Definition RequestSnapshot (counter : Z) (peer : Z -> option (Z * Blob)) : Z * option Snapshot :=
  let reqID := counter +w 1 in
  (reqID,
   match peer reqID with
   | None => None
   | Some (id, data) =>
       if negb (id =? reqID) then None else if blobEmpty data then None else DecompressSnapshot data
   end).

End Exchange.

(** ** The vertex buffer (buffer.go) *)

(** A vertex as received: its bytes and the round they parse to. *)
Record vertexEntry := mkVertexEntry { vb_data : bytes; vb_round : Z }.

Definition VertexBuffer : Type := gmap Hash vertexEntry.

Section Buffer.
Context (X : Crypto) (parseRound : bytes -> Z).
Implicit Type b : VertexBuffer.

Definition NewVertexBuffer : VertexBuffer := ∅.

Definition bufferAdd b (data : bytes) : VertexBuffer * bool :=
  let hash := blake3 X data in
  if bool_decide (is_Some (b !! hash)) then (b, false)
  else (<[hash := mkVertexEntry data (parseRound data)]> b, true).

Definition bufferLen b : nat := size b.

Definition byRoundLe : relation vertexEntry := fun x y => vb_round x <= vb_round y.

#[local] Instance byRoundLe_dec : RelDecision byRoundLe.
Proof. intros x y. unfold byRoundLe. apply _. Defined.

(** [GetSince]: Go visits the map in no particular order and the sort is not
    stable, so the order within a round is one of several. *)
Definition GetSince b (minRound : Z) : list bytes :=
  map vb_data (merge_sort byRoundLe (filter (fun e => minRound <=? vb_round e = true) (map snd (map_to_list b)))).

Definition GetAll b : list bytes := GetSince b 0.

Definition bufferClear b : VertexBuffer := ∅.

Definition MinRound b : Z :=
  if Nat.eqb (size b) 0 then 0 else foldr (fun e m => if vb_round e <? m then vb_round e else m) max64 (map snd (map_to_list b)).

Definition MaxRound b : Z := foldr (fun e m => if m <? vb_round e then vb_round e else m) 0 (map snd (map_to_list b)).

End Buffer.

(** ** Constructing a node (dag.go) *)

Section Construct.
Context {M : Type} `{Pebble M} (X : Crypto) (c : Config).
Implicit Type n : Node M.

Definition set_node n (d : DAG M) (s : store) (round : Z) (syncMode : bool) (trusted : gset Hash) (cursor announced : Z) : Node M :=
  mkNode d s (n_db n) (n_quarantined n) (n_faults n) (n_pending n) round (n_lastProduced n) (n_pendingTxs n) (n_lastRebroadcast n)
    syncMode trusted cursor announced (n_stallAnchor n) (n_stallTicks n) (n_waitRound n) (n_waitTicks n) (n_fetcher n) (n_events n).

Definition Option_ : Type := Node M -> Node M.

Definition WithLastCommittedRound (round : Z) : Option_ := fun n =>
  set_node n (n_dag n) (n_store n) (n_round n) (n_syncMode n) (n_trusted n) (round +w 1) (lastDecidedRound (round +w 1)).

Definition importVerticesLocked n (entries : list VertexEntry) : Node M :=
  if Nat.eqb (length entries) 0 then n
  else
    let producers : gset Hash := list_to_set (map (fun e => extractProducer (ve_Data e)) entries) in
    let '(s, maxRound) := ImportVertices (n_store n) entries in
    let n := updateRound (set_node n (n_dag n) s (n_round n) (n_syncMode n) (n_trusted n) (n_lastCommitted n) (n_lastAnnounced n)) maxRound in
    set_node n (n_dag n) (n_store n) (n_round n) true producers (n_lastCommitted n) (n_lastAnnounced n).

Definition with_dag_ n (d : DAG M) : Node M :=
  set_node n d (n_store n) (n_round n) (n_syncMode n) (n_trusted n) (n_lastCommitted n) (n_lastAnnounced n).

Definition importTrackerEntriesLocked n (entries : list ObjectTrackerEntry) : Node M :=
  if Nat.eqb (length entries) 0 then n
  else
    let d := n_dag n in
    with_dag_ n (set_ledger d (set_tracker (d_ledger d) (Import (l_tracker (d_ledger d)) entries))).

Definition WithImportData (vertices : list VertexEntry) (trackerEntries : list ObjectTrackerEntry) : Option_ := fun n =>
  let n := importVerticesLocked n vertices in
  let n := importTrackerEntriesLocked n trackerEntries in
  if (0 <? minValidators c) && (minValidators c <=? Len (l_validators (d_ledger (n_dag n))))
  then with_dag_ n (enterTransition (n_dag n) (n_lastCommitted n)) else n.

Definition WithIssuanceRate (rateMicro : Z) : Option_ := fun n =>
  let d := n_dag n in
  with_dag_ n (set_rewards d (mkRewards (epochFees (d_rewards d)) (epochRoundsProduced (d_rewards d)) rateMicro)).

Definition WithSyncedRegimeState (blob : option bytes) : Option_ := fun n =>
  match blob with
  | None => n
  | Some blob => if Nat.eqb (length blob) 0 then n else with_dag_ n (applyRegimeState (n_dag n) blob)
  end.

(** [New]: [s] and [quarantined] are what [newStore] read from the disk and [db]
    the metadata; the result has the index the goroutines start with. *)
Definition New (db : DB) (s : store) (quarantined : gset Hash) (faults : gmap Hash bytes) (ledger : Ledger M) (opts : list Option_)
    (indexer : option Manager) : Node M * option Manager :=
  let d := mkDAG ledger (mkRegime ∅ ∅ false 0 (-1) false false false)
             (mkEpochs 0 None None None None None None None ∅ []) (mkRewards ∅ ∅ 0) in
  let cursor := loadCommitCursor db in
  let d := restoreEpochState d db in
  let n := mkNode d s db quarantined faults ∅ 0 0 [] None false ∅ (default 0 cursor)
             (match cursor with Some c => lastDecidedRound c | None => 0 end) zeroHash 0 0 0 None [] in
  let n := foldl (fun n opt => opt n) n opts in
  (n, m ← indexer; backfillIndex (blake3 X) c (n_dag n) (n_lastCommitted n) m).

Definition PurgePendingBeforeRound n (minRound : Z) : Node M * Z :=
  let kept := filter (fun kv : Hash * Vertex => v_Round (snd kv) <? minRound = false) (n_pending n) in
  (with_pending n kept, Z.of_nat (size (n_pending n) - size kept)).

End Construct.

(** ** The join (cmd/node/sync.go) *)

Record snapshotResult := mkResult {
  sr_lastCommittedRound : Z;
  sr_validators : list ValidatorInfo;
  sr_vertices : list VertexEntry;
  sr_trackerEntries : list ObjectTrackerEntry;
  sr_domainEntries : list DomainEntry;
  sr_issuanceRateMicro : Z;
  sr_regimeState : option bytes;
}.

Definition buildValidatorSetFromSnapshot (validators : list ValidatorInfo) : ValidatorSet :=
  foldl (fun vs v => SetRewardCoin (AddWithStake vs (Pubkey v) (QUICAddr v) (BLSPubkey v) (SelfStake v) (DelegatedTotal v) (Jailed v))
                       (Pubkey v) (RewardCoin v)) (NewValidatorSet []) validators.

Definition snapshotMinRound (vertices : list VertexEntry) : Z :=
  match vertices with
  | [] => 0
  | v :: vertices => foldl (fun m v => if ve_Round v <? m then ve_Round v else m) (ve_Round v) vertices
  end.

Section Join.
Context {M : Type} `{Pebble M} (X : Crypto) (c : Config) (decodeObject : bytes -> Object).
Implicit Type disk : M.

(** What [GetObject] reads: the value under the 32-byte ID. *)
Definition objectsOn disk : gmap Hash Object := decodeObject <$> filter (fun kv => length (fst kv) = objectKeySize) (db_map disk).

(** [requestAndApplySnapshot] on a snapshot already received: the disk and the
    two supply counters. *)
Definition applyReceived disk (st : CoinStore) (s : Snapshot) : snapshotError + (snapshotResult * M * CoinStore) :=
  match ApplySnapshot X disk s with
  | inl e => inl e
  | inr disk =>
      let result := mkResult (sn_LastCommittedRound s) (ExtractValidators s) (ExtractVertices s) (ExtractTrackerEntries s)
                      (ExtractDomains s) (sn_IssuanceRateMicro s) (ExtractRegimeState s) in
      let disk := if Nat.ltb 0 (length (sr_domainEntries result)) then ImportDomains disk (sr_domainEntries result) else disk in
      let st := SetCoinsTotal (SetTotalSupply (set_objects st (objectsOn disk)) (sn_TotalSupply s)) (sn_CoinsTotal s) in
      inr (result, disk, st)
  end.

(** [initConsensusForValidator]: the options in their order. *)
Definition initConsensusForValidator disk (st : CoinStore) (db : DB) (s : store) (quarantined : gset Hash) (faults : gmap Hash bytes)
    (result : snapshotResult) : Node M * option Manager :=
  let validators := buildValidatorSetFromSnapshot (sr_validators result) in
  New X c db s quarantined faults (mkLedger disk (Some disk) (Some st) validators (Some []) [])
    [WithLastCommittedRound (sr_lastCommittedRound result);
     WithImportData c (sr_vertices result) (sr_trackerEntries result);
     WithIssuanceRate (sr_issuanceRateMicro result);
     WithSyncedRegimeState (sr_regimeState result)]
    (Some NewManager).

End Join.

(** ** The fingerprint (fingerprint.go, fingerprint_hash.go) *)

Record Fingerprint := mkFingerprint {
  fp_Round : Z;
  fp_Checksum : Hash;
  fp_TotalSupply : Z;
  fp_CoinsTotal : Z;
  fp_TotalBonded : Z;
  fp_Deposits : Z;
  fp_FeesInFlight : Z;
}.

(** What each hash function writes, with the total it returns. *)
Definition hashTrackerEntries (entries : list ObjectTrackerEntry) : bytes * Z :=
  let sorted := sortTrackerEntries entries in
  (len32 sorted ++ concat (map trackerBytes sorted), u64 (sumZ (map te_Fees sorted))).

Definition hashDomains (entries : list DomainEntry) : bytes :=
  let sorted := sortDomainEntries entries in
  len32 sorted ++ concat (map domainBytes sorted).

Definition hashValidators (validators : list ValidatorInfo) : bytes * Z :=
  let sorted := sortValidatorInfos validators in
  (len32 sorted ++ concat (map (fun v => Pubkey v ++ be_enc 8 (SelfStake v) ++ be_enc 8 (DelegatedTotal v) ++ [boolByte (Jailed v)] ++ RewardCoin v) sorted),
   u64 (sumZ (map (fun v => SelfStake v +w DelegatedTotal v) sorted))).

Definition hashEpochChanges (pendingRemovals epochAdditions : list Hash) : bytes :=
  (len32 pendingRemovals ++ concat pendingRemovals) ++ len32 epochAdditions ++ concat epochAdditions.

Definition hashEpochCounters (currentEpoch issuanceRateMicro : Z) : bytes := be_enc 8 currentEpoch ++ be_enc 8 issuanceRateMicro.

Definition hashSingletons (singletons : list objectEntry) : bytes := len32 singletons ++ concat (map objectBytes singletons).

Definition hashSupplyTerms (totalSupply coinsTotal feesInFlight : Z) : bytes := be_enc 8 totalSupply ++ be_enc 8 coinsTotal ++ be_enc 8 feesInFlight.

Section Fingerprints.
Context {M : Type} `{Pebble M} (X : Crypto).

Definition collectSingletons (snap : M) (entries : list ObjectTrackerEntry) : list objectEntry :=
  let singletonIDs : gset Hash := list_to_set (map te_ID (filter (fun e => te_Replication e = 0) entries)) in
  sortObjects (omap (fun kv => if negb (Nat.eqb (length (fst kv)) objectKeySize) || isConsensusKey (fst kv) then None
                               else if bool_decide (fst kv ∈ singletonIDs) then Some (mkObjectEntry (fst kv) (snd kv)) else None) (Iterate snap)).

Definition ComputeFingerprint (n : Node M) (disk : M) : Fingerprint :=
  let cut := ExportFingerprintCut n disk in
  let domains := ExportDomains (fc_DBSnapshot cut) in
  let singletons := collectSingletons (fc_DBSnapshot cut) (fc_TrackerEntries cut) in
  let '(trackerInput, deposits) := hashTrackerEntries (fc_TrackerEntries cut) in
  let '(validatorInput, totalBonded) := hashValidators (fc_Validators cut) in
  let input := trackerInput ++ hashDomains domains ++ validatorInput ++ hashEpochChanges (fc_PendingRemovals cut) (fc_EpochAdditions cut) ++
               hashEpochCounters (fc_CurrentEpoch cut) (fc_IssuanceRateMicro cut) ++ hashSingletons singletons ++
               hashSupplyTerms (fc_TotalSupply cut) (fc_CoinsTotal cut) (fc_EpochFees cut) in
  mkFingerprint (fc_Round cut) (blake3 X input) (fc_TotalSupply cut) (fc_CoinsTotal cut) totalBonded deposits (fc_EpochFees cut).

End Fingerprints.
