(* ===== verification/Joined.v ===== *)
(** * A joined node is its source

    The path of internal/sync and cmd/node/sync.go end to end: the cut a node
    exports, packed, applied and constructed from by a fresh joiner, gives the
    same tracker, leases, objects, validators, cursor, decisions and
    fingerprint. *)

From S2P Require Import Prelude Types Fees Validators Stake Thermostat Storage Tracker Ingress Domains Staged Coins Ledger Ops Dag Vertices Anchor Persist Resume Smt Merkle Index Retention Feed Header Commit Epoch Admission Snapshot SnapshotFacts Sync.

(** ** Exports are sorted, without repetition *)

Section Exports.
Context {M : Type} `{Pebble M}.

Lemma Export_keys (ot : M) : map (fun e => makeKey (te_ID e)) (Export ot) `sublist_of` map fst (IteratePrefix ot trackerKeyPrefix).
Proof.
  unfold Export. apply (omap_fst_sublist _ (fun e => makeKey (te_ID e))). intros [k v] x Hin. cbn [fst].
  apply (IteratePrefix_snoc ot [116] 58) in Hin as [_ [id ->]]; [|lia]. unfold exportEntry.
  case_match; [done|]. destruct (if Nat.ltb (length v) 55 then _ else _) as [[kind parent] children]. intros E%(inj Some). by subst x.
Qed.

Lemma Export_NoDup (ot : M) : NoDup (map te_ID (Export ot)).
Proof.
  apply (NoDup_fmap_1 makeKey). rewrite map_map. eapply sublist_NoDup; [apply (db_iter_NoDup ot trackerKeyPrefix (prefixUpperBound trackerKeyPrefix))|].
  apply Export_keys.
Qed.

Lemma ExportDomains_keys (db : M) : map (fun e => domainKey (de_Name e)) (ExportDomains db) `sublist_of` map fst (IteratePrefix db domainKeyPrefix).
Proof.
  unfold ExportDomains. apply (omap_fst_sublist _ (fun e => domainKey (de_Name e))). intros [k v] x Hin. cbn [fst snd].
  apply (IteratePrefix_snoc db [100] 58) in Hin as [_ [name ->]]; [|lia]. destruct (decodeDomainValue v); [|done]. intros E%(inj Some). by subst x.
Qed.

Lemma ExportDomains_NoDup (db : M) : NoDup (map de_Name (ExportDomains db)).
Proof.
  apply (NoDup_fmap_1 domainKey). rewrite map_map. eapply sublist_NoDup; [apply (db_iter_NoDup db domainKeyPrefix (prefixUpperBound domainKeyPrefix))|].
  apply ExportDomains_keys.
Qed.

Lemma bytes_le_prefixed p a b : bytes_le (p ++ a) (p ++ b) <-> bytes_le a b.
Proof. unfold bytes_le. induction p as [|x p IH]; [done|]. cbn [app bytes_leb]. by rewrite Z.ltb_irrefl, Z.eqb_refl. Qed.

Lemma ExportDomains_sorted (db : M) : Sorted (byKey de_Name) (ExportDomains db).
Proof.
  assert (Hs : Sorted bytes_le (map (fun e => domainKey (de_Name e)) (ExportDomains db))).
  { eapply Sorted_sublist; [apply ExportDomains_keys|]. apply (db_iter_sorted db domainKeyPrefix (prefixUpperBound domainKeyPrefix)). }
  apply (Sorted_map_key (fun e => domainKey (de_Name e))) in Hs. induction Hs as [|x l Hs IH Hh]; constructor; [done|].
  inversion_clear Hh as [|? ? Hx]; constructor. unfold byKey in *. by apply (bytes_le_prefixed domainKeyPrefix).
Qed.

Lemma Export_perm (a b : M) T : Rep a T -> Rep b T -> map_Forall (fun id _ => length id = 32%nat) T -> Export a ≡ₚ Export b.
Proof.
  intros Ha Hb Hl. apply NoDup_Permutation; [eapply NoDup_fmap_1, Export_NoDup..|]. intros t.
  by rewrite (Export_spec a T t), (Export_spec b T t).
Qed.

Lemma ExportDomains_perm (a b : M) R : DRep a R -> DRep b R -> ExportDomains a ≡ₚ ExportDomains b.
Proof.
  intros Ha Hb. apply NoDup_Permutation; [eapply NoDup_fmap_1, ExportDomains_NoDup..|]. intros t.
  by rewrite (ExportDomains_spec a R t), (ExportDomains_spec b R t).
Qed.

End Exports.

(** ** The validator set *)

Lemma buildValidatorSet_from vs l :
  vs_ok vs -> NoDup (map Pubkey (validators vs ++ l)) ->
  let vs' := foldl (fun vs v => SetRewardCoin (AddWithStake vs (Pubkey v) (QUICAddr v) (BLSPubkey v) (SelfStake v) (DelegatedTotal v) (Jailed v))
                       (Pubkey v) (RewardCoin v)) vs l in
  vs_ok vs' /\ validators vs' = validators vs ++ l.
Proof.
  cbv zeta. revert vs. induction l as [|v l IH]; intros vs Hok Hn; cbn [foldl]; [by rewrite app_nil_r|].
  assert (Hnew : index vs !! Pubkey v = None).
  { destruct (index vs !! Pubkey v) as [i|] eqn:E; [|done]. apply Hok in E as (w & Hw & Ew). exfalso.
    rewrite map_app in Hn. apply NoDup_app in Hn as (_ & Hd & _). apply (Hd (Pubkey v)); [|by left].
    rewrite <- Ew. apply list_elem_of_fmap_2. by eapply list_elem_of_lookup_2. }
  set (vs1 := SetRewardCoin _ _ _). assert (E1 : vs1 = append vs v).
  { unfold vs1, SetRewardCoin, updateAt, AddWithStake, append. rewrite Hnew. cbn [index validators]. rewrite lookup_insert_eq. cbn [fst].
    f_equal. rewrite alter_app_r_alt by lia. rewrite Nat.sub_diag. by destruct v. }
  rewrite E1. destruct (IH (append vs v)) as [H1 H2].
  - by apply append_ok.
  - cbn [append validators]. by rewrite <- app_assoc.
  - split; [done|]. rewrite H2. cbn [append validators]. by rewrite <- app_assoc.
Qed.

Lemma empty_set_ok : vs_ok (NewValidatorSet []).
Proof. intros pk i. cbn. split; [by rewrite lookup_empty|]. intros (v & Hv & _). by rewrite lookup_nil in Hv. Qed.

Lemma joined_validators l : NoDup (map Pubkey l) -> vs_ok (buildValidatorSetFromSnapshot l) /\ validators (buildValidatorSetFromSnapshot l) = l.
Proof. intros Hn. apply (buildValidatorSet_from (NewValidatorSet []) l empty_set_ok). exact Hn. Qed.

(** ** Importing *)

Section Imports.
Context {M : Type} `{Pebble M}.

Lemma Import_Rep (fresh : M) entries T :
  wf_tracker T -> (forall t : ObjectTrackerEntry, t ∈ entries <-> exists (id : Hash) (e : Entry), T !! id = Some e /\ t = Tracker.entryOf id e) ->
  (forall id, db_map fresh !! makeKey id = None) -> Rep (Import fresh entries) T.
Proof.
  intros Hw He Hf. split; [done|]. intros id. unfold Import. rewrite SetBatch_map.
  destruct (foldl_insert_In (map importPair entries) (db_map fresh) (makeKey id)) as [(v & Hin & ->)|[Hno ->]].
  - apply list_elem_of_fmap in Hin as (t & Hkv & Ht). apply He in Ht as (id' & e & Ht & ->).
    rewrite importPair_entryOf in Hkv. injection Hkv as Hk ->. subst. by rewrite Ht.
  - rewrite Hf. destruct (T !! id) as [e|] eqn:E; [|done]. exfalso. apply (Hno (encodeEntry e)).
    apply list_elem_of_fmap. exists (Tracker.entryOf id e). split; [done|]. apply He. eauto.
Qed.

Lemma Import_other (db : M) entries k : hasPrefix k prefixTracker = false -> db_map (Import db entries) !! k = db_map db !! k.
Proof.
  intros Hk. unfold Import. rewrite SetBatch_map.
  destruct (foldl_insert_In (map importPair entries) (db_map db) k) as [(v & Hin & _)|[_ ->]]; [|done]. exfalso.
  apply list_elem_of_fmap in Hin as (t & Hkv & _). unfold importPair in Hkv. injection Hkv as -> _. by rewrite (proj2 (hasPrefix_spec _ _)) in Hk by (by eexists).
Qed.

Lemma ImportDomains_DRep (fresh : M) entries R :
  map_Forall (fun _ l => wf_leaf l) R -> (forall e : DomainEntry, e ∈ entries <-> R !! de_Name e = Some (de_Leaf e)) ->
  (forall name, db_map fresh !! domainKey name = None) -> DRep (ImportDomains fresh entries) R.
Proof.
  intros Hw He Hf. split; [done|]. intros name. unfold ImportDomains. rewrite SetBatch_map.
  destruct (foldl_insert_In (map (fun e => (domainKey (de_Name e), encodeDomainValue (de_Leaf e))) entries) (db_map fresh) (domainKey name)) as [(v & Hin & ->)|[Hno ->]].
  - apply list_elem_of_fmap in Hin as (t & Hkv & Ht). injection Hkv as Hk ->. subst name. apply He in Ht. by rewrite Ht.
  - rewrite Hf. destruct (R !! name) as [l|] eqn:E; [|done]. exfalso. apply (Hno (encodeDomainValue l)).
    apply list_elem_of_fmap. exists (mkDomainEntry name l). split; [done|]. by apply He.
Qed.

Lemma ImportDomains_other (db : M) entries k : hasPrefix k prefixDomain = false -> db_map (ImportDomains db entries) !! k = db_map db !! k.
Proof.
  intros Hk. unfold ImportDomains. rewrite SetBatch_map.
  destruct (foldl_insert_In (map (fun e => (domainKey (de_Name e), encodeDomainValue (de_Leaf e))) entries) (db_map db) k) as [(v & Hin & _)|[_ ->]]; [|done]. exfalso.
  apply list_elem_of_fmap in Hin as (t & Hkv & _). injection Hkv as -> _. by rewrite (proj2 (hasPrefix_spec _ _)) in Hk by (by eexists).
Qed.

Lemma carried_consensus (src : M) k : isConsensusKey k = true -> carried src !! k = None.
Proof.
  intros Hc. apply map_lookup_filter_None. right. intros v _. unfold carries. cbn [fst snd]. destruct (consensus_key_free k Hc) as [-> ->]. done.
Qed.

Lemma carried_object (src : M) k : objectKey k = true -> carried src !! k = db_map src !! k.
Proof.
  intros Hk. unfold carried. rewrite map_lookup_filter. destruct (db_map src !! k) as [v|]; [|done]. cbn. rewrite option_guard_True; [done|].
  unfold carries. cbn [fst]. by rewrite Hk.
Qed.

Lemma carried_other (src : M) k : objectKey k = false -> signatureKey k = false -> carried src !! k = None.
Proof. intros Ho Hs. apply map_lookup_filter_None. right. intros v _. unfold carries. cbn [fst snd]. by rewrite Ho, Hs. Qed.

End Imports.

(** ** From a source to a joiner *)

Section Joiner.
Context {M : Type} `{Pebble M} (X : Crypto) `{!Digest (blake3 X)} (c : Config) (decodeObject : bytes -> Object).

(** What holds of a source: its store is the image of a tracker and a registry, and
    every field of its state fits its width. *)
Record sourceOk (n : Node M) (disk : M) (T : gmap Hash Entry) (R : gmap bytes domainLeafView) (st : CoinStore) : Prop := {
  so_tracker : Rep (l_tracker (d_ledger (n_dag n))) T;
  so_disk : Rep disk T;
  so_ids : map_Forall (fun id _ => length id = 32%nat) T;
  so_domains : DRep disk R;
  so_bytes : map_Forall (fun _ v => wf_bytes v) (db_map disk);
  so_set : vs_ok (l_validators (d_ledger (n_dag n)));
  so_validators : Forall validatorOk (All (l_validators (d_ledger (n_dag n))));
  so_coins : l_coins (d_ledger (n_dag n)) = Some st;
  so_regime : regimeOk (n_dag n);
  so_published : published (n_dag n);
  so_blob : Z.of_nat (length (encodeRegimeState (n_dag n))) < two32;
  so_cursor : 0 < n_lastCommitted n < two64;
}.

(** A store that holds nothing a snapshot could bring. *)
Definition freshDisk (disk : M) : Prop :=
  forall k, objectKey k || signatureKey k || hasPrefix k prefixTracker || hasPrefix k prefixDomain = true -> db_map disk !! k = None.

Lemma set_NoDup vs : vs_ok vs -> NoDup (map Pubkey (validators vs)).
Proof.
  intros Hok. apply NoDup_alt. intros i j pk Hi Hj. apply list_lookup_fmap_Some in Hi as (v & -> & Hv), Hj as (w & E & Hw).
  assert (Hi : index vs !! Pubkey v = Some i) by (apply Hok; eauto). assert (Hj : index vs !! Pubkey v = Some j) by (apply Hok; eauto). congruence.
Qed.

Lemma source_exportOk n disk T R st :
  sourceOk n disk T R st -> exportOk (All (l_validators (d_ledger (n_dag n)))) (Export (l_tracker (d_ledger (n_dag n)))) (ExportDomains disk).
Proof.
  intros [Ht Hd Hids HR Hb Hs Hv _ _ _ _ _]. split; [done|by apply set_NoDup|apply Export_NoDup| |apply ExportDomains_NoDup|apply ExportDomains_sorted|].
  - apply Forall_forall. intros t Hin. apply (Export_spec _ T t Ht Hids) in Hin as (id & e & He & ->). cbn. split; [by apply (Hids id e)|].
    destruct Ht as [Hw _]. apply (Hw id e He).
  - apply Forall_forall. intros e He. apply (ExportDomains_spec _ R e HR) in He. destruct HR as [Hw _]. destruct (Hw _ _ He). done.
Qed.

(** The snapshot a source's manager packs. *)
Definition sourceSnapshot (n : Node M) (disk : M) : Snapshot :=
  let cut := ExportConsistentCut n disk vertexHistoryRounds in
  CreateSnapshot X (cc_DBSnapshot cut) (lastDecidedRound (cc_Cursor cut)) (cc_Validators cut) (cc_Vertices cut) (cc_TrackerEntries cut)
    (ExportDomains (cc_DBSnapshot cut)) (cc_Supply cut) (cc_CoinsTotal cut) (cc_IssuanceRate cut) (cc_Regime cut).

(** The joiner's store before its consensus is built: the carried pairs and the leases. *)
Lemma received n disk T R st fresh st0 :
  sourceOk n disk T R st ->
  exists result disk1 db',
    ApplySnapshot X fresh (sourceSnapshot n disk) = inr db' /\ db_map db' = carried disk ∪ db_map fresh /\
    applyReceived X decodeObject fresh st0 (sourceSnapshot n disk) =
      inr (result, disk1, SetCoinsTotal (SetTotalSupply (set_objects st0 (objectsOn decodeObject disk1)) (cs_supply st)) (cs_coins st)) /\
    db_map disk1 = db_map (ImportDomains db' (ExportDomains disk)) /\
    result = mkResult (lastDecidedRound (n_lastCommitted n)) (sortValidatorInfos (All (l_validators (d_ledger (n_dag n)))))
               (ExportVertices (n_store n) (if vertexHistoryRounds <? n_round n then n_round n -w vertexHistoryRounds else 0) (n_round n))
               (sortTrackerEntries (Export (l_tracker (d_ledger (n_dag n))))) (ExportDomains disk)
               (issuanceRateMicro (d_rewards (n_dag n))) (ExtractRegimeState (sourceSnapshot n disk)).
Proof using Digest0.
  intros Hs. pose proof (source_exportOk _ _ _ _ _ Hs) as Hx.
  destruct (snap_result X disk (lastDecidedRound (n_lastCommitted n)) _ (ExportVertices (n_store n) (if vertexHistoryRounds <? n_round n then n_round n -w vertexHistoryRounds else 0) (n_round n))
    _ _ (TotalSupply n) (CoinsTotal n) (issuanceRateMicro (d_rewards (n_dag n))) (encodeRegimeState (n_dag n)) Hx fresh (so_bytes _ _ _ _ _ Hs)) as (db' & Ha & Hm).
  change (CreateSnapshot X disk _ _ _ _ _ _ _ _ _) with (sourceSnapshot n disk) in Ha.
  unfold applyReceived. rewrite Ha. eexists _, _, db'. split; [done|]. split; [done|].
  assert (Et : TotalSupply n = cs_supply st) by (unfold TotalSupply; by rewrite (so_coins _ _ _ _ _ Hs)).
  assert (Ec : CoinsTotal n = cs_coins st) by (unfold CoinsTotal; by rewrite (so_coins _ _ _ _ _ Hs)).
  split; [rewrite <- Et, <- Ec; done|]. cbn [sr_domainEntries].
  unfold sourceSnapshot. cbv zeta. cbn [ExportConsistentCut cc_DBSnapshot cc_Cursor cc_Validators cc_Vertices cc_TrackerEntries cc_Supply cc_CoinsTotal cc_IssuanceRate cc_Regime].
  rewrite snap_domains by done. rewrite snap_validators by done. rewrite snap_tracker by done. split; [|done].
  destruct (ExportDomains disk) as [|e l]; [done|]. done.
Qed.

(** ** The joiner's consensus *)

Lemma import_vertices_frame (n : Node M) entries :
  n_dag (importVerticesLocked n entries) = n_dag n /\ n_lastCommitted (importVerticesLocked n entries) = n_lastCommitted n.
Proof.
  unfold importVerticesLocked. destruct (Nat.eqb _ _); [done|]. destruct (ImportVertices (n_store n) entries) as [s maxRound].
  unfold updateRound. destruct (_ <=? _); done.
Qed.

Lemma import_tracker_frame (n : Node M) entries :
  n_dag (importTrackerEntriesLocked n entries) =
    set_ledger (n_dag n) (set_tracker (d_ledger (n_dag n)) (Import (l_tracker (d_ledger (n_dag n))) entries)) /\
  n_lastCommitted (importTrackerEntriesLocked n entries) = n_lastCommitted n.
Proof.
  unfold importTrackerEntriesLocked. destruct entries as [|e l]; [|done]. cbn [length Nat.eqb]. split; [|done].
  unfold Import. cbn [map SetBatch foldl]. unfold set_ledger, set_tracker. destruct (n_dag n) as [[] ? ? ?]. done.
Qed.

Lemma enterTransition_frame (d : DAG M) r :
  d_ledger (enterTransition d r) = d_ledger d /\ d_epochs (enterTransition d r) = d_epochs d /\ d_rewards (enterTransition d r) = d_rewards d.
Proof. unfold enterTransition. by destruct (_ =? _). Qed.

(** Construction leaves the pending buffer and the metadata alone. *)
Lemma constructed_frame disk1 st1 s0 result :
  let j := fst (initConsensusForValidator X c disk1 st1 ∅ s0 ∅ ∅ result) in n_pending j = ∅ /\ n_db j = ∅.
Proof.
  cbv zeta. unfold initConsensusForValidator, New. cbn [fst foldl].
  match goal with |- context [WithLastCommittedRound _ ?x] => set (n0 := x) end.
  assert (H0 : n_pending n0 = ∅ /\ n_db n0 = ∅) by done. clearbody n0.
  assert (Ht : forall n : Node M, n_pending n = ∅ /\ n_db n = ∅ -> n_pending (WithImportData c (sr_vertices result) (sr_trackerEntries result) n) = ∅ /\ n_db (WithImportData c (sr_vertices result) (sr_trackerEntries result) n) = ∅).
  { intros n Hn. unfold WithImportData, importTrackerEntriesLocked, importVerticesLocked. destruct (ImportVertices (n_store n) (sr_vertices result)).
    unfold updateRound. repeat case_match; done. }
  assert (Hr : forall n : Node M, n_pending n = ∅ /\ n_db n = ∅ -> n_pending (WithSyncedRegimeState (sr_regimeState result) n) = ∅ /\ n_db (WithSyncedRegimeState (sr_regimeState result) n) = ∅).
  { intros n Hn. unfold WithSyncedRegimeState. repeat case_match; done. }
  apply Hr. specialize (Ht (WithLastCommittedRound (sr_lastCommittedRound result) n0) H0). exact Ht.
Qed.

Lemma joined_dag n disk T R st disk1 st1 s0 result :
  sourceOk n disk T R st -> sr_lastCommittedRound result = lastDecidedRound (n_lastCommitted n) ->
  sr_issuanceRateMicro result = issuanceRateMicro (d_rewards (n_dag n)) -> sr_regimeState result = ExtractRegimeState (sourceSnapshot n disk) ->
  let j := fst (initConsensusForValidator X c disk1 st1 ∅ s0 ∅ ∅ result) in
  n_lastCommitted j = n_lastCommitted n /\
  exists d1, freshAccumulators d1 /\ issuanceRateMicro (d_rewards d1) = issuanceRateMicro (d_rewards (n_dag n)) /\
    d_ledger d1 = mkLedger (Import disk1 (sr_trackerEntries result)) (Some disk1) (Some st1) (buildValidatorSetFromSnapshot (sr_validators result)) (Some []) [] /\
    n_dag j = adopted d1 (n_dag n).
Proof.
  intros Hs E1 E2 E3. cbv zeta. destruct result as [lc vals verts ents doms rate reg]. cbn [sr_lastCommittedRound sr_issuanceRateMicro sr_regimeState] in *. subst lc rate reg.
  assert (Er : ExtractRegimeState (sourceSnapshot n disk) = Some (encodeRegimeState (n_dag n)) /\ length (encodeRegimeState (n_dag n)) <> 0%nat).
  { assert (Hl : length (encodeRegimeState (n_dag n)) <> 0%nat) by (rewrite encodeRegimeState_lp, !length_app, length_be_enc; lia).
    split; [|done]. unfold ExtractRegimeState. change (sn_EpochState (sourceSnapshot n disk)) with (encodeRegimeState (n_dag n)).
    by rewrite (proj2 (Nat.eqb_neq _ _) Hl). }
  destruct Er as [Er Hl]. unfold initConsensusForValidator, New. cbn [fst foldl sr_lastCommittedRound sr_vertices sr_trackerEntries sr_issuanceRateMicro sr_regimeState sr_validators].
  rewrite Er. unfold WithSyncedRegimeState. rewrite (proj2 (Nat.eqb_neq _ _) Hl).
  set (L := mkLedger disk1 (Some disk1) (Some st1) (buildValidatorSetFromSnapshot vals) (Some []) []).
  match goal with |- context [WithLastCommittedRound _ ?x] => set (n0 := x) end.
  assert (Hd0 : n_dag n0 = mkDAG L (mkRegime ∅ ∅ false 0 (-1) false false false) (mkEpochs 0 None None None None None None None ∅ []) (mkRewards ∅ ∅ 0)) by done.
  clearbody n0. set (n1 := WithLastCommittedRound _ n0).
  assert (Hc1 : n_lastCommitted n1 = n_lastCommitted n).
  { unfold n1, WithLastCommittedRound. cbn [n_lastCommitted set_node]. pose proof (so_cursor _ _ _ _ _ Hs) as Hc. unfold lastDecidedRound.
    destruct (Z.eqb_spec (n_lastCommitted n) 0); [lia|]. unfold add64, u64. rewrite Z.mod_small by lia. lia. }
  assert (Hd1 : n_dag n1 = n_dag n0) by done. clearbody n1.
  set (n2 := WithImportData c verts ents n1).
  assert (Hn2 : n_lastCommitted n2 = n_lastCommitted n /\ d_ledger (n_dag n2) = set_tracker L (Import disk1 ents) /\
    d_epochs (n_dag n2) = d_epochs (n_dag n0) /\ d_rewards (n_dag n2) = d_rewards (n_dag n0)).
  { unfold n2, WithImportData. destruct (import_vertices_frame n1 verts) as [Hv1 Hv2]. destruct (import_tracker_frame (importVerticesLocked n1 verts) ents) as [Ht1 Ht2].
    cbv zeta. set (m := importTrackerEntriesLocked _ _) in *.
    assert (Hm : n_lastCommitted m = n_lastCommitted n /\ d_ledger (n_dag m) = set_tracker L (Import disk1 ents) /\
      d_epochs (n_dag m) = d_epochs (n_dag n0) /\ d_rewards (n_dag m) = d_rewards (n_dag n0)).
    { rewrite Ht1, Ht2, Hv1, Hv2, Hd1, Hd0. done. }
    destruct (_ && _); [|done]. cbn [with_dag_ set_node n_lastCommitted n_dag]. destruct (enterTransition_frame (n_dag m) (n_lastCommitted m)) as (-> & -> & ->). done. }
  clearbody n2. destruct Hn2 as (H1 & H2 & H3 & H4). cbn [with_dag_ set_node n_lastCommitted n_dag WithIssuanceRate]. split; [done|].
  set (d1 := set_rewards (n_dag n2) _). exists d1.
  assert (Hf : freshAccumulators d1) by (unfold freshAccumulators, d1, set_rewards; cbn [d_rewards d_epochs epochFees epochRoundsProduced]; by rewrite H3, H4, Hd0).
  split_and!; [done|done|exact H2|]. apply regime_transfer; [apply (so_regime _ _ _ _ _ Hs)|done|apply (so_blob _ _ _ _ _ Hs)].
Qed.

(** ** The joiner's store *)

Lemma fresh_none (fresh : M) k :
  freshDisk fresh -> objectKey k = true \/ signatureKey k = true \/ hasPrefix k prefixTracker = true \/ hasPrefix k prefixDomain = true -> db_map fresh !! k = None.
Proof. intros Hf Hk. apply Hf. destruct Hk as [->|[->|[->| ->]]]; by rewrite ?orb_true_r. Qed.

Lemma tracker_prefix id : hasPrefix (makeKey id) prefixTracker = true.
Proof. apply hasPrefix_spec. by exists id. Qed.

Lemma domain_prefix name : hasPrefix (domainKey name) prefixDomain = true.
Proof. apply hasPrefix_spec. by exists name. Qed.

Lemma consensus_of_prefix k : hasPrefix k prefixTracker = true \/ hasPrefix k prefixDomain = true -> isConsensusKey k = true.
Proof. unfold isConsensusKey. intros [->| ->]; by rewrite ?orb_true_r. Qed.

Lemma object_no_prefix k : objectKey k = true -> hasPrefix k prefixTracker = false /\ hasPrefix k prefixDomain = false.
Proof.
  intros Hk. split; apply not_true_is_false; intros Hp; destruct (consensus_key_free k) as [Ho _]; try congruence; apply consensus_of_prefix; first [left; exact Hp|right; exact Hp].
Qed.

Section Disk.
Context (n : Node M) (disk : M) (T : gmap Hash Entry) (R : gmap bytes domainLeafView) (st : CoinStore) (fresh db' disk1 : M) (entries : list ObjectTrackerEntry).
Context (Hs : sourceOk n disk T R st) (Hf : freshDisk fresh) (Hdb : db_map db' = carried disk ∪ db_map fresh)
  (Hd1 : db_map disk1 = db_map (ImportDomains db' (ExportDomains disk))) (He : entries = sortTrackerEntries (Export (l_tracker (d_ledger (n_dag n))))).

Lemma db'_consensus k : hasPrefix k prefixTracker = true \/ hasPrefix k prefixDomain = true -> db_map db' !! k = None.
Proof using Hf Hdb.
  intros Hk. rewrite Hdb, lookup_union_None. split; [by apply carried_consensus, consensus_of_prefix|]. apply (fresh_none fresh k Hf). right; right. exact Hk.
Qed.

Lemma joined_tracker : Rep (Import disk1 entries) T.
Proof using Hs Hf Hdb Hd1 He.
  pose proof (so_tracker _ _ _ _ _ Hs) as Ht. apply Import_Rep; [apply Ht| |].
  - intros t. rewrite He. unfold sortTrackerEntries. rewrite elem_of_sortBy. by apply Export_spec, (so_ids _ _ _ _ _ Hs).
  - intros id. rewrite Hd1, ImportDomains_other; [apply db'_consensus; left; apply tracker_prefix|]. done.
Qed.

Lemma joined_domains : DRep (Import disk1 entries) R.
Proof using Hs Hf Hdb Hd1 He.
  pose proof (so_domains _ _ _ _ _ Hs) as Hd. assert (Hi : DRep (ImportDomains db' (ExportDomains disk)) R).
  { apply ImportDomains_DRep; [apply Hd|by intros e; apply ExportDomains_spec|]. intros name. apply db'_consensus. right. apply domain_prefix. }
  split; [apply Hd|]. intros name. rewrite Import_other by done. rewrite Hd1. apply Hi.
Qed.

Lemma joined_objects k : objectKey k = true -> db_map (Import disk1 entries) !! k = db_map disk !! k.
Proof using Hs Hf Hdb Hd1 He.
  intros Hk. destruct (object_no_prefix k Hk) as [H1 H2]. rewrite Import_other by done. rewrite Hd1, ImportDomains_other by done.
  rewrite Hdb. rewrite <- (carried_object disk k Hk). destruct (carried disk !! k) as [v|] eqn:E; [by apply lookup_union_Some_l|].
  rewrite lookup_union_r by done. apply (fresh_none fresh k Hf). left. exact Hk.
Qed.

Lemma joined_others k :
  objectKey k = false -> signatureKey k = false -> hasPrefix k prefixTracker = false -> hasPrefix k prefixDomain = false ->
  db_map (Import disk1 entries) !! k = db_map fresh !! k.
Proof using Hs Hf Hdb Hd1 He.
  intros H1 H2 H3 H4. rewrite Import_other by done. rewrite Hd1, ImportDomains_other by done. rewrite Hdb. by rewrite lookup_union_r by (by apply carried_other).
Qed.

End Disk.

(** ** The fingerprint *)

Lemma singletons_same (a b : M) ea eb :
  (forall k, objectKey k = true -> db_map a !! k = db_map b !! k) -> ea ≡ₚ eb -> collectSingletons a ea = collectSingletons b eb.
Proof.
  intros Hab Hp. unfold collectSingletons, sortObjects.
  set (f := fun ids : gset Hash => fun kv : bytes * bytes => if negb (Nat.eqb (length (fst kv)) objectKeySize) || isConsensusKey (fst kv) then None
              else if bool_decide (fst kv ∈ ids) then Some (mkObjectEntry (fst kv) (snd kv)) else None).
  set (ia := list_to_set (map te_ID (filter (fun e => te_Replication e = 0) ea)) : gset Hash).
  assert (Ei : (list_to_set (map te_ID (filter (fun e => te_Replication e = 0) eb)) : gset Hash) = ia) by (unfold ia; apply leibniz_equiv; by rewrite Hp).
  rewrite Ei. change (sortBy oe_id (omap (f ia) (Iterate a)) = sortBy oe_id (omap (f ia) (Iterate b))).
  assert (Hspec : forall (src : M) o, o ∈ omap (f ia) (Iterate src) <-> objectKey (oe_id o) = true /\ oe_id o ∈ ia /\ db_map src !! oe_id o = Some (oe_data o)).
  { intros src o. rewrite list_elem_of_omap. unfold f, objectKey. split.
    - intros ([k v] & Hin & Hf). apply Iterate_spec in Hin. cbn [fst snd] in Hf. destruct (Nat.eqb (length k) objectKeySize) eqn:El; [|done].
      destruct (isConsensusKey k) eqn:Ec; [done|]. cbn [negb orb] in Hf. case_bool_decide as Hi; [|done]. injection Hf as <-. cbn [oe_id oe_data]. by rewrite El, Ec.
    - intros (Hk & Hi & Hv). apply andb_true_iff in Hk as [Hl Hc]. apply negb_true_iff in Hc. exists (oe_id o, oe_data o).
      split; [by apply Iterate_spec|]. cbn [fst snd]. rewrite Hl, Hc. cbn [negb orb]. rewrite bool_decide_true by done. by destruct o. }
  assert (Hnd : forall src : M, NoDup (map oe_id (omap (f ia) (Iterate src)))).
  { intros src. eapply sublist_NoDup; [apply (db_iter_NoDup src [] None)|]. apply omap_fst_sublist. intros [k v] x _. unfold f. cbn [fst snd].
    repeat case_match; try done. by intros [= <-]. }
  apply sortBy_proper; [done|]. apply NoDup_Permutation; [eapply NoDup_fmap_1, Hnd..|].
  intros o. rewrite !Hspec. split; intros (Hk & Hi & Hv); split_and!; try done; [by rewrite <- Hab|by rewrite Hab].
Qed.

(** ** The exchange *)

Section Exchange.
Context {Blob : Type} (compress : Snapshot -> Blob) (decompress : Blob -> option Snapshot) (blobEmpty : Blob -> bool).

(** What zstd and FlatBuffers promise: the packed data reads back and is not empty. *)
Definition packs : Prop := forall s, decompress (compress s) = Some s /\ blobEmpty (compress s) = false.

Lemma requested n disk counter :
  packs -> snd (RequestSnapshot decompress blobEmpty counter (fun id => HandleSnapshotRequest id (createSnapshot compress X NewSnapshotManager (n_round n) n disk)))
    = Some (sourceSnapshot n disk).
Proof.
  intros Hp. unfold RequestSnapshot, HandleSnapshotRequest, createSnapshot. cbn [snd NewSnapshotManager sm_current sm_round].
  rewrite bool_decide_false, andb_false_r by (by intros [? ?]). cbn [sm_current]. rewrite Z.eqb_refl. cbn [negb].
  change (CreateSnapshot X _ _ _ _ _ _ _ _ _ _) with (sourceSnapshot n disk). destruct (Hp (sourceSnapshot n disk)) as [Hd He]. by rewrite He, Hd.
Qed.

(** A fresh joiner that asks a source for its snapshot and builds its consensus from it
    has the source's tracker, leases, objects, validators, supply counters and cursor, and
    decides every round as the source does on every store. *)

(** C24. A node with a directory free of objects, signatures, tracker entries and leases
    that joins an honest source with a committed cursor above zero and a published epoch,
    through the packed snapshot (packing reads back), its checks and the options of its
    construction, holds the source's tracker entries, domain leases, validators, supply
    counters and cursor, holds every object whose 32-byte ID carries no consensus prefix,
    and gives the anchor of every round, over any vertex store, the status the source
    gives it. *)
Theorem joiner_resumes_the_source n disk T R st fresh st0 s0 counter :
  packs -> sourceOk n disk T R st -> freshDisk fresh ->
  exists snap result disk1 st1,
    snd (RequestSnapshot decompress blobEmpty counter (fun id => HandleSnapshotRequest id (createSnapshot compress X NewSnapshotManager (n_round n) n disk))) = Some snap /\
    applyReceived X decodeObject fresh st0 snap = inr (result, disk1, st1) /\
    let j := fst (initConsensusForValidator X c disk1 st1 ∅ s0 ∅ ∅ result) in
    let disk' := l_tracker (d_ledger (n_dag j)) in
    Rep disk' T /\ DRep disk' R /\ (forall k, objectKey k = true -> db_map disk' !! k = db_map disk !! k) /\
    vs_ok (l_validators (d_ledger (n_dag j))) /\ All (l_validators (d_ledger (n_dag j))) ≡ₚ All (l_validators (d_ledger (n_dag n))) /\
    TotalSupply j = TotalSupply n /\ CoinsTotal j = CoinsTotal n /\ n_lastCommitted j = n_lastCommitted n /\
    (forall s round, anchorStatus X c (n_dag j) s round = anchorStatus X c (n_dag n) s round).
Proof using Digest0.
  intros Hp Hs Hf. destruct (received n disk T R st fresh st0 Hs) as (result & disk1 & db' & _ & Hdb & Ha & Hd1 & Er).
  exists (sourceSnapshot n disk), result, disk1, (SetCoinsTotal (SetTotalSupply (set_objects st0 (objectsOn decodeObject disk1)) (cs_supply st)) (cs_coins st)).
  split; [by apply requested|]. split; [done|]. cbv zeta. set (st1 := SetCoinsTotal _ _).
  destruct (joined_dag n disk T R st disk1 st1 s0 result Hs) as (Hc & d1 & Hfr & _ & HL & Hd); [by rewrite Er..|].
  assert (Et : sr_trackerEntries result = sortTrackerEntries (Export (l_tracker (d_ledger (n_dag n))))) by (by rewrite Er).
  assert (Ev : sr_validators result = sortValidatorInfos (All (l_validators (d_ledger (n_dag n))))) by (by rewrite Er).
  set (j := fst _) in *. assert (HLj : d_ledger (n_dag j) = d_ledger d1) by (by rewrite Hd). unfold TotalSupply, CoinsTotal. rewrite HLj, HL. cbn [l_tracker l_validators l_coins].
  destruct (joined_validators (sr_validators result)) as [V1 V2]; [rewrite Ev; unfold sortValidatorInfos; rewrite sortBy_perm; apply set_NoDup, (so_set _ _ _ _ _ Hs)|].
  split_and!; try done.
  - by eapply joined_tracker.
  - by eapply joined_domains.
  - intros k Hk. by eapply joined_objects.
  - unfold All at 1. rewrite V2, Ev. apply sortBy_perm.
  - by rewrite (so_coins _ _ _ _ _ Hs).
  - by rewrite (so_coins _ _ _ _ _ Hs).
  - intros s round. rewrite Hd. by apply adopted_decides, (so_published _ _ _ _ _ Hs).
Qed.

(** The joiner's convergence fingerprint is the source's. *)

(** Source and joiner compute the same convergence fingerprint at the cut, field by
    field. *)
Theorem joiner_fingerprint_agrees n disk T R st fresh st0 s0 :
  sourceOk n disk T R st -> freshDisk fresh ->
  exists result disk1 st1,
    applyReceived X decodeObject fresh st0 (sourceSnapshot n disk) = inr (result, disk1, st1) /\
    let j := fst (initConsensusForValidator X c disk1 st1 ∅ s0 ∅ ∅ result) in
    ComputeFingerprint X j (l_tracker (d_ledger (n_dag j))) = ComputeFingerprint X n disk.
Proof using Digest0.
  intros Hs Hf. destruct (received n disk T R st fresh st0 Hs) as (result & disk1 & db' & _ & Hdb & Ha & Hd1 & Er).
  exists result, disk1, (SetCoinsTotal (SetTotalSupply (set_objects st0 (objectsOn decodeObject disk1)) (cs_supply st)) (cs_coins st)).
  split; [done|]. cbv zeta. set (st1 := SetCoinsTotal _ _).
  destruct (joined_dag n disk T R st disk1 st1 s0 result Hs) as (Hc & d1 & Hfr & Hrate & HL & Hd); [by rewrite Er..|].
  assert (Et : sr_trackerEntries result = sortTrackerEntries (Export (l_tracker (d_ledger (n_dag n))))) by (by rewrite Er).
  assert (Ev : sr_validators result = sortValidatorInfos (All (l_validators (d_ledger (n_dag n))))) by (by rewrite Er).
  set (j := fst _) in *. assert (HLj : d_ledger (n_dag j) = d_ledger d1) by (by rewrite Hd).
  assert (Hnd : NoDup (map Pubkey (All (l_validators (d_ledger (n_dag n)))))) by (apply set_NoDup, (so_set _ _ _ _ _ Hs)).
  destruct (joined_validators (sr_validators result)) as [V1 V2]; [rewrite Ev; unfold sortValidatorInfos; by rewrite sortBy_perm|].
  assert (HT : Rep (Import disk1 (sr_trackerEntries result)) T) by (by eapply joined_tracker).
  assert (HR : DRep (Import disk1 (sr_trackerEntries result)) R) by (by eapply joined_domains).
  assert (Hexp : Export (Import disk1 (sr_trackerEntries result)) ≡ₚ Export (l_tracker (d_ledger (n_dag n)))) by (eapply Export_perm; [done|apply Hs..]).
  unfold ComputeFingerprint, ExportFingerprintCut. cbv zeta.
  cbn [fc_Round fc_TrackerEntries fc_Validators fc_PendingRemovals fc_EpochAdditions fc_CurrentEpoch fc_IssuanceRateMicro fc_EpochFees fc_TotalSupply fc_CoinsTotal fc_DBSnapshot].
  unfold totalEpochFees, TotalSupply, CoinsTotal. rewrite HLj, HL, Hc, Hd. cbn [l_tracker l_validators l_coins]. unfold All at 1.
  rewrite V2, Ev, (so_coins _ _ _ _ _ Hs). cbn [adopted d_epochs d_rewards pendingRemovals epochAdditions currentEpoch epochFees issuanceRateMicro]. rewrite Hrate.
  rewrite (singletons_same (Import disk1 (sr_trackerEntries result)) disk (Export (Import disk1 (sr_trackerEntries result))) (Export (l_tracker (d_ledger (n_dag n)))));
    [|intros k Hk; by eapply joined_objects|done].
  unfold hashTrackerEntries, hashValidators, hashDomains, sortTrackerEntries, sortValidatorInfos, sortDomainEntries.
  rewrite (sortBy_proper te_ID _ _ (Export_NoDup _) Hexp), (sortBy_twice Pubkey _ Hnd), (sortBy_proper de_Name _ _ (ExportDomains_NoDup _) (ExportDomains_perm _ _ R HR (so_domains _ _ _ _ _ Hs))).
  unfold sortedAdditions. rewrite length_sortHashes, (sortHashes_proper (sortHashes _) _ (sortHashes_perm _)). done.
Qed.

End Exchange.
End Joiner.
