(* ===== verification/Gate.v ===== *)
(** * The whole join (cmd/node/sync.go)

    [performSync] on the snapshot and the vertices received: apply, construct,
    replay, purge, verify, and only then mark the directory as the node's own.
    The commit loop is idle until the state is verified; [polls] is what the gate
    sees while the node keeps receiving. *)

From S2P Require Import Prelude Types Fees Validators Stake Thermostat Storage Tracker Ingress Domains Staged Coins Ledger Ops Dag Vertices Anchor Persist Resume Smt Merkle Index Retention Feed Header Commit Epoch Admission Cursor Restart Wire LightClient Bundle Snapshot SnapshotFacts Sync Joined.

Inductive syncError := SyncSnapshot (e : snapshotError) | SyncJoin (e : joinError).

Section Gate.
Context {M : Type} `{Pebble M} (E : Env M) (c : Config) (k : NodeConfig) (bodyBytes : BodyEncoder) (decodeObject : bytes -> Object).

(** [replayBufferedVertices]: the node and how many vertices were fit to relay. *)
Fixpoint replayBufferedVertices (n : Node M) (now : Z) (vertices : list Vertex) : option (Node M * nat) :=
  match vertices with
  | [] => Some (n, 0%nat)
  | v :: vertices =>
      r ← AddVertex E c k bodyBytes n now v;
      rest ← replayBufferedVertices (fst r) now vertices;
      Some (fst rest, if snd r : bool then S (snd rest) else snd rest)
  end.

(** The outer [None] is a panic. *)
Definition performSync (fresh : M) (st : CoinStore) (s : store) (snap : Snapshot) (buffered : list Vertex) (now : Z)
    (cfg : option trustCheckpoint) (insecureBootstrap : bool) (polls : list (JoinView (M := M))) : option (syncError + (Node M * DB)) :=
  match applyReceived (crypto E) decodeObject fresh st snap with
  | inl e => Some (inl (SyncSnapshot e))
  | inr (result, disk, st) =>
      let '(n, index) := initConsensusForValidator (crypto E) c disk st ∅ s ∅ ∅ result in
      m ← index;
      let rebuiltFrontier := fst (CommittedFrontier m) in
      r ← replayBufferedVertices n now buffered;
      let minRound := snapshotMinRound (sr_vertices result) in
      let n := if 0 <? minRound then fst (PurgePendingBeforeRound (fst r) minRound) else fst r in
      err ← verifySyncedState (crypto E) c cfg insecureBootstrap (n_dag n) rebuiltFrontier polls;
      match err with
      | Some e => Some (inl (SyncJoin e))
      | None => Some (inr (n, MarkStateAdopted (n_db n)))
      end
  end.

Lemma verifySyncedState_same (d d' : DAG M) cfg insecure minFrontier polls :
  (forall e, HoldersForEpoch d' e = HoldersForEpoch d e) ->
  verifySyncedState (crypto E) c cfg insecure d' minFrontier polls = verifySyncedState (crypto E) c cfg insecure d minFrontier polls.
Proof. intros Hh. unfold verifySyncedState, verifyJoin, trustedJudge. destruct cfg as [cp|]; [|done]. by rewrite Hh. Qed.

(** A fresh joiner that applied a source's snapshot is let in exactly when the source's
    own committees pass the gate: the directory is marked on success and the error is
    the gate's. *)
Theorem honest_join_is_judged_as_its_source `{!Digest (blake3 (crypto E))} n disk T R st fresh st0 s0 now cfg insecure polls :
  sourceOk n disk T R st -> freshDisk fresh ->
  forall m, (forall result disk1 st1, applyReceived (crypto E) decodeObject fresh st0 (sourceSnapshot (crypto E) n disk) = inr (result, disk1, st1) ->
       snd (initConsensusForValidator (crypto E) c disk1 st1 ∅ s0 ∅ ∅ result) = Some m) ->
  exists j, n_lastCommitted j = n_lastCommitted n /\ n_pending j = ∅ /\
    performSync fresh st0 s0 (sourceSnapshot (crypto E) n disk) [] now cfg insecure polls =
    (err ← verifySyncedState (crypto E) c cfg insecure (n_dag n) (m_frontierRound m) polls;
     match err with Some e => Some (inl (SyncJoin e)) | None => Some (inr (j, MarkStateAdopted ∅)) end).
Proof.
  intros Hs Hf m Hm. destruct (received (crypto E) decodeObject n disk T R st fresh st0 Hs) as (result & disk1 & db' & _ & Hdb & Ha & Hd1 & Er).
  specialize (Hm _ _ _ Ha). unfold performSync. rewrite Ha. set (st1 := SetCoinsTotal _ _) in *.
  destruct (joined_dag (crypto E) c n disk T R st disk1 st1 s0 result Hs) as (Hc & d1 & _ & _ & _ & Hd); [by rewrite Er..|].
  assert (Hp : n_pending (fst (initConsensusForValidator (crypto E) c disk1 st1 ∅ s0 ∅ ∅ result)) = ∅ /\
               n_db (fst (initConsensusForValidator (crypto E) c disk1 st1 ∅ s0 ∅ ∅ result)) = ∅) by (apply constructed_frame).
  destruct (initConsensusForValidator (crypto E) c disk1 st1 ∅ s0 ∅ ∅ result) as [j index]. cbn [fst snd] in *. subst index. cbn [mbind option_bind replayBufferedVertices fst CommittedFrontier].
  destruct Hp as [Hp1 Hp2].
  set (j' := if 0 <? _ then _ else j). assert (Hj : n_dag j' = n_dag j /\ n_lastCommitted j' = n_lastCommitted j /\ n_pending j' = ∅ /\ n_db j' = ∅).
  { unfold j'. destruct (0 <? _); [|done]. unfold PurgePendingBeforeRound. cbn [fst with_pending set_n_store n_dag n_lastCommitted n_pending n_db]. split_and!; try done.
    rewrite Hp1. apply map_filter_empty. }
  destruct Hj as (J1 & J2 & J3 & J4). exists j'. split; [congruence|]. split; [done|]. rewrite J1, J4, Hd.
  rewrite (verifySyncedState_same (n_dag n)); [done|]. intros e. apply adopted_holders, (so_published _ _ _ _ _ Hs).
Qed.

End Gate.
