(* ===== verification/Rejoin.v ===== *)
(** * Samples of joining, and what a join leaves behind

    A source in its second epoch with tracked objects and a lease, joined by an
    empty node; then three states a snapshot does not carry over. *)

From S2P Require Import Prelude Types Fees Validators Stake Thermostat Storage Tracker Ingress Domains Staged Coins Ledger Ops Dag Vertices Anchor Persist Resume Smt Merkle Index Retention Feed Header Commit Supply Leaks Epoch Admission Cursor Restart Execution Attest Wiring SystemPod Exposures Wire LightClient Bundle Snapshot SnapshotFacts Sync Joined Gate.

(** A layout for stored objects, standing for the FlatBuffers table. *)
Definition encodeObject (o : Object) : bytes :=
  obj_id o ++ be_enc 8 (obj_version o) ++ obj_owner o ++ be_enc 2 (obj_replication o) ++ be_enc 8 (obj_fees o) ++ [obj_parent_kind o] ++ obj_content o.

Definition decodeObject (b : bytes) : Object :=
  mkObject (Prelude.slice 0 32 b) (be_dec (Prelude.slice 32 8 b)) (Prelude.slice 40 32 b) (be_dec (Prelude.slice 72 2 b)) (drop 83 b) (be_dec (Prelude.slice 74 8 b)) (default 0 (b !! 82%nat)).

Definition rejoinCrypto : Crypto := mkCrypto toyHash (encodeBody sampleCrypto) (fun _ _ _ => true) (fun _ _ _ _ => true).

#[export] Instance rejoinCrypto_digest : Digest (blake3 rejoinCrypto) := toyHash_digest.

Definition emptyState : CoinStore := mkCoinStore ∅ 0 0 None None.

(** ** A join *)

Definition sourceDisk : gmap bytes bytes :=
  <[h 1 := encodeObject (mkObject (h 1) 1 (h 7) 0 (le_enc 8 5000) 1025 0)]> (SetDomainLeaf sampleTracker (str "alpha") (sampleLeaf 12)).

Definition sourceNode : Admission.Node (gmap bytes bytes) :=
  Admission.mkNode (set_ledger sourceDag (mkLedger sourceDisk (Some sourceDisk) (Some bondStore) bondValidators (Some []) []))
    emptyStore ∅ ∅ ∅ ∅ 41 40 [] None false ∅ 40 39 zeroHash 0 0 0 None [].

Lemma Rep_same (a b : gmap bytes bytes) T : (forall id, b !! makeKey id = a !! makeKey id) -> Rep a T -> Rep b T.
Proof. intros E [Hw Hk]. split; [done|]. intros id. change (db_map b) with b. rewrite E. apply Hk. Qed.

Lemma sourceDisk_tracker : Rep sourceDisk sampleEntries.
Proof.
  apply (Rep_same sampleTracker).
  - intros id. unfold sourceDisk, SetDomainLeaf, Set_. cbn [db_set gmap_pebble]. by rewrite !lookup_insert_ne.
  - exact sampleTracker_rep.
Qed.

Lemma sourceDisk_domains : DRep sourceDisk (<[str "alpha" := sampleLeaf 12]> ∅).
Proof.
  assert (Hd : DRep (SetDomainLeaf sampleTracker (str "alpha") (sampleLeaf 12)) (<[str "alpha" := sampleLeaf 12]> ∅)).
  { apply DRep_set; [|split; [done|done|unfold is_u64; cbn; lia]]. apply DRep_empty. intros name.
    assert (Hn : map_Forall (fun k (_ : bytes) => hasPrefix k prefixDomain = false) sampleTracker) by (apply (bool_decide_unpack _); vm_compute; exact I).
    change (db_map sampleTracker) with sampleTracker. destruct (sampleTracker !! domainKey name) as [v|] eqn:E; [|done].
    specialize (Hn _ _ E). cbv beta in Hn. by rewrite domain_prefix in Hn. }
  destruct Hd as [Hw Hk]. split; [done|]. intros name. rewrite <- Hk. unfold sourceDisk. change (db_map (?m : gmap bytes bytes)) with m.
  by rewrite lookup_insert_ne.
Qed.

Lemma sourceNode_ok : sourceOk sourceNode sourceDisk sampleEntries (<[str "alpha" := sampleLeaf 12]> ∅) bondStore.
Proof.
  split; [exact sourceDisk_tracker|exact sourceDisk_tracker| |exact sourceDisk_domains| | | |reflexivity| | | |].
  - apply (bool_decide_unpack _). vm_compute. exact I.
  - apply (bool_decide_unpack _). vm_compute. exact I.
  - apply (proj1 (buildValidatorSet_from (NewValidatorSet []) [mkInfo (h 7) [] zeroBLS 50 0 false zeroHash] empty_set_ok (ltac:(apply (bool_decide_unpack _); vm_compute; exact I)))).
  - repeat constructor; cbn; unfold is_u64; lia.
  - destruct sourceDag_ok. by split.
  - destruct sourceDag_published. by split.
  - vm_compute. reflexivity.
  - cbn. lia.
Qed.

Lemma empty_fresh : freshDisk (∅ : gmap bytes bytes).
Proof. intros k _. change (db_map (∅ : gmap bytes bytes)) with (∅ : gmap bytes bytes). by rewrite lookup_empty. Qed.

Theorem joiner_resumes_the_source_witness :
  exists snap result disk1 st1,
    snd (RequestSnapshot (fun s : Snapshot => Some s) (fun _ => false) 0
      (fun id => HandleSnapshotRequest id (createSnapshot (fun s => s) rejoinCrypto NewSnapshotManager 41 sourceNode sourceDisk))) = Some snap /\
    applyReceived rejoinCrypto decodeObject (∅ : gmap bytes bytes) emptyState snap = inr (result, disk1, st1) /\
    n_lastCommitted (fst (initConsensusForValidator rejoinCrypto regimeConfig disk1 st1 ∅ emptyStore ∅ ∅ result)) = 40.
Proof.
  destruct (joiner_resumes_the_source rejoinCrypto regimeConfig decodeObject (fun s => s) (fun s => Some s) (fun _ => false)
    sourceNode sourceDisk sampleEntries (<[str "alpha" := sampleLeaf 12]> ∅) bondStore (∅ : gmap bytes bytes) emptyState emptyStore 0)
    as (snap & result & disk1 & st1 & H1 & H2 & _ & _ & _ & _ & _ & _ & _ & H3 & _).
  - intros s0. split; reflexivity.
  - exact sourceNode_ok.
  - exact empty_fresh.
  - exists snap, result, disk1, st1. split; [exact H1|]. split; [exact H2|exact H3].
Defined.

Theorem joiner_fingerprint_agrees_witness :
  exists result disk1 st1,
    applyReceived rejoinCrypto decodeObject (∅ : gmap bytes bytes) emptyState (sourceSnapshot rejoinCrypto sourceNode sourceDisk) = inr (result, disk1, st1) /\
    let j := fst (initConsensusForValidator rejoinCrypto regimeConfig disk1 st1 ∅ emptyStore ∅ ∅ result) in
    ComputeFingerprint rejoinCrypto j (l_tracker (d_ledger (n_dag j))) = ComputeFingerprint rejoinCrypto sourceNode sourceDisk.
Proof.
  apply (joiner_fingerprint_agrees rejoinCrypto regimeConfig decodeObject sourceNode sourceDisk sampleEntries (<[str "alpha" := sampleLeaf 12]> ∅) bondStore
    (∅ : gmap bytes bytes) emptyState emptyStore).
  - exact sourceNode_ok.
  - exact empty_fresh.
Defined.

Definition rejoinEnv : Env (gmap bytes bytes) := mkEnv _ rejoinCrypto None None None (fun _ _ => []) None Coins.DeleteObject ReparentObject.

(** The index the joiner of [sourceNode] rebuilds. *)
Definition rebuiltIndex : Manager :=
  match applyReceived rejoinCrypto decodeObject (∅ : gmap bytes bytes) emptyState (sourceSnapshot rejoinCrypto sourceNode sourceDisk) with
  | inl _ => NewManager
  | inr (result, disk1, st1) => default NewManager (snd (initConsensusForValidator rejoinCrypto regimeConfig disk1 st1 ∅ emptyStore ∅ ∅ result))
  end.

Theorem honest_join_is_judged_as_its_source_witness :
  exists j, n_lastCommitted j = 40 /\
    performSync rejoinEnv regimeConfig (mkNodeConfig (h 1) (fun _ => []) false false NewManager) (fun _ _ _ _ => []) decodeObject
      (∅ : gmap bytes bytes) emptyState emptyStore (sourceSnapshot rejoinCrypto sourceNode sourceDisk) [] 0 None true [] = Some (inr (j, MarkStateAdopted ∅)).
Proof.
  destruct (honest_join_is_judged_as_its_source rejoinEnv regimeConfig (mkNodeConfig (h 1) (fun _ => []) false false NewManager) (fun _ _ _ _ => []) decodeObject
    sourceNode sourceDisk sampleEntries (<[str "alpha" := sampleLeaf 12]> ∅) bondStore (∅ : gmap bytes bytes) emptyState emptyStore 0 None true [] sourceNode_ok empty_fresh rebuiltIndex)
    as (j & H1 & _ & H2).
  - intros result disk1 st1 Hr.
    assert (Hx : match applyReceived rejoinCrypto decodeObject (∅ : gmap bytes bytes) emptyState (sourceSnapshot rejoinCrypto sourceNode sourceDisk) with
                 | inl _ => None
                 | inr (result, disk1, st1) => snd (initConsensusForValidator rejoinCrypto regimeConfig disk1 st1 ∅ emptyStore ∅ ∅ result)
                 end = Some rebuiltIndex) by (vm_compute; reflexivity).
    change (crypto rejoinEnv) with rejoinCrypto in *. rewrite Hr in Hx. exact Hx.
  - exists j. split; [exact H1|exact H2].
Defined.

Theorem snapshot_writes_no_consensus_state_witness :
  exists db', ApplySnapshot rejoinCrypto (∅ : gmap bytes bytes) (sourceSnapshot rejoinCrypto sourceNode sourceDisk) = inr db' /\
    forall id, db_map db' !! makeKey id = None.
Proof.
  destruct (ApplySnapshot rejoinCrypto (∅ : gmap bytes bytes) (sourceSnapshot rejoinCrypto sourceNode sourceDisk)) as [e|db'] eqn:Ea.
  - exfalso. assert (Hx : match ApplySnapshot rejoinCrypto (∅ : gmap bytes bytes) (sourceSnapshot rejoinCrypto sourceNode sourceDisk) with inl _ => False | inr _ => True end)
      by (vm_compute; exact I). rewrite Ea in Hx. exact Hx.
  - exists db'. split; [reflexivity|]. intros id. destruct (snapshot_writes_no_consensus_state rejoinCrypto (∅ : gmap bytes bytes) db' _ Ea) as (_ & H1 & _).
    rewrite H1. reflexivity.
Defined.

(** ** Commit marks stay behind *)

(** Key 7 creates an object; no reference of the call carries a version. *)
Definition makeCall : Transaction := call (str "create_object") (h 7 ++ le_enc 2 1 ++ borshVec [1]) [] [1].

Definition nodeOf (d : DAG (gmap bytes bytes)) (disk : gmap bytes bytes) : Admission.Node (gmap bytes bytes) :=
  Admission.mkNode d emptyStore ∅ ∅ ∅ ∅ 4 3 [] None false ∅ 4 3 zeroHash 0 0 0 None [].

Definition diskOf (d : DAG (gmap bytes bytes)) : gmap bytes bytes :=
  (encodeObject <$> default ∅ (cs_objects <$> l_coins (d_ledger d))) ∪ l_tracker (d_ledger d).

(** A node that joins from the state [d] on an empty disk. *)
Definition joinFrom (d : DAG (gmap bytes bytes)) : option (DAG (gmap bytes bytes)) :=
  match applyReceived rejoinCrypto decodeObject (∅ : gmap bytes bytes) emptyState (sourceSnapshot rejoinCrypto (nodeOf d (diskOf d)) (diskOf d)) with
  | inl _ => None
  | inr (result, disk1, st1) => Some (n_dag (fst (initConsensusForValidator rejoinCrypto sampleConfig disk1 st1 ∅ emptyStore ∅ ∅ result)))
  end.

Definition chargedDag : option (DAG (gmap bytes bytes)) := fst <$> commitCall townDag makeCall [].

(** A snapshot carries no commit mark: a transaction committed before the join and
    listed again after it changes nothing on the source and is charged again by the
    joiner. *)

(** The marks of committed transactions do not travel in a snapshot: a transaction
    the source has committed is refused by the source and charged again by a node that
    joined from it. *)
Theorem replay_after_join_is_charged :
  match chargedDag, d ← chargedDag; joinFrom d with
  | Some d, Some j =>
      let tx := extractTxHash (sealTx makeCall) in
      wasCommitted (l_tracker (d_ledger d)) tx = true /\ wasCommitted (l_tracker (d_ledger j)) tx = false /\
      balOf townDag (h 1) = 5000 /\ balOf d (h 1) = 3875 /\ balOf j (h 1) = 3875 /\
      ((fun r => balOf (fst r) (h 1)) <$> commitCall d makeCall []) = Some 3875 /\
      ((fun r => balOf (fst r) (h 1)) <$> commitCall j makeCall []) = Some 2750
  | _, _ => False
  end.
Proof. vm_compute. split_and!; reflexivity. Qed.

(** ** Object IDs that look like consensus keys *)

(** A 32-byte ID whose first two bytes are those of the vertex prefix. *)
Definition unluckyID : Hash := prefixVertex ++ replicate 30 5.

Definition unluckyObject : Object := mkObject unluckyID 0 (h 7) 0 (le_enc 8 40) 0 0.

Definition unluckyDag : DAG (gmap bytes bytes) :=
  set_ledger townDag (set_coins (set_tracker (d_ledger townDag) (trackObject (l_tracker (d_ledger townDag)) unluckyID 0 0 0 0 (h 7)))
    (Some (set_objects townStore (<[unluckyID := unluckyObject]> (cs_objects townStore))))).

(** An object whose ID starts like a consensus key is left out of the snapshot: the
    joiner tracks it and does not have it, and neither the checksum nor the fingerprint
    notices. *)
Theorem prefixed_object_is_lost :
  match joinFrom unluckyDag with
  | None => False
  | Some j =>
      getBody (d_ledger unluckyDag) unluckyID = Some unluckyObject /\ getBody (d_ledger j) unluckyID = None /\
      bool_decide (is_Some (getParent (l_tracker (d_ledger j)) unluckyID)) = true /\ getBody (d_ledger j) (h 3) = Some victimCoin /\
      fp_Checksum (ComputeFingerprint rejoinCrypto (nodeOf j (l_tracker (d_ledger j))) (l_tracker (d_ledger j))) =
        fp_Checksum (ComputeFingerprint rejoinCrypto (nodeOf unluckyDag (diskOf unluckyDag)) (diskOf unluckyDag))
  end.
Proof. vm_compute. split_and!; reflexivity. Qed.

(** ** A snapshot before the first decision *)

(** The exported round is 0 whether nothing or round 0 was decided, and the importer
    resumes at 1: a joiner of an undecided source never decides round 0. *)
Theorem undecided_source_skips_a_round :
  let n := Admission.mkNode townDag emptyStore ∅ ∅ ∅ ∅ 1 1 [] None false ∅ 0 0 zeroHash 0 0 0 None [] in
  match applyReceived rejoinCrypto decodeObject (∅ : gmap bytes bytes) emptyState (sourceSnapshot rejoinCrypto n (diskOf townDag)) with
  | inl _ => False
  | inr (result, disk1, st1) =>
      n_lastCommitted n = 0 /\ n_lastCommitted (fst (initConsensusForValidator rejoinCrypto sampleConfig disk1 st1 ∅ emptyStore ∅ ∅ result)) = 1
  end.
Proof. vm_compute. split; reflexivity. Qed.
