(* ===== verification/Builders.v ===== *)
(** * Building transactions (internal/genesis/transaction.go, declared_op.go)

    The unsigned body a hash and a signature cover, the table that carries them,
    and the copies made when a raw transaction is wrapped.  A FlatBuffers table is
    the record of its fields: a vector the builder leaves out reads back empty.
    Key derivation and signing are the parameter [Keys]; what Ed25519 promises of
    them is the class [Ed25519]. *)

From S2P Require Import Prelude Types Ingress.

(** ** Ed25519 keys (crypto/ed25519) *)

Record Keys := mkKeys {
  ed25519Public : bytes -> bytes;
  ed25519Sign : bytes -> bytes -> bytes;
}.

Class Ed25519 (X : Crypto) (K : Keys) : Prop := {
  ed_public : forall sk, length (ed25519Public K sk) = 32%nat;
  ed_signature : forall sk m, length (ed25519Sign K sk m) = 64%nat;
  ed_verifies : forall sk m, ed25519Verify X (ed25519Public K sk) m (ed25519Sign K sk m) = true;
}.

(** ** References and operations *)

(** [ObjectRefData]: a reference whose ID is an array, zero for a domain reference. *)
Definition ObjectRefData : Type := TxRef.

Record Sponsorship := mkSponsorship { sp_FeePayer : bytes; sp_ValidUntil : Z }.

Definition selfPaid : Sponsorship := mkSponsorship [] 0.

Definition buildSingleObjectRef (r : ObjectRefData) : TxRef :=
  mkTxRef (if bool_decide (ref_id r = zeroHash) then [] else ref_id r) (ref_version r) (ref_domain r).

Definition buildObjectRefDataVector (refs : list ObjectRefData) : list TxRef := map buildSingleObjectRef refs.

Definition buildSingleDeclaredOp (op : DeclaredOp) : DeclaredOp :=
  mkDeclaredOp (op_Kind op) (op_ObjectID op) (op_TargetKind op) (op_Target op) (op_Name op) (op_TermEpochs op).

Definition buildDeclaredOpsVector (ops : list DeclaredOp) : list DeclaredOp := map buildSingleDeclaredOp ops.

Definition ExtractOperations (tx : Transaction) : list DeclaredOp :=
  map (fun op => mkDeclaredOp (op_Kind op) (op_ObjectID op) (op_TargetKind op) (op_Target op) (op_Name op) (op_TermEpochs op)) (tx_Operations tx).

(** ** The table *)

Definition BuildTxTableSponsored (sender : bytes) (pod : Hash) (funcName args : bytes) (created : list Z) (maxGas : Z) (gasCoin : bytes)
    (hash : Hash) (sig : bytes) (mutableRefs readRefs : list ObjectRefData) (sponsor : Sponsorship) (sponsorSig deleted : bytes)
    (ops : list DeclaredOp) : Transaction :=
  mkTransaction hash (buildObjectRefDataVector readRefs) (buildObjectRefDataVector mutableRefs) created sender sig pod funcName args maxGas gasCoin
    (sp_FeePayer sponsor) sponsorSig (sp_ValidUntil sponsor) deleted (buildDeclaredOpsVector ops).

Definition BuildTxTableWithRefs sender pod funcName args created maxGas gasCoin hash sig mutableRefs readRefs : Transaction :=
  BuildTxTableSponsored sender pod funcName args created maxGas gasCoin hash sig mutableRefs readRefs selfPaid [] [] [].

Definition BuildTxTable sender pod funcName args created maxGas gasCoin hash sig : Transaction :=
  BuildTxTableWithRefs sender pod funcName args created maxGas gasCoin hash sig [] [].

(** ** Rebuilding a transaction read from bytes *)

Definition RebuildObjectRef (r : TxRef) : TxRef := mkTxRef (ref_id r) (ref_version r) (ref_domain r).

Definition BuildObjectRefVectorFromTx (tx : Transaction) (mutable : bool) : list TxRef :=
  map RebuildObjectRef (if mutable then tx_MutableRefs tx else tx_ReadRefs tx).

Definition rebuildCreatedObjectsReplication (tx : Transaction) : list Z :=
  map (fun i => default 0 (tx_CreatedObjectsReplication tx !! i)) (seq 0 (length (tx_CreatedObjectsReplication tx))).

Definition RebuildTxInBuilder (tx : Transaction) : Transaction :=
  mkTransaction (tx_Hash tx) (BuildObjectRefVectorFromTx tx false) (BuildObjectRefVectorFromTx tx true) (rebuildCreatedObjectsReplication tx)
    (tx_Sender tx) (tx_Signature tx) (tx_Pod tx) (tx_FunctionName tx) (tx_Args tx) (tx_MaxGas tx) (tx_GasCoin tx) (tx_FeePayer tx)
    (tx_SponsorSignature tx) (tx_ValidUntil tx) (tx_DeletedObjects tx) (buildDeclaredOpsVector (ExtractOperations tx)).

(** [finishAttestedTx] and [WrapInATX]. *)
Definition finishAttestedTx (tx : Transaction) : AttestedTransaction := mkAtx (Some tx) [] [] 0.
Definition WrapInATX (tx : Transaction) : AttestedTransaction := finishAttestedTx (RebuildTxInBuilder tx).

(** ** Signed bodies *)

Section Signed.
Context (X : Crypto) (K : Keys).

Definition BuildUnsignedTxBytesSponsored (sender : bytes) (pod : Hash) (funcName args : bytes) (created : list Z) (maxGas : Z) (gasCoin : bytes)
    (mutableRefs readRefs : list ObjectRefData) (sponsor : Sponsorship) (deleted : bytes) (ops : list DeclaredOp) : bytes :=
  encodeBody X (mkUnsigned sender pod funcName args created maxGas gasCoin mutableRefs readRefs (sp_FeePayer sponsor) (sp_ValidUntil sponsor) deleted ops).

Definition BuildUnsignedTxBytesWithRefs sender pod funcName args created maxGas gasCoin mutableRefs readRefs : bytes :=
  BuildUnsignedTxBytesSponsored sender pod funcName args created maxGas gasCoin mutableRefs readRefs selfPaid [] [].

Definition BuildUnsignedTxBytes sender pod funcName args created maxGas gasCoin : bytes :=
  BuildUnsignedTxBytesWithRefs sender pod funcName args created maxGas gasCoin [] [].

Definition faucetSplitMaxGas : Z := 1000.

Definition BuildSplitTx (privKey : bytes) (systemPod reserveCoinID : Hash) (reserveVersion : Z) (toOwner : Hash) (amount : Z) : AttestedTransaction :=
  let args := EncodeSplitArgs amount toOwner in
  let mutableRefs := [mkTxRef reserveCoinID reserveVersion []] in
  let pubKey := ed25519Public K privKey in
  let hash := blake3 X (BuildUnsignedTxBytesWithRefs pubKey systemPod (str "split") args [0] faucetSplitMaxGas reserveCoinID mutableRefs []) in
  finishAttestedTx (BuildTxTableWithRefs pubKey systemPod (str "split") args [0] faucetSplitMaxGas reserveCoinID hash
                      (ed25519Sign K privKey hash) mutableRefs []).

Definition BuildSponsoredTx (senderKey sponsorKey : bytes) (pod : Hash) (funcName args : bytes) (created : list Z) (maxGas : Z) (gasCoin : Hash)
    (validUntil : Z) (mutableRefs readRefs : list ObjectRefData) : AttestedTransaction :=
  let senderPub := ed25519Public K senderKey in
  let sponsor := mkSponsorship (ed25519Public K sponsorKey) validUntil in
  let hash := blake3 X (BuildUnsignedTxBytesSponsored senderPub pod funcName args created maxGas gasCoin mutableRefs readRefs sponsor [] []) in
  finishAttestedTx (BuildTxTableSponsored senderPub pod funcName args created maxGas gasCoin hash (ed25519Sign K senderKey hash) mutableRefs readRefs
                      sponsor (ed25519Sign K sponsorKey hash) [] []).

Definition BuildRegisterValidatorRawTx (privKey : bytes) (systemPod : Hash) (quicAddr blsPubkey blsPoP : bytes) (rewardCoin : Hash) : Transaction :=
  let args := EncodeRegisterValidatorArgs quicAddr blsPubkey blsPoP rewardCoin in
  let pubKey := ed25519Public K privKey in
  let hash := blake3 X (BuildUnsignedTxBytes pubKey systemPod (str "register_validator") args [0] 0 []) in
  BuildTxTable pubKey systemPod (str "register_validator") args [0] 0 [] hash (ed25519Sign K privKey hash).

Definition BuildDeregisterValidatorRawTx (privKey : bytes) (systemPod : Hash) : Transaction :=
  let pubKey := ed25519Public K privKey in
  let hash := blake3 X (BuildUnsignedTxBytes pubKey systemPod (str "deregister_validator") [] [] 0 []) in
  BuildTxTable pubKey systemPod (str "deregister_validator") [] [] 0 [] hash (ed25519Sign K privKey hash).

Definition BuildAttestedTx (privKey : bytes) (pod : Hash) (funcName args : bytes) (created : list Z) (maxGas : Z) (gasCoin : bytes) : AttestedTransaction :=
  let pubKey := ed25519Public K privKey in
  let hash := blake3 X (BuildUnsignedTxBytes pubKey pod funcName args created maxGas gasCoin) in
  finishAttestedTx (BuildTxTable pubKey pod funcName args created maxGas gasCoin hash (ed25519Sign K privKey hash)).

End Signed.

(** * Facts *)

Lemma map_lookup_seq {A} (d : A) (l : list A) : map (fun i => default d (l !! i)) (seq 0 (length l)) = l.
Proof.
  induction l as [|x l IH]; [done|]. cbn [length seq map]. f_equal. rewrite <- seq_shift, map_map. exact IH.
Qed.

(** Rebuilding loses nothing. *)
Lemma RebuildTxInBuilder_id tx : RebuildTxInBuilder tx = tx.
Proof.
  destruct tx as [hash reads muts created sender sig pod fn args gas coin payer ssig valid deleted ops].
  unfold RebuildTxInBuilder, BuildObjectRefVectorFromTx, rebuildCreatedObjectsReplication, buildDeclaredOpsVector, ExtractOperations.
  cbn [tx_Hash tx_ReadRefs tx_MutableRefs tx_CreatedObjectsReplication tx_Sender tx_Signature tx_Pod tx_FunctionName tx_Args tx_MaxGas tx_GasCoin
       tx_FeePayer tx_SponsorSignature tx_ValidUntil tx_DeletedObjects tx_Operations]. f_equal.
  - rewrite <- (map_id reads) at 2. apply map_ext. by intros [].
  - rewrite <- (map_id muts) at 2. apply map_ext. by intros [].
  - apply map_lookup_seq.
  - rewrite map_map. rewrite <- (map_id ops) at 2. apply map_ext. by intros [].
Qed.

Lemma WrapInATX_tx tx : WrapInATX tx = mkAtx (Some tx) [] [] 0.
Proof. unfold WrapInATX, finishAttestedTx. by rewrite RebuildTxInBuilder_id. Qed.

(** A reference as a caller gives it: a 32-byte ID. *)
Definition refOk (r : ObjectRefData) : Prop := length (ref_id r) = 32%nat.

Lemma refData_build r : refOk r -> refData (buildSingleObjectRef r) = r.
Proof.
  intros Hr. destruct r as [id v dom]. unfold refOk in Hr. cbn in Hr. unfold refData, buildSingleObjectRef, fixed32. cbn [ref_id ref_version ref_domain].
  case_bool_decide as E; [by rewrite E|]. unfold hash32. by rewrite decide_True.
Qed.

Lemma map_refData_build refs : Forall refOk refs -> map refData (buildObjectRefDataVector refs) = refs.
Proof.
  unfold buildObjectRefDataVector. induction 1 as [|r refs Hr _ IH]; [done|]. cbn [map]. by rewrite refData_build, IH.
Qed.

Lemma buildDeclaredOpsVector_id ops : buildDeclaredOpsVector ops = ops.
Proof. unfold buildDeclaredOpsVector. rewrite <- (map_id ops) at 2. apply map_ext. by intros []. Qed.

(** The body ingress rebuilds from a table is the one it was signed with. *)
Lemma rebuilt_body sender pod fn args created gas coin hash sig muts reads sponsor ssig deleted ops :
  length pod = 32%nat -> Forall refOk muts -> Forall refOk reads ->
  rebuildUnsignedTx (BuildTxTableSponsored sender pod fn args created gas coin hash sig muts reads sponsor ssig deleted ops) =
  mkUnsigned sender pod fn args created gas coin muts reads (sp_FeePayer sponsor) (sp_ValidUntil sponsor) deleted ops.
Proof.
  intros Hp Hm Hr. unfold rebuildUnsignedTx, BuildTxTableSponsored, extractPod, extractRefData, fixed32, hash32.
  cbn [tx_Hash tx_ReadRefs tx_MutableRefs tx_CreatedObjectsReplication tx_Sender tx_Signature tx_Pod tx_FunctionName tx_Args tx_MaxGas tx_GasCoin
       tx_FeePayer tx_SponsorSignature tx_ValidUntil tx_DeletedObjects tx_Operations].
  rewrite decide_True by done. cbn [default from_option]. by rewrite !map_refData_build, buildDeclaredOpsVector_id.
Qed.

(** What a caller must respect for a signed transaction to pass. *)
Record callOk (pod : Hash) (fn : bytes) (coin : bytes) (muts reads : list ObjectRefData) (ops : list DeclaredOp) (created : list Z) : Prop := {
  co_pod : length pod = 32%nat;
  co_coin : length coin = 0%nat \/ length coin = 32%nat;
  co_refs : Forall refOk (muts ++ reads);
  co_named : Forall (fun r => ref_id r <> zeroHash /\ ref_domain r = []) (muts ++ reads);
  co_count : (length reads + length muts <= maxObjectRefs)%nat;
  co_distinct : NoDup (map ref_id (muts ++ reads));
  co_shape : ops = [] /\ fn <> [] \/
             ops <> [] /\ fn = [] /\ pod = zeroHash /\ created = [] /\ (length ops <= maxDeclaredOps)%nat;
}.

Lemma checkRefDuplicates_distinct (refs : list ObjectRefData) (seen : gset Hash) (dseen : gset bytes) :
  Forall refOk refs -> Forall (fun r => ref_id r <> zeroHash /\ ref_domain r = []) refs -> NoDup (map ref_id refs) ->
  (forall r, r ∈ refs -> ref_id r ∉ seen) ->
  exists seen', checkRefDuplicates (buildObjectRefDataVector refs) seen dseen = Some (seen', dseen) /\
    forall x, x ∈ seen' <-> x ∈ seen \/ x ∈ map ref_id refs.
Proof.
  intros Hok Hn Hd. revert seen. induction refs as [|r refs IH]; intros seen Hs.
  { exists seen. split; [done|]. intros x. cbn. rewrite elem_of_nil. tauto. }
  inversion Hok as [|? ? Hr Hok']. inversion Hn as [|? ? [Hz Hdom] Hn']. cbn [map] in Hd. inversion Hd as [|? ? Hx Hd']. subst.
  destruct (IH Hok' Hn' Hd' ({[ref_id r]} ∪ seen)) as (seen' & E & Hm).
  { intros r' Hr'. rewrite elem_of_union, elem_of_singleton. intros [Heq|Hin]; [|by apply (Hs r'); [right|]].
    apply Hx. rewrite <- Heq. by apply list_elem_of_fmap_2. }
  exists seen'. split.
  - cbn [buildObjectRefDataVector map checkRefDuplicates buildSingleObjectRef ref_domain ref_id]. rewrite Hdom. cbn [length Nat.ltb Nat.leb].
    rewrite (bool_decide_false (ref_id r = zeroHash)) by done. unfold hash32. rewrite decide_True by done.
    rewrite bool_decide_false by (apply (Hs r); left). exact E.
  - intros x. rewrite Hm, elem_of_union, elem_of_singleton. cbn [map]. rewrite elem_of_cons. tauto.
Qed.

Section Accepted.
Context (X : Crypto) (K : Keys) `{!Ed25519 X K} (Hdigest : forall m, length (blake3 X m) = 32%nat).

(** A table signed over its own body passes ingress and the commit path's
    authenticity check; with a fee payer it carries both signatures. *)
Lemma signed_table_passes sk pod fn args created gas coin muts reads sponsor ssig deleted ops :
  callOk pod fn coin muts reads ops created ->
  let sender := ed25519Public K sk in
  let hash := blake3 X (BuildUnsignedTxBytesSponsored X sender pod fn args created gas coin muts reads sponsor deleted ops) in
  (length (sp_FeePayer sponsor) = 32%nat -> ed25519Verify X (sp_FeePayer sponsor) hash ssig = true) ->
  let tx := BuildTxTableSponsored sender pod fn args created gas coin hash (ed25519Sign K sk hash) muts reads sponsor ssig deleted ops in
  ValidateTx X tx = true /\ verifyTxAuthenticity X tx = true.
Proof using All.
  intros [Hp Hc Hr Hn Hk Hd Hs] sender hash Hss tx. apply Forall_app in Hr as [Hrm Hrr].
  assert (Eb : rebuildUnsignedTx tx = mkUnsigned sender pod fn args created gas coin muts reads (sp_FeePayer sponsor) (sp_ValidUntil sponsor) deleted ops)
    by (by apply rebuilt_body).
  assert (Ev : ed25519Verify X sender hash (ed25519Sign K sk hash) = true) by apply ed_verifies.
  assert (Es : length sender = 32%nat) by apply (ed_public (K:=K)).
  split.
  - unfold ValidateTx. rewrite !andb_true_iff. split_and!.
    + unfold validateFieldSizes, tx, BuildTxTableSponsored. cbn [tx_Hash tx_Sender tx_Signature tx_Pod tx_GasCoin].
      unfold hash. rewrite Hdigest, Es, (ed_signature (X:=X)), Hp. by destruct Hc as [->| ->].
    + unfold ValidateShape, tx, BuildTxTableSponsored, txHasPodCall. cbn [tx_Operations tx_FunctionName tx_Pod tx_CreatedObjectsReplication].
      rewrite buildDeclaredOpsVector_id. destruct Hs as [[-> _]|(Ho & -> & -> & -> & Hl)]; [done|].
      destruct ops; [done|]. cbn [length Nat.eqb negb]. rewrite bool_decide_true by done. cbn [negb orb].
      assert (existsb (fun b => negb (b =? 0)) zeroHash = false) as -> by (by vm_compute). cbn [Nat.ltb Nat.leb length].
      apply negb_true_iff, Nat.leb_gt. unfold maxDeclaredOps in *. cbn [length] in Hl. lia.
    + unfold validateIntent, tx, BuildTxTableSponsored. cbn [tx_FunctionName tx_Operations]. rewrite buildDeclaredOpsVector_id.
      destruct Hs as [[_ Hf]|(Ho & _)]; [by destruct fn|]. destruct ops; [done|]. cbn [length Nat.eqb]. by rewrite andb_false_r.
    + unfold validateObjectRefs, tx, BuildTxTableSponsored. cbn [tx_ReadRefs tx_MutableRefs]. unfold buildObjectRefDataVector at 1 2.
      rewrite !length_map. destruct (Nat.ltb_spec maxObjectRefs (length reads + length muts)); [lia|].
      unfold validateNoDuplicateRefs. cbn [tx_ReadRefs tx_MutableRefs]. apply Forall_app in Hn as [Hnm Hnr].
      rewrite map_app in Hd. apply NoDup_app in Hd as (Hd1 & Hd2 & Hd3).
      destruct (checkRefDuplicates_distinct muts ∅ ∅ Hrm Hnm Hd1) as (seen & -> & Hm); [set_solver|].
      destruct (checkRefDuplicates_distinct reads seen ∅ Hrr Hnr Hd3) as (seen' & -> & _); [|by apply bool_decide_true].
      intros r Hr [Hin|Hin]%Hm; [set_solver|]. apply (Hd2 _ Hin). by apply list_elem_of_fmap_2.
    + unfold validateHash. apply bool_decide_true. by rewrite Eb.
    + done.
  - unfold verifyTxAuthenticity. rewrite rebuild_agree, Eb. unfold hash in *.
    change (blake3 X (encodeBody X (mkUnsigned sender pod fn args created gas coin muts reads (sp_FeePayer sponsor) (sp_ValidUntil sponsor) deleted ops)))
      with (blake3 X (BuildUnsignedTxBytesSponsored X sender pod fn args created gas coin muts reads sponsor deleted ops)).
    cbv zeta. rewrite (bool_decide_true (_ = tx_Hash tx)) by done. cbn [negb].
    change (tx_Sender tx) with sender. rewrite Es. cbn [Nat.eqb negb]. change (tx_Signature tx) with (ed25519Sign K sk (blake3 X (BuildUnsignedTxBytesSponsored X sender pod fn args created gas coin muts reads sponsor deleted ops))).
    rewrite Ev. cbn [negb]. unfold isSponsored. change (tx_FeePayer tx) with (sp_FeePayer sponsor). case_bool_decide as Hf; [|done]. by apply Hss.
Qed.

End Accepted.
