(* ===== verification/Wallet.v ===== *)
(** * The wallet (pkg/client/transactions.go, staking.go, domain.go, sponsored.go,
    client.go, wallet.go)

    What a wallet signs for each of its operations, what it keeps, and the file it
    is saved to.  A client is the system pod it names, its way to submit a raw
    transaction and its reads; JSON is outside, a wallet file is its record. *)

From S2P Require Import Prelude Types Ingress Tracker Fees Builders LightClient.

(** ** State *)

Record CoinInfo := mkCoinInfo { ci_ID : Hash; ci_Version : Z; ci_Balance : Z }.

Record ObjectInfo := mkObjectInfo { oi_ID : Hash; oi_Version : Z; oi_Owner : Hash; oi_Replication : Z; oi_Content : bytes }.

Record Wallet := mkWallet {
  w_privKey : bytes;
  w_coins : gmap Hash CoinInfo;
  w_objects : gset Hash;
  w_checkpoint : option Checkpoint;
}.

Record Client := mkClient {
  cl_systemPod : Hash;
  cl_submit : Transaction -> bool;
  cl_getObject : Hash -> option Object;
}.

Inductive walletError := errNotTracked | errSubmit | errGetObject | errNoSources | errForeignBLSKey | errShortCoin.

(** [parseObject] and [Client.GetObject]. *)
Definition parseObject (o : Object) : ObjectInfo :=
  mkObjectInfo (toHash (obj_id o)) (obj_version o) (toHash (obj_owner o)) (obj_replication o) (obj_content o).

Definition clientGetObject (c : Client) (id : Hash) : walletError + ObjectInfo :=
  match cl_getObject c id with Some o => inr (parseObject o) | None => inl errGetObject end.

(** ** Arguments *)

Definition encodeSplitArgs (amount : Z) (newOwner : Hash) : bytes := le_enc 8 amount ++ newOwner.
Definition encodeSetObjectArgs (objectID : Hash) (content : bytes) : bytes := objectID ++ le_enc 4 (u32 (Z.of_nat (length content))) ++ content.
Definition encodeStakeArgs (amount : Z) : bytes := le_enc 8 amount.
Definition encodeCreateObjectArgs (owner : Hash) (replication : Z) (metadata : bytes) : bytes :=
  owner ++ le_enc 2 replication ++ le_enc 4 (u32 (Z.of_nat (length metadata))) ++ metadata.
Definition encodeDelegateArgs (validator : Hash) (amount : Z) : bytes := validator ++ le_enc 8 amount.
Definition encodeUndelegateArgs (validator : Hash) : bytes := validator.

Definition clientMaxGas : Z := 1000.
Definition reparentOpKind : Z := 0.
Definition deleteOpKind : Z := 1.
Definition domainRegisterOpKind : Z := 2.
Definition domainRenewOpKind : Z := 3.
Definition domainUpdateOpKind : Z := 4.
Definition domainTransferOpKind : Z := 5.
Definition domainDeleteOpKind : Z := 6.

Definition buildMutableRef (id : Hash) (version : Z) : list ObjectRefData := [mkTxRef id version []].

Definition reparentOpFor (objectID : Hash) (targetKind : Z) (target : bytes) : DeclaredOp :=
  mkDeclaredOp reparentOpKind objectID targetKind target [] 0.
Definition domainUpdateOpFor (name : bytes) (objectID : Hash) : DeclaredOp := mkDeclaredOp domainUpdateOpKind objectID 0 [] name 0.
Definition domainDeleteOpFor (name : bytes) : DeclaredOp := mkDeclaredOp domainDeleteOpKind [] 0 [] name 0.

Definition sourceRefs (sources : list CoinInfo) : list ObjectRefData := map (fun s => mkTxRef (ci_ID s) (ci_Version s) []) sources.

Record SponsoredOp := mkSponsoredOp {
  so_Pod : Hash;
  so_FuncName : bytes;
  so_Args : bytes;
  so_CreatedReps : list Z;
  so_MutableRefs : list ObjectRefData;
  so_ReadRefs : list ObjectRefData;
  so_Operations : list DeclaredOp;
}.

Record SignedSponsoredOp := mkSignedOp {
  ss_Op : SponsoredOp;
  ss_Sender : bytes;
  ss_GasCoin : Hash;
  ss_ValidUntil : Z;
  ss_SenderSig : bytes;
}.

(** The BLS side of a registration: the key derived from an Ed25519 key and the
    proof that its holder has it. *)
Record BLSKeys := mkBLSKeys {
  blsDerived : bytes -> option bytes;
  blsProof : bytes -> Hash -> bytes;
}.

Section Operations.
Context (X : Crypto) (K : Keys) (B : BLSKeys).

Definition Pubkey (w : Wallet) : Hash := toHash (ed25519Public K (w_privKey w)).

Definition computeNewObjectID (txHash : Hash) : Hash := blake3 X (txHash ++ le_enc 4 0).

Definition delegationPositionID (delegator validator : Hash) : Hash :=
  blake3 X (str "bluepods/delegation/v1" ++ delegator ++ validator).

(** ** Signing *)

Definition buildSignedTx (privKey : bytes) (pod : Hash) (funcName args : bytes) (created : list Z) (mutableRefs readRefs : list ObjectRefData)
    : Transaction * Hash :=
  let pubKey := ed25519Public K privKey in
  let hash := blake3 X (BuildUnsignedTxBytesWithRefs X pubKey pod funcName args created 0 [] mutableRefs readRefs) in
  (BuildTxTableWithRefs pubKey pod funcName args created 0 [] hash (ed25519Sign K privKey hash) mutableRefs readRefs, hash).

Definition buildSignedGasTx (privKey : bytes) (pod : Hash) (funcName args : bytes) (created : list Z) (mutableRefs readRefs : list ObjectRefData)
    (gasCoin : Hash) : Transaction * Hash :=
  let pubKey := ed25519Public K privKey in
  let hash := blake3 X (BuildUnsignedTxBytesWithRefs X pubKey pod funcName args created clientMaxGas gasCoin mutableRefs readRefs) in
  (BuildTxTableWithRefs pubKey pod funcName args created clientMaxGas gasCoin hash (ed25519Sign K privKey hash) mutableRefs readRefs, hash).

Definition buildSignedOpsTx (privKey : bytes) (mutableRefs : list ObjectRefData) (gasCoin : Hash) (ops : list DeclaredOp) : Transaction * Hash :=
  let pubKey := ed25519Public K privKey in
  let hash := blake3 X (BuildUnsignedTxBytesSponsored X pubKey zeroHash [] [] [] clientMaxGas gasCoin mutableRefs [] selfPaid [] ops) in
  (BuildTxTableSponsored pubKey zeroHash [] [] [] clientMaxGas gasCoin hash (ed25519Sign K privKey hash) mutableRefs [] selfPaid [] [] ops, hash).

Definition buildCoinTx (w : Wallet) (pod : Hash) (funcName args : bytes) (created : list Z) (coinID : Hash) (coinVersion : Z) : Transaction * Hash :=
  buildSignedGasTx (w_privKey w) pod funcName args created (buildMutableRef coinID coinVersion) [] coinID.

Definition buildObjectTx (w : Wallet) (pod : Hash) (funcName args : bytes) (created : list Z) (mutableRefs : list ObjectRefData) (gasCoinID : Hash)
    : Transaction * Hash :=
  buildSignedGasTx (w_privKey w) pod funcName args created mutableRefs [] gasCoinID.

Definition buildOpsTx (w : Wallet) (mutableRefs : list ObjectRefData) (gasCoinID : Hash) (ops : list DeclaredOp) : Transaction * Hash :=
  buildSignedOpsTx (w_privKey w) mutableRefs gasCoinID ops.

(** Submission, with what the caller gets on success. *)
Definition submitted {A} (c : Client) (built : Transaction * Hash) (result : Hash -> A) : walletError + A :=
  if cl_submit c (fst built) then inr (result (snd built)) else inl errSubmit.

(** ** Coins and objects *)

Definition Split (w : Wallet) (c : Client) (coinID : Hash) (amount : Z) (recipient : Hash) : walletError + (Hash * Hash) :=
  match w_coins w !! coinID with
  | None => inl errNotTracked
  | Some coin =>
      submitted c (buildCoinTx w (cl_systemPod c) (str "split") (encodeSplitArgs amount recipient) [0] coinID (ci_Version coin))
        (fun txHash => (computeNewObjectID txHash, txHash))
  end.

Definition Transfer (w : Wallet) (c : Client) (coinID recipient : Hash) : walletError + Hash :=
  match w_coins w !! coinID with
  | None => inl errNotTracked
  | Some coin => submitted c (buildOpsTx w (buildMutableRef coinID (ci_Version coin)) coinID [reparentOpFor coinID keyRootKind recipient]) id
  end.

Definition CreateObject (w : Wallet) (c : Client) (replication : Z) (metadata : bytes) (gasCoinID : Hash) : walletError + (Hash * Hash) :=
  submitted c (buildObjectTx w (cl_systemPod c) (str "create_object") (encodeCreateObjectArgs (Pubkey w) replication metadata) [replication] [] gasCoinID)
    (fun txHash => (computeNewObjectID txHash, txHash)).

(** One operation on an object read at its current version. *)
Definition onObject (w : Wallet) (c : Client) (objectID : Hash) (build : ObjectInfo -> Transaction * Hash) : walletError + Hash :=
  match clientGetObject c objectID with inl e => inl e | inr obj => submitted c (build obj) id end.

Definition TransferObject (w : Wallet) (c : Client) (objectID recipient gasCoinID : Hash) : walletError + Hash :=
  onObject w c objectID (fun obj => buildOpsTx w (buildMutableRef objectID (oi_Version obj)) gasCoinID [reparentOpFor objectID keyRootKind recipient]).

Definition Reparent (w : Wallet) (c : Client) (objectID newParent gasCoinID : Hash) : walletError + Hash :=
  onObject w c objectID (fun obj => buildOpsTx w (buildMutableRef objectID (oi_Version obj)) gasCoinID [reparentOpFor objectID objectParentKind newParent]).

Definition DeleteObject (w : Wallet) (c : Client) (objectID gasCoinID : Hash) : walletError + Hash :=
  onObject w c objectID (fun obj => buildOpsTx w (buildMutableRef objectID (oi_Version obj)) gasCoinID [mkDeclaredOp deleteOpKind objectID 0 [] [] 0]).

Definition SetObject (w : Wallet) (c : Client) (objectID : Hash) (content : bytes) (gasCoinID : Hash) : walletError + Hash :=
  onObject w c objectID (fun obj => buildObjectTx w (cl_systemPod c) (str "set_object") (encodeSetObjectArgs objectID content) []
                                      (buildMutableRef objectID (oi_Version obj)) gasCoinID).

(** ** Staking *)

Definition Bond (w : Wallet) (c : Client) (coinID : Hash) (coinVersion amount : Z) : walletError + Hash :=
  submitted c (buildCoinTx w (cl_systemPod c) (str "bond") (encodeStakeArgs amount) [] coinID coinVersion) id.

Definition Unbond (w : Wallet) (c : Client) (coinID : Hash) (coinVersion amount : Z) : walletError + Hash :=
  submitted c (buildCoinTx w (cl_systemPod c) (str "unbond") (encodeStakeArgs amount) [] coinID coinVersion) id.

Definition Delegate (w : Wallet) (c : Client) (coinID : Hash) (coinVersion : Z) (validator : Hash) (amount : Z) : walletError + (Hash * Hash) :=
  submitted c (buildCoinTx w (cl_systemPod c) (str "delegate") (encodeDelegateArgs validator amount) [] coinID coinVersion)
    (fun txHash => (delegationPositionID (Pubkey w) validator, txHash)).

Definition Undelegate (w : Wallet) (c : Client) (coinID : Hash) (coinVersion : Z) (validator : Hash) : walletError + Hash :=
  submitted c (buildCoinTx w (cl_systemPod c) (str "undelegate") (encodeUndelegateArgs validator) [] coinID coinVersion) id.

Definition Merge (w : Wallet) (c : Client) (destCoinID : Hash) (destCoinVersion : Z) (sources : list CoinInfo) : walletError + Hash :=
  if Nat.eqb (length sources) 0 then inl errNoSources
  else submitted c (buildObjectTx w (cl_systemPod c) (str "merge") [] [] (mkTxRef destCoinID destCoinVersion [] :: sourceRefs sources) destCoinID) id.

(** ** Validators *)

Definition proveBLSKey (w : Wallet) (blsPubkey : bytes) : walletError + bytes :=
  if Nat.eqb (length blsPubkey) 0 then inr []
  else match blsDerived B (w_privKey w) with
  | None => inl errForeignBLSKey
  | Some key => if bool_decide (blsPubkey = key) then inr (blsProof B (w_privKey w) (Pubkey w)) else inl errForeignBLSKey
  end.

Definition buildRegisterValidatorTx (w : Wallet) (pod : Hash) (quicAddr blsPubkey : bytes) (rewardCoin : Hash) : walletError + Transaction :=
  match proveBLSKey w blsPubkey with
  | inl e => inl e
  | inr blsPoP => inr (BuildRegisterValidatorRawTx X K (w_privKey w) pod quicAddr blsPubkey blsPoP rewardCoin)
  end.

Definition RegisterValidator (w : Wallet) (c : Client) (quicAddr blsPubkey : bytes) (rewardCoin : Hash) : walletError + unit :=
  match buildRegisterValidatorTx w (cl_systemPod c) quicAddr blsPubkey rewardCoin with
  | inl e => inl e
  | inr tx => if cl_submit c tx then inr tt else inl errSubmit
  end.

Definition DeregisterValidator (w : Wallet) (c : Client) : walletError + unit :=
  submitted c (buildSignedTx (w_privKey w) (cl_systemPod c) (str "deregister_validator") [] [] [] []) (fun _ => tt).

(** ** Domains *)

Definition DomainRegister (w : Wallet) (c : Client) (name : bytes) (objectID : Hash) (termEpochs : Z) (gasCoinID : Hash) : walletError + Hash :=
  submitted c (buildOpsTx w [] gasCoinID [mkDeclaredOp domainRegisterOpKind objectID 0 [] name termEpochs]) id.

Definition DomainRenew (w : Wallet) (c : Client) (name : bytes) (termEpochs : Z) (gasCoinID : Hash) : walletError + Hash :=
  submitted c (buildOpsTx w [] gasCoinID [mkDeclaredOp domainRenewOpKind [] 0 [] name termEpochs]) id.

Definition DomainTransfer (w : Wallet) (c : Client) (name : bytes) (newOwner gasCoinID : Hash) : walletError + Hash :=
  submitted c (buildOpsTx w [] gasCoinID [mkDeclaredOp domainTransferOpKind [] 0 newOwner name 0]) id.

Definition DomainUpdate (w : Wallet) (c : Client) (name : bytes) (objectID gasCoinID : Hash) : walletError + Hash :=
  submitted c (buildOpsTx w [] gasCoinID [domainUpdateOpFor name objectID]) id.

Definition DomainDelete (w : Wallet) (c : Client) (name : bytes) (gasCoinID : Hash) : walletError + Hash :=
  submitted c (buildOpsTx w [] gasCoinID [domainDeleteOpFor name]) id.

(** ** Sponsored operations *)

Definition sponsoredBody (sender : bytes) (op : SponsoredOp) (sponsorPubkey gasCoin : Hash) (validUntil : Z) : bytes :=
  BuildUnsignedTxBytesSponsored X sender (so_Pod op) (so_FuncName op) (so_Args op) (so_CreatedReps op) clientMaxGas gasCoin
    (so_MutableRefs op) (so_ReadRefs op) (mkSponsorship sponsorPubkey validUntil) [] (so_Operations op).

Definition SignSponsoredOp (w : Wallet) (op : SponsoredOp) (sponsorPubkey gasCoin : Hash) (validUntil : Z) : SignedSponsoredOp :=
  let sender := ed25519Public K (w_privKey w) in
  let hash := blake3 X (sponsoredBody sender op sponsorPubkey gasCoin validUntil) in
  mkSignedOp op sender gasCoin validUntil (ed25519Sign K (w_privKey w) hash).

Definition SubmitSponsored (w : Wallet) (c : Client) (signed : SignedSponsoredOp) : walletError + Hash :=
  let op := ss_Op signed in
  let hash := blake3 X (sponsoredBody (ss_Sender signed) op (Pubkey w) (ss_GasCoin signed) (ss_ValidUntil signed)) in
  let sponsor := mkSponsorship (ed25519Public K (w_privKey w)) (ss_ValidUntil signed) in
  let tx := BuildTxTableSponsored (ss_Sender signed) (so_Pod op) (so_FuncName op) (so_Args op) (so_CreatedReps op) clientMaxGas (ss_GasCoin signed)
              hash (ss_SenderSig signed) (so_MutableRefs op) (so_ReadRefs op) sponsor (ed25519Sign K (w_privKey w) hash) [] (so_Operations op) in
  submitted c (tx, hash) id.

(** ** What the wallet keeps *)

Definition NewWalletFromKey (privKey : bytes) : Wallet := mkWallet privKey ∅ ∅ None.

Definition RefreshCoin (w : Wallet) (c : Client) (coinID : Hash) : walletError + Wallet :=
  match clientGetObject c coinID with
  | inl e => inl e
  | inr obj =>
      if Nat.ltb (length (oi_Content obj)) 8 then inl errShortCoin
      else inr (mkWallet (w_privKey w) (<[coinID := mkCoinInfo coinID (oi_Version obj) (le_dec (take 8 (oi_Content obj)))]> (w_coins w))
                  (w_objects w) (w_checkpoint w))
  end.

End Operations.

Definition Track (w : Wallet) (id : Hash) : Wallet :=
  match w_coins w !! id with
  | Some _ => w
  | None => mkWallet (w_privKey w) (<[id := mkCoinInfo id 0 0]> (w_coins w)) (w_objects w) (w_checkpoint w)
  end.

Definition Knows (w : Wallet) (id : Hash) : bool := bool_decide (is_Some (w_coins w !! id)).

Definition TrackObject (w : Wallet) (id : Hash) : Wallet := mkWallet (w_privKey w) (w_coins w) ({[id]} ∪ w_objects w) (w_checkpoint w).

(** Go visits a map in no particular order; these are in one order. *)
Definition CoinIDs (w : Wallet) : list Hash := map fst (map_to_list (w_coins w)).
Definition ObjectIDs (w : Wallet) : list Hash := elements (w_objects w).

Definition SetCheckpoint (w : Wallet) (cp : Checkpoint) : Wallet := mkWallet (w_privKey w) (w_coins w) (w_objects w) (Some cp).

(** ** The wallet file (wallet.go)

    A hexadecimal string is its ASCII bytes. *)

Definition hexDigit (n : Z) : Z := if n <? 10 then 48 + n else 87 + n.
Definition hexValue (c : Z) : option Z :=
  if (48 <=? c) && (c <=? 57) then Some (c - 48)
  else if (97 <=? c) && (c <=? 102) then Some (c - 87)
  else if (65 <=? c) && (c <=? 70) then Some (c - 55)
  else None.

Definition EncodeToString (b : bytes) : bytes := concat (map (fun x => [hexDigit (x / 16); hexDigit (x mod 16)]) b).

Fixpoint DecodeString (s : bytes) : option bytes :=
  match s with
  | [] => Some []
  | [_] => None
  | a :: b :: s => hi ← hexValue a; lo ← hexValue b; rest ← DecodeString s; Some (16 * hi + lo :: rest)
  end.

Record walletCheckpoint := mkWalletCheckpoint { wc_Epoch : Z; wc_IndexRoot : bytes; wc_ValidatorSetHash : bytes }.
Record walletFile := mkWalletFile { wf_Key : bytes; wf_Coins : list bytes; wf_Objects : list bytes; wf_Checkpoint : option walletCheckpoint }.

Definition PrivateKeySize : nat := 64%nat.

(** [Save], up to the JSON text; [coins] and [objects] are the orders the maps are visited in. *)
Definition Save (w : Wallet) (coins objects : list Hash) : walletFile :=
  mkWalletFile (EncodeToString (w_privKey w)) (map EncodeToString coins) (map EncodeToString objects)
    ((fun cp => mkWalletCheckpoint (cp_Epoch cp) (EncodeToString (cp_IndexRoot cp)) (EncodeToString (cp_ValidatorSetHash cp))) <$> w_checkpoint w).

Definition decodeRoot (s : bytes) : option Hash := raw ← DecodeString s; hash32 raw.

Definition decodeWalletCheckpoint (wc : walletCheckpoint) : option Checkpoint :=
  root ← decodeRoot (wc_IndexRoot wc); set ← decodeRoot (wc_ValidatorSetHash wc); Some (mkCheckpoint (wc_Epoch wc) root set).

Definition loadIDs (track : Wallet -> Hash -> Wallet) (ids : list bytes) (w : Wallet) : option Wallet :=
  foldl (fun acc s => w ← acc; id ← decodeRoot s; Some (track w id)) (Some w) ids.

Definition LoadWallet (wf : walletFile) : option Wallet :=
  rawKey ← DecodeString (wf_Key wf);
  if negb (Nat.eqb (length rawKey) PrivateKeySize) then None
  else
    w ← loadIDs Track (wf_Coins wf) (NewWalletFromKey rawKey);
    w ← loadIDs TrackObject (wf_Objects wf) w;
    match wf_Checkpoint wf with
    | None => Some w
    | Some wc => cp ← decodeWalletCheckpoint wc; Some (SetCheckpoint w cp)
    end.
