(* ===== verification/WalletFacts.v ===== *)
(** * What a wallet signs is accepted and understood

    Every operation of a wallet gives its node a transaction that asks for what the
    operation is about and passes ingress and the authenticity check of the commit
    path, and returns its hash and the ID the node derives from it; the arguments it encodes are the ones
    the handlers and the system pod read; a saved wallet loads. *)

From S2P Require Import Prelude Types Ingress Tracker Fees Coins Commit Execution SystemPod LightClient Builders Wallet.

(** ** The operations *)

Inductive Action :=
| ASplit (coin : Hash) (amount : Z) (recipient : Hash)
| ATransfer (coin recipient : Hash)
| ACreateObject (replication : Z) (metadata : bytes) (gas : Hash)
| ATransferObject (object recipient gas : Hash)
| AReparent (object parent gas : Hash)
| ADeleteObject (object gas : Hash)
| ASetObject (object : Hash) (content : bytes) (gas : Hash)
| ABond (coin : Hash) (version amount : Z)
| AUnbond (coin : Hash) (version amount : Z)
| ADelegate (coin : Hash) (version : Z) (validator : Hash) (amount : Z)
| AUndelegate (coin : Hash) (version : Z) (validator : Hash)
| AMerge (dest : Hash) (version : Z) (sources : list CoinInfo)
| ARegister (quicAddr blsPubkey : bytes) (rewardCoin : Hash)
| ADeregister
| ADomainRegister (name : bytes) (object : Hash) (term : Z) (gas : Hash)
| ADomainRenew (name : bytes) (term : Z) (gas : Hash)
| ADomainTransfer (name : bytes) (owner gas : Hash)
| ADomainUpdate (name : bytes) (object gas : Hash)
| ADomainDelete (name : bytes) (gas : Hash)
| ASponsored (sender : Wallet) (op : SponsoredOp) (gas : Hash) (validUntil : Z).

Section Actions.
Context (X : Crypto) (K : Keys) (B : BLSKeys).

Definition one (r : walletError + Hash) : walletError + list Hash := match r with inl e => inl e | inr a => inr [a] end.
Definition two (r : walletError + (Hash * Hash)) : walletError + list Hash := match r with inl e => inl e | inr (a, b) => inr [a; b] end.
Definition none (r : walletError + unit) : walletError + list Hash := match r with inl e => inl e | inr _ => inr [] end.

(** The hashes an operation returns: the predicted ID first where there is one. *)
Definition perform (w : Wallet) (c : Client) (a : Action) : walletError + list Hash :=
  match a with
  | ASplit coin amount recipient => two (Split X K w c coin amount recipient)
  | ATransfer coin recipient => one (Transfer X K w c coin recipient)
  | ACreateObject replication metadata gas => two (CreateObject X K w c replication metadata gas)
  | ATransferObject object recipient gas => one (TransferObject X K w c object recipient gas)
  | AReparent object parent gas => one (Reparent X K w c object parent gas)
  | ADeleteObject object gas => one (DeleteObject X K w c object gas)
  | ASetObject object content gas => one (SetObject X K w c object content gas)
  | ABond coin version amount => one (Bond X K w c coin version amount)
  | AUnbond coin version amount => one (Unbond X K w c coin version amount)
  | ADelegate coin version validator amount => two (Delegate X K w c coin version validator amount)
  | AUndelegate coin version validator => one (Undelegate X K w c coin version validator)
  | AMerge dest version sources => one (Merge X K w c dest version sources)
  | ARegister quicAddr blsPubkey rewardCoin => none (RegisterValidator X K B w c quicAddr blsPubkey rewardCoin)
  | ADeregister => none (DeregisterValidator X K w c)
  | ADomainRegister name object term gas => one (DomainRegister X K w c name object term gas)
  | ADomainRenew name term gas => one (DomainRenew X K w c name term gas)
  | ADomainTransfer name owner gas => one (DomainTransfer X K w c name owner gas)
  | ADomainUpdate name object gas => one (DomainUpdate X K w c name object gas)
  | ADomainDelete name gas => one (DomainDelete X K w c name gas)
  | ASponsored sender op gas validUntil => one (SubmitSponsored X K w c (SignSponsoredOp X K sender op (Pubkey K w) gas validUntil))
  end.

(** An ID that names something: 32 bytes, not all zero. *)
Definition named (id : Hash) : Prop := length id = 32%nat /\ id <> zeroHash.

(** What an operation takes for granted: tracked coins, objects the node serves, a
    BLS key of the wallet's own; identifiers of the right length and no repetition. *)
Definition actionOk (w : Wallet) (c : Client) (a : Action) : Prop :=
  match a with
  | ASplit coin _ _ | ATransfer coin _ => named coin /\ is_Some (w_coins w !! coin)
  | ACreateObject _ _ gas => length gas = 32%nat
  | ATransferObject object _ gas | AReparent object _ gas | ADeleteObject object gas | ASetObject object _ gas =>
      named object /\ length gas = 32%nat /\ is_Some (cl_getObject c object)
  | ABond coin _ _ | AUnbond coin _ _ | ADelegate coin _ _ _ | AUndelegate coin _ _ => named coin
  | AMerge dest _ sources =>
      sources <> [] /\ Forall named (dest :: map ci_ID sources) /\ NoDup (dest :: map ci_ID sources) /\ (length sources < maxObjectRefs)%nat
  | ARegister _ blsPubkey _ => blsPubkey = [] \/ blsDerived B (w_privKey w) = Some blsPubkey
  | ADeregister => True
  | ADomainRegister _ _ _ gas | ADomainRenew _ _ gas | ADomainTransfer _ _ gas | ADomainUpdate _ _ gas | ADomainDelete _ gas => length gas = 32%nat
  | ASponsored _ op gas _ => callOk (so_Pod op) (so_FuncName op) gas (so_MutableRefs op) (so_ReadRefs op) (so_Operations op) (so_CreatedReps op)
  end.

(** What the node should be asked for: the function with its arguments, or the
    declared operations. *)
Definition asksFor (w : Wallet) (tx : Transaction) (a : Action) : Prop :=
  let calls fn args := tx_FunctionName tx = str fn /\ tx_Args tx = args /\ tx_Operations tx = [] in
  let declares op := tx_FunctionName tx = [] /\ tx_Args tx = [] /\ tx_Operations tx = [op] in
  match a with
  | ASplit _ amount recipient => calls "split" (encodeSplitArgs amount recipient)
  | ATransfer coin recipient => declares (mkDeclaredOp reparentOpKind coin keyRootKind recipient [] 0)
  | ACreateObject replication metadata _ => calls "create_object" (encodeCreateObjectArgs (Pubkey K w) replication metadata)
  | ATransferObject object recipient _ => declares (mkDeclaredOp reparentOpKind object keyRootKind recipient [] 0)
  | AReparent object parent _ => declares (mkDeclaredOp reparentOpKind object objectParentKind parent [] 0)
  | ADeleteObject object _ => declares (mkDeclaredOp deleteOpKind object 0 [] [] 0)
  | ASetObject object content _ => calls "set_object" (encodeSetObjectArgs object content)
  | ABond _ _ amount => calls "bond" (encodeStakeArgs amount)
  | AUnbond _ _ amount => calls "unbond" (encodeStakeArgs amount)
  | ADelegate _ _ validator amount => calls "delegate" (encodeDelegateArgs validator amount)
  | AUndelegate _ _ validator => calls "undelegate" (encodeUndelegateArgs validator)
  | AMerge dest _ sources => calls "merge" [] /\ map ref_id (tx_MutableRefs tx) = dest :: map ci_ID sources
  | ARegister quicAddr blsPubkey rewardCoin => exists pop, proveBLSKey K B w blsPubkey = inr pop /\ calls "register_validator" (EncodeRegisterValidatorArgs quicAddr blsPubkey pop rewardCoin)
  | ADeregister => calls "deregister_validator" []
  | ADomainRegister name object term _ => declares (mkDeclaredOp domainRegisterOpKind object 0 [] name term)
  | ADomainRenew name term _ => declares (mkDeclaredOp domainRenewOpKind [] 0 [] name term)
  | ADomainTransfer name owner _ => declares (mkDeclaredOp domainTransferOpKind [] 0 owner name 0)
  | ADomainUpdate name object _ => declares (mkDeclaredOp domainUpdateOpKind object 0 [] name 0)
  | ADomainDelete name _ => declares (mkDeclaredOp domainDeleteOpKind [] 0 [] name 0)
  | ASponsored _ op _ validUntil =>
      tx_FunctionName tx = so_FuncName op /\ tx_Args tx = so_Args op /\ tx_Operations tx = so_Operations op /\
      tx_FeePayer tx = ed25519Public K (w_privKey w) /\ tx_ValidUntil tx = validUntil
  end.

(** Whose transaction it is. *)
Definition signerOf (w : Wallet) (a : Action) : bytes :=
  ed25519Public K (w_privKey (match a with ASponsored sender _ _ _ => sender | _ => w end)).

(** What the caller should get: the transaction's hash, after the ID the node gives to
    the object the transaction creates or to the position it opens; nothing for a
    registration. *)
Definition answerOf (w : Wallet) (tx : Transaction) (a : Action) : list Hash :=
  match a with
  | ASplit _ _ _ | ACreateObject _ _ _ => [computeObjectID X (tx_Hash tx) 0; tx_Hash tx]
  | ADelegate _ _ validator _ => [DelegationID X (Pubkey K w) validator; tx_Hash tx]
  | ARegister _ _ _ | ADeregister => []
  | _ => [tx_Hash tx]
  end.

(** ** Acceptance *)

Context {Hed : Ed25519 X K} (Hdigest : forall m, length (blake3 X m) = 32%nat).

(** The two checks a transaction meets before it can touch state. *)
Definition gates (tx : Transaction) : bool := ValidateTx X tx && verifyTxAuthenticity X tx.

(** The same node, taking or refusing what it is handed as [submit] says. *)
Definition taking (submit : Transaction -> bool) (c : Client) : Client := mkClient (cl_systemPod c) submit (cl_getObject c).

(** An operation hands over [tx] and nothing else, and answers with [answer] if it is taken. *)
Definition handsOver (w : Wallet) (c : Client) (a : Action) (tx : Transaction) (answer : list Hash) : Prop :=
  forall submit, perform w (taking submit c) a = if submit tx then inr answer else inl errSubmit.

Lemma selfPaid_passes sk pod fn args created gas coin muts ops :
  callOk pod fn coin muts [] ops created ->
  let hash := blake3 X (BuildUnsignedTxBytesSponsored X (ed25519Public K sk) pod fn args created gas coin muts [] selfPaid [] ops) in
  gates (BuildTxTableSponsored (ed25519Public K sk) pod fn args created gas coin hash (ed25519Sign K sk hash) muts [] selfPaid [] [] ops) = true.
Proof using Hed Hdigest.
  intros Hc hash. unfold gates. apply andb_true_iff. apply (signed_table_passes X K Hdigest sk); [done|]. intros Hl. discriminate Hl.
Qed.

Lemma callOk_fn pod fn coin muts created :
  length pod = 32%nat -> fn <> [] -> (length coin = 0%nat \/ length coin = 32%nat) -> Forall named (map ref_id muts) ->
  Forall (fun r => ref_domain r = []) muts -> NoDup (map ref_id muts) -> (length muts <= maxObjectRefs)%nat ->
  callOk pod fn coin muts [] [] created.
Proof using Type.
  intros Hp Hf Hc Hn Hd Hnd Hl. rewrite Forall_map in Hn. split; rewrite ?app_nil_r; try done.
  - eapply Forall_impl; [exact Hn|]. by intros r [? _].
  - apply Forall_and. split; [|done]. eapply Forall_impl; [exact Hn|]. by intros r [_ ?].
  - by left.
Qed.

Lemma callOk_ops coin muts op :
  length coin = 32%nat -> Forall named (map ref_id muts) -> Forall (fun r => ref_domain r = []) muts -> (length muts <= 1)%nat ->
  callOk zeroHash [] coin muts [] [op] [].
Proof using Type.
  intros Hc Hn Hd Hl. rewrite Forall_map in Hn. split; rewrite ?app_nil_r; try done.
  - by right.
  - eapply Forall_impl; [exact Hn|]. by intros r [? _].
  - apply Forall_and. split; [|done]. eapply Forall_impl; [exact Hn|]. by intros r [_ ?].
  - unfold maxObjectRefs. cbn [length Nat.add]. etrans; [exact Hl|lia].
  - destruct muts as [|r [|r' muts]]; cbn in *; [apply NoDup_nil_2|apply NoDup_singleton|lia].
  - right. split_and!; try done. unfold maxDeclaredOps, maxObjectRefs. cbn. lia.
Qed.

Lemma gas_tx_passes sk pod fn args created muts coin :
  callOk pod fn coin muts [] [] created -> gates (fst (buildSignedGasTx X K sk pod fn args created muts [] coin)) = true.
Proof using Hed Hdigest. apply (selfPaid_passes sk pod fn args created clientMaxGas coin muts []). Qed.

Lemma ops_tx_passes sk muts coin op :
  length coin = 32%nat -> Forall named (map ref_id muts) -> Forall (fun r => ref_domain r = []) muts -> (length muts <= 1)%nat ->
  gates (fst (buildSignedOpsTx X K sk muts coin [op])) = true.
Proof using Hed Hdigest. intros. apply (selfPaid_passes sk zeroHash [] [] [] clientMaxGas coin muts [op]). by apply callOk_ops. Qed.

Lemma coin_tx_passes w pod fn args created coin version :
  length pod = 32%nat -> fn <> [] -> named coin -> gates (fst (buildCoinTx X K w pod fn args created coin version)) = true.
Proof using Hed Hdigest.
  intros Hp Hf Hn. apply gas_tx_passes, callOk_fn; try done.
  - right. apply Hn.
  - by repeat constructor; apply Hn.
  - by repeat constructor.
  - apply NoDup_singleton.
  - unfold maxObjectRefs. cbn. lia.
Qed.

Lemma object_tx_passes w pod fn args created coin object version :
  length pod = 32%nat -> fn <> [] -> named object -> length coin = 32%nat ->
  gates (fst (buildObjectTx X K w pod fn args created (buildMutableRef object version) coin)) = true.
Proof using Hed Hdigest.
  intros Hp Hf Hn Hl. apply gas_tx_passes, callOk_fn; try done; [by right|by repeat constructor; apply Hn|by repeat constructor|apply NoDup_singleton|].
  unfold maxObjectRefs. cbn. lia.
Qed.

Lemma ref_tx_passes w object version coin op :
  named object -> length coin = 32%nat -> gates (fst (buildOpsTx X K w (buildMutableRef object version) coin [op])) = true.
Proof using Hed Hdigest. intros Hn Hl. apply ops_tx_passes; [done|by repeat constructor; apply Hn|by repeat constructor|done]. Qed.

Lemma name_tx_passes w coin op : length coin = 32%nat -> gates (fst (buildOpsTx X K w [] coin [op])) = true.
Proof using Hed Hdigest. intros Hl. apply ops_tx_passes; [done|apply Forall_nil_2..|cbn; lia]. Qed.

Lemma raw_tx_passes sk pod fn args created :
  length pod = 32%nat -> fn <> [] -> gates (fst (buildSignedTx X K sk pod fn args created [] [])) = true.
Proof using Hed Hdigest.
  intros Hp Hf. apply (selfPaid_passes sk pod fn args created 0 [] [] []). apply callOk_fn; try done; [by left|apply Forall_nil_2..|apply NoDup_nil_2|cbn; lia].
Qed.

Lemma merge_tx_passes w pod dest version sources :
  length pod = 32%nat -> Forall named (dest :: map ci_ID sources) -> NoDup (dest :: map ci_ID sources) -> (length sources < maxObjectRefs)%nat ->
  gates (fst (buildObjectTx X K w pod (str "merge") [] [] (mkTxRef dest version [] :: sourceRefs sources) dest)) = true.
Proof using Hed Hdigest.
  intros Hp Hn Hd Hl. assert (E : map ref_id (mkTxRef dest version [] :: sourceRefs sources) = dest :: map ci_ID sources).
  { cbn [map]. f_equal. unfold sourceRefs. rewrite map_map. by apply map_ext. }
  apply gas_tx_passes, callOk_fn; rewrite ?E; try done.
  - right. inversion Hn as [|? ? [? ?] ?]. done.
  - constructor; [done|]. unfold sourceRefs. apply Forall_map, Forall_true. done.
  - cbn [length]. unfold sourceRefs. rewrite length_map. lia.
Qed.

Lemma merge_refs refs : Forall named (map ref_id refs) -> map ref_id (buildObjectRefDataVector refs) = map ref_id refs.
Proof using Type.
  induction refs as [|r refs IH]; [done|]. intros [[_ Hz] Hr]%Forall_cons. cbn [map buildObjectRefDataVector]. f_equal; [|by apply IH].
  unfold buildSingleObjectRef. cbn [ref_id]. by rewrite bool_decide_false.
Qed.

Lemma source_ids dest version sources : map ref_id (mkTxRef dest version [] :: sourceRefs sources) = dest :: map ci_ID sources.
Proof using Type. cbn [map]. f_equal. unfold sourceRefs. rewrite map_map. by apply map_ext. Qed.

(** Both signatures of a sponsored operation are over the sponsor's body. *)
Lemma sponsored_tx_passes w c sender op gas validUntil :
  callOk (so_Pod op) (so_FuncName op) gas (so_MutableRefs op) (so_ReadRefs op) (so_Operations op) (so_CreatedReps op) ->
  let a := ASponsored sender op gas validUntil in
  exists tx, gates tx = true /\ tx_Sender tx = signerOf w a /\ asksFor w tx a /\ handsOver w c a tx (answerOf w tx a).
Proof using Hed Hdigest.
  intros Hc a. set (hash := blake3 X (sponsoredBody X (ed25519Public K (w_privKey sender)) op (ed25519Public K (w_privKey w)) gas validUntil)).
  exists (BuildTxTableSponsored (ed25519Public K (w_privKey sender)) (so_Pod op) (so_FuncName op) (so_Args op) (so_CreatedReps op) clientMaxGas gas hash
    (ed25519Sign K (w_privKey sender) hash) (so_MutableRefs op) (so_ReadRefs op) (mkSponsorship (ed25519Public K (w_privKey w)) validUntil)
    (ed25519Sign K (w_privKey w) hash) [] (so_Operations op)). split_and!.
  - unfold gates. apply andb_true_iff. refine (signed_table_passes X K Hdigest (w_privKey sender) (so_Pod op) (so_FuncName op) (so_Args op) (so_CreatedReps op)
      clientMaxGas gas (so_MutableRefs op) (so_ReadRefs op) (mkSponsorship (ed25519Public K (w_privKey w)) validUntil) _ [] (so_Operations op) Hc _).
    intros _. apply ed_verifies.
  - done.
  - by rewrite ?buildDeclaredOpsVector_id; split_and!; cbn; rewrite ?buildDeclaredOpsVector_id.
  - intros submit. cbn [perform a answerOf]. unfold SubmitSponsored, SignSponsoredOp, submitted, taking. cbn [ss_Op ss_Sender ss_GasCoin ss_ValidUntil ss_SenderSig cl_submit fst snd].
    assert (Ep : Pubkey K w = ed25519Public K (w_privKey w)).
    { unfold Pubkey, toHash. rewrite take_app_le by (rewrite (ed_public (X:=X)); lia). apply take_ge. rewrite (ed_public (X:=X)). lia. }
    rewrite Ep. fold hash. by destruct (submit _).
Qed.

End Actions.

(** Whatever a wallet asks for within its own terms, it hands over one transaction,
    signed by its key, that says what was asked and passes both gates of the node; the
    caller gets the hashes that belong to that transaction. *)


(** ** Arguments *)

Lemma rd_take_here k (x rest : bytes) : length x = k -> rd_take k (x ++ rest) = Some (x, rest).
Proof.
  intros Hk. unfold rd_take. rewrite length_app. destruct (Nat.ltb_spec (length x + length rest) k); [lia|].
  by rewrite take_app_length', drop_app_length' by done.
Qed.

Lemma rd_uint_here k z rest : 0 <= z < 256 ^ Z.of_nat k -> rd_uint k (le_enc k z ++ rest) = Some (z, rest).
Proof. intros Hz. unfold rd_uint, rd_bind, rd_ret. rewrite rd_take_here by apply length_le_enc. cbn [mbind option_bind]. by rewrite le_dec_enc. Qed.

Lemma rd_vec_here x rest : Z.of_nat (length x) < two32 -> rd_vec (le_enc 4 (u32 (Z.of_nat (length x))) ++ x ++ rest) = Some (x, rest).
Proof.
  intros Hl. unfold rd_vec, rd_bind. rewrite u32_small by lia. rewrite rd_uint_here by (simpl; lia). cbn [mbind option_bind].
  rewrite Nat2Z.id. by apply rd_take_here.
Qed.

Lemma rd_take_all k (x : bytes) : length x = k -> rd_take k x = Some (x, []).
Proof. intros Hk. by rewrite <- (app_nil_r x) at 1; apply rd_take_here. Qed.

Lemma rd_uint_all k z : 0 <= z < 256 ^ Z.of_nat k -> rd_uint k (le_enc k z) = Some (z, []).
Proof. intros Hz. rewrite <- (app_nil_r (le_enc k z)). by apply rd_uint_here. Qed.

Lemma rd_vec_all x : Z.of_nat (length x) < two32 -> rd_vec (le_enc 4 (u32 (Z.of_nat (length x))) ++ x) = Some (x, []).
Proof. intros Hl. rewrite <- (rd_vec_here x []) by done. by rewrite app_nil_r. Qed.

(** The identifiers a wallet predicts are those the node computes, and every argument
    it encodes is read back, by the pod and by the staking handlers. *)
Theorem wallet_and_node_agree (X : Crypto) (amount rep : Z) (owner validator object content hash : bytes) :
  is_u64 amount -> 0 <= rep < 65536 -> length owner = 32%nat -> length validator = 32%nat -> length object = 32%nat ->
  Z.of_nat (length content) < two32 ->
  try_from_slice (rd_bind (rd_uint 8) (fun a => rd_bind (rd_take 32) (fun o => rd_ret (a, o)))) (encodeSplitArgs amount owner) = Some (amount, owner) /\
  try_from_slice (rd_bind (rd_take 32) (fun i => rd_bind rd_vec (fun x => rd_ret (i, x)))) (encodeSetObjectArgs object content) = Some (object, content) /\
  try_from_slice (rd_bind (rd_take 32) (fun o => rd_bind (rd_uint 2) (fun r => rd_bind rd_vec (fun x => rd_ret (o, r, x)))))
    (encodeCreateObjectArgs owner rep content) = Some (owner, rep, content) /\
  try_from_slice (rd_uint 8) (encodeStakeArgs amount) = Some amount /\ decodeStakeAmount (encodeStakeArgs amount) = Some amount /\
  try_from_slice (rd_bind (rd_take 32) (fun v => rd_bind (rd_uint 8) (fun a => rd_ret (v, a)))) (encodeDelegateArgs validator amount) = Some (validator, amount) /\
  decodeDelegateArgs (encodeDelegateArgs validator amount) true = Some (validator, amount) /\
  try_from_slice (rd_take 32) (encodeUndelegateArgs validator) = Some validator /\ decodeDelegateArgs (encodeUndelegateArgs validator) false = Some (validator, 0) /\
  computeNewObjectID X hash = computeObjectID X hash 0 /\ delegationPositionID X owner validator = DelegationID X owner validator.
Proof.
  intros Ha Hr Ho Hv Hb Hc. assert (Ha8 : 0 <= amount < 256 ^ Z.of_nat 8) by (unfold is_u64 in Ha; simpl; lia).
  assert (Hr2 : 0 <= rep < 256 ^ Z.of_nat 2) by (simpl; lia).
  unfold try_from_slice, rd_bind, rd_ret, encodeSplitArgs, encodeSetObjectArgs, encodeCreateObjectArgs, encodeStakeArgs, encodeDelegateArgs, encodeUndelegateArgs.
  split_and!.
  - rewrite (rd_uint_here 8) by done. cbn [mbind option_bind]. by rewrite rd_take_all.
  - rewrite rd_take_here by done. cbn [mbind option_bind]. by rewrite rd_vec_all.
  - rewrite rd_take_here by done. cbn [mbind option_bind]. rewrite (rd_uint_here 2) by done. cbn [mbind option_bind]. by rewrite rd_vec_all.
  - by rewrite (rd_uint_all 8).
  - unfold decodeStakeAmount. rewrite length_le_enc. cbn [Nat.ltb Nat.leb]. rewrite take_ge by (by rewrite length_le_enc). by rewrite le_dec_enc.
  - rewrite rd_take_here by done. cbn [mbind option_bind]. by rewrite (rd_uint_all 8).
  - unfold decodeDelegateArgs. rewrite length_app, length_le_enc, Hv. cbn [Nat.ltb Nat.leb plus]. rewrite take_app_length' by done.
    rewrite Prelude.slice_app_r by lia. rewrite Hv, Prelude.slice_whole by apply length_le_enc. by rewrite le_dec_enc.
  - by rewrite rd_take_all.
  - unfold decodeDelegateArgs. rewrite Hv. cbn [Nat.ltb Nat.leb]. by rewrite take_ge by lia.
  - done.
  - done.
Qed.

(** ** The wallet file *)

Lemma hexValue_digit n : 0 <= n < 16 -> hexValue (hexDigit n) = Some n.
Proof.
  intros Hn. unfold hexDigit, hexValue. destruct (Z.ltb_spec n 10).
  - destruct (Z.leb_spec 48 (48 + n)); [|lia]. destruct (Z.leb_spec (48 + n) 57); [|lia]. cbn [andb]. f_equal. lia.
  - destruct (Z.leb_spec 48 (87 + n)); [|lia]. destruct (Z.leb_spec (87 + n) 57); [lia|]. cbn [andb].
    destruct (Z.leb_spec 97 (87 + n)); [|lia]. destruct (Z.leb_spec (87 + n) 102); [|lia]. cbn [andb]. f_equal. lia.
Qed.

Lemma hex_roundtrip b : wf_bytes b -> DecodeString (EncodeToString b) = Some b.
Proof.
  induction 1 as [|x b Hx _ IH]; [done|]. unfold EncodeToString in *. cbn [map concat app DecodeString]. unfold is_byte in Hx.
  rewrite !hexValue_digit by (split; [apply Z.div_pos || apply Z.mod_pos_bound|apply Z.div_lt_upper_bound || apply Z.mod_pos_bound]; lia).
  cbn [mbind option_bind]. rewrite IH. cbn [mbind option_bind]. do 2 f_equal. symmetry. rewrite Z.mul_comm, (Z.mul_comm _ 16). apply Z.div_mod. lia.
Qed.

Lemma decodeRoot_hash id : wf_bytes id -> length id = 32%nat -> decodeRoot (EncodeToString id) = Some id.
Proof. intros Hw Hl. unfold decodeRoot. rewrite hex_roundtrip by done. cbn [mbind option_bind]. unfold hash32. by rewrite decide_True. Qed.

Definition idOk (id : Hash) : Prop := wf_bytes id /\ length id = 32%nat.

Lemma loadIDs_saved track ids w : Forall idOk ids -> loadIDs track (map EncodeToString ids) w = Some (foldl track w ids).
Proof.
  intros Hi. unfold loadIDs. revert w. induction Hi as [|id ids [Hw Hl] _ IH]; intros w; [done|]. cbn [map foldl mbind option_bind].
  rewrite decodeRoot_hash by done. cbn [mbind option_bind]. apply IH.
Qed.

Lemma foldl_Track (ids : list Hash) w : foldl Track w ids =
  mkWallet (w_privKey w) (foldl (fun m id => match m !! id with Some _ => m | None => <[id := mkCoinInfo id 0 0]> m end) (w_coins w) ids) (w_objects w) (w_checkpoint w).
Proof.
  revert w. induction ids as [|id ids IH]; intros w; [by destruct w|]. cbn [foldl]. rewrite IH. unfold Track. by destruct (w_coins w !! id).
Qed.

Lemma tracked_coins (ids : list Hash) (m : gmap Hash CoinInfo) (x : Hash) :
  foldl (fun m id => match m !! id with Some _ => m | None => <[id := mkCoinInfo id 0 0]> m end) m ids !! x =
  match m !! x with Some ci => Some ci | None => if bool_decide (x ∈ ids) then Some (mkCoinInfo x 0 0) else None end.
Proof.
  revert m. induction ids as [|id ids IH]; intros m; cbn [foldl]; [by destruct (m !! x)|]. rewrite IH. destruct (m !! id) as [ci|] eqn:E.
  - destruct (m !! x) eqn:Ex; [done|]. rewrite (bool_decide_ext (x ∈ id :: ids) (x ∈ ids)); [done|]. rewrite elem_of_cons. split; [intros [->|?]; [congruence|done]|auto].
  - destruct (decide (x = id)) as [->|Hne].
    + rewrite lookup_insert_eq, E. by rewrite bool_decide_true by left.
    + rewrite lookup_insert_ne by done. destruct (m !! x); [done|]. rewrite (bool_decide_ext (x ∈ id :: ids) (x ∈ ids)); [done|]. rewrite elem_of_cons. tauto.
Qed.

Lemma foldl_TrackObject (ids : list Hash) w : foldl TrackObject w ids = mkWallet (w_privKey w) (w_coins w) (list_to_set ids ∪ w_objects w) (w_checkpoint w).
Proof.
  revert w. induction ids as [|id ids IH]; intros w; cbn [foldl list_to_set].
  - destruct w as [k co ob cp]. cbn. f_equal. by rewrite union_empty_l_L.
  - rewrite IH. unfold TrackObject. cbn [w_privKey w_coins w_objects w_checkpoint]. f_equal. set_solver.
Qed.

(** In whatever order the maps are written, the file loads to the same key, objects
    and checkpoint, and to the same coins with version and balance to refresh. *)
Theorem saved_wallet_loads (w : Wallet) (coins objects : list Hash) :
  wf_bytes (w_privKey w) -> length (w_privKey w) = PrivateKeySize ->
  (forall id, is_Some (w_coins w !! id) <-> id ∈ coins) -> (forall id, id ∈ w_objects w <-> id ∈ objects) ->
  Forall idOk coins -> Forall idOk objects ->
  (forall cp, w_checkpoint w = Some cp -> idOk (cp_IndexRoot cp) /\ idOk (cp_ValidatorSetHash cp)) ->
  LoadWallet (Save w coins objects) =
  Some (mkWallet (w_privKey w) (map_imap (fun id _ => Some (mkCoinInfo id 0 0)) (w_coins w)) (w_objects w) (w_checkpoint w)).
Proof.
  intros Hk Hl Hc Ho Fc Fo Hp. unfold LoadWallet, Save. cbn [wf_Key wf_Coins wf_Objects wf_Checkpoint]. rewrite hex_roundtrip by done. cbn [mbind option_bind].
  rewrite Hl, Nat.eqb_refl. cbn [negb]. rewrite loadIDs_saved by done. cbn [mbind option_bind]. rewrite loadIDs_saved by done. cbn [mbind option_bind].
  rewrite foldl_Track, foldl_TrackObject. unfold NewWalletFromKey. cbn [w_privKey w_coins w_objects w_checkpoint].
  set (m := foldl _ ∅ coins).
  assert (Em : m = map_imap (fun id _ => Some (mkCoinInfo id 0 0)) (w_coins w)).
  { apply map_eq. intros x. unfold m. rewrite tracked_coins, lookup_empty, map_lookup_imap. destruct (w_coins w !! x) as [ci|] eqn:E; cbn [mbind option_bind].
    - rewrite bool_decide_true; [done|]. apply Hc. by eexists.
    - rewrite bool_decide_false; [done|]. intros Hx%Hc. rewrite E in Hx. by destruct Hx. }
  assert (Es : list_to_set objects ∪ ∅ = w_objects w) by (apply set_eq; intros x; rewrite elem_of_union, elem_of_list_to_set, Ho; set_solver).
  rewrite Em, Es. destruct (w_checkpoint w) as [cp|]; cbn [fmap option_fmap option_map]; [|done]. destruct (Hp cp eq_refl) as [[R1 R2] [V1 V2]].
  unfold decodeWalletCheckpoint. cbn [wc_IndexRoot wc_ValidatorSetHash wc_Epoch]. rewrite !decodeRoot_hash by done. cbn [mbind option_bind]. by destruct cp.
Qed.
