(* ===== verification/Daemon.v ===== *)
(** * The client daemon (pkg/daemon)

    How a signed transaction that touches replicated objects gets its quorum
    proofs: the validator set it syncs, the parallel requests to an object's
    holders with their results and failures in any order of arrival, the
    aggregation, the attested transaction and its submission with retries.
    A [Mesh] is what the network answers at one moment; QUIC is outside.  The BLS
    library's aggregation is the parameter [aggregate]. *)

From S2P Require Import Prelude Types Validators Attest Wire Builders.

(** ** Data *)

Record objectRef := mkObjectRef { dr_ID : Hash; dr_Version : Z }.

Record attestationResult := mkAttestation {
  ar_ObjectID : Hash;
  ar_ObjectData : Object;
  ar_Version : Z;
  ar_Replication : Z;
  ar_AggSig : bytes;
  ar_Bitmap : bytes;
}.

Record holderSig := mkHolderSig { hs_index : nat; hs_sig : bytes }.

(** What the collecting loop receives: from the results channel, from the failures
    channel, or the close of the results channel, which comes after every result. *)
Inductive arrival := Result_ (hs : holderSig) | Failure_ | Closed_.

Inductive daemonError := errFetch | errObjectMissing | errSingleton | ErrQuorumImpossible | errAggregate | errSubmission.

Record Daemon := mkDaemon { dm_validators : ValidatorSet; dm_epoch : Z }.

(** A submission body: a raw transaction or an attested one. *)
Inductive Body := RawTx (tx : Transaction) | FullATX (atx : AttestedTransaction).

Record Mesh := mkMesh {
  ms_GetObject : Hash -> option (option Object);
  ms_attest : bytes -> bytes -> option bytes;
  ms_schedule : Hash -> list (option holderSig) -> list arrival;
  ms_GetValidators : option bytes;
  ms_submit : Body -> option bytes;
}.

Definition maxRetries : nat := 4.

(** ** References *)

Definition refFromObjectRef (ref : TxRef) : option objectRef :=
  if Nat.eqb (length (ref_id ref)) 32 then Some (mkObjectRef (ref_id ref) (ref_version ref)) else None.

Definition collectRefs (tx : Transaction) : list objectRef := omap refFromObjectRef (tx_MutableRefs tx) ++ omap refFromObjectRef (tx_ReadRefs tx).

Fixpoint keepReplicated (getObject : Hash -> option (option Object)) (candidates : list objectRef) : option (list objectRef) :=
  match candidates with
  | [] => Some []
  | c :: candidates =>
      objData ← getObject (dr_ID c);
      refs ← keepReplicated getObject candidates;
      Some (match objData with None => refs | Some obj => if obj_replication obj =? 0 then refs else c :: refs end)
  end.

Definition replicatedRefs (getObject : Hash -> option (option Object)) (tx : Transaction) : option (list objectRef) :=
  keepReplicated getObject (collectRefs tx).

(** ** Collection *)

(** [collectUntilQuorum] over what arrives; [None] is the loop still waiting. *)
Fixpoint collectUntilQuorum (arrivals : list arrival) (total quorum : nat) (sigs : list bytes) (indices : list nat) (failed : nat)
    : option (option (list bytes * list nat)) :=
  match arrivals with
  | [] => None
  | Closed_ :: _ => Some (if Nat.leb quorum (length sigs) then Some (sigs, indices) else None)
  | Result_ hs :: arrivals =>
      let sigs := sigs ++ [hs_sig hs] in
      let indices := indices ++ [hs_index hs] in
      if Nat.leb quorum (length sigs) then Some (Some (sigs, indices)) else collectUntilQuorum arrivals total quorum sigs indices failed
  | Failure_ :: arrivals =>
      let failed := S failed in
      if Z.of_nat total - Z.of_nat failed <? Z.of_nat quorum then Some None else collectUntilQuorum arrivals total quorum sigs indices failed
  end.

Definition blsDST : bytes := str "BLS_SIG_BLS12381G2_XMD:SHA-256_SSWU_RO_NUL_".

Section Collect.
Context (X : Crypto) (aggregate : list bytes -> option bytes).

(** [attest.Verify]. *)
Definition attestVerify (signature message publicKey : bytes) : bool :=
  if negb (Nat.eqb (length signature) BLSSignatureSize) || negb (Nat.eqb (length publicKey) BLSPublicKeySize) then false
  else blsVerify X publicKey message signature blsDST.

(** [attest.AggregateSignatures]: sizes first, then the library. *)
Definition AggregateSignatures (signatures : list bytes) : option bytes :=
  if Nat.eqb (length signatures) 0 then None
  else if negb (forallb (fun s => Nat.eqb (length s) BLSSignatureSize) signatures) then None
  else aggregate signatures.

(** [requestOne]: what one holder's answer contributes, [None] for a failure. *)
Definition requestOne (roundTrip : bytes -> bytes -> option bytes) (index : nat) (addr blsPub : bytes) (id : Hash) (version : Z) (hash : Hash)
    : option holderSig :=
  resp ← roundTrip addr (EncodeRequest (mkRequest id version));
  msgType ← GetMessageType resp;
  if negb (msgType =? msgTypePositive) then None
  else
    positive ← DecodePositiveResponse resp;
    if negb (bool_decide (ps_Hash positive = hash)) then None
    else if negb (attestVerify (ps_Signature positive) hash blsPub) then None
    else Some (mkHolderSig index (ps_Signature positive)).

(** The outcome of every request of [requestQuorum], in holder order. *)
Definition outcomes (roundTrip : bytes -> bytes -> option bytes) (vs : ValidatorSet) (holders : list Hash) (id : Hash) (version : Z) (hash : Hash)
    : list (option holderSig) :=
  imap (fun i h =>
    match Validators.Get vs h with
    | None => None
    | Some info => if bool_decide (QUICAddr info = []) then None else requestOne roundTrip i (QUICAddr info) (BLSPubkey info) id version hash
    end) holders.

Definition requestQuorum (mesh : Mesh) (vs : ValidatorSet) (holders : list Hash) (id : Hash) (version : Z) (hash : Hash) (quorum : nat)
    : option (option (list bytes * list nat)) :=
  collectUntilQuorum (ms_schedule mesh id (outcomes (ms_attest mesh) vs holders id version hash)) (length holders) quorum [] [] 0.

(** [collectOne]; [None] while the requests run. *)
Definition collectOne (d : Daemon) (mesh : Mesh) (ref : objectRef) : option (daemonError + attestationResult) :=
  match ms_GetObject mesh (dr_ID ref) with
  | None => Some (inl errFetch)
  | Some None => Some (inl errObjectMissing)
  | Some (Some obj) =>
      if obj_replication obj =? 0 then Some (inl errSingleton)
      else
        let hash := ComputeObjectHash X (obj_content obj) (obj_version obj) (obj_owner obj) in
        let holders := ComputeHolders X (dm_validators d) (dr_ID ref) (obj_replication obj) in
        let quorum := QuorumSize (length holders) in
        collected ← requestQuorum mesh (dm_validators d) holders (dr_ID ref) (obj_version obj) hash quorum;
        Some (match collected with
        | None => inl ErrQuorumImpossible
        | Some (sigs, indices) =>
            match AggregateSignatures sigs with
            | None => inl errAggregate
            | Some aggSig =>
                inr (mkAttestation (dr_ID ref) obj (obj_version obj) (obj_replication obj) aggSig (BuildSignerBitmap indices (length holders)))
            end
        end)
  end.

Fixpoint CollectAttestations (d : Daemon) (mesh : Mesh) (refs : list objectRef) : option (daemonError + list attestationResult) :=
  match refs with
  | [] => Some (inr [])
  | ref :: refs =>
      r ← collectOne d mesh ref;
      match r with
      | inl e => Some (inl e)
      | inr result =>
          rs ← CollectAttestations d mesh refs;
          Some (match rs with inl e => inl e | inr results => inr (result :: results) end)
      end
  end.

(** ** The attested transaction *)

(** [rebuildObject] leaves out the parent kind. *)
Definition rebuildObject (o : Object) : Object :=
  mkObject (obj_id o) (obj_version o) (obj_owner o) (obj_replication o) (obj_content o) (obj_fees o) 0.

Definition buildProof (r : attestationResult) : QuorumProof := mkQuorumProof (ar_ObjectID r) (ar_AggSig r) (ar_Bitmap r).

Definition BuildATX (d : Daemon) (tx : Transaction) (results : list attestationResult) : AttestedTransaction :=
  mkAtx (Some (RebuildTxInBuilder tx)) (map (fun r => rebuildObject (ar_ObjectData r)) results) (map buildProof results) (dm_epoch d).

(** ** Submission *)

Definition SyncValidators (resp : option bytes) : option Daemon :=
  resp ← resp;
  parsed ← DecodeGetValidatorsResp resp;
  Some (mkDaemon (foldl (fun vs v => fst (Add vs (we_Pubkey v) (we_QUICAddr v) (we_BLSPubkey v))) (NewValidatorSet []) (gv_Validators parsed))
          (gv_Epoch parsed)).

Definition submitBody (mesh : Mesh) (body : Body) : daemonError + bytes :=
  match (resp ← ms_submit mesh body; DecodeSubmitTxResp resp) with
  | Some parsed => if bool_decide (sr_Err parsed = []) then inr (sr_Hash parsed) else inl errSubmission
  | None => inl errSubmission
  end.

(** The attempts from [attempt] on; [meshes] is the network at each of them. *)
Fixpoint attempts (budget : nat) (d : Daemon) (meshes : nat -> Mesh) (attempt : nat) (tx : Transaction) (refs : list objectRef)
    : option ((daemonError + bytes) * Daemon) :=
  match budget with
  | O => Some (inl ErrQuorumImpossible, d)
  | S budget =>
      r ← CollectAttestations d (meshes attempt) refs;
      match r with
      | inr results => Some (submitBody (meshes attempt) (FullATX (BuildATX d tx results)), d)
      | inl ErrQuorumImpossible => attempts budget (default d (SyncValidators (ms_GetValidators (meshes attempt)))) meshes (S attempt) tx refs
      | inl e => Some (inl e, d)
      end
  end.

Definition collectBuildSubmit (d : Daemon) (first : option bytes) (meshes : nat -> Mesh) (tx : Transaction) (refs : list objectRef)
    : option ((daemonError + bytes) * Daemon) :=
  attempts (S maxRetries) (default d (SyncValidators first)) meshes 0 tx refs.

(** [SubmitTransaction]: [inspect] is the network while the references are read,
    [first] the answer to the first synchronisation. *)
Definition SubmitTransaction (d : Daemon) (inspect : Mesh) (first : option bytes) (meshes : nat -> Mesh) (tx : Transaction)
    : option ((daemonError + bytes) * Daemon) :=
  match replicatedRefs (ms_GetObject inspect) tx with
  | None => Some (inl errFetch, d)
  | Some [] => Some (submitBody inspect (RawTx tx), d)
  | Some refs => collectBuildSubmit d first meshes tx refs
  end.

End Collect.

(** * Facts *)

#[export] Instance holderSig_eq_dec : EqDecision holderSig.
Proof. solve_decision. Defined.

#[export] Instance arrival_eq_dec : EqDecision arrival.
Proof. solve_decision. Defined.

(** ** Arrivals *)

Definition resultsOf (l : list arrival) : list holderSig := omap (fun a => match a with Result_ hs => Some hs | _ => None end) l.
Definition failuresOf (l : list arrival) : nat := length (filter (fun a => a = Failure_) l).

(** What the channels can deliver for given outcomes: every result in some order,
    no more failures than requests that failed, in any interleaving, then the close. *)
Definition delivers (outs : list (option holderSig)) (arrivals : list arrival) : Prop :=
  exists pre, arrivals = pre ++ [Closed_] /\ Closed_ ∉ pre /\ resultsOf pre ≡ₚ omap (fun o => o) outs /\
    (failuresOf pre + length (omap (fun o => o) outs) <= length outs)%nat.

(** The loop takes the first [quorum] results, or fails when there are fewer. *)
Lemma collect_run pre total quorum sigs indices failed :
  Closed_ ∉ pre -> (length sigs < quorum)%nat -> (failed + failuresOf pre + length sigs + length (resultsOf pre) <= total)%nat ->
  collectUntilQuorum (pre ++ [Closed_]) total quorum sigs indices failed =
  Some (if Nat.leb quorum (length sigs + length (resultsOf pre))
        then Some (sigs ++ map hs_sig (take (quorum - length sigs) (resultsOf pre)), indices ++ map hs_index (take (quorum - length sigs) (resultsOf pre)))
        else None).
Proof.
  revert sigs indices failed. induction pre as [|a pre IH]; intros sigs indices failed Hc Hl Hb.
  - cbn. destruct (Nat.leb_spec quorum (length sigs)); [lia|]. destruct (Nat.leb_spec quorum (length sigs + 0)); [lia|done].
  - apply not_elem_of_cons in Hc as [Ha Hc]. destruct a as [hs| |]; [| |done].
    + cbn [app collectUntilQuorum resultsOf omap list_omap length] in *. fold (resultsOf pre) in *.
      assert (Hf : failuresOf (Result_ hs :: pre) = failuresOf pre) by (unfold failuresOf; by rewrite filter_cons_False by done). rewrite Hf in Hb.
      change (omap _ (Result_ hs :: pre)) with (hs :: resultsOf pre) in *. cbn [length] in *.
      rewrite length_app. cbn [length]. destruct (Nat.leb_spec quorum (length sigs + 1)) as [Hq|Hq].
      * destruct (Nat.leb_spec quorum (length sigs + S (length (resultsOf pre)))); [|lia].
        assert (quorum - length sigs = 1)%nat as -> by lia. by rewrite firstn_cons, firstn_O.
      * rewrite IH by (rewrite ?length_app; cbn [length]; lia || done). rewrite length_app. cbn [length].
        replace (length sigs + 1 + length (resultsOf pre))%nat with (length sigs + S (length (resultsOf pre)))%nat by lia.
        destruct (Nat.leb _ _); [|done]. destruct (quorum - length sigs)%nat as [|k] eqn:Ek; [lia|].
        assert (quorum - (length sigs + 1) = k)%nat as -> by lia. by rewrite firstn_cons, <- !app_assoc.
    + assert (Hf : failuresOf (Failure_ :: pre) = S (failuresOf pre)) by (unfold failuresOf; by rewrite filter_cons_True by done).
      rewrite Hf in Hb. change (resultsOf (Failure_ :: pre)) with (resultsOf pre) in *. cbn [app collectUntilQuorum].
      destruct (Z.ltb_spec (Z.of_nat total - Z.of_nat (S failed)) (Z.of_nat quorum)).
      * destruct (Nat.leb_spec quorum (length sigs + length (resultsOf pre))); [lia|done].
      * apply IH; [done..|lia].
Qed.

Lemma QuorumSize_pos n : (0 < n)%nat -> (0 < QuorumSize n)%nat.
Proof. intros Hn. unfold QuorumSize. apply Nat.div_str_pos. lia. Qed.

(** Whatever the order of arrival, the loop ends; it succeeds exactly when a quorum
    of the holders attested, with the first quorum of them to arrive. *)
Lemma collection_ends outs arrivals quorum :
  delivers outs arrivals -> (0 < quorum)%nat ->
  exists first, first `prefix_of` resultsOf arrivals /\
    collectUntilQuorum arrivals (length outs) quorum [] [] 0 =
    Some (if Nat.leb quorum (length (omap (fun o => o) outs)) then Some (map hs_sig first, map hs_index first) else None) /\
    (Nat.leb quorum (length (omap (fun o => o) outs)) = true -> length first = quorum).
Proof.
  intros (pre & -> & Hc & Hp & Hf) Hq. exists (take quorum (resultsOf pre)).
  assert (Hr : resultsOf (pre ++ [Closed_]) = resultsOf pre) by (unfold resultsOf; rewrite omap_app; apply app_nil_r).
  pose proof (Permutation_length Hp) as Hl. split; [rewrite Hr; apply prefix_take|].
  rewrite collect_run by (cbn [length]; lia || done). cbn [length app Nat.add]. rewrite Nat.sub_0_r, Hl. split; [done|].
  intros Hle%Nat.leb_le. rewrite length_take. lia.
Qed.
