(* ===== verification/DaemonFacts.v ===== *)
(** * What the daemon collects is accepted

    Whatever the order in which holders answer, an attested transaction the daemon
    assembles passes the proof check of the commit path against the committee it
    synced; and the set it syncs from a node is the committee that node holds. *)

From S2P Require Import Prelude Types Validators Attest Wire Builders Daemon.

(** ** BLS aggregation

    What is relied on of the library: no signature verifies under the all-zero key,
    and signatures that verify one by one over a message aggregate into one that
    verifies under their keys, in any order of these. *)
Class BLSAggregation (X : Crypto) (blst : bytes -> bytes -> list bytes -> bool) (aggregate : list bytes -> option bytes) : Prop := {
  bls_zero_key : forall sig m, attestVerify X sig m zeroBLS = false;
  bls_aggregates : forall m (pairs : list (bytes * bytes)) keys,
    pairs <> [] -> Forall (fun p => attestVerify X (fst p) m (snd p) = true) pairs -> keys ≡ₚ map snd pairs ->
    exists agg, aggregate (map fst pairs) = Some agg /\ length agg = BLSSignatureSize /\ blst agg m keys = true;
}.

(** ** Outcomes *)

Lemma NoDup_positions (outs : list (option holderSig)) k :
  (forall i hs, outs !! i = Some (Some hs) -> hs_index hs = (k + i)%nat) ->
  NoDup (map hs_index (omap (fun o => o) outs)) /\ (forall j, j ∈ map hs_index (omap (fun o => o) outs) -> (k <= j < k + length outs)%nat).
Proof.
  revert k. induction outs as [|o outs IH]; intros k Hi; [split; [apply NoDup_nil_2|by intros j ?%elem_of_nil]|].
  destruct (IH (S k)) as [Hn Hj]. { intros i hs Hh. rewrite (Hi (S i) hs Hh). lia. }
  destruct o as [hs|]; cbn [omap list_omap map length].
  - assert (Ek : hs_index hs = k) by (rewrite (Hi 0%nat hs eq_refl); lia). change (omap _ outs) with (omap (fun o : option holderSig => o) outs). split.
    + apply NoDup_cons. split; [|done]. rewrite Ek. intros Hin. apply Hj in Hin. lia.
    + intros j [->|Hin]%elem_of_cons; [lia|]. apply Hj in Hin. lia.
  - split; [done|]. intros j Hin. apply Hj in Hin. lia.
Qed.

Section Facts.
Context (X : Crypto) (blst : bytes -> bytes -> list bytes -> bool) (aggregate : list bytes -> option bytes) {Hbls : BLSAggregation X blst aggregate}.
Implicit Types (vs : ValidatorSet) (mesh : Mesh).

(** A forwarded signature is a holder's own, over the expected hash. *)
Lemma outcomes_spec roundTrip vs holders id version hash i hs :
  outcomes X roundTrip vs holders id version hash !! i = Some (Some hs) ->
  hs_index hs = i /\ exists h info, holders !! i = Some h /\ Validators.Get vs h = Some info /\ attestVerify X (hs_sig hs) hash (BLSPubkey info) = true.
Proof using Type.
  unfold outcomes. rewrite list_lookup_imap. destruct (holders !! i) as [h|] eqn:Eh; [|done]. cbn [fmap option_fmap option_map]. intros [= E].
  destruct (Validators.Get vs h) as [info|] eqn:Eg; [|done]. case_bool_decide; [done|]. unfold requestOne in E.
  destruct (roundTrip _ _) as [resp|]; [|done]. cbn [mbind option_bind] in E. destruct (GetMessageType resp); [|done]. cbn [mbind option_bind] in E.
  destruct (negb _); [done|]. destruct (DecodePositiveResponse resp) as [pos|]; [|done]. cbn [mbind option_bind] in E.
  destruct (negb (bool_decide _)); [done|]. destruct (attestVerify X (ps_Signature pos) hash (BLSPubkey info)) eqn:Ev; [|done]. cbn [negb] in E.
  injection E as <-. split; [done|]. by exists h, info.
Qed.

Lemma length_outcomes roundTrip vs holders id version hash : length (outcomes X roundTrip vs holders id version hash) = length holders.
Proof using Type. apply length_imap. Qed.

Lemma outcomes_NoDup roundTrip vs holders id version hash :
  NoDup (map hs_index (omap (fun o => o) (outcomes X roundTrip vs holders id version hash))).
Proof using Type. apply (NoDup_positions _ 0). intros i hs Hh. by apply outcomes_spec in Hh as [-> _]. Qed.

(** A signer among the positives has a nonzero key that verifies its signature. *)
Lemma positive_key roundTrip vs holders id version hash hs :
  hs ∈ omap (fun o => o) (outcomes X roundTrip vs holders id version hash) ->
  (hs_index hs < length holders)%nat /\ exists key, signerKey holders vs (hs_index hs) = Some key /\ attestVerify X (hs_sig hs) hash key = true.
Proof using Hbls.
  intros (o & Ho & ->)%list_elem_of_omap. apply list_elem_of_lookup in Ho as [i Hi]. apply outcomes_spec in Hi as (<- & h & info & Hh & Hg & Hv).
  split; [by eapply lookup_lt_Some|]. exists (BLSPubkey info). split; [|done]. unfold signerKey. rewrite Hh. cbn [mbind option_bind]. rewrite Hg.
  cbn [mbind option_bind]. rewrite bool_decide_false; [done|]. intros E. rewrite E, (bls_zero_key (blst:=blst) (aggregate:=aggregate)) in Hv. done.
Qed.

(** ** One object *)

(** What a collected result carries: a proof that the checks of [prepareSingleProof]
    accept over the holders of [vs]. *)
Definition proven vs (r : attestationResult) : Prop :=
  let o := ar_ObjectData r in
  let holders := ComputeHolders X vs (ar_ObjectID r) (obj_replication o) in
  let keys := extractSignerBLSKeys (ar_Bitmap r) holders vs in
  (0 < length keys)%nat /\ (QuorumSize (length holders) <= length keys)%nat /\
  VerifyAggregated blst (ar_AggSig r) (ComputeObjectHash X (obj_content o) (obj_version o) (obj_owner o)) keys = true.

Lemma omap_keys holders vs taken (keyOf : holderSig -> bytes) :
  (forall hs, hs ∈ taken -> signerKey holders vs (hs_index hs) = Some (keyOf hs)) ->
  omap (signerKey holders vs) (map hs_index taken) = map keyOf taken.
Proof using Type.
  induction taken as [|hs taken IH]; intros Hk; [done|]. cbn [map omap list_omap]. rewrite (Hk hs) by left. f_equal. apply IH. intros hs' Hin. apply Hk. by right.
Qed.

Lemma collected_proves roundTrip vs id o version (hash := ComputeObjectHash X (obj_content o) (obj_version o) (obj_owner o))
    (holders := ComputeHolders X vs id (obj_replication o)) taken aggSig :
  taken ⊆+ omap (fun x => x) (outcomes X roundTrip vs holders id version hash) -> (QuorumSize (length holders) <= length taken)%nat ->
  AggregateSignatures aggregate (map hs_sig taken) = Some aggSig ->
  proven vs (mkAttestation id o (obj_version o) (obj_replication o) aggSig (BuildSignerBitmap (map hs_index taken) (length holders))).
Proof using Hbls.
  intros Ht Hq Ha. unfold proven. cbn [ar_ObjectData ar_ObjectID ar_Bitmap ar_AggSig]. fold holders hash.
  assert (Hpos : forall hs, hs ∈ taken -> (hs_index hs < length holders)%nat /\ exists key, signerKey holders vs (hs_index hs) = Some key /\ attestVerify X (hs_sig hs) hash key = true).
  { intros hs Hin. eapply positive_key. by eapply elem_of_submseteq. }
  set (keyOf := fun hs => default [] (signerKey holders vs (hs_index hs))).
  assert (Hk : forall hs, hs ∈ taken -> signerKey holders vs (hs_index hs) = Some (keyOf hs) /\ attestVerify X (hs_sig hs) hash (keyOf hs) = true).
  { intros hs Hin. destruct (Hpos hs Hin) as (_ & key & E & Hv). unfold keyOf. by rewrite E. }
  assert (Hn : NoDup (map hs_index taken)).
  { pose proof (outcomes_NoDup roundTrip vs holders id version hash) as Hn. destruct (submseteq_Permutation _ _ Ht) as [rest Er].
    rewrite Er, map_app in Hn. by apply NoDup_app in Hn as [? _]. }
  assert (Hparse : ParseSignerBitmap (BuildSignerBitmap (map hs_index taken) (length holders)) ≡ₚ map hs_index taken).
  { destruct (signer_bitmap_roundtrip (map hs_index taken) (length holders)) as [Hn' Hm]. apply NoDup_Permutation; [done..|]. intros i. rewrite Hm.
    split; [by intros [? _]|]. intros Hin. split; [done|]. apply list_elem_of_fmap in Hin as (hs & -> & Hin). by apply Hpos. }
  assert (Hkeys : extractSignerBLSKeys (BuildSignerBitmap (map hs_index taken) (length holders)) holders vs ≡ₚ map keyOf taken).
  { unfold extractSignerBLSKeys. rewrite Hparse. rewrite (omap_keys holders vs taken keyOf); [done|]. intros hs Hin. by apply Hk. }
  assert (Hne : taken <> []).
  { intros ->. unfold AggregateSignatures in Ha. done. }
  destruct (bls_aggregates (X:=X) (blst:=blst) (aggregate:=aggregate) hash (map (fun hs => (hs_sig hs, keyOf hs)) taken)
    (extractSignerBLSKeys (BuildSignerBitmap (map hs_index taken) (length holders)) holders vs)) as (agg & Eagg & Hlen & Hv).
  - by destruct taken.
  - apply Forall_map, Forall_forall. intros hs Hin. by apply Hk.
  - rewrite map_map. exact Hkeys.
  - rewrite map_map in Eagg. cbn [fst] in Eagg. change (map (fun x => hs_sig x) taken) with (map hs_sig taken) in Eagg. unfold AggregateSignatures in Ha. destruct (Nat.eqb _ 0); [done|]. destruct (negb _); [done|].
    rewrite Eagg in Ha. injection Ha as <-. pose proof (Permutation_length Hkeys) as Hl. rewrite length_map in Hl.
    assert (0 < length taken)%nat by (destruct taken; [done|cbn; lia]). rewrite Hl. split; [done|]. split; [done|].
    unfold VerifyAggregated. rewrite Hlen, Nat.eqb_refl. cbn [negb orb]. rewrite Hl. destruct (Nat.eqb_spec (length taken) 0); [lia|].
    assert (forallb (fun pk => Nat.eqb (length pk) BLSPublicKeySize)
      (extractSignerBLSKeys (BuildSignerBitmap (map hs_index taken) (length holders)) holders vs) = true) as ->; [|done].
    apply forallb_forall. intros key Hin. apply list_elem_of_In in Hin. rewrite Hkeys in Hin. apply list_elem_of_fmap in Hin as (hs & -> & Hin).
    destruct (Hk hs Hin) as [_ Hv']. unfold attestVerify in Hv'. destruct (Nat.eqb (length (keyOf hs)) BLSPublicKeySize); [done|].
    rewrite orb_true_r in Hv'. done.
Qed.

(** What the network owes: the channels deliver, and a served object is the one asked for. *)
Definition meshOk mesh : Prop :=
  (forall id outs, delivers outs (ms_schedule mesh id outs)) /\
  (forall id o, ms_GetObject mesh id = Some (Some o) -> obj_id o = id).

(** Collection of one object ends, with a quorum proof or the reason there is none. *)
Lemma collectOne_ends d mesh ref :
  meshOk mesh -> exists r, collectOne X aggregate d mesh ref = Some r /\
    match r with
    | inl _ => True
    | inr res => ar_ObjectID res = dr_ID ref /\ obj_id (ar_ObjectData res) = dr_ID ref /\ ms_GetObject mesh (dr_ID ref) = Some (Some (ar_ObjectData res)) /\
        proven (dm_validators d) res
    end.
Proof using Hbls.
  intros [Hs Ho]. unfold collectOne. destruct (ms_GetObject mesh (dr_ID ref)) as [[o|]|] eqn:Eg; [|by eexists..].
  destruct (obj_replication o =? 0); [by eexists|]. cbv zeta. unfold requestQuorum.
  set (holders := ComputeHolders _ _ _ _). set (outs := outcomes _ _ _ _ _ _ _). specialize (Hs (dr_ID ref) outs).
  assert (Hl : length outs = length holders) by apply length_outcomes.
  destruct (decide (length holders = 0%nat)) as [E0|E0].
  - assert (En : outs = []) by (apply nil_length_inv; lia). rewrite En in *. destruct Hs as (pre & Ep & Hc & Hp & Hf). cbn [omap list_omap] in Hp.
    change (omap (fun o : option holderSig => o) []) with (@nil holderSig) in Hp. apply Permutation_nil_r in Hp.
    assert (pre = []) as ->.
    { destruct pre as [|[hs| |] pre]; [done|done| |]; [unfold failuresOf in Hf; rewrite filter_cons_True in Hf by done; cbn [length] in Hf; lia|].
      exfalso. apply Hc. left. }
    rewrite Ep, E0. cbn. by eexists.
  - assert (Hq : (0 < QuorumSize (length holders))%nat) by (apply QuorumSize_pos; lia).
    destruct (collection_ends outs (ms_schedule mesh (dr_ID ref) outs) (QuorumSize (length holders)) Hs Hq) as (taken & Hpre & Ec & Hlen).
    rewrite Hl in Ec. rewrite Ec. cbn [mbind option_bind]. destruct (Nat.leb _ _) eqn:Eq; [|by eexists]. specialize (Hlen eq_refl).
    destruct (AggregateSignatures aggregate (map hs_sig taken)) as [agg|] eqn:Ea; [|by eexists]. eexists. split; [done|].
    cbn [ar_ObjectID ar_ObjectData]. split; [done|]. split; [by apply Ho|]. split; [done|].
    apply (collected_proves (ms_attest mesh) (dm_validators d) (dr_ID ref) o (obj_version o) taken agg); [|rewrite Hlen; apply Nat.le_refl|done].
    destruct Hs as (pre & Ep & Hc & Hp & Hf). rewrite Ep in Hpre. unfold resultsOf in Hpre. rewrite omap_app in Hpre. cbn [omap list_omap] in Hpre.
    rewrite app_nil_r in Hpre. fold outs. fold holders in outs. change (outcomes X (ms_attest mesh) (dm_validators d) (ComputeHolders X (dm_validators d) (dr_ID ref) (obj_replication o)) (dr_ID ref) (obj_version o) (ComputeObjectHash X (obj_content o) (obj_version o) (obj_owner o))) with outs.
    rewrite <- Hp. destruct Hpre as [rest Er]. unfold resultsOf. rewrite Er. by apply submseteq_inserts_r.
Qed.

Lemma CollectAttestations_ends d mesh refs :
  meshOk mesh -> exists r, CollectAttestations X aggregate d mesh refs = Some r /\
    match r with
    | inl _ => True
    | inr results => map ar_ObjectID results = map dr_ID refs /\ Forall (fun res => obj_id (ar_ObjectData res) = ar_ObjectID res /\ proven (dm_validators d) res) results
    end.
Proof using Hbls.
  intros Hm. induction refs as [|ref refs IH]; [by eexists|]. cbn [CollectAttestations].
  destruct (collectOne_ends d mesh ref Hm) as ([e|res] & -> & Hr); cbn [mbind option_bind]; [by eexists|].
  destruct IH as ([e|results] & -> & Hrs); cbn [mbind option_bind]; [by eexists|]. destruct Hr as (Hid & Ho & _ & Hp), Hrs as [Hids Hf].
  eexists. split; [done|]. cbn [map]. split; [by rewrite Hid, Hids|]. constructor; [by rewrite Hid|done].
Qed.

(** ** The whole transaction *)

(** Two sets with the same keys in the same order and the same BLS keys. *)
Definition sameCommittee vs vs' : Prop :=
  Validators vs = Validators vs' /\ forall h, BLSPubkey <$> Validators.Get vs h = BLSPubkey <$> Validators.Get vs' h.

Lemma sameCommittee_holders vs vs' id rep : sameCommittee vs vs' -> ComputeHolders X vs id rep = ComputeHolders X vs' id rep.
Proof using Type. intros [Hv _]. unfold ComputeHolders. by rewrite Hv. Qed.

Lemma sameCommittee_keys vs vs' holders bitmap : sameCommittee vs vs' -> extractSignerBLSKeys bitmap holders vs = extractSignerBLSKeys bitmap holders vs'.
Proof using Type.
  intros [_ Hk]. assert (E : forall i, signerKey holders vs i = signerKey holders vs' i).
  { intros i. unfold signerKey. destruct (holders !! i) as [h|]; [|done]. cbn [mbind option_bind]. specialize (Hk h).
    destruct (Validators.Get vs h), (Validators.Get vs' h); cbn in Hk; try done. cbn [mbind option_bind]. injection Hk as Ek. by rewrite Ek. }
  unfold extractSignerBLSKeys. induction (ParseSignerBitmap bitmap) as [|i l IH]; [done|]. cbn [omap list_omap]. rewrite E.
  destruct (signerKey holders vs' i); [f_equal|]; exact IH.
Qed.

Lemma findATXObject_at (objects : list Object) i o :
  NoDup (map obj_id objects) -> objects !! i = Some o -> findATXObject objects (obj_id o) = Some o.
Proof using Type.
  revert i. induction objects as [|x objects IH]; intros i Hn Hi; [by rewrite lookup_nil in Hi|]. cbn [findATXObject map] in *. apply NoDup_cons in Hn as [Hx Hn].
  destruct i as [|i]; cbn in Hi; [injection Hi as ->; by rewrite bool_decide_true|]. rewrite bool_decide_false; [by apply (IH i)|].
  intros E. apply Hx. rewrite E. apply list_elem_of_fmap_2. by eapply list_elem_of_lookup_2.
Qed.

Lemma built_verifies d tx results er vs' round :
  Forall (fun res => obj_id (ar_ObjectData res) = ar_ObjectID res /\ proven (dm_validators d) res) results ->
  NoDup (map ar_ObjectID results) -> Forall (fun res => length (ar_ObjectID res) = 32%nat) results ->
  resolveHolders er (dm_epoch d) round = inr vs' -> sameCommittee (dm_validators d) vs' ->
  Verify X blst er (BuildATX d tx results) round = None.
Proof using Type.
  intros Hf Hn Hl Hr Hs. unfold Verify. rewrite VerifyBatch_verdicts. cbn [map lookup list_lookup default from_option]. apply verdictOne_accept.
  exists vs'. split; [done|]. intros i proof Hp. cbn [BuildATX atx_Proofs] in Hp. rewrite list_lookup_fmap in Hp.
  destruct (results !! i) as [res|] eqn:Er; [|done]. injection Hp as <-. rewrite Forall_lookup in Hf, Hl. destruct (Hf i res Er) as [Ho Hp]. specialize (Hl i res Er).
  assert (Hfind : findATXObject (atx_Objects (BuildATX d tx results)) (ar_ObjectID res) = Some (rebuildObject (ar_ObjectData res))).
  { rewrite <- Ho. change (obj_id (ar_ObjectData res)) with (obj_id (rebuildObject (ar_ObjectData res))). apply (findATXObject_at _ i); [|cbn [BuildATX atx_Objects]; by rewrite list_lookup_fmap, Er]. cbn [BuildATX atx_Objects]. rewrite map_map.
    rewrite (map_ext_in _ ar_ObjectID); [done|]. intros r Hin. apply list_elem_of_In, list_elem_of_lookup in Hin as [j Hj]. by apply (Hf j r Hj). }
  unfold prepareSingleProof. cbn [buildProof qp_object_id qp_signer_bitmap qp_bls_signature]. rewrite Hfind.
  cbn [rebuildObject obj_content obj_version obj_owner obj_replication]. cbv zeta.
  assert (Et : toHash (ar_ObjectID res) = ar_ObjectID res) by (unfold toHash; rewrite take_app_le, take_ge by lia; done).
  rewrite Et, <- (sameCommittee_holders (dm_validators d) vs') by done. rewrite <- (sameCommittee_keys (dm_validators d) vs') by done.
  destruct Hp as (H0 & Hq & Hv). destruct (Nat.eqb_spec (length (extractSignerBLSKeys (ar_Bitmap res) (ComputeHolders X (dm_validators d) (ar_ObjectID res)
    (obj_replication (ar_ObjectData res))) (dm_validators d))) 0); [lia|].
  destruct (Nat.ltb_spec (length (extractSignerBLSKeys (ar_Bitmap res) (ComputeHolders X (dm_validators d) (ar_ObjectID res)
    (obj_replication (ar_ObjectData res))) (dm_validators d))) (QuorumSize (length (ComputeHolders X (dm_validators d) (ar_ObjectID res) (obj_replication (ar_ObjectData res)))))); [lia|].
  eexists. split; [done|]. exact Hv.
Qed.

End Facts.

(** ** Synchronisation *)

Definition entryOf (v : ValidatorInfo) : ValidatorEntry := mkValidatorEntry (Validators.Pubkey v) (BLSPubkey v) (QUICAddr v).

Lemma added_set vs l :
  vs_ok vs -> NoDup (map Validators.Pubkey (validators vs ++ l)) ->
  let vs' := foldl (fun vs v => fst (Add vs (we_Pubkey v) (we_QUICAddr v) (we_BLSPubkey v))) vs (map entryOf l) in
  vs_ok vs' /\ validators vs' = validators vs ++ map (fun v => newInfo (Validators.Pubkey v) (QUICAddr v) (BLSPubkey v)) l.
Proof.
  cbv zeta. revert vs. induction l as [|v l IH]; intros vs Hok Hn; cbn [foldl map]; [by rewrite app_nil_r|].
  set (v' := newInfo (Validators.Pubkey v) (QUICAddr v) (BLSPubkey v)).
  assert (Hnew : index vs !! Validators.Pubkey v' = None).
  { destruct (index vs !! Validators.Pubkey v') as [i|] eqn:E; [|done]. apply Hok in E as (w & Hw & Ew). exfalso.
    rewrite map_app in Hn. apply NoDup_app in Hn as (_ & Hd & _). apply (Hd (Validators.Pubkey v)); [|by left].
    change (Validators.Pubkey v) with (Validators.Pubkey v'). rewrite <- Ew. apply list_elem_of_fmap_2. by eapply list_elem_of_lookup_2. }
  assert (E1 : fst (Add vs (we_Pubkey (entryOf v)) (we_QUICAddr (entryOf v)) (we_BLSPubkey (entryOf v))) = append vs v').
  { unfold Add. change (we_Pubkey (entryOf v)) with (Validators.Pubkey v'). by rewrite Hnew. }
  rewrite E1. destruct (IH (append vs v')) as [H1 H2].
  - by apply append_ok.
  - cbn [append validators]. rewrite <- app_assoc. rewrite !map_app in *. exact Hn.
  - split; [done|]. rewrite H2. cbn [append validators]. by rewrite <- app_assoc.
Qed.

(** Sets over the same keys, position by position. *)
Lemma Get_map vs vs' (f : ValidatorInfo -> ValidatorInfo) h :
  vs_ok vs -> vs_ok vs' -> (forall v, Validators.Pubkey (f v) = Validators.Pubkey v) -> validators vs' = map f (validators vs) ->
  Validators.Get vs' h = f <$> Validators.Get vs h.
Proof.
  intros Hok Hok' Hf Hm. assert (Hi : index vs' !! h = index vs !! h).
  { apply option_eq. intros i. rewrite (Hok' h i), (Hok h i), Hm, list_lookup_fmap. split.
    - intros (w & Hw & <-). destruct (validators vs !! i) as [v|]; [|done]. injection Hw as <-. exists v. split; [done|]. symmetry. apply Hf.
    - intros (v & -> & <-). exists (f v). split; [done|]. apply Hf. }
  unfold Validators.Get. rewrite Hi. destruct (index vs !! h) as [i|]; [|done]. by rewrite Hm, list_lookup_fmap.
Qed.

(** What the daemon keeps of a validator. *)
Definition listed (v : ValidatorInfo) : ValidatorInfo := newInfo (Validators.Pubkey v) (QUICAddr v) (BLSPubkey v).

(** A daemon synced from a node's answer holds the node's committee at its epoch. *)
Lemma synced_committee vs epoch :
  vs_ok vs -> is_u64 epoch -> counted (map entryOf (All vs)) -> Forall entryOk (map entryOf (All vs)) ->
  exists d, SyncValidators (Some (EncodeGetValidatorsResp (mkValidatorsResp epoch (map entryOf (All vs))))) = Some d /\
    dm_epoch d = epoch /\ sameCommittee (dm_validators d) vs /\ forall h, Validators.Get (dm_validators d) h = listed <$> Validators.Get vs h.
Proof.
  intros Hok He Hc Hf. unfold SyncValidators. cbn [mbind option_bind].
  assert (Er : DecodeGetValidatorsResp (EncodeGetValidatorsResp (mkValidatorsResp epoch (map entryOf (All vs)))) = Some (mkValidatorsResp epoch (map entryOf (All vs)))).
  { by apply (fo_read validatorsFmt validators_format (mkValidatorsResp epoch (map entryOf (All vs)))). }
  rewrite Er. cbn [mbind option_bind gv_Validators gv_Epoch]. eexists. split; [done|]. split; [done|]. cbn [dm_validators].
  destruct (added_set (NewValidatorSet []) (All vs)) as [H1 H2].
  - intros pk i. cbn. split; [by rewrite lookup_empty|]. intros (v & Hv & _). by rewrite lookup_nil in Hv.
  - by apply vs_ok_NoDup.
  - set (vs' := foldl _ _ _) in *. assert (Hg : forall h, Validators.Get vs' h = listed <$> Validators.Get vs h) by (intros h; by apply Get_map).
    split; [|done]. split.
    + unfold Validators. rewrite H2. cbn [NewValidatorSet validators map app]. rewrite map_map. by apply map_ext.
    + intros h. rewrite Hg. by destruct (Validators.Get vs h).
Qed.
