(* ===== verification/Endpoint.v ===== *)
(** * The node's client and gossip surface (cmd/node/clienthandlers.go, handlers.go,
    vertexfetch.go, txstatus.go)

    Submissions raw and attested, gossiped transactions and vertices, object reads,
    the served committee, the status index, the faucet and the vertices served to
    peers.  [FlatBuffers] reads a buffer as a table, [None] being the panic the
    accessors raise on malformed bytes.  Logging and events are left out, except
    where their arguments can panic. *)

From S2P Require Import Prelude Types Fees Validators Stake Thermostat Storage Tracker Ingress Domains Staged Coins Ledger Ops Dag Commit Epoch Execution Attest Wiring Vertices Anchor Persist Smt Index Feed Header Admission Wire Builders.

(** The generated tables: reading a root, which can panic on bytes that are not one
    ([None]), the room of the producer's slice in its buffer (0 when absent), and
    writing. *)
Record FlatBuffers := mkFlatBuffers {
  fb_transaction : bytes -> option Transaction;
  fb_atx : bytes -> option AttestedTransaction;
  fb_vertex : bytes -> option Vertex;
  fb_producerCap : bytes -> nat;
  fb_encodeATX : AttestedTransaction -> bytes;
  fb_encodeVertex : Vertex -> bytes;
  fb_encodeObject : Object -> bytes;
}.

(** ** The status index (txstatus.go) *)

Record txStatusEntry := mkTxStatus { ts_state : Z; ts_reason : Z; ts_round : Z }.

Definition txStatusIndex : Type := gmap Hash txStatusEntry.

Definition txStatusRetentionRounds : Z := 2000.

Definition newTxStatusIndex : txStatusIndex := ∅.

Definition markPending (x : txStatusIndex) (hash : Hash) (round : Z) : txStatusIndex :=
  match x !! hash with Some _ => x | None => <[hash := mkTxStatus TxStatePending 0 round]> x end.

Definition markTxCommitted (x : txStatusIndex) (hash : Hash) (success : bool) (reason round : Z) : txStatusIndex :=
  let state := if success then TxStateFinalized else TxStateFailed in
  let kept := match x !! hash with Some e => if ts_round e <? round then ts_round e else round | None => round end in
  <[hash := mkTxStatus state reason kept]> x.

Definition getTxStatus (x : txStatusIndex) (hash : Hash) : Z * Z :=
  match x !! hash with None => (TxStateUnknown, 0) | Some e => (ts_state e, ts_reason e) end.

Definition prune (x : txStatusIndex) (currentRound : Z) : txStatusIndex :=
  if currentRound <=? txStatusRetentionRounds then x
  else filter (fun kv => ts_round (snd kv) <? currentRound - txStatusRetentionRounds = false) x.

(** ** Ingress *)

Inductive rejection := invalidSubmission | malformedShape.

Section Ingestion.
Context (X : Crypto) (fb : FlatBuffers).

(** [innerTx]: a panic of the reader is an invalid submission. *)
Definition innerTx (body : bytes) : rejection + Transaction :=
  match fb_atx fb body with
  | None => inl invalidSubmission
  | Some parsed =>
      match atx_Transaction parsed with
      | None => inl invalidSubmission
      | Some tx =>
          if negb (Nat.eqb (length (tx_Hash tx)) 32) then inl invalidSubmission
          else if ValidateShape tx then inr tx else inl malformedShape
      end
  end.

(** [ingestATX]: the body is passed on as it is. *)
Definition ingestATX (body : bytes) : rejection + (bytes * bytes) :=
  match innerTx body with inl r => inl r | inr tx => inr (body, tx_Hash tx) end.

Context (getObject : Hash -> option Object) (resolveDomain : bytes -> option Hash).

Definition resolveRefID (ref : TxRef) : option Hash :=
  match hash32 (ref_id ref) with
  | Some id => Some id
  | None => if Nat.ltb 0 (length (ref_domain ref)) then resolveDomain (ref_domain ref) else None
  end.

Definition requireSingletonRef (ref : TxRef) : bool :=
  match resolveRefID ref with
  | None => true
  | Some id => match getObject id with None => false | Some obj => obj_replication obj =? 0 end
  end.

Definition referencesOnlySingletons (tx : Transaction) : bool :=
  forallb requireSingletonRef (tx_MutableRefs tx) && forallb requireSingletonRef (tx_ReadRefs tx).

Definition ingestRawTx (tx : Transaction) : option (bytes * bytes) :=
  if referencesOnlySingletons tx then Some (fb_encodeATX fb (WrapInATX tx), tx_Hash tx) else None.

(** [ingestSubmission]: the body that goes into a vertex and its hash. *)
Definition ingestSubmission (body : bytes) : rejection + (bytes * bytes) :=
  match fb_transaction fb body with
  | Some tx =>
      if ValidateTx X tx then match ingestRawTx tx with Some r => inr r | None => inl invalidSubmission end
      else ingestATX body
  | None => ingestATX body
  end.

End Ingestion.

(** ** Reads *)

Section Reads.
Context (fb : FlatBuffers).

Definition encodeObjectResp (o : option Object) : bytes :=
  match o with
  | None => encodeFound MsgTagGetObjectResp (mkFound false [])
  | Some o => encodeFound MsgTagGetObjectResp (mkFound true (fb_encodeObject fb o))
  end.

Context (local : Hash -> option Object) (isHolder : option (Hash -> Z -> bool)).

Definition holdsObjectLocally (id : Hash) (o : Object) : bool :=
  if obj_replication o =? 0 then true else match isHolder with None => false | Some f => f id (obj_replication o) end.

Definition objectFetchProbeHolders : Z := 10.

Definition buildHolderObjectRequest (id : Hash) : GetObjectRequest := mkGetObject id true.

(** [fetchObjectFromHolder]: [ask] is [requestObjectFrom], over the mesh. *)
Fixpoint fetchObjectFromHolder (own : Hash) (ask : Hash -> bytes -> option Object) (holders : list Hash) (request : bytes) : option Object :=
  match holders with
  | [] => None
  | holder :: holders =>
      if bool_decide (holder = own) then fetchObjectFromHolder own ask holders request
      else match ask holder request with Some o => Some o | None => fetchObjectFromHolder own ask holders request end
  end.

(** [handleGetObject]; [holders] is the rendezvous, absent until wired. *)
Definition handleGetObject (own : Hash) (ask : Hash -> bytes -> option Object) (holders : option (Hash -> Z -> list Hash)) (data : bytes) : option bytes :=
  req ← DecodeGetObject data;
  let o := local (go_ObjectID req) in
  Some (if go_LocalOnly req then encodeObjectResp o
        else match o with
        | Some obj => if holdsObjectLocally (go_ObjectID req) obj then encodeObjectResp o
                      else encodeObjectResp (f ← holders; fetchObjectFromHolder own ask (f (go_ObjectID req) objectFetchProbeHolders)
                                               (EncodeGetObject (buildHolderObjectRequest (go_ObjectID req))))
        | None => encodeObjectResp (f ← holders; fetchObjectFromHolder own ask (f (go_ObjectID req) objectFetchProbeHolders)
                                      (EncodeGetObject (buildHolderObjectRequest (go_ObjectID req))))
        end).

End Reads.

Section Served.
Context {M : Type} `{Pebble M}.
Implicit Types d : DAG M.

(** [Epoch] reads the published counter. *)
Definition Epoch d : Z := currentEpoch (d_epochs d).

(** [handleGetValidators]: the two reads take no lock, [atHolders] and [atEpoch] are
    the moments of each. *)
Definition handleGetValidators (atHolders atEpoch : DAG M) : bytes :=
  EncodeGetValidatorsResp (mkValidatorsResp (Epoch atEpoch)
    (map (fun info => mkValidatorEntry (Pubkey info) (BLSPubkey info) (QUICAddr info)) (All (Wiring.EpochHolders atHolders)))).

Definition handleStatus (n : Node M) (c : Config) (systemPod : Hash) (totalTx tpsMilli peers : Z) : bytes :=
  let d := n_dag n in
  EncodeStatusResp (mkStatus (n_round n) (epochLength c) (Epoch d) (n_lastCommitted n) (u32 (Len (l_validators (d_ledger d))))
    (u32 (Len (Wiring.EpochHolders d))) systemPod totalTx (u32 tpsMilli) (u32 peers) (strictStartRound (d_regime d)) (strictLatched (d_regime d))).

End Served.

Definition handleGetTxStatus (x : txStatusIndex) (data : bytes) : option bytes :=
  hash ← DecodeGetTxStatus data; let '(state, reason) := getTxStatus x hash in Some (EncodeGetTxStatusResp state reason).

(** ** Vertices for peers (vertexfetch.go) *)

Definition vertexRangeChunk : Z := 256.

Section Vertices_.
Context (fb : FlatBuffers).

Definition vertexHashIs (data : bytes) (want : Hash) : bool :=
  if Nat.ltb (length data) 4 then false
  else match fb_vertex fb data with None => false | Some v => bool_decide (hash32 (v_Hash v) = Some want) end.

Definition handleGetVertex (s : store) (data : bytes) : option bytes :=
  hash ← DecodeGetVertex data;
  Some (encodeFound MsgTagGetVertexResp (match get s hash with None => mkFound false [] | Some v => mkFound true (fb_encodeVertex fb v) end)).

(** The loop of [rawRange] as it runs: the round is a [uint64] that wraps. [None] is
    the fuel run out. *)
Fixpoint rawRangeLoop (fuel : nat) (s : store) (round to limit : Z) (out : list Vertex) : option (list Vertex) :=
  match fuel with
  | O => None
  | S fuel =>
      if negb (round <=? to) then Some out
      else
        let out := out ++ omap (get s) (getByRound s round) in
        if limit <=? Z.of_nat (length out) then Some (take (Z.to_nat limit) out) else rawRangeLoop fuel s (round +w 1) to limit out
  end.

Definition handleGetVertexRange (fuel : nat) (s : store) (data : bytes) : option (option bytes) :=
  match DecodeGetVertexRange data with
  | None => Some None
  | Some (from, to) =>
      if to <? from then Some (Some (EncodeGetVertexRangeResp []))
      else vs ← rawRangeLoop fuel s from to vertexRangeChunk []; Some (Some (EncodeGetVertexRangeResp (map (fb_encodeVertex fb) vs)))
  end.

End Vertices_.

(** ** The node

    What its handlers use of [Node]: the DAG with its store, the status index and the
    faucet's next version. *)

Record Server (M : Type) := mkServer {
  sv_node : Node M;
  sv_txIndex : txStatusIndex;
  sv_faucetNextVersion : Z;
}.

Arguments mkServer {M}. Arguments sv_node {M}. Arguments sv_txIndex {M}. Arguments sv_faucetNextVersion {M}.

(** What a handler sends to the mesh. *)
Inductive outgoing := Broadcast (data : bytes) | Gossip (data : bytes) (fanout : Z) | Produced (v : Vertex).

Section Node_.
Context {M : Type} `{Pebble M} (E : Env M) (c : Config) (k : NodeConfig) (bodyBytes : BodyEncoder) (fb : FlatBuffers) (K : Keys).
Implicit Type sv : Server M.

Definition objectOf sv (id : Hash) : option Object := getBody (d_ledger (n_dag (sv_node sv))) id.
Definition domainOf sv (name : bytes) : option Hash :=
  resolveName (Epoch (n_dag (sv_node sv))) (d_ledger (n_dag (sv_node sv))) name.

(** [SubmitTx] of the node's own DAG with the bytes of an attested transaction. *)
Definition submitBytes sv (now : Z) (body : bytes) : option (Server M * list outgoing) :=
  atx ← fb_atx fb body;
  r ← SubmitTx E c k bodyBytes (sv_node sv) now atx;
  Some (mkServer (fst r) (sv_txIndex sv) (sv_faucetNextVersion sv), map Produced (snd r)).

(** The text of an error is its class here. *)
Definition submitErr (msg : bytes) : bytes := EncodeSubmitTxResp (mkSubmitResp [] msg).

(** [handleSubmitTx]: the server, the answer ([None] is the error) and what is sent. *)
Definition handleSubmitTx sv (now : Z) (data : bytes) : option (Server M * option bytes * list outgoing) :=
  match DecodeSubmitTx data with
  | None => Some (sv, None, [])
  | Some body =>
      match ingestSubmission (crypto E) fb (objectOf sv) (domainOf sv) body with
      | inl _ => Some (sv, Some (submitErr (str "rejected")), [])
      | inr (atx, hash) =>
          let sv := mkServer (sv_node sv) (markPending (sv_txIndex sv) (toHash hash) (n_round (sv_node sv))) (sv_faucetNextVersion sv) in
          r ← submitBytes sv now atx;
          Some (fst r, Some (EncodeSubmitTxResp (mkSubmitResp hash [])), snd r ++ [Broadcast (EncodeGossipTx atx)])
      end
  end.

(** ** Gossip (handlers.go) *)

Definition ingestGossipedTx sv (now : Z) (body tagged : bytes) : option (Server M * list outgoing) :=
  match innerTx fb body with
  | inl _ => Some (sv, [])
  | inr _ => r ← submitBytes sv now body; Some (fst r, snd r ++ [Gossip tagged 10])
  end.

(** [handleVertexMessage]: the log line reads the table and takes eight bytes of the
    producer, which panics when its slice has less room than that. *)
Definition handleVertexMessage sv (now : Z) (data : bytes) : option (Server M * list outgoing) :=
  v ← fb_vertex fb data;
  if Nat.ltb (fb_producerCap fb data) 8 then None
  else
    match AddVertex E c k bodyBytes (sv_node sv) now v with
    | None => None
    | Some (node, relay) => Some (mkServer node (sv_txIndex sv) (sv_faucetNextVersion sv), if relay then [Gossip data 10] else [])
    end.

Definition handleGossipMessage sv (now : Z) (data : bytes) : option (Server M * list outgoing) :=
  match DecodeGossipTx data with
  | Some body => ingestGossipedTx sv now body data
  | None => handleVertexMessage sv now data
  end.

(** ** The faucet *)

Definition GenesisCoinID (owner : Hash) : Hash := blake3 (crypto E) (str "bluepods/genesis/coin/v1" ++ owner).

Definition pickReserveVersion sv (committedVersion : Z) : Z * Server M :=
  let chosen := if committedVersion <? sv_faucetNextVersion sv then sv_faucetNextVersion sv else committedVersion in
  (chosen, mkServer (sv_node sv) (sv_txIndex sv) (chosen +w 1)).

Definition reserveCoinVersion sv (reserveCoinID : Hash) : Z := match objectOf sv reserveCoinID with None => 0 | Some o => obj_version o end.

Definition buildFaucetTx (privKey : bytes) (pod : Hash) sv (req : FaucetRequest) : AttestedTransaction * Server M :=
  let reserveCoinID := GenesisCoinID (toHash (ed25519Public K privKey)) in
  let '(version, sv) := pickReserveVersion sv (reserveCoinVersion sv reserveCoinID) in
  (BuildSplitTx (crypto E) K privKey pod reserveCoinID version (fq_Pubkey req) (fq_Amount req), sv).

Definition faucetTxHash (atx : AttestedTransaction) : option bytes :=
  tx ← atx_Transaction atx; if Nat.eqb (length (tx_Hash tx)) 32 then Some (tx_Hash tx) else None.

Definition firstCreatedObjectID (txHash : bytes) : Hash := blake3 (crypto E) (toHash txHash ++ le_enc 4 0).

Definition handleFaucet (privKey : bytes) (pod : Hash) sv (now : Z) (data : bytes) : option (Server M * option bytes * list outgoing) :=
  match DecodeFaucet data with
  | None => Some (sv, None, [])
  | Some req =>
      if fq_Amount req =? 0 then Some (sv, Some (EncodeFaucetResp (mkFaucetResp [] [] (str "amount must be > 0"))), [])
      else
        let '(atx, sv) := buildFaucetTx privKey pod sv req in
        match faucetTxHash atx with
        | None => Some (sv, Some (EncodeFaucetResp (mkFaucetResp [] [] (str "failed to build faucet tx"))), [])
        | Some txHash =>
            let sv := mkServer (sv_node sv) (markPending (sv_txIndex sv) (toHash txHash) (n_round (sv_node sv))) (sv_faucetNextVersion sv) in
            r ← submitBytes sv now (fb_encodeATX fb atx);
            Some (fst r, Some (EncodeFaucetResp (mkFaucetResp txHash (firstCreatedObjectID txHash) [])), snd r ++ [Broadcast (EncodeGossipTx (fb_encodeATX fb atx))])
        end
  end.

End Node_.

(** ** Fetching missing vertices (cmd/node/vertexfetch.go)

    The requests a stalled cursor starts, one per hash and one per span, each in a
    goroutine of its own, and what a request makes of the answers of its peers. *)



(** *** The fetcher *)

Record meshVertexFetcher := mkFetcher { vf_inFlight : gset Hash; vf_inFlightRanges : gset (Z * Z) }.

Definition newVertexFetcher : meshVertexFetcher := mkFetcher ∅ ∅.

Definition begin (f : meshVertexFetcher) (h : Hash) : meshVertexFetcher * bool :=
  if bool_decide (h ∈ vf_inFlight f) then (f, false) else (mkFetcher ({[h]} ∪ vf_inFlight f) (vf_inFlightRanges f), true).
Definition finish (f : meshVertexFetcher) (h : Hash) : meshVertexFetcher := mkFetcher (vf_inFlight f ∖ {[h]}) (vf_inFlightRanges f).

(** The hashes that get a goroutine. *)
Fixpoint FetchVertices (f : meshVertexFetcher) (hashes : list Hash) : meshVertexFetcher * list Hash :=
  match hashes with
  | [] => (f, [])
  | h :: hashes =>
      let '(f, started) := begin f h in
      let '(f, rest) := FetchVertices f hashes in
      (f, if started then h :: rest else rest)
  end.

Definition beginRange (f : meshVertexFetcher) (from to : Z) : meshVertexFetcher * bool :=
  if bool_decide ((from, to) ∈ vf_inFlightRanges f) then (f, false) else (mkFetcher (vf_inFlight f) ({[(from, to)]} ∪ vf_inFlightRanges f), true).
Definition finishRange (f : meshVertexFetcher) (from to : Z) : meshVertexFetcher := mkFetcher (vf_inFlight f) (vf_inFlightRanges f ∖ {[(from, to)]}).

Definition FetchRange (f : meshVertexFetcher) (from to : Z) : meshVertexFetcher * bool := beginRange f from to.

(** *** One request *)

Section Requests.
Context (fb : FlatBuffers).

(** The vertex an answer carries; [None] for no answer, a refusal or another vertex. *)
Definition requestVertexFrom (answer : option bytes) (want : Hash) : option bytes :=
  respBytes ← answer;
  resp ← DecodeGetVertexResp respBytes;
  if negb (fr_Found resp) then None
  else if negb (vertexHashIs fb (fr_Data resp) want) then None
  else Some (fr_Data resp).

(** [fetchOne] over the answers of the peers, in the order they are asked: what it
    gives to [AddVertex]. *)
Fixpoint fetchOne (answers : list (option bytes)) (h : Hash) : option bytes :=
  match answers with
  | [] => None
  | a :: answers => match requestVertexFrom a h with None => fetchOne answers h | Some data => Some data end
  end.

Definition requestRangeFrom (answer : option bytes) : list bytes := default [] (respBytes ← answer; DecodeGetVertexRangeResp respBytes).

Fixpoint fetchRange (answers : list (option bytes)) : list bytes :=
  match answers with
  | [] => []
  | a :: answers => match requestRangeFrom a with [] => fetchRange answers | vertices => vertices end
  end.

(** Only the vertex asked for is ingested, and one peer that serves it is enough,
    whatever the others answer. *)
Theorem fetch_is_not_deceived answers h :
  (forall data, fetchOne answers h = Some data -> exists v, fb_vertex fb data = Some v /\ hash32 (v_Hash v) = Some h) /\
  (forall a data, a ∈ answers -> requestVertexFrom a h = Some data -> is_Some (fetchOne answers h)).
Proof using Type.
  split.
  - intros data. induction answers as [|a answers IH]; cbn [fetchOne]; [done|]. destruct (requestVertexFrom a h) as [data'|] eqn:E; [|exact IH]. intros [= <-].
    unfold requestVertexFrom in E. destruct a as [b|]; [|done]. cbn [mbind option_bind] in E. destruct (DecodeGetVertexResp b) as [resp|]; [|done]. cbn [mbind option_bind] in E.
    destruct (negb (fr_Found resp)); [done|]. destruct (vertexHashIs fb (fr_Data resp) h) eqn:Ev; [|done]. injection E as <-. unfold vertexHashIs in Ev.
    destruct (Nat.ltb _ _); [done|]. destruct (fb_vertex fb (fr_Data resp)) as [v|]; [|done]. exists v. split; [done|]. by apply bool_decide_eq_true in Ev.
  - intros a data Hin Ha. induction answers as [|a' answers IH]; [by apply elem_of_nil in Hin|]. cbn [fetchOne]. destruct (requestVertexFrom a' h) eqn:E; [by eexists|].
    apply elem_of_cons in Hin as [->|Hin]; [congruence|by apply IH].
Qed.

(** A node that has the vertex serves the fetch. *)
Lemma served_vertex_is_fetched s h v data :
  length h = 32%nat -> get s h = Some v -> hash32 (v_Hash v) = Some h -> fb_vertex fb (fb_encodeVertex fb v) = Some v -> (4 <= length (fb_encodeVertex fb v))%nat ->
  handleGetVertex fb s (EncodeGetVertex h) = Some data -> requestVertexFrom (Some data) h = Some (fb_encodeVertex fb v).
Proof using Type.
  intros Hl Hg Hh Hr H4 Hs. unfold handleGetVertex in Hs.
  rewrite (fo_read (idFmt MsgTagGetVertex EncodeGetVertex DecodeGetVertex) (id_format _ _ _ eq_refl eq_refl) h Hl : DecodeGetVertex (EncodeGetVertex h) = Some h) in Hs.
  cbn [mbind option_bind] in Hs. injection Hs as <-. rewrite Hg. unfold requestVertexFrom. cbn [mbind option_bind].
  change (encodeFound MsgTagGetVertexResp) with EncodeGetVertexResp.
  rewrite (fo_read (foundFmt MsgTagGetVertexResp EncodeGetVertexResp DecodeGetVertexResp) (found_format _ _ _ eq_refl eq_refl) (mkFound true (fb_encodeVertex fb v)) I
    : DecodeGetVertexResp (EncodeGetVertexResp (mkFound true (fb_encodeVertex fb v))) = Some (mkFound true (fb_encodeVertex fb v))).
  cbn [mbind option_bind fr_Found fr_Data negb]. unfold vertexHashIs. destruct (Nat.ltb_spec (length (fb_encodeVertex fb v)) 4); [lia|]. rewrite Hr, Hh, bool_decide_true by done. done.
Qed.

End Requests.

(** *** Runs *)

(** A stalled tick asks for hashes and perhaps a span; a goroutine ends. *)
Inductive fetchEvent := Stalled (hashes : list Hash) (span : option (Z * Z)) | OneDone (i : nat) | RangeDone (i : nat).

(** The fetcher with its goroutines. *)
Record Fetching := mkFetching { ft_fetcher : meshVertexFetcher; ft_ones : list Hash; ft_ranges : list (Z * Z) }.

Definition fetchStep (s : Fetching) (ev : fetchEvent) : Fetching :=
  match ev with
  | Stalled hashes span =>
      let '(f, started) := FetchVertices (ft_fetcher s) hashes in
      match span with
      | None => mkFetching f (started ++ ft_ones s) (ft_ranges s)
      | Some (from, to) =>
          let '(f, go) := FetchRange f from to in
          mkFetching f (started ++ ft_ones s) (if go then (from, to) :: ft_ranges s else ft_ranges s)
      end
  | OneDone i =>
      match ft_ones s !! i with None => s | Some h => mkFetching (finish (ft_fetcher s) h) (delete i (ft_ones s)) (ft_ranges s) end
  | RangeDone i =>
      match ft_ranges s !! i with None => s | Some (from, to) => mkFetching (finishRange (ft_fetcher s) from to) (ft_ones s) (delete i (ft_ranges s)) end
  end.

Definition fetchRun (evs : list fetchEvent) : Fetching := foldl fetchStep (mkFetching newVertexFetcher [] []) evs.

(** The marks are the goroutines, each once. *)
Definition fetchingOk (s : Fetching) : Prop :=
  NoDup (ft_ones s) /\ NoDup (ft_ranges s) /\ (forall h, h ∈ vf_inFlight (ft_fetcher s) <-> h ∈ ft_ones s) /\ (forall r, r ∈ vf_inFlightRanges (ft_fetcher s) <-> r ∈ ft_ranges s).

Lemma FetchVertices_ok f hashes ones :
  NoDup ones -> (forall h, h ∈ vf_inFlight f <-> h ∈ ones) ->
  let '(f', started) := FetchVertices f hashes in
  NoDup (started ++ ones) /\ (forall h, h ∈ vf_inFlight f' <-> h ∈ started ++ ones) /\ vf_inFlightRanges f' = vf_inFlightRanges f.
Proof.
  revert f ones. induction hashes as [|h hashes IH]; intros f ones Hn Hs; [done|]. cbn [FetchVertices]. unfold begin. case_bool_decide as Hin.
  - specialize (IH f ones Hn Hs). by destruct (FetchVertices f hashes) as [f' started].
  - assert (Hout : h ∉ ones) by (by rewrite <- Hs).
    specialize (IH (mkFetcher ({[h]} ∪ vf_inFlight f) (vf_inFlightRanges f)) (h :: ones)). destruct (FetchVertices _ hashes) as [f' started].
    destruct IH as (H1 & H2 & H3); [by apply NoDup_cons|intros x; cbn [vf_inFlight]; rewrite elem_of_union, elem_of_singleton, elem_of_cons, Hs; done|].
    assert (Hp : started ++ h :: ones ≡ₚ (h :: started) ++ ones) by (cbn [app]; symmetry; apply Permutation_middle).
    split_and!; [by rewrite <- Hp| |done]. intros x. by rewrite H2, Hp.
Qed.

Lemma delete_nodup {A} `{EqDecision A} (l : list A) i x : NoDup l -> l !! i = Some x -> NoDup (delete i l) /\ forall y, y ∈ delete i l <-> y ∈ l /\ y <> x.
Proof.
  intros Hn Hi. pose proof (delete_Permutation l i x Hi) as Hp. rewrite Hp in Hn. apply NoDup_cons in Hn as [Hx Hn]. split; [done|].
  intros y. assert (Hy0 : y ∈ l <-> y = x \/ y ∈ delete i l) by (rewrite <- elem_of_cons, <- Hp; done). rewrite Hy0. split; [intros Hy; split; [by right|by intros ->]|by intros [[->|Hy] Hne]].
Qed.

(** Whatever the ticks and the ends, at most one request per hash and per span is
    outstanding, and a mark stays exactly as long as its request. *)
Theorem one_request_per_key evs : fetchingOk (fetchRun evs).
Proof.
  assert (H : forall s, fetchingOk s -> fetchingOk (foldl fetchStep s evs)); [|apply H; split_and!; [constructor..|set_solver|set_solver]].
  induction evs as [|ev evs IH]; intros s Hs; [done|]. cbn [foldl]. apply IH. destruct Hs as (Hn & Hm & Ho & Hr). destruct ev as [hashes span|i|i]; cbn [fetchStep].
  - pose proof (FetchVertices_ok (ft_fetcher s) hashes (ft_ones s) Hn Ho) as Hf. destruct (FetchVertices (ft_fetcher s) hashes) as [f started]. destruct Hf as (F1 & F2 & F3).
    destruct span as [[from to]|]; [|split_and!; [done..|cbn [ft_fetcher ft_ranges]; by rewrite F3]].
    unfold FetchRange, beginRange. case_bool_decide as Hin; split_and!; cbn [ft_ones ft_ranges ft_fetcher vf_inFlight vf_inFlightRanges]; try done.
    + by rewrite F3.
    + apply NoDup_cons. split; [|done]. rewrite <- Hr, <- F3. done.
    + intros r. rewrite elem_of_union, elem_of_singleton, elem_of_cons, F3, Hr. done.
  - destruct (ft_ones s !! i) as [h|] eqn:Ei; [|done]. destruct (delete_nodup _ _ _ Hn Ei) as [Hd He]. split_and!; cbn [ft_ones ft_ranges ft_fetcher finish vf_inFlight vf_inFlightRanges]; try done.
    intros x. rewrite He, elem_of_difference, elem_of_singleton, Ho. done.
  - destruct (ft_ranges s !! i) as [[from to]|] eqn:Ei; [|done]. destruct (delete_nodup _ _ _ Hm Ei) as [Hd He]. split_and!; cbn [ft_ones ft_ranges ft_fetcher finishRange vf_inFlight vf_inFlightRanges]; try done.
    intros x. rewrite He, elem_of_difference, elem_of_singleton, Hr. done.
Qed.
