(* ===== verification/Submission.v ===== *)
(** * From a wallet to the commit path

    A transaction a wallet signs, given its proofs by a daemon synced from a node, is
    accepted and queued by that node's handler and reaches the deduction of fees on the
    commit path; and a quorum of holders that have the object is enough for the daemon. *)

From S2P Require Import Prelude Types Fees Validators Stake Thermostat Storage Tracker Ingress Domains Staged Coins Ledger Ops Dag Commit Epoch Execution Attest Wiring Vertices Anchor Persist Smt Index Feed Header Admission Wire Builders Daemon DaemonFacts LightClient Wallet WalletFacts Endpoint Gaps Agreement Forks Supply Cursor Replica Vetting Relay.

(** ** Acceptance *)

(** What is relied on of FlatBuffers: an attested transaction reads back, and its
    bytes are not a valid raw transaction. *)
Class ReadsBack (X : Crypto) (fb : FlatBuffers) : Prop := {
  fb_reads : forall atx, fb_atx fb (fb_encodeATX fb atx) = Some atx;
  fb_apart : forall atx tx, fb_transaction fb (fb_encodeATX fb atx) = Some tx -> ValidateTx X tx = false;
}.

Section Accepts.
Context (X : Crypto) (fb : FlatBuffers) {Hfb : ReadsBack X fb}.

Lemma gates_parts tx : gates X tx = true -> ValidateTx X tx = true /\ verifyTxAuthenticity X tx = true.
Proof. unfold gates. by rewrite andb_true_iff. Qed.

Lemma ValidateTx_parts tx : ValidateTx X tx = true -> length (tx_Hash tx) = 32%nat /\ ValidateShape tx = true.
Proof.
  unfold ValidateTx, validateFieldSizes. rewrite !andb_true_iff. intros [[[[[[[[[Hh _] _] _] _] Hs] _] _] _] _]. split; [by apply Nat.eqb_eq|done].
Qed.

(** An attested transaction around a valid one is taken as it is. *)
Lemma ingest_attested getObject resolveDomain tx objects proofs epoch :
  ValidateTx X tx = true ->
  let atx := mkAtx (Some tx) objects proofs epoch in
  ingestSubmission X fb getObject resolveDomain (fb_encodeATX fb atx) = inr (fb_encodeATX fb atx, tx_Hash tx).
Proof using Hfb.
  intros Hv atx. destruct (ValidateTx_parts tx Hv) as [Hh Hs].
  assert (Ha : ingestATX fb (fb_encodeATX fb atx) = inr (fb_encodeATX fb atx, tx_Hash tx)).
  { unfold ingestATX, innerTx. rewrite (fb_reads (X:=X)). cbn [atx atx_Transaction]. rewrite Hh, Hs. done. }
  unfold ingestSubmission. destruct (fb_transaction fb (fb_encodeATX fb atx)) as [tx'|] eqn:E; [|done].
  by rewrite (fb_apart (X:=X) (fb:=fb) atx tx' E).
Qed.

End Accepts.

(** ** Enough holders *)

Section Enough.
Context (X : Crypto) (blst : bytes -> bytes -> list bytes -> bool) (aggregate : list bytes -> option bytes) {Hbls : BLSAggregation X blst aggregate}.
Context (Hdigest : forall m, length (blake3 X m) = 32%nat).

(** A holder that is reachable and answers from its own state: it has the object as
    served, counts itself among the holders, keeps a right signature store and signs
    with the key the committee lists. *)
Record attests (vs : ValidatorSet) (mesh : Mesh) (id : Hash) (o : Object) (h : Hash) : Prop := {
  at_info : ValidatorInfo;
  at_sign : bytes -> bytes;
  at_get : Hash -> option Object;
  at_db : gmap bytes bytes;
  at_known : Validators.Get vs h = Some at_info;
  at_reachable : QUICAddr at_info <> [];
  at_holds : at_get id = Some o;
  at_store : sigsOk X at_sign at_get at_db;
  at_signs : forall m, length (at_sign m) = 96%nat /\ attestVerify X (at_sign m) m (BLSPubkey at_info) = true;
  at_answers : ms_attest mesh (QUICAddr at_info) (EncodeRequest (mkRequest id (obj_version o))) =
    snd <$> HandleRequest X at_sign at_get None (Some at_db) (EncodeRequest (mkRequest id (obj_version o)));
}.

Lemma attests_outcome vs mesh id o h i :
  length id = 32%nat -> is_u64 (obj_version o) -> obj_replication o <> 0 -> attests vs mesh id o h ->
  is_Some (match Validators.Get vs h with
    | None => None
    | Some info => if bool_decide (QUICAddr info = []) then None
                   else requestOne X (ms_attest mesh) i (QUICAddr info) (BLSPubkey info) id (obj_version o) (ComputeObjectHash X (obj_content o) (obj_version o) (obj_owner o))
    end).
Proof using Hdigest.
  intros Hl Hv Hr [info sign get_ db Hg Ha Hh Hs Hsig Hans]. rewrite Hg, bool_decide_false by done. unfold requestOne. rewrite Hans.
  unfold HandleRequest. rewrite request_roundtrip by done. cbn [mbind option_bind fmap option_fmap option_map].
  set (hash := ComputeObjectHash X (obj_content o) (obj_version o) (obj_owner o)).
  assert (Hp : snd (processRequest X sign get_ None (Some db) (mkRequest id (obj_version o))) = EncodePositiveResponse (mkPositive hash (sign hash))).
  { unfold processRequest. cbn [rq_ObjectID rq_Version]. rewrite Hh. destruct (Z.eqb_spec (obj_replication o) 0); [done|]. rewrite Z.eqb_refl. cbn [negb]. fold hash.
    unfold signatureForCurrent. cbn [mbind option_bind]. destruct (GetObjectSig db id) as [[sv sig]|] eqn:Es; [|done].
    destruct (Z.eqb_spec sv (obj_version o)) as [->|]; [|done]. by rewrite (Hs id (obj_version o) sig o Es Hh eq_refl). }
  rewrite Hp. destruct (Hsig hash) as [H96 Hver]. assert (H32 : length hash = 32%nat) by apply Hdigest.
  cbn [mbind option_bind GetMessageType EncodePositiveResponse lookup list_lookup]. change (msgTypePositive =? msgTypePositive) with true. cbn [negb].
  change (msgTypePositive :: ps_Hash (mkPositive hash (sign hash)) ++ take 96 (ps_Signature (mkPositive hash (sign hash)) ++ replicate 96 0))
    with (EncodePositiveResponse (mkPositive hash (sign hash))).
  rewrite decode_positive by done. cbn [mbind option_bind ps_Hash ps_Signature]. rewrite bool_decide_true by done. cbn [negb]. rewrite Hver. cbn [negb]. by eexists.
Qed.

(** Positions with a result are among the positives. *)
Lemma positives_count (outs : list (option holderSig)) (good : list nat) :
  NoDup good -> (forall i, i ∈ good -> exists hs, outs !! i = Some (Some hs) /\ hs_index hs = i) -> (length good <= length (omap (fun o => o) outs))%nat.
Proof using Type.
  intros Hn Hg. rewrite <- (length_map hs_index). apply submseteq_length, NoDup_submseteq; [done|]. intros i Hi.
  destruct (Hg i Hi) as (hs & Hl & <-). apply list_elem_of_fmap_2, list_elem_of_omap. exists (Some hs). split; [|done]. by eapply list_elem_of_lookup_2.
Qed.

(** Whatever the order of arrival, a quorum of attesting holders gives a proof. *)
Lemma quorum_collects d mesh ref o (good : list nat) :
  let holders := ComputeHolders X (dm_validators d) (dr_ID ref) (obj_replication o) in
  meshOk mesh -> ms_GetObject mesh (dr_ID ref) = Some (Some o) -> length (dr_ID ref) = 32%nat -> is_u64 (obj_version o) -> obj_replication o <> 0 ->
  NoDup good -> (0 < length holders)%nat -> (QuorumSize (length holders) <= length good)%nat ->
  (forall i, i ∈ good -> exists h, holders !! i = Some h /\ attests (dm_validators d) mesh (dr_ID ref) o h) ->
  exists res, collectOne X aggregate d mesh ref = Some (inr res).
Proof using Hbls Hdigest.
  intros holders Hm Hget Hl Hv Hr Hn H0 Hq Hg. unfold collectOne. rewrite Hget. destruct (Z.eqb_spec (obj_replication o) 0); [done|]. cbv zeta. fold holders.
  unfold requestQuorum. set (hash := ComputeObjectHash X (obj_content o) (obj_version o) (obj_owner o)). set (outs := outcomes _ _ _ _ _ _ _).
  destruct Hm as [Hs _]. specialize (Hs (dr_ID ref) outs). assert (Hlen : length outs = length holders) by apply length_outcomes.
  destruct (collection_ends outs (ms_schedule mesh (dr_ID ref) outs) (QuorumSize (length holders)) Hs (QuorumSize_pos _ H0)) as (taken & Hpre & Ec & Ht).
  assert (Hc : (QuorumSize (length holders) <= length (omap (fun x => x) outs))%nat).
  { etrans; [exact Hq|]. apply positives_count; [done|]. intros i Hi. destruct (Hg i Hi) as (h & Hh & Ha).
    destruct (attests_outcome (dm_validators d) mesh (dr_ID ref) o h i Hl Hv Hr Ha) as [hs Hhs].
    assert (Ho : outs !! i = Some (Some hs)) by (unfold outs, outcomes; rewrite list_lookup_imap, Hh; cbn [fmap option_fmap option_map]; f_equal; exact Hhs).
    exists hs. split; [done|]. by apply outcomes_spec in Ho as [? _]. }
  apply Nat.leb_le in Hc. rewrite Hlen in Ec. rewrite Ec, Hc. cbn [mbind option_bind]. specialize (Ht Hc).
  assert (Hin : forall hs, hs ∈ taken -> exists key, attestVerify X (hs_sig hs) hash key = true).
  { intros hs Hin. destruct Hs as (pre & Ep & _ & Hp & _). rewrite Ep in Hpre. unfold resultsOf in Hpre. rewrite omap_app, app_nil_r in Hpre.
    assert (Hin' : hs ∈ omap (fun x => x) outs).
    { rewrite <- Hp. destruct Hpre as [rest Er]. unfold resultsOf. rewrite Er. apply elem_of_app. by left. }
    destruct (positive_key X blst aggregate (ms_attest mesh) (dm_validators d) holders (dr_ID ref) (obj_version o) hash hs Hin') as (_ & key & _ & Hk). eauto. }
  assert (exists agg, AggregateSignatures aggregate (map hs_sig taken) = Some agg) as [agg ->]; [|by eexists].
  assert (Hne : taken <> []) by (intros ->; cbn [length] in Ht; pose proof (QuorumSize_pos (length holders) H0); lia).
  assert (H96 : Forall (fun hs => length (hs_sig hs) = 96%nat) taken).
  { apply Forall_forall. intros hs Hhs. destruct (Hin hs Hhs) as [key Hk]. unfold attestVerify in Hk. destruct (Nat.eqb_spec (length (hs_sig hs)) BLSSignatureSize); [done|].
    by rewrite orb_true_l in Hk. }
  assert (Hkeys : exists pairs : list (bytes * bytes), map fst pairs = map hs_sig taken /\ Forall (fun p => attestVerify X (fst p) hash (snd p) = true) pairs).
  { clear -Hin. induction taken as [|hs taken IH]; [by exists []|]. destruct (Hin hs ltac:(left)) as [key Hk].
    destruct IH as (pairs & E & Hf). { intros x Hx. apply Hin. by right. } exists ((hs_sig hs, key) :: pairs). cbn [map fst]. split; [by rewrite E|by constructor]. }
  destruct Hkeys as (pairs & Ep & Hf). assert (Hpn : pairs <> []) by (intros ->; by destruct taken).
  destruct (bls_aggregates (X:=X) (blst:=blst) (aggregate:=aggregate) hash pairs (map snd pairs) Hpn Hf ltac:(done)) as (agg & Ea & _ & _).
  exists agg. unfold AggregateSignatures. rewrite <- Ep. destruct (Nat.eqb_spec (length (map fst pairs)) 0) as [E0|_]; [rewrite length_map in E0; by destruct pairs|].
  assert (forallb (fun s => Nat.eqb (length s) BLSSignatureSize) (map fst pairs) = true) as ->; [|done].
  rewrite Ep. apply forallb_forall. intros x Hx. apply list_elem_of_In, list_elem_of_fmap in Hx as (hs & -> & Hx). rewrite Forall_forall in H96. by rewrite (H96 hs Hx).
Qed.

End Enough.

(** A holder that attests under a node's set attests under the set synced from it. *)
Lemma attests_listed X vs d mesh id o h :
  (forall x, Validators.Get (dm_validators d) x = listed <$> Validators.Get vs x) -> attests X vs mesh id o h -> attests X (dm_validators d) mesh id o h.
Proof.
  intros Hg [info sign get_ db Hk Ha Hh Hs Hsig Hans]. apply (Build_attests X (dm_validators d) mesh id o h (listed info) sign get_ db); try done.
  by rewrite Hg, Hk.
Qed.

(** ** The whole path *)

(** A submitted transaction waits for the next vertex or is in the one produced. *)
Lemma submitted_is_queued {M} `{Pebble M} (E : Env M) c k bodyBytes n now atx n' out :
  is_Some (atx_Transaction atx) -> SubmitTx E c k bodyBytes n now atx = Some (n', out) ->
  atx ∈ n_pendingTxs n' \/ exists v, v ∈ out /\ atx ∈ v_Transactions v.
Proof.
  intros Hi. unfold SubmitTx. set (n1 := set_production _ _ _ _ _). assert (Hq : atx ∈ n_pendingTxs n1) by (cbn; set_solver). clearbody n1.
  unfold produceVertex. destruct (nc_listenerMode k); [intros [= <- <-]; by left|]. destruct (negb _); [intros [= <- <-]; by left|]. cbv zeta.
  destruct (canProduceVertex _ _ _ _); cbn [negb].
  - intros (v & Hb & Ho)%bind_Some. destruct (addOwnVertex _ _ _ _ _ _ _) as [n2 []].
    + injection Ho as <- <-. right. exists v. split; [left|]. unfold buildVertex in Hb. destruct (committedFrontier _ _ _ _). apply bind_Some in Hb as (sm & _ & Hb).
      destruct (vertexIdentity _ _ _). injection Hb as <-. cbn [v_Transactions]. unfold buildTxVector. by apply list_elem_of_filter.
    + injection Ho as <- <-. left. cbn. set_solver.
  - unfold frontierLeafToRebroadcast. destruct (_ =? 0); [intros [= <- <-]; by left|]. destruct (match n_lastRebroadcast n1 with Some t => _ | None => _ end); [intros [= <- <-]; by left|].
    destruct (getByRoundProducer _ _ _) as [hs []]; cbn [negb]; intros [= <- <-]; by left.
Qed.

Section Path.
Context {M : Type} `{Pebble M} (n : Wiring.Node) (c : Config) (fb : FlatBuffers) (aggregate : list bytes -> option bytes).
Context {Hbls : BLSAggregation (n_crypto n) (n_blst n) aggregate} {Hfb : ReadsBack (n_crypto n) fb}.
Context (Hdigest : forall m, length (blake3 (n_crypto n) m) = 32%nat).
Implicit Types (d : DAG M) (mesh : Mesh).

(** A node whose published epoch state is a frozen committee that fits the wire. *)
Record servesCommittee d (vs : ValidatorSet) : Prop := {
  sc_snap : epochSnapshot;
  sc_mirror : epochMirror (d_epochs d) = Some sc_snap;
  sc_epoch : sn_epoch sc_snap = currentEpoch (d_epochs d);
  sc_holders : sn_holders sc_snap = Some vs;
  sc_ok : vs_ok vs;
  sc_u64 : is_u64 (currentEpoch (d_epochs d));
  sc_count : counted (map entryOf (All vs));
  sc_fits : Forall entryOk (map entryOf (All vs));
}.

Lemma served_holders d vs : servesCommittee d vs ->
  handleGetValidators d d = EncodeGetValidatorsResp (mkValidatorsResp (currentEpoch (d_epochs d)) (map entryOf (All vs))) /\
  HoldersForEpoch d (currentEpoch (d_epochs d)) = Some vs.
Proof using Type.
  intros [snap Hm He Hh _ _ _ _]. split.
  - unfold handleGetValidators, Wiring.EpochHolders. rewrite Hm. cbn [mbind option_bind]. by rewrite Hh.
  - unfold HoldersForEpoch. rewrite Hm, He, Z.eqb_refl. done.
Qed.

(** The network a daemon meets: it delivers, serves what was asked for, and a quorum
    of the holders of each referenced object attests to what it serves. *)
Record honestMesh (vs : ValidatorSet) mesh (tx : Transaction) (refs : list objectRef) : Prop := {
  hm_ok : meshOk mesh;
  hm_refs : replicatedRefs (ms_GetObject mesh) tx = Some refs;
  hm_some : refs <> [];
  hm_distinct : NoDup (map dr_ID refs);
  hm_quorum : Forall (fun ref => length (dr_ID ref) = 32%nat /\ exists o (good : list nat),
    let holders := ComputeHolders (n_crypto n) vs (dr_ID ref) (obj_replication o) in
    ms_GetObject mesh (dr_ID ref) = Some (Some o) /\ is_u64 (obj_version o) /\ obj_replication o <> 0 /\ NoDup good /\ (0 < length holders)%nat /\
    (Attest.QuorumSize (length holders) <= length good)%nat /\
    forall i, i ∈ good -> exists h, holders !! i = Some h /\ attests (n_crypto n) vs mesh (dr_ID ref) o h) refs;
}.

Lemma collects_all vs dm mesh refs :
  sameCommittee (dm_validators dm) vs -> (forall h, Validators.Get (dm_validators dm) h = listed <$> Validators.Get vs h) -> meshOk mesh ->
  Forall (fun ref => length (dr_ID ref) = 32%nat /\ exists o (good : list nat),
    let holders := ComputeHolders (n_crypto n) vs (dr_ID ref) (obj_replication o) in
    ms_GetObject mesh (dr_ID ref) = Some (Some o) /\ is_u64 (obj_version o) /\ obj_replication o <> 0 /\ NoDup good /\ (0 < length holders)%nat /\
    (Attest.QuorumSize (length holders) <= length good)%nat /\
    forall i, i ∈ good -> exists h, holders !! i = Some h /\ attests (n_crypto n) vs mesh (dr_ID ref) o h) refs ->
  exists results, CollectAttestations (n_crypto n) aggregate dm mesh refs = Some (inr results).
Proof using Hbls Hdigest.
  intros Hs Hg Hm. induction 1 as [|ref refs (Hl & o & good & Ho & Hv & Hr & Hn & H0 & Hq & Ha) _ [results IH]]; [by exists []|].
  cbn [CollectAttestations]. rewrite <- (sameCommittee_holders (n_crypto n) (dm_validators dm) vs) in H0, Hq, Ha by done.
  destruct (quorum_collects (n_crypto n) (n_blst n) aggregate Hdigest dm mesh ref o good Hm Ho Hl Hv Hr Hn H0 Hq) as [res ->].
  { intros i Hi. destruct (Ha i Hi) as (h & Hh & Hat). exists h. split; [done|]. by eapply attests_listed. }
  cbn [mbind option_bind]. rewrite IH. cbn [mbind option_bind]. by eexists.
Qed.

End Path.

(** An attempt that collects everything submits. *)
Lemma attempts_ok X agg budget dm meshes attempt tx refs results :
  CollectAttestations X agg dm (meshes attempt) refs = Some (inr results) ->
  attempts X agg (S budget) dm meshes attempt tx refs = Some (submitBody (meshes attempt) (FullATX (BuildATX dm tx results)), dm).
Proof. intros E. cbn [attempts]. by rewrite E. Qed.

(** The mesh hands a body to the node's handler and brings its answer back. *)
Definition deliversTo {M} `{Pebble M} (E : Env M) c k bodyBytes fb (sv : Server M) (now : Z) mesh : Prop :=
  forall atx sv' answer out, handleSubmitTx E c k bodyBytes fb sv now (EncodeSubmitTx (fb_encodeATX fb atx)) = Some (sv', Some answer, out) ->
    ms_submit mesh (FullATX atx) = Some answer.

(** What the handler does with an attested transaction around a valid one. *)
Lemma handled_submission {M} `{Pebble M} (E : Env M) c p k bodyBytes fb `{!ReadsBack (crypto E) fb} (sv : Server M) now tx objects proofs epoch :
  feeParams c = Some p -> ValidateTx (crypto E) tx = true -> let atx := mkAtx (Some tx) objects proofs epoch in
  exists sv' out, handleSubmitTx E c k bodyBytes fb sv now (EncodeSubmitTx (fb_encodeATX fb atx)) = Some (sv', Some (EncodeSubmitTxResp (mkSubmitResp (tx_Hash tx) [])), out) /\
    n_dag (sv_node sv') = n_dag (sv_node sv) /\ is_Some (sv_txIndex sv' !! tx_Hash tx) /\ Broadcast (EncodeGossipTx (fb_encodeATX fb atx)) ∈ out /\
    (atx ∈ n_pendingTxs (sv_node sv') \/ exists v, Produced v ∈ out /\ atx ∈ v_Transactions v).
Proof.
  intros Hfee Hv atx. destruct (ValidateTx_parts (crypto E) tx Hv) as [Hh _]. unfold handleSubmitTx.
  assert (Hdec : DecodeSubmitTx (EncodeSubmitTx (fb_encodeATX fb atx)) = Some (fb_encodeATX fb atx)) by (unfold DecodeSubmitTx, EncodeSubmitTx, refuses; cbn; by rewrite drop_0). rewrite Hdec.
  unfold atx at 1. rewrite (ingest_attested (crypto E) fb) by done. fold atx. unfold submitBytes. rewrite (fb_reads (X:=crypto E)). cbn [mbind option_bind sv_node].
  destruct (produce_settles E c k bodyBytes p Hfee (set_production (sv_node sv) (n_lastProduced (sv_node sv)) (n_pendingTxs (sv_node sv) ++ [atx]) (n_lastRebroadcast (sv_node sv)) (n_syncMode (sv_node sv))) now)
    as (n2 & o & Es & _ & _ & Hpos). fold (SubmitTx E c k bodyBytes (sv_node sv) now atx) in Es. rewrite Es. cbn [mbind option_bind fst snd].
  eexists _, _. split; [reflexivity|]. cbn [sv_node sv_txIndex]. split_and!.
  - unfold pos in Hpos. cbn in Hpos. by injection Hpos.
  - assert (Et : toHash (tx_Hash tx) = tx_Hash tx) by (apply toHash_id; done). rewrite Et. unfold markPending. destruct (sv_txIndex sv !! tx_Hash tx) eqn:El; [by rewrite El; eauto|]. eexists. apply lookup_insert_eq.
  - set_solver.
  - destruct (submitted_is_queued E c k bodyBytes (sv_node sv) now atx n2 o ltac:(by eexists) Es) as [Hq|(v & Ho & Hin)]; [by left|]. right. exists v. split; [|done].
    apply elem_of_app. left. by apply list_elem_of_fmap_2.
Qed.

(** What holds of a submission at the node that received it. *)
Record received {M} `{Pebble M} (fb : FlatBuffers) (sv sv' : Server M) (tx : Transaction) atx (out : list outgoing) : Prop := {
  rc_state : n_dag (sv_node sv') = n_dag (sv_node sv);
  rc_status : is_Some (sv_txIndex sv' !! tx_Hash tx);
  rc_gossiped : Broadcast (EncodeGossipTx (fb_encodeATX fb atx)) ∈ out;
  rc_queued : atx ∈ n_pendingTxs (sv_node sv') \/ exists v, Produced v ∈ out /\ atx ∈ v_Transactions v;
}.

(** A signed transaction over replicated objects, submitted through a daemon that
    talks to a node with a frozen committee: the node's handler takes it, and wherever it
    is committed while the epoch lasts it gets as far as the deduction of fees. *)

