(* ===== verification/Journeys.v ===== *)
(** * Samples of wallets and daemons

    A toy signature scheme, a committee of three with an object all of them hold,
    and a wallet whose transaction travels through a daemon to execution. *)

From S2P Require Import Prelude Types Fees Validators Stake Thermostat Storage Tracker Ingress Domains Staged Coins Ledger Ops Dag Commit Epoch Execution Attest Wiring Supply Leaks SystemPod Exposures Vertices Anchor Persist Smt Merkle Index Feed Header Admission Wire Builders Daemon DaemonFacts LightClient Wallet WalletFacts Endpoint Gaps Agreement Forks Cursor Replica Vetting Relay Submission.

(** ** Signatures *)

Definition fit (n : nat) (b : bytes) : bytes := take n (b ++ replicate n 0).

Lemma length_fit n b : length (fit n b) = n.
Proof. unfold fit. rewrite length_take, length_app, length_replicate. lia. Qed.

(** A signature is the key next to the message; aggregates are sums. *)
Definition sigOf (pk m : bytes) : bytes := fit 96 (pk ++ m).
Definition addBytes (a b : bytes) : bytes := zip_with Z.add a b.
Definition sumBytes (l : list bytes) : bytes := foldr addBytes (replicate 96 0) l.

Definition journeyKeys : Keys := mkKeys (fit 32) (fun sk m => fit 64 (fit 32 sk ++ m)).

Definition journeyCrypto : Crypto :=
  mkCrypto toyHash (encodeBody sampleCrypto) (fun pk m sig => bool_decide (sig = fit 64 (pk ++ m)))
    (fun pk m sig _ => bool_decide (sig = sigOf pk m) && negb (bool_decide (pk = zeroBLS))).

Definition journeyBlst (sig m : bytes) (keys : list bytes) : bool := bool_decide (sig = sumBytes (map (fun k => sigOf k m) keys)).
Definition journeyAggregate (sigs : list bytes) : option bytes := Some (sumBytes sigs).

#[export] Instance journey_ed25519 : Ed25519 journeyCrypto journeyKeys.
Proof. split; intros; [apply length_fit..|]. by apply bool_decide_true. Qed.

Lemma journey_digest m : length (blake3 journeyCrypto m) = 32%nat.
Proof. apply (toyHash_digest m). Qed.

Lemma addBytes_swap a b c : addBytes a (addBytes b c) = addBytes b (addBytes a c).
Proof.
  unfold addBytes. revert b c. induction a as [|x a IH]; intros [|y b] [|z c]; try done. cbn [zip_with]. rewrite IH. f_equal. lia.
Qed.

Lemma sumBytes_perm l l' : l ≡ₚ l' -> sumBytes l = sumBytes l'.
Proof.
  unfold sumBytes. induction 1 as [|x l l' _ IH|x y l|l l' l'' _ IH1 _ IH2]; cbn [foldr]; [done|by rewrite IH|apply addBytes_swap|by rewrite IH1].
Qed.

Lemma length_sumBytes l : Forall (fun s : bytes => length s = 96%nat) l -> length (sumBytes l) = 96%nat.
Proof. unfold sumBytes, addBytes. induction 1 as [|s l Hs _ IH]; [done|]. cbn [foldr]. rewrite length_zip_with, Hs, IH. done. Qed.

#[export] Instance journey_bls : BLSAggregation journeyCrypto journeyBlst journeyAggregate.
Proof.
  split.
  - intros sig m. unfold attestVerify. destruct (_ || _); [done|]. cbn [journeyCrypto blsVerify]. by rewrite (bool_decide_true (zeroBLS = zeroBLS)), andb_false_r.
  - intros m pairs keys _ Hf Hk. exists (sumBytes (map fst pairs)).
    assert (Hs : map fst pairs = map (fun k => sigOf k m) (map snd pairs)).
    { rewrite map_map. clear Hk. induction Hf as [|p pairs Hp _ IH]; [done|]. cbn [map]. rewrite IH. f_equal.
      unfold attestVerify in Hp. destruct (_ || _); [done|]. cbn [journeyCrypto blsVerify] in Hp. apply andb_true_iff in Hp as [Hp _]. by apply bool_decide_eq_true in Hp. }
    split; [done|]. split.
    + apply length_sumBytes. rewrite Hs, !Forall_map. apply Forall_forall. intros p _. apply length_fit.
    + unfold journeyBlst. apply bool_decide_true. rewrite Hs. apply sumBytes_perm. by rewrite Hk.
Qed.

(** ** Tables

    Any injective layout serves as the encoding of a table. *)

#[export] Instance Object_countable : Countable Object.
Proof.
  refine (inj_countable' (fun o => (obj_id o, obj_version o, obj_owner o, obj_replication o, obj_content o, obj_fees o, obj_parent_kind o))
    (fun '(a, b, c, d, e, f, g) => mkObject a b c d e f g) _). by intros [].
Defined.

#[export] Instance TxRef_eq_dec : EqDecision TxRef.
Proof. solve_decision. Defined.
#[export] Instance TxRef_countable : Countable TxRef.
Proof. refine (inj_countable' (fun r => (ref_id r, ref_version r, ref_domain r)) (fun '(a, b, c) => mkTxRef a b c) _). by intros []. Defined.

#[export] Instance DeclaredOp_eq_dec : EqDecision DeclaredOp.
Proof. solve_decision. Defined.
#[export] Instance DeclaredOp_countable : Countable DeclaredOp.
Proof.
  refine (inj_countable' (fun o => (op_Kind o, op_ObjectID o, op_TargetKind o, op_Target o, op_Name o, op_TermEpochs o))
    (fun '(a, b, c, d, e, f) => mkDeclaredOp a b c d e f) _). by intros [].
Defined.

#[export] Instance Transaction_eq_dec : EqDecision Transaction.
Proof. solve_decision. Defined.
#[export] Instance Transaction_countable : Countable Transaction.
Proof.
  refine (inj_countable' (fun t => ((tx_Hash t, tx_ReadRefs t, tx_MutableRefs t, tx_CreatedObjectsReplication t, tx_Sender t, tx_Signature t, tx_Pod t, tx_FunctionName t),
      (tx_Args t, tx_MaxGas t, tx_GasCoin t, tx_FeePayer t, tx_SponsorSignature t, tx_ValidUntil t, tx_DeletedObjects t, tx_Operations t)))
    (fun '((a, b, c, d, e, f, g, i), (j, k, l, m, n, o, p, q)) => mkTransaction a b c d e f g i j k l m n o p q) _). by intros [].
Defined.

#[export] Instance QuorumProof_eq_dec : EqDecision QuorumProof.
Proof. solve_decision. Defined.
#[export] Instance QuorumProof_countable : Countable QuorumProof.
Proof. refine (inj_countable' (fun p => (qp_object_id p, qp_bls_signature p, qp_signer_bitmap p)) (fun '(a, b, c) => mkQuorumProof a b c) _). by intros []. Defined.

#[export] Instance AttestedTransaction_eq_dec : EqDecision AttestedTransaction.
Proof. solve_decision. Defined.
#[export] Instance AttestedTransaction_countable : Countable AttestedTransaction.
Proof.
  refine (inj_countable' (fun a => (atx_Transaction a, atx_Objects a, atx_Proofs a, atx_AttestationEpoch a)) (fun '(a, b, c, d) => mkAtx a b c d) _). by intros [].
Defined.

Definition table {A} `{Countable A} (a : A) : bytes := [Zpos (encode a)].
Definition untable {A} `{Countable A} (b : bytes) : option A := match b with [Zpos p] => decode p | _ => None end.

Definition journeyTables : FlatBuffers :=
  mkFlatBuffers (fun _ => None) untable (fun _ => None) (fun _ => 0%nat) table (fun _ => []) table.

#[export] Instance journey_tables : ReadsBack journeyCrypto journeyTables.
Proof. split; intros; [apply decode_encode|done]. Qed.

(** ** Wallets *)

Definition journeyWallet : Wallet :=
  mkWallet (replicate 32 7 ++ replicate 32 8) (<[h 1 := mkCoinInfo (h 1) 3 900]> ∅) {[ h 5 ]} (Some (mkCheckpoint 2 (h 3) (h 4))).

Definition heldObject : Object := mkObject (h 5) 4 (fit 32 (w_privKey journeyWallet)) 3 (borshVec [1; 2]) 0 0.

Definition journeyClient : Client := mkClient (h 2) (fun _ => true) (fun id => if bool_decide (id = h 5) then Some heldObject else None).

(** Register, delegate, merge and sponsor: one of each shape. *)
Definition journeyBLS : BLSKeys := mkBLSKeys (fun sk => Some (fit 48 sk)) (fun _ _ => fit 96 []).


Lemma saved_wallet_loads_witness :
  LoadWallet (Save journeyWallet [h 1] [h 5]) =
  Some (mkWallet (w_privKey journeyWallet) (map_imap (fun id _ => Some (mkCoinInfo id 0 0)) (w_coins journeyWallet)) (w_objects journeyWallet) (w_checkpoint journeyWallet)).
Proof.
  apply (saved_wallet_loads journeyWallet [h 1] [h 5]); try reflexivity.
  - repeat constructor; unfold is_byte; lia.
  - intros id. cbn [journeyWallet w_coins]. rewrite list_elem_of_singleton. destruct (decide (id = h 1)) as [->|Hn].
    + rewrite lookup_insert_eq. by split; [|eexists].
    + rewrite lookup_insert_ne, lookup_empty by done. by split; [intros [? ?]|].
  - intros id. cbn [journeyWallet w_objects]. by rewrite elem_of_singleton, list_elem_of_singleton.
  - repeat constructor; unfold is_byte; lia.
  - repeat constructor; unfold is_byte; lia.
  - intros cp [= <-]. split; repeat constructor; unfold is_byte; lia.
Defined.

(** ** A submission *)

Definition member (n : Z) : ValidatorInfo := mkInfo (h n) [n] (replicate 48 n) 50 0 false zeroHash.
Definition committee : list ValidatorInfo := [member 11; member 12; member 13].
Definition journeySet : ValidatorSet := mkSet committee (<[h 11 := 0%nat]> (<[h 12 := 1%nat]> (<[h 13 := 2%nat]> ∅))).

Definition journeyNode : Wiring.Node := Wiring.mkNode journeyCrypto (idealRuntime (fun _ _ => []) (h 0)) journeyBlst (h 11) DefaultFeeParams.

Definition journeyDag : DAG (gmap bytes bytes) :=
  mkDAG (set_tracker (d_ledger townDag) (trackObject (l_tracker (d_ledger townDag)) (h 5) 4 3 0 keyRootKind (h 7))) (d_regime townDag)
    (mkEpochs 1 (Some journeySet) None None None None None (Some (mkSnapshot 1 (Some journeySet) None None)) ∅ []) (d_rewards townDag).

Lemma journeySet_ok : vs_ok journeySet.
Proof.
  intros pk i. unfold journeySet, committee. cbn [index validators]. split.
  - rewrite !lookup_insert_Some. intros [[<- <-]|[_ [[<- <-]|[_ [[<- <-]|[_ H]]]]]]; [by eexists..|by rewrite lookup_empty in H].
  - intros (v & Hv & <-). destruct i as [|[|[|i]]]; cbn [lookup list_lookup] in Hv; [injection Hv as <-; reflexivity..|done].
Qed.

(** The holder at an address answers as [HandleRequest] does. *)
Definition answerAt (addr request : bytes) : option bytes :=
  match addr with
  | [n] => snd <$> HandleRequest journeyCrypto (sigOf (replicate 48 n)) (cl_getObject journeyClient) None (Some (∅ : gmap bytes bytes)) request
  | _ => None
  end.

(** The node that is spoken to. *)
Definition journeyKeyed : NodeConfig := mkNodeConfig (h 11) (fun _ => replicate 64 0) false false NewManager.
Definition journeyServer : Server (gmap bytes bytes) :=
  mkServer (Admission.mkNode journeyDag emptyStore ∅ ∅ ∅ ∅ 4 3 [] None false ∅ 4 3 zeroHash 0 0 0 None []) newTxStatusIndex 0.
Abbreviation journeyHandler := (handleSubmitTx (nodeEnv journeyNode regimeConfig journeyDag journeySet) regimeConfig journeyKeyed (fun _ _ _ _ => []) journeyTables journeyServer 0).

(** Answers arrive in the reverse of the order of the requests. *)
Definition journeyMesh : Mesh :=
  mkMesh (fun id => Some (cl_getObject journeyClient id)) answerAt (fun _ outs => map Result_ (reverse (omap (fun o => o) outs)) ++ [Closed_])
    (Some (handleGetValidators journeyDag journeyDag))
    (fun body => match body with
                 | FullATX atx => '(_, answer, _) ← journeyHandler (EncodeSubmitTx (table atx)); answer
                 | RawTx _ => None
                 end).

Definition journeyTx : Transaction :=
  fst (buildObjectTx journeyCrypto journeyKeys journeyWallet (h 2) (str "set_object") (encodeSetObjectArgs (h 5) [9]) [] (buildMutableRef (h 5) 4) (h 1)).

Lemma journeyMesh_ok : meshOk journeyMesh.
Proof.
  split.
  - intros id outs. exists (map Result_ (reverse (omap (fun o => o) outs))). cbn [journeyMesh ms_schedule].
    assert (Hr : forall l : list holderSig, resultsOf (map Result_ l) = l /\ failuresOf (map Result_ l) = 0%nat).
    { induction l as [|a l [IH1 IH2]]; [done|]. cbn [map]. split; [change (resultsOf (Result_ a :: ?m)) with (a :: resultsOf m); by rewrite IH1|].
      unfold failuresOf. by rewrite filter_cons_False. }
    destruct (Hr (reverse (omap (fun o => o) outs))) as [-> ->]. split_and!; [done| |apply reverse_Permutation|].
    + intros Hin%list_elem_of_fmap. by destruct Hin as (? & ? & _).
    + cbn [Nat.add]. clear. induction outs as [|[a|] outs IH]; [done|..]; cbn [omap list_omap length]; change (omap _ outs) with (omap (fun o : option holderSig => o) outs); lia.
  - intros id o. cbn [journeyMesh ms_GetObject journeyClient cl_getObject]. case_bool_decide as E; [|done]. intros [= <-]. by subst.
Qed.

Lemma member_attests n : n ∈ [11; 12; 13] -> attests journeyCrypto journeySet journeyMesh (h 5) heldObject (h n).
Proof.
  intros Hn. apply (Build_attests journeyCrypto journeySet journeyMesh (h 5) heldObject (h n) (member n) (sigOf (replicate 48 n)) (cl_getObject journeyClient) (∅ : gmap bytes bytes)).
  - repeat (apply elem_of_cons in Hn as [->|Hn]; [vm_compute; reflexivity|]). by apply elem_of_nil in Hn.
  - done.
  - reflexivity.
  - intros id v sig o Hs. exfalso. revert Hs. unfold GetObjectSig. cbn. by rewrite ?lookup_empty.
  - intros m. split; [apply length_fit|]. unfold attestVerify. cbn [member BLSPubkey]. unfold sigOf at 1. rewrite length_fit, length_replicate. cbn [Nat.eqb BLSSignatureSize BLSPublicKeySize negb orb].
    cbn [journeyCrypto blsVerify]. rewrite bool_decide_true by done. cbn [andb].
    repeat (apply elem_of_cons in Hn as [->|Hn]; [vm_compute; reflexivity|]). by apply elem_of_nil in Hn.
  - reflexivity.
Qed.

Lemma journeyDag_serves : servesCommittee journeyDag journeySet.
Proof.
  apply (Build_servesCommittee journeyDag journeySet (mkSnapshot 1 (Some journeySet) None None)); try reflexivity.
  - exact journeySet_ok.
  - cbn. unfold is_u64. lia.
  - repeat constructor.
Qed.

