(* ===== verification/Outages.v ===== *)
(** * Requests and transactions that disable

    An object whose served version falls behind its tracker; a gossiped vertex whose
    log line panics; a range request whose loop does not end.  Beside them, what each
    path does when it works. *)

From S2P Require Import Prelude Types Fees Validators Stake Storage Tracker Ingress Domains Coins Ledger Ops Dag Commit Supply Leaks Execution Attest Wiring SystemPod Exposures Vertices Anchor Persist Smt Index Feed Header Admission Wire Builders LightClient Wallet Endpoint.

(** ** A reference to another version *)

(** The transaction refers to [id] at version [v]. *)
Definition refers (id : Hash) (v : Z) (tx : Transaction) : Prop :=
  exists r, r ∈ tx_ReadRefs tx ++ tx_MutableRefs tx /\ hash32 (ref_id r) = Some id /\ ref_version r = v.

Section Stale.
Context {M : Type} `{Pebble M} (E : Env M) (c : Config).
Implicit Types (d : DAG M).

Lemma checkRefList_stale ot (refs : list TxRef) id v r :
  r ∈ refs -> hash32 (ref_id r) = Some id -> ref_version r = v -> getVersion ot id <> v -> checkRefList ot refs = false.
Proof using Type.
  intros Hin Hid Hv Hne. induction refs as [|r' refs IH]; [by apply elem_of_nil in Hin|]. cbn [checkRefList]. apply elem_of_cons in Hin as [->|Hin].
  - rewrite Hid, Hv. by destruct (Z.eqb_spec (getVersion ot id) v).
  - rewrite IH by done. destruct (hash32 (ref_id r')) as [x|]; [by destruct (getVersion ot x =? ref_version r')|by case_bool_decide].
Qed.

Lemma refers_refused ot tx id v : refers id v tx -> getVersion ot id <> v -> checkVersions ot tx = false.
Proof using Type.
  intros (r & Hin & Hid & Hv) Hne. unfold checkVersions. apply andb_false_iff. apply elem_of_app in Hin as [Hin|Hin]; [left|right]; by eapply checkRefList_stale.
Qed.

(** What commits of stale references leave alone. *)
Definition untouched (id : Hash) d d' : Prop :=
  getVersion (l_tracker (d_ledger d')) id = getVersion (l_tracker (d_ledger d)) id /\
  l_coins (d_ledger d') = l_coins (d_ledger d) /\ l_validators (d_ledger d') = l_validators (d_ledger d).

(** No commit of a transaction that refers to another version than the tracker's
    changes the version, a stored body or a validator; none succeeds. *)
Lemma stale_reference_inert d atx tx id v round verdicts :
  atx_Transaction atx = Some tx -> refers id v tx -> getVersion (l_tracker (d_ledger d)) id <> v ->
  exists d' verdicts', executeTx E c d atx round verdicts = Some (d', noFees, verdicts') /\ untouched id d d' /\
    (l_committed (d_ledger d') = l_committed (d_ledger d) \/ exists reason, lastOutcome d' = Some reason /\ reason <> FailNone).
Proof using Type.
  intros Ht Hr Hv. unfold executeTx. rewrite Ht. destruct (proofVerdict E atx round verdicts) as [proofOk verdicts'].
  assert (Hemit : forall d' reason, lastOutcome (emitTx d' tx false reason) = Some reason).
  { intros d' reason. unfold lastOutcome, emitTx, emitTransaction. cbn. by rewrite last_snoc. }
  destruct (preCheck E c tx round proofOk) as [reason|] eqn:Ep.
  - exists (emitTx d tx false reason), verdicts'. split_and!; [done| |right; exists reason; split; [apply Hemit|]]; [done|].
    intros ->. unfold preCheck in Ep. by repeat (case_match; [done|]).
  - unfold commitOnce. destruct (txCommitHash tx) as [txh|].
    + destruct (wasCommitted _ _).
      * exists d, verdicts'. split_and!; [done..|by left].
      * cbn [set_tracker l_tracker]. unfold checkAndUpdate. rewrite (refers_refused _ tx id v Hr) by (by rewrite getVersion_mark). cbn [negb].
        eexists _, _. split; [reflexivity|]. split; [|right; eexists; by rewrite Hemit]. split_and!; [|done..]. cbn. apply getVersion_mark.
    + unfold checkAndUpdate. rewrite (refers_refused _ tx id v Hr) by done. cbn [negb]. eexists _, _. split; [reflexivity|]. split; [done|right; eexists; by rewrite Hemit].
Qed.

(** Nor does any sequence of them. *)
Lemma stale_references_inert d atxs id v round verdicts fees :
  Forall (fun atx => exists tx, atx_Transaction atx = Some tx /\ refers id v tx) atxs -> getVersion (l_tracker (d_ledger d)) id <> v ->
  exists d' verdicts' fees', processAtxs E c d atxs round verdicts fees = Some (d', fees', verdicts') /\ untouched id d d'.
Proof using Type.
  intros Hf. revert d verdicts fees. induction Hf as [|atx atxs (tx & Ht & Hr) _ IH]; intros d verdicts fees Hv; [by exists d, verdicts, fees|].
  destruct (stale_reference_inert d atx tx id v round verdicts Ht Hr Hv) as (d1 & vs1 & E1 & (U1 & U2 & U3) & _).
  cbn [processAtxs]. rewrite E1. cbn [mbind option_bind]. destruct (IH d1 vs1 (addSplit fees noFees)) as (d2 & vs2 & f2 & E2 & (V1 & V2 & V3)); [congruence|].
  exists d2, vs2, f2. split; [done|]. split_and!; congruence.
Qed.

End Stale.

(** What a wallet builds from a served body refers to the body's version. *)
Lemma wallet_refers X K w pod fn args created gas (o : Object) id :
  length id = 32%nat -> id <> zeroHash -> refers id (obj_version o) (fst (buildObjectTx X K w pod fn args created (buildMutableRef id (oi_Version (parseObject o))) gas)).
Proof.
  intros Hl Hz. exists (mkTxRef id (obj_version o) []). split; [|split; [unfold hash32; cbn [ref_id]; by rewrite Hl|done]].
  cbn. unfold buildSingleObjectRef. cbn [ref_id ref_version ref_domain]. rewrite bool_decide_false by done. left.
Qed.

Lemma wallet_op_refers X K w gas ops (o : Object) id :
  length id = 32%nat -> id <> zeroHash -> refers id (obj_version o) (fst (buildOpsTx X K w (buildMutableRef id (oi_Version (parseObject o))) gas ops)).
Proof.
  intros Hl Hz. exists (mkTxRef id (obj_version o) []). split; [|split; [unfold hash32; cbn [ref_id]; by rewrite Hl|done]].
  cbn. unfold buildSingleObjectRef. cbn [ref_id ref_version ref_domain]. rewrite bool_decide_false by done. left.
Qed.

(** Key 7, which does not own coin 3, calls with it as a mutable reference. *)
Definition strangerCall : Transaction := call (str "set_object") [] [mkTxRef (h 3) 0 []] [].

(** C9. A call by a key that does not own an object fails on ownership and still advances
    the object's tracked version, not its stored body's: from then on no sequence of
    transactions that refer to the version the node serves, as every wallet's do, changes
    the object. *)
Theorem stranger_strands_an_object :
  exists d split, commitCall townDag strangerCall [] = Some (d, split) /\ lastOutcome d = Some FailOwner /\
    exists o, getBody (d_ledger d) (h 3) = Some o /\ obj_owner o = h 8 /\ obj_version o = 0 /\ getVersion (l_tracker (d_ledger d)) (h 3) = 1 /\
    (forall X K w pod fn args created gas, refers (h 3) 0 (fst (buildObjectTx X K w pod fn args created (buildMutableRef (h 3) (oi_Version (parseObject o))) gas))) /\
    forall rv atxs round verdicts fees,
      Forall (fun atx => exists tx, atx_Transaction atx = Some tx /\ refers (h 3) 0 tx) atxs ->
      exists d' verdicts' fees', processAtxs (nodeEnv podNode sampleConfig d rv) sampleConfig d atxs round verdicts fees = Some (d', fees', verdicts') /\
        untouched (h 3) d d'.
Proof.
  destruct (commitCall townDag strangerCall []) as [[d split]|] eqn:Ec; [|vm_compute in Ec; discriminate]. exists d, split. split; [done|].
  assert (Hd : match commitCall townDag strangerCall [] with
    | None => False
    | Some (d, _) => lastOutcome d = Some FailOwner /\ getBody (d_ledger d) (h 3) = Some victimCoin /\ getVersion (l_tracker (d_ledger d)) (h 3) = 1
    end) by (vm_compute; split_and!; reflexivity).
  rewrite Ec in Hd. destruct Hd as (Ho & Hb & Hv). split; [done|]. exists victimCoin. split_and!; try done.
  - intros. apply (wallet_refers _ _ _ _ _ _ _ _ victimCoin); done.
  - intros rv atxs round verdicts fees Hf. apply (stale_references_inert _ _ _ _ (h 3) 0); [done|]. rewrite Hv. discriminate.
Qed.

(** ** A vertex without a producer *)

Section Panic.
Context {M : Type} `{Pebble M} (E : Env M) (c : Config) (k : NodeConfig) (bodyBytes : BodyEncoder) (fb : FlatBuffers).

(** The DAG takes it quietly: it is refused or waits for its producer to register. *)
Lemma producerless_is_quiet n now v : v_Producer v = [] -> exists n', AddVertex E c k bodyBytes n now v = Some (n', false).
Proof using Type.
  intros Hp. unfold AddVertex. destruct (hash32 (v_Hash v)) as [hash|]; [|by eexists]. destruct (has _ _); [by eexists|].
  assert (Hv : exists e, validateVertex E c k bodyBytes (n_dag n) (n_store n) v = Some (Some e) /\ isQuarantineVerdict (Some e) = false).
  { unfold validateVertex. destruct (validateProducer c (n_dag n) v) as [e|] eqn:Ee.
    - exists e. split; [done|]. unfold validateProducer in Ee. destruct (initPhase _); [done|]. destruct (Contains _ _); [done|]. by injection Ee as <-.
    - unfold validateSignature. rewrite Hp. destruct (negb (Nat.eqb (length (v_Signature v)) 64)); by eexists. }
  destruct Hv as (e & -> & Hq). cbn [mbind option_bind]. rewrite Hq. by eexists.
Qed.

(** The handler above it does not return. *)
Theorem producerless_vertex_crashes sv now data v :
  fb_vertex fb data = Some v -> v_Producer v = [] -> fb_producerCap fb data = 0%nat -> DecodeGossipTx data = None ->
  (exists n', AddVertex E c k bodyBytes (sv_node sv) now v = Some (n', false)) /\ handleGossipMessage E c k bodyBytes fb sv now data = None.
Proof using Type.
  intros Hv Hp Hcap Hg. split; [by apply producerless_is_quiet|]. unfold handleGossipMessage, handleVertexMessage. rewrite Hg, Hv. cbn [mbind option_bind]. by rewrite Hcap.
Qed.

End Panic.

(** ** Ranges *)

(** The vertices of a span, by round. *)
Definition spanOf (s : store) (from : Z) (count : nat) : list Vertex :=
  concat (map (fun i => omap (get s) (getByRound s (from + Z.of_nat i))) (seq 0 count)).

Lemma spanOf_S s from count : spanOf s from (S count) = omap (get s) (getByRound s from) ++ spanOf s (from + 1) count.
Proof.
  unfold spanOf. cbn [seq map concat]. rewrite Z.add_0_r. f_equal. rewrite <- seq_shift, map_map. f_equal. apply map_ext. intros i. do 2 f_equal. lia.
Qed.

(** Below the last round the loop ends, with the first vertices of the span. *)
Lemma rawRangeLoop_span s count from to limit out :
  0 <= from -> to < two64 - 1 -> Z.of_nat count = to + 1 - from -> (Z.of_nat (length out) < limit) ->
  rawRangeLoop (S count) s from to limit out = Some (take (Z.to_nat limit) (out ++ spanOf s from count)).
Proof.
  revert from out. induction count as [|count IH]; intros from out Hf Ht Hc Hl.
  - cbn [rawRangeLoop]. destruct (Z.leb_spec from to); [lia|]. cbn [negb]. unfold spanOf. cbn [seq map concat]. by rewrite app_nil_r, take_ge by lia.
  - cbn [rawRangeLoop]. destruct (Z.leb_spec from to); [|lia]. cbn [negb]. rewrite spanOf_S, app_assoc.
    destruct (Z.leb_spec limit (Z.of_nat (length (out ++ omap (get s) (getByRound s from))))).
    + f_equal. rewrite (take_app_le (out ++ _)) by lia. done.
    + assert (Hw : from +w 1 = from + 1) by (apply add64_exact; unfold is_u64; lia).
      rewrite Hw. apply IH; lia.
Qed.

(** Up to the last round it runs through every round to the end of the type. *)
Lemma rawRangeLoop_open s fuel from limit out :
  0 <= from -> 0 < limit -> (forall r, from <= r < two64 -> getByRound s r = []) -> Z.of_nat (length out) < limit -> Z.of_nat fuel <= two64 - from ->
  rawRangeLoop fuel s from (two64 - 1) limit out = None.
Proof.
  revert from. induction fuel as [|fuel IH]; intros from Hf Hl Hr Ho Hb; [done|]. cbn [rawRangeLoop].
  destruct (Z.leb_spec from (two64 - 1)); [|lia]. cbn [negb]. rewrite Hr by lia. cbn [omap list_omap]. rewrite app_nil_r.
  destruct (Z.leb_spec limit (Z.of_nat (length out))); [lia|]. destruct fuel as [|fuel']; [done|].
  assert (Hw : from +w 1 = from + 1) by (apply add64_exact; unfold is_u64; lia). rewrite Hw.
  apply IH; try lia. intros r Hr'. apply Hr. lia.
Qed.

Lemma range_request_reads from to : is_u64 from -> is_u64 to -> DecodeGetVertexRange (EncodeGetVertexRange from to) = Some (from, to).
Proof. intros Hf Ht. by apply (fo_read rangeRequestFmt rangeRequest_format (from, to)). Qed.

(** A span that ends below the last round is served in as many steps as it has
    rounds: its first vertices by round, at most a chunk. *)
Theorem range_is_served fb s from to :
  is_u64 from -> from <= to < two64 - 1 ->
  handleGetVertexRange fb (S (Z.to_nat (to + 1 - from))) s (EncodeGetVertexRange from to) =
  Some (Some (EncodeGetVertexRangeResp (map (fb_encodeVertex fb) (take (Z.to_nat vertexRangeChunk) (spanOf s from (Z.to_nat (to + 1 - from))))))).
Proof.
  intros Hf Ht. unfold handleGetVertexRange. rewrite range_request_reads by (unfold is_u64 in *; lia). destruct (Z.ltb_spec to from); [lia|].
  rewrite (rawRangeLoop_span s _ from to) by (unfold is_u64, vertexRangeChunk in *; cbn [length]; lia). done.
Qed.

(** A span up to the last round, asked of a node with nothing from its start on, is
    not served within any number of steps short of the rounds there are. *)
Theorem open_range_never_ends fb s from fuel :
  is_u64 from -> (forall r, from <= r < two64 -> getByRound s r = []) -> Z.of_nat fuel <= two64 - from ->
  handleGetVertexRange fb fuel s (EncodeGetVertexRange from (two64 - 1)) = None.
Proof.
  intros Hf Hr Hb. unfold handleGetVertexRange. rewrite range_request_reads by (unfold is_u64 in *; lia).
  destruct (Z.ltb_spec (two64 - 1) from); [unfold is_u64 in *; lia|].
  rewrite rawRangeLoop_open by (unfold is_u64, vertexRangeChunk in *; cbn [length]; done || lia). done.
Qed.

Lemma open_range_never_ends_witness : handleGetVertexRange (mkFlatBuffers (fun _ => None) (fun _ => None) (fun _ => None) (fun _ => 0%nat) (fun _ => []) (fun _ => []) (fun _ => []))
  5000 emptyStore (EncodeGetVertexRange 7 (two64 - 1)) = None.
Proof. apply open_range_never_ends; [unfold is_u64; lia|reflexivity|lia]. Defined.
