(* ===== verification/Transport.v ===== *)
(** * The transport under the mesh (internal/network: protocol.go, clientconn.go,
    dedup.go, blocklist.go, node.go, peer.go; cmd/node/registration.go; pkg/client/quic.go)

    Frames on a stream; the per-IP gate of the client tier, run over any interleaving
    of connections and requests; the deduplication of gossip with its concurrent
    readers and its cleaner; the peer map with connections that come and go.  QUIC
    and TLS are outside: a connection is a number, a stream its bytes.  Time is in
    nanoseconds. *)

From S2P Require Import Prelude Types Wire.

(** ** Frames *)

Definition maxMessageSize : Z := 16777216.
Definition lengthPrefixSize : nat := 4.
Definition registrationMaxResponse : Z := 1048576.

(** The bytes a message puts on the stream. *)
Definition writeMessage (data : bytes) : option bytes :=
  if maxMessageSize <? Z.of_nat (length data) then None else Some (be_enc 4 (Z.of_nat (length data)) ++ data).

(** A message and what is left of the stream. *)
Definition readFrame (limit : Z) (stream : bytes) : option (bytes * bytes) :=
  if Nat.ltb (length stream) lengthPrefixSize then None
  else
    let length_ := be_dec (take lengthPrefixSize stream) in
    let stream := drop lengthPrefixSize stream in
    if limit <? length_ then None
    else if Nat.ltb (length stream) (Z.to_nat length_) then None
    else Some (take (Z.to_nat length_) stream, drop (Z.to_nat length_) stream).

Definition readMessage : bytes -> option (bytes * bytes) := readFrame maxMessageSize.
Definition readQUICFrame : bytes -> option (bytes * bytes) := readFrame maxMessageSize.
Definition readRegistrationFrame : bytes -> option (bytes * bytes) := readFrame registrationMaxResponse.

(** [writeQUICFrame] and [writeRegistrationFrame] do not look at the size. *)
Definition writeQUICFrame (data : bytes) : bytes := be_enc 4 (u32 (Z.of_nat (length data))) ++ data.
Definition writeRegistrationFrame : bytes -> bytes := writeQUICFrame.

(** ** The client gate (clientconn.go)

    A token is [second] units, so that a nanosecond refills [clientRatePerSecond]
    units; the code keeps the tokens in a [float64]. *)

Definition second : Z := 1000000000.
Definition maxClientConnsPerIP : Z := 16.
Definition maxClientStreamsPerIP : Z := 64.
Definition maxClientPendingBytesPerIP : Z := 8388608.
Definition clientRateBurst : Z := 64.
Definition clientRatePerSecond : Z := 32.

Inductive ResourceLimitError := connectionsPerIP | streamsPerIP | pendingBytesPerIP | rateLimitPerIP.

Record ipScope := mkScope { ip_conns : Z; ip_streams : Z; ip_pendingBytes : Z; ip_tokens : Z; ip_lastRefill : Z }.

Abbreviation clientGate := (gmap bytes ipScope).

Definition newScope (now : Z) : ipScope := mkScope 0 0 0 (clientRateBurst * second) now.
Definition scopeFor (g : clientGate) (now : Z) (ip : bytes) : ipScope := default (newScope now) (g !! ip).

Definition admitConn (g : clientGate) (now : Z) (ip : bytes) : clientGate * option ResourceLimitError :=
  let s := scopeFor g now ip in
  if maxClientConnsPerIP <=? ip_conns s then (<[ip := s]> g, Some connectionsPerIP)
  else (<[ip := mkScope (ip_conns s + 1) (ip_streams s) (ip_pendingBytes s) (ip_tokens s) (ip_lastRefill s)]> g, None).

Definition releaseConn (g : clientGate) (ip : bytes) : clientGate :=
  match g !! ip with
  | None => g
  | Some s =>
      let s := mkScope (ip_conns s - 1) (ip_streams s) (ip_pendingBytes s) (ip_tokens s) (ip_lastRefill s) in
      if (ip_conns s <=? 0) && (ip_streams s <=? 0) && (ip_pendingBytes s <=? 0) then delete ip g else <[ip := s]> g
  end.

Definition takeToken (s : ipScope) (now : Z) : ipScope * bool :=
  let tokens := Z.min (clientRateBurst * second) (ip_tokens s + (now - ip_lastRefill s) * clientRatePerSecond) in
  if tokens <? second then (mkScope (ip_conns s) (ip_streams s) (ip_pendingBytes s) tokens now, false)
  else (mkScope (ip_conns s) (ip_streams s) (ip_pendingBytes s) (tokens - second) now, true).

Definition admitStream (g : clientGate) (now : Z) (ip : bytes) (size : Z) : clientGate * option ResourceLimitError :=
  let s := scopeFor g now ip in
  if maxClientStreamsPerIP <=? ip_streams s then (<[ip := s]> g, Some streamsPerIP)
  else if maxClientPendingBytesPerIP <? ip_pendingBytes s + size then (<[ip := s]> g, Some pendingBytesPerIP)
  else
    let '(s, ok) := takeToken s now in
    if negb ok then (<[ip := s]> g, Some rateLimitPerIP)
    else (<[ip := mkScope (ip_conns s) (ip_streams s + 1) (ip_pendingBytes s + size) (ip_tokens s) (ip_lastRefill s)]> g, None).

Definition releaseStream (g : clientGate) (ip : bytes) (size : Z) : clientGate :=
  match g !! ip with
  | None => g
  | Some s => <[ip := mkScope (ip_conns s) (ip_streams s - 1) (Z.max 0 (ip_pendingBytes s - size)) (ip_tokens s) (ip_lastRefill s)]> g
  end.

(** What clients do, in any order: [handleClientConn] opens and ends, [serveClientStream]
    asks for its slot and gives it back, possibly after its connection ended. *)
Inductive gateEvent :=
| Elapse (dt : Z)
| OpenConn (ip : bytes)
| EndConn (i : nat)
| AskStream (ip : bytes) (data : bytes)
| EndStream (i : nat).

(** The gate with the connections and requests in progress and the requests served. *)
Record Front := mkFront {
  fr_gate : clientGate;
  fr_now : Z;
  fr_conns : list bytes;
  fr_streams : list (bytes * Z);
  fr_served : list bytes;
}.

Definition newFront (now : Z) : Front := mkFront ∅ now [] [] [].

Definition frontStep (f : Front) (ev : gateEvent) : Front :=
  match ev with
  | Elapse dt => mkFront (fr_gate f) (fr_now f + Z.max 0 dt) (fr_conns f) (fr_streams f) (fr_served f)
  | OpenConn ip =>
      match admitConn (fr_gate f) (fr_now f) ip with
      | (g, None) => mkFront g (fr_now f) (ip :: fr_conns f) (fr_streams f) (fr_served f)
      | (g, Some _) => mkFront g (fr_now f) (fr_conns f) (fr_streams f) (fr_served f)
      end
  | EndConn i =>
      match fr_conns f !! i with
      | None => f
      | Some ip => mkFront (releaseConn (fr_gate f) ip) (fr_now f) (delete i (fr_conns f)) (fr_streams f) (fr_served f)
      end
  | AskStream ip data =>
      let size := Z.of_nat (length data) in
      match admitStream (fr_gate f) (fr_now f) ip size with
      | (g, None) => mkFront g (fr_now f) (fr_conns f) ((ip, size) :: fr_streams f) (ip :: fr_served f)
      | (g, Some _) => mkFront g (fr_now f) (fr_conns f) (fr_streams f) (fr_served f)
      end
  | EndStream i =>
      match fr_streams f !! i with
      | None => f
      | Some (ip, size) => mkFront (releaseStream (fr_gate f) ip size) (fr_now f) (fr_conns f) (delete i (fr_streams f)) (fr_served f)
      end
  end.

Definition frontRun (f : Front) (evs : list gateEvent) : Front := foldl frontStep f evs.

(** ** Deduplication (dedup.go)

    [Check] reads the clock, looks under the read lock, then decides under the write
    lock; [cleanup] reads the clock and sweeps under the write lock. *)

Definition defaultDedupTTL : Z := 5 * second.

Definition seenRecently (seen : gmap Hash Z) (now ttl : Z) (hash : Hash) : bool :=
  match seen !! hash with Some ts => now - ts <? ttl | None => false end.

(** The part of [Check] under the write lock: the map, and whether the message is new. *)
Definition decideSeen (seen : gmap Hash Z) (now ttl : Z) (hash : Hash) : gmap Hash Z * bool :=
  if seenRecently seen now ttl hash then (seen, false) else (<[hash := now]> seen, true).

Definition cleanup (seen : gmap Hash Z) (now ttl : Z) : gmap Hash Z := filter (fun kv => now - snd kv < ttl) seen.

(** A receiver inside [Check], and the cleaner. *)
Inductive checker := Looking (now : Z) (hash : Hash) | Deciding (now : Z) (hash : Hash).

Record DedupRun := mkDedupRun {
  dd_now : Z;
  dd_seen : gmap Hash Z;
  dd_checkers : list checker;
  dd_sweep : option Z;
  dd_delivered : list (Z * Hash);
  dd_dropped : list (Z * Hash);
}.

Section DedupSteps.
Context (ttl delay : Z).

(** One step of one goroutine.  [delay] bounds the time from a receiver's reading of
    the clock to its write lock. *)
Inductive dedupStep : DedupRun -> DedupRun -> Prop :=
| dd_tick r dt : 0 <= dt -> dedupStep r (mkDedupRun (dd_now r + dt) (dd_seen r) (dd_checkers r) (dd_sweep r) (dd_delivered r) (dd_dropped r))
| dd_enter r hash :
    dedupStep r (mkDedupRun (dd_now r) (dd_seen r) (Looking (dd_now r) hash :: dd_checkers r) (dd_sweep r) (dd_delivered r) (dd_dropped r))
| dd_fast r i now hash :
    dd_checkers r !! i = Some (Looking now hash) -> seenRecently (dd_seen r) now ttl hash = true ->
    dedupStep r (mkDedupRun (dd_now r) (dd_seen r) (delete i (dd_checkers r)) (dd_sweep r) (dd_delivered r) ((now, hash) :: dd_dropped r))
| dd_look r i now hash :
    dd_checkers r !! i = Some (Looking now hash) -> seenRecently (dd_seen r) now ttl hash = false ->
    dedupStep r (mkDedupRun (dd_now r) (dd_seen r) (<[i := Deciding now hash]> (dd_checkers r)) (dd_sweep r) (dd_delivered r) (dd_dropped r))
| dd_decide r i now hash seen new :
    dd_checkers r !! i = Some (Deciding now hash) -> dd_now r - now <= delay -> decideSeen (dd_seen r) now ttl hash = (seen, new) ->
    dedupStep r (mkDedupRun (dd_now r) seen (delete i (dd_checkers r)) (dd_sweep r)
      (if new then (dd_now r, hash) :: dd_delivered r else dd_delivered r) (if new then dd_dropped r else (now, hash) :: dd_dropped r))
| dd_sweepStart r : dedupStep r (mkDedupRun (dd_now r) (dd_seen r) (dd_checkers r) (Some (dd_now r)) (dd_delivered r) (dd_dropped r))
| dd_sweepEnd r now :
    dd_sweep r = Some now -> dedupStep r (mkDedupRun (dd_now r) (cleanup (dd_seen r) now ttl) (dd_checkers r) None (dd_delivered r) (dd_dropped r)).

Definition newDedup (now : Z) : DedupRun := mkDedupRun now ∅ [] None [] [].

End DedupSteps.

(** ** Peers (node.go, peer.go, blocklist.go) *)

Definition defaultReconnectDelay : Z := 5 * second.
Definition maxReconnectDelay : Z := 60 * second.

Record PeerConn := mkPeerConn { pc_publicKey : bytes; pc_address : bytes; pc_closed : bool }.

(** A connection is the number it got in [np_conns]; [np_peers] maps a key to one. *)
Record NetNode := mkNetNode {
  np_conns : gmap nat PeerConn;
  np_peers : gmap bytes nat;
  np_knownAddrs : gmap bytes bytes;
  np_blocked : gset bytes;
}.

Definition newNetNode : NetNode := mkNetNode ∅ ∅ ∅ ∅.

(** [setupPeer] over a connection with the certificate's key. *)
Definition setupPeer (n : NetNode) (conn : nat) (pubKey : option bytes) (addr : bytes) : option NetNode :=
  key ← pubKey;
  Some (mkNetNode (<[conn := mkPeerConn key addr false]> (np_conns n)) (<[key := conn]> (np_peers n)) (<[key := addr]> (np_knownAddrs n)) (np_blocked n)).

(** [handleDisconnect] at the end of the receive loop of [conn]. *)
Definition handleDisconnect (n : NetNode) (conn : nat) : NetNode :=
  match np_conns n !! conn with
  | None => n
  | Some p =>
      if pc_closed p then n
      else mkNetNode (<[conn := mkPeerConn (pc_publicKey p) (pc_address p) true]> (np_conns n)) (delete (pc_publicKey p) (np_peers n)) (np_knownAddrs n) (np_blocked n)
  end.

(** [handleIncoming]: the tier a connection is served in. *)
Definition isValidatorConn (isValidator : option (bytes -> bool)) (pubKey : option bytes) : bool :=
  match pubKey with
  | None => false
  | Some key => match isValidator with None => true | Some fn => fn key end
  end.

Definition SetBlocklist (n : NetNode) (pubkeys : list bytes) : NetNode := mkNetNode (np_conns n) (np_peers n) (np_knownAddrs n) (list_to_set pubkeys).
Definition ClearBlocklist (n : NetNode) : NetNode := mkNetNode (np_conns n) (np_peers n) (np_knownAddrs n) ∅.
Definition isBlocked (n : NetNode) (pk : bytes) : bool := bool_decide (pk ∈ np_blocked n).

(** What one round of [reconnectPeer] finds, and the delay before the next. *)
Definition reconnectRound (n : NetNode) (key : bytes) : option bytes :=
  addr ← np_knownAddrs n !! key; if bool_decide (is_Some (np_peers n !! key)) then None else Some addr.

Definition nextDelay (delay : Z) : Z := Z.min (delay * 2) maxReconnectDelay.

(** [selectRandomPeers] with the permutation [rand.Perm] drew. *)
Definition selectRandomPeers {A} (perm : list nat) (peers : list A) (n : nat) : list A :=
  if Nat.leb (length peers) n then peers else omap (fun i => peers !! i) (take n perm).

(** [handleUniStream] after the read: the delivered message, and the map. *)
Definition handleUniStream (X : Crypto) (n : NetNode) (seen : gmap Hash Z) (now ttl : Z) (pk data : bytes) : gmap Hash Z * option bytes :=
  if isBlocked n pk then (seen, None)
  else let '(seen, new) := decideSeen seen now ttl (blake3 X data) in (seen, if new then Some data else None).
