(* ===== verification/TransportFacts.v ===== *)
(** * What the transport guarantees

    Frames read back; the client gate counts what is in progress exactly, whatever
    the interleaving, and bounds the rate while a scope lives; gossip is delivered
    once per window under concurrent receivers; where the rate limit and the peer map
    fail. *)

From S2P Require Import Prelude Types Wire Transport.

(** ** Frames *)

Lemma be_enc_read (z : Z) : is_u32 z -> be_dec (be_enc 4 z) = z.
Proof. apply uint32_read. Qed.

Lemma frame_reads limit data rest :
  limit < 2 ^ 32 -> Z.of_nat (length data) <= limit ->
  readFrame limit (be_enc 4 (Z.of_nat (length data)) ++ data ++ rest) = Some (data, rest).
Proof.
  intros Hlim Hl. unfold readFrame, lengthPrefixSize. assert (H4 : length (be_enc 4 (Z.of_nat (length data))) = 4%nat) by apply length_be_enc.
  rewrite length_app, H4. destruct (Nat.ltb_spec (4 + length (data ++ rest)) 4); [lia|]. rewrite take_app_length', drop_app_length' by done.
  rewrite be_enc_read by (unfold is_u32; lia). destruct (Z.ltb_spec limit (Z.of_nat (length data))); [lia|]. rewrite Nat2Z.id, length_app.
  destruct (Nat.ltb_spec (length data + length rest) (length data)); [lia|]. by rewrite take_app_length, drop_app_length.
Qed.

(** The messages of a stream, in order. *)
Fixpoint readAll (fuel : nat) (stream : bytes) : option (list bytes) :=
  match fuel, stream with
  | _, [] => Some []
  | O, _ => None
  | S fuel, _ => r ← readMessage stream; l ← readAll fuel (snd r); Some (fst r :: l)
  end.

(** Messages written one after the other read back as they were, and the frames of
    the client and of registration are the node's. *)
Theorem frames_read_back (messages : list bytes) :
  Forall (fun m => Z.of_nat (length m) <= maxMessageSize) messages ->
  (exists stream, foldr (fun m acc => s ← acc; b ← writeMessage m; Some (b ++ s)) (Some []) messages = Some stream /\
    readAll (length messages) stream = Some messages) /\
  Forall (fun m => writeMessage m = Some (writeQUICFrame m)) messages.
Proof.
  intros Hf. assert (Hw : forall m, Z.of_nat (length m) <= maxMessageSize -> writeMessage m = Some (be_enc 4 (Z.of_nat (length m)) ++ m)).
  { intros m Hm. unfold writeMessage. by destruct (Z.ltb_spec maxMessageSize (Z.of_nat (length m))); [lia|]. }
  split.
  - induction Hf as [|m l Hm _ (s & Es & Er)]; [by exists []|]. cbn [foldr]. rewrite Es. cbn [mbind option_bind]. rewrite Hw by done. cbn [mbind option_bind].
    eexists. split; [reflexivity|]. rewrite <- app_assoc. cbn [length readAll].
    destruct (be_enc 4 (Z.of_nat (length m)) ++ m ++ s) as [|x y] eqn:E; [by apply (f_equal length) in E; rewrite length_app, length_be_enc in E|].
    rewrite <- E. unfold readMessage. rewrite frame_reads by (unfold maxMessageSize in *; lia). cbn [mbind option_bind fst snd]. by rewrite Er.
  - eapply Forall_impl; [exact Hf|]. intros m Hm. rewrite Hw by done. unfold writeQUICFrame, u32. by rewrite Z.mod_small by (unfold maxMessageSize in Hm; lia).
Qed.

(** ** The gate counts what is in progress *)

Definition connsOf (ip : bytes) (l : list bytes) : Z := sumZ (map (fun x => if bool_decide (x = ip) then 1 else 0) l).
Definition streamsOf (ip : bytes) (l : list (bytes * Z)) : Z := sumZ (map (fun p => if bool_decide (fst p = ip) then 1 else 0) l).
Definition pendingOf (ip : bytes) (l : list (bytes * Z)) : Z := sumZ (map (fun p => if bool_decide (fst p = ip) then snd p else 0) l).

(** The scope of an address is what it has in progress, within the caps. *)
Definition scopeOk (f : Front) (ip : bytes) : Prop :=
  let conns := connsOf ip (fr_conns f) in
  let streams := streamsOf ip (fr_streams f) in
  let pending := pendingOf ip (fr_streams f) in
  match fr_gate f !! ip with
  | None => conns = 0 /\ streams = 0 /\ pending = 0
  | Some s =>
      ip_conns s = conns /\ ip_streams s = streams /\ ip_pendingBytes s = pending /\
      conns <= maxClientConnsPerIP /\ streams <= maxClientStreamsPerIP /\ pending <= maxClientPendingBytesPerIP /\
      0 <= ip_tokens s <= clientRateBurst * second /\ ip_lastRefill s <= fr_now f
  end.

Definition frontOk (f : Front) : Prop := Forall (fun p => 0 <= snd p) (fr_streams f) /\ forall ip, scopeOk f ip.

Lemma sumZ_delete {A} (f : A -> Z) (l : list A) i x : l !! i = Some x -> sumZ (map f (delete i l)) = sumZ (map f l) - f x.
Proof.
  revert i. induction l as [|y l IH]; intros [|i] Hi; try done.
  - injection Hi as <-. cbn. unfold sumZ. cbn. lia.
  - change (delete (S i) (y :: l)) with (y :: delete i l). cbn [map]. unfold sumZ. cbn [foldr]. fold (sumZ (map f l)) (sumZ (map f (delete i l))). rewrite (IH i Hi). lia.
Qed.

Lemma counts_nonneg f ip : Forall (fun p => 0 <= snd p) (fr_streams f) ->
  0 <= connsOf ip (fr_conns f) /\ 0 <= streamsOf ip (fr_streams f) /\ 0 <= pendingOf ip (fr_streams f).
Proof.
  intros Hf. rewrite Forall_forall in Hf. split_and!; apply sumZ_map_nonneg; intros x Hx; case_bool_decide; try lia. by apply Hf.
Qed.

Lemma scopeFor_ok f ip : scopeOk f ip -> Forall (fun p => 0 <= snd p) (fr_streams f) ->
  let s := scopeFor (fr_gate f) (fr_now f) ip in
  ip_conns s = connsOf ip (fr_conns f) /\ ip_streams s = streamsOf ip (fr_streams f) /\ ip_pendingBytes s = pendingOf ip (fr_streams f) /\
  connsOf ip (fr_conns f) <= maxClientConnsPerIP /\ streamsOf ip (fr_streams f) <= maxClientStreamsPerIP /\ pendingOf ip (fr_streams f) <= maxClientPendingBytesPerIP /\
  0 <= ip_tokens s <= clientRateBurst * second /\ ip_lastRefill s <= fr_now f.
Proof.
  unfold scopeOk, scopeFor. destruct (fr_gate f !! ip) as [s|]; [by cbn [default from_option id]|]. intros (-> & -> & ->) _. cbn.
  unfold maxClientConnsPerIP, maxClientStreamsPerIP, maxClientPendingBytesPerIP, clientRateBurst, second. lia.
Qed.

(** Counting one element more or less. *)
Lemma connsOf_cons ip x l : connsOf ip (x :: l) = (if bool_decide (x = ip) then 1 else 0) + connsOf ip l.
Proof. done. Qed.
Lemma streamsOf_cons ip p l : streamsOf ip (p :: l) = (if bool_decide (fst p = ip) then 1 else 0) + streamsOf ip l.
Proof. done. Qed.
Lemma pendingOf_cons ip p l : pendingOf ip (p :: l) = (if bool_decide (fst p = ip) then snd p else 0) + pendingOf ip l.
Proof. done. Qed.

Lemma tokens_ok s now : 0 <= ip_tokens s <= clientRateBurst * second -> ip_lastRefill s <= now ->
  0 <= ip_tokens (fst (takeToken s now)) <= clientRateBurst * second /\ ip_lastRefill (fst (takeToken s now)) = now /\
  ip_conns (fst (takeToken s now)) = ip_conns s /\ ip_streams (fst (takeToken s now)) = ip_streams s /\ ip_pendingBytes (fst (takeToken s now)) = ip_pendingBytes s.
Proof.
  intros Ht Hl. unfold takeToken. cbv zeta. set (t := Z.min _ _). assert (0 <= t <= clientRateBurst * second) by (unfold t, clientRatePerSecond; lia).
  destruct (Z.ltb_spec t second); cbn [fst ip_tokens ip_lastRefill ip_conns ip_streams ip_pendingBytes]; unfold second in *; lia.
Qed.

Lemma step_open f ip : frontOk f -> frontOk (frontStep f (OpenConn ip)).
Proof.
  intros [Hp Hs]. pose proof (scopeFor_ok f ip (Hs ip) Hp) as Hsc. cbn [frontStep]. unfold admitConn. cbv zeta in *.
  set (s := scopeFor _ _ _) in *. destruct Hsc as (Ec & Es & Eb & Lc & Ls & Lb & Lt & Lr).
  destruct (Z.leb_spec maxClientConnsPerIP (ip_conns s)); (split; [done|]); intros ip'; specialize (Hs ip'); unfold scopeOk in *;
    cbn [fr_gate fr_conns fr_streams fr_now]; (destruct (decide (ip = ip')) as [<-|Hne]; [rewrite lookup_insert_eq|rewrite lookup_insert_ne by done]).
  - done.
  - done.
  - cbn [ip_conns ip_streams ip_pendingBytes ip_tokens ip_lastRefill]. rewrite connsOf_cons, bool_decide_true by done. split_and!; try lia; done.
  - rewrite connsOf_cons, bool_decide_false by done. done.
Qed.

Lemma step_end f i : frontOk f -> frontOk (frontStep f (EndConn i)).
Proof.
  intros [Hp Hs]. cbn [frontStep]. destruct (fr_conns f !! i) as [ip|] eqn:Ei; [|done]. split; [done|]. intros ip'. pose proof (Hs ip') as H'. pose proof (Hs ip) as Hip.
  unfold scopeOk in *. cbn [fr_gate fr_conns fr_streams fr_now]. pose proof (counts_nonneg f ip Hp) as (N1 & N2 & N3).
  assert (Ec : forall x, connsOf x (delete i (fr_conns f)) = connsOf x (fr_conns f) - (if bool_decide (ip = x) then 1 else 0))
    by (intros x; unfold connsOf; by rewrite (sumZ_delete _ _ i ip Ei)).
  assert (Epos : 1 <= connsOf ip (fr_conns f)).
  { specialize (Ec ip). rewrite bool_decide_true in Ec by done. assert (0 <= connsOf ip (delete i (fr_conns f))) by (apply sumZ_map_nonneg; intros x _; case_bool_decide; lia). lia. }
  unfold releaseConn. destruct (fr_gate f !! ip) as [s|] eqn:Eg; [|lia]. cbn [ip_conns ip_streams ip_pendingBytes]. destruct Hip as (E1 & E2 & E3 & L).
  destruct (decide (ip = ip')) as [<-|Hne].
  - rewrite Ec, bool_decide_true by done. destruct (_ && _) eqn:Ez.
    + rewrite lookup_delete_eq. rewrite !andb_true_iff, !Z.leb_le in Ez. lia.
    + rewrite lookup_insert_eq. cbn [ip_conns ip_streams ip_pendingBytes ip_tokens ip_lastRefill]. unfold maxClientConnsPerIP in *. lia.
  - rewrite Ec, bool_decide_false, Z.sub_0_r by done. destruct (_ && _); [rewrite lookup_delete_ne by done|rewrite lookup_insert_ne by done]; done.
Qed.

Lemma step_ask f ip data : frontOk f -> frontOk (frontStep f (AskStream ip data)).
Proof.
  intros [Hp Hs]. pose proof (scopeFor_ok f ip (Hs ip) Hp) as Hsc. cbn [frontStep]. cbv zeta. unfold admitStream. cbv zeta in *.
  set (s := scopeFor _ _ _) in *. set (size := Z.of_nat (length data)). destruct Hsc as (Ec & Es & Eb & Lc & Ls & Lb & Lt & Lr).
  pose proof (tokens_ok s (fr_now f) Lt Lr) as (T1 & T2 & T3 & T4 & T5). destruct (takeToken s (fr_now f)) as [s' ok]. cbn [fst] in *.
  destruct (Z.leb_spec maxClientStreamsPerIP (ip_streams s)); [|destruct (Z.ltb_spec maxClientPendingBytesPerIP (ip_pendingBytes s + size)); [|destruct ok; cbn [negb]]];
    (split; [cbn [fr_streams]; try (constructor; [cbn; unfold size; lia|]); done|]); intros ip'; specialize (Hs ip'); unfold scopeOk in *; cbn [fr_gate fr_conns fr_streams fr_now];
    (destruct (decide (ip = ip')) as [<-|Hne]; [rewrite lookup_insert_eq|rewrite lookup_insert_ne by done]);
    rewrite ?streamsOf_cons, ?pendingOf_cons; cbn [fst snd ip_conns ip_streams ip_pendingBytes ip_tokens ip_lastRefill];
    rewrite ?(bool_decide_true (ip = ip)), ?(bool_decide_false (ip = ip')) by done; try done; try lia.
Qed.

Lemma step_finish f i : frontOk f -> frontOk (frontStep f (EndStream i)).
Proof.
  intros [Hp Hs]. cbn [frontStep]. destruct (fr_streams f !! i) as [[ip size]|] eqn:Ei; [|done].
  assert (Hd : Forall (fun p : bytes * Z => 0 <= snd p) (delete i (fr_streams f))) by (by apply Forall_delete).
  split; [done|]. intros ip'. pose proof (Hs ip') as H'. pose proof (Hs ip) as Hip. unfold scopeOk in *. cbn [fr_gate fr_conns fr_streams fr_now].
  assert (Es : forall x, streamsOf x (delete i (fr_streams f)) = streamsOf x (fr_streams f) - (if bool_decide (ip = x) then 1 else 0))
    by (intros x; unfold streamsOf; by rewrite (sumZ_delete _ _ i (ip, size) Ei)).
  assert (Eb : forall x, pendingOf x (delete i (fr_streams f)) = pendingOf x (fr_streams f) - (if bool_decide (ip = x) then size else 0))
    by (intros x; unfold pendingOf; by rewrite (sumZ_delete _ _ i (ip, size) Ei)).
  pose proof (counts_nonneg (mkFront ∅ 0 [] (delete i (fr_streams f)) []) ip Hd) as (_ & N2 & N3). cbn [fr_streams] in N2, N3. rewrite Es in N2. rewrite Eb in N3.
  rewrite bool_decide_true in N2, N3 by done. assert (Hsz : 0 <= size) by (rewrite Forall_forall in Hp; apply (Hp (ip, size)); by eapply list_elem_of_lookup_2).
  unfold releaseStream. destruct (fr_gate f !! ip) as [s|] eqn:Eg; [|lia]. rewrite Es, Eb. destruct (decide (ip = ip')) as [<-|Hne].
  - rewrite lookup_insert_eq, bool_decide_true by done. cbn [ip_conns ip_streams ip_pendingBytes ip_tokens ip_lastRefill]. rewrite Eg in *. unfold maxClientStreamsPerIP, maxClientPendingBytesPerIP in *. lia.
  - rewrite lookup_insert_ne, !bool_decide_false, !Z.sub_0_r by done. done.
Qed.

Lemma frontStep_ok f ev : frontOk f -> frontOk (frontStep f ev).
Proof.
  destruct ev; [|apply step_open|apply step_end|apply step_ask|apply step_finish].
  intros [Hp Hs]. split; [done|]. intros ip. specialize (Hs ip). unfold scopeOk in *. cbn [frontStep fr_gate fr_conns fr_streams fr_now] in *. destruct (fr_gate f !! ip); [|done].
  intuition lia.
Qed.

Lemma frontRun_ok f evs : frontOk f -> frontOk (frontRun f evs).
Proof. revert f. induction evs as [|ev evs IH]; intros f Hf; [done|]. cbn [frontRun foldl]. by apply IH, frontStep_ok. Qed.

Lemma newFront_ok now : frontOk (newFront now).
Proof. split; [constructor|]. intros ip. unfold scopeOk. cbn [newFront fr_gate]. by rewrite lookup_empty. Qed.

#[export] Hint Resolve frontRun_ok newFront_ok : go.

(** Whatever clients do, in any order, every scope counts exactly the connections,
    requests and bytes its address has in progress, and none passes its cap. *)

(** C17. Whatever clients do, in any order, the scope of every address counts exactly the
    connections, requests and bytes it has in progress, requests that outlive their
    connection included, and none passes its cap. *)
Theorem gate_counts_exactly now evs : frontOk (frontRun (newFront now) evs).
Proof. auto with go. Qed.

(** ** The rate while a scope lives *)

(** What the bucket of an address would hold if it were refilled now. *)
Definition allowance (f : Front) (ip : bytes) : Z :=
  match fr_gate f !! ip with
  | None => clientRateBurst * second
  | Some s => Z.min (clientRateBurst * second) (ip_tokens s + (fr_now f - ip_lastRefill s) * clientRatePerSecond)
  end.

Definition servedTo (ip : bytes) (f : Front) : Z := connsOf ip (fr_served f).

(** One event takes a token for each request it serves and gives no more than the
    refill of the time it takes, unless it drops the scope. *)
Lemma allowance_step f ev ip :
  is_Some (fr_gate f !! ip) -> is_Some (fr_gate (frontStep f ev) !! ip) ->
  second * servedTo ip (frontStep f ev) + allowance (frontStep f ev) ip <=
  second * servedTo ip f + allowance f ip + clientRatePerSecond * (fr_now (frontStep f ev) - fr_now f).
Proof.
  intros [s Hs] Hk. unfold servedTo, allowance. rewrite Hs. destruct ev as [dt|ip'|i|ip' data|i]; cbn [frontStep] in *.
  - cbn [fr_gate fr_now fr_served] in *. rewrite Hs. unfold clientRatePerSecond. lia.
  - unfold admitConn. cbv zeta. unfold scopeFor. destruct (decide (ip' = ip)) as [->|Hne].
    + rewrite Hs. cbn [default from_option id]. destruct (_ <=? _); cbn [fr_gate fr_now fr_served]; rewrite lookup_insert_eq; cbn [ip_tokens ip_lastRefill]; lia.
    + destruct (_ <=? _); cbn [fr_gate fr_now fr_served]; rewrite lookup_insert_ne, Hs by done; lia.
  - destruct (fr_conns f !! i) as [ip'|]; [|rewrite Hs; lia]. cbn [fr_gate fr_now fr_served] in *. unfold releaseConn in *. destruct (fr_gate f !! ip') as [s'|] eqn:Es'; [|rewrite Hs; lia].
    destruct (decide (ip' = ip)) as [->|Hne].
    + rewrite Hs in Es'. injection Es' as <-. destruct (_ && _); [rewrite lookup_delete_eq in Hk; by destruct Hk|]. rewrite lookup_insert_eq. cbn [ip_tokens ip_lastRefill]. lia.
    + destruct (_ && _); [rewrite lookup_delete_ne, Hs by done|rewrite lookup_insert_ne, Hs by done]; lia.
  - unfold admitStream. cbv zeta. unfold scopeFor. destruct (decide (ip' = ip)) as [->|Hne].
    + rewrite Hs. cbn [default from_option id]. destruct (_ <=? _); [cbn [fr_gate fr_now fr_served]; rewrite lookup_insert_eq; lia|].
      destruct (_ <? _); [cbn [fr_gate fr_now fr_served]; rewrite lookup_insert_eq; lia|]. unfold takeToken. cbv zeta. set (t := Z.min _ _).
      destruct (Z.ltb_spec t second); cbn [negb fr_gate fr_now fr_served]; rewrite lookup_insert_eq; cbn [ip_tokens ip_lastRefill].
      * rewrite Z.sub_diag. unfold t. lia.
      * rewrite connsOf_cons, bool_decide_true by done. rewrite Z.sub_diag. lia.
    + destruct (_ <=? _); [|destruct (_ <? _); [|destruct (takeToken _ _) as [s' []]; cbn [negb]]]; cbn [fr_gate fr_now fr_served];
        rewrite ?connsOf_cons, ?bool_decide_false, lookup_insert_ne, Hs by done; lia.
  - destruct (fr_streams f !! i) as [[ip' size]|]; [|rewrite Hs; lia]. cbn [fr_gate fr_now fr_served] in *. unfold releaseStream in *. destruct (fr_gate f !! ip') as [s'|] eqn:Es'; [|rewrite Hs; lia].
    destruct (decide (ip' = ip)) as [->|Hne].
    + rewrite Hs in Es'. injection Es' as <-. rewrite lookup_insert_eq. cbn [ip_tokens ip_lastRefill]. lia.
    + rewrite lookup_insert_ne, Hs by done. lia.
Qed.

(** The scope of [ip] is there before and after every event. *)
Fixpoint scopeLives (ip : bytes) (f : Front) (evs : list gateEvent) : Prop :=
  is_Some (fr_gate f !! ip) /\ match evs with [] => True | ev :: evs => scopeLives ip (frontStep f ev) evs end.

Lemma allowance_run ip evs f :
  scopeLives ip f evs ->
  second * servedTo ip (frontRun f evs) + allowance (frontRun f evs) ip <=
  second * servedTo ip f + allowance f ip + clientRatePerSecond * (fr_now (frontRun f evs) - fr_now f).
Proof.
  revert f. induction evs as [|ev evs IH]; intros f; cbn [scopeLives frontRun foldl]; [lia|]. intros [H0 Hl].
  assert (H1 : is_Some (fr_gate (frontStep f ev) !! ip)) by (destruct evs; apply Hl).
  specialize (IH _ Hl). pose proof (allowance_step f ev ip H0 H1). fold (frontRun (frontStep f ev) evs). unfold frontRun in *. lia.
Qed.

Lemma allowance_bounds f ip : frontOk f -> 0 <= allowance f ip <= clientRateBurst * second.
Proof.
  intros [_ Hs]. specialize (Hs ip). unfold allowance, scopeOk in *. destruct (fr_gate f !! ip) as [s|]; [|unfold clientRateBurst, second; lia].
  unfold clientRatePerSecond, clientRateBurst, second in *. lia.
Qed.

(** While an address keeps its scope, the requests served to it in a window are at
    most the burst and the steady rate over the window. *)
Theorem gate_bounds_the_rate ip now before evs :
  let f := frontRun (newFront now) before in
  scopeLives ip f evs ->
  second * (servedTo ip (frontRun f evs) - servedTo ip f) <= clientRateBurst * second + clientRatePerSecond * (fr_now (frontRun f evs) - fr_now f).
Proof.
  intros f Hl. pose proof (allowance_run ip evs f Hl). assert (Hf : frontOk f) by (unfold f; auto with go).
  pose proof (allowance_bounds f ip Hf). pose proof (allowance_bounds (frontRun f evs) ip ltac:(auto with go)). lia.
Qed.

(** ** Where the limit fails *)

(** A connection of its own for each request, as [QUICTransport.roundTrip] does. *)
Definition oneRequest (ip data : bytes) : list gateEvent := [OpenConn ip; AskStream ip data; EndStream 0; EndConn 0].

(** The front while its one client has a connection, and a request on it. *)
Definition withScope (ip : bytes) (now conns streams pending tokens : Z) : clientGate := <[ip := mkScope conns streams pending tokens now]> ∅.

Lemma open_alone ip now served :
  frontStep (mkFront ∅ now [] [] served) (OpenConn ip) = mkFront (withScope ip now 1 0 0 (clientRateBurst * second)) now [ip] [] served.
Proof. cbn [frontStep]. unfold admitConn, scopeFor. cbn [fr_gate]. by rewrite lookup_empty. Qed.

Lemma ask_alone ip data now served :
  Z.of_nat (length data) <= maxClientPendingBytesPerIP ->
  frontStep (mkFront (withScope ip now 1 0 0 (clientRateBurst * second)) now [ip] [] served) (AskStream ip data) =
  mkFront (withScope ip now 1 1 (Z.of_nat (length data)) (clientRateBurst * second - second)) now [ip] [(ip, Z.of_nat (length data))] (ip :: served).
Proof.
  intros Hd. cbn [frontStep]. cbv zeta. unfold admitStream, scopeFor, withScope. cbn [fr_gate fr_now]. rewrite lookup_insert_eq. cbn [default from_option id ip_streams ip_pendingBytes].
  change (maxClientStreamsPerIP <=? 0) with false. rewrite Z.add_0_l. destruct (Z.ltb_spec maxClientPendingBytesPerIP (Z.of_nat (length data))); [lia|].
  unfold takeToken. cbn [ip_tokens ip_lastRefill]. rewrite Z.sub_diag. change (Z.min _ _ <? second) with false. cbn [negb]. rewrite insert_insert_eq. done.
Qed.

Lemma finish_scope ip now conns streams pending tokens conns_ size served :
  frontStep (mkFront (withScope ip now conns streams pending tokens) now conns_ [(ip, size)] served) (EndStream 0) =
  mkFront (withScope ip now conns (streams - 1) (Z.max 0 (pending - size)) tokens) now conns_ [] served.
Proof. cbn [frontStep fr_streams lookup list_lookup]. unfold releaseStream, withScope. cbn [fr_gate]. by rewrite lookup_insert_eq, insert_insert_eq. Qed.

Lemma oneRequest_served ip data now served :
  Z.of_nat (length data) <= maxClientPendingBytesPerIP ->
  frontRun (mkFront ∅ now [] [] served) (oneRequest ip data) = mkFront ∅ now [] [] (ip :: served).
Proof.
  intros Hd. unfold frontRun, oneRequest. cbn [foldl]. rewrite open_alone, ask_alone, finish_scope, (Z.sub_diag (Z.of_nat (length data))) by done.
  cbn [frontStep fr_conns lookup list_lookup]. unfold releaseConn, withScope. cbn [fr_gate]. rewrite lookup_insert_eq.
  cbv zeta. match goal with |- context [if ?c then _ else _] => change c with true end. cbv iota. rewrite delete_insert_id by apply lookup_empty. done.
Qed.

(** Any number of requests from one address are served at one instant, one after the
    other, when each has its own connection. *)

(** Any number of requests from one address are served at one instant when each opens
    a connection of its own, as the client library does: the scope, with its token bucket,
    is dropped when the last connection closes. *)
Theorem reconnecting_evades_the_rate ip data now n :
  Z.of_nat (length data) <= maxClientPendingBytesPerIP ->
  let f := frontRun (newFront now) (concat (replicate n (oneRequest ip data))) in
  servedTo ip f = Z.of_nat n /\ fr_now f = now.
Proof.
  intros Hd f. assert (H : forall served, frontRun (mkFront ∅ now [] [] served) (concat (replicate n (oneRequest ip data))) = mkFront ∅ now [] [] (replicate n ip ++ served)).
  { clear f. induction n as [|n IH]; intros served; [done|]. cbn [replicate concat]. unfold frontRun. rewrite foldl_app. fold (frontRun (mkFront ∅ now [] [] served) (oneRequest ip data)).
    rewrite oneRequest_served by done. fold (frontRun (mkFront ∅ now [] [] (ip :: served)) (concat (replicate n (oneRequest ip data)))). rewrite IH. f_equal. cbn [app].
    clear. induction n as [|n IH]; [done|]. cbn [replicate app]. by rewrite IH. }
  unfold f, newFront. rewrite H, app_nil_r. split; [|done]. unfold servedTo. cbn [fr_served]. clear. induction n as [|n IH]; [done|].
  cbn [replicate]. rewrite connsOf_cons, bool_decide_true, IH by done. lia.
Qed.

(** A request that outlives its connection leaves an empty scope behind. *)
Lemma scope_outlives_its_client ip data now :
  Z.of_nat (length data) <= maxClientPendingBytesPerIP ->
  let f := frontRun (newFront now) [OpenConn ip; AskStream ip data; EndConn 0; EndStream 0] in
  fr_conns f = [] /\ fr_streams f = [] /\ is_Some (fr_gate f !! ip).
Proof.
  intros Hd f. unfold f, frontRun, newFront. cbn [foldl]. rewrite open_alone, ask_alone by done.
  assert (He : forall g st served, frontStep (mkFront (withScope ip now 1 1 st g) now [ip] [(ip, st)] served) (EndConn 0) =
    mkFront (withScope ip now 0 1 st g) now [] [(ip, st)] served).
  { intros g st served. cbn [frontStep fr_conns lookup list_lookup]. unfold releaseConn, withScope. cbn [fr_gate]. rewrite lookup_insert_eq.
    cbv zeta. match goal with |- context [if ?c then _ else _] => change c with (false && (st <=? 0)) end. cbv iota. rewrite insert_insert_eq. done. }
  rewrite He, finish_scope. split_and!; [done..|]. cbn [fr_gate]. unfold withScope. rewrite lookup_insert_eq. by eexists.
Qed.

(** ** Deduplication *)

Section DedupFacts.
Context (ttl delay : Z) (Hdelay : 0 <= delay).

(** Two deliveries of a message, the later one first. *)
Definition spaced (log : list (Z * Hash)) : Prop :=
  forall i j t1 t2 hash, (i < j)%nat -> log !! i = Some (t2, hash) -> log !! j = Some (t1, hash) -> ttl - delay <= t2 - t1.

Record dedupOk (r : DedupRun) : Prop := {
  dk_clocks : Forall (fun c => match c with Looking now _ | Deciding now _ => now <= dd_now r end) (dd_checkers r);
  dk_sweep : match dd_sweep r with Some now => now <= dd_now r | None => True end;
  dk_past : Forall (fun p => fst p <= dd_now r) (dd_delivered r);
  dk_entry : forall hash ts, dd_seen r !! hash = Some ts -> ts <= dd_now r /\ exists t, (t, hash) ∈ dd_delivered r /\ ts <= t;
  dk_recent : forall t hash, (t, hash) ∈ dd_delivered r ->
    match dd_seen r !! hash with Some ts => t - delay <= ts | None => t - delay + ttl <= dd_now r end;
  dk_spaced : spaced (dd_delivered r);
  dk_dropped : Forall (fun p => exists t, (t, snd p) ∈ dd_delivered r /\ fst p - ttl < t) (dd_dropped r);
}.

Lemma seen_was_delivered r now hash : dedupOk r -> seenRecently (dd_seen r) now ttl hash = true -> exists t, (t, hash) ∈ dd_delivered r /\ now - ttl < t.
Proof using Type.
  intros Hk Hs. unfold seenRecently in Hs. destruct (dd_seen r !! hash) as [ts|] eqn:E; [|done]. apply Z.ltb_lt in Hs.
  destruct (dk_entry r Hk hash ts E) as (_ & t & Ht & Hle). exists t. split; [done|lia].
Qed.

(** A delivery at the write lock is far enough from every earlier one. *)
Lemma delivery_spaced r now hash t :
  dedupOk r -> now <= dd_now r -> seenRecently (dd_seen r) now ttl hash = false -> (t, hash) ∈ dd_delivered r -> ttl - delay <= dd_now r - t.
Proof using Type.
  intros Hk Hn Hs Ht. pose proof (dk_recent r Hk t hash Ht) as Hr. unfold seenRecently in Hs. destruct (dd_seen r !! hash) as [ts|]; [apply Z.ltb_ge in Hs; lia|lia].
Qed.

Lemma dedupStep_ok r r' : dedupStep ttl delay r r' -> dedupOk r -> dedupOk r'.
Proof using Hdelay.
  intros Hst Hk. pose proof Hk as [Kc Ks Kp Ke Kr Ksp Kd]. destruct Hst as [r dt Hdt|r hash|r i now hash Hi Hs|r i now hash Hi Hs|r i now hash seen new Hi Hlate Hdec|r|r now Hsw];
    split; cbn [dd_now dd_seen dd_checkers dd_sweep dd_delivered dd_dropped]; try done.
  - eapply Forall_impl; [exact Kc|]. intros [] ?; lia.
  - destruct (dd_sweep r); lia.
  - eapply Forall_impl; [exact Kp|]. cbn. intros; lia.
  - intros x ts Hx. destruct (Ke x ts Hx) as [? ?]. split; [lia|done].
  - intros t x Hx. specialize (Kr t x Hx). destruct (dd_seen r !! x); lia.
  - constructor; [lia|done].
  - by apply Forall_delete.
  - constructor; [|done]. cbn [fst snd]. by apply seen_was_delivered.
  - apply Forall_insert; [done|]. rewrite Forall_lookup in Kc. by apply (Kc i _ Hi).
  - by apply Forall_delete.
  - destruct new; [|done]. constructor; [cbn; lia|done].
  - assert (Hn : now <= dd_now r) by (rewrite Forall_lookup in Kc; apply (Kc i _ Hi)). unfold decideSeen in Hdec. destruct (seenRecently _ _ _ _) eqn:Es; injection Hdec as <- <-; [exact Ke|].
    intros x ts Hx. apply lookup_insert_Some in Hx as [[<- <-]|[Hne Hx]].
    + split; [done|]. exists (dd_now r). split; [left|done].
    + destruct (Ke x ts Hx) as (? & t & ? & ?). split; [done|]. exists t. split; [by right|done].
  - unfold decideSeen in Hdec. destruct (seenRecently _ _ _ _) eqn:Es; injection Hdec as <- <-; [exact Kr|]. intros t x Hx. apply elem_of_cons in Hx as [[= -> ->]|Hx].
    + rewrite lookup_insert_eq. lia.
    + destruct (decide (hash = x)) as [<-|Hne]; [rewrite lookup_insert_eq|rewrite lookup_insert_ne by done; by apply Kr].
      rewrite Forall_forall in Kp. specialize (Kp _ Hx). cbn in Kp. lia.
  - assert (Hn : now <= dd_now r) by (rewrite Forall_lookup in Kc; apply (Kc i _ Hi)). unfold decideSeen in Hdec. destruct (seenRecently _ _ _ _) eqn:Es; injection Hdec as <- <-; [exact Ksp|].
    intros a b t1 t2 x Hab Ha Hb. destruct a as [|a]; destruct b as [|b]; try lia.
    + injection Ha as <- <-. cbn [lookup list_lookup] in Hb. apply (delivery_spaced r now hash); try done. by eapply list_elem_of_lookup_2.
    + cbn [lookup list_lookup] in Ha, Hb. apply (Ksp a b t1 t2 x); [lia|done..].
  - unfold decideSeen in Hdec. destruct (seenRecently _ _ _ _) eqn:Es; injection Hdec as <- <-.
    + constructor; [|done]. cbn [fst snd]. by apply seen_was_delivered.
    + eapply Forall_impl; [exact Kd|]. intros p (t & Ht & Hl). exists t. split; [by right|done].
  - intros x ts Hx. unfold cleanup in Hx. apply map_lookup_filter_Some in Hx as [Hx _]. by apply Ke.
  - intros t x Hx. rewrite Hsw in Ks. unfold cleanup. specialize (Kr t x Hx). destruct (dd_seen r !! x) as [ts|] eqn:Ex.
    + destruct (decide (now - ts < ttl)).
      * rewrite (map_lookup_filter_Some_2 _ _ x ts); [done|done|done].
      * assert (filter (fun kv => now - snd kv < ttl) (dd_seen r) !! x = None) as ->; [|lia].
        apply map_lookup_filter_None. right. intros y Hy. rewrite Ex in Hy. injection Hy as <-. done.
    + assert (filter (fun kv => now - snd kv < ttl) (dd_seen r) !! x = None) as -> by (apply map_lookup_filter_None; by left). done.
Qed.

End DedupFacts.

(** Under any interleaving of receivers and the cleaner, when a receiver takes at most
    [delay] from its clock to its lock: deliveries of one message are at least the
    window less [delay] apart, and a message is dropped only when it was delivered
    within the window before. *)

(** C16. Under any interleaving of receivers and the cleaner, with at most a given delay
    from a receiver's clock to its lock, deliveries of one gossip message are at least the
    window less the delay apart, and a message is dropped only when it was delivered
    within the window before. *)
Theorem gossip_once_per_window ttl delay now r :
  0 <= delay -> rtc (dedupStep ttl delay) (newDedup now) r ->
  spaced ttl delay (dd_delivered r) /\
  forall t hash, (t, hash) ∈ dd_dropped r -> exists t', (t', hash) ∈ dd_delivered r /\ t - ttl < t'.
Proof.
  intros Hd Hr. assert (Hk : dedupOk ttl delay r).
  { assert (H0 : dedupOk ttl delay (newDedup now)).
    { split; cbn [newDedup dd_now dd_seen dd_checkers dd_sweep dd_delivered dd_dropped]; try done; try apply Forall_nil_2.
      - by intros t hash ?%elem_of_nil. }
    revert H0. induction Hr as [|a b c Hab _ IH]; [done|]. intros Ha. apply IH. by eapply dedupStep_ok. }
  split; [apply (dk_spaced _ _ r Hk)|]. intros t hash Hin. pose proof (dk_dropped _ _ r Hk) as Hf. rewrite Forall_forall in Hf. apply (Hf _ Hin).
Qed.

(** ** Peers *)

(** A second connection of a key replaces the first in the map and leaves it open;
    when the first ends, the map loses the second, which is still open. *)
Theorem old_connection_unseats_the_new key addr1 addr2 :
  let n := n1 ← setupPeer newNetNode 0 (Some key) addr1; n2 ← setupPeer n1 1 (Some key) addr2; Some (handleDisconnect n2 0) in
  exists n', n = Some n' /\ np_peers n' !! key = None /\ (pc_closed <$> np_conns n' !! 1%nat) = Some false /\ reconnectRound n' key = Some addr2.
Proof.
  eexists. split; [reflexivity|]. unfold handleDisconnect. cbn [np_conns np_peers np_knownAddrs newNetNode pc_closed pc_publicKey].
  rewrite lookup_insert_ne by done. rewrite lookup_insert_eq. cbn [pc_closed pc_publicKey pc_address np_peers np_conns np_knownAddrs].
  unfold reconnectRound. cbn [np_peers np_knownAddrs]. rewrite lookup_delete_eq, lookup_insert_ne, !lookup_insert_eq by done. done.
Qed.

(** With one connection per key at a time the map is the open connections. *)
Definition peersOk (n : NetNode) : Prop :=
  forall key conn, np_peers n !! key = Some conn <-> exists p, np_conns n !! conn = Some p /\ pc_publicKey p = key /\ pc_closed p = false.

Lemma peers_follow n conn key addr n' :
  peersOk n -> np_conns n !! conn = None -> np_peers n !! key = None -> setupPeer n conn (Some key) addr = Some n' -> peersOk n'.
Proof.
  intros Hk Hc Hp [= <-]. intros k c. cbn [np_peers np_conns]. destruct (decide (key = k)) as [<-|Hne].
  - rewrite lookup_insert_eq. split.
    + intros [= <-]. exists (mkPeerConn key addr false). by rewrite lookup_insert_eq.
    + intros (p & Hl & Hpk & Hcl). destruct (decide (conn = c)) as [<-|Hnc]; [done|]. rewrite lookup_insert_ne in Hl by done.
      assert (np_peers n !! key = Some c) by (apply Hk; eauto). congruence.
  - rewrite lookup_insert_ne by done. rewrite (Hk k c). split; intros (p & Hl & Hpk & Hcl); exists p; split_and!; try done.
    + rewrite lookup_insert_ne; [done|]. intros <-. congruence.
    + destruct (decide (conn = c)) as [<-|Hnc]; [rewrite lookup_insert_eq in Hl; injection Hl as <-; by cbn in Hpk|by rewrite lookup_insert_ne in Hl].
Qed.

Lemma peers_leave n conn : peersOk n -> peersOk (handleDisconnect n conn).
Proof.
  intros Hk. unfold handleDisconnect. destruct (np_conns n !! conn) as [p|] eqn:Ec; [|done]. destruct (pc_closed p) eqn:Ecl; [done|].
  assert (Hp : np_peers n !! pc_publicKey p = Some conn) by (apply Hk; eauto). intros k c. cbn [np_peers np_conns]. destruct (decide (pc_publicKey p = k)) as [<-|Hne].
  - rewrite lookup_delete_eq. split; [done|]. intros (q & Hl & Hq & Hcl). destruct (decide (conn = c)) as [<-|Hnc].
    + rewrite lookup_insert_eq in Hl. injection Hl as <-. done.
    + rewrite lookup_insert_ne in Hl by done. assert (np_peers n !! pc_publicKey p = Some c) by (apply Hk; eauto). congruence.
  - rewrite lookup_delete_ne, (Hk k c) by done. split; intros (q & Hl & Hq & Hcl); exists q; split_and!; try done.
    + rewrite lookup_insert_ne; [done|]. intros <-. congruence.
    + destruct (decide (conn = c)) as [<-|Hnc]; [rewrite lookup_insert_eq in Hl; injection Hl as <-; done|by rewrite lookup_insert_ne in Hl].
Qed.

(** The waits of [reconnectPeer] double up to the maximum. *)
Lemma reconnect_delays d n : 0 <= d <= maxReconnectDelay -> Nat.iter n nextDelay d = Z.min (d * 2 ^ Z.of_nat n) maxReconnectDelay.
Proof.
  intros Hd. induction n as [|n IH]; [cbn; lia|]. change (Nat.iter (S n) nextDelay d) with (nextDelay (Nat.iter n nextDelay d)). rewrite IH. unfold nextDelay.
  rewrite Nat2Z.inj_succ, Z.pow_succ_r by lia. pose proof (Z.pow_pos_nonneg 2 (Z.of_nat n) ltac:(lia) ltac:(lia)). lia.
Qed.

(** Gossip goes to that many distinct positions, or to every peer. *)
Lemma gossip_reaches {A} (peers : list A) perm n :
  perm ≡ₚ seq 0 (length peers) ->
  length (selectRandomPeers perm peers n) = Nat.min n (length peers) /\
  exists chosen : list nat, NoDup chosen /\ Forall (fun i => (i < length peers)%nat) chosen /\ map Some (selectRandomPeers perm peers n) ≡ₚ map (fun i => peers !! i) chosen.
Proof.
  intros Hp. unfold selectRandomPeers. destruct (Nat.leb_spec (length peers) n).
  - split; [lia|]. exists (seq 0 (length peers)). split_and!; [apply NoDup_seq| |].
    + apply Forall_forall. intros i Hi%elem_of_seq. lia.
    + clear. induction peers as [|x peers IH]; [done|]. cbn [length seq map]. constructor. rewrite <- seq_shift, map_map. exact IH.
  - assert (Hf : Forall (fun i => (i < length peers)%nat) (take n perm)).
    { apply Forall_take. apply Forall_forall. intros i Hi. rewrite Hp in Hi. apply elem_of_seq in Hi. lia. }
    assert (Hm : map Some (omap (fun i => peers !! i) (take n perm)) = map (fun i => peers !! i) (take n perm)).
    { clear -Hf. induction Hf as [|i l Hi _ IH]; [done|]. cbn [omap list_omap map]. apply lookup_lt_is_Some in Hi as [x Hx]. rewrite Hx. cbn [map]. f_equal. exact IH. }
    split.
    + apply (f_equal length) in Hm. rewrite !length_map in Hm. rewrite Hm, length_take. rewrite (Permutation_length Hp), length_seq. lia.
    + exists (take n perm). split_and!; [|done|by rewrite Hm]. assert (Hn : NoDup perm) by (rewrite Hp; apply NoDup_seq). rewrite <- (take_drop n perm) in Hn. by apply NoDup_app in Hn as [? _].
Qed.

(** A message met while its sender is blocked is delivered once the block is lifted. *)
Lemma block_does_not_poison X n pks seen now ttl pk data :
  pk ∈ pks -> seen !! blake3 X data = None ->
  let '(seen', out) := handleUniStream X (SetBlocklist n pks) seen now ttl pk data in
  out = None /\ snd (handleUniStream X (ClearBlocklist (SetBlocklist n pks)) seen' now ttl pk data) = Some data.
Proof.
  intros Hin Hs. unfold handleUniStream, isBlocked. cbn [SetBlocklist np_blocked]. rewrite bool_decide_true by set_solver. split; [done|].
  cbn [ClearBlocklist np_blocked]. rewrite bool_decide_false by set_solver. unfold decideSeen, seenRecently. by rewrite Hs.
Qed.

(** ** Samples *)

Definition someIP : bytes := [10; 0; 0; 1].

Lemma frames_read_back_witness :
  (exists stream, foldr (fun m acc => s ← acc; b ← writeMessage m; Some (b ++ s)) (Some []) [[1; 2; 3]; []; [4]] = Some stream /\
    readAll 3 stream = Some [[1; 2; 3]; []; [4]]) /\ Forall (fun m => writeMessage m = Some (writeQUICFrame m)) [[1; 2; 3]; []; [4]].
Proof. apply (frames_read_back [[1; 2; 3]; []; [4]]). repeat constructor; unfold maxMessageSize; cbn; lia. Defined.

(** Seventy requests over one connection: the burst is served and the rest refused. *)
Lemma gate_bounds_the_rate_witness :
  let f := frontRun (newFront 0) [OpenConn someIP] in
  second * (servedTo someIP (frontRun f (concat (replicate 70 [AskStream someIP [1]; EndStream 0]))) - servedTo someIP f) <= clientRateBurst * second + clientRatePerSecond * 0 /\
  servedTo someIP (frontRun f (concat (replicate 70 [AskStream someIP [1]; EndStream 0]))) = 64.
Proof.
  split; [|vm_compute; reflexivity]. apply (gate_bounds_the_rate someIP 0 [OpenConn someIP] (concat (replicate 70 [AskStream someIP [1]; EndStream 0]))).
  cbn [replicate concat app scopeLives]. repeat (split; [eexists; vm_compute; reflexivity|]). exact I.
Defined.

Lemma reconnecting_evades_the_rate_witness :
  let f := frontRun (newFront 0) (concat (replicate 500 (oneRequest someIP [1; 2]))) in servedTo someIP f = 500 /\ fr_now f = 0.
Proof. apply (reconnecting_evades_the_rate someIP [1; 2] 0 500). unfold maxClientPendingBytesPerIP. cbn. lia. Defined.

(** A message delivered, then met again within the window. *)
Lemma gossip_once_per_window_witness :
  let r := mkDedupRun 3 (<[[7] := 0]> ∅) [] None [(1, [7])] [(3, [7])] in
  spaced 5 1 (dd_delivered r) /\ forall t hash, (t, hash) ∈ dd_dropped r -> exists t', (t', hash) ∈ dd_delivered r /\ t - 5 < t'.
Proof.
  apply (gossip_once_per_window 5 1 0); [lia|].
  eapply rtc_l; [apply (dd_enter 5 1 (newDedup 0) [7])|]. eapply rtc_l; [apply (dd_look 5 1 _ 0 0 [7]); reflexivity|].
  eapply rtc_l; [apply (dd_tick 5 1 _ 1); lia|]. eapply rtc_l; [apply (dd_decide 5 1 _ 0 0 [7] (<[[7] := 0]> ∅) true); [reflexivity|cbn; lia|reflexivity]|].
  eapply rtc_l; [apply (dd_tick 5 1 _ 2); lia|]. eapply rtc_l; [apply (dd_enter 5 1 _ [7])|]. eapply rtc_l; [apply (dd_fast 5 1 _ 0 3 [7]); reflexivity|].
  reflexivity.
Defined.
