(* ===== verification/Genesis.v ===== *)
(** * Genesis (internal/genesis/genesis.go, state.go; consensus/dag.go SeedGenesis;
    cmd/node/init.go)

    The state the bootstrap node seeds: the reserve coin, the counters, the founding
    validator; on a fresh data directory and on a restart. *)

From S2P Require Import Prelude Types Fees Validators Stake Storage Tracker Domains Staged Coins Ledger Ops Ingress Dag Commit Supply Execution.

(** [genesis.Config]; the key's BLS half is derived outside. *)
Record GenesisConfig := mkGenesis {
  gc_PrivateKey : bytes;
  gc_InitialMint : Z;
  gc_GenesisStake : Z;
  gc_QUICAddress : bytes;
  gc_SystemPodID : Hash;
}.

Record InitialState := mkInitialState {
  is_Coin : Object;
  is_CoinID : Hash;
  is_Pubkey : Hash;
  is_QUIC : bytes;
  is_BLS : bytes;
  is_SelfStake : Z;
  is_Supply : Z;
}.

Section Genesis.
Context {M : Type} `{Pebble M} (X : Crypto) (deriveBLS : bytes -> option bytes) (c : Config).
Implicit Types (d : DAG M) (L : Ledger M).

Definition genesisCoinID (owner : Hash) : Hash := blake3 X (str "bluepods/genesis/coin/v1" ++ owner).

Definition foundingBLSKey (privKey : bytes) : bytes :=
  if negb (Nat.eqb (length privKey) 64) then [] else default [] (deriveBLS privKey).

Definition buildGenesisCoin (coinID owner : Hash) (balance : Z) : Object := mkObject coinID 0 owner 0 (le_enc 8 balance) 0 0.

Definition BuildInitialState (g : GenesisConfig) (owner : Hash) : InitialState :=
  let coinID := genesisCoinID owner in
  let stake := if gc_InitialMint g <? gc_GenesisStake g then gc_InitialMint g else gc_GenesisStake g in
  mkInitialState (buildGenesisCoin coinID owner (gc_InitialMint g -w stake)) coinID owner (gc_QUICAddress g) (foundingBLSKey (gc_PrivateKey g)) stake (gc_InitialMint g).

(** [genesisConfig] of the node: a tenth of the mint, all of it when that is nothing. *)
Definition genesisConfig (privKey : bytes) (initialMint : Z) (quicAddress : bytes) (systemPod : Hash) : GenesisConfig :=
  let stake := initialMint / 10 in
  mkGenesis privKey initialMint (if stake =? 0 then initialMint else stake) quicAddress systemPod.

Definition SeedGenesisLedger d (ini : InitialState) : DAG M :=
  let L := d_ledger d in
  let L := set_coins L ((fun st => SetCoinsTotal (SetTotalSupply (SetObject st (is_Coin ini)) (is_Supply ini)) (is_Supply ini -w is_SelfStake ini)) <$> l_coins L) in
  let coin := is_Coin ini in
  set_ledger d (TrackObject L (is_CoinID ini) (obj_version coin) (obj_replication coin) (obj_fees coin) (obj_parent_kind coin) (default zeroHash (hash32 (obj_owner coin)))).

(** The array a key is copied into. *)
Definition copy48 (b : bytes) : bytes := take 48 (b ++ replicate 48 0).

Definition SeedGenesisValidator d (ini : InitialState) (lastCommitted : Z) : DAG M :=
  let L := d_ledger d in
  let vs := fst (Add (l_validators L) (is_Pubkey ini) (is_QUIC ini) (copy48 (is_BLS ini))) in
  let fresh := match Validators.Get vs (is_Pubkey ini) with None => true | Some existing => SelfStake existing =? 0 end in
  let vs := if fresh then SetRewardCoin (SetSelfStake vs (is_Pubkey ini) (is_SelfStake ini)) (is_Pubkey ini) (is_CoinID ini) else vs in
  recordCommittedMember c (set_ledger d (set_validators L vs)) (is_Pubkey ini) lastCommitted.

Definition SeedGenesis d (ini : InitialState) (lastCommitted : Z) : DAG M := SeedGenesisValidator (SeedGenesisLedger d ini) ini lastCommitted.

(** [seedGenesisState]: the coin's presence tells a restart. *)
Definition seedGenesisState d (bootstrap : bool) (g : GenesisConfig) (owner : Hash) (lastCommitted : Z) : DAG M :=
  if negb bootstrap then d
  else
    let ini := BuildInitialState g owner in
    if bool_decide (is_Some (st ← l_coins (d_ledger d); GetObject st (genesisCoinID owner))) then SeedGenesisValidator d ini lastCommitted
    else SeedGenesis d ini lastCommitted.

End Genesis.

(** * Facts *)

(** ** The founder's stake *)

Lemma Add_then_Get vs pk addr bls : vs_ok vs -> exists v, Validators.Get (fst (Add vs pk addr bls)) pk = Some v /\
  SelfStake v = default 0 (SelfStake <$> Validators.Get vs pk) /\ DelegatedTotal v = default 0 (DelegatedTotal <$> Validators.Get vs pk).
Proof.
  intros Hok. unfold Add. destruct (index vs !! pk) as [i|] eqn:Ei.
  - destruct (vs_ok_lookup vs pk i Hok Ei) as (v & Hv & _). cbn [fst]. unfold Validators.Get. cbn [index validators]. rewrite Ei, list_lookup_alter_eq, Hv.
    exists (fillUnset addr bls v). split; [done|]. cbn [fmap option_fmap option_map default from_option id]. unfold fillUnset. by split_ifs.
  - unfold Validators.Get. cbn [fst index validators]. rewrite lookup_insert_eq, Ei. rewrite lookup_app_r, Nat.sub_diag by lia. by exists (newInfo pk addr bls).
Qed.

Section Facts.
Context {M : Type} `{Pebble M} (X : Crypto) (deriveBLS : bytes -> option bytes) (c : Config).
Implicit Types (d : DAG M) (L : Ledger M).

Definition founderStake L (pk : Hash) : Z := default 0 (SelfStake <$> Validators.Get (l_validators L) pk).
Definition founderDelegated L (pk : Hash) : Z := default 0 (DelegatedTotal <$> Validators.Get (l_validators L) pk).

(** A founder without a stake gets the genesis stake; one with a stake keeps it. *)
Lemma seed_validator d ini round :
  let L := d_ledger d in
  let d' := SeedGenesisValidator c d ini round in
  stakeInv (l_validators L) -> 0 <= is_SelfStake ini -> founderDelegated L (is_Pubkey ini) + is_SelfStake ini <= max64 ->
  l_coins (d_ledger d') = l_coins L /\ l_tracker (d_ledger d') = l_tracker L /\ stakeInv (l_validators (d_ledger d')) /\
  bonded (l_validators (d_ledger d')) = bonded (l_validators L) + (if founderStake L (is_Pubkey ini) =? 0 then is_SelfStake ini else 0).
Proof using Type.
  intros L d' Hi Hs Hb. unfold d', SeedGenesisValidator. cbv zeta. set (vs := fst (Add _ _ _ _)). destruct (stakeInv_Add (l_validators L) (is_Pubkey ini) (is_QUIC ini) (copy48 (is_BLS ini)) Hi) as [Hv Eb].
  fold L in vs. fold vs in Hv, Eb. destruct (Add_then_Get (l_validators L) (is_Pubkey ini) (is_QUIC ini) (copy48 (is_BLS ini)) (si_ok _ Hi)) as (v & Hg & Es & Ed). fold vs in Hg. rewrite Hg.
  unfold founderStake, founderDelegated in *. rewrite <- Es. rewrite <- Ed in Hb.
  match goal with |- context [recordCommittedMember c ?dd _ _] => destruct (recordCommittedMember_ledger c dd (is_Pubkey ini) round) as (-> & -> & -> & _) end.
  cbn [d_ledger set_ledger set_validators l_coins l_tracker l_validators]. split; [done|]. split; [done|]. destruct (Z.eqb_spec (SelfStake v) 0) as [E0|_]; [|by rewrite Z.add_0_r].
  destruct (Get_stake_ok vs (is_Pubkey ini) v Hv Hg) as (Hj & _ & Hd & _).
  destruct (stakeInv_update vs (is_Pubkey ini) (set_SelfStake (is_SelfStake ini)) v Hv Hg) as [Hv1 E1]; [done|split_and!; cbn; try done; lia|].
  destruct (stakeInv_neutral (SetSelfStake vs (is_Pubkey ini) (is_SelfStake ini)) (is_Pubkey ini) (set_RewardCoin (is_CoinID ini)) Hv1) as [Hv2 E2]; [done|by intros []|].
  split; [exact Hv2|]. unfold SetRewardCoin. rewrite E2. unfold SetSelfStake. rewrite E1, Eb. cbn. lia.
Qed.

(** ** A fresh chain *)

(** The seeded coin is a coin of the store, with the balance it was built with. *)
Lemma seeded_coin st coin owner balance supply total :
  is_u64 balance -> length coin = 32%nat ->
  let st' := SetCoinsTotal (SetTotalSupply (SetObject st (buildGenesisCoin coin owner balance)) supply) total in
  is_coin st' coin /\ balanceOf st' coin = balance.
Proof using Type.
  intros Hb Hc st'. assert (Hobj : GetObject st' coin = Some (buildGenesisCoin coin owner balance)).
  { unfold GetObject, st'. cbn [SetCoinsTotal SetTotalSupply SetObject set_objects cs_objects]. unfold extractObjectID, hash32. cbn [buildGenesisCoin obj_id]. rewrite Hc.
    cbn [Nat.eqb default from_option id]. by rewrite lookup_insert_eq. }
  assert (H8 : length (le_enc 8 balance) = 8%nat) by apply length_le_enc. split.
  - exists (buildGenesisCoin coin owner balance). split; [done|]. split; [split_and!; [done..|apply wf_le_enc]|]. cbn [buildGenesisCoin obj_content]. lia.
  - unfold balanceOf. rewrite Hobj. cbn [mbind option_bind]. unfold readCoinBalance. cbn [buildGenesisCoin obj_content]. rewrite H8. cbn [Nat.ltb Nat.leb default from_option id].
    unfold slice. rewrite drop_0, take_ge by lia. apply le_dec_enc. unfold is_u64 in Hb. cbn. lia.
Qed.

(** On an empty data directory the seeded state is balanced: the mint is the reserve
    coin and the founder's stake, nothing is in flight. *)

(** C29. On an empty data directory the seeded state is balanced: the reserve coin and the
    founder's stake make up the mint, the coin is tracked, and nothing is in flight. *)
Theorem genesis_is_balanced d g owner round st :
  let coin := genesisCoinID X owner in
  let d' := seedGenesisState X deriveBLS c d true g owner round in
  l_coins (d_ledger d) = Some st -> cs_objects st = ∅ -> Rep (l_tracker (d_ledger d)) ∅ -> stakeInv (l_validators (d_ledger d)) -> bonded (l_validators (d_ledger d)) = 0 ->
  is_u64 (gc_InitialMint g) -> is_u64 (gc_GenesisStake g) -> length owner = 32%nat -> length coin = 32%nat ->
  Bal {[coin]} (d_ledger d') (a_track ∅ coin 0 0 0 0 owner) 0 /\
  exists st', l_coins (d_ledger d') = Some st' /\ cs_supply st' = gc_InitialMint g /\ balanceOf st' coin + bonded (l_validators (d_ledger d')) = gc_InitialMint g.
Proof using Type.
  intros coin d' Hst He HR Hi Hb0 Hm Hg Ho Hc. unfold d', seedGenesisState. cbn [negb]. rewrite Hst. cbn [mbind option_bind]. unfold GetObject. rewrite He, lookup_empty, bool_decide_false by (by intros [? ?]).
  unfold SeedGenesis. set (ini := BuildInitialState X deriveBLS g owner). set (d1 := SeedGenesisLedger d ini).
  assert (Hstake : 0 <= is_SelfStake ini <= gc_InitialMint g).
  { unfold ini, BuildInitialState. cbn [is_SelfStake]. unfold is_u64 in *. destruct (Z.ltb_spec (gc_InitialMint g) (gc_GenesisStake g)); lia. }
  assert (Hnod : founderDelegated (d_ledger d1) (is_Pubkey ini) = 0 /\ founderStake (d_ledger d1) (is_Pubkey ini) = 0).
  { unfold founderDelegated, founderStake. cbn [d1 SeedGenesisLedger d_ledger set_ledger TrackObject feed set_tracker set_coins l_validators].
    destruct (Validators.Get (l_validators (d_ledger d)) (is_Pubkey ini)) as [v|] eqn:Ev; [|done]. pose proof (bonded_ge _ _ v Hi Ev). pose proof (Get_stake_ok _ _ v Hi Ev) as (_ & ? & ? & _).
    cbn [fmap option_fmap option_map default from_option id]. lia. }
  destruct Hnod as [Hnd Hns].
  destruct (seed_validator d1 ini round) as (Ec & Et & Hi' & Eb); [exact Hi|lia|rewrite Hnd; unfold is_u64 in Hm; lia|]. rewrite Hns, Z.eqb_refl in Eb. change (bonded (l_validators (d_ledger d1))) with (bonded (l_validators (d_ledger d))) in Eb.
  rewrite Hb0, Z.add_0_l in Eb. set (d2 := SeedGenesisValidator c d1 ini round) in *.
  assert (Esub : gc_InitialMint g -w is_SelfStake ini = gc_InitialMint g - is_SelfStake ini) by (apply sub64_exact; unfold is_u64 in *; lia).
  set (st' := SetCoinsTotal (SetTotalSupply (SetObject st (is_Coin ini)) (gc_InitialMint g)) (gc_InitialMint g - is_SelfStake ini)).
  assert (Est : l_coins (d_ledger d2) = Some st').
  { rewrite Ec. cbn [d1 SeedGenesisLedger d_ledger set_ledger TrackObject feed set_tracker set_coins l_coins]. rewrite Hst. cbn [fmap option_fmap option_map]. unfold st'. by rewrite <- Esub. }
  assert (Hcoin : is_coin st' coin /\ balanceOf st' coin = gc_InitialMint g - is_SelfStake ini).
  { assert (E : is_Coin ini = buildGenesisCoin coin owner (gc_InitialMint g - is_SelfStake ini)) by (rewrite <- Esub; done). unfold st'. rewrite E.
    apply seeded_coin; [unfold is_u64 in *; lia|done]. }
  destruct Hcoin as [Hcoin Hbal].
  split.
  - split.
    + rewrite Et. cbn [d1 SeedGenesisLedger d_ledger set_ledger TrackObject feed set_tracker l_tracker set_coins]. cbn [ini BuildInitialState is_Coin is_CoinID buildGenesisCoin obj_version obj_replication obj_fees obj_parent_kind obj_owner].
      fold coin. unfold hash32. rewrite Ho. cbn [Nat.eqb default from_option id]. apply Rep_track; try done; unfold is_u64, is_byte; lia.
    + exact Hi'.
    + exists st'. split; [done|]. assert (Hsl : slack st' (l_validators (d_ledger d2)) (a_track ∅ coin 0 0 0 0 owner) = 0).
      { unfold slack. rewrite Eb, deposits_track. cbn [st' SetCoinsTotal SetTotalSupply cs_supply cs_coins]. rewrite lookup_empty. unfold deposits, mapSum. rewrite map_to_list_empty. cbn. lia. }
      split_and!; [split; [exact Hm|cbn [st' SetCoinsTotal cs_coins]; lia|rewrite Eb; lia|lia]|done|split].
      * intros id Hid%elem_of_singleton. by subst.
      * rewrite (setSum_split _ _ coin) by set_solver. replace ({[coin]} ∖ {[coin]}) with (∅ : gset Hash) by set_solver. unfold setSum. rewrite elements_empty. cbn [map sumZ foldr]. rewrite Hbal. cbn. lia.
      * cbn [st' SetCoinsTotal cs_coins]. unfold is_u64 in Hm. lia.
  - exists st'. split_and!; [done..|]. rewrite Hbal, Eb. lia.
Qed.

(** ** A restart *)

(** Over a data directory that has the coin, a founder with a live stake leaves the
    identity as it is; a founder that has none, having unbonded it, is given the
    genesis stake again, which no coin paid for. *)

(** C30. On a restart a founder with a live stake leaves the supply identity as it is, and
    a founder that has unbonded its stake is given the genesis stake again: bonded stake
    that no coin paid for. *)
Theorem restart_mints_stake d g owner round K T fl :
  let L := d_ledger d in
  let d' := seedGenesisState X deriveBLS c d true g owner round in
  let stake := is_SelfStake (BuildInitialState X deriveBLS g owner) in
  Bal K L T fl -> genesisCoinID X owner ∈ K -> is_u64 (gc_InitialMint g) -> is_u64 (gc_GenesisStake g) -> founderDelegated L owner + stake <= max64 ->
  exists st, l_coins (d_ledger d') = Some st /\ Rep (l_tracker (d_ledger d')) T /\
    slack st (l_validators (d_ledger d')) T = fl - (if founderStake L owner =? 0 then stake else 0).
Proof using Type.
  intros L d' stake [HR Hi (st & Hst & _ & Hsl & Hco)] Hk Hm Hg Hd. destruct (co_coin _ _ Hco _ Hk) as (o & Ho & _).
  unfold d', seedGenesisState. cbn [negb]. fold L. rewrite Hst. cbn [mbind option_bind]. rewrite Ho, bool_decide_true by (by eexists).
  destruct (seed_validator d (BuildInitialState X deriveBLS g owner) round) as (Ec & Et & _ & Eb); [exact Hi| |exact Hd|].
  { cbn [BuildInitialState is_SelfStake]. unfold is_u64 in *. destruct (_ <? _); lia. }
  exists st. rewrite Ec, Et. split_and!; [done..|]. unfold slack in *. rewrite Eb. fold L stake. cbn [BuildInitialState is_Pubkey]. lia.
Qed.

End Facts.

(** A tenth of the mint is the stake, and no mint leaves the founder without one. *)
Lemma genesis_stake X deriveBLS sk mint quic pod owner :
  is_u64 mint -> is_SelfStake (BuildInitialState X deriveBLS (genesisConfig sk mint quic pod) owner) = (if mint / 10 =? 0 then mint else mint / 10).
Proof.
  intros Hm. cbn [BuildInitialState genesisConfig gc_InitialMint gc_GenesisStake is_SelfStake]. unfold is_u64 in Hm. pose proof (Z.div_le_upper_bound mint 10 mint ltac:(lia) ltac:(lia)).
  destruct (Z.eqb_spec (mint / 10) 0); [destruct (Z.ltb_spec mint mint)|destruct (Z.ltb_spec mint (mint / 10))]; lia.
Qed.

(** ** Samples *)

Definition freshDag (owner : Hash) : DAG (gmap bytes bytes) :=
  set_ledger emptyDag (mkLedger ∅ None (Some (mkCoinStore ∅ 0 0 None None)) (NewValidatorSet [owner]) None []).

Definition founding : GenesisConfig := genesisConfig (replicate 64 3) 5000 [1; 2] (h 2).

Lemma one_validator_ok owner : stakeInv (NewValidatorSet [owner]) /\ bonded (NewValidatorSet [owner]) = 0.
Proof.
  split; [split|done].
  - intros pk i. unfold NewValidatorSet. cbn [validators index map imap foldl fst snd Nat.add]. split.
    + rewrite lookup_insert_Some. intros [[<- <-]|[_ Hx]]; [by eexists|by rewrite lookup_empty in Hx].
    + intros (v & Hv & <-). destruct i as [|i]; cbn [lookup list_lookup] in Hv; [injection Hv as <-; cbn; by rewrite lookup_insert_eq|done].
  - repeat constructor; cbn; lia.
Qed.

Lemma genesis_is_balanced_witness :
  let d := seedGenesisState sampleCrypto (fun _ => None) sampleConfig (freshDag (h 7)) true founding (h 7) 0 in
  let coin := genesisCoinID sampleCrypto (h 7) in
  Bal {[coin]} (d_ledger d) (a_track ∅ coin 0 0 0 0 (h 7)) 0 /\
  exists st, l_coins (d_ledger d) = Some st /\ cs_supply st = 5000 /\ balanceOf st coin + bonded (l_validators (d_ledger d)) = 5000.
Proof.
  apply (genesis_is_balanced sampleCrypto (fun _ => None) sampleConfig (freshDag (h 7)) founding (h 7) 0 (mkCoinStore ∅ 0 0 None None)); try reflexivity.
  - apply Rep_empty. intros id. reflexivity.
  - apply one_validator_ok.
  - unfold is_u64. cbn. lia.
  - unfold is_u64. vm_compute. split; [discriminate|reflexivity].
Defined.

(** The founder of a chain of 5000 unbonds its 500 and restarts: 500 are bonded that
    the counters never had. *)
Definition unbondedDag : DAG (gmap bytes bytes) :=
  set_ledger emptyDag (mkLedger (trackObject ∅ (genesisCoinID sampleCrypto (h 7)) 0 0 0 0 (h 7)) None
    (Some (mkCoinStore (<[genesisCoinID sampleCrypto (h 7) := buildGenesisCoin (genesisCoinID sampleCrypto (h 7)) (h 7) 5000]> ∅) 5000 5000 None None))
    (NewValidatorSet [h 7]) None []).

Lemma restart_mints_stake_witness :
  let d' := seedGenesisState sampleCrypto (fun _ => None) sampleConfig unbondedDag true founding (h 7) 9 in
  let T := a_track ∅ (genesisCoinID sampleCrypto (h 7)) 0 0 0 0 (h 7) in
  exists st, l_coins (d_ledger d') = Some st /\ Rep (l_tracker (d_ledger d')) T /\ slack st (l_validators (d_ledger d')) T = 0 - 500.
Proof.
  apply (restart_mints_stake sampleCrypto (fun _ => None) sampleConfig unbondedDag founding (h 7) 9 {[genesisCoinID sampleCrypto (h 7)]} _ 0).
  - split; [by apply Rep_track|apply one_validator_ok|].
    eexists. split; [reflexivity|]. split_and!; [split; vm_compute; try split; discriminate || reflexivity|vm_compute; reflexivity|]. split.
    + intros id ->%elem_of_singleton. exists (buildGenesisCoin (genesisCoinID sampleCrypto (h 7)) (h 7) 5000). split; [apply lookup_insert_eq|]. split; [split; [done|split; [done|apply wf_le_enc]]|vm_compute; lia].
    + vm_compute. reflexivity.
    + cbn. lia.
  - set_solver.
  - unfold is_u64. cbn. lia.
  - unfold is_u64. vm_compute. split; [discriminate|reflexivity].
  - vm_compute. discriminate.
Defined.
