(* ===== verification/Recovery.v ===== *)
(** * Wallet recovery (pkg/client/recovery.go, indexreads.go, holders.go)

    The walk that rebuilds a wallet's objects from the index, against the control
    rule of the protocol: what it finds, a gift that makes it fail and a gift that makes
    it find an object the key does not control. *)

From S2P Require Import Prelude Types Fees Validators Storage Tracker Domains Staged Attest Wire Builders LightClient Wallet.

(** ** The walk *)

Definition recoveryDepthLimit : nat := 256.

(** [childrenSource]: the children of an owner key or an object, [None] on an error. *)
Definition childrenSource : Type := Hash -> option (list Hash).

(** [Client.ListChildren]: no answer for the parent is no child. *)
Definition clientListChildren (listChildren : Hash -> option (option ListChildrenResponse)) : childrenSource := fun parent =>
  resp ← listChildren parent;
  Some (match resp with None => [] | Some r => if negb (lr_Found r) then [] else lr_Children r end).

Fixpoint walkEach (walk : Hash -> option (list Hash)) (children : list Hash) : option (list Hash) :=
  match children with
  | [] => Some []
  | id :: children =>
      nested ← walk id;
      rest ← walkEach walk children;
      Some (id :: nested ++ rest)
  end.

Fixpoint walkChildren (src : childrenSource) (depth : nat) (root : Hash) : option (list Hash) :=
  match depth with
  | O => None
  | S depth => children ← src root; walkEach (walkChildren src depth) children
  end.

Definition RecoverObjects (K : Keys) (w : Wallet) (src : childrenSource) : option (Wallet * list Hash) :=
  discovered ← walkChildren src recoveryDepthLimit (Pubkey K w);
  Some (foldl TrackObject w discovered, discovered).

Definition EnumerateSubtree (src : childrenSource) (root : Hash) : option (list Hash) := walkChildren src recoveryDepthLimit root.

(** ** Holders (holders.go) *)

Record HolderReport := mkHolderReport { hr_Expected : gset Hash; hr_Actual : gset Hash }.

Definition expectedHolders (X : Crypto) (vals : list (Hash * bytes)) (id : Hash) (replication : Z) : gset Hash :=
  list_to_set (ComputeHolders X (NewValidatorSet (map fst vals)) id replication).

(** [probeHolders]: validators with an address that serve the object from their own state. *)
Definition probeHolders (getObjectLocal : bytes -> option (option bytes)) (vals : list (Hash * bytes)) : gset Hash :=
  list_to_set (map fst (filter (fun v => negb (bool_decide (snd v = [])) && bool_decide (is_Some (mjoin (getObjectLocal (snd v)))) = true) vals)).

Definition Holders (X : Crypto) (c : Client) (validators : option (list (Hash * bytes))) (getObjectLocal : bytes -> option (option bytes)) (objectID : Hash)
    : option HolderReport :=
  match clientGetObject c objectID, validators with
  | inr obj, Some vals => Some (mkHolderReport (expectedHolders X vals objectID (oi_Replication obj)) (probeHolders getObjectLocal vals))
  | _, _ => None
  end.

(** * Facts *)

(** A source that answers with the children the edges give. *)
Definition truthful (edge : Hash -> option (Z * Hash)) (src : childrenSource) : Prop :=
  forall p, exists l, src p = Some l /\ forall id, id ∈ l <-> exists k, edge id = Some (k, p).

(** [m] hops above the parent of [id] is [p]. *)
Inductive Descends (edge : Hash -> option (Z * Hash)) : Hash -> nat -> Hash -> Prop :=
| Descends_child id k p : edge id = Some (k, p) -> Descends edge id 0 p
| Descends_step id k q m p : edge id = Some (k, q) -> Descends edge q m p -> Descends edge id (S m) p.

Lemma Descends_top edge id m p :
  Descends edge id m p -> match m with O => exists k, edge id = Some (k, p) | S m => exists c k, edge c = Some (k, p) /\ Descends edge id m c end.
Proof.
  induction 1 as [id k p He|id k q m p He Hd IH]; [by eexists|]. destruct m as [|m].
  - destruct IH as [k' Hk]. exists q, k'. split; [done|]. by econstructor.
  - destruct IH as (c & k' & Hc & Hd'). exists c, k'. split; [done|]. by econstructor.
Qed.

Lemma Descends_down edge id m c k p : Descends edge id m c -> edge c = Some (k, p) -> Descends edge id (S m) p.
Proof.
  induction 1 as [id k' c He|id k' q m c He Hd IH]; intros Hc; [econstructor; [done|by econstructor]|]. econstructor; [done|]. by apply IH.
Qed.

Lemma walkEach_spec walk children l :
  walkEach walk children = Some l ->
  forall id, id ∈ l <-> id ∈ children \/ exists c l', c ∈ children /\ walk c = Some l' /\ id ∈ l'.
Proof.
  revert l. induction children as [|c children IH]; intros l; cbn [walkEach].
  - intros [= <-] id. split; [by intros ?%elem_of_nil|]. intros [Hx%elem_of_nil|(c & l' & Hx%elem_of_nil & _)]; done.
  - destruct (walk c) as [nested|] eqn:Ec; [|done]. cbn [mbind option_bind]. destruct (walkEach walk children) as [rest|]; [|done]. cbn [mbind option_bind]. intros [= <-] id.
    specialize (IH rest eq_refl id). rewrite elem_of_cons, elem_of_app, IH, elem_of_cons. split.
    + intros [->|[Hn|[Hr|(c' & l' & H1 & H2 & H3)]]]; [by left; left| |by left; right|].
      * right. exists c, nested. split; [by left|done].
      * right. exists c', l'. split; [by right|done].
    + intros [[->|Hi]|(c' & l' & [->|H1]%elem_of_cons & H2 & H3)]; [by left|by right; right; left| |].
      * right. left. congruence.
      * right. right. right. by exists c', l'.
Qed.

Lemma walkEach_total walk children : Forall (fun c => is_Some (walk c)) children -> is_Some (walkEach walk children).
Proof. induction 1 as [|c children [l Hl] _ [r Hr]]; [by eexists|]. cbn [walkEach]. rewrite Hl. cbn [mbind option_bind]. rewrite Hr. by eexists. Qed.

Lemma walkEach_fails walk children c : c ∈ children -> walk c = None -> walkEach walk children = None.
Proof.
  intros Hin Hc. induction children as [|c' children IH]; [by apply elem_of_nil in Hin|]. cbn [walkEach]. apply elem_of_cons in Hin as [->|Hin]; [by rewrite Hc|].
  destruct (walk c'); [|done]. cbn [mbind option_bind]. by rewrite IH.
Qed.

Section Walk.
Context (edge : Hash -> option (Z * Hash)) (src : childrenSource) (Hsrc : truthful edge src).

(** Within the depth the walk ends with exactly what descends from its root. *)
Lemma walk_finds depth root :
  (forall id m, Descends edge id m root -> (S m < depth)%nat) -> (0 < depth)%nat ->
  exists l, walkChildren src depth root = Some l /\ forall id, id ∈ l <-> exists m, Descends edge id m root.
Proof using Hsrc.
  revert root. induction depth as [|depth IH]; intros root Hd H0; [lia|]. cbn [walkChildren]. destruct (Hsrc root) as (children & -> & Hc). cbn [mbind option_bind].
  assert (Hsub : forall c, c ∈ children -> exists l, walkChildren src depth c = Some l /\ forall id, id ∈ l <-> exists m, Descends edge id m c).
  { intros c [k Hk]%Hc. apply IH.
    - intros id m Hm. pose proof (Hd id (S m) (Descends_down _ _ _ _ _ _ Hm Hk)). lia.
    - pose proof (Hd c 0%nat (Descends_child _ _ _ _ Hk)). lia. }
  assert (Ht : is_Some (walkEach (walkChildren src depth) children)).
  { apply walkEach_total, Forall_forall. intros c Hin. destruct (Hsub c Hin) as (l & -> & _). by eexists. }
  destruct Ht as [l Hl]. exists l. split; [done|]. intros id. rewrite (walkEach_spec _ _ _ Hl). split.
  - intros [[k Hk]%Hc|(c & l' & Hin & Hw & Hx)]; [exists 0%nat; by econstructor|]. destruct (Hsub c Hin) as (l'' & Hw' & Hs). rewrite Hw in Hw'. injection Hw' as <-.
    apply Hs in Hx as [m Hm]. apply Hc in Hin as [k Hk]. exists (S m). by eapply Descends_down.
  - intros [m Hm]. apply Descends_top in Hm. destruct m as [|m]; [left; by apply Hc|]. destruct Hm as (c & k & Hk & Hm). right.
    assert (Hin : c ∈ children) by (apply Hc; eauto). destruct (Hsub c Hin) as (l' & Hw & Hs). exists c, l'. split_and!; [done..|]. apply Hs. eauto.
Qed.

(** One descendant at the limit makes the whole walk fail. *)
Lemma walk_fails depth root id m : Descends edge id m root -> (depth <= S m)%nat -> walkChildren src depth root = None.
Proof using Hsrc.
  revert root m. induction depth as [|depth IH]; intros root m Hm Hle; [done|]. cbn [walkChildren]. destruct (Hsrc root) as (children & -> & Hc). cbn [mbind option_bind].
  apply Descends_top in Hm. destruct m as [|m].
  - destruct Hm as [k Hk]. apply (walkEach_fails _ _ id); [by apply Hc; eauto|]. by assert (depth = 0%nat) as -> by lia.
  - destruct Hm as (c & k & Hk & Hm). apply (walkEach_fails _ _ c); [by apply Hc; eauto|]. by apply (IH c m); [|lia].
Qed.

(** ** Control and descent *)

Lemma Rooted_Descends id n key : Rooted edge id n key -> Descends edge id n key.
Proof using Type. induction 1; by econstructor. Qed.

(** The chain from [id] to [key] has an edge of the wrong kind: a key edge to something
    other than the key, or an object edge to the key. Both are accepted as parents. *)
Definition strays (key id : Hash) : Prop :=
  exists x k q, (x = id \/ exists m, Descends edge id m x) /\ edge x = Some (k, q) /\ (k = keyRootKind <-> q <> key).

Lemma Descends_Rooted key id m : Descends edge id m key -> (exists n, Rooted edge id n key) \/ strays key id.
Proof using Type.
  intros Hd. remember key as p eqn:Ep. induction Hd as [id k p He|id k q m p He Hd IH].
  - destruct (decide (k = keyRootKind)) as [->|Hne]; [left; exists 0%nat; by constructor|right]. exists id, k, p. split; [by left|]. split; [done|]. by split.
  - destruct (decide (k = keyRootKind)) as [->|Hne].
    + destruct (decide (q = p)) as [->|Hqp]; [left; exists 0%nat; by constructor|]. right. exists id, keyRootKind, q. split; [by left|done].
    + destruct (IH Ep) as [[n Hr]|(x & k' & q' & Hx & He' & Hk)]; [left; exists (S n); by econstructor|right]. exists x, k', q'. split; [|done]. right.
      destruct Hx as [->|[m' Hx]]; [exists 0%nat; by econstructor|exists (S m'); by econstructor].
Qed.

End Walk.

(** ** Recovery *)

(** What a successful recovery finds. *)
Lemma recover_exact (K : Keys) (w : Wallet) edge src : truthful edge src ->
  (forall id m, Descends edge id m (Pubkey K w) -> (S m < recoveryDepthLimit)%nat) ->
  exists w' discovered, RecoverObjects K w src = Some (w', discovered) /\
    (forall id, id ∈ discovered <-> exists m, Descends edge id m (Pubkey K w)) /\
    (forall id, id ∈ w_objects w' <-> id ∈ w_objects w \/ id ∈ discovered).
Proof.
  intros Hsrc Hd. destruct (walk_finds edge src Hsrc recoveryDepthLimit (Pubkey K w) Hd) as (l & Hl & Hs); [unfold recoveryDepthLimit; lia|].
  unfold RecoverObjects. rewrite Hl. cbn [mbind option_bind]. eexists _, l. split; [reflexivity|]. split; [done|].
  intros id. clear. revert w. induction l as [|x l IH]; intros w; cbn [foldl]; [set_solver|]. rewrite IH. cbn [TrackObject w_objects]. set_solver.
Qed.

Lemma controls_Rooted edge key id : controls edge key id = true <-> exists n, Rooted edge id n key /\ (n < walkDepthLimit)%nat.
Proof.
  unfold controls, controllerOf. rewrite <- (walkController_spec edge walkDepthLimit id key). destruct (walkController edge walkDepthLimit id) as [c|]; [|by split].
  rewrite bool_decide_eq_true. split; [by intros ->|by intros [= ->]].
Qed.

(** Over a truthful source recovery succeeds exactly when nothing hangs at the depth limit
    below the key; it then finds everything the key controls, and what it finds besides
    hangs on an edge of the wrong kind. *)

(** C10. Over a source that lists an object under its tracked parent, recovery of a key
    succeeds when everything that hangs below the key stays within the depth limit, and
    fails when something hangs at it. When it succeeds it finds exactly what hangs below
    the key, every object the ownership walk of the commit path lets the key mutate among
    it, and anything it finds besides hangs on an edge of the wrong kind (a key-kind
    parent that is an object's ID, or an object-kind parent that is the key); the wallet
    then tracks what it tracked and what was found. *)
Theorem recovery_finds_all_the_key_controls (K : Keys) (w : Wallet) edge src :
  truthful edge src ->
  let key := Pubkey K w in
  ((forall id m, Descends edge id m key -> (S m < recoveryDepthLimit)%nat) ->
   exists w' discovered, RecoverObjects K w src = Some (w', discovered) /\
     (forall id, id ∈ discovered <-> exists m, Descends edge id m key) /\
     (forall id, controls edge key id = true -> id ∈ discovered) /\
     (forall id, id ∈ discovered -> controls edge key id = true \/ strays edge key id) /\
     (forall id, id ∈ w_objects w' <-> id ∈ w_objects w \/ id ∈ discovered)) /\
  (forall id m, Descends edge id m key -> (recoveryDepthLimit <= S m)%nat -> RecoverObjects K w src = None).
Proof.
  intros Hsrc key. split.
  - intros Hd. destruct (recover_exact K w edge src Hsrc Hd) as (w' & l & Hr & Hl & Hw). exists w', l. split_and!; [done|done| | |done].
    + intros id (n & Hn & _)%controls_Rooted. apply Hl. exists n. by apply Rooted_Descends.
    + intros id [m Hm]%Hl. destruct (Descends_Rooted edge key id m Hm) as [[n Hn]|Hx]; [left|by right]. apply controls_Rooted. exists n. split; [done|].
      pose proof (Hd id n (Rooted_Descends _ _ _ _ Hn)). unfold recoveryDepthLimit, walkDepthLimit in *. lia.
  - intros id m Hm Hle. unfold RecoverObjects. by rewrite (walk_fails edge src Hsrc recoveryDepthLimit (Pubkey K w) id m).
Qed.

(** ** A gift *)

(** [x] hangs [m] objects below [top]. *)
Inductive Under (edge : Hash -> option (Z * Hash)) : Hash -> nat -> Hash -> Prop :=
| Under_child id k p : edge id = Some (k, p) -> k <> keyRootKind -> Under edge id 0 p
| Under_step id k q m p : edge id = Some (k, q) -> k <> keyRootKind -> Under edge q m p -> Under edge id (S m) p.

Lemma Under_Rooted edge x m top n key : Under edge x m top -> Rooted edge top n key -> Rooted edge x (S m + n) key.
Proof. induction 1; intros Hr; (econstructor; [done..|]); [done|]. by apply IHUnder. Qed.

(** Moving [top] leaves what hangs below it in place. *)
Lemma Under_moved edge edge' x m top n key :
  (forall i, i <> top -> edge' i = edge i) -> Rooted edge top n key -> Under edge x m top -> Under edge' x m top.
Proof.
  intros He Hr Hu. induction Hu as [x k p Hx Hk|x k q m p Hx Hk Hu IH].
  - econstructor; [|exact Hk]. rewrite He; [done|]. intros ->. destruct (Rooted_det edge p n (S n) key key); [done|econstructor; done|lia].
  - assert (Hxp : x <> p).
    { intros ->. pose proof (Under_Rooted _ _ _ _ _ _ Hu Hr) as Hq. destruct (Rooted_det edge p n (S (S m + n)) key key); [done|econstructor; done|lia]. }
    econstructor; [rewrite He by done; exact Hx|exact Hk|]. by apply IH.
Qed.

(** A transfer of an object its sender controls is accepted, whatever the target. *)
Lemma transfer_view {M} `{Pebble M} (s : stagedView M) (sender top target : Hash) (refs : gset Hash) :
  top ∈ refs -> length top = 32%nat -> length target = 32%nat -> s_controls s sender top = true ->
  exists s' n, validateReparent s sender (reparentOpFor top keyRootKind target) refs = Some s' /\ Rooted (s_getParent s) top n sender /\
    forall i, s_getParent s' i = if bool_decide (i = top) then Some (keyRootKind, target) else s_getParent s i.
Proof.
  intros Hin Ht Hv Hc. unfold validateReparent, reparentOpFor. cbn [op_ObjectID op_TargetKind op_Target]. rewrite (proj2 (hash32_Some top top) (conj eq_refl Ht)), (proj2 (hash32_Some target target) (conj eq_refl Hv)). cbn [mbind option_bind].
  rewrite bool_decide_true, Hc by done. cbn [negb orb]. change (keyRootKind =? keyRootKind) with true. change (keyRootKind =? objectParentKind) with false. cbn [negb andb].
  unfold s_wouldCycle, wouldCycle. change (keyRootKind =? keyRootKind) with true. cbv iota.
  set (s' := stageReparent s top keyRootKind target) in *. exists s'.
  unfold s_controls in Hc. apply controls_Rooted in Hc as (n & Hr & _). exists n. split; [reflexivity|]. split; [done|].
  assert (Hnd : top ∉ sv_deleted s) by (intros Hd; destruct Hr as [top k He|top k p n k' He _ _]; unfold s_getParent in He; by rewrite bool_decide_true in He).
  intros i. assert (Ed : sv_deleted s' = sv_deleted s) by (unfold s', stageReparent, dropOldEdge; by repeat case_match). assert (Ep : sv_parents s' = <[top := (keyRootKind, target)]> (sv_parents s)).
  { unfold s', stageReparent. change (keyRootKind =? objectParentKind) with false. cbn [putParent sv_parents]. f_equal. unfold dropOldEdge. by repeat case_match. }
  assert (Eo : sv_ot s' = sv_ot s) by (unfold s', stageReparent, dropOldEdge; by repeat case_match). unfold s_getParent. rewrite Ed, Ep, Eo. destruct (decide (i = top)) as [->|Hi].
  - by rewrite (bool_decide_true (top = top)), (bool_decide_false (top ∈ sv_deleted s)), lookup_insert_eq.
  - by rewrite (bool_decide_false (i = top)), lookup_insert_ne.
Qed.

(** A key that controls an object with a chain of 255 objects below it hands the top
    to another key, as [TransferObject] does: the operation is accepted, and every
    recovery of the recipient fails from then on. *)

(** C11. A declared transfer of the top of a chain of 256 objects to another key passes
    every guard, and from then on recovery of the receiving key fails. *)
Theorem gift_breaks_recovery {M} `{Pebble M} (s : stagedView M) (sender top victim : Hash) (refs : gset Hash) x m src K w :
  top ∈ refs -> length top = 32%nat -> length victim = 32%nat -> s_controls s sender top = true -> Under (s_getParent s) x m top -> (254 <= m)%nat -> Pubkey K w = victim ->
  exists s', validateReparent s sender (reparentOpFor top keyRootKind victim) refs = Some s' /\
    (truthful (s_getParent s') src -> RecoverObjects K w src = None).
Proof.
  intros Hin Ht Hv Hc Hu Hm Hp. destruct (transfer_view s sender top victim refs Hin Ht Hv Hc) as (s' & n & E & Hr & Hs'). exists s'. split; [exact E|]. intros Hsrc.
  assert (Hu' : Under (s_getParent s') x m top). { eapply Under_moved; [|exact Hr|exact Hu]. intros i Hi. rewrite Hs'. by rewrite bool_decide_false. }
  assert (Hx : Rooted (s_getParent s') x (S m + 0) victim). { eapply Under_Rooted; [exact Hu'|]. constructor. rewrite Hs'. by rewrite bool_decide_true. }
  unfold RecoverObjects. rewrite Hp. rewrite (walk_fails _ _ Hsrc recoveryDepthLimit victim x (S m + 0)); [done|by apply Rooted_Descends|unfold recoveryDepthLimit; lia].
Qed.

(** A chain that does not pass through [top] stays. *)
Lemma Rooted_moved edge edge' v n victim top n' sender : (forall i, i <> top -> edge' i = edge i) -> sender <> victim -> Rooted edge top n' sender -> Rooted edge v n victim -> Rooted edge' v n victim.
Proof.
  intros He Hne Hr Hv. induction Hv as [v key Hk|v k q n key Hk Hq Hv IH].
  - constructor. rewrite He; [done|]. intros ->. destruct (Rooted_det edge top n' 0 sender key); [done|by constructor|done].
  - econstructor; [rewrite He; [exact Hk|]|done|by apply IH]. intros ->. destruct (Rooted_det edge top n' (S n) sender key); [done|by econstructor|done].
Qed.

(** A key hands an object to "the key" that is the ID of another key's object: the
    operation is accepted, and a recovery of the other key finds and tracks the object,
    which the other key does not control. *)
Theorem misdirected_gift_is_recovered {M} `{Pebble M} (s : stagedView M) (sender top v : Hash) (refs : gset Hash) n src K w :
  top ∈ refs -> length top = 32%nat -> length v = 32%nat -> s_controls s sender top = true ->
  Rooted (s_getParent s) v n (Pubkey K w) -> sender <> Pubkey K w -> v <> Pubkey K w ->
  exists s', validateReparent s sender (reparentOpFor top keyRootKind v) refs = Some s' /\ controls (s_getParent s') (Pubkey K w) top = false /\
    (truthful (s_getParent s') src -> (forall id m, Descends (s_getParent s') id m (Pubkey K w) -> (S m < recoveryDepthLimit)%nat) ->
     exists w' discovered, RecoverObjects K w src = Some (w', discovered) /\ top ∈ discovered /\ top ∈ w_objects w').
Proof.
  intros Hin Ht Hv Hc Hr Hs Hvk. destruct (transfer_view s sender top v refs Hin Ht Hv Hc) as (s' & n' & E & Htop & Hs'). exists s'. split; [exact E|].
  assert (Hedge : s_getParent s' top = Some (keyRootKind, v)) by (rewrite Hs'; by rewrite bool_decide_true). split.
  - apply not_true_is_false. intros (k & Hk & _)%controls_Rooted. destruct (Rooted_det _ _ _ _ _ _ Hk (Rooted_root _ _ _ Hedge)) as [_ ?]. congruence.
  - intros Hsrc Hd. destruct (recover_exact K w _ src Hsrc Hd) as (w' & l & Hrec & Hl & Hw). exists w', l. split; [done|].
    assert (Hx : top ∈ l); [|split; [done|apply Hw; by right]]. apply Hl. exists (S n). econstructor; [exact Hedge|]. apply Rooted_Descends.
    eapply Rooted_moved; [|exact Hs|exact Htop|exact Hr]. intros i Hi. rewrite Hs'. by rewrite bool_decide_false.
Qed.

(** ** Samples *)

Definition plainKeys : Keys := mkKeys (fun sk => take 32 (sk ++ replicate 32 0)) (fun _ _ => replicate 64 0).
Definition walletOf (n : Z) : Wallet := mkWallet (replicate 32 n) ∅ ∅ None.

(** The source that reads a list of edges. *)
Definition edgesOf (l : list (Hash * (Z * Hash))) : Hash -> option (Z * Hash) := fun id => (list_to_map l : gmap Hash (Z * Hash)) !! id.
Definition sourceOf (l : list (Hash * (Z * Hash))) : childrenSource := fun p => Some (map fst (filter (fun e => snd (snd e) = p) l)).

Lemma sourceOf_truthful l : NoDup (map fst l) -> truthful (edgesOf l) (sourceOf l).
Proof.
  intros Hn p. eexists. split; [reflexivity|]. intros id. unfold edgesOf. rewrite list_elem_of_fmap. split.
  - intros ([id' [k p']] & -> & [Hp Hin]%list_elem_of_filter). cbn in Hp. subst p'. exists k. by apply elem_of_list_to_map_1.
  - intros [k Hk]. exists (id, (k, p)). split; [done|]. apply list_elem_of_filter. split; [done|]. by apply elem_of_list_to_map_2.
Qed.

Definition smallForest : list (Hash * (Z * Hash)) := [(replicate 32 1, (0, replicate 32 7)); (replicate 32 2, (1, replicate 32 1)); (replicate 32 3, (0, replicate 32 8))].

Lemma edgesOf_In l id e : edgesOf l id = Some e -> (id, e) ∈ l.
Proof. intros Hl. by apply elem_of_list_to_map_2. Qed.

Lemma smallForest_shallow id m key : Descends (edgesOf smallForest) id m key -> (m <= 1)%nat.
Proof.
  assert (Htop : forall id k p, edgesOf smallForest id = Some (k, p) -> edgesOf smallForest p = None \/ p = replicate 32 1).
  { intros i k p Hi%edgesOf_In. unfold smallForest in Hi. repeat (apply elem_of_cons in Hi as [Hx|Hi]; [injection Hx as -> -> ->; first [by left|by right]|]). by apply elem_of_nil in Hi. }
  assert (Hone : edgesOf smallForest (replicate 32 1) = Some (0, replicate 32 7)) by reflexivity. assert (Hseven : edgesOf smallForest (replicate 32 7) = None) by reflexivity.
  intros [i k p Hi|i k q m' p Hi Hd]; [lia|]. destruct Hd as [q k' p' Hq|q k' q' m'' p' Hq Hd]; [lia|]. exfalso.
  destruct (Htop _ _ _ Hi) as [Hn| ->]; [congruence|]. assert (q' = replicate 32 7) as -> by congruence. inversion Hd; congruence.
Qed.

Lemma recovery_finds_all_the_key_controls_witness :
  exists w' discovered, RecoverObjects plainKeys (walletOf 7) (sourceOf smallForest) = Some (w', discovered) /\
    (forall id, controls (edgesOf smallForest) (replicate 32 7) id = true -> id ∈ discovered) /\ discovered = [replicate 32 1; replicate 32 2].
Proof.
  assert (Ht : truthful (edgesOf smallForest) (sourceOf smallForest)) by (apply sourceOf_truthful; apply (bool_decide_unpack _); vm_compute; exact I).
  destruct (recovery_finds_all_the_key_controls plainKeys (walletOf 7) (edgesOf smallForest) (sourceOf smallForest) Ht) as [Hr _].
  destruct Hr as (w' & l & E & _ & Hc & _). { intros id m Hm%smallForest_shallow. unfold recoveryDepthLimit. lia. }
  exists w', l. split; [exact E|]. split; [exact Hc|].
  assert (Hx : snd <$> RecoverObjects plainKeys (walletOf 7) (sourceOf smallForest) = Some [replicate 32 1; replicate 32 2]) by (vm_compute; reflexivity). rewrite E in Hx. by injection Hx.
Defined.

(** A chain of 256 objects under key 7. *)
Definition link (n : nat) : Hash := replicate 30 9 ++ be_enc 2 (Z.of_nat n).
Definition chainEdges : list (Hash * (Z * Hash)) := (link 0, (0, replicate 32 7)) :: map (fun n => (link (S n), (1, link n))) (seq 0 255).
Definition chainView : stagedView (gmap bytes bytes) := mkStaged ∅ (list_to_map chainEdges) ∅ ∅ None 0 0 ∅ ∅.

Lemma chain_under : Under (s_getParent chainView) (link 255) 254 (link 0).
Proof.
  assert (Hall : forall n, (n < 255)%nat -> s_getParent chainView (link (S n)) = Some (1, link n)).
  { assert (Hb : forallb (fun n => bool_decide (s_getParent chainView (link (S n)) = Some (1, link n))) (seq 0 255) = true) by (vm_compute; reflexivity).
    rewrite forallb_forall in Hb. intros n Hn. apply (bool_decide_eq_true_1 _ (Hb n (proj2 (in_seq 255 0 n) (conj (Nat.le_0_l n) Hn)))). }
  assert (H : forall n, (n < 255)%nat -> Under (s_getParent chainView) (link (S n)) n (link 0)); [|apply H; lia].
  induction n as [|n IH]; intros Hn; [eapply Under_child; [by apply Hall|done]|]. eapply Under_step; [by apply Hall|done|]. apply IH. lia.
Qed.

(** The source after the gift. *)
Definition movedSource : childrenSource := sourceOf ((link 0, (0, replicate 32 8)) :: map (fun n => (link (S n), (1, link n))) (seq 0 255)).

Lemma gift_breaks_recovery_witness :
  exists s', validateReparent chainView (replicate 32 7) (reparentOpFor (link 0) keyRootKind (replicate 32 8)) {[ link 0 ]} = Some s' /\
    (truthful (s_getParent s') movedSource -> RecoverObjects plainKeys (walletOf 8) movedSource = None) /\ RecoverObjects plainKeys (walletOf 8) movedSource = None.
Proof.
  assert (Hrun : RecoverObjects plainKeys (walletOf 8) movedSource = None) by (vm_compute; reflexivity).
  assert (Hg : exists s', validateReparent chainView (replicate 32 7) (reparentOpFor (link 0) keyRootKind (replicate 32 8)) {[ link 0 ]} = Some s' /\
    (truthful (s_getParent s') movedSource -> RecoverObjects plainKeys (walletOf 8) movedSource = None)); [|destruct Hg as (s' & H1 & H2); exact (ex_intro _ s' (conj H1 (conj H2 Hrun)))].
  apply (gift_breaks_recovery chainView (replicate 32 7) (link 0) (replicate 32 8) {[ link 0 ]} (link 255) 254);
    [set_solver|reflexivity|reflexivity|vm_compute; reflexivity|exact chain_under|lia|reflexivity].
Defined.
