(* ===== verification/PodVM.v ===== *)
(** * The pod VM (internal/podvm/pool.go, host.go)

    The pool of modules, the host functions a guest imports and the metering of gas.
    The WebAssembly engine is outside: a guest is a transition system that asks the
    host for one call at a time, over a linear memory; its start function runs while it
    is instantiated, before the host is given that memory. *)

From S2P Require Import Prelude Types.

(** ** Guests *)

(** What a guest does next: an import of the host, an access to its own memory, the
    return of [execute], or a trap. *)
Inductive guestStep :=
| CallGas (cost : Z)
| CallInputLen
| CallReadInput (ptr : Z)
| CallWriteOutput (ptr len : Z)
| LoadMemory (ptr len : Z)
| StoreMemory (ptr : Z) (data : bytes)
| Return_
| Trap_.

(** A compiled module: whether it links against the host, its start function if it has
    one, [execute], its initial memory and whether it exports it. *)
Record Guest := mkGuest {
  gu_State : Type;
  gu_links : bool;
  gu_init : option gu_State;
  gu_start : gu_State;
  gu_next : gu_State -> guestStep;
  gu_resume : gu_State -> bytes -> gu_State;
  gu_exported : bool;
  gu_memory : bytes;
  gu_exportsMemory : bool;
}.

(** ** The host (host.go) *)

(** [ec_memory] is the instance's memory; the host reaches it once [ec_hasMemory], which
    is [execCtx.memory != nil]. *)
Record execContext := mkExecContext {
  ec_input : bytes;
  ec_output : bytes;
  ec_memory : bytes;
  ec_hasMemory : bool;
  ec_gasLimit : Z;
  ec_gasUsed : Z;
  ec_gasExhausted : bool;
}.

Definition set_gas (x : execContext) (used : Z) (exhausted : bool) : execContext :=
  mkExecContext (ec_input x) (ec_output x) (ec_memory x) (ec_hasMemory x) (ec_gasLimit x) used exhausted.
Definition set_memory (x : execContext) (m : bytes) : execContext :=
  mkExecContext (ec_input x) (ec_output x) m (ec_hasMemory x) (ec_gasLimit x) (ec_gasUsed x) (ec_gasExhausted x).
Definition set_output (x : execContext) (out : bytes) : execContext :=
  mkExecContext (ec_input x) out (ec_memory x) (ec_hasMemory x) (ec_gasLimit x) (ec_gasUsed x) (ec_gasExhausted x).

Definition give_memory (x : execContext) (has : bool) : execContext :=
  mkExecContext (ec_input x) (ec_output x) (ec_memory x) has (ec_gasLimit x) (ec_gasUsed x) (ec_gasExhausted x).

(** [api.Memory]: an access out of range has no effect. *)
Definition inRange (m : bytes) (ptr len : Z) : bool := (0 <=? ptr) && (ptr + len <=? Z.of_nat (length m)).
Definition memoryRead (m : bytes) (ptr len : Z) : option bytes :=
  if inRange m ptr len then Some (take (Z.to_nat len) (drop (Z.to_nat ptr) m)) else None.
Definition memoryWrite (m : bytes) (ptr : Z) (data : bytes) : bytes :=
  if inRange m ptr (Z.of_nat (length data)) then take (Z.to_nat ptr) m ++ data ++ drop (Z.to_nat ptr + length data) m else m.

(** [hostGas]: the flag tells the panic. *)
Definition hostGas (x : execContext) (cost : Z) : execContext :=
  let used := ec_gasUsed x +w cost in set_gas x used (ec_gasLimit x <? used).

Definition hostInputLen (x : execContext) : Z := u32 (Z.of_nat (length (ec_input x))).

Definition hostReadInput (x : execContext) (ptr : Z) : execContext :=
  if negb (ec_hasMemory x) || Nat.eqb (length (ec_input x)) 0 then x else set_memory x (memoryWrite (ec_memory x) ptr (ec_input x)).

Definition hostWriteOutput (x : execContext) (ptr len : Z) : execContext :=
  if negb (ec_hasMemory x) || (len =? 0) then x else match memoryRead (ec_memory x) ptr len with None => x | Some data => set_output x data end.

(** ** Execution (pool.go) *)

Inductive podError := ErrModuleNotFound | ErrGasExhausted | errHostModule | errInstantiate | errNotExported | errExecute.

(** A call into the guest: [None] while it runs; [true] is a normal return. *)
Fixpoint callGuest (fuel : nat) (g : Guest) (s : gu_State g) (x : execContext) : option (execContext * bool) :=
  match fuel with
  | O => None
  | S fuel =>
      match gu_next g s with
      | CallGas cost => let x := hostGas x cost in if ec_gasExhausted x then Some (x, false) else callGuest fuel g (gu_resume g s []) x
      | CallInputLen => callGuest fuel g (gu_resume g s (le_enc 4 (hostInputLen x))) x
      | CallReadInput ptr => callGuest fuel g (gu_resume g s []) (hostReadInput x ptr)
      | CallWriteOutput ptr len => callGuest fuel g (gu_resume g s []) (hostWriteOutput x ptr len)
      | LoadMemory ptr len =>
          match memoryRead (ec_memory x) ptr len with None => Some (x, false) | Some data => callGuest fuel g (gu_resume g s data) x end
      | StoreMemory ptr data =>
          if inRange (ec_memory x) ptr (Z.of_nat (length data)) then callGuest fuel g (gu_resume g s []) (set_memory x (memoryWrite (ec_memory x) ptr data))
          else Some (x, false)
      | Return_ => Some (x, true)
      | Trap_ => Some (x, false)
      end
  end.

Definition callExecute (fuel : nat) (g : Guest) (x : execContext) : option ((podError + bytes) * Z) :=
  if negb (gu_exported g) then Some (inl errNotExported, ec_gasUsed x)
  else
    match callGuest fuel g (gu_start g) x with
    | None => None
    | Some (x, ok) =>
        Some (if ok then (inr (ec_output x), ec_gasUsed x)
              else if ec_gasExhausted x then (inl ErrGasExhausted, ec_gasUsed x)
              else (inl errExecute, ec_gasUsed x))
    end.

(** [InstantiateModule]: linking, then the start function. [None] while that runs. *)
Definition InstantiateModule (fuel : nat) (g : Guest) (x : execContext) : option (execContext * bool) :=
  if negb (gu_links g) then Some (x, false)
  else match gu_init g with None => Some (x, true) | Some s => callGuest fuel g s x end.

(** [executeModule]; [envFree] is whether the runtime, which the pool's executions share,
    has no module named "env" at this moment. *)
Definition executeModule (fuel : nat) (envFree : bool) (g : Guest) (input : bytes) (gasLimit : Z) : option ((podError + bytes) * Z) :=
  let x := mkExecContext input [] (gu_memory g) false gasLimit 0 false in
  if negb envFree then Some (inl errHostModule, 0)
  else
    match InstantiateModule fuel g x with
    | None => None
    | Some (x, false) => Some (inl errInstantiate, ec_gasUsed x)
    | Some (x, true) => callExecute fuel g (give_memory x (gu_exportsMemory g))
    end.

(** The pool; [compile] is the engine's. *)
Abbreviation Pool := (gmap Hash Guest).

Section Pool_.
Context (X : Crypto) (compile : bytes -> option Guest).

Definition Load (p : Pool) (wasmBytes : bytes) (customID : option Hash) : Pool * option Hash :=
  let id := match customID with Some id => id | None => blake3 X wasmBytes end in
  match p !! id with
  | Some _ => (p, Some id)
  | None => match compile wasmBytes with None => (p, None) | Some g => (<[id := g]> p, Some id) end
  end.

Definition Execute (fuel : nat) (envFree : bool) (p : Pool) (id : Hash) (input : bytes) (gasLimit : Z) : option ((podError + bytes) * Z) :=
  match p !! id with None => Some (inl ErrModuleNotFound, 0) | Some g => executeModule fuel envFree g input gasLimit end.

Definition Unload (p : Pool) (id : Hash) : Pool := delete id p.

End Pool_.

(** * Facts *)

(** ** Metering *)

(** From [s] the guest pays for a unit of gas, returns or traps within [n] calls,
    whatever it is answered. *)
Fixpoint paysWithin (g : Guest) (n : nat) (s : gu_State g) : Prop :=
  match gu_next g s with
  | CallGas cost => 1 <= cost < 2 ^ 32
  | Return_ | Trap_ => True
  | _ => match n with O => False | S n => forall answer, paysWithin g n (gu_resume g s answer) end
  end.

(** A metered guest, as the instrumentation of a module makes it. *)
Definition metered (g : Guest) (n : nat) : Prop := forall s, paysWithin g n s.

Lemma callGuest_mono g fuel fuel' s x r : callGuest fuel g s x = Some r -> (fuel <= fuel')%nat -> callGuest fuel' g s x = Some r.
Proof.
  revert fuel' s x. induction fuel as [|fuel IH]; intros [|fuel'] s x Hr Hle; [done|done|lia|]. cbn [callGuest] in *.
  destruct (gu_next g s); try done; try (by apply (IH fuel'); [|lia]).
  - destruct (ec_gasExhausted _); [done|]. by apply IH; [|lia].
  - destruct (memoryRead _ _ _); [|done]. by apply IH; [|lia].
  - destruct (inRange _ _ _); [|done]. by apply IH; [|lia].
Qed.

(** Steps that call no gas keep the meter. *)
Definition sameMeter (x y : execContext) : Prop := ec_gasLimit y = ec_gasLimit x /\ ec_gasUsed y = ec_gasUsed x /\ ec_gasExhausted y = ec_gasExhausted x.

Lemma hostReadInput_meter x ptr : sameMeter x (hostReadInput x ptr).
Proof. unfold hostReadInput. by destruct (_ || _). Qed.
Lemma hostWriteOutput_meter x ptr len : sameMeter x (hostWriteOutput x ptr len).
Proof. unfold hostWriteOutput. destruct (_ || _); [done|]. by destruct (memoryRead _ _ _). Qed.

(** How a call ends: normally within the limit, by a trap within it, or exhausted by one
    charge. *)
Definition endedWithin (limit : Z) (r : execContext * bool) : Prop :=
  if ec_gasExhausted (fst r) then snd r = false /\ limit < ec_gasUsed (fst r) < limit + 2 ^ 32 else 0 <= ec_gasUsed (fst r) <= limit.

Lemma metered_from g n left : metered g n -> forall k s x,
  (k <= n)%nat -> paysWithin g k s -> left = Z.to_nat (ec_gasLimit x - ec_gasUsed x) -> 0 <= ec_gasUsed x <= ec_gasLimit x -> ec_gasLimit x < two64 - 2 ^ 32 -> ec_gasExhausted x = false ->
  exists r, callGuest (S k + S n * S left) g s x = Some r /\ endedWithin (ec_gasLimit x) r.
Proof.
  intros Hm. induction left as [left IHl] using lt_wf_ind. intros k. induction k as [|k IH]; intros s x Hk Hpay El Hu Hl He.
  all: assert (Hgas : forall cost fuel, 1 <= cost < 2 ^ 32 -> (S n * S left <= fuel)%nat ->
    exists r, (if ec_gasExhausted (hostGas x cost) then Some (hostGas x cost, false) else callGuest fuel g (gu_resume g s []) (hostGas x cost)) = Some r /\ endedWithin (ec_gasLimit x) r).
  1,3: intros cost fuel Hc Hf; assert (Ew : ec_gasUsed x +w cost = ec_gasUsed x + cost) by (apply add64_exact; unfold is_u64; lia);
    unfold hostGas; rewrite Ew; cbn [set_gas ec_gasExhausted]; destruct (Z.ltb_spec (ec_gasLimit x) (ec_gasUsed x + cost)) as [Hx|Hx];
    [eexists; split; [reflexivity|]; unfold endedWithin; cbn [fst snd set_gas ec_gasExhausted ec_gasUsed]; lia|];
    set (x' := set_gas x (ec_gasUsed x + cost) false);
    destruct (IHl (Z.to_nat (ec_gasLimit x' - ec_gasUsed x')) ltac:(cbn; lia) n (gu_resume g s []) x' (le_n n) (Hm _) eq_refl ltac:(cbn; lia) Hl eq_refl) as (r & Hr & Hend);
    exists r; split; [|exact Hend]; eapply callGuest_mono; [exact Hr|]; cbn [x' set_gas ec_gasLimit ec_gasUsed]; nia.
  - cbn [paysWithin] in Hpay. cbn [Nat.add callGuest]. destruct (gu_next g s) as [cost| |ptr|ptr len|ptr len|ptr data| |]; try done; [by apply Hgas|..];
      (eexists; split; [reflexivity|]; unfold endedWithin; cbn [fst snd]; rewrite He; lia).
  - cbn [paysWithin] in Hpay. change (S (S k) + S n * S left)%nat with (S (S k + S n * S left)). cbn [callGuest].
    destruct (gu_next g s) as [cost| |ptr|ptr len|ptr len|ptr data| |].
    + apply Hgas; [done|lia].
    + apply IH; try done; lia.
    + destruct (hostReadInput_meter x ptr) as (E1 & E2 & E3). rewrite <- E1. apply IH; rewrite ?E1, ?E2, ?E3; done || lia.
    + destruct (hostWriteOutput_meter x ptr len) as (E1 & E2 & E3). rewrite <- E1. apply IH; rewrite ?E1, ?E2, ?E3; done || lia.
    + destruct (memoryRead _ _ _); [apply IH; done || lia|]. eexists. split; [reflexivity|]. unfold endedWithin. cbn [fst snd]. rewrite He. lia.
    + destruct (inRange _ _ _); [apply (IH _ (set_memory x _)); done || lia|]. eexists. split; [reflexivity|]. unfold endedWithin. cbn [fst snd]. rewrite He. lia.
    + eexists. split; [reflexivity|]. unfold endedWithin. cbn [fst snd]. rewrite He. lia.
    + eexists. split; [reflexivity|]. unfold endedWithin. cbn [fst snd]. rewrite He. lia.
Qed.

(** The steps that are enough for a metered guest. *)
Definition gasFuel (n : nat) (gasLimit : Z) : nat := (S n * S (S (Z.to_nat gasLimit)))%nat.

(** A call of a metered guest on a meter within its limit. *)
Lemma metered_call g n s x : metered g n -> 0 <= ec_gasUsed x <= ec_gasLimit x -> ec_gasLimit x < two64 - 2 ^ 32 -> ec_gasExhausted x = false ->
  exists y ok, callGuest (gasFuel n (ec_gasLimit x)) g s x = Some (y, ok) /\ endedWithin (ec_gasLimit x) (y, ok).
Proof.
  intros Hm Hu Hl He. destruct (metered_from g n _ Hm n s x (le_n n) (Hm s) eq_refl Hu Hl He) as ([y ok] & Hr & Hend). exists y, ok. split; [|exact Hend].
  eapply callGuest_mono; [exact Hr|]. unfold gasFuel. nia.
Qed.

Lemma callGuest_limit fuel g : forall s x y ok, callGuest fuel g s x = Some (y, ok) -> ec_gasLimit y = ec_gasLimit x.
Proof.
  induction fuel as [|fuel IH]; intros s x y ok Hr; [done|]. cbn [callGuest] in Hr. destruct (gu_next g s) as [cost| |ptr|ptr len|ptr len|ptr data| |].
  - destruct (ec_gasExhausted _); [by injection Hr as <- <-|]. apply IH in Hr. exact Hr.
  - by apply IH in Hr.
  - apply IH in Hr. rewrite Hr. apply hostReadInput_meter.
  - apply IH in Hr. rewrite Hr. apply hostWriteOutput_meter.
  - destruct (memoryRead _ _ _); [by apply IH in Hr|by injection Hr as <- <-].
  - destruct (inRange _ _ _); [by apply IH in Hr|by injection Hr as <- <-].
  - by injection Hr as <- <-.
  - by injection Hr as <- <-.
Qed.

(** What a result says of the gas: an output, a fault or a missing export within the
    limit, exhaustion beyond it by less than one charge; a start function that fails may
    have stopped on either side. *)
Definition chargedFor (gasLimit : Z) (found : bool) (result : podError + bytes) (used : Z) : Prop :=
  match result with
  | inr _ | inl errNotExported | inl errExecute => found = true /\ 0 <= used <= gasLimit
  | inl ErrGasExhausted => found = true /\ gasLimit < used < gasLimit + 2 ^ 32
  | inl errInstantiate => found = true /\ 0 <= used < gasLimit + 2 ^ 32
  | inl errHostModule => found = true /\ used = 0
  | inl ErrModuleNotFound => found = false /\ used = 0
  end.

Lemma metered_execute g n x : metered g n -> 0 <= ec_gasUsed x <= ec_gasLimit x -> ec_gasLimit x < two64 - 2 ^ 32 -> ec_gasExhausted x = false ->
  exists result used, callExecute (gasFuel n (ec_gasLimit x)) g x = Some (result, used) /\ chargedFor (ec_gasLimit x) true result used.
Proof.
  intros Hm Hu Hl He. unfold callExecute. destruct (gu_exported g); cbn [negb]; [|eexists _, _; split; [reflexivity|]; cbn; lia].
  destruct (metered_call g n (gu_start g) x Hm Hu Hl He) as (y & ok & -> & Hend). eexists _, _. split; [apply f_equal, surjective_pairing|].
  unfold endedWithin in Hend. cbn [fst snd] in Hend. destruct ok; destruct (ec_gasExhausted y); cbn [fst snd chargedFor]; try tauto. by destruct Hend.
Qed.

(** A metered module ends, start function included, within the steps its gas pays for. *)

(** C34. A module that pays for gas at least every given number of its steps, its start
    function included, ends within a number of steps fixed by the gas limit, for a limit
    below 2^64 - 2^32, whatever it computes: with an output, a missing export or a fault
    of its entry point and gas within the limit; with an exhausted entry point and gas
    beyond the limit by less than 2^32; with an instantiation error, a start function that
    fails or runs out included, and gas below the limit plus 2^32; or with no gas used
    when the host module cannot be built or the module is unknown. *)
Theorem metered_module_ends (p : Pool) id envFree input gasLimit n :
  0 <= gasLimit < two64 - 2 ^ 32 -> (forall g, p !! id = Some g -> metered g n) ->
  exists result used, Execute (gasFuel n gasLimit) envFree p id input gasLimit = Some (result, used) /\
    chargedFor gasLimit (bool_decide (is_Some (p !! id))) result used.
Proof.
  intros Hg Hm. unfold Execute. destruct (p !! id) as [g|] eqn:Ep; [|by eexists _, _]. rewrite bool_decide_true by done. specialize (Hm g eq_refl).
  unfold executeModule. destruct envFree; cbn [negb]; [|by eexists _, _]. set (x := mkExecContext input [] (gu_memory g) false gasLimit 0 false).
  assert (Hi : exists y ok, InstantiateModule (gasFuel n gasLimit) g x = Some (y, ok) /\ endedWithin gasLimit (y, ok) /\ ec_gasLimit y = gasLimit).
  { unfold InstantiateModule. destruct (gu_links g); cbn [negb]; [|exists x, false; split; [done|]; unfold endedWithin; cbn; lia].
    destruct (gu_init g) as [s|]; [|exists x, true; split; [done|]; unfold endedWithin; cbn; lia].
    destruct (metered_call g n s x Hm) as (y & ok & Hr & Hend); [cbn; lia|cbn; lia|done|]. exists y, ok. split_and!; [exact Hr|exact Hend|by apply callGuest_limit in Hr]. }
  destruct Hi as (y & ok & -> & Hend & El). unfold endedWithin in Hend. cbn [fst snd] in Hend. destruct ok.
  - destruct (ec_gasExhausted y) eqn:Ex; [by destruct Hend|]. rewrite <- El. apply (metered_execute g n (give_memory y (gu_exportsMemory g))); cbn; rewrite ?El; done || lia.
  - eexists _, _. split; [reflexivity|]. cbn. split; [done|]. destruct (ec_gasExhausted y); lia.
Qed.

(** A guest that never calls for gas is never stopped. *)
Lemma unmetered_never_ends g s x fuel : (forall s, gu_next g s = CallInputLen) -> callGuest fuel g s x = None.
Proof. intros Hn. revert s x. induction fuel as [|fuel IH]; intros s x; [done|]. cbn [callGuest]. rewrite Hn. apply IH. Qed.

(** ** The pool *)

(** A module stays what it was first loaded as, and others are not touched. *)
Lemma Load_keeps X compile p bytes_ custom id g : p !! id = Some g -> fst (Load X compile p bytes_ custom) !! id = Some g.
Proof.
  intros Hp. unfold Load. set (id' := match custom with Some i => i | None => _ end). destruct (p !! id') eqn:E; [done|]. destruct (compile bytes_); [|done]. cbn [fst].
  rewrite lookup_insert_ne; [done|]. intros ->. congruence.
Qed.

Lemma Load_then_Execute X compile p bytes_ custom id g fuel input gasLimit :
  Load X compile p bytes_ custom = (<[id := g]> p, Some id) -> Execute fuel true (fst (Load X compile p bytes_ custom)) id input gasLimit = executeModule fuel true g input gasLimit.
Proof. intros ->. unfold Execute. cbn [fst]. by rewrite lookup_insert_eq. Qed.

(** ** Samples *)

(** Reads its input, pays 3 for each of its rounds and writes four bytes back. *)
Definition echo (rounds : nat) (init : option nat) : Guest :=
  mkGuest nat true init 0%nat (fun s => if Nat.eqb s 0 then CallReadInput 0 else if Nat.leb s rounds then CallGas 3 else if Nat.eqb s (S rounds) then CallWriteOutput 0 4 else Return_)
    (fun s _ => S s) true (replicate 16 0) true.

(** Past its rounds the echo writes and returns. *)
Lemma echo_late rounds init s n : (rounds < s)%nat -> paysWithin (echo rounds init) (S n) s.
Proof.
  intros Hs. cbn [paysWithin]. assert (Hn : forall s, (S rounds < s)%nat -> gu_next (echo rounds init) s = Return_).
  { intros t Ht. cbn [echo gu_next]. destruct (Nat.eqb_spec t 0); [lia|]. destruct (Nat.leb_spec t rounds); [lia|]. by destruct (Nat.eqb_spec t (S rounds)); [lia|]. }
  destruct (decide (s = S rounds)) as [->|Hne]; [|by rewrite Hn by lia].
  assert (gu_next (echo rounds init) (S rounds) = CallWriteOutput 0 4) as ->.
  { cbn [echo gu_next]. destruct (Nat.eqb_spec (S rounds) 0); [lia|]. destruct (Nat.leb_spec (S rounds) rounds); [lia|]. by destruct (Nat.eqb_spec (S rounds) (S rounds)). }
  intros answer. destruct n; cbn [paysWithin]; rewrite Hn; done || (cbn; lia).
Qed.

Lemma echo_metered rounds init : metered (echo rounds init) 2.
Proof.
  assert (Hg : forall s n, (0 < s <= rounds)%nat -> paysWithin (echo rounds init) n s).
  { intros s n Hs. assert (En : gu_next (echo rounds init) s = CallGas 3).
    { cbn [echo gu_next]. destruct (Nat.eqb_spec s 0); [lia|]. by destruct (Nat.leb_spec s rounds); [|lia]. }
    destruct n; cbn [paysWithin]; rewrite En; lia. }
  intros s. change (gu_State (echo rounds init)) with nat in s. destruct (decide (s = 0%nat)) as [->|H0]; [|destruct (decide (s <= rounds)%nat); [apply Hg; lia|apply echo_late; lia]].
  intros answer. change (paysWithin (echo rounds init) 1 1%nat). destruct (decide (1 <= rounds)%nat); [apply Hg; lia|apply echo_late; lia].
Qed.

(** The second module pays six units in its start function. *)
Definition echoPool : Pool := <[[1] := echo 5 None]> (<[[2] := echo 5 (Some 4%nat)]> ∅).

(** Fifteen units of gas are enough for the echo and fourteen are not; a start function
    that runs out of gas is an instantiation error with the gas beyond the limit, and one
    that reads the input finds no memory yet. *)
Lemma echo_runs :
  Execute 20 true echoPool [1] [4; 5; 6; 7] 15 = Some (inr [4; 5; 6; 7], 15) /\ Execute 20 true echoPool [1] [4; 5; 6; 7] 14 = Some (inl ErrGasExhausted, 15) /\
  Execute 20 true echoPool [2] [4; 5; 6; 7] 21 = Some (inr [4; 5; 6; 7], 21) /\ Execute 20 true echoPool [2] [] 5 = Some (inl errInstantiate, 6) /\
  Execute 20 false echoPool [1] [] 14 = Some (inl errHostModule, 0) /\ Execute 20 true echoPool [3] [] 14 = Some (inl ErrModuleNotFound, 0).
Proof. vm_compute. split_and!; reflexivity. Qed.

Lemma metered_module_ends_witness :
  exists result used, Execute (gasFuel 2 21) true echoPool [2] [4; 5; 6; 7] 21 = Some (result, used) /\
    chargedFor 21 (bool_decide (is_Some (echoPool !! ([2] : Hash)))) result used.
Proof.
  apply (metered_module_ends echoPool [2] true [4; 5; 6; 7] 21 2); [lia|]. intros g Hg. unfold echoPool in Hg. rewrite lookup_insert_ne, lookup_insert_eq in Hg by done. injection Hg as <-. apply echo_metered.
Defined.
