(* ===== verification/Residue.v ===== *)
(** * What a refused join leaves behind (cmd/node/sync.go)

    The sync path writes a source's snapshot into the data directory before the
    gate decides, and nothing takes it out again: a snapshot only adds.  The next
    join applies another snapshot over the residue, tracks the union of the two, and
    rebuilds an index whose root is not the source's whenever the residue names an
    object the source does not track. *)

From S2P Require Import Supply Leaks Execution Attest Wiring SystemPod Exposures Rejoin Prelude Types Fees Validators Stake Thermostat Storage Tracker Ingress Domains Staged Coins Ledger Ops Dag Vertices Anchor Persist Resume Smt Merkle Index IndexFacts Retention Feed Header Commit Epoch Admission Cursor Restart Wire LightClient Proved Bundle Snapshot SnapshotFacts Sync Joined Gate.

(** ** Importing over what is there *)

Section Over.
Context {M : Type} `{Pebble M}.

Lemma Import_over (db : M) entries T T0 :
  wf_tracker T -> (forall t : ObjectTrackerEntry, t ∈ entries <-> exists (id : Hash) (e : Entry), T !! id = Some e /\ t = Tracker.entryOf id e) ->
  Rep db T0 -> Rep (Import db entries) (T ∪ T0).
Proof.
  intros Hw He [Hw0 Hk]. split; [by apply map_Forall_union_2|]. intros id. unfold Import. rewrite SetBatch_map.
  destruct (foldl_insert_In (map importPair entries) (db_map db) (makeKey id)) as [(v & Hin & ->)|[Hno ->]].
  - apply list_elem_of_fmap in Hin as (t & Hkv & Ht). apply He in Ht as (id' & e & Ht & ->).
    rewrite importPair_entryOf in Hkv. injection Hkv as Hid ->. subst id'. by rewrite (lookup_union_Some_l _ _ _ _ Ht).
  - rewrite Hk. destruct (T !! id) as [e|] eqn:E; [|by rewrite lookup_union_r]. exfalso. apply (Hno (encodeEntry e)).
    apply list_elem_of_fmap. exists (Tracker.entryOf id e). split; [done|]. apply He. eauto.
Qed.

Lemma ImportDomains_over (db : M) entries R R0 :
  map_Forall (fun _ l => wf_leaf l) R -> (forall e : DomainEntry, e ∈ entries <-> R !! de_Name e = Some (de_Leaf e)) ->
  DRep db R0 -> DRep (ImportDomains db entries) (R ∪ R0).
Proof.
  intros Hw He [Hw0 Hk]. split; [by apply map_Forall_union_2|]. intros name. unfold ImportDomains. rewrite SetBatch_map.
  destruct (foldl_insert_In (map (fun e => (domainKey (de_Name e), encodeDomainValue (de_Leaf e))) entries) (db_map db) (domainKey name)) as [(v & Hin & ->)|[Hno ->]].
  - apply list_elem_of_fmap in Hin as (t & Hkv & Ht). injection Hkv as Hid ->. subst name. apply He in Ht. by rewrite (lookup_union_Some_l _ _ _ _ Ht).
  - rewrite Hk. destruct (R !! name) as [l|] eqn:E; [|by rewrite lookup_union_r]. exfalso. apply (Hno (encodeDomainValue l)).
    apply list_elem_of_fmap. exists (mkDomainEntry name l). split; [done|]. by apply He.
Qed.

(** ** Construction keeps the ledger it is given *)

Lemma latch_ledger (d : DAG M) db : d_ledger (restoreStrictLatch d db) = d_ledger d.
Proof. unfold restoreStrictLatch. by destruct (loadMetaUint64 _ _). Qed.

Lemma members_ledger (d : DAG M) data : d_ledger (restoreCommittedMembers d data) = d_ledger d.
Proof. unfold restoreCommittedMembers. by repeat case_match. Qed.

Lemma restore_ledger (d : DAG M) db : d_ledger (restoreEpochState d db) = d_ledger d.
Proof.
  unfold restoreEpochState. cbv zeta. set (d1 := restoreAccumulators _ _). assert (H1 : d_ledger d1 = d_ledger d) by (apply latch_ledger). clearbody d1.
  destruct (loadMetaUint64 _ _) as [epoch|]; [|exact H1]. rewrite members_ledger. exact H1.
Qed.

Lemma regime_ledger (d : DAG M) blob : d_ledger (applyRegimeState d blob) = d_ledger d.
Proof.
  unfold applyRegimeState. destruct (Nat.ltb _ _); [done|]. cbv zeta. do 3 destruct (readHolderBlob _). do 5 destruct (readMemberBlob _).
  unfold publishEpochMirror, readEpochAccumulators. by do 4 destruct (readLenPrefixed _).
Qed.

Lemma constructed_ledger (X : Crypto) (c : Config) disk1 st1 db s q f result :
  let j := fst (initConsensusForValidator X c disk1 st1 db s q f result) in
  l_tracker (d_ledger (n_dag j)) = Import disk1 (sr_trackerEntries result) /\ l_domains (d_ledger (n_dag j)) = Some disk1 /\
  n_lastCommitted j = sr_lastCommittedRound result +w 1.
Proof.
  cbv zeta. unfold initConsensusForValidator, New. cbn [fst foldl]. match goal with |- context [WithLastCommittedRound _ ?x] => set (n0 := x) end.
  assert (H0 : d_ledger (n_dag n0) = mkLedger disk1 (Some disk1) (Some st1) (buildValidatorSetFromSnapshot (sr_validators result)) (Some []) []) by (apply restore_ledger).
  clearbody n0. set (n1 := WithLastCommittedRound _ n0). assert (H1 : d_ledger (n_dag n1) = d_ledger (n_dag n0) /\ n_lastCommitted n1 = sr_lastCommittedRound result +w 1) by done. destruct H1 as [H1 Hc]. clearbody n1.
  set (n2 := WithImportData c _ _ n1).
  assert (H2 : l_tracker (d_ledger (n_dag n2)) = Import disk1 (sr_trackerEntries result) /\ l_domains (d_ledger (n_dag n2)) = Some disk1 /\ n_lastCommitted n2 = sr_lastCommittedRound result +w 1).
  { unfold n2, WithImportData. destruct (import_vertices_frame n1 (sr_vertices result)) as [Hv Hv'].
    destruct (import_tracker_frame (importVerticesLocked n1 (sr_vertices result)) (sr_trackerEntries result)) as [Ht Ht']. cbv zeta.
    set (m := importTrackerEntriesLocked _ _) in *.
    assert (Hm : l_tracker (d_ledger (n_dag m)) = Import disk1 (sr_trackerEntries result) /\ l_domains (d_ledger (n_dag m)) = Some disk1 /\ n_lastCommitted m = sr_lastCommittedRound result +w 1) by (by rewrite Ht, Ht', Hv, Hv', H1, H0).
    destruct (_ && _); [|done]. cbn [with_dag_ set_node n_dag n_lastCommitted]. by destruct (enterTransition_frame (n_dag m) (n_lastCommitted m)) as (-> & _). }
  clearbody n2. unfold WithSyncedRegimeState. repeat case_match; try exact H2. cbn [with_dag_ set_node n_dag n_lastCommitted]. rewrite regime_ledger. exact H2.
Qed.

End Over.

(** ** A rebuilt index determines its edges *)

Section Rebuilt.
Context {M : Type} `{Pebble M} (X : Crypto) `{!Digest (blake3 X)} (c : Config).
Abbreviation b3 := (blake3 X).

Definition bootHolders (d : DAG M) : ValidatorSet :=
  match HoldersForEpoch d (currentEpoch (d_epochs d)) with Some vs => vs | None => EpochHolders d end.

(** The trees [backfillIndex] builds, before it records the frontier. *)
Definition rebuiltTrees (d : DAG M) : option Manager :=
  BuildFromState b3 NewManager (indexTrackerEntries (l_tracker (d_ledger d))) (indexDomainLeaves (l_domains (d_ledger d))) (ValidatorLeaves c (All (bootHolders d))).

(** What a rebuild hashes into paths. *)
Definition rebuildKeys (d : DAG M) : list bytes :=
  map ie_ID (indexTrackerEntries (l_tracker (d_ledger d))) ++ map ie_Parent (indexTrackerEntries (l_tracker (d_ledger d))) ++
  map dl_Name (indexDomainLeaves (l_domains (d_ledger d))) ++ map vl_Pubkey (ValidatorLeaves c (All (bootHolders d))).

(** What its parent tree and its combined root hash. *)
Definition rootInputs (m : Manager) : list bytes :=
  rootsInput X m :: treeInputs b3 (smt_root (ht_Parent (m_hierarchy m))) 0 ++ map (fun kv => en_value (snd kv)) (map_to_list (smt_entries (ht_Parent (m_hierarchy m)))).

Definition comparedInputs (d d' : DAG M) : list bytes :=
  rebuildKeys d ++ rebuildKeys d' ++ defaultInputs b3 treeDepth ++ rootInputs (default NewManager (rebuiltTrees d)) ++ rootInputs (default NewManager (rebuiltTrees d')).

Definition trackedEdges (T : gmap Hash Entry) : gmap Hash (Z * Hash) := (fun e => (e_kind e, e_parent e)) <$> T.

Lemma tracked_listing (ot : M) T : Rep ot T -> map_Forall (fun id _ => length id = 32%nat) T ->
  foldl (fun m e => <[ie_ID e := (ie_ParentKind e, ie_Parent e)]> m) ∅ (indexTrackerEntries ot) = trackedEdges T.
Proof using.
  intros HR Hids. apply fold_listing. unfold indexTrackerEntries. rewrite map_map. cbn [ie_ID ie_ParentKind ie_Parent]. apply NoDup_Permutation.
  - apply (NoDup_fmap_1 fst). change (fst <$> ?l) with (map fst l). rewrite map_map. cbn [fst]. apply Export_NoDup.
  - apply NoDup_map_to_list.
  - intros [id kp]. rewrite list_elem_of_fmap, elem_of_map_to_list. unfold trackedEdges. rewrite lookup_fmap_Some. split.
    + intros (t & Et & Ht). injection Et as -> ->. apply (Export_spec _ T t HR Hids) in Ht as (id' & e & He & ->). by exists e.
    + intros (e & <- & He). exists (Tracker.entryOf id e). split; [done|]. apply (Export_spec _ T _ HR Hids). eauto.
Qed.

#[local] Strategy opaque [defaultPair defaultsUp treeDepth].

Section Keys.
Context (K : bytes -> Prop) (Kinj : forall a b, K a -> K b -> b3 a = b3 b -> a = b).

Lemma rebuilt_ok (d : DAG M) T : Rep (l_tracker (d_ledger d)) T -> map_Forall (fun id _ => length id = 32%nat) T -> Forall K (rebuildKeys d) ->
  exists m, rebuiltTrees d = Some m /\ hierOk b3 K (m_hierarchy m) (trackedEdges T) /\ smtOk b3 (m_domain m) /\ smtOk b3 (vt_smt (m_validator m)).
Proof using Digest0 Kinj.
  intros HR Hids HK. unfold rebuildKeys in HK. rewrite !Forall_app, !Forall_map in HK. destruct HK as (H1 & H2 & H3 & H4).
  unfold rebuiltTrees, BuildFromState.
  destruct (setEdges_ok b3 K Kinj (indexTrackerEntries (l_tracker (d_ledger d))) NewHierarchyTrees ∅ (mo_hier _ _ _ _ (NewManager_ok b3 K))) as (h & -> & Hh).
  { apply Forall_forall. intros e He. rewrite Forall_forall in H1, H2. pose proof (H1 e He) as K1. pose proof (H2 e He) as K2.
    apply list_elem_of_fmap in He as (t & -> & Ht). apply (Export_spec _ T t HR Hids) in Ht as (id & x & Hx & ->). cbn in *. split; split; try done.
    - by apply (Hids id x).
    - destruct HR as [Hw _]. apply (we_parent _ (Hw id x Hx)). }
  pose proof (tracked_listing _ T HR Hids) as El. cbn [mbind option_bind].
  destruct (setDomains_ok b3 K Kinj (indexDomainLeaves (l_domains (d_ledger d))) Smt.New ∅ (Stores_New b3 K)) as (dt & -> & Hd); [exact H3|]. cbn [mbind option_bind].
  destruct (Rebuild_ok b3 K Kinj (ValidatorLeaves c (All (bootHolders d))) H4) as (v & -> & Hv & _). cbn [mbind option_bind].
  eexists. split; [reflexivity|]. cbn [set_trees m_hierarchy m_domain m_validator]. split_and!; [rewrite <- El; exact Hh|apply Hd|apply Hv].
Qed.

End Keys.

Lemma compared_mem (d d' : DAG M) x : x ∈ comparedInputs d d' <-> x ∈ rebuildKeys d \/ x ∈ rebuildKeys d' \/ x ∈ defaultInputs b3 treeDepth \/
  x ∈ rootInputs (default NewManager (rebuiltTrees d)) \/ x ∈ rootInputs (default NewManager (rebuiltTrees d')).
Proof using. unfold comparedInputs. by rewrite !elem_of_app. Qed.

Lemma root_mem m x : x ∈ rootInputs m <-> x = rootsInput X m \/ x ∈ treeInputs b3 (smt_root (ht_Parent (m_hierarchy m))) 0 \/
  x ∈ map (fun kv => en_value (snd kv)) (map_to_list (smt_entries (ht_Parent (m_hierarchy m)))).
Proof using. unfold rootInputs. by rewrite elem_of_cons, elem_of_app. Qed.

(** Rebuilds with one combined root have the same edges. *)
Lemma rebuild_binds (d d' : DAG M) T T' : Rep (l_tracker (d_ledger d)) T -> map_Forall (fun id _ => length id = 32%nat) T ->
  Rep (l_tracker (d_ledger d')) T' -> map_Forall (fun id _ => length id = 32%nat) T' -> NoCollision b3 (comparedInputs d d') ->
  exists m m', rebuiltTrees d = Some m /\ rebuiltTrees d' = Some m' /\
    (r_Combined (fst (roots b3 m)) = r_Combined (fst (roots b3 m')) -> trackedEdges T = trackedEdges T').
Proof using Digest0.
  intros HR Hi HR' Hi' Hn. set (K := fun x => x ∈ comparedInputs d d').
  assert (Kinj : forall a b, K a -> K b -> b3 a = b3 b -> a = b) by (intros a b Ha Hb; by apply (no_clash b3 _ Hn)).
  assert (HK : Forall K (rebuildKeys d) /\ Forall K (rebuildKeys d')) by (split; apply Forall_forall; intros x Hx; apply compared_mem; [left; exact Hx|right; left; exact Hx]).
  destruct (rebuilt_ok K Kinj d T HR Hi (proj1 HK)) as (m & Em & Hh & Hd & Hv), (rebuilt_ok K Kinj d' T' HR' Hi' (proj2 HK)) as (m' & Em' & Hh' & Hd' & Hv').
  exists m, m'. split; [done|]. split; [done|]. intros Er.
  assert (Hsub : forall x, x ∈ defaultInputs b3 treeDepth \/ x ∈ rootInputs m \/ x ∈ rootInputs m' -> x ∈ comparedInputs d d')
    by (intros x Hx; apply compared_mem; right; right; rewrite Em, Em'; exact Hx).
  assert (Ei : rootsInput X m = rootsInput X m').
  { apply (no_clash b3 _ Hn); [apply Hsub; right; left; apply root_mem; left; reflexivity|apply Hsub; right; right; apply root_mem; left; reflexivity|].
    unfold roots in Er. unfold rootsInput, roots. destruct (Root b3 (m_domain m)), (Root b3 (ht_Parent (m_hierarchy m))), (Root b3 (ct_top (ht_Children (m_hierarchy m)))), (Root b3 (vt_smt (m_validator m))).
    destruct (Root b3 (m_domain m')), (Root b3 (ht_Parent (m_hierarchy m'))), (Root b3 (ct_top (ht_Children (m_hierarchy m')))), (Root b3 (vt_smt (m_validator m'))). exact Er. }
  assert (Ep : fst (Root b3 (ht_Parent (m_hierarchy m))) = fst (Root b3 (ht_Parent (m_hierarchy m')))).
  { pose proof (root_length X _ Hd) as L1. pose proof (root_length X _ Hd') as L2.
    pose proof (root_length X _ (ts_ok _ _ _ _ (ho_parent _ _ _ _ Hh))) as L3. pose proof (root_length X _ (ts_ok _ _ _ _ (ho_parent _ _ _ _ Hh'))) as L4.
    unfold rootsInput, roots in Ei. destruct (Root b3 (m_domain m)), (Root b3 (ht_Parent (m_hierarchy m))), (Root b3 (ct_top (ht_Children (m_hierarchy m)))), (Root b3 (vt_smt (m_validator m))).
    destruct (Root b3 (m_domain m')), (Root b3 (ht_Parent (m_hierarchy m'))), (Root b3 (ct_top (ht_Children (m_hierarchy m')))), (Root b3 (vt_smt (m_validator m'))).
    cbn [fst r_Domain r_Parent r_Children r_Validator] in *. apply app_inj_1 in Ei as [_ Ei]; [|congruence]. apply app_inj_1 in Ei as [Ei _]; [done|congruence]. }
  assert (Hpm : parentMap (trackedEdges T) = parentMap (trackedEdges T')).
  { apply (Stores_binds b3 K Kinj (comparedInputs d d') _ _ _ _ (ho_parent _ _ _ _ Hh) (ho_parent _ _ _ _ Hh') Ep Hn).
    assert (Hval : forall t p x, Stores b3 K t p -> (exists k, p !! k = Some x) -> x ∈ map (fun kv => en_value (snd kv)) (map_to_list (smt_entries t))).
    { intros t p x Ht (k & Hk). pose proof (proj2 (ts_map _ _ _ _ Ht (b3 k) x) (ex_intro _ k (conj Hk eq_refl))) as He. rewrite lookup_fmap_Some in He.
      destruct He as (en & <- & He). apply list_elem_of_fmap. exists (b3 k, en). split; [done|]. by apply elem_of_map_to_list. }
    intros x [Hx|[Hx|[Hx|[Hx|Hx]]]]; apply Hsub.
    - left. exact Hx.
    - right; left. apply root_mem. right; left. exact Hx.
    - right; right. apply root_mem. right; left. exact Hx.
    - right; left. apply root_mem. right; right. exact (Hval _ _ x (ho_parent _ _ _ _ Hh) Hx).
    - right; right. apply root_mem. right; right. exact (Hval _ _ x (ho_parent _ _ _ _ Hh') Hx). }
  apply map_eq. intros id. pose proof (f_equal (fun p => p !! id) Hpm) as E. cbv beta in E. rewrite !parentMap_lookup in E.
  destruct (trackedEdges T !! id) as [[k p]|] eqn:E1, (trackedEdges T' !! id) as [[k' p']|] eqn:E2; try done. cbn in E. injection E as E. f_equal.
  unfold encodeParentLeaf in E. cbn in E. by simplify_list_eq.
Qed.

(** The frontier a boot records over fresh trees. *)
Lemma backfill_frontier (d : DAG M) cursor m : rebuiltTrees d = Some m -> 0 < cursor ->
  exists m', backfillIndex b3 c d cursor NewManager = Some m' /\ m_frontierRound m' = lastDecidedRound cursor /\ m_frontierRoot m' = r_Combined (fst (roots b3 m)).
Proof using.
  intros Em Hc. unfold backfillIndex. change (match HoldersForEpoch d _ with Some vs => vs | None => _ end) with (bootHolders d).
  change (BuildFromState _ NewManager _ _ _) with (rebuiltTrees d). rewrite Em. cbn [mbind option_bind]. destruct (Z.ltb_spec 0 cursor); [|lia]. eexists. split; [reflexivity|].
  assert (Eo : m_order m = []).
  { unfold rebuiltTrees, BuildFromState in Em. destruct (setEdges _ _ _); [|done]. cbn [mbind option_bind] in Em. destruct (setDomains _ _ _); [|done]. cbn [mbind option_bind] in Em.
    destruct (Rebuild _ _); [|done]. cbn [mbind option_bind] in Em. by injection Em as <-. }
  unfold managerSetFrontier. rewrite Eo. cbn [last]. destruct (roots b3 m) as [rs m2]. by destruct (evictOldRounds _ _).
Qed.

Context (decodeObject : bytes -> Object).

(** The store a join is applied to keeps what it tracked and leased. *)
Lemma residue_kept n disk T R st (residue db' disk1 : M) T0 R0 :
  sourceOk n disk T R st -> Rep residue T0 -> DRep residue R0 -> db_map db' = carried disk ∪ db_map residue ->
  db_map disk1 = db_map (ImportDomains db' (ExportDomains disk)) ->
  Rep (Import disk1 (sortTrackerEntries (Export (l_tracker (d_ledger (n_dag n)))))) (T ∪ T0) /\ DRep disk1 (R ∪ R0).
Proof using.
  intros Hs [Hw Ht] [Hwd Hd] Hdb Hd1.
  assert (Hcons : forall k, isConsensusKey k = true -> db_map db' !! k = db_map residue !! k) by (intros k Hk; rewrite Hdb, lookup_union_r; [done|by apply carried_consensus]).
  split.
  - apply Import_over; [apply (so_tracker _ _ _ _ _ Hs)| |].
    + intros t. unfold sortTrackerEntries. rewrite elem_of_sortBy. apply Export_spec; [apply (so_tracker _ _ _ _ _ Hs)|apply (so_ids _ _ _ _ _ Hs)].
    + split; [done|]. intros id. rewrite Hd1, ImportDomains_other by done. rewrite Hcons by (apply consensus_of_prefix; left; apply tracker_prefix). apply Ht.
  - assert (Hi : DRep (ImportDomains db' (ExportDomains disk)) (R ∪ R0)).
    { apply ImportDomains_over; [apply (so_domains _ _ _ _ _ Hs)|intros e; apply ExportDomains_spec, (so_domains _ _ _ _ _ Hs)|].
      split; [done|]. intros name. rewrite Hcons by (apply consensus_of_prefix; right; apply domain_prefix). apply Hd. }
    split; [apply Hi|]. intros name. rewrite Hd1. apply Hi.
Qed.

(** A node that applies an honest source's snapshot over the residue of an earlier
    join tracks and leases the union of the two; when the residue names one object the
    source does not track, the root it rebuilds for the source's frontier is not the
    one the source rebuilds, whatever the metadata, vertices and marks in the directory. *)

(** C26. A snapshot of an honest source applied over the residue of an earlier join leaves
    the union of the two tracked and leased; when the residue names one object the source
    does not track, the root the node rebuilds for the source's frontier differs from the
    source's, so no quorum can attest it. *)
Theorem residue_defeats_the_join n disk T R st residue T0 R0 st0 id e :
  sourceOk n disk T R st -> Rep residue T0 -> map_Forall (fun id _ => length id = 32%nat) T0 -> DRep residue R0 -> T0 !! id = Some e -> T !! id = None ->
  exists result disk1 st1, applyReceived X decodeObject residue st0 (sourceSnapshot X n disk) = inr (result, disk1, st1) /\
    forall db s q f, let '(j, index) := initConsensusForValidator X c disk1 st1 db s q f result in
      Rep (l_tracker (d_ledger (n_dag j))) (T ∪ T0) /\ l_domains (d_ledger (n_dag j)) = Some disk1 /\ DRep disk1 (R ∪ R0) /\
      (NoCollision b3 (comparedInputs (n_dag n) (n_dag j)) ->
       exists m m', backfillIndex b3 c (n_dag n) (n_lastCommitted n) NewManager = Some m /\ index = Some m' /\
         m_frontierRound m' = m_frontierRound m /\ m_frontierRoot m' <> m_frontierRoot m).
Proof using Digest0.
  intros Hs HT0 Hids0 HR0 He Hno. destruct (received X decodeObject n disk T R st residue st0 Hs) as (result & disk1 & db' & _ & Hdb & Ha & Hd1 & Er).
  eexists result, disk1, _. split; [exact Ha|]. intros db s q f. destruct (residue_kept n disk T R st residue db' disk1 T0 R0 Hs HT0 HR0 Hdb Hd1) as [HT HR].
  match goal with |- context [initConsensusForValidator X c disk1 ?x db s q f result] => set (st1 := x); pose proof (constructed_ledger X c disk1 st1 db s q f result) as Hl end.
  assert (Hcur : sr_lastCommittedRound result +w 1 = n_lastCommitted n).
  { rewrite Er. cbn [sr_lastCommittedRound]. pose proof (so_cursor _ _ _ _ _ Hs) as Hc. unfold lastDecidedRound. destruct (Z.eqb_spec (n_lastCommitted n) 0); [lia|].
    unfold add64, u64. rewrite Z.mod_small by lia. lia. }
  assert (Hix : snd (initConsensusForValidator X c disk1 st1 db s q f result) = backfillIndex b3 c (n_dag (fst (initConsensusForValidator X c disk1 st1 db s q f result)))
    (n_lastCommitted (fst (initConsensusForValidator X c disk1 st1 db s q f result))) NewManager) by reflexivity.
  destruct (initConsensusForValidator X c disk1 st1 db s q f result) as [j index]. cbn [fst snd] in *. destruct Hl as (Hl1 & Hl2 & Hl3).
  rewrite Er in Hl1. cbn [sr_trackerEntries] in Hl1. rewrite <- Hl1 in HT. split_and!; try done. intros Hn.
  destruct (rebuild_binds (n_dag n) (n_dag j) T (T ∪ T0) (so_tracker _ _ _ _ _ Hs) (so_ids _ _ _ _ _ Hs) HT) as (m & m' & Em & Em' & Hb); [|done|].
  { by apply map_Forall_union_2; [apply (so_ids _ _ _ _ _ Hs)|]. }
  destruct (backfill_frontier (n_dag n) (n_lastCommitted n) m Em) as (x & Ex & Ex1 & Ex2); [apply Hs|].
  destruct (backfill_frontier (n_dag j) (n_lastCommitted j) m' Em') as (y & Ey & Ey1 & Ey2); [rewrite Hl3, Hcur; apply Hs|].
  exists x, y. rewrite Hix, Ey, Ey1, Ey2, Ex1, Ex2, Hl3, Hcur. split_and!; try done. intros Eq. specialize (Hb (eq_sym Eq)).
  pose proof (f_equal (fun p => p !! id) Hb) as E. cbv beta in E. unfold trackedEdges in E. rewrite !lookup_fmap, Hno, lookup_union_r, He in E by done. done.
Qed.

End Rebuilt.

(** ** A residue of one object *)

Definition strayDisk : gmap bytes bytes := trackObject (∅ : gmap bytes bytes) (h 99) 3 0 1025 0 (h 7).

Definition strayJoin : Admission.Node (gmap bytes bytes) * option Manager :=
  match applyReceived rejoinCrypto decodeObject strayDisk emptyState (sourceSnapshot rejoinCrypto sourceNode sourceDisk) with
  | inl _ => (sourceNode, None)
  | inr (result, disk1, st1) => initConsensusForValidator rejoinCrypto regimeConfig disk1 st1 ∅ emptyStore ∅ ∅ result
  end.

Lemma residue_defeats_the_join_witness :
  exists m m', backfillIndex toyHash regimeConfig (n_dag sourceNode) 40 NewManager = Some m /\ snd strayJoin = Some m' /\ m_frontierRound m' = m_frontierRound m /\ m_frontierRoot m' <> m_frontierRoot m.
Proof.
  destruct (residue_defeats_the_join rejoinCrypto regimeConfig decodeObject sourceNode sourceDisk sampleEntries (<[str "alpha" := sampleLeaf 12]> ∅) bondStore
    strayDisk (a_track ∅ (h 99) 3 0 1025 0 (h 7)) ∅ emptyState (h 99) (Tracker.mkEntry 3 0 1025 0 (h 7) 0)) as (result & disk1 & st1 & Ha & Hj).
  - exact sourceNode_ok.
  - apply Rep_track; unfold is_u64, is_byte; try lia; [|reflexivity]. apply Rep_empty. intros id. reflexivity.
  - apply (bool_decide_unpack _). vm_compute. exact I.
  - apply DRep_empty. intros name. assert (Hn : map_Forall (fun k (_ : bytes) => hasPrefix k prefixDomain = false) strayDisk) by (apply (bool_decide_unpack _); vm_compute; exact I).
    change (db_map strayDisk) with strayDisk. destruct (strayDisk !! domainKey name) as [v|] eqn:E; [|done]. specialize (Hn _ _ E). cbv beta in Hn. by rewrite domain_prefix in Hn.
  - vm_compute. reflexivity.
  - vm_compute. reflexivity.
  - specialize (Hj ∅ emptyStore ∅ ∅). unfold strayJoin.
    assert (Hn : match strayJoin with (j, _) => noCollisionB toyHash (comparedInputs rejoinCrypto regimeConfig (n_dag sourceNode) (n_dag j)) = true end) by (vm_compute; reflexivity).
    unfold strayJoin in Hn. rewrite Ha in *. destruct (initConsensusForValidator _ _ _ _ _ _ _ _ _) as [j index]. destruct Hj as (_ & _ & _ & Hj). apply Hj. by apply noCollisionB_sound.
Defined.
