(* ===== verification/Startup.v ===== *)
(** * Starting a node (cmd/node: main.go, config.go, checkpoint.go, node.go, resume.go,
    sync.go, stats.go)

    From the flags to the branch a start takes: which of the four run paths, what each
    does in which order and where it can stop, and what it does to the marker that
    tells a restart from a join.  What the machine and the network answer is a [Host]:
    whether each fallible step succeeds, the snapshot the peer sends, the state the gate
    judges, and the writes the node makes while it is built, joins and serves, each one
    of the writes of the source ([diskWrite]).  At the end, the counters a running node
    keeps. *)

From S2P Require Import Prelude Types Fees Validators Stake Thermostat Storage Tracker Ingress Domains Staged Coins Ledger Ops Dag Vertices Anchor Persist Resume Smt Merkle Index Retention Feed Header Commit Epoch Admission Cursor Restart Wire LightClient Bundle Snapshot SnapshotFacts Sync Builders Wallet WalletFacts Endpoint.

(** ** The checkpoint flag (checkpoint.go) *)

(** [strings.Cut] at the first colon. *)
Fixpoint cutColon (s : bytes) : option (bytes * bytes) :=
  match s with
  | [] => None
  | x :: s => if x =? 58 then Some ([], s) else '(a, b) ← cutColon s; Some (x :: a, b)
  end.

(** [strconv.ParseUint] in base 10 at 64 bits. *)
Fixpoint parseDigits (acc : Z) (s : bytes) : option Z :=
  match s with
  | [] => Some acc
  | x :: s =>
      if (48 <=? x) && (x <=? 57) then
        let n := 10 * acc + (x - 48) in if two64 <=? n then None else parseDigits n s
      else None
  end.

Definition ParseUint (s : bytes) : option Z := match s with [] => None | _ => parseDigits 0 s end.

Definition parseTrustCheckpoint (value : bytes) : option trustCheckpoint :=
  '(epochText, rootText) ← cutColon value;
  epoch ← ParseUint epochText;
  root ← DecodeString rootText;
  if negb (Nat.eqb (length root) 32) then None else Some (mkTrust epoch root).

(** ** Flags (config.go) *)

Record Settings := mkSettings {
  cf_Bootstrap : bool;
  cf_Listener : bool;
  cf_BootstrapAddr : bytes;
  cf_RegistrationAddr : bytes;
  cf_LogFormat : bytes;
  cf_TrustCheckpoint : bytes;
  cf_InsecureBootstrap : bool;
}.

Inductive configError := badLogFormat | anchorsExclusive | noTrustAnchor | badCheckpoint.

Definition unset (s : bytes) : bool := Nat.eqb (length s) 0.

Definition validateTrustAnchor (cfg : Settings) : option configError :=
  if cf_Bootstrap cfg || unset (cf_BootstrapAddr cfg) then None
  else if cf_InsecureBootstrap cfg then if unset (cf_TrustCheckpoint cfg) then None else Some anchorsExclusive
  else if unset (cf_TrustCheckpoint cfg) then Some noTrustAnchor
  else match parseTrustCheckpoint (cf_TrustCheckpoint cfg) with Some _ => None | None => Some badCheckpoint end.

Definition validateLogFormat (cfg : Settings) : option configError :=
  if bool_decide (cf_LogFormat cfg = str "text") || bool_decide (cf_LogFormat cfg = str "json") then None else Some badLogFormat.

(** [parseFlags] once the flags are read. *)
Definition parseFlags (cfg : Settings) : option configError :=
  match validateLogFormat cfg with Some e => Some e | None => validateTrustAnchor cfg end.

(** [registrationAddr]. *)
Definition registrationAddr (cfg : Settings) : bytes := if unset (cf_RegistrationAddr cfg) then cf_BootstrapAddr cfg else cf_RegistrationAddr cfg.

(** [loadOrGenerateKey]: [None] for an empty path or a missing file is kept apart by the
    caller; the result is the key and what is written. *)
Inductive keyFile := NoPath | Missing | Unreadable | Contents (data : bytes).

Definition privateKeySize : nat := 64.

Definition loadOrGenerateKey (file : keyFile) (generated : bytes) (canWrite : bool) : option (bytes * option bytes) :=
  match file with
  | NoPath => Some (generated, None)
  | Missing => if canWrite then Some (generated, Some generated) else None
  | Unreadable => None
  | Contents data => if negb (Nat.eqb (length data) privateKeySize) then None else Some (data, None)
  end.

(** ** The writes of a node

    Every place the source writes to its directory, the adoption marker apart.  A [Hash]
    is a [32]byte. *)

Inductive diskWrite :=
| PutObject (id : Hash) (data : bytes) | DelObject (id : Hash)                          (* state/store.go *)
| PutDomain (e : DomainEntry) | DelDomain (name : bytes)                                (* state/domain.go *)
| PutSupply (v : Z) | PutCoinsTotal (v : Z)                                             (* state/supply.go *)
| PutSignature (id : Hash) (version : Z) (sig : bytes)                                  (* aggregation/sigstore.go *)
| PutVertex (hash : Hash) (data : bytes) (round : Z) (producer : Hash)                  (* consensus/store.go *)
| PutLatestRound (round : Z)
| PutCommitted (hash : Hash) | PutFloor (round : Z)                                     (* consensus/store_committed.go *)
| PutCursor (round : Z) (d : DAG DB) (boundary : bool)
| PutQuarantine (hash : Hash)                                                           (* consensus/quarantine.go *)
| PutFault (hash : Hash) (evidence : bytes)                                             (* consensus/fault.go *)
| PutTracked (id : Hash) (value : bytes) | DelTracked (id : Hash)                       (* consensus/tracker.go *)
| PutTxMark (hash : Hash).

(** The pairs a write sets. *)
Definition putsOf (w : diskWrite) : list (bytes * bytes) :=
  match w with
  | PutObject id data => [(toHash id, data)]
  | PutDomain e => [(domainKey (de_Name e), encodeDomainValue (de_Leaf e))]
  | PutSupply v => [(metaKey "supply", be_enc 8 v)]
  | PutCoinsTotal v => [(metaKey "coins_total", be_enc 8 v)]
  | PutSignature id version sig => [(sigStorageKey (toHash id), encodeSigValue version sig)]
  | PutVertex hash data round producer => [(prefixVertex ++ toHash hash, data); (prefixRound ++ be_enc 8 round ++ toHash hash, producer)]
  | PutLatestRound round => [(metaKey "latestRound", be_enc 8 round)]
  | PutCommitted hash => [(str "vc/" ++ toHash hash, [1])]
  | PutFloor round => [(metaKey "commitFloor", be_enc 8 round)]
  | PutCursor round d boundary => (metaKey "commitCursor", be_enc 8 round) :: (if boundary then epochStateKVs d else accumulatorKVs d) ++ [liveValidatorsKV d]
  | PutQuarantine hash => [(str "vq/" ++ toHash hash, [1])]
  | PutFault hash evidence => [(str "fault/" ++ toHash hash, evidence)]
  | PutTracked id value => [(makeKey (toHash id), value)]
  | PutTxMark hash => [(committedKey (toHash hash), [1])]
  | DelObject _ | DelDomain _ | DelTracked _ => []
  end.

(** The key a write removes. *)
Definition dropOf (w : diskWrite) : option bytes :=
  match w with
  | DelObject id => Some (toHash id)
  | DelDomain name => Some (domainKey name)
  | DelTracked id => Some (makeKey (toHash id))
  | _ => None
  end.

Definition applyWrite (db : DB) (w : diskWrite) : DB :=
  let db := foldl (fun db kv => <[fst kv := snd kv]> db) db (putsOf w) in
  match dropOf w with Some k => delete k db | None => db end.

Definition runWrites (db : DB) (ws : list diskWrite) : DB := foldl applyWrite db ws.

(** ** What a start meets *)

Record Host := mkHost {
  hs_storage : bool; hs_podVM : bool; hs_state : bool; hs_network : bool; hs_consensus : bool;
  hs_mark : bool;
  hs_listen : bool;
  hs_connect : bool;
  hs_snapshot : option Snapshot;               (* what [RequestSnapshot] brings *)
  hs_rebuild : bool;
  hs_dag : DAG DB; hs_frontier : Z;            (* the rebuilt state and its frontier *)
  hs_polls : list (JoinView (M := DB));        (* what the gate sees until its deadline *)
  hs_register : bool;
  hs_built : list diskWrite;                   (* by the construction over local state *)
  hs_joined : list diskWrite;                  (* by the construction over a snapshot, and until the gate has judged *)
  hs_served : list diskWrite;                  (* while it runs *)
}.

Inductive startEvent :=
| Buffering | Connected | SyncCompleted | HandlersSet | RequestHandlersSet | Listening | MeshJoined
| SnapshotsStarted | CommitsProcessed | Registered | NodeResumed | NodeReady.

Inductive outcome := Failed | Panicked | Served.

Definition started : Type := list startEvent * DB * outcome.

Section Starts.
Context (X : Crypto) (c : Config).

(** [verifySyncedState] by the flags: whether it lets the node in.  A panic of the gate
    ends the start before the mark, as a refusal does. *)
Definition joinGate (cfg : Settings) (h : Host) : bool :=
  let judged cp := match verifySyncedState X c cp (cf_InsecureBootstrap cfg) (hs_dag h) (hs_frontier h) (hs_polls h) with Some None => true | _ => false end in
  if unset (cf_TrustCheckpoint cfg) then judged None
  else match parseTrustCheckpoint (cf_TrustCheckpoint cfg) with None => false | Some cp => judged (Some cp) end.

(** [requestAndApplySnapshot] past the request: the objects and signatures, the domains
    and the counters. *)
Definition applySnapshotFrom (db : DB) (snap : Snapshot) : option DB :=
  match ApplySnapshot X db snap with
  | inl _ => None
  | inr db =>
      let domains := ExtractDomains snap in
      let db := if Nat.ltb 0 (length domains) then ImportDomains db domains else db in
      Some (runWrites db [PutSupply (sn_TotalSupply snap); PutCoinsTotal (sn_CoinsTotal snap)])
  end.

(** [resumesFromLocalState]. *)
Definition resumesFromLocalState (cfg : Settings) (db : DB) : bool :=
  if cf_Bootstrap cfg || unset (cf_BootstrapAddr cfg) then false else HasAdoptedState db.

(** [NewNode]: whether the node has a DAG, and the directory; [None] is an error. *)
Definition NewNode (cfg : Settings) (h : Host) (db : DB) : option (bool * DB) :=
  if cf_Listener cfg then
    if unset (cf_BootstrapAddr cfg) then None else if hs_storage h && hs_network h then Some (false, db) else None
  else if hs_storage h && hs_podVM h && hs_state h && hs_network h then
    if unset (cf_BootstrapAddr cfg) || resumesFromLocalState cfg db then
      if hs_consensus h then Some (true, runWrites db (hs_built h)) else None
    else Some (false, db)
  else None.

(** [runListener]: [NewNode] gave a listener no state, and the snapshot's domains and
    counters are written through it. *)
Definition runListener (h : Host) (db : DB) : started :=
  if negb (hs_connect h) then ([Buffering], db, Failed)
  else match (snap ← hs_snapshot h; match ApplySnapshot X db snap with inl _ => None | inr db => Some db end) with
  | None => ([Buffering; Connected], db, Failed)
  | Some db => ([Buffering; Connected], db, Panicked)
  end.

(** [runResume]. *)
Definition runResume (h : Host) (dag : bool) (db : DB) : started :=
  if negb dag then ([], db, Panicked)
  else if negb (hs_listen h) then ([HandlersSet; RequestHandlersSet], db, Failed)
  else ([HandlersSet; RequestHandlersSet; Listening; MeshJoined; SnapshotsStarted; CommitsProcessed; NodeResumed; NodeReady], runWrites db (hs_served h), Served).

(** [performSync] of a validator: what it does, the directory after it and whether it
    succeeded. *)
Definition performSync (cfg : Settings) (h : Host) (db : DB) : list startEvent * DB * bool :=
  match (snap ← hs_snapshot h; applySnapshotFrom db snap) with
  | None => ([], db, false)
  | Some db =>
      let db := runWrites db (hs_joined h) in
      if negb (hs_rebuild h) then ([], db, false)
      else if negb (joinGate cfg h) then ([HandlersSet], db, false)
      else if negb (hs_mark h) then ([HandlersSet], db, false)
      else ([HandlersSet; SyncCompleted], MarkStateAdopted db, true)
  end.

(** [runValidator]. *)
Definition runValidator (cfg : Settings) (h : Host) (db : DB) : started :=
  if negb (hs_connect h) then ([Buffering], db, Failed)
  else
    let '(did, db, synced) := performSync cfg h db in
    let did := [Buffering; Connected] ++ did in
    if negb synced then (did, db, Failed)
    else
      let did := did ++ [RequestHandlersSet] in
      if negb (hs_listen h) then (did, db, Failed)
      else
        let did := did ++ [Listening; MeshJoined; CommitsProcessed] in
        if negb (hs_register h) then (did, db, Failed)
        else (did ++ [Registered; SnapshotsStarted; NodeReady], runWrites db (hs_served h), Served).

(** [runBootstrap]. *)
Definition runBootstrap (cfg : Settings) (h : Host) (dag : bool) (db : DB) : started :=
  if cf_Bootstrap cfg && negb (hs_mark h) then ([], db, Failed)
  else
    let db := if cf_Bootstrap cfg then MarkStateAdopted db else db in
    if negb (hs_listen h) then ([], db, Failed)
    else if negb dag then ([Listening; HandlersSet; RequestHandlersSet; SnapshotsStarted], db, Panicked)
    else ([Listening; HandlersSet; RequestHandlersSet; SnapshotsStarted; CommitsProcessed; NodeReady], runWrites db (hs_served h), Served).

(** [Run]. *)
Definition Run (cfg : Settings) (h : Host) (dag : bool) (db : DB) : started :=
  if cf_Listener cfg then runListener h db
  else if resumesFromLocalState cfg db then runResume h dag db
  else if negb (cf_Bootstrap cfg) && negb (unset (cf_BootstrapAddr cfg)) then runValidator cfg h db
  else runBootstrap cfg h dag db.

(** [run] of main.go, past the key. *)
Definition run (cfg : Settings) (h : Host) (db : DB) : started :=
  match parseFlags cfg with
  | Some _ => ([], db, Failed)
  | None =>
      match NewNode cfg h db with
      | None => ([], db, Failed)
      | Some (dag, db) => Run cfg h dag db
      end
  end.

(** Starts one after another on one directory. *)
Fixpoint starts (l : list (Settings * Host)) (db : DB) : DB :=
  match l with
  | [] => db
  | (cfg, h) :: l => starts l (snd (fst (run cfg h db)))
  end.

Definition eventsOf (r : started) : list startEvent := fst (fst r).
Definition directoryOf (r : started) : DB := snd (fst r).

(** ** The marker *)

(** No write of the node is the marker's: the keys differ in their prefix, their name or
    their length. *)
Lemma put_not_marker w k v : (k, v) ∈ putsOf w -> k <> stateAdoptedKey.
Proof using Type.
  assert (H32 : forall b : bytes, toHash b <> stateAdoptedKey) by (intros b Hb; apply (f_equal length) in Hb; unfold toHash in Hb; rewrite length_take, length_app, length_replicate in Hb; change (length stateAdoptedKey) with 14%nat in Hb; lia).
  assert (Hm : forall d : DAG DB, Forall (fun kv => fst kv <> stateAdoptedKey) (epochStateKVs d ++ accumulatorKVs d ++ [liveValidatorsKV d])).
  { intros d. unfold epochStateKVs, accumulatorKVs, liveValidatorsKV. destruct (strictLatched _); repeat (apply Forall_app; split); repeat (apply Forall_cons_2; [by vm_compute|]); apply Forall_nil_2. }
  destruct w as [id data|id|e|name|n|n|id n sig|hash data n producer|n|hash|n|n d b|hash|hash ev|id value|id|hash]; cbn [putsOf]; intros Hin.
  all: try (by apply elem_of_nil in Hin).
  all: try (apply list_elem_of_singleton in Hin; injection Hin as -> _; first [apply H32|by vm_compute|intros Hk; discriminate Hk]).
  - apply elem_of_cons in Hin as [Hin|Hin]; [|apply list_elem_of_singleton in Hin]; injection Hin as -> _; intros Hk; discriminate Hk.
  - apply elem_of_cons in Hin as [[= -> _]|Hin]; [by vm_compute|]. specialize (Hm d). rewrite Forall_forall in Hm. apply (Hm (k, v)). destruct b; set_solver.
Qed.

Lemma drop_not_marker w k : dropOf w = Some k -> k <> stateAdoptedKey.
Proof using Type.
  intros Hd Hk. destruct w; try discriminate Hd; injection Hd as <-; [|discriminate Hk|discriminate Hk].
  apply (f_equal length) in Hk. unfold toHash in Hk. rewrite length_take, length_app, length_replicate in Hk. change (length stateAdoptedKey) with 14%nat in Hk. lia.
Qed.

Lemma foldl_insert_other (l : list (bytes * bytes)) (k : bytes) : forall db : DB, (forall v, (k, v) ∉ l) -> foldl (fun db kv => <[fst kv := snd kv]> db) db l !! k = db !! k.
Proof using Type.
  induction l as [|[a v] l IH]; intros db Hl; [done|]. cbn [foldl fst snd]. rewrite IH by (intros u Hu; apply (Hl u); by right). apply lookup_insert_ne. intros ->. apply (Hl v). left.
Qed.

Lemma writes_keep_marker ws : forall db, runWrites db ws !! stateAdoptedKey = db !! stateAdoptedKey.
Proof using Type.
  induction ws as [|w ws IH]; intros db; [done|]. unfold runWrites in *. cbn [foldl]. rewrite IH. unfold applyWrite.
  assert (Hp : foldl (fun db kv => <[fst kv := snd kv]> db) db (putsOf w) !! stateAdoptedKey = db !! stateAdoptedKey) by (apply foldl_insert_other; intros v Hv; by apply put_not_marker in Hv).
  destruct (dropOf w) as [k|] eqn:Ed; [|exact Hp]. rewrite lookup_delete_ne; [exact Hp|by apply (drop_not_marker w)].
Qed.

Lemma domains_keep_marker (db : DB) entries : ImportDomains db entries !! stateAdoptedKey = db !! stateAdoptedKey.
Proof using Type.
  unfold ImportDomains. change (SetBatch db ?l !! ?k) with (db_map (SetBatch db l) !! k). rewrite SetBatch_map.
  destruct (foldl_insert_In (map (fun e => (domainKey (de_Name e), encodeDomainValue (de_Leaf e))) entries) (db_map db) stateAdoptedKey) as [(v & Hin & _)|[_ ->]]; [|done].
  apply list_elem_of_fmap in Hin as (e & Hk & _). discriminate Hk.
Qed.

(** Nor is anything a snapshot carries, whatever it holds. *)
Lemma snapshot_keeps_marker db snap db' : ApplySnapshot X db snap = inr db' -> db' !! stateAdoptedKey = db !! stateAdoptedKey.
Proof using Type. intros Ha. by apply (apply_untouched X db snap db' stateAdoptedKey Ha). Qed.

Lemma received_keeps_marker db snap db' : applySnapshotFrom db snap = Some db' -> db' !! stateAdoptedKey = db !! stateAdoptedKey.
Proof using Type.
  unfold applySnapshotFrom. destruct (ApplySnapshot X db snap) as [e|db1] eqn:Ea; [done|]. cbv zeta. intros E. apply (inj Some) in E. rewrite <- E, writes_keep_marker, <- (snapshot_keeps_marker db snap db1 Ea).
  destruct (Nat.ltb _ _); [apply domains_keep_marker|done].
Qed.

Definition unmarked (db : DB) : Prop := db !! stateAdoptedKey = None.

(** A start that may mark: a genesis start, or a join the gate let through. *)
Definition earns (cfg : Settings) (h : Host) (db : DB) : Prop :=
  cf_Bootstrap cfg = true \/ (SyncCompleted ∈ eventsOf (run cfg h db) /\ joinGate cfg h = true).

Lemma unmarked_not_adopted db : unmarked db -> HasAdoptedState db = false.
Proof. unfold unmarked, HasAdoptedState. by intros ->. Qed.

Lemma unmarked_no_resume cfg db : unmarked db -> resumesFromLocalState cfg db = false.
Proof. intros Hu. unfold resumesFromLocalState. destruct (_ || _); [done|by apply unmarked_not_adopted]. Qed.

Lemma performSync_marks cfg h db did db' ok : unmarked db -> performSync cfg h db = (did, db', ok) ->
  NodeResumed ∉ did /\ (unmarked db' \/ (SyncCompleted ∈ did /\ joinGate cfg h = true /\ ok = true)).
Proof using Type.
  intros Hu. unfold performSync. destruct (snap ← hs_snapshot h; applySnapshotFrom db snap) as [db1|] eqn:Es; [|intros [= <- <- <-]; split; [set_solver|by left]].
  apply bind_Some in Es as (snap & _ & Es). assert (Hu' : unmarked (runWrites db1 (hs_joined h))) by (unfold unmarked; by rewrite writes_keep_marker, (received_keeps_marker db snap)).
  cbv zeta. destruct (hs_rebuild h); cbn [negb]; [|intros [= <- <- <-]; split; [set_solver|by left]].
  destruct (joinGate cfg h); cbn [negb]; [|intros [= <- <- <-]; split; [set_solver|by left]].
  destruct (hs_mark h); cbn [negb]; intros [= <- <- <-]; (split; [set_solver|]); [right; split_and!; [set_solver|done|done]|by left].
Qed.

Lemma Run_marks cfg h dag db : unmarked db ->
  NodeResumed ∉ eventsOf (Run cfg h dag db) /\
  (unmarked (directoryOf (Run cfg h dag db)) \/ cf_Bootstrap cfg = true \/ (SyncCompleted ∈ eventsOf (Run cfg h dag db) /\ joinGate cfg h = true)).
Proof using Type.
  intros Hu. assert (Hv : forall db, unmarked db -> unmarked (runWrites db (hs_served h))) by (intros db0 H0; unfold unmarked; by rewrite writes_keep_marker).
  unfold Run. rewrite (unmarked_no_resume cfg db Hu). destruct (cf_Listener cfg).
  { unfold runListener. destruct (hs_connect h); cbn [negb]; [|cbn; split; [set_solver|by left]]. destruct (hs_snapshot h) as [snap|]; cbn [mbind option_bind]; [|cbn; split; [set_solver|by left]].
    destruct (ApplySnapshot X db snap) as [e|db1] eqn:Ea; cbn; (split; [set_solver|left]); [done|]. unfold unmarked. by rewrite (snapshot_keeps_marker db snap). }
  destruct (negb (cf_Bootstrap cfg) && negb (unset (cf_BootstrapAddr cfg))).
  - unfold runValidator. destruct (hs_connect h); cbn [negb]; [|cbn; split; [set_solver|by left]].
    destruct (performSync cfg h db) as [[did db'] ok] eqn:Ep. destruct (performSync_marks _ _ _ _ _ _ Hu Ep) as [Hr [Hm|(H1 & H2 & ->)]]; cbv zeta.
    + destruct ok, (hs_listen h), (hs_register h); cbn [negb eventsOf directoryOf fst snd]; (split; [set_solver|left]); first [exact Hm|by apply Hv].
    + destruct (hs_listen h), (hs_register h); cbn [negb eventsOf directoryOf fst snd]; (split; [set_solver|right; right; split; [set_solver|done]]).
  - unfold runBootstrap. destruct (cf_Bootstrap cfg) eqn:Eb; cbn [andb].
    + split; [|tauto]. destruct (hs_mark h), (hs_listen h), dag; cbn; set_solver.
    + destruct (hs_listen h), dag; cbn; (split; [set_solver|left]); first [exact Hu|by apply Hv].
Qed.

(** From an unmarked directory a start does not resume, and it leaves the directory
    unmarked unless it earns the mark. *)
Lemma run_marks cfg h db : unmarked db ->
  NodeResumed ∉ eventsOf (run cfg h db) /\ (unmarked (directoryOf (run cfg h db)) \/ earns cfg h db).
Proof.
  intros Hu. unfold earns, run. destruct (parseFlags cfg); [split; [cbn; set_solver|by left]|].
  destruct (NewNode cfg h db) as [[dag db1]|] eqn:En; [|split; [cbn; set_solver|by left]].
  assert (Hu1 : unmarked db1); [|by apply Run_marks].
  unfold NewNode in En. rewrite (unmarked_no_resume cfg db Hu) in En. repeat case_match; try done; injection En as <- <-; try exact Hu; unfold unmarked; by rewrite writes_keep_marker.
Qed.

Lemma starts_marks l : forall db, unmarked db ->
  unmarked (starts l db) \/ exists pre s post, l = pre ++ s :: post /\ earns (fst s) (snd s) (starts pre db).
Proof.
  induction l as [|[cfg h] l IH]; intros db Hu; [by left|]. cbn [starts].
  destruct (run_marks cfg h db Hu) as [_ [Hm|He]]; [|by right; exists [], (cfg, h), l].
  destruct (IH _ Hm) as [Hd|(pre & s & post & -> & He)]; [by left|]. right. by exists ((cfg, h) :: pre), s, post.
Qed.

(** A node that resumes on a directory that was once unmarked went through a genesis
    start or a join the gate let through on it: however often a refused join is started
    again, with whatever flags short of the genesis flag, it is never resumed. *)

(** C27. Over any sequence of starts with any flags on a directory that was unmarked,
    whatever snapshots the peers sent, whatever of its own writes the node made while
    built, joining and serving, and whatever failed, a start resumes local state only if
    an earlier start ran with the genesis flag or was a join that completed and that the
    gate let through (the gate is waived only by the insecure-bootstrap flag): no snapshot
    content and no write of the node sets the marker otherwise, so the directory of a
    refused join is not resumed, however often it is started again. *)
Theorem resume_was_earned l db cfg h :
  unmarked db -> NodeResumed ∈ eventsOf (run cfg h (starts l db)) ->
  exists pre s post, l = pre ++ s :: post /\
    (cf_Bootstrap (fst s) = true \/ (SyncCompleted ∈ eventsOf (run (fst s) (snd s) (starts pre db)) /\ joinGate (fst s) (snd s) = true)).
Proof using Type.
  intros Hu Hr. destruct (starts_marks l db Hu) as [Hm|He]; [|exact He]. by destruct (run_marks cfg h (starts l db) Hm).
Qed.

(** ** A start has the DAG it uses *)

(** Short of the listener and of the two flags together, no start reaches for a DAG it
    has not built. *)
Theorem consistent_starts_have_a_dag cfg h db :
  cf_Listener cfg = false -> cf_Bootstrap cfg = false \/ unset (cf_BootstrapAddr cfg) = true ->
  HasAdoptedState (runWrites db (hs_built h)) = HasAdoptedState db -> snd (run cfg h db) <> Panicked.
Proof.
  intros Hl Hf Hb. unfold run. destruct (parseFlags cfg); [done|]. unfold NewNode, Run. rewrite Hl.
  destruct (hs_storage h && hs_podVM h && hs_state h && hs_network h); [|done].
  assert (Hv : forall db, snd (runValidator cfg h db) <> Panicked).
  { intros db0. unfold runValidator. destruct (hs_connect h); [|done]. destruct (performSync cfg h db0) as [[did db'] ok]. cbn [negb]. cbv zeta.
    destruct ok, (hs_listen h), (hs_register h); done. }
  assert (Hr : forall db, snd (runResume h true db) <> Panicked) by (intros db0; unfold runResume; cbn [negb]; by destruct (hs_listen h)).
  assert (Ht : forall db, snd (runBootstrap cfg h true db) <> Panicked) by (intros db0; unfold runBootstrap; cbn [negb]; destruct (cf_Bootstrap cfg), (hs_mark h), (hs_listen h); done).
  destruct (unset (cf_BootstrapAddr cfg)) eqn:Ea; cbn [orb negb].
  - destruct (hs_consensus h); [|done]. rewrite andb_false_r. destruct (resumesFromLocalState cfg (runWrites db (hs_built h))); auto.
  - destruct Hf as [Hf|Hf]; [|done]. rewrite Hf. unfold resumesFromLocalState. rewrite Hf, Ea. cbn [orb negb andb].
    destruct (HasAdoptedState db) eqn:Ed.
    + destruct (hs_consensus h); [|done]. rewrite Hb. auto.
    + rewrite Ed. auto.
Qed.

(** A listener never serves: it fails, or it applies the snapshot and reaches for the
    state it was not given. *)
Theorem listener_never_serves cfg h db : cf_Listener cfg = true -> snd (run cfg h db) <> Served.
Proof.
  intros Hl. unfold run, NewNode, Run. rewrite Hl. destruct (parseFlags cfg); [done|]. destruct (unset _); [done|]. destruct (_ && _); [|done].
  unfold runListener. destruct (hs_connect h); [|done]. cbn [negb]. by destruct (snap ← hs_snapshot h; _).
Qed.

(** With the genesis flag and an upstream together no DAG is built and the genesis path
    is taken: the directory is marked and the start ends in a panic. Over the residue of
    a refused join, the next start with the upstream alone resumes it. *)
Theorem both_flags_launder_a_refused_join cfg h db cfg' h' :
  cf_Listener cfg = false -> cf_Bootstrap cfg = true -> unset (cf_BootstrapAddr cfg) = false -> validateLogFormat cfg = None ->
  hs_storage h && hs_podVM h && hs_state h && hs_network h = true -> hs_mark h = true -> hs_listen h = true ->
  snd (run cfg h db) = Panicked /\ directoryOf (run cfg h db) = MarkStateAdopted db /\
  (HasAdoptedState (MarkStateAdopted db) = true -> parseFlags cfg' = None -> cf_Listener cfg' = false -> cf_Bootstrap cfg' = false -> unset (cf_BootstrapAddr cfg') = false ->
   hs_storage h' && hs_podVM h' && hs_state h' && hs_network h' = true -> hs_consensus h' = true -> hs_listen h' = true ->
   HasAdoptedState (runWrites (MarkStateAdopted db) (hs_built h')) = true ->
   NodeResumed ∈ eventsOf (run cfg' h' (directoryOf (run cfg h db)))).
Proof.
  intros Hl Hb Ha Hf Hi Hm Hs.
  assert (E : run cfg h db = ([Listening; HandlersSet; RequestHandlersSet; SnapshotsStarted], MarkStateAdopted db, Panicked)).
  { unfold run, parseFlags, validateTrustAnchor, NewNode, Run, resumesFromLocalState. rewrite Hf, Hb, Hl, Hi, Ha. cbn [orb negb andb]. unfold runBootstrap. by rewrite Hb, Hm, Hs. }
  rewrite E. split; [done|]. split; [done|]. cbn [directoryOf fst snd]. intros Had Hp Hl' Hb' Ha' Hi' Hc' Hs' Hbuilt.
  unfold run, NewNode, Run, resumesFromLocalState. rewrite Hp, Hl', Hb', Ha', Hi'. cbn [orb]. rewrite Had. cbn [orb]. rewrite Hc', Hbuilt. unfold runResume. cbn [negb]. rewrite Hs'. cbn. set_solver.
Qed.

(** ** Registration *)

Definition keepsAdopted (h : Host) : Prop := forall db, HasAdoptedState db = true -> HasAdoptedState (runWrites db (hs_built h)) = true /\ HasAdoptedState (runWrites db (hs_served h)) = true.

Definition joining (cfg : Settings) : Prop := cf_Listener cfg = false /\ cf_Bootstrap cfg = false /\ unset (cf_BootstrapAddr cfg) = false.

Lemma resumed_run cfg h db : joining cfg -> keepsAdopted h -> HasAdoptedState db = true ->
  Registered ∉ eventsOf (run cfg h db) /\ HasAdoptedState (directoryOf (run cfg h db)) = true.
Proof.
  intros (Hl & Hb & Ha) Hk Hd. unfold run. destruct (parseFlags cfg); [split; [cbn; set_solver|done]|].
  unfold NewNode, Run, resumesFromLocalState. rewrite Hl, Hb, Ha, Hd. cbn [orb].
  destruct (hs_storage h && hs_podVM h && hs_state h && hs_network h); [|split; [cbn; set_solver|done]].
  destruct (hs_consensus h); [|split; [cbn; set_solver|done]]. destruct (Hk db Hd) as [H1 _]. rewrite H1.
  unfold runResume. cbn [negb]. destruct (hs_listen h); cbn; (split; [set_solver|]); [by apply (Hk (runWrites db (hs_built h)))|done].
Qed.

(** A join that passed the gate and whose registration was not submitted leaves an
    adopted directory: once it has committed a round, every later start with the same
    flags resumes, and none ever registers. *)
Theorem lost_registration_stays_lost cfg h db l h' :
  joining cfg -> SyncCompleted ∈ eventsOf (run cfg h db) -> hs_register h = false -> HasAdoptedState (directoryOf (run cfg h db)) = true ->
  Forall keepsAdopted l -> keepsAdopted h' ->
  Registered ∉ eventsOf (run cfg h db) /\ snd (run cfg h db) = Failed /\
  Registered ∉ eventsOf (run cfg h' (starts (map (pair cfg) l) (directoryOf (run cfg h db)))).
Proof.
  intros Hj Hs Hr Had Hl Hh'. assert (H1 : Registered ∉ eventsOf (run cfg h db) /\ snd (run cfg h db) = Failed).
  { destruct Hj as (Hlis & Hb & Ha). clear Had. revert Hs. unfold run. destruct (parseFlags cfg); [cbn; set_solver|]. unfold NewNode, Run, resumesFromLocalState. rewrite Hlis, Hb, Ha. cbn [orb negb andb].
    destruct (hs_storage h && hs_podVM h && hs_state h && hs_network h); [|cbn; set_solver].
    assert (Hv : forall db, SyncCompleted ∈ eventsOf (runValidator cfg h db) -> Registered ∉ eventsOf (runValidator cfg h db) /\ snd (runValidator cfg h db) = Failed).
    { intros db0 _. unfold runValidator, performSync. rewrite Hr. repeat case_match; simplify_eq; cbn; (split; [set_solver|done]). }
    assert (Hx : forall dag db, SyncCompleted ∉ eventsOf (runResume h dag db)) by (intros dag db0; unfold runResume; destruct dag, (hs_listen h); cbn; set_solver).
    destruct (HasAdoptedState db) eqn:Ed.
    - destruct (hs_consensus h); [|cbn; set_solver]. destruct (HasAdoptedState (runWrites db (hs_built h))); [by intros ?%Hx|apply Hv].
    - rewrite Ed. apply Hv. }
  destruct H1 as [H1 H2]. split_and!; [done|done|]. generalize dependent (directoryOf (run cfg h db)). clear H1 H2 Hs.
  induction l as [|x l IH]; intros db0 Hd0; cbn [map starts].
  - by apply resumed_run.
  - apply Forall_cons in Hl as [Hx Hl]. apply IH; [done|]. by apply resumed_run.
Qed.

End Starts.

(** ** The flag reads back *)

(** [%d] of a 64-bit number. *)
Fixpoint formatDigits (fuel : nat) (n : Z) : bytes :=
  match fuel with
  | O => []
  | S fuel => if n <? 10 then [48 + n] else formatDigits fuel (n / 10) ++ [48 + n mod 10]
  end.

Definition FormatUint (n : Z) : bytes := formatDigits 20 n.

Definition formatCheckpoint (cp : trustCheckpoint) : bytes := FormatUint (tk_epoch cp) ++ [58] ++ EncodeToString (tk_validatorRoot cp).

Lemma parseDigits_app a b acc : parseDigits acc (a ++ b) = (n ← parseDigits acc a; parseDigits n b).
Proof. revert acc. induction a as [|x a IH]; intros acc; [done|]. cbn [app parseDigits]. destruct (_ && _); [|done]. cbv zeta. destruct (_ <=? _); [done|apply IH]. Qed.

Lemma formatDigits_spec fuel : forall n, 0 <= n < 10 ^ Z.of_nat fuel -> n < two64 -> (0 < fuel)%nat ->
  parseDigits 0 (formatDigits fuel n) = Some n /\ formatDigits fuel n <> [] /\ Forall (fun x => 48 <= x <= 57) (formatDigits fuel n).
Proof.
  induction fuel as [|fuel IH]; intros n Hn Hu Hf; [lia|]. cbn [formatDigits]. destruct (Z.ltb_spec n 10) as [Hlt|Hge].
  - cbn [parseDigits]. destruct (Z.leb_spec 48 (48 + n)), (Z.leb_spec (48 + n) 57); try lia. cbn [andb]. cbv zeta.
    replace (10 * 0 + (48 + n - 48)) with n by lia. destruct (Z.leb_spec two64 n); [lia|]. split_and!; [done|done|]. constructor; [lia|constructor].
  - rewrite Nat2Z.inj_succ, Z.pow_succ_r in Hn by lia. assert (Hq : 0 <= n / 10 < 10 ^ Z.of_nat fuel) by (split; [apply Z.div_pos; lia|apply Z.div_lt_upper_bound; lia]).
    assert (Hf' : (0 < fuel)%nat) by (destruct fuel; [cbn in Hq; pose proof (Z.div_le_mono 10 n 10 ltac:(lia) Hge); change (10 / 10) with 1 in *; lia|lia]).
    destruct (IH (n / 10) Hq) as (H1 & H2 & H3); [pose proof (Z.div_le_upper_bound n 10 n); lia|done|].
    pose proof (Z.mod_pos_bound n 10 ltac:(lia)) as Hm. pose proof (Z.div_mod n 10 ltac:(lia)) as Hd.
    rewrite parseDigits_app, H1. cbn [mbind option_bind parseDigits]. destruct (Z.leb_spec 48 (48 + n mod 10)), (Z.leb_spec (48 + n mod 10) 57); try lia. cbn [andb]. cbv zeta.
    replace (10 * (n / 10) + (48 + n mod 10 - 48)) with n by lia. destruct (Z.leb_spec two64 n); [lia|].
    split_and!; [done|by destruct (formatDigits fuel (n / 10))|]. apply Forall_app. split; [done|]. constructor; [lia|constructor].
Qed.

Lemma cutColon_digits a b : Forall (fun x => 48 <= x <= 57) a -> cutColon (a ++ 58 :: b) = Some (a, b).
Proof. induction 1 as [|x a Hx _ IH]; [done|]. cbn [app cutColon]. destruct (Z.eqb_spec x 58); [lia|]. by rewrite IH. Qed.

(** Every published checkpoint is read back as it is. *)
Theorem checkpoint_reads_back cp : is_u64 (tk_epoch cp) -> wf_bytes (tk_validatorRoot cp) -> length (tk_validatorRoot cp) = 32%nat ->
  parseTrustCheckpoint (formatCheckpoint cp) = Some cp.
Proof.
  intros He Hw Hl. unfold parseTrustCheckpoint, formatCheckpoint, FormatUint. cbn [app].
  destruct (formatDigits_spec 20 (tk_epoch cp)) as (H1 & H2 & H3); [unfold is_u64 in He; change (10 ^ Z.of_nat 20) with 100000000000000000000; lia|apply He|lia|].
  rewrite cutColon_digits by done. cbn [mbind option_bind]. unfold ParseUint. destruct (formatDigits 20 (tk_epoch cp)) as [|x l] eqn:E; [done|]. rewrite H1. cbn [mbind option_bind].
  rewrite hex_roundtrip by done. cbn [mbind option_bind]. rewrite Hl. cbn. by destruct cp.
Qed.

(** ** A join, then a restart *)

Definition joinSettings : Settings := mkSettings false false (str "upstream:9000") [] (str "text") [] true.

(** A founder's snapshot with one validator and no object, and a gate the operator
    waives. *)
Definition joinCrypto : Crypto := mkCrypto (fun b => take 32 (b ++ replicate 32 0)) (fun _ => []) (fun _ _ _ => true) (fun _ _ _ _ => true).
Definition joinSnapshot : Snapshot := CreateSnapshot joinCrypto (∅ : DB) 5 [] [] [] [] 1000 900 0 [].
Definition joinDag : DAG DB := set_ledger emptyDag (mkLedger ∅ None None (NewValidatorSet [replicate 32 7]) None []).

Definition joinHost (registered : bool) : Host :=
  mkHost true true true true true true true true (Some joinSnapshot) true joinDag 4 [] registered [] [PutCursor 5 joinDag true] [PutObject (replicate 32 9) [1]; PutCursor 6 joinDag false].

Abbreviation joinRun := (run joinCrypto regimeConfig).
Definition resumed : list startEvent := [HandlersSet; RequestHandlersSet; Listening; MeshJoined; SnapshotsStarted; CommitsProcessed; NodeResumed; NodeReady].

Lemma resume_was_earned_witness :
  eventsOf (joinRun joinSettings (joinHost true) (starts joinCrypto regimeConfig [(joinSettings, joinHost true)] ∅)) = resumed /\
  exists pre s post, [(joinSettings, joinHost true)] = pre ++ s :: post /\
    (cf_Bootstrap (fst s) = true \/
     (SyncCompleted ∈ eventsOf (joinRun (fst s) (snd s) (starts joinCrypto regimeConfig pre ∅)) /\ joinGate joinCrypto regimeConfig (fst s) (snd s) = true)).
Proof.
  assert (Hr : eventsOf (joinRun joinSettings (joinHost true) (starts joinCrypto regimeConfig [(joinSettings, joinHost true)] ∅)) = resumed) by (vm_compute; reflexivity).
  split; [exact Hr|]. apply (resume_was_earned joinCrypto regimeConfig [(joinSettings, joinHost true)] ∅ joinSettings (joinHost true)).
  - reflexivity.
  - rewrite Hr. unfold resumed. do 6 apply list_elem_of_further. apply list_elem_of_here.
Defined.

(** The same join without its registration, and the restart that follows. *)
Example registration_is_lost :
  snd (joinRun joinSettings (joinHost false) ∅) = Failed /\
  eventsOf (joinRun joinSettings (joinHost true) (directoryOf (joinRun joinSettings (joinHost false) ∅))) = resumed.
Proof. vm_compute. split; reflexivity. Qed.

(** ** Counters of the committed stream (stats.go, node.go)

    What a node counts of the transactions it commits, and the loop that feeds the
    counters and the status index.  Times are nanoseconds of the node's clock, which
    the source reads twice per record. *)



Definition tpsWindow : Z := 10 * 1000000000.
Definition recentTxCap : nat := 20.

Record Stats := mkStats {
  st_totalTx : Z;
  st_failedTx : Z;
  st_window : list Z;
  st_recent : list CommittedTx;
}.

Definition newStats : Stats := mkStats 0 0 [] [].

Fixpoint dropBefore (cutoff : Z) (window : list Z) : list Z :=
  match window with
  | [] => []
  | t :: rest => if t <? cutoff then dropBefore cutoff rest else window
  end.

Definition pruneWindow (now : Z) (window : list Z) : list Z := dropBefore (now - tpsWindow) window.

(** [record]; [now] is the first reading of the clock and [later] the second. *)
Definition record (s : Stats) (tx : CommittedTx) (now later : Z) : Stats :=
  let recent := st_recent s ++ [tx] in
  mkStats (st_totalTx s +w 1) (if ct_Success tx then st_failedTx s else st_failedTx s +w 1)
    (pruneWindow later (st_window s ++ [now]))
    (if Nat.ltb recentTxCap (length recent) then drop (length recent - recentTxCap) recent else recent).

(** [TPS] in commits per window: the source divides by the ten seconds. *)
Definition TPS (s : Stats) (now : Z) : Stats * Z :=
  let window := pruneWindow now (st_window s) in
  (mkStats (st_totalTx s) (st_failedTx s) window (st_recent s), Z.of_nat (length window)).

Definition Recent (s : Stats) : list CommittedTx := st_recent s.

(** One turn of [processCommitted]: a transaction, the cursor it reads and the clock. *)
Record commitTurn := mkTurn { cm_tx : CommittedTx; cm_round : Z; cm_now : Z; cm_later : Z }.

Section Process.
Context (reasonCode : FailReason -> Z).

Definition processOne (x : Stats * txStatusIndex) (t : commitTurn) : Stats * txStatusIndex :=
  let tx := cm_tx t in
  (record (fst x) tx (cm_now t) (cm_later t),
   prune (markTxCommitted (snd x) (ct_Hash tx) (ct_Success tx) (reasonCode (ct_Reason tx)) (cm_round t)) (cm_round t)).

Definition processCommitted (l : list commitTurn) : Stats * txStatusIndex := foldl processOne (newStats, newTxStatusIndex) l.

End Process.

(** *** The window *)

Lemma filter_kept (P : Z -> Prop) `{forall x, Decision (P x)} l : Forall P l -> filter P l = l.
Proof. induction 1 as [|x l Hx _ IH]; [done|]. by rewrite filter_cons_True, IH. Qed.

Lemma Forall_filtered (P Q : Z -> Prop) `{forall x, Decision (P x)} l : Forall Q l -> Forall Q (filter P l).
Proof. rewrite !Forall_forall. intros Hl x Hx. apply list_elem_of_filter in Hx as [_ Hx]. by apply Hl. Qed.

Lemma dropBefore_sorted cutoff l : StronglySorted Z.le l -> dropBefore cutoff l = filter (fun t => cutoff <= t) l.
Proof.
  induction 1 as [|t l Hs IH Ht]; [done|]. cbn [dropBefore]. destruct (Z.ltb_spec t cutoff) as [Hlt|Hge].
  - rewrite filter_cons_False by lia. exact IH.
  - symmetry. apply filter_kept. constructor; [lia|]. eapply Forall_impl; [exact Ht|]. intros x Hx. cbv beta in *. lia.
Qed.

(** The clock of a stream of turns does not run backwards from [t0]. *)
Fixpoint monotone (t0 : Z) (l : list commitTurn) : Prop :=
  match l with
  | [] => True
  | t :: l => t0 <= cm_now t <= cm_later t /\ monotone (cm_later t) l
  end.

Lemma filter_filter_le (a b : Z) (l : list Z) : a <= b -> filter (fun t => b <= t) (filter (fun t => a <= t) l) = filter (fun t => b <= t) l.
Proof.
  intros Hab. induction l as [|t l IH]; [done|]. rewrite !filter_cons. destruct (decide (a <= t)).
  - rewrite filter_cons. destruct (decide (b <= t)); by rewrite ?IH.
  - destruct (decide (b <= t)); [lia|done].
Qed.

Lemma sorted_filter (a : Z) l : StronglySorted Z.le l -> StronglySorted Z.le (filter (fun t => a <= t) l).
Proof.
  induction 1 as [|t l Hs IH Ht]; [constructor|]. rewrite filter_cons. destruct (decide (a <= t)); [|exact IH]. constructor; [exact IH|]. by apply Forall_filtered.
Qed.

Lemma sorted_snoc_le l t : StronglySorted Z.le l -> Forall (fun x => x <= t) l -> StronglySorted Z.le (l ++ [t]).
Proof.
  induction 1 as [|x l Hs IH Hx]; intros Hl; cbn [app]; [repeat constructor|]. apply Forall_cons in Hl as [Hxt Hl]. constructor; [by apply IH|]. apply Forall_app. split; [done|]. by repeat constructor.
Qed.

(** *** The counters *)

Definition lastTime (t0 : Z) (l : list commitTurn) : Z := default t0 (cm_later <$> last l).

Definition failures (l : list commitTurn) : nat := length (filter (fun t => ct_Success (cm_tx t) = false) l).

Lemma monotone_snoc t0 l t : monotone t0 (l ++ [t]) <-> monotone t0 l /\ lastTime t0 l <= cm_now t <= cm_later t.
Proof.
  revert t0. induction l as [|x l IH]; intros t0; cbn [app monotone]; [unfold lastTime; cbn; tauto|]. rewrite IH.
  assert (E : lastTime t0 (x :: l) = lastTime (cm_later x) l) by (unfold lastTime; rewrite last_cons; by destruct (last l)). rewrite E. tauto.
Qed.

Lemma monotone_times t0 l : monotone t0 l -> StronglySorted Z.le (map cm_now l) /\ Forall (fun x => x <= lastTime t0 l) (map cm_now l).
Proof.
  induction l as [|t l IH] using rev_ind; intros Hm; [repeat constructor|]. apply monotone_snoc in Hm as [Hm Ht]. destruct (IH Hm) as [H1 H2].
  rewrite map_app. cbn [map]. assert (H3 : Forall (fun x => x <= cm_now t) (map cm_now l)) by (eapply Forall_impl; [exact H2|]; cbv beta; lia).
  split; [by apply sorted_snoc_le|]. unfold lastTime. rewrite last_snoc. cbn. apply Forall_app. split; [|constructor; [lia|constructor]]. eapply Forall_impl; [exact H3|]. cbv beta. lia.
Qed.

Record counted (t0 : Z) (l : list commitTurn) (s : Stats) : Prop := {
  ct_total : st_totalTx s = Z.of_nat (length l);
  ct_failed : st_failedTx s = Z.of_nat (failures l);
  ct_window : st_window s = filter (fun t => lastTime t0 l - tpsWindow <= t) (map cm_now l);
  ct_recent : st_recent s = drop (length l - recentTxCap) (map cm_tx l);
}.

Lemma recent_snoc {A} (l : list A) x n : (n - recentTxCap <= length l)%nat -> length l = n ->
  (let recent := drop (n - recentTxCap) l ++ [x] in if Nat.ltb recentTxCap (length recent) then drop (length recent - recentTxCap) recent else recent) = drop (S n - recentTxCap) (l ++ [x]).
Proof.
  intros Hn Hl. cbv zeta. rewrite length_app, length_drop. cbn [length]. unfold recentTxCap in *. destruct (Nat.ltb_spec 20 (length l - (n - 20) + 1)) as [Hlt|Hge].
  - replace (length l - (n - 20) + 1 - 20)%nat with 1%nat by lia. rewrite <- (drop_app_le l [x]) by lia. rewrite drop_drop. f_equal. lia.
  - rewrite <- (drop_app_le l [x]) by lia. f_equal. lia.
Qed.

Lemma processed_counts (reasonCode : FailReason -> Z) t0 l : monotone t0 l -> Z.of_nat (length l) < two64 -> counted t0 l (fst (processCommitted reasonCode l)).
Proof.
  induction l as [|t l IH] using rev_ind; intros Hm Hn; [by split|]. pose proof Hm as Hm0. apply monotone_snoc in Hm as [Hm Ht]. rewrite length_app in Hn. cbn [length] in Hn.
  destruct (IH Hm) as [H1 H2 H3 H4]; [lia|]. destruct (monotone_times t0 l Hm) as [Hs Hb].
  assert (Hf : (failures l <= length l)%nat) by (unfold failures; apply length_filter).
  unfold processCommitted in *. rewrite foldl_snoc. set (x := foldl _ _ l) in *. unfold processOne. cbn [fst]. unfold record. split; cbn [st_totalTx st_failedTx st_window st_recent].
  - rewrite H1, length_app. cbn [length]. unfold add64, u64. rewrite Z.mod_small by lia. lia.
  - unfold failures in *. rewrite filter_app, length_app, filter_cons, filter_nil, H2. destruct (ct_Success (cm_tx t)) eqn:Es; [rewrite decide_False by done; cbn [length]; lia|]. rewrite decide_True by done. cbn [length]. unfold add64, u64. rewrite Z.mod_small by lia. lia.
  - assert (El : lastTime t0 (l ++ [t]) = cm_later t) by (unfold lastTime; by rewrite last_snoc). rewrite El. unfold pruneWindow. rewrite H3, map_app. cbn [map]. rewrite dropBefore_sorted.
    + rewrite !filter_app. f_equal. rewrite filter_filter_le by lia. done.
    + apply sorted_snoc_le; [by apply sorted_filter|]. apply Forall_filtered. eapply Forall_impl; [exact Hb|]. cbv beta. lia.
  - rewrite H4. etransitivity; [apply (recent_snoc (map cm_tx l) (cm_tx t) (length l)); rewrite ?length_map; lia|].
    rewrite map_app, (length_app l [t]). cbn [length map]. f_equal. lia.
Qed.

(** After any stream of commits on a clock that does not run backwards, the node's total
    and failed counts are the stream's, the list of recent transactions is its last
    twenty in order, and the rate read at a later time counts exactly the commits of the
    ten seconds before. *)
Theorem counters_follow_the_stream (reasonCode : FailReason -> Z) t0 l now :
  monotone t0 l -> Z.of_nat (length l) < two64 -> lastTime t0 l <= now ->
  let s := fst (processCommitted reasonCode l) in
  st_totalTx s = Z.of_nat (length l) /\ st_failedTx s = Z.of_nat (failures l) /\ Recent s = drop (length l - recentTxCap) (map cm_tx l) /\
  snd (TPS s now) = Z.of_nat (length (filter (fun t => now - tpsWindow <= cm_now t) l)).
Proof.
  intros Hm Hn Hnow. cbv zeta. destruct (processed_counts reasonCode t0 l Hm Hn) as [H1 H2 H3 H4]. destruct (monotone_times t0 l Hm) as [Hs Hb].
  split_and!; [done|done|done|]. unfold TPS, pruneWindow. cbn [snd]. rewrite H3, dropBefore_sorted by (by apply sorted_filter). rewrite filter_filter_le by lia.
  f_equal. clear. induction l as [|t l IH]; [done|]. cbn [map]. rewrite !filter_cons. repeat case_decide; cbn [length]; congruence.
Qed.
